(* ===== verification/_CoqProject ===== *)
-Q . S2P
Prelude.v
Text.v
Table.v
Valkey.v
Codec.v
Breaker.v
RateLimit.v
Submission.v
UndoSend.v
ScheduledSend.v
FeatureFlags.v
Json.v
AuditLog.v
Calendar.v
Billing.v
Lifecycle.v
Deliverability.v
OAuth.v
OAuthTokens.v
Cutover.v
Webhooks.v
Integrations.v
AdminAccess.v
Envelope.v
Totp.v
Sessions.v
JmapProxy.v
JmapClient.v
Retention.v
Snooze.v
ConfidentialSend.v
SendHooks.v
Auth.v
Aliases.v
Shards.v
Tenants.v
BillingHooks.v
Signup.v
Dns.v
Welcome.v
