(* ===== verification/Prelude.v ===== *)
(** * KMail control plane: verification library

    KMail is a multi-tenant mail platform: a Go control plane in front of the
    Stalwart mail server, with PostgreSQL for records and Valkey for counters
    and queues.  The development models the parts of the control plane that
    carry decisions of their own and proves what they promise.

    ** Parts of the program and their files

    - [Prelude]: Go results, lost calls and transactions, machine integers,
      shared lemmas and tactics.
    - [Text]: packages strings, strconv, encoding/hex and encoding/base64.
    - [Table]: SQL tables as lists of rows, updates and counts over them.
    - [Valkey]: the server, as a class of the commands the program issues
      ([Valkey], [ValkeyCounter]) and their documented effect on one key
      ([ValkeyLaws], [ValkeyCounterLaws]), with the sets of the session ledger
      ([ValkeySets]).  [RefStore], [RefCounter] and [RefSets] satisfy the laws
      and run the examples.
    - [Codec]: big-endian words and base32 of encoding/binary and
      encoding/base32.
    - [Breaker] (src/internal/jmap/breaker.go): circuit breaker of the JMAP
      proxy, the in-process one ([InProcess]) and the shared one ([Redis]).
    - [RateLimit] (src/internal/middleware/ratelimit.go and
      ratelimit_fallback.go): sliding-window script, token-bucket fallback,
      middleware.
    - [UndoSend] (src/internal/undosend/service.go, worker.go): the queue of
      held submissions and its dispatch worker.
    - [ScheduledSend] (src/internal/scheduledsend/service.go, worker.go): the
      PostgreSQL queue of scheduled submissions, claimed under a lease.
      [Submission] holds what both workers exchange with the mail server.
    - [FeatureFlags] (src/internal/featureflags): store, resolver and admin
      handlers with their caches.
    - [AuditLog] (src/internal/audit/audit.go): hash-chained log.  [Json] holds
      the text of its metadata as encoding/json writes it and the value a
      jsonb column gives back, bad UTF-8 and float64 included.
    - [Calendar]: civil dates of package time.
    - [Billing] (src/internal/billing/billing.go): quotas, seats, plans,
      invoices.
    - [Lifecycle] (src/internal/billing/lifecycle.go, dunning.go):
      provisioning, proration, subscriptions, failed payments.
    - [Deliverability] (src/internal/deliverability: suppression.go,
      bounce.go, sendlimit.go, warmup.go, ippool.go).
    - [OAuth] (src/internal/oauth: service.go, handlers.go, middleware.go,
      types.go): the OAuth2 authorization server.  [OAuthTokens] holds the
      invariant of its tables and the theorems about histories.
    - [Cutover] (src/internal/search/cutover.go, cutover_worker.go,
      service.go): moving a tenant's index between search back ends.
    - [Webhooks] (src/internal/webhooks): endpoints, the queue of deliveries
      and the worker that posts them, signatures.
    - [Integrations] (src/internal/integrations): webhooks of OAuth2 clients;
      composes [OAuth], [Webhooks] and the counters of [Valkey].
    - [AdminAccess] (src/internal/approval, src/internal/adminproxy):
      approvals, the gate of sensitive actions, operator sessions and the
      proxy into a tenant's mailboxes.
    - [Envelope] (src/internal/cmk/envelope.go, src/internal/secrets): the
      ring of wrapping keys and envelope encryption of secrets.
    - [Totp] (src/internal/middleware/totp.go, totp_store.go): time-based
      one-time codes and recovery codes.
    - [Sessions] (src/internal/middleware, session ledger and its
      middleware): idle and absolute lifetime, cap on concurrent sessions.
    - [JmapProxy] (src/internal/jmap/proxy.go): the reverse proxy, its session
      rewriting, shard selection and use of the breaker of [Breaker].
    - [JmapClient] (src/internal/jmap/internal_client.go, email_ops.go): the
      control plane's own JMAP client and the operator of mailboxes it gives
      to other components ([OperatorLaws]).
    - [Retention] (src/internal/retention): policies, legal hold, and the
      enforcement worker on top of the operator of [JmapClient].
    - [Snooze] (src/internal/snooze): the snooze service, its handlers and the
      worker that wakes messages.
    - [ConfidentialSend] (src/internal/confidentialsend): links to encrypted
      messages, the public portal and its limiter, the client of the MLS
      service.
    - [SendHooks] (src/internal/undosend and src/internal/scheduledsend:
      proxy_hook.go, handlers.go): the interceptors that take a submission
      out of a batch; composes [JmapProxy], [JmapClient], [UndoSend] and
      [ScheduledSend].
    - [Auth] (src/internal/middleware: auth.go, jwks.go, lazy_provision.go):
      bearer tokens of the issuer, the cache of its keys, provisioning on
      first sight; composed with [JmapProxy].
    - [Aliases] (src/internal/tenant: aliases.go, stalwart_alias.go,
      stalwart_alias_sync_queue.go, stalwart_alias_sync_worker.go): secondary
      addresses, the queue of intents and the push into the mail server.
      [AliasSync] is the interface between service and push, [AliasSyncLaws]
      what the push promises, which [http_sync_laws] derives from the
      server's get and set ([StalwartLaws]).
    - [Shards] (src/internal/tenant: shard.go, autoprovision.go,
      exec_provisioner.go, shard_handlers.go): placement of tenants on mail
      servers and the provisioning of new ones.
    - [Tenants] (src/internal/tenant/service.go): tenants, users, domains,
      shared inboxes.  [SeatAccounter] is the interface to the accounting of
      seats, [SeatLaws] its contract, [billing_seat_laws] its proof for
      [Billing].
    - [BillingHooks] (src/internal/billing: storage_events.go,
      storage_event_worker.go, quota_worker.go, webhook.go): the signed
      webhooks of the object store and of Stripe, the workers that keep the
      quotas of [Billing].
    - [Signup] (src/internal/tenant: signup.go, signup_wiring.go,
      signup_handlers.go): self-service signup; composes [Tenants] and the
      Stripe webhook of [BillingHooks].
    - [Dns] (src/internal/dns: dns.go, dkim_rotation.go, handlers.go,
      dkim_handlers.go): the records of a domain, their verification, DKIM
      keys sealed by the envelope of [Envelope] ([Opens]).
    - [Welcome] (src/internal/tenant/signup_wiring.go): the welcome mail of a
      signup, sent with the client of [JmapClient]; it is the mailer of
      [Signup].

    ** How code is represented

    Functions keep their Go names.  A Go error is the [Err] of a [result]; a
    method that changes a table or a key passes the state.  Each remote call
    or transaction takes a [delivery]: it takes effect and answers, is lost
    before it takes effect, or takes effect and the answer is lost.  A
    transaction ([BeginFunc]) takes effect as a whole or not at all.  Instants
    are integers: nanoseconds for Go's clock, milliseconds for the server's;
    both are arguments, so a theorem says which clocks it assumes what of.
    [int64] results are wrapped ([wrap64]) where the code can overflow;
    PostgreSQL columns refuse values out of range.  Lua scripts and
    transaction pipelines are atomic.  Where calls of several pods interleave
    ([UndoSend], [ScheduledSend], [FeatureFlags], [AuditLog], [Cutover],
    [Webhooks], [Snooze], [Aliases], [Shards], [Signup])
    there is a step relation whose steps are the atomic actions, and theorems
    are about all its runs.  Where each call is one transaction ([OAuth],
    [AdminAccess], [Totp], [Sessions], [ConfidentialSend], [Auth], [Tenants],
    [BillingHooks], [Dns]) theorems are about all sequences of calls; the two
    transactions of a refresh ([OAuth]) and of an enrolment or a removal
    ([Totp], [roam]) also have other calls in between.  The mail server and
    the network behind the JMAP client are a type of worlds that calls
    transform.

    ** What is shown

    - Valkey-backed and in-process breakers: invariant of every run, when a
      failure opens the breaker and for how long, when it stays closed, and
      that the scripts refine the in-process breaker at readings of the clock
      cut to the millisecond.
    - Rate limiter: what one call of the script decides and writes, at most
      the limit in any window over all runs, levels and bursts of the
      fallback, and the ceiling during an outage over any stretch of any
      history, with the rounding of float64 bounded ([Float64ValueLaws]).
    - Undo send: a cancelled submission is never sent and none is sent twice,
      for all interleavings; outcome of one attempt, liveness of a tick,
      bound on attempts.
    - Scheduled send: no row is accepted twice while leases are kept, for all
      interleavings; cancelling is final; outcome of one iteration; a tick
      sends what is due; a row belongs to its user.
    - Feature flags: answers are those of the tables at most one TTL ago, or
      off; a write reconciles the caches on each return path; a deleted flag
      does not resurface.
    - Audit: chains verify for all interleavings, appends are not refused,
      tampering shows in every hashed column as it is read back, pages
      partition a query; the text of metadata determines its value
      ([canonical_inj]).
    - Billing: used bytes are the replay of the event log for all sequences
      of operations; admitted uploads fit; plan changes, invoices, proration,
      dunning.
    - Deliverability: suppression by normal form, bounce policy, the daily
      ceiling of sends over all traces, warm-up ramp, routing to an address.
    - OAuth: every token traces to a consent and its scopes to that consent;
      a code is redeemed once; a replayed refresh token ends its family; which
      bearers are accepted; the outcome of an exchange.
    - Cutover: a migration ends, and flips a tenant only after an export was
      loaded and validated against the target, whatever the engines drop or
      make up, else leaves the back end as it was; one migration at a time
      works on a job, for all interleavings; an abandoned job is taken up
      again.
    - Webhooks: a bound on the posts of a delivery by several pods, for all
      interleavings and lost outcomes; requests verify at the receiver, a tick settles what is due, rows
      stay in their tenant.
    - Integrations: what is enqueued is covered by a live grant, subscriptions
      stay within the token's scopes, the hourly quota, failures of one
      subscriber do not affect another.
    - Approvals and operator access: the window of an operator session, that
      revocations and decisions are final, that expiry is audited.
    - Key ring: rotating the master key by the runbook loses no secret.
    - One-time codes: enrolment leads to a factor that works and, for all
      overlapping calls, stands until it is proved, wrong answers come no faster than the lockout allows, a
      recovery code is spent once.
    - Sessions: a revoked session stays refused whatever is called later; the
      cap on concurrent sessions.
    - JMAP proxy: identity of what is forwarded, nothing unscanned passes
      where it is scanned, order and end of fail-over, age of a cached
      account.
    - JMAP client: identity of what the control plane sends.
    - Retention: nothing outside a policy is destroyed whatever fails, an
      archive loses nothing, a run without error has left nothing behind; the
      operator's contract is derived from the laws of the server.
    - Snooze: a message comes back where it was; a row is closed only after
      its message was restored, for all interleavings.
    - Confidential send: the portal keeps the cap on views, the expiry, the
      password and the revocation of a link over all sequences of calls, and
      the bound on attempts for all interleavings of the commands.
    - Send hooks: a batch that opted in to undo send or scheduled send leads
      to no submission by the proxy, and the client is told of a held
      submission only if the queue has it.
    - Authentication: outside development no request goes out to a mail shard
      but in the name of a token the issuer signed; provisioning is skipped
      only for a tenant that was provisioned.
    - Aliases: a push changes its alias and nothing else; the table is what
      the intents add up to, for all interleavings; when the pushes of an
      address have come in order and none is left, the server agrees with the
      table.
    - Shards: counters equal assignments for all interleavings that read what
      they write over; a cluster without room is extended and then takes the
      tenant that was refused.
    - Tenants: a provision that reports success has converged, races
      included; seats are counted and kept within the limit.
    - Billing webhooks: only signed requests change anything; a delivery for
      one tenant is counted once however often it is retried; quotas follow
      the recorded events (or the scan), whatever happens to other tenants;
      an event of Stripe touches the subscription of the tenant it names.
    - Signup: a paid signup converges whatever failed before, by rely and
      guarantee over pods that leave the tenants of requests alone; shape and distinctness of slugs, the address a
      client is limited by, the limit itself.
    - DNS: the records shown to a tenant verify once they are published; the
      aggregate flag; a rotation takes over its domain and its private key
      loads again, one rotation of a domain at a time.
    - Welcome mail: what a success says of the request the server took.

    Theorems marked with an identifier state the properties; theorems without
    one record where code and comment part ways.

    ** Assumptions and bounds

    Valkey, PostgreSQL, Stripe, the mail server ([OperatorLaws], the
    [server_laws] of [Retention], [MailServer] of [Snooze], [StalwartLaws] of
    [Aliases]), search engines, the JWT library ([JWTLaws]), the services
    behind a signup ([world_laws]), net/mail, RFC 3339, UUIDs,
    SHA-256, HMAC, AES-GCM, bcrypt, the LRU cache, float64 arithmetic and the
    decimal text of a float64 ([float_text]) are parameters with documented
    behaviour as hypotheses; a witness instantiates each.  Header keys are
    canonical as net/http makes them ([CanonicalHeaderKey] of [JmapProxy]).  The database role of the
    services holds BYPASSRLS (docs and migrations say so), so a statement sees
    the rows of all tenants its own conditions admit.  Loops are folds over
    the lists they range over and retries are bounded by the code itself, with
    these exceptions.  The recursive query of [OAuth.chain] is bounded by the
    number of rows, which [chain_query_terminates] shows enough; a migration
    of [Cutover] is a machine of stages whose end [runMigration_ends] shows;
    the drain loop of [Webhooks.tick] runs over a list of environments, and
    [tick_settles] says how many are enough; so does [tickLoop] of [Aliases]
    with [tick_drains], and the search of a free index there has one more
    step than there are keys ([nextAliasIndex_free]); [evict] of [Sessions] and
    [chunks] of [JmapClient] have as fuel the length of the list they
    consume.  Retention stops at the page bound of the code itself.  Dates
    have years 0 to 9999.  Addresses are ASCII.  A URL is what [url.Parse]
    makes of it.  Text that is only stored
    (JSON of submissions) is represented by what it decodes to.

    ** Not modelled

    HTTP routing and JSON encoding (where handlers are modelled, from the
    decoded request to the status and body), logging and metrics, script
    caching, process start-up, the polling loops around the modelled ticks;
    external clients (Stripe, search engines, push services, HSMs); the other
    packages under src/internal, the web client and native apps.  Candidates
    for extension, in order: placement policies, WebAuthn sessions, exports. *)

From stdpp Require Export base gmap strings list sorting pretty.
From Stdlib Require Export ZArith Lia.

Declare Scope go_scope.
Delimit Scope go_scope with go.
Open Scope Z_scope.

(** ** Go values *)

(** The pair [(value, error)] of a Go call, as a sum. *)
Inductive result (E A : Type) : Type :=
| Ok (a : A)
| Err (e : E).
Arguments Ok {E A} a.
Arguments Err {E A} e.

Definition rbind {E A B : Type} (r : result E A) (k : A -> result E B) : result E B :=
  match r with
  | Ok a => k a
  | Err e => Err e
  end.

(** [if err != nil { return err }]. *)
Notation "'let?' x ':=' c 'in' k" := (rbind c (fun x => k))
  (at level 10, x name, c at level 100, k at level 200) : go_scope.

Definition is_ok {E A : Type} (r : result E A) : bool :=
  match r with Ok _ => true | Err _ => false end.

(** [time.Duration] and [time.Time] are nanosecond counts. *)
Definition Millisecond : Z := 1000000.
Definition Second : Z := 1000 * Millisecond.
Definition Minute : Z := 60 * Second.
Definition Hour : Z := 60 * Minute.

(** [time.Time.Unix], [time.Time.UnixMilli] (floors) and
    [time.Duration.Milliseconds] (truncates). *)
Definition Unix (t : Z) : Z := t / Second.
Definition UnixMilli (t : Z) : Z := t / Millisecond.
Definition Milliseconds (d : Z) : Z := Z.quot d Millisecond.

(** A [timestamptz] holds microseconds. *)
Definition micro (t : Z) : Z := t / 1000 * 1000.

(** Two's complement [int64] results. *)
Definition int64_min : Z := - 2 ^ 63.
Definition int64_max : Z := 2 ^ 63 - 1.

(** The zero [time.Time], the first of January of year 1; [t.Sub(u)]
    saturates. *)
Definition zeroTime : Z := - 62135596800 * Second.
(** [t.Truncate(d)] counts from the zero time. *)
Definition Truncate (t d : Z) : Z := if d <=? 0 then t else t - (t - zeroTime) mod d.
Definition Sub (t u : Z) : Z := Z.max int64_min (Z.min int64_max (t - u)).

Definition wrap64 (z : Z) : Z := (z + 2 ^ 63) mod 2 ^ 64 - 2 ^ 63.
(** [time.Unix(n, 0)] counts seconds from the year 1 in an [int64]. *)
Definition time_Unix (n : Z) : Z := (wrap64 (n + 62135596800) - 62135596800) * Second.

(** [strings.TrimSpace(s) == ""]: every rune of the UTF-8 text is white
    space in the sense of [unicode.IsSpace]. *)
Fixpoint blank_codes (l : list nat) : bool :=
  match l with
  | [] => true
  | 194%nat :: c :: l' =>
      ((c =? 133) || (c =? 160))%nat && blank_codes l'
  | 225%nat :: 154%nat :: 128%nat :: l' => blank_codes l'
  | 226%nat :: 128%nat :: c :: l' =>
      ((128 <=? c) && (c <=? 138) || (c =? 168) || (c =? 169) || (c =? 175))%nat
      && blank_codes l'
  | 226%nat :: 129%nat :: 159%nat :: l' => blank_codes l'
  | 227%nat :: 128%nat :: 128%nat :: l' => blank_codes l'
  | c :: l' => ((9 <=? c) && (c <=? 13) || (c =? 32))%nat && blank_codes l'
  end.

Definition blank (s : string) : bool :=
  blank_codes (map Ascii.nat_of_ascii (String.list_ascii_of_string s)).

(** ** Network calls

    A call to a remote store either completes, is lost before it reaches
    the server, or takes effect while its reply is lost.  The caller sees
    the last two as the same error. *)
Inductive delivery : Type :=
| Delivered
| RequestLost
| ReplyLost.

#[export] Instance delivery_eq_dec : EqDecision delivery.
Proof. solve_decision. Defined.

Definition remote {S R : Type} (d : delivery) (cmd : S -> R * S) (s : S) : option R * S :=
  match d with
  | Delivered => let '(r, s') := cmd s in (Some r, s')
  | RequestLost => (None, s)
  | ReplyLost => (None, (cmd s).2)
  end.

(** [pgx.BeginFunc]: a transaction takes effect as a whole, or not at all when
    its body fails; [lost] is the error of a broken connection. *)
Definition BeginFunc {S E A : Type} (lost : E) (d : delivery) (body : S -> result E (A * S)) (s : S)
    : result E A * S :=
  match d, body s with
  | RequestLost, _ => (Err lost, s)
  | Delivered, Ok (a, s') => (Ok a, s')
  | ReplyLost, Ok (_, s') => (Err lost, s')
  | Delivered, Err e => (Err e, s)
  | ReplyLost, Err _ => (Err lost, s)
  end.

Lemma BeginFunc_ind {S E A : Type} (P : S -> Prop) (lost : E) d (body : S -> result E (A * S)) s :
  P s -> (forall a s', body s = Ok (a, s') -> P s') -> P (BeginFunc lost d body s).2.
Proof.
  intros Hs Hb. unfold BeginFunc. destruct d, (body s) as [[a s']|e] eqn:E1; simpl; eauto.
Qed.

Lemma rbind_ok {E A B : Type} (r : result E A) (f : A -> result E B) b :
  rbind r f = Ok b -> exists a, r = Ok a /\ f a = Ok b.
Proof. destruct r; simpl; [eauto|done]. Qed.

(** ** Automation *)

Create HintDb kmail.
Create Rewrite HintDb kmail.

(** Case analysis on the boolean guard or the scrutinee the goal is stuck on. *)
Ltac break_guard :=
  match goal with
  | |- context [if ?b then _ else _] => let E := fresh "Eg" in destruct b eqn:E
  | |- context [match ?x with _ => _ end] => let E := fresh "Eg" in destruct x eqn:E
  end.

Ltac break_guard_in H :=
  match type of H with
  | context [if ?b then _ else _] => let E := fresh "Eg" in destruct b eqn:E
  | context [match ?x with _ => _ end] => let E := fresh "Eg" in destruct x eqn:E
  end.

(** Turns boolean comparisons of the code into propositions. *)
Ltac breflect :=
  repeat match goal with
  | H : (_ && _) = true |- _ => apply andb_prop in H; destruct H
  | H : (_ || _) = false |- _ => apply orb_false_elim in H; destruct H
  | H : negb _ = true |- _ => apply negb_true_iff in H
  | H : negb _ = false |- _ => apply negb_false_iff in H
  | H : (_ <? _) = true |- _ => apply Z.ltb_lt in H
  | H : (_ <? _) = false |- _ => apply Z.ltb_ge in H
  | H : (_ <=? _) = true |- _ => apply Z.leb_le in H
  | H : (_ <=? _) = false |- _ => apply Z.leb_gt in H
  | H : (_ =? _) = true |- _ => apply Z.eqb_eq in H
  | H : (_ =? _) = false |- _ => apply Z.eqb_neq in H
  | H : String.eqb _ _ = true |- _ => apply String.eqb_eq in H
  | H : String.eqb _ _ = false |- _ => apply String.eqb_neq in H
  | H : bool_decide _ = true |- _ => apply bool_decide_eq_true_1 in H
  | H : bool_decide _ = false |- _ => apply bool_decide_eq_false_1 in H
  end.

(** ** Integers *)

Lemma wrap64_id (z : Z) : int64_min <= z <= int64_max -> wrap64 z = z.
Proof.
  unfold wrap64, int64_min, int64_max. intros H.
  rewrite Z.mod_small; lia.
Qed.

Lemma wrap64_range (z : Z) : int64_min <= wrap64 z <= int64_max.
Proof.
  unfold wrap64, int64_min, int64_max.
  pose proof (Z.mod_pos_bound (z + 2 ^ 63) (2 ^ 64)). lia.
Qed.

Lemma UnixMilli_mono (a b : Z) : a <= b -> UnixMilli a <= UnixMilli b.
Proof. intros. apply Z.div_le_mono; [done | lia]. Qed.
#[export] Hint Resolve UnixMilli_mono wrap64_range : kmail.

(** ** Lists *)

(** Go's idiom [for i < len(l) && p(l[i]) { i++ }; l = l[i:]]. *)
Fixpoint drop_while {A : Type} (p : A -> bool) (l : list A) : list A :=
  match l with
  | [] => []
  | x :: l' => if p x then drop_while p l' else l
  end.

Section drop_while.
Context {A : Type}.
Implicit Types (p : A -> bool) (l : list A).

Lemma drop_while_suffix p l : exists k, l = k ++ drop_while p l /\ Forall (fun x => p x = true) k.
Proof.
  induction l as [|x l [k [E F]]]; simpl.
  - exists []. by split.
  - destruct (p x) eqn:Ex.
    + exists (x :: k). simpl. split; [congruence | by constructor].
    + exists []. by split.
Qed.

Lemma drop_while_length p l : (length (drop_while p l) <= length l)%nat.
Proof.
  destruct (drop_while_suffix p l) as [k [E _]].
  apply (f_equal length) in E. rewrite length_app in E. lia.
Qed.

Lemma elem_of_drop_while p l x : x ∈ drop_while p l -> x ∈ l.
Proof.
  destruct (drop_while_suffix p l) as [k [E _]]. rewrite E at 2. set_solver.
Qed.
End drop_while.

(** On a time-ordered list, dropping the stale prefix keeps exactly the
    entries at or after the cutoff. *)
Lemma drop_while_sorted (c : Z) (l : list Z) :
  StronglySorted Z.le l ->
  drop_while (fun x => x <? c) l = List.filter (fun x => c <=? x) l.
Proof.
  induction 1 as [|x l Hs IH Hf]; [done|]. simpl.
  destruct (Z.ltb_spec x c) as [Hlt|Hge].
  - destruct (Z.leb_spec c x); [lia | done].
  - destruct (Z.leb_spec c x); [|lia]. f_equal.
    clear -Hge Hf. induction Hf as [|y l Hy Hf IH]; [done|]. simpl.
    destruct (Z.leb_spec c y); [|lia]. congruence.
Qed.

Lemma StronglySorted_app_one (l : list Z) (x : Z) :
  StronglySorted Z.le l -> Forall (fun y => y <= x) l -> StronglySorted Z.le (l ++ [x]).
Proof.
  induction 1 as [|y l Hs IH Hf]; simpl; intros Hx; [repeat constructor|].
  inversion Hx; subst. constructor; [by apply IH|].
  apply Forall_app. split; [done|]. by constructor.
Qed.

Lemma StronglySorted_suffix (k l : list Z) :
  StronglySorted Z.le (k ++ l) -> StronglySorted Z.le l.
Proof. induction k as [|y k IH]; simpl; [done|]. inversion 1; subst. by apply IH. Qed.

Lemma drop_while_StronglySorted p (l : list Z) :
  StronglySorted Z.le l -> StronglySorted Z.le (drop_while p l).
Proof.
  destruct (drop_while_suffix p l) as [k [E _]]. rewrite E at 1.
  apply StronglySorted_suffix.
Qed.
#[export] Hint Resolve drop_while_StronglySorted StronglySorted_app_one : kmail.

(** The first entry of least key: [ORDER BY key LIMIT 1]. *)
Definition least {A : Type} (key : A -> Z) (l : list A) : option A :=
  foldl (fun b a => match b with Some x => if key a <? key x then Some a else b | None => Some a end) None l.

Lemma least_spec {A : Type} (key : A -> Z) (l : list A) :
  match least key l with
  | Some a => a ∈ l /\ forall b, b ∈ l -> key a <= key b
  | None => l = []
  end.
Proof.
  unfold least. induction l as [|a l IH] using rev_ind; [done|]. rewrite foldl_app. cbn [foldl].
  destruct (foldl _ _ l) as [x|].
  - destruct IH as [Hin Hmin]. destruct (Z.ltb_spec (key a) (key x)); (split; [set_solver|]);
      intros b [Hb|Hb%list_elem_of_singleton]%elem_of_app; try (subst; lia); specialize (Hmin b Hb); lia.
  - subst l. split; [set_solver|]. by intros b ->%list_elem_of_singleton.
Qed.

(** ** Strings *)

Lemma string_app_list (a b : string) :
  String.list_ascii_of_string (a +:+ b) =
  String.list_ascii_of_string a ++ String.list_ascii_of_string b.
Proof. induction a as [|c a IH]; simpl; [done|]. by rewrite IH. Qed.

Lemma list_ascii_inj (a b : string) :
  String.list_ascii_of_string a = String.list_ascii_of_string b -> a = b.
Proof.
  intros H. rewrite <- (String.string_of_list_ascii_of_string a), H.
  apply String.string_of_list_ascii_of_string.
Qed.

(** Keys that end in suffixes of one length agree on both parts. *)
Lemma string_suffix_inj (a b x y : string) :
  String.length x = String.length y -> a +:+ x = b +:+ y -> a = b /\ x = y.
Proof.
  intros Hl H. apply (f_equal String.list_ascii_of_string) in H.
  rewrite !string_app_list in H.
  apply app_inj_2 in H as [H1 H2]; [by split; apply list_ascii_inj|].
  clear -Hl. revert y Hl. induction x as [|c x IH]; intros [|c' y]; simpl; try done.
  intros [= E]. f_equal. by apply IH.
Qed.

Lemma string_prefix_inj (p a b : string) : p +:+ a = p +:+ b -> a = b.
Proof. induction p as [|c p IH]; simpl; [done|]. intros [= H]. by apply IH. Qed.

Lemma string_app_assoc (a b c : string) : (a +:+ b) +:+ c = a +:+ b +:+ c.
Proof. induction a as [|x a IH]; [done|]. exact (f_equal (String.String x) IH). Qed.

(** ** Maps filled by a loop *)
Section fill.
Context {A V K : Type} `{Countable K} (key : A -> K) (val : A -> V).
Implicit Types (m : gmap K V) (l : list A).

Definition fill m l : gmap K V := foldl (fun m a => <[key a := val a]> m) m l.

Lemma fill_other m l k : k ∉ key <$> l -> fill m l !! k = m !! k.
Proof.
  revert m. induction l as [|a l IH]; intros m Hk; [done|].
  rewrite fmap_cons, not_elem_of_cons in Hk. destruct Hk as [Hne Hk]. simpl.
  rewrite IH by done. by apply lookup_insert_ne.
Qed.

Lemma fill_elem m l a : NoDup (key <$> l) -> a ∈ l -> fill m l !! key a = Some (val a).
Proof.
  revert m. induction l as [|b l IH]; intros m Hnd Ha; [by apply not_elem_of_nil in Ha|].
  rewrite fmap_cons, NoDup_cons in Hnd. destruct Hnd as [Hb Hnd]. simpl.
  apply elem_of_cons in Ha as [->|Ha]; [|by apply IH].
  change (fill (<[key b := val b]> m) l !! key b = Some (val b)).
  rewrite fill_other by done. apply lookup_insert_eq.
Qed.
End fill.

(** ** Runs of a transition system *)
Section runs.
Context {State Event : Type} (step : State -> Event -> State -> Prop).

Inductive steps : State -> list Event -> State -> Prop :=
| steps_nil s : steps s [] s
| steps_cons s e s1 es s2 : step s e s1 -> steps s1 es s2 -> steps s (e :: es) s2.

Lemma steps_app s1 es1 s2 es2 s3 :
  steps s1 es1 s2 -> steps s2 es2 s3 -> steps s1 (es1 ++ es2) s3.
Proof. induction 1; simpl; [done|]. intros. econstructor; eauto. Qed.

(** Rule induction for invariants. *)
Lemma steps_invariant (P : State -> Prop) s es s' :
  (forall s e s', P s -> step s e s' -> P s') -> P s -> steps s es s' -> P s'.
Proof. intros Hp H0 Hr. induction Hr; eauto. Qed.
End runs.
