(* ===== verification/Text.v ===== *)
(** * Text: the parts of packages [strings], [strconv], [encoding/hex] and
      [encoding/base64] the program uses, on ASCII text and bytes. *)

From S2P Require Import Prelude.

Local Open Scope Z_scope.

Definition ascii_space (c : Ascii.ascii) : bool :=
  let n := Ascii.N_of_ascii c in ((9 <=? n) && (n <=? 13) || (n =? 32))%N.
Definition ascii_lower (c : Ascii.ascii) : Ascii.ascii :=
  let n := Ascii.N_of_ascii c in if ((65 <=? n) && (n <=? 90))%N then Ascii.ascii_of_N (n + 32) else c.

Definition ascii_upper (c : Ascii.ascii) : Ascii.ascii :=
  let n := Ascii.N_of_ascii c in if ((97 <=? n) && (n <=? 122))%N then Ascii.ascii_of_N (n - 32) else c.

Definition trim_left (l : list Ascii.ascii) : list Ascii.ascii := drop_while ascii_space l.
Definition trim (l : list Ascii.ascii) : list Ascii.ascii := reverse (trim_left (reverse (trim_left l))).

Definition on_ascii (f : list Ascii.ascii -> list Ascii.ascii) (s : string) : string :=
  String.string_of_list_ascii (f (String.list_ascii_of_string s)).

(** [strings.TrimSpace], [strings.ToLower], [strings.ToUpper], [strings.EqualFold]. *)
Definition TrimSpace (s : string) : string := on_ascii trim s.
(** [strings.TrimRight(s, cutset)] with one character to cut. *)
Definition TrimRight (c : Ascii.ascii) (s : string) : string := on_ascii (fun l => reverse (drop_while (Ascii.eqb c) (reverse l))) s.
Definition ToLower (s : string) : string := on_ascii (fmap ascii_lower) s.
Definition ToUpper (s : string) : string := on_ascii (fmap ascii_upper) s.
Definition EqualFold (a b : string) : bool := String.eqb (ToLower a) (ToLower b).

(** [strings.Contains(s, string(c))]. *)
Definition contains_char (c : Ascii.ascii) (s : string) : bool :=
  existsb (Ascii.eqb c) (String.list_ascii_of_string s).

(** [strings.SplitN(s, string(c), 2)] when the separator occurs: the text
    before its first occurrence and the rest. *)
Fixpoint split_first (c : Ascii.ascii) (s : string) : option (string * string) :=
  match s with
  | String.EmptyString => None
  | String.String x s' =>
      if Ascii.eqb x c then Some (String.EmptyString, s')
      else (fun p => (String.String x p.1, p.2)) <$> split_first c s'
  end.

(** [strings.HasPrefix], [strings.HasSuffix], [strings.Contains]. *)
Definition HasPrefix (s p : string) : bool := String.prefix p s.
Definition HasSuffix (s p : string) : bool := String.prefix (on_ascii reverse p) (on_ascii reverse s).
Definition Contains (s sub : string) : bool := match String.index 0 sub s with Some _ => true | None => false end.

(** [strings.Split(s, string(c))]. *)
Fixpoint Split (c : Ascii.ascii) (s : string) : list string :=
  match s with
  | String.EmptyString => [String.EmptyString]
  | String.String x s' =>
      if Ascii.eqb x c then String.EmptyString :: Split c s'
      else match Split c s' with w :: l => String.String x w :: l | [] => [] end
  end.

(** [strings.Join(l, string(c))]. *)
Fixpoint Join (c : Ascii.ascii) (l : list string) : string :=
  match l with
  | [] => String.EmptyString
  | [a] => a
  | a :: l' => a +:+ String.String c (Join c l')
  end.

(** [sort.Strings]. *)
Fixpoint insert_sorted (x : string) (l : list string) : list string :=
  match l with [] => [x] | y :: l' => if String.leb x y then x :: l else y :: insert_sorted x l' end.
Definition sort_strings (l : list string) : list string := foldr insert_sorted [] l.

(** [strings.Fields]: [word] is the word being read. *)
Fixpoint fields_from (word : string) (s : string) : list string :=
  match s with
  | String.EmptyString => if String.eqb word "" then [] else [word]
  | String.String x s' =>
      if ascii_space x
      then (if String.eqb word "" then [] else [word]) ++ fields_from "" s'
      else fields_from (word +:+ String.String x String.EmptyString) s'
  end.
Definition Fields (s : string) : list string := fields_from "" s.

(** [strings.Join(l, " ")]. *)
Fixpoint join_space (l : list string) : string :=
  match l with
  | [] => String.EmptyString
  | [a] => a
  | a :: l' => a +:+ " " +:+ join_space l'
  end.

(** [hex.EncodeToString]. *)
Definition pick (alphabet : string) (n : Z) : Ascii.ascii :=
  default Ascii.zero (String.get (Z.to_nat n) alphabet).
Definition hex_alphabet : string := "0123456789abcdef".
Definition hex_encode (bytes : list Z) : string :=
  String.string_of_list_ascii
    (bytes ≫= fun b => [pick hex_alphabet (Z.shiftr b 4); pick hex_alphabet (Z.land b 15)]).

(** [base64.RawURLEncoding.EncodeToString]. *)
Definition url_alphabet : string := "ABCDEFGHIJKLMNOPQRSTUVWXYZabcdefghijklmnopqrstuvwxyz0123456789-_".
Fixpoint sextets (bytes : list Z) : list Z :=
  match bytes with
  | a :: b :: c :: l =>
      Z.shiftr a 2 :: Z.lor (Z.shiftl (Z.land a 3) 4) (Z.shiftr b 4)
      :: Z.lor (Z.shiftl (Z.land b 15) 2) (Z.shiftr c 6) :: Z.land c 63 :: sextets l
  | [a; b] => [Z.shiftr a 2; Z.lor (Z.shiftl (Z.land a 3) 4) (Z.shiftr b 4); Z.shiftl (Z.land b 15) 2]
  | [a] => [Z.shiftr a 2; Z.shiftl (Z.land a 3) 4]
  | [] => []
  end.
Definition base64url (bytes : list Z) : string :=
  String.string_of_list_ascii (pick url_alphabet <$> sextets bytes).

Example split_ex : Split (Ascii.ascii_of_nat 44) "a,,b" = ["a"; ""; "b"]%string.
Proof. reflexivity. Qed.
Example base64url_ex : base64url [251; 255; 190; 77; 97] = "-_--TWE"%string.
Proof. reflexivity. Qed.
Example hex_ex : hex_encode [0; 171; 255] = "00abff"%string.
Proof. reflexivity. Qed.

(** ** Trimming and case *)
Definition unspaced (l : list Ascii.ascii) : Prop :=
  match l with [] => True | c :: _ => ascii_space c = false end.

Lemma trim_left_unspaced l : unspaced (trim_left l).
Proof.
  unfold trim_left. induction l as [|c l IH]; simpl; [done|]. by destruct (ascii_space c) eqn:E.
Qed.

Lemma trim_left_id l : unspaced l -> trim_left l = l.
Proof. destruct l as [|c l]; simpl; [done|]. unfold trim_left. simpl. by intros ->. Qed.

Lemma unspaced_prefix k l : unspaced (k ++ l) -> unspaced k.
Proof. by destruct k. Qed.

Lemma lower_space c : ascii_space (ascii_lower c) = ascii_space c.
Proof. by destruct c as [[] [] [] [] [] [] [] []]. Qed.

Lemma lower_lower c : ascii_lower (ascii_lower c) = ascii_lower c.
Proof. by destruct c as [[] [] [] [] [] [] [] []]. Qed.

Lemma trim_left_lower l : trim_left (ascii_lower <$> l) = ascii_lower <$> trim_left l.
Proof.
  unfold trim_left. induction l as [|c l IH]; [done|]. cbn. rewrite lower_space. by destruct (ascii_space c).
Qed.

Lemma trim_idem l : trim (trim l) = trim l.
Proof.
  unfold trim. set (m := trim_left l). pose proof (trim_left_unspaced l) as Hm. fold m in Hm.
  destruct (drop_while_suffix ascii_space (reverse m)) as [k [Hk _]]. fold (trim_left (reverse m)) in Hk.
  assert (unspaced (reverse (trim_left (reverse m)))) as Hc.
  { apply (unspaced_prefix _ (reverse k)). rewrite <- reverse_app, <- Hk, reverse_involutive. done. }
  rewrite (trim_left_id _ Hc), reverse_involutive. f_equal. apply trim_left_id, trim_left_unspaced.
Qed.

Lemma split_first_spec c s a b : split_first c s = Some (a, b) -> s = a +:+ String.String c b /\ contains_char c a = false.
Proof.
  revert a b. induction s as [|x s IH]; intros a b; simpl; [done|].
  destruct (Ascii.eqb_spec x c) as [->|Hne].
  - intros [= <- <-]. done.
  - destruct (split_first c s) as [[a' b']|]; simpl; [|done]. intros [= <- <-].
    destruct (IH a' b' eq_refl) as [-> Hc]. split; [done|]. unfold contains_char in *. simpl.
    rewrite Hc, orb_false_r. by apply Ascii.eqb_neq.
Qed.

(** ** Words *)
Lemma string_app_nil s : (s +:+ "")%string = s.
Proof. induction s as [|c s IH]; [done|]. exact (f_equal (String.String c) IH). Qed.

Definition wordy (s : string) : Prop :=
  s <> ""%string /\ Forall (fun c => ascii_space c = false) (String.list_ascii_of_string s).

Lemma fields_from_word w s t :
  Forall (fun c => ascii_space c = false) (String.list_ascii_of_string s) ->
  fields_from w (s +:+ t) = fields_from (w +:+ s) t.
Proof.
  revert w. induction s as [|c s IH]; intros w Hs.
  - change (fields_from w t = fields_from (w +:+ "") t). by rewrite string_app_nil.
  - inversion Hs; subst. change (fields_from w (String.String c (s +:+ t)) = fields_from (w +:+ String.String c s) t).
    cbn [fields_from]. rewrite H1. rewrite IH by done. f_equal. by rewrite string_app_assoc.
Qed.

(** Words joined by blanks are found again. *)
Lemma Fields_join l : Forall wordy l -> Fields (join_space l) = l.
Proof.
  unfold Fields. induction 1 as [|a l [Ha1 Ha2] Hl IH]; [done|]. destruct l as [|b l].
  - cbn [join_space]. rewrite <- (string_app_nil a) at 1. rewrite fields_from_word by done.
    change (("" +:+ a)%string) with a. cbn. by destruct (String.eqb_spec a "").
  - change (fields_from "" (a +:+ " " +:+ join_space (b :: l)) = a :: b :: l).
    rewrite fields_from_word by done. change (("" +:+ a)%string) with a.
    change ((if String.eqb a "" then [] else [a]) ++ fields_from "" (join_space (b :: l)) = a :: b :: l).
    destruct (String.eqb_spec a ""); [done|]. exact (f_equal (cons a) IH).
Qed.

(** ** Separated lists *)
Definition free_of (c : Ascii.ascii) (s : string) : Prop := Forall (fun x => negb (Ascii.eqb x c) = true) (String.list_ascii_of_string s).

Lemma Split_free c s : free_of c s -> Split c s = [s].
Proof.
  unfold free_of. induction s as [|x s IH]; [done|]. intros H. inversion_clear H as [|? ? Hx Hs]. cbn. apply negb_true_iff in Hx. by rewrite Hx, (IH Hs).
Qed.

Lemma Split_app c a s : free_of c a -> Split c (a +:+ String.String c s) = a :: Split c s.
Proof.
  unfold free_of. induction a as [|x a IH]; intros H.
  - change (Split c (String.String c s) = ""%string :: Split c s). cbn. by rewrite Ascii.eqb_refl.
  - inversion_clear H as [|? ? Hx Ha]. change (Split c (String.String x (a +:+ String.String c s)) = String.String x a :: Split c s).
    cbn [Split]. apply negb_true_iff in Hx. by rewrite Hx, (IH Ha).
Qed.

Lemma Split_Join c l : l <> [] -> Forall (free_of c) l -> Split c (Join c l) = l.
Proof.
  intros Hne. induction 1 as [|a l Ha Hl IH]; [done|]. destruct l as [|b l]; [by apply Split_free|].
  change (Join c (a :: b :: l)) with (a +:+ String.String c (Join c (b :: l))). by rewrite Split_app, IH.
Qed.

Lemma Split_parts c s : Forall (free_of c) (Split c s) /\ Split c s <> [].
Proof.
  unfold free_of. induction s as [|x s [IH Hne]]; [by repeat constructor|]. cbn. destruct (Ascii.eqb x c) eqn:E.
  - split; [|done]. constructor; [constructor|done].
  - destruct (Split c s) as [|w l]; [done|]. split; [|done]. inversion_clear IH. constructor; [|done]. constructor; [by rewrite E|done].
Qed.

(** ** Decimal numbers *)
Definition digit_value (c : Ascii.ascii) : option Z :=
  let n := Z.of_N (Ascii.N_of_ascii c) in if (48 <=? n) && (n <=? 57) then Some (n - 48) else None.

(** The value of the digits read so far, whether there are any, and the rest. *)
Fixpoint scanNumber (acc : Z) (any : bool) (s : string) : option (Z * string) :=
  match s with
  | String.String c s' => match digit_value c with Some v => scanNumber (10 * acc + v) true s' | None => if any then Some (acc, s) else None end
  | String.EmptyString => if any then Some (acc, s) else None
  end.

Lemma scan_digit acc any n s :
  (n < 10)%N -> scanNumber acc any (String.String (pretty_N_char n) s) = scanNumber (10 * acc + Z.of_N n) true s.
Proof.
  intros H. cbn [scanNumber].
  assert (digit_value (pretty_N_char n) = Some (Z.of_N n)) as ->; [|done].
  destruct n as [|p]; [done|]. do 4 (destruct p as [p|p|]; try done; try lia).
Qed.

Lemma scan_digits x : (0 < x)%N -> exists k, forall acc any s,
  scanNumber acc any (pretty_N_go x s) = scanNumber (acc * 10 ^ Z.of_nat k + Z.of_N x) true s.
Proof.
  induction (N.lt_wf_0 x) as [x _ IH]. intros Hx. destruct (decide (x / 10 = 0)%N) as [H0|H0].
  - exists 1%nat. intros acc any s. rewrite pretty_N_go_step by done. rewrite H0, pretty_N_go_0.
    rewrite scan_digit by (apply N.mod_lt; lia). f_equal. pose proof (N.div_mod x 10 ltac:(lia)). lia.
  - destruct (IH (x / 10)%N) as [k Hk]; [apply N.div_lt; lia|by apply N.neq_0_lt_0|]. exists (S k). intros acc any s.
    rewrite pretty_N_go_step by done. rewrite Hk, scan_digit by (apply N.mod_lt; lia). f_equal.
    rewrite Nat2Z.inj_succ, Z.pow_succ_r by lia. pose proof (N.div_mod x 10 ltac:(lia)). lia.
Qed.

(** Text a number may be followed by. *)
Definition nondigit (s : string) : Prop := match s with String.EmptyString => True | String.String c _ => digit_value c = None end.

Lemma scanNumber_stop acc s : nondigit s -> scanNumber acc true s = Some (acc, s).
Proof. destruct s as [|c s]; cbn; [done|]. by intros ->. Qed.

Lemma pretty_N_go_app x s : pretty_N_go x s = pretty_N_go x "" +:+ s.
Proof.
  revert s. induction (N.lt_wf_0 x) as [x _ IH]. intros s. destruct (decide (x = 0)%N) as [->|Hx]; [done|].
  rewrite !(pretty_N_go_step x) by lia. assert (x / 10 < x)%N as Hlt by (apply N.div_lt; lia).
  rewrite (IH _ Hlt), (IH _ Hlt (String.String _ "")). by rewrite string_app_assoc.
Qed.

Lemma scan_pretty_N (x : N) s : nondigit s -> scanNumber 0 false (pretty x +:+ s) = Some (Z.of_N x, s).
Proof.
  intros Hs. unfold pretty, pretty_N. destruct (decide (x = 0)%N) as [->|Hx].
  - exact (scanNumber_stop 0 s Hs).
  - rewrite <- pretty_N_go_app. destruct (scan_digits x ltac:(lia)) as [k Hk]. rewrite Hk.
    replace (0 * 10 ^ Z.of_nat k + Z.of_N x) with (Z.of_N x) by lia. by apply scanNumber_stop.
Qed.

Lemma pretty_N_digit (x : N) : exists c t, pretty x = String.String c t /\ digit_value c <> None.
Proof.
  pose proof (scan_pretty_N x "" I) as H. rewrite string_app_nil in H. destruct (pretty x) as [|c t]; [done|].
  exists c, t. split; [done|]. cbn in H. by destruct (digit_value c).
Qed.

(** [strconv.ParseUint(s, 10, 32)]. *)
Definition ParseUint32 (s : string) : option Z :=
  match scanNumber 0 false s with
  | Some (n, String.EmptyString) => if n <? 2 ^ 32 then Some n else None
  | _ => None
  end.

Lemma ParseUint32_pretty (n : N) : Z.of_N n < 2 ^ 32 -> ParseUint32 (pretty n) = Some (Z.of_N n).
Proof.
  intros Hn. unfold ParseUint32. pose proof (scan_pretty_N n "" I) as H. rewrite string_app_nil in H. rewrite H.
  by apply Z.ltb_lt in Hn as ->.
Qed.

(** [strconv.ParseInt(s, 10, 64)]. *)
Fixpoint digits (l : list Ascii.ascii) (acc : Z) : option Z :=
  match l with
  | [] => Some acc
  | c :: l => match digit_value c with Some d => digits l (acc * 10 + d) | None => None end
  end.
Definition ParseInt (s : string) : option Z :=
  let unsigned l := match l with [] => None | _ => digits l 0 end in
  let n := match String.list_ascii_of_string s with
    | c :: l =>
        if Ascii.eqb c (Ascii.ascii_of_nat 45) then Z.opp <$> unsigned l
        else if Ascii.eqb c (Ascii.ascii_of_nat 43) then unsigned l
        else unsigned (c :: l)
    | [] => None
    end in
  match n with Some n => if (int64_min <=? n) && (n <=? int64_max) then Some n else None | None => None end.

(** ** Parts of texts *)
Lemma drop_while_head {A} (p : A -> bool) l a k : drop_while p l = a :: k -> p a = false.
Proof. induction l as [|x l IH]; [done|]. cbn. destruct (p x) eqn:E; [done|]. by intros [= <- _]. Qed.
Lemma Split_concat c a b : Split c (a +:+ String.String c b) = Split c a ++ Split c b.
Proof.
  induction a as [|x a IH]; cbn.
  - change (Split c (String.String c b) = "" :: Split c b)%string. cbn. by rewrite Ascii.eqb_refl.
  - change (Split c (String.String x (a +:+ String.String c b)) = (if Ascii.eqb x c then "" :: Split c a else match Split c a with w :: l => String.String x w :: l | [] => [] end)%string ++ Split c b).
    cbn. rewrite IH. destruct (Ascii.eqb x c); [done|]. pose proof (proj2 (Split_parts c a)). by destruct (Split c a).
Qed.

Lemma drop_while_all {A} (p : A -> bool) l : drop_while p l = [] -> Forall (fun x => p x = true) l.
Proof. induction l as [|x l IH]; [constructor|]. cbn. destruct (p x) eqn:E; [|done]. intros H. constructor; auto. Qed.
Lemma TrimSpace_empty s : TrimSpace s = ""%string -> Forall (fun c => ascii_space c = true) (String.list_ascii_of_string s).
Proof.
  unfold TrimSpace, on_ascii, trim. intros E. apply (f_equal String.list_ascii_of_string) in E. rewrite String.list_ascii_of_string_of_list_ascii in E. cbn in E.
  apply (f_equal reverse) in E. rewrite reverse_involutive in E. apply drop_while_all in E. unfold trim_left in *.
  destruct (drop_while ascii_space (String.list_ascii_of_string s)) as [|c k] eqn:Ed; [by apply drop_while_all|]. apply drop_while_head in Ed.
  rewrite Forall_forall in E. specialize (E c). rewrite elem_of_reverse in E. rewrite E in Ed; [done|by left].
Qed.

Lemma ToLower_app a b : ToLower (a +:+ b) = ToLower a +:+ ToLower b.
Proof.
  unfold ToLower, on_ascii. rewrite string_app_list, fmap_app. induction (ascii_lower <$> String.list_ascii_of_string a) as [|c l IH]; [done|].
  exact (f_equal (String.String c) IH).
Qed.
Lemma HasPrefix_app p s : HasPrefix (p +:+ s) p = true.
Proof.
  induction p as [|c p IH]; [by destruct s|]. change (String.prefix (String.String c p) (String.String c (p +:+ s)) = true). cbn.
  destruct (Ascii.ascii_dec c c); [exact IH|done].
Qed.
Lemma substring_app a n b : String.substring (String.length a) (String.length n) (a +:+ n +:+ b) = n.
Proof.
  induction a as [|c a IH]; [|exact IH]. change (String.substring 0 (String.length n) (n +:+ b) = n).
  induction n as [|c n IH]; [by destruct b|]. change (String.String c (String.substring 0 (String.length n) (n +:+ b)) = String.String c n). by rewrite IH.
Qed.
Lemma Contains_app a n b : n <> ""%string -> Contains (a +:+ n +:+ b) n = true.
Proof.
  intros Hn. unfold Contains. destruct (String.index 0 n _) eqn:E; [done|]. exfalso. eapply (String.index_correct3 0 (String.length a)); [exact E|done|lia|apply substring_app].
Qed.

(** A text without space at either end. *)
Lemma TrimSpace_ends s c d : unspaced (String.list_ascii_of_string (String.String c s)) -> ascii_space d = false ->
  TrimSpace (String.String c s +:+ String.String d "") = String.String c s +:+ String.String d "".
Proof.
  intros Hc Hd. unfold TrimSpace, on_ascii. rewrite string_app_list. change (String.list_ascii_of_string (String.String d "")) with [d]. unfold trim.
  rewrite (trim_left_id (String.list_ascii_of_string (String.String c s) ++ [d])) by exact Hc. rewrite reverse_snoc, trim_left_id by exact Hd. rewrite reverse_cons, reverse_involutive.
  change [d] with (String.list_ascii_of_string (String.String d "")). rewrite <- string_app_list. apply String.string_of_list_ascii_of_string.
Qed.
