(* ===== verification/Table.v ===== *)
(** * Tables: SQL tables as lists of rows in order of insertion *)

From S2P Require Import Prelude.

(** [column IS NULL]. *)
Definition unset {A} (o : option A) : bool := match o with None => true | Some _ => false end.

(** [UPDATE ... SET f WHERE p]. *)
Definition update {A} (p : A -> bool) (f : A -> A) (l : list A) : list A := (fun a => if p a then f a else a) <$> l.

Section updates.
Context {A : Type}.
Implicit Types (p : A -> bool) (f : A -> A) (l : list A).

Lemma elem_of_update p f l x : x ∈ update p f l <-> exists y, y ∈ l /\ x = if p y then f y else y.
Proof. unfold update. rewrite list_elem_of_fmap. naive_solver. Qed.

Lemma lookup_update p f l i x : update p f l !! i = Some x <-> exists y, l !! i = Some y /\ x = if p y then f y else y.
Proof. unfold update. rewrite list_lookup_fmap. destruct (l !! i); naive_solver. Qed.

Lemma update_proj {B} (g : A -> B) p f l : (forall a, g (f a) = g a) -> g <$> update p f l = g <$> l.
Proof.
  intros H. unfold update. rewrite <- list_fmap_compose. apply list_fmap_ext. intros i a _. simpl.
  by destruct (p a).
Qed.

Lemma update_filter (h : A -> bool) p f l :
  (forall a, h (f a) = h a) -> List.filter h (update p f l) = update p f (List.filter h l).
Proof.
  intros H. induction l as [|a l IH]; [done|]. simpl.
  replace (h (if p a then f a else a)) with (h a) by (by destruct (p a)). rewrite IH. by destruct (h a).
Qed.

Lemma update_none p f l : (forall a, a ∈ l -> p a = false) -> update p f l = l.
Proof.
  induction l as [|a l IH]; [done|]. intros H. unfold update in *. rewrite fmap_cons, IH by set_solver.
  rewrite (H a); [done|set_solver].
Qed.

Lemma update_ext_elem p f g l : (forall a, a ∈ l -> p a = true -> f a = g a) -> update p f l = update p g l.
Proof. intros H. apply list_fmap_ext. intros i a Ha%list_elem_of_lookup_2. destruct (p a) eqn:E; [by apply H|done]. Qed.

Lemma NoDup_proj_eq {B} (g : A -> B) l x y : NoDup (g <$> l) -> x ∈ l -> y ∈ l -> g x = g y -> x = y.
Proof.
  intros Hnd [i Hi]%list_elem_of_lookup [j Hj]%list_elem_of_lookup Hg.
  assert (i = j); [|congruence]. eapply (NoDup_lookup (g <$> l) i j (g x) Hnd).
  - by rewrite list_lookup_fmap, Hi.
  - rewrite list_lookup_fmap, Hj. simpl. by rewrite Hg.
Qed.

Lemma find_elem p l x : List.find p l = Some x -> x ∈ l /\ p x = true.
Proof. intros H%find_some. by rewrite list_elem_of_In. Qed.

Lemma find_none_elem p l : List.find p l = None -> forall x, x ∈ l -> p x = false.
Proof. intros H x Hx%list_elem_of_In. by eapply find_none. Qed.

Lemma existsb_false p l : existsb p l = false <-> forall x, x ∈ l -> p x = false.
Proof.
  split.
  - intros H x Hx. apply not_true_iff_false. intros Hp. apply not_true_iff_false in H. apply H, existsb_exists.
    exists x. by rewrite <- list_elem_of_In.
  - intros H. apply not_true_iff_false. intros (x & Hx & Hp)%existsb_exists. rewrite <- list_elem_of_In in Hx.
    by rewrite H in Hp.
Qed.

Lemma elem_of_filterb p l x : x ∈ List.filter p l <-> x ∈ l /\ p x = true.
Proof. by rewrite !list_elem_of_In, List.filter_In. Qed.
End updates.

Lemma update_as_insert {A} (p : A -> bool) f (l : list A) i a : l !! i = Some a -> p a = true -> (forall j b, l !! j = Some b -> p b = true -> j = i) ->
  update p f l = <[i := f a]> l.
Proof.
  intros Hi Ha Hone. apply list_eq. intros j. unfold update. rewrite list_lookup_fmap. destruct (decide (j = i)) as [->|Hne].
  - rewrite Hi, list_lookup_insert_eq by (by eapply lookup_lt_Some). cbn. by rewrite Ha.
  - rewrite list_lookup_insert_ne by done. destruct (l !! j) as [b|] eqn:Ej; [|done]. cbn. destruct (p b) eqn:Eb; [|done].
    destruct Hne. by eapply Hone.
Qed.

Lemma update_proj_elem {A B} (g : A -> B) p f (l : list A) : (forall a, a ∈ l -> p a = true -> g (f a) = g a) -> g <$> update p f l = g <$> l.
Proof.
  intros H. unfold update. rewrite <- list_fmap_compose. apply list_fmap_ext. intros i a Ha%list_elem_of_lookup_2. cbn.
  destruct (p a) eqn:E; [by apply H|done].
Qed.

Lemma existsb_elem {A} (p : A -> bool) l : existsb p l = true <-> exists x, x ∈ l /\ p x = true.
Proof. rewrite existsb_exists. by setoid_rewrite list_elem_of_In. Qed.


(** ** Counting *)
Definition tally {A} (p : A -> bool) (l : list A) : nat := length (List.filter p l).

Section tally.
Context {A : Type}.
Implicit Types (p q : A -> bool) (l : list A).

Lemma tally_app p l k : tally p (l ++ k) = (tally p l + tally p k)%nat.
Proof. unfold tally. by rewrite List.filter_app, length_app. Qed.

Lemma tally_insert p l i a b : l !! i = Some a ->
  (tally p (<[i := b]> l) + (if p a then 1 else 0) = tally p l + (if p b then 1 else 0))%nat.
Proof.
  intros Hi. rewrite <- (take_drop_middle l i a Hi) at 2. rewrite (insert_take_drop l i b) by (by eapply lookup_lt_Some).
  rewrite !tally_app. unfold tally at 2 4. simpl. unfold tally. destruct (p a), (p b); simpl; lia.
Qed.

Lemma tally_le p l : (tally p l <= length l)%nat.
Proof. unfold tally. induction l as [|a l IH]; simpl; [lia|]. destruct (p a); simpl; lia. Qed.

Lemma tally_lt p l a : a ∈ l -> p a = false -> (tally p l < length l)%nat.
Proof.
  intros [i Hi]%list_elem_of_lookup Hp. rewrite <- (take_drop_middle l i a Hi). rewrite tally_app, length_app.
  pose proof (tally_le p (take i l)). pose proof (tally_le p (drop (S i) l)). unfold tally in *. simpl. rewrite Hp. simpl. lia.
Qed.

Lemma tally_0 p l : (forall a, a ∈ l -> p a = false) -> tally p l = 0%nat.
Proof.
  unfold tally. induction l as [|a l IH]; intros H; [done|]. simpl. rewrite (H a) by set_solver. apply IH. set_solver.
Qed.

Lemma tally_ext p q l : (forall a, a ∈ l -> p a = q a) -> tally p l = tally q l.
Proof.
  unfold tally. induction l as [|a l IH]; intros H; [done|]. simpl. rewrite (H a) by set_solver.
  destruct (q a); simpl; rewrite IH by set_solver; done.
Qed.

Lemma tally_mono p q l : (forall a, a ∈ l -> p a = true -> q a = true) -> (tally p l <= tally q l)%nat.
Proof.
  unfold tally. induction l as [|a l IH]; intros H; [simpl; lia|]. simpl.
  assert (length (List.filter p l) <= length (List.filter q l))%nat by (apply IH; set_solver).
  destruct (p a) eqn:Ep; [rewrite (H a) by (done || set_solver); simpl; lia|]. destruct (q a); simpl; lia.
Qed.
End tally.

Lemma tally_update_lt {A} (p q : A -> bool) f l x :
  (forall a, q a = true -> p (f a) = false) -> x ∈ l -> q x = true -> p x = true -> (tally p (update q f l) < tally p l)%nat.
Proof.
  intros Hq Hx Hqx Hpx.
  assert (forall k, (tally p (update q f k) <= tally p k)%nat) as Hle.
  { intros k. unfold tally, update. induction k as [|a k IH]; [simpl; lia|]. rewrite fmap_cons. simpl.
    destruct (q a) eqn:E; [rewrite (Hq a E)|]; destruct (p a); simpl; lia. }
  apply list_elem_of_split in Hx as (l1 & l2 & ->). unfold update. rewrite fmap_app, fmap_cons, !tally_app, Hqx.
  pose proof (Hle l1). pose proof (Hle l2). unfold update, tally in *. simpl. rewrite Hpx, (Hq x Hqx). simpl. lia.
Qed.

Lemma NoDup_append {A} (l : list A) x : x ∉ l -> NoDup l -> NoDup (l ++ [x]).
Proof. intros Hx Hl. apply NoDup_app. split_and!; [done|set_solver|apply NoDup_singleton]. Qed.
Lemma NoDup_fmap_filterb {A B} (g : A -> B) p (l : list A) : NoDup (g <$> l) -> NoDup (g <$> List.filter p l).
Proof.
  induction l as [|x l IH]; cbn; [done|]. intros [Hx Hl]%NoDup_cons. destruct (p x); cbn; [|by apply IH].
  constructor; [|by apply IH]. intros (y & Hg & Hy)%list_elem_of_fmap. apply elem_of_filterb in Hy as [Hy _]. apply Hx, list_elem_of_fmap. by exists y.
Qed.
