(* ===== verification/Valkey.v ===== *)
(** * The Valkey server, as the interface the control plane relies on

    Valkey (the Redis-compatible store behind the rate limiter, the circuit
    breaker and the undo-send queue) is not part of the repository.  The
    components are therefore written against [Valkey], a class of the
    commands they issue, and their theorems assume [ValkeyLaws], the
    documented effect of each command on one key.  [vk_view] is the
    observation the laws are stated with: the object and the absolute expiry
    ([PEXPIRETIME]) of a key at a server instant in milliseconds.

    String values have an abstract type [V]: a component instantiates it with
    what its payloads decode to.  Scores are integers, as in all the uses of
    the repository.

    [RefStore] is an executable reference implementation that satisfies the
    laws; it witnesses that the assumptions are consistent and lets examples
    run. *)

From S2P Require Import Prelude.

Inductive vobj (V : Type) : Type :=
| OStr (v : V)
| OZset (z : gmap string Z)
| OList (l : list V)
| OSet (x : gset string).
Arguments OStr {V} v.
Arguments OZset {V} z.
Arguments OList {V} l.
Arguments OSet {V} x.

Abbreviation ventry V := (vobj V * option Z)%type.

(** A key with no expiry, or whose expiry is in the future, is live. *)
Definition live (t : Z) (d : option Z) : bool :=
  match d with None => true | Some e => t <? e end.

Definition prune {V} (t : Z) (e : option (ventry V)) : option (ventry V) :=
  match e with
  | Some (o, d) => if live t d then Some (o, d) else None
  | None => None
  end.

(** The sorted set at a key: absent keys read as empty, other types fail
    ([WRONGTYPE]). *)
Definition as_zset {V} (e : option (ventry V)) : option (gmap string Z) :=
  match e with
  | None => Some ∅
  | Some (OZset z, _) => Some z
  | _ => None
  end.

Definition as_list {V} (e : option (ventry V)) : option (list V) :=
  match e with
  | None => Some []
  | Some (OList l, _) => Some l
  | _ => None
  end.

Definition expiry {V} (e : option (ventry V)) : option Z :=
  match e with Some (_, d) => d | None => None end.

(** A sorted set or list that becomes empty is removed with its key. *)
Definition zentry {V} (z : gmap string Z) (d : option Z) : option (ventry V) :=
  if decide (z = ∅) then None else Some (OZset z, d).

Definition lentry {V} (l : list V) (d : option Z) : option (ventry V) :=
  match l with [] => None | _ => Some (OList l, d) end.

(** The commands used by the repository.  The first argument of each is the
    server clock at which it executes. *)
Class Valkey (V S : Type) := {
  vk_view : S -> Z -> string -> option (ventry V);
  vk_get : Z -> S -> string -> option V;                  (* GET key *)
  vk_set : Z -> string -> V -> Z -> S -> S;                (* SET key v PX ms *)
  vk_del : Z -> string -> S -> S;                          (* DEL key *)
  vk_pexpire : Z -> string -> Z -> S -> S;                 (* PEXPIRE key ms *)
  vk_zadd : Z -> string -> Z -> string -> S -> S;          (* ZADD key score member *)
  vk_zrem : Z -> string -> string -> S -> Z * S;           (* ZREM key member *)
  vk_zcard : Z -> S -> string -> Z;                        (* ZCARD key *)
  vk_zremlt : Z -> string -> Z -> S -> S;                  (* ZREMRANGEBYSCORE key -inf (max *)
  vk_zrange : Z -> S -> string -> Z -> Z -> list string;   (* ZRANGE key -inf max BYSCORE LIMIT 0 n *)
  vk_lpush : Z -> string -> V -> S -> S;                   (* LPUSH key v *)
  vk_ltrim : Z -> string -> Z -> S -> S;                   (* LTRIM key 0 last *)
}.

Definition on_key {V} (k k' : string) (new old : option (ventry V)) : option (ventry V) :=
  if decide (k' = k) then new else old.

Class ValkeyLaws (V S : Type) `{VK : Valkey V S} : Prop := {
  (** Time only makes keys expire. *)
  law_expire s t t' k : t <= t' -> vk_view s t' k = prune t' (vk_view s t k);
  law_view_live s t k o d : vk_view s t k = Some (o, d) -> live t d = true;
  law_get s t k v d : vk_view s t k = Some (OStr v, d) -> vk_get t s k = Some v;
  law_get_none s t k : vk_view s t k = None -> vk_get t s k = None;
  law_set s t k v ttl k' : 0 < ttl ->
    vk_view (vk_set t k v ttl s) t k' = on_key k k' (Some (OStr v, Some (t + ttl))) (vk_view s t k');
  law_del s t k k' : vk_view (vk_del t k s) t k' = on_key k k' None (vk_view s t k');
  law_pexpire s t k ttl k' : 0 < ttl ->
    vk_view (vk_pexpire t k ttl s) t k' =
      on_key k k' (option_map (fun e => (e.1, Some (t + ttl))) (vk_view s t k)) (vk_view s t k');
  law_zadd s t k sc m z k' : as_zset (vk_view s t k) = Some z ->
    vk_view (vk_zadd t k sc m s) t k' =
      on_key k k' (Some (OZset (<[m := sc]> z), expiry (vk_view s t k))) (vk_view s t k');
  law_zrem_view s t k m z k' : as_zset (vk_view s t k) = Some z ->
    vk_view (vk_zrem t k m s).2 t k' =
      on_key k k' (zentry (delete m z) (expiry (vk_view s t k))) (vk_view s t k');
  law_zrem_count s t k m z : as_zset (vk_view s t k) = Some z ->
    (vk_zrem t k m s).1 = match z !! m with Some _ => 1 | None => 0 end;
  law_zcard s t k z : as_zset (vk_view s t k) = Some z -> vk_zcard t s k = Z.of_nat (size z);
  law_zremlt s t k c z k' : as_zset (vk_view s t k) = Some z ->
    vk_view (vk_zremlt t k c s) t k' =
      on_key k k' (zentry (filter (fun kv => c <= kv.2) z) (expiry (vk_view s t k)))
        (vk_view s t k');
  law_zrange_elem s t k mx n z m : as_zset (vk_view s t k) = Some z ->
    m ∈ vk_zrange t s k mx n -> exists sc, z !! m = Some sc /\ sc <= mx;
  law_zrange_nodup s t k mx n z : as_zset (vk_view s t k) = Some z -> NoDup (vk_zrange t s k mx n);
  law_zrange_all s t k mx n z m sc : as_zset (vk_view s t k) = Some z ->
    z !! m = Some sc -> sc <= mx -> Z.of_nat (length (vk_zrange t s k mx n)) < n ->
    m ∈ vk_zrange t s k mx n;
  law_zrange_len s t k mx n z : as_zset (vk_view s t k) = Some z -> 0 <= n ->
    Z.of_nat (length (vk_zrange t s k mx n)) <= n;
  law_lpush s t k v l k' : as_list (vk_view s t k) = Some l ->
    vk_view (vk_lpush t k v s) t k' =
      on_key k k' (Some (OList (v :: l), expiry (vk_view s t k))) (vk_view s t k');
  law_ltrim s t k n l k' : as_list (vk_view s t k) = Some l -> 0 <= n ->
    vk_view (vk_ltrim t k n s) t k' =
      on_key k k' (lentry (take (Z.to_nat (n + 1)) l) (expiry (vk_view s t k)))
        (vk_view s t k');
}.

(** ** Reference store *)
Module RefStore.
Section store.
Context {V : Type}.

Abbreviation store := (gmap string (ventry V)).

Definition view (s : store) (t : Z) (k : string) : option (ventry V) := prune t (s !! k).

Definition put (k : string) (e : option (ventry V)) (s : store) : store :=
  match e with Some x => <[k := x]> s | None => delete k s end.

Definition zupd (t : Z) (k : string) (f : gmap string Z -> option Z -> option (ventry V))
    (s : store) : store :=
  match as_zset (view s t k) with
  | Some z => put k (f z (expiry (view s t k))) s
  | None => s
  end.

Definition lupd (t : Z) (k : string) (f : list V -> option Z -> option (ventry V))
    (s : store) : store :=
  match as_list (view s t k) with
  | Some l => put k (f l (expiry (view s t k))) s
  | None => s
  end.

Definition zmembers (t : Z) (s : store) (k : string) (mx : Z) : list string :=
  match as_zset (view s t k) with
  | Some z => (map_to_list (filter (fun kv => kv.2 <= mx) z)).*1
  | None => []
  end.

#[global] Instance ref_valkey : Valkey V store := {|
  vk_view := view;
  vk_get t s k := match view s t k with Some (OStr v, _) => Some v | _ => None end;
  vk_set t k v ttl s := <[k := (OStr v, Some (t + ttl))]> s;
  vk_del _ k s := delete k s;
  vk_pexpire t k ttl s := put k (option_map (fun e => (e.1, Some (t + ttl))) (view s t k)) s;
  vk_zadd t k sc m s := zupd t k (fun z d => Some (OZset (<[m := sc]> z), d)) s;
  vk_zrem t k m s :=
    (match as_zset (view s t k) with
     | Some z => match z !! m with Some _ => 1 | None => 0 end
     | None => 0
     end, zupd t k (fun z d => zentry (delete m z) d) s);
  vk_zcard t s k :=
    match as_zset (view s t k) with Some z => Z.of_nat (size z) | None => 0 end;
  vk_zremlt t k c s := zupd t k (fun z d => zentry (filter (fun kv => c <= kv.2) z) d) s;
  vk_zrange t s k mx n := take (Z.to_nat n) (zmembers t s k mx);
  vk_lpush t k v s := lupd t k (fun l d => Some (OList (v :: l), d)) s;
  vk_ltrim t k n s := lupd t k (fun l d => lentry (take (Z.to_nat (n + 1)) l) d) s;
|}.

Lemma view_put t k e s k' :
  (forall x, e = Some x -> live t x.2 = true) ->
  view (put k e s) t k' = on_key k k' e (view s t k').
Proof.
  intros Hl. unfold view, on_key. destruct e as [[o d]|]; simpl; case_decide; subst.
  - rewrite lookup_insert_eq. simpl. specialize (Hl _ eq_refl). simpl in Hl. by rewrite Hl.
  - by rewrite lookup_insert_ne.
  - by rewrite lookup_delete_eq.
  - by rewrite lookup_delete_ne.
Qed.

Lemma view_live s t k o d : view s t k = Some (o, d) -> live t d = true.
Proof.
  unfold view. destruct (s !! k) as [[o' d']|]; simpl; [|done].
  destruct (live t d') eqn:E; [|done]. by intros [= -> ->].
Qed.

Lemma expiry_live s t k : live t (expiry (view s t k)) = true.
Proof. destruct (view s t k) as [[o d]|] eqn:E; [|done]. by eapply view_live. Qed.

Lemma view_zupd t k f s z k' :
  as_zset (view s t k) = Some z ->
  (forall x d, f z d = Some x -> x.2 = d) ->
  view (zupd t k f s) t k' = on_key k k' (f z (expiry (view s t k))) (view s t k').
Proof.
  intros Hz Hf. unfold zupd. rewrite Hz. apply view_put.
  intros x Hx. rewrite (Hf _ _ Hx). apply expiry_live.
Qed.

Lemma view_lupd t k f s l k' :
  as_list (view s t k) = Some l ->
  (forall x d, f l d = Some x -> x.2 = d) ->
  view (lupd t k f s) t k' = on_key k k' (f l (expiry (view s t k))) (view s t k').
Proof.
  intros Hz Hf. unfold lupd. rewrite Hz. apply view_put.
  intros x Hx. rewrite (Hf _ _ Hx). apply expiry_live.
Qed.

Lemma zentry_expiry (z : gmap string Z) d (x : ventry V) : zentry z d = Some x -> x.2 = d.
Proof. unfold zentry. case_decide; [done|]. by intros [= <-]. Qed.

Lemma lentry_expiry (l : list V) d x : lentry l d = Some x -> x.2 = d.
Proof. unfold lentry. destruct l; [done|]. by intros [= <-]. Qed.

Lemma live_mono t t' d : t <= t' -> live t' d = true -> live t d = true.
Proof. destruct d as [e|]; simpl; [|done]. intros. breflect. apply Z.ltb_lt. lia. Qed.

Lemma elem_of_zmembers t s k mx z m : as_zset (view s t k) = Some z ->
  m ∈ zmembers t s k mx <-> exists sc, z !! m = Some sc /\ sc <= mx.
Proof.
  intros Hz. unfold zmembers. rewrite Hz. rewrite list_elem_of_fmap. split.
  - intros [[k' sc] [-> H]]. apply elem_of_map_to_list, map_lookup_filter_Some in H as [H1 H2].
    by exists sc.
  - intros [sc [H1 H2]]. exists (m, sc). split; [done|].
    apply elem_of_map_to_list, map_lookup_filter_Some. by split.
Qed.

#[global] Instance ref_laws : ValkeyLaws V store.
Proof.
  split; cbn -[take]; intros.
  - unfold view. destruct (s !! k) as [[o d]|]; simpl; [|done].
    destruct (live t' d) eqn:E.
    + rewrite (live_mono t t' d) by done. simpl. by rewrite E.
    + destruct (live t d); simpl; [by rewrite E | done].
  - by eapply view_live.
  - by rewrite H.
  - by rewrite H.
  - change (<[k:=(OStr v, Some (t + ttl))]> s) with (put k (Some (OStr v, Some (t + ttl))) s).
    apply view_put. intros x [= <-]. simpl. apply Z.ltb_lt. lia.
  - by apply (view_put t k None).
  - apply view_put. intros x Hx. destruct (view s t k) as [e|]; [|done].
    injection Hx as <-. simpl. apply Z.ltb_lt. lia.
  - rewrite (view_zupd _ _ _ _ z); [done|done|]. by intros x d [= <-].
  - rewrite (view_zupd _ _ _ _ z); [done|done|]. intros. by eapply zentry_expiry.
  - by rewrite H.
  - by rewrite H.
  - rewrite (view_zupd _ _ _ _ z); [done|done|]. intros. by eapply zentry_expiry.
  - apply (elem_of_zmembers t s k mx z); [done|]. eapply elem_of_submseteq; [done|].
    apply sublist_submseteq, sublist_take.
  - apply (sublist_NoDup (take (Z.to_nat n) (zmembers t s k mx)) (zmembers t s k mx));
      [|apply sublist_take].
    unfold zmembers. rewrite H. apply NoDup_fst_map_to_list.
  - assert (m ∈ zmembers t s k mx) as Hm by (apply (elem_of_zmembers _ _ _ _ z); eauto).
    rewrite length_take in H2. rewrite take_ge by lia. done.
  - rewrite length_take. lia.
  - rewrite (view_lupd _ _ _ _ l); [done|done|]. by intros x d [= <-].
  - rewrite (view_lupd _ _ _ _ l); [done|done|]. intros. by eapply lentry_expiry.
Qed.
End store.
End RefStore.

(** ** Counting the scores of a sorted set *)

Lemma size_filter_insert (z : gmap string Z) m sc c :
  z !! m = None ->
  size (filter (fun kv : string * Z => (c <= kv.2)%Z) (<[m := sc]> z)) =
  (size (filter (fun kv : string * Z => (c <= kv.2)%Z) z) + (if (c <=? sc)%Z then 1 else 0))%nat.
Proof.
  intros Hm. destruct (Z.leb_spec c sc).
  - rewrite map_filter_insert_True by done. rewrite map_size_insert_None; [lia|].
    apply map_lookup_filter_None. by left.
  - rewrite map_filter_insert_False by (simpl; lia).
    rewrite delete_id by done. lia.
Qed.

Lemma filter_filter_cut (z : gmap string Z) c c' :
  c' <= c ->
  filter (fun kv : string * Z => c <= kv.2) (filter (fun kv : string * Z => c' <= kv.2) z) =
  filter (fun kv : string * Z => c <= kv.2) z.
Proof.
  intros Hc. rewrite map_filter_filter. apply map_filter_ext. intros k x _. simpl. lia.
Qed.

(** ** Derived facts shared by the clients *)
Section derived.
Context {V S : Type} `{VL : ValkeyLaws V S}.
Implicit Types (s : S) (t : Z) (k m : string).

Lemma on_key_eq k (a b : option (ventry V)) : on_key k k a b = a.
Proof. unfold on_key. by rewrite decide_True. Qed.

Lemma on_key_ne k k' (a b : option (ventry V)) : k' <> k -> on_key k k' a b = b.
Proof. unfold on_key. intros. by rewrite decide_False. Qed.

Lemma on_key_on_key k k' (a b c : option (ventry V)) :
  on_key k k' a (on_key k k' b c) = on_key k k' a c.
Proof. unfold on_key. by case_decide. Qed.

Lemma prune_prune t t' (e : option (ventry V)) : t <= t' -> prune t' (prune t e) = prune t' e.
Proof.
  intros Ht. destruct e as [[o d]|]; simpl; [|done].
  destruct (live t d) eqn:E; simpl; [done|].
  destruct d as [u|]; simpl in *; [|done]. breflect. destruct (Z.ltb_spec t' u); [lia|done].
Qed.

Lemma as_zset_zentry (z : gmap string Z) d : as_zset (V:=V) (zentry z d) = Some z.
Proof. unfold zentry. case_decide; by subst. Qed.

Lemma expiry_zentry (z : gmap string Z) d : z <> ∅ -> expiry (V:=V) (zentry z d) = d.
Proof. unfold zentry. intros. by rewrite decide_False. Qed.

Lemma as_zset_none_wf t (e : option (ventry V)) z :
  as_zset e = Some z -> as_zset (prune t e) = Some (if live t (expiry e) then z else ∅).
Proof.
  destruct e as [[[v|zz|l|x] d]|]; simpl; try done; intros [= ->]; by destruct (live t d).
Qed.
End derived.

(** ** Counters

    [INCR] and [EXPIRE key ms NX] on keys that hold integers. *)
Class ValkeyCounter (S : Type) `{VK : Valkey Z S} := {
  vk_incr : Z -> string -> S -> Z * S;
  vk_expirenx : Z -> string -> Z -> S -> S;
}.

(** The integer at a key: absent keys count as 0. *)
Definition as_int (e : option (ventry Z)) : option Z :=
  match e with
  | None => Some 0
  | Some (OStr n, _) => Some n
  | _ => None
  end.

Class ValkeyCounterLaws (S : Type) `{VC : ValkeyCounter S} : Prop := {
  law_incr s t k n : as_int (vk_view s t k) = Some n -> (vk_incr t k s).1 = n + 1;
  law_incr_view s t k n k' : as_int (vk_view s t k) = Some n ->
    vk_view (vk_incr t k s).2 t k' =
      on_key k k' (Some (OStr (n + 1), expiry (vk_view s t k))) (vk_view s t k');
  law_expirenx s t k ttl k' : 0 < ttl ->
    vk_view (vk_expirenx t k ttl s) t k' =
      on_key k k'
        (option_map (fun e => (e.1, match e.2 with None => Some (t + ttl) | Some d => Some d end))
           (vk_view s t k))
        (vk_view s t k');
}.

Module RefCounter.
#[global] Instance ref_counter : ValkeyCounter (gmap string (ventry Z)) := {|
  vk_incr t k s :=
    match as_int (RefStore.view s t k) with
    | Some n => (n + 1, RefStore.put k (Some (OStr (n + 1), expiry (RefStore.view s t k))) s)
    | None => (0, s)
    end;
  vk_expirenx t k ttl s :=
    RefStore.put k
      (option_map (fun e => (e.1, match e.2 with None => Some (t + ttl) | Some d => Some d end))
         (RefStore.view s t k)) s;
|}.

#[global] Instance ref_counter_laws : ValkeyCounterLaws (gmap string (ventry Z)).
Proof.
  split; cbn; intros.
  - by rewrite H.
  - rewrite H. cbn [snd].
    apply (RefStore.view_put t k (Some (OStr (n + 1), expiry (RefStore.view s t k)))).
    intros x [= <-]. apply RefStore.expiry_live.
  - apply RefStore.view_put. intros x Hx.
    destruct (RefStore.view s t k) as [[o d]|] eqn:E; [|done]. injection Hx as <-. simpl.
    destruct d as [d|]; [by eapply RefStore.view_live in E|]. simpl. apply Z.ltb_lt. lia.
Qed.
End RefCounter.

#[export] Hint Rewrite @on_key_eq @as_zset_zentry : kmail.

(** ** Sets

    [SADD], [SREM], [SMEMBERS], [SISMEMBER] on keys that hold sets, and
    [EXISTS] on any key. *)
Class ValkeySets (V S : Type) `{VK : Valkey V S} := {
  vk_sadd : Z -> string -> string -> S -> S;
  vk_srem : Z -> string -> list string -> S -> S;
  vk_smembers : Z -> S -> string -> list string;
  vk_sismember : Z -> S -> string -> string -> bool;
  vk_exists : Z -> S -> string -> bool;
}.

Definition as_set {V} (e : option (ventry V)) : option (gset string) :=
  match e with
  | None => Some ∅
  | Some (OSet x, _) => Some x
  | _ => None
  end.

Definition sentry {V} (x : gset string) (d : option Z) : option (ventry V) :=
  if decide (x = ∅) then None else Some (OSet x, d).

Class ValkeySetsLaws (V S : Type) `{VT : ValkeySets V S} : Prop := {
  law_sadd s t k m x k' : as_set (vk_view s t k) = Some x ->
    vk_view (vk_sadd t k m s) t k' = on_key k k' (Some (OSet ({[m]} ∪ x), expiry (vk_view s t k))) (vk_view s t k');
  law_srem s t k ms x k' : as_set (vk_view s t k) = Some x ->
    vk_view (vk_srem t k ms s) t k' = on_key k k' (sentry (x ∖ list_to_set ms) (expiry (vk_view s t k))) (vk_view s t k');
  law_smembers s t k x : as_set (vk_view s t k) = Some x ->
    NoDup (vk_smembers t s k) /\ forall m, m ∈ vk_smembers t s k <-> m ∈ x;
  law_sismember s t k m x : as_set (vk_view s t k) = Some x -> vk_sismember t s k m = bool_decide (m ∈ x);
  law_exists s t k : vk_exists t s k = true <-> is_Some (vk_view s t k);
}.

Module RefSets.
Section sets.
Context {V : Type}.

Definition supd (t : Z) (k : string) (f : gset string -> option Z -> option (ventry V)) (s : gmap string (ventry V)) : gmap string (ventry V) :=
  match as_set (RefStore.view s t k) with
  | Some x => RefStore.put k (f x (expiry (RefStore.view s t k))) s
  | None => s
  end.

#[global] Instance ref_sets : ValkeySets V (gmap string (ventry V)) := {|
  vk_sadd t k m s := supd t k (fun x d => Some (OSet ({[m]} ∪ x), d)) s;
  vk_srem t k ms s := supd t k (fun x d => sentry (x ∖ list_to_set ms) d) s;
  vk_smembers t s k := match as_set (RefStore.view s t k) with Some x => elements x | None => [] end;
  vk_sismember t s k m := match as_set (RefStore.view s t k) with Some x => bool_decide (m ∈ x) | None => false end;
  vk_exists t s k := match RefStore.view s t k with Some _ => true | None => false end;
|}.

Lemma view_supd t k f s x k' :
  as_set (RefStore.view s t k) = Some x -> (forall y d, f x d = Some y -> y.2 = d) ->
  RefStore.view (supd t k f s) t k' = on_key k k' (f x (expiry (RefStore.view s t k))) (RefStore.view s t k').
Proof.
  intros Hx Hf. unfold supd. rewrite Hx. apply RefStore.view_put.
  intros y Hy. rewrite (Hf _ _ Hy). apply RefStore.expiry_live.
Qed.

#[global] Instance ref_sets_laws : ValkeySetsLaws V (gmap string (ventry V)).
Proof.
  split; cbn; intros.
  - rewrite (view_supd _ _ _ _ x); [done|done|]. by intros y d [= <-].
  - rewrite (view_supd _ _ _ _ x); [done|done|]. intros y d. unfold sentry. case_decide; [done|]. by intros [= <-].
  - rewrite H. split; [apply NoDup_elements|]. intros m. apply elem_of_elements.
  - by rewrite H.
  - destruct (RefStore.view s t k) as [e|]; naive_solver.
Qed.
End sets.
End RefSets.

(** ** Stores of counters *)
Section counters.
Context {S : Type} `{VL : ValkeyLaws Z S}.

(** Every live key holds an integer. *)
Definition all_ints (sv : Z) (s : S) : Prop := forall k, is_Some (as_int (vk_view s sv k)).

Lemma all_ints_later sv sv' s : sv <= sv' -> all_ints sv s -> all_ints sv' s.
Proof.
  intros Hle Hi k. rewrite (law_expire s sv sv' k Hle). destruct (Hi k) as [n Hn].
  destruct (vk_view s sv k) as [[o d]|]; cbn; [|eauto]. destruct (live sv' d); cbn; eauto.
Qed.

Context `{VC : !ValkeyCounter S} `{CL : !ValkeyCounterLaws S}.

(** The counter at [k] has counted [n] and keeps the count until [B + ttl]. *)
Definition counted (ttl B : Z) (k : string) (n sv : Z) (s : S) : Prop :=
  all_ints sv s /\ 0 <= n /\
  (sv < B + ttl ->
   (n = 0 /\ vk_view s sv k = None) \/
   exists m d, vk_view s sv k = Some (OStr m, d) /\ n <= m /\ 1 <= m /\ forall e, d = Some e -> B + ttl <= e).

Lemma counted_later ttl B k n sv sv' s : sv <= sv' -> counted ttl B k n sv s -> counted ttl B k n sv' s.
Proof.
  intros Hle (Hi & Hn & H). split_and!; [by eapply all_ints_later|done|]. intros Hb.
  rewrite (law_expire s sv sv' k Hle). destruct H as [[-> H]|(m & d & H & ? & ? & Hd)]; [lia|left; by rewrite H|].
  right. exists m, d. rewrite H. cbn. replace (live sv' d) with true; [done|]. destruct d as [e|]; [|done].
  specialize (Hd e eq_refl). symmetry. apply Z.ltb_lt. lia.
Qed.

(** One increment, of this key or of another. *)
Lemma counted_vk_incr ttl B k n sv k' s : counted ttl B k n sv s ->
  let r := vk_incr sv k' s in
  counted ttl B k n sv r.2 /\ (k' = k -> sv < B + ttl -> n + 1 <= r.1 /\ counted ttl B k (n + 1) sv r.2).
Proof.
  intros (Hi & Hn & H). destruct (Hi k') as [i Hk']. cbn zeta. rewrite (law_incr _ _ _ _ Hk').
  assert (forall x, vk_view (vk_incr sv k' s).2 sv x = on_key k' x (Some (OStr (i + 1), expiry (vk_view s sv k'))) (vk_view s sv x)) as E
    by (intros x; by apply law_incr_view).
  destruct (vk_incr sv k' s) as [j s1]. cbn [snd] in *.
  assert (all_ints sv s1) as Hi1 by (intros x; rewrite E; unfold on_key; case_decide; [cbn; eauto|apply Hi]).
  destruct (decide (k' = k)) as [->|Hne]; [|split; [split_and!; [done|done|]|done]; rewrite E, on_key_ne by congruence; done].
  specialize (E k). rewrite on_key_eq in E.
  assert (sv < B + ttl -> n <= i /\ 0 <= i /\ forall e, expiry (vk_view s sv k) = Some e -> B + ttl <= e) as Hgo.
  { intros Hlt. destruct (H Hlt) as [[-> Ek]|(m & d & Ek & ? & ? & ?)]; rewrite Ek in Hk' |- *; cbn in Hk' |- *; injection Hk' as <-; split_and!; (lia || done). }
  split; [|intros _ Hlt; destruct (Hgo Hlt) as (? & ? & ?); split; [lia|]]; (split_and!; [done|lia|]); intros Hlt'; destruct (Hgo Hlt') as (? & ? & ?);
    right; eexists _, _; (split_and!; [exact E|lia|lia|done]).
Qed.

(** A time to live of [ttl] set on any key from [B] on. *)
Lemma counted_vk_pexpire ttl B k n sv k' s : 0 < ttl -> B <= sv -> counted ttl B k n sv s -> counted ttl B k n sv (vk_pexpire sv k' ttl s).
Proof.
  intros Ht Hb (Hi & Hn & H). assert (forall x, vk_view (vk_pexpire sv k' ttl s) sv x =
    on_key k' x (option_map (fun e => (e.1, Some (sv + ttl))) (vk_view s sv k')) (vk_view s sv x)) as E by (intros x; by apply law_pexpire).
  split_and!; [|done|].
  - intros x. rewrite E. unfold on_key. case_decide; [|apply Hi]. destruct (Hi k') as [i Hk]. destruct (vk_view s sv k') as [[o d]|]; cbn in *; eauto.
  - intros Hlt. rewrite E. destruct (decide (k' = k)) as [->|Hne]; [|rewrite on_key_ne by congruence; auto]. rewrite on_key_eq.
    destruct (H Hlt) as [[-> Ek]|(m & d & Ek & ? & ? & ?)]; rewrite Ek; cbn; [by left|right]. exists m, (Some (sv + ttl)).
    split_and!; [done|lia|lia|]. intros e [= <-]. lia.
Qed.

End counters.
