(* ===== verification/Codec.v ===== *)
(** * Codecs: the parts of packages [encoding/hex], [encoding/base64],
      [encoding/base32] and [encoding/binary] the program uses, with their
      round trips.  Bytes are integers from 0 to 255. *)

From S2P Require Import Prelude Text.

Local Open Scope Z_scope.

Definition byte (b : Z) : Prop := 0 <= b < 256.

(** ** Alphabets *)
Fixpoint index_in (c : Ascii.ascii) (alphabet : string) : option Z :=
  match alphabet with
  | String.EmptyString => None
  | String.String x rest => if Ascii.eqb x c then Some 0 else Z.succ <$> index_in c rest
  end.

Definition std_alphabet : string := "ABCDEFGHIJKLMNOPQRSTUVWXYZabcdefghijklmnopqrstuvwxyz0123456789+/".
Definition base32_alphabet : string := "ABCDEFGHIJKLMNOPQRSTUVWXYZ234567".

(** ** Hexadecimal: [hex.DecodeString] accepts both cases. *)
Definition hex_digit (c : Ascii.ascii) : option Z := index_in (ascii_lower c) hex_alphabet.

Fixpoint hex_bytes (l : list Ascii.ascii) : option (list Z) :=
  match l with
  | [] => Some []
  | a :: b :: l => match hex_digit a, hex_digit b with
      | Some x, Some y => cons (Z.lor (Z.shiftl x 4) y) <$> hex_bytes l
      | _, _ => None
      end
  | _ => None
  end.
Definition hex_decode (s : string) : option (list Z) := hex_bytes (String.list_ascii_of_string s).

(** ** Base 64 *)
Definition padding : Ascii.ascii := Ascii.ascii_of_nat 61.

Definition encode64 (alphabet : string) (pad : bool) (bytes : list Z) : string :=
  String.string_of_list_ascii
    ((pick alphabet <$> sextets bytes)
     ++ (if pad then replicate (Z.to_nat ((- Z.of_nat (length bytes)) mod 3)) padding else [])).

(** [Encoding.DecodeString]: the last quantum is padded or, for the raw
    encodings, short; its spare bits are ignored. *)
Fixpoint decode64_chars (alphabet : string) (pad : bool) (l : list Ascii.ascii) : option (list Z) :=
  let v c := index_in c alphabet in
  match l with
  | [] => Some []
  | a :: b :: c :: d :: l' =>
      match v a, v b with
      | Some x, Some y =>
          let b0 := Z.lor (Z.shiftl x 2) (Z.shiftr y 4) in
          match v c with
          | Some z =>
              let b1 := Z.lor (Z.shiftl (Z.land y 15) 4) (Z.shiftr z 2) in
              match v d with
              | Some w => (fun r => b0 :: b1 :: Z.lor (Z.shiftl (Z.land z 3) 6) w :: r) <$> decode64_chars alphabet pad l'
              | None => if pad && Ascii.eqb d padding && match l' with [] => true | _ => false end then Some [b0; b1] else None
              end
          | None =>
              if pad && Ascii.eqb c padding && Ascii.eqb d padding && match l' with [] => true | _ => false end
              then Some [b0] else None
          end
      | _, _ => None
      end
  | [a; b; c] =>
      match v a, v b, v c with
      | Some x, Some y, Some z =>
          if pad then None
          else Some [Z.lor (Z.shiftl x 2) (Z.shiftr y 4); Z.lor (Z.shiftl (Z.land y 15) 4) (Z.shiftr z 2)]
      | _, _, _ => None
      end
  | [a; b] =>
      match v a, v b with
      | Some x, Some y => if pad then None else Some [Z.lor (Z.shiftl x 2) (Z.shiftr y 4)]
      | _, _ => None
      end
  | [_] => None
  end.

(** Line breaks are skipped. *)
Definition newline (c : Ascii.ascii) : bool := Ascii.eqb c (Ascii.ascii_of_nat 10) || Ascii.eqb c (Ascii.ascii_of_nat 13).
Definition decode64 (alphabet : string) (pad : bool) (s : string) : option (list Z) :=
  decode64_chars alphabet pad (List.filter (fun c => negb (newline c)) (String.list_ascii_of_string s)).

(** ** Base 32 without padding: five bits at a time, the last digit filled with
    zero bits. *)
Fixpoint quintets (acc : Z) (bits : nat) (bytes : list Z) : list Z :=
  match bytes with
  | [] => match bits with O => [] | _ => [Z.shiftl acc (5 - Z.of_nat bits)] end
  | b :: l =>
      let acc := Z.lor (Z.shiftl acc 8) b in
      let n := (bits + 8)%nat in
      if (10 <=? n)%nat
      then Z.land (Z.shiftr acc (Z.of_nat n - 5)) 31 :: Z.land (Z.shiftr acc (Z.of_nat n - 10)) 31
           :: quintets (Z.land acc (Z.ones (Z.of_nat n - 10))) (n - 10) l
      else Z.land (Z.shiftr acc (Z.of_nat n - 5)) 31 :: quintets (Z.land acc (Z.ones (Z.of_nat n - 5))) (n - 5) l
  end.
Definition base32 (bytes : list Z) : string := String.string_of_list_ascii (pick base32_alphabet <$> quintets 0 0 bytes).

Example base32_ex : base32 [102; 111; 111; 98; 97; 114] = "MZXW6YTBOI"%string.
Proof. reflexivity. Qed.
Example encode64_ex : encode64 std_alphabet true [77; 97] = "TWE="%string /\ decode64 std_alphabet true "TWE=" = Some [77; 97].
Proof. split; reflexivity. Qed.

(** [binary.BigEndian.PutUint64] of a 64-bit counter. *)
Definition be64 (n : Z) : list Z :=
  (fun i => Z.land (Z.shiftr (n mod 2 ^ 64) (8 * (7 - Z.of_nat i))) 255) <$> seq 0 8.

(** ** Bits as arithmetic *)
Lemma lor_shiftl x y n : 0 <= n -> 0 <= y < 2 ^ n -> Z.lor (Z.shiftl x n) y = x * 2 ^ n + y.
Proof.
  intros Hn Hy. pose proof (Z.add_lor_land (Z.shiftl x n) y) as H. rewrite Z.shiftl_mul_pow2 in * by done.
  assert (Z.land (x * 2 ^ n) y = 0) as E; [|lia]. rewrite <- Z.shiftl_mul_pow2 by done.
  apply Z.bits_inj'. intros i Hi. rewrite Z.land_spec, Z.bits_0. destruct (Z.ltb_spec i n); [by rewrite Z.shiftl_spec_low|].
  replace (Z.testbit y i) with false; [apply andb_false_r|]. symmetry.
  destruct (decide (y = 0)) as [->|]; [apply Z.bits_0|]. apply Z.bits_above_log2; [lia|]. apply Z.log2_lt_pow2; [lia|].
  apply Z.lt_le_trans with (2 ^ n); [lia|]. apply Z.pow_le_mono_r; lia.
Qed.

Lemma land_low x n m : 0 <= n -> m = 2 ^ n - 1 -> Z.land x m = x mod 2 ^ n.
Proof. intros Hn ->. rewrite <- Z.land_ones by done. f_equal. rewrite Z.ones_equiv. lia. Qed.

(** Rewrites masks and shifts to division, for [lia]. *)
Ltac bits :=
  rewrite ?(land_low _ 2 3), ?(land_low _ 4 15), ?(land_low _ 6 63) by done;
  rewrite ?Z.shiftr_div_pow2 by done; rewrite ?Z.shiftl_mul_pow2 by done.
Ltac div_lia := Z.div_mod_to_equations; lia.

(** ** Digits *)
Lemma pick_index alphabet :
  forallb (fun n => bool_decide (index_in (pick alphabet (Z.of_nat n)) alphabet = Some (Z.of_nat n))) (seq 0 (String.length alphabet)) = true ->
  forall n, 0 <= n < Z.of_nat (String.length alphabet) -> index_in (pick alphabet n) alphabet = Some n.
Proof.
  intros H n Hn. rewrite forallb_forall in H. specialize (H (Z.to_nat n)). rewrite Z2Nat.id in H by lia.
  eapply bool_decide_eq_true_1, H, in_seq. lia.
Qed.

Lemma std_index n : 0 <= n < 64 -> index_in (pick std_alphabet n) std_alphabet = Some n.
Proof. apply (pick_index std_alphabet). vm_compute. reflexivity. Qed.
Lemma hex_index n : 0 <= n < 16 -> hex_digit (pick hex_alphabet n) = Some n.
Proof.
  intros Hn. assert (forallb (fun n => bool_decide (hex_digit (pick hex_alphabet (Z.of_nat n)) = Some (Z.of_nat n))) (seq 0 16) = true) as H by (vm_compute; reflexivity).
  rewrite forallb_forall in H. specialize (H (Z.to_nat n)). rewrite Z2Nat.id in H by lia. eapply bool_decide_eq_true_1, H, in_seq. lia.
Qed.

(** [hex.DecodeString(hex.EncodeToString(b))]. *)
Lemma hex_round_trip bytes : Forall byte bytes -> hex_decode (hex_encode bytes) = Some bytes.
Proof.
  unfold hex_decode, hex_encode. rewrite String.list_ascii_of_string_of_list_ascii. induction 1 as [|b l Hb _ IH]; [done|]. unfold byte in Hb.
  change ((b :: l) ≫= _) with ([pick hex_alphabet (Z.shiftr b 4); pick hex_alphabet (Z.land b 15)] ++ (l ≫= fun b => [pick hex_alphabet (Z.shiftr b 4); pick hex_alphabet (Z.land b 15)])).
  cbn [app hex_bytes]. rewrite !hex_index by (bits; div_lia). rewrite IH. cbn. f_equal. f_equal.
  rewrite lor_shiftl by (bits; div_lia). bits. div_lia.
Qed.

(** ** Base 64 round trip *)

(** Induction three bytes at a time. *)
Lemma list_ind3 {A} (P : list A -> Prop) :
  P [] -> (forall a, P [a]) -> (forall a b, P [a; b]) -> (forall a b c l, P l -> P (a :: b :: c :: l)) -> forall l, P l.
Proof. intros H0 H1 H2 H3. fix IH 1. intros [|a [|b [|c l]]]; [exact H0|apply H1|apply H2|]. apply H3, IH. Qed.

Lemma sextets_range bytes : Forall byte bytes -> Forall (fun n => 0 <= n < 64) (sextets bytes).
Proof.
  unfold byte. induction bytes as [|a|a b|a b c l IH] using list_ind3; intros H; cbn [sextets].
  - constructor.
  - inversion_clear H as [|? ? Ha _]. repeat (apply Forall_cons_2; [bits; div_lia|]). constructor.
  - inversion_clear H as [|? ? Ha Hl]. inversion_clear Hl as [|? ? Hb _].
    repeat (apply Forall_cons_2; [rewrite ?lor_shiftl by (bits; div_lia); bits; div_lia|]). constructor.
  - inversion_clear H as [|? ? Ha Hl]. inversion_clear Hl as [|? ? Hb Hm]. inversion_clear Hm as [|? ? Hc Hr].
    repeat (apply Forall_cons_2; [rewrite ?lor_shiftl by (bits; div_lia); bits; div_lia|]). by apply IH.
Qed.

Lemma sextets_length bytes : Z.of_nat (length (sextets bytes)) = (4 * Z.of_nat (length bytes) + 2) / 3.
Proof.
  induction bytes as [|a|a b|a b c l IH] using list_ind3; [reflexivity..|]. cbn [sextets length]. rewrite !Nat2Z.inj_succ. div_lia.
Qed.

Section base64.
Context (alphabet : string) (pad : bool).
Context (Hindex : forall n, 0 <= n < 64 -> index_in (pick alphabet n) alphabet = Some n).
Context (Hpad : index_in padding alphabet = None).
Context (Hline : forall n, 0 <= n < 64 -> newline (pick alphabet n) = false).

Ltac digit n :=
  rewrite (Hindex n) by (rewrite ?lor_shiftl by (bits; div_lia); bits; div_lia).
Ltac recombine :=
  repeat f_equal; rewrite ?lor_shiftl by (rewrite ?lor_shiftl by (bits; div_lia); bits; div_lia);
  rewrite ?lor_shiftl by (bits; div_lia); bits; div_lia.

Lemma decode64_chars_complete bytes n : Forall byte bytes -> n = (- Z.of_nat (length bytes)) mod 3 ->
  decode64_chars alphabet pad ((pick alphabet <$> sextets bytes) ++ (if pad then replicate (Z.to_nat n) padding else [])) = Some bytes.
Proof using Hindex Hpad.
  unfold byte. revert n. induction bytes as [|a|a b|a b c l IH] using list_ind3; intros n H ->; cbn [sextets fmap list_fmap].
  - by destruct pad.
  - inversion_clear H as [|? ? Ha _]. change (Z.to_nat (- Z.of_nat (length [a]) mod 3)) with 2%nat.
    destruct pad eqn:Ep; cbn [app replicate decode64_chars]; digit (Z.shiftr a 2); digit (Z.shiftl (Z.land a 3) 4); rewrite ?Hpad; cbn; recombine.
  - inversion_clear H as [|? ? Ha Hl]. inversion_clear Hl as [|? ? Hb _]. change (Z.to_nat (- Z.of_nat (length [a; b]) mod 3)) with 1%nat.
    destruct pad eqn:Ep; cbn [app replicate decode64_chars]; digit (Z.shiftr a 2); digit (Z.lor (Z.shiftl (Z.land a 3) 4) (Z.shiftr b 4));
      digit (Z.shiftl (Z.land b 15) 2); rewrite ?Hpad; cbn; recombine.
  - inversion_clear H as [|? ? Ha Hl]. inversion_clear Hl as [|? ? Hb Hm]. inversion_clear Hm as [|? ? Hc Hr].
    cbn [app decode64_chars]. digit (Z.shiftr a 2). digit (Z.lor (Z.shiftl (Z.land a 3) 4) (Z.shiftr b 4)).
    digit (Z.lor (Z.shiftl (Z.land b 15) 2) (Z.shiftr c 6)). digit (Z.land c 63).
    rewrite (IH _ Hr); [|cbn [length]; rewrite !Nat2Z.inj_succ; div_lia]. cbn. recombine.
Qed.

Lemma decode64_encode64 bytes : Forall byte bytes -> decode64 alphabet pad (encode64 alphabet pad bytes) = Some bytes.
Proof using Hindex Hpad Hline.
  intros H. unfold decode64, encode64. rewrite String.list_ascii_of_string_of_list_ascii.
  etransitivity; [|by apply (decode64_chars_complete bytes _ H eq_refl)]. f_equal. apply forallb_filter_id, forallb_forall.
  intros c Hc%list_elem_of_In. apply elem_of_app in Hc as [(n & -> & Hn)%list_elem_of_fmap|Hc].
  - rewrite Hline; [done|]. pose proof (sextets_range bytes H) as Hr. by rewrite Forall_forall in Hr; apply Hr.
  - destruct pad; [|by apply not_elem_of_nil in Hc]. by apply elem_of_replicate in Hc as [-> _].
Qed.
End base64.

Lemma forall_sextet (P : Z -> bool) : forallb (fun n => P (Z.of_nat n)) (seq 0 64) = true -> forall n, 0 <= n < 64 -> P n = true.
Proof. rewrite forallb_forall. intros H n Hn. specialize (H (Z.to_nat n)). rewrite Z2Nat.id in H by lia. apply H, in_seq. lia. Qed.

Lemma std_line n : 0 <= n < 64 -> newline (pick std_alphabet n) = false.
Proof. intros Hn. apply negb_true_iff. revert n Hn. apply forall_sextet. vm_compute. reflexivity. Qed.
Lemma std_round_trip pad bytes : Forall byte bytes -> decode64 std_alphabet pad (encode64 std_alphabet pad bytes) = Some bytes.
Proof. apply decode64_encode64; [apply std_index|reflexivity|apply std_line]. Qed.
(** ** Characters of encoded text *)
Lemma encode64_chars (Q : Ascii.ascii -> bool) alphabet pad bytes :
  (forall n, 0 <= n < 64 -> Q (pick alphabet n) = true) -> Q padding = true -> Forall byte bytes ->
  Forall (fun c => Q c = true) (String.list_ascii_of_string (encode64 alphabet pad bytes)).
Proof.
  intros Ha Hp H. unfold encode64. rewrite String.list_ascii_of_string_of_list_ascii. apply Forall_app. split.
  - apply Forall_fmap. eapply Forall_impl; [by apply sextets_range|]. intros n Hn. by apply Ha.
  - destruct pad; [|constructor]. by apply Forall_replicate.
Qed.

Lemma TrimSpace_none s : Forall (fun x => negb (ascii_space x) = true) (String.list_ascii_of_string s) -> TrimSpace s = s.
Proof.
  intros H. unfold TrimSpace, on_ascii, trim. rewrite <- (String.string_of_list_ascii_of_string s) at 2. f_equal.
  assert (forall l, Forall (fun x => negb (ascii_space x) = true) l -> trim_left l = l) as Ht.
  { intros l Hl. apply trim_left_id. destruct Hl as [|x l Hx _]; [done|]. by apply negb_true_iff in Hx. }
  rewrite (Ht _ H), Ht by (by apply Forall_reverse). apply reverse_involutive.
Qed.

Lemma encode64_length alphabet bytes :
  Z.of_nat (String.length (encode64 alphabet true bytes)) = (Z.of_nat (length bytes) + 2) / 3 * 4.
Proof.
  assert (forall l, String.length (String.string_of_list_ascii l) = length l) as Hl by (induction l; cbn; congruence).
  unfold encode64. rewrite Hl, length_app, length_fmap, length_replicate, Nat2Z.inj_add, sextets_length, Z2Nat.id by div_lia. div_lia.
Qed.

(** Properties shared by all characters an alphabet yields. *)
Lemma pick_all (Q : Ascii.ascii -> bool) alphabet n :
  forallb Q (String.list_ascii_of_string alphabet) = true -> Q Ascii.zero = true -> Q (pick alphabet n) = true.
Proof.
  intros Ha Hz. unfold pick. generalize (Z.to_nat n). clear n. induction alphabet as [|c alphabet IH]; intros n; [done|].
  cbn in Ha. apply andb_prop in Ha as [Hc Ha]. destruct n as [|n]; cbn; [done|by apply IH].
Qed.

Lemma hex_chars (Q : Ascii.ascii -> bool) bytes :
  forallb Q (String.list_ascii_of_string hex_alphabet) = true -> Q Ascii.zero = true ->
  Forall (fun c => Q c = true) (String.list_ascii_of_string (hex_encode bytes)).
Proof.
  intros Ha Hz. unfold hex_encode. rewrite String.list_ascii_of_string_of_list_ascii. induction bytes as [|b l IH]; [constructor|].
  constructor; [by apply pick_all|]. constructor; [by apply pick_all|exact IH].
Qed.

Lemma base32_chars (Q : Ascii.ascii -> bool) bytes :
  forallb Q (String.list_ascii_of_string base32_alphabet) = true -> Q Ascii.zero = true ->
  Forall (fun c => Q c = true) (String.list_ascii_of_string (base32 bytes)).
Proof.
  intros Ha Hz. unfold base32. rewrite String.list_ascii_of_string_of_list_ascii. apply Forall_fmap, Forall_true. intros n. by apply pick_all.
Qed.
