(* ===== verification/Breaker.v ===== *)
(** * Circuit breaker of the JMAP proxy ([internal/jmap/breaker.go])

    [CircuitBreaker] is the Go interface.  [InProcess] is the per-pod
    implementation: a map from hosts to failure timestamps and an open-until
    instant.  [Redis] is the Valkey-backed one: the two Lua scripts over the
    keys [kmail:cb:{host}:fail] and [kmail:cb:{host}:open_until], written
    against the [Valkey] interface.  Instants of the pods are nanosecond
    counts, instants of the server are milliseconds. *)

From S2P Require Import Prelude Valkey.

Local Open Scope Z_scope.

(** The Go interface.  [rnd] is the random suffix [newBreakerMember] draws,
    [None] when the random source fails; the in-process breaker ignores it. *)
Class CircuitBreaker (B : Type) := {
  cb_open : Z -> string -> B -> bool * B;
  cb_success : Z -> string -> B -> B;
  cb_failure : Z -> string -> option string -> B -> B;
}.

(** The warning it logs when it clamps is not part of the state. *)
Definition clampBreakerWindow (cooldown window : Z) : Z :=
  if (cooldown <=? 0) || (window <=? 0) || (cooldown <=? window) then window else cooldown.

Module InProcess.

Record hostBreakerState := mkHost {
  failures : list Z;        (* oldest first *)
  openUntil : option Z;     (* [None] is the zero time *)
}.

Record inProcessCircuitBreaker := mkBreaker {
  threshold : Z;
  cooldown : Z;
  window : Z;
  state : gmap string hostBreakerState;
}.

Definition with_state (b : inProcessCircuitBreaker) (st : gmap string hostBreakerState) :=
  mkBreaker (threshold b) (cooldown b) (window b) st.

Definition newInProcessCircuitBreaker (thr cd win : Z) : inProcessCircuitBreaker :=
  mkBreaker (if thr <=? 0 then 3 else thr) cd (clampBreakerWindow cd win) ∅.

Definition trimLocked (b : inProcessCircuitBreaker) (s : hostBreakerState) (now : Z)
    : hostBreakerState :=
  if (window b <=? 0) || (Z.of_nat (length (failures s)) =? 0) then s
  else let cutoff := now - window b in
       mkHost (drop_while (fun f => f <? cutoff) (failures s)) (openUntil s).

Definition Open (b : inProcessCircuitBreaker) (host : string) (now : Z)
    : bool * inProcessCircuitBreaker :=
  match state b !! host with
  | None => (false, b)
  | Some s0 =>
      let s := trimLocked b s0 now in
      (if 0 <? cooldown b
       then match openUntil s with None => false | Some u => now <? u end
       else threshold b <=? Z.of_nat (length (failures s)),
       with_state b (<[host := s]> (state b)))
  end.

Definition RecordSuccess (b : inProcessCircuitBreaker) (host : string) : inProcessCircuitBreaker :=
  with_state b (delete host (state b)).

Definition RecordFailure (b : inProcessCircuitBreaker) (host : string) (now : Z)
    : inProcessCircuitBreaker :=
  let s0 := default (mkHost [] None) (state b !! host) in
  let s1 := trimLocked b s0 now in
  let fs := failures s1 ++ [now] in
  let half_open :=
    (0 <? cooldown b) && match openUntil s1 with None => false | Some u => u <=? now end in
  let u :=
    if half_open then Some (now + cooldown b)
    else if (threshold b <=? Z.of_nat (length fs)) && (0 <? cooldown b)
         then Some (now + cooldown b)
         else openUntil s1 in
  with_state b (<[host := mkHost fs u]> (state b)).

End InProcess.

Import InProcess.

#[export] Instance inprocess_breaker : CircuitBreaker inProcessCircuitBreaker := {|
  cb_open now h b := Open b h now;
  cb_success _ h b := RecordSuccess b h;
  cb_failure now h _ b := RecordFailure b h now;
|}.

Module Redis.

Record RedisCircuitBreaker := mkRedis {
  threshold : Z;
  cooldown : Z;
  window : Z;
}.

Inductive newError := ClientRequired.

Definition NewRedisCircuitBreaker (hasClient : bool) (thr cd win : Z)
    : result newError RedisCircuitBreaker :=
  if negb hasClient then Err ClientRequired
  else
    let thr := if thr <=? 0 then 3 else thr in
    let cd := if cd <=? 0 then 30 * Second else cd in
    let win := if win <=? 0 then 60 * Second else win in
    Ok (mkRedis thr cd (clampBreakerWindow cd win)).

Definition newBreakerMember (nowMs : Z) (rnd : option string) : option string :=
  match rnd with
  | None => None
  | Some hex => Some (pretty nowMs +:+ ":" +:+ hex)
  end.

Definition keys (host : string) : string * string :=
  ("kmail:cb:{" +:+ host +:+ "}:fail", "kmail:cb:{" +:+ host +:+ "}:open_until").

Section scripts.
Context {S : Type} `{VK : Valkey (option Z) S}.

(** [breakerAllowScript]; a stored value is [None] when [tonumber] would
    return nil on it.  [sv] is the server clock. *)
Definition breakerAllowScript (sv : Z) (open_until_key : string) (now : Z) (s : S) : Z :=
  match vk_get sv s open_until_key with
  | None => 0
  | Some None => 0
  | Some (Some until_ms) => if until_ms <=? now then 0 else 1
  end.

Definition breakerFailScript (sv : Z) (fail_key open_until_key : string)
    (window threshold cooldown now : Z) (member : string) (s : S) : Z * S :=
  let cutoff := now - window in
  let s := vk_zremlt sv fail_key cutoff s in
  let s := vk_zadd sv fail_key now member s in
  let count := vk_zcard sv s fail_key in
  let s := vk_pexpire sv fail_key (window + 5000) s in
  let trip := vk_set sv open_until_key (Some (now + cooldown)) (cooldown + 5000) in
  let half_open :=
    match vk_get sv s open_until_key with
    | Some (Some open_until) => open_until <=? now
    | _ => false
    end in
  if half_open then (count, trip s)
  else if threshold <=? count then (count, trip s)
  else (count, s).

(** [Open]: an error of the store reads as closed. *)
Definition Open (d : delivery) (sv : Z) (b : RedisCircuitBreaker) (host : string) (now : Z)
    (s : S) : bool * S :=
  let nowMs := UnixMilli now in
  match remote d (fun s => (breakerAllowScript sv (keys host).2 nowMs s, s)) s with
  | (Some v, s') => (v =? 1, s')
  | (None, s') => (false, s')
  end.

(** The two DELs run in one MULTI. *)
Definition RecordSuccess (d : delivery) (sv : Z) (host : string) (s : S) : S :=
  (remote d (fun s => (tt, vk_del sv (keys host).2 (vk_del sv (keys host).1 s))) s).2.

Definition RecordFailure (d : delivery) (sv : Z) (b : RedisCircuitBreaker) (host : string)
    (now : Z) (rnd : option string) (s : S) : S :=
  let nowMs := UnixMilli now in
  match newBreakerMember nowMs rnd with
  | None => s
  | Some member =>
      (remote d (breakerFailScript sv (keys host).1 (keys host).2
                   (Milliseconds (window b)) (threshold b) (Milliseconds (cooldown b))
                   nowMs member) s).2
  end.

End scripts.
End Redis.

(** A pod talking to a healthy store whose clock agrees with its own. *)
Definition redis_breaker {S : Type} `{VK : Valkey (option Z) S} (b : Redis.RedisCircuitBreaker)
    : CircuitBreaker S := {|
  cb_open now h s := Redis.Open Delivered (UnixMilli now) b h now s;
  cb_success now h s := Redis.RecordSuccess Delivered (UnixMilli now) h s;
  cb_failure now h rnd s := Redis.RecordFailure Delivered (UnixMilli now) b h now rnd s;
|}.

(** ** Runs of a breaker

    A run is a sequence of calls, each at the pod's current instant; [run]
    collects the answers of [Open] with the host they are about. *)
Inductive bop := BOpen | BSuccess | BFail (rnd : option string).

Record bevent := mkEv { ev_now : Z; ev_host : string; ev_op : bop }.

Definition exec {B : Type} (CB : CircuitBreaker B) (b : B) (e : bevent)
    : list (string * bool) * B :=
  match ev_op e with
  | BOpen => let '(a, b') := cb_open (ev_now e) (ev_host e) b in ([(ev_host e, a)], b')
  | BSuccess => ([], cb_success (ev_now e) (ev_host e) b)
  | BFail rnd => ([], cb_failure (ev_now e) (ev_host e) rnd b)
  end.

Fixpoint run {B : Type} (CB : CircuitBreaker B) (b : B) (es : list bevent)
    : list (string * bool) * B :=
  match es with
  | [] => ([], b)
  | e :: es =>
      let '(a, b1) := exec CB b e in
      let '(as', b2) := run CB b1 es in (a ++ as', b2)
  end.

(** Instants do not decrease along the run. *)
Fixpoint ordered (t : Z) (es : list bevent) : Prop :=
  match es with
  | [] => True
  | e :: es => t <= ev_now e /\ ordered (ev_now e) es
  end.

Definition is_failure_of (h : string) (e : bevent) : bool :=
  String.eqb (ev_host e) h && match ev_op e with BFail _ => true | _ => false end.

Definition failures_of (h : string) (es : list bevent) : Z :=
  Z.of_nat (length (List.filter (is_failure_of h) es)).

(** ** Invariant of the in-process breaker *)

(** At instant [t]: timestamps are in order and not in the future, and a
    recorded trip ends at most one cooldown from now. *)
Definition host_ok (b : inProcessCircuitBreaker) (t : Z) (s : hostBreakerState) : Prop :=
  StronglySorted Z.le (failures s) /\ Forall (fun f => f <= t) (failures s) /\
  (forall u, openUntil s = Some u -> 0 < cooldown b /\ u <= t + cooldown b).

Definition breaker_ok (b : inProcessCircuitBreaker) (t : Z) : Prop :=
  map_Forall (fun _ => host_ok b t) (state b).

(** The failures a sliding window of the breaker's length counts. *)
Definition recent (b : inProcessCircuitBreaker) (s : hostBreakerState) (now : Z) : list Z :=
  if window b <=? 0 then failures s
  else List.filter (fun f => now - window b <=? f) (failures s).

Definition host_of (b : inProcessCircuitBreaker) (h : string) : hostBreakerState :=
  default (mkHost [] None) (state b !! h).

Lemma openUntil_trim b s now : openUntil (trimLocked b s now) = openUntil s.
Proof. unfold trimLocked. by destruct (_ || _). Qed.

Lemma trim_recent b s now :
  StronglySorted Z.le (failures s) -> failures (trimLocked b s now) = recent b s now.
Proof.
  intros Hs. unfold trimLocked, recent.
  destruct (window b <=? 0) eqn:Ew; simpl; [done|].
  destruct (Z.eqb_spec (Z.of_nat (length (failures s))) 0) as [E|_].
  - destruct (failures s); [done | simpl in E; lia].
  - simpl. by apply drop_while_sorted.
Qed.

Lemma trim_ok b s t now : host_ok b t s -> t <= now -> host_ok b now (trimLocked b s now).
Proof.
  intros (Hs & Hf & Hu) Ht. split; [|split].
  - unfold trimLocked. destruct (_ || _); simpl; auto with kmail.
  - apply Forall_forall. intros f Hin. rewrite Forall_forall in Hf.
    enough (f ∈ failures s) as Hin' by (specialize (Hf _ Hin'); lia).
    revert Hin. unfold trimLocked. destruct (_ || _); simpl; [done|].
    apply elem_of_drop_while.
  - intros u. rewrite openUntil_trim. intros H%Hu. lia.
Qed.

Lemma host_ok_mono b s t now : host_ok b t s -> t <= now -> host_ok b now s.
Proof.
  intros (Hs & Hf & Hu) Ht. split; [done|split; [|intros u H%Hu; lia]].
  eapply Forall_impl; [done|]. simpl. lia.
Qed.

Lemma host_of_ok b t h : breaker_ok b t -> host_ok b t (host_of b h).
Proof.
  intros Hb. unfold host_of. destruct (state b !! h) as [s|] eqn:E; simpl; [by eapply Hb|].
  split; [|split]; simpl; [constructor|done|done].
Qed.

Lemma breaker_ok_mono b t now : breaker_ok b t -> t <= now -> breaker_ok b now.
Proof. intros Hb Ht h s Hs. eapply host_ok_mono; [by eapply Hb|done]. Qed.

Lemma failure_host_ok b t h now :
  breaker_ok b t -> t <= now ->
  forall s, state (RecordFailure b h now) !! h = Some s -> host_ok b now s.
Proof.
  intros Hb Ht s. unfold RecordFailure. simpl. rewrite lookup_insert_eq. intros [= <-].
  change (default {| failures := []; openUntil := None |} (state b !! h)) with (host_of b h).
  destruct (trim_ok b (host_of b h) t now (host_of_ok _ _ _ Hb) Ht) as (Hs & Hf & Hu).
  split; [|split]; simpl.
  - by apply StronglySorted_app_one.
  - apply Forall_app. split; [done|]. repeat constructor. lia.
  - intros u. destruct (_ && _) eqn:E1; [intros [= <-]; breflect; lia|].
    destruct (_ && _) eqn:E2 in |- *; [intros [= <-]; breflect; lia|]. apply Hu.
Qed.

Lemma with_state_ok b t m : map_Forall (fun _ => host_ok b t) m -> breaker_ok (with_state b m) t.
Proof. done. Qed.

Lemma exec_ok b t e :
  breaker_ok b t -> t <= ev_now e -> breaker_ok (exec inprocess_breaker b e).2 (ev_now e).
Proof.
  intros Hb Ht. unfold exec. destruct e as [now h []]; simpl in *.
  - unfold Open. destruct (state b !! h) as [s0|] eqn:E; simpl; [|by eapply breaker_ok_mono].
    apply with_state_ok, map_Forall_insert_2; [|by apply (breaker_ok_mono b t)].
    eapply trim_ok; [by eapply Hb|done].
  - apply with_state_ok, map_Forall_delete. by apply (breaker_ok_mono b t).
  - intros k s Hs. destruct (decide (k = h)) as [->|Hne].
    + exact (failure_host_ok b t h now Hb Ht s Hs).
    + unfold RecordFailure in Hs. simpl in Hs. rewrite lookup_insert_ne in Hs by done.
      apply (host_ok_mono b s t now); [by eapply Hb|done].
Qed.

Lemma run_ok b t es :
  breaker_ok b t -> ordered t es ->
  exists t', breaker_ok (run inprocess_breaker b es).2 t' /\ t <= t'.
Proof.
  revert b t. induction es as [|e es IH]; intros b t Hb; simpl; [by exists t|].
  intros [Ht Ho]. pose proof (exec_ok b t e Hb Ht) as Hb1.
  destruct (exec inprocess_breaker b e) as [a b1]. simpl in *.
  destruct (IH b1 (ev_now e) Hb1 Ho) as [t' [H1 H2]].
  destruct (run inprocess_breaker b1 es) as [as' b2]. simpl in *. exists t'. split; [done|lia].
Qed.

Lemma new_ok thr cd win t : breaker_ok (newInProcessCircuitBreaker thr cd win) t.
Proof. apply map_Forall_empty. Qed.

#[export] Hint Resolve trim_ok host_of_ok breaker_ok_mono new_ok : kmail.

Lemma RecordFailure_host b h now :
  host_of (RecordFailure b h now) h =
  let s := trimLocked b (host_of b h) now in
  let fs := failures s ++ [now] in
  mkHost fs
    (if (0 <? cooldown b) && match openUntil s with None => false | Some u => u <=? now end
     then Some (now + cooldown b)
     else if (threshold b <=? Z.of_nat (length fs)) && (0 <? cooldown b)
          then Some (now + cooldown b) else openUntil s).
Proof. unfold host_of at 1, RecordFailure. simpl. by rewrite lookup_insert_eq. Qed.

Lemma Open_answer b h now : 0 < cooldown b ->
  (Open b h now).1 = match openUntil (host_of b h) with None => false | Some u => now <? u end.
Proof.
  intros Hc. unfold Open, host_of. destruct (state b !! h) as [s|]; simpl; [|done].
  rewrite openUntil_trim. destruct (Z.ltb_spec 0 (cooldown b)); [done|lia].
Qed.

(** ** Properties of the in-process breaker *)

(** Along every run of calls with non-decreasing instants, started from a
    new breaker, each host's failure timestamps stay sorted and never lie in
    the future, and no trip outlives one cooldown. *)
Theorem inprocess_run_invariant thr cd win t es :
  ordered t es ->
  exists t', t <= t' /\
    breaker_ok (run inprocess_breaker (newInProcessCircuitBreaker thr cd win) es).2 t'.
Proof.
  intros Ho. destruct (run_ok _ t es (new_ok thr cd win t) Ho) as [t' [? ?]]. by exists t'.
Qed.

Lemma inprocess_run_invariant_witness :
  exists t', 0 <= t' /\
    breaker_ok (run inprocess_breaker (newInProcessCircuitBreaker 2 30 60)
                 [mkEv 1 "a" (BFail None); mkEv 4 "a" BOpen]).2 t'.
Proof. apply (inprocess_run_invariant 2 30 60 0). simpl. lia. Defined.

(** What one failure does to the answers that follow.  With a cooldown,
    after [RecordFailure] at [now] every later [Open] answers true until
    [now + cooldown] exactly when the breaker was half-open or the sliding
    window holds [threshold] failures including this one; otherwise the
    previous plateau is unchanged. *)
Theorem open_after_failure b h t now t' :
  breaker_ok b t -> t <= now -> 0 < cooldown b ->
  (Open (RecordFailure b h now) h t').1 =
    if match openUntil (host_of b h) with None => false | Some u => u <=? now end
       || (threshold b <=? Z.of_nat (length (recent b (host_of b h) now)) + 1)
    then t' <? now + cooldown b
    else match openUntil (host_of b h) with None => false | Some u => t' <? u end.
Proof.
  intros Hb Ht Hc. rewrite Open_answer by done. rewrite RecordFailure_host. cbn zeta.
  rewrite openUntil_trim, trim_recent by apply (host_of_ok _ _ _ Hb). simpl openUntil.
  rewrite length_app, Nat2Z.inj_add. change (Z.of_nat (length [now])) with 1.
  destruct (Z.ltb_spec 0 (cooldown b)); [|lia]. rewrite andb_true_r. simpl.
  set (over := threshold b <=? _).
  by destruct (openUntil (host_of b h)) as [u|]; [destruct (u <=? now)|]; destruct over.
Qed.

Lemma open_after_failure_witness :
  (Open (RecordFailure (newInProcessCircuitBreaker 1 30 60) "a" 5) "a" 9).1 = true.
Proof.
  rewrite (open_after_failure (newInProcessCircuitBreaker 1 30 60) "a" 0 5 9);
    [reflexivity | apply new_ok | lia | reflexivity].
Defined.

(** Calls about one host leave the record of every other host alone. *)
Lemma exec_isolated b e h :
  ev_host e <> h -> state (exec inprocess_breaker b e).2 !! h = state b !! h.
Proof.
  intros Hne. destruct e as [now k []]; simpl in *; unfold exec; simpl.
  - unfold Open. destruct (state b !! k); simpl; [by rewrite lookup_insert_ne | done].
  - by rewrite lookup_delete_ne.
  - by rewrite lookup_insert_ne.
Qed.

Lemma exec_config b e :
  threshold (exec inprocess_breaker b e).2 = threshold b /\
  cooldown (exec inprocess_breaker b e).2 = cooldown b /\
  window (exec inprocess_breaker b e).2 = window b.
Proof.
  destruct e as [now k []]; unfold exec; simpl; try done.
  unfold Open. by destruct (state b !! k).
Qed.

(** At most [n] failures of [h] are on record and it never tripped. *)
Definition quiet (b : inProcessCircuitBreaker) (h : string) (n : Z) : Prop :=
  Z.of_nat (length (failures (host_of b h))) <= n /\ openUntil (host_of b h) = None.

Lemma trim_length b s now :
  (length (failures (trimLocked b s now)) <= length (failures s))%nat.
Proof.
  unfold trimLocked. destruct (_ || _); simpl; [lia|]. apply drop_while_length.
Qed.

Lemma quiet_step b h n e a b' :
  quiet b h n -> n < threshold b -> exec inprocess_breaker b e = (a, b') ->
  (forall x, (h, x) ∈ a -> x = false) /\
  ((if is_failure_of h e then n + 1 < threshold b else True) ->
   quiet b' h (if is_failure_of h e then n + 1 else n)).
Proof.
  intros [Hl Hu] Hn He. unfold is_failure_of.
  destruct (String.eqb_spec (ev_host e) h) as [Hh|Hh]; simpl.
  2:{ pose proof (exec_isolated b e h Hh) as Hi. rewrite He in Hi. simpl in Hi. split.
      - intros x Hx. unfold exec in He. destruct e as [now k []]; simpl in *.
        + destruct (Open b k now). injection He as <- <-. set_solver.
        + injection He as <- <-. set_solver.
        + injection He as <- <-. set_solver.
      - intros _. unfold quiet, host_of in *. by rewrite Hi. }
  unfold exec in He. destruct e as [now k []]; simpl in *; subst k.
  - destruct (Open b h now) as [x b1] eqn:Eo. simplify_eq. split.
    + intros y [= ->]%list_elem_of_singleton. unfold Open, host_of in *.
      destruct (state b !! h) as [s|] eqn:Es; simplify_eq; [|done]. simpl in *.
      rewrite openUntil_trim, Hu. break_guard; [done|].
      apply Z.leb_gt. pose proof (trim_length b s now). lia.
    + intros _. unfold Open, quiet, host_of in *.
      destruct (state b !! h) as [s|] eqn:Es; simplify_eq; simpl; [|by rewrite Es].
      rewrite lookup_insert_eq. simpl in *. rewrite openUntil_trim.
      pose proof (trim_length b s now). split; [lia|done].
  - simplify_eq. split; [set_solver|]. intros _. unfold quiet, host_of. simpl.
    rewrite lookup_delete_eq. simpl. split; [|done]. lia.
  - simplify_eq. split; [set_solver|]. intros Hlt. unfold quiet. rewrite RecordFailure_host.
    cbn zeta. simpl. rewrite openUntil_trim, Hu, andb_false_r, length_app. simpl.
    pose proof (trim_length b (host_of b h) now). split; [lia|].
    destruct (Z.leb_spec (threshold b) (Z.of_nat (length (failures (trimLocked b (host_of b h) now)) + 1)));
      [lia|done].
Qed.

Lemma failures_of_cons h e es :
  failures_of h (e :: es) = failures_of h es + (if is_failure_of h e then 1 else 0).
Proof. unfold failures_of. simpl. destruct (is_failure_of h e); simpl; lia. Qed.

Lemma quiet_run b h n es :
  quiet b h n -> n + failures_of h es < threshold b ->
  forall x, (h, x) ∈ (run inprocess_breaker b es).1 -> x = false.
Proof.
  revert b n. induction es as [|e es IH]; intros b n Hq Hn x; simpl; [set_solver|].
  rewrite failures_of_cons in Hn.
  assert (0 <= failures_of h es) by (unfold failures_of; lia).
  destruct (exec inprocess_breaker b e) as [a b1] eqn:Ee.
  destruct (quiet_step b h n e a b1 Hq) as [Ha Hb]; [destruct (is_failure_of h e); lia|done|].
  destruct (exec_config b e) as (Ht & _). rewrite Ee in Ht. simpl in Ht.
  specialize (IH b1 (if is_failure_of h e then n + 1 else n)).
  destruct (run inprocess_breaker b1 es) as [as' b2]. simpl in *.
  rewrite elem_of_app. intros [Hx|Hx]; [by apply Ha|].
  apply IH; [|destruct (is_failure_of h e); lia|done].
  apply Hb. destruct (is_failure_of h e); [lia|done].
Qed.

(** A success closes the breaker, and it stays closed as long as fewer
    than [threshold] failures of the host follow: whatever the other calls
    and hosts do, and whatever the clock does, no [Open] about the host
    answers true. *)
Theorem closed_below_threshold b h es :
  failures_of h es < threshold b ->
  forall x, (h, x) ∈ (run inprocess_breaker (RecordSuccess b h) es).1 -> x = false.
Proof.
  intros Hn. apply (quiet_run (RecordSuccess b h) h 0); [|simpl; lia].
  unfold quiet, host_of. simpl. rewrite lookup_delete_eq. simpl. split; [lia|done].
Qed.

Lemma closed_below_threshold_witness :
  let es := [mkEv 1 "a" (BFail None); mkEv 2 "b" (BFail None); mkEv 3 "a" BOpen] in
  (run inprocess_breaker (RecordSuccess (newInProcessCircuitBreaker 2 30 60) "a") es).1
    = [("a"%string, false)] /\
  forall x, ("a"%string, x) ∈
    (run inprocess_breaker (RecordSuccess (newInProcessCircuitBreaker 2 30 60) "a") es).1 ->
    x = false.
Proof.
  split; [reflexivity|].
  apply (closed_below_threshold (newInProcessCircuitBreaker 2 30 60) "a"). reflexivity.
Defined.

Definition record_failures (b : inProcessCircuitBreaker) (h : string) (ts : list Z) :=
  fold_left (fun b t => RecordFailure b h t) ts b.

Lemma recent_all b s now :
  Forall (fun f => window b <= 0 \/ now - window b <= f) (failures s) ->
  failures (trimLocked b s now) = failures s.
Proof.
  intros Hf. unfold trimLocked. destruct (window b <=? 0) eqn:Ew; simpl; [done|]. breflect.
  break_guard; [done|]. simpl. destruct Hf as [|f fs Hf]; [done|]. simpl.
  destruct (Z.ltb_spec f (now - window b)); [lia|done].
Qed.

Lemma record_failures_trip b h fs ts last :
  host_of b h = mkHost fs None -> 0 < cooldown b ->
  StronglySorted Z.le (fs ++ ts ++ [last]) ->
  Forall (fun f => window b <= 0 \/ last - window b <= f) (fs ++ ts) ->
  Z.of_nat (length (fs ++ ts ++ [last])) = threshold b ->
  openUntil (host_of (record_failures b h (ts ++ [last])) h) = Some (last + cooldown b) /\
  cooldown (record_failures b h (ts ++ [last])) = cooldown b.
Proof.
  revert b fs. induction ts as [|t ts IH]; intros b fs Hs Hc Hsort Hw Hlen.
  - simpl in *. rewrite app_nil_r in Hw. split; [|done]. rewrite RecordFailure_host, Hs. cbn zeta.
    rewrite recent_all, openUntil_trim by done. simpl.
    rewrite andb_false_r. destruct (Z.leb_spec (threshold b) (Z.of_nat (length (fs ++ [last]))));
      [|lia]. destruct (Z.ltb_spec 0 (cooldown b)); [done|lia].
  - simpl. destruct (IH (RecordFailure b h t) (fs ++ [t])) as [H1 H2]; try done.
    + rewrite RecordFailure_host, Hs. cbn zeta. rewrite openUntil_trim. simpl.
      rewrite andb_false_r.
      assert (failures (trimLocked b (mkHost fs None) t) = fs) as ->.
      { apply recent_all. simpl. apply Forall_app in Hw as [Hw _].
        assert (t <= last) as Ht.
        { apply StronglySorted_suffix in Hsort. simpl in Hsort. inversion Hsort; subst.
          rewrite Forall_app, Forall_singleton in H2. lia. }
        eapply Forall_impl; [done|]. simpl. intros f []; [by left|right; lia]. }
      rewrite length_app in *. simpl in *. rewrite !length_app in Hlen. simpl in Hlen.
      destruct (Z.leb_spec (threshold b) (Z.of_nat (length fs + 1))); [lia|done].
    + by rewrite <- app_assoc.
    + rewrite <- app_assoc. simpl. done.
    + rewrite <- app_assoc. done.
Qed.

(** The trip.  [threshold] failures in order whose span fits the window
    open the breaker for exactly one cooldown after the last of them, and
    then let a probe through. *)
Theorem trips_at_threshold b h ts last t :
  state b !! h = None -> 0 < cooldown b ->
  StronglySorted Z.le (ts ++ [last]) ->
  Forall (fun f => window b <= 0 \/ last - window b <= f) ts ->
  Z.of_nat (length (ts ++ [last])) = threshold b ->
  (Open (record_failures b h (ts ++ [last])) h t).1 = (t <? last + cooldown b).
Proof.
  intros Hs Hc Hsort Hw Hlen.
  destruct (record_failures_trip b h [] ts last) as [Hu Hcd]; try done.
  { unfold host_of. by rewrite Hs. }
  rewrite Open_answer by lia. by rewrite Hu.
Qed.

Lemma trips_at_threshold_witness :
  let b := newInProcessCircuitBreaker 3 30 60 in
  (Open (record_failures b "a" [1; 5; 9]) "a" 38).1 = true /\
  (Open (record_failures b "a" [1; 5; 9]) "a" 39).1 = false.
Proof.
  split;
    [ apply (trips_at_threshold (newInProcessCircuitBreaker 3 30 60) "a" [1; 5] 9 38)
    | apply (trips_at_threshold (newInProcessCircuitBreaker 3 30 60) "a" [1; 5] 9 39) ];
    solve [ reflexivity
          | simpl; repeat (constructor; try lia)
          | repeat (constructor; [right; vm_compute; discriminate|]); constructor ].
Defined.

(** ** The Valkey-backed breaker refines the in-process one *)

Lemma keys_fail_inj h h' : (Redis.keys h).1 = (Redis.keys h').1 -> h = h'.
Proof.
  simpl. intros H%string_prefix_inj. by apply string_suffix_inj in H as [? _].
Qed.

Lemma keys_open_inj h h' : (Redis.keys h).2 = (Redis.keys h').2 -> h = h'.
Proof.
  simpl. intros H%string_prefix_inj. by apply string_suffix_inj in H as [? _].
Qed.

Lemma keys_fail_open h h' : (Redis.keys h).1 <> (Redis.keys h').2.
Proof.
  simpl. intros H%string_prefix_inj.
  change "}:fail"%string with ("}:f" +:+ "ail") in H.
  change "}:open_until"%string with ("}:open_un" +:+ "til") in H.
  rewrite <- !string_app_assoc in H. by apply string_suffix_inj in H as [_ ?].
Qed.

Lemma filter_length_filter (c c' : Z) (l : list Z) :
  c' <= c ->
  List.filter (fun f => c <=? f) (List.filter (fun f => c' <=? f) l)
    = List.filter (fun f => c <=? f) l.
Proof.
  intros Hc. induction l as [|x l IH]; [done|]. simpl.
  destruct (Z.leb_spec c' x); simpl; [by rewrite IH|].
  destruct (Z.leb_spec c x); [lia|done].
Qed.

Section refinement.
Context {S : Type} `{VL : ValkeyLaws (option Z) S}.

(** The trim, insert and refresh of [breakerFailScript] on the failure set. *)
Lemma fail_views (sv now W : Z) fk m z (s : S) :
  0 <= W -> as_zset (vk_view s sv fk) = Some z -> z !! m = None ->
  let z1 := filter (fun kv => now - W <= kv.2) z in
  let s2 := vk_zadd sv fk now m (vk_zremlt sv fk (now - W) s) in
  vk_zcard sv s2 fk = Z.of_nat (size z1) + 1 /\
  forall k', vk_view (vk_pexpire sv fk (W + 5000) s2) sv k' =
    on_key fk k' (Some (OZset (<[m := now]> z1), Some (sv + (W + 5000)))) (vk_view s sv k').
Proof.
  intros HW Hz Hm z1 s2.
  assert (forall k', vk_view s2 sv k' = on_key fk k' (Some (OZset (<[m := now]> z1),
            expiry (vk_view (vk_zremlt sv fk (now - W) s) sv fk))) (vk_view s sv k')) as H2.
  { intros k'. unfold s2. rewrite law_zadd with (z := z1).
    - by rewrite (law_zremlt s sv fk _ z) with (k' := k'), on_key_on_key by done.
    - rewrite (law_zremlt s sv fk _ z) by done. by rewrite on_key_eq, as_zset_zentry. }
  split.
  - rewrite law_zcard with (z := <[m := now]> z1); [|by rewrite H2, on_key_eq].
    rewrite map_size_insert_None; [lia|]. apply map_lookup_filter_None. by left.
  - intros k'. rewrite law_pexpire by lia. rewrite !H2, on_key_eq, on_key_on_key. done.
Qed.

Variables thr C W : Z.
Hypothesis thr_pos : 0 < thr.
Hypothesis C_pos : 0 < C.
Hypothesis W_pos : 0 < W.

(** The value of [open_until] with the expiry the scripts give it. *)
Definition open_entry (u : option Z) : option (ventry (option Z)) :=
  option_map (fun u => (OStr (Some u), Some (u + 5000))) u.

(** Host [h] at server instant [t] (ms): the failure set counts what the
    in-process window counts for every cutoff still ahead, its expiry is not
    early, and the open-until key holds the recorded trip until it expires.
    [M] bounds the members used so far. *)
Definition sim_host (t : Z) (M : gset string) (s : S) (h : string) (st : hostBreakerState)
    : Prop :=
  (exists z, as_zset (vk_view s t (Redis.keys h).1) = Some z /\
     dom z ⊆ M /\
     (forall m sc, z !! m = Some sc -> sc <= t) /\
     (forall d m sc, expiry (vk_view s t (Redis.keys h).1) = Some d ->
        z !! m = Some sc -> sc + W < d) /\
     (forall c, t - W <= c ->
        length (List.filter (fun f => c * Millisecond <=? f) (failures st)) =
        size (filter (fun kv => c <= kv.2) z))) /\
  (exists u, openUntil st = option_map (fun u => u * Millisecond) u /\
     vk_view s t (Redis.keys h).2 = prune t (open_entry u)).

Definition sim (t : Z) (M : gset string) (b : inProcessCircuitBreaker) (s : S) : Prop :=
  breaker_ok b (t * Millisecond) /\
  threshold b = thr /\ cooldown b = C * Millisecond /\ window b = W * Millisecond /\
  forall h, sim_host t M s h (host_of b h).

Lemma sim_host_time t t' M s h st :
  t <= t' -> sim_host t M s h st -> sim_host t' M s h st.
Proof.
  intros Ht [(z & Hz & HM & Hle & Hd & Hc) (u & Hu & Hv)]. split.
  - rewrite (law_expire s t t') by done. set (e := vk_view s t (Redis.keys h).1) in *.
    exists (if live t' (expiry e) then z else ∅).
    rewrite (as_zset_none_wf t' e z Hz). split; [done|].
    destruct (live t' (expiry e)) eqn:El.
    + split; [done|]. split; [intros m sc Hm%Hle; lia|]. split; [|intros; apply Hc; lia].
      intros d m sc Hd' Hm. apply (Hd d m sc); [|done].
      clear -Hd'. destruct e as [[o d0]|]; simpl in *; [|done]. by destruct (live t' d0).
    + split; [set_solver|]. split; [intros m sc Hm; by rewrite lookup_empty in Hm|].
      split; [intros d m sc _ Hm; by rewrite lookup_empty in Hm|].
      intros c Hct. rewrite Hc by lia. rewrite map_filter_empty, map_size_empty.
      apply map_size_empty_iff, map_empty_filter_2. intros m sc Hm Hsc. simpl in Hsc.
      destruct (expiry e) as [d|] eqn:Ed; [|done].
      specialize (Hd d m sc eq_refl Hm). simpl in El. breflect. lia.
  - exists u. split; [done|]. rewrite (law_expire s t t'), Hv by done. by apply prune_prune.
Qed.

Lemma sim_time t t' M b s : t <= t' -> sim t M b s -> sim t' M b s.
Proof.
  intros Ht (Hb & H1 & H2 & H3 & Hh). split; [|split; [|split; [|split]]]; try done.
  - apply (breaker_ok_mono b (t * Millisecond)); [done|]. unfold Millisecond. lia.
  - intros h. by eapply sim_host_time.
Qed.

(** The trip still recorded by the in-process breaker has not outlived the
    five-second grace of the Valkey key. *)
Definition graced (b : inProcessCircuitBreaker) (e : bevent) : Prop :=
  match openUntil (host_of b (ev_host e)) with
  | Some u => ev_now e < u + 5 * Second
  | None => True
  end.

Lemma graced_view t M b s h e :
  sim t M b s -> ev_now e = t * Millisecond -> ev_host e = h -> graced b e ->
  exists u, openUntil (host_of b h) = option_map (fun u => u * Millisecond) u /\
    vk_view s t (Redis.keys h).2 = open_entry u.
Proof.
  intros (_ & _ & _ & _ & Hh) Hn <- Hg. destruct (Hh (ev_host e)) as [_ (u & Hu & Hv)].
  exists u. split; [done|]. rewrite Hv. unfold graced in Hg. rewrite Hu, Hn in Hg.
  destruct u as [u|]; simpl in *; [|done].
  destruct (Z.ltb_spec t (u + 5000)); [done|]. unfold Second, Millisecond in Hg. lia.
Qed.

Lemma get_open_entry t (s : S) k u :
  vk_view s t k = open_entry u -> vk_get t s k = option_map Some u.
Proof.
  destruct u as [u|]; simpl; intros H; [by eapply law_get | by apply law_get_none].
Qed.

Lemma UnixMilli_ms t : UnixMilli (t * Millisecond) = t.
Proof. unfold UnixMilli, Millisecond. by rewrite Z.div_mul. Qed.

Lemma Milliseconds_ms t : Milliseconds (t * Millisecond) = t.
Proof. unfold Milliseconds, Millisecond. by rewrite Z.quot_mul. Qed.

Lemma host_of_Open b h now h' :
  host_of (Open b h now).2 h' =
  if decide (h' = h) then trimLocked b (host_of b h) now else host_of b h'.
Proof.
  unfold Open, host_of. destruct (state b !! h) as [s|] eqn:E; simpl; case_decide; subst.
  - by rewrite lookup_insert_eq.
  - by rewrite lookup_insert_ne.
  - rewrite E. unfold trimLocked. simpl. by rewrite orb_true_r.
  - done.
Qed.

Lemma recent_ms b t st c :
  window b = W * Millisecond -> StronglySorted Z.le (failures st) -> t - W <= c ->
  List.filter (fun f => c * Millisecond <=? f)
    (failures (trimLocked b st (t * Millisecond))) =
  List.filter (fun f => c * Millisecond <=? f) (failures st).
Proof.
  intros Hw Hs Hc. rewrite trim_recent by done. unfold recent. rewrite Hw.
  destruct (Z.leb_spec (W * Millisecond) 0); [done|].
  apply filter_length_filter. unfold Millisecond. lia.
Qed.

Lemma sim_exec_open t M b s h :
  sim t M b s -> graced b (mkEv (t * Millisecond) h BOpen) ->
  (Open b h (t * Millisecond)).1 =
    (Redis.Open Delivered t (Redis.mkRedis thr (C * Millisecond) (W * Millisecond)) h
       (t * Millisecond) s).1 /\
  sim t M (Open b h (t * Millisecond)).2 s.
Proof.
  intros Hsim Hg. pose proof Hsim as (Hb & H1 & H2 & H3 & Hh).
  destruct (graced_view t M b s h (mkEv (t * Millisecond) h BOpen) Hsim eq_refl eq_refl Hg) as (u & Hu & Hv). split.
  - rewrite Open_answer by (rewrite H2; unfold Millisecond; lia). rewrite Hu.
    unfold Redis.Open, remote, Redis.breakerAllowScript. rewrite UnixMilli_ms.
    rewrite (get_open_entry _ _ _ u Hv). destruct u as [u|]; simpl; [|done].
    unfold Millisecond.
    destruct (Z.ltb_spec (t * 1000000) (u * 1000000)), (Z.leb_spec u t); simpl; done || lia.
  - pose proof (exec_ok b _ (mkEv (t * Millisecond) h BOpen) Hb (Z.le_refl _)) as Hok.
    pose proof (exec_config b (mkEv (t * Millisecond) h BOpen)) as Hcfg.
    unfold exec in Hok, Hcfg. simpl in Hok, Hcfg.
    destruct (Open b h (t * Millisecond)) as [a b'] eqn:Eo. simpl in *.
    destruct Hcfg as (C1 & C2 & C3). split_and!; [exact Hok|congruence..|].
    intros h'. replace b' with (Open b h (t * Millisecond)).2 by (by rewrite Eo).
    rewrite host_of_Open. case_decide; [subst h'|by apply Hh].
    destruct (Hh h) as [(z & Hz & HM & Hle & Hd & Hc) Hopen]. split.
    + exists z. split_and!; try done. intros c Hct. rewrite <- (Hc c Hct).
      rewrite recent_ms; [done|done| |done]. apply (host_of_ok _ _ _ Hb).
    + by rewrite openUntil_trim.
Qed.

(** A host whose two keys read the same is still simulated. *)
Lemma sim_host_frame t M M' (s s' : S) h st :
  vk_view s' t (Redis.keys h).1 = vk_view s t (Redis.keys h).1 ->
  vk_view s' t (Redis.keys h).2 = vk_view s t (Redis.keys h).2 ->
  M ⊆ M' -> sim_host t M s h st -> sim_host t M' s' h st.
Proof.
  unfold sim_host. intros -> -> HM [(z & Hz & Hdom & Hrest) Hu]. split; [|done].
  exists z. split; [done|]. split; [by etrans|done].
Qed.

(** Views of the keys of another host after writes to the keys of [h]. *)
Lemma other_host_keys h h' (a a' e : option (ventry (option Z))) :
  h' <> h ->
  on_key (Redis.keys h).2 (Redis.keys h').1 a (on_key (Redis.keys h).1 (Redis.keys h').1 a' e) = e /\
  on_key (Redis.keys h).2 (Redis.keys h').2 a (on_key (Redis.keys h).1 (Redis.keys h').2 a' e) = e.
Proof.
  intros Hne. split.
  - rewrite on_key_ne by apply keys_fail_open. by rewrite on_key_ne by (intros ?%keys_fail_inj; done).
  - rewrite on_key_ne by (intros ?%keys_open_inj; done).
    rewrite on_key_ne by (intros H; symmetry in H; by apply keys_fail_open in H). done.
Qed.

(** Views of the keys of [h] itself. *)
Lemma own_host_keys h (a a' e : option (ventry (option Z))) :
  on_key (Redis.keys h).2 (Redis.keys h).1 a (on_key (Redis.keys h).1 (Redis.keys h).1 a' e) = a' /\
  on_key (Redis.keys h).2 (Redis.keys h).2 a (on_key (Redis.keys h).1 (Redis.keys h).2 a' e) = a.
Proof.
  split; [|apply on_key_eq]. rewrite on_key_ne by apply keys_fail_open. apply on_key_eq.
Qed.

Lemma sim_success t M b s h :
  sim t M b s ->
  sim t M (RecordSuccess b h) (Redis.RecordSuccess Delivered t h s).
Proof.
  intros (Hb & H1 & H2 & H3 & Hh). split_and!; try done.
  { apply with_state_ok, map_Forall_delete. exact Hb. }
  unfold Redis.RecordSuccess, remote. simpl snd. set (s' := vk_del _ _ _).
  assert (forall k', vk_view s' t k' = on_key (Redis.keys h).2 k' None
            (on_key (Redis.keys h).1 k' None (vk_view s t k'))) as Hv
    by (intros k'; unfold s'; by rewrite !law_del).
  intros h'. unfold host_of. simpl state. destruct (decide (h' = h)) as [->|Hne].
  - rewrite lookup_delete_eq. unfold sim_host. rewrite !Hv.
    destruct (own_host_keys h None None (vk_view s t (Redis.keys h).1)) as [-> _].
    destruct (own_host_keys h None None (vk_view s t (Redis.keys h).2)) as [_ ->].
    split; [|by exists None]. exists ∅. split_and!; simpl; set_solver.
  - rewrite lookup_delete_ne by done.
    apply (sim_host_frame t M M s); [rewrite Hv; by apply other_host_keys..|done|apply Hh].
Qed.

Lemma host_of_RecordFailure_ne b h now h' :
  h' <> h -> host_of (RecordFailure b h now) h' = host_of b h'.
Proof. intros. unfold host_of, RecordFailure. simpl. by rewrite lookup_insert_ne. Qed.

(** The view of every key after [RecordFailure], and whether it tripped. *)
Lemma redis_failure_views t (s : S) h m z u :
  as_zset (vk_view s t (Redis.keys h).1) = Some z -> z !! m = None ->
  vk_view s t (Redis.keys h).2 = open_entry u ->
  let z1 := filter (fun kv : string * Z => t - W <= kv.2) z in
  let trips := match u with Some u => u <=? t | None => false end
               || (thr <=? Z.of_nat (size z1) + 1) in
  forall k', vk_view (Redis.breakerFailScript t (Redis.keys h).1 (Redis.keys h).2 W thr C t m s).2
    t k' =
    on_key (Redis.keys h).2 k' (if trips then open_entry (Some (t + C)) else open_entry u)
      (on_key (Redis.keys h).1 k'
        (Some (OZset (<[m := t]> z1), Some (t + (W + 5000)))) (vk_view s t k')).
Proof.
  intros Hz Hm Hu z1 trips k'. unfold Redis.breakerFailScript.
  destruct (fail_views t t W (Redis.keys h).1 m z s) as [Hcard Hview]; [lia|done|done|].
  cbn zeta in *. rewrite Hcard. set (s3 := vk_pexpire _ _ _ _) in *.
  assert (vk_view s3 t (Redis.keys h).2 = open_entry u) as Hu3.
  { rewrite Hview, on_key_ne; [done|]. intros H. symmetry in H. by apply keys_fail_open in H. }
  rewrite (get_open_entry t s3 _ u Hu3). fold z1 in Hview |- *.
  assert ((if match option_map Some u with
              | Some (Some open_until) => open_until <=? t | _ => false end
           then true else thr <=? Z.of_nat (size z1) + 1) = trips) as Htr.
  { unfold trips. destruct u as [u|]; simpl; [by destruct (u <=? t)|done]. }
  assert (vk_view (vk_set t (Redis.keys h).2 (Some (t + C)) (C + 5000) s3) t k' =
    on_key (Redis.keys h).2 k' (open_entry (Some (t + C)))
      (on_key (Redis.keys h).1 k' (Some (OZset (<[m := t]> z1), Some (t + (W + 5000))))
        (vk_view s t k'))) as Hset.
  { rewrite law_set by lia. rewrite Hview. simpl. by rewrite Z.add_assoc. }
  destruct (match option_map Some u with Some (Some _) => _ | _ => _ end) eqn:Eh.
  { rewrite <- Htr. exact Hset. }
  destruct (thr <=? Z.of_nat (size z1) + 1); rewrite <- Htr; [exact Hset|]. simpl.
  destruct (decide (k' = (Redis.keys h).2)) as [->|Hn].
  - by rewrite Hu3, on_key_eq.
  - by rewrite (on_key_ne (Redis.keys h).2), Hview by done.
Qed.

(** The failure set after the script counts what the in-process list counts. *)
Lemma failure_counts b t h (z : gmap string Z) m c :
  breaker_ok b (t * Millisecond) -> window b = W * Millisecond -> t - W <= c -> z !! m = None ->
  length (List.filter (fun f => c * Millisecond <=? f) (failures (host_of b h))) =
    size (filter (fun kv : string * Z => c <= kv.2) z) ->
  length (List.filter (fun f => c * Millisecond <=? f)
    (failures (trimLocked b (host_of b h) (t * Millisecond)) ++ [t * Millisecond])) =
  size (filter (fun kv : string * Z => c <= kv.2)
    (<[m := t]> (filter (fun kv : string * Z => t - W <= kv.2) z))).
Proof.
  intros Hb Hw Hct Hm Hc. rewrite List.filter_app, length_app.
  rewrite recent_ms by (done || apply (host_of_ok _ _ h Hb)).
  rewrite size_filter_insert by (apply map_lookup_filter_None; by left).
  rewrite filter_filter_cut by done. rewrite Hc. f_equal. simpl. unfold Millisecond.
  destruct (Z.leb_spec (c * 1000000) (t * 1000000)), (Z.leb_spec c t); done || lia.
Qed.

(** Both implementations take the same trip decision. *)
Lemma failure_trips b t h (z : gmap string Z) u :
  breaker_ok b (t * Millisecond) -> threshold b = thr ->
  cooldown b = C * Millisecond -> window b = W * Millisecond ->
  openUntil (host_of b h) = option_map (fun u => u * Millisecond) u ->
  length (List.filter (fun f => (t - W) * Millisecond <=? f) (failures (host_of b h))) =
    size (filter (fun kv : string * Z => t - W <= kv.2) z) ->
  openUntil (host_of (RecordFailure b h (t * Millisecond)) h) =
    option_map (fun u => u * Millisecond)
      (if match u with Some u => u <=? t | None => false end
          || (thr <=? Z.of_nat (size (filter (fun kv : string * Z => t - W <= kv.2) z)) + 1)
       then Some (t + C) else u).
Proof.
  intros Hb H1 H2 H3 Hu Hc. rewrite RecordFailure_host. cbn zeta. simpl openUntil.
  rewrite openUntil_trim, Hu, length_app.
  rewrite trim_recent by apply (host_of_ok _ _ h Hb). unfold recent. rewrite H1, H2, H3.
  replace (t * Millisecond - W * Millisecond) with ((t - W) * Millisecond) by lia.
  assert ((W * Millisecond <=? 0) = false) as -> by (apply Z.leb_gt; unfold Millisecond; lia).
  assert ((0 <? C * Millisecond) = true) as -> by (apply Z.ltb_lt; unfold Millisecond; lia).
  rewrite Hc, Nat2Z.inj_add, andb_true_r. simpl andb. change (Z.of_nat (length [_])) with 1.
  set (over := thr <=? _). clearbody over. destruct u as [u|]; simpl.
  - assert ((u * Millisecond <=? t * Millisecond) = (u <=? t)) as ->.
    { unfold Millisecond.
      destruct (Z.leb_spec (u * 1000000) (t * 1000000)), (Z.leb_spec u t); done || lia. }
    destruct (u <=? t), over; simpl; done || (f_equal; lia).
  - destruct over; simpl; done || (f_equal; lia).
Qed.

Lemma sim_failure t M b s h rnd m :
  sim t M b s -> graced b (mkEv (t * Millisecond) h (BFail rnd)) ->
  Redis.newBreakerMember t rnd = Some m -> m ∉ M ->
  sim t ({[m]} ∪ M) (RecordFailure b h (t * Millisecond))
    (Redis.RecordFailure Delivered t (Redis.mkRedis thr (C * Millisecond) (W * Millisecond)) h
       (t * Millisecond) rnd s).
Proof.
  intros Hsim Hg Hm HmM. pose proof Hsim as (Hb & H1 & H2 & H3 & Hh).
  destruct (graced_view t M b s h (mkEv (t * Millisecond) h (BFail rnd)) Hsim eq_refl eq_refl Hg)
    as (u & Hu & Hv).
  destruct (Hh h) as [(z & Hz & HM & Hle & Hd & Hc) _].
  assert (z !! m = None) as Hzm by (apply not_elem_of_dom; set_solver).
  unfold Redis.RecordFailure. rewrite UnixMilli_ms, Hm. simpl Redis.window. simpl Redis.cooldown.
  rewrite !Milliseconds_ms. simpl Redis.threshold. unfold remote.
  pose proof (redis_failure_views t s h m z u Hz Hzm Hv) as Hviews. cbn zeta in Hviews.
  destruct (Redis.breakerFailScript _ _ _ _ _ _ _ _ _) as [cnt s'] eqn:Es. simpl snd in *.
  split_and!; try done.
  { exact (exec_ok b _ (mkEv (t * Millisecond) h (BFail rnd)) Hb (Z.le_refl _)). }
  intros h'. destruct (decide (h' = h)) as [->|Hne].
  2:{ rewrite host_of_RecordFailure_ne by done.
      apply (sim_host_frame t M _ s); [rewrite Hviews; by apply other_host_keys..|set_solver|apply Hh]. }
  unfold sim_host. rewrite !Hviews.
  rewrite (proj1 (own_host_keys h _ _ _)), (proj2 (own_host_keys h _ _ _)). split.
  - eexists. split; [done|]. split_and!.
    + rewrite dom_insert_L. apply union_mono_l. etrans; [apply dom_filter_subseteq|done].
    + intros m' sc [[-> <-]|[_ Hsc]]%lookup_insert_Some; [lia|].
      apply map_lookup_filter_Some in Hsc as [Hsc _]. by eapply Hle.
    + intros d m' sc [= <-] [[-> <-]|[_ Hsc]]%lookup_insert_Some; [lia|].
      apply map_lookup_filter_Some in Hsc as [Hsc _]. apply Hle in Hsc. lia.
    + intros c Hct. rewrite RecordFailure_host. by apply failure_counts; auto.
  - eexists. split; [by apply failure_trips; auto using Z.le_refl|].
    destruct (_ || _); [|rewrite <- Hv; by rewrite <- (law_expire s t t)].
    simpl. destruct (Z.ltb_spec t (t + C + 5000)); [done|lia].
Qed.

(** Every member the failures of a run draw is new. *)
Fixpoint fresh_members (M : gset string) (es : list bevent) : Prop :=
  match es with
  | [] => True
  | e :: es =>
      match ev_op e with
      | BFail rnd => exists m, Redis.newBreakerMember (UnixMilli (ev_now e)) rnd = Some m /\
                       (m ∉ M) /\ fresh_members ({[m]} ∪ M) es
      | _ => fresh_members M es
      end
  end.

(** No call of the run comes later than five seconds after the end of a trip
    that is still on record for its host. *)
Fixpoint in_grace (b : inProcessCircuitBreaker) (es : list bevent) : Prop :=
  match es with
  | [] => True
  | e :: es => graced b e /\ in_grace (exec inprocess_breaker b e).2 es
  end.

Definition on_millisecond (e : bevent) : Prop :=
  ev_now e = UnixMilli (ev_now e) * Millisecond.

Lemma sim_run t M b s es :
  sim t M b s -> ordered (t * Millisecond) es -> Forall on_millisecond es ->
  fresh_members M es -> in_grace b es ->
  (run inprocess_breaker b es).1 =
  (run (redis_breaker (Redis.mkRedis thr (C * Millisecond) (W * Millisecond))) s es).1.
Proof.
  revert t M b s. induction es as [|e es IH]; intros t M b s Hsim; [done|].
  simpl. intros [Ht Ho] [Hms Hmss]%Forall_cons Hfr [Hg Hin].
  destruct e as [now h op]. unfold on_millisecond in Hms. simpl in Hms, Ht, Ho.
  remember (UnixMilli now) as t' eqn:Et. subst now.
  assert (t <= t') as Htt by (unfold Millisecond in Ht; lia).
  apply (sim_time t t' M b s Htt) in Hsim. unfold exec in *. simpl in *.
  destruct op as [| |rnd]; simpl in *.
  - destruct (sim_exec_open t' M b s h Hsim Hg) as [Ha Hs'].
    destruct (Open b h (t' * Millisecond)) as [a b'] eqn:Eo.
    rewrite UnixMilli_ms. unfold Redis.Open, remote in *. rewrite UnixMilli_ms in *. simpl in *.
    specialize (IH t' M b' s Hs' Ho Hmss Hfr Hin).
    destruct (run inprocess_breaker b' es), (run _ s es). simpl in *. by rewrite Ha, IH.
  - rewrite UnixMilli_ms. specialize (IH t' M _ _ (sim_success t' M b s h Hsim) Ho Hmss Hfr Hin).
    destruct (run inprocess_breaker _ es), (run _ _ es). done.
  - rewrite UnixMilli_ms in *. destruct Hfr as (m & Hm & HmM & Hfr).
    specialize (IH t' _ _ _ (sim_failure t' M b s h rnd m Hsim Hg Hm HmM) Ho Hmss Hfr Hin).
    destruct (run inprocess_breaker _ es), (run _ _ es). done.
Qed.
End refinement.

Lemma clamp_ms C W :
  0 < C -> 0 < W ->
  clampBreakerWindow (C * Millisecond) (W * Millisecond) = Z.max C W * Millisecond.
Proof.
  intros. unfold clampBreakerWindow, Millisecond. break_guard; breflect; [|lia].
  destruct (Z.leb_spec (C * 1000000) 0), (Z.leb_spec (W * 1000000) 0),
    (Z.leb_spec (C * 1000000) (W * 1000000)); try done; lia.
Qed.

Lemma sim_init {S : Type} `{VL : ValkeyLaws (option Z) S} thr C W t (s : S) :
  0 < thr -> 0 < C -> 0 < W -> (forall k, vk_view s t k = None) ->
  sim thr C (Z.max C W) t ∅ (newInProcessCircuitBreaker thr (C * Millisecond) (W * Millisecond)) s.
Proof.
  intros Ht HC HW Hs. split_and!; simpl.
  - apply new_ok.
  - by destruct (Z.leb_spec thr 0); [lia|].
  - done.
  - by apply clamp_ms.
  - intros h. unfold sim_host, host_of. simpl. rewrite lookup_empty, !Hs. simpl. split.
    + exists ∅. split_and!; set_solver.
    + by exists None.
Qed.

(** The call at the instant the millisecond began. *)
Definition cut (e : bevent) : bevent :=
  mkEv (UnixMilli (ev_now e) * Millisecond) (ev_host e) (ev_op e).

Lemma cut_ordered t es : ordered (t * Millisecond) es -> ordered (t * Millisecond) (cut <$> es).
Proof.
  revert t. induction es as [|e es IH]; intros t; simpl; [done|]. intros [Ht Ho].
  assert (t <= UnixMilli (ev_now e)) as Hle.
  { rewrite <- (UnixMilli_ms t). by apply UnixMilli_mono. }
  split; [unfold Millisecond; lia|]. apply IH. destruct es as [|e' es]; [done|].
  simpl in *. destruct Ho as [Ho Hos]. split; [|done].
  pose proof (Z.mul_div_le (ev_now e) Millisecond ltac:(unfold Millisecond; lia)).
  unfold UnixMilli. lia.
Qed.

Lemma cut_on_millisecond es : Forall on_millisecond (cut <$> es).
Proof.
  apply Forall_fmap, Forall_forall. intros e _. unfold on_millisecond. simpl.
  by rewrite UnixMilli_ms.
Qed.

Lemma cut_fresh M es : fresh_members M es -> fresh_members M (cut <$> es).
Proof.
  revert M. induction es as [|e es IH]; intros M; simpl; [done|].
  destruct (ev_op e); [by apply IH..|]. rewrite UnixMilli_ms.
  intros (m & Hm & HM & Hes). exists m. auto.
Qed.

(** The shared breaker reads the clock by [UnixMilli] alone. *)
Lemma redis_cut {S : Type} `{VK : Valkey (option Z) S} rb (s : S) es :
  run (redis_breaker rb) s (cut <$> es) = run (redis_breaker rb) s es.
Proof.
  revert s. induction es as [|e es IH]; intros s; [done|]. simpl.
  assert (exec (redis_breaker rb) s (cut e) = exec (redis_breaker rb) s e) as ->.
  { unfold exec, cut. simpl. unfold Redis.Open, Redis.RecordFailure. by rewrite !UnixMilli_ms. }
  destruct (exec _ s e) as [a s1]. by rewrite IH.
Qed.

(** C22: refinement.  Take a threshold, a cooldown and a window that are
    positive, the two durations whole milliseconds, an empty store, a store
    clock that agrees with the pod's and fresh members.  Along every run of
    calls in time order, at any readings of the nanosecond clock, the
    Valkey-backed breaker gives the answers the in-process breaker of that
    configuration gives to the same calls with each reading cut to its
    millisecond, which is all the shared breaker sees of it; the run is one
    in which no call comes more than five seconds after a trip that is still
    on record has ended. *)
Theorem redis_refines_inprocess {S : Type} `{VL : ValkeyLaws (option Z) S} thr C W t (s : S) rb es :
  0 < thr -> 0 < C -> 0 < W ->
  Redis.NewRedisCircuitBreaker true thr (C * Millisecond) (W * Millisecond) = Ok rb ->
  (forall k, vk_view s t k = None) ->
  ordered (t * Millisecond) es -> fresh_members ∅ es ->
  in_grace (newInProcessCircuitBreaker thr (C * Millisecond) (W * Millisecond)) (cut <$> es) ->
  (run (redis_breaker rb) s es).1 =
  (run inprocess_breaker (newInProcessCircuitBreaker thr (C * Millisecond) (W * Millisecond))
     (cut <$> es)).1.
Proof.
  intros Ht HC HW Hrb Hs Ho Hfr Hin. rewrite <- redis_cut.
  assert (rb = Redis.mkRedis thr (C * Millisecond) (Z.max C W * Millisecond)) as ->.
  { revert Hrb. unfold Redis.NewRedisCircuitBreaker. simpl.
    destruct (Z.leb_spec thr 0); [lia|].
    destruct (Z.leb_spec (C * Millisecond) 0); [unfold Millisecond in *; lia|].
    destruct (Z.leb_spec (W * Millisecond) 0); [unfold Millisecond in *; lia|].
    rewrite clamp_ms by done. congruence. }
  symmetry. eapply (sim_run thr C (Z.max C W)); try lia;
    [by apply sim_init | by apply cut_ordered | apply cut_on_millisecond | by apply cut_fresh | done].
Qed.

(** Two failures and two checks, none on a whole millisecond. *)
Lemma redis_refines_inprocess_witness :
  let es := [mkEv 900000 "a" (BFail (Some "00"%string));
             mkEv (Second + 17) "a" (BFail (Some "01"%string));
             mkEv (2 * Second + 999999) "a" BOpen; mkEv (33 * Second + 500000) "a" BOpen] in
  (run (redis_breaker (S := gmap string (ventry (option Z)))
         (Redis.mkRedis 2 (30000 * Millisecond) (60000 * Millisecond))) ∅ es).1 =
  (run inprocess_breaker
     (newInProcessCircuitBreaker 2 (30000 * Millisecond) (60000 * Millisecond)) (cut <$> es)).1.
Proof.
  apply (redis_refines_inprocess (S := gmap string (ventry (option Z))) 2 30000 60000 0 ∅);
    try reflexivity.
  - simpl. unfold Second, Millisecond. lia.
  - simpl. exists "0:00"%string. split; [reflexivity|]. split; [set_solver|].
    exists "1000:01"%string. split; [reflexivity|]. split; [|done].
    intros H. vm_compute in H. discriminate H.
  - vm_compute. repeat split.
Defined.

(** Within one millisecond the two differ: a trip at 0.9 ms with a cooldown
    of 30 s has ended for the shared breaker at 30 s + 0.5 ms, and goes on for
    the in-process one until 30 s + 0.9 ms. *)
Theorem redis_reopens_within_a_millisecond :
  let es := [mkEv 900000 "a" (BFail (Some "00"%string)); mkEv (30 * Second + 500000) "a" BOpen] in
  exists rb, Redis.NewRedisCircuitBreaker true 1 (30 * Second) (60 * Second) = Ok rb /\
    (run (redis_breaker (S := gmap string (ventry (option Z))) rb) ∅ es).1
      = [("a"%string, false)] /\
    (run inprocess_breaker (newInProcessCircuitBreaker 1 (30 * Second) (60 * Second)) es).1
      = [("a"%string, true)].
Proof. eexists. split; [reflexivity|]. by vm_compute. Qed.

(** Outside that grace the two implementations differ.  With the default
    configuration (3 failures, 30 s cooldown, 60 s window), after a trip that
    ended more than five seconds earlier one further failure re-opens the
    in-process breaker, while the Valkey key that records the trip is gone and
    the shared breaker stays closed. *)
Theorem redis_forgets_half_open :
  let es := [mkEv 0 "a" (BFail (Some "00"%string)); mkEv Second "a" (BFail (Some "01"%string));
             mkEv (2 * Second) "a" (BFail (Some "02"%string));
             mkEv (70 * Second) "a" (BFail (Some "03"%string)); mkEv (71 * Second) "a" BOpen] in
  exists rb, Redis.NewRedisCircuitBreaker true 0 0 0 = Ok rb /\
    (run (redis_breaker (S := gmap string (ventry (option Z))) rb) ∅ es).1
      = [("a"%string, false)] /\
    (run inprocess_breaker (newInProcessCircuitBreaker 3 (30 * Second) (60 * Second)) es).1
      = [("a"%string, true)].
Proof. eexists. split; [reflexivity|]. by vm_compute. Qed.
