(* ===== verification/RateLimit.v ===== *)
(** * HTTP rate limiter ([internal/middleware/ratelimit.go], [ratelimit_fallback.go])

    [RateLimiterStore] is the Go interface the middleware depends on.
    [slidingWindowScript] is the Lua script behind it, over the [Valkey]
    interface, [RedisStore] its Go wrapper.  [MemoryLimiter] is the
    token-bucket fallback, written over an interface of the [float64]
    operations it uses; what it admits over time is stated with the value and
    the rounding of a float64.  [Wrap] is the middleware itself. *)

From S2P Require Import Prelude Valkey.
From Stdlib Require Import QArith Lqa.

Local Open Scope Z_scope.

(** ** The Valkey store *)
Section store.
Context {V S : Type} `{VK : Valkey V S}.

(** [slidingWindowScript]: KEYS, then ARGV in order; [sv] is the server clock.
    The two flags are the integers of the reply. *)
Definition slidingWindowScript (sv : Z) (tenant_key user_key : string)
    (window tenant_limit user_limit now : Z) (member : string) (s : S) : (Z * Z) * S :=
  let cutoff := now - window in
  let s := vk_zremlt sv tenant_key cutoff s in
  let tenant_count := vk_zcard sv s tenant_key in
  let tenant_admitted := tenant_count <? tenant_limit in
  let s := if tenant_admitted then vk_zadd sv tenant_key now member s else s in
  let s := vk_pexpire sv tenant_key (window + 5000) s in
  if negb tenant_admitted then ((0, 0), s)
  else if user_limit <=? 0 then ((1, 1), s)
  else
    let s := vk_zremlt sv user_key cutoff s in
    let user_count := vk_zcard sv s user_key in
    let user_admitted := user_count <? user_limit in
    let s := if user_admitted then vk_zadd sv user_key now member s else s in
    let s := vk_pexpire sv user_key (window + 5000) s in
    if negb user_admitted then ((1, 0), (vk_zrem sv tenant_key member s).2)
    else ((1, 1), s).

Definition newUniqueMember (nowMs : Z) (rnd : option string) : option string :=
  match rnd with
  | None => None
  | Some hex => Some (pretty nowMs +:+ ":" +:+ hex)
  end.

Inductive allowError := ClientNil | MemberError | EvalError.

(** [RedisStore.Allow] on a store with a client; [rnd] is the random suffix,
    [d] the fate of the EVAL. *)
Definition Allow (d : delivery) (sv : Z) (rnd : option string) (tenantKey userKey : string)
    (window tenantLimit userLimit now : Z) (s : S) : result allowError (bool * bool) * S :=
  let windowMs := Milliseconds window in
  let windowMs := if windowMs <=? 0 then Z.quot Minute Millisecond else windowMs in
  let nowMs := UnixMilli now in
  match newUniqueMember nowMs rnd with
  | None => (Err MemberError, s)
  | Some member =>
      match remote d (slidingWindowScript sv tenantKey userKey windowMs tenantLimit userLimit
                        nowMs member) s with
      | (None, s') => (Err EvalError, s')
      | (Some (tenantI, userI), s') => (Ok (tenantI =? 1, userI =? 1), s')
      end
  end.
End store.

Section counter.
Context {S : Type} `{VC : ValkeyCounter S}.

Definition incrWithTTLScript (sv : Z) (key : string) (ttlMs : Z) (s : S) : Z * S :=
  let '(n, s) := vk_incr sv key s in
  (n, if n =? 1 then vk_pexpire sv key ttlMs s else s).

Inductive incrError := TTLNotPositive | IncrEvalError.

Definition IncrWithTTL (d : delivery) (sv : Z) (key : string) (ttl : Z) (s : S)
    : result incrError Z * S :=
  let ttlMs := Milliseconds ttl in
  if ttlMs <=? 0 then (Err TTLNotPositive, s)
  else match remote d (incrWithTTLScript sv key ttlMs) s with
       | (None, s') => (Err IncrEvalError, s')
       | (Some n, s') => (Ok n, s')
       end.
End counter.

(** ** Fixed windows on [IncrWithTTL] *)
Section windows.
Context {S : Type} `{VL : ValkeyLaws Z S} `{VC : !ValkeyCounter S} `{CL : !ValkeyCounterLaws S}.

(** One call, of this key or of another. *)
Lemma counted_incrWithTTL ttl B k n sv k' s : 0 < ttl -> B <= sv -> counted ttl B k n sv s ->
  let r := incrWithTTLScript sv k' ttl s in
  counted ttl B k n sv r.2 /\ (k' = k -> sv < B + ttl -> n + 1 <= r.1 /\ counted ttl B k (n + 1) sv r.2).
Proof.
  intros Ht Hb Hc. destruct (counted_vk_incr ttl B k n sv k' s Hc) as [Hkeep Hone]. unfold incrWithTTLScript.
  destruct (vk_incr sv k' s) as [m s1]. cbn [fst snd] in *.
  assert (forall n', counted ttl B k n' sv s1 -> counted ttl B k n' sv (if m =? 1 then vk_pexpire sv k' ttl s1 else s1)) as Hx.
  { intros n' Hn. destruct (m =? 1); [by apply counted_vk_pexpire|done]. }
  split; [auto|]. intros Hk Hlt. destruct (Hone Hk Hlt). auto.
Qed.

(** A call: fate, server clock, key. *)
Record incr_call := mkIncr { ic_d : delivery; ic_sv : Z; ic_key : string }.
(** Calls on [k] that were answered with at most [L]. *)
Fixpoint granted (ttl L : Z) (k : string) (l : list incr_call) (s : S) : Z :=
  match l with
  | [] => 0
  | c :: l =>
      let '(r, s) := IncrWithTTL (ic_d c) (ic_sv c) (ic_key c) ttl s in
      (if String.eqb (ic_key c) k && match r with Ok n => n <=? L | Err _ => false end then 1 else 0) + granted ttl L k l s
  end.
Fixpoint clock_order (sv : Z) (l : list incr_call) : Prop :=
  match l with [] => True | c :: l => sv <= ic_sv c /\ clock_order (ic_sv c) l end.

Lemma granted_bound_from ttl L k B l : 0 < Milliseconds ttl -> Forall (fun c => ic_key c = k -> ic_sv c < B + Milliseconds ttl) l ->
  forall sv n s, B <= sv -> clock_order sv l -> counted (Milliseconds ttl) B k n sv s -> n <= L -> n + granted ttl L k l s <= L.
Proof.
  intros Ht. induction 1 as [|c l Hc Hl IH]; intros sv n s Hb Ho Hn HL; cbn [granted]; [lia|]. destruct Ho as [Hs Ho].
  apply (counted_later _ _ _ _ _ (ic_sv c)) in Hn; [|done].
  destruct (counted_incrWithTTL (Milliseconds ttl) B k n (ic_sv c) (ic_key c) s Ht ltac:(lia) Hn) as [Hkeep Hone]. unfold IncrWithTTL.
  destruct (Z.leb_spec (Milliseconds ttl) 0); [lia|]. unfold remote. destruct (incrWithTTLScript (ic_sv c) (ic_key c) (Milliseconds ttl) s) as [m s'] eqn:Em. cbn [fst snd] in *.
  assert (forall s2, counted (Milliseconds ttl) B k n (ic_sv c) s2 -> n + granted ttl L k l s2 <= L) as Hrest by (intros s2 H2; eapply (IH (ic_sv c)); [lia|done|done|done]).
  destruct (ic_d c); cbn; [|rewrite andb_false_r; by apply Hrest|rewrite andb_false_r; by apply Hrest].
  destruct (String.eqb_spec (ic_key c) k) as [Hk|]; cbn; [|by apply Hrest]. destruct (Z.leb_spec m L); [|by apply Hrest].
  destruct (Hone Hk (Hc Hk)) as [Hm Hn1]. pose proof (IH (ic_sv c) (n + 1) s' ltac:(lia) Ho Hn1 ltac:(lia)). lia.
Qed.

Lemma granted_bound ttl L k B l s : 0 < Milliseconds ttl -> 0 <= L -> all_ints B s -> vk_view s B k = None -> clock_order B l ->
  Forall (fun c => ic_key c = k -> ic_sv c < B + Milliseconds ttl) l -> granted ttl L k l s <= L.
Proof.
  intros Ht HL Hi Hv Ho Hl. apply (granted_bound_from ttl L k B l Ht Hl B 0 s); [lia|done| |done]. split_and!; [done|lia|]. by left.
Qed.
End windows.

(** ** In-memory fallback *)

(** The [float64] operations of the token bucket.  Values are finite: every
    operand is a duration in seconds, a configured limit or a bucket level
    clamped to it. *)
Class Float64 (F : Type) := {
  fofZ : Z -> F;
  fadd : F -> F -> F;
  fsub : F -> F -> F;
  fmul : F -> F -> F;
  fdiv : F -> F -> F;
  fleb : F -> F -> bool;
}.

(** Facts of IEEE-754 binary64 arithmetic used below: the order is total on
    finite values, rounding is monotone around zero, and subtraction of one
    is exact on the integers up to 2^53. *)
Class Float64Laws (F : Type) `{FO : Float64 F} : Prop := {
  fleb_total x y : fleb x y = true \/ fleb y x = true;
  fleb_trans x y z : fleb x y = true -> fleb y z = true -> fleb x z = true;
  fleb_antisym x y : fleb (fofZ 1) x = true -> fleb x y = true -> fleb y x = true -> x = y;
  fofZ_mono m n : Z.abs m <= 2 ^ 53 -> Z.abs n <= 2 ^ 53 -> fleb (fofZ m) (fofZ n) = (m <=? n);
  fsub_one n : 0 < n <= 2 ^ 53 -> fsub (fofZ n) (fofZ 1) = fofZ (n - 1);
  fsub_nonneg x : fleb (fofZ 1) x = true -> fleb (fofZ 0) (fsub x (fofZ 1)) = true;
  fsub_le x : fleb (fofZ 1) x = true -> fleb (fsub x (fofZ 1)) x = true;
  fadd_mul_nonpos t e r : fleb e (fofZ 0) = true -> fleb (fofZ 0) r = true ->
    fleb (fadd t (fmul e r)) t = true;
  fadd_mul_nonneg t e r : fleb (fofZ 0) e = true -> fleb (fofZ 0) r = true ->
    fleb t (fadd t (fmul e r)) = true;
  fdiv_nonneg x y : fleb (fofZ 0) x = true -> fleb y (fofZ 0) = false ->
    fleb (fofZ 0) (fdiv x y) = true;
  fdiv_zero n : 0 < n <= 2 ^ 53 -> fdiv (fofZ 0) (fofZ n) = fofZ 0;
  fadd_zero : fadd (fofZ 0) (fofZ 0) = fofZ 0;
}.

Section memory.
Context {F : Type} `{FO : Float64 F}.

Definition fltb (x y : F) : bool := negb (fleb y x).

(** [time.Duration.Seconds]. *)
Definition Seconds (d : Z) : F :=
  fadd (fofZ (Z.quot d Second)) (fdiv (fofZ (Z.rem d Second)) (fofZ 1000000000)).

Record tokenBucket := mkBucket { tokens : F; last : Z }.

Record MemoryLimiter := mkLimiter {
  buckets : gmap string tokenBucket;
  ratePerSec : F;
  burst : F;
  gcEvery : Z;
  lastGC : option Z;      (* [None] is the zero time *)
}.

Definition NewMemoryLimiter (limit window : Z) : MemoryLimiter :=
  let window := if window <=? 0 then Minute else window in
  mkLimiter ∅
    (if 0 <? limit then fdiv (fofZ limit) (Seconds window) else fofZ 0)
    (if 0 <? limit then fofZ limit else fofZ 0)
    (10 * window) None.

Definition with_buckets (m : MemoryLimiter) (bs : gmap string tokenBucket) : MemoryLimiter :=
  mkLimiter bs (ratePerSec m) (burst m) (gcEvery m) (lastGC m).

(** A bucket the GC may drop: refilled to capacity by [now]. *)
Definition refilled (m : MemoryLimiter) (now : Z) (b : tokenBucket) : bool :=
  fleb (burst m) (fadd (tokens b) (fmul (Seconds (now - last b)) (ratePerSec m))).

Definition maybeGCLocked (m : MemoryLimiter) (now : Z) : MemoryLimiter :=
  match lastGC m with
  | None => mkLimiter (buckets m) (ratePerSec m) (burst m) (gcEvery m) (Some now)
  | Some g =>
      if now - g <? gcEvery m then m
      else mkLimiter (filter (fun kb => refilled m now kb.2 = false) (buckets m))
             (ratePerSec m) (burst m) (gcEvery m) (Some now)
  end.

(** The level of [key]'s bucket at [now], after the refill. *)
Definition refill (m : MemoryLimiter) (key : string) (now : Z) : tokenBucket :=
  match buckets m !! key with
  | None => mkBucket (burst m) now
  | Some b =>
      let elapsed := Seconds (now - last b) in
      if fltb (fofZ 0) elapsed then
        let t := fadd (tokens b) (fmul elapsed (ratePerSec m)) in
        mkBucket (if fltb (burst m) t then burst m else t) now
      else b
  end.

Definition MemAllow (m : MemoryLimiter) (key : string) (now : Z) : bool * MemoryLimiter :=
  if fleb (burst m) (fofZ 0) then (true, m)
  else
    let m := maybeGCLocked m now in
    let b := refill m key now in
    if fleb (fofZ 1) (tokens b)
    then (true, with_buckets m (<[key := mkBucket (fsub (tokens b) (fofZ 1)) (last b)]> (buckets m)))
    else (false, with_buckets m (<[key := b]> (buckets m))).
End memory.
Arguments tokenBucket F : clear implicits.
Arguments MemoryLimiter F : clear implicits.

(** ** The middleware *)

(** The two key shapes; the tenant is the cluster hash tag. *)
Definition tenantKeyOf (tenantID : string) : string :=
  "kmail:rl:tenant:{" +:+ tenantID +:+ "}".

Definition userKeyOf (tenantID userID : string) : string :=
  "kmail:rl:user:{" +:+ tenantID +:+ "}:" +:+ userID.

(** What the middleware depends on; [None] is an error of the store. *)
Class RateLimiterStore (St : Type) := {
  rl_allow : string -> string -> Z -> Z -> Z -> Z -> St -> option (bool * bool) * St;
}.

(** Configuration after the defaults of [NewRateLimiter] (the clock and the
    logger are not state). *)
Record RateLimiterConfig (F : Type) := mkConfig {
  TenantRPM : Z;
  UserRPM : Z;
  Window : Z;
  FailClosed : bool;
  FallbackTenant : MemoryLimiter F;
  FallbackUser : MemoryLimiter F;
}.
Arguments mkConfig {F}. Arguments TenantRPM {F}. Arguments UserRPM {F}. Arguments Window {F}.
Arguments FailClosed {F}. Arguments FallbackTenant {F}. Arguments FallbackUser {F}.

Section middleware.
Context {F : Type} `{FO : Float64 F}.

Definition NewRateLimiter (tenantRPM userRPM window : Z) (failClosed : bool)
    (ft fu : option (MemoryLimiter F)) : RateLimiterConfig F :=
  let window := if window <=? 0 then Minute else window in
  let tenantRPM := if tenantRPM <=? 0 then 1000 else tenantRPM in
  let userRPM := if userRPM <=? 0 then 200 else userRPM in
  mkConfig tenantRPM userRPM window failClosed
    (default (NewMemoryLimiter tenantRPM window) ft)
    (default (NewMemoryLimiter userRPM window) fu).

(** What the client receives: the next handler's response, with or without
    the fallback header, or a refusal with its headers. *)
Inductive response :=
| Serve (fallbackHeader : bool)
| Refuse (status retryAfter limit : Z) (scope : string) (fallbackHeader : bool).

(** [int(window.Seconds())] is the whole number of seconds (exact below
    2^22 seconds, where the float sum cannot reach the next integer). *)
Definition writeRateLimitExceeded (window rpm : Z) (scope : string) : response :=
  Refuse 429 (Z.quot window Second) rpm scope false.

Definition writeRateLimitDegraded (window rpm : Z) (scope : string) : response :=
  Refuse 503 (Z.quot window Second) rpm scope true.

Context {St : Type} `{RS : RateLimiterStore St}.

Definition with_fallbacks (c : RateLimiterConfig F) (ft fu : MemoryLimiter F) :=
  mkConfig (TenantRPM c) (UserRPM c) (Window c) (FailClosed c) ft fu.

(** One request with the tenant and user of its context. *)
Definition Wrap (c : RateLimiterConfig F) (tenantID userID : string) (now : Z) (s : St)
    : response * RateLimiterConfig F * St :=
  if String.eqb tenantID "" then (Serve false, c, s)
  else
    let tenantKey := tenantKeyOf tenantID in
    let '(userKey, userLimit) :=
      if String.eqb userID "" then (tenantKey, 0)
      else (userKeyOf tenantID userID, UserRPM c) in
    match rl_allow tenantKey userKey (Window c) (TenantRPM c) userLimit now s with
    | (None, s) =>
        if negb (FailClosed c) then (Serve false, c, s)
        else
          let '(tok, ft) := MemAllow (FallbackTenant c) tenantKey now in
          let c1 := with_fallbacks c ft (FallbackUser c) in
          if negb tok then (writeRateLimitDegraded (Window c) (TenantRPM c) "tenant", c1, s)
          else if 0 <? userLimit then
            let '(uok, fu) := MemAllow (FallbackUser c) userKey now in
            let c2 := with_fallbacks c ft fu in
            if negb uok then (writeRateLimitDegraded (Window c) (UserRPM c) "user", c2, s)
            else (Serve true, c2, s)
          else (Serve true, c1, s)
    | (Some (tenantOK, userOK), s) =>
        if negb tenantOK then (writeRateLimitExceeded (Window c) (TenantRPM c) "tenant", c, s)
        else if negb userOK then (writeRateLimitExceeded (Window c) (UserRPM c) "user", c, s)
        else (Serve false, c, s)
    end.
End middleware.

(** ** The sliding-window script *)
Section script.
Context {V S : Type} `{VL : ValkeyLaws V S}.
Implicit Types (s : S) (z : gmap string Z).

(** One scope of the script: trim, count, conditional add, refresh. *)
Definition scope_step (sv : Z) (k : string) (W limit now : Z) (m : string) (s : S) : bool * S :=
  let s := vk_zremlt sv k (now - W) s in
  let admitted := vk_zcard sv s k <? limit in
  let s := if admitted then vk_zadd sv k now m s else s in
  (admitted, vk_pexpire sv k (W + 5000) s).

Lemma script_scopes sv tk uk W tl ul now m s :
  slidingWindowScript sv tk uk W tl ul now m s =
  let '(ta, s1) := scope_step sv tk W tl now m s in
  if negb ta then ((0, 0), s1)
  else if ul <=? 0 then ((1, 1), s1)
  else let '(ua, s2) := scope_step sv uk W ul now m s1 in
       if negb ua then ((1, 0), (vk_zrem sv tk m s2).2) else ((1, 1), s2).
Proof. done. Qed.

(** The entries the window of length [W] ending at [now] still counts. *)
Definition in_window (now W : Z) z : gmap string Z :=
  filter (fun kv : string * Z => now - W <= kv.2) z.

Lemma scope_step_spec sv k W limit now m s z :
  0 <= W -> as_zset (vk_view s sv k) = Some z -> z !! m = None ->
  let z1 := in_window now W z in
  let adm := Z.of_nat (size z1) <? limit in
  (scope_step sv k W limit now m s).1 = adm /\
  forall k', vk_view (scope_step sv k W limit now m s).2 sv k' =
    on_key k k' (zentry (if adm then <[m := now]> z1 else z1) (Some (sv + (W + 5000))))
      (vk_view s sv k').
Proof.
  intros HW Hz Hm z1 adm. unfold scope_step. cbn zeta. simpl fst. simpl snd.
  set (s1 := vk_zremlt sv k (now - W) s).
  assert (forall k', vk_view s1 sv k' =
    on_key k k' (zentry z1 (expiry (vk_view s sv k))) (vk_view s sv k')) as H1
    by (intros k'; by apply law_zremlt).
  assert (as_zset (vk_view s1 sv k) = Some z1) as Hz1
    by (by rewrite H1, on_key_eq, as_zset_zentry).
  assert (vk_zcard sv s1 k = Z.of_nat (size z1)) as -> by (by apply law_zcard).
  split; [done|]. intros k'. fold adm. rewrite law_pexpire by lia. destruct adm.
  - rewrite !(law_zadd s1 sv k now m z1) by done. rewrite on_key_eq, (H1 k').
    rewrite !on_key_on_key. f_equal. simpl. unfold zentry.
    rewrite decide_False by apply insert_non_empty. done.
  - rewrite !H1, on_key_eq, on_key_on_key. f_equal. unfold zentry. by case_decide.
Qed.

#[local] Opaque scope_step.

(** Effect of the script on every key.  [zu] matters only with a user scope. *)
Lemma script_views sv tk uk W tl ul now m s zt zu :
  0 <= W -> (tk = uk -> ul <= 0) ->
  as_zset (vk_view s sv tk) = Some zt -> as_zset (vk_view s sv uk) = Some zu ->
  zt !! m = None -> zu !! m = None ->
  let ta := Z.of_nat (size (in_window now W zt)) <? tl in
  let ua := (ul <=? 0) || (Z.of_nat (size (in_window now W zu)) <? ul) in
  let d := Some (sv + (W + 5000)) in
  let r := slidingWindowScript sv tk uk W tl ul now m s in
  r.1 = (if ta then 1 else 0, if ta && ua then 1 else 0) /\
  forall k', vk_view r.2 sv k' =
    on_key tk k'
      (zentry (if ta && ua then <[m := now]> (in_window now W zt) else in_window now W zt) d)
      (if ta && (0 <? ul)
       then on_key uk k'
              (zentry (if ua then <[m := now]> (in_window now W zu) else in_window now W zu) d)
              (vk_view s sv k')
       else vk_view s sv k').
Proof.
  intros HW Hne Ht Hu Hmt Hmu ta ua d r. unfold r. rewrite script_scopes.
  destruct (scope_step_spec sv tk W tl now m s zt HW Ht Hmt) as [E1 V1].
  destruct (scope_step sv tk W tl now m s) as [ta' s1]. simpl in E1, V1. fold ta in E1, V1.
  subst ta'. destruct ta; simpl; [|by split].
  unfold ua. destruct (Z.leb_spec ul 0) as [Hul|Hul]; simpl.
  { destruct (Z.ltb_spec 0 ul); [lia|]. by split. }
  destruct (Z.ltb_spec 0 ul); [|lia]. assert (tk <> uk) as Hk by (intros E; specialize (Hne E); lia).
  assert (as_zset (vk_view s1 sv uk) = Some zu) as Hu1 by (by rewrite V1, on_key_ne).
  destruct (scope_step_spec sv uk W ul now m s1 zu HW Hu1 Hmu) as [E2 V2].
  destruct (scope_step sv uk W ul now m s1) as [ua' s2]. simpl in E2, V2.
  set (ua0 := Z.of_nat (size (in_window now W zu)) <? ul) in *. subst ua'.
  assert (forall k' (a b c : option (ventry V)),
    on_key uk k' a (on_key tk k' b c) = on_key tk k' b (on_key uk k' a c)) as Hswap.
  { intros k' x y z. unfold on_key. repeat case_decide; subst; done. }
  destruct ua0; simpl.
  - split; [done|]. intros k'. by rewrite V2, V1, Hswap.
  - split; [done|]. intros k'.
    rewrite (law_zrem_view s2 sv tk m (<[m := now]> (in_window now W zt)))
      by (by rewrite V2, on_key_ne, V1, on_key_eq, as_zset_zentry).
    rewrite (V2 tk), (on_key_ne uk tk), (V1 tk), on_key_eq by done.
    rewrite expiry_zentry by apply insert_non_empty.
    rewrite delete_insert_id by (apply map_lookup_filter_None; by left).
    by rewrite V2, V1, Hswap, on_key_on_key.
Qed.

(** What the script decides and writes.  The tenant is admitted iff its
    window holds fewer entries than its limit, the user likewise; the request
    is recorded in both sets iff both admit it, so a request refused at the
    user ceiling leaves the tenant's budget as it was; without a user scope
    only the tenant key is written. *)
Theorem sliding_window_decision sv tk uk W tl ul now m s zt zu :
  0 <= W -> tk <> uk ->
  as_zset (vk_view s sv tk) = Some zt -> as_zset (vk_view s sv uk) = Some zu ->
  zt !! m = None -> zu !! m = None ->
  let ta := Z.of_nat (size (in_window now W zt)) <? tl in
  let ua := (ul <=? 0) || (Z.of_nat (size (in_window now W zu)) <? ul) in
  let r := slidingWindowScript sv tk uk W tl ul now m s in
  r.1 = (if ta then 1 else 0, if ta && ua then 1 else 0) /\
  as_zset (vk_view r.2 sv tk) = Some (if ta && ua then <[m := now]> (in_window now W zt)
                                      else in_window now W zt) /\
  (if ta && (0 <? ul)
   then as_zset (vk_view r.2 sv uk) = Some (if ua then <[m := now]> (in_window now W zu)
                                            else in_window now W zu)
   else vk_view r.2 sv uk = vk_view s sv uk) /\
  forall k', k' <> tk -> k' <> uk -> vk_view r.2 sv k' = vk_view s sv k'.
Proof.
  intros HW Hne Ht Hu Hmt Hmu ta ua r.
  destruct (script_views sv tk uk W tl ul now m s zt zu) as [E Vw]; try done.
  cbn zeta in E, Vw. fold ta ua r in E, Vw. split_and!; [done|..].
  - by rewrite Vw, on_key_eq, as_zset_zentry.
  - rewrite Vw, on_key_ne by done. destruct (ta && (0 <? ul)); [|done].
    by rewrite on_key_eq, as_zset_zentry.
  - intros k' H1 H2. rewrite Vw, on_key_ne by done.
    destruct (ta && (0 <? ul)); [by rewrite on_key_ne|done].
Qed.
End script.

Lemma sliding_window_decision_witness :
  let s1 := (slidingWindowScript (V := Z) 1000 "t" "u" 60 5 1 1000 "m1" ∅).2 in
  let r := slidingWindowScript (V := Z) 1010 "t" "u" 60 5 1 1010 "m2" s1 in
  r.1 = (1, 0) /\ as_zset (vk_view r.2 1010 "t"%string) = Some {["m1"%string := 1000]}.
Proof.
  assert (H := sliding_window_decision (V := Z) 1010 "t" "u" 60 5 1 1010 "m2"
    (slidingWindowScript 1000 "t" "u" 60 5 1 1000 "m1" ∅).2
    {["m1"%string := 1000]} {["m1"%string := 1000]}).
  destruct H as (H1 & H2 & _); [lia | discriminate | vm_compute; reflexivity.. |].
  split; [exact H1 | exact H2].
Defined.

(** ** The ceiling over a run

    Requests of any tenants and users reach the store one script at a time;
    a call may be lost on the way or its reply may be lost. *)
Record rl_req := mkReq {
  q_d : delivery;
  q_sv : Z;                 (* server clock, ms *)
  q_now : Z;                (* clock of the pod, ns *)
  q_rnd : option string;
  q_tenant : string;
  q_user : string;
}.

Lemma tenant_user_key t t' u : tenantKeyOf t <> userKeyOf t' u.
Proof. done. Qed.

Lemma tenantKeyOf_inj t t' : tenantKeyOf t = tenantKeyOf t' -> t = t'.
Proof.
  unfold tenantKeyOf. intros H%string_prefix_inj. by apply string_suffix_inj in H as [? _].
Qed.

Definition count_from (c : Z) (log : list Z) : Z :=
  Z.of_nat (length (List.filter (fun t => c <=? t) log)).

Definition count_between (a b : Z) (log : list Z) : Z :=
  Z.of_nat (length (List.filter (fun t => (a <=? t) && (t <=? b)) log)).

Lemma count_between_le a b log : count_between a b log <= count_from a log.
Proof.
  unfold count_between, count_from. induction log as [|t log IH]; simpl; [lia|].
  destruct (a <=? t), (t <=? b); simpl; lia.
Qed.

Lemma count_from_mono c c' log : c <= c' -> count_from c' log <= count_from c log.
Proof.
  intros Hc. unfold count_from. induction log as [|t log IH]; simpl; [lia|].
  destruct (Z.leb_spec c' t), (Z.leb_spec c t); simpl; lia.
Qed.

Section ceiling.
Context {V S : Type} `{VL : ValkeyLaws V S}.
Implicit Types (s : S).

(** The call [Wrap] makes for a request. *)
Definition rl_call (window tl ul : Z) (q : rl_req) (s : S) : result allowError (bool * bool) * S :=
  Allow (V := V) (q_d q) (q_sv q) (q_rnd q) (tenantKeyOf (q_tenant q))
    (if String.eqb (q_user q) "" then tenantKeyOf (q_tenant q)
     else userKeyOf (q_tenant q) (q_user q))
    window tl (if String.eqb (q_user q) "" then 0 else ul) (q_now q) s.

Definition admits (T : string) (q : rl_req) (r : result allowError (bool * bool)) : bool :=
  String.eqb (q_tenant q) T && match r with Ok (true, true) => true | _ => false end.

(** Instants (ms) at which requests of tenant [T] were admitted. *)
Fixpoint admitted_log (T : string) (window tl ul : Z) (qs : list rl_req) (s : S) (log : list Z)
    : list Z :=
  match qs with
  | [] => log
  | q :: qs =>
      let '(r, s') := rl_call window tl ul q s in
      admitted_log T window tl ul qs s'
        (if admits T q r then UnixMilli (q_now q) :: log else log)
  end.

(** Both clocks advance, they differ by at most [K] ms, members are new. *)
Fixpoint rl_trace (K : Z) (M : gset string) (sv now : Z) (qs : list rl_req) : Prop :=
  match qs with
  | [] => True
  | q :: qs =>
      sv <= q_sv q /\ now <= UnixMilli (q_now q) /\ Z.abs (q_sv q - UnixMilli (q_now q)) <= K /\
      match newUniqueMember (UnixMilli (q_now q)) (q_rnd q) with
      | None => rl_trace K M (q_sv q) (UnixMilli (q_now q)) qs
      | Some m => (m ∉ M) /\ rl_trace K ({[m]} ∪ M) (q_sv q) (UnixMilli (q_now q)) qs
      end
  end.

Variables (T : string) (W K tl : Z).
Hypothesis W_pos : 0 < W.
Hypothesis K_small : 2 * K < 5000.

(** The set of tenant [T] counts at least what the log counts for every
    cutoff still ahead, and its expiry comes after its entries are stale. *)
Definition covers (now : Z) (e : option (ventry V)) (log : list Z) : Prop :=
  exists z, as_zset e = Some z /\
    (forall m sc, z !! m = Some sc -> sc <= now) /\
    (forall d m sc, expiry e = Some d -> z !! m = Some sc -> sc + W + K < d) /\
    (forall c, now - W <= c ->
       count_from c log <= Z.of_nat (size (filter (fun kv : string * Z => c <= kv.2) z))).

Definition all_zsets (M : gset string) (sv : Z) s : Prop :=
  forall k, exists z, as_zset (vk_view s sv k) = Some z /\ dom z ⊆ M.

Definition rl_inv (M : gset string) (sv now : Z) s (log : list Z) : Prop :=
  all_zsets M sv s /\ covers now (vk_view s sv (tenantKeyOf T)) log /\
  forall a, count_between a (a + W) log <= tl.

Lemma covers_time sv now sv' now' s k log :
  sv <= sv' -> now <= now' -> Z.abs (sv' - now') <= K ->
  covers now (vk_view s sv k) log -> covers now' (vk_view s sv' k) log.
Proof.
  intros Hsv Hnow Habs (z & Hz & Hle & Hd & Hc). rewrite (law_expire s sv sv') by done.
  set (e := vk_view s sv k) in *. exists (if live sv' (expiry e) then z else ∅).
  split; [by apply as_zset_none_wf|]. destruct (live sv' (expiry e)) eqn:El.
  - split_and!.
    + intros m sc Hm%Hle. lia.
    + intros d m sc Hd' Hm. apply (Hd d m sc); [|done].
      clear -Hd'. destruct e as [[o d0]|]; simpl in *; [|done]. by destruct (live sv' d0).
    + intros. apply Hc. lia.
  - split_and!; [by intros ??|by intros ???|]. intros c Hct.
    assert (filter (fun kv : string * Z => c <= kv.2) z = ∅) as E0.
    { apply map_empty_filter_2. intros m sc Hm Hsc. simpl in Hsc.
      destruct (expiry e) as [d|] eqn:Ed; [|done]. specialize (Hd d m sc eq_refl Hm).
      simpl in El. breflect. lia. }
    specialize (Hc c). rewrite E0 in Hc. rewrite map_filter_empty.
    rewrite map_size_empty in *. apply Hc. lia.
Qed.

Lemma all_zsets_time M sv sv' s : sv <= sv' -> all_zsets M sv s -> all_zsets M sv' s.
Proof.
  intros Hsv Ha k. destruct (Ha k) as (z & Hz & HM). rewrite (law_expire s sv sv') by done.
  rewrite (as_zset_none_wf _ _ z Hz). eexists. split; [done|].
  destruct (live _ _); [done|set_solver].
Qed.

(** A refreshed entry covers the log, with the new request when it is added. *)
Lemma covers_entry sv now m z log (add : bool) :
  Z.abs (sv - now) <= K -> z !! m = None ->
  (forall m sc, z !! m = Some sc -> sc <= now) ->
  (forall c, now - W <= c ->
     count_from c log <= Z.of_nat (size (filter (fun kv : string * Z => c <= kv.2) z))) ->
  covers now (zentry (if add then <[m := now]> (in_window now W z) else in_window now W z)
                (Some (sv + (W + 5000))))
    (if add then now :: log else log).
Proof.
  intros Habs Hm Hle Hc. eexists. split; [apply as_zset_zentry|].
  assert (in_window now W z !! m = None) as Hm1 by (apply map_lookup_filter_None; by left).
  assert (forall m' sc, (if add then <[m := now]> (in_window now W z) else in_window now W z) !! m'
            = Some sc -> sc <= now) as Hle1.
  { intros m' sc. destruct add.
    - intros [[-> <-]|[_ H]]%lookup_insert_Some; [lia|].
      apply map_lookup_filter_Some in H as [H _]. by eapply Hle.
    - intros H. apply map_lookup_filter_Some in H as [H _]. by eapply Hle. }
  split_and!; [done|..].
  - intros d m' sc Hd Hsc. apply Hle1 in Hsc. unfold zentry in Hd. case_decide; [done|].
    injection Hd as <-. lia.
  - intros c Hct. specialize (Hc c Hct). unfold in_window in *. destruct add.
    + rewrite size_filter_insert by done. rewrite filter_filter_cut by done.
      unfold count_from in *. simpl. destruct (c <=? now); simpl; lia.
    + by rewrite filter_filter_cut.
Qed.

Lemma covers_weaken now e t log : covers now e (t :: log) -> covers now e log.
Proof.
  intros (z & Hz & H1 & H2 & Hc). exists z. split_and!; try done.
  intros c Hct. specialize (Hc c Hct). unfold count_from in *. simpl in Hc.
  destruct (c <=? t); simpl in Hc; lia.
Qed.

Lemma ceiling_add now z log :
  (forall a, count_between a (a + W) log <= tl) ->
  count_from (now - W) log <= Z.of_nat (size (in_window now W z)) ->
  Z.of_nat (size (in_window now W z)) < tl ->
  forall a, count_between a (a + W) (now :: log) <= tl.
Proof.
  intros Hb Hc Hs a. unfold count_between at 1. simpl.
  destruct ((a <=? now) && (now <=? a + W)) eqn:E; [|apply Hb]. breflect. simpl.
  pose proof (count_between_le a (a + W) log).
  pose proof (count_from_mono (now - W) a log). unfold count_between, count_from in *. lia.
Qed.

Lemma on_key_zset (M : gset string) k k' (z : gmap string Z) d (e : option (ventry V)) :
  dom z ⊆ M -> (exists z0, as_zset e = Some z0 /\ dom z0 ⊆ M) ->
  exists z0, as_zset (on_key k k' (zentry z d) e) = Some z0 /\ dom z0 ⊆ M.
Proof.
  intros Hz He. destruct (decide (k' = k)) as [->|Hk].
  - rewrite on_key_eq, as_zset_zentry. by eexists.
  - by rewrite on_key_ne.
Qed.

Lemma dom_window_add (M : gset string) now m z (add : bool) :
  dom z ⊆ M ->
  dom (if add then <[m := now]> (in_window now W z) else in_window now W z) ⊆ {[m]} ∪ M.
Proof.
  intros Hz. assert (dom (in_window now W z) ⊆ M) by (by etrans; [apply dom_filter_subseteq|]).
  destruct add; [rewrite dom_insert_L|]; set_solver.
Qed.

(** The script keeps the invariant; the request joins the log when both
    flags of its reply are set. *)
Lemma script_keeps_inv M sv now s log m tenant uk ul :
  rl_inv M sv now s log -> Z.abs (sv - now) <= K -> m ∉ M ->
  (tenantKeyOf tenant = uk -> ul <= 0) -> (forall t, uk = tenantKeyOf t -> t = tenant) ->
  let r := slidingWindowScript sv (tenantKeyOf tenant) uk W tl ul now m s in
  rl_inv ({[m]} ∪ M) sv now r.2
    (if String.eqb tenant T && (r.1.1 =? 1) && (r.1.2 =? 1) then now :: log else log).
Proof.
  intros (Ha & Hcov & Hb) Habs Hm Huk Hinj r.
  destruct (Ha (tenantKeyOf tenant)) as (zt & Hzt & Hdt).
  destruct (Ha uk) as (zu & Hzu & Hdu).
  assert (zt !! m = None) as Hmt by (apply not_elem_of_dom; set_solver).
  assert (zu !! m = None) as Hmu by (apply not_elem_of_dom; set_solver).
  destruct (script_views sv (tenantKeyOf tenant) uk W tl ul now m s zt zu) as [E Vw];
    [lia|done..|].
  cbn zeta in E, Vw. fold r in E, Vw. rewrite E. simpl fst. simpl snd.
  set (ta := Z.of_nat (size (in_window now W zt)) <? tl) in *.
  set (ua := (ul <=? 0) || _) in *.
  assert (((if ta && ua then 1 else 0) =? 1) = (ta && ua)) as -> by (by destruct (ta && ua)).
  assert ((((if ta then 1 else 0) =? 1) && (ta && ua)) = (ta && ua)) as Eadd by (by destruct ta).
  rewrite <- andb_assoc, Eadd. split.
  { intros k'. rewrite Vw. apply on_key_zset; [by apply dom_window_add|].
    assert (exists z0, as_zset (vk_view s sv k') = Some z0 /\ dom z0 ⊆ {[m]} ∪ M) as Hk'.
    { destruct (Ha k') as (z & Hz & HM). exists z. split; [done|set_solver]. }
    destruct (ta && (0 <? ul)); [|done]. apply on_key_zset; [by apply dom_window_add|done]. }
  rewrite Vw. destruct (String.eqb_spec tenant T) as [->|Hne]; simpl.
  - rewrite on_key_eq. destruct Hcov as (z & Hz & Hle & _ & Hc).
    assert (z = zt) as -> by congruence. split; [by apply covers_entry|].
    destruct (ta && ua) eqn:Eta; [|done]. apply andb_prop in Eta as [Eta _].
    apply (ceiling_add now zt); [done|apply Hc; lia|by apply Z.ltb_lt].
  - rewrite on_key_ne by (intros H%tenantKeyOf_inj; done). split; [|done].
    destruct (ta && (0 <? ul)); [|done]. rewrite on_key_ne; [done|].
    intros H. symmetry in H. by apply Hinj in H.
Qed.

Lemma rl_inv_time M sv now sv' now' s log :
  sv <= sv' -> now <= now' -> Z.abs (sv' - now') <= K ->
  rl_inv M sv now s log -> rl_inv M sv' now' s log.
Proof.
  intros ??? (Ha & Hc & Hb). split_and!; [by eapply all_zsets_time|by eapply covers_time|done].
Qed.

Lemma rl_inv_weaken M M' sv now s log :
  M ⊆ M' -> rl_inv M sv now s log -> rl_inv M' sv now s log.
Proof.
  intros HM (Ha & Hc & Hb). split_and!; try done. intros k.
  destruct (Ha k) as (z & ? & ?). exists z. split; [done|set_solver].
Qed.

Lemma rl_inv_forget M sv now s t log (b : bool) :
  (forall a, count_between a (a + W) log <= tl) ->
  rl_inv M sv now s (if b then t :: log else log) -> rl_inv M sv now s log.
Proof.
  intros Hb (Ha & Hc & _). split_and!; try done. destruct b; [by eapply covers_weaken|done].
Qed.

Variables (window ul : Z).
Hypothesis window_ms : Milliseconds window = W.

Lemma rl_call_inv M sv now s log q m :
  rl_inv M sv now s log -> sv <= q_sv q -> now <= UnixMilli (q_now q) ->
  Z.abs (q_sv q - UnixMilli (q_now q)) <= K ->
  newUniqueMember (UnixMilli (q_now q)) (q_rnd q) = Some m -> m ∉ M ->
  let '(r, s') := rl_call window tl ul q s in
  rl_inv ({[m]} ∪ M) (q_sv q) (UnixMilli (q_now q)) s'
    (if admits T q r then UnixMilli (q_now q) :: log else log).
Proof.
  intros Hinv Hsv Hnow Habs Hm HmM. apply (rl_inv_time _ _ _ _ _ _ _ Hsv Hnow Habs) in Hinv.
  unfold rl_call, Allow. rewrite window_ms, Hm. destruct (Z.leb_spec W 0); [lia|].
  set (uk := if String.eqb (q_user q) "" then _ else userKeyOf _ _).
  set (ul' := if String.eqb (q_user q) "" then 0 else ul).
  pose proof (script_keeps_inv M (q_sv q) (UnixMilli (q_now q)) s log m (q_tenant q) uk ul'
    Hinv Habs HmM) as Hscript. cbn zeta in Hscript.
  assert (tenantKeyOf (q_tenant q) = uk -> ul' <= 0) as H1.
  { unfold uk, ul'. destruct (String.eqb (q_user q) ""); [lia|]. by intros ?%tenant_user_key. }
  assert (forall t, uk = tenantKeyOf t -> t = q_tenant q) as H2.
  { intros t. unfold uk. destruct (String.eqb (q_user q) "").
    - intros Hk%tenantKeyOf_inj. done.
    - intros Hk. symmetry in Hk. by apply tenant_user_key in Hk. }
  specialize (Hscript H1 H2). unfold remote. destruct (q_d q).
  - destruct (slidingWindowScript _ _ _ _ _ _ _ _ _) as [[ti ui] s']. simpl in Hscript.
    unfold admits. by destruct (ti =? 1), (ui =? 1); rewrite ?andb_false_r, ?andb_true_r in *.
  - unfold admits. rewrite andb_false_r. eapply rl_inv_weaken; [|done]. set_solver.
  - unfold admits. rewrite andb_false_r. destruct (slidingWindowScript _ _ _ _ _ _ _ _ _) as [[ti ui] s'].
    simpl in *. by eapply rl_inv_forget; [apply Hinv|].
Qed.

Lemma rl_run_inv M sv now s log qs :
  rl_inv M sv now s log -> rl_trace K M sv now qs ->
  forall a, count_between a (a + W) (admitted_log T window tl ul qs s log) <= tl.
Proof.
  revert M sv now s log. induction qs as [|q qs IH]; intros M sv now s log Hinv; simpl.
  - intros _. apply Hinv.
  - intros (Hsv & Hnow & Habs & Hm).
    destruct (newUniqueMember (UnixMilli (q_now q)) (q_rnd q)) as [m|] eqn:Em.
    + destruct Hm as [HmM Htr].
      pose proof (rl_call_inv M sv now s log q m Hinv Hsv Hnow Habs Em HmM) as Hstep.
      destruct (rl_call window tl ul q s) as [r s']. by eapply IH.
    + unfold rl_call, Allow. rewrite Em. unfold admits. rewrite andb_false_r.
      eapply IH; [|done]. by eapply rl_inv_time.
Qed.
End ceiling.

(** C20: the ceiling holds over every window.  Whatever tenants and users
    send, with calls and replies lost, as long as the clocks of pods and
    server advance and differ by less than half the five-second grace and
    members are fresh: within any [window] (both ends included) the store
    admits at most [tenantLimit] requests of a tenant. *)
Theorem tenant_ceiling {V S : Type} `{VL : ValkeyLaws V S} T window tl ul K M sv now (s : S) qs a :
  0 < Milliseconds window -> 2 * K < 5000 -> 0 <= tl ->
  (forall k, vk_view s sv k = None) -> rl_trace K M sv now qs ->
  count_between a (a + Milliseconds window) (admitted_log (V := V) T window tl ul qs s []) <= tl.
Proof.
  intros HW HK Htl Hs Htr. eapply rl_run_inv; try done.
  split_and!; [|exists ∅|done].
  - intros k. exists ∅. rewrite Hs. split; [done|set_solver].
  - rewrite Hs. by split_and!.
Qed.

Lemma tenant_ceiling_witness :
  let q t r := mkReq Delivered t (t * Millisecond) (Some r) "acme" "bob" in
  let qs := [q 1000 "00"%string; q 1001 "01"%string; q 1002 "02"%string] in
  admitted_log (V := Z) (S := gmap string (ventry Z)) "acme" (60 * Second) 2 100 qs ∅ []
    = [1001; 1000] /\
  count_between 950 (950 + Milliseconds (60 * Second))
    (admitted_log (V := Z) (S := gmap string (ventry Z)) "acme" (60 * Second) 2 100 qs ∅ []) <= 2.
Proof.
  split; [vm_compute; reflexivity|].
  apply (tenant_ceiling (V := Z) "acme" (60 * Second) 2 100 0 ∅ 0 0); try done.
Defined.

(** ** The token bucket *)
Section bucket.
Context {F : Type} `{FL : Float64Laws F}.
Implicit Types (m : MemoryLimiter F) (b : tokenBucket F).

Lemma fleb_refl (x : F) : fleb x x = true.
Proof. by destruct (fleb_total x x). Qed.

Lemma fltb_fleb (x y : F) : fltb x y = true -> fleb x y = true.
Proof.
  unfold fltb. intros H%negb_true_iff. destruct (fleb_total x y); [done|congruence].
Qed.

(** Levels stay between zero and the capacity. *)
Definition level_ok m b : Prop :=
  fleb (fofZ 0) (tokens b) = true /\ fleb (tokens b) (burst m) = true.

Definition limiter_ok m : Prop :=
  fleb (fofZ 0) (ratePerSec m) = true /\ fleb (fofZ 0) (burst m) = true /\
  map_Forall (fun _ => level_ok m) (buckets m).

Lemma gc_config m now :
  burst (maybeGCLocked m now) = burst m /\ ratePerSec (maybeGCLocked m now) = ratePerSec m /\
  gcEvery (maybeGCLocked m now) = gcEvery m.
Proof. unfold maybeGCLocked. repeat break_guard; done. Qed.

Lemma gc_ok m now : limiter_ok m -> limiter_ok (maybeGCLocked m now).
Proof.
  intros (Hr & Hb & Hl). unfold maybeGCLocked. destruct (lastGC m); [|done].
  break_guard; [done|]. split_and!; simpl; try done.
  intros k b [Hkb _]%map_lookup_filter_Some. exact (Hl k b Hkb).
Qed.

Lemma refill_ok m key now : limiter_ok m -> level_ok m (refill m key now).
Proof.
  intros (Hr & Hb & Hl). unfold refill, level_ok.
  destruct (buckets m !! key) as [b|] eqn:Eb; simpl; [|split; [done|apply fleb_refl]].
  destruct (Hl key b Eb) as [H0 H1].
  destruct (fltb (fofZ 0) (Seconds (now - last b))) eqn:Ee; simpl; [|done].
  set (t := fadd _ _). destruct (fltb (burst m) t) eqn:Et; [split; [done|apply fleb_refl]|].
  split.
  - eapply fleb_trans; [exact H0|]. apply fadd_mul_nonneg; [by apply fltb_fleb|done].
  - unfold fltb in Et. by apply negb_false_iff in Et.
Qed.

(** The fallback never over- or under-fills a bucket: every call keeps
    all levels between zero and the configured burst, through refills,
    garbage collection and clocks that step back. *)
Theorem mem_allow_levels m key now :
  limiter_ok m -> limiter_ok (MemAllow m key now).2.
Proof.
  intros Hm. unfold MemAllow. break_guard; [done|].
  pose proof (gc_ok m now Hm) as Hg. pose proof (refill_ok _ key now Hg) as [L0 L1].
  destruct Hg as (Hr & Hb & Hl).
  destruct (fleb (fofZ 1) (tokens (refill (maybeGCLocked m now) key now))) eqn:E1; simpl.
  - split_and!; simpl; try done. apply map_Forall_insert_2; [|done]. split; simpl.
    + by apply fsub_nonneg.
    + eapply fleb_trans; [by apply fsub_le|done].
  - split_and!; simpl; try done. by apply map_Forall_insert_2.
Qed.

(** The level a bucket refills to when it has not been collected. *)
Lemma refilled_level m now b :
  limiter_ok m -> level_ok m b -> fleb (fofZ 1) (burst m) = true -> refilled m now b = true ->
  (let e := Seconds (now - last b) in
   if fltb (fofZ 0) e
   then if fltb (burst m) (fadd (tokens b) (fmul e (ratePerSec m))) then burst m
        else fadd (tokens b) (fmul e (ratePerSec m))
   else tokens b) = burst m.
Proof.
  intros (Hr & _ & _) [L0 L1] Hb1 Href. unfold refilled in Href. cbn zeta.
  destruct (fltb (fofZ 0) (Seconds (now - last b))) eqn:Ee.
  - destruct (fltb (burst m) _) eqn:Et; [done|]. symmetry. apply fleb_antisym; try done.
    unfold fltb in Et. by apply negb_false_iff in Et.
  - unfold fltb in Ee. apply negb_false_iff in Ee. symmetry. apply fleb_antisym; try done.
    eapply fleb_trans; [exact Href|]. by apply fadd_mul_nonpos.
Qed.

(** Garbage collection is invisible: dropping the refilled buckets before
    a call gives the key the same number of tokens, hence the caller the same
    answer, as not dropping them. *)
Theorem gc_invisible m key now :
  limiter_ok m -> fleb (fofZ 1) (burst m) = true ->
  tokens (refill (maybeGCLocked m now) key now) = tokens (refill m key now).
Proof.
  intros Hm Hb1. unfold maybeGCLocked. destruct (lastGC m) as [g|]; [|done].
  break_guard; [done|]. unfold refill. simpl.
  destruct (buckets m !! key) as [b|] eqn:Eb.
  - destruct (refilled m now b) eqn:Er.
    + assert (filter (fun kb : string * tokenBucket F => refilled m now kb.2 = false) (buckets m)
                !! key = None) as ->.
      { apply map_lookup_filter_None. right. intros b' Hb'. simpl. congruence. }
      simpl. rewrite <- (refilled_level m now b Hm) at 1; [|by apply Hm in Eb|done|done].
      cbn zeta. by destruct (fltb (fofZ 0) _).
    + by rewrite (map_lookup_filter_Some_2 _ (buckets m) key b).
  - assert (filter (fun kb : string * tokenBucket F => refilled m now kb.2 = false) (buckets m)
              !! key = None) as -> by (apply map_lookup_filter_None; by left). done.
Qed.

(** At one instant nothing refills. *)
Lemma Seconds_zero : fltb (fofZ 0) (Seconds (F := F) 0) = false.
Proof.
  unfold Seconds. change (Z.quot 0 Second) with 0. change (Z.rem 0 Second) with 0.
  rewrite fdiv_zero, fadd_zero by lia. unfold fltb. by rewrite fleb_refl.
Qed.

(** At [now], [key] holds [j] tokens of a limiter of capacity [n]. *)
Definition holds (n now : Z) m (key : string) (j : Z) : Prop :=
  burst m = fofZ n /\ 0 < gcEvery m /\ (lastGC m = None \/ lastGC m = Some now) /\
  match buckets m !! key with
  | None => j = n
  | Some b => b = mkBucket (fofZ j) now
  end.

Lemma holds_new n window now key :
  0 < n -> holds n now (NewMemoryLimiter n window) key n.
Proof.
  intros Hn. unfold NewMemoryLimiter, holds. simpl.
  destruct (Z.ltb_spec 0 n); [|lia]. split_and!; try done; [|by left].
  unfold Minute, Second, Millisecond. destruct (Z.leb_spec window 0); lia.
Qed.

Lemma gc_instant n now m key j : holds n now m key j ->
  buckets (maybeGCLocked m now) = buckets m /\ lastGC (maybeGCLocked m now) = Some now.
Proof.
  intros (_ & Hg & [Hl|Hl] & _); unfold maybeGCLocked; rewrite Hl; [done|].
  destruct (Z.ltb_spec (now - now) (gcEvery m)); [done|lia].
Qed.

Lemma holds_refill n now m key j : holds n now m key j ->
  refill (maybeGCLocked m now) key now = mkBucket (fofZ j) now.
Proof.
  intros Hh. destruct (gc_instant _ _ _ _ _ Hh) as [Hb _]. destruct (gc_config m now) as (Hbu & _).
  destruct Hh as (Hbm & _ & _ & Hj). unfold refill. rewrite Hb, Hbu.
  destruct (buckets m !! key) as [b|]; subst; [|by rewrite Hbm]. simpl.
  by rewrite Z.sub_diag, Seconds_zero.
Qed.

(** One call at the instant: it takes a token of its key if there is one and
    leaves the other keys alone. *)
Lemma MemAllow_instant n now m key key' j j' :
  0 < n <= 2 ^ 53 -> 0 <= j <= n ->
  holds n now m key j -> holds n now m key' j' ->
  (MemAllow m key now).1 = (0 <? j) /\
  holds n now (MemAllow m key now).2 key (if 0 <? j then j - 1 else j) /\
  (key' <> key -> holds n now (MemAllow m key now).2 key' j').
Proof.
  intros Hn Hj Hh Hh'. pose proof (gc_instant _ _ _ _ _ Hh) as [Hb Hg].
  pose proof (holds_refill _ _ _ _ _ Hh) as Hr. destruct (gc_config m now) as (C1 & _ & C3).
  pose proof Hh as (Hbm & Hge & _ & _). unfold MemAllow.
  rewrite Hbm, fofZ_mono by lia. destruct (Z.leb_spec n 0); [lia|]. cbn zeta. rewrite Hr.
  simpl tokens. simpl last. rewrite fofZ_mono by lia.
  assert ((1 <=? j) = (0 <? j)) as -> by (destruct (Z.leb_spec 1 j), (Z.ltb_spec 0 j); lia).
  unfold holds in Hh' |- *. destruct (Z.ltb_spec 0 j); simpl; rewrite C1, C3, Hb, lookup_insert_eq.
  - split_and!; try done; [by right|by rewrite fsub_one by lia|].
    intros Hne. rewrite lookup_insert_ne by done. split_and!; [done..|by right|apply Hh'].
  - split_and!; try done; [by right|].
    intros Hne. rewrite lookup_insert_ne by done. split_and!; [done..|by right|apply Hh'].
Qed.

Fixpoint mem_calls m (key : string) (now : Z) (k : nat) : list bool * MemoryLimiter F :=
  match k with
  | O => ([], m)
  | S k => let '(a, m1) := MemAllow m key now in
           let '(as', m2) := mem_calls m1 key now k in (a :: as', m2)
  end.

Lemma mem_calls_instant n now key k m j :
  0 < n <= 2 ^ 53 -> 0 <= j <= n -> holds n now m key j ->
  (mem_calls m key now k).1 =
    replicate (Nat.min k (Z.to_nat j)) true ++ replicate (k - Z.to_nat j)%nat false.
Proof.
  intros Hn. revert m j. induction k as [|k IH]; intros m j Hj Hh; simpl; [done|].
  destruct (MemAllow_instant n now m key key j j Hn Hj Hh Hh) as (Ha & Hh1 & _).
  destruct (MemAllow m key now) as [a m1]. simpl in *. subst a.
  destruct (Z.ltb_spec 0 j) as [Hpos|Hz].
  - specialize (IH m1 (j - 1) ltac:(lia) Hh1). destruct (mem_calls m1 key now k). simpl in *.
    rewrite IH. replace (Z.to_nat j) with (S (Z.to_nat (j - 1))) by lia. done.
  - assert (j = 0) as -> by lia. specialize (IH m1 0 ltac:(lia) Hh1).
    destruct (mem_calls m1 key now k). simpl in *. rewrite IH. by rewrite Nat.min_0_r, Nat.sub_0_r.
Qed.

(** The burst.  At one instant a new fallback limiter of limit [n] admits
    exactly the first [n] calls for a key and refuses the rest. *)
Theorem mem_burst n window now key k :
  0 < n <= 2 ^ 53 ->
  (mem_calls (NewMemoryLimiter n window) key now k).1 =
    replicate (Nat.min k (Z.to_nat n)) true ++ replicate (k - Z.to_nat n)%nat false.
Proof.
  intros Hn. apply (mem_calls_instant n); [done|lia|by apply holds_new; lia].
Qed.
End bucket.

(** Fixed-point numbers satisfy the laws; they run the examples. *)
Module FixedPoint.
Definition scale : Z := 10 ^ 18.

Inductive fx := Fx (n : Z).
Definition raw (x : fx) : Z := let 'Fx n := x in n.

#[global] Instance fx_ops : Float64 fx := {|
  fofZ n := Fx (n * scale);
  fadd x y := Fx (raw x + raw y);
  fsub x y := Fx (raw x - raw y);
  fmul x y := Fx (raw x * raw y / scale);
  fdiv x y := Fx (raw x * scale / raw y);
  fleb x y := raw x <=? raw y;
|}.

#[global] Instance fx_laws : Float64Laws fx.
Proof.
  split; cbn -[scale]; intros; repeat match goal with x : fx |- _ => destruct x end;
    cbn -[scale] in *; breflect; rewrite ?Z.leb_le.
  - lia.
  - lia.
  - f_equal. lia.
  - unfold scale. destruct (Z.leb_spec (m * 10 ^ 18) (n * 10 ^ 18)), (Z.leb_spec m n); lia.
  - unfold scale. f_equal. lia.
  - lia.
  - unfold scale in *. lia.
  - assert (n0 * n / scale <= 0); [|lia]. apply Z.div_le_upper_bound; unfold scale; nia.
  - assert (0 <= n0 * n / scale); [|lia]. apply Z.div_pos; unfold scale; nia.
  - apply Z.div_pos; unfold scale in *; nia.
  - unfold scale. by rewrite Z.div_0_l by lia.
  - done.
Qed.
End FixedPoint.

Lemma mem_allow_levels_witness :
  limiter_ok (MemAllow (F := FixedPoint.fx) (NewMemoryLimiter 5 Minute) "k" 7).2.
Proof.
  apply mem_allow_levels. split_and!; [vm_compute; reflexivity..|].
  exact (map_Forall_empty _).
Defined.

Lemma gc_invisible_witness :
  let m := mkLimiter {["k"%string := mkBucket (fofZ 5 : FixedPoint.fx) 0]}
             (fofZ 1) (fofZ 5) (10 * Minute) (Some 0) in
  buckets (maybeGCLocked m Hour) = ∅ /\
  tokens (refill (maybeGCLocked m Hour) "k" Hour) = tokens (refill m "k" Hour).
Proof.
  split; [vm_compute; reflexivity|]. apply gc_invisible; [|vm_compute; reflexivity].
  split_and!; [vm_compute; reflexivity..|].
  apply map_Forall_singleton. split; vm_compute; reflexivity.
Defined.

Lemma mem_burst_witness :
  (mem_calls (F := FixedPoint.fx) (NewMemoryLimiter 2 Minute) "k" 7 4).1
    = [true; true; false; false].
Proof. rewrite (mem_burst (F := FixedPoint.fx) 2 Minute 7 "k" 4); [reflexivity|lia]. Defined.

(** ** The fallback over time

    [fval] is the number a finite binary64 stands for and [roundoff] the
    relative error of one operation, 2^-53 with rounding to nearest.
    Integers up to 2^53 and their differences with one are exact, a sum is
    never below a non-negative summand, and a product may lose a further
    [roundoff ^ 2] to underflow (which is at most 2^-1074).  A positive value
    has one representation. *)
Class Float64Value (F : Type) := { fval : F -> Q; roundoff : Q }.

Class Float64ValueLaws (F : Type) `{FO : Float64 F} `{FV : !Float64Value F} : Prop := {
  roundoff_range : (0 <= roundoff <= 1 # 2)%Q;
  fval_leb x y : fleb x y = true <-> (fval x <= fval y)%Q;
  fval_inj x y : (0 < fval x)%Q -> (fval x == fval y)%Q -> x = y;
  fval_ofZ n : Z.abs n <= 2 ^ 53 -> (fval (fofZ n) == inject_Z n)%Q;
  fval_sub_one x : (1 <= fval x)%Q -> (fval x <= inject_Z (2 ^ 53))%Q ->
    (fval (fsub x (fofZ 1)) == fval x - 1)%Q;
  fval_add x y : (0 <= fval x)%Q -> (0 <= fval y)%Q ->
    (fval x <= fval (fadd x y))%Q /\ (fval y <= fval (fadd x y))%Q /\
    (fval (fadd x y) <= (1 + roundoff) * (fval x + fval y))%Q;
  fval_add_zero x y : (fval y == 0)%Q -> (fval (fadd x y) == fval x)%Q;
  fval_mul x y : (0 <= fval x)%Q -> (0 <= fval y)%Q ->
    (0 <= fval (fmul x y) <= (1 + roundoff) * (fval x * fval y) + roundoff * roundoff)%Q;
  fval_div m n : 0 <= m <= 2 ^ 53 -> 0 < n <= 2 ^ 53 ->
    (0 <= fval (fdiv (fofZ m) (fofZ n)) <= (1 + roundoff) * (inject_Z m / inject_Z n))%Q /\
    (0 < m -> (0 < fval (fdiv (fofZ m) (fofZ n)))%Q);
}.

Section rate.
Context {F : Type} `{FVL : Float64ValueLaws F}.
Local Open Scope Q_scope.
Implicit Types (m : MemoryLimiter F) (b : tokenBucket F) (d now : Z).
Abbreviation eps := (roundoff (F := F)).

(** A capacity of [n] refilled in a window of [w] seconds. *)
Context (n w : Z) (Hn : (0 < n <= 2 ^ 53)%Z) (Hw : (0 < w <= 2 ^ 53)%Z).

Definition qn : Q := inject_Z n.
Definition per_second : Q := qn / inject_Z w.
Definition seconds (d : Z) : Q := inject_Z d / inject_Z Second.

(** Tokens [d] nanoseconds add, and what one refill may add by rounding. *)
Definition gain (d : Z) : Q := (1 + eps) * (1 + eps) * (1 + eps) * (1 + eps) * (1 + eps) * (per_second * seconds d).
Definition slack : Q := 2 * eps * qn.

Lemma qn_pos : 1 <= qn.
Proof. unfold qn. change 1 with (inject_Z 1). rewrite <- Zle_Qle. lia. Qed.
Lemma per_second_pos : 0 <= per_second.
Proof.
  unfold per_second. apply Qle_shift_div_l; [change 0 with (inject_Z 0); rewrite <- Zlt_Qlt; lia|].
  pose proof qn_pos. lra.
Qed.
Lemma seconds_nonneg d : (0 <= d)%Z -> 0 <= seconds d.
Proof.
  intros Hd. unfold seconds. apply Qle_shift_div_l; [reflexivity|].
  rewrite Qmult_0_l. change 0 with (inject_Z 0). by rewrite <- Zle_Qle.
Qed.
Lemma seconds_add d d' : seconds (d + d') == seconds d + seconds d'.
Proof. unfold seconds. rewrite inject_Z_plus. field. discriminate. Qed.

Lemma factor_pos : 0 <= (1 + eps) * (1 + eps) * (1 + eps) * (1 + eps) * (1 + eps).
Proof. destruct (roundoff_range (F := F)). repeat apply Qmult_le_0_compat; lra. Qed.
Lemma gain_nonneg d : (0 <= d)%Z -> 0 <= gain d.
Proof.
  intros Hd. unfold gain. apply Qmult_le_0_compat; [apply factor_pos|].
  apply Qmult_le_0_compat; [apply per_second_pos | by apply seconds_nonneg].
Qed.
Lemma gain_add d d' : gain (d + d') == gain d + gain d'.
Proof. unfold gain. rewrite seconds_add. ring. Qed.
Lemma slack_nonneg : 0 <= slack.
Proof. unfold slack. pose proof qn_pos. destruct (roundoff_range (F := F)). apply Qmult_le_0_compat; lra. Qed.

(** [Seconds] rounds twice. *)
Lemma Seconds_bound d : (0 <= d <= 2 ^ 53 * Second)%Z ->
  0 <= fval (Seconds (F := F) d) <= (1 + eps) * (1 + eps) * seconds d /\
  ((0 < d)%Z -> 0 < fval (Seconds (F := F) d)).
Proof.
  intros Hd. unfold Seconds. pose proof (Z.quot_rem' d Second) as E.
  pose proof (Z.rem_bound_pos d Second ltac:(lia) ltac:(unfold Second, Millisecond; lia)) as Hr.
  set (q := Z.quot d Second) in *. set (r := Z.rem d Second) in *.
  assert (0 <= q <= 2 ^ 53)%Z as Hq by (unfold Second, Millisecond in *; nia).
  assert (0 <= r <= 2 ^ 53)%Z as Hr53 by (unfold Second, Millisecond in *; nia).
  pose proof (fval_ofZ q ltac:(lia)) as Vq.
  destruct (fval_div r 1000000000 Hr53 ltac:(lia)) as [[D0 D1] D2].
  assert (0 <= inject_Z q) as Hq0 by (change 0 with (inject_Z 0); rewrite <- Zle_Qle; lia).
  destruct (fval_add (fofZ q) (fdiv (fofZ r) (fofZ 1000000000))) as (A1 & A2 & A3); [lra|lra|].
  assert (seconds d == inject_Z q + inject_Z r / inject_Z 1000000000) as Es.
  { unfold seconds. rewrite E at 1. clearbody q r. rewrite inject_Z_plus, inject_Z_mult. change Second with 1000000000%Z. field. }
  destruct (roundoff_range (F := F)) as [R0 R1]. split; [split; [lra|]|].
  - rewrite Vq in A3. rewrite Es. set (v := fval (fdiv _ _)) in *. set (x := inject_Z r / _) in *.
    set (y := fval (fadd _ _)) in *. clearbody v x y. assert (0 <= x) by nra. nra.
  - intros Hpos. destruct (Z.eq_dec q 0) as [E0|Hne].
    + assert (0 < r)%Z as Hr0 by lia. apply D2 in Hr0; lra.
    + assert (1 <= inject_Z q) by (change 1 with (inject_Z 1); rewrite <- Zle_Qle; lia). lra.
Qed.

Definition sized m : Prop :=
  fval (burst m) == qn /\ 0 <= fval (ratePerSec m) <= (1 + eps) * per_second.
Definition bucket_ok (t0 t : Z) b : Prop := 0 <= fval (tokens b) <= qn /\ (t0 <= last b <= t)%Z.
(** At [t], a limiter that has run since [t0]. *)
Definition sound (t0 t : Z) m : Prop := sized m /\ map_Forall (fun _ => bucket_ok t0 t) (buckets m).

(** What a bucket grows to, before the clamp. *)
Lemma topped m (x : F) d : sized m -> 0 <= fval x <= qn -> (0 <= d <= 2 ^ 53 * Second)%Z ->
  0 <= fval (fadd x (fmul (Seconds d) (ratePerSec m))) <= fval x + slack + gain d.
Proof.
  intros [_ [R0 R1]] [X0 X1] Hd. destruct (Seconds_bound d Hd) as [[S0 S1] _].
  pose proof (fval_mul (Seconds d) (ratePerSec m) S0 R0) as [M0 M1].
  destruct (fval_add x (fmul (Seconds d) (ratePerSec m)) X0 M0) as (A1 & _ & A3). split; [lra|].
  destruct (roundoff_range (F := F)) as [E0 E1]. pose proof qn_pos as Q1.
  pose proof per_second_pos as P0. pose proof (seconds_nonneg d ltac:(lia)) as D0. unfold slack, gain.
  assert (fval (Seconds d) * fval (ratePerSec m) <= (1 + eps) * (1 + eps) * seconds d * ((1 + eps) * per_second)) as Hp.
  { apply (Qle_trans _ ((1 + eps) * (1 + eps) * seconds d * fval (ratePerSec m))); [by apply Qmult_le_compat_r|].
    rewrite (Qmult_comm _ (fval (ratePerSec m))), (Qmult_comm _ ((1 + eps) * per_second)).
    apply Qmult_le_compat_r; [done|]. apply Qmult_le_0_compat; [apply Qmult_le_0_compat; lra|done]. }
  set (p := fval (Seconds d) * fval (ratePerSec m)) in *.
  assert ((1 + eps) * (1 + eps) * p <= (1 + eps) * (1 + eps) * ((1 + eps) * (1 + eps) * seconds d * ((1 + eps) * per_second))) as Hp2.
  { rewrite (Qmult_comm _ p), (Qmult_comm _ (_ * seconds d * _)). apply Qmult_le_compat_r; [done|]. apply Qmult_le_0_compat; lra. }
  assert ((1 + eps) * (fval x + fval (fmul (Seconds d) (ratePerSec m))) <= (1 + eps) * (fval x + ((1 + eps) * p + eps * eps))) as H1.
  { rewrite !(Qmult_comm (1 + eps)). apply Qmult_le_compat_r; lra. }
  assert ((1 + eps) * (eps * eps) + eps * fval x <= 2 * eps * qn) as H2.
  { assert ((1 + eps) * eps <= qn) by nra. assert (eps * fval x <= eps * qn) by nra. nra. }
  nra.
Qed.

Lemma gc_lookup m now K :
  buckets (maybeGCLocked m now) !! K = buckets m !! K \/
  exists b, buckets m !! K = Some b /\ buckets (maybeGCLocked m now) !! K = None /\ refilled m now b = true.
Proof.
  unfold maybeGCLocked. destruct (lastGC m) as [g|]; [|by left]. destruct (_ <? _)%Z; [by left|]. simpl.
  destruct (buckets m !! K) as [b|] eqn:Eb.
  - destruct (refilled m now b) eqn:Er; [right; exists b; split_and!; [done| |done]|left].
    + apply map_lookup_filter_None. right. intros b' Hb'. simpl. congruence.
    + by apply map_lookup_filter_Some_2.
  - left. apply map_lookup_filter_None. by left.
Qed.

Lemma gc_sound t0 t m now : (t <= now)%Z -> sound t0 t m -> sound t0 now (maybeGCLocked m now).
Proof.
  intros Ht [Hs Hb]. destruct (gc_config m now) as (E1 & E2 & _). split; [unfold sized; by rewrite E1, E2|].
  intros K b HK. destruct (gc_lookup m now K) as [E|(b0 & _ & E & _)]; rewrite E in HK; [|done].
  destruct (Hb K b HK) as [H1 H2]. split; [done|lia].
Qed.

(** What a key may still take, and since when that is its level. *)
Definition level m (K : string) : Q :=
  match buckets m !! K with None => qn | Some b => fval (tokens b) end.
Definition since m (K : string) (t : Z) : Z :=
  match buckets m !! K with None => t | Some b => last b end.

Context (t0 t now : Z) (Hnow : (t0 <= t <= now)%Z) (Hspan : (now - t0 <= 2 ^ 53 * Second)%Z).

(** Collected or not, the level a call finds: at most the capacity, and at
    most what the time since then has added. *)
Lemma refill_bound m K : sound t0 t m ->
  let b := refill (maybeGCLocked m now) K now in
  bucket_ok t0 now b /\ fval (tokens b) <= level m K + slack + gain (last b - since m K t) /\
  (since m K t <= last b)%Z /\ ((since m K t < now)%Z -> last b = now).
Proof.
  intros Hm. pose proof Hm as [Hs Hb]. destruct (gc_config m now) as (E1 & E2 & _).
  pose proof slack_nonneg. pose proof qn_pos. unfold refill, level, since. rewrite E1, E2.
  destruct (gc_lookup m now K) as [E|(b & Eb & E & Er)]; rewrite E.
  2:{ rewrite Eb. destruct (Hb K b Eb) as [B1 B2]. cbn. destruct Hs as [S1 S2].
      unfold refilled in Er. apply fval_leb in Er. destruct (topped m (tokens b) (now - last b)); [done|done|lia|].
      unfold bucket_ok. cbn. split_and!; [lra|lra|lia|lia|lra|lia|done]. }
  destruct (buckets m !! K) as [b|] eqn:Eb; cbn.
  2:{ pose proof (gain_nonneg (now - t) ltac:(lia)). destruct Hs as [S1 _].
      unfold bucket_ok. cbn. split_and!; [lra|lra|lia|lia|lra|lia|done]. }
  destruct (Hb K b Eb) as [B1 B2]. destruct (Seconds_bound (now - last b) ltac:(lia)) as [_ Hpos].
  pose proof (fval_ofZ (F := F) 0 ltac:(lia)) as V0. change (inject_Z 0) with 0 in V0.
  destruct (topped m (tokens b) (now - last b)) as [T0 T1]; [done|done|lia|].
  destruct (fltb (fofZ 0) (Seconds (now - last b))) eqn:Ee; unfold fltb in Ee; breflect.
  - cbn. destruct (fltb (burst m) _) eqn:Et; unfold fltb in Et; breflect; unfold bucket_ok; cbn; destruct Hs as [S1 _].
    + assert (~ (fval (fadd (tokens b) (fmul (Seconds (now - last b)) (ratePerSec m))) <= fval (burst m))) as Hgt.
      { intros Hle%fval_leb. congruence. }
      split_and!; [lra|lra|lia|lia|lra|lia|done].
    + apply fval_leb in Et. split_and!; [lra|lra|lia|lia|lra|lia|done].
  - apply fval_leb in Ee. assert (~ (last b < now)%Z) as Hlast by (intros Hlt; specialize (Hpos ltac:(lia)); lra).
    rewrite Z.sub_diag. pose proof (gain_nonneg 0 ltac:(lia)). unfold bucket_ok. split_and!; [lra|lra|lia|lia|lra|lia|lia].
Qed.

(** One call, of [key], and what it does to [K]. *)
Lemma call_bound m key K : sound t0 t m ->
  let '(ok, m') := MemAllow m key now in
  let hit := if String.eqb key K && ok then 1 else 0 in
  sound t0 now m' /\
  hit + level m' K <= level m K + slack + gain (since m' K now - since m K t) /\
  (since m K t <= since m' K now)%Z /\
  (hit == 0 /\ buckets m' !! K = buckets m !! K \/
   hit + level m' K <= qn /\ ((since m K t < now)%Z -> since m' K now = now)).
Proof.
  intros Hm. pose proof Hm as [[Hs Hr] Hb]. unfold MemAllow. pose proof qn_pos as Q1.
  pose proof (fval_ofZ (F := F) 0 ltac:(lia)) as V0. pose proof (fval_ofZ (F := F) 1 ltac:(lia)) as V1.
  change (inject_Z 0) with 0 in V0. change (inject_Z 1) with 1 in V1.
  destruct (fleb (burst m) (fofZ 0)) eqn:Eb; [apply fval_leb in Eb; lra|].
  pose proof (gc_sound t0 t m now ltac:(lia) Hm) as [Gs Gb]. set (g := maybeGCLocked m now) in *.
  destruct (refill_bound m key Hm) as ([L0 L1] & L2 & L3 & L4). fold g in L0, L1, L2, L3, L4.
  set (b := refill g key now) in *.
  assert (forall b' : tokenBucket F, last b' = last b -> 0 <= fval (tokens b') <= qn -> sound t0 now (with_buckets g (<[key := b']> (buckets g)))) as Hsound.
  { intros b' El Hb'. split; [exact Gs|]. apply map_Forall_insert_2; [|exact Gb]. split; [done|by rewrite El]. }
  assert (forall b' : tokenBucket F, key <> K -> let m' := with_buckets g (<[key := b']> (buckets g)) in
    0 + level m' K <= level m K + slack + gain (since m' K now - since m K t) /\ (since m K t <= since m' K now)%Z /\
    (0 == 0 /\ buckets m' !! K = buckets m !! K \/ 0 + level m' K <= qn /\ ((since m K t < now)%Z -> since m' K now = now))) as Hother.
  { intros b' Hne m'. pose proof slack_nonneg. unfold level, since, m'. cbn. rewrite lookup_insert_ne by done.
    destruct (gc_lookup m now K) as [E|(b0 & E0 & E & Er)]; fold g in E; rewrite E.
    - split_and!; [|destruct (buckets m !! K); lia|by left].
      destruct (buckets m !! K) as [x|]; [rewrite Z.sub_diag; pose proof (gain_nonneg 0 ltac:(lia)); lra|].
      pose proof (gain_nonneg (now - t) ltac:(lia)). lra.
    - rewrite E0. destruct (Hb K b0 E0) as [B1 B2]. unfold refilled in Er. apply fval_leb in Er.
      destruct (topped m (tokens b0) (now - last b0)); [by split|done|lia|]. split_and!; [lra|lia|]. right. split; [lra|done]. }
  destruct (fleb (fofZ 1) (tokens b)) eqn:E1.
  - apply fval_leb in E1. assert (fval (tokens b) <= inject_Z (2 ^ 53)) as H53 by (unfold qn in L0; rewrite Zle_Qle in Hn; lra).
    assert (1 <= fval (tokens b)) as H1 by lra. pose proof (fval_sub_one (tokens b) H1 H53) as Esub. split; [apply Hsound; [done|cbn; lra]|].
    destruct (String.eqb_spec key K) as [->|Hne]; [|by apply Hother]. cbn. unfold level, since. cbn. rewrite lookup_insert_eq. cbn.
    fold (level m K) (since m K t). split_and!; [lra|done|]. right. split; [lra|done].
  - split; [apply Hsound; [done|done]|].
    destruct (String.eqb_spec key K) as [->|Hne]; [|by apply Hother]. cbn. unfold level, since. cbn. rewrite lookup_insert_eq.
    fold (level m K) (since m K t). split_and!; [lra|done|]. right. split; [lra|done].
Qed.
End rate.

(** ** The middleware during an outage of the store *)
Section outage.
Context {F : Type} `{FVL : Float64ValueLaws F} {St : Type}.

(** A store that answers every call with an error. *)
Definition down_store : RateLimiterStore St := {|
  rl_allow _ _ _ _ _ _ s := (None, s);
|}.

Definition served (r : response) : bool := match r with Serve _ => true | _ => false end.

Record attempted := mkAttempted { rq_now : Z; rq_tenant : string; rq_user : string }.

(** Requests handled one after the other; the number of tenant [T]'s requests
    that reach the next handler. *)
Fixpoint wrap_run (T : string) (l : list attempted) (c : RateLimiterConfig F) (s : St)
    : Z * RateLimiterConfig F * St :=
  match l with
  | [] => (0, c, s)
  | q :: l =>
      let '(r, c, s) := Wrap (RS := down_store) c (rq_tenant q) (rq_user q) (rq_now q) s in
      let '(k, c, s) := wrap_run T l c s in
      ((if String.eqb (rq_tenant q) T && served r then 1 else 0) + k, c, s)
  end.

(** Times do not decrease, from [t] on, and end by [b]. *)
Fixpoint in_order (t : Z) (l : list attempted) (b : Z) : Prop :=
  match l with [] => t <= b | q :: l => t <= rq_now q /\ in_order (rq_now q) l b end.

Lemma in_order_le t l b : in_order t l b -> t <= b.
Proof. revert t. induction l as [|q l IH]; intros t; [done|]. intros [H1 H2%IH]. lia. Qed.

Lemma wrap_down c t u now (s : St) :
  t <> ""%string -> FailClosed c = true ->
  exists r c', Wrap (RS := down_store) c t u now s = (r, c', s) /\ FailClosed c' = true /\
    FallbackTenant c' = (MemAllow (FallbackTenant c) (tenantKeyOf t) now).2 /\
    (served r = true -> (MemAllow (FallbackTenant c) (tenantKeyOf t) now).1 = true).
Proof.
  intros Ht Hfc. unfold Wrap. destruct (String.eqb_spec t ""); [done|]. simpl rl_allow.
  rewrite Hfc. destruct (MemAllow (FallbackTenant c) (tenantKeyOf t) now) as [tok ft].
  destruct (String.eqb u ""); destruct tok; simpl; try (eexists _, _; split_and!; done).
  destruct (0 <? UserRPM c); [|eexists _, _; split_and!; done].
  destruct (MemAllow (FallbackUser c) _ now) as [[] fu]; eexists _, _; split_and!; done.
Qed.

Context (n w : Z) (Hn : 0 < n <= 2 ^ 53) (Hw : 0 < w <= 2 ^ 53).
Context (t0 b : Z) (Hspan : b - t0 <= 2 ^ 53 * Second).

Lemma sound_later t t' m : t <= t' -> sound n w t0 t m -> sound n w t0 t' m.
Proof.
  intros Ht [Hs Hb]. split; [done|]. intros K x HK. destruct (Hb K x HK) as [H1 H2]. split; [done|lia].
Qed.

Lemma run_sound T l t c (s : St) : t0 <= t -> in_order t l b -> FailClosed c = true ->
  sound n w t0 t (FallbackTenant c) ->
  let '(_, c', _) := wrap_run T l c s in FailClosed c' = true /\ sound n w t0 b (FallbackTenant c').
Proof.
  revert t c s. induction l as [|q l IH]; intros t c s Ht Ho Hfc Hs; cbn [wrap_run].
  { split; [done|]. by eapply sound_later. }
  destruct Ho as [Hq Ho]. pose proof (in_order_le _ _ _ Ho). destruct (String.eqb_spec (rq_tenant q) "") as [E|Hne].
  - rewrite E. change (Wrap c "" (rq_user q) (rq_now q) s) with (Serve false, c, s). cbn beta iota.
    specialize (IH (rq_now q) c s ltac:(lia) Ho Hfc (sound_later t (rq_now q) _ Hq Hs)).
    destruct (wrap_run T l c s) as [[k c'] s']. exact IH.
  - destruct (wrap_down c (rq_tenant q) (rq_user q) (rq_now q) s Hne Hfc) as (r & c1 & -> & Hf1 & Hm1 & _).
    pose proof (call_bound n w Hn Hw t0 t (rq_now q) ltac:(lia) ltac:(lia) _ (tenantKeyOf (rq_tenant q)) ""%string Hs) as Hc.
    destruct (MemAllow _ _ _) as [ok m1]. destruct Hc as [Hs1 _]. cbn in Hm1. rewrite <- Hm1 in Hs1.
    specialize (IH (rq_now q) c1 s ltac:(lia) Ho Hf1 Hs1). destruct (wrap_run T l c1 s) as [[k c'] s']. exact IH.
Qed.

(** From [a] on, [k] requests of [K] passed and [i] were handled: the bucket was
    not touched since, or what passed and what is left were paid for. *)
Definition paid_up (a t : Z) (m : MemoryLimiter F) (K : string) (k i : Z) : Prop :=
  since m K t < a /\ k = 0 \/
  a <= since m K t /\
  (inject_Z k + level n m K <= qn n + gain (F := F) n w (since m K t - a) + inject_Z i * slack (F := F) n)%Q.

Lemma gain_le d d' : 0 <= d <= d' -> (gain (F := F) n w d <= gain (F := F) n w d')%Q.
Proof.
  intros Hd. replace d' with (d + (d' - d)) by lia. rewrite gain_add.
  pose proof (gain_nonneg (F := F) n w Hn Hw (d' - d) ltac:(lia)). lra.
Qed.

Lemma slack_le i i' : i <= i' -> (inject_Z i * slack (F := F) n <= inject_Z i' * slack (F := F) n)%Q.
Proof. intros Hi. apply Qmult_le_compat_r; [by rewrite <- Zle_Qle|by apply slack_nonneg]. Qed.

Lemma since_later t t' m K : t <= t' -> since m K t <= since (F := F) m K t' /\ (since m K t < t -> since m K t' = since m K t).
Proof. intros Ht. unfold since. destruct (buckets m !! K); lia. Qed.

Lemma paid_later a t t' m K k i : a <= t -> t <= t' -> paid_up a t m K k i -> paid_up a t' m K k (i + 1).
Proof.
  intros Ha Ht [[H1 H2]|[H1 H2]]; destruct (since_later t t' m K Ht) as [S1 S2].
  - left. split; [|done]. rewrite S2; lia.
  - right. split; [lia|]. pose proof (gain_le (since m K t - a) (since m K t' - a) ltac:(lia)).
    pose proof (slack_le i (i + 1) ltac:(lia)). lra.
Qed.

Lemma paid_call a t now m key K k i : a <= t -> t0 <= t <= now -> now <= b -> sound n w t0 t m -> 0 <= i ->
  paid_up a t m K k i ->
  let '(ok, m') := MemAllow m key now in
  forall h, 0 <= h <= (if String.eqb key K && ok then 1 else 0) -> paid_up a now m' K (k + h) (i + 1).
Proof.
  intros Ha Ht Hb Hs Hi Hp. pose proof (call_bound n w Hn Hw t0 t now ltac:(lia) ltac:(lia) m key K Hs) as Hc.
  destruct (MemAllow m key now) as [ok m']. destruct Hc as (_ & C1 & C2 & C3). intros h Hh.
  assert (inject_Z h <= if String.eqb key K && ok then 1 else 0)%Q as Hhit.
  { change 1%Q with (inject_Z 1). change 0%Q with (inject_Z 0). destruct (_ && _); rewrite <- Zle_Qle; lia. }
  assert (inject_Z (k + h) == inject_Z k + inject_Z h)%Q as Ek by (rewrite inject_Z_plus; reflexivity).
  pose proof (slack_le 0 (i + 1) ltac:(lia)) as Sl. rewrite Qmult_0_l in Sl.
  destruct Hp as [[P1 ->]|[P1 P2]].
  - destruct C3 as [[H0 Eb]|[H0 Hnow]].
    + left. assert (h = 0) as -> by (destruct (_ && _); [discriminate H0|lia]). split; [|lia].
      unfold since in *. rewrite Eb. destruct (buckets m !! K); [done|lia].
    + right. rewrite Hnow by lia. split; [lia|].
      pose proof (gain_nonneg (F := F) n w Hn Hw (now - a) ltac:(lia)). change (inject_Z 0) with 0%Q in Ek. lra.
  - right. split; [lia|].
    assert (gain (F := F) n w (since m' K now - a) == gain (F := F) n w (since m K t - a) + gain (F := F) n w (since m' K now - since m K t))%Q as Eg.
    { rewrite <- gain_add. by replace (since m K t - a + (since m' K now - since m K t)) with (since m' K now - a) by lia. }
    assert (inject_Z (i + 1) * slack (F := F) n == inject_Z i * slack (F := F) n + slack (F := F) n)%Q as Ei.
    { rewrite inject_Z_plus. change (inject_Z 1) with 1%Q. ring. }
    lra.
Qed.

Lemma run_bound T a l t c (s : St) k i : T <> ""%string -> a <= t -> t0 <= t -> 0 <= i -> in_order t l b -> FailClosed c = true ->
  sound n w t0 t (FallbackTenant c) -> paid_up a t (FallbackTenant c) (tenantKeyOf T) k i ->
  (inject_Z (k + (wrap_run T l c s).1.1) <= qn n + gain (F := F) n w (b - a) + inject_Z (i + Z.of_nat (length l)) * slack (F := F) n)%Q.
Proof.
  intros HT. revert t c s k i. induction l as [|q l IH]; intros t c s k i Ha Ht Hi Ho Hfc Hs Hp; cbn [wrap_run].
  - cbn. rewrite !Z.add_0_r. pose proof (slack_le 0 i Hi) as Sl. rewrite Qmult_0_l in Sl. cbn in Ho.
    pose proof (qn_pos n Hn). destruct Hp as [[_ ->]|[P1 P2]].
    + pose proof (gain_nonneg (F := F) n w Hn Hw (b - a) ltac:(lia)). change (inject_Z 0) with 0%Q. lra.
    + assert (since (FallbackTenant c) (tenantKeyOf T) t <= t /\ (0 <= level n (FallbackTenant c) (tenantKeyOf T))%Q) as [S1 S2].
      { unfold since, level. destruct (buckets _ !! _) as [x|] eqn:E; [|split; [lia|lra]]. destruct (proj2 Hs _ _ E) as [[? _] ?]. split; [lia|done]. }
      pose proof (gain_le (since (FallbackTenant c) (tenantKeyOf T) t - a) (b - a) ltac:(lia)). lra.
  - destruct Ho as [Hq Ho]. pose proof (in_order_le _ _ _ Ho) as Hqb.
    replace (i + Z.of_nat (length (q :: l))) with (i + 1 + Z.of_nat (length l)) by (cbn [length]; lia).
    destruct (String.eqb_spec (rq_tenant q) "") as [E|Hne].
    + rewrite E. change (Wrap c "" (rq_user q) (rq_now q) s) with (Serve false, c, s). cbn beta iota.
      specialize (IH (rq_now q) c s k (i + 1) ltac:(lia) ltac:(lia) ltac:(lia) Ho Hfc (sound_later t _ _ Hq Hs) (paid_later a t _ _ _ _ _ Ha Hq Hp)).
      destruct (wrap_run T l c s) as [[k' c'] s']. destruct (String.eqb_spec "" T); [congruence|]. exact IH.
    + destruct (wrap_down c (rq_tenant q) (rq_user q) (rq_now q) s Hne Hfc) as (r & c1 & -> & Hf1 & Hm1 & Hok).
      pose proof (call_bound n w Hn Hw t0 t (rq_now q) ltac:(lia) ltac:(lia) _ (tenantKeyOf (rq_tenant q)) ""%string Hs) as Hc.
      pose proof (paid_call a t (rq_now q) _ (tenantKeyOf (rq_tenant q)) _ _ _ Ha ltac:(lia) Hqb Hs Hi Hp) as Hp1.
      destruct (MemAllow _ _ _) as [ok m1]. destruct Hc as [Hs1 _]. cbn in Hm1, Hok. rewrite <- Hm1 in Hs1, Hp1.
      set (h := if String.eqb (rq_tenant q) T && served r then 1 else 0).
      assert (0 <= h <= (if String.eqb (tenantKeyOf (rq_tenant q)) (tenantKeyOf T) && ok then 1 else 0)) as Hh.
      { unfold h. destruct (String.eqb_spec (rq_tenant q) T) as [->|_]; [rewrite String.eqb_refl|destruct (_ && ok); cbn; lia].
        destruct (served r); [rewrite Hok by done|destruct ok]; cbn; lia. }
      specialize (IH (rq_now q) c1 s (k + h) (i + 1) ltac:(lia) ltac:(lia) ltac:(lia) Ho Hf1 Hs1 (Hp1 h Hh)).
      destruct (wrap_run T l c1 s) as [[k' c'] s']. cbn [fst] in *. by rewrite Z.add_assoc.
Qed.
End outage.

(** A new limiter of [n] requests in [w] seconds. *)
Lemma new_sound {F : Type} `{FVL : Float64ValueLaws F} n w t0 t :
  0 < n <= 2 ^ 53 -> 0 < w <= 2 ^ 53 -> sound (F := F) n w t0 t (NewMemoryLimiter n (w * Second)).
Proof.
  intros Hn Hw. split; [|apply map_Forall_empty]. unfold NewMemoryLimiter, sized. cbn [burst ratePerSec].
  destruct (Z.leb_spec (w * Second) 0); [unfold Second, Millisecond in *; lia|].
  destruct (Z.ltb_spec 0 n); [|lia]. split; [by apply fval_ofZ; lia|].
  assert (Seconds (F := F) (w * Second) = fofZ w) as ->.
  { unfold Seconds. rewrite Z.quot_mul, Z.rem_mul by done. symmetry. apply fval_inj.
    - rewrite fval_ofZ by lia. change 0%Q with (inject_Z 0). rewrite <- Zlt_Qlt. lia.
    - rewrite fval_add_zero; [reflexivity|]. destruct (fval_div (F := F) 0 1000000000) as [[D0 D1] _]; [lia|lia|].
      assert (inject_Z 0 / inject_Z 1000000000 == 0)%Q as E0 by reflexivity. rewrite E0, Qmult_0_r in D1. lra. }
  destruct (fval_div (F := F) n w ltac:(lia) Hw) as [HD _]. exact HD.
Qed.

(** C38: failing closed.  Take a new limiter of [rpm] requests in a window of
    [w] whole seconds (both at most 2^53) that fails closed, while every call
    to the store fails, and any history of requests, at times that do not
    decrease.  From any instant
    [a] of it to any later [b], whatever went before, one replica serves at
    most [rpm] requests of a tenant and those the time from [a] to [b] refills
    at [rpm] per window, however many users send them and whatever other
    tenants do, up to the rounding of the floats: a relative error of
    [roundoff] (2^-53) in each of the five operations of a refill, and of
    twice that, of the capacity, for each request handled. *)
Theorem outage_ceiling {F St : Type} `{FVL : Float64ValueLaws F} T before reqs t0 a b rpm urpm w (s : St) :
  T <> ""%string -> 0 < rpm <= 2 ^ 53 -> 0 < w <= 2 ^ 53 -> b - t0 <= 2 ^ 53 * Second ->
  in_order t0 before a -> in_order a reqs b ->
  let '(_, c, s1) := wrap_run T before (NewRateLimiter (F := F) rpm urpm (w * Second) true None None) s in
  (inject_Z (wrap_run T reqs c s1).1.1 <=
   inject_Z rpm
   + (1 + roundoff (F := F)) ^ 5 * (inject_Z rpm / inject_Z w * (inject_Z (b - a) / inject_Z Second))
   + inject_Z (Z.of_nat (length reqs)) * (2 * roundoff (F := F) * inject_Z rpm))%Q.
Proof.
  intros HT Hn Hw Hspan Hbefore Hreqs. pose proof (in_order_le _ _ _ Hbefore). pose proof (in_order_le _ _ _ Hreqs).
  set (c0 := NewRateLimiter rpm urpm (w * Second) true None None).
  assert (sound rpm w t0 t0 (FallbackTenant c0)) as Hs0.
  { unfold c0, NewRateLimiter. cbn. destruct (Z.leb_spec rpm 0); [lia|].
    destruct (Z.leb_spec (w * Second) 0); [unfold Second, Millisecond in *; lia|]. by apply new_sound. }
  pose proof (run_sound rpm w Hn Hw t0 a ltac:(lia) T before t0 c0 s ltac:(lia) Hbefore eq_refl Hs0) as Hs1.
  destruct (wrap_run T before c0 s) as [[k c] s1]. destruct Hs1 as [Hfc Hs1].
  pose proof (run_bound rpm w Hn Hw t0 b Hspan T a reqs a c s1 0 0 HT ltac:(lia) ltac:(lia) ltac:(lia) Hreqs Hfc Hs1) as Hb.
  rewrite !Z.add_0_l in Hb. unfold gain, per_second, seconds, slack, qn in Hb.
  eapply Qle_trans; [apply Hb|]; [|apply Qle_lteq; right; ring].
  unfold paid_up, since, level, qn. change (inject_Z 0) with 0%Q. pose proof (slack_nonneg (F := F) rpm Hn).
  pose proof (gain_nonneg (F := F) rpm w Hn Hw 0 ltac:(lia)).
  destruct (buckets (FallbackTenant c) !! tenantKeyOf T) as [x|] eqn:E; [|right; rewrite Z.sub_diag; split; [lia|lra]].
  destruct (proj2 Hs1 _ _ E) as [[B0 B1] B2]. unfold qn in B1. destruct (Z.eq_dec (last x) a) as [->|Hne]; [right|left; lia].
  rewrite Z.sub_diag. split; [lia|lra].
Qed.

#[global] Instance fx_value : Float64Value FixedPoint.fx := {|
  fval x := (inject_Z (FixedPoint.raw x) / inject_Z FixedPoint.scale)%Q;
  roundoff := 0%Q;
|}.

(** Division of fixed-point numbers rounds down. *)
Lemma floor_le a c : 0 < c -> (inject_Z (a / c) <= inject_Z a / inject_Z c)%Q.
Proof.
  intros Hc. apply Qle_shift_div_l; [change 0%Q with (inject_Z 0); by rewrite <- Zlt_Qlt|].
  rewrite <- inject_Z_mult, <- Zle_Qle, Z.mul_comm. by apply Z.mul_div_le.
Qed.

Lemma inject_pos a : 0 < a -> (0 < inject_Z a)%Q.
Proof. change 0%Q with (inject_Z 0). by rewrite <- Zlt_Qlt. Qed.

Lemma fx_sign a : (0 <= inject_Z a / inject_Z FixedPoint.scale)%Q <-> 0 <= a.
Proof.
  change 0%Q with (inject_Z 0). rewrite (Zle_Qle 0 a). split; intros H.
  - assert (inject_Z a == inject_Z a / inject_Z FixedPoint.scale * inject_Z FixedPoint.scale)%Q as -> by (field; discriminate).
    change (inject_Z 0) with 0%Q in *. by apply Qmult_le_0_compat.
  - apply Qle_shift_div_l; [reflexivity|]. change (inject_Z 0) with 0%Q in *. by rewrite Qmult_0_l.
Qed.

Lemma fx_plus a c : (inject_Z (a + c) / inject_Z FixedPoint.scale ==
  inject_Z a / inject_Z FixedPoint.scale + inject_Z c / inject_Z FixedPoint.scale)%Q.
Proof. rewrite inject_Z_plus. field. discriminate. Qed.

#[global] Instance fx_value_laws : Float64ValueLaws FixedPoint.fx.
Proof.
  assert (0 < FixedPoint.scale) as Hsc by done.
  split; cbn -[FixedPoint.scale inject_Z Z.pow]; intros; repeat match goal with x : FixedPoint.fx |- _ => destruct x end; cbn -[FixedPoint.scale inject_Z Z.pow] in *.
  - split; discriminate.
  - rewrite Z.leb_le, Zle_Qle. symmetry. apply Qmult_le_r. reflexivity.
  - f_equal. apply inject_Z_injective. unfold Qdiv in *. by apply Qmult_inj_r in H0.
  - rewrite inject_Z_mult. field. discriminate.
  - rewrite Z.mul_1_l. unfold Z.sub. rewrite inject_Z_plus, inject_Z_opp. field. discriminate.
  - rewrite fx_plus. split_and!; lra.
  - rewrite fx_plus. lra.
  - rewrite fx_sign in H, H0. split; [apply fx_sign; apply Z.div_pos; [by apply Z.mul_nonneg_nonneg|done]|].
    pose proof (floor_le (n0 * n) _ Hsc) as Hf. rewrite inject_Z_mult in Hf.
    assert ((1 + 0) * (inject_Z n0 / inject_Z FixedPoint.scale * (inject_Z n / inject_Z FixedPoint.scale)) + 0 * 0 ==
      inject_Z n0 * inject_Z n / inject_Z FixedPoint.scale / inject_Z FixedPoint.scale)%Q as E by (field; discriminate).
    eapply Qle_trans; [|apply Qle_lteq; right; symmetry; exact E].
    unfold Qdiv in *. apply Qmult_le_r; [reflexivity|done].
  - assert (m * FixedPoint.scale * FixedPoint.scale / (n * FixedPoint.scale) = m * FixedPoint.scale / n) as -> by (apply Z.div_mul_cancel_r; lia).
    split; [split|].
    + apply fx_sign, Z.div_pos; lia.
    + pose proof (floor_le (m * FixedPoint.scale) n ltac:(lia)) as Hf. rewrite inject_Z_mult in Hf.
      assert ((1 + 0) * (inject_Z m / inject_Z n) == inject_Z m * inject_Z FixedPoint.scale / inject_Z n / inject_Z FixedPoint.scale)%Q as E1.
      { field. split; [|discriminate]. intros E. pose proof (inject_pos n ltac:(lia)). rewrite E in *. by apply Qlt_irrefl in H1. }
      eapply Qle_trans; [|apply Qle_lteq; right; symmetry; exact E1]. unfold Qdiv in *. by apply Qmult_le_r.
    + intros Hm. apply Qlt_shift_div_l; [reflexivity|]. rewrite Qmult_0_l. apply inject_pos. apply Z.div_str_pos.
      unfold FixedPoint.scale in *. lia.
Qed.

(** Two a minute: the burst, a refill after half a minute, and a full bucket
    again after an idle hour, when the collector has run. *)
Definition first_minute : list attempted :=
  [mkAttempted 0 "acme" "a"; mkAttempted 1 "acme" "b"; mkAttempted 2 "acme" "c";
   mkAttempted (31 * Second) "acme" "a"; mkAttempted (32 * Second) "acme" "d"].
Definition hour_later : list attempted :=
  [mkAttempted Hour "other" "x"; mkAttempted Hour "acme" "a"; mkAttempted Hour "acme" "b"; mkAttempted Hour "acme" "c"].

Lemma outage_ceiling_witness :
  let '(k, c, s) := wrap_run "acme" first_minute (NewRateLimiter (F := FixedPoint.fx) 2 9 (60 * Second) true None None) tt in
  k = 3 /\ (wrap_run "acme" hour_later c s).1.1 = 2 /\
  (inject_Z (wrap_run "acme" hour_later c s).1.1 <= inject_Z 2)%Q.
Proof.
  pose proof (outage_ceiling (F := FixedPoint.fx) "acme" first_minute hour_later 0 Hour Hour 2 9 60 tt ltac:(discriminate)
    ltac:(lia) ltac:(lia) ltac:(vm_compute; discriminate) ltac:(vm_compute; repeat split; discriminate) ltac:(vm_compute; repeat split; discriminate)) as H.
  destruct (wrap_run "acme" first_minute _ tt) as [[k c] s] eqn:E.
  assert (k = 3) as Hk by (transitivity (wrap_run "acme" first_minute (NewRateLimiter (F := FixedPoint.fx) 2 9 (60 * Second) true None None) tt).1.1; [by rewrite E|vm_compute; reflexivity]).
  assert (c = (wrap_run "acme" first_minute (NewRateLimiter (F := FixedPoint.fx) 2 9 (60 * Second) true None None) tt).1.2) as -> by (by rewrite E).
  split; [exact Hk|]. split; [destruct s; vm_compute; reflexivity|].
  eapply Qle_trans; [exact H|]. vm_compute. discriminate.
Defined.
