(* ===== verification/Submission.v ===== *)
(** * Submissions to the mail server

    What the undo-send and the scheduled-send workers exchange with Stalwart
    over JMAP: the creation arguments of an [EmailSubmission], the request and
    what the workers read of the response. *)

From S2P Require Import Prelude.

(** A JSON value of a submission: a string, or any other text. *)
Inductive jval := JText (s : string) | JRaw (raw : string).

(** The request for Stalwart: account, creation key, submission. *)
Record submission := mkSubmission {
  sAccount : string;
  sKey : string;
  sCreate : gmap string jval;
  sDestroyOnSuccess : string;
}.

(** Stalwart's answer, as far as [dispatch] reads it: a transport error, or
    the first method error, the name of the call with id 0 and the entries
    of its [notCreated] map in iteration order; [shown] prints the whole
    response. *)
Inductive dreply :=
| DFail (msg : string)
| DResp (firstCallError : option string) (call0 : option string)
    (notCreated : list (string * (string * string))) (shown : string).
