(* ===== verification/UndoSend.v ===== *)
(** * Undo send ([internal/undosend/service.go], [worker.go])

    The hold queue lives in Valkey: a companion key per held submission, a
    sorted set of deadlines, a dead-letter list.  [Service] operations and the
    [DispatchWorker] are state passing functions over the [Valkey] interface;
    a stored document is represented by what it decodes to.  Every remote
    call takes its [delivery].  [ustep] interleaves clients and workers at the
    granularity of the individual Valkey calls. *)

From S2P Require Import Prelude Valkey Submission.

Local Open Scope Z_scope.

Inductive status := StatusPending | StatusSent | StatusCancelled | StatusFailed.

#[export] Instance status_eq_dec : EqDecision status.
Proof. solve_decision. Defined.

(** The bytes of [SubmissionPayload], by what [json.Unmarshal] makes of them. *)
Inductive payload :=
| PEmpty                        (* no bytes *)
| PInvalid (err : string)       (* not a JSON object: the decoder's message *)
| PNull                         (* the literal null: decodes to a nil map *)
| PObject (m : gmap string jval).

Record PendingSend := mkPending {
  ID : string;
  TenantID : string;
  KChatUserID : string;
  StalwartAccountID : string;
  CreateID : string;
  EmailID : string;
  IdentityID : string;
  SubmissionPayload : payload;
  Status : status;
  CreatedAt : Z;
  DeadlineAt : Z;
  Attempts : Z;
  LastError : string;
}.

(** What a companion key may hold. *)
Inductive doc :=
| DocEmpty                      (* the empty string *)
| DocBad                        (* not a JSON object *)
| Doc (ps : PendingSend).

Inductive uerror :=
| ErrNotFound | ErrAlreadySent | ErrTenantMismatch
| MissingField (name : string) | ErrUUID | ErrStore | ErrDecode
| ErrDelayTooLong | ErrClientRequired.

Definition DefaultDelaySeconds : Z := 10.
Definition DefaultKeyTTLSlack : Z := 5 * Minute.
Definition DefaultMaxDelaySeconds : Z := 300.

Definition keyPrefix : string := "kmail:pending_send:".
Definition sortedSetKey : string := "kmail:pending_sends".
Definition failedListKey : string := "kmail:failed_sends".

Definition companionKey (id : string) : string := keyPrefix +:+ id.

Record Service := mkService { delay : Z; maxDelay : Z; ttlSlack : Z }.

Definition NewService (hasClient : bool) (d md sl : Z) : result uerror Service :=
  if negb hasClient then Err ErrClientRequired
  else
    let d := if d <=? 0 then DefaultDelaySeconds * Second else d in
    let md := if md <=? 0 then DefaultMaxDelaySeconds * Second else md in
    if md <? d then Err ErrDelayTooLong
    else Ok (mkService d md (if sl <=? 0 then DefaultKeyTTLSlack else sl)).

Record HoldInput := mkHold {
  hTenantID : string;
  hKChatUserID : string;
  hStalwartAccountID : string;
  hCreateID : string;
  hEmailID : string;
  hIdentityID : string;
  hSubmissionPayload : payload;
}.

Definition validateHold (i : HoldInput) : result uerror unit :=
  if blank (hTenantID i) then Err (MissingField "TenantID")
  else if blank (hKChatUserID i) then Err (MissingField "KChatUserID")
  else if blank (hStalwartAccountID i) then Err (MissingField "StalwartAccountID")
  else if blank (hEmailID i) then Err (MissingField "EmailID")
  else match hSubmissionPayload i with
       | PEmpty => Err (MissingField "SubmissionPayload")
       | _ => Ok tt
       end.

(** The client library sends a TTL in milliseconds, at least one. *)
Definition ttl_ms (d : Z) : Z := Z.max 1 (Milliseconds d).

Section service.
Context {S : Type} `{VK : Valkey doc S}.

(** [wall] is [time.Now] as [time.Until] reads it. *)
Definition keyTTL (svc : Service) (wall : Z) (ps : PendingSend) : Z :=
  let ttl := DeadlineAt ps - wall + ttlSlack svc in
  if ttl <=? 0 then ttlSlack svc else ttl.

(** SET of the companion key and ZADD of the deadline, in one MULTI. *)
Definition put_pending (sv : Z) (svc : Service) (wall : Z) (ps : PendingSend) (s : S) : S :=
  vk_zadd sv sortedSetKey (Unix (DeadlineAt ps)) (ID ps)
    (vk_set sv (companionKey (ID ps)) (Doc ps) (ttl_ms (keyTTL svc wall ps)) s).

Definition write (d : delivery) (sv : Z) (svc : Service) (wall : Z) (ps : PendingSend) (s : S)
    : result uerror unit * S :=
  match remote d (fun s => (tt, put_pending sv svc wall ps s)) s with
  | (Some _, s') => (Ok tt, s')
  | (None, s') => (Err ErrStore, s')
  end.

(** [id] is the drawn UUIDv7, [None] when the generator fails. *)
Definition Hold (d : delivery) (sv : Z) (svc : Service) (id : option string) (now wall : Z)
    (i : HoldInput) (s : S) : result uerror PendingSend * S :=
  match validateHold i with
  | Err e => (Err e, s)
  | Ok _ =>
      match id with
      | None => (Err ErrUUID, s)
      | Some id =>
          let ps := mkPending id (hTenantID i) (hKChatUserID i) (hStalwartAccountID i)
                      (hCreateID i) (hEmailID i) (hIdentityID i) (hSubmissionPayload i)
                      StatusPending now (now + delay svc) 0 "" in
          match write d sv svc wall ps s with
          | (Ok _, s') => (Ok ps, s')
          | (Err e, s') => (Err e, s')
          end
      end
  end.

Definition readByID (d : delivery) (sv : Z) (id : string) (s : S) : result uerror PendingSend :=
  match remote d (fun s => (vk_get sv s (companionKey id), s)) s with
  | (None, _) => Err ErrStore
  | (Some None, _) => Err ErrNotFound
  | (Some (Some (Doc ps)), _) => Ok ps
  | (Some (Some _), _) => Err ErrDecode
  end.

Definition Get (d : delivery) (sv : Z) (id : string) (s : S) : result uerror PendingSend :=
  if blank id then Err ErrNotFound else readByID d sv id s.

Inductive cancelReply := Missing | DecodeError | Mismatch | AlreadyClaimed | CancelOk.

Definition cancelLua (sv : Z) (key zkey tenant id : string) (s : S) : cancelReply * S :=
  match vk_get sv s key with
  | None => (Missing, s)
  | Some DocEmpty => (Missing, s)
  | Some DocBad => (DecodeError, s)
  | Some (Doc decoded) =>
      if negb (String.eqb (TenantID decoded) tenant) then (Mismatch, s)
      else
        let '(removed, s) := vk_zrem sv zkey id s in
        if removed =? 0 then (AlreadyClaimed, s)
        else (CancelOk, vk_del sv key s)
  end.

Definition Cancel (d : delivery) (sv : Z) (id tenantID : string) (s : S)
    : result uerror unit * S :=
  if blank id then (Err ErrNotFound, s)
  else if blank tenantID then (Err (MissingField "tenantID"), s)
  else
    match remote d (cancelLua sv (companionKey id) sortedSetKey tenantID id) s with
    | (None, s') => (Err ErrStore, s')
    | (Some CancelOk, s') => (Ok tt, s')
    | (Some Missing, s') => (Err ErrAlreadySent, s')
    | (Some AlreadyClaimed, s') => (Err ErrAlreadySent, s')
    | (Some Mismatch, s') => (Err ErrTenantMismatch, s')
    | (Some DecodeError, s') => (Err ErrDecode, s')
    end.

Definition dueIDs (d : delivery) (sv now limit : Z) (s : S) : option (list string) :=
  let limit := if limit <=? 0 then 50 else limit in
  (remote d (fun s => (vk_zrange sv s sortedSetKey (Unix now) limit, s)) s).1.

Definition claim (d : delivery) (sv : Z) (id : string) (s : S) : result uerror bool * S :=
  match remote d (vk_zrem sv sortedSetKey id) s with
  | (Some removed, s') => (Ok (0 <? removed), s')
  | (None, s') => (Err ErrStore, s')
  end.

Definition markDispatched (d : delivery) (sv : Z) (id : string) (s : S) : S :=
  (remote d (fun s => (tt, vk_del sv (companionKey id) s)) s).2.

Definition markFailed (d : delivery) (sv : Z) (ps : PendingSend) (lastErr : string) (s : S) : S :=
  let ps := mkPending (ID ps) (TenantID ps) (KChatUserID ps) (StalwartAccountID ps) (CreateID ps)
              (EmailID ps) (IdentityID ps) (SubmissionPayload ps) StatusFailed (CreatedAt ps)
              (DeadlineAt ps) (Attempts ps) lastErr in
  (remote d (fun s =>
     (tt, vk_del sv (companionKey (ID ps))
            (vk_ltrim sv failedListKey 999 (vk_lpush sv failedListKey (Doc ps) s)))) s).2.

Definition with_deadline (ps : PendingSend) (t : Z) : PendingSend :=
  mkPending (ID ps) (TenantID ps) (KChatUserID ps) (StalwartAccountID ps) (CreateID ps)
    (EmailID ps) (IdentityID ps) (SubmissionPayload ps) (Status ps) (CreatedAt ps) t
    (Attempts ps) (LastError ps).

Definition requeue (d : delivery) (sv : Z) (svc : Service) (wall : Z) (ps : PendingSend)
    (nextDeadline : Z) (s : S) : S :=
  (remote d (fun s => (tt, put_pending sv svc wall (with_deadline ps nextDeadline) s)) s).2.

End service.

(** ** Dispatch worker *)

Record DispatchWorker := mkWorker { interval : Z; maxBatch : Z; maxAttempts : Z }.

Definition NewDispatchWorker (interval batch attempts : Z) : DispatchWorker :=
  mkWorker (if interval <=? 0 then Second else interval)
    (if batch <=? 0 then 50 else batch) (if attempts <=? 0 then 3 else attempts).

Definition submissionCreateKey (ps : PendingSend) : string :=
  if negb (blank (CreateID ps)) then CreateID ps else "submission".

Inductive derror :=
| EmptyPayload | PayloadDecode (msg : string) | NilMapPanic
| TransportError (msg : string) | MethodError (msg : string) | MissingResponse (shown : string)
| Rejected (key typ desc : string).

Definition buildSubmissionCreate (ps : PendingSend) : result derror (gmap string jval) :=
  match SubmissionPayload ps with
  | PEmpty => Err EmptyPayload
  | PInvalid e => Err (PayloadDecode e)
  | PNull => Err NilMapPanic
  | PObject m =>
      let m := <["emailId"%string := JText (EmailID ps)]> m in
      Ok (if negb (blank (IdentityID ps))
          then <["identityId"%string := JText (IdentityID ps)]> m else m)
  end.

Definition dispatch (ps : PendingSend) (submit : submission -> dreply)
    : result derror unit :=
  match buildSubmissionCreate ps with
  | Err e => Err e
  | Ok create =>
      let key := submissionCreateKey ps in
      match submit (mkSubmission (StalwartAccountID ps) key create ("#" +:+ key)) with
      | DFail e => Err (TransportError e)
      | DResp (Some e) _ _ _ => Err (MethodError e)
      | DResp None call0 notCreated shown =>
          if negb (match call0 with Some n => String.eqb n "EmailSubmission/set" | None => false end)
          then Err (MissingResponse shown)
          else match notCreated with
               | (k, (typ, desc)) :: _ => Err (Rejected k typ desc)
               | [] => Ok tt
               end
      end
  end.

Definition error_text (e : derror) : string :=
  match e with
  | EmptyPayload => "build submission create: undosend: empty submission payload"
  | PayloadDecode m => "build submission create: decode submission payload: " +:+ m
  | NilMapPanic => "assignment to entry in nil map"
  | TransportError m => m
  | MethodError m => m
  | MissingResponse r => "undosend: dispatched response missing EmailSubmission/set: " +:+ r
  | Rejected k t d => "stalwart rejected submission " +:+ k +:+ ": " +:+ t +:+ ": " +:+ d
  end.

Definition backoff (attempts : Z) : Z :=
  let b := 5 * attempts * attempts * Second in
  if 30 * Second <? b then 30 * Second else b.

Definition with_attempts (ps : PendingSend) (n : Z) : PendingSend :=
  mkPending (ID ps) (TenantID ps) (KChatUserID ps) (StalwartAccountID ps) (CreateID ps)
    (EmailID ps) (IdentityID ps) (SubmissionPayload ps) (Status ps) (CreatedAt ps)
    (DeadlineAt ps) n (LastError ps).

Section worker.
Context {S : Type} `{VK : Valkey doc S}.

Definition handleErr (d : delivery) (sv : Z) (svc : Service) (w : DispatchWorker) (now wall : Z)
    (ps : PendingSend) (err : string) (s : S) : S :=
  if maxAttempts w <=? Attempts ps then markFailed d sv ps err s
  else requeue d sv svc wall ps (now + backoff (Attempts ps)) s.

(** The environment of one [process]: the fate of its calls and Stalwart. *)
Record penv := mkEnv {
  e_sv : Z;
  e_now : Z;
  e_wall : Z;
  e_claim : delivery;
  e_read : delivery;
  e_final : delivery;
  e_submit : submission -> dreply;
}.

(** A panic in [dispatch] ends the worker with the claim taken. *)
Definition process (svc : Service) (w : DispatchWorker) (E : penv) (id : string) (s : S) : S :=
  match claim (e_claim E) (e_sv E) id s with
  | (Err _, s) => s
  | (Ok false, s) => s
  | (Ok true, s) =>
      match readByID (e_read E) (e_sv E) id s with
      | Err _ => s
      | Ok ps =>
          let ps := with_attempts ps (Attempts ps + 1) in
          match dispatch ps (e_submit E) with
          | Err NilMapPanic => s
          | Err e => handleErr (e_final E) (e_sv E) svc w (e_now E) (e_wall E) ps (error_text e) s
          | Ok _ => markDispatched (e_final E) (e_sv E) (ID ps) s
          end
      end
  end.

Definition Tick (svc : Service) (w : DispatchWorker) (dd : delivery) (sv now : Z)
    (E : string -> penv) (s : S) : S :=
  match dueIDs dd sv now (maxBatch w) s with
  | None => s
  | Some ids => fold_left (fun s id => process svc w (E id) id s) ids s
  end.
End worker.

(** ** Views of the queue *)
Section views.
Context {S : Type} `{VL : ValkeyLaws doc S}.
Implicit Types (s : S) (ps : PendingSend).

Lemma companion_inj id id' : companionKey id = companionKey id' -> id = id'.
Proof. apply string_prefix_inj. Qed.

Lemma companion_zset id : companionKey id <> sortedSetKey.
Proof. done. Qed.

Lemma companion_failed id : companionKey id <> failedListKey.
Proof. done. Qed.

Lemma zset_failed : sortedSetKey <> failedListKey.
Proof. done. Qed.

(** The queue is well formed at [sv]: the deadlines are a sorted set that
    never expires, the dead letters a list, and a companion key that decodes
    holds the submission it is named after. *)
Record queue_ok (sv : Z) (s : S) (z : gmap string Z) (l : list doc) : Prop := {
  q_zset : vk_view s sv sortedSetKey = zentry z None;
  q_failed : vk_view s sv failedListKey = lentry l None;
  q_doc : forall id ps d,
    vk_view s sv (companionKey id) = Some (OStr (Doc ps), d) -> ID ps = id;
  q_str : forall id, match vk_view s sv (companionKey id) with
                     | None | Some (OStr _, _) => True | _ => False end;
}.

Lemma as_list_lentry (l : list doc) d : as_list (lentry l d) = Some l.
Proof. by destruct l. Qed.

Lemma queue_zset sv s z l : queue_ok sv s z l -> as_zset (vk_view s sv sortedSetKey) = Some z.
Proof. intros H. rewrite (q_zset _ _ _ _ H). apply as_zset_zentry. Qed.

Lemma queue_expiry sv s z l : queue_ok sv s z l -> expiry (vk_view s sv sortedSetKey) = None.
Proof. intros H. rewrite (q_zset _ _ _ _ H). unfold zentry. by case_decide. Qed.

Lemma queue_time sv sv' s z l : sv <= sv' -> queue_ok sv s z l -> queue_ok sv' s z l.
Proof.
  intros Ht Hq. split.
  - rewrite (law_expire s sv sv'), (q_zset _ _ _ _ Hq) by done. unfold zentry. by case_decide.
  - rewrite (law_expire s sv sv'), (q_failed _ _ _ _ Hq) by done. by destruct l.
  - intros id ps d. rewrite (law_expire s sv sv') by done. intros H.
    eapply (q_doc _ _ _ _ Hq). revert H.
    destruct (vk_view s sv (companionKey id)) as [[o d']|]; simpl; [|done].
    destruct (live sv' d'); [|done]. by intros [= -> ->].
  - intros id. rewrite (law_expire s sv sv') by done. pose proof (q_str _ _ _ _ Hq id) as H.
    destruct (vk_view s sv (companionKey id)) as [[[v|?|?|?] d']|]; simpl; try done.
    by destruct (live sv' d').
Qed.

Lemma zrem_queue sv s z l id :
  queue_ok sv s z l -> queue_ok sv (vk_zrem sv sortedSetKey id s).2 (delete id z) l /\
    (vk_zrem sv sortedSetKey id s).1 = match z !! id with Some _ => 1 | None => 0 end /\
    forall k, k <> sortedSetKey ->
      vk_view (vk_zrem sv sortedSetKey id s).2 sv k = vk_view s sv k.
Proof.
  intros Hq. pose proof (queue_zset _ _ _ _ Hq) as Hz.
  assert (forall k, vk_view (vk_zrem sv sortedSetKey id s).2 sv k =
    on_key sortedSetKey k (zentry (delete id z) None) (vk_view s sv k)) as Hv.
  { intros k. rewrite (law_zrem_view s sv sortedSetKey id z), (queue_expiry _ _ _ _ Hq) by done. done. }
  split_and!.
  - split.
    + by rewrite Hv, on_key_eq.
    + by rewrite Hv, on_key_ne, (q_failed _ _ _ _ Hq).
    + intros id' ps d. rewrite Hv, on_key_ne by done. apply (q_doc _ _ _ _ Hq).
    + intros id'. rewrite Hv, on_key_ne by done. apply (q_str _ _ _ _ Hq).
  - by apply law_zrem_count.
  - intros k Hk. by rewrite Hv, on_key_ne.
Qed.

Lemma del_queue sv s z l id :
  queue_ok sv s z l -> queue_ok sv (vk_del sv (companionKey id) s) z l.
Proof.
  intros Hq. split.
  - by rewrite law_del, on_key_ne, (q_zset _ _ _ _ Hq).
  - by rewrite law_del, on_key_ne, (q_failed _ _ _ _ Hq).
  - intros id' ps d. rewrite law_del. unfold on_key. case_decide; [done|]. apply (q_doc _ _ _ _ Hq).
  - intros id'. rewrite law_del. unfold on_key. case_decide; [done|]. apply (q_str _ _ _ _ Hq).
Qed.

Lemma ttl_ms_pos d : 0 < ttl_ms d.
Proof. unfold ttl_ms. lia. Qed.

Lemma put_pending_views sv svc wall ps s z l :
  queue_ok sv s z l ->
  forall k, vk_view (put_pending sv svc wall ps s) sv k =
    on_key sortedSetKey k
      (zentry (<[ID ps := Unix (DeadlineAt ps)]> z) None)
      (on_key (companionKey (ID ps)) k
         (Some (OStr (Doc ps), Some (sv + ttl_ms (keyTTL svc wall ps)))) (vk_view s sv k)).
Proof.
  intros Hq k. unfold put_pending.
  assert (vk_view (vk_set sv (companionKey (ID ps)) (Doc ps) (ttl_ms (keyTTL svc wall ps)) s) sv
            sortedSetKey = vk_view s sv sortedSetKey) as Hz.
  { rewrite law_set by apply ttl_ms_pos. by rewrite on_key_ne. }
  rewrite law_zadd with (z := z) by (rewrite Hz; by eapply queue_zset).
  rewrite Hz, (queue_expiry _ _ _ _ Hq). rewrite law_set by apply ttl_ms_pos. f_equal.
  unfold zentry. by rewrite decide_False by apply insert_non_empty.
Qed.

Lemma put_pending_queue sv svc wall ps s z l :
  queue_ok sv s z l ->
  queue_ok sv (put_pending sv svc wall ps s) (<[ID ps := Unix (DeadlineAt ps)]> z) l.
Proof.
  intros Hq. pose proof (put_pending_views sv svc wall ps s z l Hq) as Hv. split.
  - by rewrite Hv, on_key_eq.
  - by rewrite Hv, !on_key_ne, (q_failed _ _ _ _ Hq).
  - intros id ps' d. rewrite Hv, on_key_ne by done.
    destruct (decide (id = ID ps)) as [->|Hne].
    + rewrite on_key_eq. by intros [= <- <-].
    + rewrite on_key_ne by (intros ?%companion_inj; done). apply (q_doc _ _ _ _ Hq).
  - intros id. rewrite Hv, on_key_ne by done.
    destruct (decide (id = ID ps)) as [->|Hne]; [by rewrite on_key_eq|].
    rewrite on_key_ne by (intros ?%companion_inj; done). apply (q_str _ _ _ _ Hq).
Qed.

(** [markFailed] keeps at most the thousand newest dead letters. *)
Lemma markFailed_queue sv ps err s z l :
  queue_ok sv s z l ->
  exists f, ID f = ID ps /\ Status f = StatusFailed /\ LastError f = err /\
    queue_ok sv (markFailed Delivered sv ps err s) z (take 1000 (Doc f :: l)) /\
    forall k, k <> failedListKey -> vk_view (markFailed Delivered sv ps err s) sv k =
      on_key (companionKey (ID ps)) k None (vk_view s sv k).
Proof.
  intros Hq. unfold markFailed, remote. simpl snd. set (f := mkPending _ _ _ _ _ _ _ _ _ _ _ _ _).
  exists f. split_and!; try done.
  all: assert (forall k, vk_view (vk_lpush sv failedListKey (Doc f) s) sv k =
      on_key failedListKey k (lentry (Doc f :: l) None) (vk_view s sv k)) as H1
    by (intros k; rewrite (law_lpush s sv failedListKey (Doc f) l);
        [by rewrite (q_failed _ _ _ _ Hq); destruct l
        |by rewrite (q_failed _ _ _ _ Hq), as_list_lentry]).
  all: set (s1 := vk_lpush sv failedListKey (Doc f) s) in *.
  all: assert (forall k, vk_view (vk_ltrim sv failedListKey 999 s1) sv k =
      on_key failedListKey k (lentry (take 1000 (Doc f :: l)) None) (vk_view s sv k)) as H2
    by (intros k; rewrite (law_ltrim s1 sv failedListKey 999 (Doc f :: l));
        [by rewrite !H1, on_key_eq, on_key_on_key|by rewrite H1, on_key_eq|lia]).
  all: set (s2 := vk_ltrim sv failedListKey 999 s1) in *.
  - assert (queue_ok sv s2 z (take 1000 (Doc f :: l))) as Hq2; [|by apply del_queue].
    split.
    + by rewrite H2, on_key_ne, (q_zset _ _ _ _ Hq).
    + by rewrite H2, on_key_eq.
    + intros id ps' d. rewrite H2, on_key_ne by done. apply (q_doc _ _ _ _ Hq).
    + intros id. rewrite H2, on_key_ne by done. apply (q_str _ _ _ _ Hq).
  - intros k Hk. rewrite law_del, H2, (on_key_ne failedListKey) by done. done.
Qed.

Lemma get_companion sv s z l id :
  queue_ok sv s z l ->
  vk_get sv s (companionKey id) =
  match vk_view s sv (companionKey id) with Some (OStr v, _) => Some v | _ => None end.
Proof.
  intros Hq. pose proof (q_str _ _ _ _ Hq id) as H.
  destruct (vk_view s sv (companionKey id)) as [[[v|?|?|?] d]|] eqn:E; try done.
  - by eapply law_get.
  - by apply law_get_none.
Qed.

Lemma readByID_id d sv s z l id ps :
  queue_ok sv s z l -> readByID d sv id s = Ok ps -> ID ps = id.
Proof.
  intros Hq. unfold readByID, remote. destruct d; try done.
  rewrite (get_companion _ _ _ _ _ Hq).
  destruct (vk_view s sv (companionKey id)) as [[[v|?|?|?] e]|] eqn:E; try done.
  destruct v; try done. intros [= ->]. by eapply (q_doc _ _ _ _ Hq).
Qed.
End views.

(** ** Clients and workers, interleaved

    Each label is one Valkey call, one exchange with Stalwart, a crash, or
    the passing of time.  A worker's program counter is where [process] is
    between two calls. *)
Inductive pc :=
| Idle
| Claimed (id : string)                      (* after claim, before readByID *)
| Holding (ps : PendingSend)                 (* read, attempt counted, before dispatch *)
| Accepted (ps : PendingSend)                (* accepted, before markDispatched *)
| Refused (ps : PendingSend) (err : string). (* dispatch failed, before handleErr *)

(** What a worker learns of Stalwart's decision. *)
Inductive verdict :=
| VAccept                                    (* accepted, reply received *)
| VRefuse (err : string)                     (* not accepted *)
| VAcceptLost (err : string).                (* accepted, reply lost *)

Inductive ulabel :=
| LHold (d : delivery) (id : string) (now wall : Z) (i : HoldInput)
| LCancel (d : delivery) (id tenant : string)
| LClaim (w : nat) (d : delivery) (id : string)
| LRead (w : nat) (d : delivery)
| LSubmit (w : nat) (v : verdict)
| LFinish (w : nat) (d : delivery)
| LHandle (w : nat) (d : delivery) (now wall : Z)
| LCrash (w : nat)
| LTime (sv : Z).

Record usys (S : Type) := mkSys {
  store : S;
  clock : Z;
  pcs : gmap nat pc;
  issued : gset string;       (* ids drawn by Hold *)
  cancelled : gset string;    (* ids whose Cancel returned nil *)
  sent : list string;         (* ids accepted by Stalwart, newest first *)
}.
Arguments mkSys {S}. Arguments store {S}. Arguments clock {S}. Arguments pcs {S}.
Arguments issued {S}. Arguments cancelled {S}. Arguments sent {S}.

Definition pc_of {S} (u : usys S) (w : nat) : pc := default Idle (pcs u !! w).

Section steps.
Context {S : Type} `{VK : Valkey doc S} (svc : Service) (wk : DispatchWorker).

Definition set_pc (u : usys S) (w : nat) (p : pc) (s : S) (snt : list string) : usys S :=
  mkSys s (clock u) (<[w := p]> (pcs u)) (issued u) (cancelled u) snt.

Inductive ustep : usys S -> ulabel -> usys S -> Prop :=
| step_hold u d id now wall i r s' :
    id ∉ issued u ->
    Hold d (clock u) svc (Some id) now wall i (store u) = (r, s') ->
    ustep u (LHold d id now wall i)
      (mkSys s' (clock u) (pcs u) ({[id]} ∪ issued u) (cancelled u) (sent u))
| step_cancel u d id tenant r s' :
    Cancel d (clock u) id tenant (store u) = (r, s') ->
    ustep u (LCancel d id tenant)
      (mkSys s' (clock u) (pcs u) (issued u)
         (if is_ok r then {[id]} ∪ cancelled u else cancelled u) (sent u))
| step_claim u w d id r s' :
    pc_of u w = Idle -> claim d (clock u) id (store u) = (r, s') ->
    ustep u (LClaim w d id)
      (set_pc u w (match r with Ok true => Claimed id | _ => Idle end) s' (sent u))
| step_read u w d id :
    pc_of u w = Claimed id ->
    ustep u (LRead w d)
      (set_pc u w (match readByID d (clock u) id (store u) with
                   | Ok ps => Holding (with_attempts ps (Attempts ps + 1))
                   | Err _ => Idle
                   end) (store u) (sent u))
| step_submit u w ps v :
    pc_of u w = Holding ps ->
    ustep u (LSubmit w v)
      (set_pc u w (match v with VAccept => Accepted ps | VRefuse e | VAcceptLost e => Refused ps e end)
         (store u)
         (match v with VRefuse _ => sent u | _ => ID ps :: sent u end))
| step_finish u w d ps :
    pc_of u w = Accepted ps ->
    ustep u (LFinish w d) (set_pc u w Idle (markDispatched d (clock u) (ID ps) (store u)) (sent u))
| step_handle u w d now wall ps err :
    pc_of u w = Refused ps err ->
    ustep u (LHandle w d now wall)
      (set_pc u w Idle (handleErr d (clock u) svc wk now wall ps err (store u)) (sent u))
| step_crash u w : ustep u (LCrash w) (set_pc u w Idle (store u) (sent u))
| step_time u sv :
    clock u <= sv ->
    ustep u (LTime sv) (mkSys (store u) sv (pcs u) (issued u) (cancelled u) (sent u)).

(** The submission whose delivery the worker is still responsible for. *)
Definition owned (p : pc) : option string :=
  match p with
  | Claimed id => Some id
  | Holding ps | Refused ps _ => Some (ID ps)
  | Idle | Accepted _ => None
  end.

(** One token per held submission: in the sorted set or with one worker;
    none once it is accepted or cancelled. *)
Record tokens_ok (u : usys S) (z : gmap string Z) : Prop := {
  t_zset : forall id, is_Some (z !! id) -> id ∈ issued u;
  t_owned : forall w id, owned (pc_of u w) = Some id -> id ∈ issued u /\ z !! id = None;
  t_unique : forall w w' id, owned (pc_of u w) = Some id -> owned (pc_of u w') = Some id -> w = w';
  t_sent : forall id, id ∈ sent u ->
    id ∈ issued u /\ z !! id = None /\ forall w, owned (pc_of u w) <> Some id;
  t_cancelled : forall id, id ∈ cancelled u ->
    id ∈ issued u /\ z !! id = None /\ (forall w, owned (pc_of u w) <> Some id) /\ id ∉ sent u;
  t_nodup : NoDup (sent u);
}.

Definition usys_ok (u : usys S) : Prop :=
  exists z l, queue_ok (clock u) (store u) z l /\ tokens_ok u z /\ (length l <= 1000)%nat.

Lemma pc_of_set u w p s snt w' :
  pc_of (set_pc u w p s snt) w' = if decide (w' = w) then p else pc_of u w'.
Proof.
  unfold pc_of, set_pc. simpl. case_decide; subst.
  - by rewrite lookup_insert_eq.
  - by rewrite lookup_insert_ne.
Qed.

(** A worker keeps or drops its token, members may leave the sorted set. *)
Lemma tokens_release u z z' w p s' :
  (forall id, is_Some (z' !! id) -> is_Some (z !! id)) ->
  owned p = None \/ owned p = owned (pc_of u w) ->
  tokens_ok u z -> tokens_ok (set_pc u w p s' (sent u)) z'.
Proof.
  intros Hz Hp [T1 T2 T3 T4 T5 T6].
  assert (forall w' id, owned (if decide (w' = w) then p else pc_of u w') = Some id ->
            owned (pc_of u w') = Some id) as Ho.
  { intros w' id. case_decide; [subst|done]. destruct Hp as [Hp|Hp]; rewrite Hp; done. }
  assert (forall id, z !! id = None -> z' !! id = None) as Hn.
  { intros id Hid. apply eq_None_not_Some. intros H%Hz. rewrite Hid in H. by destruct H. }
  split; simpl; try done.
  - intros id H. by apply T1, Hz.
  - intros w' id. rewrite pc_of_set. intros H%Ho. apply T2 in H as [? ?]. auto.
  - intros w1 w2 id. rewrite !pc_of_set. intros H1%Ho H2%Ho. by eapply T3.
  - intros id (? & ? & Hw)%T4. split_and!; auto. intros w'. rewrite pc_of_set.
    intros Hx%Ho. by eapply Hw.
  - intros id (? & ? & Hw & ?)%T5. split_and!; auto. intros w'. rewrite pc_of_set.
    intros Hx%Ho. by eapply Hw.
Qed.

(** A worker takes the token of a queued submission. *)
Lemma tokens_claim u z w id s' :
  is_Some (z !! id) -> tokens_ok u z ->
  tokens_ok (set_pc u w (Claimed id) s' (sent u)) (delete id z).
Proof.
  intros Hid [T1 T2 T3 T4 T5 T6].
  assert (forall w', owned (pc_of u w') <> Some id) as Hfree.
  { intros w' [_ Hn]%T2. rewrite Hn in Hid. by destruct Hid. }
  split; simpl; try done.
  - intros x. rewrite lookup_delete_is_Some. intros [_ H]. by apply T1.
  - intros w' x. rewrite pc_of_set. case_decide; simpl.
    + intros [= <-]. split; [by apply T1|apply lookup_delete_eq].
    + intros [Hp1 Hp2]%T2. split; [done|]. by apply lookup_delete_None; right.
  - intros w1 w2 x. rewrite !pc_of_set. do 2 case_decide; simpl; subst; try done.
    + intros [= <-] Hf. by apply Hfree in Hf.
    + intros Hf [= <-]. by apply Hfree in Hf.
    + apply T3.
  - intros x (Hp1 & Hx & Hw)%T4. split_and!; [done|by apply lookup_delete_None; right|].
    intros w'. rewrite pc_of_set. case_decide; simpl; [|done].
    intros [= <-]. rewrite Hx in Hid. by destruct Hid.
  - intros x (Hp1 & Hx & Hw & Hp4)%T5. split_and!; [done|by apply lookup_delete_None; right| |done].
    intros w'. rewrite pc_of_set. case_decide; simpl; [|done].
    intros [= <-]. rewrite Hx in Hid. by destruct Hid.
Qed.

(** A worker puts its token back. *)
Lemma tokens_requeue u z w id sc s' :
  owned (pc_of u w) = Some id -> tokens_ok u z ->
  tokens_ok (set_pc u w Idle s' (sent u)) (<[id := sc]> z).
Proof.
  intros Hid [T1 T2 T3 T4 T5 T6].
  destruct (T2 w id Hid) as [Hiss Hz].
  split; simpl; try done.
  - intros x. rewrite lookup_insert_is_Some. intros [->|[_ H]]; [done|by apply T1].
  - intros w' x. rewrite pc_of_set. case_decide; simpl; [done|]. intros Hx.
    destruct (T2 w' x Hx) as [Hp1 Hp2]. split; [done|]. rewrite lookup_insert_ne; [done|].
    intros ->. by apply (T3 w w' x) in Hid.
  - intros w1 w2 x. rewrite !pc_of_set. do 2 case_decide; simpl; try done. apply T3.
  - intros x (Hp1 & Hx & Hw)%T4. split_and!; [done| |].
    + rewrite lookup_insert_ne; [done|]. intros ->. by apply Hw in Hid.
    + intros w'. rewrite pc_of_set. by case_decide.
  - intros x (Hp1 & Hx & Hw & Hp4)%T5. split_and!; [done| | |done].
    + rewrite lookup_insert_ne; [done|]. intros ->. by apply Hw in Hid.
    + intros w'. rewrite pc_of_set. by case_decide.
Qed.

(** Stalwart accepts the submission of a worker that hears of it. *)
Lemma tokens_accept u z w ps s' :
  owned (pc_of u w) = Some (ID ps) -> tokens_ok u z ->
  tokens_ok (set_pc u w (Accepted ps) s' (ID ps :: sent u)) z.
Proof.
  intros Hid [T1 T2 T3 T4 T5 T6]. destruct (T2 w _ Hid) as [Hiss Hz].
  split; simpl; try done.
  - intros w' x. rewrite pc_of_set. case_decide; [done|]. apply T2.
  - intros w1 w2 x. rewrite !pc_of_set. do 2 case_decide; simpl; try done. apply T3.
  - intros x [->|Hx]%elem_of_cons.
    + split_and!; [done..|]. intros w'. rewrite pc_of_set. case_decide; [done|].
      intros Hw. by apply (T3 w' w) in Hid.
    + apply T4 in Hx as (Hp1 & Hp2 & Hw). split_and!; try done. intros w'. rewrite pc_of_set.
      by case_decide.
  - intros x (Hp1 & Hp2 & Hw & Hns)%T5. split_and!; try done.
    + intros w'. rewrite pc_of_set. by case_decide.
    + apply not_elem_of_cons. split; [|done]. intros ->. by apply Hw in Hid.
  - constructor; [|done]. intros (_ & _ & Hw)%T4. by apply Hw in Hid.
Qed.

(** A new id enters the queue, or is drawn and lost. *)
Lemma tokens_hold u z z' id s' :
  id ∉ issued u -> (forall x, x <> id -> z' !! x = z !! x) -> tokens_ok u z ->
  tokens_ok (mkSys s' (clock u) (pcs u) ({[id]} ∪ issued u) (cancelled u) (sent u)) z'.
Proof.
  intros Hid Hz [T1 T2 T3 T4 T5 T6].
  assert (forall x, x ∈ issued u -> z' !! x = z !! x) as Hz'.
  { intros x Hx. apply Hz. by intros ->. }
  split; simpl; try done.
  - intros x Hx. destruct (decide (x = id)) as [->|Hne]; [set_solver|].
    rewrite Hz in Hx by done. apply T1 in Hx. set_solver.
  - intros w x [Hp1 Hp2]%T2. rewrite Hz' by done. split; [set_solver|done].
  - intros x (Hp1 & Hp2 & Hp3)%T4. rewrite Hz' by done. split_and!; [set_solver|done..].
  - intros x (Hp1 & Hp2 & Hp3 & Hp4)%T5. rewrite Hz' by done. split_and!; [set_solver|done..].
Qed.

(** A cancel takes the token of a queued submission. *)
Lemma tokens_cancel u z id (ok : bool) s' :
  (ok = true -> is_Some (z !! id)) -> tokens_ok u z ->
  tokens_ok (mkSys s' (clock u) (pcs u) (issued u)
    (if ok then {[id]} ∪ cancelled u else cancelled u) (sent u)) (delete id z).
Proof.
  intros Hok [T1 T2 T3 T4 T5 T6].
  assert (forall x, z !! x = None -> delete id z !! x = None) as Hd
    by (intros x Hx; by apply lookup_delete_None; right).
  split; simpl; try done.
  - intros x. rewrite lookup_delete_is_Some. intros [_ H]. by apply T1.
  - intros w x [Hp1 Hp2]%T2. auto.
  - intros x (Hp1 & Hp2 & Hp3)%T4. auto.
  - intros x Hx. destruct (decide (x = id /\ ok = true)) as [[-> Ho]|Hn].
    + specialize (Hok Ho). split_and!; [by apply T1|apply lookup_delete_eq| |].
      * intros w [_ H]%T2. rewrite H in Hok. by destruct Hok.
      * intros (_ & H & _)%T4. rewrite H in Hok. by destruct Hok.
    + assert (x ∈ cancelled u) as Hc by (destruct ok; set_solver).
      apply T5 in Hc as (Hp1 & Hp2 & Hp3 & Hp4). auto.
Qed.

Lemma tokens_time u z sv :
  tokens_ok u z -> tokens_ok (mkSys (store u) sv (pcs u) (issued u) (cancelled u) (sent u)) z.
Proof. by intros [T1 T2 T3 T4 T5 T6]; split. Qed.
End steps.

Section safety.
Context {S : Type} `{VL : ValkeyLaws doc S} (svc : Service) (wk : DispatchWorker).
Implicit Types (s : S) (u : usys S).

Lemma Hold_effect d sv id now wall i s z l r s' :
  queue_ok sv s z l -> Hold d sv svc (Some id) now wall i s = (r, s') ->
  exists z', queue_ok sv s' z' l /\ forall x, x <> id -> z' !! x = z !! x.
Proof.
  intros Hq. unfold Hold. destruct (validateHold i); [|intros [= _ <-]; eauto].
  unfold write, remote. destruct d; intros [= _ <-]; [|by eauto|].
  all: eexists; split; [by apply put_pending_queue|].
  all: intros x Hx; by rewrite lookup_insert_ne.
Qed.

Lemma cancelLua_effect sv id tenant s z l :
  queue_ok sv s z l ->
  let r := cancelLua sv (companionKey id) sortedSetKey tenant id s in
  exists z', queue_ok sv r.2 z' l /\
    (z' = z \/ z' = delete id z) /\ (r.1 = CancelOk -> z' = delete id z /\ is_Some (z !! id)).
Proof.
  intros Hq r. unfold r, cancelLua. rewrite (get_companion _ _ _ _ _ Hq).
  destruct (vk_view s sv (companionKey id)) as [[[[| |ps]|?|?|?] e]|]; simpl;
    try (exists z; split_and!; [done|by left|done]).
  destruct (String.eqb (TenantID ps) tenant); simpl; [|exists z; split_and!; [done|by left|done]].
  destruct (zrem_queue sv s z l id Hq) as (Hq' & Hn & _).
  destruct (vk_zrem sv sortedSetKey id s) as [n s1]. simpl in *. subst n.
  destruct (z !! id) eqn:Ez; simpl.
  - exists (delete id z). split_and!; [by apply del_queue|by right|eauto].
  - exists (delete id z). split_and!; [done|by right|done].
Qed.

Lemma Cancel_effect d sv id tenant s z l r s' :
  queue_ok sv s z l -> Cancel d sv id tenant s = (r, s') ->
  exists z', queue_ok sv s' z' l /\ (z' = z \/ z' = delete id z) /\
    (is_ok r = true -> z' = delete id z /\ is_Some (z !! id)).
Proof.
  intros Hq. unfold Cancel.
  destruct (blank id); [intros [= <- <-]; exists z; split_and!; [done|by left|done]|].
  destruct (blank tenant); [intros [= <- <-]; exists z; split_and!; [done|by left|done]|].
  destruct (cancelLua_effect sv id tenant s z l Hq) as (z' & Hq' & Hz & Hok).
  unfold remote. destruct d.
  - destruct (cancelLua _ _ _ _ _ _) as [[] s1]; simpl in *; intros [= <- <-];
      exists z'; split_and!; auto; done.
  - intros [= <- <-]. exists z. split_and!; [done|by left|done].
  - destruct (cancelLua _ _ _ _ _ _) as [c s1]; simpl in *. intros [= <- <-].
    exists z'. split_and!; auto; done.
Qed.

Lemma claim_effect d sv id s z l r s' :
  queue_ok sv s z l -> claim d sv id s = (r, s') ->
  exists z', queue_ok sv s' z' l /\ (z' = z \/ z' = delete id z) /\
    (r = Ok true -> z' = delete id z /\ is_Some (z !! id)).
Proof.
  intros Hq. unfold claim, remote.
  destruct (zrem_queue sv s z l id Hq) as (Hq' & Hn & _).
  destruct (vk_zrem sv sortedSetKey id s) as [n s1]. simpl in *. subst n.
  destruct d; intros [= <- <-].
  - exists (delete id z). split_and!; [done|by right|].
    destruct (z !! id) eqn:Ez; simpl; [eauto|done].
  - exists z. split_and!; [done|by left|done].
  - exists (delete id z). split_and!; [done|by right|done].
Qed.

Lemma handleErr_effect d sv now wall ps err s z l :
  queue_ok sv s z l -> (length l <= 1000)%nat ->
  exists z' l', queue_ok sv (handleErr d sv svc wk now wall ps err s) z' l' /\
    (length l' <= 1000)%nat /\
    (z' = z \/ z' = <[ID ps := Unix (now + backoff (Attempts ps))]> z).
Proof.
  intros Hq Hl. unfold handleErr. destruct (maxAttempts wk <=? Attempts ps).
  - destruct d.
    + destruct (markFailed_queue sv ps err s z l Hq) as (f & _ & _ & _ & Hq' & _).
      exists z, (take 1000 (Doc f :: l)). split_and!; [done| |by left].
      rewrite length_take. lia.
    + exists z, l. split_and!; [done..|by left].
    + destruct (markFailed_queue sv ps err s z l Hq) as (f & _ & _ & _ & Hq' & _).
      exists z, (take 1000 (Doc f :: l)). split_and!; [done| |by left].
      rewrite length_take. lia.
  - unfold requeue, remote. destruct d; simpl.
    2:{ exists z, l. split_and!; [done..|by left]. }
    all: eexists _, l; split_and!; [by apply put_pending_queue|done|by right].
Qed.

(** Every step other than an acceptance whose reply is lost keeps the
    one-token discipline. *)
Lemma ustep_ok u e u' :
  usys_ok u -> ustep svc wk u e u' -> (forall w m, e <> LSubmit w (VAcceptLost m)) ->
  usys_ok u'.
Proof.
  intros (z & l & Hq & Ht & Hl) Hs Hrel. unfold usys_ok. destruct Hs; simpl.
  - destruct (Hold_effect _ _ _ _ _ _ _ _ _ _ _ Hq H0) as (z' & Hq' & Hz).
    exists z', l. split_and!; [done|by eapply tokens_hold|done].
  - destruct (Cancel_effect _ _ _ _ _ _ _ _ _ Hq H) as (z' & Hq' & [->| ->] & Hok).
    + exists z, l. split_and!; [done| |done]. destruct (is_ok r) eqn:Er.
      * destruct Hok as [Hz Hid]; [done|]. rewrite Hz.
        apply (tokens_cancel u z id true); [done|done].
      * by destruct Ht.
    + exists (delete id z), l. split_and!; [done| |done].
      apply (tokens_cancel u z id (is_ok r)); [intros Ho; by apply Hok in Ho as [_ ?]|done].
  - destruct (claim_effect _ _ _ _ _ _ _ _ Hq H0) as (z' & Hq' & Hz & Hok).
    exists z', l. split_and!; [done| |done]. destruct r as [[]|].
    + destruct Hok as [-> Hid]; [done|]. by apply tokens_claim.
    + apply (tokens_release u z); [|by left|done].
      destruct Hz as [->| ->]; [done|]. intros x. rewrite lookup_delete_is_Some. tauto.
    + apply (tokens_release u z); [|by left|done].
      destruct Hz as [->| ->]; [done|]. intros x. rewrite lookup_delete_is_Some. tauto.
  - exists z, l. split_and!; [done| |done]. apply (tokens_release u z); [done| |done].
    destruct (readByID d (clock u) id (store u)) as [ps|] eqn:Er; [|by left].
    right. simpl. rewrite H. simpl. f_equal. by eapply readByID_id.
  - exists z, l. split_and!; [done| |done]. destruct v as [|m|m].
    + apply tokens_accept; [by rewrite H|done].
    + apply (tokens_release u z); [done|right; by rewrite H|done].
    + by destruct (Hrel w m).
  - assert (queue_ok (clock u) (markDispatched d (clock u) (ID ps) (store u)) z l) as Hq'.
    { unfold markDispatched, remote. destruct d; simpl; [by apply del_queue|done|by apply del_queue]. }
    exists z, l. split_and!; [done| |done]. apply (tokens_release u z); [done|by left|done].
  - destruct (handleErr_effect d (clock u) now wall ps err (store u) z l Hq Hl)
      as (z' & l' & Hq' & Hl' & [->| ->]).
    + exists z, l'. split_and!; [done| |done]. apply (tokens_release u z); [done|by left|done].
    + eexists _, l'. split_and!; [done| |done]. apply tokens_requeue; [by rewrite H|done].
  - exists z, l. split_and!; [done| |done]. apply (tokens_release u z); [done|by left|done].
  - exists z, l. split_and!; [by eapply queue_time|by apply tokens_time|done].
Qed.

Definition usys_init (s : S) (sv : Z) : usys S := mkSys s sv ∅ ∅ ∅ [].

Lemma usys_init_ok s sv : (forall k, vk_view s sv k = None) -> usys_ok (usys_init s sv).
Proof.
  intros Hs. exists ∅, []. split; [|split; [|simpl; lia]].
  - split; intros; rewrite Hs in *; done.
  - split; simpl; [|done..| | |constructor]; try set_solver.
    intros id [x Hx]. by rewrite lookup_empty in Hx.
Qed.

Definition reliable (e : ulabel) : Prop := forall w m, e <> LSubmit w (VAcceptLost m).

Lemma usteps_ok u es u' :
  usys_ok u -> steps (ustep svc wk) u es u' -> Forall reliable es -> usys_ok u'.
Proof.
  intros Hu Hr. induction Hr; [done|]. intros [Hrel Hf]%Forall_cons. eauto using ustep_ok.
Qed.
End safety.

(** C1: undo send is safe.  However holds, cancels and any number of workers
    interleave, with calls and replies lost, workers crashing at any point
    and keys expiring, as long as workers learn of the acceptances of
    Stalwart: a submission is accepted at most once, and one whose Cancel
    returned nil is never accepted, before or after.  The dead-letter list
    stays within 1000 entries. *)
Theorem undo_send_safe {S : Type} `{VL : ValkeyLaws doc S} svc wk (s : S) sv es u :
  (forall k, vk_view s sv k = None) ->
  steps (ustep svc wk) (usys_init s sv) es u -> Forall reliable es ->
  NoDup (sent u) /\ (forall id, id ∈ cancelled u -> id ∉ sent u) /\
  exists l, vk_view (store u) (clock u) failedListKey = lentry l None /\ (length l <= 1000)%nat.
Proof.
  intros Hs Hr Hrel.
  destruct (usteps_ok svc wk _ es u (usys_init_ok s sv Hs) Hr Hrel) as (z & l & Hq & Ht & Hl).
  split_and!; [apply Ht|by intros id (_ & _ & _ & ?)%(t_cancelled _ _ Ht)|].
  exists l. split; [apply Hq|done].
Qed.

(** ** What a worker does with a due submission *)
Section worker_spec.
Context {S : Type} `{VL : ValkeyLaws doc S} (svc : Service) (wk : DispatchWorker).
Implicit Types (s : S) (ps : PendingSend).

Definition all_delivered (E : penv) : Prop :=
  e_claim E = Delivered /\ e_read E = Delivered /\ e_final E = Delivered.

(** [ps] is held: its deadline is queued and its document is live. *)
Definition held (sv : Z) s (z : gmap string Z) (id : string) ps : Prop :=
  is_Some (z !! id) /\ exists d, vk_view s sv (companionKey id) = Some (OStr (Doc ps), d).

Lemma process_claimed E id s z l ps :
  queue_ok (e_sv E) s z l -> e_claim E = Delivered -> held (e_sv E) s z id ps ->
  exists s1, claim (e_claim E) (e_sv E) id s = (Ok true, s1) /\
    queue_ok (e_sv E) s1 (delete id z) l /\
    (forall k, k <> sortedSetKey -> vk_view s1 (e_sv E) k = vk_view s (e_sv E) k) /\
    (e_read E = Delivered -> readByID (e_read E) (e_sv E) id s1 = Ok ps).
Proof.
  intros Hq Hd [Hid (d & Hdoc)]. rewrite Hd. unfold claim, remote.
  destruct (zrem_queue _ s z l id Hq) as (Hq' & Hn & Hv).
  destruct (vk_zrem (e_sv E) sortedSetKey id s) as [n s1]. simpl in *. subst n.
  destruct Hid as [sc Hsc]. rewrite Hsc. exists s1. split_and!; try done.
  intros ->. unfold readByID, remote. rewrite (get_companion _ _ _ _ _ Hq').
  by rewrite Hv, Hdoc.
Qed.

Definition attempt ps : PendingSend := with_attempts ps (Attempts ps + 1).

(** What an attempt leaves, by the answer to the submission. *)
Definition attempt_outcome E id s z l ps : Prop :=
  let s' := process svc wk E id s in
  match dispatch (attempt ps) (e_submit E) with
  | Ok _ => queue_ok (e_sv E) s' (delete id z) l /\ vk_view s' (e_sv E) (companionKey id) = None
  | Err NilMapPanic => queue_ok (e_sv E) s' (delete id z) l
  | Err e =>
      if maxAttempts wk <=? Attempts ps + 1 then
        exists f, ID f = id /\ Status f = StatusFailed /\ LastError f = error_text e /\
          queue_ok (e_sv E) s' (delete id z) (take 1000 (Doc f :: l)) /\
          vk_view s' (e_sv E) (companionKey id) = None
      else
        let next := e_now E + backoff (Attempts ps + 1) in
        queue_ok (e_sv E) s' (<[id := Unix next]> (delete id z)) l /\
        held (e_sv E) s' (<[id := Unix next]> (delete id z)) id (with_deadline (attempt ps) next)
  end.

Lemma process_attempt E id s z l ps :
  queue_ok (e_sv E) s z l -> all_delivered E -> held (e_sv E) s z id ps -> attempt_outcome E id s z l ps.
Proof.
  intros Hq (Hc & Hr & Hf) Hheld. unfold attempt_outcome. cbn zeta. unfold process.
  destruct (process_claimed E id s z l ps Hq Hc Hheld) as (s1 & -> & Hq1 & Hv1 & Hread).
  rewrite (Hread Hr). fold (attempt ps).
  assert (ID ps = id) as Hid.
  { destruct Hheld as [_ (d & Hdoc)]. by eapply (q_doc _ _ _ _ Hq). }
  destruct (dispatch (attempt ps) (e_submit E)) as [[]|e].
  - unfold markDispatched, remote. rewrite Hf. simpl. rewrite Hid. split; [by apply del_queue|].
    by rewrite law_del, on_key_eq.
  - assert (queue_ok (e_sv E) s1 (delete id z) l -> e <> NilMapPanic ->
      let s' := handleErr (e_final E) (e_sv E) svc wk (e_now E) (e_wall E) (attempt ps)
                  (error_text e) s1 in
      if maxAttempts wk <=? Attempts ps + 1 then
        exists f, ID f = id /\ Status f = StatusFailed /\ LastError f = error_text e /\
          queue_ok (e_sv E) s' (delete id z) (take 1000 (Doc f :: l)) /\
          vk_view s' (e_sv E) (companionKey id) = None
      else
        let next := e_now E + backoff (Attempts ps + 1) in
        queue_ok (e_sv E) s' (<[id := Unix next]> (delete id z)) l /\
        held (e_sv E) s' (<[id := Unix next]> (delete id z)) id (with_deadline (attempt ps) next))
      as Hh.
    { intros _ _. cbn zeta. unfold handleErr. rewrite Hf. simpl Attempts.
      destruct (maxAttempts wk <=? Attempts ps + 1).
      - destruct (markFailed_queue (e_sv E) (attempt ps) (error_text e) s1 _ l Hq1)
          as (f & F1 & F2 & F3 & Hq' & Hv'). exists f. rewrite F1. simpl ID.
        split_and!; try done. rewrite Hv' by done. simpl ID. rewrite Hid. by rewrite on_key_eq.
      - set (nx := e_now E + backoff (Attempts ps + 1)).
        pose proof (put_pending_queue (e_sv E) svc (e_wall E) (with_deadline (attempt ps) nx)
          s1 _ l Hq1) as Hq'.
        pose proof (put_pending_views (e_sv E) svc (e_wall E) (with_deadline (attempt ps) nx)
          s1 _ l Hq1 (companionKey id)) as Hv'.
        simpl ID in *. simpl DeadlineAt in *. rewrite Hid in *. split; [exact Hq'|].
        split; [rewrite lookup_insert_eq; by eexists|]. eexists.
        unfold requeue, remote. simpl snd. rewrite Hv', on_key_ne, on_key_eq by done. done. }
    by destruct e; try (apply Hh; done).
Qed.

(** One delivery attempt, on every branch.  With its calls delivered, a
    worker that processes a held submission removes it from the queue; when
    Stalwart accepts, the document goes too; when it refuses, the attempt is
    counted and the submission is either queued again after the back-off or,
    at the attempt limit, moved to the dead letters with the error. *)
Theorem process_outcomes E id s z l ps :
  queue_ok (e_sv E) s z l -> all_delivered E -> held (e_sv E) s z id ps ->
  let s' := process svc wk E id s in
  match dispatch (attempt ps) (e_submit E) with
  | Ok _ => queue_ok (e_sv E) s' (delete id z) l /\ vk_view s' (e_sv E) (companionKey id) = None
  | Err NilMapPanic => queue_ok (e_sv E) s' (delete id z) l
  | Err e =>
      if maxAttempts wk <=? Attempts ps + 1 then
        exists f, ID f = id /\ Status f = StatusFailed /\ LastError f = error_text e /\
          queue_ok (e_sv E) s' (delete id z) (take 1000 (Doc f :: l)) /\
          vk_view s' (e_sv E) (companionKey id) = None
      else
        let next := e_now E + backoff (Attempts ps + 1) in
        queue_ok (e_sv E) s' (<[id := Unix next]> (delete id z)) l /\
        held (e_sv E) s' (<[id := Unix next]> (delete id z)) id (with_deadline (attempt ps) next)
  end.
Proof. apply process_attempt. Qed.

Lemma process_other E id s z l ps id' :
  queue_ok (e_sv E) s z l -> all_delivered E -> held (e_sv E) s z id ps -> id' <> id ->
  dispatch (attempt ps) (e_submit E) = Ok tt ->
  vk_view (process svc wk E id s) (e_sv E) (companionKey id') = vk_view s (e_sv E) (companionKey id').
Proof.
  intros Hq (Hc & Hr & Hf) Hheld Hne Hok. unfold process.
  destruct (process_claimed E id s z l ps Hq Hc Hheld) as (s1 & -> & Hq1 & Hv1 & Hread).
  rewrite (Hread Hr). fold (attempt ps). rewrite Hok. unfold markDispatched, remote. rewrite Hf.
  simpl. assert (ID ps = id) as ->.
  { destruct Hheld as [_ (d & Hdoc)]. by eapply (q_doc _ _ _ _ Hq). }
  rewrite law_del, on_key_ne by (intros ?%companion_inj; done). by apply Hv1.
Qed.

Lemma process_list (E : string -> penv) sv ids s z l :
  queue_ok sv s z l -> NoDup ids ->
  (forall id, id ∈ ids -> all_delivered (E id) /\ e_sv (E id) = sv /\
     exists ps, held sv s z id ps /\ dispatch (attempt ps) (e_submit (E id)) = Ok tt) ->
  exists z', queue_ok sv (fold_left (fun s id => process svc wk (E id) id s) ids s) z' l /\
    forall id, z' !! id = if decide (id ∈ ids) then None else z !! id.
Proof.
  revert s z. induction ids as [|id ids IH]; intros s z Hq Hnd Hall; cbn [fold_left].
  { exists z. split; [done|]. intros id. by rewrite decide_False by apply not_elem_of_nil. }
  apply NoDup_cons in Hnd as [Hni Hnd].
  destruct (Hall id) as (Hd & Hsv & ps & Hheld & Hok); [by left|].
  pose proof (process_attempt (E id) id s z l ps) as Hp. unfold attempt_outcome in Hp. cbn zeta in Hp.
  rewrite Hok, Hsv in Hp. destruct (Hp Hq Hd Hheld) as [Hq1 _].
  destruct (IH _ _ Hq1 Hnd) as (z' & Hq' & Hz').
  - intros id' Hin. assert (id' <> id) as Hne by (by intros ->).
    destruct (Hall id') as (Hd' & Hsv' & ps' & [Hid' (dl & Hdoc)] & Hok'); [by right|].
    split_and!; try done. exists ps'. split; [|done]. split; [by rewrite lookup_delete_ne|].
    exists dl. pose proof (process_other (E id) id s z l ps id') as Ho. rewrite Hsv in Ho.
    by rewrite Ho.
  - exists z'. split; [done|]. intros x. rewrite Hz'. destruct (decide (x = id)) as [->|Hne].
    + rewrite (decide_True (P := id ∈ id :: ids)) by (by left). case_decide; [done|].
      apply lookup_delete_eq.
    + rewrite lookup_delete_ne by done. do 2 case_decide; try done; set_solver.
Qed.

(** A tick drains the queue.  When fewer submissions than the batch size
    are due, all their documents are live and Stalwart accepts them, one tick
    with its calls delivered leaves exactly the submissions whose deadline is
    still ahead. *)
Theorem tick_drains_due (E : string -> penv) sv now s z l :
  queue_ok sv s z l -> 0 < maxBatch wk ->
  Z.of_nat (size (filter (fun kv : string * Z => kv.2 <= Unix now) z)) < maxBatch wk ->
  (forall id sc, z !! id = Some sc -> sc <= Unix now ->
     all_delivered (E id) /\ e_sv (E id) = sv /\
     exists ps, held sv s z id ps /\ dispatch (attempt ps) (e_submit (E id)) = Ok tt) ->
  exists z', queue_ok sv (Tick svc wk Delivered sv now E s) z' l /\
    forall id sc, z' !! id = Some sc <-> z !! id = Some sc /\ Unix now < sc.
Proof.
  intros Hq Hb Hdue Hall. unfold Tick, dueIDs, remote. simpl.
  destruct (Z.leb_spec (maxBatch wk) 0); [lia|].
  set (ids := vk_zrange sv s sortedSetKey (Unix now) (maxBatch wk)).
  pose proof (queue_zset _ _ _ _ Hq) as Hz.
  assert (NoDup ids) as Hnd by (by eapply law_zrange_nodup).
  assert (forall id, id ∈ ids -> exists sc, z !! id = Some sc /\ sc <= Unix now) as Hin
    by (intros id; by apply law_zrange_elem).
  assert (Z.of_nat (length ids) < maxBatch wk) as Hlen.
  { eapply Z.le_lt_trans; [|exact Hdue]. apply inj_le.
    rewrite <- size_dom, <- (size_list_to_set (C := gset string) ids) by done.
    apply subseteq_size. intros id. rewrite elem_of_list_to_set, elem_of_dom.
    intros (sc & Hsc & Hle)%Hin. exists sc. by apply map_lookup_filter_Some. }
  destruct (process_list E sv ids s z l Hq Hnd) as (z' & Hq' & Hz').
  { intros id (sc & Hsc & Hle)%Hin. by eapply Hall. }
  exists z'. split; [done|]. intros id sc. rewrite Hz'. case_decide as Hid.
  - apply Hin in Hid as (sc' & Hsc & Hle). split; [done|]. intros [Hsc' Hlt].
    rewrite Hsc in Hsc'. injection Hsc' as ->. lia.
  - split; [|by intros [? _]]. intros Hsc. split; [done|].
    destruct (Z.le_gt_cases sc (Unix now)); [|lia]. destruct Hid.
    by eapply (law_zrange_all s sv sortedSetKey (Unix now) (maxBatch wk) z id sc).
Qed.
End worker_spec.

Section worker_faults.
Context {S : Type} `{VL : ValkeyLaws doc S} (svc : Service) (wk : DispatchWorker).
Implicit Types (s : S) (ps : PendingSend).

(** A read that fails after the claim strands the submission: its
    document is still in the store, but it has left the sorted set, so no
    later poll of the queue returns it and it is never sent. *)
Theorem read_fault_strands E id s z l ps :
  queue_ok (e_sv E) s z l -> e_claim E = Delivered -> e_read E <> Delivered ->
  held (e_sv E) s z id ps ->
  let s' := process svc wk E id s in
  (exists d, vk_view s' (e_sv E) (companionKey id) = Some (OStr (Doc ps), d)) /\
  forall sv now limit ids,
    e_sv E <= sv -> dueIDs Delivered sv now limit s' = Some ids -> id ∉ ids.
Proof.
  intros Hq Hc Hr Hheld. cbn zeta. unfold process.
  destruct (process_claimed E id s z l ps Hq Hc Hheld) as (s1 & -> & Hq1 & Hv1 & _).
  assert (readByID (e_read E) (e_sv E) id s1 = Err ErrStore) as ->
    by (unfold readByID, remote; by destruct (e_read E)).
  split.
  - destruct Hheld as [_ [d Hd]]. exists d. by rewrite Hv1.
  - intros sv now limit ids Hsv. unfold dueIDs, remote. intros [= <-] Hin.
    apply (queue_time _ sv) in Hq1; [|done].
    eapply law_zrange_elem in Hin as (sc & Hsc & _); [|by eapply queue_zset].
    by rewrite lookup_delete_eq in Hsc.
Qed.

Lemma dispatch_unreachable ps m msg :
  SubmissionPayload ps = PObject m ->
  dispatch ps (fun _ => DFail msg) = Err (TransportError msg).
Proof. intros H. unfold dispatch, buildSubmissionCreate. by rewrite H. Qed.

(** Attempts are bounded.  A submission whose every attempt fails is
    tried exactly [maxAttempts] times: after that many runs of [process] it
    is out of the queue and on top of the dead letters with the last error. *)
Theorem attempts_bounded E id n s z l ps m msg :
  queue_ok (e_sv E) s z l -> all_delivered E -> e_submit E = (fun _ => DFail msg) ->
  held (e_sv E) s z id ps -> SubmissionPayload ps = PObject m ->
  Attempts ps + Z.of_nat n + 1 = maxAttempts wk ->
  let s' := Nat.iter (1 + n) (process svc wk E id) s in
  exists f z', ID f = id /\ Status f = StatusFailed /\ LastError f = msg /\
    z' !! id = None /\ queue_ok (e_sv E) s' z' (take 1000 (Doc f :: l)) /\
    vk_view s' (e_sv E) (companionKey id) = None.
Proof.
  intros Hq Hd Hsub. cbn zeta. revert s z ps Hq.
  induction n as [|n IH]; intros s z ps Hq Hheld Hpay Hn.
  - pose proof (process_attempt svc wk E id s z l ps Hq Hd Hheld) as Hp. unfold attempt_outcome in Hp. cbn zeta in Hp.
    rewrite Hsub, (dispatch_unreachable (attempt ps) m msg Hpay) in Hp.
    destruct (Z.leb_spec (maxAttempts wk) (Attempts ps + 1)); [|lia].
    destruct Hp as (f & F1 & F2 & F3 & Hq' & Hv). exists f, (delete id z). simpl.
    split_and!; try done. apply lookup_delete_eq.
  - change (1 + Datatypes.S n)%nat with (Datatypes.S (1 + n)). rewrite Nat.iter_succ_r.
    pose proof (process_attempt svc wk E id s z l ps Hq Hd Hheld) as Hp. unfold attempt_outcome in Hp. cbn zeta in Hp.
    rewrite Hsub, (dispatch_unreachable (attempt ps) m msg Hpay) in Hp.
    destruct (Z.leb_spec (maxAttempts wk) (Attempts ps + 1)); [lia|].
    destruct Hp as [Hq' Hh']. eapply IH; [exact Hq'|exact Hh'|exact Hpay|]. simpl. lia.
Qed.
End worker_faults.

(** ** Runs on the reference store *)
Module UndoExamples.
Abbreviation rstore := (gmap string (ventry doc)).

Definition svc : Service := mkService (10 * Second) (300 * Second) (5 * Minute).
Definition wk : DispatchWorker := NewDispatchWorker 0 0 0.
Definition input : HoldInput := mkHold "acme" "bob" "acc" "submission" "e1" "" (PObject ∅).
Definition draft (id : string) (att : Z) : PendingSend :=
  mkPending id "acme" "bob" "acc" "submission" "e1" "" (PObject ∅) StatusPending 0 (10 * Second) att "".

Definition accept (_ : submission) : dreply := DResp None (Some "EmailSubmission/set"%string) [] "".

Definition env (sub : submission -> dreply) (rd : delivery) : penv :=
  mkEnv 11000 (11 * Second) (11 * Second) Delivered rd Delivered sub.

Definition one_held : rstore := (Hold Delivered 0 svc (Some "m1"%string) 0 0 input ∅).2.

Lemma one_held_ok : queue_ok 11000 one_held {["m1"%string := 10]} [].
Proof.
  apply (queue_time 0); [lia|].
  change {["m1"%string := 10]} with (<["m1"%string := 10]> (∅ : gmap string Z)).
  change one_held with (put_pending (S := rstore) 0 svc 0 (draft "m1" 0) ∅).
  apply (put_pending_queue (S := rstore) 0 svc 0 (draft "m1" 0) ∅ ∅ []). by split.
Qed.

Lemma one_held_held : held 11000 one_held {["m1"%string := 10]} "m1" (draft "m1" 0).
Proof. split; [by eexists|]. eexists. vm_compute. reflexivity. Qed.
End UndoExamples.

Import UndoExamples.

Lemma process_outcomes_witness :
  queue_ok 11000 (process svc wk (env accept Delivered) "m1" one_held) (delete "m1"%string {["m1"%string := 10]}) [] /\
  vk_view (process svc wk (env accept Delivered) "m1" one_held) 11000 (companionKey "m1") = None.
Proof.
  apply (process_outcomes svc wk (env accept Delivered) "m1" one_held {["m1"%string := 10]} []
    (draft "m1" 0)); [apply one_held_ok | by split_and! | apply one_held_held].
Defined.

Lemma tick_drains_due_witness :
  exists z', queue_ok 11000 (Tick svc wk Delivered 11000 (11 * Second)
                               (fun _ => env accept Delivered) one_held) z' [] /\
    forall id sc, z' !! id = Some sc <->
      ({["m1"%string := 10]} : gmap string Z) !! id = Some sc /\ Unix (11 * Second) < sc.
Proof.
  apply (tick_drains_due svc wk (fun _ => env accept Delivered) 11000 (11 * Second) one_held
    {["m1"%string := 10]} []); [apply one_held_ok | reflexivity | reflexivity |].
  intros id sc Hsc _. apply lookup_singleton_Some in Hsc as [<- _].
  split_and!; try done. exists (draft "m1" 0). split; [apply one_held_held|reflexivity].
Defined.

Lemma read_fault_strands_witness :
  (exists d, vk_view (process svc wk (env accept RequestLost) "m1" one_held) 11000
     (companionKey "m1") = Some (OStr (Doc (draft "m1" 0)), d)) /\
  forall sv now limit ids, 11000 <= sv ->
    dueIDs Delivered sv now limit (process svc wk (env accept RequestLost) "m1" one_held) = Some ids ->
    "m1"%string ∉ ids.
Proof.
  apply (read_fault_strands svc wk (env accept RequestLost) "m1" one_held {["m1"%string := 10]} []
    (draft "m1" 0)); [apply one_held_ok | reflexivity | discriminate | apply one_held_held].
Defined.

Lemma attempts_bounded_witness :
  let s' := Nat.iter 3 (process svc wk (env (fun _ => DFail "down") Delivered) "m1") one_held in
  exists f z', ID f = "m1"%string /\ Status f = StatusFailed /\ LastError f = "down"%string /\
    z' !! "m1"%string = None /\ queue_ok 11000 s' z' (take 1000 [Doc f]) /\
    vk_view s' 11000 (companionKey "m1") = None.
Proof.
  apply (attempts_bounded svc wk (env (fun _ => DFail "down") Delivered) "m1" 2 one_held
    {["m1"%string := 10]} [] (draft "m1" 0) ∅ "down");
    [apply one_held_ok | by split_and! | reflexivity | apply one_held_held | reflexivity
    | reflexivity].
Defined.

(** ** Running the interleaved system

    [ustep_run] executes one label, [None] where the label is not enabled. *)
Section run.
Context {S : Type} `{VK : Valkey doc S} (sv : Service) (w0 : DispatchWorker).

Definition ustep_run (u : usys S) (e : ulabel) : option (usys S) :=
  match e with
  | LHold d id now wall i =>
      if decide (id ∈ issued u) then None else
      Some (mkSys (Hold d (clock u) sv (Some id) now wall i (store u)).2
              (clock u) (pcs u) ({[id]} ∪ issued u) (cancelled u) (sent u))
  | LCancel d id tenant =>
      let '(r, s') := Cancel d (clock u) id tenant (store u) in
      Some (mkSys s' (clock u) (pcs u) (issued u)
              (if is_ok r then {[id]} ∪ cancelled u else cancelled u) (sent u))
  | LClaim w d id =>
      match pc_of u w with
      | Idle => let '(r, s') := claim d (clock u) id (store u) in
          Some (set_pc u w (match r with Ok true => Claimed id | _ => Idle end) s' (sent u))
      | _ => None
      end
  | LRead w d =>
      match pc_of u w with
      | Claimed id =>
          Some (set_pc u w (match readByID d (clock u) id (store u) with
                            | Ok ps => Holding (with_attempts ps (Attempts ps + 1))
                            | Err _ => Idle
                            end) (store u) (sent u))
      | _ => None
      end
  | LSubmit w v =>
      match pc_of u w with
      | Holding ps =>
          Some (set_pc u w (match v with
                            | VAccept => Accepted ps
                            | VRefuse e | VAcceptLost e => Refused ps e
                            end) (store u)
                  (match v with VRefuse _ => sent u | _ => ID ps :: sent u end))
      | _ => None
      end
  | LFinish w d =>
      match pc_of u w with
      | Accepted ps => Some (set_pc u w Idle (markDispatched d (clock u) (ID ps) (store u)) (sent u))
      | _ => None
      end
  | LHandle w d now wall =>
      match pc_of u w with
      | Refused ps err =>
          Some (set_pc u w Idle (handleErr d (clock u) sv w0 now wall ps err (store u)) (sent u))
      | _ => None
      end
  | LCrash w => Some (set_pc u w Idle (store u) (sent u))
  | LTime t =>
      if decide (clock u <= t)
      then Some (mkSys (store u) t (pcs u) (issued u) (cancelled u) (sent u)) else None
  end.

Lemma ustep_run_sound u e u' : ustep_run u e = Some u' -> ustep sv w0 u e u'.
Proof.
  destruct e; simpl; intros H.
  - case_decide as Hid; [done|]. injection H as <-. eapply step_hold; [done|]. apply surjective_pairing.
  - destruct (Cancel _ _ _ _ _) as [r s'] eqn:E. injection H as <-. by apply step_cancel.
  - destruct (pc_of u w) eqn:Ew; try done. destruct (claim _ _ _ _) as [r s'] eqn:E.
    injection H as <-. by apply step_claim.
  - destruct (pc_of u w) eqn:Ew; try done. injection H as <-. by apply step_read.
  - destruct (pc_of u w) eqn:Ew; try done. injection H as <-. by apply step_submit.
  - destruct (pc_of u w) eqn:Ew; try done. injection H as <-. by apply step_finish.
  - destruct (pc_of u w) eqn:Ew; try done. injection H as <-. by apply step_handle.
  - injection H as <-. apply step_crash.
  - case_decide; [|done]. injection H as <-. by apply step_time.
Qed.

Definition usteps_run (u : usys S) (es : list ulabel) : option (usys S) :=
  foldl (fun o e => u ← o; ustep_run u e) (Some u) es.

Lemma usteps_run_none es :
  foldl (fun o e => u ← o; ustep_run u e) None es = None.
Proof. by induction es. Qed.

Lemma usteps_run_sound es : forall u u',
  usteps_run u es = Some u' -> steps (ustep sv w0) u es u'.
Proof.
  induction es as [|e es IH]; intros u u' H; [injection H as ->; constructor|].
  unfold usteps_run in H. simpl in H. destruct (ustep_run u e) as [u1|] eqn:E; simpl in H.
  - econstructor; [by apply ustep_run_sound|by apply IH].
  - by rewrite usteps_run_none in H.
Qed.
End run.

(** Two submissions are held; the second is cancelled, the first goes out. *)
Definition calm_run : list ulabel :=
  [LHold Delivered "m1" 0 0 input; LHold Delivered "m2" 0 0 input;
   LCancel Delivered "m2" "acme"; LTime 11000; LClaim 0 Delivered "m1"; LClaim 1 ReplyLost "m2";
   LRead 0 Delivered; LSubmit 0 VAccept; LFinish 0 Delivered; LCancel Delivered "m1" "acme"].

(** Stalwart accepts the first attempt but the answer is lost; the worker
    requeues, the user cancels. *)
Definition ambiguous_run : list ulabel :=
  [LHold Delivered "m1" 0 0 input; LTime 11000; LClaim 0 Delivered "m1"; LRead 0 Delivered;
   LSubmit 0 (VAcceptLost "timeout"); LHandle 0 Delivered (11 * Second) (11 * Second);
   LCancel Delivered "m1" "acme"].

Definition after (es : list ulabel) : usys rstore :=
  default (usys_init ∅ 0) (usteps_run svc wk (usys_init (∅ : rstore) 0) es).

Lemma undo_send_safe_witness :
  sent (after calm_run) = ["m1"%string] /\ "m2"%string ∈ cancelled (after calm_run) /\
  NoDup (sent (after calm_run)) /\
  (forall id, id ∈ cancelled (after calm_run) -> id ∉ sent (after calm_run)) /\
  exists l, vk_view (store (after calm_run)) (clock (after calm_run)) failedListKey = lentry l None /\
    (length l <= 1000)%nat.
Proof.
  split; [vm_compute; reflexivity|]. split; [apply (bool_decide_unpack _); vm_compute; exact I|].
  apply (undo_send_safe svc wk (∅ : rstore) 0 calm_run (after calm_run)).
  - reflexivity.
  - apply usteps_run_sound. vm_compute. reflexivity.
  - by repeat constructor.
Defined.

(** Reliability of the acceptance is needed.  When Stalwart accepts but
    its answer is lost, [handleErr] requeues the submission, so a later
    Cancel returns nil although the mail is out. *)
Theorem ambiguous_acceptance_cancelled :
  exists es (u : usys rstore), steps (ustep svc wk) (usys_init ∅ 0) es u /\
    "m1"%string ∈ sent u /\ "m1"%string ∈ cancelled u.
Proof.
  exists ambiguous_run, (after ambiguous_run). split; [|split].
  - apply usteps_run_sound. vm_compute. reflexivity.
  - apply (bool_decide_unpack _). vm_compute. exact I.
  - apply (bool_decide_unpack _). vm_compute. exact I.
Qed.
