(* ===== verification/ScheduledSend.v ===== *)
(** * Scheduled send ([internal/scheduledsend/service.go], [worker.go])

    Submissions held in PostgreSQL until their time.  The table is a map from
    ids to rows; every service method is one transaction on it.  The worker
    claims a due row by pushing its [next_retry_at] forward (the lease),
    submits it to Stalwart outside the transaction and records the outcome.
    [sstep] interleaves clients and workers at those points.  Identifiers are
    UUIDs in PostgreSQL's own text; columns hold whole microseconds. *)

From S2P Require Import Prelude Submission.

Local Open Scope Z_scope.
Local Open Scope go_scope.

Inductive status := StatusPending | StatusSent | StatusCancelled | StatusFailed.

#[export] Instance status_eq_dec : EqDecision status.
Proof. solve_decision. Defined.

Definition DefaultMaxAttempts : Z := 5.
Definition MinScheduleHorizon : Z := Minute.
Definition MaxScheduleHorizon : Z := 365 * 24 * Hour.
Definition DispatchLeaseInterval : Z := 5 * Minute.

Inductive serror :=
| ErrNotFound | ErrAlreadyDispatched | ErrAlreadyCancelled | ErrInvalidSchedule | ErrTenantMismatch
| MissingField (name : string) | ErrStore | ErrUnexpectedStatus (st : status)
| ErrPoolRequired | ErrServiceRequired | ErrInternalRequired.

(** The bytes of [SubmissionPayload], by what the [jsonb] column and
    [json.Unmarshal] make of them. *)
Inductive payload :=
| PEmpty                        (* no bytes *)
| PNotJSON (err : string)       (* refused by the column *)
| PNotObject (err : string)     (* another JSON value: the decoder's message *)
| PNull                         (* decodes to a nil map *)
| PObject (m : gmap string jval).

Record ScheduledSend := mkScheduled {
  ID : string;
  TenantID : string;
  KChatUserID : string;
  StalwartAccountID : string;
  EmailID : string;
  IdentityID : string;
  SubmissionPayload : payload;
  SendAt : Z;
  Status : status;
  Attempts : Z;
  LastError : string;
  NextRetryAt : Z;
  SentAt : option Z;
  CreatedAt : Z;
  UpdatedAt : Z;
}.

Definition set_status (st : status) (sent : option Z) (err : string) (r : ScheduledSend) : ScheduledSend :=
  mkScheduled (ID r) (TenantID r) (KChatUserID r) (StalwartAccountID r) (EmailID r) (IdentityID r) (SubmissionPayload r)
    (SendAt r) st (Attempts r) err (NextRetryAt r) sent (CreatedAt r) (UpdatedAt r).
Definition set_retry (attempts : Z) (err : string) (next : Z) (r : ScheduledSend) : ScheduledSend :=
  mkScheduled (ID r) (TenantID r) (KChatUserID r) (StalwartAccountID r) (EmailID r) (IdentityID r) (SubmissionPayload r)
    (SendAt r) (Status r) attempts err next (SentAt r) (CreatedAt r) (UpdatedAt r).
(** The trigger [scheduled_sends_set_updated_at]. *)
Definition touch (now : Z) (r : ScheduledSend) : ScheduledSend :=
  mkScheduled (ID r) (TenantID r) (KChatUserID r) (StalwartAccountID r) (EmailID r) (IdentityID r) (SubmissionPayload r)
    (SendAt r) (Status r) (Attempts r) (LastError r) (NextRetryAt r) (SentAt r) (CreatedAt r) now.

Record DB := mkDB { tenants : gset string; rows : gmap string ScheduledSend }.

Definition with_rows (x : gmap string ScheduledSend) (s : DB) : DB := mkDB (tenants s) x.

(** [UPDATE ... SET f WHERE id = $1 AND p]; [now] is the transaction's time. *)
Definition update_row (now : Z) (id : string) (p : ScheduledSend -> bool) (f : ScheduledSend -> ScheduledSend) (s : DB)
    : Z * DB :=
  match rows s !! id with
  | Some r => if p r then (1, with_rows (<[id := touch now (f r)]> (rows s)) s) else (0, s)
  | None => (0, s)
  end.

Definition query {A} (d : delivery) (f : DB -> result serror A) (s : DB) : result serror A :=
  match d with Delivered => f s | _ => Err ErrStore end.

(** A single statement outside a transaction. *)
Definition exec (d : delivery) (f : DB -> Z * DB) (s : DB) : result serror unit * DB :=
  BeginFunc ErrStore d (fun s => let '(_, s') := f s in Ok (tt, s')) s.

(** ** Service *)
Definition NewService (pool : bool) : result serror unit := if pool then Ok tt else Err ErrPoolRequired.

Record ScheduleInput := mkInput {
  iTenantID : string; iKChatUserID : string; iStalwartAccountID : string; iEmailID : string; iIdentityID : string;
  iSubmissionPayload : payload; iSendAt : Z;
}.

Definition validateSchedule (now : Z) (i : ScheduleInput) : result serror unit :=
  if blank (iTenantID i) then Err (MissingField "TenantID")
  else if blank (iKChatUserID i) then Err (MissingField "KChatUserID")
  else if blank (iStalwartAccountID i) then Err (MissingField "StalwartAccountID")
  else if blank (iEmailID i) then Err (MissingField "EmailID")
  else if blank (iIdentityID i) then Err (MissingField "IdentityID")
  else match iSubmissionPayload i with
  | PEmpty => Err (MissingField "SubmissionPayload")
  | _ =>
      if iSendAt i =? zeroTime then Err ErrInvalidSchedule
      else
        let horizon := Sub (iSendAt i) now in
        if horizon <? MinScheduleHorizon then Err ErrInvalidSchedule
        else if MaxScheduleHorizon <? horizon then Err ErrInvalidSchedule
        else Ok tt
  end.

(** [id] is the UUID the database generates, [dbnow] its clock. *)
Definition Schedule (d : delivery) (now dbnow : Z) (id : string) (i : ScheduleInput) (s : DB) : result serror ScheduledSend * DB :=
  match validateSchedule now i with
  | Err e => (Err e, s)
  | Ok _ =>
      BeginFunc ErrStore d (fun s =>
        if negb (bool_decide (iTenantID i ∈ tenants s)) then Err ErrStore
        else match iSubmissionPayload i with
        | PNotJSON _ => Err ErrStore
        | p =>
            if bool_decide (is_Some (rows s !! id)) then Err ErrStore
            else
              let at_ := micro (iSendAt i) in
              let r := mkScheduled id (iTenantID i) (iKChatUserID i) (iStalwartAccountID i) (iEmailID i) (iIdentityID i) p
                         at_ StatusPending 0 "" at_ None dbnow dbnow in
              Ok (r, with_rows (<[id := r]> (rows s)) s)
        end) s
  end.

Definition owned (tenantID kchatUserID : string) (r : ScheduledSend) : bool :=
  String.eqb (TenantID r) tenantID && String.eqb (KChatUserID r) kchatUserID.

Definition Get (d : delivery) (tenantID kchatUserID id : string) (s : DB) : result serror ScheduledSend :=
  if blank tenantID then Err (MissingField "tenantID")
  else if blank kchatUserID then Err (MissingField "kchatUserID")
  else if blank id then Err ErrNotFound
  else
    let? r := query d (fun s =>
      match rows s !! id with
      | Some r => if owned tenantID kchatUserID r then Ok r else Err ErrNotFound
      | None => Err ErrNotFound
      end) s in
    if negb (String.eqb (TenantID r) tenantID) then Err ErrTenantMismatch else Ok r.

(** [newest_first] is [ORDER BY created_at DESC]. *)
Definition ListByUser (newest_first : list ScheduledSend -> list ScheduledSend) (d : delivery) (tenantID kchatUserID : string)
    (s : DB) : result serror (list ScheduledSend) :=
  if blank tenantID then Err (MissingField "tenantID")
  else if blank kchatUserID then Err (MissingField "kchatUserID")
  else query d (fun s =>
    Ok (take 500 (newest_first (filter (fun r => owned tenantID kchatUserID r = true) (map_to_list (rows s)).*2)))) s.

Definition pending (r : ScheduledSend) : bool := bool_decide (Status r = StatusPending).

Definition Cancel (d : delivery) (dbnow : Z) (tenantID kchatUserID id : string) (s : DB) : result serror unit * DB :=
  if blank tenantID then (Err (MissingField "tenantID"), s)
  else if blank kchatUserID then (Err (MissingField "kchatUserID"), s)
  else if blank id then (Err ErrNotFound, s)
  else BeginFunc ErrStore d (fun s =>
    let '(n, s') := update_row dbnow id (fun r => owned tenantID kchatUserID r && pending r)
                      (fun r => set_status StatusCancelled (SentAt r) (LastError r) r) s in
    if n =? 1 then Ok (tt, s')
    else match rows s' !! id with
    | None => Err ErrNotFound
    | Some r =>
        if negb (String.eqb (TenantID r) tenantID) then Err ErrTenantMismatch
        else if negb (String.eqb (KChatUserID r) kchatUserID) then Err ErrNotFound
        else match Status r with
        | StatusCancelled => Err ErrAlreadyCancelled
        | StatusSent | StatusFailed => Err ErrAlreadyDispatched
        | st => Err (ErrUnexpectedStatus st)
        end
    end) s.

Definition due (dbnow : Z) (r : ScheduledSend) : bool :=
  pending r && (SendAt r <=? dbnow) && (NextRetryAt r <=? dbnow).

Definition earliest (l : list ScheduledSend) : option ScheduledSend := least SendAt l.

(** [locked] are the rows concurrent transactions hold, which the claim skips. *)
Definition claimDue (d : delivery) (now dbnow : Z) (locked : gset string) (s : DB) : result serror ScheduledSend * DB :=
  let leaseUntil := now + DispatchLeaseInterval in
  BeginFunc ErrStore d (fun s =>
    match earliest (filter (fun r => due dbnow r = true /\ ID r ∉ locked) (map_to_list (rows s)).*2) with
    | None => Err ErrNotFound
    | Some r =>
        if 2 ^ 31 <=? Attempts r + 1 then Err ErrStore
        else
          let '(_, s') := update_row dbnow (ID r) (fun _ => true)
                            (fun r => set_retry (Attempts r + 1) (LastError r) (micro leaseUntil) r) s in
          Ok (set_retry (Attempts r + 1) (LastError r) leaseUntil r, s')
    end) s.

Definition markDispatched (d : delivery) (dbnow : Z) (id : string) (sentAt : Z) (s : DB) : result serror unit * DB :=
  exec d (update_row dbnow id pending (set_status StatusSent (Some (micro sentAt)) "")) s.

Definition markFailed (d : delivery) (dbnow : Z) (id lastErr : string) (s : DB) : result serror unit * DB :=
  exec d (update_row dbnow id pending (fun r => set_status StatusFailed (SentAt r) lastErr r)) s.

Definition scheduleRetry (d : delivery) (dbnow : Z) (id : string) (nextRetryAt : Z) (lastErr : string) (s : DB)
    : result serror unit * DB :=
  exec d (update_row dbnow id pending (fun r => set_retry (Attempts r) lastErr (micro nextRetryAt) r)) s.

(** ** Worker *)
Record DispatchWorker := mkWorker { interval : Z; maxBatch : Z; maxAttempts : Z }.

Definition NewDispatchWorker (service internal : bool) (iv mb ma : Z) : result serror DispatchWorker :=
  if negb service then Err ErrServiceRequired
  else if negb internal then Err ErrInternalRequired
  else Ok (mkWorker (if iv <=? 0 then 15 * Second else iv) (if mb <=? 0 then 50 else mb)
             (if ma <=? 0 then DefaultMaxAttempts else ma)).

Inductive derror :=
| EmptyPayload | PayloadDecode (msg : string) | NilMapPanic
| TransportError (msg : string) | MethodError (msg : string) | MissingResponse | Rejected (key typ desc : string).

Definition submissionCreateKey (ss : ScheduledSend) : string := "submission".

Definition buildSubmissionCreate (ss : ScheduledSend) : result derror (gmap string jval) :=
  match SubmissionPayload ss with
  | PEmpty => Err EmptyPayload
  | PNotJSON e | PNotObject e => Err (PayloadDecode e)
  | PNull => Err NilMapPanic
  | PObject m =>
      let m := <["emailId"%string := JText (EmailID ss)]> m in
      Ok (if negb (blank (IdentityID ss)) then <["identityId"%string := JText (IdentityID ss)]> m else m)
  end.

Definition dispatch (ss : ScheduledSend) (submit : submission -> dreply) : result derror unit :=
  match buildSubmissionCreate ss with
  | Err e => Err e
  | Ok create =>
      let createKey := submissionCreateKey ss in
      match submit (mkSubmission (StalwartAccountID ss) createKey create ("#" +:+ createKey)) with
      | DFail e => Err (TransportError e)
      | DResp (Some e) _ _ _ => Err (MethodError e)
      | DResp None call0 notCreated _ =>
          if negb (match call0 with Some n => String.eqb n "EmailSubmission/set" | None => false end) then Err MissingResponse
          else match notCreated with
               | (k, (typ, desc)) :: _ => Err (Rejected k typ desc)
               | [] => Ok tt
               end
      end
  end.

Definition error_text (e : derror) : string :=
  match e with
  | EmptyPayload => "build submission create: scheduledsend: empty submission payload"
  | PayloadDecode m => "build submission create: decode submission payload: " +:+ m
  | NilMapPanic => "assignment to entry in nil map"
  | TransportError m => m
  | MethodError m => m
  | MissingResponse => "scheduledsend: missing EmailSubmission/set in response"
  | Rejected k t d => "stalwart rejected submission " +:+ k +:+ ": " +:+ t +:+ ": " +:+ d
  end.

Definition backoffs : list Z := [1 * Minute; 5 * Minute; 30 * Minute; 30 * Minute; 30 * Minute].

Definition backoff (attempts : Z) : Z :=
  let idx := attempts - 1 in
  let idx := if idx <? 0 then 0 else idx in
  let idx := if Z.of_nat (length backoffs) <=? idx then Z.of_nat (length backoffs) - 1 else idx in
  default 0 (backoffs !! Z.to_nat idx).

Definition handleErr (d : delivery) (w : DispatchWorker) (now dbnow : Z) (ss : ScheduledSend) (dispatchErr : string) (s : DB) : DB :=
  if maxAttempts w <=? Attempts ss then (markFailed d dbnow (ID ss) dispatchErr s).2
  else (scheduleRetry d dbnow (ID ss) (now + backoff (Attempts ss)) dispatchErr s).2.

(** The surroundings of one iteration: the two transactions, the clocks at the
    claim and at the end, the rows locked by others and Stalwart. *)
Record env := mkEnv {
  e_claim : delivery; e_now : Z; e_db : Z; e_locked : gset string;
  e_submit : submission -> dreply; e_final : delivery; e_now' : Z; e_db' : Z;
}.

(** What ends an iteration: [Panicked] takes the worker's process down. *)
Inductive outcome := More | Drained | ClaimFailed (e : serror) | Panicked.

(** After the answer of the submission. *)
Definition conclude (w : DispatchWorker) (d : delivery) (now dbnow : Z) (ss : ScheduledSend) (r : result derror unit) (s : DB)
    : outcome * DB :=
  match r with
  | Err NilMapPanic => (Panicked, s)
  | Err e => (More, handleErr d w now dbnow ss (error_text e) s)
  | Ok _ => (More, (markDispatched d dbnow (ID ss) now s).2)
  end.

Definition dispatchOne (w : DispatchWorker) (E : env) (s : DB) : outcome * DB :=
  let '(c, s) := claimDue (e_claim E) (e_now E) (e_db E) (e_locked E) s in
  match c with
  | Err ErrNotFound => (Drained, s)
  | Err e => (ClaimFailed e, s)
  | Ok ss => conclude w (e_final E) (e_now' E) (e_db' E) ss (dispatch ss (e_submit E)) s
  end.

(** One environment per iteration, at most [maxBatch] of them. *)
Fixpoint drain (w : DispatchWorker) (Es : list env) (s : DB) : outcome * DB :=
  match Es with
  | [] => (More, s)
  | E :: Es =>
      let '(o, s') := dispatchOne w E s in
      match o with More => drain w Es s' | _ => (o, s') end
  end.

Definition Tick (w : DispatchWorker) (Es : nat -> env) (s : DB) : outcome * DB :=
  drain w (Es <$> seq 0 (Z.to_nat (maxBatch w))) s.

(** ** Interleavings

    A worker is idle, about to submit a row it claimed, or has the answer. *)
Inductive wpc := Idle | Submitting (ss : ScheduledSend) | Answered (ss : ScheduledSend) (r : result derror unit).

(** [accepted] lists the rows Stalwart took, once per acceptance. *)
Record sys := mkSys { table : DB; clock : Z; pc : nat -> wpc; accepted : list string }.

Inductive event :=
| EvTime (t : Z)
| EvSchedule (d : delivery) (now : Z) (id : string) (i : ScheduleInput)
| EvCancel (d : delivery) (t u id : string) (r : result serror unit)
| EvClaim (w : nat) (d : delivery) (now : Z) (locked : gset string)
| EvSubmit (w : nat) (submit : submission -> dreply) (took : bool)
| EvFinish (w : nat) (d : delivery) (now : Z)
| EvCrash (w : nat).

Definition with_table (x : DB) (s : sys) : sys := mkSys x (clock s) (pc s) (accepted s).
Definition with_pc (w : nat) (p : wpc) (s : sys) : sys :=
  mkSys (table s) (clock s) (fun w' => if decide (w' = w) then p else pc s w') (accepted s).

Section system.
Context (cfg : DispatchWorker).

Inductive sstep : sys -> event -> sys -> Prop :=
| step_time s t : clock s <= t -> sstep s (EvTime t) (mkSys (table s) t (pc s) (accepted s))
| step_schedule s d now id i :
    sstep s (EvSchedule d now id i) (with_table (Schedule d now (clock s) id i (table s)).2 s)
| step_cancel s d t u id :
    sstep s (EvCancel d t u id (Cancel d (clock s) t u id (table s)).1) (with_table (Cancel d (clock s) t u id (table s)).2 s)
| step_claim s w d now locked c x :
    pc s w = Idle -> claimDue d now (clock s) locked (table s) = (c, x) ->
    sstep s (EvClaim w d now locked)
      (with_table x (match c with Ok ss => with_pc w (Submitting ss) s | Err _ => s end))
| step_submit s w submit took ss :
    pc s w = Submitting ss ->
    sstep s (EvSubmit w submit took)
      (let s' := with_pc w (Answered ss (dispatch ss submit)) s in
       mkSys (table s') (clock s') (pc s') (if took : bool then ID ss :: accepted s else accepted s))
| step_finish s w d now ss r :
    pc s w = Answered ss r ->
    sstep s (EvFinish w d now) (with_table (conclude cfg d now (clock s) ss r (table s)).2 (with_pc w Idle s))
| step_crash s w : sstep s (EvCrash w) (with_pc w Idle s).
End system.

(** The row a worker is responsible for. *)
Definition holding (p : wpc) : option ScheduledSend :=
  match p with Idle => None | Submitting ss | Answered ss _ => Some ss end.

(** Assumptions under which nothing is sent twice: workers finish within
    their lease, clocks differ by less than it, Stalwart's acceptances are
    known and recorded. *)
Definition timely (s : sys) (e : event) : Prop :=
  match e with
  | EvTime t => forall w ss, holding (pc s w) = Some ss -> t < micro (NextRetryAt ss)
  | EvClaim w d now locked => clock s < micro (now + DispatchLeaseInterval)
  | EvSubmit w submit took => forall ss, pc s w = Submitting ss -> took = is_ok (dispatch ss submit)
  | EvFinish w d now => forall ss, pc s w = Answered ss (Ok tt) -> d = Delivered
  | EvCrash w => forall ss, pc s w <> Answered ss (Ok tt)
  | _ => True
  end.

(** ** The table *)
Definition db_ok (s : DB) : Prop := forall id r, rows s !! id = Some r -> ID r = id.

(** What a transaction may do to the rows: settled ones stay as they are. *)
Definition advances (s s' : DB) : Prop :=
  forall id r, rows s !! id = Some r ->
    exists r', rows s' !! id = Some r' /\ ID r' = ID r /\ (Status r <> StatusPending -> r' = r).

#[export] Instance advances_refl : Reflexive advances.
Proof. intros s id r Hr. by exists r. Qed.

#[export] Instance advances_trans : Transitive advances.
Proof.
  intros s1 s2 s3 H1 H2 id r Hr. destruct (H1 _ _ Hr) as (r2 & Hr2 & Hid2 & He2). destruct (H2 _ _ Hr2) as (r3 & Hr3 & Hid3 & He3).
  exists r3. split_and!; [done|congruence|]. intros Hp. rewrite (He2 Hp) in *. by apply He3.
Qed.

(** What every operation keeps, and which row it may touch. *)
Definition touches (id : string) (s s' : DB) : Prop :=
  advances s s' /\ (db_ok s -> db_ok s') /\ forall id', id' <> id -> rows s' !! id' = rows s !! id'.

Lemma touches_refl id s : touches id s s.
Proof. by split_and!. Qed.
#[local] Hint Resolve touches_refl : kmail.

Lemma touches_insert id r r' s :
  rows s !! id = Some r -> Status r = StatusPending -> ID r' = ID r -> touches id s (with_rows (<[id := r']> (rows s)) s).
Proof.
  intros Hr Hp Hid. split_and!.
  - intros k x Hx. cbn. destruct (decide (k = id)) as [->|Hne].
    + rewrite lookup_insert_eq. exists r'. simplify_eq. by split_and!.
    + rewrite lookup_insert_ne by done. by exists x.
  - intros Hok k x. cbn. destruct (decide (k = id)) as [->|Hne].
    + rewrite lookup_insert_eq. intros [= <-]. rewrite Hid. by apply Hok.
    + rewrite lookup_insert_ne by done. apply Hok.
  - intros k Hne. cbn. by rewrite lookup_insert_ne.
Qed.

Lemma update_row_touches now id p f s :
  (forall r, p r = true -> Status r = StatusPending) -> (forall r, ID (f r) = ID r) ->
  touches id s (update_row now id p f s).2.
Proof.
  intros Hp Hf. unfold update_row. destruct (rows s !! id) as [r|] eqn:E; [|apply touches_refl].
  destruct (p r) eqn:Ep; [|apply touches_refl]. apply (touches_insert id r); [done|by apply Hp|apply Hf].
Qed.

Lemma pending_status r : pending r = true <-> Status r = StatusPending.
Proof. apply bool_decide_eq_true. Qed.

Lemma exec_touches d id f s : touches id s (f s).2 -> touches id s (exec d f s).2.
Proof.
  intros H. unfold exec. apply BeginFunc_ind; [apply touches_refl|]. intros a s'. destruct (f s) as [n x]. by intros [= <- <-].
Qed.

Lemma mark_touches d dbnow w now ss e s : touches (ID ss) s (handleErr d w now dbnow ss e s).
Proof.
  unfold handleErr, markFailed, scheduleRetry.
  destruct (_ <=? _); apply exec_touches, update_row_touches; done || apply pending_status.
Qed.

Lemma conclude_touches w d now dbnow ss r s : touches (ID ss) s (conclude w d now dbnow ss r s).2.
Proof.
  unfold conclude. destruct r as [[]|[]]; try apply mark_touches; [|apply touches_refl].
  apply exec_touches, update_row_touches; [apply pending_status|done].
Qed.

Lemma Cancel_touches d dbnow t u id s : touches id s (Cancel d dbnow t u id s).2.
Proof.
  unfold Cancel. repeat (case_match; [apply touches_refl|]). apply BeginFunc_ind; [apply touches_refl|]. intros a s'.
  pose proof (update_row_touches dbnow id (fun r => owned t u r && pending r)
    (fun r => set_status StatusCancelled (SentAt r) (LastError r) r) s) as Hu.
  destruct (update_row _ _ _ _ s) as [n x]. destruct (n =? 1).
  - intros [= <- <-]. apply Hu; [|done]. intros r [_ Hr]%andb_prop. by apply pending_status.
  - intros E. by repeat case_match.
Qed.

Lemma Schedule_spec d now dbnow id i s :
  (Schedule d now dbnow id i s).2 = s \/
  rows s !! id = None /\ exists r, ID r = id /\ Status r = StatusPending /\ (Schedule d now dbnow id i s).2 = with_rows (<[id := r]> (rows s)) s.
Proof.
  unfold Schedule. destruct (validateSchedule now i); [|by left].
  apply (BeginFunc_ind (fun s' => s' = s \/ rows s !! id = None /\ exists r, ID r = id /\ Status r = StatusPending /\ s' = with_rows (<[id := r]> (rows s)) s)); [by left|].
  intros r s'. case_match; [done|]. destruct (bool_decide (is_Some _)) eqn:E; [by repeat case_match|].
  apply bool_decide_eq_false in E. apply eq_None_not_Some in E.
  intros Ho. right. split; [done|]. repeat case_match; simplify_eq; eexists; split_and!; try reflexivity; done.
Qed.

Lemma Schedule_advances d now dbnow id i s :
  let s' := (Schedule d now dbnow id i s).2 in advances s s' /\ (db_ok s -> db_ok s').
Proof.
  cbn zeta. destruct (Schedule_spec d now dbnow id i s) as [->|(Hn & r & Hid & _ & ->)]; [done|]. split.
  - intros k x Hx. exists x. cbn. rewrite lookup_insert_ne by (by intros ->; rewrite Hn in Hx). done.
  - intros Hok k x. cbn. destruct (decide (k = id)) as [->|Hne].
    + rewrite lookup_insert_eq. by intros [= <-].
    + rewrite lookup_insert_ne by done. apply Hok.
Qed.

Lemma elem_rows s r : db_ok s -> r ∈ (map_to_list (rows s)).*2 <-> rows s !! ID r = Some r.
Proof.
  intros Hok. rewrite list_elem_of_fmap. split.
  - intros ([k x] & -> & Hx%elem_of_map_to_list). cbn. by rewrite (Hok _ _ Hx).
  - intros Hr. exists (ID r, r). split; [done|]. by apply elem_of_map_to_list.
Qed.

Definition leased (now dbnow : Z) (r : ScheduledSend) : ScheduledSend :=
  touch dbnow (set_retry (Attempts r + 1) (LastError r) (micro (now + DispatchLeaseInterval)) r).

(** The rows a claim chooses from. *)
Definition candidate (dbnow : Z) (locked : gset string) (s : DB) (r : ScheduledSend) : Prop :=
  rows s !! ID r = Some r /\ due dbnow r = true /\ ID r ∉ locked.

Lemma earliest_candidate dbnow locked s :
  db_ok s ->
  match earliest (filter (fun r => due dbnow r = true /\ ID r ∉ locked) (map_to_list (rows s)).*2) with
  | Some r => candidate dbnow locked s r /\ forall r', candidate dbnow locked s r' -> SendAt r <= SendAt r'
  | None => forall r, ~ candidate dbnow locked s r
  end.
Proof.
  intros Hok. set (l := filter _ _).
  assert (forall r, r ∈ l <-> candidate dbnow locked s r) as Hl.
  { intros r. unfold l, candidate. rewrite list_elem_of_filter, (elem_rows s r Hok). tauto. }
  pose proof (least_spec SendAt l) as He. fold (earliest l) in He. destruct (earliest l) as [r|].
  - destruct He as [Hin Hmin]. split; [by apply Hl|]. intros r' Hr'. by apply Hmin, Hl.
  - intros r Hr%Hl. rewrite He in Hr. by apply not_elem_of_nil in Hr.
Qed.

Lemma lease_row now dbnow s r :
  rows s !! ID r = Some r ->
  update_row dbnow (ID r) (fun _ => true) (fun r => set_retry (Attempts r + 1) (LastError r) (micro (now + DispatchLeaseInterval)) r) s
  = (1, with_rows (<[ID r := leased now dbnow r]> (rows s)) s).
Proof. intros Hr. unfold update_row. by rewrite Hr. Qed.

(** The row as the worker sees it. *)
Definition claimed (now : Z) (r : ScheduledSend) : ScheduledSend :=
  set_retry (Attempts r + 1) (LastError r) (now + DispatchLeaseInterval) r.

Lemma claimDue_cases d now dbnow locked s :
  db_ok s ->
  let '(c, s') := claimDue d now dbnow locked s in
  (s' = s /\ (forall ss, c <> Ok ss)) \/
  exists r, candidate dbnow locked s r /\ s' = with_rows (<[ID r := leased now dbnow r]> (rows s)) s /\
    (c = Err ErrStore \/ c = Ok (claimed now r)).
Proof.
  intros Hok. unfold claimDue. pose proof (earliest_candidate dbnow locked s Hok) as He. unfold BeginFunc.
  destruct (earliest _) as [r|]; [|destruct d; by left]. destruct He as [Hin _]. rewrite lease_row by apply Hin.
  destruct (_ <=? _); destruct d; try (by left); right; exists r; (split; [done|]); (split; [done|]); by (left + right).
Qed.

Lemma claimDue_delivered now dbnow locked s :
  db_ok s -> (forall r, candidate dbnow locked s r -> Attempts r + 1 < 2 ^ 31) ->
  match claimDue Delivered now dbnow locked s with
  | (Ok ss, s') => exists r, candidate dbnow locked s r /\ (forall r', candidate dbnow locked s r' -> SendAt r <= SendAt r') /\
      ss = claimed now r /\ s' = with_rows (<[ID r := leased now dbnow r]> (rows s)) s
  | (Err e, s') => e = ErrNotFound /\ s' = s /\ forall r, ~ candidate dbnow locked s r
  end.
Proof.
  intros Hok Hatt. unfold claimDue. pose proof (earliest_candidate dbnow locked s Hok) as He. unfold BeginFunc.
  destruct (earliest _) as [r|]; [|done]. destruct He as [Hin Hmin]. rewrite lease_row by apply Hin.
  rewrite (proj2 (Z.leb_gt _ _)) by (by apply Hatt). by exists r.
Qed.

Lemma claimDue_touches d now dbnow locked s :
  db_ok s -> exists id, touches id s (claimDue d now dbnow locked s).2.
Proof.
  intros Hok. pose proof (claimDue_cases d now dbnow locked s Hok) as H. destruct (claimDue _ _ _ _ _) as [c s'].
  destruct H as [[-> _]|(r & (Hr & Hdue & _) & -> & _)]; [exists ""%string; apply touches_refl|].
  exists (ID r). unfold due in Hdue. breflect. apply (touches_insert _ r); [done|by apply pending_status|done].
Qed.

(** ** Runs *)
Section runs.
Context (cfg : DispatchWorker).
Implicit Types (s : sys).

Lemma sstep_advances s e s' :
  db_ok (table s) -> sstep cfg s e s' -> advances (table s) (table s') /\ db_ok (table s').
Proof.
  intros Hok Hs. inversion Hs; subst; cbn [table with_table with_pc]; try done.
  - destruct (Schedule_advances d now (clock s) id i (table s)) as [Ha Hb]. auto.
  - destruct (Cancel_touches d (clock s) t u id (table s)) as (Ha & Hb & _). auto.
  - destruct (claimDue_touches d now (clock s) locked (table s) Hok) as (id & Ha & Hb & _). rewrite H0 in *. auto.
  - destruct (conclude_touches cfg d now (clock s) ss r (table s)) as (Ha & Hb & _). auto.
Qed.

Lemma holding_claim s w d now locked c x w' ss :
  db_ok (table s) -> claimDue d now (clock s) locked (table s) = (c, x) ->
  holding (pc (match c with Ok ss => with_pc w (Submitting ss) s | Err _ => s end) w') = Some ss ->
  holding (pc s w') = Some ss \/
  w' = w /\ c = Ok ss /\ exists r, candidate (clock s) locked (table s) r /\ ID ss = ID r /\
    NextRetryAt ss = now + DispatchLeaseInterval /\ x = with_rows (<[ID r := leased now (clock s) r]> (rows (table s))) (table s).
Proof.
  intros Hok Hc Hh. pose proof (claimDue_cases d now (clock s) locked (table s) Hok) as H. rewrite Hc in H.
  destruct c as [ss'|]; [|by left]. cbn in Hh. case_decide; [subst w'|by left]. right. injection Hh as ->. split_and!; [done|done|].
  destruct H as [[_ Hno]|(r & Hr & -> & [Hx|Hx])]; [by destruct (Hno ss)|done|]. injection Hx as ->. by exists r.
Qed.

(** Who can hold a row that is no longer pending: only who held it before. *)
Lemma sstep_settled s e s' id :
  db_ok (table s) -> sstep cfg s e s' ->
  (exists r, rows (table s) !! id = Some r /\ Status r <> StatusPending) ->
  (forall w ss, holding (pc s' w) = Some ss -> ID ss = id -> holding (pc s w) = Some ss) /\
  ((forall w ss, holding (pc s w) = Some ss -> ID ss <> id) -> filter (eq id) (accepted s') = filter (eq id) (accepted s)).
Proof.
  intros Hok Hs (r & Hr & Hst). inversion Hs; subst; cbn [pc with_table with_pc accepted]; try (split; done).
  - split; [|by destruct c]. intros w' ss Hh Hid.
    assert (holding (pc (match c with Ok ss => with_pc w (Submitting ss) s | Err _ => s end) w') = Some ss) as Hh' by (by destruct c).
    destruct (holding_claim _ _ _ _ _ _ _ _ _ Hok H0 Hh') as [?|(-> & _ & r' & (Hr' & Hdue & _) & Hid' & _)]; [done|].
    unfold due in Hdue. breflect. apply pending_status in H1. rewrite <- Hid', Hid in Hr'. by simplify_eq.
  - split.
    + intros w' ss'. case_decide; [subst w'|done]. intros [= <-] _. by rewrite H.
    + intros Hno. assert (ID ss <> id) as Hne by (apply (Hno w); by rewrite H).
      destruct took; [|done]. rewrite filter_cons_False by congruence. done.
  - split; [|done]. intros w' ss'. by case_decide.
  - split; [|done]. intros w' ss'. by case_decide.
Qed.

Lemma Cancel_ok d dbnow t u id x :
  (Cancel d dbnow t u id x).1 = Ok tt ->
  exists r, rows (Cancel d dbnow t u id x).2 !! id = Some r /\ Status r = StatusCancelled.
Proof.
  unfold Cancel. repeat (case_match; [done|]). unfold BeginFunc, update_row. intros Hc.
  destruct (rows x !! id) as [r|] eqn:Hr; [|cbn in Hc; rewrite Hr in Hc; by destruct d].
  destruct (owned t u r && pending r).
  - destruct d; try done. cbn. rewrite lookup_insert_eq. by eexists.
  - cbn in Hc. rewrite Hr in Hc. destruct d; repeat case_match; done.
Qed.

(** What stays true of a cancelled row. *)
Definition cancelled_since (id : string) s0 s : Prop :=
  (exists r, rows (table s) !! id = Some r /\ Status r = StatusCancelled) /\
  (forall w ss, holding (pc s w) = Some ss -> ID ss = id -> holding (pc s0 w) = Some ss) /\
  ((forall w ss, holding (pc s0 w) = Some ss -> ID ss <> id) -> filter (eq id) (accepted s) = filter (eq id) (accepted s0)).

Lemma sstep_cancelled id s0 s e s' :
  db_ok (table s) /\ cancelled_since id s0 s -> sstep cfg s e s' -> db_ok (table s') /\ cancelled_since id s0 s'.
Proof.
  intros (Hok & (r & Hr & Hst) & Hh & Ha) Hs. destruct (sstep_advances _ _ _ Hok Hs) as [Hadv Hok'].
  destruct (sstep_settled s e s' id Hok Hs) as [Hh' Ha']; [exists r; by rewrite Hst|].
  destruct (Hadv _ _ Hr) as (r' & Hr' & _ & He). rewrite He in Hr' by (by rewrite Hst). split; [done|]. split_and!.
  - by exists r.
  - intros w ss H1 H2. eauto.
  - intros Hno. rewrite Ha' by (intros w ss H1 H2; exact (Hno w ss (Hh _ _ H1 H2) H2)). auto.
Qed.

(** Cancelling is final, for any interleaving and any faults: once Cancel
    has returned nil the row stays cancelled, no worker claims it any more,
    and unless a worker was already at it Stalwart never accepts it. *)
Theorem cancel_is_final s0 s1 s2 d t u id es :
  db_ok (table s0) -> sstep cfg s0 (EvCancel d t u id (Ok tt)) s1 -> steps (sstep cfg) s1 es s2 ->
  (exists r, rows (table s2) !! id = Some r /\ Status r = StatusCancelled) /\
  (forall w ss, holding (pc s2 w) = Some ss -> ID ss = id -> holding (pc s0 w) = Some ss) /\
  ((forall w ss, holding (pc s0 w) = Some ss -> ID ss <> id) -> filter (eq id) (accepted s2) = filter (eq id) (accepted s0)).
Proof.
  intros Hok Hc Hrun.
  apply (steps_invariant (sstep cfg) (fun s => db_ok (table s) /\ cancelled_since id s0 s) s1 es s2); [apply sstep_cancelled| |done].
  destruct (sstep_advances _ _ _ Hok Hc) as [_ Hok1]. split; [done|]. inversion Hc; subst. split_and!; [|done|done].
  cbn [table with_table]. by apply Cancel_ok.
Qed.

(** ** Sending once *)

(** No two workers are at one row; a pending row someone is at is leased; what
    was accepted is settled or about to be. *)
Record once s : Prop := mkOnce {
  o_ok : db_ok (table s);
  o_lease : forall w ss, holding (pc s w) = Some ss ->
    exists r, rows (table s) !! ID ss = Some r /\
      (Status r = StatusPending -> NextRetryAt r = micro (NextRetryAt ss) /\ clock s < NextRetryAt r);
  o_unique : forall w w' ss ss', holding (pc s w) = Some ss -> holding (pc s w') = Some ss' -> ID ss = ID ss' -> w = w';
  o_settled : forall id, id ∈ accepted s ->
    exists r, rows (table s) !! id = Some r /\
      (Status r = StatusPending -> exists w ss, pc s w = Answered ss (Ok tt) /\ ID ss = id);
  o_fresh : forall w ss, pc s w = Submitting ss -> ID ss ∉ accepted s;
  o_nodup : NoDup (accepted s);
}.

Lemma advances_lookup x x' id r r' :
  advances x x' -> rows x !! id = Some r -> rows x' !! id = Some r' -> Status r' = StatusPending -> Status r = StatusPending.
Proof.
  intros Ha Hr Hr' Hp. destruct (Ha _ _ Hr) as (y & Hy & _ & He). destruct (decide (Status r = StatusPending)) as [|Hn]; [done|].
  rewrite (He Hn) in Hy. by simplify_eq.
Qed.

(** Steps that only change the table, and keep the leases of held rows. *)
Lemma once_table s x :
  once s -> db_ok x -> advances (table s) x ->
  (forall w ss, holding (pc s w) = Some ss -> rows x !! ID ss = rows (table s) !! ID ss \/
     exists r, rows x !! ID ss = Some r /\ Status r <> StatusPending) ->
  once (with_table x s).
Proof.
  intros [Hok Hl Hu Hs Hf Hn] Hx Ha Hkeep. split; cbn [table pc clock accepted with_table]; try done.
  - intros w ss Hh. destruct (Hl w ss Hh) as (r & Hr & Hp). destruct (Hkeep w ss Hh) as [->|(r' & Hr' & Hst)]; [by exists r|].
    by exists r'.
  - intros id Hid. destruct (Hs id Hid) as (r & Hr & Hp). destruct (Ha _ _ Hr) as (r' & Hr' & _). exists r'. split; [done|].
    intros Hst. apply Hp. by eapply advances_lookup.
Qed.

Lemma once_idle s w :
  once s -> (forall ss, pc s w = Answered ss (Ok tt) -> forall r, rows (table s) !! ID ss = Some r -> Status r <> StatusPending) ->
  once (with_pc w Idle s).
Proof.
  intros [Hok Hl Hu Hs Hf Hn] Hw.
  assert (forall w' ss, holding (if decide (w' = w) then Idle else pc s w') = Some ss -> w' <> w /\ holding (pc s w') = Some ss) as Hh.
  { intros w' ss. by case_decide. }
  split; cbn [table pc clock accepted with_pc]; try done.
  - intros w' ss [_ H]%Hh. eauto.
  - intros w1 w2 ss1 ss2 [_ H1]%Hh [_ H2]%Hh. eauto.
  - intros id Hid. destruct (Hs id Hid) as (r & Hr & Hp). exists r. split; [done|]. intros Hst.
    destruct (Hp Hst) as (w' & ss & Ha & <-). exists w', ss. rewrite decide_False; [done|].
    intros ->. by apply (Hw ss Ha r Hr).
  - intros w' ss. case_decide; [done|]. apply Hf.
Qed.

Lemma Cancel_row d dbnow t u id x :
  rows (Cancel d dbnow t u id x).2 !! id = rows x !! id \/
  exists r, rows (Cancel d dbnow t u id x).2 !! id = Some r /\ Status r <> StatusPending.
Proof.
  unfold Cancel. repeat (case_match; [by left|]).
  apply (BeginFunc_ind (fun y => rows y !! id = rows x !! id \/ exists r, rows y !! id = Some r /\ Status r <> StatusPending)); [by left|].
  intros a s'. unfold update_row. destruct (rows x !! id) as [r|] eqn:Hr; [destruct (owned t u r && pending r)|].
  - intros [= <- <-]. right. cbn. rewrite lookup_insert_eq. by eexists.
  - cbn. rewrite Hr. intros Ho. by repeat case_match.
  - cbn. rewrite Hr. done.
Qed.

Lemma markDispatched_row dbnow id sentAt x r :
  rows (markDispatched Delivered dbnow id sentAt x).2 !! id = Some r -> Status r <> StatusPending.
Proof.
  unfold markDispatched, exec, BeginFunc, update_row. destruct (rows x !! id) as [y|] eqn:Hy; [destruct (pending y) eqn:Hp|]; cbn.
  - rewrite lookup_insert_eq. by intros [= <-].
  - rewrite Hy. intros [= <-]. intros Hst%pending_status. by rewrite Hst in Hp.
  - by rewrite Hy.
Qed.

(** A row that can be claimed is nobody's. *)
Lemma candidate_free s locked r w ss :
  once s -> candidate (clock s) locked (table s) r -> holding (pc s w) = Some ss -> ID ss <> ID r.
Proof.
  intros Ho (Hr & Hdue & _) Hh Hid. destruct (o_lease _ Ho w ss Hh) as (r' & Hr' & Hp). rewrite Hid, Hr in Hr'. simplify_eq.
  unfold due in Hdue. breflect. apply pending_status in H. specialize (Hp H). lia.
Qed.

Lemma once_claim s w d now locked c x :
  once s -> clock s < micro (now + DispatchLeaseInterval) -> pc s w = Idle ->
  claimDue d now (clock s) locked (table s) = (c, x) ->
  once (with_table x (match c with Ok ss => with_pc w (Submitting ss) s | Err _ => s end)).
Proof.
  intros Ho Hclk Hpc Hc. pose proof (claimDue_cases d now (clock s) locked (table s) (o_ok _ Ho)) as Hcs. rewrite Hc in Hcs.
  destruct Hcs as [[-> Hno]|(r & Hcand & -> & Hres)]; [destruct c; [by destruct (Hno a)|by destruct s]|].
  set (x := with_rows _ _). pose proof Hcand as (Hr & Hdue & _). unfold due in Hdue. breflect. apply pending_status in H.
  destruct (touches_insert (ID r) r (leased now (clock s) r) (table s) Hr H eq_refl) as (Ha & Hb & Hf).
  assert (once (with_table x s)) as Ho'.
  { apply once_table; [done|by apply Hb, Ho|done|]. intros w' ss Hh. left. apply Hf. by eapply candidate_free. }
  destruct Hres as [->| ->]; [done|]. set (ss := claimed now r).
  assert (ID ss ∉ accepted s) as Hfresh.
  { intros Hin. destruct (o_settled _ Ho (ID ss) Hin) as (r' & Hr' & Hp). change (ID ss) with (ID r) in Hr'. assert (r' = r) as -> by congruence.
    destruct (Hp H) as (w' & ss' & Hw' & Hid). apply (candidate_free s locked r w' ss' Ho Hcand); [by rewrite Hw'|done]. }
  assert (forall w' ss', holding (if decide (w' = w) then Submitting ss else pc s w') = Some ss' ->
    w' = w /\ ss' = ss \/ holding (pc s w') = Some ss' /\ ID ss' <> ID ss) as Hh.
  { intros w' ss'. case_decide; [intros [= <-]; by left|]. intros Hx. right. split; [done|]. by apply (candidate_free s locked r w'). }
  destruct Ho' as [Hok Hl Hu Hs Hfr Hn]. split; cbn [table pc clock accepted with_table with_pc] in *; try done.
  - intros w' ss' [[-> ->]|[Hx _]]%Hh; [|eauto]. exists (leased now (clock s) r). split; [apply lookup_insert_eq|]. intros _.
    by split.
  - intros w1 w2 ss1 ss2 [[-> ->]|[HA NA]]%Hh [[-> ->]|[HB NB]]%Hh Hid; [done|by destruct NB|done|]. by eapply Hu.
  - intros id Hid. destruct (Hs id Hid) as (r' & Hr' & Hp). exists r'. split; [done|]. intros Hst.
    destruct (Hp Hst) as (w' & ss' & Hw' & Hid'). exists w', ss'. rewrite decide_False; [done|]. intros ->. by rewrite Hpc in Hw'.
  - intros w' ss'. case_decide; [intros [= <-]; done|]. apply Hfr.
Qed.

Lemma once_submit s w ss r :
  once s -> pc s w = Submitting ss ->
  once (mkSys (table s) (clock s) (fun w' => if decide (w' = w) then Answered ss r else pc s w')
          (if is_ok r then ID ss :: accepted s else accepted s)).
Proof.
  intros [Hok Hl Hu Hs Hf Hn] Hw.
  assert (forall w' ss', holding (if decide (w' = w) then Answered ss r else pc s w') = Some ss' -> holding (pc s w') = Some ss') as Hh.
  { intros w' ss'. case_decide; [subst w'; by rewrite Hw|done]. }
  split; cbn [table pc clock accepted]; try done.
  - intros w' ss' H%Hh. eauto.
  - intros w1 w2 ss1 ss2 H1%Hh H2%Hh. eauto.
  - intros id Hid. assert (id = ID ss /\ is_ok r = true \/ id ∈ accepted s) as [[-> Hr]|Hin] by (destruct (is_ok r); set_solver).
    + destruct (Hl w ss) as (y & Hy & _); [by rewrite Hw|]. exists y. split; [done|]. intros _. exists w, ss.
      rewrite decide_True by done. by destruct r as [[]|].
    + destruct (Hs id Hin) as (y & Hy & Hp). exists y. split; [done|]. intros Hst. destruct (Hp Hst) as (w' & ss' & Hw' & Hid').
      exists w', ss'. rewrite decide_False; [done|]. intros ->. by rewrite Hw in Hw'.
  - intros w' ss'. case_decide as Hd; [done|]. intros Hw' Hin.
    assert (ID ss' = ID ss \/ ID ss' ∈ accepted s) as [He|Hin'] by (destruct (is_ok r); set_solver); [|by apply (Hf w' ss')].
    apply Hd, (Hu w' w ss' ss); [by rewrite Hw'|by rewrite Hw|done].
  - destruct (is_ok r); [|done]. constructor; [by apply (Hf w)|done].
Qed.

Lemma once_finish s w d now ss r :
  once s -> pc s w = Answered ss r -> (r = Ok tt -> d = Delivered) ->
  once (with_table (conclude cfg d now (clock s) ss r (table s)).2 (with_pc w Idle s)).
Proof.
  intros Ho Hw Hd. destruct (conclude_touches cfg d now (clock s) ss r (table s)) as (Ha & Hb & Hf).
  destruct r as [[]|e].
  - rewrite Hd in * by done. cbn [conclude snd] in *. set (x := (markDispatched _ _ _ _ _).2) in *.
    assert (forall r, rows x !! ID ss = Some r -> Status r <> StatusPending) as Hx by (intros y; apply markDispatched_row).
    change (once (with_pc w Idle (with_table x s))). apply once_idle.
    + apply once_table; [done|by apply Hb, Ho|done|]. intros w' ss' Hh. destruct (decide (ID ss' = ID ss)) as [He|He]; [|left; by apply Hf].
      right. rewrite He. destruct (o_lease _ Ho w ss) as (y & Hy & _); [by rewrite Hw|].
      destruct (Ha _ _ Hy) as (y' & Hy' & _). exists y'. split; [done|]. by apply Hx.
    + cbn. intros ss' Hw' y Hy. rewrite Hw in Hw'. simplify_eq. by apply Hx.
  - apply once_table.
    + apply once_idle; [done|]. intros ss' Hw'. by rewrite Hw in Hw'.
    + by apply Hb, Ho.
    + done.
    + cbn. intros w' ss' Hh. left. apply Hf. case_decide as He; [done|]. intros Hid. apply He, (o_unique _ Ho w' w ss' ss); [done|by rewrite Hw|done].
Qed.

Lemma once_step s e s' : once s -> sstep cfg s e s' /\ timely s e -> once s'.
Proof.
  intros Ho [Hs Ht]. inversion Hs; subst; cbn [timely] in Ht.
  - destruct Ho as [Hok Hl Hu Hse Hf Hn]. split; cbn [table pc clock accepted]; try done.
    intros w ss Hh. destruct (Hl w ss Hh) as (r & Hr & Hp). exists r. split; [done|]. intros Hst. destruct (Hp Hst) as [-> _].
    split; [done|]. by apply Ht with w.
  - destruct (Schedule_advances d now (clock s) id i (table s)) as [Ha Hb]. apply once_table; [done|by apply Hb, Ho|done|].
    intros w ss Hh. left. destruct (o_lease _ Ho w ss Hh) as (r & Hr & _).
    destruct (Schedule_spec d now (clock s) id i (table s)) as [->|(Hn & y & _ & _ & ->)]; [done|].
    cbn. rewrite lookup_insert_ne; [done|]. intros ->. by rewrite Hn in Hr.
  - destruct (Cancel_touches d (clock s) t u id (table s)) as (Ha & Hb & Hf). apply once_table; [done|by apply Hb, Ho|done|].
    intros w ss Hh. destruct (decide (ID ss = id)) as [->|Hne]; [apply Cancel_row|left; by apply Hf].
  - by eapply once_claim.
  - rewrite (Ht ss) by done. exact (once_submit s w ss (dispatch ss submit) Ho H).
  - apply once_finish; [done|done|]. intros ->. by eapply Ht.
  - apply once_idle; [done|]. intros ss Hw. by destruct (Ht ss).
Qed.

(** C2: A submission is sent at most once.  Start with idle workers and run any
    interleaving of scheduling, cancelling and any number of workers that
    crash and lose calls; as long as workers finish within their lease, clocks
    differ by less than it, and the acceptances of Stalwart are learnt and
    recorded, no row is accepted twice. *)
Theorem scheduled_at_most_once s es s' :
  db_ok (table s) -> (forall w, pc s w = Idle) -> accepted s = [] ->
  steps (fun s e s' => sstep cfg s e s' /\ timely s e) s es s' -> NoDup (accepted s').
Proof.
  intros Hok Hidle Hacc Hrun. apply o_nodup. eapply steps_invariant; [|clear Hrun|exact Hrun].
  - intros s1 e s2. apply once_step.
  - split; try done.
    + intros w ss. by rewrite Hidle.
    + intros w w' ss ss'. by rewrite Hidle.
    + intros id. rewrite Hacc. by intros ?%not_elem_of_nil.
    + intros w ss. by rewrite Hidle.
    + rewrite Hacc. apply NoDup_nil_2.
Qed.
End runs.

(** ** Draining *)

(** Surroundings in which nothing fails at database time [dbnow]. *)
Definition calm (dbnow : Z) (E : env) : Prop :=
  e_claim E = Delivered /\ e_final E = Delivered /\ e_db E = dbnow /\ e_locked E = ∅ /\
  forall sub, exists shown, e_submit E sub = DResp None (Some "EmailSubmission/set"%string) [] shown.

Definition sendable (dbnow : Z) (s : DB) : Prop :=
  db_ok s /\ forall id r, rows s !! id = Some r -> due dbnow r = true ->
    Attempts r + 1 < 2 ^ 31 /\ exists m, SubmissionPayload r = PObject m.

Definition due_rows (dbnow : Z) (s : DB) : gmap string ScheduledSend := filter (fun kr => due dbnow kr.2 = true) (rows s).

Lemma dispatch_accepted submit ss m :
  (forall sub, exists shown, submit sub = DResp None (Some "EmailSubmission/set"%string) [] shown) ->
  SubmissionPayload ss = PObject m -> dispatch ss submit = Ok tt.
Proof.
  intros Hsub Hm. unfold dispatch, buildSubmissionCreate. rewrite Hm.
  match goal with |- context [submit ?x] => destruct (Hsub x) as [shown ->] end. done.
Qed.

(** One iteration sends the earliest due row, or finds none. *)
Lemma dispatchOne_calm w dbnow E s :
  calm dbnow E -> sendable dbnow s ->
  (dispatchOne w E s = (Drained, s) /\ due_rows dbnow s = ∅) \/
  exists r r', rows s !! ID r = Some r /\ due dbnow r = true /\ Status r' = StatusSent /\ ID r' = ID r /\
    dispatchOne w E s = (More, with_rows (<[ID r := r']> (rows s)) s).
Proof.
  intros (Hc & Hf & Hdb & Hlk & Hsub) [Hok Hs]. unfold dispatchOne. rewrite Hc, Hf, Hdb, Hlk.
  pose proof (claimDue_delivered (e_now E) dbnow ∅ s Hok) as H. destruct (claimDue _ _ _ _ _) as [[ss|e] s1].
  - destruct H as (r & (Hr & Hdue & _) & _ & -> & ->); [intros r (Hr & Hdue & _); by apply (Hs _ _ Hr)|]. right.
    destruct (Hs _ _ Hr Hdue) as [_ [m Hm]]. exists r, (touch (e_db' E) (set_status StatusSent (Some (micro (e_now' E))) "" (leased (e_now E) dbnow r))).
    split_and!; try done. rewrite (dispatch_accepted _ (claimed (e_now E) r) m Hsub Hm).
    unfold conclude, markDispatched, exec, BeginFunc, update_row. cbn [rows with_rows].
    change (ID (claimed (e_now E) r)) with (ID r). rewrite lookup_insert_eq.
    unfold due in Hdue. breflect. change (pending (leased (e_now E) dbnow r)) with (pending r). rewrite H. cbn [snd].
    unfold with_rows. cbn. by rewrite insert_insert_eq.
  - destruct H as (-> & -> & Hno); [intros r (Hr & Hdue & _); by apply (Hs _ _ Hr)|]. left. split; [done|].
    apply map_eq. intros id. rewrite lookup_empty. apply map_lookup_filter_None. right. intros r Hr Hdue.
    apply (Hno r). split_and!; [by rewrite (Hok _ _ Hr)|done|set_solver].
Qed.

Lemma sendable_sent dbnow s r r' :
  sendable dbnow s -> rows s !! ID r = Some r -> Status r' = StatusSent -> ID r' = ID r ->
  let s' := with_rows (<[ID r := r']> (rows s)) s in
  sendable dbnow s' /\ due_rows dbnow s' = delete (ID r) (due_rows dbnow s).
Proof.
  intros [Hok Hs] Hr Hst Hid. assert (due dbnow r' = false) as Hd by (unfold due, pending; by rewrite Hst).
  split; [split|].
  - intros k x. cbn. destruct (decide (k = ID r)) as [->|Hne]; [rewrite lookup_insert_eq; by intros [= <-]|].
    rewrite lookup_insert_ne by done. apply Hok.
  - intros k x. cbn. destruct (decide (k = ID r)) as [->|Hne]; [rewrite lookup_insert_eq; intros [= <-]; by rewrite Hd|].
    rewrite lookup_insert_ne by done. apply Hs.
  - unfold due_rows. cbn. rewrite map_filter_insert_False by (cbn; by rewrite Hd). apply map_filter_delete.
Qed.

Lemma drain_calm w dbnow Es s :
  Forall (calm dbnow) Es -> sendable dbnow s -> (size (due_rows dbnow s) <= length Es)%nat ->
  forall id r, rows s !! id = Some r ->
    exists r', rows (drain w Es s).2 !! id = Some r' /\ if due dbnow r then Status r' = StatusSent else r' = r.
Proof.
  intros Hf. revert s. induction Hf as [|E Es HE Hf IH]; intros s Hs Hsz id r Hr; cbn [drain].
  - apply Nat.le_0_r, map_size_empty_inv in Hsz. exists r. split; [done|]. destruct (due dbnow r) eqn:Hd; [|done].
    assert (due_rows dbnow s !! id = Some r) as Hx by (by apply map_lookup_filter_Some). by rewrite Hsz, lookup_empty in Hx.
  - destruct (dispatchOne_calm w dbnow E s HE Hs) as [[-> He]|(x & x' & Hx & Hdx & Hst & Hid & ->)].
    + exists r. split; [done|]. destruct (due dbnow r) eqn:Hd; [|done].
      assert (due_rows dbnow s !! id = Some r) as Hy by (by apply map_lookup_filter_Some). by rewrite He, lookup_empty in Hy.
    + destruct (sendable_sent dbnow s x x' Hs Hx Hst Hid) as [Hs' Hdr].
      assert (due_rows dbnow s !! ID x = Some x) as Hin by (by apply map_lookup_filter_Some).
      assert (size (due_rows dbnow (with_rows (<[ID x := x']> (rows s)) s)) <= length Es)%nat as Hsz'.
      { rewrite Hdr, map_size_delete_Some by (by eexists). cbn [length] in Hsz. lia. }
      destruct (decide (id = ID x)) as [->|Hne].
      * assert (r = x) as -> by congruence. rewrite Hdx.
        destruct (IH _ Hs' Hsz' (ID x) x') as (r' & Hr' & Hr''); [apply lookup_insert_eq|]. exists r'. split; [done|].
        assert (due dbnow x' = false) as Hd by (unfold due, pending; by rewrite Hst). rewrite Hd in Hr''. by subst r'.
      * apply (IH _ Hs' Hsz' id r). cbn. by rewrite lookup_insert_ne.
Qed.

(** A tick sends what is due.  When the due rows fit the batch, carry
    submissions Stalwart accepts and no call fails, one tick marks every one
    of them as sent and leaves all other rows as they were. *)
Theorem tick_sends_due w dbnow Es s :
  (forall n, calm dbnow (Es n)) -> sendable dbnow s -> Z.of_nat (size (due_rows dbnow s)) <= maxBatch w ->
  forall id r, rows s !! id = Some r ->
    exists r', rows (Tick w Es s).2 !! id = Some r' /\ if due dbnow r then Status r' = StatusSent else r' = r.
Proof.
  intros HE Hs Hsz. unfold Tick. apply (drain_calm w dbnow); [|done|rewrite length_fmap, length_seq; lia].
  apply Forall_fmap, Forall_forall. intros n _. apply HE.
Qed.

(** ** Outcomes of one iteration *)

(** What recording the answer makes of a leased row. *)
Definition settled_row (w : DispatchWorker) (now dbnow : Z) (ss : ScheduledSend) (r : result derror unit) (row : ScheduledSend) : ScheduledSend :=
  match r with
  | Ok _ => touch dbnow (set_status StatusSent (Some (micro now)) "" row)
  | Err NilMapPanic => row
  | Err e =>
      touch dbnow (if maxAttempts w <=? Attempts ss then set_status StatusFailed (SentAt row) (error_text e) row
                   else set_retry (Attempts row) (error_text e) (micro (now + backoff (Attempts ss))) row)
  end.

Lemma update_pending dbnow id f s row :
  rows s !! id = Some row -> Status row = StatusPending ->
  update_row dbnow id pending f s = (1, with_rows (<[id := touch dbnow (f row)]> (rows s)) s).
Proof. intros Hr Hp. unfold update_row. rewrite Hr. by rewrite (proj2 (pending_status row)). Qed.

Lemma conclude_delivered w now dbnow ss r s row :
  rows s !! ID ss = Some row -> Status row = StatusPending ->
  conclude w Delivered now dbnow ss r s =
    (match r with Err NilMapPanic => Panicked | _ => More end,
     with_rows (<[ID ss := settled_row w now dbnow ss r row]> (rows s)) s).
Proof.
  intros Hr Hp. unfold conclude, handleErr, markDispatched, markFailed, scheduleRetry, exec, BeginFunc.
  destruct r as [[]|e]; [by rewrite (update_pending _ _ _ _ row)|].
  assert (with_rows (<[ID ss := row]> (rows s)) s = s) as Hsame by (unfold with_rows; rewrite insert_id by done; by destruct s).
  destruct e; cbn [settled_row]; rewrite ?Hsame; try done;
    (destruct (maxAttempts w <=? Attempts ss); by rewrite (update_pending _ _ _ _ row)).
Qed.

(** One iteration, on every branch.  With its calls delivered, the worker
    takes the earliest row that is due and that nobody has locked: never one
    before its time.  An accepted row is marked sent; a refused one is put
    back with the back-off of its attempt, or marked failed at the attempt
    limit; a payload that decodes to null takes the process down and leaves
    the row leased.  Without such a row nothing happens. *)
Theorem dispatch_outcomes w E s :
  db_ok s -> e_claim E = Delivered -> e_final E = Delivered ->
  (forall r, candidate (e_db E) (e_locked E) s r -> Attempts r + 1 < 2 ^ 31) ->
  (dispatchOne w E s = (Drained, s) /\ forall r, ~ candidate (e_db E) (e_locked E) s r) \/
  exists r, candidate (e_db E) (e_locked E) s r /\ SendAt r <= e_db E /\
    (forall r', candidate (e_db E) (e_locked E) s r' -> SendAt r <= SendAt r') /\
    let answer := dispatch (claimed (e_now E) r) (e_submit E) in
    dispatchOne w E s =
      (match answer with Err NilMapPanic => Panicked | _ => More end,
       with_rows (<[ID r := settled_row w (e_now' E) (e_db' E) (claimed (e_now E) r) answer (leased (e_now E) (e_db E) r)]> (rows s)) s).
Proof.
  intros Hok Hc Hf Hatt. unfold dispatchOne. rewrite Hc, Hf.
  pose proof (claimDue_delivered (e_now E) (e_db E) (e_locked E) s Hok Hatt) as H. destruct (claimDue _ _ _ _ _) as [[ss|e] s1].
  - destruct H as (r & Hcand & Hmin & -> & ->). right. exists r. pose proof Hcand as (Hr & Hdue & _). unfold due in Hdue. breflect.
    apply pending_status in H. split_and!; [done|done|done|]. cbn zeta. change (ID r) with (ID (claimed (e_now E) r)).
    rewrite (conclude_delivered _ _ _ _ _ _ (leased (e_now E) (e_db E) r)) by (apply lookup_insert_eq || done).
    unfold with_rows. cbn [rows]. by rewrite insert_insert_eq.
  - destruct H as (-> & -> & Hno). by left.
Qed.

(** ** Ownership *)
Lemma owned_refl r : owned (TenantID r) (KChatUserID r) r = true.
Proof. unfold owned. by rewrite !String.eqb_refl. Qed.

Lemma owned_false t u r : (t, u) <> (TenantID r, KChatUserID r) -> owned t u r = false.
Proof.
  intros Hne. apply not_true_iff_false. unfold owned. intros [H1 H2]%andb_prop. breflect. by subst.
Qed.

(** A scheduled send belongs to its user.  The row just scheduled is read
    back by its owner as it was returned, due at the requested time to the
    microsecond, which is between a minute and a year ahead; to anybody else,
    also in the tenant, it does not exist, and their Cancel changes nothing. *)
Theorem schedule_owned now dbnow id i s r s' :
  blank id = false -> Schedule Delivered now dbnow id i s = (Ok r, s') ->
  Get Delivered (iTenantID i) (iKChatUserID i) id s' = Ok r /\
  SendAt r = micro (iSendAt i) /\ Minute <= Sub (iSendAt i) now <= 365 * 24 * Hour /\
  forall t u db, blank t = false -> blank u = false -> (t, u) <> (iTenantID i, iKChatUserID i) ->
    Get Delivered t u id s' = Err ErrNotFound /\
    exists e, Cancel Delivered db t u id s' = (Err e, s') /\ (e = ErrNotFound \/ e = ErrTenantMismatch).
Proof.
  intros Hb. unfold Schedule. destruct (validateSchedule now i) eqn:Hv; [|done]. unfold BeginFunc. intros Hs.
  assert (exists p, r = mkScheduled id (iTenantID i) (iKChatUserID i) (iStalwartAccountID i) (iEmailID i) (iIdentityID i) p
     (micro (iSendAt i)) StatusPending 0 "" (micro (iSendAt i)) None dbnow dbnow /\ s' = with_rows (<[id := r]> (rows s)) s) as (p & -> & ->).
  { destruct (negb _); [done|]. destruct (iSubmissionPayload i); try done; (destruct (bool_decide _); [done|]);
      injection Hs as <- <-; by eexists. }
  clear Hs. set (r := mkScheduled _ _ _ _ _ _ _ _ _ _ _ _ _ _ _). unfold validateSchedule in Hv.
  destruct (blank (iTenantID i)) eqn:Ht; [done|]. destruct (blank (iKChatUserID i)) eqn:Hu; [done|].
  split_and!; try done.
  - unfold Get. rewrite Ht, Hu, Hb. cbn [query rows with_rows]. rewrite lookup_insert_eq.
    change (iTenantID i) with (TenantID r). change (iKChatUserID i) with (KChatUserID r). rewrite owned_refl. cbn. by rewrite String.eqb_refl.
  - repeat case_match; try done; breflect; done.
  - repeat case_match; try done; breflect; done.
  - intros t u db Ht' Hu' Hne. pose proof (owned_false t u r Hne) as Hno. split.
    + unfold Get. rewrite Ht', Hu', Hb. cbn [query rows with_rows]. rewrite lookup_insert_eq. by rewrite Hno.
    + unfold Cancel. rewrite Ht', Hu', Hb. unfold BeginFunc, update_row. cbn [rows with_rows]. rewrite lookup_insert_eq, Hno. cbn [andb].
      cbn. rewrite lookup_insert_eq. cbn [TenantID KChatUserID r].
      destruct (String.eqb_spec (iTenantID i) t); cbn [negb]; [|eauto].
      destruct (String.eqb_spec (iKChatUserID i) u); cbn [negb]; [by subst|eauto].
Qed.

(** ** Examples *)
Module ScheduledExamples.
Definition cfg : DispatchWorker := mkWorker (15 * Second) 50 5.
Definition row : ScheduledSend :=
  mkScheduled "a" "t" "u" "acc" "e" "i" (PObject ∅) Hour StatusPending 0 "" Hour None 0 0.
Definition tbl : DB := mkDB {["t"%string]} {["a"%string := row]}.
Definition start : sys := mkSys tbl (2 * Hour) (fun _ => Idle) [].
Definition accept (_ : submission) : dreply := DResp None (Some "EmailSubmission/set"%string) [] "".
Definition refuse (_ : submission) : dreply := DFail "unreachable".
Definition quiet (submit : submission -> dreply) : env :=
  mkEnv Delivered (2 * Hour) (2 * Hour) ∅ submit Delivered (2 * Hour) (2 * Hour).
Definition input : ScheduleInput := mkInput "t" "u" "acc" "e" "i" (PObject ∅) (3 * Hour).

Lemma tbl_ok : db_ok tbl.
Proof. intros id r. cbn. rewrite lookup_singleton_Some. by intros [<- <-]. Qed.

(** A worker claims the row, submits it and records the answer. *)
Definition claimed_sys : sys :=
  with_table (claimDue Delivered (2 * Hour) (2 * Hour) ∅ tbl).2 (with_pc 0 (Submitting (claimed (2 * Hour) row)) start).
Definition answered_sys : sys :=
  let s := with_pc 0 (Answered (claimed (2 * Hour) row) (dispatch (claimed (2 * Hour) row) accept)) claimed_sys in
  mkSys (table s) (clock s) (pc s) ["a"%string].
Definition final_sys : sys :=
  with_table (conclude cfg Delivered (2 * Hour) (2 * Hour) (claimed (2 * Hour) row) (Ok tt) (table answered_sys)).2 (with_pc 0 Idle answered_sys).

Lemma run_once :
  steps (fun s e s' => sstep cfg s e s' /\ timely s e) start
    [EvClaim 0 Delivered (2 * Hour) ∅; EvSubmit 0 accept true; EvFinish 0 Delivered (2 * Hour)] final_sys.
Proof.
  econstructor; [split|econstructor; [split|econstructor; [split|constructor]]].
  - apply (step_claim cfg start 0 Delivered (2 * Hour) ∅ (Ok (claimed (2 * Hour) row)) (claimDue Delivered (2 * Hour) (2 * Hour) ∅ tbl).2); reflexivity.
  - reflexivity.
  - apply (step_submit cfg claimed_sys 0 accept true (claimed (2 * Hour) row)). reflexivity.
  - intros ss E. cbn in E. by injection E as <-.
  - apply (step_finish cfg answered_sys 0 Delivered (2 * Hour) (claimed (2 * Hour) row) (Ok tt)). reflexivity.
  - done.
Qed.
End ScheduledExamples.

Import ScheduledExamples.

Lemma scheduled_at_most_once_witness : NoDup (accepted final_sys).
Proof.
  apply (scheduled_at_most_once cfg start
    [EvClaim 0 Delivered (2 * Hour) ∅; EvSubmit 0 accept true; EvFinish 0 Delivered (2 * Hour)]);
    [apply tbl_ok | reflexivity | reflexivity | apply run_once].
Defined.

Lemma cancel_is_final_witness :
  exists r, rows (Cancel Delivered (2 * Hour) "t" "u" "a" tbl).2 !! "a"%string = Some r /\ Status r = StatusCancelled.
Proof.
  apply (cancel_is_final cfg start (with_table (Cancel Delivered (2 * Hour) "t" "u" "a" tbl).2 start)
    (mkSys (Cancel Delivered (2 * Hour) "t" "u" "a" tbl).2 (3 * Hour) (fun _ => Idle) []) Delivered "t" "u" "a" [EvTime (3 * Hour)]).
  - apply tbl_ok.
  - exact (step_cancel cfg start Delivered "t" "u" "a").
  - econstructor; [|constructor]. apply (step_time cfg (with_table (Cancel Delivered (2 * Hour) "t" "u" "a" tbl).2 start)). by vm_compute.
Defined.

Lemma tick_sends_due_witness :
  exists r', rows (Tick cfg (fun _ => quiet accept) tbl).2 !! "a"%string = Some r' /\ Status r' = StatusSent.
Proof.
  apply (tick_sends_due cfg (2 * Hour) (fun _ => quiet accept) tbl) with (id := "a"%string) (r := row).
  - intros n. unfold calm. split_and!; try reflexivity. intros sub. exists ""%string. reflexivity.
  - split; [apply tbl_ok|]. intros id r. cbn. rewrite lookup_singleton_Some. intros [<- <-] _. split; [by vm_compute|by exists ∅].
  - by vm_compute.
  - reflexivity.
Defined.

Lemma dispatch_outcomes_witness :
  exists r, candidate (2 * Hour) ∅ tbl r /\
    dispatchOne cfg (quiet refuse) tbl =
      (More, with_rows (<[ID r := settled_row cfg (2 * Hour) (2 * Hour) (claimed (2 * Hour) r) (Err (TransportError "unreachable"))
                            (leased (2 * Hour) (2 * Hour) r)]> (rows tbl)) tbl).
Proof.
  assert (forall r, candidate (2 * Hour) ∅ tbl r -> r = row) as Hrow.
  { intros r (Hr & _). cbn in Hr. apply lookup_singleton_Some in Hr as [_ <-]. reflexivity. }
  destruct (dispatch_outcomes cfg (quiet refuse) tbl) as [[_ Hno]|(r & Hc & _ & _ & Hd)].
  - apply tbl_ok.
  - reflexivity.
  - reflexivity.
  - intros r Hr. rewrite (Hrow r Hr). by vm_compute.
  - exfalso. apply (Hno row). split_and!; [reflexivity|reflexivity|set_solver].
  - exists r. split; [exact Hc|]. rewrite (Hrow r Hc) in *. exact Hd.
Defined.

Lemma schedule_owned_witness :
  exists r s', Schedule Delivered Hour Hour "b" input tbl = (Ok r, s') /\ Get Delivered "t" "u" "b" s' = Ok r /\
    Get Delivered "t" "v" "b" s' = Err ErrNotFound.
Proof.
  destruct (Schedule Delivered Hour Hour "b" input tbl) as [[r|e] s'] eqn:E; [|by vm_compute in E].
  exists r, s'. destruct (schedule_owned Hour Hour "b" input tbl r s' eq_refl E) as (H1 & _ & _ & H2).
  split_and!; [reflexivity|exact H1|]. apply (H2 "t"%string "v"%string 0); [reflexivity|reflexivity|discriminate].
Defined.
