(* ===== verification/FeatureFlags.v ===== *)
(** * Feature flags ([internal/featureflags])

    The flag registry and its scoped overrides (store.go), the resolver that
    evaluates a flag against a cached snapshot (featureflags.go), and the
    admin surface with its last-known-good cache (handlers.go).  Handlers and
    resolver run as [prog]s: trees of atomic actions (one SQL statement, one
    critical section of a mutex, one goroutine start), so that one definition
    has a sequential meaning and an interleaved one. *)

From S2P Require Import Prelude.

Local Open Scope Z_scope.

(** ** Registry, overrides, subjects *)
Definition Scope : Type := string.
Definition ScopeGlobal : Scope := "global".
Definition ScopePlan : Scope := "plan".
Definition ScopeTenant : Scope := "tenant".
Definition ScopeUser : Scope := "user".

Definition validScopes : gset Scope := {[ScopeGlobal; ScopePlan; ScopeTenant; ScopeUser]}.

Definition scopePrecedence (s : Scope) : Z :=
  if String.eqb s ScopePlan then 1
  else if String.eqb s ScopeTenant then 2
  else if String.eqb s ScopeUser then 3
  else 0.

Definition defaultCacheTTL : Z := 30 * Second.

Record Flag := mkFlag {
  Key : string;
  Description : string;
  DefaultEnabled : bool;
  f_CreatedAt : Z;
  f_UpdatedAt : Z;
}.

Record Override := mkOverride {
  ID : string;
  FlagKey : string;
  oScope : Scope;
  ScopeID : string;
  Enabled : bool;
  o_CreatedAt : Z;
  o_UpdatedAt : Z;
}.

Record Subject := mkSubject { TenantID : string; UserID : string; Plan : string }.

#[export] Instance flag_eq_dec : EqDecision Flag.
Proof. solve_decision. Defined.
#[export] Instance override_eq_dec : EqDecision Override.
Proof. solve_decision. Defined.

Inductive invalid := FlagKeyRequired | InvalidScope | GlobalWithID | ScopeIDRequired.

Definition Validate (o : Override) : option invalid :=
  if String.eqb (FlagKey o) "" then Some FlagKeyRequired
  else if negb (bool_decide (oScope o ∈ validScopes)) then Some InvalidScope
  else if String.eqb (oScope o) ScopeGlobal
  then if negb (String.eqb (ScopeID o) "") then Some GlobalWithID else None
  else if String.eqb (ScopeID o) "" then Some ScopeIDRequired else None.

(** ** Errors of the store

    An error is the chain of what it wraps; [errors.Is] and [errors.As] look
    for a member of the chain. *)
Inductive cause :=
| CPg | CNoPool | CDeadline | CCanceled | CNet | CClosedPool | CNetClosed
| CUnexpectedEOF | CEOF | COther.

#[export] Instance cause_eq_dec : EqDecision cause.
Proof. solve_decision. Defined.

Definition chain : Type := list cause.
Definition wraps (e : chain) (c : cause) : bool := bool_decide (c ∈ e).

Definition isStoreUnavailable (e : chain) : bool :=
  if wraps e CPg then false
  else if wraps e CNoPool || wraps e CDeadline || wraps e CCanceled then true
  else if wraps e CNet then true
  else wraps e CClosedPool || wraps e CNetClosed || wraps e CUnexpectedEOF || wraps e CEOF.

(** ** The tables *)
Abbreviation okey := (string * string * string)%type.

Record Tables := mkTables {
  t_flags : gmap string Flag;
  t_overrides : gmap okey Override;
  t_plans : gmap string string;    (* tenants.id -> plan *)
}.

Inductive stmt :=
| InsertFlag (f : Flag)
| DeleteFlagRow (key : string)
| InsertOverride (o : Override)
| DeleteOverrideRow (flagKey : string) (scope : Scope) (scopeID : string).

Definition okey_of (o : Override) : okey := (FlagKey o, oScope o, ScopeID o).

Definition upsert_flag (now : Z) (f : Flag) (old : option Flag) : Flag :=
  match old with
  | Some g => mkFlag (Key g) (Description f) (DefaultEnabled f) (f_CreatedAt g) now
  | None => mkFlag (Key f) (Description f) (DefaultEnabled f) now now
  end.

Definition upsert_override (now : Z) (uuid : string) (o : Override) (old : option Override) : Override :=
  match old with
  | Some g => mkOverride (ID g) (FlagKey g) (oScope g) (ScopeID g) (Enabled o) (o_CreatedAt g) now
  | None => mkOverride uuid (FlagKey o) (oScope o) (ScopeID o) (Enabled o) now now
  end.

(** One statement, [None] where a constraint of migration 006 refuses it. *)
Definition exec_stmt (now : Z) (uuid : string) (q : stmt) (t : Tables) : option Tables :=
  match q with
  | InsertFlag f =>
      if String.eqb (Key f) "" || (128 <? Z.of_nat (String.length (Key f))) then None
      else Some (mkTables (<[Key f := upsert_flag now f (t_flags t !! Key f)]> (t_flags t))
                   (t_overrides t) (t_plans t))
  | DeleteFlagRow key =>
      Some (mkTables (delete key (t_flags t))
              (filter (fun ko : okey * Override => ko.1.1.1 <> key) (t_overrides t)) (t_plans t))
  | InsertOverride o =>
      match t_flags t !! FlagKey o, Validate o with
      | Some _, None =>
          Some (mkTables (t_flags t)
                  (<[okey_of o := upsert_override now uuid o (t_overrides t !! okey_of o)]> (t_overrides t))
                  (t_plans t))
      | _, _ => None
      end
  | DeleteOverrideRow k sc id =>
      Some (mkTables (t_flags t) (delete (k, sc, id) (t_overrides t)) (t_plans t))
  end.

(** What the keys and constraints of the tables maintain. *)
Record tables_ok (t : Tables) : Prop := {
  ok_flag_key : forall k f, t_flags t !! k = Some f -> Key f = k;
  ok_flag_nonempty : t_flags t !! ""%string = None;
  ok_override_key : forall k o, t_overrides t !! k = Some o -> okey_of o = k;
  ok_override_fk : forall k o, t_overrides t !! k = Some o -> is_Some (t_flags t !! FlagKey o);
  ok_override_valid : forall k o, t_overrides t !! k = Some o -> Validate o = None;
}.

(** The order rows come back in: [ORDER BY] under the database's collation. *)
Class Collation := {
  order_flags : list Flag -> list Flag;
  order_overrides : list Override -> list Override;
  order_flags_perm : forall l, order_flags l ≡ₚ l;
  order_overrides_perm : forall l, order_overrides l ≡ₚ l;
}.

Definition flag_rows `{Collation} (t : Tables) : list Flag :=
  order_flags (snd <$> map_to_list (t_flags t)).
Definition override_rows `{Collation} (t : Tables) : list Override :=
  order_overrides (snd <$> map_to_list (t_overrides t)).

(** ** Snapshots *)
Record resolved := mkResolved { def : bool; overrides : gmap string bool }.

Definition scopeKey (scope : Scope) (id : string) : string :=
  if String.eqb scope ScopeGlobal then ScopeGlobal else scope +:+ ":" +:+ id.

Record snapshot := mkSnapshot { flags : gmap string resolved; loaded : Z }.

Definition add_override (m : gmap string resolved) (o : Override) : gmap string resolved :=
  match m !! FlagKey o with
  | None => m
  | Some r =>
      <[FlagKey o := mkResolved (def r) (<[scopeKey (oScope o) (ScopeID o) := Enabled o]> (overrides r))]> m
  end.

Definition buildSnapshot (now : Z) (fl : list Flag) (ovs : list Override) : snapshot :=
  let m := fill Key (fun f => mkResolved (DefaultEnabled f) ∅) ∅ fl in
  mkSnapshot (foldl add_override m ovs) now.

Definition lookup_if (id : string) (r : resolved) (k : string) : option bool :=
  if String.eqb id "" then None else overrides r !! k.

Definition evaluate (r : resolved) (subj : Subject) : bool :=
  match lookup_if (UserID subj) r (scopeKey ScopeUser (UserID subj)) with
  | Some v => v
  | None =>
    match lookup_if (TenantID subj) r (scopeKey ScopeTenant (TenantID subj)) with
    | Some v => v
    | None =>
      match lookup_if (Plan subj) r (scopeKey ScopePlan (Plan subj)) with
      | Some v => v
      | None => default (def r) (overrides r !! scopeKey ScopeGlobal "")
      end
    end
  end.

(** ** The admin view *)
Record FlagView := mkView { vFlag : Flag; vOverrides : list Override }.

#[export] Instance view_eq_dec : EqDecision FlagView.
Proof. solve_decision. Defined.

Definition vKey (v : FlagView) : string := Key (vFlag v).

Definition view_le (v w : FlagView) : Prop := String.le (vKey v) (vKey w).
#[export] Instance view_le_dec : RelDecision view_le.
Proof. intros v w. unfold view_le. apply _. Defined.

Definition override_le (a b : Override) : Prop :=
  if decide (oScope a = oScope b) then String.le (ScopeID a) (ScopeID b)
  else scopePrecedence (oScope a) <= scopePrecedence (oScope b).
#[export] Instance override_le_dec : RelDecision override_le.
Proof. intros a b. unfold override_le. case_decide; apply _. Defined.

Definition index_by_key (views : list FlagView) : gmap string nat :=
  foldl (fun m iv => <[vKey iv.2 := iv.1]> m) ∅ (imap pair views).

Definition append_override (o : Override) (v : FlagView) : FlagView :=
  mkView (vFlag v) (vOverrides v ++ [o]).

Definition assembleViews (fl : list Flag) (ovs : list Override) : list FlagView :=
  let views := merge_sort view_le ((fun f => mkView f []) <$> fl) in
  let byKey := index_by_key views in
  let views := foldl (fun vs o => match byKey !! FlagKey o with
                                  | Some i => alter (append_override o) i vs
                                  | None => vs
                                  end) views ovs in
  (fun v => mkView (vFlag v) (merge_sort override_le (vOverrides v))) <$> views.

(** ** Process state *)
Record planEntry := mkPlan { plan : string; plan_loaded : Z }.

Record Service := mkService {
  ttl : Z;
  snap : option snapshot;
  plans : gmap string planEntry;
}.

Definition newService : Service := mkService defaultCacheTTL None ∅.

Definition WithTTL (d : Z) (s : Service) : Service :=
  if 0 <? d then mkService d (snap s) (plans s) else s.

Definition Invalidate (s : Service) : Service := mkService (ttl s) None ∅.

(** [cachedReadStart = None] is the zero time, before every reading of the clock. *)
Record Handlers := mkHandlers {
  lastGood : option (list FlagView);
  cachedAt : Z;
  cachedReadStart : option Z;
  maxStaleAge : Z;
}.

Definition NewHandlers : Handlers := mkHandlers None 0 None 0.

Definition WithMaxStaleAge (d : Z) (h : Handlers) : Handlers :=
  mkHandlers (lastGood h) (cachedAt h) (cachedReadStart h) d.

Definition before (t : Z) (c : option Z) : bool :=
  match c with Some c => t <? c | None => false end.

Definition cacheViews (views : list FlagView) (readStart now : Z) (h : Handlers) : Handlers :=
  if before readStart (cachedReadStart h) then h
  else mkHandlers (Some views) now (Some readStart) (maxStaleAge h).

Definition cachedViews (now : Z) (h : Handlers) : option (list FlagView * Z) :=
  match lastGood h with None => None | Some vs => Some (vs, now - cachedAt h) end.

Definition withinStaleBound (h : Handlers) (age : Z) : bool :=
  (maxStaleAge h <=? 0) || (age <=? maxStaleAge h).

Definition dropCache (readStart : Z) (h : Handlers) : Handlers :=
  if before readStart (cachedReadStart h) then h
  else mkHandlers None 0 (Some readStart) (maxStaleAge h).

Definition removeFlagFromCache (key : string) (now : Z) (h : Handlers) : Handlers :=
  match lastGood h with
  | None => mkHandlers None (cachedAt h) (Some now) (maxStaleAge h)
  | Some vs =>
      mkHandlers (Some (filter (fun v => vKey v <> key) vs)) (cachedAt h) (Some now) (maxStaleAge h)
  end.

Record pod := mkPod { svc : option Service; hc : Handlers }.

(** ** Programs

    [Local] is one critical section on the process's own state, with the
    clock it reads; [Write] one statement; [ListFlags] and [ListOverrides]
    the two queries of a load; [Go] starts a goroutine. *)
Inductive prog (A : Type) : Type :=
| Ret (a : A)
| Local (B : Type) (f : Z -> pod -> B * pod) (k : B -> prog A)
| ListFlags (k : result chain (list Flag) -> prog A)
| ListOverrides (k : result chain (list Override) -> prog A)
| QueryPlan (tenantID : string) (k : result chain string -> prog A)
| Write (q : stmt) (k : option chain -> prog A)
| Go (p : prog unit) (k : prog A).
Arguments Ret {A}. Arguments Local {A B}. Arguments ListFlags {A}.
Arguments ListOverrides {A}. Arguments QueryPlan {A}. Arguments Write {A}. Arguments Go {A}.

Fixpoint pbind {A B : Type} (m : prog A) (g : A -> prog B) : prog B :=
  match m with
  | Ret a => g a
  | Local f k => Local f (fun b => pbind (k b) g)
  | ListFlags k => ListFlags (fun r => pbind (k r) g)
  | ListOverrides k => ListOverrides (fun r => pbind (k r) g)
  | QueryPlan t k => QueryPlan t (fun r => pbind (k r) g)
  | Write q k => Write q (fun r => pbind (k r) g)
  | Go p k => Go p (pbind k g)
  end.

Notation "'let!' x := m 'in' k" := (pbind m (fun x => k))
  (at level 10, x pattern, m at level 100, k at level 200).

Definition now : prog Z := Local (fun t p => (t, p)) Ret.
Definition on_handlers (f : Z -> Handlers -> Handlers) : prog unit :=
  Local (fun t p => (tt, mkPod (svc p) (f t (hc p)))) Ret.
Definition on_service (f : Z -> Service -> Service) : prog unit :=
  Local (fun t p => (tt, mkPod (f t <$> svc p) (hc p))) Ret.
Definition get_service {B} (f : Z -> Service -> B) (d : B) : prog B :=
  Local (fun t p => (match svc p with Some s => f t s | None => d end, p)) Ret.

(** ** The store's methods; [pool] is whether one is configured *)
Section store.
Variable pool : bool.

Definition loadAll : prog (result chain (list Flag * list Override)) :=
  if negb pool then Ret (Ok ([], [])) else
  ListFlags (fun r =>
    match r with
    | Err e => Ret (Err e)
    | Ok fl => ListOverrides (fun r => match r with Err e => Ret (Err e) | Ok ovs => Ret (Ok (fl, ovs)) end)
    end).

Definition loadViews : prog (result chain (list FlagView)) :=
  let! r := loadAll in
  Ret (match r with Err e => Err e | Ok (fl, ovs) => Ok (assembleViews fl ovs) end).

Definition tenantPlan (tenantID : string) : prog (result chain string) :=
  if negb pool || String.eqb tenantID "" then Ret (Ok ""%string) else QueryPlan tenantID Ret.

Definition UpsertFlag (f : Flag) : prog (option chain) :=
  if negb pool then Ret (Some [CNoPool])
  else if String.eqb (Key f) "" then Ret (Some [COther])
  else Write (InsertFlag f) Ret.

Definition DeleteFlag (key : string) : prog (option chain) :=
  if negb pool then Ret (Some [CNoPool]) else Write (DeleteFlagRow key) Ret.

Definition SetOverride (o : Override) : prog (option chain) :=
  if negb pool then Ret (Some [CNoPool])
  else match Validate o with
       | Some _ => Ret (Some [COther])
       | None => Write (InsertOverride o) Ret
       end.

Definition DeleteOverride (flagKey : string) (scope : Scope) (scopeID : string) : prog (option chain) :=
  if negb pool then Ret (Some [CNoPool]) else Write (DeleteOverrideRow flagKey scope scopeID) Ret.

(** ** The resolver *)
Definition refresh : prog (result chain snapshot) :=
  let! r := loadAll in
  match r with
  | Err e => Ret (Err e)
  | Ok (fl, ovs) =>
      let! t := now in
      let sn := buildSnapshot t fl ovs in
      let! _ := on_service (fun _ s => mkService (ttl s) (Some sn) (plans s)) in
      Ret (Ok sn)
  end.

Definition fresh_snapshot (t : Z) (s : Service) : option snapshot :=
  match snap s with
  | Some sn => if t - loaded sn <? ttl s then Some sn else None
  | None => None
  end.

(** The reload lock only keeps concurrent callers from reloading twice; the
    second look at the snapshot is the one made under it. *)
Definition getSnapshot : prog (result chain snapshot) :=
  let! c := get_service fresh_snapshot None in
  match c with
  | Some sn => Ret (Ok sn)
  | None =>
      let! c := get_service fresh_snapshot None in
      match c with Some sn => Ret (Ok sn) | None => refresh end
  end.

Definition EvaluateSubject (key : string) (subj : Subject) : prog bool :=
  let! r := getSnapshot in
  Ret (match r with
       | Err _ => false
       | Ok sn => match flags sn !! key with None => false | Some r => evaluate r subj end
       end).

Definition cachedPlan (tenantID : string) (t : Z) (s : Service) : option string :=
  match plans s !! tenantID with
  | Some e => if t - plan_loaded e <? ttl s then Some (plan e) else None
  | None => None
  end.

Definition planFor (tenantID : string) : prog string :=
  let! c := get_service (cachedPlan tenantID) None in
  match c with
  | Some p => Ret p
  | None =>
      let! c := get_service (cachedPlan tenantID) None in
      match c with
      | Some p => Ret p
      | None =>
          let! r := tenantPlan tenantID in
          match r with
          | Err _ => Ret ""%string
          | Ok p =>
              let! _ := on_service (fun t s =>
                mkService (ttl s) (snap s) (<[tenantID := mkPlan p t]> (plans s))) in
              Ret p
          end
      end
  end.

Definition IsEnabled (tenantID userID key : string) : prog bool :=
  let! p := if String.eqb tenantID "" then Ret ""%string else planFor tenantID in
  EvaluateSubject key (mkSubject tenantID userID p).

Definition List : prog (result chain (list FlagView)) := loadViews.

(** ** The admin handlers *)
Inductive reply :=
| RError (status : Z)                         (* an error body *)
| RRetryAfter                                 (* 503 with Retry-After: 1 *)
| RFlags (vs : list FlagView)                 (* 200, fresh *)
| RStale (ageSeconds : Z) (vs : list FlagView) (* 200, with the staleness headers *)
| RView (v : FlagView)
| RKey (key : string)
| RNoContent.

Definition writeStoreErr (e : chain) : reply :=
  if isStoreUnavailable e then RRetryAfter else RError 500.

Definition writeStaleJSON (age : Z) (vs : list FlagView) : reply :=
  RStale (Z.max 0 (Z.quot age Second)) vs.

Definition list_flags : prog reply :=
  let! readStart := now in
  let! r := loadViews in
  match r with
  | Err e =>
      if isStoreUnavailable e then
        let! c := Local (fun t p => ((cachedViews t (hc p), withinStaleBound (hc p)), p)) Ret in
        match c with
        | (Some (vs, age), within) =>
            if within age : bool then Ret (writeStaleJSON age vs) else Ret (writeStoreErr e)
        | (None, _) => Ret (writeStoreErr e)
        end
      else Ret (writeStoreErr e)
  | Ok views =>
      let! _ := on_handlers (fun t => cacheViews views readStart t) in
      Ret (RFlags views)
  end.

Definition refreshCacheAfterWrite : prog unit :=
  let! readStart := now in
  let! r := loadViews in
  match r with
  | Err _ => on_handlers (fun _ => dropCache readStart)
  | Ok views => let! _ := on_handlers (fun t => cacheViews views readStart t) in Ret tt
  end.

Record overrideOp := mkOp { op_Scope : Scope; op_ScopeID : string; op_Enabled : bool; op_Delete : bool }.

Record putRequest := mkPut {
  in_Key : string;
  in_Description : string;
  in_DefaultEnabled : bool;
  in_Delete : bool;
  in_Overrides : list overrideOp;
}.

Definition op_override (key : string) (op : overrideOp) : Override :=
  mkOverride "" key (op_Scope op) (op_ScopeID op) (op_Enabled op) 0 0.

Definition valid_op (key : string) (op : overrideOp) : bool :=
  if op_Delete op then bool_decide (op_Scope op ∈ validScopes)
  else match Validate (op_override key op) with None => true | Some _ => false end.

Fixpoint apply_ops (key : string) (ops : list overrideOp) : prog (option chain) :=
  match ops with
  | [] => Ret None
  | op :: ops =>
      let! e := if op_Delete op then DeleteOverride key (op_Scope op) (op_ScopeID op)
                else SetOverride (op_override key op) in
      match e with Some e => Ret (Some e) | None => apply_ops key ops end
  end.

Definition invalidate : prog unit := on_service (fun _ => Invalidate).

(** The writes of a PUT and its reload: the reply, whether a write landed
    ([mutated]) and whether the cache was dealt with ([cacheReconciled]). *)
Definition put_writes (i : putRequest) : prog (reply * bool * bool) :=
  let! e := UpsertFlag (mkFlag (in_Key i) (in_Description i) (in_DefaultEnabled i) 0 0) in
  match e with
  | Some e => Ret (writeStoreErr e, false, false)
  | None =>
      let! e := apply_ops (in_Key i) (in_Overrides i) in
      match e with
      | Some e => Ret (writeStoreErr e, true, false)
      | None =>
          let! readStart := now in
          let! r := loadViews in
          match r with
          | Err _ => Go refreshCacheAfterWrite (Ret (RKey (in_Key i), true, true))
          | Ok views =>
              let! _ := on_handlers (fun t => cacheViews views readStart t) in
              Ret (match list_find (fun v => vKey v = in_Key i) views with
                   | Some (_, v) => RView v
                   | None => RKey (in_Key i)
                   end, true, true)
          end
      end
  end.

Definition put (userID : string) (body : option putRequest) : prog reply :=
  if String.eqb userID "" then Ret (RError 401) else
  match body with
  | None => Ret (RError 400)
  | Some i =>
      if String.eqb (in_Key i) "" then Ret (RError 400)
      else if in_Delete i then
        let! e := DeleteFlag (in_Key i) in
        match e with
        | Some e => Ret (writeStoreErr e)
        | None =>
            let! _ := invalidate in
            let! _ := on_handlers (fun t => removeFlagFromCache (in_Key i) t) in
            Ret RNoContent
        end
      else if negb (forallb (valid_op (in_Key i)) (in_Overrides i)) then Ret (RError 400)
      else
        let! w := put_writes i in
        let '(r, mutated, cacheReconciled) := w in
        if mutated : bool then
          let! _ := invalidate in
          if cacheReconciled : bool then Ret r
          else
            let! t := now in
            let! _ := on_handlers (fun _ => dropCache t) in
            Ret r
        else Ret r
  end.
End store.

(** ** Running programs

    A [choice] is what the environment decides for one action: how far the
    clock moves, the id of an inserted row, and a fault of the database,
    before or after a statement took effect. *)
Record choice := mkChoice { tick : Z; uuid : string; fault : option (bool * chain) }.

Record world := mkWorld { db : Tables; wpod : pod; clock : Z }.

Section run.
Context `{Collation}.

Definition advance (c : choice) (w : world) : world := mkWorld (db w) (wpod w) (clock w + tick c).

Definition answer {B} (c : choice) (b : B) : result chain B :=
  match fault c with Some (_, e) => Err e | None => Ok b end.

(** The first action of a program: the rest, the goroutine it starts, the
    new state; [None] on a finished program. *)
Definition astep {A} (c : choice) (p : prog A) (w : world) : option (prog A * option (prog unit) * world) :=
  let w := advance c w in
  match p with
  | Ret _ => None
  | Local f k => let '(b, pd) := f (clock w) (wpod w) in Some (k b, None, mkWorld (db w) pd (clock w))
  | ListFlags k => Some (k (answer c (flag_rows (db w))), None, w)
  | ListOverrides k => Some (k (answer c (override_rows (db w))), None, w)
  | QueryPlan t k => Some (k (answer c (default ""%string (t_plans (db w) !! t))), None, w)
  | Write q k =>
      match fault c, exec_stmt (clock w) (uuid c) q (db w) with
      | Some (false, e), _ => Some (k (Some e), None, w)
      | Some (true, e), Some d => Some (k (Some e), None, mkWorld d (wpod w) (clock w))
      | Some (true, e), None => Some (k (Some e), None, w)
      | None, Some d => Some (k None, None, mkWorld d (wpod w) (clock w))
      | None, None => Some (k (Some [CPg]), None, w)
      end
  | Go p k => Some (k, Some p, w)
  end.

(** One program run alone, the goroutines it starts kept aside. *)
Fixpoint run {A} (cs : list choice) (p : prog A) (w : world) : option (A * list (prog unit) * world) :=
  match p, cs with
  | Ret a, _ => Some (a, [], w)
  | _, [] => None
  | _, c :: cs =>
      match astep c p w with
      | None => None
      | Some (p', g, w') =>
          match run cs p' w' with
          | None => None
          | Some (a, gs, w2) => Some (a, match g with Some q => q :: gs | None => gs end, w2)
          end
      end
  end.

Lemma run_ret {A} cs (a : A) w : run cs (Ret a) w = Some (a, [], w).
Proof. by destruct cs. Qed.

Lemma run_cons {A} c cs (p : prog A) w r :
  (forall a, p <> Ret a) -> run (c :: cs) p w = Some r ->
  exists p' g w' a gs w2, astep c p w = Some (p', g, w') /\ run cs p' w' = Some (a, gs, w2) /\
    r = (a, match g with Some q => q :: gs | None => gs end, w2).
Proof.
  intros Hp Hr. assert (run (c :: cs) p w = match astep c p w with
      | None => None
      | Some (p', g, w') =>
          match run cs p' w' with
          | None => None
          | Some (a, gs, w2) => Some (a, match g with Some q => q :: gs | None => gs end, w2)
          end
      end) as E by (destruct p; [by destruct (Hp a)|reflexivity..]).
  rewrite E in Hr. destruct (astep c p w) as [[[p' g] w']|]; [|done].
  destruct (run cs p' w') as [[[a gs] w2]|] eqn:E2; [|done]. injection Hr as <-. eauto 10.
Qed.

Lemma astep_bind {A B} c (m : prog A) (f : A -> prog B) w :
  (forall a, m <> Ret a) ->
  astep c (pbind m f) w =
  match astep c m w with Some (m', g, w') => Some (pbind m' f, g, w') | None => None end.
Proof.
  intros Hm. destruct m; simpl; [by destruct (Hm a)|..]; try done.
  - by destruct (f0 _ _).
  - by destruct (fault c) as [[[] e]|], (exec_stmt (clock w + tick c) (uuid c) q (db w)).
Qed.

Lemma is_ret {A} (m : prog A) : {a | m = Ret a} + {forall a, m <> Ret a}.
Proof. destruct m; [left; eauto|right; done..]. Qed.

(** A run of a sequence is a run of its parts. *)
Lemma run_bind {A B} cs : forall (m : prog A) (f : A -> prog B) w b gs w',
  run cs (pbind m f) w = Some (b, gs, w') ->
  exists cs1 cs2 a gs1 gs2 w1, cs = cs1 ++ cs2 /\ run cs1 m w = Some (a, gs1, w1) /\
    run cs2 (f a) w1 = Some (b, gs2, w') /\ gs = gs1 ++ gs2.
Proof.
  induction cs as [|c cs IH]; intros m f w b gs w' Hr; destruct (is_ret m) as [[a ->]|Hm].
  - exists [], [], a, [], gs, w. done.
  - by destruct m; [destruct (Hm a)|..].
  - exists [], (c :: cs), a, [], gs, w. done.
  - apply run_cons in Hr as (p' & g & w1 & b1 & gs1 & w2 & Hs & Hr & [= <- -> <-]);
      [|by destruct m; [destruct (Hm a)|..]].
    rewrite astep_bind in Hs by done. destruct (astep c m w) as [[[m' g'] w0]|] eqn:Es; [|done].
    injection Hs as <- -> ->. apply IH in Hr as (cs1 & cs2 & a & gs2 & gs3 & w3 & -> & Hm' & Hf & ->).
    exists (c :: cs1), cs2, a, (match g with Some q => q :: gs2 | None => gs2 end), gs3, w3.
    split_and!; [done| |done|by destruct g].
    destruct m; [by destruct (Hm a0)|..]; cbn [run]; by rewrite Es, Hm'.
Qed.

(** ** Requests in parallel *)
Inductive request :=
| QList
| QPut (userID : string) (body : option putRequest)
| QEval (tenantID userID key : string)
| QRefresh.

Inductive outcome := OReply (r : reply) | OFlag (b : bool) | ODone.

Definition serve (q : request) : prog outcome :=
  match q with
  | QList => let! r := list_flags true in Ret (OReply r)
  | QPut u b => let! r := put true u b in Ret (OReply r)
  | QEval t u k => let! b := IsEnabled true t u k in Ret (OFlag b)
  | QRefresh => let! _ := refresh true in Ret ODone
  end.

Record system := mkSystem { base : world; threads : gmap nat (prog outcome) }.

Inductive label := Start (i : nat) (q : request) | Act (i j : nat) (c : choice).

Inductive sstep : system -> label -> system -> Prop :=
| sstep_start s i q :
    threads s !! i = None ->
    sstep s (Start i q) (mkSystem (base s) (<[i := serve q]> (threads s)))
| sstep_act s i j c p p' g w' :
    0 < tick c -> threads s !! i = Some p -> (<[i := p]> (threads s)) !! j = None ->
    astep c p (base s) = Some (p', g, w') ->
    sstep s (Act i j c)
      (mkSystem w' (match g with
                    | Some q => <[j := let! _ := q in Ret ODone]> (<[i := p']> (threads s))
                    | None => <[i := p']> (threads s)
                    end)).

Definition system_init (t : Tables) (s : option Service) (c : Z) : system :=
  mkSystem (mkWorld t (mkPod s NewHandlers) c) ∅.
End run.

(** ** The tables keep their constraints *)
Lemma tables_ok_init plans : tables_ok (mkTables ∅ ∅ plans).
Proof. split; [|done|..]; simpl; intros *; rewrite lookup_empty; done. Qed.

Lemma upsert_flag_key now f old :
  (forall g, old = Some g -> Key g = Key f) -> Key (upsert_flag now f old) = Key f.
Proof. destruct old as [g|]; simpl; auto. Qed.

Lemma upsert_override_okey now id o old :
  (forall g, old = Some g -> okey_of g = okey_of o) ->
  okey_of (upsert_override now id o old) = okey_of o.
Proof. destruct old as [g|]; simpl; intros Hg; [|done]. by apply (Hg g). Qed.

Lemma Validate_okey o o' : okey_of o = okey_of o' -> Validate o = Validate o'.
Proof. unfold okey_of, Validate. intros [= -> -> ->]. done. Qed.

Lemma exec_stmt_ok now id q t t' : tables_ok t -> exec_stmt now id q t = Some t' -> tables_ok t'.
Proof.
  intros Ht. destruct q as [f|key|o|k sc sid]; simpl.
  - destruct (String.eqb_spec (Key f) "") as [|Hne]; [done|]. simpl.
    destruct (128 <? _); [done|]. intros [= <-].
    assert (Key (upsert_flag now f (t_flags t !! Key f)) = Key f) as Hk
      by (apply upsert_flag_key; apply Ht).
    split; simpl; [| |apply Ht| |apply Ht].
    + intros k g [[<- <-]|[? ?]]%lookup_insert_Some; [done|by eapply Ht].
    + rewrite lookup_insert_ne by done. apply Ht.
    + intros k o Ho. apply lookup_insert_is_Some. destruct (decide (Key f = FlagKey o)); [by left|].
      right. split; [done|]. by eapply Ht.
  - intros [= <-]. split; simpl.
    + intros k f [_ Hf]%lookup_delete_Some. by eapply Ht.
    + apply lookup_delete_None. right. apply Ht.
    + intros k o [Ho _]%map_lookup_filter_Some. by eapply Ht.
    + intros k o [Ho Hk]%map_lookup_filter_Some. simpl in Hk.
      rewrite lookup_delete_ne; [by eapply Ht|].
      apply (ok_override_key _ Ht) in Ho. subst k. by intros ->.
    + intros k o [Ho _]%map_lookup_filter_Some. by eapply Ht.
  - destruct (t_flags t !! FlagKey o) as [f|] eqn:Ef; [|done].
    destruct (Validate o) eqn:Ev; [done|]. intros [= <-].
    set (o1 := upsert_override now id o (t_overrides t !! okey_of o)).
    assert (okey_of o1 = okey_of o) as Hk by (apply upsert_override_okey; apply Ht).
    split; simpl; [apply Ht|apply Ht| | |].
    + intros k g [[<- <-]|[? ?]]%lookup_insert_Some; [done|by eapply Ht].
    + intros k g [[<- <-]|[? ?]]%lookup_insert_Some; [|by eapply Ht].
      unfold okey_of in Hk. injection Hk as -> _ _. by rewrite Ef.
    + intros k g [[<- <-]|[? ?]]%lookup_insert_Some; [|by eapply Ht].
      by rewrite (Validate_okey _ _ Hk).
  - intros [= <-]. split; simpl; [apply Ht|apply Ht|..]; intros k' o [_ Ho]%lookup_delete_Some; by eapply Ht.
Qed.

Section rows.
Context `{Collation}.
Implicit Types (t : Tables).

Lemma elem_flag_rows t f : tables_ok t -> f ∈ flag_rows t <-> t_flags t !! Key f = Some f.
Proof.
  intros Ht. unfold flag_rows. rewrite order_flags_perm, list_elem_of_fmap. split.
  - intros ([k g] & -> & Hg%elem_of_map_to_list). simpl. by rewrite (ok_flag_key _ Ht _ _ Hg).
  - intros Hf. exists (Key f, f). split; [done|]. by apply elem_of_map_to_list.
Qed.

Lemma elem_override_rows t o : tables_ok t -> o ∈ override_rows t <-> t_overrides t !! okey_of o = Some o.
Proof.
  intros Ht. unfold override_rows. rewrite order_overrides_perm, list_elem_of_fmap. split.
  - intros ([k g] & -> & Hg%elem_of_map_to_list). simpl. by rewrite (ok_override_key _ Ht _ _ Hg).
  - intros Ho. exists (okey_of o, o). split; [done|]. by apply elem_of_map_to_list.
Qed.

Lemma nodup_flag_rows t : tables_ok t -> NoDup (Key <$> flag_rows t).
Proof.
  intros Ht. unfold flag_rows. rewrite order_flags_perm, <- list_fmap_compose.
  assert ((Key ∘ snd) <$> map_to_list (t_flags t) = fst <$> map_to_list (t_flags t)) as ->.
  { apply list_fmap_ext. intros i [k f] Hi%list_elem_of_lookup_2%elem_of_map_to_list. simpl.
    by eapply Ht. }
  apply NoDup_fst_map_to_list.
Qed.

Lemma nodup_override_rows t : tables_ok t -> NoDup (okey_of <$> override_rows t).
Proof.
  intros Ht. unfold override_rows. rewrite order_overrides_perm, <- list_fmap_compose.
  assert ((okey_of ∘ snd) <$> map_to_list (t_overrides t) = fst <$> map_to_list (t_overrides t)) as ->.
  { apply list_fmap_ext. intros i [k o] Hi%list_elem_of_lookup_2%elem_of_map_to_list. simpl.
    by eapply Ht. }
  apply NoDup_fst_map_to_list.
Qed.
End rows.

(** ** Snapshots agree with the tables *)
Lemma scopeKey_inj o o' :
  Validate o = None -> Validate o' = None ->
  scopeKey (oScope o) (ScopeID o) = scopeKey (oScope o') (ScopeID o') ->
  oScope o = oScope o' /\ ScopeID o = ScopeID o'.
Proof.
  assert (forall o, Validate o = None ->
    (oScope o = ScopeGlobal /\ ScopeID o = ""%string) \/
    oScope o = ScopePlan \/ oScope o = ScopeTenant \/ oScope o = ScopeUser) as Hv.
  { clear. intros o. unfold Validate. destruct (String.eqb _ _); [done|].
    case_bool_decide as Hs; [|done]. unfold validScopes in Hs. simpl.
    destruct (String.eqb_spec (oScope o) ScopeGlobal) as [?|?].
    - destruct (String.eqb_spec (ScopeID o) ""); [by left|done].
    - intros _. right. set_solver. }
  intros [[-> ->]|[->|[->| ->]]]%Hv [[-> ->]|[->|[->| ->]]]%Hv; cbv - [ScopeID];
    intros Heq; try (by split); try discriminate Heq; by injection Heq as <-.
Qed.

Definition override_map (m : gmap string bool) (ovs : list Override) : gmap string bool :=
  fill (fun o => scopeKey (oScope o) (ScopeID o)) Enabled m ovs.

Lemma add_overrides_lookup ovs : forall m k,
  foldl add_override m ovs !! k =
  (fun r => mkResolved (def r) (override_map (overrides r) (filter (fun o => FlagKey o = k) ovs)))
    <$> m !! k.
Proof.
  induction ovs as [|o ovs IH]; intros m k; simpl.
  - by destruct (m !! k) as [[? ?]|].
  - rewrite IH. unfold add_override. destruct (m !! FlagKey o) as [r|] eqn:E.
    + destruct (decide (FlagKey o = k)) as [<-|Hne].
      * by rewrite lookup_insert_eq, E, filter_cons_True.
      * by rewrite lookup_insert_ne, filter_cons_False.
    + destruct (decide (FlagKey o = k)) as [<-|Hne]; [by rewrite E|].
      by rewrite filter_cons_False.
Qed.

Lemma NoDup_fmap_weaken {A B C} (f : A -> B) (g : A -> C) (l : list A) :
  (forall x y, x ∈ l -> y ∈ l -> g x = g y -> f x = f y) -> NoDup (f <$> l) -> NoDup (g <$> l).
Proof.
  induction l as [|a l IH]; intros Hinj; [intros _; constructor|].
  rewrite !fmap_cons, !NoDup_cons. intros [Ha Hl]. split.
  - intros (b & Hb & Hin)%list_elem_of_fmap. apply Ha. apply list_elem_of_fmap. exists b.
    split; [|done]. apply Hinj; [set_solver..|done].
  - apply IH; [|done]. intros x y Hx Hy. apply Hinj; set_solver.
Qed.

Section snapshots.
Context `{Collation}.
Implicit Types (t : Tables) (subj : Subject).

Lemma nodup_scope_keys t k :
  tables_ok t ->
  NoDup ((fun o => scopeKey (oScope o) (ScopeID o)) <$> filter (fun o => FlagKey o = k) (override_rows t)).
Proof.
  intros Ht. apply (NoDup_fmap_weaken okey_of).
  - intros x y [Ex Hx]%list_elem_of_filter [Ey Hy]%list_elem_of_filter.
    apply elem_override_rows in Hx, Hy; [|done..].
    intros [E1 E2]%scopeKey_inj; [|by eapply Ht..]. unfold okey_of. congruence.
  - pose proof (nodup_override_rows _ Ht) as Hnd. revert Hnd. generalize (override_rows t).
    induction l as [|o l IH]; [done|]. rewrite fmap_cons, NoDup_cons. intros [Ho Hl].
    destruct (decide (FlagKey o = k)); [|rewrite filter_cons_False by done; auto].
    rewrite filter_cons_True by done. rewrite fmap_cons. apply NoDup_cons. split; [|auto].
    intros (b & Hb & [_ Hin]%list_elem_of_filter)%list_elem_of_fmap. apply Ho. rewrite Hb.
    by apply list_elem_of_fmap_2.
Qed.

(** The snapshot of the current rows, flag by flag and scope by scope. *)
Lemma snapshot_flag now t k :
  tables_ok t ->
  flags (buildSnapshot now (flag_rows t) (override_rows t)) !! k =
  (fun f => mkResolved (DefaultEnabled f)
     (override_map ∅ (filter (fun o => FlagKey o = k) (override_rows t)))) <$> t_flags t !! k.
Proof.
  intros Ht. unfold buildSnapshot. simpl. rewrite add_overrides_lookup.
  destruct (t_flags t !! k) as [f|] eqn:Ef; simpl.
  - pose proof (ok_flag_key _ Ht _ _ Ef) as <-.
    rewrite (fill_elem Key _ _ _ f); [done|by apply nodup_flag_rows|by apply elem_flag_rows].
  - rewrite fill_other; [done|]. intros (f & -> & Hf%elem_flag_rows)%list_elem_of_fmap; [|done].
    by rewrite Ef in Hf.
Qed.

Lemma override_map_lookup t k o :
  tables_ok t -> FlagKey o = k -> Validate o = None ->
  override_map ∅ (filter (fun o => FlagKey o = k) (override_rows t)) !! scopeKey (oScope o) (ScopeID o)
  = Enabled <$> t_overrides t !! okey_of o.
Proof.
  intros Ht Hk Hv. destruct (t_overrides t !! okey_of o) as [o'|] eqn:Eo; simpl.
  - pose proof (ok_override_key _ Ht _ _ Eo) as Hok. pose proof Hok as [= E1 E2 E3].
    rewrite <- E2, <- E3. apply (fill_elem (fun o => scopeKey (oScope o) (ScopeID o)) Enabled).
    + by apply nodup_scope_keys.
    + apply list_elem_of_filter. split; [congruence|]. apply elem_override_rows; [done|]. by rewrite Hok.
  - unfold override_map. rewrite fill_other; [apply lookup_empty|].
    intros (o' & Hs & [Ek' Ho'%elem_override_rows]%list_elem_of_filter)%list_elem_of_fmap; [|done].
    apply scopeKey_inj in Hs as [E1 E2]; [|done|by eapply Ht].
    assert (okey_of o = okey_of o') as E by (unfold okey_of; congruence). congruence.
Qed.
End snapshots.

(** ** Specification of evaluation

    Of the overrides of the flag that target the subject, the one of highest
    [scopePrecedence] decides; without one the registry default; a flag that
    is not registered is off. *)
Definition targets (subj : Subject) (o : Override) : Prop :=
  oScope o = ScopeGlobal \/
  oScope o = ScopePlan /\ ScopeID o = Plan subj \/
  oScope o = ScopeTenant /\ ScopeID o = TenantID subj \/
  oScope o = ScopeUser /\ ScopeID o = UserID subj.

Definition override_of (t : Tables) (key : string) (subj : Subject) (o : Override) : Prop :=
  t_overrides t !! okey_of o = Some o /\ FlagKey o = key /\ targets subj o.

Definition resolves (t : Tables) (key : string) (subj : Subject) (b : bool) : Prop :=
  match t_flags t !! key with
  | None => b = false
  | Some f =>
      (exists o, override_of t key subj o /\ b = Enabled o /\
         forall o', override_of t key subj o' -> scopePrecedence (oScope o') <= scopePrecedence (oScope o))
      \/ (forall o, ~ override_of t key subj o) /\ b = DefaultEnabled f
  end.

Definition probe (key : string) (scope : Scope) (id : string) : Override :=
  mkOverride "" key scope id false 0 0.

(** What the ladder finds on one rung. *)
Definition rung (t : Tables) (key : string) (scope : Scope) (id : string) : option bool :=
  if String.eqb scope ScopeGlobal then Enabled <$> t_overrides t !! (key, scope, ""%string)
  else if String.eqb id "" then None
  else Enabled <$> t_overrides t !! (key, scope, id).

Definition ladder (subj : Subject) : list (Scope * string) :=
  [(ScopeUser, UserID subj); (ScopeTenant, TenantID subj); (ScopePlan, Plan subj); (ScopeGlobal, ""%string)].

Fixpoint climb (t : Tables) (key : string) (l : list (Scope * string)) : option bool :=
  match l with
  | [] => None
  | (scope, id) :: l => match rung t key scope id with Some v => Some v | None => climb t key l end
  end.

(** On rungs in order of falling precedence, the first hit is the highest. *)
Lemma climb_some t key l v :
  StronglySorted (fun a b => scopePrecedence b.1 <= scopePrecedence a.1) l ->
  climb t key l = Some v ->
  exists scope id, (scope, id) ∈ l /\ rung t key scope id = Some v /\
    forall scope' id', (scope', id') ∈ l -> is_Some (rung t key scope' id') ->
      scopePrecedence scope' <= scopePrecedence scope.
Proof.
  induction 1 as [|[sc i] l Hs IH Hall]; simpl; [done|].
  destruct (rung t key sc i) as [w|] eqn:Er.
  - intros [= ->]. exists sc, i. split_and!; [set_solver|done|].
    intros sc' i' [[= -> _]|Hin]%elem_of_cons _; [lia|].
    rewrite Forall_forall in Hall. by apply (Hall (sc', i')).
  - intros (sc1 & i1 & Hin & Hr & Hmax)%IH. exists sc1, i1. split_and!; [set_solver|done|].
    intros sc' i' [[= -> ->]|Hin']%elem_of_cons Hr'; [rewrite Er in Hr'; by destruct Hr'|eauto].
Qed.

Lemma climb_none t key l scope id :
  climb t key l = None -> (scope, id) ∈ l -> rung t key scope id = None.
Proof.
  induction l as [|[sc i] l IH]; simpl; [by intros _ ?%elem_of_nil|].
  destruct (rung t key sc i) eqn:Er; [done|]. intros Hl [[= -> ->]|Hin]%elem_of_cons; auto.
Qed.

Section evaluation.
Context `{Collation}.
Implicit Types (t : Tables) (subj : Subject).

Lemma scoped_lookup t key scope id :
  tables_ok t -> key <> ""%string -> scope ∈ [ScopeUser; ScopeTenant; ScopePlan] -> id <> ""%string ->
  override_map ∅ (filter (fun o => FlagKey o = key) (override_rows t)) !! scopeKey scope id
  = Enabled <$> t_overrides t !! (key, scope, id).
Proof.
  intros Ht Hk Hs Hid. apply (override_map_lookup t key (probe key scope id)); [done|done|].
  unfold Validate. simpl. rewrite (proj2 (String.eqb_neq key "")) by done.
  rewrite !elem_of_cons, elem_of_nil in Hs.
  destruct Hs as [->|[->|[->|[]]]]; simpl; by rewrite (proj2 (String.eqb_neq id "")) by done.
Qed.

Lemma global_lookup t key :
  tables_ok t -> key <> ""%string ->
  override_map ∅ (filter (fun o => FlagKey o = key) (override_rows t)) !! scopeKey ScopeGlobal ""
  = Enabled <$> t_overrides t !! (key, ScopeGlobal, ""%string).
Proof.
  intros Ht Hk. apply (override_map_lookup t key (probe key ScopeGlobal "")); [done|done|].
  unfold Validate. simpl. by rewrite (proj2 (String.eqb_neq key "")) by done.
Qed.

Lemma evaluate_rungs t key subj d :
  tables_ok t -> key <> ""%string ->
  evaluate (mkResolved d (override_map ∅ (filter (fun o => FlagKey o = key) (override_rows t)))) subj
  = default d (climb t key (ladder subj)).
Proof.
  intros Ht Hk.
  assert (forall scope id, scope ∈ [ScopeUser; ScopeTenant; ScopePlan] ->
    lookup_if id (mkResolved d (override_map ∅ (filter (fun o => FlagKey o = key) (override_rows t))))
      (scopeKey scope id) = rung t key scope id) as Hr.
  { intros scope id Hs. unfold lookup_if, rung.
    assert (String.eqb scope ScopeGlobal = false) as -> by (apply String.eqb_neq; set_solver).
    destruct (String.eqb_spec id ""); [done|]. by apply scoped_lookup. }
  unfold evaluate. rewrite !Hr by set_solver. cbn [overrides def]. rewrite global_lookup by done.
  cbn [ladder climb].
  destruct (rung t key ScopeUser _); [done|]. destruct (rung t key ScopeTenant _); [done|].
  destruct (rung t key ScopePlan _); [done|].
  change (rung t key ScopeGlobal "") with (Enabled <$> t_overrides t !! (key, ScopeGlobal, ""%string)).
  by destruct (Enabled <$> _).
Qed.

Lemma validate_targets o subj :
  Validate o = None -> targets subj o ->
  exists scope id, (scope, id) ∈ ladder subj /\ oScope o = scope /\ ScopeID o = id /\
    (scope = ScopeGlobal \/ id <> ""%string).
Proof.
  unfold Validate. destruct (String.eqb (FlagKey o) ""); [done|]. case_bool_decide as Hs; [|done]. simpl.
  destruct (String.eqb_spec (oScope o) ScopeGlobal) as [Hg|Hg].
  - destruct (String.eqb_spec (ScopeID o) "") as [Hi|]; [|done]. intros _ _.
    exists ScopeGlobal, ""%string. rewrite Hg, Hi. split_and!; [|done..|by left].
    unfold ladder. rewrite !elem_of_cons. auto.
  - destruct (String.eqb_spec (ScopeID o) "") as [|Hi]; [done|]. intros _ [?|[[E1 E2]|[[E1 E2]|[E1 E2]]]];
      [done|exists ScopePlan, (Plan subj)|exists ScopeTenant, (TenantID subj)|exists ScopeUser, (UserID subj)];
      rewrite <- E2; (split_and!; [unfold ladder; rewrite !elem_of_cons, E2; auto 6|done..|by right]).
Qed.

(** A rung holds exactly the override of that scope that targets the subject. *)
Lemma rung_some t key subj scope id v :
  tables_ok t -> (scope, id) ∈ ladder subj -> rung t key scope id = Some v ->
  exists o, override_of t key subj o /\ oScope o = scope /\ Enabled o = v.
Proof.
  intros Ht Hin Hr.
  assert (exists i o, t_overrides t !! (key, scope, i) = Some o /\ Enabled o = v /\
    (scope = ScopeGlobal \/ i = id)) as (i & o & Ho & Hv & Hi).
  { unfold rung in Hr. destruct (String.eqb_spec scope ScopeGlobal).
    - apply fmap_Some in Hr as (o & Ho & ->). eauto 8.
    - destruct (String.eqb id ""); [done|]. apply fmap_Some in Hr as (o & Ho & ->). eauto 8. }
  pose proof (ok_override_key _ Ht _ _ Ho) as Hk. pose proof Hk as [= E1 E2 E3].
  exists o. split_and!; [|done..]. split_and!; [by rewrite Hk|done|].
  unfold targets. rewrite E2, E3. unfold ladder in Hin. rewrite !elem_of_cons, elem_of_nil in Hin.
  destruct Hin as [[= -> ->]|[[= -> ->]|[[= -> ->]|[[= -> ->]|[]]]]]; destruct Hi as [Hi|Hi];
    try discriminate Hi; subst; auto 8.
Qed.

Lemma override_rung t key subj o :
  tables_ok t -> override_of t key subj o ->
  exists scope id, (scope, id) ∈ ladder subj /\ oScope o = scope /\
    rung t key scope id = Some (Enabled o).
Proof.
  intros Ht (Ho & Hk & Htg).
  assert (Validate o = None) as Hv by (by eapply Ht).
  destruct (validate_targets o subj Hv Htg) as (scope & id & Hin & Hs & Hi & Hg).
  exists scope, id. split_and!; [done..|]. unfold okey_of in Ho. rewrite Hk, Hs, Hi in Ho.
  unfold rung. destruct (String.eqb_spec scope ScopeGlobal) as [->|].
  - assert (id = ""%string) as ->; [|exact (f_equal (fmap Enabled) Ho)].
    unfold ladder in Hin. rewrite !elem_of_cons, elem_of_nil in Hin.
    by destruct Hin as [[= ?]|[[= ?]|[[= ?]|[[= ?]|[]]]]].
  - destruct Hg as [?|Hg]; [done|]. rewrite (proj2 (String.eqb_neq id "")) by done.
    exact (f_equal (fmap Enabled) Ho).
Qed.

Lemma evaluate_resolves t key subj f :
  tables_ok t -> key <> ""%string -> t_flags t !! key = Some f ->
  resolves t key subj
    (evaluate (mkResolved (DefaultEnabled f)
       (override_map ∅ (filter (fun o => FlagKey o = key) (override_rows t)))) subj).
Proof.
  intros Ht Hk Hf. rewrite evaluate_rungs by done. unfold resolves. rewrite Hf.
  destruct (climb t key (ladder subj)) as [v|] eqn:Ec; simpl.
  - left. apply climb_some in Ec as (sc & i & Hin & Hr & Hmax); [|by repeat constructor].
    destruct (rung_some t key subj sc i v Ht Hin Hr) as (o & Ho & Es & Ev).
    exists o. split_and!; [done..|]. rewrite Es.
    intros o' (sc' & i' & Hin' & -> & Hr')%override_rung; [|done]. apply (Hmax sc' i'); [done|].
    by rewrite Hr'.
  - right. split; [|done]. intros o (sc & i & Hin & _ & Hr)%override_rung; [|done].
    by rewrite (climb_none _ _ _ _ _ Ec Hin) in Hr.
Qed.

(** A snapshot of the tables answers as they do. *)
Lemma snapshot_resolves now t key subj :
  tables_ok t ->
  resolves t key subj
    (match flags (buildSnapshot now (flag_rows t) (override_rows t)) !! key with
     | None => false
     | Some r => evaluate r subj
     end).
Proof.
  intros Ht. rewrite snapshot_flag by done. destruct (t_flags t !! key) as [f|] eqn:Ef; simpl.
  - apply evaluate_resolves; [done| |done]. intros ->. by rewrite (ok_flag_nonempty _ Ht) in Ef.
  - unfold resolves. by rewrite Ef.
Qed.
End evaluation.

(** ** What the resolver promises *)
Section resolver.
Context `{Collation} (P : Z -> Tables -> Prop).

(** The cached snapshot is that of tables that were current ([P]) when it
    was loaded. *)
Definition witnessed (s : Service) : Prop :=
  forall sn, snap s = Some sn -> exists t, tables_ok t /\ P (loaded sn) t /\
    sn = buildSnapshot (loaded sn) (flag_rows t) (override_rows t).

Lemma witnessed_fresh s sn t key subj :
  witnessed s -> fresh_snapshot t s = Some sn ->
  exists τ T, t - ttl s < τ /\ P τ T /\
    resolves T key subj (match flags sn !! key with None => false | Some r => evaluate r subj end).
Proof.
  intros Hw. unfold fresh_snapshot. destruct (snap s) as [sn'|] eqn:Es; [|done].
  destruct (Z.ltb_spec (t - loaded sn') (ttl s)); [|done]. intros [= ->].
  destruct (Hw sn Es) as (T & HT & HP & ->). exists (loaded sn), T.
  split_and!; [lia|done|by apply snapshot_resolves].
Qed.

Definition monotone (cs : list choice) : Prop := Forall (fun c => 0 <= tick c) cs.

Lemma run_local {A B} cs (f : Z -> pod -> B * pod) (k : B -> prog A) w r :
  run cs (Local f k) w = Some r ->
  exists c cs', cs = c :: cs' /\
    run cs' (k (f (clock w + tick c) (wpod w)).1)
      (mkWorld (db w) (f (clock w + tick c) (wpod w)).2 (clock w + tick c)) = Some r.
Proof.
  destruct cs as [|c cs]; [done|]. simpl. destruct (f _ _) as [b pd] eqn:E. simpl. intros Hr.
  exists c, cs. split; [done|]. rewrite E. simpl. by destruct (run cs _ _) as [[[? ?] ?]|].
Qed.

Lemma run_now {A} cs (k : Z -> prog A) w r :
  run cs (let! t := now in k t) w = Some r ->
  exists c cs', cs = c :: cs' /\ run cs' (k (clock w + tick c)) (advance c w) = Some r.
Proof. intros (c & cs' & -> & Hr)%(run_local _ _ (fun b => k b)). eauto. Qed.

Lemma run_on_handlers {A} cs f (k : prog A) w r :
  run cs (let! _ := on_handlers f in k) w = Some r ->
  exists c cs', cs = c :: cs' /\
    run cs' k (mkWorld (db w) (mkPod (svc (wpod w)) (f (clock w + tick c) (hc (wpod w)))) (clock w + tick c))
    = Some r.
Proof. intros (c & cs' & -> & Hr)%(run_local _ _ (fun _ => k)). eauto. Qed.

Lemma run_on_service {A} cs f (k : prog A) w r :
  run cs (let! _ := on_service f in k) w = Some r ->
  exists c cs', cs = c :: cs' /\
    run cs' k (mkWorld (db w) (mkPod (f (clock w + tick c) <$> svc (wpod w)) (hc (wpod w))) (clock w + tick c))
    = Some r.
Proof. intros (c & cs' & -> & Hr)%(run_local _ _ (fun _ => k)). eauto. Qed.

Lemma run_loadAll cs w r gs w' :
  run cs (loadAll true) w = Some (r, gs, w') -> monotone cs ->
  clock w <= clock w' /\ db w' = db w /\ wpod w' = wpod w /\ gs = [] /\
  ((exists e, r = Err e) \/ r = Ok (flag_rows (db w), override_rows (db w))).
Proof.
  unfold loadAll. simpl. intros Hr Ht. destruct cs as [|c1 cs]; [done|].
  apply Forall_cons in Ht as [T1 Ht]. simpl in Hr. unfold answer at 1 in Hr.
  destruct (fault c1) as [[? e]|].
  { rewrite run_ret in Hr. injection Hr as <- <- <-. simpl. split_and!; [lia|done..|]. eauto. }
  destruct cs as [|c2 cs]; [done|]. apply Forall_cons in Ht as [T2 Ht]. simpl in Hr. unfold answer in Hr.
  destruct (fault c2) as [[? e]|]; rewrite run_ret in Hr; injection Hr as <- <- <-; simpl;
    (split_and!; [lia|done..|]); eauto.
Qed.

Lemma run_refresh cs w r gs w' s :
  run cs (refresh true) w = Some (r, gs, w') -> svc (wpod w) = Some s -> monotone cs ->
  clock w <= clock w' /\ db w' = db w /\
  ((exists e, r = Err e /\ svc (wpod w') = Some s) \/
   exists t, clock w <= t <= clock w' /\
     let sn := buildSnapshot t (flag_rows (db w)) (override_rows (db w)) in
     r = Ok sn /\ svc (wpod w') = Some (mkService (ttl s) (Some sn) (plans s))).
Proof.
  intros Hr Hs Ht. apply run_bind in Hr as (cs1 & cs2 & a & gs1 & gs2 & w1 & -> & Hl & Hr & _).
  apply Forall_app in Ht as [T1 T2]. apply run_loadAll in Hl as (Hc & Hd & Hp & _ & Ha); [|done].
  destruct Ha as [[e ->]| ->].
  - rewrite run_ret in Hr. injection Hr as <- <- <-. rewrite Hp. eauto 8.
  - apply run_local in Hr as (c & cs & -> & Hr). simpl in Hr.
    apply run_local in Hr as (c' & cs' & -> & Hr). simpl in Hr. rewrite run_ret in Hr.
    injection Hr as <- <- <-. simpl. rewrite Hp, Hs, Hd. apply Forall_cons in T2 as [? [? _]%Forall_cons].
    split_and!; [lia|done|]. right. eexists. split; [|split; reflexivity]. lia.
Qed.

Lemma run_get_service {A B} cs (f : Z -> Service -> B) d (k : B -> prog A) w r s :
  run cs (let! c := get_service f d in k c) w = Some r -> svc (wpod w) = Some s -> monotone cs ->
  exists t cs', clock w <= t /\ monotone cs' /\ run cs' (k (f t s)) (mkWorld (db w) (wpod w) t) = Some r.
Proof.
  intros Hr Hs Ht. unfold get_service in Hr. simpl in Hr. apply run_local in Hr as (c & cs' & -> & Hr).
  simpl in Hr. rewrite Hs in Hr. apply Forall_cons in Ht as [? ?].
  exists (clock w + tick c), cs'. split_and!; [lia|done..].
Qed.

(** Bounded staleness, failing safe.  Whatever the database does during
    the call, an evaluation answers off, or as the tables did at some moment
    within the last TTL: the matching override of highest precedence, else the
    registry default, off for an unregistered flag.  The cached snapshot stays
    one of real tables. *)
Theorem bounded_staleness cs key subj w b gs w' s :
  tables_ok (db w) -> monotone cs -> svc (wpod w) = Some s -> witnessed s -> 0 < ttl s ->
  (forall τ, clock w <= τ <= clock w' -> P τ (db w)) ->
  run cs (EvaluateSubject true key subj) w = Some (b, gs, w') ->
  (exists s', svc (wpod w') = Some s' /\ witnessed s') /\
  (b = false \/ exists τ T, clock w' - ttl s < τ /\ P τ T /\ resolves T key subj b).
Proof.
  intros Hok Ht Hs Hw Httl HP Hr.
  apply run_bind in Hr as (cs1 & cs2 & a & gs1 & gs2 & w1 & -> & Hg & Hr & _).
  rewrite run_ret in Hr. injection Hr as <- <- ->. apply Forall_app in Ht as [Ht _].
  apply (run_get_service _ _ _ _ _ _ s) in Hg as (t1 & cs3 & L1 & Ht3 & Hg); [|done..].
  destruct (fresh_snapshot t1 s) as [sn|] eqn:E1.
  { rewrite run_ret in Hg. injection Hg as <- _ <-. simpl. split; [by eauto|right].
    by eapply witnessed_fresh. }
  apply (run_get_service _ _ _ _ _ _ s) in Hg as (t2 & cs4 & L2 & Ht4 & Hg); [|done..].
  simpl in L2, Hg. destruct (fresh_snapshot t2 s) as [sn|] eqn:E2.
  { rewrite run_ret in Hg. injection Hg as <- _ <-. simpl. split; [by eauto|right].
    by eapply witnessed_fresh. }
  apply (run_refresh _ _ _ _ _ s) in Hg as (L3 & _ & [(e & -> & Hs')|(t & Hb & -> & Hs')]); [| |done..].
  - split; [by eauto|by left].
  - simpl in *. split.
    + eexists. split; [exact Hs'|]. intros sn [= <-]. exists (db w). split_and!; [done| |done].
      apply HP. simpl. lia.
    + right. exists (clock w'), (db w). split_and!; [lia| |exact (snapshot_resolves t (db w) key subj Hok)].
      apply HP. lia.
Qed.
End resolver.

Section admin.
Context `{Collation}.

(** With the snapshot past its TTL and the database down, a flag is off,
    whatever the last snapshot said; the snapshot stays in the cache. *)
Theorem stale_outage_off c1 c2 c3 cs key subj w s a e :
  svc (wpod w) = Some s -> fresh_snapshot (clock w + tick c1) s = None ->
  fresh_snapshot (clock w + tick c1 + tick c2) s = None -> fault c3 = Some (a, e) ->
  exists w', run (c1 :: c2 :: c3 :: cs) (EvaluateSubject true key subj) w = Some (false, [], w') /\
    svc (wpod w') = Some s.
Proof.
  intros Hs H1 H2 Hf. eexists. simpl. rewrite Hs, H1. simpl. rewrite Hs, H2. simpl.
  unfold answer. rewrite Hf. simpl. rewrite run_ret. done.
Qed.

(** Faults that strike before the statement takes effect. *)
Definition early (cs : list choice) : Prop := Forall (fun c => forall e, fault c <> Some (true, e)) cs.

Definition reads_past (w : world) : Prop :=
  match cachedReadStart (hc (wpod w)) with Some r => r <= clock w | None => True end.

Lemma reads_past_before w w' t :
  reads_past w -> wpod w' = wpod w -> clock w <= t -> before t (cachedReadStart (hc (wpod w'))) = false.
Proof.
  unfold reads_past, before. intros Hr -> Ht. destruct (cachedReadStart _); [|done]. apply Z.ltb_ge. lia.
Qed.

Lemma run_write cs q w e gs w' :
  run cs (Write q Ret) w = Some (e, gs, w') -> monotone cs -> early cs ->
  clock w <= clock w' /\ wpod w' = wpod w /\ gs = [] /\ (is_Some e -> db w' = db w).
Proof.
  intros Hr Ht He. destruct cs as [|c cs]; [done|]. simpl in Hr.
  apply Forall_cons in Ht as [Ht _]. apply Forall_cons in He as [He _].
  destruct (fault c) as [[[] e']|]; [by destruct (He e')| |].
  - rewrite run_ret in Hr. injection Hr as <- <- <-. simpl. split_and!; [lia|done..].
  - destruct (exec_stmt _ _ _ _) as [d|]; rewrite run_ret in Hr; injection Hr as <- <- <-; simpl;
      (split_and!; [lia|done..|]); [by intros []|done].
Qed.

Lemma run_set_override cs o w e gs w' :
  run cs (SetOverride true o) w = Some (e, gs, w') -> monotone cs -> early cs ->
  clock w <= clock w' /\ wpod w' = wpod w /\ gs = [].
Proof.
  intros Hr Ht He. unfold SetOverride in Hr. simpl in Hr. destruct (Validate o).
  - rewrite run_ret in Hr. injection Hr as <- <- <-. by split_and!.
  - apply run_write in Hr as (? & ? & ? & _); done.
Qed.

Lemma run_apply_ops key ops : forall cs w e gs w',
  run cs (apply_ops true key ops) w = Some (e, gs, w') -> monotone cs -> early cs ->
  clock w <= clock w' /\ wpod w' = wpod w /\ gs = [].
Proof.
  induction ops as [|op ops IH]; intros cs w e gs w' Hr Ht He.
  { simpl in Hr. rewrite run_ret in Hr. injection Hr as <- <- <-. by split_and!. }
  apply run_bind in Hr as (cs1 & cs2 & a & gs1 & gs2 & w1 & -> & H1 & H2 & ->).
  apply Forall_app in Ht as [T1 T2]. apply Forall_app in He as [E1 E2].
  assert (clock w <= clock w1 /\ wpod w1 = wpod w /\ gs1 = []) as (Hc & Hp & ->).
  { destruct (op_Delete op); [apply run_write in H1 as (? & ? & ? & _)|apply run_set_override in H1]; done. }
  destruct a as [a|].
  - rewrite run_ret in H2. injection H2 as <- <- <-. done.
  - apply IH in H2 as (? & ? & ->); [|done..]. split_and!; [lia|congruence|done].
Qed.

Lemma run_loadViews cs w r gs w' :
  run cs (loadViews true) w = Some (r, gs, w') -> monotone cs ->
  clock w <= clock w' /\ db w' = db w /\ wpod w' = wpod w /\ gs = [] /\
  ((exists e, r = Err e) \/ r = Ok (assembleViews (flag_rows (db w)) (override_rows (db w)))).
Proof.
  intros Hr Ht. apply run_bind in Hr as (cs1 & cs2 & a & gs1 & gs2 & w1 & -> & Hl & Hr & ->).
  apply Forall_app in Ht as [T1 T2]. apply run_loadAll in Hl as (Hc & Hd & Hp & -> & Ha); [|done].
  rewrite run_ret in Hr. injection Hr as <- <- <-. split_and!; [done..|].
  destruct Ha as [[e ->]| ->]; [left; eauto|by right].
Qed.

(** The last-known-good cache after a write that landed. *)
Definition reconciled (w w' : world) (body : option putRequest) (gs : list (prog unit)) : Prop :=
  lastGood (hc (wpod w')) = None \/
  lastGood (hc (wpod w')) = Some (assembleViews (flag_rows (db w')) (override_rows (db w'))) \/
  gs = [refreshCacheAfterWrite true] \/
  exists i vs, body = Some i /\ in_Delete i = true /\ lastGood (hc (wpod w)) = Some vs /\
    lastGood (hc (wpod w')) = Some (filter (fun v => vKey v <> in_Key i) vs).

Lemma run_put_writes cs i w r mutated cr gs w' :
  run cs (put_writes true i) w = Some (r, mutated, cr, gs, w') -> monotone cs -> early cs -> reads_past w ->
  clock w <= clock w' /\ svc (wpod w') = svc (wpod w) /\
  ((mutated = false /\ db w' = db w /\ hc (wpod w') = hc (wpod w)) \/
   (mutated = true /\ cr = false /\ hc (wpod w') = hc (wpod w)) \/
   (mutated = true /\ cr = true /\ reconciled w w' (Some i) gs)).
Proof.
  intros Hr Ht He Hrp. apply run_bind in Hr as (cs1 & cs2 & e & gs1 & gs2 & w1 & -> & H1 & H2 & ->).
  apply Forall_app in Ht as [T1 T2]. apply Forall_app in He as [E1 E2].
  assert (clock w <= clock w1 /\ wpod w1 = wpod w /\ gs1 = [] /\ (is_Some e -> db w1 = db w)) as (Hc & Hp & -> & Hd).
  { unfold UpsertFlag in H1. simpl in H1. destruct (String.eqb _ _); [|by apply run_write in H1].
    rewrite run_ret in H1. injection H1 as <- <- <-. by split_and!. }
  destruct e as [e|].
  { rewrite run_ret in H2. injection H2 as <- <- <- <- <-. rewrite Hp, Hd by eauto. split_and!; [done..|]. by left. }
  apply run_bind in H2 as (cs3 & cs4 & e & gs3 & gs4 & w2 & -> & H3 & H4 & ->).
  apply Forall_app in T2 as [T3 T4]. apply Forall_app in E2 as [E3 E4].
  apply run_apply_ops in H3 as (Hc2 & Hp2 & ->); [|done..]. rewrite Hp in Hp2. destruct e as [e|].
  { rewrite run_ret in H4. injection H4 as <- <- <- <- <-. rewrite Hp2. split_and!; [lia|done|]. right. by left. }
  apply run_now in H4 as (c & cs5 & -> & H4). apply Forall_cons in T4 as [T4 T5].
  apply run_bind in H4 as (cs6 & cs7 & v & gs6 & gs7 & w3 & -> & H6 & H7 & ->).
  apply Forall_app in T5 as [T6 T7]. apply run_loadViews in H6 as (Hc3 & Hd3 & Hp3 & -> & Hv); [|done].
  simpl in Hc3, Hd3, Hp3. rewrite Hp2 in Hp3.
  destruct Hv as [[e' ->]| ->].
  - destruct cs7 as [|c7 cs7]; [done|]. apply Forall_cons in T7 as [T7 _]. simpl in H7. rewrite run_ret in H7.
    injection H7 as <- <- <- <- <-. simpl. rewrite Hp3. split_and!; [lia|done|]. right. right.
    split_and!; [done..|]. right. right. by left.
  - apply run_on_handlers in H7 as (c7 & cs8 & -> & H7). apply Forall_cons in T7 as [T7 _].
    rewrite run_ret in H7. injection H7 as <- <- <- <- <-.
    cbn -[assembleViews]. rewrite Hp3. split_and!; [lia|done|]. right. right. split_and!; [done..|].
    right. left. cbn -[assembleViews]. unfold cacheViews.
    rewrite (reads_past_before w w) by (done || lia). cbn -[assembleViews]. rewrite Hd3. done.
Qed.

(** A PUT never leaves stale state behind it.  On every return path of
    the handler, with any fault of the database that strikes before a
    statement takes effect: either no row changed, or the resolver's caches
    are gone and the last-known-good cache is empty, is the view of the new
    rows, is being reloaded by a goroutine, or (whole-flag delete) is the old
    one without the flag. *)
Theorem put_reconciles cs userID body w r gs w' :
  monotone cs -> early cs -> reads_past w ->
  run cs (put true userID body) w = Some (r, gs, w') ->
  (db w' = db w /\ wpod w' = wpod w) \/
  (svc (wpod w') = Invalidate <$> svc (wpod w) /\ reconciled w w' body gs).
Proof.
  intros Ht He Hrp Hr. unfold put in Hr.
  destruct (String.eqb userID ""); [rewrite run_ret in Hr; injection Hr as <- <- <-; by left|].
  destruct body as [i|]; [|rewrite run_ret in Hr; injection Hr as <- <- <-; by left].
  destruct (String.eqb (in_Key i) ""); [rewrite run_ret in Hr; injection Hr as <- <- <-; by left|].
  destruct (in_Delete i) eqn:Ed.
  - apply run_bind in Hr as (cs1 & cs2 & e & gs1 & gs2 & w1 & -> & H1 & H2 & ->).
    apply Forall_app in Ht as [T1 T2]. apply Forall_app in He as [E1 E2].
    apply run_write in H1 as (Hc & Hp & -> & Hd); [|done..]. destruct e as [e|].
    { rewrite run_ret in H2. injection H2 as <- <- <-. rewrite Hp, Hd by eauto. by left. }
    apply run_on_service in H2 as (c & cs3 & -> & H2). apply run_on_handlers in H2 as (c' & cs4 & -> & H2).
    rewrite run_ret in H2. injection H2 as <- <- <-. right. simpl. rewrite Hp. split; [done|].
    unfold reconciled, removeFlagFromCache. simpl.
    destruct (lastGood (hc (wpod w))) as [vs|]; [|by left]. right. right. right. eauto 8.
  - destruct (negb _); [rewrite run_ret in Hr; injection Hr as <- <- <-; by left|].
    apply run_bind in Hr as (cs1 & cs2 & [[r1 mut] cr] & gs1 & gs2 & w1 & -> & H1 & H2 & ->).
    apply Forall_app in Ht as [T1 T2]. apply Forall_app in He as [E1 E2].
    apply run_put_writes in H1 as (Hc & Hs & [(-> & Hd & Hh)|[(-> & -> & Hh)|(-> & -> & Hrec)]]); [..|done|done|done].
    + rewrite run_ret in H2. injection H2 as <- <- <-. left. split; [done|].
      destruct (wpod w1), (wpod w). simpl in *. congruence.
    + apply run_on_service in H2 as (c & cs3 & -> & H2). apply run_now in H2 as (c' & cs4 & -> & H2).
      apply run_on_handlers in H2 as (c2 & cs5 & -> & H2). rewrite run_ret in H2. injection H2 as <- <- <-.
      apply Forall_cons in T2 as [? [? _]%Forall_cons].
      right. simpl. rewrite Hs. split; [done|]. left. simpl. unfold dropCache. rewrite Hh.
      rewrite (reads_past_before w w) by (done || lia). done.
    + apply run_on_service in H2 as (c & cs3 & -> & H2). rewrite run_ret in H2. injection H2 as <- <- <-.
      right. simpl. rewrite Hs, app_nil_r. split; [done|]. exact Hrec.
Qed.
End admin.

(** ** A deleted flag does not come back

    [y] is deleted and taken out of the cache at time [C].  [later] is what a
    program must satisfy from then on, [safe] what one started before
    satisfies at any point before [C]; both are weakest preconditions. *)
Section deletion.
Variables (y : string) (C : Z).

Definition lacks (vs : list FlagView) : Prop := forall v, v ∈ vs -> vKey v <> y.

Definition clean (h : Handlers) : Prop :=
  (forall vs, lastGood h = Some vs -> lacks vs) /\ exists r, cachedReadStart h = Some r /\ C <= r.

Fixpoint later {A} (Q : A -> Prop) (p : prog A) : Prop :=
  match p with
  | Ret a => Q a
  | Local f k => forall t pd, C < t -> clean (hc pd) -> clean (hc (f t pd).2) /\ later Q (k (f t pd).1)
  | ListFlags k =>
      forall r, (forall fl f, r = Ok fl -> f ∈ fl -> Key f <> y) -> later Q (k r)
  | ListOverrides k => forall r, later Q (k r)
  | QueryPlan _ k => forall r, later Q (k r)
  | Write _ k => forall r, later Q (k r)
  | Go p k => later (fun _ => True) p /\ later Q k
  end.

Fixpoint safe {A} (Q : A -> Prop) (p : prog A) : Prop :=
  later Q p /\
  match p with
  | Ret _ => True
  | Local f k => forall t pd, t < C -> safe Q (k (f t pd).1)
  | ListFlags k => forall r, safe Q (k r)
  | ListOverrides k => forall r, safe Q (k r)
  | QueryPlan _ k => forall r, safe Q (k r)
  | Write _ k => forall r, safe Q (k r)
  | Go p k => safe (fun _ => True) p /\ safe Q k
  end.

Lemma safe_later {A} (Q : A -> Prop) p : safe Q p -> later Q p.
Proof. destruct p; simpl; tauto. Qed.

Lemma later_bind {A B} (Q : A -> Prop) (R : B -> Prop) (f : A -> prog B) m :
  later Q m -> (forall a, Q a -> later R (f a)) -> later R (pbind m f).
Proof.
  intros Hm Hf. revert Hm. induction m; simpl; eauto.
  - intros Hm t pd Ht Hc. destruct (Hm t pd Ht Hc). eauto.
  - intros [? ?]. eauto.
Qed.

Lemma safe_bind {A B} (Q : A -> Prop) (R : B -> Prop) (f : A -> prog B) m :
  safe Q m -> (forall a, Q a -> safe R (f a)) -> safe R (pbind m f).
Proof.
  intros Hm Hf. assert (forall a, Q a -> later R (f a)) as Hl by (intros; by apply safe_later, Hf).
  revert Hm. induction m; simpl pbind; [by intros [? _]; apply Hf|..]; intros [H1 H2];
    (split; [exact (later_bind Q R f _ H1 Hl)|]); eauto.
  destruct H2. eauto.
Qed.

Lemma clean_cacheViews views r t h :
  (C < r /\ lacks views) \/ r < C -> clean h -> clean (cacheViews views r t h).
Proof.
  intros Hr [Hl (c & Hc & Hle)]. unfold cacheViews, before. rewrite Hc.
  destruct (Z.ltb_spec r c); [split; eauto|]. destruct Hr as [[Hr Hv]|Hr]; [|lia].
  split; simpl; [by intros vs [= <-]|]. exists r. split; [done|lia].
Qed.

Lemma clean_dropCache r h : clean h -> clean (dropCache r h).
Proof.
  intros [Hl (c & Hc & Hle)]. unfold dropCache, before. rewrite Hc.
  destruct (Z.ltb_spec r c); split; simpl; eauto; try done. exists r. split; [done|lia].
Qed.

Lemma clean_removeFlag key t h : C < t -> clean h -> clean (removeFlagFromCache key t h).
Proof.
  intros Ht [Hl _]. unfold removeFlagFromCache. destruct (lastGood h) as [vs|]; split; simpl;
    try done; try (exists t; split; [done|lia]).
  intros vs' [= <-] v [_ Hv]%list_elem_of_filter. by eapply Hl.
Qed.

Lemma lacks_assemble fl ovs :
  (forall f, f ∈ fl -> Key f <> y) -> lacks (assembleViews fl ovs).
Proof.
  intros Hf v Hv. unfold assembleViews in Hv. apply list_elem_of_fmap in Hv as (w & -> & Hw).
  unfold vKey. simpl. apply Hf.
  set (vs := merge_sort view_le _) in Hw.
  assert (forall v, v ∈ vs -> vFlag v ∈ fl) as Hvs.
  { intros u Hu. unfold vs in Hu. rewrite merge_sort_Permutation in Hu.
    by apply list_elem_of_fmap in Hu as (f & -> & ?). }
  clearbody vs. generalize dependent (index_by_key vs). intros byKey. revert vs Hvs w.
  induction ovs as [|o ovs IH]; intros vs Hvs w Hw; simpl in Hw; [by apply Hvs|].
  apply (IH _) in Hw; [done|]. destruct (byKey !! FlagKey o) as [i|]; [|done].
  intros u [j Hj]%list_elem_of_lookup. rewrite list_lookup_alter in Hj.
  destruct (decide (i = j)); [|by apply Hvs; eapply list_elem_of_lookup_2].
  apply fmap_Some in Hj as (u' & Hu & ->). simpl. apply Hvs. by eapply list_elem_of_lookup_2.
Qed.

Definition without (r : result chain (list FlagView)) : Prop := forall vs, r = Ok vs -> lacks vs.

Lemma later_loadViews : later without (loadViews true).
Proof.
  simpl. intros r Hr. destruct r as [fl|e]; simpl; [|done]. intros [ovs|e]; simpl; [|done].
  intros vs [= <-]. apply lacks_assemble. intros f. by apply (Hr fl).
Qed.

Lemma safe_loadViews : safe (fun _ => True) (loadViews true).
Proof.
  simpl. split; intros [fl|e]; simpl; try done.
  - intros _ [ovs|e]; done.
  - split; intros [ovs|e]; done.
Qed.

(** A reading of the rows, and what is done with it. *)
Lemma safe_read {A} (Q : A -> Prop) (g : Z -> result chain (list FlagView) -> prog A) :
  (forall r v, C < r -> without v -> later Q (g r v)) -> (forall r v, r < C -> safe Q (g r v)) ->
  safe Q (let! r := now in let! v := loadViews true in g r v).
Proof.
  intros H1 H2. unfold now. cbn [pbind safe later]. split.
  - intros t pd Ht Hc. split; [done|]. eapply later_bind; [apply later_loadViews|]. auto.
  - intros t pd Ht. eapply safe_bind; [apply safe_loadViews|]. auto.
Qed.

Abbreviation fine p := (safe (fun _ => True) p).

Lemma fine_on_handlers f :
  (forall t h, C < t -> clean h -> clean (f t h)) -> fine (on_handlers f).
Proof. intros Hf. simpl. split; intros; [split; [by apply Hf|done]|done]. Qed.

Lemma fine_on_service f : fine (on_service f).
Proof. simpl. by split. Qed.

Lemma fine_get {B} (f : Z -> pod -> B) : fine (Local (fun t p => (f t p, p)) Ret).
Proof. simpl. by split. Qed.

Lemma fine_ret {A} (a : A) : fine (Ret a).
Proof. by split. Qed.

Lemma fine_bind {A B} (m : prog A) (f : A -> prog B) :
  fine m -> (forall a, fine (f a)) -> fine (pbind m f).
Proof. intros Hm Hf. eapply safe_bind; [exact Hm|auto]. Qed.

Lemma fine_write q : fine (Write q Ret).
Proof. simpl. by split. Qed.

#[local] Hint Resolve fine_on_service fine_get fine_ret fine_bind fine_write : core.

Lemma fine_refresh : fine (refresh true).
Proof.
  apply fine_bind.
  - simpl. split; intros [fl|e]; simpl; try done; [intros _ [ovs|e]|split; intros [ovs|e]]; done.
  - intros [[fl ovs]|e]; [|auto]. apply fine_bind; [apply (fine_get (fun t _ => t))|auto].
Qed.

Lemma fine_get_service {B} (f : Z -> Service -> B) d : fine (get_service f d).
Proof. apply (fine_get (fun t p => match svc p with Some s => f t s | None => d end)). Qed.
#[local] Hint Resolve fine_refresh fine_get_service : core.

Lemma fine_planFor tenantID : fine (planFor true tenantID).
Proof.
  apply fine_bind; [auto|]. intros [p|]; [auto|]. apply fine_bind; [auto|]. intros [p|]; [auto|].
  apply fine_bind; [|intros [p|]; auto]. unfold tenantPlan. simpl. destruct (String.eqb _ _); [auto|].
  by split.
Qed.

Lemma fine_IsEnabled tenantID userID key : fine (IsEnabled true tenantID userID key).
Proof.
  apply fine_bind; [destruct (String.eqb _ _); [auto|apply fine_planFor]|]. intros p.
  apply fine_bind; [|auto]. apply fine_bind; [auto|]. intros [sn|]; [auto|].
  apply fine_bind; [auto|]. intros [sn|]; auto.
Qed.

(** Caching what was read is harmless: a reading begun before [C] is refused,
    one begun after it lacks [y]. *)
Lemma fine_read_cache {A} (ok : list FlagView -> prog A) (bad : Z -> chain -> prog A) :
  (forall vs, fine (ok vs)) -> (forall r e, fine (bad r e)) ->
  fine (let! r := now in let! v := loadViews true in
        match v with
        | Err e => bad r e
        | Ok vs => let! _ := on_handlers (fun t => cacheViews vs r t) in ok vs
        end).
Proof.
  intros Hok Hbad. apply safe_read.
  - intros r [vs|e] Hr Hv; [|by apply safe_later]. eapply later_bind; [|intros; apply safe_later, Hok].
    apply safe_later, fine_on_handlers. intros t h _. apply clean_cacheViews. left. split; [done|].
    by apply Hv.
  - intros r [vs|e] Hr; [|done]. apply fine_bind; [|auto]. apply fine_on_handlers.
    intros t h _. apply clean_cacheViews. by right.
Qed.

Lemma fine_list : fine (list_flags true).
Proof.
  apply (fine_read_cache (fun vs => Ret (RFlags vs))); [auto|]. intros r e.
  destruct (isStoreUnavailable e); [|auto]. apply fine_bind; [apply fine_get|].
  intros [[[vs age]|] within]; [|auto]. destruct (within age); auto.
Qed.

Lemma fine_refreshCacheAfterWrite : fine (refreshCacheAfterWrite true).
Proof.
  apply (fine_read_cache (fun _ => Ret tt) (fun r _ => on_handlers (fun _ => dropCache r))); [auto|].
  intros r _. apply fine_on_handlers. intros t h _. apply clean_dropCache.
Qed.

Lemma fine_apply_ops key ops : fine (apply_ops true key ops).
Proof.
  induction ops as [|op ops IH]; [simpl; auto|]. apply fine_bind; [|intros [e|]; auto].
  destruct (op_Delete op); [apply fine_write|]. unfold SetOverride. cbn [negb].
  destruct (Validate (op_override key op)); [apply fine_ret|apply fine_write].
Qed.

Lemma fine_put_writes i : fine (put_writes true i).
Proof.
  apply fine_bind; [unfold UpsertFlag; simpl; destruct (String.eqb _ _); auto|]. intros [e|]; [auto|].
  apply fine_bind; [apply fine_apply_ops|]. intros [e|]; [auto|].
  apply (fine_read_cache
    (fun views => Ret (match list_find (fun v => vKey v = in_Key i) views with
                       | Some (_, v) => RView v
                       | None => RKey (in_Key i)
                       end, true, true))
    (fun _ _ => Go (refreshCacheAfterWrite true) (Ret (RKey (in_Key i), true, true)))); [auto|].
  intros _ _. pose proof fine_refreshCacheAfterWrite as Hf. split; [|by split].
  split; [by apply safe_later|done].
Qed.

Lemma fine_put userID body : fine (put true userID body).
Proof.
  unfold put. destruct (String.eqb userID ""); [auto|]. destruct body as [i|]; [|auto].
  destruct (String.eqb _ _); [auto|]. destruct (in_Delete i).
  - apply fine_bind; [apply fine_write|]. intros [e|]; [auto|]. apply fine_bind; [apply fine_on_service|].
    intros _. apply fine_bind; [|auto]. apply fine_on_handlers. intros t h. apply clean_removeFlag.
  - destruct (negb _); [auto|]. apply fine_bind; [apply fine_put_writes|]. intros [[r []] []]; [..|auto|auto].
    + apply fine_bind; [apply fine_on_service|auto].
    + apply fine_bind; [apply fine_on_service|]. intros _. apply fine_bind; [apply (fine_get (fun t _ => t))|].
      intros t. apply fine_bind; [|auto]. apply fine_on_handlers. intros t' h _. apply clean_dropCache.
Qed.

Lemma fine_serve q : fine (serve q).
Proof.
  destruct q; (apply fine_bind; [|auto]);
    [apply fine_list|apply fine_put|apply fine_IsEnabled|apply fine_refresh].
Qed.
End deletion.

Section deletion_run.
Context `{Collation}.

Lemma astep_db {A} c (p p' : prog A) g w w' :
  tables_ok (db w) -> astep c p w = Some (p', g, w') ->
  tables_ok (db w') /\ clock w' = clock w + tick c.
Proof.
  intros Hok. destruct p; simpl.
  - done.
  - destruct (f _ _). by intros [= <- <- <-].
  - by intros [= <- <- <-].
  - by intros [= <- <- <-].
  - by intros [= <- <- <-].
  - destruct (fault c) as [[[] e]|], (exec_stmt (clock w + tick c) (uuid c) q (db w)) as [d|] eqn:E; intros [= <- <- <-]; simpl;
      try done; (split; [by eapply exec_stmt_ok|done]).
  - by intros [= <- <- <-].
Qed.

Lemma astep_safe {A} y C c (Q : A -> Prop) p p' g w w' :
  safe y C Q p -> clock w + tick c < C -> astep c p w = Some (p', g, w') ->
  safe y C Q p' /\ (forall q, g = Some q -> safe y C (fun _ => True) q).
Proof.
  destruct p; intros [_ Hs] Ht.
  - done.
  - simpl. specialize (Hs (clock w + tick c) (wpod w) Ht). destruct (f _ _). by intros [= <- <- <-].
  - by intros [= <- <- <-].
  - by intros [= <- <- <-].
  - by intros [= <- <- <-].
  - simpl. by destruct (fault c) as [[[] e]|], (exec_stmt (clock w + tick c) (uuid c) q (db w)) as [d|]; intros [= <- <- <-].
  - destruct Hs. intros [= <- <- <-]. split; [done|]. by intros q' [= <-].
Qed.

Lemma astep_later {A} y C c (Q : A -> Prop) p p' g w w' :
  later y C Q p -> C < clock w + tick c -> tables_ok (db w) -> t_flags (db w) !! y = None ->
  clean y C (hc (wpod w)) -> astep c p w = Some (p', g, w') ->
  later y C Q p' /\ (forall q, g = Some q -> later y C (fun _ => True) q) /\ clean y C (hc (wpod w')).
Proof.
  intros Hl Ht Hok Hy Hc. destruct p; simpl in Hl.
  - done.
  - simpl. specialize (Hl (clock w + tick c) (wpod w) Ht Hc). destruct (f _ _).
    intros [= <- <- <-]. simpl in *. by destruct Hl.
  - intros [= <- <- <-]. split_and!; [|done..]. apply Hl. intros fl f.
    unfold answer. destruct (fault c) as [[? ?]|]; [done|]. intros [= <-] Hin.
    apply elem_flag_rows in Hin; [|done]. intros E. rewrite E in Hin. simpl in Hin. congruence.
  - by intros [= <- <- <-].
  - by intros [= <- <- <-].
  - simpl. by destruct (fault c) as [[[] e]|], (exec_stmt (clock w + tick c) (uuid c) q (db w)) as [d|]; intros [= <- <- <-].
  - destruct Hl. intros [= <- <- <-]. split_and!; [done| |done]. by intros q' [= <-].
Qed.

(** Before the removal: programs are [safe] for every later moment. *)
Definition sys_safe (s : system) : Prop :=
  tables_ok (db (base s)) /\
  forall y C i p, clock (base s) < C -> threads s !! i = Some p -> safe y C (fun _ => True) p.

Lemma sys_safe_step s e s' : sys_safe s -> sstep s e s' -> sys_safe s'.
Proof.
  intros [Hok Hs]. inversion 1 as [? i q Hi|? i j c p p' g w' Ht Hi Hj Ha]; subst; simpl.
  - split; [done|]. simpl. intros y C i' p HC [[<- <-]|[_ Hp]]%lookup_insert_Some; [apply fine_serve|by eapply Hs].
  - destruct (astep_db _ _ _ _ _ _ Hok Ha) as [Hok' Hclk]. split; [done|]. simpl.
    intros y C i' p1 HC. rewrite Hclk in HC.
    destruct (astep_safe y C c (fun _ => True) p p' g (base s) w') as [Hp' Hg]; [eapply Hs; [lia|done]|lia|done|].
    assert (forall p, <[i := p']> (threads s) !! i' = Some p -> safe y C (fun _ => True) p) as Hold.
    { intros p0 [[_ <-]|[_ Hp]]%lookup_insert_Some; [done|]. eapply Hs; [lia|done]. }
    destruct g as [q|]; [|by apply Hold].
    intros [[_ <-]|[_ Hp]]%lookup_insert_Some; [|by apply Hold].
    apply fine_bind; [by apply Hg|]. intros _. apply fine_ret.
Qed.

(** From the removal on, while the flag is not created again. *)
Definition sys_later (y : string) (C : Z) (s : system) : Prop :=
  tables_ok (db (base s)) /\ t_flags (db (base s)) !! y = None /\ C <= clock (base s) /\
  clean y C (hc (wpod (base s))) /\
  forall i p, threads s !! i = Some p -> later y C (fun _ => True) p.

Definition absent_step (y : string) (s : system) (e : label) (s' : system) : Prop :=
  sstep s e s' /\ t_flags (db (base s')) !! y = None.

Lemma sys_later_step y C s e s' : sys_later y C s -> absent_step y s e s' -> sys_later y C s'.
Proof.
  intros (Hok & Hy & HC & Hc & Hl) [Hs Hy'].
  inversion Hs as [? i q Hi|? i j c p p' g w' Ht Hi Hj Ha]; subst; simpl in *.
  - split_and!; try done. simpl. intros i' p [[_ <-]|[_ Hp]]%lookup_insert_Some; [|by eapply Hl].
    apply safe_later, fine_serve.
  - destruct (astep_db _ _ _ _ _ _ Hok Ha) as [Hok' Hclk].
    destruct (astep_later y C c (fun _ => True) p p' g (base s) w') as (Hp' & Hg & Hc');
      [by eapply Hl|lia|done..|].
    split_and!; simpl; [done|done|lia|done|]. intros i' p1.
    assert (forall p, <[i := p']> (threads s) !! i' = Some p -> later y C (fun _ => True) p) as Hold.
    { intros p0 [[_ <-]|[_ Hp]]%lookup_insert_Some; [done|]. by eapply Hl. }
    destruct g as [q|]; [|by apply Hold].
    intros [[_ <-]|[_ Hp]]%lookup_insert_Some; [|by apply Hold].
    eapply later_bind; [by apply Hg|]. by intros.
Qed.

(** The last action of a whole-flag delete. *)
Definition removing (y : string) : prog outcome :=
  let! r := (let! _ := on_handlers (fun t => removeFlagFromCache y t) in Ret RNoContent) in Ret (OReply r).

(** C29: a deleted flag does not resurface.  Take any run of concurrent admin
    requests, evaluations and refreshes, with any database faults, up to the
    moment a whole-flag DELETE returns 204.  From then on, as long as nobody
    creates the flag again, the cache that outage reads are served from never
    holds it, however slow the reads were that started before. *)
Theorem deleted_stays_deleted t sv c0 es1 s1 i j c y s2 es2 s3 :
  tables_ok t -> steps sstep (system_init t sv c0) es1 s1 ->
  threads s1 !! i = Some (removing y) -> t_flags (db (base s1)) !! y = None ->
  sstep s1 (Act i j c) s2 -> steps (absent_step y) s2 es2 s3 ->
  threads s2 !! i = Some (Ret (OReply RNoContent)) /\
  forall vs v, lastGood (hc (wpod (base s3))) = Some vs -> v ∈ vs -> vKey v <> y.
Proof.
  intros Ht Hr1 Hi Hy Hs Hr2.
  assert (sys_safe s1) as [Hok Hsafe].
  { apply (steps_invariant sstep sys_safe (system_init t sv c0) es1 s1); [|by split|exact Hr1].
    intros. by eapply sys_safe_step. }
  inversion Hs as [|? ? ? ? p p' g w' Htick Hi' Hj Ha]; subst. rewrite Hi in Hi'. injection Hi' as <-.
  unfold removing in Ha. simpl in Ha. injection Ha as <- <- <-. split; [apply lookup_insert_eq|].
  assert (sys_later y (clock (base s1) + tick c) s3) as (_ & _ & _ & [Hl _] & _); [|intros; by eapply Hl].
  eapply (steps_invariant (absent_step y) (sys_later y _)); [| |exact Hr2]; [intros; by eapply sys_later_step|].
  split_and!; simpl; [done|done|lia| |].
  - unfold removeFlagFromCache. destruct (lastGood _) as [vs|]; split; simpl; try done;
      try (eexists; split; [reflexivity|lia]).
    intros vs' [= <-] v [Hv _]%list_elem_of_filter. done.
  - intros i' p [[_ <-]|[_ Hp]]%lookup_insert_Some; [done|]. apply safe_later. eapply Hsafe; [lia|done].
Qed.
End deletion_run.

(** ** Running the interleaved system *)
Section srun.
Context `{Collation}.

Definition sstep_run (s : system) (e : label) : option system :=
  match e with
  | Start i q =>
      match threads s !! i with
      | None => Some (mkSystem (base s) (<[i := serve q]> (threads s)))
      | Some _ => None
      end
  | Act i j c =>
      match threads s !! i, (if decide (i = j) then Some tt else (fun _ => tt) <$> threads s !! j) with
      | Some p, None =>
          if 0 <? tick c then
            match astep c p (base s) with
            | Some (p', g, w') =>
                Some (mkSystem w' (match g with
                      | Some q => <[j := let! _ := q in Ret ODone]> (<[i := p']> (threads s))
                      | None => <[i := p']> (threads s)
                      end))
            | None => None
            end
          else None
      | _, _ => None
      end
  end.

Lemma sstep_run_sound s e s' : sstep_run s e = Some s' -> sstep s e s'.
Proof.
  destruct e as [i q|i j c]; simpl.
  - destruct (threads s !! i) eqn:E; [done|]. intros [= <-]. by constructor.
  - destruct (threads s !! i) as [p|] eqn:E; [|done]. case_decide as Hij; [done|].
    destruct (threads s !! j) eqn:Ej; [done|]. simpl. destruct (Z.ltb_spec 0 (tick c)); [|done].
    destruct (astep c p (base s)) as [[[p' g] w']|] eqn:Ea; [|done]. intros [= <-].
    econstructor; [done|exact E| |exact Ea]. by rewrite lookup_insert_ne.
Qed.

Fixpoint srun (s : system) (es : list label) : option system :=
  match es with
  | [] => Some s
  | e :: es => match sstep_run s e with Some s' => srun s' es | None => None end
  end.

Lemma srun_sound es : forall s s', srun s es = Some s' -> steps sstep s es s'.
Proof.
  induction es as [|e es IH]; intros s s' Hr; simpl in Hr; [injection Hr as <-; constructor|].
  destruct (sstep_run s e) as [s1|] eqn:E; [|done]. econstructor; [by apply sstep_run_sound|by apply IH].
Qed.

(** The same, checking that a flag stays away. *)
Fixpoint arun (y : string) (s : system) (es : list label) : option system :=
  match es with
  | [] => Some s
  | e :: es =>
      match sstep_run s e with
      | Some s' => match t_flags (db (base s')) !! y with None => arun y s' es | Some _ => None end
      | None => None
      end
  end.

Lemma arun_sound y es : forall s s', arun y s es = Some s' -> steps (absent_step y) s es s'.
Proof.
  induction es as [|e es IH]; intros s s' Hr; simpl in Hr; [injection Hr as <-; constructor|].
  destruct (sstep_run s e) as [s1|] eqn:E; [|done].
  destruct (t_flags (db (base s1)) !! y) eqn:Ey; [done|].
  econstructor; [split; [by apply sstep_run_sound|done]|by apply IH].
Qed.
End srun.

Module FlagExamples.
(** Rows in byte order. *)
Definition flag_le (f g : Flag) : Prop := String.le (Key f) (Key g).
#[local] Instance flag_le_dec : RelDecision flag_le.
Proof. intros f g. unfold flag_le. apply _. Defined.

#[export] Program Instance c_collation : Collation :=
  {| order_flags := merge_sort flag_le; order_overrides := merge_sort override_le |}.
Next Obligation. intros. apply merge_sort_Permutation. Qed.
Next Obligation. intros. apply merge_sort_Permutation. Qed.

Definition seed (id : string) (q : stmt) (t : Tables) : Tables := default t (exec_stmt 0 id q t).

Definition flag (k : string) (d : bool) : Flag := mkFlag k "" d 0 0.

(** Two flags; [beta] is on for one tenant, off for one of its users. *)
Definition tables : Tables :=
  seed "o2" (InsertOverride (mkOverride "" "beta" ScopeUser "bob" false 0 0))
  (seed "o1" (InsertOverride (mkOverride "" "beta" ScopeTenant "acme" true 0 0))
  (seed "" (InsertFlag (flag "thread_view" false))
  (seed "" (InsertFlag (flag "beta" false)) (mkTables ∅ ∅ {["acme"%string := "pro"%string]})))).

Lemma seed_ok id q t : tables_ok t -> tables_ok (seed id q t).
Proof.
  intros Ht. unfold seed. destruct (exec_stmt 0 id q t) eqn:E; [by eapply exec_stmt_ok|done].
Qed.

Lemma tables_ok_tables : tables_ok tables.
Proof. unfold tables. repeat apply seed_ok. apply tables_ok_init. Qed.

Definition ok : choice := mkChoice 1 "id" None.
Definition down : choice := mkChoice 1 "id" (Some (false, [CDeadline])).
Definition world0 : world := mkWorld tables (mkPod (Some newService) NewHandlers) 0.
Definition start : system := system_init tables (Some newService) 0.

Definition act (i : nat) : label := Act i 99 ok.
Definition switch_on : request :=
  QPut "admin" (Some (mkPut "thread_view" "" true false [])).
Definition delete_beta : request := QPut "admin" (Some (mkPut "beta" "" false true [])).

(** A reading warms the cache; a PUT writes and reads back; a DELETE of
    another flag finishes; the PUT's own caching comes last; then an outage. *)
Definition lost_update : list label :=
  [Start 0 QList; act 0; act 0; act 0; act 0;
   Start 1 switch_on; act 1; act 1; act 1; act 1;
   Start 2 delete_beta; act 2; act 2; act 2;
   act 1; act 1;
   Start 3 QList; act 3; Act 3 99 down; act 3].

Definition at_end (es : list label) : system := default start (srun start es).
End FlagExamples.

Import FlagExamples.

(** A PUT's update can be missing from what outage reads are served.  In
    this run a PUT that turns a flag on returns the flag as on; a concurrent
    DELETE of another flag advances [cachedReadStart] without reading, so the
    PUT's reading is refused as too old; the next read during an outage shows
    the flag as off. *)
Theorem delete_hides_concurrent_put :
  exists es s v age vs u, steps sstep start es s /\
    threads s !! 1%nat = Some (Ret (OReply (RView v))) /\
    vKey v = "thread_view"%string /\ DefaultEnabled (vFlag v) = true /\
    threads s !! 3%nat = Some (Ret (OReply (RStale age vs))) /\
    u ∈ vs /\ vKey u = "thread_view"%string /\ DefaultEnabled (vFlag u) = false.
Proof.
  exists lost_update, (at_end lost_update). do 4 eexists. split_and!.
  - apply srun_sound. vm_compute. reflexivity.
  - vm_compute. reflexivity.
  - reflexivity.
  - reflexivity.
  - vm_compute. reflexivity.
  - left.
  - reflexivity.
  - reflexivity.
Qed.

Definition evaluated (cs : list choice) (key : string) (subj : Subject) (w : world) : bool * list (prog unit) * world :=
  default (false, [], w) (run cs (EvaluateSubject true key subj) w).

Definition alice : Subject := mkSubject "acme" "alice" "pro".

(** The tenant's override turns [beta] on; the answer is that of the tables. *)
Lemma bounded_staleness_witness :
  let e := evaluated (replicate 6 ok) "beta" alice world0 in
  e.1.1 = true /\
  (exists s', svc (wpod e.2) = Some s' /\ witnessed (fun _ t => t = tables) s') /\
  (e.1.1 = false \/ exists τ T, clock e.2 - ttl newService < τ /\ T = tables /\ resolves T "beta" alice e.1.1).
Proof.
  split; [vm_compute; reflexivity|].
  apply (bounded_staleness (fun _ t => t = tables) (replicate 6 ok) "beta" alice world0 _
    (evaluated (replicate 6 ok) "beta" alice world0).1.2 _ newService).
  - apply tables_ok_tables.
  - by repeat constructor.
  - reflexivity.
  - intros sn [=].
  - reflexivity.
  - reflexivity.
  - vm_compute. reflexivity.
Defined.

(** A snapshot that says on, past its TTL, and no database. *)
Definition stale_service : Service :=
  mkService (30 * Second) (Some (buildSnapshot 0 (flag_rows tables) (override_rows tables))) ∅.
Definition world_stale : world := mkWorld tables (mkPod (Some stale_service) NewHandlers) (31 * Second).

Lemma stale_outage_off_witness :
  exists w', run [ok; ok; down] (EvaluateSubject true "beta" alice) world_stale = Some (false, [], w') /\
    svc (wpod w') = Some stale_service.
Proof.
  apply (stale_outage_off ok ok down [] "beta" alice world_stale stale_service false [CDeadline]);
    [reflexivity | vm_compute; reflexivity | vm_compute; reflexivity | reflexivity].
Defined.

(** The second override of the PUT meets an outage. *)
Definition half_put : option putRequest :=
  Some (mkPut "beta" "" true false
    [mkOp ScopeGlobal "" true false; mkOp ScopePlan "pro" true false]).
Definition half_choices : list choice := [ok; ok; down; ok; ok; ok].
Definition half_result : reply * list (prog unit) * world :=
  default (RError 0, [], world0) (run half_choices (put true "admin" half_put) world0).

Lemma put_reconciles_witness :
  half_result.1.1 = RRetryAfter /\
  ((db half_result.2 = db world0 /\ wpod half_result.2 = wpod world0) \/
   (svc (wpod half_result.2) = Invalidate <$> svc (wpod world0) /\
    reconciled world0 half_result.2 half_put half_result.1.2)).
Proof.
  split; [vm_compute; reflexivity|].
  apply (put_reconciles half_choices "admin" half_put world0 half_result.1.1).
  - by repeat constructor.
  - by repeat constructor.
  - exact I.
  - vm_compute. reflexivity.
Defined.

(** Up to the DELETE's last action, with a reading of the old rows under way. *)
Definition deleting : list label :=
  [Start 0 QList; act 0; act 0; Start 2 delete_beta; act 2; act 2].
Definition removed : system := default start (sstep_run (at_end deleting) (act 2)).
Definition afterwards : list label := [act 0; act 0; Start 3 QList; act 3; Act 3 99 down; act 3].
Definition later_on : system := default start (arun "beta" removed afterwards).

Lemma deleted_stays_deleted_witness :
  threads removed !! 2%nat = Some (Ret (OReply RNoContent)) /\
  forall vs v, lastGood (hc (wpod (base later_on))) = Some vs -> v ∈ vs -> vKey v <> "beta"%string.
Proof.
  apply (deleted_stays_deleted tables (Some newService) 0 deleting (at_end deleting) 2 99 ok "beta" removed
    afterwards later_on).
  - apply tables_ok_tables.
  - apply srun_sound. vm_compute. reflexivity.
  - reflexivity.
  - vm_compute. reflexivity.
  - apply sstep_run_sound. vm_compute. reflexivity.
  - apply arun_sound. vm_compute. reflexivity.
Defined.
