(* ===== verification/Json.v ===== *)
(** * JSON text of the audit metadata ([encoding/json] as [internal/audit/audit.go] uses it)

    [Marshal] and [canonicalJSON] print a value, byte by byte as
    [encoding/json] does; [reread] is the value a jsonb column gives back.
    The text determines the value that is read back ([canonical_inj]). *)

From S2P Require Import Prelude.

Local Open Scope Z_scope.

(** ** Strings

    [runes] cuts a string into its UTF-8 sequences; [None] is a byte that
    starts none, which [range] reports as U+FFFD of width one. *)
Definition in_range (lo hi : N) (c : Ascii.ascii) : bool :=
  (lo <=? Ascii.N_of_ascii c)%N && (Ascii.N_of_ascii c <=? hi)%N.
Definition cont : Ascii.ascii -> bool := in_range 128 191.

Definition two (c c1 : Ascii.ascii) : bool := in_range 194 223 c && cont c1.
Definition three (c c1 c2 : Ascii.ascii) : bool :=
  (in_range 224 224 c && in_range 160 191 c1 || in_range 225 236 c && cont c1 ||
   in_range 237 237 c && in_range 128 159 c1 || in_range 238 239 c && cont c1) && cont c2.
Definition four (c c1 c2 c3 : Ascii.ascii) : bool :=
  (in_range 240 240 c && in_range 144 191 c1 || in_range 241 243 c && cont c1 ||
   in_range 244 244 c && in_range 128 143 c1) && cont c2 && cont c3.

Definition str (l : list Ascii.ascii) : string := String.string_of_list_ascii l.

Fixpoint runes (s : string) : list (option string) :=
  match s with
  | String.EmptyString => []
  | String.String c s1 =>
      if in_range 0 127 c then Some (str [c]) :: runes s1
      else match s1 with
      | String.EmptyString => None :: runes s1
      | String.String c1 s2 =>
          if two c c1 then Some (str [c; c1]) :: runes s2
          else match s2 with
          | String.EmptyString => None :: runes s1
          | String.String c2 s3 =>
              if three c c1 c2 then Some (str [c; c1; c2]) :: runes s3
              else match s3 with
              | String.EmptyString => None :: runes s1
              | String.String c3 s4 =>
                  if four c c1 c2 c3 then Some (str [c; c1; c2; c3]) :: runes s4 else None :: runes s1
              end
          end
      end
  end.

Definition valid_utf8 (s : string) : bool := forallb (fun r => bool_decide (is_Some r)) (runes s).

Definition ufffd : string := str (Ascii.ascii_of_N <$> [239; 191; 189]%N).
Definition u2028 : string := str (Ascii.ascii_of_N <$> [226; 128; 168]%N).
Definition u2029 : string := str (Ascii.ascii_of_N <$> [226; 128; 169]%N).

Definition concat_str (l : list string) : string := foldr String.append String.EmptyString l.

(** What a decoder makes of the encoded string. *)
Definition sanitize (s : string) : string := concat_str (default ufffd <$> runes s).

Definition hexdigit (n : N) : string :=
  match String.get (N.to_nat n) "0123456789abcdef" with
  | Some c => String.String c String.EmptyString
  | None => String.EmptyString
  end.

Definition dquote_char : Ascii.ascii := Ascii.ascii_of_N 34.
Definition backslash : Ascii.ascii := Ascii.ascii_of_N 92.

(** A character below 128. *)
Definition escape (c : Ascii.ascii) : string :=
  let n := Ascii.N_of_ascii c in
  if (n =? 34)%N then str [backslash; c]
  else if (n =? 92)%N then str [backslash; c]
  else if (n =? 8)%N then "\b" else if (n =? 12)%N then "\f"
  else if (n =? 10)%N then "\n" else if (n =? 13)%N then "\r" else if (n =? 9)%N then "\t"
  else if (n <? 32)%N || (n =? 60)%N || (n =? 62)%N || (n =? 38)%N
  then "\u00" +:+ hexdigit (N.div n 16) +:+ hexdigit (N.modulo n 16)
  else str [c].

Definition escape_rune (r : option string) : string :=
  match r with
  | None => "\ufffd"
  | Some (String.String c String.EmptyString) => escape c
  | Some r => if String.eqb r u2028 then "\u2028" else if String.eqb r u2029 then "\u2029" else r
  end.

Definition escape_all (s : string) : string := concat_str (escape_rune <$> runes s).

Definition dquote : string := str [dquote_char].
Definition quote (s : string) : string := dquote +:+ escape_all s +:+ dquote.

(** ** Decoding a string, up to its closing quote *)
Definition hexval (c : Ascii.ascii) : N :=
  let n := Ascii.N_of_ascii c in if (n <? 58)%N then (n - 48)%N else (n - 87)%N.

(** UTF-8 of a code point below 2^16. *)
Definition utf8 (n : N) : list Ascii.ascii :=
  Ascii.ascii_of_N <$>
  (if n <? 128 then [n]
   else if n <? 2048 then [192 + n / 64; 128 + n mod 64]
   else [224 + n / 4096; 128 + n / 64 mod 64; 128 + n mod 64])%N.

Definition unescape1 (c : Ascii.ascii) : Ascii.ascii :=
  let n := Ascii.N_of_ascii c in
  if (n =? 98)%N then Ascii.ascii_of_N 8 else if (n =? 102)%N then Ascii.ascii_of_N 12
  else if (n =? 110)%N then Ascii.ascii_of_N 10 else if (n =? 114)%N then Ascii.ascii_of_N 13
  else if (n =? 116)%N then Ascii.ascii_of_N 9 else c.

Definition push (u : string) (o : option (string * string)) : option (string * string) :=
  match o with Some (s, r) => Some (u +:+ s, r) | None => None end.

Fixpoint unescape (s : string) : option (string * string) :=
  match s with
  | String.EmptyString => None
  | String.String c s1 =>
      if Ascii.eqb c dquote_char then Some (String.EmptyString, s1)
      else if Ascii.eqb c backslash then
        match s1 with
        | String.String d s2 =>
            if (Ascii.N_of_ascii d =? 117)%N then
              match s2 with
              | String.String x1 (String.String x2 (String.String x3 (String.String x4 s3))) =>
                  push (str (utf8 (4096 * hexval x1 + 256 * hexval x2 + 16 * hexval x3 + hexval x4)%N)) (unescape s3)
              | _ => None
              end
            else push (str [unescape1 d]) (unescape s2)
        | String.EmptyString => None
        end
      else push (str [c]) (unescape s1)
  end.

(** Every sequence is a character below 128 or bytes from 128 on. *)
Definition unit_shape (r : option string) : Prop :=
  match r with
  | None => True
  | Some r => (exists c, r = str [c] /\ in_range 0 127 c = true) \/
              (exists l, r = str l /\ (2 <= length l)%nat /\ Forall (fun c => in_range 128 255 c = true) l)
  end.

Lemma high_range lo hi c : (128 <= lo)%N -> in_range lo hi c = true -> in_range 128 255 c = true.
Proof.
  unfold in_range. rewrite !andb_true_iff, !N.leb_le. intros H [H1 H2]. split; [lia|].
  pose proof (Ascii.N_ascii_bounded c). lia.
Qed.

Ltac high :=
  repeat match goal with
  | H : _ && _ = true |- _ => apply andb_prop in H as [? ?]
  | H : _ || _ = true |- _ => apply orb_prop in H as [?|?]
  | H : cont _ = true |- _ => unfold cont in H
  end;
  repeat (apply Forall_cons; split; [eapply high_range; [|eassumption]; lia|]); by apply Forall_nil.

Lemma runes_shape s r : r ∈ runes s -> unit_shape r.
Proof.
  revert r. induction s as [s IH] using (induction_ltof1 _ String.length). unfold ltof in IH.
  assert (forall s1 r, (String.length s1 < String.length s)%nat -> r ∈ runes s1 -> unit_shape r) as IH' by (intros; by eapply IH).
  clear IH. destruct s as [|c s1]; intros r; [by intros ?%not_elem_of_nil|].
  cbn [runes]. destruct (in_range 0 127 c) eqn:E1.
  { intros [->|Hr]%elem_of_cons; [left; by exists c|]. apply (IH' s1); [simpl; lia|done]. }
  assert (r ∈ None :: runes s1 -> unit_shape r) as Hbad by (intros [->|Hr]%elem_of_cons; [done|apply (IH' s1); [simpl; lia|done]]).
  destruct s1 as [|c1 s2]; [done|]. destruct (two c c1) eqn:E2.
  { intros [->|Hr]%elem_of_cons; [right|apply (IH' s2); [simpl; lia|done]].
    eexists. split; [reflexivity|]. split; [simpl; lia|]. unfold two in E2. high. }
  destruct s2 as [|c2 s3]; [done|]. destruct (three c c1 c2) eqn:E3.
  { intros [->|Hr]%elem_of_cons; [right|apply (IH' s3); [simpl; lia|done]].
    eexists. split; [reflexivity|]. split; [simpl; lia|]. unfold three in E3. high. }
  destruct s3 as [|c3 s4]; [done|]. destruct (four c c1 c2 c3) eqn:E4; [|done].
  intros [->|Hr]%elem_of_cons; [right|apply (IH' s4); [simpl; lia|done]].
  eexists. split; [reflexivity|]. split; [simpl; lia|]. unfold four in E4. high.
Qed.

(** Bytes from 128 on are copied. *)
Lemma unescape_high l t : Forall (fun c => in_range 128 255 c = true) l ->
  unescape (str l +:+ t) = push (str l) (unescape t).
Proof.
  induction 1 as [|c l Hc _ IH].
  { change (unescape t = push "" (unescape t)). by destruct (unescape t) as [[? ?]|]. }
  change (str (c :: l) +:+ t) with (String.String c (str l +:+ t)). cbn [unescape].
  assert (Ascii.eqb c dquote_char = false) as -> by (apply Ascii.eqb_neq; by intros ->).
  assert (Ascii.eqb c backslash = false) as -> by (apply Ascii.eqb_neq; by intros ->).
  rewrite IH. by destruct (unescape t) as [[? ?]|].
Qed.

Lemma unescape_low c t : in_range 0 127 c = true -> unescape (escape c +:+ t) = push (str [c]) (unescape t).
Proof. destruct c as [[] [] [] [] [] [] [] []]; intros H; try discriminate H; reflexivity. Qed.

Lemma unescape_unit r t : unit_shape r -> unescape (escape_rune r +:+ t) = push (default ufffd r) (unescape t).
Proof.
  destruct r as [r|]; [|reflexivity]. intros [(c & -> & Hc)|(l & -> & Hl & Hh)]; [by apply unescape_low|].
  destruct l as [|c [|c1 l]]; [simpl in Hl; lia..|]. cbn [escape_rune str String.string_of_list_ascii default].
  destruct (String.eqb_spec (String.String c (String.String c1 (String.string_of_list_ascii l))) u2028) as [->|_]; [reflexivity|].
  destruct (String.eqb_spec (String.String c (String.String c1 (String.string_of_list_ascii l))) u2029) as [->|_]; [reflexivity|].
  exact (unescape_high (c :: c1 :: l) t Hh).
Qed.

Lemma concat_cons x l : concat_str (x :: l) = x +:+ concat_str l.
Proof. reflexivity. Qed.

(** A quoted string reads back with its bad bytes replaced. *)
Lemma unescape_quoted s t : unescape (escape_all s +:+ dquote +:+ t) = Some (sanitize s, t).
Proof.
  unfold escape_all, sanitize. pose proof (runes_shape s) as Hs. induction (runes s) as [|r l IH]; [reflexivity|].
  rewrite !fmap_cons, !concat_cons, string_app_assoc, unescape_unit by (apply Hs; by left).
  rewrite IH by (intros r' Hr'; apply Hs; by right). reflexivity.
Qed.

(** A sequence is found again in front of anything. *)
Lemma runes_prefix s r : Some r ∈ runes s -> forall t, runes (r +:+ t) = Some r :: runes t.
Proof.
  induction s as [s IH] using (induction_ltof1 _ String.length). unfold ltof in IH.
  destruct s as [|c s1]; [by intros ?%not_elem_of_nil|]. cbn [runes]. destruct (in_range 0 127 c) eqn:E1.
  { intros [[= ->]|Hr]%elem_of_cons t; [|apply (IH s1); [simpl; lia|done]].
    change (runes (String.String c t) = Some (str [c]) :: runes t). cbn [runes]. by rewrite E1. }
  assert (Some r ∈ None :: runes s1 -> forall t, runes (r +:+ t) = Some r :: runes t) as Hbad
    by (intros [[=]|Hr]%elem_of_cons; apply (IH s1); [simpl; lia|done]).
  destruct s1 as [|c1 s2]; [done|]. destruct (two c c1) eqn:E2.
  { intros [[= ->]|Hr]%elem_of_cons t; [|apply (IH s2); [simpl; lia|done]].
    change (runes (String.String c (String.String c1 t)) = Some (str [c; c1]) :: runes t). cbn [runes]. by rewrite E1, E2. }
  destruct s2 as [|c2 s3]; [done|]. destruct (three c c1 c2) eqn:E3.
  { intros [[= ->]|Hr]%elem_of_cons t; [|apply (IH s3); [simpl; lia|done]].
    change (runes (String.String c (String.String c1 (String.String c2 t))) = Some (str [c; c1; c2]) :: runes t).
    cbn [runes]. by rewrite E1, E2, E3. }
  destruct s3 as [|c3 s4]; [done|]. destruct (four c c1 c2 c3) eqn:E4; [|done].
  intros [[= ->]|Hr]%elem_of_cons t; [|apply (IH s4); [simpl; lia|done]].
  change (runes (String.String c (String.String c1 (String.String c2 (String.String c3 t)))) = Some (str [c; c1; c2; c3]) :: runes t).
  cbn [runes]. by rewrite E1, E2, E3, E4.
Qed.

Lemma runes_sanitize s : runes (sanitize s) = (fun r => Some (default ufffd r)) <$> runes s.
Proof.
  unfold sanitize. pose proof (runes_prefix s) as Hs. induction (runes s) as [|r l IH]; [reflexivity|].
  rewrite !fmap_cons, concat_cons. assert (forall t, runes (default ufffd r +:+ t) = Some (default ufffd r) :: runes t) as ->.
  { destruct r as [r|]; [apply Hs; by left|]. reflexivity. }
  by rewrite IH by (intros r' Hr'; apply Hs; by right).
Qed.

Lemma sanitize_valid s : valid_utf8 (sanitize s) = true.
Proof. unfold valid_utf8. rewrite runes_sanitize. by induction (runes s). Qed.

Lemma valid_sanitize s : valid_utf8 s = true -> sanitize s = s.
Proof.
  unfold valid_utf8, sanitize. induction s as [s IH] using (induction_ltof1 _ String.length). unfold ltof in IH.
  destruct s as [|c s1]; [done|]. cbn [runes]. destruct (in_range 0 127 c) eqn:E1.
  { cbn [forallb]. intros Hv. rewrite fmap_cons, concat_cons, (IH s1) by (done || (simpl; lia)). done. }
  destruct s1 as [|c1 s2]; [done|]. destruct (two c c1) eqn:E2.
  { cbn [forallb]. intros Hv. rewrite fmap_cons, concat_cons, (IH s2) by (done || (simpl; lia)). done. }
  destruct s2 as [|c2 s3]; [done|]. destruct (three c c1 c2) eqn:E3.
  { cbn [forallb]. intros Hv. rewrite fmap_cons, concat_cons, (IH s3) by (done || (simpl; lia)). done. }
  destruct s3 as [|c3 s4]; [done|]. destruct (four c c1 c2 c3) eqn:E4; [|done].
  cbn [forallb]. intros Hv. rewrite fmap_cons, concat_cons, (IH s4) by (done || (simpl; lia)). done.
Qed.

(** ** Values

    Integers as Go integers ([JInt]) and as what [json.Unmarshal] makes of a
    number ([JFloat], a float64 of integral value).  An object is a Go map as
    the list of its pairs, in any order; encoding sorts them. *)
Inductive json :=
| JNull
| JBool (b : bool)
| JInt (n : Z)
| JFloat (n : Z)
| JStr (s : string)
| JArr (l : list json)
| JObj (l : list (string * json)).

Section json_ind.
Variable P : json -> Prop.
Hypotheses (Hnull : P JNull) (Hbool : forall b, P (JBool b)) (Hint : forall n, P (JInt n))
  (Hfloat : forall n, P (JFloat n)) (Hstr : forall s, P (JStr s))
  (Harr : forall l, Forall P l -> P (JArr l))
  (Hobj : forall l, Forall (fun kv => P kv.2) l -> P (JObj l)).

Fixpoint json_ind' (j : json) : P j :=
  match j with
  | JNull => Hnull | JBool b => Hbool b | JInt n => Hint n | JFloat n => Hfloat n | JStr s => Hstr s
  | JArr l => Harr l ((fix go l := match l return Forall P l with
                       | [] => Forall_nil_2 _
                       | x :: l => Forall_cons_2 _ _ _ (json_ind' x) (go l) end) l)
  | JObj l => Hobj l ((fix go l := match l return Forall (fun kv => P kv.2) l with
                       | [] => Forall_nil_2 _
                       | kv :: l => Forall_cons_2 _ _ _ (json_ind' kv.2) (go l) end) l)
  end.
End json_ind.

(** Pairs in the order of their keys. *)
Definition key_le {A} (a b : string * A) : Prop := String.le a.1 b.1.
#[export] Instance key_le_dec {A} : RelDecision (@key_le A).
Proof. intros a b. unfold key_le. apply _. Defined.
Definition by_key {A} (l : list (string * A)) : list (string * A) := merge_sort key_le l.

Definition join (sep : string) (l : list string) : string := String.concat sep l.

Definition print_pair (kv : string * string) : string := quote kv.1 +:+ ":" +:+ kv.2.
Definition print_object (l : list (string * string)) : string :=
  "{" +:+ join "," (print_pair <$> by_key l) +:+ "}".

(** Integral floats up to this bound are exact and print as integers. *)
Definition maxExact : Z := 2 ^ 53.

(** Rounding of an integer to the nearest float64, ties to even. *)
Definition to_float64 (n : Z) : Z :=
  let a := Z.abs n in
  let e := Z.log2 a - 52 in
  if e <=? 0 then n
  else
    let u := 2 ^ e in
    let q := a / u in
    let r := a mod u in
    let q' := if (2 * r <? u) || ((2 * r =? u) && Z.even q) then q else q + 1 in
    Z.sgn n * (q' * u).

Section json.
(** The shortest decimal of a float64 beyond [maxExact]. *)
Variable shortest : Z -> string.

Definition print_float (n : Z) : string := if Z.abs n <=? maxExact then pretty n else shortest n.

Fixpoint Marshal (j : json) : string :=
  match j with
  | JNull => "null"
  | JBool b => if b then "true" else "false"
  | JInt n => pretty n
  | JFloat n => print_float n
  | JStr s => quote s
  | JArr l => "[" +:+ join "," (Marshal <$> l) +:+ "]"
  | JObj l => print_object ((fun kv => (kv.1, Marshal kv.2)) <$> l)
  end.

Definition canonicalJSON (m : gmap string json) : string :=
  if decide (m = ∅) then "{}"
  else print_object ((fun kv => (kv.1, Marshal kv.2)) <$> map_to_list m).
End json.

(** Stored as jsonb and decoded again: of the pairs [json.Marshal] wrote, in
    the order of the Go keys, the last with a key stands. *)
Definition last_wins {A} (l : list (string * A)) : gmap string A := list_to_map (reverse l).

Fixpoint reread (j : json) : json :=
  match j with
  | JInt n | JFloat n => JFloat (to_float64 n)
  | JStr s => JStr (sanitize s)
  | JArr l => JArr (reread <$> l)
  | JObj l => JObj (by_key (map_to_list (last_wins ((fun kv => (sanitize kv.1, kv.2)) <$> by_key ((fun kv => (kv.1, reread kv.2)) <$> l)))))
  | JNull | JBool _ => j
  end.

Definition reread_map (m : gmap string json) : gmap string json :=
  last_wins ((fun kv => (sanitize kv.1, reread kv.2)) <$> by_key (map_to_list m)).

(** What reads back as it was hashed: integers exact as float64, strings
    valid, and one value a key, as in every Go map. *)
Fixpoint exact (j : json) : Prop :=
  match j with
  | JInt n | JFloat n => Z.abs n <= maxExact
  | JStr s => valid_utf8 s = true
  | JArr l => foldr (fun j P => exact j /\ P) True l
  | JObj l => NoDup l.*1 /\ foldr (fun kv P => (valid_utf8 kv.1 = true /\ exact kv.2) /\ P) True l
  | JNull | JBool _ => True
  end.

Definition exact_map (m : gmap string json) : Prop :=
  map_Forall (fun k j => valid_utf8 k = true /\ exact j) m.

(** ** Order *)
#[export] Instance key_le_total {A} : Total (@key_le A).
Proof. intros a b. unfold key_le. apply total, _. Qed.
#[export] Instance key_le_trans {A} : Transitive (@key_le A).
Proof. intros a b c. unfold key_le. apply transitivity. Qed.

Lemma keys_eq {A} (l : list (string * A)) a b : NoDup l.*1 -> a ∈ l -> b ∈ l -> a.1 = b.1 -> a = b.
Proof.
  intros Hn Ha Hb E. destruct a as [k x], b as [k' y]. simpl in E. subst k'. f_equal.
  apply list_elem_of_lookup in Ha as [i Hi], Hb as [i' Hi'].
  assert (i = i') as ->; [|congruence]. apply (NoDup_lookup l.*1 i i' k Hn); by rewrite list_lookup_fmap, ?Hi, ?Hi'.
Qed.

Lemma sorted_unique {A} (l1 l2 : list (string * A)) :
  StronglySorted key_le l1 -> StronglySorted key_le l2 -> NoDup l1.*1 -> l1 ≡ₚ l2 -> l1 = l2.
Proof.
  intros H1 H2 Hn Hp. apply (StronglySorted_unique_strong key_le); [|done..]. intros a b Ha Hb Hab Hba.
  apply (keys_eq l1); [done|done|by rewrite Hp|]. by apply (anti_symm String.le).
Qed.

Lemma by_key_perm {A} (l : list (string * A)) : by_key l ≡ₚ l.
Proof. apply merge_sort_Permutation. Qed.
Lemma by_key_strong {A} (l : list (string * A)) : StronglySorted key_le (by_key l).
Proof. apply StronglySorted_merge_sort; apply _. Qed.
Lemma by_key_NoDup {A} (l : list (string * A)) : NoDup l.*1 -> NoDup (by_key l).*1.
Proof. by rewrite by_key_perm. Qed.

Lemma by_key_unique {A} (l1 l2 : list (string * A)) : NoDup l1.*1 -> l1 ≡ₚ l2 -> by_key l1 = by_key l2.
Proof.
  intros Hn Hp. apply sorted_unique; [apply by_key_strong..|by apply by_key_NoDup|]. by rewrite !by_key_perm.
Qed.

Lemma fst_values {A B} (f : A -> B) (l : list (string * A)) : ((fun kv => (kv.1, f kv.2)) <$> l).*1 = l.*1.
Proof. rewrite <- list_fmap_compose. by apply list_fmap_ext. Qed.

Lemma by_key_values {A B} (f : A -> B) (l : list (string * A)) : NoDup l.*1 ->
  by_key ((fun kv => (kv.1, f kv.2)) <$> l) = (fun kv => (kv.1, f kv.2)) <$> by_key l.
Proof.
  intros Hn. apply sorted_unique; [apply by_key_strong| |by apply by_key_NoDup; rewrite fst_values|by rewrite !by_key_perm].
  eapply StronglySorted_fmap; [|apply by_key_strong]. by intros [k1 x1] [k2 x2].
Qed.

Lemma last_wins_perm {A} (l : list (string * A)) : NoDup l.*1 -> map_to_list (last_wins l) ≡ₚ l.
Proof. intros Hn. unfold last_wins. rewrite map_to_list_to_map; [apply reverse_Permutation|by rewrite fmap_reverse, reverse_Permutation]. Qed.

Lemma valid_keys {A} (l : list (string * A)) : Forall (fun kv => valid_utf8 kv.1 = true) l ->
  (fun kv => (sanitize kv.1, kv.2)) <$> l = l.
Proof.
  induction 1 as [|[k x] l Hk _ IH]; [done|]. rewrite fmap_cons, IH. simpl in *. by rewrite valid_sanitize.
Qed.

(** ** What reads back as it was hashed *)
Lemma to_float64_exact n : Z.abs n <= maxExact -> to_float64 n = n.
Proof.
  unfold maxExact, to_float64. intros Hn. destruct (Z.leb_spec (Z.log2 (Z.abs n) - 52) 0) as [|He]; [done|].
  assert (Z.abs n = 2 ^ 53) as Ha.
  { apply Z.le_antisymm; [done|]. apply (Z.le_trans _ (2 ^ Z.log2 (Z.abs n))).
    - apply Z.pow_le_mono_r; lia.
    - apply Z.log2_spec. destruct (Z.eq_dec (Z.abs n) 0) as [E|]; [rewrite E in He; simpl in He; lia|lia]. }
  rewrite Ha. change (Z.sgn n * 2 ^ 53 = n). rewrite <- Ha. apply Z.sgn_abs || lia.
Qed.

Lemma exact_pairs l : foldr (fun (kv : string * json) P => (valid_utf8 kv.1 = true /\ exact kv.2) /\ P) True l ->
  Forall (fun kv => valid_utf8 kv.1 = true) l /\ Forall (fun kv => exact kv.2) l.
Proof. induction l as [|kv l IH]; [by split; constructor|]. intros [[H1 H2] [H3 H4]%IH]. by split; constructor. Qed.

(** The pairs of an object whose keys are valid, read back. *)
Lemma reread_pairs l : NoDup l.*1 -> Forall (fun kv => valid_utf8 kv.1 = true) l ->
  map_to_list (last_wins ((fun kv => (sanitize kv.1, kv.2)) <$> by_key ((fun kv => (kv.1, reread kv.2)) <$> l))) ≡ₚ
  (fun kv => (kv.1, reread kv.2)) <$> l.
Proof.
  intros Hn Hv. assert (Forall (fun kv => valid_utf8 kv.1 = true) ((fun kv => (kv.1, reread kv.2)) <$> l)) as Hv' by (by apply Forall_fmap).
  rewrite valid_keys by (by rewrite by_key_perm). rewrite last_wins_perm; [apply by_key_perm|].
  apply by_key_NoDup. by rewrite fst_values.
Qed.

Lemma print_perm (l1 l2 : list (string * string)) : NoDup l1.*1 -> l1 ≡ₚ l2 -> print_object l1 = print_object l2.
Proof. intros Hn Hp. unfold print_object. by rewrite (by_key_unique l1 l2). Qed.

Lemma exact_reread shortest j : exact j -> Marshal shortest (reread j) = Marshal shortest j.
Proof.
  induction j as [| | | | |l IH|l IH] using json_ind'; simpl; try done.
  - intros Hn. unfold print_float. rewrite to_float64_exact by done. by destruct (Z.leb_spec (Z.abs n) maxExact); [|lia].
  - intros Hn. by rewrite to_float64_exact.
  - intros Hv. by rewrite valid_sanitize.
  - intros He. do 3 f_equal. rewrite <- list_fmap_compose. induction IH as [|j l Hj _ IHl]; [done|].
    destruct He as [He Hl]. simpl. f_equal; auto.
  - intros [Hn [Hv He]%exact_pairs]. apply print_perm.
    + rewrite fst_values. apply by_key_NoDup, NoDup_fst_map_to_list.
    + rewrite by_key_perm, reread_pairs by done. rewrite <- list_fmap_compose.
      apply reflexive_eq, list_fmap_ext. intros i kv Hi. simpl. f_equal. rewrite Forall_forall in IH, He.
      apply list_elem_of_lookup_2 in Hi. by apply IH, He.
Qed.

Lemma reread_map_exact m : exact_map m -> reread_map m = reread <$> m.
Proof.
  intros Hm. unfold reread_map. set (l := by_key (map_to_list m)).
  assert (NoDup l.*1) as Hn by (apply by_key_NoDup, NoDup_fst_map_to_list).
  assert ((fun kv => (sanitize kv.1, reread kv.2)) <$> l = (fun kv => (kv.1, reread kv.2)) <$> l) as ->.
  { apply list_fmap_ext. intros i [k j] Hi%list_elem_of_lookup_2. unfold l in Hi. rewrite by_key_perm in Hi.
    apply elem_of_map_to_list in Hi. simpl. by rewrite valid_sanitize by apply (Hm k j Hi). }
  unfold last_wins. rewrite (list_to_map_proper _ (prod_map id reread <$> map_to_list m)).
  - by rewrite list_to_map_fmap, list_to_map_to_list.
  - by rewrite fmap_reverse, reverse_Permutation, fst_values.
  - rewrite reverse_Permutation. unfold l. rewrite by_key_perm. apply reflexive_eq, list_fmap_ext. by intros i [k j].
Qed.

Lemma canonical_reread shortest (m : gmap string json) :
  exact_map m -> canonicalJSON shortest (reread_map m) = canonicalJSON shortest m.
Proof.
  intros Hm. rewrite reread_map_exact by done. unfold canonicalJSON.
  destruct (decide (m = ∅)) as [->|Hne]; [by rewrite fmap_empty, decide_True|].
  rewrite decide_False by (by intros ?%fmap_empty_inv). f_equal.
  rewrite map_to_list_fmap, <- list_fmap_compose. apply list_fmap_ext.
  intros i [k j] Hi%list_elem_of_lookup_2%elem_of_map_to_list. simpl. f_equal.
  apply exact_reread. by apply (Hm k).
Qed.

(** ** The text determines the value read back *)

(** What [reread] gives: floats, valid strings, objects in the order of their
    keys. *)
Fixpoint read_back (j : json) : Prop :=
  match j with
  | JInt _ => False
  | JFloat n => exists m, n = to_float64 m
  | JStr s => valid_utf8 s = true
  | JArr l => foldr (fun j P => read_back j /\ P) True l
  | JObj l => (StronglySorted key_le l /\ NoDup l.*1) /\
      foldr (fun kv P => (valid_utf8 kv.1 = true /\ read_back kv.2) /\ P) True l
  | JNull | JBool _ => True
  end.

Definition good_pair (kv : string * json) : Prop := valid_utf8 kv.1 = true /\ read_back kv.2.

Lemma read_back_arr l : foldr (fun j P => read_back j /\ P) True l <-> Forall read_back l.
Proof. induction l as [|j l IH]; simpl; [by split|]. by rewrite Forall_cons, IH. Qed.
Lemma read_back_obj l : foldr (fun kv P => (valid_utf8 kv.1 = true /\ read_back kv.2) /\ P) True l <-> Forall good_pair l.
Proof. induction l as [|j l IH]; simpl; [by split|]. by rewrite Forall_cons, IH. Qed.

Lemma last_wins_elem {A} (l : list (string * A)) kv : kv ∈ map_to_list (last_wins l) -> kv ∈ l.
Proof.
  destruct kv as [k x]. intros H%elem_of_map_to_list%elem_of_list_to_map_2. by apply elem_of_reverse.
Qed.

Lemma reread_read_back j : read_back (reread j).
Proof.
  induction j as [| |n|n|s|l IH|l IH] using json_ind'; cbn [reread read_back]; try done; try (by eexists).
  - apply sanitize_valid.
  - apply read_back_arr, Forall_fmap. exact IH.
  - split; [split; [apply by_key_strong|apply by_key_NoDup, NoDup_fst_map_to_list]|].
    apply read_back_obj. rewrite by_key_perm. apply Forall_forall. intros kv Hkv%last_wins_elem.
    apply list_elem_of_fmap in Hkv as ([k x] & -> & Hx). rewrite by_key_perm in Hx.
    apply list_elem_of_fmap in Hx as ([k' x'] & [= -> ->] & Hx'). split; [apply sanitize_valid|].
    rewrite Forall_forall in IH. exact (IH _ Hx').
Qed.

Definition read_back_map (m : gmap string json) : Prop := map_Forall (fun k j => good_pair (k, j)) m.

Lemma reread_map_read_back m : read_back_map (reread_map m).
Proof.
  intros k j H. apply elem_of_map_to_list, last_wins_elem, list_elem_of_fmap in H as ([k' x] & [= -> ->] & _).
  split; [apply sanitize_valid|apply reread_read_back].
Qed.

Lemma app_cancel (a r r' : string) : a +:+ r = a +:+ r' -> r = r'.
Proof.
  induction a as [|c a IH]; [done|]. intros E. apply IH.
  change (String.String c (a +:+ r) = String.String c (a +:+ r')) in E. by injection E.
Qed.

Definition numchar (c : Ascii.ascii) : bool :=
  in_range 48 57 c || in_range 43 43 c || in_range 45 46 c || in_range 69 69 c || in_range 101 101 c.
Definition number (s : string) : Prop :=
  s <> ""%string /\ Forall (fun c => numchar c = true) (String.list_ascii_of_string s).
(** No digit follows. *)
Definition ends (r : string) : Prop := match r with String.String c _ => numchar c = false | _ => True end.

(** Documented of [strconv.FormatFloat]: a decimal, which gives the float
    back. *)
Record float_text (shortest : Z -> string) : Prop := {
  float_number : forall n, number (print_float shortest (to_float64 n));
  float_inj : forall a b, print_float shortest (to_float64 a) = print_float shortest (to_float64 b) -> to_float64 a = to_float64 b;
}.

Lemma number_split a : forall b r r', Forall (fun c => numchar c = true) (String.list_ascii_of_string a) ->
  Forall (fun c => numchar c = true) (String.list_ascii_of_string b) -> ends r -> ends r' ->
  a +:+ r = b +:+ r' -> a = b /\ r = r'.
Proof.
  induction a as [|c a IH]; intros [|d b] r r' Ha Hb Hr Hr' E.
  - by split.
  - change (r = String.String d (b +:+ r')) in E. subst r. apply Forall_cons in Hb as [Hd _]. simpl in Hr. congruence.
  - change (String.String c (a +:+ r) = r') in E. subst r'. apply Forall_cons in Ha as [Hc _]. simpl in Hr'. congruence.
  - change (String.String c (a +:+ r) = String.String d (b +:+ r')) in E. injection E as -> E.
    apply Forall_cons in Ha as [_ Ha], Hb as [_ Hb]. destruct (IH b r r') as [-> ->]; auto.
Qed.

Lemma quote_split k k' r r' : valid_utf8 k = true -> valid_utf8 k' = true ->
  quote k +:+ r = quote k' +:+ r' -> k = k' /\ r = r'.
Proof.
  intros Hk Hk' E. unfold quote in E. rewrite !string_app_assoc in E.
  apply (f_equal (fun s => match s with String.String _ s => unescape s | _ => None end)) in E.
  change (unescape (escape_all k +:+ dquote +:+ r) = unescape (escape_all k' +:+ dquote +:+ r')) in E.
  rewrite !unescape_quoted, !valid_sanitize in E by done. by injection E as -> ->.
Qed.

(** ** Sequences *)
Definition comma : Ascii.ascii := Ascii.ascii_of_N 44.

Section sequences.
Context {A : Type} (f : A -> string) (P : A -> Prop) (close : Ascii.ascii).
Hypotheses (Hclose : close <> comma) (Hnum : numchar close = false).
Hypothesis (Hhead : forall x, P x -> match f x with String.String c _ => c <> close | _ => False end).

Definition tail (l : list A) (r : string) : string :=
  foldr (fun y acc => String.String comma (f y +:+ acc)) (String.String close r) l.

Lemma join_tail x l r : join "," (f <$> x :: l) +:+ String.String close r = f x +:+ tail l r.
Proof.
  revert x. induction l as [|y l IH]; intros x; [done|].
  change (join "," (f <$> x :: y :: l)) with (f x +:+ "," +:+ join "," (f <$> y :: l)).
  rewrite !string_app_assoc, IH. done.
Qed.

Lemma tail_ends l r : ends (tail l r).
Proof. by destruct l. Qed.

Definition splits (x : A) : Prop := forall x' r r', P x -> P x' -> ends r -> ends r' ->
  f x +:+ r = f x' +:+ r' -> x = x' /\ r = r'.

Lemma tail_split l : forall l' r r', Forall splits l -> Forall P l -> Forall P l' ->
  tail l r = tail l' r' -> l = l' /\ r = r'.
Proof.
  induction l as [|x l IH]; intros [|x' l'] r r' Hs Hl Hl' E; cbn [tail foldr] in E.
  - by injection E as ->.
  - by injection E as E _; destruct Hclose.
  - injection E as E _. by destruct Hclose.
  - injection E as E. fold (tail l r) (tail l' r') in E.
    apply Forall_cons in Hs as [Hs Hss], Hl as [Hx Hl], Hl' as [Hx' Hl'].
    apply Hs in E as [-> E]; [|done|done|apply tail_ends..]. by apply IH in E as [-> ->].
Qed.

Lemma join_split l l' r r' : Forall splits l -> Forall P l -> Forall P l' ->
  join "," (f <$> l) +:+ String.String close r = join "," (f <$> l') +:+ String.String close r' -> l = l' /\ r = r'.
Proof.
  intros Hs Hl Hl' E. destruct l as [|x l], l' as [|x' l'].
  - change (String.String close r = String.String close r') in E. by injection E as ->.
  - rewrite join_tail in E. change (String.String close r = f x' +:+ tail l' r') in E. apply Forall_cons in Hl' as [Hx' _].
    apply Hhead in Hx'. destruct (f x') as [|c s]; [done|]. by injection E as -> _.
  - rewrite join_tail in E. change (f x +:+ tail l r = String.String close r') in E. apply Forall_cons in Hl as [Hx _].
    apply Hhead in Hx. destruct (f x) as [|c s]; [done|]. by injection E as -> _.
  - rewrite !join_tail in E. apply Forall_cons in Hs as [Hs Hss], Hl as [Hx Hl], Hl' as [Hx' Hl'].
    apply Hs in E as [-> E]; [|done|done|apply tail_ends..]. by apply tail_split in E as [-> ->].
Qed.
End sequences.

(** ** Values *)
Section injective.
Context (shortest : Z -> string) (HF : float_text shortest).
Abbreviation Marshal := (Marshal shortest).

(** The first character tells what follows. *)
Definition class (c : Ascii.ascii) : nat :=
  (if in_range 110 110 c then 0 else if in_range 116 116 c then 1 else if in_range 102 102 c then 2
  else if numchar c then 3 else if in_range 34 34 c then 4 else if in_range 91 91 c then 5
  else if in_range 123 123 c then 6 else 7)%nat.
Definition class_of (j : json) : nat :=
  match j with
  | JNull => 0 | JBool true => 1 | JBool false => 2 | JInt _ | JFloat _ => 3 | JStr _ => 4 | JArr _ => 5 | JObj _ => 6
  end%nat.

Lemma num_class c : numchar c = true -> class c = 3%nat.
Proof. destruct c as [[] [] [] [] [] [] [] []]; intros H; try discriminate H; reflexivity. Qed.

Lemma Marshal_class j : read_back j -> exists c s, Marshal j = String.String c s /\ class c = class_of j.
Proof.
  destruct j as [|[]|n|n|s|l|l]; intros Hj; try (eexists _, _; split; reflexivity); [done|].
  destruct Hj as [m ->]. destruct (float_number _ HF m) as [Hne Hc].
  change (Marshal (JFloat (to_float64 m))) with (print_float shortest (to_float64 m)).
  destruct (print_float shortest (to_float64 m)) as [|c s]; [done|]. eexists _, _. split; [reflexivity|].
  apply Forall_cons in Hc as [Hc _]. by apply num_class.
Qed.

Lemma same_class j j' r r' : read_back j -> read_back j' -> Marshal j +:+ r = Marshal j' +:+ r' -> class_of j = class_of j'.
Proof.
  intros (c & s & -> & <-)%Marshal_class (c' & s' & -> & <-)%Marshal_class E. by injection E as -> _.
Qed.

Definition item (kv : string * json) : string := print_pair (kv.1, Marshal kv.2).

Lemma print_sorted l : StronglySorted key_le l -> NoDup l.*1 ->
  print_object ((fun kv => (kv.1, Marshal kv.2)) <$> l) = "{" +:+ join "," (item <$> l) +:+ "}".
Proof.
  intros Hs Hn. unfold print_object. rewrite by_key_values by done.
  assert (by_key l = l) as -> by (apply sorted_unique; [apply by_key_strong|done|by apply by_key_NoDup|apply by_key_perm]).
  by rewrite <- list_fmap_compose.
Qed.

Lemma pair_splits kv : splits Marshal read_back kv.2 -> splits item good_pair kv.
Proof.
  intros Hv [k' v'] r r' [Hk Hr] [Hk' Hr'] He He' E. destruct kv as [k v]. simpl in *. unfold item, print_pair in E. simpl in E.
  rewrite !string_app_assoc in E. apply quote_split in E as [-> E]; [|done..].
  change (String.String (Ascii.ascii_of_N 58) (Marshal v +:+ r) = String.String (Ascii.ascii_of_N 58) (Marshal v' +:+ r')) in E.
  injection E as E. by apply Hv in E as [-> ->].
Qed.

Lemma item_head kv : match item kv with String.String c _ => c = dquote_char | _ => False end.
Proof. reflexivity. Qed.

Lemma Marshal_splits j : splits Marshal read_back j.
Proof.
  induction j as [|b|n|n|s|l IH|l IH] using json_ind'; intros j' r r' Hj Hj' Hr Hr' E;
    pose proof (same_class _ _ _ _ Hj Hj' E) as Hc.
  - destruct j' as [|[]| | | | |]; try done. split; [done|]. by apply (app_cancel "null").
  - destruct b, j' as [|[]| | | | |]; try done; (split; [done|]); [by apply (app_cancel "true")|by apply (app_cancel "false")].
  - done.
  - destruct j' as [|[]|n'|n'| | |]; try done. destruct Hj as [m ->], Hj' as [m' ->].
    change (print_float shortest (to_float64 m) +:+ r = print_float shortest (to_float64 m') +:+ r') in E.
    apply number_split in E as [E ->]; [|apply (float_number _ HF)..|done|done]. by apply (float_inj _ HF) in E as ->.
  - destruct j' as [|[]| | |s'| |]; try done. by apply quote_split in E as [-> ->].
  - destruct j' as [|[]| | | |l'|]; try done. apply read_back_arr in Hj, Hj'.
    change (String.String (Ascii.ascii_of_N 91) ((join "," (Marshal <$> l) +:+ "]") +:+ r) =
            String.String (Ascii.ascii_of_N 91) ((join "," (Marshal <$> l') +:+ "]") +:+ r')) in E.
    injection E as E. rewrite !string_app_assoc in E.
    apply (join_split Marshal read_back (Ascii.ascii_of_N 93)) in E as [-> ->]; try done.
    intros x (c & s & -> & Hx)%Marshal_class. intros ->. by destruct x as [|[]| | | | |].
  - destruct j' as [|[]| | | | |l']; try done. destruct Hj as [[Hs Hn] Hj%read_back_obj], Hj' as [[Hs' Hn'] Hj'%read_back_obj].
    change (print_object ((fun kv => (kv.1, Marshal kv.2)) <$> l) +:+ r = print_object ((fun kv => (kv.1, Marshal kv.2)) <$> l') +:+ r') in E.
    rewrite !print_sorted in E by done.
    change (String.String (Ascii.ascii_of_N 123) ((join "," (item <$> l) +:+ "}") +:+ r) =
            String.String (Ascii.ascii_of_N 123) ((join "," (item <$> l') +:+ "}") +:+ r')) in E.
    injection E as E. rewrite !string_app_assoc in E.
    apply (join_split item good_pair (Ascii.ascii_of_N 125)) in E as [-> ->]; try done.
    eapply Forall_impl; [exact IH|]. intros kv. apply pair_splits.
Qed.

Lemma canonical_sorted m : canonicalJSON shortest m = "{" +:+ join "," (item <$> by_key (map_to_list m)) +:+ "}".
Proof.
  unfold canonicalJSON. pose proof (NoDup_fst_map_to_list m) as Hn.
  destruct (decide (m = ∅)) as [->|_]; [by rewrite map_to_list_empty|].
  unfold print_object. rewrite by_key_values by done. by rewrite <- list_fmap_compose.
Qed.

(** Metadata that reads back differently is hashed differently, whatever
    follows it. *)
Theorem canonical_inj m m' r r' : read_back_map m -> read_back_map m' ->
  canonicalJSON shortest m +:+ r = canonicalJSON shortest m' +:+ r' -> m = m' /\ r = r'.
Proof.
  intros Hm Hm' E. rewrite !canonical_sorted in E.
  change (String.String (Ascii.ascii_of_N 123) ((join "," (item <$> by_key (map_to_list m)) +:+ "}") +:+ r) =
          String.String (Ascii.ascii_of_N 123) ((join "," (item <$> by_key (map_to_list m')) +:+ "}") +:+ r')) in E.
  injection E as E. rewrite !string_app_assoc in E.
  assert (forall m, read_back_map m -> Forall good_pair (by_key (map_to_list m))) as Hgood.
  { intros x Hx. rewrite by_key_perm. apply Forall_forall. intros [k j] Hk%elem_of_map_to_list. exact (Hx k j Hk). }
  apply (join_split item good_pair (Ascii.ascii_of_N 125)) in E as [E ->]; try done; [|by apply Forall_forall; intros kv _; apply pair_splits, Marshal_splits|auto..].
  split; [|done]. apply map_to_list_inj. by rewrite <- (by_key_perm (map_to_list m)), E, by_key_perm.
Qed.
End injective.

(** Decimal integers are such a text; they run the examples. *)
Lemma pretty_go_number x s : Forall (fun c => numchar c = true) (String.list_ascii_of_string s) ->
  Forall (fun c => numchar c = true) (String.list_ascii_of_string (pretty_N_go x s)).
Proof.
  revert s. induction (N.lt_wf_0 x) as [x _ IH]; intros s Hs.
  assert (x = 0 \/ 0 < x)%N as [->|Hx] by lia; [by rewrite pretty_N_go_0|]. rewrite pretty_N_go_step by done.
  apply IH; [by apply N.div_lt|]. apply Forall_cons. split; [|done]. unfold pretty_N_char. by repeat case_match.
Qed.

Lemma pretty_number (n : Z) : number (pretty n).
Proof.
  assert (forall p : positive, number (pretty p)) as Hp.
  { intros p. split; [|apply pretty_go_number; constructor]. intros E.
    change (pretty p) with (pretty (N.pos p)) in E. change ""%string with (String.string_of_list_ascii []) in E.
    unfold pretty, pretty_N in E. simpl in E. rewrite pretty_N_go_step in E by done.
    revert E. generalize (N.pos p / 10)%N, (pretty_N_char (N.pos p mod 10)). intros x c.
    assert (forall s, s <> ""%string -> pretty_N_go x s <> ""%string) as Hne; [|by apply Hne].
    induction (N.lt_wf_0 x) as [x _ IH]; intros s Hs. assert (x = 0 \/ 0 < x)%N as [->|Hx] by lia; [by rewrite pretty_N_go_0|].
    rewrite pretty_N_go_step by done. apply IH; [by apply N.div_lt|done]. }
  destruct n as [|p|p]; [|apply Hp|].
  - split; [done|]. repeat constructor.
  - destruct (Hp p) as [_ H]. split; [done|]. apply Forall_cons. by split.
Qed.

Lemma pretty_float_text : float_text pretty.
Proof.
  assert (forall n, print_float pretty n = pretty n) as E by (intros n; unfold print_float; by destruct (_ <=? _)).
  split; [intros n; rewrite E; apply pretty_number|]. intros a b. rewrite !E. apply pretty_Z_inj.
Qed.
