(* ===== verification/AuditLog.v ===== *)
(** * Audit log ([internal/audit/audit.go])

    The append-only log, chained per tenant by [entry_hash].  The table is a
    list of rows in order of [seq]; an append is a transaction of an advisory
    lock, a read of the chain's tail and an insert, interleaved with others at
    those points.  The metadata is [Json].  SHA-256, the parser of IP addresses
    and the database's text of an address are parameters. *)

From S2P Require Import Prelude Json.

#[local] Set Warnings "-register-all".

Local Open Scope Z_scope.

(** ** Entries *)
Definition ActorType : Type := string.
Definition ActorUser : ActorType := "user".
Definition ActorAdmin : ActorType := "admin".
Definition ActorSystem : ActorType := "system".

Record Entry := mkEntry {
  TenantID : string;
  ActorID : string;
  eActorType : ActorType;
  Action : string;
  ResourceType : string;
  ResourceID : string;
  Metadata : gmap string json;
  IPAddress : string;
  UserAgent : string;
  ID : string;
  PrevHash : string;
  EntryHash : string;
  CreatedAt : Z;
}.

Inductive aerror := ErrInvalidInput | ErrDatabase | PrevHashMismatch (id : string) | HashMismatch (id : string).

Record QueryFilters := mkFilters {
  f_Action : string;
  f_ActorID : string;
  f_ResourceType : string;
  Since : option Z;
  Until : option Z;
  Limit : Z;
  Offset : Z;
}.

Definition with_ip (e : Entry) (ip : string) : Entry :=
  mkEntry (TenantID e) (ActorID e) (eActorType e) (Action e) (ResourceType e) (ResourceID e) (Metadata e)
    ip (UserAgent e) (ID e) (PrevHash e) (EntryHash e) (CreatedAt e).

Definition with_chain (e : Entry) (prev hash id : string) (at_ : Z) : Entry :=
  mkEntry (TenantID e) (ActorID e) (eActorType e) (Action e) (ResourceType e) (ResourceID e) (Metadata e)
    (IPAddress e) (UserAgent e) id prev hash at_.

(** The rows, oldest [seq] first, and the tenants they may refer to. *)
Record Table := mkTable { rows : list Entry; tenants : gset string }.

(** PostgreSQL takes no invalid UTF-8 in a text column, and no NUL there or in a
    jsonb string. *)
Definition nul_free (s : string) : bool :=
  forallb (fun c => negb (Ascii.eqb c Ascii.zero)) (String.list_ascii_of_string s).
Definition text_ok (s : string) : bool := valid_utf8 s && nul_free s.
Fixpoint jsonb_ok (j : json) : bool :=
  match j with
  | JStr s => nul_free s
  | JArr l => forallb jsonb_ok l
  | JObj l => forallb (fun kv => nul_free kv.1 && jsonb_ok kv.2) l
  | _ => true
  end.
Definition storable (e : Entry) : bool :=
  forallb text_ok [ActorID e; eActorType e; Action e; ResourceType e; ResourceID e; UserAgent e]
  && forallb (fun kv => nul_free kv.1 && jsonb_ok kv.2) (map_to_list (Metadata e)).

Section service.
Context (sha256 : string -> string)      (* hex digest *)
        (shortest : Z -> string)
        (ParseIP : string -> option string)  (* net.ParseIP and String *)
        (host : string -> string).        (* host() of the stored address *)

Definition payload (prev : string) (e : Entry) : string :=
  prev +:+ "|" +:+ TenantID e +:+ "|" +:+ ActorID e +:+ "|" +:+ eActorType e +:+ "|" +:+ Action e +:+ "|" +:+
  ResourceType e +:+ "|" +:+ ResourceID e +:+ "|" +:+ canonicalJSON shortest (Metadata e) +:+ "|" +:+
  IPAddress e +:+ "|" +:+ UserAgent e.

Definition computeHash (prev : string) (e : Entry) : string := sha256 (payload prev e).

(** The columns of a row as a SELECT reads them back. *)
Definition stored (e : Entry) : Entry :=
  mkEntry (TenantID e) (ActorID e) (eActorType e) (Action e) (ResourceType e) (ResourceID e)
    (reread_map (Metadata e)) (if String.eqb (IPAddress e) "" then ""%string else host (IPAddress e))
    (UserAgent e) (ID e) (PrevHash e) (EntryHash e) (CreatedAt e).

Definition valid_entry (e : Entry) : bool :=
  negb (String.eqb (TenantID e) "" || String.eqb (Action e) "" || String.eqb (eActorType e) "").

Definition normaliseIP (e : Entry) : Entry :=
  if String.eqb (IPAddress e) "" then e else with_ip e (default ""%string (ParseIP (IPAddress e))).

Definition tenant_rows (tenant : string) (t : Table) : list Entry :=
  filter (fun r => TenantID r = tenant) (rows t).

(** The tail query: the hash of the row of highest [seq], empty without one. *)
Definition tail_hash (tenant : string) (t : Table) : string :=
  match last (tenant_rows tenant t) with Some r => EntryHash r | None => ""%string end.

(** The insert: text that PostgreSQL takes, foreign key, actor type check, one
    row per tenant and [prev_hash]. *)
Definition insert_row (e : Entry) (t : Table) : option Table :=
  if storable e
     && bool_decide (TenantID e ∈ tenants t)
     && bool_decide (eActorType e ∈ [ActorUser; ActorSystem; ActorAdmin])
     && negb (existsb (fun r => String.eqb (PrevHash r) (PrevHash e)) (tenant_rows (TenantID e) t))
  then Some (mkTable (rows t ++ [e]) (tenants t)) else None.

(** The entry an append writes, given the tail it read. *)
Definition link (prev id : string) (at_ : Z) (e : Entry) : Entry :=
  let e := normaliseIP e in with_chain e prev (computeHash prev e) id at_.

Definition Log (pool : bool) (id : string) (at_ : Z) (e : Entry) (t : Table) : result aerror Entry * Table :=
  if negb (valid_entry e) then (Err ErrInvalidInput, t)
  else if negb pool then (Ok (with_chain e (PrevHash e) (computeHash ""%string e) (ID e) at_), t)
  else
    let e := link (tail_hash (TenantID e) t) id at_ e in
    match insert_row e t with
    | Some t' => (Ok e, t')
    | None => (Err ErrDatabase, t)
    end.

Definition matches (tenant : string) (f : QueryFilters) (r : Entry) : bool :=
  String.eqb (TenantID r) tenant
  && (String.eqb (f_Action f) "" || String.eqb (Action r) (f_Action f))
  && (String.eqb (f_ActorID f) "" || String.eqb (ActorID r) (f_ActorID f))
  && (String.eqb (f_ResourceType f) "" || String.eqb (ResourceType r) (f_ResourceType f))
  && match Since f with Some s => s <=? CreatedAt r | None => true end
  && match Until f with Some u => CreatedAt r <=? u | None => true end.

Definition clampLimit (n : Z) : Z := if (n <=? 0) || (1000 <? n) then 100 else n.

Definition Query (pool : bool) (tenant : string) (f : QueryFilters) (t : Table) : result aerror (list Entry) :=
  if String.eqb tenant "" then Err ErrInvalidInput
  else if negb pool then Ok []
  else if Offset f <? 0 then Err ErrDatabase
  else Ok (stored <$> take (Z.to_nat (clampLimit (Limit f)))
             (drop (Z.to_nat (Offset f)) (reverse (filter (fun r => matches tenant f r = true) (rows t))))).

Fixpoint verify (prev : string) (l : list Entry) : result aerror unit :=
  match l with
  | [] => Ok tt
  | e :: l =>
      if negb (String.eqb (PrevHash e) prev) then Err (PrevHashMismatch (ID e))
      else if negb (String.eqb (computeHash prev e) (EntryHash e)) then Err (HashMismatch (ID e))
      else verify (EntryHash e) l
  end.

Definition VerifyChain (pool : bool) (tenant : string) (t : Table) : result aerror unit :=
  if String.eqb tenant "" then Err ErrInvalidInput
  else if negb pool then Ok tt
  else verify ""%string (stored <$> tenant_rows tenant t).

(** ** Appends in parallel

    [lockKey] is [hashtext] of the prefixed tenant id. *)
Variable lockKey : string -> Z.

Inductive pc :=
| Waiting (e : Entry)                 (* before the advisory lock *)
| Locked (e : Entry)                  (* lock held, tail not yet read *)
| Linked (e : Entry) (prev : string)  (* tail read, row not yet inserted *)
| Finished (r : result aerror Entry).

Record asys := mkASys { table : Table; locks : gmap Z nat; pcs : gmap nat pc }.

Inductive alabel :=
| ACall (w : nat) (e : Entry)
| ALock (w : nat)
| ATail (w : nat)
| AInsert (w : nat) (id : string) (at_ : Z)
| AAbort (w : nat).

Definition entry_of (p : pc) : option Entry :=
  match p with Locked e | Linked e _ => Some e | _ => None end.

Inductive astep : asys -> alabel -> asys -> Prop :=
| astep_call s w e :
    pcs s !! w = None -> valid_entry e = true ->
    astep s (ACall w e) (mkASys (table s) (locks s) (<[w := Waiting e]> (pcs s)))
| astep_lock s w e :
    pcs s !! w = Some (Waiting e) -> locks s !! lockKey (TenantID e) = None ->
    astep s (ALock w) (mkASys (table s) (<[lockKey (TenantID e) := w]> (locks s)) (<[w := Locked e]> (pcs s)))
| astep_tail s w e :
    pcs s !! w = Some (Locked e) ->
    astep s (ATail w)
      (mkASys (table s) (locks s) (<[w := Linked e (tail_hash (TenantID e) (table s))]> (pcs s)))
| astep_insert s w e prev id at_ :
    pcs s !! w = Some (Linked e prev) ->
    astep s (AInsert w id at_)
      (match insert_row (link prev id at_ e) (table s) with
       | Some t' => mkASys t' (delete (lockKey (TenantID e)) (locks s))
                      (<[w := Finished (Ok (link prev id at_ e))]> (pcs s))
       | None => mkASys (table s) (delete (lockKey (TenantID e)) (locks s))
                   (<[w := Finished (Err ErrDatabase)]> (pcs s))
       end)
| astep_abort s w p e :
    pcs s !! w = Some p -> entry_of p = Some e ->
    astep s (AAbort w)
      (mkASys (table s) (delete (lockKey (TenantID e)) (locks s)) (<[w := Finished (Err ErrDatabase)]> (pcs s))).

Definition asys_init (ts : gset string) : asys := mkASys (mkTable [] ts) ∅ ∅.
End service.

(** ** Chains *)
Section chain.
Context (sha256 : string -> string) (shortest : Z -> string).

Abbreviation verify := (verify sha256 shortest).
Abbreviation computeHash := (computeHash sha256 shortest).

Definition hash_tail (prev : string) (l : list Entry) : string :=
  match last l with Some e => EntryHash e | None => prev end.

Lemma hash_tail_cons prev e l : hash_tail prev (e :: l) = hash_tail (EntryHash e) l.
Proof.
  unfold hash_tail. destruct l as [|e' l]; [done|]. rewrite last_cons_cons.
  by destruct (last (e' :: l)) eqn:E; [|apply last_None in E].
Qed.

Lemma verify_snoc prev l e :
  verify prev (l ++ [e]) = Ok tt <->
  verify prev l = Ok tt /\ PrevHash e = hash_tail prev l /\ EntryHash e = computeHash (hash_tail prev l) e.
Proof.
  revert prev. induction l as [|e' l IH]; intros prev.
  - simpl. unfold hash_tail. simpl. destruct (String.eqb_spec (PrevHash e) prev); simpl; [|naive_solver].
    destruct (String.eqb_spec (computeHash prev e) (EntryHash e)); naive_solver.
  - rewrite hash_tail_cons. simpl. destruct (String.eqb _ _); simpl; [|naive_solver].
    destruct (String.eqb _ _); simpl; [|naive_solver]. apply IH.
Qed.

End chain.

Section chains.
Context (sha256 : string -> string) (shortest : Z -> string)
        (ParseIP : string -> option string) (host : string -> string) (lockKey : string -> Z).

Abbreviation verify := (verify sha256 shortest).
Abbreviation VerifyChain := (VerifyChain sha256 shortest host).
Abbreviation link := (link sha256 shortest ParseIP).
Abbreviation stored := (stored host).
Abbreviation computeHash := (computeHash sha256 shortest).
Abbreviation astep := (astep sha256 shortest ParseIP lockKey).

(** An entry whose columns read back as they were hashed. *)
Definition faithful (e : Entry) : Prop :=
  exact_map (Metadata e) /\ forall ip, ParseIP (IPAddress e) = Some ip -> ip <> ""%string -> host ip = ip.

Lemma stored_link_hash prev id at_ e :
  faithful e -> computeHash prev (stored (link prev id at_ e)) = EntryHash (link prev id at_ e).
Proof.
  intros [Hm Hip]. simpl. unfold AuditLog.computeHash. f_equal. unfold payload, AuditLog.link, normaliseIP.
  destruct (String.eqb_spec (IPAddress e) "") as [E|E]; simpl.
  - rewrite E. simpl. by rewrite canonical_reread.
  - rewrite canonical_reread by done. destruct (ParseIP (IPAddress e)) as [ip|] eqn:Ep; simpl; [|done].
    destruct (String.eqb_spec ip "") as [->|]; [done|]. by rewrite Hip.
Qed.

Lemma tail_hash_stored tenant t : tail_hash tenant t = hash_tail ""%string (stored <$> tenant_rows tenant t).
Proof. unfold tail_hash, hash_tail. rewrite fmap_last. by destruct (last _). Qed.

Lemma link_tenant prev id at_ e : TenantID (link prev id at_ e) = TenantID e.
Proof. unfold AuditLog.link, normaliseIP. by destruct (String.eqb _ _). Qed.

Lemma insert_row_some e t t' :
  insert_row e t = Some t' ->
  t' = mkTable (rows t ++ [e]) (tenants t) /\ forall tenant, tenant_rows tenant t' = tenant_rows tenant t ++ (if decide (TenantID e = tenant) then [e] else []).
Proof.
  unfold insert_row. destruct (_ && _ && _ && _); [|done]. intros [= <-]. split; [done|]. intros tenant.
  unfold tenant_rows. simpl. by rewrite filter_app.
Qed.

(** ** The invariant of concurrent appends *)
Record asys_ok (s : asys) : Prop := {
  a_chain : forall tenant, verify ""%string (stored <$> tenant_rows tenant (table s)) = Ok tt;
  a_lock : forall w p e, pcs s !! w = Some p -> entry_of p = Some e ->
    locks s !! lockKey (TenantID e) = Some w;
  a_tail : forall w e prev, pcs s !! w = Some (Linked e prev) -> prev = tail_hash (TenantID e) (table s);
  a_faithful : forall w p e, pcs s !! w = Some p -> (p = Waiting e \/ entry_of p = Some e) -> faithful e;
}.

(** Two appends past the lock are for different tenants. *)
Lemma lock_tenant s w w' p p' e e' :
  asys_ok s -> pcs s !! w = Some p -> pcs s !! w' = Some p' ->
  entry_of p = Some e -> entry_of p' = Some e' -> w <> w' -> TenantID e <> TenantID e'.
Proof.
  intros Hs Hp Hp' He He' Hne E. apply (a_lock _ Hs _ _ _ Hp) in He. apply (a_lock _ Hs _ _ _ Hp') in He'.
  rewrite E in He. congruence.
Qed.

Lemma release_ok s w p e r :
  asys_ok s -> pcs s !! w = Some p -> entry_of p = Some e ->
  asys_ok (mkASys (table s) (delete (lockKey (TenantID e)) (locks s)) (<[w := Finished r]> (pcs s))).
Proof.
  intros Hs Hw He. pose proof (a_lock _ Hs _ _ _ Hw He) as Hl. split; simpl.
  - apply Hs.
  - intros w' p' e' [[<- <-]|[Hne Hp']]%lookup_insert_Some He'; [done|].
    pose proof (a_lock _ Hs _ _ _ Hp' He') as Hl'. apply lookup_delete_Some. split; [|done].
    intros E. rewrite E in Hl. congruence.
  - intros w' e' prev [[<- [=]]|[Hne Hp']]%lookup_insert_Some. by eapply Hs.
  - intros w' p' e' [[<- <-]|[Hne Hp']]%lookup_insert_Some; [naive_solver|]. by eapply Hs.
Qed.

Lemma insert_ok s w e prev id at_ t' :
  asys_ok s -> pcs s !! w = Some (Linked e prev) -> insert_row (link prev id at_ e) (table s) = Some t' ->
  forall tenant, verify ""%string (stored <$> tenant_rows tenant t') = Ok tt.
Proof.
  intros Hs Hw Hi tenant. apply insert_row_some in Hi as [_ Hr]. rewrite Hr, link_tenant. case_decide as E.
  - subst tenant. rewrite fmap_app. apply verify_snoc. split_and!; [apply Hs|..]; rewrite <- tail_hash_stored;
      rewrite <- (a_tail _ Hs _ _ _ Hw); [done|]. symmetry. apply stored_link_hash.
    by eapply (a_faithful _ Hs _ _ _ Hw); right.
  - rewrite app_nil_r. apply Hs.
Qed.

Definition faithful_label (l : alabel) : Prop := match l with ACall _ e => faithful e | _ => True end.

Lemma astep_ok s l s' : asys_ok s -> astep s l s' -> faithful_label l -> asys_ok s'.
Proof.
  intros Hs Hstep Hf. inversion Hstep as [? w e Hw Hv|? w e Hw Hl|? w e Hw|? w e prev id at_ Hw|? w p e Hw He]; subst.
  - split; simpl; [apply Hs|..].
    + intros w' p' e' [[<- <-]|[Hne Hp']]%lookup_insert_Some He'; [done|]. by eapply Hs.
    + intros w' e' prev [[<- [=]]|[Hne Hp']]%lookup_insert_Some. by eapply Hs.
    + intros w' p' e' [[<- <-]|[Hne Hp']]%lookup_insert_Some; [|by eapply Hs].
      intros [[= <-]|[=]]. done.
  - split; simpl; [apply Hs|..].
    + intros w' p' e' [[<- <-]|[Hne Hp']]%lookup_insert_Some; [intros [= <-]; apply lookup_insert_eq|].
      intros He'. pose proof (a_lock _ Hs _ _ _ Hp' He') as Hl'. rewrite lookup_insert_ne; [done|congruence].
    + intros w' e' prev [[<- [=]]|[Hne Hp']]%lookup_insert_Some. by eapply Hs.
    + intros w' p' e' [[<- <-]|[Hne Hp']]%lookup_insert_Some; [|by eapply Hs].
      intros [[=]|[= <-]]. by eapply (a_faithful _ Hs _ _ _ Hw); left.
  - split; simpl; [apply Hs|..].
    + intros w' p' e' [[<- <-]|[Hne Hp']]%lookup_insert_Some; [|by eapply Hs].
      intros [= <-]. by eapply (a_lock _ Hs _ _ _ Hw).
    + intros w' e' prev [[<- [= <- <-]]|[Hne Hp']]%lookup_insert_Some; [done|]. by eapply Hs.
    + intros w' p' e' [[<- <-]|[Hne Hp']]%lookup_insert_Some; [|by eapply Hs].
      intros [[=]|[= <-]]. by eapply (a_faithful _ Hs _ _ _ Hw); right.
  - destruct (insert_row _ (table s)) as [t'|] eqn:Ei.
    + pose proof (release_ok _ _ _ _ (Ok (link prev id at_ e)) Hs Hw eq_refl) as Hr.
      split; simpl; [exact (insert_ok _ _ _ _ _ _ _ Hs Hw Ei)|apply Hr| |apply Hr].
      intros w' e' prev' Hp'. rewrite (a_tail _ Hr _ _ _ Hp'). simpl.
      apply lookup_insert_Some in Hp' as [[_ [=]]|[Hne Hp']].
      apply insert_row_some in Ei as [_ Ei]. unfold tail_hash. rewrite Ei, link_tenant.
      rewrite decide_False by (exact (lock_tenant _ _ _ _ _ _ _ Hs Hw Hp' eq_refl eq_refl Hne)). by rewrite app_nil_r.
    + exact (release_ok _ _ _ _ (Err ErrDatabase) Hs Hw eq_refl).
  - by eapply release_ok.
Qed.

Lemma asys_init_ok ts : asys_ok (asys_init ts).
Proof. split; simpl; [done|..]; intros *; rewrite lookup_empty; done. Qed.
End chains.


(** ** Tamper evidence *)
Definition bar : Ascii.ascii := Ascii.ascii_of_N 124.
Definition nobar (s : string) : Prop := bar ∉ String.list_ascii_of_string s.

Lemma split_bar (a b x y : string) :
  nobar a -> nobar b -> a +:+ "|" +:+ x = b +:+ "|" +:+ y -> a = b /\ x = y.
Proof.
  unfold nobar. revert b. induction a as [|c a IH]; intros [|d b]; simpl; intros Ha Hb Heq.
  - injection Heq as Heq. by split.
  - injection Heq as <- _. by destruct Hb; left.
  - injection Heq as -> _. by destruct Ha; left.
  - injection Heq as -> Heq. rewrite not_elem_of_cons in Ha, Hb. destruct Ha, Hb.
    destruct (IH b) as [-> ->]; auto.
Qed.

(** What the hash covers. *)
Record columns := mkColumns {
  x_TenantID : string; x_ActorID : string; x_ActorType : string; x_Action : string; x_ResourceType : string;
  x_ResourceID : string; x_Metadata : gmap string json; x_IPAddress : string; x_UserAgent : string }.
Definition columns_of (e : Entry) : columns :=
  mkColumns (TenantID e) (ActorID e) (eActorType e) (Action e) (ResourceType e) (ResourceID e) (Metadata e)
    (IPAddress e) (UserAgent e).

(** No separator inside a field, metadata and user agent apart. *)
Definition unseparated (e : Entry) : Prop :=
  Forall nobar [TenantID e; ActorID e; eActorType e; Action e; ResourceType e; ResourceID e; IPAddress e].
Definition plain (e : Entry) : Prop := unseparated e /\ read_back_map (Metadata e).

Lemma stored_plain host e : unseparated (stored host e) -> plain (stored host e).
Proof. intros He. split; [done|]. apply reread_map_read_back. Qed.

Lemma all_plain host l : Forall unseparated (stored host <$> l) -> Forall plain (stored host <$> l).
Proof. rewrite !Forall_fmap. intros H. eapply Forall_impl; [exact H|]. intros e. apply stored_plain. Qed.

Lemma payload_inj shortest prev prev' e e' : float_text shortest ->
  nobar prev -> nobar prev' -> plain e -> plain e' ->
  payload shortest prev e = payload shortest prev' e' ->
  prev = prev' /\ columns_of e = columns_of e'.
Proof.
  intros HF Hp Hp' [He Hm] [He' Hm'] E. unfold payload in E. unfold unseparated in He, He'.
  repeat rewrite Forall_cons in He. repeat rewrite Forall_cons in He'.
  destruct He as (? & ? & ? & ? & ? & ? & ? & _). destruct He' as (? & ? & ? & ? & ? & ? & ? & _).
  revert E. do 7 (intros [? Hx]%split_bar; [revert Hx|done..]).
  intros [? Hx]%canonical_inj; [|done..]. injection Hx as Hx.
  apply split_bar in Hx as [? ?]; [|done..]. split; [done|]. unfold columns_of. congruence.
Qed.

Section tamper.
Context (sha256 : string -> string) (shortest : Z -> string) (HF : float_text shortest).
Hypotheses (sha_inj : forall a b, sha256 a = sha256 b -> a = b)
  (sha_nobar : forall a, nobar (sha256 a)) (sha_nonempty : forall a, sha256 a <> ""%string).

Abbreviation verify := (verify sha256 shortest ""%string).

Lemma hash_tail_nobar l : verify l = Ok tt -> nobar (hash_tail ""%string l).
Proof.
  destruct l as [|e l _] using rev_ind; intros Hv; [exact (not_elem_of_nil bar)|].
  apply verify_snoc in Hv as (_ & _ & Hh). unfold hash_tail. rewrite last_snoc, Hh. apply sha_nobar.
Qed.

Lemma same_tail_same_chain l1 : forall l2,
  verify l1 = Ok tt -> verify l2 = Ok tt -> Forall plain l1 -> Forall plain l2 ->
  hash_tail ""%string l1 = hash_tail ""%string l2 -> columns_of <$> l1 = columns_of <$> l2.
Proof.
  induction l1 as [|e1 l1 IH] using rev_ind; intros l2; destruct l2 as [|e2 l2 _] using rev_ind; intros V1 V2 P1 P2 Ht.
  - done.
  - apply verify_snoc in V2 as (_ & _ & Hh). unfold hash_tail in Ht. rewrite last_snoc, Hh in Ht.
    by destruct (sha_nonempty _ (eq_sym Ht)).
  - apply verify_snoc in V1 as (_ & _ & Hh). unfold hash_tail in Ht. rewrite last_snoc, Hh in Ht.
    by destruct (sha_nonempty _ Ht).
  - apply verify_snoc in V1 as (V1 & _ & H1), V2 as (V2 & _ & H2).
    apply Forall_app in P1 as [P1 [Q1 _]%Forall_cons], P2 as [P2 [Q2 _]%Forall_cons].
    unfold hash_tail in Ht. rewrite !last_snoc, H1, H2 in Ht. apply sha_inj in Ht.
    apply payload_inj in Ht as [Hp Hc]; [|done|by apply hash_tail_nobar|by apply hash_tail_nobar|done..].
    rewrite !fmap_app. f_equal; [by apply IH|]. simpl. by rewrite Hc.
Qed.
End tamper.


(** The separator inside a field defeats the hash: moving it between two
    columns of a stored row is not noticed, whatever the hash function. *)
Theorem separator_ambiguous sha256 shortest host :
  exists e e', Action e <> Action e' /\ ResourceType e <> ResourceType e' /\
    let t := mkTable [e] {["t1"%string]} in let t' := mkTable [e'] {["t1"%string]} in
    VerifyChain sha256 shortest host true "t1" t = Ok tt /\
    VerifyChain sha256 shortest host true "t1" t' = Ok tt /\ tail_hash "t1" t = tail_hash "t1" t'.
Proof.
  pose (mk := fun a r h => mkEntry "t1" "bob" ActorAdmin a r "" ∅ "" "" "id" "" h 0).
  pose (h := computeHash sha256 shortest "" (mk "delete|user" "mailbox" "")%string).
  exists (mk "delete|user" "mailbox" h)%string, (mk "delete" "user|mailbox" h)%string.
  split_and!; [done..|]. cbn zeta. split_and!; [..|done]; unfold VerifyChain; simpl.
  - unfold h, computeHash. rewrite (String.eqb_refl (sha256 _)). done.
  - unfold h, computeHash. rewrite (String.eqb_refl (sha256 _)). done.
Qed.

(** ** Appends succeed *)
Section progress.
Context (sha256 : string -> string) (shortest : Z -> string) (HF : float_text shortest)
        (ParseIP : string -> option string) (host : string -> string) (lockKey : string -> Z).
Hypotheses (sha_inj : forall a b, sha256 a = sha256 b -> a = b)
  (sha_nobar : forall a, nobar (sha256 a)) (sha_nonempty : forall a, sha256 a <> ""%string).

Lemma verify_app l1 l2 : forall prev,
  verify sha256 shortest prev (l1 ++ l2) = Ok tt ->
  verify sha256 shortest prev l1 = Ok tt /\ verify sha256 shortest (hash_tail prev l1) l2 = Ok tt.
Proof.
  induction l1 as [|e l1 IH]; intros prev; [done|]. rewrite hash_tail_cons. simpl.
  destruct (String.eqb _ _); [|done]. destruct (String.eqb _ _); [|done]. apply IH.
Qed.

(** The tail of a verified chain is nobody's [prev_hash] yet. *)
Lemma fresh_tail l e :
  verify sha256 shortest ""%string l = Ok tt -> Forall plain l -> e ∈ l ->
  PrevHash e <> hash_tail ""%string l.
Proof.
  intros Hv Hp (l1 & l2 & ->)%list_elem_of_split He.
  pose proof (verify_app l1 (e :: l2) _ Hv) as [V1 V2].
  assert (PrevHash e = hash_tail ""%string l1) as E.
  { simpl in V2. by destruct (String.eqb_spec (PrevHash e) (hash_tail ""%string l1)). }
  pose proof Hp as [P1 _]%Forall_app.
  assert (columns_of <$> l1 = columns_of <$> (l1 ++ e :: l2)) as Hc
    by (eapply same_tail_same_chain; eauto; congruence).
  apply (f_equal length) in Hc. rewrite !length_fmap, length_app in Hc. simpl in Hc. lia.
Qed.

Definition plain_entry (e : Entry) : Prop := unseparated (stored host (link sha256 shortest ParseIP ""%string ""%string 0 e)).

Record asys_plain (ts : gset string) (s : asys) : Prop := {
  p_rows : forall r, r ∈ rows (table s) -> unseparated (stored host r);
  p_threads : forall w p e, pcs s !! w = Some p -> (p = Waiting e \/ entry_of p = Some e) -> plain_entry e;
  p_tenants : tenants (table s) = ts;
}.

Definition plain_label (l : alabel) : Prop := match l with ACall _ e => plain_entry e | _ => True end.

Lemma asys_plain_pc ts s w p lk :
  asys_plain ts s -> (forall e, p = Waiting e \/ entry_of p = Some e -> plain_entry e) ->
  asys_plain ts (mkASys (table s) lk (<[w := p]> (pcs s))).
Proof.
  intros Hs Hp. split; simpl; [apply Hs| |apply Hs].
  intros w' p' e [[_ <-]|[_ Hp']]%lookup_insert_Some; [apply Hp|by eapply Hs].
Qed.

Lemma asys_plain_step ts s l s' :
  asys_plain ts s -> astep sha256 shortest ParseIP lockKey s l s' -> plain_label l -> asys_plain ts s'.
Proof.
  intros Hs Hstep Hl. inversion Hstep as [? w e Hw Hv|? w e Hw Hk|? w e Hw|? w e prev id at_ Hw|? w p e Hw He]; subst.
  - apply asys_plain_pc; [done|]. by intros e' [[= <-]|[=]].
  - apply asys_plain_pc; [done|]. intros e' [[=]|[= <-]]. by eapply (p_threads _ _ Hs _ _ _ Hw); left.
  - apply asys_plain_pc; [done|]. intros e' [[=]|[= <-]]. by eapply (p_threads _ _ Hs _ _ _ Hw); right.
  - destruct (insert_row _ _) as [t'|] eqn:Ei; [|apply asys_plain_pc; [done|naive_solver]].
    apply insert_row_some in Ei as [-> _].
    assert (plain_entry e) as He by (by eapply (p_threads _ _ Hs _ _ _ Hw); right).
    split; simpl; [| |apply Hs].
    + intros r [Hr|Hr%list_elem_of_singleton]%elem_of_app; [by apply (p_rows _ _ Hs)|subst r; exact He].
    + intros w' p' e' [[_ <-]|[_ Hp']]%lookup_insert_Some; [naive_solver|by eapply Hs].
  - apply asys_plain_pc; [done|naive_solver].
Qed.

Definition good_label (l : alabel) : Prop := faithful_label ParseIP host l /\ plain_label l.

Lemma asys_run_ok ts es s :
  steps (astep sha256 shortest ParseIP lockKey) (asys_init ts) es s -> Forall good_label es ->
  asys_ok sha256 shortest ParseIP host lockKey s /\ asys_plain ts s.
Proof.
  intros Hr. assert (asys_ok sha256 shortest ParseIP host lockKey (asys_init ts) /\ asys_plain ts (asys_init ts)) as H0.
  { split; [apply asys_init_ok|]. split; simpl; [by intros r ?%elem_of_nil| |done].
    intros *. by rewrite lookup_empty. }
  revert H0. generalize dependent (asys_init ts). intros s0 Hr. induction Hr; intros [H0 H1] Hf; [done|].
  apply Forall_cons in Hf as [[F1 F2] Hf]. apply IHHr; [|done]. split; [by eapply astep_ok|by eapply asys_plain_step].
Qed.
End progress.

(** Appends do not get in each other's way.  In any run as above, with a
    hash without collisions, an insert of storable text for a known tenant and
    actor type is never refused by the uniqueness of [(tenant_id, prev_hash)]:
    the entry goes on the tail. *)
Theorem append_succeeds sha256 shortest ParseIP host lockKey ts es s w e prev id at_ s' :
  float_text shortest ->
  (forall a b, sha256 a = sha256 b -> a = b) -> (forall a, nobar (sha256 a)) ->
  (forall a, sha256 a <> ""%string) ->
  steps (astep sha256 shortest ParseIP lockKey) (asys_init ts) es s ->
  Forall (good_label sha256 shortest ParseIP host) es ->
  pcs s !! w = Some (Linked e prev) -> storable e = true -> TenantID e ∈ ts -> eActorType e ∈ [ActorUser; ActorSystem; ActorAdmin] ->
  astep sha256 shortest ParseIP lockKey s (AInsert w id at_) s' ->
  exists r, pcs s' !! w = Some (Finished (Ok r)) /\
    tenant_rows (TenantID e) (table s') = tenant_rows (TenantID e) (table s) ++ [r].
Proof.
  intros HF Hi Hn He Hr Hf Hw Hst Ht Ha Hs'. destruct (asys_run_ok _ _ _ _ _ _ _ _ Hr Hf) as [Hok Hp].
  inversion Hs' as [| | |? ? e0 prev0 ? ? Hw'|]; subst. rewrite Hw in Hw'. injection Hw' as <- <-.
  set (r := link sha256 shortest ParseIP prev id at_ e).
  assert (TenantID r = TenantID e) as Hrt by apply link_tenant.
  assert (eActorType r = eActorType e) as Hra by (unfold r, link, normaliseIP; by destruct (String.eqb _ _)).
  assert (storable r = true) as Hrs by (unfold r, link, normaliseIP; by destruct (String.eqb _ _)).
  assert (existsb (fun q => String.eqb (PrevHash q) (PrevHash r)) (tenant_rows (TenantID r) (table s)) = false) as Hu.
  { apply not_true_is_false. intros (q & Hq & Heq%String.eqb_eq)%existsb_exists.
    apply list_elem_of_In in Hq. rewrite Hrt in Hq.
    apply (fresh_tail sha256 shortest HF Hi Hn He (stored host <$> tenant_rows (TenantID e) (table s)) (stored host q)).
    - apply Hok.
    - apply Forall_fmap, Forall_forall. intros x [_ Hx]%list_elem_of_filter. by apply stored_plain, (p_rows _ _ _ _ _ _ Hp).
    - by apply list_elem_of_fmap_2.
    - simpl. rewrite Heq. change (PrevHash r) with prev. rewrite (a_tail _ _ _ _ _ _ Hok _ _ _ Hw).
      apply tail_hash_stored. }
  destruct (insert_row r (table s)) as [t'|] eqn:Ei.
  - exists r. simpl. split; [apply lookup_insert_eq|]. apply insert_row_some in Ei as [_ ->].
    by rewrite decide_True.
  - unfold insert_row in Ei. rewrite Hrs, Hu, Hra, Hrt, (p_tenants _ _ _ _ _ _ Hp) in Ei.
    by rewrite !bool_decide_true in Ei by done.
Qed.

(** Integers beyond 2^53 break the chain.  Log hashes the Go integer,
    VerifyChain the float64 it comes back as: an entry appended to an empty
    log with such a number in its metadata is reported as tampered with. *)
Theorem big_integer_breaks_chain sha256 shortest ParseIP host id at_ :
  (forall a b, sha256 a = sha256 b -> a = b) ->
  exists e r t', Log sha256 shortest ParseIP true id at_ e (mkTable [] {["t1"%string]}) = (Ok r, t') /\
    VerifyChain sha256 shortest host true "t1" t' = Err (HashMismatch id).
Proof.
  intros Hi.
  pose (e := mkEntry "t1" "bob" ActorAdmin "resize" "mailbox" "" {["bytes"%string := JInt (2 ^ 53 + 1)]} "" "" "" "" "" 0).
  exists e. do 2 eexists. split; [reflexivity|]. unfold VerifyChain. simpl.
  unfold computeHash. match goal with |- context [String.eqb (sha256 ?a) (sha256 ?b)] =>
    destruct (String.eqb_spec (sha256 a) (sha256 b)) as [E|]; [|done] end.
  exfalso. apply Hi in E. vm_compute in E. discriminate E.
Qed.

(** A byte that is no UTF-8 in a string of the metadata breaks the chain.  Log
    hashes the escape [json.Marshal] writes for it, VerifyChain the character
    the database made of that escape: such an entry, say the path of a request
    an administrator had forwarded, is reported as tampered with. *)
Theorem bad_utf8_breaks_chain sha256 shortest ParseIP host id at_ :
  (forall a b, sha256 a = sha256 b -> a = b) ->
  exists e r t', Log sha256 shortest ParseIP true id at_ e (mkTable [] {["t1"%string]}) = (Ok r, t') /\
    VerifyChain sha256 shortest host true "t1" t' = Err (HashMismatch id).
Proof.
  intros Hi. pose (path := String.String (Ascii.ascii_of_N 47) (String.String (Ascii.ascii_of_N 255) "")).
  pose (e := mkEntry "t1" "bob" ActorAdmin "admin_proxy_forward" "stalwart" "s1" {["path"%string := JStr path]} "" "" "" "" "" 0).
  exists e. do 2 eexists. split; [reflexivity|]. unfold VerifyChain. simpl.
  unfold computeHash. match goal with |- context [String.eqb (sha256 ?a) (sha256 ?b)] =>
    destruct (String.eqb_spec (sha256 a) (sha256 b)) as [E|]; [|done] end.
  exfalso. apply Hi in E. vm_compute in E. discriminate E.
Qed.

Lemma join_slices {A} (l : list A) n m :
  mjoin ((fun k => take n (drop (k * n) l)) <$> seq 0 m) = take (m * n) l.
Proof.
  induction m as [|m IH]; [done|]. rewrite seq_S, fmap_app, join_app, IH. simpl.
  rewrite app_nil_r, take_take_drop. f_equal. lia.
Qed.

(** Pages partition the answer.  Reading a query page by page returns
    the tenant's matching rows, newest first, each exactly once. *)
Theorem query_pages host tenant f t n m :
  tenant <> ""%string -> 1 <= n <= 1000 ->
  let page k := Query host true tenant
    (mkFilters (f_Action f) (f_ActorID f) (f_ResourceType f) (Since f) (Until f) n (Z.of_nat k * n)) t in
  exists pages, page <$> seq 0 m = Ok <$> pages /\
    mjoin pages = take (m * Z.to_nat n)
      (stored host <$> reverse (filter (fun r => matches tenant f r = true) (rows t))).
Proof.
  intros Ht Hn page. set (all := reverse _).
  exists ((fun k => take (Z.to_nat n) (drop (k * Z.to_nat n) (stored host <$> all))) <$> seq 0 m).
  split; [|apply join_slices]. rewrite <- list_fmap_compose. apply list_fmap_ext. intros i k _.
  unfold page, Query. rewrite (proj2 (String.eqb_neq tenant "")) by done. simpl.
  destruct (Z.ltb_spec (Z.of_nat k * n) 0); [lia|]. f_equal.
  assert (clampLimit n = n) as -> by (unfold clampLimit; destruct (Z.leb_spec n 0), (Z.ltb_spec 1000 n); simpl; lia).
  rewrite Z2Nat.inj_mul, Nat2Z.id by lia. by rewrite fmap_take, fmap_drop.
Qed.

(** ** A collision-free stand-in for the digest, and runs *)
Module AuditExamples.
(** Two hexadecimal digits per byte, after a marker. *)
Definition hex_byte (c : Ascii.ascii) : list Ascii.ascii :=
  let n := Ascii.N_of_ascii c in
  String.list_ascii_of_string (hexdigit (N.div n 16) +:+ hexdigit (N.modulo n 16)).

Definition hex (s : string) : string :=
  String.String (Ascii.ascii_of_N 104)
    (String.string_of_list_ascii (mjoin (hex_byte <$> String.list_ascii_of_string s))).

Definition unhex (c d : Ascii.ascii) : N :=
  let digit c := let n := Ascii.N_of_ascii c in if (n <? 58)%N then (n - 48)%N else (n - 87)%N in
  (16 * digit c + digit d)%N.

Lemma hex_byte_shape c : exists a b, hex_byte c = [a; b] /\ unhex a b = Ascii.N_of_ascii c /\ a <> bar /\ b <> bar.
Proof. destruct c as [[] [] [] [] [] [] [] []]; do 2 eexists; (split; [reflexivity|]); by vm_compute. Qed.

Lemma hex_inj a b : hex a = hex b -> a = b.
Proof.
  unfold hex. intros [= Hs]. apply (f_equal String.list_ascii_of_string) in Hs.
  rewrite !String.list_ascii_of_string_of_list_ascii in Hs. apply list_ascii_inj.
  revert Hs. generalize (String.list_ascii_of_string a), (String.list_ascii_of_string b).
  induction l as [|c l IH]; intros [|d l']; simpl; try done.
  - destruct (hex_byte_shape d) as (x & y & -> & _). done.
  - destruct (hex_byte_shape c) as (x & y & -> & _). done.
  - destruct (hex_byte_shape c) as (x & y & -> & Hc & _), (hex_byte_shape d) as (x' & y' & -> & Hd & _).
    simpl. intros [= -> -> Hl]. rewrite Hc in Hd.
    apply (f_equal Ascii.ascii_of_N) in Hd. rewrite !Ascii.ascii_N_embedding in Hd. subst. f_equal. auto.
Qed.

Lemma hex_nobar a : nobar (hex a).
Proof.
  unfold nobar, hex. simpl. rewrite String.list_ascii_of_string_of_list_ascii, not_elem_of_cons. split; [done|].
  intros (l & Hl & (c & -> & _)%list_elem_of_fmap)%list_elem_of_join.
  destruct (hex_byte_shape c) as (x & y & E & _ & Hx & Hy). rewrite E in Hl. set_solver.
Qed.

Lemma hex_nonempty a : hex a <> ""%string.
Proof. done. Qed.

Definition short (n : Z) : string := pretty n.
Definition parse (s : string) : option string := if String.eqb s "127.0.0.1" then Some s else None.
Definition hostf (s : string) : string := s.
Definition lock (s : string) : Z := Z.of_nat (String.length s).

Definition entry (tenant action ip : string) (n : Z) : Entry :=
  mkEntry tenant "bob" ActorAdmin action "mailbox" "m1" {["size"%string := JInt n]} ip "curl" "" "" "" 0.

Abbreviation step := (astep hex short parse lock).
Definition ts : gset string := {["t1"%string]}.

Definition e1 : Entry := entry "t1" "create" "127.0.0.1" 42.
Definition e2 : Entry := entry "t1" "delete" "nonsense" 7.

(** Two appends for one tenant, the second waiting for the first. *)
Definition calls : list alabel :=
  [ACall 1 e1; ACall 2 e2; ALock 1; ATail 1; AInsert 1 "r1" 10; ALock 2; ATail 2].

Lemma calls_run : exists s, steps step (asys_init ts) calls s /\
  pcs s !! 2%nat = Some (Linked e2 (tail_hash "t1" (table s))) /\ length (rows (table s)) = 1%nat.
Proof.
  eexists. split.
  - econstructor; [by apply astep_call|]. econstructor; [by apply astep_call|].
    econstructor; [by apply (astep_lock hex short parse lock _ _ e1)|].
    econstructor; [by apply (astep_tail hex short parse lock _ _ e1)|].
    econstructor; [by eapply (astep_insert hex short parse lock _ _ e1)|].
    econstructor; [by apply (astep_lock hex short parse lock _ _ e2)|].
    econstructor; [by apply (astep_tail hex short parse lock _ _ e2)|constructor].
  - split; reflexivity.
Qed.

Lemma faithful_entry tenant action ip n :
  Z.abs n <= maxExact -> faithful parse hostf (entry tenant action ip n).
Proof.
  intros Hn. split; [|done]. simpl. intros k j [<- <-]%lookup_singleton_Some. split; [reflexivity|exact Hn].
Qed.

Ltac no_bars :=
  unfold plain_entry, unseparated;
  repeat (apply Forall_cons_2; [apply (bool_decide_unpack _); vm_compute; exact I|]);
  apply Forall_nil_2.

#[local] Instance nobar_dec s : Decision (nobar s).
Proof. unfold nobar. apply _. Defined.
#[export] Instance unseparated_dec e : Decision (unseparated e).
Proof. unfold unseparated. apply _. Defined.

Lemma plain_e1 : plain_entry hex short parse hostf e1.
Proof. no_bars. Qed.

Lemma plain_e2 : plain_entry hex short parse hostf e2.
Proof. no_bars. Qed.

Lemma calls_good : Forall (good_label hex short parse hostf) calls.
Proof.
  assert (forall l, (faithful_label parse hostf l /\ plain_label hex short parse hostf l) -> good_label hex short parse hostf l) as H by done.
  repeat apply Forall_cons_2; try apply Forall_nil_2; apply H; simpl; split; try done;
    first [apply faithful_entry; by vm_compute|apply plain_e1|apply plain_e2].
Qed.
End AuditExamples.

Import AuditExamples.


Lemma append_succeeds_witness :
  exists s s' r, pcs s' !! 2%nat = Some (Finished (Ok r)) /\
    tenant_rows "t1" (table s') = tenant_rows "t1" (table s) ++ [r].
Proof.
  destruct calls_run as (s & Hr & Hp & _). exists s.
  pose proof (astep_insert hex short parse lock s 2 e2 (tail_hash "t1" (table s)) "r2" 11 Hp) as Hs.
  eexists. apply (append_succeeds hex short parse hostf lock ts calls s 2 e2 _ "r2" 11 _ pretty_float_text hex_inj hex_nobar
    hex_nonempty Hr calls_good Hp); [vm_compute; reflexivity|by apply elem_of_singleton|right; right; left|exact Hs].
Defined.

Definition one_row : Table := (Log hex short parse true "r1" 10 e1 (mkTable [] ts)).2.

Definition same_row : Table := (Log hex short parse true "r9" 20 e1 (mkTable [] ts)).2.


Lemma big_integer_breaks_chain_witness :
  exists e r t', Log hex short parse true "r1" 10 e (mkTable [] ts) = (Ok r, t') /\
    VerifyChain hex short hostf true "t1" t' = Err (HashMismatch "r1").
Proof. apply (big_integer_breaks_chain hex short parse hostf "r1" 10 hex_inj). Defined.

Lemma bad_utf8_breaks_chain_witness :
  exists e r t', Log hex short parse true "r1" 10 e (mkTable [] ts) = (Ok r, t') /\
    VerifyChain hex short hostf true "t1" t' = Err (HashMismatch "r1").
Proof. apply (bad_utf8_breaks_chain hex short parse hostf "r1" 10 hex_inj). Defined.

Lemma query_pages_witness :
  exists pages, (fun k => Query hostf true "t1" (mkFilters "" "" "" None None 1 (Z.of_nat k * 1)) one_row) <$> seq 0 2
      = Ok <$> pages /\
    mjoin pages = take (2 * Z.to_nat 1)
      (stored hostf <$> reverse (filter (fun r => matches "t1" (mkFilters "" "" "" None None 0 0) r = true) (rows one_row))).
Proof.
  apply (query_pages hostf "t1" (mkFilters "" "" "" None None 0 0) one_row 1 2); [discriminate|lia].
Defined.
