(* ===== verification/Calendar.v ===== *)
(** * The proleptic Gregorian calendar of package [time]

    Days since 1970-01-01 UTC to and from civil dates, [AddDate(0, 1, 0)], and
    the texts [Format("20060102")] and [Format("2006010215")] that name
    counters.  A time is in nanoseconds since the epoch. *)

From S2P Require Import Prelude.

Local Open Scope Z_scope.

Definition Day : Z := 24 * Hour.

(** Within a cycle of 400 years that starts on a first of March. *)
Definition yearOfEra (doe : Z) : Z := (doe - doe / 1460 + doe / 36524 - doe / 146096) / 365.
Definition dayOfYear (doe : Z) : Z :=
  let yoe := yearOfEra doe in doe - (365 * yoe + yoe / 4 - yoe / 100).
Definition monthFromMarch (doe : Z) : Z := (5 * dayOfYear doe + 2) / 153.
Definition dayOfMonth (doe : Z) : Z := dayOfYear doe - (153 * monthFromMarch doe + 2) / 5 + 1.

Definition civil_from_days (z0 : Z) : Z * Z * Z :=
  let era := (z0 + 719468) / 146097 in
  let doe := (z0 + 719468) mod 146097 in
  let mp := monthFromMarch doe in
  let m := if mp <? 10 then mp + 3 else mp - 9 in
  (yearOfEra doe + era * 400 + (if m <=? 2 then 1 else 0), m, dayOfMonth doe).

Definition days_from_civil (y0 m d : Z) : Z :=
  let y := if m <=? 2 then y0 - 1 else y0 in
  let era := y / 400 in
  let yoe := y mod 400 in
  let doy := (153 * (if 2 <? m then m - 3 else m + 9) + 2) / 5 + d - 1 in
  era * 146097 + (365 * yoe + yoe / 4 - yoe / 100 + doy) - 719468.

(** A day past the end of the month runs over into the next one. *)
Definition AddMonth (t : Z) : Z :=
  let '(y, m, d) := civil_from_days (t / Day) in
  (if m =? 12 then days_from_civil (y + 1) 1 d else days_from_civil y (m + 1) d) * Day + t mod Day.

Definition digit (n : Z) : string :=
  String.String (Ascii.ascii_of_N (Z.to_N (48 + n))) String.EmptyString.
Definition pad2 (n : Z) : string := digit (n / 10) +:+ digit (n mod 10).
Definition pad4 (n : Z) : string := pad2 (n / 100) +:+ pad2 (n mod 100).

(** [t.UTC().Format("20060102")], for years 0 to 9999. *)
Definition dateText (t : Z) : string :=
  let '(y, m, d) := civil_from_days (t / Day) in pad4 y +:+ pad2 m +:+ pad2 d.

(** [t.UTC().Format("2006010215")]. *)
Definition hourText (t : Z) : string := dateText t +:+ pad2 (t mod Day / Hour).

(** ** Round trip *)
Lemma yearOfEra_bounds doe : 0 <= doe < 146097 -> 0 <= yearOfEra doe < 400.
Proof. unfold yearOfEra. intros. Z.div_mod_to_equations. lia. Qed.

Lemma dayOfYear_bounds doe : 0 <= doe < 146097 -> 0 <= dayOfYear doe <= 365.
Proof.
  unfold dayOfYear. intros. remember (yearOfEra doe) as yoe eqn:E. unfold yearOfEra in E.
  Z.div_mod_to_equations. lia.
Qed.

Lemma era_bounds doe :
  0 <= doe < 146097 ->
  0 <= yearOfEra doe < 400 /\ 0 <= monthFromMarch doe <= 11 /\ 1 <= dayOfMonth doe <= 31.
Proof.
  intros Hd. pose proof (dayOfYear_bounds doe Hd) as Hy. split; [by apply yearOfEra_bounds|].
  unfold dayOfMonth, monthFromMarch. generalize dependent (dayOfYear doe). intros doy Hy.
  Z.div_mod_to_equations. lia.
Qed.

(** A date determines its day. *)
Lemma civil_round_trip z :
  let '(y, m, d) := civil_from_days z in
  days_from_civil y m d = z /\ 1 <= m <= 12 /\ 1 <= d <= 31.
Proof.
  unfold civil_from_days. set (doe := (z + 719468) mod 146097). set (era := (z + 719468) / 146097).
  assert (0 <= doe < 146097) as Hdoe by (apply Z.mod_pos_bound; lia).
  assert (z + 719468 = 146097 * era + doe) as Hz by (apply Z.div_mod; lia).
  destruct (era_bounds doe Hdoe) as (Hy & Hm & Hd).
  set (mp := monthFromMarch doe) in *. set (m := if mp <? 10 then mp + 3 else mp - 9).
  assert ((if m <=? 2 then yearOfEra doe + era * 400 + (if m <=? 2 then 1 else 0) - 1
           else yearOfEra doe + era * 400 + (if m <=? 2 then 1 else 0)) = yearOfEra doe + era * 400) as Ey
    by (destruct (m <=? 2); lia).
  assert ((if 2 <? m then m - 3 else m + 9) = mp /\ 1 <= m <= 12) as [Em Hm'].
  { unfold m. destruct (Z.ltb_spec mp 10).
    - destruct (Z.ltb_spec 2 (mp + 3)); lia.
    - destruct (Z.ltb_spec 2 (mp - 9)); lia. }
  split; [|lia]. unfold days_from_civil. rewrite Ey, Em, Z.div_add, Z.mod_add, Z.div_small, Z.mod_small by lia.
  assert (dayOfMonth doe = dayOfYear doe - (153 * mp + 2) / 5 + 1) as -> by reflexivity.
  unfold dayOfYear. lia.
Qed.

Lemma civil_inj z z' : civil_from_days z = civil_from_days z' -> z = z'.
Proof.
  intros E. pose proof (civil_round_trip z) as H. pose proof (civil_round_trip z') as H'.
  rewrite <- E in H'. destruct (civil_from_days z) as [[y m] d]. destruct H as [<- _], H' as [<- _]. done.
Qed.

(** ** Texts of dates *)
Lemma digit_inj a b : 0 <= a < 10 -> 0 <= b < 10 -> digit a = digit b -> a = b.
Proof.
  intros Ha Hb [= E]. apply (f_equal Ascii.N_of_ascii) in E. rewrite !Ascii.N_ascii_embedding in E by lia. lia.
Qed.

Lemma pad2_inj a b : 0 <= a < 100 -> 0 <= b < 100 -> pad2 a = pad2 b -> a = b.
Proof.
  intros Ha Hb E. unfold pad2 in E. apply string_suffix_inj in E as [E1 E2]; [|done].
  apply digit_inj in E1; [|Z.div_mod_to_equations; lia..]. apply digit_inj in E2; [|Z.div_mod_to_equations; lia..].
  Z.div_mod_to_equations. lia.
Qed.

Lemma pad4_inj a b : 0 <= a < 10000 -> 0 <= b < 10000 -> pad4 a = pad4 b -> a = b.
Proof.
  intros Ha Hb E. unfold pad4 in E. apply string_suffix_inj in E as [E1 E2]; [|done].
  apply pad2_inj in E1; [|Z.div_mod_to_equations; lia..]. apply pad2_inj in E2; [|Z.div_mod_to_equations; lia..].
  Z.div_mod_to_equations. lia.
Qed.

Lemma dateText_length t : String.length (dateText t) = 8%nat.
Proof. unfold dateText. by destruct (civil_from_days (t / Day)) as [[y m] d]. Qed.

Definition year (t : Z) : Z := (civil_from_days (t / Day)).1.1.

(** Within years 0 to 9999 a text names one day. *)
Lemma dateText_inj t t' :
  0 <= year t < 10000 -> 0 <= year t' < 10000 -> dateText t = dateText t' -> t / Day = t' / Day.
Proof.
  unfold year, dateText. pose proof (civil_round_trip (t / Day)) as H. pose proof (civil_round_trip (t' / Day)) as H'.
  intros Hy Hy' E. apply civil_inj.
  destruct (civil_from_days (t / Day)) as [[y m] d], (civil_from_days (t' / Day)) as [[y' m'] d']. cbn in Hy, Hy'.
  apply string_suffix_inj in E as [E1 E]; [|done]. apply string_suffix_inj in E as [E2 E3]; [|done].
  apply pad4_inj in E1; [|lia..]. apply pad2_inj in E2; [|lia..]. apply pad2_inj in E3; [|lia..]. congruence.
Qed.
