(* ===== verification/Billing.v ===== *)
(** * Billing and quotas ([internal/billing/billing.go])

    The control-plane tables the billing service owns or reads, as one record;
    a transaction is a function on it that fails without effect, run under a
    [delivery] that may lose its request or its reply.  Every method of
    [Service] is a definition over it.  Go integers are kept at 64 bits,
    PostgreSQL refuses results out of a column's range. *)

From S2P Require Import Prelude.

Local Open Scope Z_scope.
Local Open Scope go_scope.

(** ** Tables *)
Record Quota := mkQuota {
  TenantID : string;
  StorageUsedBytes : Z;
  StorageLimitBytes : Z;
  SeatCount : Z;
  SeatLimit : Z;
  CreatedAt : Z;
  UpdatedAt : Z;
}.

Record Tenant := mkTenant { t_plan : string; t_status : string }.
Record User := mkUser { u_tenant : string; u_status : string; u_type : string }.

Inductive metadata :=
| MetaEmpty
| MetaPlan (old_plan new_plan : string)
| MetaProrated (old_plan new_plan : string) (proration_cents : Z).

Record BillingEvent := mkEvent {
  ev_tenant : string;
  ev_type : string;
  ev_seats : option Z;
  ev_storage : option Z;
  ev_amount : option Z;
  ev_meta : metadata;
  ev_at : Z;
}.

Record Subscription := mkSub {
  s_plan : string;
  s_status : string;
  s_stripe : option string;       (* stripe_subscription_id *)
  s_customer : option string;     (* stripe_customer_id *)
  s_start : Z;
  s_end : Z;
}.

Record DunningRow := mkDunning {
  d_tenant : string; d_invoice : string; d_customer : string; d_amount : Z; d_currency : string; d_at : Z;
}.

(** [now] is the clock of the running transaction; [events] and [dunning]
    newest last. *)
Record DB := mkDB {
  quotas : gmap string Quota;
  tenants : gmap string Tenant;
  users : list User;
  events : list BillingEvent;
  subscriptions : gmap string Subscription;
  dunning : list DunningRow;
  now : Z;
}.

Definition with_quotas (q : gmap string Quota) (s : DB) : DB :=
  mkDB q (tenants s) (users s) (events s) (subscriptions s) (dunning s) (now s).
Definition with_tenants (t : gmap string Tenant) (s : DB) : DB :=
  mkDB (quotas s) t (users s) (events s) (subscriptions s) (dunning s) (now s).
Definition with_events (e : list BillingEvent) (s : DB) : DB :=
  mkDB (quotas s) (tenants s) (users s) e (subscriptions s) (dunning s) (now s).
Definition with_subscriptions (x : gmap string Subscription) (s : DB) : DB :=
  mkDB (quotas s) (tenants s) (users s) (events s) x (dunning s) (now s).
Definition with_dunning (x : list DunningRow) (s : DB) : DB :=
  mkDB (quotas s) (tenants s) (users s) (events s) (subscriptions s) x (now s).

Inductive berror := ErrNotFound | ErrInvalidInput | ErrQuotaExceeded | ErrStore.

#[export] Instance berror_eq_dec : EqDecision berror.
Proof. solve_decision. Defined.

(** ** Transactions *)
Definition tx (A : Type) : Type := DB -> result berror (A * DB).

(** A transaction that only reads. *)
Definition query {A} (d : delivery) (f : DB -> result berror A) (s : DB) : result berror A :=
  match d with Delivered => f s | _ => Err ErrStore end.

Definition fits32 (z : Z) : bool := (- 2 ^ 31 <=? z) && (z <? 2 ^ 31).
Definition fits64 (z : Z) : bool := (int64_min <=? z) && (z <=? int64_max).

(** The column types and CHECK constraints of [quotas]. *)
Definition quota_ok (q : Quota) : bool :=
  (0 <=? StorageUsedBytes q) && fits64 (StorageUsedBytes q) &&
  (0 <=? StorageLimitBytes q) && fits64 (StorageLimitBytes q) &&
  (0 <=? SeatCount q) && fits32 (SeatCount q) && (0 <=? SeatLimit q) && fits32 (SeatLimit q).

Definition new_quota (tenantID : string) (s : DB) : Quota := mkQuota tenantID 0 0 0 0 (now s) (now s).

(** Writes a row, refused for an unknown tenant or a violated constraint. *)
Definition put_quota (q : Quota) (s : DB) : result berror DB :=
  if bool_decide (is_Some (tenants s !! TenantID q)) && quota_ok q
  then Ok (with_quotas (<[TenantID q := q]> (quotas s)) s) else Err ErrStore.

(** [INSERT ... ON CONFLICT (tenant_id) DO UPDATE]: the proposed row, or the
    stored one changed. *)
Definition upsert_quota (tenantID : string) (ins : Quota -> Quota) (upd : Quota -> Quota) (s : DB) : result berror DB :=
  match quotas s !! tenantID with
  | Some q =>
      let q' := upd q in
      put_quota (mkQuota tenantID (StorageUsedBytes q') (StorageLimitBytes q') (SeatCount q') (SeatLimit q')
                   (CreatedAt q) (now s)) s
  | None => put_quota (ins (new_quota tenantID s)) s
  end.

Definition event_types : list string :=
  ["seat_added"; "seat_removed"; "storage_delta"; "storage_snapshot"; "plan_changed"; "plan_prorated";
   "invoice_generated"; "limit_adjusted"]%string.

Definition opt_fits (f : Z -> bool) (o : option Z) : bool := match o with Some z => f z | None => true end.

Definition add_event (e : BillingEvent) (s : DB) : result berror DB :=
  if bool_decide (is_Some (tenants s !! ev_tenant e)) && bool_decide (ev_type e ∈ event_types)
     && opt_fits fits32 (ev_seats e) && opt_fits fits64 (ev_storage e) && opt_fits fits64 (ev_amount e)
  then Ok (with_events (events s ++ [e]) s) else Err ErrStore.

Definition set_used (z : Z) (q : Quota) : Quota :=
  mkQuota (TenantID q) z (StorageLimitBytes q) (SeatCount q) (SeatLimit q) (CreatedAt q) (UpdatedAt q).
Definition set_limits (storage seats : Z) (q : Quota) : Quota :=
  mkQuota (TenantID q) (StorageUsedBytes q) storage (SeatCount q) seats (CreatedAt q) (UpdatedAt q).
Definition set_seats (z : Z) (q : Quota) : Quota :=
  mkQuota (TenantID q) (StorageUsedBytes q) (StorageLimitBytes q) z (SeatLimit q) (CreatedAt q) (UpdatedAt q).

(** ** Configuration *)
Definition PlanCore : string := "core".
Definition PlanPro : string := "pro".
Definition PlanPrivacy : string := "privacy".

Record Config := mkConfig {
  Pool : bool;
  CoreSeatCents : Z; ProSeatCents : Z; PrivacySeatCents : Z;
  CorePerSeatBytes : Z; ProPerSeatBytes : Z; PrivacyPerSeatBytes : Z;
}.

Definition or_default (z d : Z) : Z := if z <=? 0 then d else z.

Definition NewService (c : Config) : Config :=
  mkConfig (Pool c) (or_default (CoreSeatCents c) 300) (or_default (ProSeatCents c) 600)
    (or_default (PrivacySeatCents c) 900) (or_default (CorePerSeatBytes c) (5 * 1024 * 1024 * 1024))
    (or_default (ProPerSeatBytes c) (15 * 1024 * 1024 * 1024))
    (or_default (PrivacyPerSeatBytes c) (50 * 1024 * 1024 * 1024)).

Record BillingSummary := mkSummary {
  sm_TenantID : string; sm_Plan : string; PerSeatCents : Z; sm_SeatCount : Z; sm_SeatLimit : Z;
  MonthlyCents : Z; StorageUsed : Z; StorageLimit : Z; StoragePercent : Z;
}.

Record UpdateQuotaLimitsInput := mkLimits { in_StorageLimitBytes : option Z; in_SeatLimit : option Z }.

(** ** Methods of the service *)
Section service.
Variable cfg : Config.

Definition by_plan (plan : string) (c p v : Z) : result berror Z :=
  if String.eqb plan PlanCore then Ok c
  else if String.eqb plan PlanPro then Ok p
  else if String.eqb plan PlanPrivacy then Ok v
  else Err ErrInvalidInput.

Definition GetPlanPricing (plan : string) : result berror Z :=
  by_plan plan (CoreSeatCents cfg) (ProSeatCents cfg) (PrivacySeatCents cfg).

Definition PerSeatStorageBytes (plan : string) : result berror Z :=
  by_plan plan (CorePerSeatBytes cfg) (ProPerSeatBytes cfg) (PrivacyPerSeatBytes cfg).

Definition ValidatePlan (plan : string) : result berror unit :=
  if bool_decide (plan ∈ [PlanCore; PlanPro; PlanPrivacy]) then Ok tt else Err ErrInvalidInput.

Definition GetQuota (d : delivery) (tenantID : string) (s : DB) : result berror Quota :=
  if String.eqb tenantID "" then Err ErrInvalidInput
  else if negb (Pool cfg) then Err ErrNotFound
  else query d (fun s => match quotas s !! tenantID with Some q => Ok q | None => Err ErrNotFound end) s.

Definition UpsertQuota (d : delivery) (tenantID : string) (storageLimit seatLimit : Z) (s : DB)
    : result berror unit * DB :=
  if String.eqb tenantID "" then (Err ErrInvalidInput, s)
  else if negb (Pool cfg) then (Ok tt, s)
  else BeginFunc ErrStore d (fun s =>
    let? s := upsert_quota tenantID (set_limits storageLimit seatLimit) (set_limits storageLimit seatLimit) s in
    Ok (tt, s)) s.

Definition negative (o : option Z) : bool := match o with Some z => z <? 0 | None => false end.

Definition UpdateQuotaLimits (d : delivery) (tenantID : string) (i : UpdateQuotaLimitsInput) (s : DB)
    : result berror Quota * DB :=
  match in_StorageLimitBytes i, in_SeatLimit i with
  | None, None => (Err ErrInvalidInput, s)
  | sl, st =>
      if negative sl || negative st then (Err ErrInvalidInput, s)
      else if negb (Pool cfg) then (Err ErrNotFound, s)
      else BeginFunc ErrStore d (fun s =>
        match quotas s !! tenantID with
        | None => Err ErrNotFound
        | Some q =>
            let q' := mkQuota tenantID (StorageUsedBytes q) (default (StorageLimitBytes q) sl) (SeatCount q)
                        (default (SeatLimit q) st) (CreatedAt q) (now s) in
            let? s := put_quota q' s in
            let? s := add_event (mkEvent tenantID "limit_adjusted" (Some (SeatLimit q')) None None MetaEmpty (now s)) s in
            Ok (q', s)
        end) s
  end.

Definition UpdateStorageUsage (d : delivery) (tenantID : string) (deltaBytes : Z) (s : DB)
    : result berror unit * DB :=
  if String.eqb tenantID "" then (Err ErrInvalidInput, s)
  else if negb (Pool cfg) then (Ok tt, s)
  else BeginFunc ErrStore d (fun s =>
    if negb (fits64 (default 0 (StorageUsedBytes <$> quotas s !! tenantID) + deltaBytes)) then Err ErrStore else
    let? s := upsert_quota tenantID (set_used (Z.max 0 deltaBytes))
                (fun q => set_used (Z.max 0 (StorageUsedBytes q + deltaBytes)) q) s in
    let? s := add_event (mkEvent tenantID "storage_delta" None (Some deltaBytes) None MetaEmpty (now s)) s in
    Ok (tt, s)) s.

Definition SetStorageUsage (d : delivery) (tenantID : string) (usedBytes : Z) (s : DB) : result berror unit * DB :=
  if String.eqb tenantID "" then (Err ErrInvalidInput, s)
  else if usedBytes <? 0 then (Err ErrInvalidInput, s)
  else if negb (Pool cfg) then (Ok tt, s)
  else BeginFunc ErrStore d (fun s =>
    let? s := upsert_quota tenantID (set_used usedBytes) (set_used usedBytes) s in
    let? s := add_event (mkEvent tenantID "storage_snapshot" None (Some usedBytes) None MetaEmpty (now s)) s in
    Ok (tt, s)) s.

Definition paid_seat (tenantID : string) (u : User) : bool :=
  String.eqb (u_tenant u) tenantID && String.eqb (u_status u) "active" && String.eqb (u_type u) "user".

Definition active_seats (tenantID : string) (s : DB) : Z :=
  Z.of_nat (length (filter (fun u => paid_seat tenantID u = true) (users s))).

Definition CountSeats (d : delivery) (tenantID : string) (s : DB) : result berror Z :=
  if String.eqb tenantID "" then Err ErrInvalidInput
  else if negb (Pool cfg) then Ok 0
  else query d (fun s => let n := active_seats tenantID s in if fits32 n then Ok n else Err ErrStore) s.

Definition SyncSeatCount (d1 d2 : delivery) (tenantID : string) (s : DB) : result berror Z * DB :=
  match CountSeats d1 tenantID s with
  | Err e => (Err e, s)
  | Ok count =>
      if negb (Pool cfg) then (Ok count, s)
      else
        let '(r, s') := BeginFunc ErrStore d2 (fun s =>
          let? s := upsert_quota tenantID (set_seats count) (set_seats count) s in Ok (tt, s)) s in
        (match r with Ok _ => Ok count | Err e => Err e end, s')
  end.

Definition EnforcePlanLimits (d : delivery) (tenantID : string) (s : DB) : result berror unit :=
  let? q := GetQuota d tenantID s in
  if (0 <? SeatLimit q) && (SeatLimit q <? SeatCount q) then Err ErrQuotaExceeded
  else if (0 <? StorageLimitBytes q) && (StorageLimitBytes q <? StorageUsedBytes q) then Err ErrQuotaExceeded
  else Ok tt.

Definition CheckStorageQuota (d : delivery) (tenantID : string) (additionalBytes : Z) (s : DB) : result berror unit :=
  if additionalBytes <? 0 then Err ErrInvalidInput else
  match GetQuota d tenantID s with
  | Err ErrNotFound => Err ErrQuotaExceeded
  | Err e => Err e
  | Ok q =>
      if StorageLimitBytes q =? 0 then Ok tt
      else if StorageLimitBytes q <? wrap64 (StorageUsedBytes q + additionalBytes) then Err ErrQuotaExceeded
      else Ok tt
  end.

Definition CheckSeatAvailable (d : delivery) (tenantID : string) (s : DB) : result berror unit :=
  match GetQuota d tenantID s with
  | Err ErrNotFound => Ok tt
  | Err e => Err e
  | Ok q =>
      if SeatLimit q =? 0 then Ok tt
      else if SeatLimit q <? wrap64 (SeatCount q + 1) then Err ErrQuotaExceeded
      else Ok tt
  end.

Definition IncrementSeatCount (d : delivery) (tenantID : string) (delta : Z) (s : DB) : result berror unit * DB :=
  if String.eqb tenantID "" then (Err ErrInvalidInput, s)
  else if negb (Pool cfg) then (Ok tt, s)
  else
    let event := if delta <? 0 then "seat_removed"%string else "seat_added"%string in
    BeginFunc ErrStore d (fun s =>
      if negb (fits32 (default 0 (SeatCount <$> quotas s !! tenantID) + delta)) then Err ErrStore else
      let? s := upsert_quota tenantID (set_seats (Z.max 0 delta))
                  (fun q => set_seats (Z.max 0 (SeatCount q + delta)) q) s in
      let? s := add_event (mkEvent tenantID event (Some delta) None None MetaEmpty (now s)) s in
      Ok (tt, s)) s.

Definition tenant_plan (d : delivery) (tenantID : string) (s : DB) : result berror string :=
  query d (fun s => match tenants s !! tenantID with Some t => Ok (t_plan t) | None => Err ErrNotFound end) s.

Definition CalculateInvoice (d1 d2 d3 : delivery) (tenantID : string) (s : DB) : result berror Z * DB :=
  if String.eqb tenantID "" then (Err ErrInvalidInput, s)
  else if negb (Pool cfg) then (Ok 0, s)
  else
    let r := let? plan := tenant_plan d1 tenantID s in
             let? price := GetPlanPricing plan in
             let? seats := CountSeats d2 tenantID s in
             Ok (wrap64 (price * seats), seats) in
    match r with
    | Err e => (Err e, s)
    | Ok (total, seats) =>
        (Ok total, (BeginFunc ErrStore d3 (fun s =>
          let? s := add_event (mkEvent tenantID "invoice_generated" (Some seats) None (Some total) MetaEmpty (now s)) s in
          Ok (tt, s)) s).2)
    end.

Definition storagePercent (q : Quota) : Z :=
  if 0 <? StorageLimitBytes q then Z.quot (wrap64 (StorageUsedBytes q * 100)) (StorageLimitBytes q) else 0.

Definition Summary (d1 d2 : delivery) (tenantID : string) (s : DB) : result berror BillingSummary :=
  if negb (Pool cfg) then Err ErrNotFound else
  let? plan := tenant_plan d1 tenantID s in
  let? price := GetPlanPricing plan in
  let? q := match GetQuota d2 tenantID s with
            | Ok q => Ok q
            | Err ErrNotFound => Ok (mkQuota tenantID 0 0 0 0 0 0)
            | Err e => Err e
            end in
  Ok (mkSummary tenantID plan price (SeatCount q) (SeatLimit q) (wrap64 (price * SeatCount q))
        (StorageUsedBytes q) (StorageLimitBytes q) (storagePercent q)).

(** The transaction of [ChangePlan]. *)
Definition change_plan_tx (tenantID newPlan : string) : tx unit := fun s =>
  match tenants s !! tenantID with
  | None => Err ErrNotFound
  | Some t =>
      if String.eqb (t_plan t) newPlan then Ok (tt, s) else
      let s := with_tenants (<[tenantID := mkTenant newPlan (t_status t)]> (tenants s)) s in
      let newPerSeat := match PerSeatStorageBytes newPlan with Ok v => v | Err _ => 0 end in
      let oldDefault := match PerSeatStorageBytes (t_plan t) with Ok v => v | Err _ => 0 end in
      let? s :=
        match quotas s !! tenantID with
        | Some q =>
            if (0 <? newPerSeat) && (StorageLimitBytes q =? oldDefault)
            then put_quota (mkQuota tenantID (StorageUsedBytes q) newPerSeat (SeatCount q) (SeatLimit q)
                              (CreatedAt q) (now s)) s
            else Ok s
        | None => Ok s
        end in
      let? s := add_event (mkEvent tenantID "plan_changed" None None None (MetaPlan (t_plan t) newPlan) (now s)) s in
      Ok (tt, s)
  end.

Definition ChangePlan (d1 d2 d3 d4 : delivery) (tenantID newPlan : string) (s : DB) : result berror BillingSummary * DB :=
  if String.eqb tenantID "" then (Err ErrInvalidInput, s) else
  match ValidatePlan newPlan with
  | Err e => (Err e, s)
  | Ok _ =>
      if negb (Pool cfg) then (Err ErrNotFound, s)
      else
        let '(r, s') := BeginFunc ErrStore d1 (change_plan_tx tenantID newPlan) s in
        match r with
        | Err e => (Err e, s')
        | Ok _ =>
            match EnforcePlanLimits d2 tenantID s' with
            | Ok _ | Err ErrNotFound => (Summary d3 d4 tenantID s', s')
            | Err e => (Err e, s')
            end
        end
  end.
End service.

(** ** The invariant of the tables *)
Record db_ok (s : DB) : Prop := {
  ok_key : forall t q, quotas s !! t = Some q -> TenantID q = t;
  ok_row : forall t q, quotas s !! t = Some q -> quota_ok q = true;
  ok_fk : forall t q, quotas s !! t = Some q -> is_Some (tenants s !! t);
}.

(** Replaying a tenant's billing events. *)
Definition apply_event (used : Z) (e : BillingEvent) : Z :=
  match ev_storage e with
  | Some z =>
      if String.eqb (ev_type e) "storage_delta" then Z.max 0 (used + z)
      else if String.eqb (ev_type e) "storage_snapshot" then z else used
  | None => used
  end.

Definition replay (t : string) (l : list BillingEvent) : Z :=
  foldl apply_event 0 (filter (fun e => ev_tenant e = t) l).

Definition used_of (s : DB) (t : string) : Z := default 0 (StorageUsedBytes <$> quotas s !! t).

(** The counter of a tenant is what its events add up to. *)
Definition ledger (s : DB) : Prop := forall t, used_of s t = replay t (events s).

Lemma replay_snoc t l e :
  replay t (l ++ [e]) = if decide (ev_tenant e = t) then apply_event (replay t l) e else replay t l.
Proof.
  unfold replay. rewrite filter_app. case_decide as E.
  - rewrite filter_cons_True by done. by rewrite foldl_app.
  - rewrite filter_cons_False by done. by rewrite app_nil_r.
Qed.

Lemma put_quota_ok q s s' :
  put_quota q s = Ok s' -> db_ok s ->
  db_ok s' /\ events s' = events s /\ now s' = now s /\ tenants s' = tenants s /\
  quotas s' = <[TenantID q := q]> (quotas s).
Proof.
  unfold put_quota. case_bool_decide as Ht; [|done]. simpl. destruct (quota_ok q) eqn:Eq; [|done].
  intros [= <-] Hs. split_and!; try done. split; simpl.
  - intros t r [[<- <-]|[_ Hr]]%lookup_insert_Some; [done|by eapply Hs].
  - intros t r [[_ <-]|[_ Hr]]%lookup_insert_Some; [done|by eapply Hs].
  - intros t r [[<- <-]|[_ Hr]]%lookup_insert_Some; [done|by eapply Hs].
Qed.

Lemma add_event_ok e s s' :
  add_event e s = Ok s' -> s' = with_events (events s ++ [e]) s.
Proof. unfold add_event. by destruct (_ && _ && _ && _ && _); [intros [= <-]|]. Qed.

Lemma with_events_ok l s : db_ok s -> db_ok (with_events l s).
Proof. intros Hs. split; apply Hs. Qed.

(** An upsert changes one tenant's row; what it does to the used bytes. *)
Lemma upsert_quota_ok t ins upd s s' :
  upsert_quota t ins upd s = Ok s' -> db_ok s -> (forall q, TenantID (ins q) = TenantID q) ->
  db_ok s' /\ events s' = events s /\ now s' = now s /\
  (forall t', t' <> t -> used_of s' t' = used_of s t') /\
  used_of s' t = match quotas s !! t with
                 | Some q => StorageUsedBytes (upd q)
                 | None => StorageUsedBytes (ins (new_quota t s))
                 end.
Proof.
  unfold upsert_quota. intros Hu Hs Hi. unfold used_of.
  destruct (quotas s !! t) as [q|] eqn:Eq; apply put_quota_ok in Hu as (Hs' & He & Hn & _ & Hq); try done;
    rewrite Hq; simpl; rewrite ?Hi; (split_and!; [done..| |by rewrite lookup_insert_eq]);
    intros t' Hne; by rewrite lookup_insert_ne.
Qed.

Lemma ledger_same s s' :
  ledger s -> events s' = events s -> (forall t, used_of s' t = used_of s t) -> ledger s'.
Proof. intros Hl He Hu t. by rewrite Hu, He. Qed.

(** An event that does not concern storage. *)
Lemma ledger_other s e :
  ledger s -> ev_storage e = None -> ledger (with_events (events s ++ [e]) s).
Proof.
  intros Hl He t. simpl. rewrite replay_snoc.
  change (used_of (with_events (events s ++ [e]) s) t) with (used_of s t). rewrite (Hl t).
  case_decide; [|done]. unfold apply_event. by rewrite He.
Qed.

(** A storage event together with the update it records. *)
Lemma ledger_storage s s1 e :
  ledger s -> events s1 = events s -> (forall t', t' <> ev_tenant e -> used_of s1 t' = used_of s t') ->
  used_of s1 (ev_tenant e) = apply_event (used_of s (ev_tenant e)) e ->
  ledger (with_events (events s1 ++ [e]) s1).
Proof.
  intros Hl He Ho Hu t. simpl. rewrite He, replay_snoc. change (used_of (with_events (events s ++ [e]) s1) t) with (used_of s1 t).
  case_decide as E; [subst t; by rewrite Hu, (Hl (ev_tenant e))|]. rewrite Ho by done. apply Hl.
Qed.

Definition billing_ok (s : DB) : Prop := db_ok s /\ ledger s.

(** ** Operations of a run *)
Inductive bop :=
| BUpsertQuota (d : delivery) (t : string) (storage seats : Z)
| BUpdateLimits (d : delivery) (t : string) (i : UpdateQuotaLimitsInput)
| BUsage (d : delivery) (t : string) (delta : Z)
| BSnapshot (d : delivery) (t : string) (used : Z)
| BSync (d1 d2 : delivery) (t : string)
| BSeats (d : delivery) (t : string) (delta : Z)
| BInvoice (d1 d2 d3 : delivery) (t : string)
| BChangePlan (d1 d2 d3 d4 : delivery) (t plan : string)
| BTenant (t plan : string)                    (* another service adds a tenant *)
| BUsers (us : list User)                      (* another service writes users *)
| BTime (t : Z).

Definition exec (cfg : Config) (o : bop) (s : DB) : DB :=
  match o with
  | BUpsertQuota d t st se => (UpsertQuota cfg d t st se s).2
  | BUpdateLimits d t i => (UpdateQuotaLimits cfg d t i s).2
  | BUsage d t z => (UpdateStorageUsage cfg d t z s).2
  | BSnapshot d t z => (SetStorageUsage cfg d t z s).2
  | BSync d1 d2 t => (SyncSeatCount cfg d1 d2 t s).2
  | BSeats d t z => (IncrementSeatCount cfg d t z s).2
  | BInvoice d1 d2 d3 t => (CalculateInvoice cfg d1 d2 d3 t s).2
  | BChangePlan d1 d2 d3 d4 t p => (ChangePlan cfg d1 d2 d3 d4 t p s).2
  | BTenant t p => with_tenants (<[t := mkTenant p "active"]> (tenants s)) s
  | BUsers us => mkDB (quotas s) (tenants s) us (events s) (subscriptions s) (dunning s) (now s)
  | BTime t => mkDB (quotas s) (tenants s) (users s) (events s) (subscriptions s) (dunning s) t
  end.

Definition empty_db : DB := mkDB ∅ ∅ [] [] ∅ [] 0.

Lemma empty_db_ok : billing_ok empty_db.
Proof. split; [split; intros *; simpl; by rewrite lookup_empty|by intros t]. Qed.

Section preservation.
Variable cfg : Config.
Implicit Types (s : DB).

(** An upsert that leaves the used bytes alone. *)
Lemma upsert_neutral t ins upd s s' :
  upsert_quota t ins upd s = Ok s' -> billing_ok s -> (forall q, TenantID (ins q) = TenantID q) ->
  (forall q, StorageUsedBytes (ins q) = StorageUsedBytes q) ->
  (forall q, StorageUsedBytes (upd q) = StorageUsedBytes q) -> billing_ok s'.
Proof.
  intros Hu [Hs Hl] Hi1 Hi2 Hi3. apply upsert_quota_ok in Hu as (Hs' & He & _ & Ho & Ht); [|done..].
  split; [done|]. apply (ledger_same s); [done..|]. intros t'.
  destruct (decide (t' = t)) as [->|]; [|by apply Ho]. rewrite Ht. unfold used_of.
  destruct (quotas s !! t) as [q|]; simpl; [apply Hi3|]. by rewrite Hi2.
Qed.

Lemma billing_ok_event e s : billing_ok s -> ev_storage e = None -> billing_ok (with_events (events s ++ [e]) s).
Proof. intros [Hs Hl] He. split; [by apply with_events_ok|by apply ledger_other]. Qed.

(** A write of used bytes and its event. *)
Lemma billing_ok_storage t ins upd s s1 e :
  upsert_quota t ins upd s = Ok s1 -> billing_ok s -> (forall q, TenantID (ins q) = TenantID q) ->
  ev_tenant e = t ->
  (forall q, StorageUsedBytes (upd q) = apply_event (StorageUsedBytes q) e) ->
  StorageUsedBytes (ins (new_quota t s)) = apply_event 0 e ->
  billing_ok (with_events (events s1 ++ [e]) s1).
Proof.
  intros Hu [Hs Hl] Hi Ht Hupd Hins. apply upsert_quota_ok in Hu as (Hs' & He & _ & Ho & Hu); [|done..].
  split; [by apply with_events_ok|]. apply (ledger_storage s); try done; rewrite Ht; [done|].
  rewrite Hu. unfold used_of. destruct (quotas s !! t) as [q|]; simpl; auto.
Qed.

Lemma UpsertQuota_ok d t st se s : billing_ok s -> billing_ok (UpsertQuota cfg d t st se s).2.
Proof.
  intros Hs. unfold UpsertQuota. destruct (String.eqb t ""); [done|]. destruct (Pool cfg); [|done]. simpl.
  apply BeginFunc_ind; [done|]. intros a s' (s1 & Hu & [= _ <-])%rbind_ok. by eapply upsert_neutral.
Qed.

Lemma put_quota_neutral q0 q s s' :
  put_quota q s = Ok s' -> quotas s !! TenantID q = Some q0 -> StorageUsedBytes q = StorageUsedBytes q0 ->
  billing_ok s -> billing_ok s'.
Proof.
  intros Hp Hq Hu [Hs Hl]. apply put_quota_ok in Hp as (Hs' & He & _ & _ & Hq'); [|done]. split; [done|].
  apply (ledger_same s); [done..|]. intros t. unfold used_of. rewrite Hq'.
  destruct (decide (t = TenantID q)) as [->|]; [|by rewrite lookup_insert_ne].
  rewrite lookup_insert_eq, Hq. simpl. done.
Qed.

Lemma UpdateQuotaLimits_ok d t i s : billing_ok s -> billing_ok (UpdateQuotaLimits cfg d t i s).2.
Proof.
  intros Hs. unfold UpdateQuotaLimits.
  destruct (in_StorageLimitBytes i) as [sl|], (in_SeatLimit i) as [st|]; try done;
    (destruct (_ || _); [done|]); (destruct (Pool cfg); [|done]); simpl; (apply BeginFunc_ind; [done|]);
    intros a s'; (destruct (quotas s !! t) as [q|] eqn:Eq; [|done]);
    intros (s1 & Hp & (s2 & ->%add_event_ok & [= _ <-])%rbind_ok)%rbind_ok;
    apply billing_ok_event; try done; by eapply put_quota_neutral.
Qed.

Lemma UpdateStorageUsage_ok d t z s : billing_ok s -> billing_ok (UpdateStorageUsage cfg d t z s).2.
Proof.
  intros Hs. unfold UpdateStorageUsage. destruct (String.eqb t ""); [done|]. destruct (Pool cfg); [|done]. simpl.
  apply BeginFunc_ind; [done|]. intros a s'. destruct (negb _); [done|].
  intros (s1 & Hu & (s2 & ->%add_event_ok & [= _ <-])%rbind_ok)%rbind_ok.
  by eapply billing_ok_storage.
Qed.

Lemma SetStorageUsage_ok d t z s : billing_ok s -> billing_ok (SetStorageUsage cfg d t z s).2.
Proof.
  intros Hs. unfold SetStorageUsage. destruct (String.eqb t ""); [done|]. destruct (z <? 0); [done|].
  destruct (Pool cfg); [|done]. simpl. apply BeginFunc_ind; [done|].
  intros a s' (s1 & Hu & (s2 & ->%add_event_ok & [= _ <-])%rbind_ok)%rbind_ok.
  by eapply billing_ok_storage.
Qed.

Lemma SyncSeatCount_ok d1 d2 t s : billing_ok s -> billing_ok (SyncSeatCount cfg d1 d2 t s).2.
Proof.
  intros Hs. unfold SyncSeatCount. destruct (CountSeats cfg d1 t s) as [n|e]; [|done].
  destruct (Pool cfg); [|done]. simpl. destruct (BeginFunc _ _ _ _) as [r s'] eqn:E. simpl.
  change s' with (r, s').2. rewrite <- E. apply BeginFunc_ind; [done|].
  intros a s2 (s1 & Hu & [= _ <-])%rbind_ok. by eapply upsert_neutral.
Qed.

Lemma IncrementSeatCount_ok d t z s : billing_ok s -> billing_ok (IncrementSeatCount cfg d t z s).2.
Proof.
  intros Hs. unfold IncrementSeatCount. destruct (String.eqb t ""); [done|]. destruct (Pool cfg); [|done]. simpl.
  apply BeginFunc_ind; [done|]. intros a s'. destruct (negb _); [done|].
  intros (s1 & Hu & (s2 & ->%add_event_ok & [= _ <-])%rbind_ok)%rbind_ok.
  apply billing_ok_event; [|done]. by eapply upsert_neutral.
Qed.

Lemma CalculateInvoice_ok d1 d2 d3 t s : billing_ok s -> billing_ok (CalculateInvoice cfg d1 d2 d3 t s).2.
Proof.
  intros Hs. unfold CalculateInvoice. destruct (String.eqb t ""); [done|]. destruct (Pool cfg); [|done]. simpl.
  destruct (rbind _ _) as [[total seats]|e]; [|done]. simpl. apply BeginFunc_ind; [done|].
  intros a s' (s1 & ->%add_event_ok & [= _ <-])%rbind_ok. by apply billing_ok_event.
Qed.

Lemma with_tenants_ok m s :
  (forall t, is_Some (tenants s !! t) -> is_Some (m !! t)) -> billing_ok s -> billing_ok (with_tenants m s).
Proof. intros Hm [Hs Hl]. split; [|done]. split; [apply Hs|apply Hs|]. intros t q Hq. apply Hm. by eapply Hs. Qed.

Lemma insert_tenant_ok t x s : billing_ok s -> billing_ok (with_tenants (<[t := x]> (tenants s)) s).
Proof.
  intros Hs. apply with_tenants_ok; [|done]. intros t' Ht. apply lookup_insert_is_Some.
  destruct (decide (t = t')); [by left|by right].
Qed.

Lemma change_plan_tx_ok t p s a s' : change_plan_tx cfg t p s = Ok (a, s') -> billing_ok s -> billing_ok s'.
Proof.
  unfold change_plan_tx. intros Hc Hs. destruct (tenants s !! t) as [x|]; [|done].
  destruct (String.eqb (t_plan x) p); [by injection Hc as _ <-|].
  apply rbind_ok in Hc as (s1 & Hq & (s2 & ->%add_event_ok & [= _ <-])%rbind_ok).
  apply billing_ok_event; [|done].
  pose proof (insert_tenant_ok t (mkTenant p (t_status x)) s Hs) as Hs1. simpl in Hq.
  destruct (quotas s !! t) as [q|] eqn:Eq; [|by injection Hq as <-].
  destruct (_ && _); [|by injection Hq as <-]. by eapply put_quota_neutral.
Qed.

Lemma ChangePlan_ok d1 d2 d3 d4 t p s : billing_ok s -> billing_ok (ChangePlan cfg d1 d2 d3 d4 t p s).2.
Proof.
  intros Hs. unfold ChangePlan. destruct (String.eqb t ""); [done|]. destruct (ValidatePlan p); [|done].
  destruct (Pool cfg); [|done]. cbn [negb]. destruct (BeginFunc _ _ _ _) as [r s'] eqn:E.
  assert (billing_ok s') as Hs'.
  { change s' with (r, s').2. rewrite <- E. apply BeginFunc_ind; [done|]. intros ? s2 H2.
    by eapply change_plan_tx_ok. }
  destruct r; [|done]. by destruct (EnforcePlanLimits _ _ _ _) as [|[]].
Qed.

Lemma bexec_ok o s : billing_ok s -> billing_ok (exec cfg o s).
Proof.
  destruct o; simpl; auto using UpsertQuota_ok, UpdateQuotaLimits_ok, UpdateStorageUsage_ok, SetStorageUsage_ok,
    SyncSeatCount_ok, IncrementSeatCount_ok, CalculateInvoice_ok, ChangePlan_ok, insert_tenant_ok.
  - intros [Hs Hl]. split; [split; apply Hs|done].
  - intros [Hs Hl]. split; [split; apply Hs|done].
Qed.
End preservation.

(** C28: the books balance.  After any sequence of billing operations, with
    requests and replies lost anywhere, every quota row satisfies the
    constraints of its columns, belongs to a tenant, and its used bytes are
    exactly what replaying that tenant's [billing_events] yields. *)
Theorem ledger_balances cfg ops t :
  let s := foldl (fun s o => exec cfg o s) empty_db ops in
  (forall q, quotas s !! t = Some q -> TenantID q = t /\ quota_ok q = true /\ is_Some (tenants s !! t)) /\
  used_of s t = replay t (events s).
Proof.
  cbn zeta. assert (billing_ok (foldl (fun s o => exec cfg o s) empty_db ops)) as [Hs Hl].
  { generalize empty_db empty_db_ok. induction ops as [|o ops IH]; intros s Hs; [done|]. by apply IH, bexec_ok. }
  split; [|apply Hl]. intros q Hq. split_and!; by eapply Hs.
Qed.

Lemma GetQuota_delivered cfg t s q :
  Pool cfg = true -> GetQuota cfg Delivered t s = Ok q -> t <> ""%string /\ quotas s !! t = Some q.
Proof.
  intros Hp. unfold GetQuota. rewrite Hp. destruct (String.eqb_spec t ""); [done|]. simpl.
  destruct (quotas s !! t); [|done]. by intros [= ->].
Qed.

(** An admitted upload fits.  When the pre-flight check admits a blob and
    its bytes are then accounted, the tenant is within its pool (or has none):
    also at the edge of int64, where the check's own sum wraps, because the
    database refuses to store the overflowing counter. *)
Theorem admitted_upload_fits cfg t n s s' :
  Pool cfg = true -> db_ok s ->
  CheckStorageQuota cfg Delivered t n s = Ok tt -> UpdateStorageUsage cfg Delivered t n s = (Ok tt, s') ->
  exists q q', quotas s !! t = Some q /\ quotas s' !! t = Some q' /\
    StorageUsedBytes q' = StorageUsedBytes q + n /\
    StorageLimitBytes q' = StorageLimitBytes q /\
    (StorageLimitBytes q' = 0 \/ StorageUsedBytes q' <= StorageLimitBytes q').
Proof.
  intros Hp Hs Hc Hu. unfold CheckStorageQuota in Hc. destruct (Z.ltb_spec n 0); [done|].
  destruct (GetQuota cfg Delivered t s) as [q|[]] eqn:Eg; try done.
  apply GetQuota_delivered in Eg as [Ht Hq]; [|done].
  pose proof (ok_row _ Hs _ _ Hq) as Hrow. unfold quota_ok in Hrow. rewrite !andb_true_iff in Hrow.
  destruct Hrow as [[[[[[[Hu0 _] _] _] _] _] _] _]. apply Z.leb_le in Hu0.
  unfold UpdateStorageUsage in Hu. rewrite (proj2 (String.eqb_neq t "")), Hp in Hu by done. simpl in Hu.
  rewrite Hq in Hu. simpl in Hu. unfold fits64 in Hu.
  destruct (Z.leb_spec int64_min (StorageUsedBytes q + n)) as [L1|]; [|done].
  destruct (Z.leb_spec (StorageUsedBytes q + n) int64_max) as [L2|]; [|done]. simpl in Hu.
  unfold upsert_quota in Hu. rewrite Hq in Hu. unfold put_quota in Hu. simpl in Hu.
  destruct (_ && _); [|done]. simpl in Hu. destruct (add_event _ _) as [s2|] eqn:Ea; [|done].
  apply add_event_ok in Ea. subst s2. simpl in Hu. injection Hu as <-. exists q. eexists. simpl.
  split_and!; [done|apply lookup_insert_eq|simpl; lia|done|]. simpl. rewrite wrap64_id in Hc by done.
  destruct (Z.eqb_spec (StorageLimitBytes q) 0); [by left|].
  destruct (Z.ltb_spec (StorageLimitBytes q) (StorageUsedBytes q + n)); [done|]. right. lia.
Qed.

Lemma quota_ok_bounds q :
  quota_ok q = true ->
  0 <= StorageUsedBytes q <= int64_max /\ 0 <= StorageLimitBytes q <= int64_max /\
  0 <= SeatCount q < 2 ^ 31 /\ 0 <= SeatLimit q < 2 ^ 31.
Proof. unfold quota_ok, fits64, fits32. rewrite !andb_true_iff, !Z.leb_le, !Z.ltb_lt. lia. Qed.

Lemma bounds_quota_ok q :
  0 <= StorageUsedBytes q <= int64_max -> 0 <= StorageLimitBytes q <= int64_max ->
  0 <= SeatCount q < 2 ^ 31 -> 0 <= SeatLimit q < 2 ^ 31 -> quota_ok q = true.
Proof. unfold quota_ok, fits64, fits32, int64_min. rewrite !andb_true_iff, !Z.leb_le, !Z.ltb_lt. lia. Qed.

(** The pre-flight check alone overflows.  With one byte in use, a claimed
    size of [math.MaxInt64] passes it, whatever the limit. *)
Theorem check_overflow_admits cfg t q s :
  Pool cfg = true -> t <> ""%string -> db_ok s -> quotas s !! t = Some q -> 1 <= StorageUsedBytes q ->
  CheckStorageQuota cfg Delivered t int64_max s = Ok tt /\
  StorageLimitBytes q < StorageUsedBytes q + int64_max.
Proof.
  intros Hp Ht Hs Hq Hu. destruct (quota_ok_bounds q (ok_row _ Hs _ _ Hq)) as (Hu' & Hl & _).
  split; [|lia]. unfold CheckStorageQuota, GetQuota. rewrite (proj2 (String.eqb_neq t "")), Hp by done. simpl.
  rewrite Hq. destruct (Z.eqb_spec (StorageLimitBytes q) 0); [done|].
  assert (wrap64 (StorageUsedBytes q + int64_max) < 0) as Hw.
  { unfold wrap64, int64_max in *.
    replace (StorageUsedBytes q + (2 ^ 63 - 1) + 2 ^ 63) with (StorageUsedBytes q - 1 + 1 * 2 ^ 64) by lia.
    rewrite Z.mod_add, Z.mod_small by lia. lia. }
  destruct (Z.ltb_spec (StorageLimitBytes q) (wrap64 (StorageUsedBytes q + int64_max))); [lia|done].
Qed.

Definition known_plan (p : string) : Prop := p ∈ [PlanCore; PlanPro; PlanPrivacy].

Lemma known_by_plan p c v w : known_plan p -> exists z, by_plan p c v w = Ok z.
Proof.
  unfold known_plan. rewrite !elem_of_cons, elem_of_nil.
  intros [->|[->|[->|[]]]]; unfold by_plan; simpl; eauto.
Qed.

(** The row after a change from the default [old] to the default [new]. *)
Definition replanned (old new at_ : Z) (q : Quota) : Quota :=
  if StorageLimitBytes q =? old
  then mkQuota (TenantID q) (StorageUsedBytes q) new (SeatCount q) (SeatLimit q) (CreatedAt q) at_ else q.

Lemma change_plan_tx_spec cfg t p x q s old new :
  db_ok s -> tenants s !! t = Some x -> p <> t_plan x -> quotas s !! t = Some q ->
  PerSeatStorageBytes cfg (t_plan x) = Ok old -> PerSeatStorageBytes cfg p = Ok new -> 0 < new <= int64_max ->
  exists s', change_plan_tx cfg t p s = Ok (tt, s') /\
    tenants s' = <[t := mkTenant p (t_status x)]> (tenants s) /\
    quotas s' !! t = Some (replanned old new (now s) q) /\
    events s' = events s ++ [mkEvent t "plan_changed" None None None (MetaPlan (t_plan x) p) (now s)].
Proof.
  intros Hs Hx Hne Hq Ho Hn Hb. pose proof (ok_key _ Hs _ _ Hq) as Hk.
  destruct (quota_ok_bounds q (ok_row _ Hs _ _ Hq)) as (B1 & B2 & B3 & B4).
  unfold change_plan_tx. rewrite Hx, (proj2 (String.eqb_neq (t_plan x) p)) by congruence.
  rewrite Ho, Hn. cbn [quotas with_tenants now]. rewrite Hq.
  assert ((0 <? new) = true) as -> by (apply Z.ltb_lt; lia). cbn [andb]. unfold replanned.
  destruct (StorageLimitBytes q =? old).
  - unfold put_quota. cbn [TenantID tenants with_tenants]. rewrite lookup_insert_eq.
    rewrite bounds_quota_ok by (cbn; lia). rewrite bool_decide_true by done. cbn [andb rbind].
    unfold add_event. cbn. rewrite lookup_insert_eq. rewrite bool_decide_true by done. cbn.
    eexists. split_and!; [reflexivity|done| |done]. cbn. rewrite lookup_insert_eq. by rewrite Hk.
  - cbn [rbind]. unfold add_event. cbn. rewrite lookup_insert_eq, bool_decide_true by done. cbn.
    eexists. split_and!; [reflexivity|done|done|done].
Qed.

Lemma enforce_spec cfg t q s :
  Pool cfg = true -> t <> ""%string -> quotas s !! t = Some q ->
  EnforcePlanLimits cfg Delivered t s =
  if ((0 <? SeatLimit q) && (SeatLimit q <? SeatCount q))
     || ((0 <? StorageLimitBytes q) && (StorageLimitBytes q <? StorageUsedBytes q))
  then Err ErrQuotaExceeded else Ok tt.
Proof.
  intros Hp Ht Hq. unfold EnforcePlanLimits, GetQuota. rewrite (proj2 (String.eqb_neq t "")), Hp by done. simpl.
  rewrite Hq. simpl. destruct (_ && _), (_ && _); done.
Qed.

(** Changing plans.  For a provisioned tenant, [ChangePlan] commits the new
    plan and logs the transition; the storage limit moves to the new plan's
    default exactly when it was the old plan's default, an operator's override
    stays, usage and seats are untouched.  Exceeding the resulting limits is
    reported as an error, but the change stands. *)
Theorem change_plan_spec cfg t p x q s old new :
  Pool cfg = true -> t <> ""%string -> known_plan p -> p <> t_plan x ->
  db_ok s -> tenants s !! t = Some x -> quotas s !! t = Some q ->
  PerSeatStorageBytes cfg (t_plan x) = Ok old -> PerSeatStorageBytes cfg p = Ok new -> 0 < new <= int64_max ->
  let '(r, s') := ChangePlan cfg Delivered Delivered Delivered Delivered t p s in
  let q' := replanned old new (now s) q in
  tenants s' = <[t := mkTenant p (t_status x)]> (tenants s) /\ quotas s' !! t = Some q' /\
  events s' = events s ++ [mkEvent t "plan_changed" None None None (MetaPlan (t_plan x) p) (now s)] /\
  if bool_decide (0 < SeatLimit q' < SeatCount q' \/ 0 < StorageLimitBytes q' < StorageUsedBytes q')
  then r = Err ErrQuotaExceeded
  else exists price, GetPlanPricing cfg p = Ok price /\
    r = Ok (mkSummary t p price (SeatCount q') (SeatLimit q') (wrap64 (price * SeatCount q'))
              (StorageUsedBytes q') (StorageLimitBytes q') (storagePercent q')).
Proof.
  intros Hp Ht Hpl Hne Hs Hx Hq Ho Hn Hb.
  destruct (change_plan_tx_spec cfg t p x q s old new) as (s' & Htx & Hts & Hqs & Hes); [done..|].
  unfold ChangePlan. rewrite (proj2 (String.eqb_neq t "")) by done.
  assert (ValidatePlan p = Ok tt) as -> by (unfold ValidatePlan; by rewrite bool_decide_true).
  rewrite Hp. cbn [negb]. unfold BeginFunc. rewrite Htx. cbn zeta. rewrite (enforce_spec cfg t _ s' Hp Ht Hqs).
  set (q' := replanned old new (now s) q) in *. unfold known_plan in Hpl.
  destruct (known_by_plan p (CoreSeatCents cfg) (ProSeatCents cfg) (PrivacySeatCents cfg) Hpl) as [price Hprice].
  assert (Summary cfg Delivered Delivered t s' =
    Ok (mkSummary t p price (SeatCount q') (SeatLimit q') (wrap64 (price * SeatCount q'))
              (StorageUsedBytes q') (StorageLimitBytes q') (storagePercent q'))) as Hsum.
  { unfold Summary, tenant_plan, query, GetQuota, GetPlanPricing. rewrite Hp, Hts, lookup_insert_eq.
    cbn [negb rbind t_plan]. rewrite Hprice, (proj2 (String.eqb_neq t "")) by done.
    cbn [negb query]. by rewrite Hqs. }
  destruct (_ || _) eqn:Eover; (split_and!; [done..|]).
  - rewrite bool_decide_true; [done|]. apply orb_true_iff in Eover.
    rewrite !andb_true_iff, !Z.ltb_lt in Eover. lia.
  - rewrite bool_decide_false; [eauto|]. apply orb_false_iff in Eover.
    rewrite !andb_false_iff, !Z.ltb_ge in Eover. lia.
Qed.

(** C40: invoices and the admin summary agree after a sync.  [SyncSeatCount]
    stores the number of active paid users; the summary then shows the amount
    [CalculateInvoice] charges for the same users, price times seats, and the
    invoice is in the event log. *)
Theorem invoice_matches_summary cfg t x s :
  Pool cfg = true -> t <> ""%string -> db_ok s -> tenants s !! t = Some x -> known_plan (t_plan x) ->
  active_seats t s < 2 ^ 31 ->
  let '(r1, s1) := SyncSeatCount cfg Delivered Delivered t s in
  let '(r2, s2) := CalculateInvoice cfg Delivered Delivered Delivered t s1 in
  exists price m, GetPlanPricing cfg (t_plan x) = Ok price /\
    r1 = Ok (active_seats t s) /\ r2 = Ok (wrap64 (price * active_seats t s)) /\
    Summary cfg Delivered Delivered t s1 = Ok m /\ sm_SeatCount m = active_seats t s /\
    MonthlyCents m = wrap64 (price * active_seats t s) /\
    events s2 = events s ++ [mkEvent t "invoice_generated" (Some (active_seats t s)) None
                               (Some (wrap64 (price * active_seats t s))) MetaEmpty (now s)].
Proof.
  intros Hp Ht Hs Hx Hpl Hn. assert (0 <= active_seats t s) as Hn0 by (unfold active_seats; lia).
  destruct (known_by_plan (t_plan x) (CoreSeatCents cfg) (ProSeatCents cfg) (PrivacySeatCents cfg) Hpl) as [price Hprice].
  assert (fits32 (active_seats t s) = true) as Hf
    by (unfold fits32; rewrite andb_true_iff, Z.leb_le, Z.ltb_lt; lia).
  assert (CountSeats cfg Delivered t s = Ok (active_seats t s)) as Hc.
  { unfold CountSeats. rewrite (proj2 (String.eqb_neq t "")), Hp by done. cbn [negb query]. by rewrite Hf. }
  assert (exists s1 q, upsert_quota t (set_seats (active_seats t s)) (set_seats (active_seats t s)) s = Ok s1 /\
    tenants s1 = tenants s /\ users s1 = users s /\ events s1 = events s /\ now s1 = now s /\
    quotas s1 !! t = Some q /\ SeatCount q = active_seats t s) as (s1 & q & Hu & E1 & E2 & E3 & E4 & Hq & Hsc).
  { unfold upsert_quota. destruct (quotas s !! t) as [q|] eqn:Eq.
    - destruct (quota_ok_bounds q (ok_row _ Hs _ _ Eq)) as (B1 & B2 & B3 & B4).
      unfold put_quota. cbn [TenantID]. rewrite Hx, bool_decide_true, bounds_quota_ok by (done || (cbn; lia)).
      do 2 eexists. split_and!; try done. cbn. apply lookup_insert_eq. done.
    - unfold put_quota. cbn. rewrite Hx, bool_decide_true by done. rewrite bounds_quota_ok by (cbn; unfold int64_max; lia).
      do 2 eexists. split_and!; try done. cbn. apply lookup_insert_eq. done. }
  unfold SyncSeatCount. rewrite Hc, Hp. cbn [negb]. unfold BeginFunc at 1. rewrite Hu. cbn [rbind].
  assert (active_seats t s1 = active_seats t s) as Ea by (unfold active_seats; by rewrite E2).
  assert (tenant_plan Delivered t s1 = Ok (t_plan x)) as Hplan by (unfold tenant_plan; cbn; by rewrite E1, Hx).
  unfold CalculateInvoice. rewrite (proj2 (String.eqb_neq t "")), Hp, Hplan by done. cbn [negb rbind].
  unfold GetPlanPricing at 1. rewrite Hprice. cbn [rbind].
  assert (CountSeats cfg Delivered t s1 = Ok (active_seats t s)) as ->.
  { unfold CountSeats. rewrite (proj2 (String.eqb_neq t "")), Hp by done. cbn [negb query]. by rewrite Ea, Hf. }
  cbn [rbind]. exists price. eexists. split_and!; [exact Hprice|done|done| | | |].
  - unfold Summary. rewrite Hp, Hplan. cbn [negb rbind]. unfold GetPlanPricing. rewrite Hprice. cbn [rbind].
    unfold GetQuota. rewrite (proj2 (String.eqb_neq t "")), Hp by done. cbn [negb query]. rewrite Hq. reflexivity.
  - done.
  - cbn. by rewrite Hsc.
  - unfold BeginFunc, add_event. cbn. rewrite E1, Hx, Hf, E3, E4. rewrite bool_decide_true by done.
    pose proof (wrap64_range (price * active_seats t s)) as [W1 W2].
    assert (fits64 (wrap64 (price * active_seats t s)) = true) as ->
      by (unfold fits64; rewrite andb_true_iff, !Z.leb_le; lia). done.
Qed.

(** ** A tenant on the default configuration *)
Module BillingExamples.
Definition cfg : Config := NewService (mkConfig true 0 0 0 0 0 0).

Definition setup : list bop :=
  [BTenant "acme" "core"; BUsers [mkUser "acme" "active" "user"; mkUser "acme" "active" "shared_inbox"];
   BUpsertQuota Delivered "acme" (5 * 1024 * 1024 * 1024) 10; BUsage ReplyLost "acme" 4096;
   BUsage RequestLost "acme" 512; BSnapshot Delivered "acme" 8192].

Definition db0 : DB := foldl (fun s o => exec cfg o s) empty_db setup.

Lemma db0_ok : db_ok db0.
Proof.
  assert (forall ops s, billing_ok s -> billing_ok (foldl (fun s o => exec cfg o s) s ops)) as H.
  { induction ops as [|o ops IH]; intros s Hs; [done|]. by apply IH, bexec_ok. }
  apply (H setup empty_db empty_db_ok).
Qed.

Definition row0 : Quota := default (new_quota "acme" db0) (quotas db0 !! "acme"%string).
End BillingExamples.

Import BillingExamples.

Lemma admitted_upload_fits_witness :
  let s' := (UpdateStorageUsage cfg Delivered "acme" 1000 db0).2 in
  exists q q', quotas db0 !! "acme"%string = Some q /\ quotas s' !! "acme"%string = Some q' /\
    StorageUsedBytes q' = StorageUsedBytes q + 1000 /\ StorageLimitBytes q' = StorageLimitBytes q /\
    (StorageLimitBytes q' = 0 \/ StorageUsedBytes q' <= StorageLimitBytes q').
Proof.
  apply (admitted_upload_fits cfg "acme" 1000 db0 (UpdateStorageUsage cfg Delivered "acme" 1000 db0).2);
    [reflexivity | apply db0_ok | vm_compute; reflexivity | vm_compute; reflexivity].
Defined.

Lemma check_overflow_admits_witness :
  CheckStorageQuota cfg Delivered "acme" int64_max db0 = Ok tt /\
  StorageLimitBytes row0 < StorageUsedBytes row0 + int64_max.
Proof.
  apply (check_overflow_admits cfg "acme" row0 db0);
    [reflexivity | discriminate | apply db0_ok | vm_compute; reflexivity | vm_compute; discriminate].
Defined.

Lemma change_plan_spec_witness :
  let '(r, s') := ChangePlan cfg Delivered Delivered Delivered Delivered "acme" "pro" db0 in
  let q' := replanned (5 * 1024 * 1024 * 1024) (15 * 1024 * 1024 * 1024) (now db0) row0 in
  tenants s' = <["acme"%string := mkTenant "pro" "active"]> (tenants db0) /\ quotas s' !! "acme"%string = Some q' /\
  events s' = events db0 ++ [mkEvent "acme" "plan_changed" None None None (MetaPlan "core" "pro") (now db0)] /\
  if bool_decide (0 < SeatLimit q' < SeatCount q' \/ 0 < StorageLimitBytes q' < StorageUsedBytes q')
  then r = Err ErrQuotaExceeded
  else exists price, GetPlanPricing cfg "pro" = Ok price /\
    r = Ok (mkSummary "acme" "pro" price (SeatCount q') (SeatLimit q') (wrap64 (price * SeatCount q'))
              (StorageUsedBytes q') (StorageLimitBytes q') (storagePercent q')).
Proof.
  apply (change_plan_spec cfg "acme" "pro" (mkTenant "core" "active") row0 db0
    (5 * 1024 * 1024 * 1024) (15 * 1024 * 1024 * 1024));
    [reflexivity | discriminate | right; left | discriminate | apply db0_ok | vm_compute; reflexivity
    | vm_compute; reflexivity | reflexivity | reflexivity | vm_compute; split; [reflexivity|discriminate]].
Defined.

Lemma invoice_matches_summary_witness :
  let '(r1, s1) := SyncSeatCount cfg Delivered Delivered "acme" db0 in
  let '(r2, s2) := CalculateInvoice cfg Delivered Delivered Delivered "acme" s1 in
  exists price m, GetPlanPricing cfg "core" = Ok price /\
    r1 = Ok (active_seats "acme" db0) /\ r2 = Ok (wrap64 (price * active_seats "acme" db0)) /\
    Summary cfg Delivered Delivered "acme" s1 = Ok m /\ sm_SeatCount m = active_seats "acme" db0 /\
    MonthlyCents m = wrap64 (price * active_seats "acme" db0) /\
    events s2 = events db0 ++ [mkEvent "acme" "invoice_generated" (Some (active_seats "acme" db0)) None
                               (Some (wrap64 (price * active_seats "acme" db0))) MetaEmpty (now db0)].
Proof.
  apply (invoice_matches_summary cfg "acme" (mkTenant "core" "active") db0);
    [reflexivity | discriminate | apply db0_ok | vm_compute; reflexivity | left | reflexivity].
Defined.
