(* ===== verification/Lifecycle.v ===== *)
(** * Tenant lifecycle and dunning ([internal/billing/lifecycle.go], [dunning.go])

    The hooks that tie the tenant's life to the billing tables and to Stripe,
    proration, and the recovery of failed payments.  What the hooks send to
    Stripe, KChat and the audit log is returned as a list, in order; what
    those answer is an argument. *)

From S2P Require Import Prelude Calendar Billing.

Local Open Scope Z_scope.
Local Open Scope go_scope.

(** ** Stripe *)
Inductive scall :=
| CreateCustomer (tenantID : string)
| CreateSubscription (customer price tenantID plan : string)
| UpdateSubscription (id plan price : string)
| CancelSubscription (id : string).

(** A configured client: what it answers, [None] for an error. *)
Record StripeClient := mkStripe { customerReply : option string; subscriptionReply : option string }.

Record Lifecycle := mkLifecycle {
  svc : Config;
  stripe : option StripeClient;
  pricing : gmap string string;
}.

Definition SubscriptionActive : string := "active".
Definition SubscriptionPastDue : string := "past_due".
Definition SubscriptionCancelled : string := "cancelled".

Definition opt_string (s : string) : option string := if String.eqb s "" then None else Some s.
Definition price_of (l : Lifecycle) (plan : string) : string := default ""%string (pricing l !! plan).

Definition sub_ok (t : string) (x : Subscription) (s : DB) : bool :=
  bool_decide (is_Some (tenants s !! t)) &&
  bool_decide (s_plan x ∈ [PlanCore; PlanPro; PlanPrivacy]) &&
  bool_decide (s_status x ∈ [SubscriptionActive; SubscriptionPastDue; SubscriptionCancelled]) &&
  match s_stripe x with
  | None => true
  | Some id => bool_decide (map_Forall (fun t' y => t' = t \/ s_stripe y <> Some id) (subscriptions s))
  end.

Definition upsertSubscriptionWithStripe (l : Lifecycle) (d : delivery) (t plan status stripeID customerID : string)
    (pstart pend : Z) (s : DB) : result berror unit * DB :=
  if negb (Pool (svc l)) then (Ok tt, s)
  else BeginFunc ErrStore d (fun s =>
    let old := subscriptions s !! t in
    let x := mkSub plan status
               (match opt_string stripeID with Some i => Some i | None => old ≫= s_stripe end)
               (match opt_string customerID with Some i => Some i | None => old ≫= s_customer end) pstart pend in
    if sub_ok t x s then Ok (tt, with_subscriptions (<[t := x]> (subscriptions s)) s) else Err ErrStore) s.

Definition upsertSubscription (l : Lifecycle) (d : delivery) (t plan status stripeID : string) (pstart pend : Z) (s : DB)
    : result berror unit * DB :=
  upsertSubscriptionWithStripe l d t plan status stripeID ""%string pstart pend s.

Definition markSubscriptionCancelled (l : Lifecycle) (d : delivery) (t : string) (s : DB) : result berror unit * DB :=
  if negb (Pool (svc l)) then (Ok tt, s)
  else BeginFunc ErrStore d (fun s =>
    Ok (tt, with_subscriptions
      (alter (fun x => mkSub (s_plan x) SubscriptionCancelled (s_stripe x) (s_customer x) (s_start x) (s_end x))
         t (subscriptions s)) s)) s.

Definition recordEvent (l : Lifecycle) (d : delivery) (t eventType : string) (m : metadata) (amount : Z) (s : DB)
    : result berror unit * DB :=
  if negb (Pool (svc l)) then (Ok tt, s)
  else BeginFunc ErrStore d (fun s =>
    let? s := add_event (mkEvent t eventType None None (Some amount) m (now s)) s in Ok (tt, s)) s.

Definition GetSubscription (l : Lifecycle) (d : delivery) (t : string) (s : DB) : result berror Subscription :=
  if negb (Pool (svc l)) then Err ErrNotFound
  else query d (fun s => match subscriptions s !! t with Some x => Ok x | None => Err ErrNotFound end) s.

Definition stripeID_of (x : Subscription) : string := default ""%string (s_stripe x).

(** The Stripe part of [OnTenantCreated]: calls, customer id, subscription id. *)
Definition stripe_signup (l : Lifecycle) (t plan : string) : list scall * string * string :=
  match stripe l with
  | None => ([], ""%string, ""%string)
  | Some c =>
      match customerReply c with
      | None => ([CreateCustomer t], ""%string, ""%string)
      | Some cust =>
          let price := price_of l plan in
          if String.eqb price "" then ([CreateCustomer t], cust, ""%string)
          else ([CreateCustomer t; CreateSubscription cust price t plan], cust, default ""%string (subscriptionReply c))
      end
  end.

Definition OnTenantCreated (l : Lifecycle) (d1 d2 : delivery) (wall : Z) (t plan : string) (s : DB)
    : result berror unit * list scall * DB :=
  match ValidatePlan plan with
  | Err e => (Err e, [], s)
  | Ok _ =>
      let perSeat := match PerSeatStorageBytes (svc l) plan with Ok v => v | Err _ => 0 end in
      let '(r, s1) := UpsertQuota (svc l) d1 t perSeat 1 s in
      match r with
      | Err e => (Err e, [], s1)
      | Ok _ =>
          let '(calls, cust, sub) := stripe_signup l t plan in
          let '(r, s2) := upsertSubscriptionWithStripe l d2 t plan SubscriptionActive sub cust wall (AddMonth wall) s1 in
          (r, calls, s2)
      end
  end.

Definition OnTenantDeleted (l : Lifecycle) (d1 d2 d3 d4 d5 : delivery) (t : string) (s : DB)
    : result berror unit * list scall * DB :=
  let s1 := (CalculateInvoice (svc l) d1 d2 d3 t s).2 in
  let calls :=
    match stripe l, GetSubscription l d4 t s1 with
    | Some _, Ok x => if String.eqb (stripeID_of x) "" then [] else [CancelSubscription (stripeID_of x)]
    | _, _ => []
    end in
  let '(r, s2) := markSubscriptionCancelled l d5 t s1 in
  (r, calls, s2).

Definition OnSeatAdded (l : Lifecycle) (d : delivery) (t : string) (s : DB) : result berror unit * DB :=
  IncrementSeatCount (svc l) d t 1 s.

Definition OnSeatRemoved (l : Lifecycle) (d : delivery) (t : string) (s : DB) : result berror unit * DB :=
  IncrementSeatCount (svc l) d t (-1) s.

Section proration.
(** [int64(d.Hours()/24)] in float64 arithmetic. *)
Variable wholeDays : Z -> Z.

Definition prorate (oldCents newCents seats pstart pend now : Z) : Z :=
  let periodDays := let n := wholeDays (pend - pstart) + 1 in if n <=? 0 then 30 else n in
  let now := if now <? pstart then pstart else now in
  if pend <? now then 0
  else
    let remainingDays := Z.max 0 (wholeDays (pend - now) + 1) in
    let delta := wrap64 ((newCents - oldCents) * seats) in
    Z.quot (wrap64 (delta * remainingDays)) periodDays.

Definition computeProration (l : Lifecycle) (d : delivery) (t oldPlan newPlan : string) (pstart pend now : Z) (s : DB)
    : result berror Z :=
  if String.eqb oldPlan "" || String.eqb newPlan "" || String.eqb oldPlan newPlan then Ok 0 else
  let? oldCents := GetPlanPricing (svc l) oldPlan in
  let? newCents := GetPlanPricing (svc l) newPlan in
  let? seats := match CountSeats (svc l) d t s with Err ErrNotFound => Ok 0 | r => r end in
  Ok (prorate oldCents newCents seats pstart pend now).

Definition ProrationPreview (l : Lifecycle) (d1 d2 : delivery) (wall : Z) (t newPlan : string) (s : DB)
    : result berror Z :=
  let? x := GetSubscription l d1 t s in
  computeProration l d2 t (s_plan x) newPlan (s_start x) (s_end x) wall s.

Definition OnPlanChanged (l : Lifecycle) (d1 d2 d3 d4 : delivery) (wall : Z) (t oldPlan newPlan : string) (s : DB)
    : result berror unit * list scall * DB :=
  match GetSubscription l d1 t s with
  | Err ErrNotFound =>
      let '(r, s1) := upsertSubscription l d3 t newPlan SubscriptionActive ""%string wall (AddMonth wall) s in
      (r, [], s1)
  | Err e => (Err e, [], s)
  | Ok x =>
      let prorated := match computeProration l d2 t oldPlan newPlan (s_start x) (s_end x) wall s with
                      | Ok z => z | Err _ => 0 end in
      let price := price_of l newPlan in
      let calls := match stripe l with
                   | Some _ => if String.eqb (stripeID_of x) "" || String.eqb price "" then []
                               else [UpdateSubscription (stripeID_of x) newPlan price]
                   | None => []
                   end in
      let '(r, s1) := upsertSubscription l d3 t newPlan (s_status x) (stripeID_of x) (s_start x) (s_end x) s in
      match r with
      | Err e => (Err e, calls, s1)
      | Ok _ =>
          let '(r, s2) := recordEvent l d4 t "plan_prorated" (MetaProrated oldPlan newPlan prorated) prorated s1 in
          (r, calls, s2)
      end
  end.
End proration.

(** ** Dunning *)
Definition dunningWindow : Z := 30 * 24 * Hour.
Definition dunningSuspendThreshold : Z := 3.

Record DunningEvent := mkDunningEvent {
  e_TenantID : string; StripeInvoiceID : string; StripeCustomerID : string;
  AmountDue : Z; Currency : string; OccurredAt : option Z;
}.

Inductive deffect :=
| NotifyPaymentFailed (t invoice : string) (amount : Z) (currency : string)
| AuditPaymentFailed (t invoice : string) (failures : Z)
| AuditTenantSuspended (t : string) (failures : Z).

Definition failures_since (t : string) (cutoff : Z) (l : list DunningRow) : Z :=
  Z.of_nat (length (filter (fun r => d_tenant r = t /\ cutoff <= d_at r) l)).

(** [at_] is the event's time of occurrence, defaulted. *)
Definition recordAndCount (pool : bool) (d : delivery) (e : DunningEvent) (at_ : Z) (s : DB)
    : result berror (Z * bool) * DB :=
  if negb pool then (Ok (1, true), s)
  else BeginFunc ErrStore d (fun s =>
    if negb (bool_decide (is_Some (tenants s !! e_TenantID e))) then Err ErrStore else
    let isNew := negb (existsb (fun r => String.eqb (d_invoice r) (StripeInvoiceID e)) (dunning s)) in
    let s := if isNew then with_dunning (dunning s ++
               [mkDunning (e_TenantID e) (StripeInvoiceID e) (StripeCustomerID e) (AmountDue e) (Currency e) at_]) s
             else s in
    Ok ((failures_since (e_TenantID e) (at_ - dunningWindow) (dunning s), isNew), s)) s.

Definition suspend (pool : bool) (d : delivery) (t : string) (s : DB) : result berror unit * DB :=
  if negb pool then (Ok tt, s)
  else BeginFunc ErrStore d (fun s => Ok (tt, with_tenants (alter (fun x => mkTenant (t_plan x) "suspended") t (tenants s)) s)) s.

Definition Handle (pool : bool) (d1 d2 : delivery) (wall : Z) (e : DunningEvent) (s : DB)
    : result berror unit * list deffect * DB :=
  if String.eqb (e_TenantID e) "" then (Err ErrInvalidInput, [], s) else
  let at_ := default wall (OccurredAt e) in
  let '(r, s1) := recordAndCount pool d1 e at_ s in
  match r with
  | Err e => (Err e, [], s1)
  | Ok (failures, isNew) =>
      let fx := if isNew : bool
                then [NotifyPaymentFailed (e_TenantID e) (StripeInvoiceID e) (AmountDue e) (Currency e);
                      AuditPaymentFailed (e_TenantID e) (StripeInvoiceID e) failures] else [] in
      if isNew && (dunningSuspendThreshold <=? failures) then
        let '(r, s2) := suspend pool d2 (e_TenantID e) s1 in
        match r with
        | Err e => (Err e, fx, s2)
        | Ok _ => (Ok tt, fx ++ [AuditTenantSuspended (e_TenantID e) failures], s2)
        end
      else (Ok tt, fx, s1)
  end.

#[local] Opaque AddMonth.

(** ** Proration is fair *)
Section fair.
Context (wholeDays : Z -> Z)
  (wholeDays_mono : forall a b, a <= b -> wholeDays a <= wholeDays b)
  (wholeDays_zero : wholeDays 0 = 0).

Abbreviation prorate := (prorate wholeDays).

(** Amounts and days small enough for the products to stay within int64. *)
Definition small (oldCents newCents seats pstart pend : Z) : Prop :=
  Z.abs ((newCents - oldCents) * seats) * (wholeDays (pend - pstart) + 1) <= int64_max.

Definition pdays (pstart pend : Z) : Z := wholeDays (pend - pstart) + 1.

Lemma days_bounds pstart pend now :
  pstart <= now <= pend -> 1 <= wholeDays (pend - now) + 1 <= pdays pstart pend.
Proof.
  intros Hn. unfold pdays. pose proof (wholeDays_mono 0 (pend - now)). pose proof (wholeDays_mono (pend - now) (pend - pstart)).
  lia.
Qed.

(** Within the period the formula is the documented one. *)
Lemma prorate_formula oldCents newCents seats pstart pend now :
  pstart <= now <= pend -> small oldCents newCents seats pstart pend ->
  prorate oldCents newCents seats pstart pend now =
  Z.quot ((newCents - oldCents) * seats * (wholeDays (pend - now) + 1)) (pdays pstart pend).
Proof.
  intros Hn Hs. pose proof (days_bounds pstart pend now Hn) as Hd. unfold small in Hs. unfold Lifecycle.prorate.
  unfold pdays in *.
  destruct (Z.leb_spec (wholeDays (pend - pstart) + 1) 0); [lia|].
  destruct (Z.ltb_spec now pstart); [lia|]. destruct (Z.ltb_spec pend now); [lia|].
  rewrite Z.max_r by lia. unfold int64_max in Hs.
  set (D := (newCents - oldCents) * seats) in *. set (n := wholeDays (pend - pstart) + 1) in *.
  set (r := wholeDays (pend - now) + 1) in *.
  assert (Z.abs D <= Z.abs D * n) by (pose proof (Z.abs_nonneg D); nia).
  assert (Z.abs (D * r) <= Z.abs D * n) by (rewrite Z.abs_mul, (Z.abs_eq r) by lia; pose proof (Z.abs_nonneg D); nia).
  rewrite (wrap64_id D), (wrap64_id (D * r)); [done|unfold int64_min, int64_max; lia..].
Qed.

(** Proration is fair.  Inside the billing period: going back costs
    exactly what going there credited; an upgrade never costs more than the
    full difference and never less than nothing; the later it happens the less
    it costs. *)
Theorem proration_fair oldCents newCents seats pstart pend now1 now2 :
  pstart <= now1 -> now1 <= now2 -> now2 <= pend -> 0 <= seats -> oldCents <= newCents ->
  small oldCents newCents seats pstart pend ->
  prorate newCents oldCents seats pstart pend now1 = - prorate oldCents newCents seats pstart pend now1 /\
  0 <= prorate oldCents newCents seats pstart pend now2 /\
  prorate oldCents newCents seats pstart pend now2 <= prorate oldCents newCents seats pstart pend now1 /\
  prorate oldCents newCents seats pstart pend now1 <= (newCents - oldCents) * seats /\
  prorate oldCents newCents seats pstart pend pstart = (newCents - oldCents) * seats.
Proof.
  intros H1 H2 H3 Hs Hc Hsm.
  assert (small newCents oldCents seats pstart pend) as Hsm'
    by (unfold small in *; replace ((oldCents - newCents) * seats) with (- ((newCents - oldCents) * seats)) by lia;
        by rewrite Z.abs_opp).
  rewrite !prorate_formula by (done || lia).
  pose proof (days_bounds pstart pend now1) as D1. pose proof (days_bounds pstart pend now2) as D2.
  pose proof (wholeDays_mono (pend - now2) (pend - now1)) as Hm. unfold pdays in *.
  set (D := (newCents - oldCents) * seats) in *. assert (0 <= D) as HD by (unfold D; nia).
  set (r1 := wholeDays (pend - now1) + 1) in *. set (r2 := wholeDays (pend - now2) + 1) in *.
  set (n := wholeDays (pend - pstart) + 1) in *. split_and!.
  - replace ((oldCents - newCents) * seats * r1) with (- (D * r1)) by (unfold D; lia). apply Z.quot_opp_l. lia.
  - apply Z.quot_pos; nia.
  - apply Z.quot_le_mono; nia.
  - apply Z.quot_le_upper_bound; nia.
  - apply Z.quot_mul. lia.
Qed.

(** The preview is the charge.  When the admin confirms a plan change, the
    amount recorded for finance is the one [ProrationPreview] showed on the
    same data; the subscription keeps its period, its status and its Stripe
    ids, under the new plan. *)
Theorem preview_is_charge l wall t newPlan x amount s :
  Pool (svc l) = true -> is_Some (tenants s !! t) -> subscriptions s !! t = Some x ->
  known_plan newPlan -> sub_ok t x s = true -> stripeID_of x <> ""%string \/ s_stripe x = None ->
  ProrationPreview wholeDays l Delivered Delivered wall t newPlan s = Ok amount -> fits64 amount = true ->
  let '(r, calls, s') := OnPlanChanged wholeDays l Delivered Delivered Delivered Delivered wall t (s_plan x) newPlan s in
  r = Ok tt /\
  events s' = events s ++ [mkEvent t "plan_prorated" None None (Some amount) (MetaProrated (s_plan x) newPlan amount) (now s)] /\
  subscriptions s' !! t = Some (mkSub newPlan (s_status x) (s_stripe x) (s_customer x) (s_start x) (s_end x)) /\
  quotas s' = quotas s /\
  forall c, c ∈ calls -> c = UpdateSubscription (stripeID_of x) newPlan (price_of l newPlan).
Proof.
  intros Hp Ht Hx Hpl Hok Hid Hprev Hf. unfold OnPlanChanged.
  assert (GetSubscription l Delivered t s = Ok x) as Hg by (unfold GetSubscription; rewrite Hp; cbn; by rewrite Hx).
  unfold ProrationPreview in Hprev. rewrite Hg in Hprev |- *. cbn [rbind] in Hprev. rewrite Hprev.
  unfold upsertSubscription, upsertSubscriptionWithStripe. rewrite Hp. cbn [negb opt_string String.eqb].
  assert ((match opt_string (stripeID_of x) with Some i => Some i | None => Some x ≫= s_stripe end) = s_stripe x) as Hs.
  { unfold opt_string, stripeID_of in *. cbn. destruct (s_stripe x) as [i|]; simpl in *; [|done].
    destruct Hid as [Hid|]; [|done]. by rewrite (proj2 (String.eqb_neq i "")). }
  unfold BeginFunc at 1. rewrite Hx, Hs. cbn [mbind option_bind].
  assert (sub_ok t (mkSub newPlan (s_status x) (s_stripe x) (s_customer x) (s_start x) (s_end x)) s = true) as ->.
  { unfold sub_ok in *. cbn. rewrite !andb_true_iff in Hok. destruct Hok as [[[O1 O2] O3] O4].
    rewrite O1, O3, O4. by rewrite bool_decide_true. }
  unfold recordEvent. rewrite Hp. cbn [negb]. unfold BeginFunc, add_event. cbn.
  rewrite bool_decide_true by done. cbn. rewrite Hf. cbn. split_and!; [done..|apply lookup_insert_eq|done|].
  intros c. destruct (stripe l); [|by intros ?%elem_of_nil].
  destruct (_ || _); [by intros ?%elem_of_nil|]. by intros ?%list_elem_of_singleton.
Qed.
End fair.

(** ** Dunning *)
Section dunning.
Implicit Types (s : DB) (e : DunningEvent).

Definition recorded (s : DB) (invoice : string) : bool :=
  existsb (fun r => String.eqb (d_invoice r) invoice) (dunning s).

Definition row_of (wall : Z) (e : DunningEvent) : DunningRow :=
  mkDunning (e_TenantID e) (StripeInvoiceID e) (StripeCustomerID e) (AmountDue e) (Currency e)
    (default wall (OccurredAt e)).

(** The tenant's failures in the 30 days up to the event, the event included. *)
Definition failures_with (wall : Z) e s : Z :=
  failures_since (e_TenantID e) (default wall (OccurredAt e) - dunningWindow) (dunning s ++ [row_of wall e]).

(** What a failed payment does.  A new invoice is recorded, notified and
    audited once; the third failure within 30 days suspends the tenant, fewer
    do not; a redelivered invoice changes nothing and sends nothing. *)
Theorem dunning_spec wall e s x :
  e_TenantID e <> ""%string -> tenants s !! e_TenantID e = Some x ->
  let '(r, fx, s') := Handle true Delivered Delivered wall e s in
  r = Ok tt /\
  if recorded s (StripeInvoiceID e) then fx = [] /\ s' = s
  else
    dunning s' = dunning s ++ [row_of wall e] /\
    NotifyPaymentFailed (e_TenantID e) (StripeInvoiceID e) (AmountDue e) (Currency e) ∈ fx /\
    tenants s' = (if 3 <=? failures_with wall e s
                  then <[e_TenantID e := mkTenant (t_plan x) "suspended"]> (tenants s) else tenants s).
Proof.
  intros Ht Hx. unfold Handle, recordAndCount. rewrite (proj2 (String.eqb_neq (e_TenantID e) "")) by done.
  cbn [negb]. unfold BeginFunc at 1. rewrite Hx, bool_decide_true by done. cbn [negb].
  change (existsb _ (dunning s)) with (recorded s (StripeInvoiceID e)).
  destruct (recorded s (StripeInvoiceID e)); cbn [negb]; [done|]. cbn [dunning with_dunning].
  change (failures_since _ _ _) with (failures_with wall e s). unfold dunningSuspendThreshold.
  destruct (3 <=? failures_with wall e s); cbn [andb].
  - unfold suspend, BeginFunc. cbn. split_and!; [done..|by left|].
    apply map_eq. intros t. destruct (decide (t = e_TenantID e)) as [->|Hne].
    + by rewrite lookup_alter_eq, lookup_insert_eq, Hx.
    + by rewrite lookup_alter_ne, lookup_insert_ne by done.
  - split_and!; [done..|by left|done].
Qed.

Lemma Handle_redelivered wall e s :
  e_TenantID e <> ""%string -> is_Some (tenants s !! e_TenantID e) -> recorded s (StripeInvoiceID e) = true ->
  Handle true Delivered Delivered wall e s = (Ok tt, [], s).
Proof.
  intros Ht Hx Hr. unfold Handle, recordAndCount. rewrite (proj2 (String.eqb_neq (e_TenantID e) "")) by done.
  cbn [negb]. unfold BeginFunc at 1. rewrite bool_decide_true by done. cbn [negb].
  change (existsb _ (dunning s)) with (recorded s (StripeInvoiceID e)). by rewrite Hr.
Qed.

(** A failed suspension is never retried.  When the third failure is
    recorded but the suspending transaction is lost, Handle returns an error,
    Stripe redelivers, and the redelivery succeeds without suspending: the
    tenant keeps its status. *)
Theorem lost_suspension wall1 wall2 e s x :
  e_TenantID e <> ""%string -> tenants s !! e_TenantID e = Some x ->
  recorded s (StripeInvoiceID e) = false -> 3 <= failures_with wall1 e s ->
  let '(r1, _, s1) := Handle true Delivered RequestLost wall1 e s in
  let '(r2, fx2, s2) := Handle true Delivered Delivered wall2 e s1 in
  r1 = Err ErrStore /\ r2 = Ok tt /\ fx2 = [] /\ tenants s2 !! e_TenantID e = Some x.
Proof.
  intros Ht Hx Hr Hf. unfold Handle at 1, recordAndCount. rewrite (proj2 (String.eqb_neq (e_TenantID e) "")) by done.
  cbn [negb]. unfold BeginFunc at 1. rewrite Hx, bool_decide_true by done. cbn [negb].
  change (existsb _ (dunning s)) with (recorded s (StripeInvoiceID e)). rewrite Hr. cbn [negb dunning with_dunning].
  change (failures_since _ _ _) with (failures_with wall1 e s). unfold dunningSuspendThreshold at 1.
  destruct (Z.leb_spec 3 (failures_with wall1 e s)); [|lia]. cbn [andb]. unfold suspend, BeginFunc. cbn [negb].
  set (s1 := with_dunning _ s).
  assert (recorded s1 (StripeInvoiceID e) = true) as Hr1.
  { unfold recorded, s1. cbn. rewrite existsb_app. cbn. rewrite String.eqb_refl. by rewrite orb_true_r. }
  rewrite (Handle_redelivered wall2 e s1 Ht) by (done || eexists; exact Hx). split_and!; done.
Qed.
End dunning.

(** ** Provisioning *)
Lemma increment_seats_row cfg t q z s :
  Pool cfg = true -> t <> ""%string -> db_ok s -> quotas s !! t = Some q -> 0 <= SeatCount q + z < 2 ^ 31 ->
  -2 ^ 31 <= z < 2 ^ 31 ->
  exists s' q', IncrementSeatCount cfg Delivered t z s = (Ok tt, s') /\ quotas s' !! t = Some q' /\
    SeatCount q' = SeatCount q + z /\ SeatLimit q' = SeatLimit q /\ StorageLimitBytes q' = StorageLimitBytes q.
Proof.
  intros Hp Ht Hs Hq Hz Hzz. destruct (ok_fk _ Hs _ _ Hq) as [x Hx].
  destruct (quota_ok_bounds q (ok_row _ Hs _ _ Hq)) as (B1 & B2 & B3 & B4).
  unfold IncrementSeatCount. rewrite (proj2 (String.eqb_neq t "")), Hp by done. cbn [negb].
  unfold BeginFunc. rewrite Hq. change (default 0 (SeatCount <$> Some q)) with (SeatCount q).
  assert (fits32 (SeatCount q + z) = true) as -> by (unfold fits32; rewrite andb_true_iff, Z.leb_le, Z.ltb_lt; lia).
  cbn [negb]. unfold upsert_quota. rewrite Hq. unfold put_quota. cbn [TenantID]. rewrite Hx, bool_decide_true by done.
  rewrite bounds_quota_ok by (cbn; lia). cbn [andb rbind]. unfold add_event. cbn [tenants with_quotas ev_tenant].
  rewrite Hx, bool_decide_true by done.
  assert (fits32 z = true) as Hf by (unfold fits32; rewrite andb_true_iff, Z.leb_le, Z.ltb_lt; lia).
  destruct (z <? 0); cbn; rewrite Hf; cbn; (do 2 eexists; split_and!; [reflexivity|apply lookup_insert_eq|cbn; lia|done..]).
Qed.

Lemma sync_seats_row cfg t q s :
  Pool cfg = true -> t <> ""%string -> db_ok s -> quotas s !! t = Some q -> active_seats t s < 2 ^ 31 ->
  exists s' q', SyncSeatCount cfg Delivered Delivered t s = (Ok (active_seats t s), s') /\ quotas s' !! t = Some q' /\
    SeatCount q' = active_seats t s /\ SeatLimit q' = SeatLimit q /\ StorageLimitBytes q' = StorageLimitBytes q.
Proof.
  intros Hp Ht Hs Hq Hn. assert (0 <= active_seats t s) as Hn0 by (unfold active_seats; lia).
  destruct (ok_fk _ Hs _ _ Hq) as [x Hx].
  destruct (quota_ok_bounds q (ok_row _ Hs _ _ Hq)) as (B1 & B2 & B3 & B4).
  unfold SyncSeatCount, CountSeats. rewrite (proj2 (String.eqb_neq t "")), Hp by done. cbn [negb query].
  assert (fits32 (active_seats t s) = true) as -> by (unfold fits32; rewrite andb_true_iff, Z.leb_le, Z.ltb_lt; lia).
  unfold BeginFunc, upsert_quota. rewrite Hq. unfold put_quota. cbn [TenantID]. rewrite Hx, bool_decide_true by done.
  rewrite bounds_quota_ok by (cbn; lia). cbn. do 2 eexists. split_and!; [reflexivity|apply lookup_insert_eq|done..].
Qed.

Lemma upsert_users t ins upd s s' : upsert_quota t ins upd s = Ok s' -> users s' = users s.
Proof.
  unfold upsert_quota, put_quota. destruct (quotas s !! t); (destruct (_ && _); [|done]); by intros [= <-].
Qed.

Lemma upsert_sub_frame l d t plan status sid cust ps pe s :
  let s' := (upsertSubscriptionWithStripe l d t plan status sid cust ps pe s).2 in
  quotas s' = quotas s /\ tenants s' = tenants s /\ users s' = users s.
Proof.
  cbn zeta. unfold upsertSubscriptionWithStripe. destruct (Pool (svc l)); [|done]. cbn [negb].
  apply (BeginFunc_ind (fun s' => quotas s' = quotas s /\ tenants s' = tenants s /\ users s' = users s)); [done|].
  intros a s'. destruct (sub_ok _ _ _); [|done]. by intros [= _ <-].
Qed.

Lemma created_row l d wall t plan x s perSeat :
  Pool (svc l) = true -> t <> ""%string -> known_plan plan -> db_ok s -> tenants s !! t = Some x ->
  quotas s !! t = None -> PerSeatStorageBytes (svc l) plan = Ok perSeat -> 0 < perSeat <= int64_max ->
  let s1 := (OnTenantCreated l Delivered d wall t plan s).2 in
  db_ok s1 /\ users s1 = users s /\ quotas s1 !! t = Some (mkQuota t 0 perSeat 0 1 (now s) (now s)).
Proof.
  intros Hp Ht Hpl Hs Hx Hq Hper Hb. cbn zeta.
  assert (exists s0, put_quota (set_limits perSeat 1 (new_quota t s)) s = Ok s0 /\ users s0 = users s) as (s0 & Epq & Hu0).
  { unfold put_quota. cbn [TenantID set_limits new_quota]. rewrite Hx, bool_decide_true by done.
    rewrite bounds_quota_ok by (cbn; unfold int64_max in *; lia). eexists. by split. }
  assert (UpsertQuota (svc l) Delivered t perSeat 1 s = (Ok tt, s0)) as HU.
  { unfold UpsertQuota. rewrite (proj2 (String.eqb_neq t "")), Hp by done. cbn [negb].
    unfold BeginFunc, upsert_quota. by rewrite Hq, Epq. }
  pose proof (put_quota_ok _ _ _ Epq Hs) as (Hs0 & _ & _ & Ht0 & Hq0).
  unfold OnTenantCreated. assert (ValidatePlan plan = Ok tt) as -> by (unfold ValidatePlan; by rewrite bool_decide_true).
  rewrite Hper, HU. destruct (stripe_signup l t plan) as [[calls cust] sub].
  pose proof (upsert_sub_frame l d t plan SubscriptionActive sub cust wall (AddMonth wall) s0) as Hf.
  destruct (upsertSubscriptionWithStripe l d t plan SubscriptionActive sub cust wall (AddMonth wall) s0) as [r s2].
  cbn in Hf |- *. destruct Hf as (F1 & F2 & F3).
  split_and!; [|congruence|by rewrite F1, Hq0, lookup_insert_eq]. split; rewrite ?F1, ?F2; apply Hs0.
Qed.

(** A fresh tenant has room for one user.  [OnTenantCreated] sets a seat
    limit of one and one seat's storage.  The first user fits; once it is
    counted the next one is refused, and recounting the seats leaves both
    limits as they were. *)
Theorem fresh_tenant_one_seat l d wall t plan x s perSeat :
  Pool (svc l) = true -> t <> ""%string -> known_plan plan -> db_ok s -> tenants s !! t = Some x ->
  quotas s !! t = None -> PerSeatStorageBytes (svc l) plan = Ok perSeat -> 0 < perSeat <= int64_max ->
  active_seats t s < 2 ^ 31 ->
  let s1 := (OnTenantCreated l Delivered d wall t plan s).2 in
  CheckSeatAvailable (svc l) Delivered t s1 = Ok tt /\
  exists s2 s3 q, OnSeatAdded l Delivered t s1 = (Ok tt, s2) /\
    CheckSeatAvailable (svc l) Delivered t s2 = Err ErrQuotaExceeded /\
    SyncSeatCount (svc l) Delivered Delivered t s2 = (Ok (active_seats t s), s3) /\
    quotas s3 !! t = Some q /\ SeatLimit q = 1 /\ StorageLimitBytes q = perSeat.
Proof.
  intros Hp Ht Hpl Hs Hx Hq Hper Hb Hn. cbn zeta.
  destruct (created_row l d wall t plan x s perSeat Hp Ht Hpl Hs Hx Hq Hper Hb) as (Hs1 & Hu1 & Hq1).
  set (s1 := (OnTenantCreated l Delivered d wall t plan s).2) in *. split.
  { unfold CheckSeatAvailable, GetQuota. rewrite (proj2 (String.eqb_neq t "")), Hp by done. cbn [negb query].
    by rewrite Hq1. }
  destruct (increment_seats_row (svc l) t _ 1 s1 Hp Ht Hs1 Hq1) as (s2 & q2 & Hi & Hq2 & E1 & E2 & E3); [cbn; lia|lia|].
  assert (db_ok s2 /\ users s2 = users s1) as [Hs2 Hu2].
  { unfold IncrementSeatCount in Hi. rewrite (proj2 (String.eqb_neq t "")), Hp in Hi by done. cbn [negb] in Hi.
    change s2 with (Ok (E := berror) tt, s2).2. rewrite <- Hi.
    apply (BeginFunc_ind (fun s => db_ok s /\ users s = users s1)); [done|]. intros a s'.
    destruct (negb _); [done|]. intros (sa & Hu & (sb & ->%add_event_ok & [= _ <-])%rbind_ok)%rbind_ok.
    apply upsert_users in Hu as Hua. apply upsert_quota_ok in Hu as [Hsa _]; [|done..].
    split; [by apply with_events_ok|done]. }
  assert (active_seats t s2 = active_seats t s) as Ea by (unfold active_seats; by rewrite Hu2, Hu1).
  destruct (sync_seats_row (svc l) t q2 s2 Hp Ht Hs2 Hq2) as (s3 & q3 & Hi3 & Hq3 & E4 & E5 & E6); [by rewrite Ea|].
  exists s2, s3, q3. rewrite <- Ea. split_and!; [done| |done|done|rewrite E5, E2; done|rewrite E6, E3; done].
  unfold CheckSeatAvailable, GetQuota. rewrite (proj2 (String.eqb_neq t "")), Hp by done. cbn [negb query].
  by rewrite Hq2, E2, E1.
Qed.

(** ** Examples *)
Module LifecycleExamples.
(** 2024-01-31 plus a month runs over to 2024-03-02. *)
Definition jan31 : Z := days_from_civil 2024 1 31 * Day.

Lemma add_month_runs_over : AddMonth jan31 = days_from_civil 2024 3 2 * Day.
Proof. vm_compute. reflexivity. Qed.

Definition lc : Lifecycle :=
  mkLifecycle BillingExamples.cfg (Some (mkStripe (Some "cus_1"%string) (Some "sub_1"%string))) {["core"%string := "price_c"%string; "pro"%string := "price_p"%string]}.

(** Whole days without the rounding of float64. *)
Definition days (d : Z) : Z := Z.quot d Day.

Lemma days_mono a b : a <= b -> days a <= days b.
Proof. intros H. apply Z.quot_le_mono; [done|]. done. Qed.

Definition tenant0 : DB := with_tenants {["acme"%string := mkTenant "core" "active"]} empty_db.

Lemma tenant0_ok : db_ok tenant0.
Proof. split; intros t q; simpl; by rewrite lookup_empty. Qed.

(** Provisioned in January, changed on the 10th day. *)
Definition tenant1 : DB := (OnTenantCreated lc Delivered Delivered jan31 "acme" "core" tenant0).2.
Definition sub1 : Subscription := mkSub "core" "active" (Some "sub_1"%string) (Some "cus_1"%string) jan31 (AddMonth jan31).

Definition failure (inv : string) (day : Z) : DunningEvent :=
  mkDunningEvent "acme" inv "cus_1" 600 "usd" (Some (day * Day)).

Definition failed_twice : DB :=
  (Handle true Delivered Delivered 0 (failure "in_2" 5) (Handle true Delivered Delivered 0 (failure "in_1" 1) tenant0).2).2.
End LifecycleExamples.

Import LifecycleExamples.

Lemma proration_fair_witness :
  prorate days 600 300 4 jan31 (AddMonth jan31) (jan31 + 10 * Day) = - prorate days 300 600 4 jan31 (AddMonth jan31) (jan31 + 10 * Day) /\
  0 <= prorate days 300 600 4 jan31 (AddMonth jan31) (jan31 + 20 * Day) /\
  prorate days 300 600 4 jan31 (AddMonth jan31) (jan31 + 20 * Day) <= prorate days 300 600 4 jan31 (AddMonth jan31) (jan31 + 10 * Day) /\
  prorate days 300 600 4 jan31 (AddMonth jan31) (jan31 + 10 * Day) <= (600 - 300) * 4 /\
  prorate days 300 600 4 jan31 (AddMonth jan31) jan31 = (600 - 300) * 4.
Proof.
  apply (proration_fair days days_mono eq_refl 300 600 4 jan31 (AddMonth jan31) (jan31 + 10 * Day) (jan31 + 20 * Day));
    vm_compute; discriminate.
Defined.

Lemma preview_is_charge_witness :
  let wall := jan31 + 10 * Day in
  let '(r, calls, s') := OnPlanChanged days lc Delivered Delivered Delivered Delivered wall "acme" "core" "pro" tenant1 in
  r = Ok tt /\
  events s' = events tenant1 ++ [mkEvent "acme" "plan_prorated" None None (Some 0) (MetaProrated "core" "pro" 0) (now tenant1)] /\
  subscriptions s' !! "acme"%string = Some (mkSub "pro" "active" (Some "sub_1"%string) (Some "cus_1"%string) jan31 (AddMonth jan31)) /\
  quotas s' = quotas tenant1 /\
  forall c, c ∈ calls -> c = UpdateSubscription "sub_1" "pro" "price_p".
Proof.
  apply (preview_is_charge days lc (jan31 + 10 * Day) "acme" "pro" sub1 0 tenant1);
    [reflexivity | eexists; reflexivity | vm_compute; reflexivity | right; left | vm_compute; reflexivity
    | left; discriminate | vm_compute; reflexivity | reflexivity].
Defined.

Lemma dunning_spec_witness :
  let '(r, fx, s') := Handle true Delivered Delivered 0 (failure "in_3" 9) failed_twice in
  r = Ok tt /\
  if recorded failed_twice "in_3" then fx = [] /\ s' = failed_twice
  else
    dunning s' = dunning failed_twice ++ [row_of 0 (failure "in_3" 9)] /\
    NotifyPaymentFailed "acme" "in_3" 600 "usd" ∈ fx /\
    tenants s' = (if 3 <=? failures_with 0 (failure "in_3" 9) failed_twice
                  then <["acme"%string := mkTenant "core" "suspended"]> (tenants failed_twice) else tenants failed_twice).
Proof.
  apply (dunning_spec 0 (failure "in_3" 9) failed_twice (mkTenant "core" "active")); [discriminate | vm_compute; reflexivity].
Defined.

Lemma lost_suspension_witness :
  let '(r1, _, s1) := Handle true Delivered RequestLost 0 (failure "in_3" 9) failed_twice in
  let '(r2, fx2, s2) := Handle true Delivered Delivered 0 (failure "in_3" 9) s1 in
  r1 = Err ErrStore /\ r2 = Ok tt /\ fx2 = [] /\ tenants s2 !! "acme"%string = Some (mkTenant "core" "active").
Proof.
  apply (lost_suspension 0 0 (failure "in_3" 9) failed_twice (mkTenant "core" "active"));
    [discriminate | vm_compute; reflexivity | vm_compute; reflexivity | vm_compute; discriminate].
Defined.

Lemma fresh_tenant_one_seat_witness :
  CheckSeatAvailable (svc lc) Delivered "acme" tenant1 = Ok tt /\
  exists s2 s3 q, OnSeatAdded lc Delivered "acme" tenant1 = (Ok tt, s2) /\
    CheckSeatAvailable (svc lc) Delivered "acme" s2 = Err ErrQuotaExceeded /\
    SyncSeatCount (svc lc) Delivered Delivered "acme" s2 = (Ok (active_seats "acme" tenant0), s3) /\
    quotas s3 !! "acme"%string = Some q /\ SeatLimit q = 1 /\ StorageLimitBytes q = 5 * 1024 * 1024 * 1024.
Proof.
  apply (fresh_tenant_one_seat lc Delivered jan31 "acme" "core" (mkTenant "core" "active") tenant0 (5 * 1024 * 1024 * 1024));
    [reflexivity | discriminate | left | apply tenant0_ok | reflexivity | reflexivity | reflexivity
    | vm_compute; split; [reflexivity|discriminate] | reflexivity].
Defined.
