(* ===== verification/Deliverability.v ===== *)
(** * Deliverability ([internal/deliverability])

    Suppression list, bounce processing, send limits, warm-up ramp and IP
    pools.  The control-plane tables are one record, the send counters are in
    Valkey.  Addresses are ASCII text. *)

From S2P Require Import Prelude Text Valkey Calendar.

Local Open Scope Z_scope.
Local Open Scope go_scope.

(** ** Tables *)
Definition BounceHard : string := "hard".
Definition BounceSoft : string := "soft".
Definition BounceComplaint : string := "complaint".

Definition ReasonHardBounce : string := "hard_bounce".
Definition ReasonComplaint : string := "complaint".
Definition ReasonManual : string := "manual".
Definition ReasonUnsubscribe : string := "unsubscribe".

Record Suppression := mkSuppression {
  sp_ID : string; sp_Reason : string; sp_Source : string; sp_CreatedAt : Z;
}.

Record BounceEvent := mkBounce {
  be_ID : string; be_TenantID : string; be_Email : string; BounceType : string; DSNCode : string;
  Diagnostic : string; MessageID : string; be_CreatedAt : Z;
}.

Definition PoolSystemTransactional : string := "system_transactional".
Definition PoolMatureTrusted : string := "mature_trusted".
Definition PoolNewWarming : string := "new_warming".
Definition PoolRestricted : string := "restricted".
Definition PoolDedicatedEnterprise : string := "dedicated_enterprise".

Record IPPool := mkPool { p_ID : string; Name : string; PoolType : string; p_Description : string; p_CreatedAt : Z }.

Record IPAddress := mkIP {
  ip_ID : string; ip_PoolID : string; Address : string; ReverseDNS : string;
  ReputationScore : Z; DailyVolume : Z; WarmupDay : Z; ip_Status : string;
}.

Record TenantPoolAssignment := mkAssignment { a_TenantID : string; a_PoolID : string; Priority : Z }.

(** Pools, addresses and assignments in order of insertion. *)
Record DB := mkDB {
  tenants : gmap string (string * Z);                  (* plan, created_at *)
  suppression_list : gmap (string * string) Suppression;
  bounce_events : list BounceEvent;
  send_limits : gmap string (Z * Z);                   (* daily, hourly *)
  ip_pools : list IPPool;
  ip_addresses : list IPAddress;
  assignments : list TenantPoolAssignment;
  now : Z;
}.

Definition with_suppression x s := mkDB (tenants s) x (bounce_events s) (send_limits s) (ip_pools s) (ip_addresses s) (assignments s) (now s).
Definition with_bounces x s := mkDB (tenants s) (suppression_list s) x (send_limits s) (ip_pools s) (ip_addresses s) (assignments s) (now s).
Definition with_limits x s := mkDB (tenants s) (suppression_list s) (bounce_events s) x (ip_pools s) (ip_addresses s) (assignments s) (now s).
Definition with_pools x s := mkDB (tenants s) (suppression_list s) (bounce_events s) (send_limits s) x (ip_addresses s) (assignments s) (now s).
Definition with_addresses x s := mkDB (tenants s) (suppression_list s) (bounce_events s) (send_limits s) (ip_pools s) x (assignments s) (now s).
Definition with_assignments x s := mkDB (tenants s) (suppression_list s) (bounce_events s) (send_limits s) (ip_pools s) (ip_addresses s) x (now s).

Inductive derror := ErrNotFound | ErrInvalidInput | ErrSuppressed | ErrSendLimitExceeded | ErrStore | ErrParse.

Definition query {A} (d : delivery) (f : DB -> result derror A) (s : DB) : result derror A :=
  match d with Delivered => f s | _ => Err ErrStore end.

Definition known_tenant (t : string) (s : DB) : bool := bool_decide (is_Some (tenants s !! t)).
Definition fits32 (z : Z) : bool := (- 2 ^ 31 <=? z) && (z <? 2 ^ 31).

(** ** Suppression *)
Definition normalizeEmail (e : string) : string :=
  String.string_of_list_ascii (ascii_lower <$> trim (String.list_ascii_of_string e)).

Definition isValidReason (r : string) : bool :=
  bool_decide (r ∈ [ReasonHardBounce; ReasonComplaint; ReasonManual; ReasonUnsubscribe]).

Definition AddSuppression (pool : bool) (d : delivery) (id t email reason source : string) (s : DB)
    : result derror Suppression * DB :=
  if String.eqb t "" || String.eqb email "" then (Err ErrInvalidInput, s)
  else if negb (isValidReason reason) then (Err ErrInvalidInput, s)
  else
    let email := normalizeEmail email in
    if negb pool then (Err ErrStore, s)
    else BeginFunc ErrStore d (fun s =>
      if negb (known_tenant t s) then Err ErrStore else
      let row := match suppression_list s !! (t, email) with
                 | Some old => mkSuppression (sp_ID old) reason source (sp_CreatedAt old)
                 | None => mkSuppression id reason source (now s)
                 end in
      Ok (row, with_suppression (<[(t, email) := row]> (suppression_list s)) s)) s.

Definition RemoveSuppression (pool : bool) (d : delivery) (t email : string) (s : DB) : result derror unit * DB :=
  if String.eqb t "" || String.eqb email "" then (Err ErrInvalidInput, s)
  else
    let email := normalizeEmail email in
    if negb pool then (Err ErrNotFound, s)
    else
      let '(r, s') := BeginFunc ErrStore d (fun s =>
        Ok (bool_decide (is_Some (suppression_list s !! (t, email))),
            with_suppression (delete (t, email) (suppression_list s)) s)) s in
      (match r with Ok true => Ok tt | Ok false => Err ErrNotFound | Err e => Err e end, s').

Definition IsSuppressed (pool : bool) (d : delivery) (t email : string) (s : DB) : result derror bool :=
  if String.eqb t "" || String.eqb email "" then Err ErrInvalidInput
  else if negb pool then Ok false
  else query d (fun s => Ok (bool_decide (is_Some (suppression_list s !! (t, normalizeEmail email))))) s.

Definition CheckRecipient (pool : bool) (d : delivery) (t recipient : string) (s : DB) : result derror unit :=
  let? b := IsSuppressed pool d t recipient s in
  if b : bool then Err ErrSuppressed else Ok tt.

(** ** Bounces *)
Record BounceProcessor := mkProcessor { bp_pool : bool; softEscalateCount : Z; softEscalateWin : Z }.

Definition ShouldEscalateSoft (b : BounceProcessor) (recent : Z) : bool := softEscalateCount b <=? recent.

Definition soft_since (t email : string) (since : Z) (l : list BounceEvent) : Z :=
  Z.of_nat (length (filter (fun e => be_TenantID e = t /\ be_Email e = email /\ BounceType e = BounceSoft
                                     /\ since <= be_CreatedAt e) l)).

(** [wall] is the clock of the process, [d1] and [d2] the two transactions. *)
Definition ProcessBounce (b : BounceProcessor) (d1 d2 : delivery) (wall : Z) (id sid t : string) (evt : BounceEvent) (s : DB)
    : result derror BounceEvent * DB :=
  if String.eqb t "" || String.eqb (be_Email evt) "" then (Err ErrInvalidInput, s)
  else if negb (bool_decide (BounceType evt ∈ [BounceHard; BounceSoft; BounceComplaint])) then (Err ErrInvalidInput, s)
  else
    let email := normalizeEmail (be_Email evt) in
    let '(r, s1) :=
      if negb (bp_pool b)
      then (Ok (mkBounce (be_ID evt) (be_TenantID evt) email (BounceType evt) (DSNCode evt) (Diagnostic evt)
                  (MessageID evt) (be_CreatedAt evt), 0), s)
      else BeginFunc ErrStore d1 (fun s =>
        if negb (known_tenant t s) then Err ErrStore else
        let row := mkBounce id t email (BounceType evt) (DSNCode evt) (Diagnostic evt) (MessageID evt) (now s) in
        let s := with_bounces (bounce_events s ++ [row]) s in
        Ok ((row, if String.eqb (BounceType evt) BounceSoft
                  then soft_since t email (wall - softEscalateWin b) (bounce_events s) else 0), s)) s in
    match r with
    | Err e => (Err e, s1)
    | Ok (row, recent) =>
        let add reason source := (AddSuppression (bp_pool b) d2 sid t (be_Email row) reason source s1).2 in
        (Ok row,
         if String.eqb (BounceType row) BounceHard then add ReasonHardBounce "bounce-processor"%string
         else if String.eqb (BounceType row) BounceComplaint then add ReasonComplaint "bounce-processor"%string
         else if ShouldEscalateSoft b recent then add ReasonHardBounce "bounce-processor-soft-escalation"%string
         else s1)
    end.

(** ** Send limits *)
Record SendLimitService := mkSendLimit { sl_pool : bool; valkey : bool; coreDaily : Z; proDaily : Z; privacyDaily : Z }.

Record SendLimit := mkLimit { sl_TenantID : string; sl_Plan : string; DailyLimit : Z; HourlyLimit : Z }.

Definition PlanDailyLimit (c : SendLimitService) (plan : string) : result derror Z :=
  if String.eqb plan "core" then Ok (coreDaily c)
  else if String.eqb plan "pro" then Ok (proDaily c)
  else if String.eqb plan "privacy" then Ok (privacyDaily c)
  else Err ErrInvalidInput.

Definition HourlyFromDaily (daily : Z) : Z :=
  if daily <=? 0 then 0 else let h := Z.quot daily 10 in if h <=? 0 then 1 else h.

Definition ok_or_zero (r : result derror Z) : Z := match r with Ok z => z | Err _ => 0 end.

Definition GetLimit (c : SendLimitService) (d : delivery) (t : string) (s : DB) : result derror SendLimit :=
  if String.eqb t "" then Err ErrInvalidInput
  else if negb (sl_pool c) then Ok (mkLimit t "" (proDaily c) (HourlyFromDaily (proDaily c)))
  else
    let? r := query d (fun s =>
      match tenants s !! t with
      | None => Err ErrStore
      | Some (plan, _) => Ok (plan, default (0, 0) (send_limits s !! t))
      end) s in
    let '(plan, (daily, hourly)) := r in
    let daily := if daily =? 0 then ok_or_zero (PlanDailyLimit c plan) else daily in
    let hourly := if hourly =? 0 then HourlyFromDaily daily else hourly in
    Ok (mkLimit t plan daily hourly).

Definition SetLimit (c : SendLimitService) (d : delivery) (t : string) (daily hourly : Z) (s : DB) : result derror unit * DB :=
  if String.eqb t "" then (Err ErrInvalidInput, s)
  else if (daily <? 0) || (hourly <? 0) then (Err ErrInvalidInput, s)
  else if negb (sl_pool c) then (Ok tt, s)
  else BeginFunc ErrStore d (fun s =>
    if known_tenant t s && fits32 daily && fits32 hourly
    then Ok (tt, with_limits (<[t := (daily, hourly)]> (send_limits s)) s) else Err ErrStore) s.

Definition dailyKey (t : string) (day : Z) : string := "kmail:sends:daily:" +:+ t +:+ ":" +:+ dateText day.
Definition hourlyKey (t : string) (at_ : Z) : string := "kmail:sends:hourly:" +:+ t +:+ ":" +:+ hourText at_.

Definition parseDigit (r : result derror Z) (c : Ascii.ascii) : result derror Z :=
  let? n := r in
  let k := Z.of_N (Ascii.N_of_ascii c) in
  if (k <? 48) || (57 <? k) then Err ErrParse else Ok (wrap64 (wrap64 (n * 10) + (k - 48))).

Definition parseInt64 (s : string) : result derror Z :=
  if String.eqb s "" then Err ErrParse else foldl parseDigit (Ok 0) (String.list_ascii_of_string s).

Section counters.
Context {S : Type} `{VC : ValkeyCounter S}.

(** The transaction pipeline of a send: both counters and their expiries. *)
Definition count_send (sv : Z) (dayKey hourKey : string) (s : S) : (Z * Z) * S :=
  let '(d, s) := vk_incr sv dayKey s in
  let s := vk_expirenx sv dayKey (Milliseconds (9 * 24 * Hour)) s in
  let '(h, s) := vk_incr sv hourKey s in
  let s := vk_expirenx sv hourKey (Milliseconds (2 * Hour)) s in
  ((d, h), s).

Definition CheckSendLimit (c : SendLimitService) (d1 d2 : delivery) (sv wall : Z) (t : string) (db : DB) (s : S)
    : result derror unit * S :=
  if String.eqb t "" then (Err ErrInvalidInput, s)
  else match GetLimit c d1 t db with
  | Err e => (Err e, s)
  | Ok limit =>
      if negb (valkey c) then (Ok tt, s)
      else match remote d2 (count_send sv (dailyKey t wall) (hourlyKey t wall)) s with
      | (None, s') => (Ok tt, s')
      | (Some (dn, hn), s') =>
          if (0 <? DailyLimit limit) && (DailyLimit limit <? dn) then (Err ErrSendLimitExceeded, s')
          else if (0 <? HourlyLimit limit) && (HourlyLimit limit <? hn) then (Err ErrSendLimitExceeded, s')
          else (Ok tt, s')
      end
  end.

Definition GetDailyVolume (c : SendLimitService) (d : delivery) (sv : Z) (t : string) (day : Z) (s : S) : result derror Z :=
  if negb (valkey c) || String.eqb t "" then Ok 0
  else match d with Delivered => Ok (default 0 (vk_get sv s (dailyKey t day))) | _ => Err ErrStore end.
End counters.

(** ** Warm-up *)
Definition warmupAnchors : list (Z * Z) := [(1, 50); (2, 100); (5, 500); (10, 1000); (20, 2000)].

(** The last anchor of the leading ones that are not past [day]. *)
Fixpoint anchor_for (day prev : Z) (l : list (Z * Z)) : Z :=
  match l with
  | [] => prev
  | (d, e) :: l => if day <? d then prev else anchor_for day e l
  end.

Definition WarmupCapForDay (day planCap warmupDays : Z) : Z :=
  if (day <=? 0) || (planCap <=? 0) then 0
  else
    let warmupDays := if warmupDays <=? 0 then 30 else warmupDays in
    if warmupDays <=? day then planCap
    else
      let cap := anchor_for day 0 warmupAnchors in
      let cap := if planCap <? cap then planCap else cap in
      if cap =? 0 then 50 else cap.

Definition WarmupRamp (planCap warmupDays : Z) : gmap Z Z :=
  list_to_map ((fun d => (d, WarmupCapForDay d planCap warmupDays)) <$> seqZ 1 warmupDays).

(** [wholeDays] is [int(d.Hours()/24)]. *)
Definition GetCurrentLimit (wholeDays : Z -> Z) (c : SendLimitService) (warmupDays : Z) (d : delivery) (wall : Z) (t : string) (s : DB)
    : result derror Z :=
  if String.eqb t "" then Err ErrInvalidInput
  else if negb (sl_pool c) then Err ErrNotFound
  else
    let? r := query d (fun s => match tenants s !! t with Some x => Ok x | None => Err ErrNotFound end) s in
    let '(plan, createdAt) := r in
    let? planCap := PlanDailyLimit c plan in
    Ok (WarmupCapForDay (wholeDays (wall - createdAt) + 1) planCap warmupDays).

(** ** IP pools *)
Definition isValidPoolType (pt : string) : bool :=
  bool_decide (pt ∈ [PoolSystemTransactional; PoolMatureTrusted; PoolNewWarming; PoolRestricted; PoolDedicatedEnterprise]).

Definition CreatePool (pool : bool) (d : delivery) (id name ptype description : string) (s : DB) : result derror IPPool * DB :=
  if String.eqb name "" || String.eqb ptype "" then (Err ErrInvalidInput, s)
  else if negb (isValidPoolType ptype) then (Err ErrInvalidInput, s)
  else if negb pool then (Err ErrStore, s)
  else BeginFunc ErrStore d (fun s =>
    if existsb (fun p => String.eqb (Name p) name) (ip_pools s) then Err ErrStore
    else let p := mkPool id name ptype description (now s) in Ok (p, with_pools (ip_pools s ++ [p]) s)) s.

Definition AddIP (pool : bool) (d : delivery) (id poolID address reverseDNS : string) (s : DB) : result derror IPAddress * DB :=
  if String.eqb poolID "" || String.eqb address "" then (Err ErrInvalidInput, s)
  else if negb pool then (Err ErrStore, s)
  else BeginFunc ErrStore d (fun s =>
    if negb (existsb (fun p => String.eqb (p_ID p) poolID) (ip_pools s))
       || existsb (fun i => String.eqb (Address i) address) (ip_addresses s) then Err ErrStore
    else let i := mkIP id poolID address reverseDNS 0 0 0 "warming" in
         Ok (i, with_addresses (ip_addresses s ++ [i]) s)) s.

Definition find_pool (ptype : string) (s : DB) : option IPPool :=
  snd <$> list_find (fun p => PoolType p = ptype) (ip_pools s).

Definition AssignTenantPool (pool : bool) (d : delivery) (t ptype : string) (priority : Z) (s : DB) : result derror unit * DB :=
  if String.eqb t "" || String.eqb ptype "" then (Err ErrInvalidInput, s)
  else if negb (isValidPoolType ptype) then (Err ErrInvalidInput, s)
  else
    let priority := if priority <=? 0 then 100 else priority in
    if negb pool then (Ok tt, s)
    else BeginFunc ErrStore d (fun s =>
      match find_pool ptype s with
      | None => Err ErrNotFound
      | Some p =>
          if known_tenant t s && fits32 priority then
            let same a := String.eqb (a_TenantID a) t && String.eqb (a_PoolID a) (p_ID p) in
            Ok (tt, with_assignments
              (if existsb same (assignments s)
               then (fun a => if same a then mkAssignment t (p_ID p) priority else a) <$> assignments s
               else assignments s ++ [mkAssignment t (p_ID p) priority]) s)
          else Err ErrStore
      end) s.

(** The row of lowest priority; among equals the database may return any, here
    the oldest. *)
Definition lowest (l : list TenantPoolAssignment) : option TenantPoolAssignment := least Priority l.

Definition GetTenantPool (pool : bool) (d : delivery) (t : string) (s : DB) : result derror TenantPoolAssignment :=
  if String.eqb t "" then Err ErrInvalidInput
  else if negb pool then Err ErrNotFound
  else query d (fun s =>
    match lowest (filter (fun a => a_TenantID a = t) (assignments s)) with
    | Some a => Ok a
    | None => Err ErrNotFound
    end) s.

Definition better (ip best : IPAddress) : bool :=
  (ReputationScore best <? ReputationScore ip)
  || ((ReputationScore ip =? ReputationScore best) && (DailyVolume ip <? DailyVolume best)).

Definition selectBestIP (ips : list IPAddress) : option IPAddress :=
  foldl (fun best ip =>
    if negb (String.eqb (ip_Status ip) "active") then best
    else match best with
         | None => Some ip
         | Some b => if better ip b then Some ip else best
         end) None ips.

Section ips.
(** [ORDER BY reputation_score DESC, address]. *)
Variable order_ips : list IPAddress -> list IPAddress.

Definition ListIPs (pool : bool) (d : delivery) (poolID : string) (s : DB) : result derror (list IPAddress) :=
  if String.eqb poolID "" then Err ErrInvalidInput
  else if negb pool then Ok []
  else query d (fun s => Ok (order_ips (filter (fun i => ip_PoolID i = poolID) (ip_addresses s)))) s.

Definition SelectSendingIP (pool : bool) (d1 d2 : delivery) (t : string) (s : DB) : result derror IPAddress :=
  if String.eqb t "" then Err ErrInvalidInput else
  let? a := GetTenantPool pool d1 t s in
  let? ips := ListIPs pool d2 (a_PoolID a) s in
  match selectBestIP ips with Some ip => Ok ip | None => Err ErrNotFound end.
End ips.

(** ** Normal forms of addresses *)
Lemma normalizeEmail_idem e : normalizeEmail (normalizeEmail e) = normalizeEmail e.
Proof.
  unfold normalizeEmail. rewrite String.list_ascii_of_string_of_list_ascii. f_equal.
  set (l := trim (String.list_ascii_of_string e)).
  assert (trim l = l) as Hl by (apply trim_idem).
  unfold trim at 1. rewrite trim_left_lower, <- fmap_reverse, trim_left_lower, <- fmap_reverse, <- list_fmap_compose.
  fold (trim l). rewrite Hl. apply list_fmap_ext. intros i c _. apply lower_lower.
Qed.

(** ** Suppression *)
Lemma IsSuppressed_delivered t e s :
  t <> ""%string -> e <> ""%string ->
  IsSuppressed true Delivered t e s = Ok (bool_decide (is_Some (suppression_list s !! (t, normalizeEmail e)))).
Proof.
  intros Ht He. unfold IsSuppressed. by rewrite (proj2 (String.eqb_neq t "")), (proj2 (String.eqb_neq e "")) by done.
Qed.

(** Suppression is by normal form.  Once an address is suppressed, the
    pre-send hook refuses every spelling of it and answers as before for other
    addresses and tenants; removing any spelling lifts it. *)
Theorem suppression_round_trip id t e e' reason src row s s1 s2 :
  AddSuppression true Delivered id t e reason src s = (Ok row, s1) ->
  e' <> ""%string -> normalizeEmail e' = normalizeEmail e ->
  RemoveSuppression true Delivered t e' s1 = (Ok tt, s2) ->
  CheckRecipient true Delivered t e' s1 = Err ErrSuppressed /\
  CheckRecipient true Delivered t e' s2 = Ok tt /\
  (forall t' x, t' <> ""%string -> x <> ""%string -> (t', normalizeEmail x) <> (t, normalizeEmail e) ->
    CheckRecipient true Delivered t' x s1 = CheckRecipient true Delivered t' x s /\
    CheckRecipient true Delivered t' x s2 = CheckRecipient true Delivered t' x s).
Proof.
  unfold AddSuppression, RemoveSuppression. intros Ha He' Hn Hr.
  destruct (String.eqb_spec t ""); [done|]. destruct (String.eqb_spec e ""); [done|].
  cbn [orb] in Ha, Hr. destruct (negb (isValidReason reason)); [done|].
  cbn [negb] in Ha, Hr. unfold BeginFunc in Ha. destruct (negb (known_tenant t s)); [done|]. injection Ha as <- <-.
  rewrite (proj2 (String.eqb_neq e' "")), Hn in Hr by done. cbn in Hr. rewrite lookup_insert_eq in Hr.
  injection Hr as <-. unfold CheckRecipient. rewrite !IsSuppressed_delivered by done. cbn. rewrite Hn.
  rewrite lookup_insert_eq, bool_decide_true, delete_insert_eq, lookup_delete_eq, bool_decide_false by (done || by intros []).
  split_and!; [done..|]. intros t' x Ht' Hx Hne. rewrite !IsSuppressed_delivered by done. cbn.
  by rewrite lookup_insert_ne, lookup_delete_ne by done.
Qed.

(** Soft bounces of the address in the window, the new one included. *)
Definition soft_with (b : BounceProcessor) (wall : Z) (t : string) (evt row : BounceEvent) (s : DB) : Z :=
  soft_since t (normalizeEmail (be_Email evt)) (wall - softEscalateWin b) (bounce_events s ++ [row]).

Lemma AddSuppression_delivered id t e reason src s :
  t <> ""%string -> e <> ""%string -> isValidReason reason = true -> known_tenant t s = true ->
  is_Some (suppression_list (AddSuppression true Delivered id t e reason src s).2 !! (t, normalizeEmail e)).
Proof.
  intros Ht He Hr Hk. unfold AddSuppression.
  rewrite (proj2 (String.eqb_neq t "")), (proj2 (String.eqb_neq e "")), Hr by done. cbn. rewrite Hk. cbn.
  rewrite lookup_insert_eq. eauto.
Qed.

(** The bounce policy.  A recorded bounce suppresses its address exactly
    when it is hard, a complaint, or a soft one that brings the soft bounces
    within the window to the threshold; otherwise the list is untouched.  An
    address whose normal form is empty (blanks only) is the exception. *)
Theorem bounce_policy b wall id sid t evt s :
  bp_pool b = true -> t <> ""%string -> normalizeEmail (be_Email evt) <> ""%string -> known_tenant t s = true ->
  BounceType evt ∈ [BounceHard; BounceSoft; BounceComplaint] ->
  exists row s', ProcessBounce b Delivered Delivered wall id sid t evt s = (Ok row, s') /\
    bounce_events s' = bounce_events s ++ [row] /\ be_Email row = normalizeEmail (be_Email evt) /\
    if bool_decide (BounceType evt <> BounceSoft \/ softEscalateCount b <= soft_with b wall t evt row s)
    then is_Some (suppression_list s' !! (t, normalizeEmail (be_Email evt)))
    else suppression_list s' = suppression_list s.
Proof.
  intros Hp Ht Hne Hk Hty. assert (be_Email evt <> ""%string) as He by (intros E; by rewrite E in Hne).
  unfold ProcessBounce. rewrite (proj2 (String.eqb_neq t "")), (proj2 (String.eqb_neq (be_Email evt) "")) by done.
  cbn [orb]. rewrite bool_decide_true by done. rewrite Hp. cbn [negb]. unfold BeginFunc at 1. rewrite Hk. cbn [negb].
  set (e := normalizeEmail (be_Email evt)) in *.
  set (row := mkBounce id t e (BounceType evt) (DSNCode evt) (Diagnostic evt) (MessageID evt) (now s)).
  set (s1 := with_bounces (bounce_events s ++ [row]) s). cbn [BounceType be_Email row].
  assert (forall reason src, isValidReason reason = true ->
    let s' := (AddSuppression true Delivered sid t e reason src s1).2 in
    bounce_events s' = bounce_events s ++ [row] /\ is_Some (suppression_list s' !! (t, e))) as Hadd.
  { intros reason src Hr. split.
    - unfold AddSuppression. rewrite (proj2 (String.eqb_neq t "")), (proj2 (String.eqb_neq e "")), Hr by done.
      cbn [orb negb]. unfold BeginFunc. change (known_tenant t s1) with (known_tenant t s). by rewrite Hk.
    - pose proof (AddSuppression_delivered sid t e reason src s1 Ht Hne Hr Hk) as H.
      assert (normalizeEmail e = e) as Hid by apply normalizeEmail_idem. by rewrite Hid in H. }
  exists row. eexists. split; [reflexivity|].
  rewrite !elem_of_cons, elem_of_nil in Hty. destruct Hty as [Hty|[Hty|[Hty|[]]]]; rewrite Hty.
  - destruct (Hadd ReasonHardBounce "bounce-processor"%string eq_refl) as [H1 H2].
    rewrite bool_decide_true by (by left). cbn. split_and!; done.
  - change (String.eqb BounceSoft BounceHard) with false. change (String.eqb BounceSoft BounceComplaint) with false.
    change (String.eqb BounceSoft BounceSoft) with true. cbn [bounce_events s1 with_bounces].
    change (soft_since t e (wall - softEscalateWin b) (bounce_events s ++ [row])) with (soft_with b wall t evt row s).
    unfold ShouldEscalateSoft. destruct (Z.leb_spec (softEscalateCount b) (soft_with b wall t evt row s)).
    + destruct (Hadd ReasonHardBounce "bounce-processor-soft-escalation"%string eq_refl) as [H1 H2].
      rewrite bool_decide_true by (by right). cbn. split_and!; done.
    + rewrite bool_decide_false by (intros [?|?]; [done|lia]). split_and!; done.
  - destruct (Hadd ReasonComplaint "bounce-processor"%string eq_refl) as [H1 H2].
    rewrite bool_decide_true by (by left). cbn. split_and!; done.
Qed.

Module DeliverabilityExamples.
Definition db0 : DB := mkDB {["t" := ("core"%string, 0)]} ∅ [] ∅ [] [] [] 0.
Definition db1 : DB := mkDB {["t" := ("core"%string, 0)]} {[("t", "a@x.io")%string := mkSuppression "i" "manual" "ops" 0]} [] ∅ [] [] [] 0.
Definition soft : BounceEvent := mkBounce "" "" " A@x.io" "soft" "4.2.2" "" "" 0.
End DeliverabilityExamples.

Lemma suppression_round_trip_witness :
  CheckRecipient true Delivered "t" "a@X.io " DeliverabilityExamples.db1 = Err ErrSuppressed.
Proof.
  apply (suppression_round_trip "i" "t" " A@x.io" "a@X.io " "manual" "ops" (mkSuppression "i" "manual" "ops" 0)
    DeliverabilityExamples.db0 DeliverabilityExamples.db1 DeliverabilityExamples.db0);
    [vm_compute; reflexivity | discriminate | vm_compute; reflexivity | vm_compute; reflexivity].
Defined.

Lemma bounce_policy_witness :
  exists row s', ProcessBounce (mkProcessor true 1 Day) Delivered Delivered 5 "b" "i" "t" DeliverabilityExamples.soft DeliverabilityExamples.db0 = (Ok row, s').
Proof.
  destruct (bounce_policy (mkProcessor true 1 Day) 5 "b" "i" "t" DeliverabilityExamples.soft DeliverabilityExamples.db0)
    as (row & s' & H & _); [reflexivity | discriminate | discriminate | vm_compute; reflexivity | | by exists row, s'].
  right. left.
Defined.

(** ** Send limits *)
Lemma dailyKey_same_day t a b : a / Day = b / Day -> dailyKey t a = dailyKey t b.
Proof. unfold dailyKey, dateText. by intros ->. Qed.

Lemma dailyKey_inj t t' a b :
  0 <= year a < 10000 -> 0 <= year b < 10000 -> dailyKey t a = dailyKey t' b -> t = t' /\ a / Day = b / Day.
Proof.
  unfold dailyKey. intros Ha Hb E. apply string_prefix_inj in E.
  apply string_suffix_inj in E as [-> E]; [|change (Datatypes.S (String.length (dateText a)) = Datatypes.S (String.length (dateText b))); by rewrite !dateText_length].
  apply string_prefix_inj in E. by apply dateText_inj in E.
Qed.

Lemma daily_hourly_ne t t' a b : dailyKey t a <> hourlyKey t' b.
Proof. by intros [=]. Qed.

Section send_limits.
Context {S : Type} `{VL : ValkeyLaws Z S} `{VC : !ValkeyCounter S} `{CL : !ValkeyCounterLaws S}.

Definition bump (ttl sv : Z) (e : option (ventry Z)) : option (ventry Z) :=
  Some (OStr (default 0 (as_int e) + 1), Some (default (sv + ttl) (expiry e))).

(** [INCR] and [EXPIRE NX] of one counter. *)
Lemma incr_expire_spec sv k ttl s :
  0 < ttl -> all_ints sv s ->
  let r := vk_incr sv k s in
  let s' := vk_expirenx sv k ttl r.2 in
  Some r.1 = as_int (bump ttl sv (vk_view s sv k)) /\ all_ints sv s' /\
  forall k', vk_view s' sv k' = on_key k k' (bump ttl sv (vk_view s sv k)) (vk_view s sv k').
Proof.
  intros Httl Hi. destruct (Hi k) as [n Hn]. cbn zeta.
  assert (forall k', vk_view (vk_expirenx sv k ttl (vk_incr sv k s).2) sv k' =
    on_key k k' (bump ttl sv (vk_view s sv k)) (vk_view s sv k')) as Hv.
  { intros k'. rewrite law_expirenx by done. rewrite !(law_incr_view _ _ _ n) by done.
    rewrite on_key_eq, on_key_on_key. unfold bump. rewrite Hn. cbn. by destruct (expiry (vk_view s sv k)). }
  split_and!; [|intros k'; rewrite Hv; unfold on_key; case_decide; [cbn; eauto|apply Hi]|done].
  rewrite (law_incr _ _ _ n) by done. unfold bump. by rewrite Hn.
Qed.

Definition dayTTL : Z := Milliseconds (9 * 24 * Hour).
Definition hourTTL : Z := Milliseconds (2 * Hour).

Lemma count_send_spec sv dk hk s :
  dk <> hk -> all_ints sv s ->
  let r := count_send sv dk hk s in
  Some r.1.1 = as_int (bump dayTTL sv (vk_view s sv dk)) /\
  Some r.1.2 = as_int (bump hourTTL sv (vk_view s sv hk)) /\
  all_ints sv r.2 /\
  forall k, vk_view r.2 sv k = on_key hk k (bump hourTTL sv (vk_view s sv hk))
                                 (on_key dk k (bump dayTTL sv (vk_view s sv dk)) (vk_view s sv k)).
Proof.
  intros Hne Hi. unfold count_send.
  destruct (incr_expire_spec sv dk dayTTL s ltac:(done) Hi) as (H1 & Hi1 & Hv1).
  destruct (vk_incr sv dk s) as [d s1]. cbn [fst snd] in *.
  fold dayTTL. destruct (incr_expire_spec sv hk hourTTL _ ltac:(done) Hi1) as (H2 & Hi2 & Hv2).
  fold hourTTL. destruct (vk_incr sv hk _) as [h s2]. cbn [fst snd] in *.
  rewrite Hv1, (on_key_ne dk hk) in H2, Hv2 by done.
  split_and!; [done..|]. intros k. by rewrite Hv2, Hv1.
Qed.

Implicit Types (s : S).

Definition held (sv : Z) (k : string) s : Z := default 0 (as_int (vk_view s sv k)).

Lemma CheckSendLimit_counts c d1 sv wall t db s lim :
  t <> ""%string -> valkey c = true -> GetLimit c d1 t db = Ok lim -> all_ints sv s ->
  let dn := held sv (dailyKey t wall) s + 1 in
  let hn := held sv (hourlyKey t wall) s + 1 in
  let over n m := 0 < n < m in
  CheckSendLimit c d1 Delivered sv wall t db s =
    (if decide (over (DailyLimit lim) dn \/ over (HourlyLimit lim) hn) then Err ErrSendLimitExceeded else Ok tt,
     (count_send sv (dailyKey t wall) (hourlyKey t wall) s).2).
Proof.
  intros Ht Hv HL Hi. unfold CheckSendLimit. rewrite (proj2 (String.eqb_neq t "")), HL, Hv by done. cbn [negb].
  destruct (count_send_spec sv (dailyKey t wall) (hourlyKey t wall) s (daily_hourly_ne _ _ _ _) Hi) as (H1 & H2 & _ & _).
  unfold remote. destruct (count_send sv _ _ s) as [[dn hn] s']. cbn [fst snd] in *. cbn [bump as_int] in H1, H2.
  injection H1 as ->. injection H2 as ->. fold (held sv (dailyKey t wall) s). fold (held sv (hourlyKey t wall) s).
  cbn zeta. destruct (Z.ltb_spec 0 (DailyLimit lim)), (Z.ltb_spec (DailyLimit lim) (held sv (dailyKey t wall) s + 1)),
    (Z.ltb_spec 0 (HourlyLimit lim)), (Z.ltb_spec (HourlyLimit lim) (held sv (hourlyKey t wall) s + 1));
    cbn [andb]; case_decide; try done; exfalso; lia.
Qed.

(** A call of the limiter: its tenant, the two clocks, the outcome of the two
    remote calls and the tables it reads. *)
Record send := mkSend {
  c_tenant : string; c_wall : Z; c_sv : Z; c_limits : delivery; c_count : delivery; c_db : DB;
}.

Definition send_step (c : SendLimitService) (x : send) s : result derror unit * S :=
  CheckSendLimit c (c_limits x) (c_count x) (c_sv x) (c_wall x) (c_tenant x) (c_db x) s.

Definition of_day (t : string) (day : Z) (x : send) : Prop :=
  c_tenant x = t /\ c_wall x / Day = day / Day.

#[export] Instance of_day_dec t day x : Decision (of_day t day x) := ltac:(unfold of_day; apply _).

(** The sends of [t] on [day] that the limiter counted and let through. *)
Fixpoint accepted (c : SendLimitService) (t : string) (day : Z) (l : list send) s : Z :=
  match l with
  | [] => 0
  | x :: l =>
      (if decide (of_day t day x /\ c_count x = Delivered /\ is_ok (send_step c x s).1) then 1 else 0)
      + accepted c t day l (send_step c x s).2
  end.

Fixpoint clocked (sv : Z) (l : list send) : Prop :=
  match l with [] => True | x :: l => sv <= c_sv x /\ clocked (c_sv x) l end.

(** [n] sends were let through, and the counter of the day records them until [B + dayTTL]. *)
Definition recorded (B : Z) (k : string) (n sv : Z) s : Prop :=
  all_ints sv s /\ 0 <= n /\
  (sv < B + dayTTL ->
   (n = 0 /\ vk_view s sv k = None) \/
   exists v d, vk_view s sv k = Some (OStr v, Some d) /\ n <= v /\ 0 <= v /\ B + dayTTL <= d).

Lemma recorded_later B k n sv sv' s : sv <= sv' -> recorded B k n sv s -> recorded B k n sv' s.
Proof.
  intros Hle (Hi & Hn & H). split_and!; [by eapply all_ints_later|done|]. intros Hb.
  rewrite (law_expire s sv sv' k Hle). destruct H as [[-> H]|(v & d & H & ? & ? & Hd)]; [lia|left; by rewrite H|].
  right. exists v, d. rewrite H. cbn. by rewrite (proj2 (Z.ltb_lt sv' d)) by lia.
Qed.

(** One counting of a send, of this or of another key. *)
Lemma recorded_count B k n sv dk hk s :
  dk <> hk -> k <> hk -> B <= sv -> recorded B k n sv s ->
  let r := count_send sv dk hk s in
  recorded B k n sv r.2 /\
  (dk = k -> sv < B + dayTTL -> n + 1 <= r.1.1 /\ recorded B k (n + 1) sv r.2).
Proof.
  intros Hne Hk Hb (Hi & Hn & H). cbn zeta.
  destruct (count_send_spec sv dk hk s Hne Hi) as (H1 & _ & Hi' & Hv).
  destruct (count_send sv dk hk s) as [[dn hn] s']. cbn [fst snd] in *.
  specialize (Hv k). rewrite (on_key_ne hk k) in Hv by done. destruct (decide (k = dk)) as [->|Hkd].
  - rewrite on_key_eq in Hv.
    assert (sv < B + dayTTL -> n + 1 <= dn /\ recorded B dk (n + 1) sv s') as Hr.
    { intros Hlt. destruct (H Hlt) as [[-> E]|(v & d & E & ? & ? & ?)]; rewrite E in H1, Hv; cbn -[dayTTL] in H1, Hv;
        injection H1 as ->; (split; [lia|]); (split_and!; [done|lia|]); intros _; right; do 2 eexists;
        (split_and!; [exact Hv|cbn -[dayTTL]; lia..]). }
    split; [|by intros _]. split_and!; [done|done|]. intros Hlt. destruct (Hr Hlt) as [_ (_ & _ & Hx)].
    destruct (Hx Hlt) as [[? _]|(v & d & ? & ? & ? & ?)]; [lia|]. right. exists v, d. split_and!; [done|lia..].
  - rewrite (on_key_ne dk k) in Hv by done. split; [|congruence]. split_and!; [done..|]. intros Hlt. rewrite Hv. by apply H.
Qed.

Definition in_range (a : Z) : Prop := 0 <= year a < 10000.

(** What a call does to the counters. *)
Lemma send_step_store c x s :
  (send_step c x s).2 = s \/
  (send_step c x s).2 = (count_send (c_sv x) (dailyKey (c_tenant x) (c_wall x)) (hourlyKey (c_tenant x) (c_wall x)) s).2.
Proof.
  unfold send_step, CheckSendLimit. destruct (String.eqb _ _); [by left|].
  destruct (GetLimit _ _ _ _); [|by left]. destruct (valkey c); [cbn [negb]|by left].
  unfold remote. destruct (c_count x); [|by left|by right].
  destruct (count_send _ _ _ _) as [[dn hn] s']. right. by repeat break_guard.
Qed.

Lemma send_step_recorded c t day B L n x s :
  valkey c = true -> in_range day -> in_range (c_wall x) -> B <= c_sv x -> recorded B (dailyKey t day) n (c_sv x) s ->
  (of_day t day x -> c_sv x < B + dayTTL /\
     forall lim, GetLimit c (c_limits x) t (c_db x) = Ok lim -> 0 < DailyLimit lim <= L) ->
  n <= L ->
  exists n', recorded B (dailyKey t day) n' (c_sv x) (send_step c x s).2 /\ n' <= L /\
    n + (if decide (of_day t day x /\ c_count x = Delivered /\ is_ok (send_step c x s).1) then 1 else 0) = n'.
Proof.
  intros Hv Hd Hw Hb Hr Hday HL.
  destruct (recorded_count B (dailyKey t day) n (c_sv x) (dailyKey (c_tenant x) (c_wall x)) (hourlyKey (c_tenant x) (c_wall x)) s
    (daily_hourly_ne _ _ _ _) (daily_hourly_ne _ _ _ _) Hb Hr) as [Hkeep Hinc].
  case_decide as Hacc.
  - destruct Hacc as ([Ht Hwd] & Hc & Hok). destruct (Hday (conj Ht Hwd)) as [Hlt Hlim]. rewrite Ht in *.
    destruct (Hinc (dailyKey_same_day t _ _ Hwd) Hlt) as [Hle Hrec]. exists (n + 1).
    unfold send_step, CheckSendLimit in *. rewrite Ht in *. rewrite Hv, Hc in *. cbn [negb] in *. unfold remote in *.
    destruct (String.eqb t ""); [done|].
    destruct (GetLimit c (c_limits x) t (c_db x)) as [lim|]; [|done]. specialize (Hlim _ eq_refl).
    destruct (count_send _ _ _ _) as [[dn hn] s']. cbn [fst snd] in *.
    destruct (Z.ltb_spec (DailyLimit lim) dn); [by rewrite (proj2 (Z.ltb_lt 0 (DailyLimit lim))) in Hok by lia|].
    rewrite andb_false_r in *. split_and!; [by repeat break_guard|lia|done].
  - exists n. split_and!; [|done|lia]. destruct (send_step_store c x s) as [->| ->]; done.
Qed.

Lemma accepted_recorded c t day B L l n sv s :
  valkey c = true -> in_range day -> B <= sv -> clocked sv l -> Forall (fun x => in_range (c_wall x)) l ->
  recorded B (dailyKey t day) n sv s -> n <= L ->
  Forall (fun x => of_day t day x -> c_sv x < B + dayTTL /\
     forall lim, GetLimit c (c_limits x) t (c_db x) = Ok lim -> 0 < DailyLimit lim <= L) l ->
  n + accepted c t day l s <= L.
Proof.
  intros Hv Hd. revert n sv s. induction l as [|x l IH]; intros n sv s Hb Hc Hw Hr Hn Hf; cbn [accepted]; [lia|].
  destruct Hc as [Hle Hc]. apply Forall_cons in Hw as [Hx Hw]. apply Forall_cons in Hf as [Hfx Hf].
  destruct (send_step_recorded c t day B L n x s) as (n' & Hr' & Hn' & <-);
    [done|done|done|lia|by eapply recorded_later|done|done|].
  rewrite Z.add_assoc. eapply IH; [|done|done|done|done|done]. lia.
Qed.

(** The daily cap.  Whatever the interleaving of the sends of all
    tenants, lost requests and replies and changes of the limits, the sends of
    a tenant that the limiter counts and lets through on one UTC day are at
    most the largest daily limit in force for it that day.  The server clock
    does not go back, the sends of that day happen within the nine days the
    counter lives, and the counters are not otherwise written. *)
Theorem daily_ceiling c t day L l sv s :
  valkey c = true -> in_range day -> 0 <= L ->
  clocked sv l -> Forall (fun x => in_range (c_wall x)) l ->
  all_ints sv s -> vk_view s sv (dailyKey t day) = None ->
  Forall (fun x => of_day t day x -> c_sv x < sv + dayTTL /\
     forall lim, GetLimit c (c_limits x) t (c_db x) = Ok lim -> 0 < DailyLimit lim <= L) l ->
  accepted c t day l s <= L.
Proof.
  intros Hv Hd HL Hc Hw Hi Hk Hf. rewrite <- (Z.add_0_l (accepted c t day l s)).
  apply (accepted_recorded c t day sv L l 0 sv s); [done|done|lia|done|done| |done|done].
  split_and!; [done|lia|]. intros _. by left.
Qed.

(** The decision of one send, by the counts held before it: it is
    refused when either cap is positive and already used up, and it is counted
    in both counters even then, so refused sends keep the day and the hour
    used up. *)
Theorem send_decision c d1 sv wall t db s lim :
  t <> ""%string -> valkey c = true -> GetLimit c d1 t db = Ok lim -> all_ints sv s ->
  let used n k := 0 < n <= held sv k s in
  let '(r, s') := CheckSendLimit c d1 Delivered sv wall t db s in
  r = (if decide (used (DailyLimit lim) (dailyKey t wall) \/ used (HourlyLimit lim) (hourlyKey t wall))
       then Err ErrSendLimitExceeded else Ok tt) /\
  held sv (dailyKey t wall) s' = held sv (dailyKey t wall) s + 1 /\
  held sv (hourlyKey t wall) s' = held sv (hourlyKey t wall) s + 1 /\
  GetDailyVolume c Delivered sv t wall s' = Ok (held sv (dailyKey t wall) s + 1).
Proof.
  intros Ht Hv HL Hi. cbn zeta. rewrite (CheckSendLimit_counts c d1 sv wall t db s lim) by done.
  destruct (count_send_spec sv (dailyKey t wall) (hourlyKey t wall) s (daily_hourly_ne _ _ _ _) Hi) as (_ & _ & _ & Hw).
  set (s' := (count_send _ _ _ s).2) in *.
  assert (vk_view s' sv (dailyKey t wall) = bump dayTTL sv (vk_view s sv (dailyKey t wall))) as Hd.
  { rewrite Hw, (on_key_ne (hourlyKey t wall)) by apply daily_hourly_ne. apply on_key_eq. }
  split_and!.
  - apply decide_ext. lia.
  - unfold held. by rewrite Hd.
  - unfold held. by rewrite Hw, on_key_eq.
  - unfold GetDailyVolume. rewrite Hv, (proj2 (String.eqb_neq t "")) by done. cbn [negb orb].
    by rewrite (law_get _ _ _ _ _ Hd).
Qed.
End send_limits.

Module SendExamples.
Import RefStore RefCounter.
Definition svc : SendLimitService := mkSendLimit true true 1 5 9.
Definition st0 : gmap string (ventry Z) := ∅.
Definition s1 : send := mkSend "t" 0 0 Delivered Delivered DeliverabilityExamples.db0.
Definition s2 : send := mkSend "t" 1 1 Delivered Delivered DeliverabilityExamples.db0.

Lemma st0_ints sv : all_ints sv st0.
Proof. intros k. unfold all_ints, vk_view, ref_valkey, view, st0. rewrite lookup_empty. cbn. eauto. Qed.

Lemma daily_ceiling_witness : accepted svc "t" 0 [s1; s2] st0 <= 1.
Proof.
  apply (daily_ceiling svc "t" 0 1 [s1; s2] 0 st0);
    [reflexivity | vm_compute; by split | lia | cbn; lia | | apply st0_ints | reflexivity | ].
  - repeat constructor; vm_compute; done.
  - do 2 (apply Forall_cons; split; [intros _; split; [reflexivity|]; intros lim E; vm_compute in E; injection E as <-; vm_compute; by split|]).
    apply Forall_nil_2.
Defined.

Lemma send_decision_witness :
  (CheckSendLimit svc Delivered Delivered 1 1 "t" DeliverabilityExamples.db0
     (send_step svc s1 st0).2).1 = Err ErrSendLimitExceeded.
Proof.
  assert (all_ints 1 (send_step svc s1 st0).2) as Hi.
  { apply (all_ints_later 0); [lia|]. destruct (send_step_store svc s1 st0) as [->| ->]; [apply st0_ints|].
    apply count_send_spec; [apply daily_hourly_ne|apply st0_ints]. }
  pose proof (send_decision svc Delivered 1 1 "t" DeliverabilityExamples.db0 (send_step svc s1 st0).2
    (mkLimit "t" "core" 1 1) ltac:(discriminate) eq_refl ltac:(vm_compute; reflexivity) Hi) as H.
  destruct (CheckSendLimit _ _ _ _ _ _ _ _) as [r s']. destruct H as [-> _]. vm_compute. reflexivity.
Defined.
End SendExamples.

(** ** Warm-up *)
Lemma anchor_values day :
  anchor_for day 0 warmupAnchors =
    if day <? 1 then 0 else if day <? 2 then 50 else if day <? 5 then 100 else if day <? 10 then 500
    else if day <? 20 then 1000 else 2000.
Proof. done. Qed.

Definition warmup_days (warmupDays : Z) : Z := if warmupDays <=? 0 then 30 else warmupDays.

Lemma anchor_mono day day' : day <= day' -> anchor_for day 0 warmupAnchors <= anchor_for day' 0 warmupAnchors.
Proof.
  intros Hle. rewrite !anchor_values.
  repeat match goal with |- context [?a <? ?b] => destruct (Z.ltb_spec a b) end; lia.
Qed.

Lemma anchor_pos day : 0 < day -> 50 <= anchor_for day 0 warmupAnchors.
Proof. intros Hd. apply (anchor_mono 1 day). lia. Qed.

Lemma WarmupCapForDay_eq day planCap wd :
  0 < day -> 0 < planCap ->
  WarmupCapForDay day planCap wd =
    if warmup_days wd <=? day then planCap else Z.min planCap (anchor_for day 0 warmupAnchors).
Proof.
  intros Hd Hc. unfold WarmupCapForDay. fold (warmup_days wd). pose proof (anchor_pos day Hd).
  rewrite (proj2 (Z.leb_gt day 0)), (proj2 (Z.leb_gt planCap 0)) by done. cbn [orb].
  destruct (warmup_days wd <=? day); [done|]. generalize dependent (anchor_for day 0 warmupAnchors). intros a Ha.
  destruct (Z.ltb_spec planCap a).
  - rewrite (proj2 (Z.eqb_neq planCap 0)) by lia. lia.
  - rewrite (proj2 (Z.eqb_neq a 0)) by lia. lia.
Qed.

Lemma WarmupCapForDay_mono day day' planCap wd :
  0 < day -> day <= day' -> 0 < planCap ->
  0 < WarmupCapForDay day planCap wd /\ WarmupCapForDay day planCap wd <= WarmupCapForDay day' planCap wd <= planCap.
Proof.
  intros Hd Hle Hc. rewrite !WarmupCapForDay_eq by lia. pose proof (anchor_mono day day' Hle). pose proof (anchor_pos day Hd).
  destruct (Z.leb_spec (warmup_days wd) day), (Z.leb_spec (warmup_days wd) day'); lia.
Qed.

(** The warm-up ramp of a tenant.  As time passes its limit is positive,
    never falls, never exceeds the cap of its plan and is that cap from the
    configured day on; in between it is the cap or the last anchor passed, so
    it climbs in steps.  [wholeDays] is monotone and exact on whole days. *)
Theorem warmup_ramp wholeDays c wd t s plan created planCap a b :
  (forall x y, x <= y -> wholeDays x <= wholeDays y) -> (forall k, wholeDays (k * Day) = k) ->
  sl_pool c = true -> t <> ""%string -> tenants s !! t = Some (plan, created) -> PlanDailyLimit c plan = Ok planCap ->
  0 < planCap -> created <= a -> a <= b ->
  exists la lb,
    GetCurrentLimit wholeDays c wd Delivered a t s = Ok la /\ GetCurrentLimit wholeDays c wd Delivered b t s = Ok lb /\
    0 < la /\ la <= lb <= planCap /\
    (created + (warmup_days wd - 1) * Day <= b -> lb = planCap) /\
    (la = planCap \/ la ∈ warmupAnchors.*2).
Proof.
  intros Hmono Hexact Hp Ht Hrow Hplan Hcap Ha Hab.
  assert (forall w, GetCurrentLimit wholeDays c wd Delivered w t s = Ok (WarmupCapForDay (wholeDays (w - created) + 1) planCap wd)) as E.
  { intros w. unfold GetCurrentLimit. rewrite (proj2 (String.eqb_neq t "")), Hp by done. cbn [negb query].
    rewrite Hrow. cbn. by rewrite Hplan. }
  assert (0 <= wholeDays (a - created)) as H0 by (rewrite <- (Hexact 0) at 1; apply Hmono; lia).
  pose proof (Hmono (a - created) (b - created) ltac:(lia)) as H1.
  destruct (WarmupCapForDay_mono (wholeDays (a - created) + 1) (wholeDays (b - created) + 1) planCap wd) as (? & ? & ?); [lia..|].
  do 2 eexists. split_and!; [apply E|apply E|done|done|done| |].
  - intros Hb. pose proof (Hmono ((warmup_days wd - 1) * Day) (b - created) ltac:(lia)) as Hd. rewrite Hexact in Hd.
    rewrite WarmupCapForDay_eq by lia. by rewrite (proj2 (Z.leb_le _ _)) by lia.
  - rewrite WarmupCapForDay_eq by lia. case_match; [by left|]. pose proof (anchor_pos (wholeDays (a - created) + 1) ltac:(lia)) as Hpos.
    destruct (Z.min_spec planCap (anchor_for (wholeDays (a - created) + 1) 0 warmupAnchors)) as [[_ ->]|[_ ->]]; [by left|right].
    rewrite anchor_values in *. repeat case_match; try lia; cbn; set_solver.
Qed.

Lemma warmup_ramp_witness :
  exists la lb, GetCurrentLimit (fun d => d / Day) SendExamples.svc 30 Delivered 0 "t" DeliverabilityExamples.db0 = Ok la /\
    GetCurrentLimit (fun d => d / Day) SendExamples.svc 30 Delivered (30 * Day) "t" DeliverabilityExamples.db0 = Ok lb /\
    0 < la /\ la <= lb <= 1.
Proof.
  destruct (warmup_ramp (fun d => d / Day) SendExamples.svc 30 "t" DeliverabilityExamples.db0 "core" 0 1 0 (30 * Day))
    as (la & lb & H1 & H2 & H3 & H4 & _); [| | reflexivity | discriminate | reflexivity | reflexivity | lia | lia | by vm_compute | ].
  - intros x y Hxy. apply Z.div_le_mono; [done|exact Hxy].
  - intros k. by apply Z.div_mul.
  - by exists la, lb.
Defined.

(** ** IP pools *)
Definition active (ip : IPAddress) : Prop := ip_Status ip = "active"%string.

(** The ranking: reputation first, then head-room. *)
Definition no_better (best ip : IPAddress) : Prop :=
  ReputationScore ip < ReputationScore best \/
  (ReputationScore ip = ReputationScore best /\ DailyVolume best <= DailyVolume ip).

Lemma better_false ip best : better ip best = false -> no_better best ip.
Proof. unfold better, no_better. intros H. breflect. apply andb_false_iff in H0 as [H0|H0]; breflect; lia. Qed.

Lemma better_true ip best : better ip best = true -> no_better ip best.
Proof. unfold better, no_better. intros H. apply orb_true_iff in H as [H|H]; breflect; lia. Qed.

#[local] Instance no_better_trans : Transitive no_better.
Proof. intros a b c. unfold no_better. lia. Qed.

(** What the loop has found after the rows [l]. *)
Definition best_of (l : list IPAddress) (r : option IPAddress) : Prop :=
  match r with
  | Some b => b ∈ l /\ active b /\ forall ip, ip ∈ l -> active ip -> no_better b ip
  | None => forall ip, ip ∈ l -> ~ active ip
  end.

Lemma selectBestIP_best l : best_of l (selectBestIP l).
Proof.
  unfold selectBestIP. induction l as [|ip l IH] using rev_ind; [by intros ip ?%not_elem_of_nil|].
  rewrite foldl_app. cbn [foldl]. destruct (String.eqb_spec (ip_Status ip) "active") as [Ha|Ha]; cbn [negb];
    destruct (foldl _ _ l) as [b|]; unfold best_of in *; try destruct IH as (Hin & Hb & Hbest).
  - destruct (better ip b) eqn:E.
    + apply better_true in E. split_and!; [set_solver|done|]. intros x [Hx|Hx%list_elem_of_singleton]%elem_of_app Hxa.
      * etrans; [exact E|by apply Hbest].
      * subst x. unfold no_better. lia.
    + apply better_false in E. split_and!; [set_solver|done|]. intros x [Hx|Hx%list_elem_of_singleton]%elem_of_app Hxa; [by apply Hbest|by subst].
  - split_and!; [set_solver|done|]. intros x [Hx|Hx%list_elem_of_singleton]%elem_of_app Hxa; [by destruct (IH x Hx)|].
    subst x. unfold no_better. lia.
  - split_and!; [set_solver|done|]. intros x [Hx|Hx%list_elem_of_singleton]%elem_of_app Hxa; [by apply Hbest|by subst].
  - intros x [Hx|Hx%list_elem_of_singleton]%elem_of_app; [by apply IH|by subst].
Qed.

(** Routing.  Whatever order the rows come in, the sending address is
    an active one of a pool that the tenant is assigned to with the lowest
    priority, and none of that pool's active addresses ranks above it; when
    there is no assignment, or no active address in that pool, the call
    reports not-found. *)
Theorem sending_ip_best order_ips t s :
  (forall l, order_ips l ≡ₚ l) -> t <> ""%string ->
  Forall (fun a => a_PoolID a <> ""%string) (assignments s) ->
  match lowest (filter (fun a => a_TenantID a = t) (assignments s)) with
  | None => SelectSendingIP order_ips true Delivered Delivered t s = Err ErrNotFound /\
            forall a, a ∈ assignments s -> a_TenantID a <> t
  | Some a =>
      (a ∈ assignments s /\ a_TenantID a = t /\
       forall b, b ∈ assignments s -> a_TenantID b = t -> Priority a <= Priority b) /\
      let pool ip := ip ∈ ip_addresses s /\ ip_PoolID ip = a_PoolID a /\ active ip in
      match SelectSendingIP order_ips true Delivered Delivered t s with
      | Ok ip => pool ip /\ forall ip', pool ip' -> no_better ip ip'
      | Err e => e = ErrNotFound /\ forall ip, ~ pool ip
      end
  end.
Proof.
  intros Hord Ht Hne. unfold SelectSendingIP, GetTenantPool. rewrite (proj2 (String.eqb_neq t "")) by done. cbn [negb query].
  pose proof (least_spec Priority (filter (fun a => a_TenantID a = t) (assignments s))) as Hl.
  fold (lowest (filter (fun a => a_TenantID a = t) (assignments s))) in Hl. destruct (lowest _) as [a|]; cbn [rbind].
  - destruct Hl as [[Hat Hin]%list_elem_of_filter Hmin]. split.
    { split_and!; [done..|]. intros b Hb Hbt. apply Hmin, list_elem_of_filter. done. }
    rewrite Forall_forall in Hne. unfold ListIPs. rewrite (proj2 (String.eqb_neq (a_PoolID a) "")) by (by apply Hne). cbn [negb query rbind].
    set (rows := filter (fun i => ip_PoolID i = a_PoolID a) (ip_addresses s)).
    assert (forall ip, ip ∈ order_ips rows <-> ip ∈ ip_addresses s /\ ip_PoolID ip = a_PoolID a) as Hrows.
    { intros ip. rewrite (Hord rows). unfold rows. rewrite list_elem_of_filter. tauto. }
    pose proof (selectBestIP_best (order_ips rows)) as Hb. destruct (selectBestIP (order_ips rows)) as [b|]; unfold best_of in Hb.
    + destruct Hb as (Hbin & Hba & Hbest). apply Hrows in Hbin as [? ?]. split; [done|].
      intros ip' (? & ? & ?). apply Hbest; [by apply Hrows|done].
    + split; [done|]. intros ip (? & ? & ?). apply (Hb ip); [by apply Hrows|done].
  - split; [done|]. intros a Ha Hat. assert (a ∈ ([] : list TenantPoolAssignment)) as []%not_elem_of_nil.
    rewrite <- Hl. by apply list_elem_of_filter.
Qed.

Module PoolExamples.
Definition ipA : IPAddress := mkIP "1" "p" "10.0.0.1" "" 80 10 0 "active".
Definition ipB : IPAddress := mkIP "2" "p" "10.0.0.2" "" 90 10 0 "active".
Definition ipC : IPAddress := mkIP "3" "p" "10.0.0.3" "" 99 0 0 "warming".
Definition db : DB := mkDB {["t" := ("core"%string, 0)]} ∅ [] ∅ [mkPool "p" "main" PoolMatureTrusted "" 0] [ipA; ipB; ipC] [mkAssignment "t" "p" 10] 0.
End PoolExamples.

Lemma sending_ip_best_witness :
  SelectSendingIP (fun l => l) true Delivered Delivered "t" PoolExamples.db = Ok PoolExamples.ipB /\
  no_better PoolExamples.ipB PoolExamples.ipA.
Proof.
  split; [vm_compute; reflexivity|].
  pose proof (sending_ip_best (fun l => l) "t" PoolExamples.db ltac:(done) ltac:(discriminate)
    ltac:(repeat constructor; discriminate)) as H.
  change (lowest _) with (Some (mkAssignment "t" "p" 10)) in H. destruct H as [_ H].
  change (SelectSendingIP _ _ _ _ _ _) with (@Ok derror IPAddress PoolExamples.ipB) in H.
  apply (proj2 H). split; [left|by split].
Defined.

(** The (tenant, pool) pairs are the primary key of the table. *)
Definition assignment_key (a : TenantPoolAssignment) : string * string := (a_TenantID a, a_PoolID a).

(** Assigning a pool type is an upsert.  It keeps the primary key, gives
    the tenant exactly one row for the oldest pool of that type, with the
    priority asked for (100 when that is not positive) whether or not the row
    was there, and leaves every other row as it was. *)
Theorem assign_upserts t ptype priority s s' :
  NoDup (assignment_key <$> assignments s) ->
  AssignTenantPool true Delivered t ptype priority s = (Ok tt, s') ->
  exists p, find_pool ptype s = Some p /\ NoDup (assignment_key <$> assignments s') /\
    mkAssignment t (p_ID p) (if priority <=? 0 then 100 else priority) ∈ assignments s' /\
    forall a, assignment_key a <> (t, p_ID p) -> a ∈ assignments s' <-> a ∈ assignments s.
Proof.
  unfold AssignTenantPool. intros Hnd H. destruct (_ || _); [done|]. destruct (negb (isValidPoolType ptype)); [done|].
  cbn [negb] in H. unfold BeginFunc in H. destruct (find_pool ptype s) as [p|]; [|done].
  destruct (known_tenant t s && _); [|done]. exists p. split; [done|].
  set (prio := if priority <=? 0 then 100 else priority).
  set (same := fun a => String.eqb (a_TenantID a) t && String.eqb (a_PoolID a) (p_ID p)).
  assert (forall a, same a = true <-> assignment_key a = (t, p_ID p)) as Hsame.
  { intros a. unfold same, assignment_key. rewrite andb_true_iff, !String.eqb_eq. split; [by intros [-> ->]|by intros [= -> ->]]. }
  assert (assignments s' =
    if existsb same (assignments s) then (fun a => if same a then mkAssignment t (p_ID p) prio else a) <$> assignments s
    else assignments s ++ [mkAssignment t (p_ID p) prio]) as -> by (by injection H as <-).
  destruct (existsb same (assignments s)) eqn:E.
  - apply existsb_exists in E as (old & Hin & Hold). apply list_elem_of_In in Hin.
    assert (assignment_key <$> ((fun a => if same a then mkAssignment t (p_ID p) prio else a) <$> assignments s) = assignment_key <$> assignments s) as Hkeys.
    { rewrite <- list_fmap_compose. apply list_fmap_ext. intros i a _. cbn. destruct (same a) eqn:Ea; [|done]. by apply Hsame in Ea. }
    split_and!; [by rewrite Hkeys| |].
    + apply list_elem_of_fmap. exists old. by rewrite Hold.
    + intros a Ha. rewrite list_elem_of_fmap. split.
      * intros (b & -> & Hb). destruct (same b) eqn:Eb; [by destruct Ha|done].
      * intros Hb. exists a. destruct (same a) eqn:Ea; [by apply Hsame in Ea|done].
  - assert (forall a, a ∈ assignments s -> assignment_key a <> (t, p_ID p)) as Hno.
    { intros a Ha Hk. apply Hsame in Hk. rewrite <- not_true_iff_false in E. apply E, existsb_exists. exists a. by rewrite <- list_elem_of_In. }
    split_and!; [|set_solver|].
    + rewrite fmap_app. apply NoDup_app. split_and!; [done| |apply NoDup_singleton].
      intros k (a & -> & Ha)%list_elem_of_fmap Hk%list_elem_of_singleton. by eapply Hno.
    + intros a Ha. rewrite elem_of_app, list_elem_of_singleton. split; [|by left]. intros [?|Hx]; [done|by rewrite Hx in Ha].
Qed.

Lemma assign_upserts_witness :
  exists p, find_pool PoolMatureTrusted PoolExamples.db = Some p /\
    mkAssignment "t" (p_ID p) 3 ∈ assignments (AssignTenantPool true Delivered "t" PoolMatureTrusted 3 PoolExamples.db).2.
Proof.
  destruct (assign_upserts "t" PoolMatureTrusted 3 PoolExamples.db
    (AssignTenantPool true Delivered "t" PoolMatureTrusted 3 PoolExamples.db).2) as (p & H1 & _ & H2 & _).
  - apply NoDup_singleton.
  - vm_compute. reflexivity.
  - by exists p.
Defined.

(** ** Counters read back as text *)
Definition digitChar (d : Z) : Ascii.ascii := Ascii.ascii_of_N (Z.to_N (48 + d)).
Definition value (ds : list Z) : Z := foldl (fun n d => n * 10 + d) 0 ds.

Lemma value_from n ds : 0 <= n -> Forall (fun d => 0 <= d < 10) ds -> n <= foldl (fun n d => n * 10 + d) n ds.
Proof.
  intros Hn Hf. revert n Hn. induction Hf as [|d ds Hd Hf IH]; intros n Hn; cbn; [lia|]. etrans; [|apply IH; lia]. lia.
Qed.

Lemma parseDigit_digit n d :
  0 <= n -> 0 <= d < 10 -> n * 10 + d <= int64_max -> parseDigit (Ok n) (digitChar d) = Ok (n * 10 + d).
Proof.
  intros Hn Hd Hmax. unfold parseDigit, rbind, digitChar. rewrite Ascii.N_ascii_embedding, Z2N.id by lia.
  cbv zeta. rewrite (proj2 (Z.ltb_ge (48 + d) 48)), (proj2 (Z.ltb_ge 57 (48 + d))) by lia. cbn [orb].
  rewrite (wrap64_id (n * 10)) by (unfold int64_min, int64_max in *; lia).
  replace (n * 10 + (48 + d - 48)) with (n * 10 + d) by lia.
  by rewrite wrap64_id by (unfold int64_min, int64_max in *; lia).
Qed.

Lemma parse_digits ds n :
  0 <= n -> Forall (fun d => 0 <= d < 10) ds -> foldl (fun n d => n * 10 + d) n ds <= int64_max ->
  foldl parseDigit (Ok n) (digitChar <$> ds) = Ok (foldl (fun n d => n * 10 + d) n ds).
Proof.
  intros Hn Hf. revert n Hn. induction Hf as [|d ds Hd Hf IH]; intros n Hn Hmax; [done|]. rewrite fmap_cons. cbn [foldl] in *.
  pose proof (value_from (n * 10 + d) ds ltac:(lia) Hf) as Hle.
  rewrite parseDigit_digit by lia. apply IH; [lia|done].
Qed.

(** Decimal text within the width reads back as its value. *)
Lemma parseInt64_digits ds :
  ds <> [] -> Forall (fun d => 0 <= d < 10) ds -> value ds <= int64_max ->
  parseInt64 (String.string_of_list_ascii (digitChar <$> ds)) = Ok (value ds).
Proof.
  intros Hne Hf Hmax. unfold parseInt64. rewrite String.list_ascii_of_string_of_list_ascii, parse_digits by done.
  by destruct ds.
Qed.
