(* ===== verification/OAuth.v ===== *)
(** * OAuth2 authorization server ([internal/oauth])

    Client registration, the authorization-code grant with PKCE, refresh-token
    rotation with replay detection, bearer validation, revocation, and the
    HTTP handlers that drive them.  The four [oauth_*] tables are lists in
    order of insertion, under the constraints of the schema; the role of
    the pool holds BYPASSRLS, so row policies do not filter.  Every service
    method is one transaction, except that a replayed refresh token is
    answered by a second one.  Columns no statement reads are left out. *)

From S2P Require Import Prelude Text Table.

Local Open Scope Z_scope.
Local Open Scope go_scope.

(** ** Types ([types.go]) *)
Definition ClientTypeConfidential : string := "confidential".
Definition ClientTypePublic : string := "public".
Definition CodeChallengeMethodPlain : string := "plain".
Definition CodeChallengeMethodS256 : string := "S256".
Definition GrantTypeAuthorizationCode : string := "authorization_code".
Definition GrantTypeRefreshToken : string := "refresh_token".

Definition ScopeReadMail : string := "read:mail".
Definition ScopeWriteMail : string := "write:mail".
Definition ScopeReadCalendar : string := "read:calendar".
Definition ScopeWriteCalendar : string := "write:calendar".
Definition ScopeReadContacts : string := "read:contacts".
Definition ScopeWriteContacts : string := "write:contacts".
Definition ScopeReadProfile : string := "read:profile".

Definition KnownScopes : gset string :=
  {[ ScopeReadMail; ScopeWriteMail; ScopeReadCalendar; ScopeWriteCalendar; ScopeReadContacts; ScopeWriteContacts;
     ScopeReadProfile ]}.

Definition AccessTokenTTL : Z := 1 * Hour.
Definition RefreshTokenTTL : Z := 30 * 24 * Hour.
Definition AuthorizationCodeTTL : Z := 60 * Second.

Record Client := mkClient {
  ID : string; TenantID : string; ClientID : string; ClientType : string; Name : string;
  HomepageURL : string; LogoURL : string; RedirectURIs : list string; AllowedScopes : list string;
  Active : bool; CreatedAt : Z; UpdatedAt : Z;
}.

Record AccessTokenContext := mkATC {
  tc_TokenID : string; tc_TenantID : string; tc_UserID : string; tc_ClientID : string;
  tc_Scopes : list string; tc_ExpiresAt : Z;
}.

Definition isWriteScopeImplyingRead (granted want : string) : bool :=
  if String.eqb granted ScopeWriteMail then String.eqb want ScopeReadMail
  else if String.eqb granted ScopeWriteCalendar then String.eqb want ScopeReadCalendar
  else if String.eqb granted ScopeWriteContacts then String.eqb want ScopeReadContacts
  else false.

Fixpoint ScopesInclude (granted : list string) (want : string) : bool :=
  match granted with
  | [] => false
  | s :: l => if String.eqb s want then true else if isWriteScopeImplyingRead s want then true else ScopesInclude l want
  end.

Definition HasScope (a : AccessTokenContext) (want : string) : bool := ScopesInclude (tc_Scopes a) want.

Definition ErrCodeInvalidRequest : string := "invalid_request".
Definition ErrCodeInvalidClient : string := "invalid_client".
Definition ErrCodeInvalidGrant : string := "invalid_grant".
Definition ErrCodeUnauthorizedClient : string := "unauthorized_client".
Definition ErrCodeUnsupportedGrantType : string := "unsupported_grant_type".
Definition ErrCodeInvalidScope : string := "invalid_scope".
Definition ErrCodeAccessDenied : string := "access_denied".
Definition ErrCodeServerError : string := "server_error".

Record OAuthError := mkOAuthError { Code : string; Description : string; HTTPStatus : Z }.

(** Error values; [ErrRefreshTokenReplay] carries [replayRowID], [Invalid] the
    message of a failed validation, [ErrStore] any failure of the database. *)
Inductive oerror :=
| OAuthErr (e : OAuthError)
| ErrClientNotFound | ErrCodeNotFound | ErrCodeAlreadyConsumed | ErrAccessTokenNotFound | ErrRefreshTokenNotFound
| ErrInvalidRedirectURI | ErrInvalidCodeVerifier | ErrScopeNotAllowed | ErrClientSecretMismatch | ErrPKCERequiredButMissing
| ErrRefreshTokenReplay (replayRowID : string)
| Invalid (msg : string) | ErrNoRows | ErrStore | ErrCanceled | ErrRand.

Definition invalid_grant (description : string) : oerror := OAuthErr (mkOAuthError ErrCodeInvalidGrant description 400).

(** ** Tables *)
Record client_row := mkClientRow { c_client : Client; c_secret : option string }.

Record code_row := mkCode {
  a_TenantID : string; a_ClientID : string; a_UserID : string; a_Hash : string; a_RedirectURI : string;
  a_Scopes : list string; a_Challenge : option string; a_Method : option string; a_ExpiresAt : Z;
  a_ConsumedAt : option Z;
}.
Record refresh_row := mkRefresh {
  r_ID : string; r_TenantID : string; r_ClientID : string; r_UserID : string; r_Hash : string;
  r_Scopes : list string; r_Parent : option string; r_ExpiresAt : Z; r_RevokedAt : option Z;
}.
Record access_row := mkAccess {
  t_ID : string; t_TenantID : string; t_ClientID : string; t_UserID : string; t_Hash : string;
  t_Scopes : list string; t_ExpiresAt : Z; t_RevokedAt : option Z; t_RefreshID : option string;
}.

(** [tenants] and [users] are the ids foreign keys refer to. *)
Record DB := mkDB {
  tenants : gset string; users : gset string;
  clients : list client_row; codes : list code_row; refresh : list refresh_row; access : list access_row;
}.
Definition with_clients x s := mkDB (tenants s) (users s) x (codes s) (refresh s) (access s).
Definition with_codes x s := mkDB (tenants s) (users s) (clients s) x (refresh s) (access s).
Definition with_refresh x s := mkDB (tenants s) (users s) (clients s) (codes s) x (access s).
Definition with_access x s := mkDB (tenants s) (users s) (clients s) (codes s) (refresh s) x.

Definition consume (t : Z) (c : code_row) : code_row :=
  mkCode (a_TenantID c) (a_ClientID c) (a_UserID c) (a_Hash c) (a_RedirectURI c) (a_Scopes c) (a_Challenge c)
    (a_Method c) (a_ExpiresAt c) (Some t).
Definition revoke_refresh (t : Z) (r : refresh_row) : refresh_row :=
  mkRefresh (r_ID r) (r_TenantID r) (r_ClientID r) (r_UserID r) (r_Hash r) (r_Scopes r) (r_Parent r) (r_ExpiresAt r) (Some t).
Definition revoke_access (t : Z) (a : access_row) : access_row :=
  mkAccess (t_ID a) (t_TenantID a) (t_ClientID a) (t_UserID a) (t_Hash a) (t_Scopes a) (t_ExpiresAt a) (Some t) (t_RefreshID a).

Definition is_id (o : option string) (id : string) : bool := match o with Some x => String.eqb x id | None => false end.

(** Foreign keys of the three token tables. *)
Definition fk_ok (tenant client user : string) (s : DB) : bool :=
  bool_decide (tenant ∈ tenants s) && existsb (fun c => String.eqb (ID (c_client c)) client) (clients s)
  && bool_decide (user ∈ users s).

Definition insert_code (c : code_row) (s : DB) : result oerror DB :=
  if fk_ok (a_TenantID c) (a_ClientID c) (a_UserID c) s && negb (existsb (fun x => String.eqb (a_Hash x) (a_Hash c)) (codes s))
  then Ok (with_codes (codes s ++ [c]) s) else Err ErrStore.

Definition insert_refresh (r : refresh_row) (s : DB) : result oerror DB :=
  if fk_ok (r_TenantID r) (r_ClientID r) (r_UserID r) s
     && negb (existsb (fun x => String.eqb (r_ID x) (r_ID r) || String.eqb (r_Hash x) (r_Hash r)) (refresh s))
  then Ok (with_refresh (refresh s ++ [r]) s) else Err ErrStore.

Definition insert_access (a : access_row) (s : DB) : result oerror DB :=
  if fk_ok (t_TenantID a) (t_ClientID a) (t_UserID a) s
     && match t_RefreshID a with Some id => existsb (fun x => String.eqb (r_ID x) id) (refresh s) | None => true end
     && negb (existsb (fun x => String.eqb (t_ID x) (t_ID a) || String.eqb (t_Hash x) (t_Hash a)) (access s))
  then Ok (with_access (access s ++ [a]) s) else Err ErrStore.

Definition query {A} (d : delivery) (f : DB -> result oerror A) (s : DB) : result oerror A :=
  match d with Delivered => f s | _ => Err ErrStore end.

(** [middleware.SetTenantGUC]. *)
Definition SetTenantGUC (tenantID : string) : result oerror unit :=
  if String.eqb tenantID "" then Err (Invalid "SetTenantGUC: empty tenantID") else Ok tt.

(** ** Libraries

    SHA-256, bcrypt's comparison and [url.Parse] (scheme and host). *)
Record URL := mkURL { Scheme : string; Host : string }.
Record libs := mkLibs {
  Sum256 : string -> list Z;
  CompareHashAndPassword : string -> string -> bool;
  Parse : string -> option URL;
}.

(** ** Helpers *)
Definition dot : Ascii.ascii := Ascii.ascii_of_nat 46.

(** [rand] is what [rand.Read] delivers. *)
Definition generateOpaqueToken (rand : option (list Z)) : result oerror string :=
  match rand with Some bytes => Ok (base64url bytes) | None => Err ErrRand end.

Definition redirectURIInAllowList (allow : list string) (want : string) : bool := existsb (fun a => String.eqb a want) allow.
Definition containsString (haystack : list string) (needle : string) : bool := existsb (fun h => String.eqb h needle) haystack.

Fixpoint joinScopes_from (i : nat) (out : string) (scopes : list string) : string :=
  match scopes with
  | [] => out
  | s :: l => joinScopes_from (S i) ((if (0 <? i)%nat then out +:+ " " else out) +:+ s) l
  end.
Definition joinScopes (scopes : list string) : string := joinScopes_from 0 "" scopes.

Section libraries.
Context (L : libs).

Definition hashToken (plain : string) : string := hex_encode (Sum256 L plain).

Definition verifyPKCE (codeChallenge codeVerifier method : string) : bool :=
  if String.eqb method CodeChallengeMethodPlain then String.eqb codeChallenge codeVerifier
  else if String.eqb method CodeChallengeMethodS256 then String.eqb codeChallenge (base64url (Sum256 L codeVerifier))
  else false.

Definition validateRedirectURI (raw : string) : result oerror unit :=
  if String.eqb raw "" then Err (Invalid "redirect_uri must not be empty")
  else match Parse L raw with
  | None => Err (Invalid "invalid redirect_uri")
  | Some u =>
      if String.eqb (Scheme u) "" then Err (Invalid "redirect_uri must include a scheme")
      else
        let scheme := ToLower (Scheme u) in
        if bool_decide (scheme ∈ ["https"; "http"]%string) then Ok tt
        else if bool_decide (scheme ∈ ["javascript"; "data"; "vbscript"; "file"]%string)
        then Err (Invalid "redirect_uri uses a dangerous scheme")
        else if negb (contains_char dot scheme) then Err (Invalid "redirect_uri uses a non-reverse-DNS custom scheme")
        else Ok tt
  end.

Definition validateExternalDisplayURL (raw : string) : result oerror unit :=
  match Parse L raw with
  | None => Err (Invalid "invalid display URL")
  | Some u =>
      let scheme := ToLower (Scheme u) in
      if negb (String.eqb scheme "https") && negb (String.eqb scheme "http") then Err (Invalid "must use http or https")
      else if String.eqb (Host u) "" then Err (Invalid "must include a host")
      else Ok tt
  end.

(** A loop that stops at the first error. *)
Fixpoint each {A} (f : A -> result oerror unit) (l : list A) : result oerror unit :=
  match l with
  | [] => Ok tt
  | a :: l' => let? _ := f a in each f l'
  end.

(** ** Clients *)
Record ClientInput := mkClientInput {
  i_tenantID : string; i_name : string; i_clientType : string; i_redirectURIs : list string; i_allowedScopes : list string;
  i_homepageURL : string; i_logoURL : string;
}.

Definition validateClient (i : ClientInput) : result oerror unit :=
  if String.eqb (i_tenantID i) "" then Err (Invalid "tenant_id required")
  else if String.eqb (i_name i) "" then Err (Invalid "name required")
  else if negb (String.eqb (i_clientType i) ClientTypeConfidential) && negb (String.eqb (i_clientType i) ClientTypePublic)
  then Err (Invalid "client_type")
  else match i_redirectURIs i with
  | [] => Err (Invalid "at least one redirect_uri required")
  | _ =>
      let? _ := each validateRedirectURI (i_redirectURIs i) in
      let? _ := (if String.eqb (i_homepageURL i) "" then Ok tt else validateExternalDisplayURL (i_homepageURL i)) in
      let? _ := (if String.eqb (i_logoURL i) "" then Ok tt else validateExternalDisplayURL (i_logoURL i)) in
      each (fun sc => if bool_decide (sc ∈ KnownScopes) then Ok tt else Err (Invalid "unknown scope")) (i_allowedScopes i)
  end.

(** [bcrypt] is [GenerateFromPassword] with the salt of this call; [id] and
    [dbnow] are the database's. *)
Definition RegisterClient (d : delivery) (rand_id rand_secret : option (list Z)) (bcrypt : string -> option string)
    (id : string) (dbnow : Z) (i : ClientInput) (s : DB) : result oerror (Client * string) * DB :=
  match (let? _ := validateClient i in
         let? clientID := generateOpaqueToken rand_id in
         if String.eqb (i_clientType i) ClientTypeConfidential then
           let? secret := generateOpaqueToken rand_secret in
           match bcrypt secret with
           | None => Err ErrStore
           | Some hash => Ok (clientID, secret, Some hash)
           end
         else Ok (clientID, ""%string, None))
  with
  | Err e => (Err e, s)
  | Ok (clientID, plaintextSecret, secretHash) =>
      BeginFunc ErrStore d (fun s =>
        let? _ := SetTenantGUC (i_tenantID i) in
        let c := mkClient id (i_tenantID i) clientID (i_clientType i) (i_name i) (i_homepageURL i) (i_logoURL i)
                   (i_redirectURIs i) (i_allowedScopes i) true dbnow dbnow in
        if bool_decide (i_tenantID i ∈ tenants s)
           && negb (existsb (fun r => String.eqb (ID (c_client r)) id || String.eqb (ClientID (c_client r)) clientID) (clients s))
        then Ok ((c, plaintextSecret), with_clients (clients s ++ [mkClientRow c secretHash]) s)
        else Err ErrStore) s
  end.

Definition find_client (p : Client -> bool) (s : DB) : result oerror Client :=
  match List.find (fun r => p (c_client r)) (clients s) with
  | Some r => Ok (c_client r)
  | None => Err ErrClientNotFound
  end.

Definition GetClient (d : delivery) (tenantID clientID : string) (s : DB) : result oerror Client :=
  if String.eqb tenantID "" || String.eqb clientID "" then Err ErrClientNotFound
  else query d (find_client (fun c => String.eqb (TenantID c) tenantID && String.eqb (ClientID c) clientID && Active c)) s.

Definition LookupClientForExchange (d : delivery) (clientID : string) (s : DB) : result oerror Client :=
  if String.eqb clientID "" then Err ErrClientNotFound
  else query d (find_client (fun c => String.eqb (ClientID c) clientID && Active c)) s.

Definition VerifyClientSecret (d : delivery) (c : Client) (plaintextSecret : string) (s : DB) : result oerror unit :=
  if negb (String.eqb (ClientType c) ClientTypeConfidential) then Err ErrClientSecretMismatch
  else query d (fun s =>
    match List.find (fun r => String.eqb (ID (c_client r)) (ID c)) (clients s) with
    | None => Err ErrNoRows
    | Some r =>
        match c_secret r with
        | None => Err ErrStore       (* NULL does not scan into a string *)
        | Some hash =>
            if String.eqb hash "" then Err ErrClientSecretMismatch
            else if CompareHashAndPassword L hash plaintextSecret then Ok tt else Err ErrClientSecretMismatch
        end
    end) s.

(** ** Authorization codes *)
Record Service := mkService { accessTokenTTL : Z; refreshTokenTTL : Z; codeTTL : Z }.
Definition NewService : Service := mkService AccessTokenTTL RefreshTokenTTL AuthorizationCodeTTL.

Context (svc : Service).

Definition bad_method (m : string) : bool :=
  negb (String.eqb m "") && negb (String.eqb m CodeChallengeMethodPlain) && negb (String.eqb m CodeChallengeMethodS256).

Definition validateGrant (client : Client) (userID redirectURI : string) (grantedScopes : list string)
    (codeChallenge codeChallengeMethod : string) : result oerror unit :=
  if String.eqb userID "" then Err (Invalid "user_id required")
  else if negb (redirectURIInAllowList (RedirectURIs client) redirectURI) then Err ErrInvalidRedirectURI
  else
    let? _ := each (fun sc => if containsString (AllowedScopes client) sc then Ok tt else Err ErrScopeNotAllowed) grantedScopes in
    if String.eqb (ClientType client) ClientTypePublic && String.eqb codeChallenge "" then Err ErrPKCERequiredButMissing
    else if bad_method codeChallengeMethod
    then Err (OAuthErr (mkOAuthError ErrCodeInvalidRequest "code_challenge_method must be 'plain' or 'S256'" 400))
    else Ok tt.

Definition IssueAuthorizationCode (d : delivery) (now : Z) (rand : option (list Z)) (client : Client)
    (userID redirectURI : string) (grantedScopes : list string) (codeChallenge codeChallengeMethod : string) (s : DB)
    : result oerror string * DB :=
  match (let? _ := validateGrant client userID redirectURI grantedScopes codeChallenge codeChallengeMethod in
         generateOpaqueToken rand)
  with
  | Err e => (Err e, s)
  | Ok plaintextCode =>
      let method := if String.eqb codeChallengeMethod "" then CodeChallengeMethodPlain else codeChallengeMethod in
      let ptr x := if String.eqb codeChallenge "" then None else Some x in
      BeginFunc ErrStore d (fun s =>
        let? _ := SetTenantGUC (TenantID client) in
        let? s' := insert_code (mkCode (TenantID client) (ID client) userID (hashToken plaintextCode) redirectURI grantedScopes
                                  (ptr codeChallenge) (ptr method) (micro (now + codeTTL svc)) None) s in
        Ok (plaintextCode, s')) s
  end.

(** ** Minting *)
Record TokenResponse := mkTokenResponse {
  AccessToken : string; TokenType : string; ExpiresIn : Z; RefreshToken : string; Scope : string;
}.

(** Random bytes and row ids of one pair. *)
Record gen := mkGen { g_access : option (list Z); g_refresh : option (list Z); g_refreshID : string; g_accessID : string }.

Definition mintTokensTx (g : gen) (client : Client) (userID : string) (scopes : list string) (parent : option string)
    (now : Z) (s : DB) : result oerror (TokenResponse * DB) :=
  let? plaintextAccess := generateOpaqueToken (g_access g) in
  let? plaintextRefresh := generateOpaqueToken (g_refresh g) in
  let? s1 := insert_refresh (mkRefresh (g_refreshID g) (TenantID client) (ID client) userID (hashToken plaintextRefresh) scopes
                               parent (micro (now + refreshTokenTTL svc)) None) s in
  let? s2 := insert_access (mkAccess (g_accessID g) (TenantID client) (ID client) userID (hashToken plaintextAccess) scopes
                              (micro (now + accessTokenTTL svc)) None (Some (g_refreshID g))) s1 in
  Ok (mkTokenResponse plaintextAccess "Bearer" (Z.quot (accessTokenTTL svc) Second) plaintextRefresh (joinScopes scopes), s2).

Definition redeemable (codeHash : string) (t : Z) (c : code_row) : bool :=
  String.eqb (a_Hash c) codeHash && unset (a_ConsumedAt c) && (t <? a_ExpiresAt c).

(** The checks between claiming the code and minting. *)
Definition checkCode (client : Client) (redirectURI codeVerifier : string) (c : code_row) : result oerror unit :=
  if negb (String.eqb (a_ClientID c) (ID client)) then Err (invalid_grant "code was issued to a different client")
  else if negb (String.eqb (a_TenantID c) (TenantID client)) then Err (invalid_grant "code tenant mismatch")
  else if negb (String.eqb (a_RedirectURI c) redirectURI)
  then Err (invalid_grant "redirect_uri does not match the value used at /authorize")
  else
    let codeChallenge := default ""%string (a_Challenge c) in
    if negb (String.eqb codeChallenge "") then
      if String.eqb codeVerifier ""
      then Err (OAuthErr (mkOAuthError ErrCodeInvalidRequest "code_verifier required (PKCE in use)" 400))
      else if negb (verifyPKCE codeChallenge codeVerifier (default CodeChallengeMethodPlain (a_Method c)))
      then Err (invalid_grant "code_verifier does not match challenge")
      else Ok tt
    else if String.eqb (ClientType client) ClientTypePublic then Err (invalid_grant "public clients must use PKCE")
    else Ok tt.

(** The transaction of an exchange. *)
Definition redeem (now : Z) (g : gen) (client : Client) (codeHash redirectURI codeVerifier : string) (s : DB)
    : result oerror (TokenResponse * DB) :=
  let t := micro now in
  let? _ := SetTenantGUC (TenantID client) in
  match List.find (redeemable codeHash t) (codes s) with
  | None => Err ErrNoRows
  | Some c =>
      let s := with_codes (update (redeemable codeHash t) (consume t) (codes s)) s in
      let? _ := checkCode client redirectURI codeVerifier c in
      mintTokensTx g client (a_UserID c) (a_Scopes c) None now s
  end.

Definition ExchangeAuthorizationCode (d : delivery) (now : Z) (g : gen) (client : Client)
    (plaintextCode redirectURI codeVerifier : string) (s : DB) : result oerror TokenResponse * DB :=
  let '(r, s') := BeginFunc ErrStore d (redeem now g client (hashToken plaintextCode) redirectURI codeVerifier) s in
  (match r with
   | Err ErrNoRows => Err (invalid_grant "authorization code not found, expired, or already consumed")
   | r => r
   end, s').

(** ** Refresh tokens *)

(** One round of the recursive query: the rows whose parent is in the working
    table.  [chain] accumulates the rounds; a table of [n] rows needs at most
    [n] of them ([chain_complete]). *)
Definition children (l : list refresh_row) (ids : list string) : list string :=
  ids ≫= fun i => r_ID <$> List.filter (fun r => is_id (r_Parent r) i) l.

Fixpoint chain (fuel : nat) (l : list refresh_row) (working : list string) : list string :=
  match fuel, working with
  | O, _ => []
  | _, [] => []
  | S n, _ => working ++ chain n l (children l working)
  end.

Definition chain_ids (l : list refresh_row) (rootID : string) : list string :=
  chain (length l) l (r_ID <$> List.filter (fun r => String.eqb (r_ID r) rootID) l).

Definition among (ids : list string) (id : string) : bool := existsb (String.eqb id) ids.

(** The two updates, given the result of each recursive query. *)
Definition revoke_refresh_in (t : Z) (ids : list string) (s : DB) : DB :=
  with_refresh (update (fun r => among ids (r_ID r) && unset (r_RevokedAt r)) (revoke_refresh t) (refresh s)) s.
Definition revoke_access_in (t : Z) (ids : list string) (s : DB) : DB :=
  with_access (update (fun a => match t_RefreshID a with Some id => among ids id | None => false end && unset (t_RevokedAt a))
                 (revoke_access t) (access s)) s.

Definition revokeRefreshChain (d : delivery) (now : Z) (tenantID rootID : string) (s : DB) : result oerror unit * DB :=
  BeginFunc ErrStore d (fun s =>
    let? _ := SetTenantGUC tenantID in
    let s := revoke_refresh_in (micro now) (chain_ids (refresh s) rootID) s in
    Ok (tt, revoke_access_in (micro now) (chain_ids (refresh s) rootID) s)) s.

Definition refreshable (refreshHash : string) (t : Z) (r : refresh_row) : bool :=
  String.eqb (r_Hash r) refreshHash && unset (r_RevokedAt r) && (t <? r_ExpiresAt r).

Definition by_refresh (id : string) (a : access_row) : bool := is_id (t_RefreshID a) id && unset (t_RevokedAt a).

Definition rotate (now : Z) (g : gen) (client : Client) (refreshHash : string) (s : DB) : result oerror (TokenResponse * DB) :=
  let t := micro now in
  let? _ := SetTenantGUC (TenantID client) in
  match List.find (refreshable refreshHash t) (refresh s) with
  | None =>
      match List.find (fun r => String.eqb (r_Hash r) refreshHash) (refresh s) with
      | None => Err ErrRefreshTokenNotFound
      | Some r =>
          if negb (unset (r_RevokedAt r)) then Err (ErrRefreshTokenReplay (r_ID r))
          else Err (invalid_grant "refresh token expired")
      end
  | Some r =>
      let s := with_refresh (update (refreshable refreshHash t) (revoke_refresh t) (refresh s)) s in
      if negb (String.eqb (r_ClientID r) (ID client)) then Err (invalid_grant "refresh token was issued to a different client")
      else
        let? m := mintTokensTx g client (r_UserID r) (r_Scopes r) (Some (r_ID r)) now s in
        Ok (m.1, with_access (update (by_refresh (r_ID r)) (revoke_access t) (access m.2)) m.2)
  end.

(** The first transaction is [rotate]; [d'] and [now'] are the second one's,
    [between] what others do between the two. *)
Definition RefreshAccessToken (between : DB -> DB) (d d' : delivery) (now now' : Z) (g : gen) (client : Client) (plaintextRefreshToken : string) (s : DB)
    : result oerror TokenResponse * DB :=
  if String.eqb plaintextRefreshToken ""
  then (Err (OAuthErr (mkOAuthError ErrCodeInvalidRequest "refresh_token required" 400)), s)
  else
    let '(r, s) := BeginFunc ErrStore d (rotate now g client (hashToken plaintextRefreshToken)) s in
    match r with
    | Err ErrRefreshTokenNotFound => (Err (invalid_grant "refresh token not found"), s)
    | Err (ErrRefreshTokenReplay replayRowID) =>
        let '(c, s) := revokeRefreshChain d' now' (TenantID client) replayRowID (between s) in
        (match c with
         | Err e => Err e
         | Ok _ => Err (invalid_grant "refresh token replay detected — token family revoked")
         end, s)
    | r => (r, s)
    end.

(** ** Validation and revocation *)
Definition active_client (id : string) (s : DB) : bool :=
  existsb (fun c => String.eqb (ID (c_client c)) id && Active (c_client c)) (clients s).

Definition ValidateAccessToken (d : delivery) (now : Z) (plaintextToken : string) (s : DB) : result oerror AccessTokenContext :=
  if String.eqb plaintextToken "" then Err ErrAccessTokenNotFound
  else query d (fun s =>
    match List.find (fun a => String.eqb (t_Hash a) (hashToken plaintextToken) && active_client (t_ClientID a) s
                              && unset (t_RevokedAt a) && (micro now <? t_ExpiresAt a)) (access s) with
    | None => Err ErrAccessTokenNotFound
    | Some a => Ok (mkATC (t_ID a) (t_TenantID a) (t_UserID a) (t_ClientID a) (t_Scopes a) (t_ExpiresAt a))
    end) s.

Definition RevokeToken (d : delivery) (now : Z) (client : Client) (plaintextToken : string) (s : DB) : result oerror unit * DB :=
  let tokenHash := hashToken plaintextToken in
  let t := micro now in
  let other_client := OAuthErr (mkOAuthError ErrCodeUnauthorizedClient "token was issued to a different client" 400) in
  BeginFunc ErrStore d (fun s =>
    let? _ := SetTenantGUC (TenantID client) in
    match List.find (fun a => String.eqb (t_Hash a) tokenHash) (access s) with
    | Some a =>
        if negb (String.eqb (t_ClientID a) (ID client)) then Err other_client
        else Ok (tt, with_access (update (fun a => String.eqb (t_Hash a) tokenHash && unset (t_RevokedAt a))
                                    (revoke_access t) (access s)) s)
    | None =>
        match List.find (fun r => String.eqb (r_Hash r) tokenHash) (refresh s) with
        | None => Ok (tt, s)
        | Some r =>
            if negb (String.eqb (r_ClientID r) (ID client)) then Err other_client
            else
              let s := with_refresh (update (fun x => String.eqb (r_ID x) (r_ID r) && unset (r_RevokedAt x))
                                       (revoke_refresh t) (refresh s)) s in
              Ok (tt, with_access (update (by_refresh (r_ID r)) (revoke_access t) (access s)) s)
        end
    end) s.

(** ** Handlers ([handlers.go]) *)

(** What a handler reads of a request: [rq_form] is [None] when [ParseForm]
    fails, [rq_user] what [UserResolver] returns. *)
Record request := mkRequest {
  rq_method : string; rq_query : gmap string string; rq_form : option (gmap string string);
  rq_basic : option (string * string); rq_cookie : option string; rq_user : string * string * bool;
  rq_authorization : string;
}.
Definition Get (k : string) (m : gmap string string) : string := default ""%string (m !! k).

Record consentTemplateData := mkConsent {
  ClientName : string; ClientHomepage : string; ClientLogo : string; RequestedScopes : list string; RedirectURI : string;
  cd_ClientID : string; State : string; CodeChallenge : string; CodeChallengeMethod : string; ApproveURL : string; CSRFToken : string;
}.

(** [SeeOther uri q]: a redirect to [uri] with the parameters [q] set. *)
Inductive response :=
| HTTPError (msg : string) (status : Z)
| OAuthReply (e : OAuthError)
| SeeOther (uri : string) (q : list (string * string))
| Consent (cookie : string) (d : consentTemplateData)
| TokenReply (r : TokenResponse)
| StatusOK
| Panic.

Record authorizeRequest := mkAuthorizeRequest {
  ar_ResponseType : string; ar_ClientID : string; ar_RedirectURI : string; ar_Scope : list string; ar_State : string;
  ar_CodeChallenge : string; ar_CodeChallengeMethod : string;
}.

Definition splitScopes (raw : string) : list string :=
  let raw := TrimSpace raw in if String.eqb raw "" then [] else Fields raw.

Definition parseAuthorizeRequest (r : request) : authorizeRequest :=
  let q := rq_query r in
  mkAuthorizeRequest (Get "response_type" q) (Get "client_id" q) (Get "redirect_uri" q) (splitScopes (Get "scope" q))
    (Get "state" q) (Get "code_challenge" q) (Get "code_challenge_method" q).

Definition with_state (state : string) (q : list (string * string)) : list (string * string) :=
  if String.eqb state "" then q else q ++ [("state"%string, state)].

Definition redirectWithError (redirectURI state code description : string) : response :=
  match Parse L redirectURI with
  | None => HTTPError description 400
  | Some u =>
      if String.eqb (Scheme u) "" then HTTPError description 400
      else SeeOther redirectURI (with_state state [("error"%string, code); ("error_description"%string, description)])
  end.

Definition redirectWithOAuthError (redirectURI state : string) (err : oerror) : response :=
  match err with
  | OAuthErr e => redirectWithError redirectURI state (Code e) (Description e)
  | ErrScopeNotAllowed => redirectWithError redirectURI state ErrCodeInvalidScope "requested scope not allowed for this client"
  | ErrInvalidRedirectURI => HTTPError "redirect_uri does not match client allow-list" 400
  | ErrPKCERequiredButMissing => redirectWithError redirectURI state ErrCodeInvalidRequest "PKCE required for public clients"
  | ErrInvalidCodeVerifier => redirectWithError redirectURI state ErrCodeInvalidRequest "code_verifier does not match challenge"
  | _ => redirectWithError redirectURI state ErrCodeServerError "internal error issuing authorization code"
  end.

Definition mapTokenError (err : oerror) : OAuthError :=
  match err with
  | OAuthErr e => e
  | ErrCodeNotFound | ErrCodeAlreadyConsumed | ErrInvalidRedirectURI | ErrInvalidCodeVerifier | ErrPKCERequiredButMissing
  | ErrRefreshTokenNotFound | ErrRefreshTokenReplay _ => mkOAuthError ErrCodeInvalidGrant "authorization grant invalid" 400
  | ErrScopeNotAllowed => mkOAuthError ErrCodeInvalidScope "scope not allowed" 400
  | ErrCanceled => mkOAuthError ErrCodeServerError "request cancelled" 503
  | _ => mkOAuthError ErrCodeServerError "internal error issuing token" 500
  end.

Definition writeOAuthError (e : OAuthError) : response :=
  OAuthReply (mkOAuthError (Code e) (Description e) (if HTTPStatus e =? 0 then 400 else HTTPStatus e)).
Definition oauth_error (code description : string) (status : Z) : response :=
  writeOAuthError (mkOAuthError code description status).

(** [csrf] is the nonce of [csrfNonce], [routePrefix] the mount point. *)
Definition Authorize (routePrefix : string) (d : delivery) (csrf : option (list Z)) (r : request) (s : DB) : response :=
  if negb (String.eqb (rq_method r) "GET") then HTTPError "method not allowed" 405
  else
    let req := parseAuthorizeRequest r in
    if negb (String.eqb (ar_ResponseType req) "code") then HTTPError "response_type must be 'code'" 400
    else if String.eqb (ar_ClientID req) "" then HTTPError "client_id required" 400
    else
      let '(userID, tenantID, ok) := rq_user r in
      if negb ok || String.eqb userID "" || String.eqb tenantID "" then HTTPError "authentication required" 401
      else match GetClient d tenantID (ar_ClientID req) s with
      | Err _ => HTTPError "unknown or inactive client" 400
      | Ok client =>
          if negb (redirectURIInAllowList (RedirectURIs client) (ar_RedirectURI req))
          then HTTPError "redirect_uri does not match client allow-list" 400
          else match List.find (fun sc => negb (containsString (AllowedScopes client) sc)) (ar_Scope req) with
          | Some sc =>
              redirectWithError (ar_RedirectURI req) (ar_State req) ErrCodeInvalidScope
                ("scope " +:+ sc +:+ " not allowed for this client")
          | None =>
              if String.eqb (ClientType client) ClientTypePublic && String.eqb (ar_CodeChallenge req) ""
              then redirectWithError (ar_RedirectURI req) (ar_State req) ErrCodeInvalidRequest "public clients must use PKCE"
              else match csrf with
              | None => HTTPError "csrf generation failed" 500
              | Some bytes =>
                  let csrf := base64url bytes in
                  Consent csrf (mkConsent (Name client) (HomepageURL client) (LogoURL client) (ar_Scope req) (ar_RedirectURI req)
                    (ar_ClientID req) (ar_State req) (ar_CodeChallenge req) (ar_CodeChallengeMethod req)
                    (routePrefix +:+ "/authorize/approve") csrf)
              end
          end
      end.

(** [d1] and [d2] are the fates of the read and of the insert. *)
Definition Approve (d1 d2 : delivery) (now : Z) (rand : option (list Z)) (r : request) (s : DB) : response * DB :=
  if negb (String.eqb (rq_method r) "POST") then (HTTPError "method not allowed" 405, s)
  else match rq_form r with
  | None => (HTTPError "malformed form" 400, s)
  | Some form =>
      let '(userID, tenantID, ok) := rq_user r in
      if negb ok || String.eqb userID "" || String.eqb tenantID "" then (HTTPError "authentication required" 401, s)
      else
        let cookie := default ""%string (rq_cookie r) in
        let formCSRF := Get "csrf_token" form in
        if String.eqb cookie "" || String.eqb formCSRF "" || negb (String.eqb cookie formCSRF)
        then (HTTPError "csrf token mismatch" 403, s)
        else
          let redirectURI := Get "redirect_uri" form in
          let state := Get "state" form in
          match GetClient d1 tenantID (Get "client_id" form) s with
          | Err _ => (HTTPError "unknown or inactive client" 400, s)
          | Ok client =>
              if negb (redirectURIInAllowList (RedirectURIs client) redirectURI)
              then (HTTPError "redirect_uri does not match client allow-list" 400, s)
              else if negb (String.eqb (Get "decision" form) "approve")
              then (redirectWithError redirectURI state ErrCodeAccessDenied "user denied consent", s)
              else
                let '(c, s) := IssueAuthorizationCode d2 now rand client userID redirectURI (splitScopes (Get "scope" form))
                                 (Get "code_challenge" form) (Get "code_challenge_method" form) s in
                match c with
                | Err e => (redirectWithOAuthError redirectURI state e, s)
                | Ok code =>
                    match Parse L redirectURI with
                    | None => (Panic, s)
                    | Some _ => (SeeOther redirectURI (with_state state [("code"%string, code)]), s)
                    end
                end
          end
  end.

(** The credentials of [/token] and [/revoke]. *)
Definition credentials (r : request) (form : gmap string string) : string * string :=
  match rq_basic r with Some c => c | None => (Get "client_id" form, Get "client_secret" form) end.

Definition authenticate (d1 d2 : delivery) (r : request) (form : gmap string string) (s : DB) : response + Client :=
  let '(clientID, clientSecret) := credentials r form in
  if String.eqb clientID "" then inl (oauth_error ErrCodeInvalidClient "client_id required" 401)
  else match LookupClientForExchange d1 clientID s with
  | Err _ => inl (oauth_error ErrCodeInvalidClient "unknown client" 401)
  | Ok client =>
      if String.eqb (ClientType client) ClientTypeConfidential
      then match VerifyClientSecret d2 client clientSecret s with
           | Err _ => inl (oauth_error ErrCodeInvalidClient "client authentication failed" 401)
           | Ok _ => inr client
           end
      else inr client
  end.

(** Fates of the calls of one request, its clock readings and its random data. *)
Record env := mkEnv {
  e_lookup : delivery; e_secret : delivery; e_tx : delivery; e_chain : delivery; e_now : Z; e_now' : Z; e_gen : gen;
}.

Definition token_reply (r : result oerror TokenResponse * DB) : response * DB :=
  (match r.1 with Ok resp => TokenReply resp | Err e => writeOAuthError (mapTokenError e) end, r.2).

Definition handleAuthCodeGrant (E : env) (form : gmap string string) (client : Client) (s : DB) : response * DB :=
  if String.eqb (Get "code" form) "" then (oauth_error ErrCodeInvalidRequest "code required" 400, s)
  else token_reply (ExchangeAuthorizationCode (e_tx E) (e_now E) (e_gen E) client (Get "code" form) (Get "redirect_uri" form)
                      (Get "code_verifier" form) s).

Definition handleRefreshGrant (E : env) (form : gmap string string) (client : Client) (s : DB) : response * DB :=
  if String.eqb (Get "refresh_token" form) "" then (oauth_error ErrCodeInvalidRequest "refresh_token required" 400, s)
  else token_reply (RefreshAccessToken (fun s => s) (e_tx E) (e_chain E) (e_now E) (e_now' E) (e_gen E) client (Get "refresh_token" form) s).

Definition Token (E : env) (r : request) (s : DB) : response * DB :=
  if negb (String.eqb (rq_method r) "POST") then (oauth_error ErrCodeInvalidRequest "POST required" 405, s)
  else match rq_form r with
  | None => (oauth_error ErrCodeInvalidRequest "malformed form body" 400, s)
  | Some form =>
      match authenticate (e_lookup E) (e_secret E) r form s with
      | inl resp => (resp, s)
      | inr client =>
          if String.eqb (Get "grant_type" form) GrantTypeAuthorizationCode then handleAuthCodeGrant E form client s
          else if String.eqb (Get "grant_type" form) GrantTypeRefreshToken then handleRefreshGrant E form client s
          else (oauth_error ErrCodeUnsupportedGrantType "grant_type must be authorization_code or refresh_token" 400, s)
      end
  end.

Definition Revoke (E : env) (r : request) (s : DB) : response * DB :=
  if negb (String.eqb (rq_method r) "POST") then (oauth_error ErrCodeInvalidRequest "POST required" 405, s)
  else match rq_form r with
  | None => (oauth_error ErrCodeInvalidRequest "malformed form body" 400, s)
  | Some form =>
      match authenticate (e_lookup E) (e_secret E) r form s with
      | inl resp => (resp, s)
      | inr client =>
          if String.eqb (Get "token" form) "" then (StatusOK, s)
          else
            let '(x, s) := RevokeToken (e_tx E) (e_now E) client (Get "token" form) s in
            (match x with
             | Ok _ => StatusOK
             | Err (OAuthErr e) => writeOAuthError e
             | Err _ => oauth_error ErrCodeServerError "revocation failed" 500
             end, s)
      end
  end.

(** ** Bearer middleware ([middleware.go]) *)
Definition extractBearerToken (authorization : string) : result string string :=
  if String.eqb authorization "" then Err "Authorization header missing"%string
  else
    let malformed := Err "Authorization header must be 'Bearer <token>'"%string in
    match split_first (Ascii.ascii_of_nat 32) authorization with
    | None => malformed
    | Some (scheme, rest) =>
        if negb (EqualFold scheme "Bearer") then malformed
        else if String.eqb (TrimSpace rest) "" then Err "Bearer token empty"%string
        else Ok (TrimSpace rest)
    end.

(** A request is passed on with its token context, or answered by a challenge:
    error code, description, status. *)
Inductive verdict := Pass (c : AccessTokenContext) | Challenge (code description : string) (status : Z).

Definition Wrap (d : delivery) (now : Z) (authorization : string) (s : DB) : verdict :=
  match extractBearerToken authorization with
  | Err e => Challenge ErrCodeInvalidRequest e 401
  | Ok token =>
      match ValidateAccessToken d now token s with
      | Ok tokenCtx => Pass tokenCtx
      | Err ErrAccessTokenNotFound => Challenge "invalid_token" "access token unknown, revoked, or expired" 401
      | Err _ => Challenge ErrCodeServerError "token validation failed" 500
      end
  end.

Definition RequireScope (requiredScope : string) (d : delivery) (now : Z) (authorization : string) (s : DB) : verdict :=
  match Wrap d now authorization s with
  | Pass tokenCtx =>
      if negb (HasScope tokenCtx requiredScope)
      then Challenge "insufficient_scope" ("token does not carry required scope " +:+ requiredScope) 403
      else Pass tokenCtx
  | v => v
  end.
End libraries.

Definition backslash : Ascii.ascii := Ascii.ascii_of_nat 92.
Definition dquote : Ascii.ascii := Ascii.ascii_of_nat 34.

Definition escape_byte (c : Ascii.ascii) : list Ascii.ascii :=
  let n := Ascii.nat_of_ascii c in
  if Ascii.eqb c backslash || Ascii.eqb c dquote then [backslash; c]
  else if ((n =? 9) || (n =? 32))%nat then [c]
  else if ((n <? 32) || (n =? 127))%nat then []
  else [c].
Definition quotedStringEscape (s : string) : string := on_ascii (fun l => l ≫= escape_byte) s.

(** The header of [writeWWWAuthenticate]. *)
Definition quoted (s : string) : string :=
  String.String dquote (quotedStringEscape s +:+ String.String dquote String.EmptyString).
Definition writeWWWAuthenticate (errorCode description : string) : string :=
  "Bearer realm=" +:+ quoted "kmail" +:+ ", error=" +:+ quoted errorCode +:+ ", error_description=" +:+ quoted description.

(** ** Grants and families

    What a code or token stands for: tenant, client, user, scopes. *)
Definition grant : Type := string * string * string * list string.
Definition code_grant (c : code_row) : grant := (a_TenantID c, a_ClientID c, a_UserID c, a_Scopes c).
Definition refresh_grant (r : refresh_row) : grant := (r_TenantID r, r_ClientID r, r_UserID r, r_Scopes r).
Definition access_grant (a : access_row) : grant := (t_TenantID a, t_ClientID a, t_UserID a, t_Scopes a).

(** [descends l a b]: the token [b] was obtained from [a] by rotations. *)
Inductive descends (l : list refresh_row) (a : string) : string -> Prop :=
| descends_refl r : r ∈ l -> r_ID r = a -> descends l a a
| descends_step b r : descends l a b -> r ∈ l -> r_Parent r = Some b -> descends l a (r_ID r).

(** Two tokens of one family have a common ancestor. *)
Definition family (l : list refresh_row) (x y : string) : Prop := exists a, descends l a x /\ descends l a y.

(** A registered client: what [RegisterClient] checked. *)
Definition client_ok (L : libs) (c : Client) : Prop :=
  TenantID c <> ""%string /\ (ClientType c = ClientTypeConfidential \/ ClientType c = ClientTypePublic) /\
  (forall u, u ∈ RedirectURIs c -> validateRedirectURI L u = Ok tt) /\ (forall sc, sc ∈ AllowedScopes c -> sc ∈ KnownScopes).

(** A code stays within what its client registered. *)
Definition code_ok (c : Client) (k : code_row) : Prop :=
  a_ClientID k = ID c /\ a_TenantID k = TenantID c /\ a_RedirectURI k ∈ RedirectURIs c /\
  (forall sc, sc ∈ a_Scopes k -> sc ∈ AllowedScopes c) /\
  (ClientType c = ClientTypePublic -> exists h, a_Challenge k = Some h /\ h <> ""%string).

(** A child was minted for the grant of its parent, which was revoked then. *)
Definition parent_ok (l : list refresh_row) : Prop :=
  forall i r p, l !! i = Some r -> r_Parent r = Some p ->
    exists j q, (j < i)%nat /\ l !! j = Some q /\ r_ID q = p /\ r_RevokedAt q <> None /\ refresh_grant r = refresh_grant q.

Definition linear (l : list refresh_row) : Prop :=
  forall r r' p, r ∈ l -> r' ∈ l -> r_Parent r = Some p -> r_Parent r' = Some p -> r = r'.

(** An access token belongs to a refresh token and does not outlive it. *)
Definition access_ok (l : list refresh_row) (a : access_row) : Prop :=
  exists q, q ∈ l /\ t_RefreshID a = Some (r_ID q) /\ access_grant a = refresh_grant q /\
    (t_RevokedAt a = None -> r_RevokedAt q = None).

Record wf (L : libs) (s : DB) : Prop := {
  wf_client_ids : NoDup ((fun r => ID (c_client r)) <$> clients s);
  wf_clients : forall r, r ∈ clients s -> client_ok L (c_client r);
  wf_code_hashes : NoDup (a_Hash <$> codes s);
  wf_codes : forall k, k ∈ codes s -> exists r, r ∈ clients s /\ code_ok (c_client r) k;
  wf_ids : NoDup (r_ID <$> refresh s);
  wf_hashes : NoDup (r_Hash <$> refresh s);
  wf_parents : parent_ok (refresh s);
  wf_linear : linear (refresh s);
  wf_access : forall a, a ∈ access s -> access_ok (refresh s) a;
  wf_access_hashes : NoDup (t_Hash <$> access s);
}.

(** Families correspond to redeemed codes. *)
Definition roots (l : list refresh_row) : list refresh_row := List.filter (fun r => unset (r_Parent r)) l.
Definition redeemed (l : list code_row) : list code_row := List.filter (fun c => negb (unset (a_ConsumedAt c))) l.
Definition roots_ok (s : DB) : Prop := refresh_grant <$> roots (refresh s) ≡ₚ code_grant <$> redeemed (codes s).
