(* ===== verification/OAuthTokens.v ===== *)
(** * Tokens of the OAuth2 server: families, invariant and theorems

    The invariant [wf] of the token tables is kept by every operation of
    [OAuth]; the theorems about whole histories follow from it. *)

From S2P Require Import Prelude Text Table OAuth.

Local Open Scope Z_scope.
Local Open Scope go_scope.

Lemma revoke_refresh_grant t r : refresh_grant (revoke_refresh t r) = refresh_grant r.
Proof. done. Qed.

(** What an updated row keeps. *)
Lemma revoke_refresh_if (b : bool) t r r' : r' = (if b then revoke_refresh t r else r) ->
  r_ID r' = r_ID r /\ r_Hash r' = r_Hash r /\ r_Parent r' = r_Parent r /\ refresh_grant r' = refresh_grant r /\
  (r_RevokedAt r <> None -> r_RevokedAt r' <> None) /\ (r_RevokedAt r' = None -> b = false /\ r_RevokedAt r = None).
Proof. intros ->. by destruct b. Qed.

Lemma revoke_access_if (b : bool) t a a' : a' = (if b then revoke_access t a else a) ->
  t_RefreshID a' = t_RefreshID a /\ access_grant a' = access_grant a /\ (t_RevokedAt a' = None -> b = false /\ t_RevokedAt a = None).
Proof. intros ->. by destruct b. Qed.

(** ** Families *)
Section families.
Context (l : list refresh_row) (Hids : NoDup (r_ID <$> l)) (Hpar : parent_ok l) (Hlin : linear l).

Lemma descends_in a b : descends l a b -> exists r, r ∈ l /\ r_ID r = b.
Proof. destruct 1; eauto. Qed.

Lemma descends_trans a b c : descends l a b -> descends l b c -> descends l a c.
Proof. intros Hab. induction 1; [done|]. by eapply descends_step. Qed.

Lemma parent_elem r p : r ∈ l -> r_Parent r = Some p ->
  exists q, q ∈ l /\ r_ID q = p /\ r_RevokedAt q <> None /\ refresh_grant r = refresh_grant q.
Proof.
  intros [i Hi]%list_elem_of_lookup Hp. destruct (Hpar i r p Hi Hp) as (j & q & _ & Hj & Hq). exists q.
  split; [by eapply list_elem_of_lookup_2|done].
Qed.

(** A token that was rotated is revoked. *)
Lemma descends_proper a b r : descends l a b -> a <> b -> r ∈ l -> r_ID r = a -> r_RevokedAt r <> None.
Proof.
  induction 1 as [|b x Hd IH Hx Hp]; [done|]. intros Hne Hr Hid.
  destruct (decide (a = b)) as [->|Hn]; [|by apply IH].
  destruct (parent_elem x b Hx Hp) as (q & Hq & Hqid & Hrev & _).
  by rewrite (NoDup_proj_eq r_ID l r q Hids Hr Hq) by congruence.
Qed.

Lemma descends_head a b : descends l a b -> a = b \/ exists r, r ∈ l /\ r_Parent r = Some a /\ descends l (r_ID r) b.
Proof.
  induction 1 as [|b x Hd IH Hx Hp]; [by left|]. right. destruct IH as [->|(r & Hr & Hrp & Hrd)].
  - exists x. split_and!; [done..|]. by eapply descends_refl.
  - exists r. split_and!; [done..|]. by eapply descends_step.
Qed.

(** Rotations do not fork. *)
Lemma descends_linear a x y : descends l a x -> descends l a y -> descends l x y \/ descends l y x.
Proof.
  intros Hx Hy. induction Hx as [|b r Hd IH Hr Hp]; [by left|].
  destruct IH as [IH|IH]; [|right; by eapply descends_step].
  destruct (descends_head _ _ IH) as [->|(z & Hz & Hzp & Hzd)].
  - right. eapply descends_step; [|done..]. destruct (descends_in _ _ IH) as (q & Hq & Hqid). by eapply descends_refl.
  - left. by rewrite (Hlin r z b).
Qed.

Lemma descends_grant a b r q : descends l a b -> r ∈ l -> q ∈ l -> r_ID r = a -> r_ID q = b -> refresh_grant q = refresh_grant r.
Proof.
  intros Hd Hr. revert q. induction Hd as [x Hx Ha|b x Hd IH Hx Hp]; intros q Hq Hra Hqb.
  - by rewrite (NoDup_proj_eq r_ID l q r Hids Hq Hr) by congruence.
  - rewrite (NoDup_proj_eq r_ID l q x Hids Hq Hx) by congruence.
    destruct (parent_elem x b Hx Hp) as (z & Hz & Hzid & _ & ->). by apply IH.
Qed.

(** Every token has a first ancestor. *)
Lemma has_root i r : l !! i = Some r -> exists q, q ∈ roots l /\ descends l (r_ID q) (r_ID r).
Proof.
  revert r. induction (Nat.lt_wf_0 i) as [i _ IH]. intros r Hi. assert (r ∈ l) as Hr by (by eapply list_elem_of_lookup_2).
  destruct (r_Parent r) as [p|] eqn:Hp.
  - destruct (Hpar i r p Hi Hp) as (j & q & Hj & Hq & Hqid & _). destruct (IH j Hj q Hq) as (z & Hz & Hzd).
    exists z. split; [done|]. eapply descends_step; [|done..]. by rewrite Hqid in Hzd.
  - exists r. split; [|by eapply descends_refl]. unfold roots. rewrite list_elem_of_In, filter_In, <- list_elem_of_In.
    by rewrite Hp.
Qed.

(** ** The recursive query *)
Lemma elem_of_children ids id : id ∈ children l ids <-> exists r, r ∈ l /\ r_ID r = id /\ exists p, p ∈ ids /\ r_Parent r = Some p.
Proof.
  unfold children. rewrite list_elem_of_bind. split.
  - intros (p & Hid & Hp). apply list_elem_of_fmap in Hid as (r & -> & Hr). rewrite list_elem_of_In, filter_In in Hr.
    destruct Hr as [Hr Hpar']. rewrite <- list_elem_of_In in Hr. exists r. split_and!; [done..|]. exists p. split; [done|].
    unfold is_id in Hpar'. destruct (r_Parent r); [|done]. apply String.eqb_eq in Hpar'. congruence.
  - intros (r & Hr & Hid & p & Hp & Hrp). exists p. split; [|done]. apply list_elem_of_fmap. exists r. split; [done|].
    rewrite list_elem_of_In, filter_In, <- list_elem_of_In. split; [done|]. rewrite Hrp. simpl. apply String.eqb_refl.
Qed.

Lemma elem_of_chain n w id : id ∈ chain n l w <-> exists k, (k < n)%nat /\ id ∈ Nat.iter k (children l) w.
Proof.
  revert w. induction n as [|n IH]; intros w.
  - simpl. split; [by intros ?%not_elem_of_nil|intros (k & Hk & _); lia].
  - destruct w as [|x w].
    + simpl. split; [by intros ?%not_elem_of_nil|]. intros (k & _ & Hk). exfalso. revert Hk. clear.
      assert (Nat.iter k (children l) [] = []) as ->; [|by intros ?%not_elem_of_nil].
      induction k as [|k IHk]; [done|]. simpl. by rewrite IHk.
    + change (chain (S n) l (x :: w)) with ((x :: w) ++ chain n l (children l (x :: w))). rewrite elem_of_app, IH. split.
      * intros [H|(k & Hk & H)]; [exists 0%nat; split; [lia|done]|]. exists (S k). split; [lia|]. by rewrite Nat.iter_succ_r.
      * intros (k & Hk & H). destruct k as [|k]; [by left|]. right. exists k. split; [lia|]. by rewrite Nat.iter_succ_r in H.
Qed.

Definition level (root : string) (k : nat) : list string :=
  Nat.iter k (children l) (r_ID <$> List.filter (fun r => String.eqb (r_ID r) root) l).

Lemma level_descends root k id : id ∈ level root k -> descends l root id.
Proof.
  revert id. induction k as [|k IH]; intros id; unfold level; simpl.
  - intros (r & -> & Hr)%list_elem_of_fmap. rewrite list_elem_of_In, filter_In, <- list_elem_of_In in Hr.
    destruct Hr as [Hr Hid%String.eqb_eq]. rewrite Hid. by eapply descends_refl.
  - intros (r & Hr & <- & p & Hp & Hrp)%elem_of_children. eapply descends_step; [by apply IH|done..].
Qed.

Lemma descends_level root id : descends l root id -> exists k, id ∈ level root k.
Proof.
  induction 1 as [r Hr Hid|b r Hd [k Hk] Hr Hp].
  - exists 0%nat. unfold level. simpl. apply list_elem_of_fmap. exists r. split; [done|].
    rewrite list_elem_of_In, filter_In, <- list_elem_of_In. split; [done|]. by apply String.eqb_eq.
  - exists (S k). unfold level. simpl. apply elem_of_children. exists r. split_and!; [done..|]. by exists b.
Qed.

(** Round [k] only finds rows at position [k] or later. *)
Lemma level_late root k id i r : id ∈ level root k -> l !! i = Some r -> r_ID r = id -> (k <= i)%nat.
Proof.
  revert id i r. induction k as [|k IH]; intros id i r Hid Hi Hr; [lia|].
  unfold level in Hid. simpl in Hid. apply elem_of_children in Hid as (x & Hx & Hxid & p & Hp & Hxp).
  apply list_elem_of_lookup in Hx as [i' Hi'].
  assert (i' = i) as ->.
  { eapply (NoDup_lookup (r_ID <$> l) i' i id Hids); rewrite list_lookup_fmap; [rewrite Hi'|rewrite Hi]; simpl; congruence. }
  destruct (Hpar i x p Hi' Hxp) as (j & q & Hj & Hq & Hqid & _). specialize (IH p j q Hp Hq Hqid). lia.
Qed.

Lemma level_bound root k id : id ∈ level root k -> (k < length l)%nat.
Proof.
  intros Hid. destruct (descends_in _ _ (level_descends _ _ _ Hid)) as (r & [i Hi]%list_elem_of_lookup & Hr).
  pose proof (level_late root k id i r Hid Hi Hr). apply lookup_lt_Some in Hi. lia.
Qed.

Lemma chain_ids_descends root id : id ∈ chain_ids l root <-> descends l root id.
Proof.
  unfold chain_ids. rewrite elem_of_chain. split.
  - intros (k & _ & Hk). by eapply level_descends.
  - intros (k & Hk)%descends_level. exists k. split; [by eapply level_bound|done].
Qed.

Lemma among_chain root id : among (chain_ids l root) id = true <-> descends l root id.
Proof.
  unfold among. rewrite existsb_elem, <- chain_ids_descends. split.
  - by intros (x & Hx & ->%String.eqb_eq).
  - intros H. exists id. split; [done|]. apply String.eqb_refl.
Qed.
End families.

(** ** Preservation *)
Lemma NoDup_snoc {A B} (g : A -> B) l a : NoDup (g <$> l) -> (forall x, x ∈ l -> g x <> g a) -> NoDup (g <$> (l ++ [a])).
Proof.
  intros Hnd Hne. rewrite fmap_app. apply NoDup_app. split_and!; [done| |apply NoDup_singleton].
  intros y (x & -> & Hx)%list_elem_of_fmap. cbn. rewrite list_elem_of_singleton. by apply Hne.
Qed.

Lemma insert_code_ok c s s' : insert_code c s = Ok s' ->
  s' = with_codes (codes s ++ [c]) s /\ (forall x, x ∈ codes s -> a_Hash x <> a_Hash c) /\ a_UserID c ∈ users s.
Proof.
  unfold insert_code. destruct (_ && _) eqn:Hg; [|done]. intros [= <-]. apply andb_prop in Hg as [Hf Hn].
  rewrite negb_true_iff, existsb_false in Hn. split_and!; [done| |].
  - intros x Hx. by apply String.eqb_neq, Hn.
  - unfold fk_ok in Hf. breflect. done.
Qed.

Lemma insert_refresh_ok r s s' : insert_refresh r s = Ok s' ->
  s' = with_refresh (refresh s ++ [r]) s /\ (forall x, x ∈ refresh s -> r_ID x <> r_ID r /\ r_Hash x <> r_Hash r).
Proof.
  unfold insert_refresh. destruct (_ && _) eqn:Hg; [|done]. intros [= <-]. apply andb_prop in Hg as [_ Hn].
  rewrite negb_true_iff, existsb_false in Hn. split; [done|]. intros x Hx%Hn. breflect. done.
Qed.

Lemma insert_access_ok a s s' : insert_access a s = Ok s' ->
  s' = with_access (access s ++ [a]) s /\ (forall x, x ∈ access s -> t_Hash x <> t_Hash a).
Proof.
  unfold insert_access. destruct (_ && _) eqn:Hg; [|done]. intros [= <-]. apply andb_prop in Hg as [_ Hn].
  rewrite negb_true_iff, existsb_false in Hn. split; [done|]. intros x Hx%Hn. breflect. done.
Qed.

Lemma parent_ok_update p t l : parent_ok l -> parent_ok (update p (revoke_refresh t) l).
Proof.
  intros H i r' x (r & Hi & (Hid & _ & Hp & Hg & _)%revoke_refresh_if)%lookup_update Hx. rewrite Hp in Hx.
  destruct (H i r x Hi Hx) as (j & q & Hj & Hq & Hqid & Hrev & Hgr).
  exists j, (if p q then revoke_refresh t q else q). destruct (revoke_refresh_if (p q) t q _ eq_refl) as (E1 & _ & _ & E2 & E3 & _).
  split_and!; [done| |congruence|by apply E3|congruence]. apply lookup_update. eauto.
Qed.

Lemma linear_update p t l : linear l -> linear (update p (revoke_refresh t) l).
Proof.
  intros H r' x' y (r & Hr & Er)%elem_of_update (x & Hx & Ex)%elem_of_update Hy Hy'.
  assert (r = x) as ->; [|congruence].
  destruct (revoke_refresh_if _ _ _ _ Er) as (_ & _ & Hp & _), (revoke_refresh_if _ _ _ _ Ex) as (_ & _ & Hp' & _).
  eapply H; [done..| |]; [rewrite <- Hp|rewrite <- Hp']; done.
Qed.

(** Revoking refresh tokens together with their access tokens. *)
Lemma wf_revoke L t p q s :
  wf L s ->
  (forall r a, r ∈ refresh s -> a ∈ access s -> t_RefreshID a = Some (r_ID r) -> p r = true -> t_RevokedAt a = None -> q a = true) ->
  wf L (with_access (update q (revoke_access t) (access s)) (with_refresh (update p (revoke_refresh t) (refresh s)) s)).
Proof.
  intros [H1 H2 H3 H4 H5 H6 H7 H8 H9 H10] Hpq. constructor; cbn; try done.
  - by rewrite update_proj.
  - by rewrite update_proj.
  - by apply parent_ok_update.
  - by apply linear_update.
  - intros a' (a & Ha & Ea)%elem_of_update. destruct (revoke_access_if _ _ _ _ Ea) as (Hid & Hg & Hr).
    destruct (H9 a Ha) as (r & Hrl & Hri & Hrg & Hrr). exists (if p r then revoke_refresh t r else r).
    destruct (revoke_refresh_if (p r) t r _ eq_refl) as (E1 & _ & _ & E2 & _).
    split_and!; [apply elem_of_update; eauto|congruence|congruence|]. intros [Hq Hn]%Hr.
    destruct (p r) eqn:Hp; [|by apply Hrr]. by rewrite (Hpq r a) in Hq.
  - by rewrite update_proj.
Qed.

Definition fresh_parent (r : refresh_row) (l : list refresh_row) : Prop :=
  forall p, r_Parent r = Some p ->
    (exists q, q ∈ l /\ r_ID q = p /\ r_RevokedAt q <> None /\ refresh_grant r = refresh_grant q) /\
    (forall x, x ∈ l -> r_Parent x <> Some p).

Lemma parent_ok_snoc l r : parent_ok l -> fresh_parent r l -> parent_ok (l ++ [r]).
Proof.
  intros H Hf i x p Hi Hp. apply lookup_app_Some in Hi as [Hi|[Hl Hi]].
  - destruct (H i x p Hi Hp) as (j & q & Hj & Hq & Hrest). exists j, q. split_and!; [done|by apply lookup_app_l_Some|apply Hrest..].
  - destruct (i - length l)%nat as [|n] eqn:En; [|done]. injection Hi as <-. destruct (Hf p Hp) as ((q & Hq & Hrest) & _).
    apply list_elem_of_lookup in Hq as [j Hj]. exists j, q. pose proof (lookup_lt_Some _ _ _ Hj).
    split_and!; [lia|by apply lookup_app_l_Some|apply Hrest..].
Qed.

Lemma linear_snoc l r : linear l -> fresh_parent r l -> linear (l ++ [r]).
Proof.
  intros H Hf x y p [Hx| ->%list_elem_of_singleton]%elem_of_app [Hy| ->%list_elem_of_singleton]%elem_of_app Hxp Hyp.
  - by eapply H.
  - by destruct (proj2 (Hf p Hyp) x Hx).
  - by destruct (proj2 (Hf p Hxp) y Hy).
  - done.
Qed.

Lemma wf_pair L r a s :
  wf L s -> (forall x, x ∈ refresh s -> r_ID x <> r_ID r /\ r_Hash x <> r_Hash r) ->
  (forall x, x ∈ access s -> t_Hash x <> t_Hash a) ->
  r_RevokedAt r = None -> t_RefreshID a = Some (r_ID r) -> access_grant a = refresh_grant r -> fresh_parent r (refresh s) ->
  wf L (with_access (access s ++ [a]) (with_refresh (refresh s ++ [r]) s)).
Proof.
  intros [H1 H2 H3 H4 H5 H6 H7 H8 H9 H10] Hn Hna Hr Ha Hg Hp.
  constructor; cbn in *; try done.
  - apply NoDup_snoc; [done|]. intros x Hx. apply Hn, Hx.
  - apply NoDup_snoc; [done|]. intros x Hx. apply Hn, Hx.
  - by apply parent_ok_snoc.
  - by apply linear_snoc.
  - intros x [Hx| ->%list_elem_of_singleton]%elem_of_app.
    + destruct (H9 x Hx) as (q & Hq & Hrest). exists q. split; [set_solver|done].
    + exists r. split_and!; [set_solver|done..].
  - by apply NoDup_snoc.
Qed.

Section operations.
Context (L : libs) (svc : Service).
Implicit Types (s : DB) (c : Client).

Abbreviation hash := (hashToken L).

(** The rows one mint adds. *)
Definition new_refresh (g : gen) c user scopes parent now plain : refresh_row :=
  mkRefresh (g_refreshID g) (TenantID c) (ID c) user (hash plain) scopes parent (micro (now + refreshTokenTTL svc)) None.
Definition new_access (g : gen) c user scopes now plain : access_row :=
  mkAccess (g_accessID g) (TenantID c) (ID c) user (hash plain) scopes (micro (now + accessTokenTTL svc)) None (Some (g_refreshID g)).

Lemma mint_ok g c user scopes parent now s resp s' :
  mintTokensTx L svc g c user scopes parent now s = Ok (resp, s') ->
  let r := new_refresh g c user scopes parent now (RefreshToken resp) in
  let a := new_access g c user scopes now (AccessToken resp) in
  s' = with_access (access s ++ [a]) (with_refresh (refresh s ++ [r]) s) /\ Scope resp = joinScopes scopes /\
  (forall x, x ∈ refresh s -> r_ID x <> r_ID r /\ r_Hash x <> r_Hash r) /\ (forall x, x ∈ access s -> t_Hash x <> t_Hash a).
Proof.
  unfold mintTokensTx. intros (pa & _ & (pr & _ & (s1 & H1 & (s2 & H2 & [= <- <-])%rbind_ok)%rbind_ok)%rbind_ok)%rbind_ok.
  cbn. apply insert_refresh_ok in H1 as [-> Hr]. apply insert_access_ok in H2 as [-> Ha]. done.
Qed.

(** ** Codes *)
Lemma GUC_ok t : SetTenantGUC t = Ok tt -> t <> ""%string.
Proof. unfold SetTenantGUC. by destruct (String.eqb_spec t ""). Qed.

Lemma find_client_ok p s c : find_client p s = Ok c -> exists r, r ∈ clients s /\ c_client r = c /\ p c = true.
Proof.
  unfold find_client. destruct (List.find _ _) as [r|] eqn:Hf; [|done]. intros [= <-]. apply find_elem in Hf as [Hr Hp]. eauto.
Qed.

Lemma each_ok {A} (f : A -> result oerror unit) l : each f l = Ok tt <-> forall a, a ∈ l -> f a = Ok tt.
Proof.
  induction l as [|a l IH]; simpl; [split; [intros _ a Ha; by apply not_elem_of_nil in Ha|done]|].
  split.
  - intros ([] & Ha & Hl)%rbind_ok. intros b [->|Hb]%elem_of_cons; [done|]. by apply IH.
  - intros H. rewrite (H a) by set_solver. simpl. apply IH. set_solver.
Qed.

Lemma containsString_spec l x : containsString l x = true <-> x ∈ l.
Proof.
  unfold containsString. rewrite existsb_elem. split; [by intros (y & Hy & <-%String.eqb_eq)|].
  intros H. exists x. split; [done|]. apply String.eqb_refl.
Qed.

Lemma validateGrant_ok c user uri scopes ch m : validateGrant c user uri scopes ch m = Ok tt ->
  user <> ""%string /\ uri ∈ RedirectURIs c /\ (forall sc, sc ∈ scopes -> sc ∈ AllowedScopes c) /\
  (ClientType c = ClientTypePublic -> ch <> ""%string) /\ bad_method m = false.
Proof.
  unfold validateGrant. destruct (String.eqb_spec user ""); [done|]. destruct (negb _) eqn:Hu; [done|].
  intros ([] & Hs & H)%rbind_ok. rewrite each_ok in Hs. destruct (_ && _) eqn:Hp; [done|]. destruct (bad_method m); [done|].
  split_and!; [done| | | |done].
  - apply negb_false_iff in Hu. by apply containsString_spec in Hu.
  - intros sc Hsc. specialize (Hs sc Hsc). cbn in Hs. apply containsString_spec. by destruct (containsString _ _).
  - intros Ht ->. rewrite Ht in Hp. done.
Qed.

(** What issuing a code does to the tables. *)
Lemma Issue_cases d now rand c user uri scopes ch m s r s' :
  IssueAuthorizationCode L svc d now rand c user uri scopes ch m s = (r, s') ->
  s' = s \/ exists k, s' = with_codes (codes s ++ [k]) s /\ code_ok c k /\ a_UserID k = user /\ user ∈ users s /\ a_ConsumedAt k = None /\
    (forall x, x ∈ codes s -> a_Hash x <> a_Hash k).
Proof.
  unfold IssueAuthorizationCode. destruct (rbind _ _) as [code|e] eqn:Hv; [|intros [= _ <-]; by left].
  apply rbind_ok in Hv as ([] & (Hu & Huri & Hsc & Hpk & _)%validateGrant_ok & _).
  intros H. apply (f_equal snd) in H. cbn [snd] in H. subst s'. apply BeginFunc_ind; [by left|].
  intros a s1 ([] & _ & (s2 & (-> & Hf & Hus)%insert_code_ok & [= <- <-])%rbind_ok)%rbind_ok. right. eexists.
  split_and!; [reflexivity| |done|done|done|done]. unfold code_ok. cbn. split_and!; [done..|].
  intros Ht%Hpk. exists ch. by destruct (String.eqb_spec ch "").
Qed.

Lemma wf_issue d now rand c user uri scopes ch m s cr :
  wf L s -> cr ∈ clients s -> c_client cr = c -> wf L (IssueAuthorizationCode L svc d now rand c user uri scopes ch m s).2.
Proof.
  intros Hwf Hcr Hc. destruct (IssueAuthorizationCode _ _ _ _ _ _ _ _ _ _ _ _) as [r s'] eqn:Hi. simpl.
  apply Issue_cases in Hi as [->|(k & -> & Hk & _ & _ & _ & Hn)]; [done|]. destruct Hwf as [H1 H2 H3 H4 H5 H6 H7 H8 H9 H10].
  constructor; cbn; try done.
  - by apply NoDup_snoc.
  - intros x [Hx| ->%list_elem_of_singleton]%elem_of_app; [by apply H4|]. exists cr. by rewrite Hc.
Qed.

(** ** Exchanges *)
Definition redeemed_state (t : Z) (h : string) (r : refresh_row) (a : access_row) s : DB :=
  mkDB (tenants s) (users s) (clients s) (update (redeemable h t) (consume t) (codes s)) (refresh s ++ [r]) (access s ++ [a]).

Lemma redeem_ok now g c h uri ver s resp s' :
  redeem L svc now g c h uri ver s = Ok (resp, s') ->
  exists k, k ∈ codes s /\ redeemable h (micro now) k = true /\ checkCode L c uri ver k = Ok tt /\
    let r := new_refresh g c (a_UserID k) (a_Scopes k) None now (RefreshToken resp) in
    let a := new_access g c (a_UserID k) (a_Scopes k) now (AccessToken resp) in
    s' = redeemed_state (micro now) h r a s /\ Scope resp = joinScopes (a_Scopes k) /\
    (forall x, x ∈ refresh s -> r_ID x <> r_ID r /\ r_Hash x <> r_Hash r) /\ (forall x, x ∈ access s -> t_Hash x <> t_Hash a).
Proof.
  unfold redeem. intros ([] & _ & H)%rbind_ok. destruct (List.find _ _) as [k|] eqn:Hf; [|done].
  apply find_elem in Hf as [Hk Hr]. apply rbind_ok in H as ([] & Hc & H). apply mint_ok in H as (-> & Hs & Hn). exists k. done.
Qed.

Lemma checkCode_ok c uri ver k : checkCode L c uri ver k = Ok tt ->
  a_ClientID k = ID c /\ a_TenantID k = TenantID c /\ a_RedirectURI k = uri /\
  ((a_Challenge k = None \/ a_Challenge k = Some ""%string) /\ ClientType c <> ClientTypePublic \/
   exists ch, a_Challenge k = Some ch /\ ch <> ""%string /\ ver <> ""%string /\
     verifyPKCE L ch ver (default CodeChallengeMethodPlain (a_Method k)) = true).
Proof.
  unfold checkCode. intros H. destruct (negb _) eqn:E1; [done|]. destruct (negb (String.eqb (a_TenantID _) _)) eqn:E2; [done|].
  destruct (negb (String.eqb (a_RedirectURI _) _)) eqn:E3; [done|]. breflect. split_and!; [done..|].
  destruct (negb (String.eqb (default _ _) _)) eqn:E4; breflect.
  - right. destruct (a_Challenge k) as [ch|]; [|done]. exists ch. destruct (String.eqb_spec ver ""); [done|].
    destruct (negb (verifyPKCE _ _ _ _)) eqn:E5; [done|]. apply negb_false_iff in E5. done.
  - left. destruct (String.eqb_spec (ClientType c) ClientTypePublic); [done|]. split; [|done].
    destruct (a_Challenge k); simpl in E4; subst; auto.
Qed.

Lemma redeemable_unique h t l1 k l2 :
  NoDup (a_Hash <$> (l1 ++ k :: l2)) -> redeemable h t k = true ->
  update (redeemable h t) (consume t) (l1 ++ k :: l2) = l1 ++ consume t k :: l2.
Proof.
  intros Hnd Hk. assert (forall x, x ∈ l1 ++ l2 -> redeemable h t x = false) as Hx.
  { intros x Hx. unfold redeemable in *. breflect. destruct (String.eqb_spec (a_Hash x) h) as [He|]; [|done]. exfalso.
    rewrite fmap_app, fmap_cons in Hnd. apply NoDup_app in Hnd as (_ & Hd & [Hn _]%NoDup_cons).
    apply elem_of_app in Hx as [Hx|Hx].
    - apply (Hd (a_Hash x)); [by apply list_elem_of_fmap_2|]. apply elem_of_cons. left. congruence.
    - apply Hn. replace (a_Hash k) with (a_Hash x) by congruence. by apply list_elem_of_fmap_2. }
  unfold update. rewrite fmap_app, fmap_cons, Hk.
  change (update (redeemable h t) (consume t) l1 ++ consume t k :: update (redeemable h t) (consume t) l2 = l1 ++ consume t k :: l2).
  rewrite !update_none by (intros; apply Hx; set_solver). done.
Qed.

Lemma redeemed_update h t k l :
  NoDup (a_Hash <$> l) -> k ∈ l -> redeemable h t k = true ->
  code_grant <$> redeemed (update (redeemable h t) (consume t) l) ≡ₚ (code_grant <$> redeemed l) ++ [code_grant k].
Proof.
  intros Hnd (l1 & l2 & ->)%list_elem_of_split Hk. rewrite redeemable_unique by done.
  unfold redeemed. rewrite !List.filter_app. cbn [List.filter].
  assert (unset (a_ConsumedAt k) = true) as -> by (unfold redeemable in Hk; breflect; done).
  cbn. rewrite !fmap_app, fmap_cons. cbn. change (code_grant (consume t k)) with (code_grant k).
  rewrite <- app_assoc. apply Permutation_app_head. apply Permutation_cons_append.
Qed.

Definition inv s : Prop := wf L s /\ roots_ok s.

Lemma wf_consume h t s : wf L s -> wf L (with_codes (update (redeemable h t) (consume t) (codes s)) s).
Proof.
  intros [H1 H2 H3 H4 H5 H6 H7 H8 H9 H10]. constructor; cbn; try done.
  - by rewrite update_proj.
  - intros x (k & Hk & ->)%elem_of_update. destruct (H4 k Hk) as (r & Hr & Ho). exists r. split; [done|].
    by destruct (redeemable h t k).
Qed.

Lemma roots_snoc l r : roots (l ++ [r]) = roots l ++ (if unset (r_Parent r) then [r] else []).
Proof. unfold roots. rewrite List.filter_app. simpl. by destruct (unset _). Qed.

Lemma inv_redeem now g c h uri ver s resp s' :
  inv s -> redeem L svc now g c h uri ver s = Ok (resp, s') -> inv s'.
Proof.
  intros [Hwf Hro] (k & Hk & Hr & Hc & -> & _ & Hn & Hna)%redeem_ok. apply checkCode_ok in Hc as (Hci & Hct & _).
  split.
  - apply (wf_pair L _ _ (with_codes (update (redeemable h (micro now)) (consume (micro now)) (codes s)) s)); try done.
    by apply wf_consume.
  - unfold roots_ok. cbn. rewrite roots_snoc. cbn. rewrite fmap_app, redeemed_update by (done || apply Hwf).
    apply Permutation_app; [done|]. cbn. unfold refresh_grant, code_grant, new_refresh. cbn. by rewrite Hci, Hct.
Qed.

(** Every token goes back to a redeemed code. *)
Lemma refresh_code s r : inv s -> r ∈ refresh s ->
  exists k cr, k ∈ codes s /\ a_ConsumedAt k <> None /\ code_grant k = refresh_grant r /\ cr ∈ clients s /\ code_ok (c_client cr) k.
Proof.
  intros [Hwf Hro] Hr. pose proof Hr as [i Hi]%list_elem_of_lookup.
  destruct (has_root (refresh s) (wf_parents _ _ Hwf) i r Hi) as (q & Hq & Hd).
  assert (q ∈ refresh s) as Hq'. { unfold roots in Hq. rewrite list_elem_of_In, filter_In, <- list_elem_of_In in Hq. apply Hq. }
  pose proof (descends_grant (refresh s) (wf_ids _ _ Hwf) (wf_parents _ _ Hwf) _ _ q r Hd Hq' Hr eq_refl eq_refl) as Hg.
  assert (refresh_grant q ∈ code_grant <$> redeemed (codes s)) as Hin.
  { eapply elem_of_Permutation_proper; [symmetry; exact Hro|]. by apply list_elem_of_fmap_2. }
  apply list_elem_of_fmap in Hin as (k & Hk & Hkr). unfold redeemed in Hkr. rewrite list_elem_of_In, filter_In, <- list_elem_of_In in Hkr.
  destruct Hkr as [Hkin Hcons]. destruct (wf_codes _ _ Hwf k Hkin) as (cr & Hcr & Hok). exists k, cr.
  split_and!; [done| |congruence|done|done]. by destruct (a_ConsumedAt k).
Qed.

(** ** Rotation *)
Lemma refreshable_unique h t s r : wf L s -> r ∈ refresh s -> refreshable h t r = true ->
  forall x, x ∈ refresh s -> refreshable h t x = true -> x = r.
Proof.
  intros Hwf Hr Ht x Hx Hxt. apply (NoDup_proj_eq r_Hash (refresh s)); [apply Hwf|done..|].
  unfold refreshable in *. breflect. congruence.
Qed.

Definition rotated_state (t : Z) (h id : string) (r : refresh_row) (a : access_row) s : DB :=
  mkDB (tenants s) (users s) (clients s) (codes s) (update (refreshable h t) (revoke_refresh t) (refresh s) ++ [r])
    (update (by_refresh id) (revoke_access t) (access s) ++ [a]).

Lemma rotate_ok now g c h s resp s' :
  rotate L svc now g c h s = Ok (resp, s') ->
  exists q, q ∈ refresh s /\ refreshable h (micro now) q = true /\ r_ClientID q = ID c /\
    let r := new_refresh g c (r_UserID q) (r_Scopes q) (Some (r_ID q)) now (RefreshToken resp) in
    let a := new_access g c (r_UserID q) (r_Scopes q) now (AccessToken resp) in
    s' = rotated_state (micro now) h (r_ID q) r a s /\ Scope resp = joinScopes (r_Scopes q) /\
    (forall x, x ∈ refresh s -> r_ID x <> r_ID r /\ r_Hash x <> r_Hash r) /\ (forall x, x ∈ access s -> t_Hash x <> t_Hash a).
Proof.
  unfold rotate. intros ([] & _ & H)%rbind_ok. destruct (List.find _ _) as [q|] eqn:Hf.
  2: { by repeat break_guard_in H. }
  apply find_elem in Hf as [Hq Hr]. destruct (negb _) eqn:Hc; [done|]. breflect.
  apply rbind_ok in H as ([resp' s1] & Hm & [= -> <-]). apply mint_ok in Hm as (-> & Hs & Hn & Hna). exists q. cbn in *.
  assert (forall x, x ∈ refresh s -> r_ID x <> g_refreshID g /\ r_Hash x <> hash (RefreshToken resp)) as Hn'.
  { intros x Hx. destruct (Hn (if refreshable h (micro now) x then revoke_refresh (micro now) x else x)) as [N1 N2].
    - apply elem_of_update. eauto.
    - by destruct (refreshable h (micro now) x). }
  split_and!; [done..| |done|done|done]. unfold rotated_state, with_access. cbn. f_equal.
  unfold update. rewrite fmap_app. f_equal. cbn. unfold by_refresh at 1. cbn.
  destruct (String.eqb_spec (g_refreshID g) (r_ID q)) as [He|]; [|done]. by destruct (proj1 (Hn' q Hq)).
Qed.

(** The client of a token row is the registered one. *)
Lemma token_tenant s r cr : inv s -> r ∈ refresh s -> cr ∈ clients s -> r_ClientID r = ID (c_client cr) -> r_TenantID r = TenantID (c_client cr).
Proof.
  intros Hinv Hr Hcr Hid. destruct (refresh_code s r Hinv Hr) as (k & cr' & _ & _ & Hg & Hcr' & Hk & Hkt & _).
  unfold code_grant, refresh_grant in Hg. injection Hg as E1 E2 E3 E4.
  assert (cr' = cr) as ->.
  { apply (NoDup_proj_eq (fun x => ID (c_client x)) (clients s)); [apply Hinv|done..|]. congruence. }
  congruence.
Qed.

Lemma inv_rotate now g cr h s resp s' :
  inv s -> cr ∈ clients s -> rotate L svc now g (c_client cr) h s = Ok (resp, s') -> inv s'.
Proof.
  intros Hinv Hcr (q & Hq & Hr & Hc & -> & _ & Hn & Hna)%rotate_ok. pose proof Hinv as [Hwf Hro].
  pose proof (token_tenant s q cr Hinv Hq Hcr Hc) as Ht. pose proof (refreshable_unique h (micro now) s q Hwf Hq Hr) as Hu.
  set (s1 := with_access (update (by_refresh (r_ID q)) (revoke_access (micro now)) (access s))
               (with_refresh (update (refreshable h (micro now)) (revoke_refresh (micro now)) (refresh s)) s)).
  assert (wf L s1) as Hwf1.
  { apply wf_revoke; [done|]. intros x a Hx _ Ha Hxr Hun. rewrite (Hu x Hx Hxr) in Ha. unfold by_refresh.
    rewrite Ha, Hun. simpl. by rewrite String.eqb_refl. }
  split.
  - apply (wf_pair L _ _ s1); try done.
    + intros x (y & Hy & (E1 & E2 & _)%revoke_refresh_if)%elem_of_update. rewrite E1, E2. by apply Hn.
    + intros x (y & Hy & ->)%elem_of_update. destruct (by_refresh _ y); apply (Hna y Hy).
    + intros p [= <-]. split.
      * exists (revoke_refresh (micro now) q). split_and!; [|done..|].
        -- apply elem_of_update. exists q. by rewrite Hr.
        -- unfold refresh_grant. cbn. by rewrite Ht, Hc.
      * intros x (y & Hy & (_ & _ & -> & _)%revoke_refresh_if)%elem_of_update Hp.
        destruct (parent_elem (refresh s) (wf_parents _ _ Hwf) y _ Hy Hp) as (z & Hz & Hzid & Hzr & _).
        rewrite (NoDup_proj_eq r_ID (refresh s) z q) in Hzr by (done || apply Hwf). unfold refreshable in Hr. breflect.
        by destruct (r_RevokedAt q).
  - unfold roots_ok. cbn. rewrite roots_snoc, app_nil_r. unfold roots. rewrite update_filter, update_proj by done. done.
Qed.

(** ** Revocations *)
Lemma children_update p t l ids : children (update p (revoke_refresh t) l) ids = children l ids.
Proof.
  unfold children. induction ids as [|i ids IH]; [done|]. rewrite !bind_cons, IH. f_equal.
  by rewrite update_filter, update_proj.
Qed.

Lemma chain_update p t n l w : chain n (update p (revoke_refresh t) l) w = chain n l w.
Proof. revert w. induction n as [|n IH]; intros w; [done|]. simpl. destruct w; [done|]. by rewrite children_update, IH. Qed.

Lemma chain_ids_update p t l root : chain_ids (update p (revoke_refresh t) l) root = chain_ids l root.
Proof.
  unfold chain_ids. rewrite chain_update. unfold update at 1. rewrite length_fmap. fold (update p (revoke_refresh t) l).
  by rewrite update_filter, update_proj.
Qed.

Definition revoked_state (t : Z) (p : refresh_row -> bool) (q : access_row -> bool) s : DB :=
  with_access (update q (revoke_access t) (access s)) (with_refresh (update p (revoke_refresh t) (refresh s)) s).

Lemma inv_revoke t p q s :
  inv s ->
  (forall r a, r ∈ refresh s -> a ∈ access s -> t_RefreshID a = Some (r_ID r) -> p r = true -> t_RevokedAt a = None -> q a = true) ->
  inv (revoked_state t p q s).
Proof.
  intros [Hwf Hro] H. split; [by apply wf_revoke|]. unfold roots_ok, revoked_state. cbn. unfold roots.
  by rewrite update_filter, update_proj.
Qed.

Definition in_chain (root : string) s (r : refresh_row) : bool := among (chain_ids (refresh s) root) (r_ID r) && unset (r_RevokedAt r).
Definition under_chain (root : string) s (a : access_row) : bool :=
  match t_RefreshID a with Some id => among (chain_ids (refresh s) root) id | None => false end && unset (t_RevokedAt a).

Lemma revokeRefreshChain_eq d now tenant root s :
  (revokeRefreshChain d now tenant root s).2 = s \/
  (revokeRefreshChain d now tenant root s).2 = revoked_state (micro now) (in_chain root s) (under_chain root s) s.
Proof.
  unfold revokeRefreshChain. apply BeginFunc_ind; [by left|]. intros [] s' ([] & _ & [= <-])%rbind_ok. right.
  unfold revoke_access_in, revoke_refresh_in, revoked_state, with_access. cbn. by rewrite chain_ids_update.
Qed.

Lemma inv_chain d now tenant root s : inv s -> inv (revokeRefreshChain d now tenant root s).2.
Proof.
  intros Hinv. destruct (revokeRefreshChain_eq d now tenant root s) as [->| ->]; [done|]. apply inv_revoke; [done|].
  intros r a _ _ Ha. unfold in_chain, under_chain. rewrite Ha. intros [-> _]%andb_prop ->. done.
Qed.

Lemma inv_refresh d d' now now' g cr tok s :
  inv s -> cr ∈ clients s -> inv (RefreshAccessToken L svc (fun s => s) d d' now now' g (c_client cr) tok s).2.
Proof.
  intros Hinv Hcr. unfold RefreshAccessToken. destruct (String.eqb tok ""); [done|].
  assert (inv (BeginFunc ErrStore d (rotate L svc now g (c_client cr) (hash tok)) s).2) as H.
  { apply BeginFunc_ind; [done|]. intros resp s'. by apply inv_rotate. }
  destruct (BeginFunc _ _ _ s) as [r s1]. cbn in H. destruct r as [resp|e]; [done|]. destruct e; try done.
  destruct (revokeRefreshChain _ _ _ _ _) as [c s2] eqn:Hch. cbn.
  change s2 with (c, s2).2. rewrite <- Hch. by apply inv_chain.
Qed.

Lemma inv_exchange d now g c code uri ver s : inv s -> inv (ExchangeAuthorizationCode L svc d now g c code uri ver s).2.
Proof.
  intros Hinv. unfold ExchangeAuthorizationCode.
  assert (inv (BeginFunc ErrStore d (redeem L svc now g c (hash code) uri ver) s).2) as H.
  { apply BeginFunc_ind; [done|]. intros resp s'. by apply inv_redeem. }
  by destruct (BeginFunc _ _ _ s) as [r s1].
Qed.

Lemma inv_revoke_token d now c tok s : inv s -> inv (RevokeToken L d now c tok s).2.
Proof.
  intros Hinv. unfold RevokeToken. apply BeginFunc_ind; [done|]. intros [] s' ([] & _ & H)%rbind_ok.
  destruct (List.find _ (access s)) as [a|] eqn:Hf.
  - destruct (negb _); [done|]. injection H as <-.
    pose proof (inv_revoke (micro now) (fun _ => false) (fun a => String.eqb (t_Hash a) (hash tok) && unset (t_RevokedAt a)) s Hinv) as Hr.
    unfold revoked_state in Hr. rewrite (update_none _ _ (refresh s)) in Hr by done. destruct s. by apply Hr.
  - destruct (List.find _ (refresh s)) as [r|]; [|by injection H as <-]. destruct (negb _); [done|]. injection H as <-.
    apply (inv_revoke (micro now) (fun x => String.eqb (r_ID x) (r_ID r) && unset (r_RevokedAt x)) (by_refresh (r_ID r)) s); [done|].
    intros x y _ _ Hy [Hid _]%andb_prop Hun. apply String.eqb_eq in Hid. unfold by_refresh. rewrite Hy, Hun. simpl.
    by rewrite Hid, String.eqb_refl.
Qed.

(** ** Registration *)
Lemma validateClient_ok i : validateClient L i = Ok tt ->
  i_tenantID i <> ""%string /\ (i_clientType i = ClientTypeConfidential \/ i_clientType i = ClientTypePublic) /\
  i_redirectURIs i <> [] /\ (forall u, u ∈ i_redirectURIs i -> validateRedirectURI L u = Ok tt) /\
  (forall sc, sc ∈ i_allowedScopes i -> sc ∈ KnownScopes).
Proof.
  unfold validateClient. destruct (String.eqb_spec (i_tenantID i) ""); [done|]. destruct (String.eqb _ _); [done|].
  destruct (negb _ && negb _) eqn:Ht; [done|]. destruct (i_redirectURIs i) eqn:Hu; [done|]. rewrite <- Hu.
  intros ([] & Hr & ([] & _ & ([] & _ & Hs)%rbind_ok)%rbind_ok)%rbind_ok. rewrite each_ok in Hr, Hs. split_and!; [done| |congruence|done|].
  - destruct (String.eqb_spec (i_clientType i) ClientTypeConfidential); [by left|]. right. cbn in Ht.
    apply negb_false_iff in Ht. by apply String.eqb_eq.
  - intros sc Hsc. specialize (Hs sc Hsc). cbn in Hs. case_bool_decide; done.
Qed.

Lemma inv_register d r1 r2 bc id dbnow i s : inv s -> inv (RegisterClient L d r1 r2 bc id dbnow i s).2.
Proof.
  intros Hinv. unfold RegisterClient. destruct (rbind _ _) as [[[cid sec] h]|e] eqn:Hv; [|done].
  apply rbind_ok in Hv as ([] & (Ht & Hty & _ & Hu & Hs)%validateClient_ok & _).
  apply BeginFunc_ind; [done|]. intros [c p] s' ([] & _ & H)%rbind_ok. destruct (_ && _) eqn:Hg; [|done]. injection H as _ _ <-.
  apply andb_prop in Hg as [_ Hn]. rewrite negb_true_iff, existsb_false in Hn.
  destruct Hinv as [[H1 H2 H3 H4 H5 H6 H7 H8 H9 H10] Hro]. split; [|done]. constructor; cbn; try done.
  - apply NoDup_snoc; [done|]. intros x Hx%Hn. cbn. by breflect.
  - intros x [Hx| ->%list_elem_of_singleton]%elem_of_app; [by apply H2|done].
  - intros k Hk. destruct (H4 k Hk) as (r & Hr & Ho). exists r. split; [set_solver|done].
Qed.

(** ** Handlers *)
Lemma query_ok {A} d (f : DB -> result oerror A) s a : query d f s = Ok a -> f s = Ok a.
Proof. by destruct d. Qed.

Lemma GetClient_ok d t id s c : GetClient d t id s = Ok c -> exists r, r ∈ clients s /\ c_client r = c /\ TenantID c = t /\ ClientID c = id /\ Active c = true.
Proof.
  unfold GetClient. destruct (_ || _); [done|]. intros (r & Hr & Hc & Hp)%query_ok%find_client_ok. exists r. breflect. done.
Qed.

Lemma authenticate_ok d1 d2 r form s c : authenticate L d1 d2 r form s = inr c ->
  exists cr, cr ∈ clients s /\ c_client cr = c /\ ClientID c = (credentials r form).1 /\ Active c = true /\
    (ClientType c = ClientTypeConfidential -> VerifyClientSecret L d2 c (credentials r form).2 s = Ok tt).
Proof.
  unfold authenticate. destruct (credentials r form) as [cid sec]. destruct (String.eqb_spec cid ""); [done|].
  unfold LookupClientForExchange. destruct (String.eqb_spec cid ""); [done|]. destruct (query _ _ _) as [c'|] eqn:Hq; [|done].
  apply query_ok, find_client_ok in Hq as (cr & Hcr & Hc & Hp). breflect.
  destruct (String.eqb_spec (ClientType c') ClientTypeConfidential) as [Ht|Ht].
  - destruct (VerifyClientSecret _ _ _ _ _) as [[]|] eqn:Hv; [|done]. intros [= <-]. exists cr. done.
  - intros [= <-]. exists cr. done.
Qed.

Lemma inv_approve d1 d2 now rand r s : inv s -> inv (Approve L svc d1 d2 now rand r s).2.
Proof.
  intros Hinv. unfold Approve. destruct (negb _); [done|]. destruct (rq_form r) as [form|]; [|done].
  destruct (rq_user r) as [[user tenant] ok]. destruct (_ || _ || _); [done|]. destruct (_ || _ || _); [done|].
  destruct (GetClient _ _ _ _) as [c|] eqn:Hc; [|done]. destruct (negb _); [done|]. destruct (negb _); [done|].
  apply GetClient_ok in Hc as (cr & Hcr & Hc & _).
  destruct (IssueAuthorizationCode _ _ _ _ _ _ _ _ _ _ _ _) as [x s'] eqn:Hi.
  assert (inv s') as Hinv'; [|destruct x; [by destruct (Parse _ _)|done]].
  split; [change s' with (x, s').2; rewrite <- Hi; by eapply wf_issue; [apply Hinv|..]|].
  apply Issue_cases in Hi as [->|(k & -> & _ & _ & _ & Hk & _)]; [apply Hinv|]. destruct Hinv as [_ Hro]. unfold roots_ok. cbn.
  unfold redeemed. rewrite List.filter_app. cbn. by rewrite Hk, app_nil_r.
Qed.

Lemma inv_token E r s : inv s -> inv (Token L svc E r s).2.
Proof.
  intros Hinv. unfold Token. destruct (negb _); [done|]. destruct (rq_form r) as [form|]; [|done].
  destruct (authenticate _ _ _ _ _ _) as [resp|c] eqn:Ha; [done|]. apply authenticate_ok in Ha as (cr & Hcr & <- & _).
  destruct (String.eqb _ _).
  - unfold handleAuthCodeGrant. destruct (String.eqb _ _); [done|]. cbn. by apply inv_exchange.
  - destruct (String.eqb _ _); [|done]. unfold handleRefreshGrant. destruct (String.eqb _ _); [done|]. cbn. by apply inv_refresh.
Qed.

Lemma inv_revoke_request E r s : inv s -> inv (Revoke L E r s).2.
Proof.
  intros Hinv. unfold Revoke. destruct (negb _); [done|]. destruct (rq_form r) as [form|]; [|done].
  destruct (authenticate _ _ _ _ _ _) as [resp|c]; [done|]. destruct (String.eqb _ _); [done|].
  pose proof (inv_revoke_token (e_tx E) (e_now E) c (Get "token" form) s Hinv) as H. by destruct (RevokeToken _ _ _ _ _ _).
Qed.

(** ** Histories *)
Inductive event :=
| EvRegister (d : delivery) (rand_id rand_secret : option (list Z)) (bcrypt : string -> option string) (id : string) (dbnow : Z) (i : ClientInput)
| EvApprove (d1 d2 : delivery) (now : Z) (rand : option (list Z)) (r : request)
| EvToken (E : env) (r : request)
| EvRevoke (E : env) (r : request).

Definition handle (s : DB) (e : event) : DB :=
  match e with
  | EvRegister d r1 r2 bc id dbnow i => (RegisterClient L d r1 r2 bc id dbnow i s).2
  | EvApprove d1 d2 now rand r => (Approve L svc d1 d2 now rand r s).2
  | EvToken E r => (Token L svc E r s).2
  | EvRevoke E r => (Revoke L E r s).2
  end.

Definition run (s : DB) (es : list event) : DB := foldl handle s es.
Definition empty_db (ts us : gset string) : DB := mkDB ts us [] [] [] [].

Lemma inv_handle s e : inv s -> inv (handle s e).
Proof. destruct e; simpl; auto using inv_register, inv_approve, inv_token, inv_revoke_request. Qed.

Lemma inv_run s es : inv s -> inv (run s es).
Proof. revert s. induction es as [|e es IH]; intros s Hs; [done|]. simpl. by apply IH, inv_handle. Qed.

Lemma inv_empty ts us : inv (empty_db ts us).
Proof.
  split; [|apply perm_nil]. constructor; cbn; try apply NoDup_nil_2; try (intros ? ?%not_elem_of_nil; done).
  - by intros i r p ?.
  - by intros r r' p ?%not_elem_of_nil.
Qed.

Lemma inv_history ts us es : inv (run (empty_db ts us) es).
Proof. apply inv_run, inv_empty. Qed.

(** ** What is never undone *)
Definition keeps (s s' : DB) : Prop :=
  (forall k, k ∈ codes s -> exists k', k' ∈ codes s' /\ a_Hash k' = a_Hash k /\ (a_ConsumedAt k <> None -> k' = k)) /\
  (forall r, r ∈ refresh s -> exists r', r' ∈ refresh s' /\ r_ID r' = r_ID r /\ r_Hash r' = r_Hash r /\ r_Parent r' = r_Parent r /\
     (r_RevokedAt r <> None -> r' = r)) /\
  (forall a, a ∈ access s -> exists a', a' ∈ access s' /\ t_Hash a' = t_Hash a /\ (t_RevokedAt a <> None -> a' = a)).

#[local] Instance keeps_refl : Reflexive keeps.
Proof. intros s. split_and!; intros x Hx; exists x; done. Qed.

#[local] Instance keeps_trans : Transitive keeps.
Proof.
  intros s1 s2 s3 (A1 & B1 & C1) (A2 & B2 & C2). split_and!.
  - intros k Hk. destruct (A1 k Hk) as (k2 & Hk2 & E2 & F2), (A2 k2 Hk2) as (k3 & Hk3 & E3 & F3).
    exists k3. split_and!; [done|congruence|]. intros Hn. rewrite (F2 Hn) in *. by apply F3.
  - intros k Hk. destruct (B1 k Hk) as (k2 & Hk2 & E2 & G2 & P2 & F2), (B2 k2 Hk2) as (k3 & Hk3 & E3 & G3 & P3 & F3).
    exists k3. split_and!; [done|congruence..|]. intros Hn. rewrite (F2 Hn) in *. by apply F3.
  - intros k Hk. destruct (C1 k Hk) as (k2 & Hk2 & E2 & F2), (C2 k2 Hk2) as (k3 & Hk3 & E3 & F3).
    exists k3. split_and!; [done|congruence|]. intros Hn. rewrite (F2 Hn) in *. by apply F3.
Qed.

(** Guarded updates followed by appends. *)
Lemma keeps_update t t' t'' pc pr pa xc xr xa cl s :
  (forall k, pc k = true -> a_ConsumedAt k = None) -> (forall r, pr r = true -> r_RevokedAt r = None) ->
  (forall a, pa a = true -> t_RevokedAt a = None) ->
  keeps s (mkDB (tenants s) (users s) cl (update pc (consume t) (codes s) ++ xc)
             (update pr (revoke_refresh t') (refresh s) ++ xr) (update pa (revoke_access t'') (access s) ++ xa)).
Proof.
  intros Hc Hr Ha. split_and!; intros x Hx; cbn.
  - exists (if pc x then consume t x else x). split_and!.
    + apply elem_of_app. left. apply elem_of_update. eauto.
    + by destruct (pc x).
    + intros Hn. destruct (pc x) eqn:E; [|done]. by apply Hc in E.
  - exists (if pr x then revoke_refresh t' x else x). destruct (revoke_refresh_if (pr x) t' x _ eq_refl) as (E1 & E2 & E3 & _).
    split_and!; [|done..|].
    + apply elem_of_app. left. apply elem_of_update. eauto.
    + intros Hn. destruct (pr x) eqn:E; [|done]. by apply Hr in E.
  - exists (if pa x then revoke_access t'' x else x). split_and!.
    + apply elem_of_app. left. apply elem_of_update. eauto.
    + by destruct (pa x).
    + intros Hn. destruct (pa x) eqn:E; [|done]. by apply Ha in E.
Qed.

Lemma unset_none {A} (o : option A) : unset o = true -> o = None.
Proof. by destruct o. Qed.

Lemma update_false {A} (f : A -> A) l : update (fun _ => false) f l = l.
Proof. by apply update_none. Qed.

Lemma keeps_redeemed t h r a s : keeps s (redeemed_state t h r a s).
Proof.
  pose proof (keeps_update t 0 0 (redeemable h t) (fun _ => false) (fun _ => false) [] [r] [a] (clients s) s) as H.
  rewrite !update_false, app_nil_r in H. apply H; try done. unfold redeemable. intros k Hk. breflect. by apply unset_none.
Qed.

Lemma keeps_rotated t h id r a s : keeps s (rotated_state t h id r a s).
Proof.
  pose proof (keeps_update 0 t t (fun _ => false) (refreshable h t) (by_refresh id) [] [r] [a] (clients s) s) as H.
  rewrite !update_false, app_nil_r in H. apply H; try done.
  - unfold refreshable. intros k Hk. breflect. by apply unset_none.
  - unfold by_refresh. intros k Hk. breflect. by apply unset_none.
Qed.

Lemma keeps_revoked t p q s : (forall r, p r = true -> r_RevokedAt r = None) -> (forall a, q a = true -> t_RevokedAt a = None) ->
  keeps s (revoked_state t p q s).
Proof.
  intros Hp Hq. pose proof (keeps_update 0 t t (fun _ => false) p q [] [] [] (clients s) s) as H.
  rewrite !update_false, !app_nil_r in H. by apply H.
Qed.

Lemma keeps_append xc cl s : keeps s (mkDB (tenants s) (users s) cl (codes s ++ xc) (refresh s) (access s)).
Proof.
  pose proof (keeps_update 0 0 0 (fun _ => false) (fun _ => false) (fun _ => false) xc [] [] cl s) as H.
  rewrite !update_false, !app_nil_r in H. by apply H.
Qed.

Lemma keeps_chain d now tenant root s : keeps s (revokeRefreshChain d now tenant root s).2.
Proof.
  destruct (revokeRefreshChain_eq d now tenant root s) as [->| ->]; [done|]. apply keeps_revoked.
  - unfold in_chain. intros r [_ H]%andb_prop. by apply unset_none.
  - unfold under_chain. intros a [_ H]%andb_prop. by apply unset_none.
Qed.

Lemma keeps_refresh d d' now now' g c tok s : keeps s (RefreshAccessToken L svc (fun s => s) d d' now now' g c tok s).2.
Proof.
  unfold RefreshAccessToken. destruct (String.eqb tok ""); [done|].
  assert (keeps s (BeginFunc ErrStore d (rotate L svc now g c (hash tok)) s).2) as H.
  { apply BeginFunc_ind; [done|]. intros resp s' (q & _ & _ & _ & -> & _)%rotate_ok. apply keeps_rotated. }
  destruct (BeginFunc _ _ _ s) as [r s1]. cbn in H. destruct r as [resp|e]; [done|]. destruct e; try done.
  pose proof (keeps_chain d' now' (TenantID c) replayRowID s1) as H2. destruct (revokeRefreshChain _ _ _ _ _). by etransitivity.
Qed.

Lemma keeps_exchange d now g c code uri ver s : keeps s (ExchangeAuthorizationCode L svc d now g c code uri ver s).2.
Proof.
  unfold ExchangeAuthorizationCode.
  assert (keeps s (BeginFunc ErrStore d (redeem L svc now g c (hash code) uri ver) s).2) as H.
  { apply BeginFunc_ind; [done|]. intros resp s' (q & _ & _ & _ & -> & _)%redeem_ok. apply keeps_redeemed. }
  by destruct (BeginFunc _ _ _ s).
Qed.

Lemma keeps_revoke_token d now c tok s : keeps s (RevokeToken L d now c tok s).2.
Proof.
  unfold RevokeToken. apply BeginFunc_ind; [done|]. intros [] s' ([] & _ & H)%rbind_ok.
  destruct (List.find _ (access s)) as [a|] eqn:Hf.
  - destruct (negb _); [done|]. injection H as <-.
    pose proof (keeps_revoked (micro now) (fun _ => false) (fun a => String.eqb (t_Hash a) (hash tok) && unset (t_RevokedAt a)) s) as Hr.
    unfold revoked_state in Hr. rewrite update_false in Hr. destruct s. apply Hr; [done|].
    intros x [_ Hx]%andb_prop. by apply unset_none.
  - destruct (List.find _ (refresh s)) as [r|]; [|by injection H as <-]. destruct (negb _); [done|]. injection H as <-.
    apply (keeps_revoked (micro now) (fun x => String.eqb (r_ID x) (r_ID r) && unset (r_RevokedAt x)) (by_refresh (r_ID r)) s).
    + intros x [_ Hx]%andb_prop. by apply unset_none.
    + unfold by_refresh. intros x [_ Hx]%andb_prop. by apply unset_none.
Qed.

Lemma keeps_handle s e : keeps s (handle s e).
Proof.
  destruct e as [d r1 r2 bc id dbnow i|d1 d2 now rand r|E r|E r]; simpl.
  - unfold RegisterClient. destruct (rbind _ _) as [[[cid sec] h]|]; [|done]. apply BeginFunc_ind; [done|].
    intros [c p] s' ([] & _ & H)%rbind_ok. destruct (_ && _); [|done]. injection H as _ _ <-.
    pose proof (keeps_append [] (clients s ++ [mkClientRow (mkClient id (i_tenantID i) cid (i_clientType i) (i_name i) (i_homepageURL i)
      (i_logoURL i) (i_redirectURIs i) (i_allowedScopes i) true dbnow dbnow) h]) s) as H. by rewrite app_nil_r in H.
  - unfold Approve. destruct (negb _); [done|]. destruct (rq_form r) as [form|]; [|done].
    destruct (rq_user r) as [[user tenant] ok]. do 2 (destruct (_ || _ || _); [done|]).
    destruct (GetClient _ _ _ _); [|done]. do 2 (destruct (negb _); [done|]).
    destruct (IssueAuthorizationCode _ _ _ _ _ _ _ _ _ _ _ _) as [x s'] eqn:Hi.
    assert (keeps s s') as Hk; [|destruct x; [by destruct (Parse _ _)|done]].
    apply Issue_cases in Hi as [->|(k & -> & _)]; [done|apply keeps_append].
  - unfold Token. destruct (negb _); [done|]. destruct (rq_form r); [|done]. destruct (authenticate _ _ _ _ _ _); [done|].
    unfold handleAuthCodeGrant, handleRefreshGrant.
    repeat (destruct (String.eqb _ _); [try done; simpl; auto using keeps_exchange, keeps_refresh|]); try done;
      simpl; auto using keeps_exchange, keeps_refresh.
  - unfold Revoke. destruct (negb _); [done|]. destruct (rq_form r) as [form|]; [|done].
    destruct (authenticate _ _ _ _ _ _) as [resp|c]; [done|]. destruct (String.eqb _ _); [done|].
    pose proof (keeps_revoke_token (e_tx E) (e_now E) c (Get "token" form) s) as H. by destruct (RevokeToken _ _ _ _ _ _).
Qed.

Lemma keeps_run s es : keeps s (run s es).
Proof. revert s. induction es as [|e es IH]; intros s; [done|]. simpl. etransitivity; [apply keeps_handle|apply IH]. Qed.

(** ** Theorems *)

(** C30: every token goes back to a consent.  After any history of
    registrations, approvals, token and revocation requests, an access token in
    the table belongs to a refresh token and to a redeemed authorization code
    for the same tenant, client, user and scopes; the code's client is
    registered in that tenant and was allowed every one of those scopes, all of
    them known. *)
Theorem tokens_trace_to_consent ts us es a :
  a ∈ access (run (empty_db ts us) es) ->
  exists q k cr, q ∈ refresh (run (empty_db ts us) es) /\ t_RefreshID a = Some (r_ID q) /\ refresh_grant q = access_grant a /\
    k ∈ codes (run (empty_db ts us) es) /\ a_ConsumedAt k <> None /\ code_grant k = access_grant a /\
    cr ∈ clients (run (empty_db ts us) es) /\ ID (c_client cr) = t_ClientID a /\ TenantID (c_client cr) = t_TenantID a /\
    (forall sc, sc ∈ t_Scopes a -> sc ∈ AllowedScopes (c_client cr) /\ sc ∈ KnownScopes).
Proof.
  intros Ha. pose proof (inv_history ts us es) as Hinv. destruct (wf_access _ _ (proj1 Hinv) a Ha) as (q & Hq & Hid & Hg & _).
  destruct (refresh_code _ q Hinv Hq) as (k & cr & Hk & Hc & Hkg & Hcr & Hok & Hokt & _ & Hsc & _).
  exists q, k, cr. rewrite Hg. unfold access_grant, refresh_grant, code_grant in *. simplify_eq. split_and!; try congruence.
  intros sc Hs. assert (sc ∈ AllowedScopes (c_client cr)) as Hal by (apply Hsc; congruence). split; [done|].
  by apply (wf_clients _ _ (proj1 Hinv) cr Hcr).
Qed.

(** A code is worth one token family.  After any history, the refresh
    tokens that were not obtained by rotation correspond one to one to the
    redeemed codes, with equal tenant, client, user and scopes. *)
Theorem one_family_per_code ts us es :
  refresh_grant <$> roots (refresh (run (empty_db ts us) es)) ≡ₚ code_grant <$> redeemed (codes (run (empty_db ts us) es)).
Proof. apply inv_history. Qed.

Lemma exchange_err d now g c code uri ver s e s' :
  ExchangeAuthorizationCode L svc d now g c code uri ver s = (Err e, s') -> d <> ReplyLost -> s' = s.
Proof.
  unfold ExchangeAuthorizationCode, BeginFunc. intros H Hd. destruct d; [|by simplify_eq|done].
  destruct (redeem _ _ _ _ _ _ _ _ _) as [[r s1]|e1]; [done|]. by destruct e1; simplify_eq.
Qed.

(** What an exchange requires and does.  Tokens are returned only for a code
    that is stored, not consumed and not expired, and only to the client,
    tenant and redirect URI it was issued for, with a verifier that matches its
    challenge; a public client cannot do without a challenge.  The code is then
    consumed, one pair with the user and scopes of the code is added and nothing
    else changes.  On an error nothing changes. *)
Theorem exchange_spec d now g c code uri ver s r s' :
  ExchangeAuthorizationCode L svc d now g c code uri ver s = (r, s') ->
  match r with
  | Ok resp =>
      exists k, k ∈ codes s /\ a_Hash k = hash code /\ a_ConsumedAt k = None /\ micro now < a_ExpiresAt k /\
        a_ClientID k = ID c /\ a_TenantID k = TenantID c /\ a_RedirectURI k = uri /\
        ((a_Challenge k = None \/ a_Challenge k = Some ""%string) /\ ClientType c <> ClientTypePublic \/
         exists ch, a_Challenge k = Some ch /\ ver <> ""%string /\
           verifyPKCE L ch ver (default CodeChallengeMethodPlain (a_Method k)) = true) /\
        s' = redeemed_state (micro now) (hash code) (new_refresh g c (a_UserID k) (a_Scopes k) None now (RefreshToken resp))
               (new_access g c (a_UserID k) (a_Scopes k) now (AccessToken resp)) s /\
        Scope resp = joinScopes (a_Scopes k)
  | Err _ => d <> ReplyLost -> s' = s
  end.
Proof.
  intros H. destruct r as [resp|e]; [|intros Hd; by eapply exchange_err].
  assert (redeem L svc now g c (hash code) uri ver s = Ok (resp, s')) as Hr.
  { unfold ExchangeAuthorizationCode, BeginFunc in H. destruct d, (redeem _ _ _ _ _ _ _ _ _) as [[]|[]]; simplify_eq; done. }
  apply redeem_ok in Hr as (k & Hk & Hre & (H1 & H2 & H3 & H4)%checkCode_ok & Hs & Hsc & _). exists k.
  unfold redeemable in Hre. breflect. split_and!; try done; [by apply unset_none|].
  destruct H4 as [H4|(ch & E1 & _ & E2 & E3)]; [by left|right; by exists ch].
Qed.

Lemma code_unique s k k' : wf L s -> k ∈ codes s -> k' ∈ codes s -> a_Hash k = a_Hash k' -> k = k'.
Proof. intros Hwf. apply NoDup_proj_eq, Hwf. Qed.

(** C31: a code is redeemed at most once.  Once an exchange returned tokens,
    every later exchange of that code, by any client and after any history of
    calls in between, issues nothing: it is an error (an invalid grant, when
    the transaction goes through), and every token in the tables afterwards
    was there before. *)
Theorem code_redeemed_once d now g c code uri ver s resp s1 es d' now' g' c' uri' ver' r s2 :
  inv s -> ExchangeAuthorizationCode L svc d now g c code uri ver s = (Ok resp, s1) -> TenantID c' <> ""%string ->
  ExchangeAuthorizationCode L svc d' now' g' c' code uri' ver' (run s1 es) = (r, s2) ->
  is_ok r = false /\ (d' = Delivered -> r = Err (invalid_grant "authorization code not found, expired, or already consumed")) /\
  (forall a, a ∈ access s2 -> t_Hash a ∈ t_Hash <$> access (run s1 es)) /\ (forall q, q ∈ refresh s2 -> r_Hash q ∈ r_Hash <$> refresh (run s1 es)).
Proof.
  intros Hinv Hx Ht H2. pose proof (inv_exchange d now g c code uri ver s Hinv) as Hi1. rewrite Hx in Hi1. cbn in Hi1.
  assert (exists k, k ∈ codes s1 /\ a_Hash k = hash code /\ a_ConsumedAt k <> None) as (k & Hk & Hh & Hc).
  { unfold ExchangeAuthorizationCode, BeginFunc in Hx.
    assert (redeem L svc now g c (hash code) uri ver s = Ok (resp, s1)) as (k & Hk & Hr & _ & -> & _)%redeem_ok.
    { destruct d, (redeem _ _ _ _ _ _ _ _ _) as [[]|[]]; simplify_eq; done. }
    exists (consume (micro now) k). split_and!; [|by unfold redeemable in Hr; breflect|done].
    apply elem_of_update. exists k. by rewrite Hr. }
  destruct (proj1 (keeps_run s1 es) k Hk) as (k' & Hk' & _ & Hkk). rewrite (Hkk Hc) in Hk'. clear Hkk.
  enough (r = Err (match d' with Delivered => invalid_grant "authorization code not found, expired, or already consumed" | _ => ErrStore end) /\ s2 = run s1 es) as [-> ->].
  { split_and!; [done|by intros ->|..]; intros y Hy; by apply list_elem_of_fmap_2. }
  unfold ExchangeAuthorizationCode, BeginFunc, redeem, SetTenantGUC in H2.
  destruct (String.eqb_spec (TenantID c') ""); [done|]. simpl in H2.
  destruct (List.find _ _) as [x|] eqn:Hf; [|destruct d'; by simplify_eq]. exfalso. apply find_elem in Hf as [Hx' Hr]. unfold redeemable in Hr. breflect.
  rewrite (code_unique (run s1 es) x k) in * by (congruence || done || apply (inv_run s1 es Hi1)).
  by destruct (a_ConsumedAt k).
Qed.

(** At most one refresh token of a family is usable.  After any history, two
    refresh tokens with a common ancestor that are both not revoked are the
    same. *)
Theorem live_token_unique ts us es x y :
  let l := refresh (run (empty_db ts us) es) in
  x ∈ l -> y ∈ l -> family l (r_ID x) (r_ID y) -> r_RevokedAt x = None -> r_RevokedAt y = None -> x = y.
Proof.
  intros l Hx Hy (a & Ha & Hb) Hrx Hry. pose proof (inv_history ts us es) as [Hwf _]. fold l in Hwf.
  destruct (decide (r_ID x = r_ID y)) as [He|Hne]; [by apply (NoDup_proj_eq r_ID l); [apply Hwf|..]|]. exfalso.
  destruct (descends_linear l (wf_linear _ _ Hwf) a (r_ID x) (r_ID y) Ha Hb) as [Hd|Hd].
  - by destruct (descends_proper l (wf_ids _ _ Hwf) (wf_parents _ _ Hwf) _ _ x Hd Hne Hx eq_refl).
  - by destruct (descends_proper l (wf_ids _ _ Hwf) (wf_parents _ _ Hwf) _ _ y Hd (not_eq_sym Hne) Hy eq_refl).
Qed.

(** A replayed token is answered by revoking its chain. *)
Lemma replay_state between now now' g c tok s r :
  wf L s -> TenantID c <> ""%string -> tok <> ""%string -> r ∈ refresh s -> r_Hash r = hash tok -> r_RevokedAt r <> None ->
  RefreshAccessToken L svc between Delivered Delivered now now' g c tok s =
    (Err (invalid_grant "refresh token replay detected — token family revoked"),
     let z := between s in revoked_state (micro now') (in_chain (r_ID r) z) (under_chain (r_ID r) z) z).
Proof.
  intros Hwf Ht Htok Hr Hh Hrev. unfold RefreshAccessToken. destruct (String.eqb_spec tok ""); [done|].
  assert (rotate L svc now g c (hash tok) s = Err (ErrRefreshTokenReplay (r_ID r))) as Hrot.
  { unfold rotate, SetTenantGUC. destruct (String.eqb_spec (TenantID c) ""); [done|]. simpl.
    assert (forall x, x ∈ refresh s -> r_Hash x = hash tok -> x = r) as Hu.
    { intros x Hx Hxh. apply (NoDup_proj_eq r_Hash (refresh s)); [apply Hwf|done|done|congruence]. }
    destruct (List.find (refreshable _ _) _) as [x|] eqn:Hf.
    - apply find_elem in Hf as [Hx Hx']. unfold refreshable in Hx'. breflect. rewrite (Hu x) in * by done. by destruct (r_RevokedAt r).
    - destruct (List.find _ (refresh s)) as [x|] eqn:Hf2 in |- *.
      + apply find_elem in Hf2 as [Hx ->%String.eqb_eq%Hu]; [|done]. by destruct (r_RevokedAt r).
      + apply find_none_elem with (x := r) in Hf2; [|done]. by apply String.eqb_neq in Hf2. }
  unfold BeginFunc. rewrite Hrot. unfold revokeRefreshChain, BeginFunc, SetTenantGUC.
  destruct (String.eqb_spec (TenantID c) ""); [done|]. simpl. f_equal.
  unfold revoke_access_in, revoke_refresh_in, revoked_state, with_access. cbn. by rewrite chain_ids_update.
Qed.

(** C12: a replayed refresh token ends its family.  Presenting a refresh token
    that was rotated away is refused as an invalid grant, and when the call
    returns no refresh token of its family, older or newer, and no access
    token issued under one of them is left unrevoked, whatever other calls
    complete between the transaction that finds the replay and the one that
    revokes, those that rotate the family included.  Both transactions reach
    the database, and the revocation is taken as one step: a rotation that
    commits while its update is at work is not covered. *)
Theorem replay_revokes_family es now now' g c tok s0 r s' resp :
  inv s0 -> TenantID c <> ""%string -> tok <> ""%string -> r ∈ refresh s0 -> r_Hash r = hash tok -> r_RevokedAt r <> None ->
  RefreshAccessToken L svc (fun s => run s es) Delivered Delivered now now' g c tok s0 = (resp, s') ->
  resp = Err (invalid_grant "refresh token replay detected — token family revoked") /\
  forall x, family (refresh (run s0 es)) (r_ID r) x ->
    (forall q, q ∈ refresh s' -> r_ID q = x -> r_RevokedAt q <> None) /\
    (forall a, a ∈ access s' -> t_RefreshID a = Some x -> t_RevokedAt a <> None).
Proof.
  intros Hinv0 Ht Htok Hr0 Hh Hrev Hx. rewrite (replay_state _ now now' g c tok s0 r) in Hx by (done || apply Hinv0). cbn zeta in Hx. injection Hx as <- <-.
  split; [done|]. assert (r ∈ refresh (run s0 es)) as Hr.
  { destruct (proj1 (proj2 (keeps_run s0 es)) r Hr0) as (r' & Hr' & _ & _ & _ & E). by rewrite (E Hrev) in Hr'. }
  pose proof (inv_run s0 es Hinv0) as Hinv. revert Hinv Hr. generalize (run s0 es). intros s Hinv Hr x Hfam. pose proof (proj1 Hinv) as Hwf.
  assert (forall q, q ∈ refresh (revoked_state (micro now') (in_chain (r_ID r) s) (under_chain (r_ID r) s) s) -> r_ID q = x ->
    r_RevokedAt q <> None) as Hq.
  { intros q' (q & Hq & Hq')%elem_of_update Hid. destruct (revoke_refresh_if _ _ _ _ Hq') as (E1 & _ & _ & _ & E5 & E6). intros Hn.
    destruct (E6 Hn) as [Hin Hn0]. rewrite E1 in Hid. unfold in_chain in Hin. rewrite Hn0, andb_true_r in Hin.
    destruct (decide (r_ID r = x)) as [He|Hne].
    { by rewrite (NoDup_proj_eq r_ID (refresh s) r q) in Hrev by (congruence || apply Hwf). }
    destruct Hfam as (a & Ha & Hb). destruct (descends_linear (refresh s) (wf_linear _ _ Hwf) a _ _ Ha Hb) as [Hd|Hd].
    - rewrite <- Hid, <- (among_chain (refresh s) (wf_ids _ _ Hwf) (wf_parents _ _ Hwf)) in Hd. by rewrite Hd in Hin.
    - by destruct (descends_proper (refresh s) (wf_ids _ _ Hwf) (wf_parents _ _ Hwf) _ _ q Hd (not_eq_sym Hne) Hq Hid). }
  split; [done|]. intros a Ha Hid Hn.
  assert (inv (revoked_state (micro now') (in_chain (r_ID r) s) (under_chain (r_ID r) s) s)) as Hinv'.
  { apply inv_revoke; [done|]. intros y z _ _ Hz. unfold in_chain, under_chain. rewrite Hz. intros [-> _]%andb_prop ->. done. }
  destruct (wf_access _ _ (proj1 Hinv') a Ha) as (q & Hq1 & Hq2 & _ & Hq4). apply (Hq q Hq1); [congruence|]. by apply Hq4.
Qed.

(** A scope that covers [want]. *)
Definition covers (granted want : string) : Prop :=
  granted = want \/ (granted, want) ∈ [(ScopeWriteMail, ScopeReadMail); (ScopeWriteCalendar, ScopeReadCalendar); (ScopeWriteContacts, ScopeReadContacts)].

Lemma isWrite_covers sc want : isWriteScopeImplyingRead sc want = true -> covers sc want.
Proof.
  unfold isWriteScopeImplyingRead. intros H. right. repeat break_guard_in H; breflect; subst; try done; set_solver.
Qed.

Lemma ScopesInclude_sound l want : ScopesInclude l want = true -> exists g, g ∈ l /\ covers g want.
Proof.
  induction l as [|sc l IH]; simpl; [done|]. destruct (String.eqb_spec sc want) as [->|].
  - intros _. exists want. split; [set_solver|by left].
  - destruct (isWriteScopeImplyingRead sc want) eqn:E.
    + intros _. exists sc. split; [set_solver|by apply isWrite_covers].
    + intros (g & Hg & Hc)%IH. exists g. split; [set_solver|done].
Qed.

Lemma validate_ok d now tok s tc : ValidateAccessToken L d now tok s = Ok tc ->
  exists a, a ∈ access s /\ t_Hash a = hash tok /\ active_client (t_ClientID a) s = true /\ t_RevokedAt a = None /\ micro now < t_ExpiresAt a /\
    tc = mkATC (t_ID a) (t_TenantID a) (t_UserID a) (t_ClientID a) (t_Scopes a) (t_ExpiresAt a).
Proof.
  unfold ValidateAccessToken. destruct (String.eqb tok ""); [done|]. intros H%query_ok.
  destruct (List.find _ _) as [a|] eqn:Hf; [|done]. apply find_elem in Hf as [Ha Hp]. injection H as <-. breflect.
  exists a. split_and!; try done. by apply unset_none.
Qed.

(** What a bearer token proves.  If, after any history, the middleware lets a
    request through for a scope, then its token is not revoked or expired, its
    refresh token is not revoked, its client is active, and there is a code for
    the same tenant, client and user, redeemed, that was granted a scope
    covering the required one. *)
Theorem accepted_bearer ts us es scope d now authorization tc :
  let s := run (empty_db ts us) es in
  RequireScope L scope d now authorization s = Pass tc ->
  exists a q k, a ∈ access s /\ t_RevokedAt a = None /\ micro now < t_ExpiresAt a /\ active_client (t_ClientID a) s = true /\
    q ∈ refresh s /\ t_RefreshID a = Some (r_ID q) /\ r_RevokedAt q = None /\
    k ∈ codes s /\ a_ConsumedAt k <> None /\
    (a_TenantID k, a_ClientID k, a_UserID k) = (tc_TenantID tc, tc_ClientID tc, tc_UserID tc) /\
    exists g, g ∈ a_Scopes k /\ covers g scope.
Proof.
  intros s H. unfold RequireScope, Wrap in H. destruct (extractBearerToken _) as [tok|]; [|done].
  destruct (ValidateAccessToken _ _ _ _ _) as [tc'|[]] eqn:Hv; try done.
  destruct (negb _) eqn:Hs; [done|]. injection H as <-. apply negb_false_iff, ScopesInclude_sound in Hs as (g & Hg & Hcov).
  apply validate_ok in Hv as (a & Ha & _ & Hact & Hrev & Hexp & ->). pose proof (inv_history ts us es) as Hinv. fold s in Hinv.
  destruct (wf_access _ _ (proj1 Hinv) a Ha) as (q & Hq & Hqid & Hqg & Hqr).
  destruct (refresh_code s q Hinv Hq) as (k & cr & Hk & Hkc & Hkg & _). exists a, q, k.
  unfold access_grant, refresh_grant, code_grant in *. simplify_eq. split_and!; try done; [by apply Hqr|cbn; congruence|].
  exists g. split; [|done]. cbn in Hg. congruence.
Qed.

(** Revocation is final.  A token whose row is revoked is refused after any
    further history, at any time. *)
Theorem revocation_final s es d now tok a :
  inv s -> a ∈ access s -> t_Hash a = hash tok -> t_RevokedAt a <> None ->
  is_ok (ValidateAccessToken L d now tok (run s es)) = false.
Proof.
  intros Hinv Ha Hh Hrev. destruct (ValidateAccessToken _ _ _ _ _) as [tc|] eqn:Hv; [|done].
  apply validate_ok in Hv as (b & Hb & Hbh & _ & Hbr & _). exfalso.
  destruct (proj2 (proj2 (keeps_run s es)) a Ha) as (a' & Ha' & _ & Hk). rewrite (Hk Hrev) in Ha'.
  rewrite (NoDup_proj_eq t_Hash (access (run s es)) b a) in Hbr; [done|apply (inv_run s es Hinv)|done..|congruence].
Qed.

(** The recursive query over [parent_id] ends.  After any history its working
    table is empty after at most as many rounds as there are rows, and the ids
    it collected are the descendants of the starting row, no more and no
    less. *)
Theorem chain_query_terminates ts us es root :
  let l := refresh (run (empty_db ts us) es) in
  Nat.iter (length l) (children l) (r_ID <$> List.filter (fun r => String.eqb (r_ID r) root) l) = [] /\
  forall id, id ∈ chain_ids l root <-> descends l root id.
Proof.
  intros l. pose proof (inv_history ts us es) as [Hwf _]. split.
  - destruct (Nat.iter _ _ _) as [|id ids] eqn:E; [done|]. exfalso.
    assert (id ∈ level l root (length l)) as Hid by (unfold level; rewrite E; set_solver).
    pose proof (level_bound l (wf_ids _ _ Hwf) (wf_parents _ _ Hwf) root _ id Hid). lia.
  - intros id. apply (chain_ids_descends l (wf_ids _ _ Hwf) (wf_parents _ _ Hwf)).
Qed.

Lemma validated_parses u : validateRedirectURI L u = Ok tt -> exists v, Parse L u = Some v /\ Scheme v <> ""%string.
Proof.
  unfold validateRedirectURI. destruct (String.eqb u ""); [done|]. destruct (Parse L u) as [v|]; [|done]. exists v. split; [done|].
  by destruct (String.eqb_spec (Scheme v) "").
Qed.

(** The consent handler redirects only where the client registered.  After
    any history, [Approve] does not dereference a failed parse, and every
    redirect it answers with goes to a URI of the allow-list of an active client
    of the user's tenant; that URI parses and its scheme is not empty. *)
Theorem approve_redirects ts us es d1 d2 now rand r :
  let s := run (empty_db ts us) es in
  match (Approve L svc d1 d2 now rand r s).1 with
  | Panic => False
  | SeeOther uri _ =>
      exists cr v, cr ∈ clients s /\ Active (c_client cr) = true /\ TenantID (c_client cr) = (rq_user r).1.2 /\
        uri ∈ RedirectURIs (c_client cr) /\ Parse L uri = Some v /\ Scheme v <> ""%string
  | _ => True
  end.
Proof.
  intros s. unfold Approve. destruct (negb _); [done|]. destruct (rq_form r) as [form|]; [|done].
  destruct (rq_user r) as [[user tenant] ok]. do 2 (destruct (_ || _ || _); [done|]).
  destruct (GetClient _ _ _ _) as [c|] eqn:Hc; [|done]. destruct (negb _) eqn:Hu; [done|].
  apply GetClient_ok in Hc as (cr & Hcr & <- & Ht & _ & Hact). apply negb_false_iff, containsString_spec in Hu.
  pose proof (inv_history ts us es) as [Hwf _]. destruct (wf_clients _ _ Hwf cr Hcr) as (_ & _ & Hval & _).
  destruct (validated_parses _ (Hval _ Hu)) as (v & Hv & Hs). set (uri := Get "redirect_uri" form) in *.
  assert (forall st code desc, redirectWithError L uri st code desc =
    SeeOther uri (with_state st [("error"%string, code); ("error_description"%string, desc)])) as Hred.
  { intros. unfold redirectWithError. rewrite Hv. by destruct (String.eqb_spec (Scheme v) ""). }
  destruct (negb _); [rewrite Hred; by exists cr, v|].
  destruct (IssueAuthorizationCode _ _ _ _ _ _ _ _ _ _ _ _) as [[code|e] s']; [rewrite Hv; by exists cr, v|].
  simpl. destruct e; simpl; rewrite ?Hred; try done; by exists cr, v.
Qed.

Lemma find_snoc {A} (p : A -> bool) l a : (forall x, x ∈ l -> p x = false) -> p a = true -> List.find p (l ++ [a]) = Some a.
Proof.
  induction l as [|x l IH]; intros Hl Ha; simpl; [by rewrite Ha|]. rewrite (Hl x) by set_solver. apply IH; [set_solver|done].
Qed.

(** Credentials work.  The client id and secret that [RegisterClient] returns
    for a confidential client authenticate at the token endpoint, as that
    client, and no other secret that bcrypt rejects does. *)
Theorem registered_client_authenticates rand_id rand_secret bcrypt id dbnow i s c secret s' r form :
  inv s -> (forall p h, bcrypt p = Some h -> h <> ""%string /\ CompareHashAndPassword L h p = true) ->
  RegisterClient L Delivered rand_id rand_secret bcrypt id dbnow i s = (Ok (c, secret), s') ->
  i_clientType i = ClientTypeConfidential -> ClientID c <> ""%string -> credentials r form = (ClientID c, secret) ->
  authenticate L Delivered Delivered r form s' = inr c /\
  (forall r' bad, credentials r' form = (ClientID c, bad) -> (forall h, bcrypt secret = Some h -> CompareHashAndPassword L h bad = false) ->
     authenticate L Delivered Delivered r' form s' = inl (oauth_error ErrCodeInvalidClient "client authentication failed" 401)).
Proof.
  intros Hinv Hb Hreg Hty Hcid Hcred. unfold RegisterClient in Hreg. rewrite Hty in Hreg. cbn [String.eqb] in Hreg.
  destruct (rbind _ _) as [[[cid sec] sh]|] eqn:Hv; [|done]. apply rbind_ok in Hv as ([] & _ & (x & _ & Hv)%rbind_ok).
  rewrite String.eqb_refl in Hv. apply rbind_ok in Hv as (p & _ & Hv). destruct (bcrypt p) as [h|] eqn:Hbc; [|done].
  injection Hv as <- <- <-. unfold BeginFunc in Hreg. destruct (rbind _ _) as [[[c1 p1] s1]|] eqn:Hv; [|done].
  injection Hreg as -> -> <-. apply rbind_ok in Hv as ([] & _ & Hv). destruct (_ && _) eqn:Hg; [|done]. injection Hv as <- <- <-.
  apply andb_prop in Hg as [_ Hn]. rewrite negb_true_iff, existsb_false in Hn. destruct (Hb p h Hbc) as [Hh Hcmp].
  set (c := mkClient _ _ _ _ _ _ _ _ _ _ _ _) in *. set (row := mkClientRow c (Some h)).
  assert (forall r' sec, credentials r' form = (x, sec) -> authenticate L Delivered Delivered r' form (with_clients (clients s ++ [row]) s) =
    if CompareHashAndPassword L h sec then inr c else inl (oauth_error ErrCodeInvalidClient "client authentication failed" 401)) as Hauth.
  { intros r' sec Hc. unfold authenticate. rewrite Hc. cbn in Hcid. unfold LookupClientForExchange, find_client, query.
    destruct (String.eqb_spec x ""); [done|]. cbn [clients with_clients]. rewrite (find_snoc _ (clients s) row).
    2: { intros y Hy%Hn. breflect. by rewrite (proj2 (String.eqb_neq _ _) H0). }
    2: { cbn. by rewrite String.eqb_refl. }
    cbn [c_client row]. unfold VerifyClientSecret. replace (ClientType c) with ClientTypeConfidential by (by rewrite <- Hty).
    rewrite String.eqb_refl. cbn [negb]. unfold query. cbn [clients with_clients]. rewrite (find_snoc _ (clients s) row).
    2: { intros y Hy%Hn. breflect. by apply String.eqb_neq. }
    2: { cbn. by rewrite String.eqb_refl. }
    cbn [c_secret row]. destruct (String.eqb_spec h ""); [done|]. by destruct (CompareHashAndPassword L h sec). }
  split.
  - rewrite (Hauth r p) by done. by rewrite Hcmp.
  - intros r' bad Hc Hbad. rewrite (Hauth r' bad) by done. by rewrite (Hbad h).
Qed.

(** A request that is not authenticated has no effect.  When the token or
    the revocation endpoint changes a table, the request named an active client
    and, if that client is confidential, carried a secret its stored hash
    accepts. *)
Theorem unauthenticated_no_effect E r s :
  (Token L svc E r s).2 <> s \/ (Revoke L E r s).2 <> s ->
  exists form cr, rq_form r = Some form /\ cr ∈ clients s /\ Active (c_client cr) = true /\
    ClientID (c_client cr) = (credentials r form).1 /\
    (ClientType (c_client cr) = ClientTypeConfidential ->
     VerifyClientSecret L (e_secret E) (c_client cr) (credentials r form).2 s = Ok tt).
Proof.
  unfold Token, Revoke. intros H. destruct (negb _); [by destruct H|]. destruct (rq_form r) as [form|]; [|by destruct H].
  destruct (authenticate _ _ _ _ _ _) as [resp|c] eqn:Ha; [by destruct H|].
  apply authenticate_ok in Ha as (cr & Hcr & <- & Hid & Hact & Hs). by exists form, cr.
Qed.

(** ** Where comments and code part ways *)

(** An approval by a user the resolver names by an id that is not in [users]
    issues no code. *)
Theorem approve_needs_user_id d1 d2 now rand r s :
  (rq_user r).1.1 ∉ users s -> (Approve L svc d1 d2 now rand r s).2 = s /\
  forall uri q code, (Approve L svc d1 d2 now rand r s).1 = SeeOther uri q -> ("code"%string, code) ∉ q.
Proof.
  intros Hu. unfold Approve. destruct (negb _); [done|]. destruct (rq_form r) as [form|]; [|done].
  destruct (rq_user r) as [[user tenant] ok]. cbn in Hu. do 2 (destruct (_ || _ || _); [done|]).
  destruct (GetClient _ _ _ _) as [c|]; [|done]. destruct (negb _); [done|].
  assert (forall uri st code desc uri' q x, redirectWithError L uri st code desc = SeeOther uri' q -> ("code"%string, x) ∉ q) as Hred.
  { intros uri st code desc uri' q x. unfold redirectWithError. destruct (Parse L uri); [|done]. destruct (String.eqb _ _); [done|].
    intros [= _ <-]. unfold with_state. destruct (String.eqb st ""); set_solver. }
  destruct (negb _); [split; [done|]; intros; by eapply Hred|].
  destruct (IssueAuthorizationCode _ _ _ _ _ _ _ _ _ _ _ _) as [x s'] eqn:Hi.
  assert (is_ok x = false) as Hx.
  { revert Hi. unfold IssueAuthorizationCode, BeginFunc. destruct (rbind _ (fun _ => generateOpaqueToken rand)); [|by intros [= <- _]].
    destruct (rbind _ _) as [[]|] eqn:Hb; [|by destruct d2; intros [= <- _]].
    apply rbind_ok in Hb as ([] & _ & (s2 & (_ & _ & Hin)%insert_code_ok & _)%rbind_ok). done. }
  apply Issue_cases in Hi as [->|(k & _ & _ & _ & Hin & _)]; [|done]. destruct x as [|e]; [done|]. split; [done|].
  intros uri q code. destruct e; simpl; try (intros H; by eapply Hred in H); done.
Qed.
End operations.

(** ** Challenge headers *)
Definition printable (c : Ascii.ascii) : bool :=
  let n := Ascii.nat_of_ascii c in ((n =? 9) || (32 <=? n) && negb (n =? 127))%nat.

(** A reader of quoted strings: the value up to the closing quote, and the rest. *)
Fixpoint unquote (l : list Ascii.ascii) : option (list Ascii.ascii * list Ascii.ascii) :=
  match l with
  | [] => None
  | c :: l' =>
      if Ascii.eqb c dquote then Some ([], l')
      else if Ascii.eqb c backslash then
        match l' with
        | [] => None
        | x :: l'' => (fun p => (x :: p.1, p.2)) <$> unquote l''
        end
      else (fun p => (c :: p.1, p.2)) <$> unquote l'
  end.

Lemma unquote_escape_byte c tail :
  unquote (escape_byte c ++ tail) = (if printable c then (fun p => (c :: p.1, p.2)) <$> unquote tail else unquote tail) /\
  Forall (fun c => printable c = true) (escape_byte c).
Proof. destruct c as [[] [] [] [] [] [] [] []]; (split; [reflexivity|repeat constructor]). Qed.

(** Challenge values cannot break out of their quotes.  For every text, a
    reader of quoted strings that is given the escaped value, a closing quote and
    anything after it gets back the text without its control characters and
    exactly that rest; the header carries no control character. *)
Theorem challenge_value_round_trip s rest :
  unquote (String.list_ascii_of_string (quotedStringEscape s) ++ dquote :: rest) =
    Some (List.filter printable (String.list_ascii_of_string s), rest) /\
  Forall (fun c => printable c = true) (String.list_ascii_of_string (quotedStringEscape s)).
Proof.
  unfold quotedStringEscape, on_ascii. rewrite String.list_ascii_of_string_of_list_ascii.
  induction (String.list_ascii_of_string s) as [|c l [IH1 IH2]]; [done|]. rewrite bind_cons, <- app_assoc.
  destruct (unquote_escape_byte c ((l ≫= escape_byte) ++ dquote :: rest)) as [E1 E2]. split; [|by apply Forall_app].
  rewrite E1, IH1. simpl. by destruct (printable c).
Qed.

(** ** Examples *)
Module Demo.
Definition bytes (s : string) : list Z := (fun c => Z.of_N (Ascii.N_of_ascii c)) <$> String.list_ascii_of_string s.
(** The digest of a text is its bytes, a hash is the password behind a mark,
    the host of a URL is what follows the scheme. *)
Definition L : libs := mkLibs bytes (fun h p => String.eqb h ("$" +:+ p))
  (fun u => (fun p => mkURL p.1 p.2) <$> split_first (Ascii.ascii_of_nat 58) u).
Definition bcrypt (p : string) : option string := Some ("$" +:+ p).

Definition app : ClientInput :=
  mkClientInput "t1" "App" ClientTypeConfidential ["https://app/cb"%string] [ScopeWriteMail; ScopeReadProfile] "" "".
Definition db0 : DB := empty_db {[ "t1"%string ]} {[ "u1"%string ]}.
Definition reg : event := EvRegister Delivered (Some [1; 2; 3]) (Some [4; 5; 6]) bcrypt "c1" 0 app.
Definition cid : string := base64url [1; 2; 3].
Definition secret : string := base64url [4; 5; 6].
Definition form (l : list (string * string)) : gmap string string := list_to_map l.
Definition post (user : string) (l : list (string * string)) : request :=
  mkRequest "POST" ∅ (Some (form l)) (Some (cid, secret)) (Some "n"%string) (user, "t1"%string, true) "".
Definition consent (user : string) : request := post user
  [("csrf_token", "n"); ("client_id", cid); ("redirect_uri", "https://app/cb"); ("scope", "write:mail"); ("decision", "approve");
   ("code_challenge", "v"); ("state", "x")]%string.
Definition approve : event := EvApprove Delivered Delivered Hour (Some [7; 7; 7]) (consent "u1").
Definition code : string := base64url [7; 7; 7].
Definition grant_code : request := post ""
  [("grant_type", "authorization_code"); ("code", code); ("redirect_uri", "https://app/cb"); ("code_verifier", "v")]%string.
Definition grant_refresh (tok : string) : request := post "" [("grant_type", "refresh_token"); ("refresh_token", tok)]%string.
Definition revoke (tok : string) : request := post "" [("token", tok)]%string.
Definition at_ (now : Z) (n : Z) (rid aid : string) : env :=
  mkEnv Delivered Delivered Delivered Delivered now now (mkGen (Some [n; 0; 0]) (Some [n; 1; 1]) rid aid).
Definition access_token (n : Z) : string := base64url [n; 0; 0].
Definition refresh_token (n : Z) : string := base64url [n; 1; 1].

Definition redeemed_h : list event := [reg; approve; EvToken (at_ (Hour + Second) 10 "r1" "a1") grant_code].
Definition rotated_h : list event := redeemed_h ++ [EvToken (at_ (Hour + Minute) 20 "r2" "a2") (grant_refresh (refresh_token 10))].
Abbreviation run := (run L NewService).
Definition s1 : DB := run db0 [reg; approve].
Definition s2 : DB := run db0 redeemed_h.
Definition s3 : DB := run db0 rotated_h.
Definition client : Client := match clients s3 with r :: _ => c_client r | [] => mkClient "" "" "" "" "" "" "" [] [] false 0 0 end.
Definition nth_refresh (i : nat) (s : DB) : refresh_row := default (mkRefresh "" "" "" "" "" [] None 0 None) (refresh s !! i).
Definition nth_access (i : nat) (s : DB) : access_row := default (mkAccess "" "" "" "" "" [] 0 None None) (access s !! i).
Definition bearer (tok : string) : string := "Bearer " +:+ tok.

Lemma inv_demo es : inv L (run db0 es).
Proof. apply inv_history. Qed.
Lemma inv_s1 : inv L s1.
Proof. apply inv_demo. Qed.
Lemma inv_s3 : inv L s3.
Proof. apply inv_demo. Qed.

Lemma nth_refresh_in i : (i < length (refresh s3))%nat -> nth_refresh i s3 ∈ refresh s3.
Proof. intros [x Hx]%lookup_lt_is_Some. unfold nth_refresh. rewrite Hx. by eapply list_elem_of_lookup_2. Qed.

Example rotated : (r_ID <$> refresh s3, r_RevokedAt <$> refresh s3, t_RevokedAt <$> access s3) =
  (["r1"; "r2"]%string, [Some (Hour + Minute); None], [Some (Hour + Minute); None]).
Proof. vm_compute. reflexivity. Qed.

Example scopes_checked :
  (RequireScope L ScopeReadMail Delivered (2 * Hour) (bearer (access_token 20)) s3,
   RequireScope L ScopeReadCalendar Delivered (2 * Hour) (bearer (access_token 20)) s3) =
  (Pass (mkATC "a2" "t1" "u1" "c1" [ScopeWriteMail] (2 * Hour + Minute)),
   Challenge "insufficient_scope" "token does not carry required scope read:calendar" 403).
Proof. vm_compute. reflexivity. Qed.
End Demo.

Lemma tokens_trace_to_consent_witness :
  exists q k cr, q ∈ refresh Demo.s3 /\ t_RefreshID (Demo.nth_access 0 Demo.s3) = Some (r_ID q) /\
    refresh_grant q = access_grant (Demo.nth_access 0 Demo.s3) /\ k ∈ codes Demo.s3 /\ a_ConsumedAt k <> None /\
    code_grant k = access_grant (Demo.nth_access 0 Demo.s3) /\ cr ∈ clients Demo.s3 /\
    ID (c_client cr) = t_ClientID (Demo.nth_access 0 Demo.s3) /\ TenantID (c_client cr) = t_TenantID (Demo.nth_access 0 Demo.s3) /\
    (forall sc, sc ∈ t_Scopes (Demo.nth_access 0 Demo.s3) -> sc ∈ AllowedScopes (c_client cr) /\ sc ∈ KnownScopes).
Proof.
  apply (tokens_trace_to_consent Demo.L NewService {[ "t1"%string ]} {[ "u1"%string ]} Demo.rotated_h).
  apply list_elem_of_lookup_2 with 0%nat. vm_compute. reflexivity.
Defined.

Lemma exchange_spec_witness :
  let '(r, s') := ExchangeAuthorizationCode Demo.L NewService Delivered (Hour + Second) (e_gen (Demo.at_ 0 10 "r1" "a1")) Demo.client
                    Demo.code "https://app/cb" "v" Demo.s1 in
  exists resp, r = Ok resp /\ exists k, k ∈ codes Demo.s1 /\ a_TenantID k = TenantID Demo.client /\ a_RedirectURI k = "https://app/cb"%string.
Proof.
  destruct (ExchangeAuthorizationCode _ _ _ _ _ _ _ _ _ _) as [r s'] eqn:E.
  pose proof (exchange_spec Demo.L NewService _ _ _ _ _ _ _ _ _ _ E) as H. destruct r as [resp|e].
  - exists resp. split; [reflexivity|]. destruct H as (k & Hk & _ & _ & _ & _ & Ht & Hu & _). exists k. exact (conj Hk (conj Ht Hu)).
  - exfalso. apply (f_equal fst) in E. vm_compute in E. discriminate E.
Defined.

Lemma code_redeemed_once_witness :
  is_ok (ExchangeAuthorizationCode Demo.L NewService Delivered (Hour + 2 * Second) (e_gen (Demo.at_ 0 30 "r3" "a3")) Demo.client Demo.code
    "https://app/cb" "v" Demo.s2).1 = false.
Proof.
  destruct (ExchangeAuthorizationCode Demo.L NewService Delivered (Hour + Second) (e_gen (Demo.at_ 0 10 "r1" "a1")) Demo.client
             Demo.code "https://app/cb" "v" Demo.s1) as [r x] eqn:E.
  assert (x = Demo.s2) as Hx by (change x with (r, x).2; rewrite <- E; vm_compute; reflexivity).
  destruct r as [resp|e]; [|exfalso; apply (f_equal fst) in E; vm_compute in E; discriminate E].
  rewrite <- Hx. destruct (ExchangeAuthorizationCode Demo.L NewService Delivered (Hour + 2 * Second) _ Demo.client Demo.code "https://app/cb" "v" x) as [r2 s2] eqn:E2.
  refine (proj1 (code_redeemed_once Demo.L NewService _ _ _ _ _ _ _ _ _ _ [] _ _ _ _ _ _ _ _ Demo.inv_s1 E _ E2)).
  vm_compute. discriminate.
Defined.

Lemma live_token_unique_witness : Demo.nth_refresh 1 Demo.s3 = Demo.nth_refresh 1 Demo.s3.
Proof.
  apply (live_token_unique Demo.L NewService {[ "t1"%string ]} {[ "u1"%string ]} Demo.rotated_h).
  1, 2: apply Demo.nth_refresh_in; vm_compute; lia.
  2, 3: vm_compute; reflexivity.
  exists "r2"%string. split; eapply descends_refl; try (apply Demo.nth_refresh_in with (i := 1%nat); vm_compute; lia); vm_compute; reflexivity.
Defined.

(** The successor of the replayed token is rotated between the transactions. *)
Definition meanwhile : list event := [EvToken (Demo.at_ (2 * Hour) 60 "r5" "a5") (Demo.grant_refresh (Demo.refresh_token 20))].
Lemma family_meanwhile : family (refresh (Demo.run Demo.s3 meanwhile)) (r_ID (Demo.nth_refresh 0 Demo.s3)) "r5".
Proof.
  set (z := Demo.run Demo.s3 meanwhile). assert (forall i, (i < 3)%nat -> Demo.nth_refresh i z ∈ refresh z) as Hin.
  { intros i Hi. assert (is_Some (refresh z !! i)) as [x Hx] by (apply lookup_lt_is_Some; exact Hi). unfold Demo.nth_refresh. rewrite Hx. by eapply list_elem_of_lookup_2. }
  exists "r1"%string. assert (descends (refresh z) "r1" "r1") as H1 by (apply descends_refl with (Demo.nth_refresh 0 z); [apply Hin; lia|vm_compute; reflexivity]).
  split; [exact H1|]. apply (descends_step _ _ "r2" (Demo.nth_refresh 2 z)); [|apply Hin; lia|vm_compute; reflexivity].
  apply (descends_step _ _ "r1" (Demo.nth_refresh 1 z) H1); [apply Hin; lia|vm_compute; reflexivity].
Qed.
Lemma replay_revokes_family_witness :
  t_RevokedAt (Demo.nth_access 2 (RefreshAccessToken Demo.L NewService (fun s => Demo.run s meanwhile) Delivered Delivered (2 * Hour) (2 * Hour)
    (e_gen (Demo.at_ 0 40 "r4" "a4")) Demo.client (Demo.refresh_token 10) Demo.s3).2) <> None.
Proof.
  set (c := RefreshAccessToken _ _ _ _ _ _ _ _ _ _ _).
  assert (Demo.nth_access 2 c.2 ∈ access c.2) as Ha by (apply list_elem_of_lookup_2 with 2%nat; vm_compute; reflexivity).
  assert (t_RefreshID (Demo.nth_access 2 c.2) = Some "r5"%string) as Hid by (vm_compute; reflexivity).
  assert (TenantID Demo.client <> ""%string) as H1 by (vm_compute; discriminate).
  assert (Demo.refresh_token 10 <> ""%string) as H2 by (vm_compute; discriminate).
  assert (Demo.nth_refresh 0 Demo.s3 ∈ refresh Demo.s3) as H3 by (apply list_elem_of_lookup_2 with 0%nat; vm_compute; reflexivity).
  assert (r_Hash (Demo.nth_refresh 0 Demo.s3) = hashToken Demo.L (Demo.refresh_token 10)) as H4 by (vm_compute; reflexivity).
  assert (r_RevokedAt (Demo.nth_refresh 0 Demo.s3) <> None) as H5 by (vm_compute; discriminate).
  assert (c = (c.1, c.2)) as E by (by destruct c).
  exact (proj2 (proj2 (replay_revokes_family Demo.L NewService meanwhile (2 * Hour) (2 * Hour) (e_gen (Demo.at_ 0 40 "r4" "a4")) Demo.client
    (Demo.refresh_token 10) Demo.s3 (Demo.nth_refresh 0 Demo.s3) c.2 c.1 Demo.inv_s3 H1 H2 H3 H4 H5 E) "r5"%string family_meanwhile) _ Ha Hid).
Defined.

Lemma accepted_bearer_witness :
  exists a q k, a ∈ access Demo.s3 /\ q ∈ refresh Demo.s3 /\ k ∈ codes Demo.s3 /\ r_RevokedAt q = None /\
    exists g, g ∈ a_Scopes k /\ covers g ScopeReadMail.
Proof.
  assert (RequireScope Demo.L ScopeReadMail Delivered (2 * Hour) (Demo.bearer (Demo.access_token 20)) Demo.s3 =
    Pass (mkATC "a2" "t1" "u1" "c1" [ScopeWriteMail] (2 * Hour + Minute))) as H by (vm_compute; reflexivity).
  destruct (accepted_bearer Demo.L NewService {[ "t1"%string ]} {[ "u1"%string ]} Demo.rotated_h ScopeReadMail Delivered (2 * Hour)
    (Demo.bearer (Demo.access_token 20)) _ H) as (a & q & k & H1 & _ & _ & _ & H2 & _ & H3 & H4 & _ & _ & H5).
  exists a, q, k. exact (conj H1 (conj H2 (conj H4 (conj H3 H5)))).
Defined.

Lemma revocation_final_witness :
  is_ok (ValidateAccessToken Demo.L Delivered (Hour + 2 * Minute) (Demo.access_token 10) (Demo.run Demo.s3 [Demo.approve])) = false.
Proof.
  apply (revocation_final Demo.L NewService _ _ _ _ _ (Demo.nth_access 0 Demo.s3) Demo.inv_s3).
  - apply list_elem_of_lookup_2 with 0%nat. vm_compute. reflexivity.
  - vm_compute. reflexivity.
  - vm_compute. discriminate.
Defined.

Lemma registered_client_authenticates_witness :
  authenticate Demo.L Delivered Delivered (Demo.post "" []) ∅ (Demo.run Demo.db0 [Demo.reg]) = inr Demo.client.
Proof.
  destruct (RegisterClient Demo.L Delivered (Some [1; 2; 3]) (Some [4; 5; 6]) Demo.bcrypt "c1" 0 Demo.app Demo.db0) as [r s'] eqn:E.
  assert (s' = Demo.run Demo.db0 [Demo.reg]) as <- by (apply (f_equal snd) in E; symmetry; exact E).
  assert (r = Ok (Demo.client, Demo.secret)) as -> by (change r with (r, s').1; rewrite <- E; vm_compute; reflexivity).
  refine (proj1 (registered_client_authenticates Demo.L _ _ Demo.bcrypt _ _ _ _ _ _ _ (Demo.post "" []) ∅ (Demo.inv_demo []) _ E _ _ _)).
  - intros p h [= <-]. split; [done|]. vm_compute CompareHashAndPassword. apply String.eqb_refl.
  - reflexivity.
  - vm_compute. discriminate.
  - vm_compute. reflexivity.
Defined.

Lemma unauthenticated_no_effect_witness :
  exists form cr, rq_form Demo.grant_code = Some form /\ cr ∈ clients Demo.s1 /\ Active (c_client cr) = true /\
    ClientID (c_client cr) = (credentials Demo.grant_code form).1 /\
    (ClientType (c_client cr) = ClientTypeConfidential ->
     VerifyClientSecret Demo.L Delivered (c_client cr) (credentials Demo.grant_code form).2 Demo.s1 = Ok tt).
Proof.
  apply (unauthenticated_no_effect Demo.L NewService (Demo.at_ (Hour + Second) 10 "r1" "a1")). left. intros H.
  apply (f_equal (fun s => length (access s))) in H. vm_compute in H. discriminate H.
Defined.

(** The schema says that a second exchange of a code revokes the tokens of the
    first; they stay valid. *)
Example code_reuse_keeps_tokens :
  let s' := Demo.run Demo.s2 [EvToken (Demo.at_ (Hour + 2 * Second) 30 "r3" "a3") Demo.grant_code] in
  is_ok (ValidateAccessToken Demo.L Delivered (Hour + Minute) (Demo.access_token 10) s') = true.
Proof. vm_compute. reflexivity. Qed.

(** Revoking a refresh token that was already rotated answers 200 and leaves
    its successor usable. *)
Example stale_revoke_keeps_successor :
  let '(resp, s') := Revoke Demo.L (Demo.at_ (2 * Hour) 50 "" "") (Demo.revoke (Demo.refresh_token 10)) Demo.s3 in
  resp = StatusOK /\ r_RevokedAt <$> refresh s' = [Some (Hour + Minute); None].
Proof. vm_compute. done. Qed.

(** The update of a chain revocation works on the snapshot its recursive query
    read.  When a rotation of the last token commits in between, the update
    finds that token revoked and does not know the new one, which stays
    usable. *)
Theorem chain_revocation_races_rotation :
  let snapshot := chain_ids (refresh Demo.s3) "r1" in
  let rotated := Demo.run Demo.s3 [EvToken (Demo.at_ (2 * Hour) 60 "r5" "a5") (Demo.grant_refresh (Demo.refresh_token 20))] in
  let after := revoke_access_in (2 * Hour) (chain_ids (refresh rotated) "r1") (revoke_refresh_in (2 * Hour) snapshot rotated) in
  snapshot = ["r1"; "r2"]%string /\ r_RevokedAt (Demo.nth_refresh 2 after) = None /\
  is_ok (RefreshAccessToken Demo.L NewService (fun s => s) Delivered Delivered (3 * Hour) (3 * Hour) (e_gen (Demo.at_ 0 70 "r6" "a6")) Demo.client
           (Demo.refresh_token 60) after).1 = true.
Proof. vm_compute. done. Qed.

(** The resolver wired in [main.go] names users by their KChat id, the code's
    foreign key is [users.id]. *)
Example kchat_id_is_refused :
  (Approve Demo.L NewService Delivered Delivered Hour (Some [7; 7; 7]) (Demo.consent "kchat-u1") (Demo.run Demo.db0 [Demo.reg])).1 =
  SeeOther "https://app/cb" [("error", "server_error"); ("error_description", "internal error issuing authorization code"); ("state", "x")]%string.
Proof. vm_compute. reflexivity. Qed.
