(* ===== verification/Cutover.v ===== *)
(** * Search back-end cutover ([internal/search/cutover.go],
      [cutover_worker.go], [service.go])

    A tenant's messages are indexed in the back end named by
    [tenants.search_backend].  A cutover copies the index into a target back
    end, checks it, flips the column and records the outcome in
    [search_cutover_jobs], one row per tenant and target.  A worker drives jobs
    by size, an operator by hand; both claim the row first.  A migration is a
    machine of stages, one call each, so that [cstep] can interleave pods,
    crashes and operators.  Index engines keep, per back end and tenant, the
    list of documents; what an export hands over, what a re-index keeps and what
    a search answers are arguments, since the engines promise nothing of them. *)

From S2P Require Import Prelude Text Table.

Local Open Scope Z_scope.
Local Open Scope go_scope.

(** ** Back ends *)
Definition BackendMeilisearch : string := "meilisearch".
Definition BackendOpenSearch : string := "opensearch".
Definition BackendSharedMeilisearch : string := "shared_meilisearch".
Definition BackendSharedOpenSearch : string := "shared_opensearch".
Definition BackendDedicatedOpenSearch : string := "dedicated_opensearch".

Definition IsValidBackend (name : string) : bool :=
  bool_decide (name ∈ [BackendMeilisearch; BackendOpenSearch; BackendSharedMeilisearch; BackendSharedOpenSearch;
                       BackendDedicatedOpenSearch]).

Record Message := mkMessage { mTenantID : string; MailboxID : string; MessageID : string; Subject : string; Snippet : string; From : string }.
Record SearchHit := mkHit { hMessageID : string; hSubject : string; hSnippet : string }.

Inductive CutoverState := CutoverPending | CutoverInProgress | CutoverCompleted | CutoverFailed.
#[export] Instance CutoverState_eq_dec : EqDecision CutoverState.
Proof. solve_decision. Defined.

Record CutoverJob := mkJob {
  State : CutoverState; MailboxSize : Z; Threshold : Z; StartedAt : option Z; CompletedAt : option Z;
  FailureCount : Z; LastError : string; UpdatedAt : Z;
}.

(** An audit entry: tenant, actor, action, error. *)
Record audit_entry := mkAudit { au_tenant : string; au_actor : string; au_action : string; au_error : string }.

(** [tenants]: the column [search_backend].  [index]: by back end and tenant. *)
Record DB := mkDB {
  tenants : gmap string string;
  jobs : gmap (string * string) CutoverJob;
  index : gmap (string * string) (list Message);
  audit : list audit_entry;
}.
Definition with_tenants x s := mkDB x (jobs s) (index s) (audit s).
Definition with_jobs x s := mkDB (tenants s) x (index s) (audit s).
Definition with_index x s := mkDB (tenants s) (jobs s) x (audit s).
Definition with_audit x s := mkDB (tenants s) (jobs s) (index s) x.

Inductive serror :=
| ErrInvalidInput | ErrNotFound | ErrBackendUnavailable | ErrNotSupported | ErrCutoverInProgress | ErrStore | ErrCanceled
| ErrDriver (msg : string) | NotSearchable (id : string) | StageFailed (stage : string) (cause : serror).

Definition error_text (e : serror) : string :=
  match e with
  | ErrInvalidInput => "invalid input" | ErrNotFound => "not found" | ErrBackendUnavailable => "backend not available in this deployment"
  | ErrNotSupported => "backend does not support operation" | ErrCutoverInProgress => "search: cutover already in progress for tenant/target"
  | ErrStore => "connection lost" | ErrCanceled => "context canceled" | ErrDriver m => m
  | NotSearchable id => "validate: message " +:+ id +:+ " not searchable"
  | StageFailed st _ => st
  end.

Definition query {A} (d : delivery) (f : DB -> result serror A) (s : DB) : result serror A :=
  match d with Delivered => f s | _ => Err ErrStore end.
Definition exec (d : delivery) (f : DB -> Z * DB) (s : DB) : result serror Z * DB :=
  BeginFunc ErrStore d (fun s => Ok (f s)) s.

(** ** The search service ([service.go]) *)
Section service.
(** Names of the back ends wired into the process. *)
Context (backends : list string).

Definition GetBackend (d : delivery) (tenantID : string) (s : DB) : result serror string :=
  if String.eqb tenantID "" then Err ErrInvalidInput
  else
    let? backend := query d (fun s => match tenants s !! tenantID with Some b => Ok b | None => Err ErrNotFound end) s in
    Ok (if String.eqb backend "" then BackendSharedMeilisearch else backend).

Definition IsBackendAvailable (name : string) : bool := bool_decide (name ∈ backends).

Definition check_backend (tenantID backend : string) : result serror unit :=
  if String.eqb tenantID "" || String.eqb backend "" then Err ErrInvalidInput
  else if negb (IsValidBackend backend) then Err ErrInvalidInput
  else if negb (IsBackendAvailable backend) then Err ErrBackendUnavailable
  else Ok tt.

Definition SetBackend (d : delivery) (tenantID backend : string) (s : DB) : result serror unit * DB :=
  match check_backend tenantID backend with
  | Err e => (Err e, s)
  | Ok _ =>
      BeginFunc ErrStore d (fun s =>
        match tenants s !! tenantID with
        | Some _ => Ok (tt, with_tenants (<[tenantID := backend]> (tenants s)) s)
        | None => Err ErrNotFound
        end) s
  end.

(** [exports]: what the driver returns for the documents the index holds. *)
Definition Export (d : delivery) (exports : list Message -> result serror (list Message)) (tenantID : string) (s : DB) : result serror (list Message) :=
  let? name := GetBackend d tenantID s in
  if negb (IsBackendAvailable name) then Err ErrNotFound
  else exports (default [] (index s !! (name, tenantID))).

(** [kept]: what the engine holds of the documents the driver was given, when
    the driver reports an error and when it reports success: the drivers return
    as soon as the engine has accepted the documents. *)
Definition reindexInto (d1 d2 : delivery) (kept : list Message -> list Message) (tenantID backendName : string) (msgs : list Message) (s : DB)
    : result serror unit * DB :=
  if negb (IsBackendAvailable backendName) then (Err ErrNotFound, s)
  else
    let put l s := with_index (<[(backendName, tenantID) := l]> (index s)) s in
    match remote d1 (fun s => (tt, put [] s)) s with
    | (None, s) => (Err (ErrDriver "reindex: delete"), s)
    | (Some _, s) =>
        match msgs with
        | [] => (Ok tt, s)
        | _ =>
            match d2 with
            | Delivered => (Ok tt, put (kept msgs) s)
            | _ => (Err (ErrDriver "migrate"), put (kept msgs) s)
            end
        end
    end.

Definition ReindexTo (d1 d2 : delivery) (kept : list Message -> list Message) (tenantID backend : string) (msgs : list Message) (s : DB)
    : result serror unit * DB :=
  match check_backend tenantID backend with
  | Err e => (Err e, s)
  | Ok _ => reindexInto d1 d2 kept tenantID backend msgs s
  end.

Definition Reindex (d d1 d2 : delivery) (kept : list Message -> list Message) (tenantID : string) (msgs : list Message) (s : DB) : result serror unit * DB :=
  match GetBackend d tenantID s with
  | Err e => (Err e, s)
  | Ok name => reindexInto d1 d2 kept tenantID name msgs s
  end.

Definition IndexMessage (d d1 : delivery) (msg : Message) (s : DB) : result serror unit * DB :=
  match GetBackend d (mTenantID msg) s with
  | Err e => (Err e, s)
  | Ok name =>
      if negb (IsBackendAvailable name) then (Err ErrNotFound, s)
      else
        let k := (name, mTenantID msg) in
        match remote d1 (fun s => (tt, with_index (<[k := default [] (index s !! k) ++ [msg]]> (index s)) s)) s with
        | (None, s) => (Err (ErrDriver "index"), s)
        | (Some _, s) => (Ok tt, s)
        end
  end.

(** ** Validation *)
Definition cutoverValidationSampleSize : nat := 10.
Definition cutoverValidationLimit : nat := 50.
Definition cutoverValidationAttempts : nat := 5.

Definition validationQuery (m : Message) : string := if String.eqb (Subject m) "" then From m else Subject m.

Definition containsMessageID (hits : list SearchHit) (id : string) : bool := existsb (fun h => String.eqb (hMessageID h) id) hits.

(** [perm] is the permutation [mathrand.Perm] returns. *)
Definition sampleMessages (perm : list nat) (msgs : list Message) (n : nat) : list Message :=
  if (length msgs <=? n)%nat then msgs else omap (fun i => msgs !! i) (take n perm).

(** Engine and context during a validation: the answer to attempt [i] of a
    search ([None]: it failed) and whether the context is done before it. *)
Record searches := mkSearches { sr_hits : nat -> Message -> option (list SearchHit); sr_done : nat -> Message -> bool }.

Fixpoint validate_from (w : searches) (backend : string) (m : Message) (n attempt : nat) (lastErr : result serror unit)
    : result serror unit :=
  match n with
  | O => lastErr
  | S n =>
      if (0 <? attempt)%nat && sr_done w attempt m then Err ErrCanceled
      else match sr_hits w attempt m with
      | None => validate_from w backend m n (S attempt) (Err (ErrDriver "validate: search"))
      | Some hits =>
          if containsMessageID hits (MessageID m) then Ok tt
          else if (cutoverValidationLimit <=? length hits)%nat then Ok tt
          else validate_from w backend m n (S attempt) (Err (NotSearchable (MessageID m)))
      end
  end.

Definition validateSearchable (w : searches) (backend : string) (m : Message) : result serror unit :=
  validate_from w backend m cutoverValidationAttempts 0 (Ok tt).

Fixpoint validate_all (w : searches) (backend : string) (l : list Message) : result serror unit :=
  match l with
  | [] => Ok tt
  | m :: l' => let? _ := validateSearchable w backend m in validate_all w backend l'
  end.

Definition searchable (msgs : list Message) : list Message :=
  List.filter (fun m => negb (String.eqb (MessageID m) "") && negb (String.eqb (validationQuery m) "")) msgs.

Definition Validate (w : searches) (perm : list nat) (tenantID backend : string) (msgs : list Message) : result serror unit :=
  if String.eqb tenantID "" || String.eqb backend "" then Err ErrInvalidInput
  else if negb (IsBackendAvailable backend) then Err ErrNotFound
  else validate_all w backend (sampleMessages perm (searchable msgs) cutoverValidationSampleSize).
End service.

(** ** Store *)
Record CandidateFilter := mkFilter { SourceBackend : string; TargetBackend : string; MaxFailures : Z; RetryAfterBefore : Z }.

Definition eligible (f : CandidateFilter) (j : option CutoverJob) : bool :=
  match j with
  | None => true
  | Some j =>
      match State j with
      | CutoverPending => true
      | CutoverFailed => (FailureCount j <? MaxFailures f) && (UpdatedAt j <? micro (RetryAfterBefore f))
      | _ => false
      end
  end.

Definition ListCandidates (d : delivery) (f : CandidateFilter) (s : DB) : result serror (list string) :=
  query d (fun s =>
    Ok (filter (fun t => tenants s !! t = Some (SourceBackend f) /\ eligible f (jobs s !! (t, TargetBackend f)) = true)
          (map_to_list (tenants s)).*1)) s.

Definition claimable (j : CutoverJob) : bool := bool_decide (State j ∈ [CutoverPending; CutoverFailed]).

(** The row a claim writes. *)
Definition claimed_job (size now : Z) (j : CutoverJob) : CutoverJob :=
  mkJob CutoverInProgress size (Threshold j) (Some (micro now)) None (FailureCount j) (LastError j) (micro now).
Definition pending_job (size threshold now : Z) : CutoverJob :=
  mkJob CutoverPending size threshold None None 0 "" (micro now).

Definition Claim (d : delivery) (tenantID target : string) (size threshold now : Z) (s : DB) : result serror bool * DB :=
  BeginFunc ErrStore d (fun s =>
    if negb (bool_decide (is_Some (tenants s !! tenantID))) then Err ErrStore
    else
      let j := default (pending_job size threshold now) (jobs s !! (tenantID, target)) in
      if claimable j then Ok (true, with_jobs (<[(tenantID, target) := claimed_job size now j]> (jobs s)) s)
      else Ok (false, s)) s.

(** [UPDATE ... WHERE] on all rows; a row that cannot be written fails it. *)
Definition update_jobs (p : string * string -> CutoverJob -> bool) (f : CutoverJob -> CutoverJob) (s : DB) : DB :=
  with_jobs (map_imap (fun k j => Some (if p k j then f j else j)) (jobs s)) s.
Definition at_key (k : string * string) : string * string -> CutoverJob -> bool := fun k' _ => bool_decide (k' = k).

Definition completed_job (now : Z) (j : CutoverJob) : CutoverJob :=
  mkJob CutoverCompleted (MailboxSize j) (Threshold j) (StartedAt j) (Some (micro now)) 0 "" (micro now).
Definition failed_job (reason : string) (now : Z) (j : CutoverJob) : CutoverJob :=
  mkJob CutoverFailed (MailboxSize j) (Threshold j) (StartedAt j) (CompletedAt j) (FailureCount j + 1) reason (micro now).

Definition MarkCompleted (d : delivery) (tenantID target : string) (now : Z) (s : DB) : result serror unit * DB :=
  BeginFunc ErrStore d (fun s => Ok (tt, update_jobs (at_key (tenantID, target)) (completed_job now) s)) s.

(** [failure_count] is an [INTEGER]. *)
Definition full_count (p : string * string -> CutoverJob -> bool) (s : DB) : bool :=
  existsb (fun kj => p kj.1 kj.2 && (2 ^ 31 <=? FailureCount kj.2 + 1)) (map_to_list (jobs s)).

Definition MarkFailed (d : delivery) (tenantID target reason : string) (now : Z) (s : DB) : result serror unit * DB :=
  BeginFunc ErrStore d (fun s =>
    if full_count (at_key (tenantID, target)) s then Err ErrStore
    else Ok (tt, update_jobs (at_key (tenantID, target)) (failed_job reason now) s)) s.

(** An abandoned row for [target] whose tenant is on [backend]. *)
Definition stale (backend target : string) (before : Z) (ts : gmap string string) (k : string * string) (j : CutoverJob) : bool :=
  bool_decide (k.2 = target) && bool_decide (State j = CutoverInProgress) && (UpdatedAt j <? micro before)
  && bool_decide (ts !! k.1 = Some backend).

Definition ReconcileCompleted (d : delivery) (target : string) (before now : Z) (s : DB) : result serror unit * DB :=
  BeginFunc ErrStore d (fun s => Ok (tt, update_jobs (stale target target before (tenants s)) (completed_job now) s)) s.

Definition ReconcileStale (d : delivery) (source target : string) (before now : Z) (s : DB) : result serror unit * DB :=
  BeginFunc ErrStore d (fun s =>
    if full_count (stale source target before (tenants s)) s then Err ErrStore
    else Ok (tt, update_jobs (stale source target before (tenants s))
                   (failed_job "stale in_progress: assumed crash recovery" now) s)) s.

Definition UpsertPending (d : delivery) (tenantID target : string) (size threshold now : Z) (s : DB) : result serror CutoverJob * DB :=
  BeginFunc ErrStore d (fun s =>
    if String.eqb tenantID "" || negb (bool_decide (is_Some (tenants s !! tenantID))) then Err ErrStore
    else
      let j := match jobs s !! (tenantID, target) with
               | None => pending_job size threshold now
               | Some j =>
                   if bool_decide (State j = CutoverInProgress) then j
                   else mkJob CutoverPending size threshold (StartedAt j) None 0 "" (micro now)
               end in
      Ok (j, with_jobs (<[(tenantID, target) := j]> (jobs s)) s)) s.

Definition Get (d : delivery) (tenantID target : string) (s : DB) : result serror CutoverJob :=
  query d (fun s => match jobs s !! (tenantID, target) with Some j => Ok j | None => Err ErrNotFound end) s.

(** ** Migration *)

(** What the next call of a migration meets. *)
Record world := mkWorld {
  w_d : delivery; w_d1 : delivery; w_d2 : delivery; w_kept : list Message -> list Message; w_export : list Message -> result serror (list Message); w_searches : searches; w_perm : list nat;
  w_now : Z; w_done : bool; w_audit : bool;
}.

Record migration := mkMigration { tenant : string; source : string; target : string; actor : string }.

Inductive stage :=
| Fetch
| Reindexing (msgs : list Message)
| Validating (msgs : list Message)
| Flipping (msgs : list Message)
| Failing (name : string) (cause : serror)
| Marking (attempt : nat) (lastErr : result serror unit)
| Done (r : result serror unit).

Definition recordAudit (m : migration) (ok : bool) (action failure : string) (s : DB) : DB :=
  if ok : bool then with_audit (audit s ++ [mkAudit (tenant m) (if String.eqb (actor m) "" then "system" else actor m) action failure]) s else s.

Section migration.
Context (backends : list string) (markCompletedRetries : nat) (m : migration).

(** [migrationDeps.markFailed]. *)
Definition markFailed (w : world) (name : string) (cause : serror) (s : DB) : result serror unit * DB :=
  let reason := name +:+ ": " +:+ error_text cause in
  let '(_, s) := MarkFailed (w_d w) (tenant m) (target m) reason (w_now w) s in
  (Err (StageFailed name cause), recordAudit m (w_audit w) "search_cutover_failed" reason s).

(** One pass of the loop of [migrationDeps.markCompletedWithRetry], and how
    [runMigration] returns what the loop ended with. *)
Definition marked (r : result serror unit) : stage :=
  Done (match r with Ok _ => Ok tt | Err e => Err (StageFailed "mark completed" e) end).
Definition markCompletedWithRetry (w : world) (attempt : nat) (lastErr : result serror unit) (s : DB) : stage * DB :=
  if (markCompletedRetries <=? attempt)%nat then (marked lastErr, s)
  else
    let '(r, s) := MarkCompleted (w_d w) (tenant m) (target m) (w_now w) s in
    match r with
    | Ok _ => (marked (Ok tt), s)
    | Err e => if w_done w then (marked (Err ErrCanceled), s) else (Marking (S attempt) (Err e), s)
    end.

(** One call of [runMigration]: the stage after it. *)
Definition advance (w : world) (st : stage) (s : DB) : stage * DB :=
  match st with
  | Fetch =>
      match Export backends (w_d w) (w_export w) (tenant m) s with
      | Err e => (Failing "fetch messages" e, s)
      | Ok msgs => (Reindexing msgs, s)
      end
  | Reindexing msgs =>
      let '(r, s) := ReindexTo backends (w_d1 w) (w_d2 w) (w_kept w) (tenant m) (target m) msgs s in
      (match r with Err e => Failing "reindex" e | Ok _ => Validating msgs end, s)
  | Validating msgs =>
      (match Validate backends (w_searches w) (w_perm w) (tenant m) (target m) msgs with
       | Err e => Failing "validate" e
       | Ok _ => Flipping msgs
       end, s)
  | Flipping msgs =>
      let '(r, s) := SetBackend backends (w_d w) (tenant m) (target m) s in
      match r with
      | Err e => (Failing "set backend" e, s)
      | Ok _ => (Marking 0 (Ok tt), recordAudit m (w_audit w) "search_cutover_completed" "" s)
      end
  | Failing name cause => let '(r, s) := markFailed w name cause s in (Done r, s)
  | Marking attempt lastErr => markCompletedWithRetry w attempt lastErr s
  | Done r => (Done r, s)
  end.

(** All calls, one world each; [rounds] of them are enough
    ([runMigration_ends]). *)
Fixpoint drive (ws : list world) (st : stage) (s : DB) : stage * DB :=
  match ws with
  | [] => (st, s)
  | w :: ws => let '(st, s) := advance w st s in drive ws st s
  end.
Definition rounds : nat := 6 + markCompletedRetries.
Definition runMigration (ws : nat -> world) (s : DB) : stage * DB := drive (ws <$> seq 0 rounds) Fetch s.
End migration.

(** ** Worker and operator *)
Record CutoverTransition := mkTransition { Source : string; Target : string }.
Definition DefaultCutoverTransitions : list CutoverTransition :=
  [mkTransition BackendMeilisearch BackendOpenSearch; mkTransition BackendSharedMeilisearch BackendSharedOpenSearch].

Definition defaultCutoverThreshold : Z := 100000 * 16 * 1024.
Definition defaultCutoverMaxFailures : Z := 5.
Definition defaultCutoverMaxRetryGap : Z := Hour.
Definition defaultCutoverReconcileAfter : Z := 30 * Minute.
Definition defaultCutoverMarkCompletedTries : nat := 3.

Record CutoverConfig := mkConfig {
  cThreshold : Z; cMaxFailures : Z; cMaxRetryGap : Z; cReconcileAfter : Z; cTransitions : list CutoverTransition;
  cMarkCompletedRetries : nat;
}.

(** [service], [sizer], [source], [store]: whether the dependency is given. *)
Definition NewCutoverWorker (service sizer source store : bool) (c : CutoverConfig) : result serror CutoverConfig :=
  if negb service || negb sizer || negb source || negb store then Err ErrInvalidInput
  else Ok (mkConfig (if cThreshold c <=? 0 then defaultCutoverThreshold else cThreshold c)
             (if cMaxFailures c <=? 0 then defaultCutoverMaxFailures else cMaxFailures c)
             (if cMaxRetryGap c <=? 0 then defaultCutoverMaxRetryGap else cMaxRetryGap c)
             (if cReconcileAfter c <=? 0 then defaultCutoverReconcileAfter else cReconcileAfter c)
             (match cTransitions c with [] => DefaultCutoverTransitions | l => l end)
             (match cMarkCompletedRetries c with O => defaultCutoverMarkCompletedTries | n => n end)).

Section worker.
Context (backends : list string) (cfg : CutoverConfig).

(** Surroundings of one candidate: mailbox size, claim and migration. *)
Record env := mkEnv { e_size : option Z; e_claim : delivery; e_now : Z; e_world : nat -> world }.

Definition cutoverOne (E : env) (tenantID : string) (size : Z) (tr : CutoverTransition) (s : DB) : DB :=
  let '(c, s) := Claim (e_claim E) tenantID (Target tr) size (cThreshold cfg) (e_now E) s in
  match c with
  | Ok true => (runMigration backends (cMarkCompletedRetries cfg) (mkMigration tenantID (Source tr) (Target tr) "") (e_world E) s).2
  | _ => s
  end.

Definition candidate (Es : string -> env) (tr : CutoverTransition) (s : DB) (tenantID : string) : DB :=
  match e_size (Es tenantID) with
  | None => s
  | Some size => if size <? cThreshold cfg then s else cutoverOne (Es tenantID) tenantID size tr s
  end.

(** [d1], [d2], [d3]: the two reconciliations and the scan. *)
Definition tickTransition (d1 d2 d3 : delivery) (now : Z) (Es : string -> env) (s : DB) (tr : CutoverTransition) : DB :=
  let staleBefore := now - cReconcileAfter cfg in
  let '(_, s) := ReconcileCompleted d1 (Target tr) staleBefore now s in
  let '(_, s) := ReconcileStale d2 (Source tr) (Target tr) staleBefore now s in
  match ListCandidates d3 (mkFilter (Source tr) (Target tr) (cMaxFailures cfg) (now - cMaxRetryGap cfg)) s with
  | Err _ => s
  | Ok ids => foldl (candidate Es tr) s ids
  end.

Definition Tick (d1 d2 d3 : delivery) (now : Z) (Es : string -> env) (s : DB) : DB :=
  foldl (tickTransition d1 d2 d3 now Es) s (cTransitions cfg).

(** [CutoverService]: [size] is what the sizer returns, zero when it fails. *)
Definition tenantSize (size : option Z) : Z := default 0 size.

Definition check_request (d : delivery) (tenantID target : string) (s : DB) : result serror string :=
  if String.eqb tenantID "" || String.eqb target "" then Err ErrInvalidInput
  else if negb (IsValidBackend target) then Err ErrInvalidInput
  else
    let? cur := GetBackend d tenantID s in
    if String.eqb cur target then Err ErrInvalidInput else Ok cur.

Definition InitiateCutover (d1 d2 : delivery) (size : option Z) (now : Z) (tenantID target : string) (s : DB)
    : result serror CutoverJob * DB :=
  match check_request d1 tenantID target s with
  | Err e => (Err e, s)
  | Ok _ => UpsertPending d2 tenantID target (tenantSize size) (cThreshold cfg) now s
  end.

Definition ExecuteCutover (d1 : delivery) (E : env) (tenantID target actorID : string) (s : DB) : result serror unit * DB :=
  match check_request d1 tenantID target s with
  | Err e => (Err e, s)
  | Ok cur =>
      let '(c, s) := Claim (e_claim E) tenantID target (tenantSize (e_size E)) (cThreshold cfg) (e_now E) s in
      match c with
      | Err e => (Err e, s)
      | Ok false => (Err ErrCutoverInProgress, s)
      | Ok true =>
          let '(st, s) := runMigration backends (cMarkCompletedRetries cfg) (mkMigration tenantID cur target actorID) (e_world E) s in
          (match st with Done r => r | _ => Err ErrCanceled end, s)
      end
  end.

(** The handler [initiate]: intent, then execution. *)
Definition initiate (d1 d2 : delivery) (E : env) (d3 : delivery) (tenantID target actorID : string) (s : DB)
    : result serror CutoverJob * DB :=
  let '(r, s) := InitiateCutover d1 d2 (e_size E) (e_now E) tenantID target s in
  match r with
  | Err e => (Err e, s)
  | Ok job =>
      if bool_decide (State job = CutoverInProgress) then (Err ErrCutoverInProgress, s)
      else
        let '(x, s) := ExecuteCutover d1 E tenantID target actorID s in
        match x with
        | Err e => (Err e, s)
        | Ok _ => (Get d3 tenantID target s, s)
        end
  end.
End worker.

(** ** Pods and operators

    [pc w] is the migration pod [w] runs: its claim's clock reading and the
    next stage. *)
Record sys := mkSys { db : DB; pc : nat -> option (migration * Z * stage) }.
Definition with_db (x : DB) (s : sys) : sys := mkSys x (pc s).
Definition with_pc (w : nat) (p : option (migration * Z * stage)) (s : sys) : sys :=
  mkSys (db s) (fun w' => if decide (w' = w) then p else pc s w').

Inductive event :=
| EvClaim (w : nat) (d : delivery) (m : migration) (size threshold now : Z)
| EvStage (w : nat) (e : world)
| EvLeave (w : nat)            (* the migration is over, or the pod is killed *)
| EvReconcileCompleted (d : delivery) (target : string) (before now : Z)
| EvReconcileStale (d : delivery) (source target : string) (before now : Z)
| EvUpsert (d : delivery) (tenantID target : string) (size threshold now : Z)
| EvSetBackend (d : delivery) (tenantID backend : string)
| EvIndex (d d1 : delivery) (msg : Message).

Section system.
Context (backends : list string) (retries : nat).

Inductive cstep : sys -> event -> sys -> Prop :=
| c_claim s w d m size threshold now c x :
    pc s w = None -> Claim d (tenant m) (target m) size threshold now (db s) = (c, x) ->
    cstep s (EvClaim w d m size threshold now)
      (with_db x (match c with Ok true => with_pc w (Some (m, now, Fetch)) s | _ => s end))
| c_stage s w e m t0 st st' x :
    pc s w = Some (m, t0, st) -> advance backends retries m e st (db s) = (st', x) ->
    cstep s (EvStage w e) (with_db x (with_pc w (Some (m, t0, st')) s))
| c_leave s w : cstep s (EvLeave w) (with_pc w None s)
| c_reconcile_completed s d tg before now :
    cstep s (EvReconcileCompleted d tg before now) (with_db (ReconcileCompleted d tg before now (db s)).2 s)
| c_reconcile_stale s d src tg before now :
    cstep s (EvReconcileStale d src tg before now) (with_db (ReconcileStale d src tg before now (db s)).2 s)
| c_upsert s d t tg size threshold now :
    cstep s (EvUpsert d t tg size threshold now) (with_db (UpsertPending d t tg size threshold now (db s)).2 s)
| c_set_backend s d t b : cstep s (EvSetBackend d t b) (with_db (SetBackend backends d t b (db s)).2 s)
| c_index s d d1 msg : cstep s (EvIndex d d1 msg) (with_db (IndexMessage backends d d1 msg (db s)).2 s).

Definition key (m : migration) : string * string := (tenant m, target m).
Definition over (st : stage) : bool := match st with Done _ => true | _ => false end.
Definition marking (st : stage) : bool := match st with Marking _ _ => true | _ => false end.

(** Assumptions on time: no pass of the worker takes a running migration for
    an abandoned one, and an operator does not start over a job in the moment
    its completion is being recorded. *)
Definition timely (s : sys) (e : event) : Prop :=
  match e with
  | EvReconcileCompleted _ _ before _ | EvReconcileStale _ _ _ before _ =>
      forall w m t0 st, pc s w = Some (m, t0, st) -> over st = false -> micro before <= micro t0
  | EvUpsert _ t tg _ _ _ =>
      forall w m t0 st, pc s w = Some (m, t0, st) -> marking st = true -> key m <> (t, tg)
  | _ => True
  end.

(** ** Invariant *)
Definition held (st : stage) (t0 : Z) (j : CutoverJob) : Prop :=
  State j = CutoverInProgress /\ UpdatedAt j = micro t0 \/ marking st = true /\ State j = CutoverCompleted.

Definition dated (j : CutoverJob) : Prop := CompletedAt j <> None <-> State j = CutoverCompleted.

Record inv (s : sys) : Prop := {
  inv_held : forall w m t0 st, pc s w = Some (m, t0, st) -> over st = false ->
    exists j, jobs (db s) !! key m = Some j /\ held st t0 j;
  inv_alone : forall w w' m m' t0 t0' st st', pc s w = Some (m, t0, st) -> pc s w' = Some (m', t0', st') ->
    over st = false -> over st' = false -> key m = key m' -> w = w';
  inv_dated : forall k j, jobs (db s) !! k = Some j -> dated j;
}.

Lemma lookup_update_jobs p f s k : jobs (update_jobs p f s) !! k = (fun j => if p k j then f j else j) <$> jobs s !! k.
Proof. unfold update_jobs. cbn. rewrite map_lookup_imap. by destruct (jobs s !! k). Qed.

Lemma completed_dated now j : dated (completed_job now j).
Proof. by split. Qed.
Lemma failed_dated reason now j : dated j -> State j <> CutoverCompleted -> dated (failed_job reason now j).
Proof. intros H Hn. unfold dated in *. cbn. split; [|done]. by intros ?%H. Qed.

(** A change of rows that no running migration holds. *)
Lemma inv_jobs s x :
  inv s -> (forall k j, jobs x !! k = Some j -> dated j) ->
  (forall w m t0 st j, pc s w = Some (m, t0, st) -> over st = false -> jobs (db s) !! key m = Some j -> held st t0 j ->
     exists j', jobs x !! key m = Some j' /\ held st t0 j') ->
  inv (with_db x s).
Proof.
  intros [H1 H2 H3] Hd Hh. constructor; cbn; [|done..]. intros w m t0 st Hp Ho. destruct (H1 w m t0 st Hp Ho) as (j & Hj & Hj').
  by eapply Hh.
Qed.

(** Calls that leave the job table alone. *)
Lemma inv_same_jobs s x : inv s -> jobs x = jobs (db s) -> inv (with_db x s).
Proof.
  intros Hi E. apply inv_jobs; [done|rewrite E; apply Hi|]. intros w m t0 st j Hp Ho Hj Hh. exists j. by rewrite E.
Qed.

Lemma SetBackend_jobs d t b s : jobs (SetBackend backends d t b s).2 = jobs s.
Proof.
  unfold SetBackend. destruct (check_backend _ _ _); [|done]. apply (BeginFunc_ind (fun s' => jobs s' = jobs s)); [done|].
  intros [] s'. destruct (tenants s !! t); [|done]. by intros [= <-].
Qed.

Lemma IndexMessage_jobs d d1 msg s : jobs (IndexMessage backends d d1 msg s).2 = jobs s.
Proof. unfold IndexMessage. destruct (GetBackend _ _ _); [|done]. destruct (negb _); [done|]. by destruct d1. Qed.

Lemma ReindexTo_jobs d1 d2 n t b msgs s : jobs (ReindexTo backends d1 d2 n t b msgs s).2 = jobs s.
Proof.
  unfold ReindexTo. destruct (check_backend _ _ _); [|done]. unfold reindexInto. destruct (negb _); [done|].
  destruct d1; cbn; [|done..]. destruct msgs; [done|]. by destruct d2.
Qed.

Lemma held_not_claimable st t0 j : held st t0 j -> claimable j = false.
Proof. unfold held, claimable. intros [[-> _]|[_ ->]]; done. Qed.

Lemma update_jobs_id p s : jobs (update_jobs p id s) = jobs s.
Proof. apply map_eq. intros k. rewrite lookup_update_jobs. destruct (jobs s !! k); [|done]. cbn. by destruct (p _ _). Qed.

Lemma MarkFailed_cases d t tg reason now s :
  (MarkFailed d t tg reason now s).2 = s \/ (MarkFailed d t tg reason now s).2 = update_jobs (at_key (t, tg)) (failed_job reason now) s.
Proof.
  unfold MarkFailed. apply BeginFunc_ind; [by left|]. intros [] s'. destruct (full_count _ _); [done|]. intros [= <-]. by right.
Qed.

Lemma MarkCompleted_cases d t tg now s r s' :
  MarkCompleted d t tg now s = (r, s') -> s' = s /\ is_ok r = false \/ s' = update_jobs (at_key (t, tg)) (completed_job now) s.
Proof. unfold MarkCompleted, BeginFunc. destruct d; intros [= <- <-]; auto. Qed.

(** What a call of a migration does to its own row; other rows stay. *)
Definition keeps_row (t0 : Z) (st st' : stage) (f : CutoverJob -> CutoverJob) : Prop :=
  forall j, held st t0 j -> dated j -> dated (f j) /\ (over st' = false -> held st' t0 (f j)).

Lemma keeps_row_id t0 st st' : (over st' = false -> marking st = true -> marking st' = true) -> keeps_row t0 st st' id.
Proof. intros H j Hj Hd. split; [done|]. intros Ho. destruct Hj as [Hj|[Hm Hc]]; [by left|right]. split; [by apply H|done]. Qed.

Lemma advance_jobs m e st s st' x t0 :
  advance backends retries m e st s = (st', x) ->
  (over st = true -> over st' = true /\ jobs x = jobs s) /\
  (over st = false -> exists f, jobs x = jobs (update_jobs (at_key (key m)) f s) /\ keeps_row t0 st st' f).
Proof.
  intros Hadv. split; [destruct st; try done; by injection Hadv as <- <-|]. intros Ho.
  assert ((jobs x = jobs s /\ marking st = false) -> exists f, jobs x = jobs (update_jobs (at_key (key m)) f s) /\ keeps_row t0 st st' f) as Hid.
  { intros [E Hm]. exists id. rewrite update_jobs_id. split; [done|]. apply keeps_row_id. congruence. }
  destruct st as [|msgs|msgs|msgs|name cause|a last|r]; cbn in Hadv; [| | | | | |done].
  - apply Hid. split; [|done]. destruct (Export _ _ _ _ _); by injection Hadv as <- <-.
  - apply Hid. split; [|done]. pose proof (ReindexTo_jobs (w_d1 e) (w_d2 e) (w_kept e) (tenant m) (target m) msgs s) as Hj.
    destruct (ReindexTo _ _ _ _ _ _ _ _) as [[]]; by injection Hadv as <- <-.
  - apply Hid. split; [|done]. destruct (Validate _ _ _ _ _ _); by injection Hadv as <- <-.
  - apply Hid. split; [|done]. pose proof (SetBackend_jobs (w_d e) (tenant m) (target m) s) as Hj.
    destruct (SetBackend _ _ _ _ _) as [[]]; injection Hadv as <- <-; [|done]. unfold recordAudit. by destruct (w_audit e).
  - unfold markFailed in Hadv. set (reason := name +:+ ": " +:+ error_text cause) in *.
    pose proof (MarkFailed_cases (w_d e) (tenant m) (target m) reason (w_now e) s) as Hy.
    destruct (MarkFailed _ _ _ _ _ _) as [r y]. injection Hadv as <- <-. cbn in Hy.
    assert (jobs (recordAudit m (w_audit e) "search_cutover_failed" reason y) = jobs y) as Ha.
    { unfold recordAudit. by destruct (w_audit e). }
    destruct Hy as [->| ->]; [by apply Hid|]. eexists. split; [exact Ha|]. intros j Hj Hd. split; [|done].
    apply failed_dated; [done|]. destruct Hj as [[-> _]|[? _]]; done.
  - unfold markCompletedWithRetry in Hadv. destruct (retries <=? a)%nat.
    { injection Hadv as <- <-. exists id. rewrite update_jobs_id. split; [done|]. by apply keeps_row_id. }
    destruct (MarkCompleted _ _ _ _ _) as [r y] eqn:Hm. apply MarkCompleted_cases in Hm.
    assert (x = y /\ (over st' = false -> marking st' = true)) as [-> Hst].
    { destruct r; [by injection Hadv as <- <-|]. destruct (w_done e); by injection Hadv as <- <-. }
    destruct Hm as [[-> _]| ->].
    + exists id. rewrite update_jobs_id. split; [done|]. apply keeps_row_id. auto.
    + eexists. split; [reflexivity|]. intros j _ _. split; [apply completed_dated|]. intros Hov. right. auto.
Qed.

(** Rows another migration changes are not ours. *)
Lemma inv_advance s w m t0 st st' x e :
  inv s -> pc s w = Some (m, t0, st) -> advance backends retries m e st (db s) = (st', x) ->
  inv (with_db x (with_pc w (Some (m, t0, st')) s)).
Proof.
  intros [H1 H2 H3] Hp [Hov Hrow]%(advance_jobs _ _ _ _ _ _ t0).
  assert (forall w' m' t0' st0, pc (with_pc w (Some (m, t0, st')) s) w' = Some (m', t0', st0) -> over st0 = false ->
    (w' = w /\ m' = m /\ t0' = t0 /\ st0 = st' /\ over st = false) \/ w' <> w /\ pc s w' = Some (m', t0', st0)) as Hpc.
  { intros w' m' t0' st0. cbn. destruct (decide (w' = w)) as [->|]; [|by right]. intros [= -> -> ->] Ho. left. split_and!; [done..|].
    destruct (over st); [|done]. destruct (Hov eq_refl). congruence. }
  constructor; cbn [db with_db].
  - intros w' m' t0' st0 Hp' Ho'. destruct (Hpc _ _ _ _ Hp' Ho') as [(-> & -> & -> & -> & Hos)|[Hne Hp0]].
    + destruct (H1 w m t0 st Hp Hos) as (j & Hj & Hh). destruct (Hrow Hos) as (f & -> & Hf).
      exists (f j). rewrite lookup_update_jobs, Hj. cbn. unfold at_key. rewrite bool_decide_true by done. split; [done|].
      by apply (Hf j Hh (H3 _ _ Hj)).
    + destruct (H1 w' m' t0' st0 Hp0 Ho') as (j & Hj & Hh). exists j. split; [|done].
      destruct (over st) eqn:Hos; [by rewrite (proj2 (Hov eq_refl))|]. destruct (Hrow eq_refl) as (f & -> & _).
      rewrite lookup_update_jobs, Hj. cbn. unfold at_key. rewrite bool_decide_false; [done|]. intros Hk. apply Hne.
      by apply (H2 w' w m' m t0' t0 st0 st).
  - intros w1 w2 m1 m2 t1 t2 s1 s2 P1 P2 O1 O2 K.
    destruct (Hpc _ _ _ _ P1 O1) as [(-> & -> & -> & -> & Hos)|[N1 Q1]], (Hpc _ _ _ _ P2 O2) as [(-> & -> & -> & -> & Hos')|[N2 Q2]].
    + done.
    + by apply (H2 w w2 m m2 t0 t2 st s2).
    + by apply (H2 w1 w m1 m t1 t0 s1 st).
    + by apply (H2 w1 w2 m1 m2 t1 t2 s1 s2).
  - intros k j Hk. destruct (over st) eqn:Hos; [rewrite (proj2 (Hov eq_refl)) in Hk; by eapply H3|].
    destruct (Hrow eq_refl) as (f & E & Hf). rewrite E, lookup_update_jobs in Hk.
    destruct (jobs (db s) !! k) as [j0|] eqn:Hj0; [|done]. injection Hk as <-. unfold at_key.
    case_bool_decide as Hk; [subst k|by eapply H3]. destruct (H1 w m t0 st Hp Hos) as (j1 & Hj1 & Hh). simplify_eq.
    by apply Hf; [|eapply H3].
Qed.

Lemma Claim_cases d t tg size thr now s c x :
  Claim d t tg size thr now s = (c, x) ->
  (x = s /\ c <> Ok true) \/
  exists j, (jobs s !! (t, tg) = Some j \/ jobs s !! (t, tg) = None /\ j = pending_job size thr now) /\ claimable j = true /\
    x = with_jobs (<[(t, tg) := claimed_job size now j]> (jobs s)) s /\ (c = Ok true \/ c = Err ErrStore).
Proof.
  unfold Claim, BeginFunc. destruct (negb _); [destruct d; intros [= <- <-]; left; done|].
  destruct (claimable _) eqn:Hc; [|destruct d; intros [= <- <-]; left; done].
  destruct d; intros [= <- <-]; [right|left; done|right]; (destruct (jobs s !! (t, tg)) as [j|]; cbn in *;
    [exists j|exists (pending_job size thr now)]); split_and!; auto.
Qed.

Lemma inv_claim s w d m size thr now c x :
  inv s -> pc s w = None -> Claim d (tenant m) (target m) size thr now (db s) = (c, x) ->
  inv (with_db x (match c with Ok true => with_pc w (Some (m, now, Fetch)) s | _ => s end)).
Proof.
  intros Hi Hw Hc. pose proof Hi as [H1 H2 H3]. apply Claim_cases in Hc as [[-> Hne]|(j & Hj & Hcl & -> & Hc)].
  { destruct s, c as [[]|]; done. }
  assert (forall w' m' t0 st, pc s w' = Some (m', t0, st) -> over st = false -> key m' <> (tenant m, target m)) as Hfree.
  { intros w' m' t0 st Hp Ho Hk. destruct (H1 _ _ _ _ Hp Ho) as (j' & Hj' & Hh). apply held_not_claimable in Hh. rewrite Hk in Hj'.
    destruct Hj as [Hj|[Hj _]]; congruence. }
  assert (inv (with_db (with_jobs (<[(tenant m, target m) := claimed_job size now j]> (jobs (db s))) (db s)) s)) as Hi'.
  { apply inv_jobs; [done| |].
    - intros k j'. cbn. intros [[<- <-]|[_ Hk]]%lookup_insert_Some; [by split|by eapply H3].
    - intros w' m' t0 st j' Hp Ho Hj' Hh. exists j'. split; [|done]. cbn. rewrite lookup_insert_ne; [done|]. intros E. by eapply Hfree. }
  destruct Hc as [->| ->]; [|done]. destruct Hi' as [K1 K2 K3]. constructor; cbn in *; [| |done].
  - intros w' m' t0 st. destruct (decide (w' = w)) as [->|]; [|apply K1]. intros [= <- <- <-] _. eexists. rewrite lookup_insert_eq.
    split; [done|]. by left.
  - intros w1 w2 m1 m2 t1 t2 s1 s2. destruct (decide (w1 = w)) as [->|], (decide (w2 = w)) as [->|]; [done| | |apply K2].
    + intros [= <- <- <-] Hp _ Ho Hk. by destruct (Hfree _ _ _ _ Hp Ho).
    + intros Hp [= <- <- <-] Ho _ Hk. by destruct (Hfree _ _ _ _ Hp Ho).
Qed.

(** Passes of the worker over rows no running migration holds. *)
Lemma inv_reconcile s f src tg before :
  inv s -> (forall w m t0 st, pc s w = Some (m, t0, st) -> over st = false -> micro before <= micro t0) ->
  (forall j, dated j -> State j = CutoverInProgress -> dated (f j)) ->
  inv (with_db (update_jobs (stale src tg before (tenants (db s))) f (db s)) s).
Proof.
  intros Hi Ht Hf. apply inv_jobs; [done| |].
  - intros k j. rewrite lookup_update_jobs. destruct (jobs (db s) !! k) as [j0|] eqn:Hj; [|done]. intros [= <-].
    destruct (stale _ _ _ _ _ _) eqn:Hs; [|by eapply inv_dated]. apply Hf; [by eapply inv_dated|]. unfold stale in Hs. by breflect.
  - intros w m t0 st j Hp Ho Hj Hh. exists j. split; [|done]. rewrite lookup_update_jobs, Hj. cbn. f_equal.
    destruct (stale _ _ _ _ _ _) eqn:Hs; [|done]. exfalso. unfold stale in Hs. breflect. specialize (Ht _ _ _ _ Hp Ho).
    destruct Hh as [[_ Hu]|[_ Hc]]; [lia|congruence].
Qed.

Lemma inv_step s e s' : inv s -> timely s e -> cstep s e s' -> inv s'.
Proof.
  intros Hi Ht Hs. destruct Hs as [s w d m size thr now c x Hw Hc|s w e m t0 st st' x Hp Hadv|s w|s d tg before now|s d src tg before now|s d t tg size thr now|s d t b|s d d1 msg].
  - by eapply inv_claim.
  - by eapply inv_advance.
  - destruct Hi as [H1 H2 H3]. constructor; cbn; [| |done].
    + intros w' m t0 st. destruct (decide (w' = w)); [done|apply H1].
    + intros w1 w2 m m' t0 t0' st st'. destruct (decide (w1 = w)), (decide (w2 = w)); try done. apply H2.
  - unfold ReconcileCompleted. apply (BeginFunc_ind (fun y => inv (with_db y s))); [by destruct s|]. intros [] y [= <-].
    apply inv_reconcile; [done..|]. intros j _ _. apply completed_dated.
  - unfold ReconcileStale. apply (BeginFunc_ind (fun y => inv (with_db y s))); [by destruct s|]. intros [] y.
    destruct (full_count _ _); [done|]. intros [= <-]. apply inv_reconcile; [done..|]. intros j Hd Hp. apply failed_dated; [done|congruence].
  - unfold UpsertPending. apply (BeginFunc_ind (fun y => inv (with_db y s))); [by destruct s|]. intros j y.
    destruct (_ || _); [done|]. intros [= <- <-]. apply inv_jobs; [done| |].
    + intros k j'. cbn. intros [[<- <-]|[_ Hk]]%lookup_insert_Some; [|by eapply inv_dated].
      destruct (jobs (db s) !! (t, tg)) as [j0|] eqn:Hj0; [|by split]. case_bool_decide; [by eapply inv_dated|by split].
    + intros w m t0 st j' Hp Ho Hj' Hh. exists j'. split; [|done]. cbn. destruct (decide ((t, tg) = key m)) as [Hk|Hne].
      * rewrite Hk, lookup_insert_eq, Hj'. f_equal. case_bool_decide as Hip; [done|]. destruct Hh as [[Hh _]|[Hm _]]; [done|].
        by destruct (Ht w m t0 st Hp Hm).
      * by rewrite lookup_insert_ne.
  - apply inv_same_jobs; [done|apply SetBackend_jobs].
  - apply inv_same_jobs; [done|apply IndexMessage_jobs].
Qed.

(** Runs whose steps are timely. *)
Inductive trun : sys -> list event -> sys -> Prop :=
| trun_nil s : trun s [] s
| trun_cons s e s1 es s2 : timely s e -> cstep s e s1 -> trun s1 es s2 -> trun s (e :: es) s2.

Lemma inv_trun s es s' : inv s -> trun s es s' -> inv s'.
Proof. intros Hi Hr. induction Hr; [done|]. eauto using inv_step. Qed.

Definition idle (x : DB) : sys := mkSys x (fun _ => None).

(** A cutover job is run by one pod at a time.  For every interleaving of
    claims, calls, crashes, reconciliation passes and operators in which no pass
    takes a running migration for an abandoned one, two running migrations never
    concern the same tenant and target; the row of a running one is in progress
    since its claim (or completed, while the completion is being recorded), so
    no claim on it succeeds; and a row has a completion date if and only if it
    is completed. *)
Theorem job_exclusive x es s :
  (forall k j, jobs x !! k = Some j -> dated j) -> trun (idle x) es s ->
  (forall w w' m m' t0 t0' st st', pc s w = Some (m, t0, st) -> pc s w' = Some (m', t0', st') ->
     over st = false -> over st' = false -> key m = key m' -> w = w') /\
  (forall w m t0 st d size thr now, pc s w = Some (m, t0, st) -> over st = false ->
     (exists j, jobs (db s) !! key m = Some j /\ held st t0 j) /\
     (Claim d (tenant m) (target m) size thr now (db s)).1 <> Ok true) /\
  (forall k j, jobs (db s) !! k = Some j -> dated j).
Proof.
  intros Hx Hr. assert (inv s) as [H1 H2 H3]. { eapply inv_trun; [|done]. by constructor. }
  split_and!; [done| |done]. intros w m t0 st d size thr now Hp Ho. destruct (H1 _ _ _ _ Hp Ho) as (j & Hj & Hh).
  split; [by exists j|]. intros Hc. destruct (Claim _ _ _ _ _ _ _) as [c y] eqn:E.
  apply Claim_cases in E as [[_ ?]|(j' & [Hj'|[Hj' _]] & Hcl & _)]; [done| |]; change (tenant m, target m) with (key m) in Hj'; [|congruence].
  simplify_eq. by rewrite (held_not_claimable _ _ _ Hh) in Hcl.
Qed.
End system.

(** ** What a validation has seen *)
Lemma validate_from_ok w b m n a last :
  validate_from w b m n a last = Ok tt -> n <> O ->
  is_ok last = true /\ a <> O \/ exists i hits, (a <= i < a + n)%nat /\ sr_hits w i m = Some hits /\
    (containsMessageID hits (MessageID m) = true \/ (cutoverValidationLimit <= length hits)%nat).
Proof.
  revert a last. induction n as [|n IH]; intros a last; [done|]. cbn [validate_from]. destruct (_ && _); [done|].
  destruct (sr_hits w a m) as [hits|] eqn:Hh.
  - destruct (containsMessageID _ _) eqn:Hc; [intros _ _; right; exists a, hits; split_and!; [lia|lia|done|by left]|].
    destruct (Nat.leb_spec cutoverValidationLimit (length hits)); [intros _ _; right; exists a, hits; split_and!; [lia|lia|done|by right]|].
    intros Hv _. right. destruct n as [|n]; [done|].
    destruct (IH (S a) _ Hv ltac:(done)) as [[? _]|(i & h & Hi & Hr)]; [done|]. exists i, h. split; [lia|done].
  - intros Hv _. right. destruct n as [|n]; [done|].
    destruct (IH (S a) _ Hv ltac:(done)) as [[? _]|(i & h & Hi & Hr)]; [done|]. exists i, h. split; [lia|done].
Qed.

Lemma validate_all_ok w b l : validate_all w b l = Ok tt -> forall m, m ∈ l -> validateSearchable w b m = Ok tt.
Proof.
  induction l as [|x l IH]; simpl; [by intros _ m ?%not_elem_of_nil|]. intros ([] & H & Hl)%rbind_ok m [->|Hm]%elem_of_cons; [done|].
  by apply IH.
Qed.

Lemma omap_lookup_perm {A} (l : list A) (idx : list nat) :
  Forall (fun i => (i < length l)%nat) idx -> length (omap (fun i => l !! i) idx) = length idx.
Proof.
  induction 1 as [|i idx Hi _ IH]; [done|]. apply lookup_lt_is_Some in Hi as [x Hx].
  change (omap (fun i => l !! i) (i :: idx)) with (match l !! i with Some y => y :: omap (fun i => l !! i) idx | None => omap (fun i => l !! i) idx end).
  rewrite Hx. exact (f_equal S IH).
Qed.

(** Each message of the sample was found, or there was no room to tell. *)
Lemma Validate_found backends w perm t b msgs : Validate backends w perm t b msgs = Ok tt ->
  forall m, m ∈ sampleMessages perm (searchable msgs) cutoverValidationSampleSize -> m ∈ searchable msgs /\
    exists i hits, (i < 5)%nat /\ sr_hits w i m = Some hits /\
      (containsMessageID hits (MessageID m) = true \/ (cutoverValidationLimit <= length hits)%nat).
Proof.
  intros Hv m Hm. unfold Validate in Hv. destruct (_ || _); [done|]. destruct (negb _); [done|]. split.
  - unfold sampleMessages in Hm. destruct (_ <=? _)%nat; [done|]. apply list_elem_of_omap in Hm as (i & _ & Hi). by eapply list_elem_of_lookup_2.
  - apply (validate_all_ok _ _ _ Hv) in Hm. unfold validateSearchable in Hm. apply validate_from_ok in Hm as [[_ ?]|(i & h & Hi & Hr)]; [done| |done].
    exists i, h. split; [unfold cutoverValidationAttempts in Hi; lia|done].
Qed.

(** What a validation has seen.  When it succeeds, ten messages of the
    searchable ones (all, if there are fewer) were looked up, and each was found
    in one of five searches, or a full page of hits left no room to tell. *)
Theorem validate_sound backends w perm t b msgs :
  perm ≡ₚ seq 0 (length (searchable msgs)) -> Validate backends w perm t b msgs = Ok tt ->
  let sample := sampleMessages perm (searchable msgs) cutoverValidationSampleSize in
  length sample = Nat.min 10 (length (searchable msgs)) /\
  forall m, m ∈ sample -> m ∈ searchable msgs /\
    exists i hits, (i < 5)%nat /\ sr_hits w i m = Some hits /\
      (containsMessageID hits (MessageID m) = true \/ (cutoverValidationLimit <= length hits)%nat).
Proof.
  intros Hperm Hv sample. split; [|by apply (Validate_found _ _ _ _ _ _ Hv)].
  subst sample. unfold sampleMessages, cutoverValidationSampleSize. destruct (Nat.leb_spec (length (searchable msgs)) 10); [lia|].
  rewrite omap_lookup_perm, length_take, Hperm, length_seq; [done|].
  apply Forall_take. rewrite Hperm. apply Forall_forall. intros i Hi%elem_of_seq. lia.
Qed.

(** ** One migration *)
Section outcome.
Context (backends : list string) (retries : nat) (m : migration).
Abbreviation advance := (advance backends retries m).
Abbreviation drive := (drive backends retries m).
Abbreviation runMigration := (runMigration backends retries m).

(** Calls a stage still needs. *)
Definition weight (st : stage) : nat :=
  match st with
  | Fetch => retries + 5 | Reindexing _ => retries + 4 | Validating _ => retries + 3 | Flipping _ => retries + 2
  | Failing _ _ => 1 | Marking a _ => S (retries - a) | Done _ => 0
  end.

Lemma advance_weight w st s : (weight (advance w st s).1 <= pred (weight st))%nat.
Proof.
  destruct st; cbn.
  - destruct (Export _ _ _ _ _); cbn; lia.
  - destruct (ReindexTo _ _ _ _ _ _ _ _) as [[]]; cbn; lia.
  - destruct (Validate _ _ _ _ _ _); cbn; lia.
  - destruct (SetBackend _ _ _ _ _) as [[]]; cbn; lia.
  - destruct (markFailed _ _ _ _ _). cbn. lia.
  - unfold markCompletedWithRetry. destruct (Nat.leb_spec retries attempt); [cbn; lia|]. destruct (MarkCompleted _ _ _ _ _) as [[]]; [cbn; lia|]. destruct (w_done w); cbn; lia.
  - lia.
Qed.

Lemma drive_ends ws st s : (weight st <= length ws)%nat -> over (drive ws st s).1 = true.
Proof.
  revert st s. induction ws as [|w ws IH]; intros st s Hw; cbn.
  - by destruct st; cbn in *; try lia.
  - pose proof (advance_weight w st s). destruct (advance w st s) as [st' s']. cbn in *. apply IH. lia.
Qed.

Lemma runMigration_ends ws s : exists r, (runMigration ws s).1 = Done r.
Proof.
  pose proof (drive_ends (ws <$> seq 0 (rounds retries)) Fetch s) as H. unfold Cutover.runMigration.
  destruct (drive _ _ _) as [st s']. cbn in *. destruct st; try (by eexists); exfalso;
    (assert (false = true); [apply H; rewrite length_fmap, length_seq; unfold rounds; lia|done]).
Qed.

(** What was seen of the target before a flip: [msgs] is what the driver
    exported from the documents [src], the target was emptied and given all of
    it, and ten messages with an id and something to search for (all, if there
    are fewer) were found in the target in one of five searches each, or a full
    page of fifty hits left no room to tell. *)
Definition found_in (w : searches) (x : Message) : Prop :=
  exists i hits, (i < 5)%nat /\ sr_hits w i x = Some hits /\ ((exists h, h ∈ hits /\ hMessageID h = MessageID x) \/ (50 <= length hits)%nat).
Definition has_text (x : Message) : Prop := MessageID x <> ""%string /\ (Subject x <> ""%string \/ From x <> ""%string).
Definition checked_in (w : world) (msgs : list Message) : Prop :=
  exists sample, Forall (found_in (w_searches w)) sample /\ (forall x, x ∈ sample -> x ∈ msgs /\ has_text x) /\
    exists all, (forall x, x ∈ all <-> x ∈ msgs /\ has_text x) /\ (w_perm w ≡ₚ seq 0 (length all) -> length sample = Nat.min 10 (length all)).
Definition given (w : world) (msgs : list Message) : list Message := match msgs with [] => [] | _ => w_kept w msgs end.

Lemma searchable_has_text msgs x : x ∈ searchable msgs <-> x ∈ msgs /\ has_text x.
Proof.
  unfold searchable, has_text, validationQuery. rewrite elem_of_filterb, andb_true_iff, !negb_true_iff, !String.eqb_neq.
  destruct (String.eqb_spec (Subject x) ""); intuition congruence.
Qed.
Lemma Validate_checked w t b msgs : Validate backends (w_searches w) (w_perm w) t b msgs = Ok tt -> checked_in w msgs.
Proof.
  intros Hv. exists (sampleMessages (w_perm w) (searchable msgs) 10). split_and!.
  - apply Forall_forall. intros x Hx. destruct (Validate_found _ _ _ _ _ _ Hv x Hx) as (_ & i & hits & Hi & Hh & Hf). exists i, hits. split_and!; [done..|].
    destruct Hf as [(h & Hin & Hid%String.eqb_eq)%existsb_elem|Hf]; [left; by exists h|by right].
  - intros x Hx. apply searchable_has_text. by apply (Validate_found _ _ _ _ _ _ Hv).
  - exists (searchable msgs). split; [apply searchable_has_text|]. intros Hp. by apply (validate_sound _ _ _ _ _ _ Hp Hv).
Qed.

Section known.
Variable ws : nat -> world.
(** What is known at each stage; [b] is the back end the tenant started on. *)
Definition exported (s0 : DB) (b : string) (msgs : list Message) : Prop := exists i, w_export (ws i) (default [] (index s0 !! (b, tenant m))) = Ok msgs.
Definition loaded (s : DB) (msgs : list Message) : Prop := exists i, index s !! (target m, tenant m) = Some (given (ws i) msgs).
Definition validated (msgs : list Message) : Prop := exists i, checked_in (ws i) msgs.
Definition progress (s0 : DB) (b : string) (st : stage) (s : DB) : Prop :=
  let same := tenants s = tenants s0 in
  let flipped := tenants s = <[tenant m := target m]> (tenants s0) /\ exists msgs, exported s0 b msgs /\ loaded s msgs /\ validated msgs in
  index s !! (b, tenant m) = index s0 !! (b, tenant m) /\
  match st with
  | Fetch => same
  | Reindexing msgs => same /\ exported s0 b msgs
  | Validating msgs => same /\ exported s0 b msgs /\ loaded s msgs
  | Flipping msgs => same /\ exported s0 b msgs /\ loaded s msgs /\ validated msgs
  | Marking _ _ => flipped
  | Failing _ _ | Done _ => same \/ flipped
  end.

Lemma reindexInto_frame d1 d2 n t b msgs s k :
  k <> (b, t) -> let s' := (reindexInto backends d1 d2 n t b msgs s).2 in tenants s' = tenants s /\ index s' !! k = index s !! k.
Proof.
  intros Hk. unfold reindexInto. destruct (negb _); [done|]. destruct d1; cbn; try done.
  - destruct msgs; cbn; [by rewrite lookup_insert_ne|]. destruct d2; cbn; by rewrite !lookup_insert_ne.
  - by rewrite lookup_insert_ne.
Qed.

Lemma reindexInto_tenants d1 d2 n t b msgs s : tenants (reindexInto backends d1 d2 n t b msgs s).2 = tenants s.
Proof. unfold reindexInto. destruct (negb _); [done|]. destruct d1; cbn; try done. destruct msgs; [done|]. by destruct d2. Qed.

Lemma reindexInto_ok w t b msgs s s' :
  reindexInto backends (w_d1 w) (w_d2 w) (w_kept w) t b msgs s = (Ok tt, s') -> index s' !! (b, t) = Some (given w msgs).
Proof.
  unfold reindexInto. destruct (negb _); [done|]. destruct (w_d1 w); cbn; [|done..]. destruct msgs; cbn; [intros [= <-]; cbn; by rewrite lookup_insert_eq|].
  destruct (w_d2 w); [|done..]. intros [= <-]. cbn. by rewrite lookup_insert_eq.
Qed.

Lemma SetBackend_cases d t b s r s' :
  SetBackend backends d t b s = (r, s') ->
  index s' = index s /\ (r = Ok tt -> tenants s' = <[t := b]> (tenants s)) /\
  (tenants s' = tenants s \/ tenants s' = <[t := b]> (tenants s)).
Proof.
  unfold SetBackend, BeginFunc. destruct (check_backend _ _ _); [|intros [= <- <-]; split_and!; [done|done|by left]].
  destruct (tenants s !! t), d; intros [= <- <-]; cbn; (split_and!; [done|done|by auto]).
Qed.

Lemma update_jobs_frame p f s : tenants (update_jobs p f s) = tenants s /\ index (update_jobs p f s) = index s.
Proof. done. Qed.

Lemma progress_advance s0 b i st s :
  b <> target m -> tenants s0 !! tenant m = Some b -> b <> ""%string ->
  progress s0 b st s -> let '(st', s') := advance (ws i) st s in progress s0 b st' s'.
Proof.
  intros Hne Hb Hb0 [Hsrc Hst]. unfold progress in *. set (w := ws i). destruct st as [|msgs|msgs|msgs|name cause|a last|r]; cbn.
  - unfold Export, GetBackend. destruct (String.eqb (tenant m) ""); cbn; [by split; [|left]|].
    destruct (w_d w); cbn; [|by split; [|left]..]. rewrite Hst, Hb. cbn. destruct (String.eqb_spec b ""); [done|].
    destruct (negb _); [by split; [|left]|]. rewrite Hsrc. destruct (w_export w _) as [msgs|] eqn:Ew; [|by split; [|left]]. split_and!; [done|done|by exists i].
  - destruct Hst as [Hst Hx]. destruct (ReindexTo _ _ _ _ _ _ _ _) as [r s'] eqn:E. unfold ReindexTo in E.
    destruct (check_backend _ _ _); [|injection E as <- <-; by split; [|left]].
    pose proof (reindexInto_frame (w_d1 w) (w_d2 w) (w_kept w) (tenant m) (target m) msgs s
      (b, tenant m)) as Hf. rewrite E in Hf. cbn in Hf. destruct Hf as [Ht Hi]; [congruence|].
    destruct r as [[]|]; [|split; [congruence|left; congruence]]. apply reindexInto_ok in E. split_and!; [congruence|congruence|done|by exists i].
  - destruct Hst as (Hst & Hx & Hc). destruct (Validate _ _ _ _ _ _) as [[]|] eqn:Hv; [|by split; [|left]].
    split_and!; try done. exists i. by eapply Validate_checked.
  - destruct Hst as (Hst & Hx & Hc & Hv). destruct (SetBackend _ _ _ _ _) as [r s'] eqn:E.
    apply SetBackend_cases in E as (Hi & Hok & Ht). rewrite Hst in *. destruct r as [[]|].
    + unfold recordAudit, loaded. destruct (w_audit w); cbn; rewrite Hi; (split; [done|]); split; eauto.
    + rewrite Hi. split; [done|]. unfold loaded. rewrite Hi. destruct Ht as [Ht|Ht]; [by left|right]. eauto.
  - unfold markFailed. pose proof (MarkFailed_cases (w_d w) (tenant m) (target m) (name +:+ ": " +:+ error_text cause) (w_now w) s) as Hf.
    destruct (MarkFailed _ _ _ _ _ _) as [r s']. cbn in Hf. unfold recordAudit. destruct Hf as [->| ->], (w_audit w); exact (conj Hsrc Hst).
  - unfold markCompletedWithRetry. destruct (retries <=? a)%nat; [split; [done|by right]|]. destruct (MarkCompleted _ _ _ _ _) as [r s'] eqn:E.
    apply MarkCompleted_cases in E. assert (tenants s' = tenants s /\ index s' = index s) as [E1 E2] by (by destruct E as [[-> _]| ->]).
    unfold loaded in *. destruct r; [|destruct (w_done w)]; cbn; rewrite E1, E2; (split; [done|]); auto.
  - by split.
Qed.

Lemma progress_drive s0 b l st s :
  b <> target m -> tenants s0 !! tenant m = Some b -> b <> ""%string ->
  progress s0 b st s -> let '(st', s') := drive (ws <$> l) st s in progress s0 b st' s'.
Proof.
  intros Hne Hb Hb0. revert st s. induction l as [|i l IH]; intros st s Hp; [done|]. cbn.
  pose proof (progress_advance s0 b i st s Hne Hb Hb0 Hp). destruct (advance (ws i) st s). by apply IH.
Qed.
End known.


(** ** What is recorded *)
Definition store_up (w : world) : Prop := w_d w = Delivered.

Definition noted (s0 : DB) (st : stage) (s : DB) : Prop :=
  let same := tenants s = tenants s0 in
  match st with
  | Done (Ok _) => exists j now, jobs s0 !! key m = Some j /\ jobs s !! key m = Some (completed_job now j)
  | Done (Err _) => same /\ exists j reason now, jobs s0 !! key m = Some j /\ jobs s !! key m = Some (failed_job reason now j)
  | Marking 0 _ => jobs s = jobs s0
  | Marking _ _ => False
  | _ => same /\ jobs s = jobs s0
  end.

Lemma noted_advance s0 w st s j :
  store_up w -> jobs s0 !! key m = Some j -> (0 < retries)%nat -> FailureCount j + 1 < 2 ^ 31 ->
  noted s0 st s -> let '(st', s') := advance w st s in noted s0 st' s'.
Proof.
  intros Hup Hj Hret Hcount Hst. unfold store_up in Hup. unfold noted in *. destruct st as [|msgs|msgs|msgs|name cause|a last|r]; cbn.
  - by destruct (Export _ _ _ _ _).
  - pose proof (ReindexTo_jobs backends (w_d1 w) (w_d2 w) (w_kept w) (tenant m) (target m) msgs s) as Hjs.
    assert (tenants (ReindexTo backends (w_d1 w) (w_d2 w) (w_kept w) (tenant m) (target m) msgs s).2 = tenants s) as Hts.
    { unfold ReindexTo. destruct (check_backend _ _ _); [|done]. apply reindexInto_tenants. }
    destruct (ReindexTo _ _ _ _ _ _ _ _) as [[] s']; cbn in *; split; destruct Hst; congruence.
  - by destruct (Validate _ _ _ _ _ _).
  - pose proof (SetBackend_jobs backends (w_d w) (tenant m) (target m) s) as Hjs. rewrite Hup in *.
    destruct (SetBackend _ _ _ _ _) as [r s'] eqn:E. destruct Hst as [Ht Hjo]. cbn in Hjs. destruct r as [[]|].
    + unfold recordAudit. destruct (w_audit w); cbn; congruence.
    + split; [|congruence]. unfold SetBackend, BeginFunc in E. destruct (check_backend _ _ _); [|by simplify_eq].
      by destruct (tenants s !! tenant m); simplify_eq.
  - destruct Hst as [Ht Hjo]. unfold markFailed, MarkFailed, BeginFunc. rewrite Hup.
    destruct (full_count _ _) eqn:Hfull.
    { exfalso. unfold full_count in Hfull. apply existsb_elem in Hfull as ([k j'] & Hin & Hfc). apply elem_of_map_to_list in Hin.
      cbn in Hfc. unfold at_key in Hfc. breflect. subst k. rewrite Hjo in Hin. unfold key in Hj. rewrite Hin in Hj. simplify_eq. lia. }
    assert (jobs (recordAudit m (w_audit w) "search_cutover_failed" (name +:+ ": " +:+ error_text cause)
      (update_jobs (at_key (key m)) (failed_job (name +:+ ": " +:+ error_text cause) (w_now w)) s)) !! key m =
      Some (failed_job (name +:+ ": " +:+ error_text cause) (w_now w) j)) as Hrow.
    { transitivity (jobs (update_jobs (at_key (key m)) (failed_job (name +:+ ": " +:+ error_text cause) (w_now w)) s) !! key m).
      - unfold recordAudit. by destruct (w_audit w).
      - rewrite lookup_update_jobs, Hjo, Hj. cbn. unfold at_key. by rewrite bool_decide_true. }
    split; [unfold recordAudit; by destruct (w_audit w)|]. by eexists _, _, _.
  - unfold markCompletedWithRetry. destruct a; [|done]. destruct (Nat.leb_spec retries 0); [lia|]. unfold MarkCompleted, BeginFunc. rewrite Hup. exists j, (w_now w).
    split; [done|]. rewrite lookup_update_jobs, Hst, Hj. cbn. unfold at_key. by rewrite bool_decide_true.
  - done.
Qed.

Lemma noted_drive s0 ws st s j :
  Forall store_up ws -> jobs s0 !! key m = Some j -> (0 < retries)%nat -> FailureCount j + 1 < 2 ^ 31 ->
  noted s0 st s -> let '(st', s') := drive ws st s in noted s0 st' s'.
Proof.
  intros Hup Hj Hr Hc. revert st s. induction Hup as [|w ws Hw Hup IH]; intros st s Hp; [done|]. cbn.
  pose proof (noted_advance s0 w st s j Hw Hj Hr Hc Hp). destruct (advance w st s). by apply IH.
Qed.

(** The outcome is recorded.  While the database answers, a migration that
    returns without an error leaves its row completed, with no failures, and one
    that returns an error leaves it failed, with one failure more and the tenant
    still on its old back end. *)
Theorem migration_recorded ws s j :
  (forall i, store_up (ws i)) -> jobs s !! key m = Some j -> (0 < retries)%nat -> FailureCount j + 1 < 2 ^ 31 ->
  let '(st, s') := runMigration ws s in
  match st with
  | Done (Ok _) => exists now, jobs s' !! key m = Some (completed_job now j)
  | Done (Err _) => tenants s' = tenants s /\ exists reason now, jobs s' !! key m = Some (failed_job reason now j)
  | _ => False
  end.
Proof.
  intros Hup Hj Hr Hc. destruct (runMigration_ends ws s) as [r Hd].
  pose proof (noted_drive s (ws <$> seq 0 (rounds retries)) Fetch s j) as Hn.
  fold (Cutover.runMigration backends retries m ws s) in Hn. destruct (runMigration ws s) as [st s']. cbn in Hd. subst st.
  assert (noted s (Done r) s') as H.
  { apply Hn; try done. apply Forall_fmap, Forall_forall. intros i _. apply Hup. }
  destruct r; cbn in H; [destruct H as (j' & now & E & ?)|destruct H as (Ht & j' & reason & now & E & ?)]; simplify_eq; eauto.
Qed.

Lemma drive_other ws st s k : k <> key m -> jobs (drive ws st s).2 !! k = jobs s !! k.
Proof.
  intros Hk. revert st s. induction ws as [|w ws IH]; intros st s; [done|]. cbn.
  destruct (advance w st s) as [st' s'] eqn:E. rewrite IH. destruct (advance_jobs backends retries m w st s st' s' 0 E) as [H1 H2].
  destruct (over st); [by rewrite (proj2 (H1 eq_refl))|]. destruct (H2 eq_refl) as (f & -> & _).
  rewrite lookup_update_jobs. destruct (jobs s !! k); [|done]. cbn. unfold at_key. by rewrite bool_decide_false.
Qed.
End outcome.

(** ** The worker *)
Section worker_facts.
Context (backends : list string) (cfg : CutoverConfig).

Lemma Claim_other d t tg size thr now s k : k <> (t, tg) -> jobs (Claim d t tg size thr now s).2 !! k = jobs s !! k.
Proof.
  intros Hk. destruct (Claim _ _ _ _ _ _ _) as [c x] eqn:E. apply Claim_cases in E as [[-> _]|(j & _ & _ & -> & _)]; [done|].
  cbn. by rewrite lookup_insert_ne.
Qed.

Lemma cutoverOne_other E t size tr s k : k <> (t, Target tr) -> jobs (cutoverOne backends cfg E t size tr s) !! k = jobs s !! k.
Proof.
  intros Hk. unfold cutoverOne. pose proof (Claim_other (e_claim E) t (Target tr) size (cThreshold cfg) (e_now E) s k Hk) as Hc.
  destruct (Claim _ _ _ _ _ _ _) as [c x]. cbn in Hc. destruct c as [[]|]; try done. unfold runMigration. by rewrite drive_other.
Qed.

Lemma candidates_other Es tr ids s k :
  (forall t, t ∈ ids -> k <> (t, Target tr)) -> jobs (foldl (candidate backends cfg Es tr) s ids) !! k = jobs s !! k.
Proof.
  revert s. induction ids as [|t ids IH]; intros s Hk; [done|]. cbn.
  rewrite IH by (intros t' Ht'; apply Hk; by constructor). unfold candidate.
  destruct (e_size _); [|done]. destruct (_ <? _); [done|]. apply cutoverOne_other, Hk. by constructor.
Qed.

Lemma ListCandidates_spec f s ids t :
  ListCandidates Delivered f s = Ok ids ->
  t ∈ ids <-> tenants s !! t = Some (SourceBackend f) /\ eligible f (jobs s !! (t, TargetBackend f)) = true.
Proof.
  unfold ListCandidates. cbn. intros [= <-]. rewrite list_elem_of_filter. split; [by intros [? _]|]. intros H. split; [done|].
  apply list_elem_of_fmap. exists (t, SourceBackend f). split; [done|]. apply elem_of_map_to_list, H.
Qed.

Lemma ListCandidates_sub d f s ids t :
  ListCandidates d f s = Ok ids -> t ∈ ids -> eligible f (jobs s !! (t, TargetBackend f)) = true.
Proof. destruct d; [|done..]. intros H Ht. by apply (ListCandidates_spec f s ids t H). Qed.

Lemma retried_later tr t now now' j reason size threshold s :
  jobs s !! (t, Target tr) = Some (failed_job reason now j) -> tenants s !! t = Some (Source tr) ->
  FailureCount j + 1 < cMaxFailures cfg -> micro now < micro (now' - cMaxRetryGap cfg) ->
  (exists ids, ListCandidates Delivered (mkFilter (Source tr) (Target tr) (cMaxFailures cfg) (now' - cMaxRetryGap cfg)) s = Ok ids /\ t ∈ ids) /\
  (Claim Delivered t (Target tr) size threshold now' s).1 = Ok true.
Proof.
  intros Hj Ht Hc Hg. split.
  - destruct (ListCandidates Delivered _ s) as [ids|] eqn:El; [|by unfold ListCandidates in El]. exists ids. split; [done|].
    rewrite (ListCandidates_spec _ _ _ t El). cbn. rewrite Hj. split; [done|]. cbn. apply andb_true_intro. by rewrite !Z.ltb_lt.
  - unfold Claim, BeginFunc. rewrite Ht, Hj. done.
Qed.

(** C35: an abandoned job is recovered.  Take a transition the worker runs and
    a job for its target that has been in progress for longer than the
    reconciliation horizon.  A pass over that transition whose two reconciling
    statements go through settles it: completed when its tenant is already on
    the target, failed with one failure more when it is still on the source;
    the pass itself does not claim it again.  While that row stands, the
    tenant stays on the source and the job has failed fewer times than
    allowed, a pass that starts after the retry gap lists the tenant, and its
    claim succeeds.  Jobs for targets of no transition are not covered. *)
Theorem abandoned_job_recovered d3 now Es s tr t j b :
  jobs s !! (t, Target tr) = Some j -> State j = CutoverInProgress -> UpdatedAt j < micro (now - cReconcileAfter cfg) ->
  tenants s !! t = Some b -> Source tr <> Target tr -> 0 <= cMaxRetryGap cfg ->
  full_count (fun k _ => bool_decide (k.2 = Target tr)) s = false ->
  let s' := tickTransition backends cfg Delivered Delivered d3 now Es s tr in
  let again := failed_job "stale in_progress: assumed crash recovery" now j in
  (b = Target tr -> jobs s' !! (t, Target tr) = Some (completed_job now j)) /\
  (b = Source tr -> jobs s' !! (t, Target tr) = Some again /\
     forall s1 now' size threshold, jobs s1 !! (t, Target tr) = Some again -> tenants s1 !! t = Some b ->
       FailureCount j + 1 < cMaxFailures cfg -> micro now < micro (now' - cMaxRetryGap cfg) ->
       (exists ids, ListCandidates Delivered (mkFilter (Source tr) (Target tr) (cMaxFailures cfg) (now' - cMaxRetryGap cfg)) s1 = Ok ids /\ t ∈ ids) /\
       (Claim Delivered t (Target tr) size threshold now' s1).1 = Ok true).
Proof.
  intros Hj Hst Hu Hb Hne Hgap Hfull. cbn zeta.
  enough (let s' := tickTransition backends cfg Delivered Delivered d3 now Es s tr in
    (b = Target tr -> jobs s' !! (t, Target tr) = Some (completed_job now j)) /\
    (b = Source tr -> jobs s' !! (t, Target tr) = Some (failed_job "stale in_progress: assumed crash recovery" now j))) as [H1 H2].
  { split; [done|]. intros Hs. split; [by apply H2|]. intros s1 now' size threshold Hj1 Hb1 Hc Hg. rewrite Hs in Hb1. by eapply retried_later. }
  cbn zeta. unfold tickTransition, ReconcileCompleted, BeginFunc.
  set (before := now - cReconcileAfter cfg) in *. set (s1 := update_jobs (stale (Target tr) _ _ _) _ s).
  assert (forall src, stale src (Target tr) before (tenants s) (t, Target tr) j = bool_decide (b = src)) as Hstale.
  { intros src. unfold stale. cbn. rewrite !bool_decide_true by done. rewrite (proj2 (Z.ltb_lt _ _) Hu), Hb. cbn.
    apply bool_decide_ext. naive_solver. }
  assert (jobs s1 !! (t, Target tr) = Some (if bool_decide (b = Target tr) then completed_job now j else j)) as Hj1.
  { unfold s1. rewrite lookup_update_jobs, Hj. cbn. by rewrite Hstale. }
  assert (full_count (stale (Source tr) (Target tr) before (tenants s1)) s1 = false) as Hf1.
  { unfold full_count in *. rewrite existsb_false in *. intros [k j1] Hin. apply elem_of_map_to_list in Hin. unfold s1 in Hin.
    rewrite lookup_update_jobs in Hin. destruct (jobs s !! k) as [j0|] eqn:Hj0; [|done]. injection Hin as <-. cbn.
    destruct (stale (Target tr) _ _ _ k j0); [unfold stale; cbn; by rewrite andb_false_r|].
    specialize (Hfull (k, j0)). rewrite elem_of_map_to_list in Hfull. specialize (Hfull Hj0). cbn in Hfull. unfold stale.
    destruct (bool_decide (k.2 = Target tr)); [cbn in *; rewrite Hfull; apply andb_false_r|done]. }
  unfold ReconcileStale, BeginFunc. rewrite Hf1. set (s2 := update_jobs _ (failed_job _ _) s1).
  assert (jobs s2 !! (t, Target tr) = Some (if bool_decide (b = Target tr) then completed_job now j
    else if bool_decide (b = Source tr) then failed_job "stale in_progress: assumed crash recovery" now j else j)) as Hj2.
  { unfold s2. rewrite lookup_update_jobs, Hj1. cbn. case_bool_decide as Hbt; [by unfold stale; cbn; rewrite andb_false_r|].
    change (tenants s1) with (tenants s). by rewrite Hstale. }
  assert (forall y, jobs y !! (t, Target tr) = jobs s2 !! (t, Target tr) ->
    (b = Target tr -> jobs y !! (t, Target tr) = Some (completed_job now j)) /\
    (b = Source tr -> jobs y !! (t, Target tr) = Some (failed_job "stale in_progress: assumed crash recovery" now j))) as Hend.
  { intros y ->. rewrite Hj2. split; intros ->; [by rewrite bool_decide_true|]. rewrite (bool_decide_false (Source tr = Target tr)) by done.
    by rewrite bool_decide_true. }
  apply Hend. destruct (ListCandidates _ _ s2) as [ids|] eqn:Hl; [|done]. apply candidates_other.
  intros t' Ht' E. injection E as E. rewrite <- E in Ht'. pose proof (ListCandidates_sub _ _ _ _ _ Hl Ht') as He. cbn [TargetBackend] in He.
  rewrite Hj2 in He. revert He. case_bool_decide; [done|].
  case_bool_decide; cbn; [|by rewrite Hst]. intros He. breflect. unfold micro in *.
  pose proof (Z.div_le_mono (now - cMaxRetryGap cfg) now 1000). lia.
Qed.

(** The worker's choice.  A tenant is a candidate of a pass exactly when it
    is on the source back end and its job for the target is absent, pending, or
    failed fewer than [MaxFailures] times and not touched for the retry gap; a
    job in progress or completed is never chosen, and one that failed
    [MaxFailures] times is left alone until an operator starts it over. *)
Theorem candidates_spec f s ids t :
  ListCandidates Delivered f s = Ok ids ->
  (t ∈ ids <-> tenants s !! t = Some (SourceBackend f) /\
    match jobs s !! (t, TargetBackend f) with
    | None => True
    | Some j => State j = CutoverPending \/
        State j = CutoverFailed /\ FailureCount j < MaxFailures f /\ UpdatedAt j < micro (RetryAfterBefore f)
    end).
Proof.
  intros H. rewrite (ListCandidates_spec f s ids t H). apply and_iff_compat_l. unfold eligible.
  destruct (jobs s !! _) as [j|]; [|done]. destruct (State j); try naive_solver.
  rewrite andb_true_iff, !Z.ltb_lt. naive_solver.
Qed.

(** ** A job outside the worker's transitions *)
Lemma check_request_ok d t tg s b : check_request d t tg s = Ok b -> b <> tg.
Proof.
  unfold check_request. destruct (_ || _); [done|]. destruct (negb _); [done|]. intros (cur & _ & H)%rbind_ok.
  destruct (String.eqb_spec cur tg); [done|congruence].
Qed.

Lemma Claim_in_progress d t tg size thr now s j :
  jobs s !! (t, tg) = Some j -> State j = CutoverInProgress ->
  (Claim d t tg size thr now s).2 = s /\ (Claim d t tg size thr now s).1 <> Ok true.
Proof.
  intros Hj Hst. destruct (Claim _ _ _ _ _ _ _) as [c x] eqn:E. apply Claim_cases in E as [[-> ?]|(j' & [Hj'|[Hj' _]] & Hc & _)]; [done| |congruence].
  simplify_eq. unfold claimable in Hc. by rewrite Hst in Hc.
Qed.

(** When the pod that runs a manual cutover dies, and no transition of the
    worker has the job's target, the row stays in progress for good: no pass
    touches it, starting over leaves it as it is, and executing it is refused. *)
Theorem foreign_target_wedged s t tg j :
  jobs s !! (t, tg) = Some j -> State j = CutoverInProgress -> (forall tr, tr ∈ cTransitions cfg -> Target tr <> tg) ->
  (forall d1 d2 d3 now Es, jobs (Tick backends cfg d1 d2 d3 now Es s) !! (t, tg) = Some j) /\
  (forall d1 d2 size now, jobs (InitiateCutover cfg d1 d2 size now t tg s).2 !! (t, tg) = Some j) /\
  (forall d1 E actor, let '(r, s') := ExecuteCutover backends cfg d1 E t tg actor s in is_ok r = false /\ s' = s).
Proof.
  intros Hj Hst Htr. split_and!.
  - intros d1 d2 d3 now Es. unfold Tick. revert s Hj Htr. induction (cTransitions cfg) as [|tr l IH]; intros s Hj Htr; [done|]. cbn.
    apply IH; [|intros tr' Hin; apply Htr; by constructor]. assert (Target tr <> tg) as Hne by (apply Htr; by constructor).
    assert (forall src before f s1, jobs s1 !! (t, tg) = Some j ->
      jobs (update_jobs (stale src (Target tr) before (tenants s1)) f s1) !! (t, tg) = Some j) as Hup.
    { intros src before f s1 Hs1. rewrite lookup_update_jobs, Hs1. cbn. unfold stale. cbn. by rewrite (bool_decide_false (tg = Target tr)). }
    unfold tickTransition.
    assert (forall s1, jobs s1 !! (t, tg) = Some j -> forall d before now', jobs (ReconcileCompleted d (Target tr) before now' s1).2 !! (t, tg) = Some j) as H1.
    { intros s1 Hs1 d before now'. unfold ReconcileCompleted. apply (BeginFunc_ind (fun y => jobs y !! (t, tg) = Some j)); [done|].
      intros [] y [= <-]. by apply Hup. }
    assert (forall s1, jobs s1 !! (t, tg) = Some j -> forall d before now', jobs (ReconcileStale d (Source tr) (Target tr) before now' s1).2 !! (t, tg) = Some j) as H2.
    { intros s1 Hs1 d before now'. unfold ReconcileStale. apply (BeginFunc_ind (fun y => jobs y !! (t, tg) = Some j)); [done|].
      intros [] y. destruct (full_count _ _); [done|]. intros [= <-]. by apply Hup. }
    specialize (H1 s Hj d1 (now - cReconcileAfter cfg) now). destruct (ReconcileCompleted _ _ _ _ _) as [r1 s1]. cbn in H1.
    specialize (H2 s1 H1 d2 (now - cReconcileAfter cfg) now). destruct (ReconcileStale _ _ _ _ _ _) as [r2 s2]. cbn in H2.
    destruct (ListCandidates _ _ s2); [|done]. rewrite candidates_other; [done|]. intros t' _. congruence.
  - intros d1 d2 size now. unfold InitiateCutover. destruct (check_request _ _ _ _); [|done]. unfold UpsertPending.
    apply (BeginFunc_ind (fun y => jobs y !! (t, tg) = Some j)); [done|]. intros j' y. destruct (_ || _); [done|]. rewrite Hj, Hst.
    intros [= <- <-]. cbn. by rewrite lookup_insert_eq.
  - intros d1 E actor. unfold ExecuteCutover. destruct (check_request _ _ _ _); [|done].
    destruct (Claim_in_progress (e_claim E) t tg (tenantSize (e_size E)) (cThreshold cfg) (e_now E) s j Hj Hst) as [H1 H2].
    destruct (Claim _ _ _ _ _ _ _) as [c x]. cbn in *. subst x. by destruct c as [[]|].
Qed.

(** A flip that took effect while its answer was lost is recorded as a failure,
    and no pass ever corrects the row: the tenant is not on the source any more
    and the row is not in progress. *)
Theorem lost_flip_stays_failed d1 d2 d3 now Es s tr t j :
  cTransitions cfg = [tr] -> Source tr <> Target tr ->
  tenants s !! t = Some (Target tr) -> jobs s !! (t, Target tr) = Some j -> State j = CutoverFailed ->
  jobs (Tick backends cfg d1 d2 d3 now Es s) !! (t, Target tr) = Some j.
Proof.
  intros Htr Hne Ht Hj Hst. unfold Tick. rewrite Htr. cbn. unfold tickTransition.
  assert (forall src before f s1, jobs s1 !! (t, Target tr) = Some j ->
    jobs (update_jobs (stale src (Target tr) before (tenants s1)) f s1) !! (t, Target tr) = Some j) as Hup.
  { intros src before f s1 Hs1. rewrite lookup_update_jobs, Hs1. cbn. unfold stale. by rewrite Hst, andb_false_r. }
  set (P y := jobs y !! (t, Target tr) = Some j /\ tenants y = tenants s).
  assert (P (ReconcileCompleted d1 (Target tr) (now - cReconcileAfter cfg) now s).2) as H1.
  { unfold ReconcileCompleted. apply BeginFunc_ind; [done|]. intros [] y [= <-]. split; [by apply Hup|done]. }
  destruct (ReconcileCompleted _ _ _ _ _) as [r1 s1]. cbn in H1.
  assert (P (ReconcileStale d2 (Source tr) (Target tr) (now - cReconcileAfter cfg) now s1).2) as H2.
  { unfold ReconcileStale. apply BeginFunc_ind; [done|]. intros [] y. destruct (full_count _ _); [done|]. intros [= <-].
    split; [apply Hup, H1|apply H1]. }
  destruct (ReconcileStale _ _ _ _ _ _) as [r2 s2]. cbn in H2. destruct H2 as [H2 H3].
  destruct (ListCandidates _ _ s2) as [ids|] eqn:Hl; [|done]. rewrite candidates_other; [done|]. intros t' Ht' [= <-].
  destruct d3; [|done..]. rewrite (ListCandidates_spec _ _ _ t Hl) in Ht'. cbn in Ht'. destruct Ht' as [Ht' _]. congruence.
Qed.
End worker_facts.

(** ** Examples *)
Module Demo.
Definition backends : list string := [BackendMeilisearch; BackendOpenSearch; BackendSharedMeilisearch; BackendSharedOpenSearch; BackendDedicatedOpenSearch].
Definition msg (id : string) : Message := mkMessage "t1" "inbox" id ("subject " +:+ id) "" "a@b".
Definition found : searches := mkSearches (fun _ m => Some [mkHit (MessageID m) (Subject m) ""]) (fun _ _ => false).
Definition up (now : Z) : world := mkWorld Delivered Delivered Delivered id Ok found [] now false true.
Definition down (now : Z) : world := mkWorld RequestLost RequestLost RequestLost id Ok found [] now false true.
Definition lost (now : Z) : world := mkWorld ReplyLost Delivered Delivered id Ok found [] now false true.
Definition mig : migration := mkMigration "t1" BackendMeilisearch BackendOpenSearch "".
Definition db0 : DB := mkDB {[ "t1"%string := BackendMeilisearch ]} ∅ {[ (BackendMeilisearch, "t1"%string) := [msg "m1"; msg "m2"] ]} [].
Definition claimed : DB := (Claim Delivered "t1" BackendOpenSearch 1000 100 Hour db0).2.
Definition tr : CutoverTransition := mkTransition BackendMeilisearch BackendOpenSearch.
Definition cfg : CutoverConfig := mkConfig 100 5 Hour (30 * Minute) DefaultCutoverTransitions 3.
Definition quiet (t : string) : env := mkEnv None Delivered 0 (fun _ => up 0).
Definition j0 : CutoverJob := claimed_job 1000 Hour (pending_job 1000 100 Hour).

Example migrated :
  let '(st, s) := runMigration backends 3 mig (fun _ => up Hour) claimed in
  st = Done (Ok tt) /\ tenants s !! "t1"%string = Some BackendOpenSearch /\
  jobs s !! ("t1"%string, BackendOpenSearch) = Some (mkJob CutoverCompleted 1000 100 (Some Hour) (Some Hour) 0 "" Hour).
Proof. vm_compute. done. Qed.
End Demo.


Lemma migration_recorded_witness :
  let '(st, s') := runMigration Demo.backends 3 Demo.mig (fun _ => Demo.up Hour) Demo.claimed in
  match st with
  | Done (Ok _) => exists now, jobs s' !! key Demo.mig = Some (completed_job now Demo.j0)
  | Done (Err _) => tenants s' = tenants Demo.claimed /\ exists reason now, jobs s' !! key Demo.mig = Some (failed_job reason now Demo.j0)
  | _ => False
  end.
Proof.
  apply (migration_recorded Demo.backends 3 Demo.mig (fun _ => Demo.up Hour) Demo.claimed Demo.j0); [done|vm_compute; reflexivity|lia|vm_compute; reflexivity].
Defined.

Lemma abandoned_job_recovered_witness :
  jobs (tickTransition Demo.backends Demo.cfg Delivered Delivered Delivered (2 * Hour) Demo.quiet Demo.claimed Demo.tr) !!
    ("t1"%string, BackendOpenSearch) = Some (failed_job "stale in_progress: assumed crash recovery" (2 * Hour) Demo.j0).
Proof.
  refine (proj1 (proj2 (abandoned_job_recovered Demo.backends Demo.cfg Delivered (2 * Hour) Demo.quiet Demo.claimed Demo.tr "t1" Demo.j0 BackendMeilisearch
    _ _ _ _ _ _ _) _)); try (vm_compute; reflexivity); try (vm_compute; discriminate).
Defined.

Lemma candidates_spec_witness :
  forall ids, ListCandidates Delivered (mkFilter BackendMeilisearch BackendOpenSearch 5 0) Demo.db0 = Ok ids -> "t1"%string ∈ ids.
Proof.
  intros ids H. apply (candidates_spec (mkFilter BackendMeilisearch BackendOpenSearch 5 0) Demo.db0 ids "t1" H). vm_compute. done.
Defined.

Lemma validate_sound_witness :
  Forall (fun m => exists i hits, (i < 5)%nat /\ sr_hits Demo.found i m = Some hits) (sampleMessages [1; 0]%nat (searchable [Demo.msg "m1"; Demo.msg "m2"]) 10).
Proof.
  apply Forall_forall. intros m Hm.
  destruct (validate_sound Demo.backends Demo.found [1; 0]%nat "t1" BackendOpenSearch [Demo.msg "m1"; Demo.msg "m2"]
    (perm_swap 0%nat 1%nat []) ltac:(vm_compute; reflexivity)) as [_ H].
  destruct (H m Hm) as (_ & i & hits & Hi & Hh & _). exists i, hits. exact (conj Hi Hh).
Defined.

Lemma job_exclusive_witness :
  exists s, pc s 1%nat = Some (Demo.mig, Hour, Reindexing [Demo.msg "m1"; Demo.msg "m2"]) /\
    (Claim Delivered "t1" BackendOpenSearch 1000 100 (Hour + Second) (db s)).1 <> Ok true.
Proof.
  set (s1 := with_db Demo.claimed (with_pc 1 (Some (Demo.mig, Hour, Fetch)) (idle Demo.db0))).
  set (s2 := with_db Demo.claimed (with_pc 1 (Some (Demo.mig, Hour, Reindexing [Demo.msg "m1"; Demo.msg "m2"])) s1)).
  assert (trun Demo.backends 3 (idle Demo.db0)
    [EvClaim 1 Delivered Demo.mig 1000 100 Hour; EvStage 1 (Demo.up Hour); EvReconcileStale Delivered BackendMeilisearch BackendOpenSearch Hour (Hour + Second)] s2) as Hr.
  { apply (trun_cons _ _ _ _ s1); [done|apply (c_claim Demo.backends 3 (idle Demo.db0) 1 Delivered Demo.mig 1000 100 Hour (Ok true)); [done|vm_compute; reflexivity]|].
    apply (trun_cons _ _ _ _ s2); [done|apply (c_stage Demo.backends 3 s1 1 (Demo.up Hour) Demo.mig Hour Fetch); vm_compute; reflexivity|].
    apply (trun_cons _ _ _ _ (with_db (ReconcileStale Delivered BackendMeilisearch BackendOpenSearch Hour (Hour + Second) (db s2)).2 s2)).
    - intros w m t0 st Hp _. cbn in Hp. destruct (decide (w = 1%nat)); [|discriminate Hp]. injection Hp as _ <- _. lia.
    - constructor.
    - replace (ReconcileStale Delivered BackendMeilisearch BackendOpenSearch Hour (Hour + Second) (db s2)).2 with (db s2) by (vm_compute; reflexivity).
      apply trun_nil. }
  exists s2. split; [reflexivity|].
  refine (proj2 (proj1 (proj2 (job_exclusive Demo.backends 3 Demo.db0 _ s2 _ Hr)) 1%nat Demo.mig Hour _ Delivered 1000 100 (Hour + Second) eq_refl eq_refl)).
  intros k j Hk. vm_compute in Hk. discriminate Hk.
Defined.

(** A message indexed between the export and the flip is in neither copy the
    tenant is switched to. *)
Example message_missed_by_cutover :
  let '(st, s) := drive Demo.backends 3 Demo.mig [Demo.up Hour] Fetch Demo.claimed in
  let '(_, s) := IndexMessage Demo.backends Delivered Delivered (Demo.msg "m3") s in
  let '(st, s) := drive Demo.backends 3 Demo.mig (Demo.up <$> repeat Hour 5) st s in
  st = Done (Ok tt) /\ tenants s !! "t1"%string = Some BackendOpenSearch /\
  index s !! (BackendOpenSearch, "t1"%string) = Some [Demo.msg "m1"; Demo.msg "m2"] /\
  index s !! (BackendMeilisearch, "t1"%string) = Some [Demo.msg "m1"; Demo.msg "m2"; Demo.msg "m3"].
Proof. vm_compute. done. Qed.

(** The answer of the flip is lost: the job is failed, the tenant on the target. *)
Example lost_flip_recorded_failed :
  let '(st, s) := drive Demo.backends 3 Demo.mig [Demo.up Hour; Demo.up Hour; Demo.up Hour; Demo.lost Hour; Demo.up Hour] Fetch Demo.claimed in
  st = Done (Err (StageFailed "set backend" ErrStore)) /\ tenants s !! "t1"%string = Some BackendOpenSearch /\
  State <$> jobs s !! ("t1"%string, BackendOpenSearch) = Some CutoverFailed.
Proof. vm_compute. done. Qed.

(** A migration that outlives the reconciliation horizon and fails after another
    pod completed the job marks the completed row failed, with its date. *)
Example late_failure_overwrites_completed :
  let s := (ReconcileStale Delivered BackendMeilisearch BackendOpenSearch (2 * Hour - 30 * Minute) (2 * Hour) Demo.claimed).2 in
  let s := (Claim Delivered "t1" BackendOpenSearch 1000 100 (4 * Hour) s).2 in
  let s := (runMigration Demo.backends 3 Demo.mig (fun _ => Demo.up (4 * Hour)) s).2 in
  let '(st, s) := drive Demo.backends 3 Demo.mig [Demo.down (5 * Hour); Demo.up (5 * Hour)] (Reindexing []) s in
  tenants s !! "t1"%string = Some BackendOpenSearch /\
  (fun j => (State j, CompletedAt j)) <$> jobs s !! ("t1"%string, BackendOpenSearch) = Some (CutoverFailed, Some (4 * Hour)).
Proof. vm_compute. done. Qed.
