(* ===== verification/Webhooks.v ===== *)
(** * Outbound webhooks ([internal/webhooks])

    Endpoints a tenant registers, the queue of deliveries ([service.go]) and
    the worker that posts them ([worker.go]).  The two tables are lists in
    order of insertion, under the constraints of the schema.  Identifiers are
    UUIDs in PostgreSQL's own text.  A payload is the text its [jsonb] column
    renders, [None] where [json.Marshal] fails.  [wstep] interleaves pods at
    the worker's claim, its request and its final update. *)

From S2P Require Import Prelude Text Table.

Local Open Scope Z_scope.
Local Open Scope go_scope.

Definition EventEmailReceived : string := "email.received".
Definition EventEmailBounced : string := "email.bounced".
Definition EventEmailComplaint : string := "email.complaint".
Definition EventCalendarCreated : string := "calendar.event_created".
Definition EventCalendarUpdated : string := "calendar.event_updated".
Definition EventMigrationDone : string := "migration.completed".

Definition MaxAttempts : Z := 3.

Definition SigningV1 : string := "v1".
Definition SigningV2 : string := "v2".

Inductive werror :=
| TenantURLRequired | TooManyOwners | BadSigningVersion | PoolNotConfigured | TenantEndpointRequired
| EndpointNotFound | MarshalFailed | EmptyTenantGUC | ErrRand | ErrNoRows | ErrStore.

(** ** Tables *)

(** A row of [webhook_endpoints]: the public view and the columns it hides. *)
Record Endpoint := mkEndpoint {
  ID : string; TenantID : string; URL : string; Events : list string; Active : bool; SigningVersion : string;
  CreatedAt : Z; UpdatedAt : Z;
}.
Record endpoint_row := mkEndpointRow {
  ep : Endpoint; secret_hash : string; oauth_client_id : option string; user_id : option string;
}.

Inductive status := StPending | StDelivered | StFailed.
#[export] Instance status_eq_dec : EqDecision status.
Proof. solve_decision. Defined.

(** A row of [webhook_deliveries]. *)
Record Delivery := mkDelivery {
  dID : string; dTenantID : string; EndpointID : string; EventType : string; Payload : string; Status : status;
  Attempts : Z; LastError : string; LastStatus : Z; NextRetryAt : Z; dCreatedAt : Z; DeliveredAt : option Z;
}.

Record DB := mkDB { endpoints : list endpoint_row; deliveries : list Delivery }.
Definition with_endpoints x s := mkDB x (deliveries s).
Definition with_deliveries x s := mkDB (endpoints s) x.

(** The rows of other tables that foreign keys refer to. *)
Record refs := mkRefs { tenants : gset string; clients : gset string; users : gset string }.

Definition set_version (v : string) (now : Z) (r : endpoint_row) : endpoint_row :=
  let e := ep r in
  mkEndpointRow (mkEndpoint (ID e) (TenantID e) (URL e) (Events e) (Active e) v (CreatedAt e) now)
    (secret_hash r) (oauth_client_id r) (user_id r).
Definition bump (d : Delivery) : Delivery :=
  mkDelivery (dID d) (dTenantID d) (EndpointID d) (EventType d) (Payload d) (Status d) (Attempts d + 1) (LastError d)
    (LastStatus d) (NextRetryAt d) (dCreatedAt d) (DeliveredAt d).
Definition delivered (now code : Z) (d : Delivery) : Delivery :=
  mkDelivery (dID d) (dTenantID d) (EndpointID d) (EventType d) (Payload d) StDelivered (Attempts d) ""
    code (NextRetryAt d) (dCreatedAt d) (Some now).
Definition failed (code : Z) (err : string) (d : Delivery) : Delivery :=
  mkDelivery (dID d) (dTenantID d) (EndpointID d) (EventType d) (Payload d) StFailed (Attempts d) err
    code (NextRetryAt d) (dCreatedAt d) (DeliveredAt d).
Definition retry_at (next code : Z) (err : string) (d : Delivery) : Delivery :=
  mkDelivery (dID d) (dTenantID d) (EndpointID d) (EventType d) (Payload d) (Status d) (Attempts d) err
    code next (dCreatedAt d) (DeliveredAt d).

Definition query {A} (d : delivery) (f : DB -> result werror A) (s : DB) : result werror A :=
  match d with Delivered => f s | _ => Err ErrStore end.

Definition SetTenantGUC (tenantID : string) : result werror unit :=
  if String.eqb tenantID "" then Err EmptyTenantGUC else Ok tt.

Definition is_ref (o : option string) (ids : gset string) : bool :=
  match o with Some x => bool_decide (x ∈ ids) | None => true end.

(** [INSERT INTO webhook_deliveries] with the defaults of the schema. *)
Definition insert_delivery (R : refs) (now : Z) (id tenantID endpointID eventType payload : string) (next : Z) (s : DB)
    : result werror DB :=
  if bool_decide (tenantID ∈ tenants R) && existsb (fun r => String.eqb (ID (ep r)) endpointID) (endpoints s)
     && negb (existsb (fun d => String.eqb (dID d) id) (deliveries s))
  then Ok (with_deliveries (deliveries s ++
             [mkDelivery id tenantID endpointID eventType payload StPending 0 "" 0 next now None]) s)
  else Err ErrStore.

(** ** Endpoints *)
Record Owner := mkOwner { OAuthClientID : string; UserID : string }.

(** A pointer to a string, and [NULLIF(x, '')]. *)
Definition ptr (x : string) : option string := if String.eqb x "" then None else Some x.
Definition coerceStr (v : option string) : string := default ""%string v.
Definition NULLIF (x : string) : option string := ptr x.

Definition randSecret (rand : option (list Z)) : result werror string :=
  match rand with Some bytes => Ok (base64url bytes) | None => Err ErrRand end.
Definition NewNonce (rand : option (list Z)) : result werror string :=
  match rand with Some bytes => Ok (base64url bytes) | None => Err ErrRand end.

(** SHA-256 and HMAC-SHA256. *)
Record crypto := mkCrypto { Sum256 : string -> list Z; hmac : string -> string -> list Z }.

Section service.
Context (C : crypto).

Definition hashSecret (secret : string) : string := hex_encode (Sum256 C secret).

(** [id] and [dbnow] are the database's. *)
Definition RegisterWebhook (d : delivery) (rand : option (list Z)) (R : refs) (id : string) (dbnow : Z)
    (tenantID url : string) (events : list string) (signingVersion : string) (owner : list Owner) (s : DB)
    : result werror (Endpoint * string) * DB :=
  if String.eqb tenantID "" || String.eqb url "" then (Err TenantURLRequired, s)
  else if (1 <? length owner)%nat then (Err TooManyOwners, s)
  else
    let signingVersion := if String.eqb signingVersion "" then SigningV1 else signingVersion in
    if negb (String.eqb signingVersion SigningV1) && negb (String.eqb signingVersion SigningV2) then (Err BadSigningVersion, s)
    else match randSecret rand with
    | Err e => (Err e, s)
    | Ok secret =>
        let hash := hashSecret secret in
        let '(oauthClientArg, userArg) :=
          match owner with [o] => (ptr (OAuthClientID o), ptr (UserID o)) | _ => (None, None) end in
        BeginFunc ErrStore d (fun s =>
          let? _ := SetTenantGUC tenantID in
          let e := mkEndpoint id tenantID url events true signingVersion dbnow dbnow in
          let c := NULLIF (coerceStr oauthClientArg) in
          let u := NULLIF (coerceStr userArg) in
          if bool_decide (tenantID ∈ tenants R) && is_ref c (clients R) && is_ref u (users R)
             && negb (existsb (fun r => String.eqb (ID (ep r)) id) (endpoints s))
          then Ok ((e, secret), with_endpoints (endpoints s ++ [mkEndpointRow e hash c u]) s)
          else Err ErrStore) s
    end.

Definition of_tenant (tenantID id : string) (r : endpoint_row) : bool :=
  String.eqb (ID (ep r)) id && String.eqb (TenantID (ep r)) tenantID.

Definition UpdateSigningVersion (d : delivery) (pool : bool) (dbnow : Z) (tenantID id version : string) (s : DB)
    : result werror unit * DB :=
  if negb pool then (Err PoolNotConfigured, s)
  else if negb (String.eqb version SigningV1) && negb (String.eqb version SigningV2) then (Err BadSigningVersion, s)
  else BeginFunc ErrStore d (fun s =>
    let? _ := SetTenantGUC tenantID in
    Ok (tt, with_endpoints (update (of_tenant tenantID id) (set_version version dbnow) (endpoints s)) s)) s.

(** [newest_first] is [ORDER BY created_at DESC]. *)
Definition ListWebhooks (newest_first : list Endpoint -> list Endpoint) (d : delivery) (pool : bool) (tenantID : string) (s : DB)
    : result werror (list Endpoint) :=
  if negb pool || String.eqb tenantID "" then Ok []
  else query d (fun s =>
    Ok (newest_first (ep <$> List.filter (fun r => String.eqb (TenantID (ep r)) tenantID) (endpoints s)))) s.

(** [ping] is the synthetic payload, [id] the delivery's. *)
Definition TestFire (d : delivery) (pool : bool) (R : refs) (dbnow : Z) (id ping tenantID endpointID : string) (s : DB)
    : result werror Z * DB :=
  if negb pool || String.eqb tenantID "" || String.eqb endpointID "" then (Err TenantEndpointRequired, s)
  else BeginFunc ErrStore d (fun s =>
    let? _ := SetTenantGUC tenantID in
    if negb (existsb (fun r => of_tenant tenantID endpointID r && Active (ep r)) (endpoints s)) then Err EndpointNotFound
    else
      let? s := insert_delivery R dbnow id tenantID endpointID "webhook.ping" ping dbnow s in
      Ok (1, s)) s.

(** Deliveries of a deleted endpoint go with it ([ON DELETE CASCADE]). *)
Definition delete_endpoints (p : endpoint_row -> bool) (s : DB) : DB :=
  let gone d := existsb (fun r => p r && String.eqb (ID (ep r)) (EndpointID d)) (endpoints s) in
  mkDB (List.filter (fun r => negb (p r)) (endpoints s)) (List.filter (fun d => negb (gone d)) (deliveries s)).

Definition DeleteWebhook (d : delivery) (pool : bool) (tenantID id : string) (s : DB) : result werror unit * DB :=
  if negb pool then (Err PoolNotConfigured, s)
  else BeginFunc ErrStore d (fun s =>
    let? _ := SetTenantGUC tenantID in
    Ok (tt, delete_endpoints (of_tenant tenantID id) s)) s.

(** ** Fan-out *)
Definition subscribed (eventType : string) (r : endpoint_row) : bool :=
  match Events (ep r) with [] => true | l => existsb (String.eqb eventType) l end.

Definition admin_target (tenantID eventType : string) (r : endpoint_row) : bool :=
  String.eqb (TenantID (ep r)) tenantID && Active (ep r) && unset (oauth_client_id r) && subscribed eventType r.

(** The loop of inserts; [ids n] is the id the database draws for the n-th. *)
Fixpoint enqueue (R : refs) (dbnow : Z) (ids : nat -> string) (tenantID eventType body : string) (l : list string) (s : DB)
    : result werror DB :=
  match l with
  | [] => Ok s
  | e :: l' =>
      let? s := insert_delivery R dbnow (ids O) tenantID e eventType body dbnow s in
      enqueue R dbnow (fun n => ids (S n)) tenantID eventType body l' s
  end.

(** The deliveries queued, and whether the listeners are called. *)
Definition DeliverEvent (d : delivery) (pool : bool) (R : refs) (dbnow : Z) (ids : nat -> string)
    (tenantID eventType : string) (payload : option string) (s : DB) : result werror Z * bool * DB :=
  if negb pool || String.eqb tenantID "" || String.eqb eventType "" then (Ok 0, false, s)
  else match payload with
  | None => (Err MarshalFailed, false, s)
  | Some body =>
      let '(r, s) := BeginFunc ErrStore d (fun s =>
        let? _ := SetTenantGUC tenantID in
        let targets := (fun r => ID (ep r)) <$> List.filter (admin_target tenantID eventType) (endpoints s) in
        let? s := enqueue R dbnow ids tenantID eventType body targets s in
        Ok (Z.of_nat (length targets), s)) s in
      (r, is_ok r, s)
  end.

Definition ListDeliveries (newest_first : list Delivery -> list Delivery) (d : delivery) (pool : bool) (tenantID : string)
    (limit : Z) (s : DB) : result werror (list Delivery) :=
  if negb pool || String.eqb tenantID "" then Ok []
  else
    let limit := if (limit <=? 0) || (500 <? limit) then 100 else limit in
    query d (fun s =>
      Ok (take (Z.to_nat limit) (newest_first (List.filter (fun x => String.eqb (dTenantID x) tenantID) (deliveries s))))) s.

(** ** Signatures *)
Definition SignPayload (secret : string) (ts : Z) (payload : string) : string :=
  "t=" +:+ pretty (Unix ts) +:+ ",v1=" +:+ hex_encode (hmac C secret (pretty (Unix ts) +:+ "." +:+ payload)).

Definition SignPayloadV2 (secret : string) (ts : Z) (nonce payload : string) : string :=
  "v2=" +:+ hex_encode (hmac C secret (pretty (Unix ts) +:+ "." +:+ nonce +:+ "." +:+ payload)).

(** [fmt.Sscanf(header, "t=%d,v1=%s", &ts, &v1)] on ASCII text: literals match
    exactly, each verb skips blanks first (a newline is an error), [%d] reads a
    signed decimal that fits [int64], [%s] a word; text after it is ignored. *)
Fixpoint literal (l : string) (s : string) : option string :=
  match l, s with
  | String.EmptyString, _ => Some s
  | String.String a l', String.String b s' => if Ascii.eqb a b then literal l' s' else None
  | _, _ => None
  end.

Fixpoint SkipSpace (s : string) : option string :=
  match s with
  | String.EmptyString => Some s
  | String.String c s' =>
      if (Ascii.N_of_ascii c =? 10)%N then None else if ascii_space c then SkipSpace s' else Some s
  end.

Definition accept_sign (s : string) : Z * string :=
  match s with
  | String.String c s' =>
      if (Ascii.N_of_ascii c =? 45)%N then (-1, s') else if (Ascii.N_of_ascii c =? 43)%N then (1, s') else (1, s)
  | String.EmptyString => (1, s)
  end.

Definition scanInt (s : string) : option (Z * string) :=
  s ← SkipSpace s;
  let '(sign, s) := accept_sign s in
  '(v, s) ← scanNumber 0 false s;
  if (int64_min <=? sign * v) && (sign * v <=? int64_max) then Some (sign * v, s) else None.

Fixpoint word (s : string) : string :=
  match s with
  | String.String c s' => if ascii_space c then String.EmptyString else String.String c (word s')
  | String.EmptyString => String.EmptyString
  end.

Definition scanWord (s : string) : option string :=
  s ← SkipSpace s;
  match s with String.EmptyString => None | _ => Some (word s) end.

Definition Sscanf_header (header : string) : option (Z * string) :=
  s ← literal "t=" header;
  '(ts, s) ← scanInt s;
  s ← literal ",v1=" s;
  v1 ← scanWord s;
  Some (ts, v1).

Definition VerifySignature (secretHash header payload : string) : bool :=
  if String.eqb header "" then false
  else match Sscanf_header header with
  | None => false
  | Some (ts, v1) =>
      let expected := SignPayload secretHash (ts * Second) payload in
      let provided := "t=" +:+ pretty ts +:+ ",v1=" +:+ v1 in
      String.eqb expected provided
  end.

(** ** Worker ([worker.go]) *)

(** The request a delivery becomes; [hd_ts] and [hd_nonce] are the headers of
    version 2. *)
Record request := mkRequest {
  rq_url : string; rq_event : string; rq_body : string; rq_signature : string; hd_ts : option string; hd_nonce : option string;
}.

(** The other side: a status code, or the transport's error. *)
Inductive reply := Answer (code : Z) | NoAnswer (err : string).

(** The surroundings of one request: the error [http.NewRequest] has for a URL,
    the clock, the random source with the text of its error, the receiver. *)
Record net := mkNet {
  n_parse : string -> option string; n_ts : Z; n_rand : option (list Z); n_rand_err : string; n_do : request -> reply;
}.

(** The request put on the wire, if any, and the pair [send] returns. *)
Definition send (N : net) (url secretHash signingVersion eventType payload : string) : option request * (Z * option string) :=
  let do (rq : request) :=
    match n_do N rq with Answer code => (Some rq, (code, None)) | NoAnswer e => (Some rq, (0, Some e)) end in
  match n_parse N url with
  | Some err => (None, (0, Some err))
  | None =>
      if String.eqb signingVersion SigningV2 then
        match NewNonce (n_rand N) with
        | Err _ => (None, (0, Some (n_rand_err N)))
        | Ok nonce =>
            do (mkRequest url eventType payload (SignPayloadV2 secretHash (n_ts N) nonce payload)
                  (Some (pretty (Unix (n_ts N)))) (Some nonce))
        end
      else do (mkRequest url eventType payload (SignPayload secretHash (n_ts N) payload) None None)
  end.

(** What the claim reads of the delivery and its endpoint. *)
Record claim := mkClaim {
  k_id : string; k_endpoint : string; k_tenant : string; k_event : string; k_payload : string; k_attempts : Z;
  k_url : string; k_secret : string; k_version : string;
}.

Definition claim_of (d : Delivery) (r : endpoint_row) : claim :=
  mkClaim (dID d) (EndpointID d) (dTenantID d) (EventType d) (Payload d) (Attempts d) (URL (ep r)) (secret_hash r)
    (SigningVersion (ep r)).

Definition due (dbnow : Z) (d : Delivery) : bool := bool_decide (Status d = StPending) && (NextRetryAt d <=? dbnow).

Definition endpoint_of (s : DB) (d : Delivery) : option endpoint_row :=
  List.find (fun r => String.eqb (ID (ep r)) (EndpointID d)) (endpoints s).

(** The joined row the query returns; [locked] are the rows other transactions
    hold. *)
Definition next_due (dbnow : Z) (locked : gset string) (s : DB) : option Delivery :=
  least NextRetryAt (List.filter (fun d => due dbnow d && negb (bool_decide (dID d ∈ locked)) && negb (unset (endpoint_of s d)))
                       (deliveries s)).

Definition has_id (id : string) (d : Delivery) : bool := String.eqb (dID d) id.

Definition claim_next (d : delivery) (dbnow : Z) (locked : gset string) (s : DB) : result werror claim * DB :=
  BeginFunc ErrStore d (fun s =>
    match next_due dbnow locked s with
    | None => Err ErrNoRows
    | Some x =>
        match endpoint_of s x with
        | None => Err ErrNoRows
        | Some r =>
            if 2 ^ 31 <=? Attempts x + 1 then Err ErrStore
            else Ok (claim_of x r, with_deliveries (update (has_id (dID x)) bump (deliveries s)) s)
        end
    end) s.

(** A single statement outside a transaction; its error is dropped. *)
Definition exec (d : delivery) (f : DB -> DB) (s : DB) : DB := (remote d (fun s => (tt, f s)) s).2.

Definition retry_delay (attempt : Z) : Z :=
  if attempt =? 1 then 30 * Second else if attempt =? 2 then 5 * Minute else 30 * Minute.

(** The update after the answer. *)
Definition record_outcome (d : delivery) (dbnow : Z) (k : claim) (answer : Z * option string) (s : DB) : DB :=
  let '(code, sendErr) := answer in
  let errMsg := default ""%string sendErr in
  let set f s := with_deliveries (update (has_id (k_id k)) f (deliveries s)) s in
  if (200 <=? code) && (code <? 300) then exec d (set (delivered dbnow code)) s
  else if MaxAttempts <=? k_attempts k + 1 then exec d (set (failed code errMsg)) s
  else exec d (set (retry_at (dbnow + retry_delay (k_attempts k + 1)) code errMsg)) s.

(** One iteration: the two transactions with the database's clock at each, the
    rows locked by others and the network. *)
Record env := mkEnv {
  e_claim : delivery; e_db : Z; e_locked : gset string; e_net : net; e_final : delivery; e_db' : Z;
}.

(** [(bool, error)], the request sent, and the tables. *)
Definition deliverNext (E : env) (pool : bool) (s : DB) : result werror bool * option (string * request) * DB :=
  if negb pool then (Ok false, None, s)
  else
    let '(c, s) := claim_next (e_claim E) (e_db E) (e_locked E) s in
    match c with
    | Err ErrNoRows => (Ok false, None, s)
    | Err e => (Err e, None, s)
    | Ok k =>
        let '(rq, answer) := send (e_net E) (k_url k) (k_secret k) (k_version k) (k_event k) (k_payload k) in
        (Ok true, (fun rq => (k_id k, rq)) <$> rq, record_outcome (e_final E) (e_db' E) k answer s)
    end.

(** [tick] on the environments of its iterations; [None] when they run out
    before the loop ends. *)
Fixpoint tick (Es : list env) (s : DB) : option (list (string * request) * DB) :=
  match Es with
  | [] => None
  | E :: Es =>
      let '(r, sent, s) := deliverNext E true s in
      match r with
      | Ok true => '(l, s) ← tick Es s; Some (option_list sent ++ l, s)
      | _ => Some (option_list sent, s)
      end
  end.
End service.

(** ** Handlers ([handlers.go])

    The tenant of the caller's token, the path, the decoded body ([None] when
    it is not JSON) and the [limit] parameter as [strconv.Atoi] reads it. *)
Record hrequest := mkHRequest {
  h_caller : string; h_id : string; h_webhookId : string; h_body : option (string * list string * string); h_limit : Z;
}.
Inductive hresponse :=
| HError (status : Z) | HCreated (e : Endpoint) (secret : string) | HNoContent | HAccepted (enqueued : Z)
| HEndpoints (l : list Endpoint) | HDeliveries (l : list Delivery).

Section handlers.
Context (C : crypto) (R : refs).

Definition register (d : delivery) (rand : option (list Z)) (id : string) (dbnow : Z) (r : hrequest) (s : DB) : hresponse * DB :=
  match h_body r with
  | None => (HError 400, s)
  | Some (url, events, signingVersion) =>
      let '(x, s) := RegisterWebhook C d rand R id dbnow (h_id r) url events signingVersion [] s in
      (match x with Err _ => HError 500 | Ok (e, secret) => HCreated e secret end, s)
  end.

Definition update_version (d : delivery) (pool : bool) (dbnow : Z) (r : hrequest) (s : DB) : hresponse * DB :=
  match h_body r with
  | None => (HError 400, s)
  | Some (_, _, signingVersion) =>
      if String.eqb signingVersion "" then (HError 400, s)
      else
        let '(x, s) := UpdateSigningVersion d pool dbnow (h_id r) (h_webhookId r) signingVersion s in
        (match x with Err _ => HError 500 | Ok _ => HNoContent end, s)
  end.

Definition testFire (d : delivery) (pool : bool) (dbnow : Z) (id ping : string) (r : hrequest) (s : DB) : hresponse * DB :=
  let '(x, s) := TestFire d pool R dbnow id ping (h_id r) (h_webhookId r) s in
  (match x with Err _ => HError 500 | Ok n => HAccepted n end, s).

Definition del (d : delivery) (pool : bool) (r : hrequest) (s : DB) : hresponse * DB :=
  let '(x, s) := DeleteWebhook d pool (h_id r) (h_webhookId r) s in
  (match x with Err _ => HError 500 | Ok _ => HNoContent end, s).

Definition list_webhooks (newest_first : list Endpoint -> list Endpoint) (d : delivery) (pool : bool) (r : hrequest) (s : DB) : hresponse :=
  match ListWebhooks newest_first d pool (h_id r) s with Err _ => HError 500 | Ok l => HEndpoints l end.

Definition list_deliveries (newest_first : list Delivery -> list Delivery) (d : delivery) (pool : bool) (r : hrequest) (s : DB) : hresponse :=
  match ListDeliveries newest_first d pool (h_id r) (h_limit r) s with Err _ => HError 500 | Ok l => HDeliveries l end.
End handlers.

(** ** Decimal numbers read back *)
Lemma digit_no_sign c : digit_value c <> None -> (Ascii.N_of_ascii c =? 45)%N = false /\ (Ascii.N_of_ascii c =? 43)%N = false.
Proof. destruct c as [[] [] [] [] [] [] [] []]; vm_compute; intros H; first [done | by destruct H]. Qed.

Lemma SkipSpace_digit c t : digit_value c <> None -> SkipSpace (String.String c t) = Some (String.String c t).
Proof. destruct c as [[] [] [] [] [] [] [] []]; vm_compute; intros H; first [done | by destruct H]. Qed.

(** [%d] reads back what [%d] wrote. *)
Lemma scan_pretty (z : Z) s : int64_min <= z <= int64_max -> nondigit s -> scanInt (pretty z +:+ s) = Some (z, s).
Proof.
  intros Hz Hs.
  assert (forall x : N, SkipSpace (pretty x +:+ s) = Some (pretty x +:+ s) /\ accept_sign (pretty x +:+ s) = (1, pretty x +:+ s)) as Hn.
  { intros x. destruct (pretty_N_digit x) as (c & t & -> & Hc). destruct (digit_no_sign c Hc) as [H1 H2].
    split; [exact (SkipSpace_digit c (t +:+ s) Hc)|]. change (accept_sign (String.String c (t +:+ s)) = (1, String.String c (t +:+ s))). unfold accept_sign. by rewrite H1, H2. }
  assert (forall x : N, scanInt (pretty x +:+ s) =
    if (int64_min <=? Z.of_N x) && (Z.of_N x <=? int64_max) then Some (Z.of_N x, s) else None) as Hu.
  { intros x. destruct (Hn x) as [H1 H2]. unfold scanInt. rewrite H1. cbn [mbind option_bind]. rewrite H2, scan_pretty_N by done.
    cbn [mbind option_bind]. by rewrite Z.mul_1_l. }
  destruct z as [|p|p].
  - exact (Hu 0%N).
  - etransitivity; [exact (Hu (N.pos p))|]. change (Z.of_N (N.pos p)) with (Z.pos p).
    destruct (Z.leb_spec int64_min (Z.pos p)), (Z.leb_spec (Z.pos p) int64_max); try lia. done.
  - change (scanInt (pretty (Z.neg p) +:+ s)) with
      ('(v, s) ← scanNumber 0 false (pretty (N.pos p) +:+ s);
       if (int64_min <=? -1 * v) && (-1 * v <=? int64_max) then Some (-1 * v, s) else None).
    rewrite scan_pretty_N by done. cbn [mbind option_bind]. change (-1 * Z.of_N (N.pos p)) with (Z.neg p).
    destruct (Z.leb_spec int64_min (Z.neg p)), (Z.leb_spec (Z.neg p) int64_max); try lia. done.
Qed.

(** A run of nonblank characters is read whole. *)
Lemma word_all s : Forall (fun c => ascii_space c = false) (String.list_ascii_of_string s) -> word s = s.
Proof. induction s as [|c s IH]; cbn; [done|]. inversion 1; subst. by rewrite H2, IH. Qed.

Lemma hex_unspaced l : Forall (fun c => ascii_space c = false) (String.list_ascii_of_string (hex_encode l)).
Proof.
  unfold hex_encode. rewrite String.list_ascii_of_string_of_list_ascii. apply Forall_forall. intros c Hc.
  apply list_elem_of_bind in Hc as (b & Hc & _).
  assert (forall n, ascii_space (pick hex_alphabet n) = false) as H.
  { intros n. unfold pick. generalize (Z.to_nat n). clear. intros n. do 16 (destruct n as [|n]; [done|]). done. }
  apply elem_of_cons in Hc as [->|Hc%list_elem_of_singleton]; [done|]. by subst.
Qed.

Definition is_byte (b : Z) : Prop := 0 <= b < 256.

Lemma pick_hex_inj m n : 0 <= m < 16 -> 0 <= n < 16 -> pick hex_alphabet m = pick hex_alphabet n -> m = n.
Proof.
  intros Hm Hn. unfold pick.
  assert (forall i j : nat, (i < 16)%nat -> (j < 16)%nat ->
    default Ascii.zero (String.get i hex_alphabet) = default Ascii.zero (String.get j hex_alphabet) -> i = j) as H.
  { intros i j Hi Hj. do 16 (destruct i as [|i]; [do 16 (destruct j as [|j]; [by try done|]); lia|]). lia. }
  intros E%H; lia.
Qed.

Lemma hex_encode_inj l k : Forall is_byte l -> Forall is_byte k -> hex_encode l = hex_encode k -> l = k.
Proof.
  intros Hl Hk H. apply (f_equal String.list_ascii_of_string) in H. unfold hex_encode in H.
  rewrite !String.list_ascii_of_string_of_list_ascii in H. revert k Hk H.
  induction Hl as [|b l Hb Hl IH]; intros k Hk H; (destruct Hk as [|c k Hc Hk]; [done|]); [done|].
  unfold is_byte in *. cbn in H. injection H as H1 H2 H3.
  assert (forall x, 0 <= x < 256 -> 0 <= Z.shiftr x 4 < 16 /\ 0 <= Z.land x 15 < 16 /\ x = 16 * Z.shiftr x 4 + Z.land x 15) as Hx.
  { intros x ?. rewrite Z.shiftr_div_pow2 by lia. change 15 with (Z.ones 4). rewrite Z.land_ones by lia.
    change (2 ^ 4) with 16. pose proof (Z.div_mod x 16 ltac:(lia)). pose proof (Z.mod_pos_bound x 16 ltac:(lia)). lia. }
  destruct (Hx b Hb) as (? & ? & ->), (Hx c Hc) as (? & ? & ->).
  apply pick_hex_inj in H1, H2; try lia. rewrite H1, H2. f_equal. by apply IH.
Qed.

(** ** Signatures *)
Section signatures.
Context (C : crypto).
Hypothesis hmac_bytes : forall k m, length (hmac C k m) = 32%nat /\ Forall is_byte (hmac C k m).

(** What [VerifySignature] decides. *)
Lemma verify_iff h header p :
  VerifySignature C h header p = true <->
  exists ts, Sscanf_header header = Some (ts, hex_encode (hmac C h (pretty ts +:+ "." +:+ p))).
Proof.
  assert (forall ts, Unix (ts * Second) = ts) as Hu by (intros ts; unfold Unix; by rewrite Z.div_mul).
  unfold VerifySignature, SignPayload. split.
  - destruct (String.eqb header ""); [done|]. destruct (Sscanf_header header) as [[ts v1]|]; [|done]. rewrite Hu.
    intros H%String.eqb_eq. exists ts. do 3 apply string_prefix_inj in H. by subst.
  - intros [ts H]. rewrite H. destruct (String.eqb_spec header ""); [by subst|]. rewrite Hu. apply String.eqb_refl.
Qed.

Lemma literal_app l s : literal l (l +:+ s) = Some s.
Proof.
  induction l as [|c l IH]; [done|]. change (literal (String.String c l) (String.String c (l +:+ s)) = Some s).
  cbn [literal]. by rewrite Ascii.eqb_refl.
Qed.

Lemma hex_head m : m <> [] -> exists c t, hex_encode m = String.String c t /\ SkipSpace (String.String c t) = Some (String.String c t).
Proof.
  intros Hm. destruct m as [|b m]; [done|]. eexists _, _. split; [done|].
  unfold pick. generalize (Z.to_nat (Z.shiftr b 4)). clear. intros n. do 16 (destruct n as [|n]; [done|]). done.
Qed.

Lemma scan_signed h ts p : int64_min <= Unix ts <= int64_max ->
  Sscanf_header (SignPayload C h ts p) = Some (Unix ts, hex_encode (hmac C h (pretty (Unix ts) +:+ "." +:+ p))).
Proof.
  intros Hts. unfold Sscanf_header, SignPayload. rewrite literal_app. cbn [mbind option_bind].
  rewrite scan_pretty by done. cbn [mbind option_bind]. rewrite literal_app. cbn [mbind option_bind].
  set (m := hmac C h _). assert (m <> []) as Hm by (intros E; destruct (hmac_bytes h (pretty (Unix ts) +:+ "." +:+ p)) as [H _]; fold m in H; by rewrite E in H).
  destruct (hex_head m Hm) as (c & t & E & Hc). unfold scanWord. rewrite E, Hc. cbn [mbind option_bind].
  rewrite word_all by (rewrite <- E; apply hex_unspaced). done.
Qed.

(** The signature of a version-1 request is accepted: [VerifySignature]
    with the endpoint's secret hash takes the header and the body of each
    request [send] puts on the wire, and the body is the payload. *)
Theorem sent_request_verifies N url h v ev p rq a :
  int64_min <= Unix (n_ts N) <= int64_max -> v <> SigningV2 -> send C N url h v ev p = (Some rq, a) ->
  rq_body rq = p /\ VerifySignature C h (rq_signature rq) (rq_body rq) = true.
Proof.
  intros Hts Hv. unfold send. destruct (n_parse N url); [done|]. destruct (String.eqb_spec v SigningV2); [done|].
  intros H. assert (rq = mkRequest url ev p (SignPayload C h (n_ts N) p) None None) as -> by (by destruct (n_do N _) in H; injection H as <- _).
  split; [done|]. apply verify_iff. exists (Unix (n_ts N)). by apply scan_signed.
Qed.

(** One header vouches for one body: a header accepted with two payloads
    under a secret hash exhibits a collision of the keyed hash. *)
Theorem signature_binds h header p p' :
  VerifySignature C h header p = true -> VerifySignature C h header p' = true ->
  p = p' \/ exists m m', m <> m' /\ hmac C h m = hmac C h m'.
Proof.
  intros [ts H]%verify_iff [ts' H']%verify_iff. rewrite H in H'. injection H' as <- E.
  apply hex_encode_inj in E; [|apply hmac_bytes|apply hmac_bytes].
  destruct (decide (p = p')) as [|Hne]; [by left|right]. eexists _, _. split; [|exact E].
  intros Ep. by do 2 apply string_prefix_inj in Ep.
Qed.
End signatures.

(** ** Pods

    Service calls, and workers that have claimed a delivery, posted it or have
    the answer. *)
Inductive op :=
| OpRegister (d : delivery) (rand : option (list Z)) (id tenantID url : string) (events : list string) (version : string)
    (owner : list Owner)
| OpVersion (d : delivery) (tenantID id version : string)
| OpTestFire (d : delivery) (id ping tenantID endpointID : string)
| OpDelete (d : delivery) (tenantID id : string)
| OpDeliver (d : delivery) (ids : nat -> string) (tenantID eventType : string) (payload : option string).

Inductive wpc := Idle | Sending (k : claim) | Answered (k : claim) (answer : Z * option string).

(** [posts]: requests put on the wire; [accepted]: deliveries answered with a
    2xx code; [lost]: claims whose outcome was not recorded; [drawn]: delivery
    ids the database generated. *)
Record sys := mkSys {
  tables : DB; clock : Z; pods : list wpc; posts : list (string * request); accepted : list string; lost : list string;
  drawn : list string;
}.
Definition with_tables x s :=
  mkSys x (clock s) (pods s) (posts s) (accepted s) (lost s) (drawn s ++ (dID <$> deliveries x)).
Definition with_pod w p s := mkSys (tables s) (clock s) (<[w := p]> (pods s)) (posts s) (accepted s) (lost s) (drawn s).

Inductive event :=
| EvTime (t : Z) | EvOp (o : op) | EvClaim (w : nat) (d : delivery) (locked : gset string) | EvSend (w : nat) (N : net)
| EvFinish (w : nat) (d : delivery) | EvCrash (w : nat).

Section pods.
Context (C : crypto) (R : refs).

Definition run_op (now : Z) (o : op) (s : DB) : DB :=
  match o with
  | OpRegister d rand id tenantID url events version owner =>
      (RegisterWebhook C d rand R id now tenantID url events version owner s).2
  | OpVersion d tenantID id version => (UpdateSigningVersion d true now tenantID id version s).2
  | OpTestFire d id ping tenantID endpointID => (TestFire d true R now id ping tenantID endpointID s).2
  | OpDelete d tenantID id => (DeleteWebhook d true tenantID id s).2
  | OpDeliver d ids tenantID eventType payload => (DeliverEvent d true R now ids tenantID eventType payload s).2
  end.

(** Delivery ids an operation draws; [gen_random_uuid] does not repeat. *)
Definition new_ids (o : op) (l : list string) : Prop :=
  match o with
  | OpTestFire _ id _ _ _ => id ∉ l
  | OpDeliver _ ids _ _ _ => forall n, ids n ∉ l
  | _ => True
  end.

Definition success (answer : Z * option string) : bool := (200 <=? answer.1) && (answer.1 <? 300).

Definition note (x : option string) (l : list string) : list string := l ++ option_list x.

Inductive wstep : sys -> event -> sys -> Prop :=
| step_time s t : clock s <= t -> wstep s (EvTime t) (mkSys (tables s) t (pods s) (posts s) (accepted s) (lost s) (drawn s))
| step_op s o : new_ids o (drawn s) -> wstep s (EvOp o) (with_tables (run_op (clock s) o (tables s)) s)
| step_claim s w d locked r T : pods s !! w = Some Idle -> claim_next d (clock s) locked (tables s) = (r, T) ->
    wstep s (EvClaim w d locked)
      (let s' := with_tables T s in
       match r with
       | Ok k => with_pod w (Sending k) s'
       | Err _ =>
           (* the reply of a committed claim may be lost *)
           mkSys T (clock s) (pods s) (posts s) (accepted s)
             (note (match d with ReplyLost => dID <$> next_due (clock s) locked (tables s) | _ => None end) (lost s)) (drawn s')
       end)
| step_send s w N k rq a : pods s !! w = Some (Sending k) ->
    send C N (k_url k) (k_secret k) (k_version k) (k_event k) (k_payload k) = (rq, a) ->
    wstep s (EvSend w N)
      (mkSys (tables s) (clock s) (<[w := Answered k a]> (pods s)) (posts s ++ option_list ((fun q => (k_id k, q)) <$> rq))
         (note (if success a then Some (k_id k) else None) (accepted s)) (lost s) (drawn s))
| step_finish s w d k a : pods s !! w = Some (Answered k a) ->
    wstep s (EvFinish w d)
      (mkSys (record_outcome d (clock s) k a (tables s)) (clock s) (<[w := Idle]> (pods s)) (posts s) (accepted s)
         (note (match d with RequestLost => Some (k_id k) | _ => None end) (lost s)) (drawn s))
| step_crash s w k : (pods s !! w = Some (Sending k) \/ exists a, pods s !! w = Some (Answered k a)) ->
    wstep s (EvCrash w)
      (mkSys (tables s) (clock s) (<[w := Idle]> (pods s)) (posts s) (accepted s) (lost s ++ [k_id k]) (drawn s)).

(** [n] pods on empty tables. *)
Definition boot (n : nat) (t : Z) : sys := mkSys (mkDB [] []) t (replicate n Idle) [] [] [] [].
End pods.

(** ** Effect of the service calls on the queue *)
Section queue.
Context (C : crypto) (R : refs).
Implicit Types (s : DB) (d : Delivery).

(** Deliveries of [s'] were in [s], or are new, untried, and carry an id that
    satisfies [new]. *)
Definition queues (new : string -> Prop) (s s' : DB) : Prop :=
  (NoDup (dID <$> deliveries s) -> NoDup (dID <$> deliveries s')) /\
  forall d, d ∈ deliveries s' -> d ∈ deliveries s \/ Attempts d = 0 /\ Status d = StPending /\ new (dID d).

Lemma queues_same new s s' : deliveries s' = deliveries s -> queues new s s'.
Proof. intros H. unfold queues. rewrite H. by split; [|left]. Qed.

Lemma queues_trans new s s1 s2 : queues new s s1 -> queues new s1 s2 -> queues new s s2.
Proof. intros [H1 H2] [H3 H4]. split; [tauto|]. intros d Hd. destruct (H4 d Hd) as [Hd'|?]; [|tauto]. by apply H2. Qed.

Lemma insert_delivery_queues (new : string -> Prop) now id t e ev p next s s' :
  insert_delivery R now id t e ev p next s = Ok s' -> new id -> queues new s s'.
Proof.
  unfold insert_delivery. destruct (bool_decide _ && _); [|done]. cbn [andb].
  destruct (existsb (fun d => String.eqb (dID d) id) (deliveries s)) eqn:Ex; [done|].
  intros [= <-] Hn. rewrite existsb_false in Ex. split; cbn.
  - intros Hnd. rewrite fmap_app. apply NoDup_app. split_and!; [done| |apply NoDup_singleton].
    intros x (y & -> & Hy)%list_elem_of_fmap Hx%list_elem_of_singleton. apply Ex in Hy. cbn in Hx. rewrite Hx in Hy. by rewrite String.eqb_refl in Hy.
  - intros d [Hd|Hd%list_elem_of_singleton]%elem_of_app; [by left|]. right. by subst.
Qed.

Lemma enqueue_queues (new : string -> Prop) now t ev p l : forall ids s s',
  enqueue R now ids t ev p l s = Ok s' -> (forall n, new (ids n)) -> queues new s s'.
Proof.
  induction l as [|e l IH]; intros ids s s' H Hn; cbn in H; [injection H as <-; by apply queues_same|].
  apply rbind_ok in H as (s1 & H1 & H2).
  eapply queues_trans; [eapply insert_delivery_queues; [exact H1|apply Hn]|]. eapply IH; [exact H2|]. intros n. apply Hn.
Qed.

Lemma BeginFunc_queues {A} new (d : delivery) (body : DB -> result werror (A * DB)) s :
  (forall a s', body s = Ok (a, s') -> queues new s s') -> queues new s (BeginFunc ErrStore d body s).2.
Proof. intros H. apply (BeginFunc_ind (queues new s)); [by apply queues_same|done]. Qed.

Lemma delete_queues new p s : queues new s (delete_endpoints p s).
Proof.
  split; cbn.
  - intros H. eapply sublist_NoDup; [exact H|]. apply fmap_sublist. clear. induction (deliveries s) as [|d l IH]; [constructor|].
    simpl. destruct (negb _); by constructor.
  - intros d Hd. left. rewrite list_elem_of_In in *. apply List.filter_In in Hd. tauto.
Qed.

Lemma run_op_queues l now o s : new_ids o l -> queues (fun id => id ∉ l) s (run_op C R now o s).
Proof.
  intros Hn. destruct o; cbn [run_op new_ids] in *.
  - unfold RegisterWebhook. do 3 (case_match; [by apply queues_same|]). destruct (randSecret rand); [|by apply queues_same].
    destruct (match owner with [_] => _ | _ => _ end). apply BeginFunc_queues. intros ? s2 Hb.
    apply rbind_ok in Hb as (? & _ & Hb). case_match; [|done]. injection Hb as _ <-. by apply queues_same.
  - unfold UpdateSigningVersion. do 2 (case_match; [by apply queues_same|]). apply BeginFunc_queues. intros ? s2 Hb.
    apply rbind_ok in Hb as (? & _ & [= _ <-]). by apply queues_same.
  - unfold TestFire. case_match; [by apply queues_same|]. apply BeginFunc_queues. intros ? s2 Hb.
    apply rbind_ok in Hb as (? & _ & Hb). case_match; [done|]. apply rbind_ok in Hb as (s1 & H1 & [= _ <-]).
    by eapply insert_delivery_queues.
  - unfold DeleteWebhook. cbn [negb]. apply BeginFunc_queues. intros ? s2 Hb. apply rbind_ok in Hb as (? & _ & [= _ <-]). apply delete_queues.
  - unfold DeliverEvent. case_match; [by apply queues_same|]. destruct payload as [body|]; [|by apply queues_same].
    match goal with |- context [BeginFunc ErrStore d ?b s] => pose proof (BeginFunc_queues (fun id => id ∉ l) d b s) as Hq end.
    destruct (BeginFunc _ _ _ s) as [r s']. apply Hq. intros ? s2 Hb. apply rbind_ok in Hb as (? & _ & Hb).
    apply rbind_ok in Hb as (s1 & H1 & [= _ <-]). by eapply enqueue_queues.
Qed.
End queue.

(** ** How often a delivery is posted *)
Definition pod_claim (p : wpc) : option claim :=
  match p with Idle => None | Sending k => Some k | Answered k _ => Some k end.
Definition claims_id (x : string) (p : wpc) : bool := match pod_claim p with Some k => String.eqb (k_id k) x | None => false end.
Definition unsent (x : string) (p : wpc) : bool := match p with Sending k => String.eqb (k_id k) x | _ => false end.
(** A pod whose answer ends the delivery. *)
Definition last_try (x : string) (p : wpc) : bool :=
  match pod_claim p with Some k => String.eqb (k_id k) x && (MaxAttempts <=? k_attempts k + 1) | None => false end.

Definition posted (s : sys) (x : string) : Z := Z.of_nat (tally (fun p => String.eqb p.1 x) (posts s)).
Definition sending (s : sys) (x : string) : Z := Z.of_nat (tally (unsent x) (pods s)).
Definition last_tries (s : sys) (x : string) : Z := Z.of_nat (tally (last_try x) (pods s)).
Definition dropped (s : sys) (x : string) : Z := Z.of_nat (tally (String.eqb x) (lost s)).
Definition workers (s : sys) : Z := Z.of_nat (length (pods s)).

(** Balance of one row: every claim raised its counter, and once
    [MaxAttempts - 1] claims are past each further one is held or lost. *)
Definition balanced (s : sys) (d : Delivery) : Prop :=
  posted s (dID d) + sending s (dID d) <= Attempts d /\
  (Status d = StPending -> Attempts d <= MaxAttempts - 1 + last_tries s (dID d) + dropped s (dID d)).

Definition ceiling (s : sys) (x : string) : Prop :=
  posted s x + sending s x <= MaxAttempts - 1 + workers s + dropped s x.

Record accounted (s : sys) : Prop := mkAccounted {
  ac_nodup : NoDup (dID <$> deliveries (tables s));
  ac_drawn : forall d, d ∈ deliveries (tables s) -> dID d ∈ drawn s;
  ac_held : forall p x, p ∈ pods s -> claims_id x p = true -> x ∈ drawn s;
  ac_posts : forall p, p ∈ posts s -> p.1 ∈ drawn s;
  ac_lost : forall x, x ∈ lost s -> x ∈ drawn s;
  ac_rows : forall d, d ∈ deliveries (tables s) -> balanced s d;
  ac_ceiling : forall x, ceiling s x;
}.

Lemma new_balance s x : accounted s -> x ∉ drawn s -> posted s x = 0 /\ sending s x = 0.
Proof.
  intros Ha Hx. unfold posted, sending. rewrite !tally_0; [done| |].
  - intros p Hp. destruct (unsent x p) eqn:E; [|done]. exfalso. apply Hx, (ac_held s Ha p); [done|].
    unfold claims_id. by destruct p.
  - intros p Hp. destruct (String.eqb_spec p.1 x) as [<-|]; [|done]. exfalso. apply Hx. by apply (ac_posts s Ha).
Qed.

Lemma boot_accounted n t : accounted (boot n t).
Proof.
  assert (forall p, p ∈ replicate n Idle -> p = Idle) as Hr by (intros p Hp; by apply elem_of_replicate in Hp as [? _]).
  split; cbn; try by intros ? ?%not_elem_of_nil.
  - constructor.
  - intros p x Hp%Hr. by subst.
  - intros x. unfold ceiling, posted, sending, dropped, workers, boot. cbn [pods posts lost].
    rewrite (tally_0 (unsent x)) by (intros p Hp%Hr; by subst). unfold MaxAttempts, tally. simpl. lia.
Qed.

Definition z (b : bool) : Z := if b then 1 else 0.

(** A pod moves from [p] to [q]. *)
Lemma move_pod s w p q x :
  pods s !! w = Some p ->
  Z.of_nat (tally (unsent x) (<[w := q]> (pods s))) = sending s x - z (unsent x p) + z (unsent x q) /\
  Z.of_nat (tally (last_try x) (<[w := q]> (pods s))) = last_tries s x - z (last_try x p) + z (last_try x q).
Proof.
  intros Hw. unfold sending, last_tries, z.
  pose proof (tally_insert (unsent x) _ _ _ q Hw). pose proof (tally_insert (last_try x) _ _ _ q Hw).
  destruct (unsent x p), (unsent x q), (last_try x p), (last_try x q); lia.
Qed.

Lemma elem_of_insert_pod (l : list wpc) w p q : p ∈ <[w := q]> l -> p = q \/ p ∈ l.
Proof.
  intros [i Hi]%list_elem_of_lookup. apply list_lookup_insert_Some in Hi as [(_ & <- & _)|[_ Hi]]; [by left|].
  right. by eapply list_elem_of_lookup_2.
Qed.

Lemma held_after s w q x p : accounted s -> (forall y, claims_id y q = true -> y ∈ drawn s) ->
  p ∈ <[w := q]> (pods s) -> claims_id x p = true -> x ∈ drawn s.
Proof. intros Ha Hq [->|Hp]%elem_of_insert_pod Hx; [by apply Hq|by eapply (ac_held s Ha)]. Qed.

Lemma held_drawn s w p x : accounted s -> pods s !! w = Some p -> claims_id x p = true -> x ∈ drawn s.
Proof. intros Ha Hw. apply (ac_held s Ha). by eapply list_elem_of_lookup_2. Qed.

Lemma drawn_grows s T x : x ∈ drawn s -> x ∈ drawn (with_tables T s).
Proof. cbn. set_solver. Qed.

Lemma balance_with_tables s T d : balanced (with_tables T s) d <-> balanced s d.
Proof. done. Qed.

Lemma accounted_op C R s o : accounted s -> new_ids o (drawn s) -> accounted (with_tables (run_op C R (clock s) o (tables s)) s).
Proof.
  intros Ha Hn. destruct (run_op_queues C R (drawn s) (clock s) o (tables s) Hn) as [Hnd Hq]. split.
  - apply Hnd, Ha.
  - intros d Hd. cbn. apply elem_of_app. right. by apply list_elem_of_fmap_2.
  - intros p x Hp Hx. apply drawn_grows. by eapply (ac_held s Ha).
  - intros p Hp. apply drawn_grows. by apply (ac_posts s Ha).
  - intros x Hx. apply drawn_grows. by apply (ac_lost s Ha).
  - intros d Hd. apply balance_with_tables. destruct (Hq d Hd) as [Hold|(H0 & _ & Hnew)]; [by apply (ac_rows s Ha)|].
    destruct (new_balance s (dID d) Ha Hnew) as [Hp Hs]. split; rewrite H0; [lia|]. intros _. unfold MaxAttempts, last_tries, dropped. lia.
  - apply Ha.
Qed.

(** What a claim does. *)
Lemma claim_spec d now locked s r T :
  claim_next d now locked s = (r, T) ->
  T = s /\ is_ok r = false \/
  exists x e, x ∈ deliveries s /\ due now x = true /\ next_due now locked s = Some x /\ endpoint_of s x = Some e /\
    T = with_deliveries (update (has_id (dID x)) bump (deliveries s)) s /\
    (r = Ok (claim_of x e) /\ d = Delivered \/ r = Err ErrStore /\ d = ReplyLost).
Proof.
  unfold claim_next. intros H.
  assert (forall x, next_due now locked s = Some x -> x ∈ deliveries s /\ due now x = true) as Hnd.
  { intros x Hx. pose proof (least_spec NextRetryAt (List.filter (fun d => due now d && negb (bool_decide (dID d ∈ locked))
      && negb (unset (endpoint_of s d))) (deliveries s))) as Hl. unfold next_due in Hx. rewrite Hx in Hl. destruct Hl as [Hin _].
    apply list_elem_of_In, List.filter_In in Hin as [Hin Hp]. breflect. by rewrite list_elem_of_In. }
  unfold BeginFunc in H. destruct d; [| |]; destruct (next_due now locked s) as [x|]; try (injection H as <- <-; by left);
    (destruct (endpoint_of s x) as [e|] eqn:He; [|injection H as <- <-; by left]);
    (destruct (2 ^ 31 <=? Attempts x + 1); [injection H as <- <-; by left|]); injection H as <- <-;
    (right; exists x, e; destruct (Hnd x eq_refl); split_and!; auto).
Qed.

Lemma bump_id x d : (if has_id x d then bump d else d) = d \/ dID d = x /\ (if has_id x d then bump d else d) = bump d.
Proof. unfold has_id. destruct (String.eqb_spec (dID d) x); auto. Qed.

Lemma update_bump_ids x l : dID <$> update (has_id x) bump l = dID <$> l.
Proof. by apply update_proj. Qed.

Lemma dropped_note s T c ps qs a o dr x :
  dropped (mkSys T c ps qs a (note o (lost s)) dr) x = dropped s x + z (match o with Some y => String.eqb x y | None => false end).
Proof.
  unfold note, dropped, z, tally. cbn [lost]. rewrite List.filter_app, length_app.
  destruct o as [y|]; simpl; [destruct (String.eqb x y); simpl|]; lia.
Qed.

(** Recording the loss of a claim keeps the books balanced. *)
Lemma accounted_lost s o : accounted s -> (forall x, o = Some x -> x ∈ drawn s) ->
  accounted (mkSys (tables s) (clock s) (pods s) (posts s) (accepted s) (note o (lost s)) (drawn s)).
Proof.
  intros Ha Ho. assert (forall b, 0 <= z b) as Hz by (intros []; cbn; lia). split; try apply Ha.
  - intros x [Hx|Hx]%elem_of_app; [by apply (ac_lost s Ha)|]. apply Ho. destruct o; cbn in Hx; set_solver.
  - intros d Hd. destruct (ac_rows s Ha d Hd) as [H1 H2]. split; [done|]. intros Hp%H2. rewrite dropped_note.
    etransitivity; [exact Hp|]. unfold last_tries. cbn [pods]. specialize (Hz (match o with Some y => String.eqb (dID d) y | None => false end)). lia.
  - intros x. pose proof (ac_ceiling s Ha x) as Hc. unfold ceiling in *. rewrite dropped_note.
    etransitivity; [exact Hc|]. unfold workers. cbn [pods]. specialize (Hz (match o with Some y => String.eqb x y | None => false end)). lia.
Qed.

Lemma accounted_same s : accounted s -> accounted (with_tables (tables s) s).
Proof.
  intros Ha. split; try apply Ha; try (intros; apply drawn_grows).
  - by apply (ac_drawn s Ha).
  - by eapply (ac_held s Ha).
  - by apply (ac_posts s Ha).
  - by apply (ac_lost s Ha).
Qed.

Definition claimed_tables (x : Delivery) (s : DB) : DB := with_deliveries (update (has_id (dID x)) bump (deliveries s)) s.

Lemma workers_move s w p : workers (with_pod w p s) = workers s.
Proof. unfold workers. cbn. by rewrite length_insert. Qed.

(** A pod takes a due row. *)
Lemma accounted_claimed s w x e :
  accounted s -> pods s !! w = Some Idle -> x ∈ deliveries (tables s) -> Status x = StPending ->
  accounted (with_pod w (Sending (claim_of x e)) (with_tables (claimed_tables x (tables s)) s)).
Proof.
  intros Ha Hw Hx Hpend. set (s' := with_pod _ _ _).
  assert (forall y, sending s' y = sending s y + z (String.eqb (dID x) y)) as Hs.
  { intros y. unfold sending at 1. cbn [pods s' with_pod with_tables]. rewrite (proj1 (move_pod s w Idle _ y Hw)). cbn. lia. }
  assert (forall y, last_tries s' y = last_tries s y + z (String.eqb (dID x) y && (MaxAttempts <=? Attempts x + 1))) as Hl.
  { intros y. unfold last_tries at 1. cbn [pods s' with_pod with_tables]. rewrite (proj2 (move_pod s w Idle _ y Hw)). cbn. lia. }
  assert (forall y, y ∈ drawn s -> y ∈ drawn s') as Hd by (intros y Hy; exact (drawn_grows s _ y Hy)).
  assert (last_tries s (dID x) + 1 <= workers s) as Hroom.
  { unfold last_tries, workers. pose proof (tally_lt (last_try (dID x)) (pods s) Idle (list_elem_of_lookup_2 _ _ _ Hw) eq_refl). lia. }
  split.
  - cbn. rewrite update_bump_ids. apply Ha.
  - intros d (y & Hy & ->)%elem_of_update. apply Hd.
    replace (dID (if has_id (dID x) y then bump y else y)) with (dID y) by (by destruct (has_id _ _)). by apply (ac_drawn s Ha).
  - intros p y Hp Hy. apply Hd. eapply (held_after s w); [done| |exact Hp|exact Hy].
    intros y' E%String.eqb_eq. subst y'. by apply (ac_drawn s Ha).
  - intros p Hp. apply Hd. by apply (ac_posts s Ha).
  - intros y Hy. apply Hd. by apply (ac_lost s Ha).
  - intros d (y & Hy & ->)%elem_of_update. destruct (ac_rows s Ha y Hy) as [H1 H2]. unfold has_id.
    destruct (String.eqb_spec (dID y) (dID x)) as [E|E].
    + assert (y = x) as -> by (eapply (NoDup_proj_eq dID); [apply Ha|done|done|done]). specialize (H2 Hpend).
      split; cbn [dID bump Attempts]; [rewrite Hs, String.eqb_refl; cbn; change (posted s' (dID x)) with (posted s (dID x)); lia|].
      intros _. rewrite Hl, String.eqb_refl. change (dropped s' (dID x)) with (dropped s (dID x)). cbn [andb].
      destruct (Z.leb_spec MaxAttempts (Attempts x + 1)); cbn [z]; [lia|]. unfold last_tries, dropped, MaxAttempts in *. lia.
    + assert (String.eqb (dID x) (dID y) = false) as En by (by apply String.eqb_neq).
      unfold balanced. rewrite Hs, Hl, En. cbn [andb z]. rewrite !Z.add_0_r. by split.
  - intros y. unfold ceiling. rewrite Hs. change (workers s') with (workers (with_pod w (Sending (claim_of x e)) s)). rewrite workers_move.
    change (posted s' y) with (posted s y). change (dropped s' y) with (dropped s y). pose proof (ac_ceiling s Ha y) as Hc. unfold ceiling in Hc.
    destruct (String.eqb_spec (dID x) y) as [<-|_]; cbn [z]; [|lia]. destruct (ac_rows s Ha x Hx) as [H1 H2]. specialize (H2 Hpend). lia.
Qed.

Lemma last_try_unsent x p : last_try x p = true -> claims_id x p = true.
Proof. unfold last_try, claims_id. destruct (pod_claim p); [|done]. by intros [? _]%andb_prop. Qed.

Lemma unsent_claims x p : unsent x p = true -> claims_id x p = true.
Proof. by destruct p. Qed.

Lemma accounted_crash s w p k : accounted s -> pods s !! w = Some p -> pod_claim p = Some k ->
  accounted (mkSys (tables s) (clock s) (<[w := Idle]> (pods s)) (posts s) (accepted s) (lost s ++ [k_id k]) (drawn s)).
Proof.
  intros Ha Hw Hk. assert (forall y, claims_id y p = String.eqb (k_id k) y) as Hc by (intros y; unfold claims_id; by rewrite Hk).
  assert (k_id k ∈ drawn s) as Hdr by (eapply held_drawn; [done|exact Hw|]; rewrite Hc; apply String.eqb_refl).
  set (s' := mkSys _ _ _ _ _ _ _).
  assert (forall y, dropped s' y = dropped s y + z (String.eqb (k_id k) y)) as Hd.
  { intros y. unfold s'. change (lost s ++ [k_id k]) with (note (Some (k_id k)) (lost s)). rewrite dropped_note. by rewrite String.eqb_sym. }
  assert (forall y, sending s' y <= sending s y /\ last_tries s y - z (String.eqb (k_id k) y) <= last_tries s' y) as Hm.
  { intros y. destruct (move_pod s w p Idle y Hw) as [H1 H2]. unfold sending at 1, last_tries at 2. cbn [pods s']. rewrite H1, H2.
    pose proof (last_try_unsent y p). rewrite Hc in *. unfold z. cbn. destruct (unsent y p), (last_try y p), (String.eqb (k_id k) y); lia || (by exfalso; auto). }
  split; try apply Ha.
  - intros q y. apply (held_after s w Idle); [done|]. by intros ?.
  - intros y [Hy|Hy%list_elem_of_singleton]%elem_of_app; [by apply (ac_lost s Ha)|]. by subst.
  - intros d Hin. destruct (ac_rows s Ha d Hin) as [H1 H2], (Hm (dID d)) as [H3 H4]. split.
    + change (posted s' (dID d)) with (posted s (dID d)). lia.
    + intros Hp%H2. rewrite Hd. lia.
  - intros y. destruct (Hm y) as [H3 _]. pose proof (ac_ceiling s Ha y) as Hy. unfold ceiling in *. rewrite Hd.
    change (posted s' y) with (posted s y). change (workers s') with (workers (with_pod w Idle s)). rewrite workers_move.
    unfold z. destruct (String.eqb _ _); lia.
Qed.

Lemma accounted_claim s w d locked r T : accounted s -> pods s !! w = Some Idle -> claim_next d (clock s) locked (tables s) = (r, T) ->
  accounted (let s' := with_tables T s in
    match r with
    | Ok k => with_pod w (Sending k) s'
    | Err _ => mkSys T (clock s) (pods s) (posts s) (accepted s)
        (note (match d with ReplyLost => dID <$> next_due (clock s) locked (tables s) | _ => None end) (lost s)) (drawn s')
    end).
Proof.
  intros Ha Hw Hc. destruct (claim_spec _ _ _ _ _ _ Hc) as [[-> Hr]|(x & e & Hx & Hdue & Hnext & He & -> & Hr)].
  - destruct r as [k|err]; [done|]. apply (accounted_lost (with_tables (tables s) s)); [by apply accounted_same|].
    intros y Hy. apply drawn_grows. destruct d; try done. destruct (next_due _ _ _) as [x|] eqn:E; [|done]. injection Hy as <-.
    apply (ac_drawn s Ha). pose proof (least_spec NextRetryAt (List.filter (fun d => due (clock s) d && negb (bool_decide (dID d ∈ locked))
      && negb (unset (endpoint_of (tables s) d))) (deliveries (tables s)))) as Hl. unfold next_due in E. rewrite E in Hl.
    destruct Hl as [Hin%list_elem_of_In%List.filter_In _]. apply list_elem_of_In, Hin.
  - assert (Status x = StPending) as Hp by (unfold due in Hdue; by breflect).
    pose proof (accounted_claimed s w x e Ha Hw Hx Hp) as Hcl. destruct Hr as [[-> ->]|[-> ->]]; [exact Hcl|].
    rewrite Hnext. cbn [fmap option_fmap option_map note option_list].
    pose proof (accounted_crash _ w (Sending (claim_of x e)) (claim_of x e) Hcl) as Hcr. cbn [pods with_pod with_tables] in Hcr.
    rewrite list_insert_insert_eq, (list_insert_id (pods s) w Idle Hw) in Hcr. apply Hcr; [|done]. apply list_lookup_insert_eq. by eapply lookup_lt_Some.
Qed.

Lemma accounted_send s w k rq a : accounted s -> pods s !! w = Some (Sending k) ->
  accounted (mkSys (tables s) (clock s) (<[w := Answered k a]> (pods s)) (posts s ++ option_list ((fun q : request => (k_id k, q)) <$> rq))
     (note (if success a then Some (k_id k) else None) (accepted s)) (lost s) (drawn s)).
Proof.
  intros Ha Hw. set (s' := mkSys _ _ _ _ _ _ _).
  assert (k_id k ∈ drawn s) as Hdr by (eapply held_drawn; [done|exact Hw|]; apply String.eqb_refl).
  assert (forall y, posted s' y + sending s' y <= posted s y + sending s y /\ last_tries s' y = last_tries s y) as Hm.
  { intros y. destruct (move_pod s w _ (Answered k a) y Hw) as [H1 H2].
    unfold posted at 1, sending at 1, last_tries at 1. cbn [pods posts s']. rewrite H1, H2, tally_app.
    unfold posted. cbn [unsent last_try pod_claim]. unfold z.
    assert (tally (fun p : string * request => String.eqb p.1 y) (option_list ((fun q => (k_id k, q)) <$> rq)) <= (if String.eqb (k_id k) y then 1 else 0))%nat.
    { destruct rq; cbn; [destruct (String.eqb (k_id k) y)|]; cbn; lia. }
    destruct (String.eqb (k_id k) y); lia. }
  split; try apply Ha.
  - intros q y. apply (held_after s w _); [done|]. intros y' E%String.eqb_eq. by subst.
  - intros p [Hp|Hp]%elem_of_app; [by apply (ac_posts s Ha)|]. destruct rq; cbn in Hp; [|by apply not_elem_of_nil in Hp].
    apply list_elem_of_singleton in Hp. by subst.
  - intros d Hin. destruct (ac_rows s Ha d Hin) as [H1 H2], (Hm (dID d)) as [H3 H4]. split; [lia|].
    intros Hp%H2. rewrite H4. exact Hp.
  - intros y. destruct (Hm y) as [H3 _]. pose proof (ac_ceiling s Ha y) as Hy. unfold ceiling in *.
    change (workers s') with (workers (with_pod w (Answered k a) s)). rewrite workers_move. change (dropped s' y) with (dropped s y). lia.
Qed.

(** What recording an outcome does to a row. *)
Definition settle (now : Z) (k : claim) (a : Z * option string) (d : Delivery) : Delivery :=
  if success a then delivered now a.1 d
  else if MaxAttempts <=? k_attempts k + 1 then failed a.1 (default ""%string a.2) d
  else retry_at (now + retry_delay (k_attempts k + 1)) a.1 (default ""%string a.2) d.

Lemma record_outcome_settle d now k a s :
  record_outcome d now k a s =
  match d with RequestLost => s | _ => with_deliveries (update (has_id (k_id k)) (settle now k a) (deliveries s)) s end.
Proof.
  unfold record_outcome, settle, success. destruct a as [code e]. cbn [fst snd].
  destruct (_ && _); [by destruct d|]. by destruct (_ <=? _), d.
Qed.

Lemma settle_same now k a d : dID (settle now k a d) = dID d /\ Attempts (settle now k a d) = Attempts d.
Proof. unfold settle. destruct (success a); [done|]. by destruct (_ <=? _). Qed.

Lemma settle_pending now k a d : Status (settle now k a d) = StPending -> Status d = StPending /\ (MaxAttempts <=? k_attempts k + 1) = false.
Proof. unfold settle. destruct (success a); [done|]. by destruct (_ <=? _). Qed.

Lemma accounted_finish s w d k a : accounted s -> pods s !! w = Some (Answered k a) ->
  accounted (mkSys (record_outcome d (clock s) k a (tables s)) (clock s) (<[w := Idle]> (pods s)) (posts s) (accepted s)
    (note (match d with RequestLost => Some (k_id k) | _ => None end) (lost s)) (drawn s)).
Proof.
  intros Ha Hw. rewrite record_outcome_settle. destruct (decide (d = RequestLost)) as [->|Hd].
  { exact (accounted_crash s w (Answered k a) k Ha Hw eq_refl). }
  replace (match d with RequestLost => _ | _ => _ end) with (with_deliveries (update (has_id (k_id k)) (settle (clock s) k a) (deliveries (tables s))) (tables s)) by (by destruct d).
  replace (note _ (lost s)) with (lost s) by (destruct d; try done; symmetry; apply app_nil_r).
  set (s' := mkSys _ _ _ _ _ _ _).
  assert (forall y, sending s' y = sending s y /\ last_tries s' y = last_tries s y - z (String.eqb (k_id k) y && (MaxAttempts <=? k_attempts k + 1))) as Hm.
  { intros y. destruct (move_pod s w _ Idle y Hw) as [H1 H2]. unfold sending at 1, last_tries at 1. cbn [pods s']. rewrite H1, H2. cbn. lia. }
  assert (forall y, dID (if has_id (k_id k) y then settle (clock s) k a y else y) = dID y) as Hid.
  { intros y. destruct (has_id _ y); [apply settle_same|done]. }
  split; try apply Ha.
  - cbn. rewrite update_proj; [apply Ha|]. intros y. apply settle_same.
  - intros y (x & Hx & ->)%elem_of_update. rewrite Hid. by apply (ac_drawn s Ha).
  - intros q y. apply (held_after s w Idle); [done|]. by intros ?.
  - intros y (x & Hx & ->)%elem_of_update. destruct (ac_rows s Ha x Hx) as [H1 H2]. unfold balanced. rewrite Hid.
    destruct (Hm (dID x)) as [H3 H4]. rewrite H3, H4. change (posted s' (dID x)) with (posted s (dID x)). change (dropped s' (dID x)) with (dropped s (dID x)).
    unfold has_id. rewrite (String.eqb_sym (k_id k)). destruct (String.eqb (dID x) (k_id k)); cbn [andb z]; [|by rewrite Z.sub_0_r].
    destruct (settle_same (clock s) k a x) as [_ ->]. split; [done|]. intros [Hp%H2 ->]%settle_pending. cbn [z]. lia.
  - intros y. destruct (Hm y) as [H3 _]. pose proof (ac_ceiling s Ha y) as Hy. unfold ceiling in *. rewrite H3.
    change (workers s') with (workers (with_pod w Idle s)). by rewrite workers_move.
Qed.

Lemma accounted_step C R s e s' : accounted s -> wstep C R s e s' -> accounted s'.
Proof.
  intros Ha Hs. destruct Hs as [s t Ht|s o Hn|s w d l r T Hw Hc|s w N k rq a Hw Hs|s w d k a Hw|s w k Hp].
  - split; apply Ha.
  - by apply accounted_op.
  - by apply accounted_claim.
  - by apply accounted_send.
  - by apply accounted_finish.
  - destruct Hp as [Hp|[a Hp]]; by eapply accounted_crash.
Qed.

Lemma workers_step C R s e s' : wstep C R s e s' -> workers s' = workers s.
Proof.
  intros [?|?|? ? ? ? r|?|?|?]; unfold workers; cbn; rewrite ?length_insert; try done. destruct r; cbn; by rewrite ?length_insert.
Qed.

(** A delivery is posted at most [MaxAttempts - 1 + n] times by [n] pods,
    plus once for each of its claims whose outcome was lost (a pod that stopped,
    an update that did not reach the database), whatever calls interleave.  One
    pod that loses nothing posts it at most [MaxAttempts] times. *)
Theorem posts_bounded C R n t es s :
  steps (wstep C R) (boot n t) es s ->
  forall x, posted s x <= MaxAttempts - 1 + Z.of_nat n + dropped s x.
Proof.
  intros Hr x.
  assert (accounted s /\ workers s = Z.of_nat n) as [Ha Hw].
  { apply (steps_invariant (wstep C R) (fun s => accounted s /\ workers s = Z.of_nat n) (boot n t) es); [|split|done].
    - intros s0 e s1 [Ha Hw] H. split; [by eapply accounted_step|]. by rewrite (workers_step _ _ _ _ _ H).
    - apply boot_accounted.
    - unfold workers, boot. cbn [pods]. by rewrite length_replicate. }
  pose proof (ac_ceiling s Ha x) as Hc. unfold ceiling in Hc. rewrite Hw in Hc. unfold sending in Hc. lia.
Qed.

(** ** Tenants of endpoints and deliveries *)
Record tables_ok (s : DB) : Prop := mkTablesOk {
  ok_ids : NoDup ((fun r => ID (ep r)) <$> endpoints s);
  ok_tenant : forall d, d ∈ deliveries s -> exists r, r ∈ endpoints s /\ ID (ep r) = EndpointID d /\ TenantID (ep r) = dTenantID d;
  ok_version : forall r, r ∈ endpoints s -> SigningVersion (ep r) = SigningV1 \/ SigningVersion (ep r) = SigningV2;
}.

Lemma insert_delivery_ok R now id t e ev p next s s' :
  tables_ok s -> insert_delivery R now id t e ev p next s = Ok s' ->
  (exists r, r ∈ endpoints s /\ ID (ep r) = e /\ TenantID (ep r) = t) -> tables_ok s' /\ endpoints s' = endpoints s.
Proof.
  intros [H1 H2 H3]. unfold insert_delivery. case_match; [|done]. intros [= <-] Hr. split; [|done]. split; cbn; [done| |done].
  intros d [Hd|Hd%list_elem_of_singleton]%elem_of_app; [by apply H2|by subst].
Qed.

Lemma enqueue_ok R now t ev p l : forall ids s s',
  tables_ok s -> enqueue R now ids t ev p l s = Ok s' ->
  (forall e, e ∈ l -> exists r, r ∈ endpoints s /\ ID (ep r) = e /\ TenantID (ep r) = t) -> tables_ok s'.
Proof.
  induction l as [|e l IH]; intros ids s s' Hok H Hl; cbn in H; [injection H as <-; done|].
  apply rbind_ok in H as (s1 & H1 & H2).
  destruct (insert_delivery_ok _ _ _ _ _ _ _ _ _ _ Hok H1 (Hl e ltac:(set_solver))) as [Hok1 E].
  eapply IH; [exact Hok1|exact H2|]. intros e' He'. rewrite E. apply Hl. set_solver.
Qed.

Lemma register_ok s r : tables_ok s -> existsb (fun x => String.eqb (ID (ep x)) (ID (ep r))) (endpoints s) = false ->
  SigningVersion (ep r) = SigningV1 \/ SigningVersion (ep r) = SigningV2 -> tables_ok (with_endpoints (endpoints s ++ [r]) s).
Proof.
  intros [H1 H2 H3] Hx Hv. rewrite existsb_false in Hx. split; cbn.
  - rewrite fmap_app. apply NoDup_app. split_and!; [done| |apply NoDup_singleton].
    intros i (x & -> & Hin)%list_elem_of_fmap E%list_elem_of_singleton. apply Hx in Hin. rewrite E in Hin. by rewrite String.eqb_refl in Hin.
  - intros d (x & Hin & E)%H2. exists x. set_solver.
  - intros x [Hin|Hin%list_elem_of_singleton]%elem_of_app; [by apply H3|by subst].
Qed.

Lemma version_ok s p v now : tables_ok s -> v = SigningV1 \/ v = SigningV2 -> tables_ok (with_endpoints (update p (set_version v now) (endpoints s)) s).
Proof.
  intros [H1 H2 H3] Hv. split; cbn.
  - by rewrite update_proj.
  - intros d (x & Hin & E1 & E2)%H2. exists (if p x then set_version v now x else x). split; [apply elem_of_update; eauto|]. by destruct (p x).
  - intros r (x & Hin & ->)%elem_of_update. destruct (p x); [done|by apply H3].
Qed.

Lemma delete_ok s p : tables_ok s -> tables_ok (delete_endpoints p s).
Proof.
  intros [H1 H2 H3]. split; cbn.
  - eapply sublist_NoDup; [exact H1|]. apply fmap_sublist. clear. induction (endpoints s) as [|r l IH]; [constructor|].
    simpl. destruct (negb _); by constructor.
  - intros d Hd. rewrite elem_of_filterb in Hd. destruct Hd as [Hd Hg].
    apply negb_true_iff in Hg. rewrite existsb_false in Hg. destruct (H2 d Hd) as (r & Hr & E1 & E2). exists r. split; [|done].
    rewrite elem_of_filterb. split; [done|]. specialize (Hg r Hr). cbn in Hg. rewrite E1, String.eqb_refl, andb_true_r in Hg. by rewrite Hg.
  - intros r Hr. rewrite elem_of_filterb in Hr. apply H3. tauto.
Qed.

Lemma versions v : negb (String.eqb v SigningV1) && negb (String.eqb v SigningV2) = false -> v = SigningV1 \/ v = SigningV2.
Proof. destruct (String.eqb_spec v SigningV1), (String.eqb_spec v SigningV2); cbn; auto; done. Qed.

Lemma run_op_ok C R now o s : tables_ok s -> tables_ok (run_op C R now o s).
Proof.
  intros Hok. destruct o; cbn [run_op].
  - unfold RegisterWebhook. do 3 (case_match; [done|]). destruct (randSecret rand); [|done].
    destruct (match owner with [_] => _ | _ => _ end) as [c u]. apply BeginFunc_ind; [done|]. intros ? s2 Hb.
    apply rbind_ok in Hb as (? & _ & Hb). case_match eqn:Eg; [|done]. injection Hb as _ <-. breflect. apply register_ok; cbn; [done|done|by apply versions].
  - unfold UpdateSigningVersion. case_match; [done|]. case_match eqn:Ev; [done|]. apply BeginFunc_ind; [done|]. intros ? s2 Hb.
    apply rbind_ok in Hb as (? & _ & [= _ <-]). apply version_ok; [done|by apply versions].
  - unfold TestFire. case_match; [done|]. apply BeginFunc_ind; [done|]. intros ? s2 Hb. apply rbind_ok in Hb as (? & _ & Hb).
    case_match eqn:Ex; [done|]. apply rbind_ok in Hb as (s1 & H1 & [= _ <-]). eapply insert_delivery_ok; [done|exact H1|].
    apply negb_false_iff, existsb_elem in Ex as (r & Hr & Hp). unfold of_tenant in Hp. breflect. eauto.
  - unfold DeleteWebhook. cbn [negb]. apply BeginFunc_ind; [done|]. intros ? s2 Hb. apply rbind_ok in Hb as (? & _ & [= _ <-]). by apply delete_ok.
  - unfold DeliverEvent. case_match; [done|]. destruct payload as [body|]; [|done].
    match goal with |- context [BeginFunc ErrStore d ?b s] => pose proof (BeginFunc_ind tables_ok ErrStore d b s Hok) as Hq end.
    destruct (BeginFunc _ _ _ s) as [r s']. apply Hq. intros ? s2 Hb. apply rbind_ok in Hb as (? & _ & Hb).
    apply rbind_ok in Hb as (s1 & H1 & [= _ <-]). eapply enqueue_ok; [done|exact H1|]. intros e (r0 & -> & Hr)%list_elem_of_fmap.
    rewrite elem_of_filterb in Hr. destruct Hr as [Hr Hp]. unfold admin_target in Hp. breflect. eauto.
Qed.

Lemma update_ok p f s : tables_ok s -> (forall d, EndpointID (f d) = EndpointID d /\ dTenantID (f d) = dTenantID d) ->
  tables_ok (with_deliveries (update p f (deliveries s)) s).
Proof.
  intros [H1 H2 H3] Hf. split; cbn; [done| |done]. intros d (y & Hy & ->)%elem_of_update.
  destruct (p y); [|by apply H2]. destruct (Hf y) as [-> ->]. by apply H2.
Qed.

Record sound (s : sys) : Prop := mkSound {
  so_tables : tables_ok (tables s);
  so_answered : forall p k a, p ∈ pods s -> p = Answered k a -> success a = true -> k_id k ∈ accepted s;
  so_delivered : forall d, d ∈ deliveries (tables s) -> Status d = StDelivered -> dID d ∈ accepted s;
}.

Lemma settle_delivered now k a d : Status (settle now k a d) = StDelivered -> Status d = StDelivered \/ success a = true.
Proof. unfold settle. destruct (success a); [by right|]. destruct (_ <=? _); [done|by left]. Qed.

Lemma claim_sound d now locked s r T (l : list string) : claim_next d now locked s = (r, T) ->
  tables_ok s -> (forall d, d ∈ deliveries s -> Status d = StDelivered -> dID d ∈ l) ->
  tables_ok T /\ (forall d, d ∈ deliveries T -> Status d = StDelivered -> dID d ∈ l).
Proof.
  intros Hc Hok Hd. destruct (claim_spec _ _ _ _ _ _ Hc) as [[-> _]|(x & e & _ & _ & _ & _ & -> & _)]; [done|].
  split; [by apply update_ok|]. intros y (z0 & Hz & ->)%elem_of_update. destruct (has_id _ z0); exact (Hd z0 Hz).
Qed.

Lemma sound_step C R s e s' : sound s -> wstep C R s e s' -> sound s'.
Proof.
  intros [Hok Hans Hdel] Hs. destruct Hs as [s t Ht|s o Hn|s w d l r T Hw Hc|s w N k rq a Hw Hs|s w d k a Hw|s w k Hp].
  - by split.
  - split; cbn; [by apply run_op_ok|done|]. intros d Hd Hst.
    destruct (proj2 (run_op_queues C R (drawn s) (clock s) o (tables s) Hn) d Hd) as [Ho|(_ & E & _)]; [by apply Hdel|congruence].
  - destruct (claim_sound _ _ _ _ _ _ (accepted s) Hc Hok Hdel) as [Hok' Hdel']. destruct r as [k|]; (split; cbn; [done| |done]); [|done].
    intros p k' a [->|Hp]%elem_of_insert_pod; [done|intros; by eapply Hans].
  - split; cbn; [done| |].
    + intros p k' a' [->|Hp]%elem_of_insert_pod.
      * intros [= -> ->] Ha. rewrite Ha. cbn. set_solver.
      * intros E Ha. apply elem_of_app. left. by eapply Hans.
    + intros d Hd Hst. apply elem_of_app. left. by apply Hdel.
  - split; cbn.
    + rewrite record_outcome_settle. destruct d; try done; (apply update_ok; [done|]; intros x; unfold settle; destruct (success a); [done|by destruct (_ <=? _)]).
    + intros p k' a' [->|Hp]%elem_of_insert_pod; [done|intros; by eapply Hans].
    + rewrite record_outcome_settle. intros x Hx Hst. assert (x ∈ update (has_id (k_id k)) (settle (clock s) k a) (deliveries (tables s)) \/ x ∈ deliveries (tables s)) as [H|H].
      { destruct d; [by left|by right|by left]. }
      * apply elem_of_update in H as (y & Hy & ->). unfold has_id in *. destruct (String.eqb_spec (dID y) (k_id k)) as [E|]; [|by apply Hdel].
        destruct (settle_same (clock s) k a y) as [-> _]. destruct (settle_delivered _ _ _ _ Hst) as [Hy'|Ha]; [by apply Hdel|].
        rewrite E. eapply Hans; [by eapply list_elem_of_lookup_2|done|done].
      * by apply Hdel.
  - split; cbn; [done| |done]. intros p k' a' [->|Hp']%elem_of_insert_pod; [done|by apply Hans].
Qed.

Lemma reachable_sound C R n t es s : steps (wstep C R) (boot n t) es s -> sound s.
Proof.
  intros Hr. eapply (steps_invariant (wstep C R) sound (boot n t) es); [apply sound_step| |done]. split; cbn.
  - split; cbn; [constructor| |]; by intros ? ?%not_elem_of_nil.
  - intros p k a Hp%elem_of_replicate. destruct Hp as [-> _]. done.
  - by intros ? ?%not_elem_of_nil.
Qed.

(** C39: in every state that pods and calls of the service reach from empty
    tables, a delivery marked delivered was answered with a code from 200 to
    299, every delivery refers to a registered endpoint of its own tenant
    with signing version v1 or v2, and a claim is of a pending delivery and
    carries the address, secret hash and version of the delivery's endpoint,
    its tenant and the payload that was queued. *)
Theorem claims_stay_in_tenant C R n t es s :
  steps (wstep C R) (boot n t) es s ->
  (forall x, x ∈ deliveries (tables s) -> Status x = StDelivered -> dID x ∈ accepted s) /\
  (forall x, x ∈ deliveries (tables s) -> exists r, r ∈ endpoints (tables s) /\ ID (ep r) = EndpointID x /\ TenantID (ep r) = dTenantID x /\
     (SigningVersion (ep r) = "v1"%string \/ SigningVersion (ep r) = "v2"%string)) /\
  (forall d now locked k T, claim_next d now locked (tables s) = (Ok k, T) ->
     exists r x, r ∈ endpoints (tables s) /\ x ∈ deliveries (tables s) /\ dID x = k_id k /\ Status x = StPending /\ ID (ep r) = EndpointID x /\
       TenantID (ep r) = dTenantID x /\ k_tenant k = dTenantID x /\ k_url k = URL (ep r) /\ k_secret k = secret_hash r /\
       k_version k = SigningVersion (ep r) /\ k_payload k = Payload x).
Proof.
  intros Hr. destruct (reachable_sound _ _ _ _ _ _ Hr) as [Hok _ Hdel]. split_and!; [done| |].
  - intros x Hx. destruct (ok_tenant _ Hok x Hx) as (r & Hr' & E1 & E2). exists r. split_and!; [done..|]. by apply (ok_version _ Hok).
  - intros d now locked k T Hc. destruct (claim_spec _ _ _ _ _ _ Hc) as [[_ ?]|(x & e & Hx & Hdue & _ & He & _ & [[[= ->] _]|[? _]])]; [done| |done].
    unfold endpoint_of in He. apply find_elem in He as [He Hid]. apply String.eqb_eq in Hid.
    exists e, x. unfold due in Hdue. breflect. destruct (ok_tenant _ Hok x Hx) as (r & Hr' & E1 & E2).
    assert (r = e) as -> by (eapply (NoDup_proj_eq (fun r => ID (ep r))); [apply Hok|done|done|cbn; congruence]). split_and!; done.
Qed.

(** ** Fan-out *)
Definition queued (now : Z) (t ev body : string) (ids : nat -> string) (i : nat) (e : string) : Delivery :=
  mkDelivery (ids i) t e ev body StPending 0 "" 0 now now None.

Definition targets (t ev : string) (s : DB) : list string := (fun r => ID (ep r)) <$> List.filter (admin_target t ev) (endpoints s).

Lemma enqueue_spec R now t ev body l : forall ids s,
  enqueue R now ids t ev body l s = Err ErrStore \/
  enqueue R now ids t ev body l s = Ok (with_deliveries (deliveries s ++ imap (queued now t ev body ids) l) s).
Proof.
  induction l as [|e l IH]; intros ids s.
  - right. cbn. rewrite app_nil_r. by destruct s.
  - cbn [enqueue]. unfold insert_delivery. destruct (_ && _); [|by left]. cbn [rbind].
    destruct (IH (fun n => ids (S n)) (with_deliveries (deliveries s ++ [queued now t ev body ids 0 e]) s)) as [H|H]; [by left|right].
    etransitivity; [exact H|]. cbn. rewrite <- app_assoc. done.
Qed.

(** The inserts go through when the tenant exists and the ids are new. *)
Lemma enqueue_goes_through R now t ev body l : forall ids s,
  t ∈ tenants R -> (forall e, e ∈ l -> existsb (fun r => String.eqb (ID (ep r)) e) (endpoints s) = true) ->
  (forall i j, ids i = ids j -> i = j) -> (forall i, ids i ∉ dID <$> deliveries s) -> is_ok (enqueue R now ids t ev body l s) = true.
Proof.
  induction l as [|e l IH]; intros ids s Ht He Hinj Hnew; [done|]. cbn [enqueue]. unfold insert_delivery.
  rewrite bool_decide_eq_true_2 by done. rewrite (He e) by set_solver.
  replace (existsb _ (deliveries s)) with false.
  2: { symmetry. apply existsb_false. intros d Hd. apply String.eqb_neq. intros E. apply (Hnew 0%nat). rewrite <- E. by apply list_elem_of_fmap_2. }
  cbn [andb negb rbind]. apply IH; cbn; [done|set_solver| |].
  - intros i j E%Hinj. congruence.
  - intros i. rewrite fmap_app. intros [Hi|Hi%list_elem_of_singleton]%elem_of_app; [by apply (Hnew (S i))|]. by apply Hinj in Hi.
Qed.

(** One call: all the rows or none, and an error only for those reasons. *)
Lemma deliver_rows d R now ids t ev body s :
  t <> ""%string -> ev <> ""%string ->
  let s1 := with_deliveries (deliveries s ++ imap (queued now t ev body ids) (targets t ev s)) s in
  exists r s', DeliverEvent d true R now ids t ev (Some body) s = (r, is_ok r, s') /\
    (r = Ok (Z.of_nat (length (targets t ev s))) /\ s' = s1 \/ r = Err ErrStore /\ (s' = s \/ d = ReplyLost /\ s' = s1)) /\
    (d = Delivered -> is_ok (enqueue R now ids t ev body (targets t ev s) s) = true -> is_ok r = true).
Proof.
  intros Ht Hev s1. unfold DeliverEvent. rewrite (proj2 (String.eqb_neq _ _) Ht), (proj2 (String.eqb_neq _ _) Hev). cbn [negb orb].
  unfold SetTenantGUC. rewrite (proj2 (String.eqb_neq _ _) Ht).
  destruct (BeginFunc _ _ _ _) as [r s'] eqn:Eb. exists r, s'. split; [done|]. unfold BeginFunc in Eb. cbn [rbind] in Eb. fold (targets t ev s) in Eb.
  destruct (enqueue_spec R now t ev body (targets t ev s) ids s) as [E|E]; rewrite E in *; cbn [rbind] in Eb;
    (destruct d; injection Eb as <- <-; (split; [auto 6|done])).
Qed.

Lemma elem_of_targets t ev s e :
  e ∈ targets t ev s <-> exists r, r ∈ endpoints s /\ ID (ep r) = e /\ TenantID (ep r) = t /\ Active (ep r) = true /\
    oauth_client_id r = None /\ (Events (ep r) = [] \/ ev ∈ Events (ep r)).
Proof.
  assert (forall r, subscribed ev r = true <-> Events (ep r) = [] \/ ev ∈ Events (ep r)) as Hsub.
  { intros r. unfold subscribed. destruct (Events (ep r)) as [|y l]; [tauto|]. rewrite existsb_elem. split.
    - intros (x & Hx & ->%String.eqb_eq). by right.
    - intros [?|H]; [done|]. exists ev. split; [done|apply String.eqb_refl]. }
  unfold targets. rewrite list_elem_of_fmap. split.
  - intros (x & -> & [Hin Hp]%elem_of_filterb). unfold admin_target in Hp. breflect. exists x. split_and!; try done; [by destruct (oauth_client_id x)|by apply Hsub].
  - intros (x & Hin & Hid & Hten & Ha & Hc & He%Hsub). exists x. split; [done|]. apply elem_of_filterb. unfold admin_target.
    by rewrite Hten, Ha, Hc, He, String.eqb_refl.
Qed.

(** An event fans out to exactly the active endpoints of its tenant that no
    integration owns and that subscribe to it (or to everything): one pending
    delivery for each and nothing else, all or none of them; the count is
    theirs, and listeners hear of the event exactly when it is reported queued.
    With a tenant on file and fresh ids the call does not fail. *)
Theorem fan_out d R now ids t ev body s :
  t <> ""%string -> ev <> ""%string ->
  exists r s', DeliverEvent d true R now ids t ev (Some body) s = (r, is_ok r, s') /\
    (let s1 := with_deliveries (deliveries s ++ imap (queued now t ev body ids) (targets t ev s)) s in
     r = Ok (Z.of_nat (length (targets t ev s))) /\ s' = s1 \/
     r = Err ErrStore /\ (s' = s \/ d = ReplyLost /\ s' = s1)) /\
    (forall e, e ∈ targets t ev s <-> exists r, r ∈ endpoints s /\ ID (ep r) = e /\ TenantID (ep r) = t /\ Active (ep r) = true /\
       oauth_client_id r = None /\ (Events (ep r) = [] \/ ev ∈ Events (ep r))) /\
    (d = Delivered -> t ∈ tenants R -> (forall i j, ids i = ids j -> i = j) -> (forall i, ids i ∉ dID <$> deliveries s) -> is_ok r = true).
Proof.
  intros Ht Hev. destruct (deliver_rows d R now ids t ev body s Ht Hev) as (r & s' & E & Hrows & Hok). exists r, s'.
  split_and!; [done|done|apply elem_of_targets|]. intros Hd Hten Hinj Hnew. apply Hok; [done|]. apply enqueue_goes_through; [done| |done|done].
  intros x (y & -> & [Hy _]%elem_of_filterb)%list_elem_of_fmap. apply existsb_elem. exists y. split; [done|apply String.eqb_refl].
Qed.

(** ** One tick *)
Section one_tick.
Context (C : crypto) (t0 t1 : Z) (held : gset string).
Hypothesis short : t1 < t0 + 30 * Second.

(** An iteration whose transactions go through between [t0] and [t1], while
    other transactions lock no row outside [held]. *)
Definition calm (E : env) : Prop :=
  e_claim E = Delivered /\ e_final E = Delivered /\ e_locked E ⊆ held /\ t0 <= e_db E <= t1 /\ t0 <= e_db' E.

Record ready (s : DB) : Prop := mkReady {
  rd_ids : NoDup (dID <$> deliveries s);
  rd_rows : forall d, d ∈ deliveries s -> 0 <= Attempts d /\ endpoint_of s d <> None /\ (due t1 d = true -> Attempts d + 1 < 2 ^ 31);
}.

(** The row after one attempt. *)
Definition attempted (now : Z) (k : claim) (a : Z * option string) (d : Delivery) : Delivery := settle now k a (bump d).

Lemma attempted_not_due now k a d : 0 <= k_attempts k -> t0 <= now -> due t1 (attempted now k a d) = false.
Proof.
  intros Hk Hn. unfold due, attempted, settle. destruct (success a); [done|]. destruct (Z.leb_spec MaxAttempts (k_attempts k + 1)); [done|].
  cbn. apply andb_false_iff. right. apply Z.leb_gt. unfold retry_delay, Minute, MaxAttempts in *.
  destruct (Z.eqb_spec (k_attempts k + 1) 1); [lia|]. destruct (Z.eqb_spec (k_attempts k + 1) 2); unfold Second, Millisecond in *; lia.
Qed.

Lemma due_mono d t t' : t <= t' -> due t d = true -> due t' d = true.
Proof. unfold due. intros Ht H. breflect. rewrite bool_decide_eq_true_2 by done. cbn. apply Z.leb_le. lia. Qed.

Lemma update_twice {A} (p : A -> bool) f g l : (forall a, p (f a) = p a) -> update p g (update p f l) = update p (fun a => g (f a)) l.
Proof.
  intros H. unfold update. rewrite <- list_fmap_compose. apply list_fmap_ext. intros i a _. simpl. destruct (p a) eqn:E; [by rewrite H, E|by rewrite E].
Qed.

Lemma next_due_none now locked s : (forall d, d ∈ deliveries s -> endpoint_of s d <> None) -> next_due now locked s = None ->
  forall d, d ∈ deliveries s -> due now d = true -> dID d ∈ locked.
Proof.
  intros He Hn d Hd E. unfold next_due in Hn. match type of Hn with least _ ?l = _ => pose proof (least_spec NextRetryAt l) as Hl end. rewrite Hn in Hl.
  destruct (decide (dID d ∈ locked)) as [|Hk]; [done|]. exfalso. apply (not_elem_of_nil d). rewrite <- Hl. rewrite elem_of_filterb.
  split; [done|]. rewrite E, bool_decide_eq_false_2 by done. specialize (He d Hd). by destruct (endpoint_of s d).
Qed.

(** One iteration finds nothing due, or settles one due row. *)
Lemma deliverNext_calm E s : calm E -> ready s ->
  deliverNext C E true s = (Ok false, None, s) /\ (forall d, d ∈ deliveries s -> due (e_db E) d = true -> dID d ∈ held) \/
  exists x k a sent, x ∈ deliveries s /\ due t1 x = true /\ 0 <= k_attempts k /\ (forall p, sent = Some p -> p.1 = dID x) /\
    deliverNext C E true s = (Ok true, sent, with_deliveries (update (has_id (dID x)) (attempted (e_db' E) k a) (deliveries s)) s).
Proof.
  intros (Hc & Hf & Hl & Ht & Ht') [Hnd Hrows]. unfold deliverNext, claim_next. cbn [negb]. rewrite Hc, Hf.
  destruct (next_due (e_db E) (e_locked E) s) as [x|] eqn:En; unfold BeginFunc; rewrite En.
  - right. unfold next_due in En. match type of En with least _ ?l = _ => pose proof (least_spec NextRetryAt l) as Hx end. rewrite En in Hx.
    destruct Hx as [Hx _]. rewrite elem_of_filterb in Hx. destruct Hx as [Hx Hp]. breflect.
    assert (due t1 x = true) as Hd by (by apply (due_mono x (e_db E)); [lia|]). destruct (Hrows x Hx) as (Hatt & He & Hb). specialize (Hb Hd).
    destruct (endpoint_of s x) as [e|]; [|done]. destruct (Z.leb_spec (2 ^ 31) (Attempts x + 1)); [lia|].
    destruct (send _ _ _ _ _ _ _) as [rq a] eqn:Es. exists x, (claim_of x e), a, ((fun q => (dID x, q)) <$> rq).
    split_and!; [done|done|done| |].
    + intros p Hp. destruct rq; [|done]. by injection Hp as <-.
    + rewrite record_outcome_settle. cbn [fst snd deliveries with_deliveries k_id claim_of]. unfold with_deliveries at 1. cbn [endpoints]. by rewrite update_twice.
  - left. split; [done|]. intros d Hd Hdue. apply Hl. apply (next_due_none (e_db E) (e_locked E) s); [|done..]. intros d' Hd'. by apply Hrows.
Qed.

Lemma attempted_same now k a d : dID (attempted now k a d) = dID d /\ Attempts (attempted now k a d) = Attempts d + 1 /\ EndpointID (attempted now k a d) = EndpointID d.
Proof. unfold attempted, settle. destruct (success a); [done|]. by destruct (_ <=? _). Qed.

Lemma ready_attempted now k a x s : ready s -> 0 <= k_attempts k -> t0 <= now ->
  ready (with_deliveries (update (has_id (dID x)) (attempted now k a) (deliveries s)) s).
Proof.
  intros [Hnd Hrows] Hk Hn. split; cbn.
  - rewrite update_proj; [done|]. intros d. apply attempted_same.
  - intros d (y & Hy & ->)%elem_of_update. destruct (Hrows y Hy) as (H0 & He & Hb). destruct (has_id _ y); [|done].
    destruct (attempted_same now k a y) as (_ & Ea & Ee). split_and!; [lia| |].
    + unfold endpoint_of in *. rewrite Ee. exact He.
    + rewrite attempted_not_due by done. done.
Qed.

(** C34: a tick ends and settles what is due.  For one worker on its own,
    while no call of the service and no other worker changes the tables and
    its transactions go through within thirty seconds of [t0]: the loop ends
    after at most one iteration per due row and a last one, posts no delivery
    twice and only due ones, attempts a row at most once, and every row due at
    [t0] was attempted unless another transaction held its lock. *)
Theorem tick_settles Es s :
  Forall calm Es -> ready s -> (tally (due t1) (deliveries s) < length Es)%nat ->
  exists l s', tick C Es s = Some (l, s') /\ NoDup l.*1 /\
    (forall x, x ∈ l.*1 -> exists d, d ∈ deliveries s /\ dID d = x /\ due t1 d = true) /\
    (forall d, d ∈ deliveries s' -> due t0 d = true -> dID d ∈ held) /\
    (forall d, d ∈ deliveries s -> exists d', d' ∈ deliveries s' /\ dID d' = dID d /\
       (d' = d \/ due t1 d = true /\ Attempts d' = Attempts d + 1) /\ (due t0 d = true -> dID d ∉ held -> Attempts d' = Attempts d + 1)).
Proof.
  intros Hes. revert s. induction Hes as [|E Es HE Hes IH]; intros s Hr Hlen; [cbn in Hlen; lia|]. cbn [tick].
  destruct (deliverNext_calm E s HE Hr) as [[-> Hnone]|(x & k & a & sent & Hx & Hdue & Hk & Hsent & ->)].
  - assert (forall d, d ∈ deliveries s -> due t0 d = true -> dID d ∈ held) as Hall.
    { intros d Hd Hdue. destruct HE as (_ & _ & _ & Ht & _). apply Hnone; [done|]. apply (due_mono d t0); [lia|done]. }
    exists [], s. split_and!; [done|constructor|set_solver|done|]. intros d Hd. exists d. split_and!; [done|done|by left|]. intros Hdue Hh. by destruct Hh; apply Hall.
  - destruct HE as (_ & _ & _ & _ & Ht'). set (s1 := with_deliveries _ s).
    destruct (IH s1) as (l & s' & Htick & Hnd & Hl & Hno & Hrows); [by apply ready_attempted| |].
    { assert (tally (due t1) (deliveries s1) < tally (due t1) (deliveries s))%nat; [|cbn in Hlen; lia]. eapply tally_update_lt; [|exact Hx|apply String.eqb_refl|done].
      intros d _. by apply attempted_not_due. }
    assert (forall y, y ∈ l.*1 -> y <> dID x /\ exists d, d ∈ deliveries s /\ dID d = y /\ due t1 d = true) as Hl'.
    { intros y (d & (d0 & Hd & ->)%elem_of_update & <- & Hd1)%Hl. unfold has_id in *. destruct (String.eqb_spec (dID d0) (dID x)).
      - by rewrite attempted_not_due in Hd1 by done.
      - eauto. }
    rewrite Htick. exists (option_list sent ++ l), s'. split_and!; [done| | |done|].
    + destruct sent as [p|]; cbn; [|done]. rewrite (Hsent p eq_refl). constructor; [|done]. intros Hin%Hl'. by destruct Hin.
    + intros y. destruct sent as [p|]; cbn; [|apply Hl']. rewrite (Hsent p eq_refl). intros [->|Hy]%elem_of_cons; [eauto|by apply Hl'].
    + intros d Hd. destruct (Hrows (if has_id (dID x) d then attempted (e_db' E) k a d else d)) as (d' & Hin & Hid & Hd'); [apply elem_of_update; eauto|].
      exists d'. unfold has_id in *. destruct (String.eqb_spec (dID d) (dID x)) as [Ex|]; [|by destruct Hd'].
      destruct (attempted_same (e_db' E) k a d) as (E1 & E2 & _).
      assert (d = x) as -> by (eapply (NoDup_proj_eq dID); [apply Hr|done|done|done]).
      assert (Attempts d' = Attempts x + 1) as Hat. { destruct Hd' as [[->|[Hd' _]] _]; [done|]. by rewrite attempted_not_due in Hd' by done. }
      split_and!; [done|congruence|by right|done].
Qed.
End one_tick.

(** ** Examples *)
Module WebhookExamples.
Definition K : crypto :=
  mkCrypto (fun _ => repeat 7 32) (fun k m => take 32 ((fun c => Z.of_N (Ascii.N_of_ascii c)) <$> String.list_ascii_of_string (m +:+ k)) ++
    repeat 0 (32 - String.length (m +:+ k))).
Definition ids0 : refs := mkRefs {["t"%string]} ∅ ∅.
Definition accepts : net := mkNet (fun _ => None) (1700000000 * Second) (Some [1; 2]) "" (fun _ => Answer 200).
Definition refuses : net := mkNet (fun _ => None) (1700000000 * Second) (Some [1; 2]) "" (fun _ => NoAnswer "refused").
Definition hook : endpoint_row := mkEndpointRow (mkEndpoint "e" "t" "https://x" [] true SigningV1 0 0) "h" None None.
Definition job : Delivery := mkDelivery "d" "t" "e" EventEmailReceived "{}" StPending 0 "" 0 0 0 None.
Definition T : DB := mkDB [hook] [job].
Definition quiet (N : net) : env := mkEnv Delivered (10 * Second) ∅ N Delivered (11 * Second).

Lemma K_bytes k m : length (hmac K k m) = 32%nat /\ Forall is_byte (hmac K k m).
Proof.
  assert (forall x, length (String.list_ascii_of_string x) = String.length x) as Hl by (induction x; cbn; congruence).
  split.
  - cbn. rewrite length_app, length_take, length_fmap, repeat_length, Hl. lia.
  - apply Forall_app. split.
    + apply Forall_take, Forall_fmap, Forall_true. intros c. cbn. unfold is_byte. pose proof (Ascii.N_ascii_bounded c). lia.
    + apply Forall_forall. intros x ->%list_elem_of_In%repeat_spec. unfold is_byte. lia.
Qed.


(** The step an event makes, and when it may happen. *)
Definition next (s : sys) (e : event) : sys :=
  match e with
  | EvTime t => mkSys (tables s) t (pods s) (posts s) (accepted s) (lost s) (drawn s)
  | EvOp o => with_tables (run_op K ids0 (clock s) o (tables s)) s
  | EvClaim w d locked =>
      let c := claim_next d (clock s) locked (tables s) in
      match c.1 with
      | Ok k => with_pod w (Sending k) (with_tables c.2 s)
      | Err _ =>
          mkSys c.2 (clock s) (pods s) (posts s) (accepted s)
            (note (match d with ReplyLost => dID <$> next_due (clock s) locked (tables s) | _ => None end) (lost s)) (drawn (with_tables c.2 s))
      end
  | EvSend w N =>
      match pods s !! w with
      | Some (Sending k) =>
          let c := send K N (k_url k) (k_secret k) (k_version k) (k_event k) (k_payload k) in
          mkSys (tables s) (clock s) (<[w := Answered k c.2]> (pods s)) (posts s ++ option_list ((fun q => (k_id k, q)) <$> c.1))
            (note (if success c.2 then Some (k_id k) else None) (accepted s)) (lost s) (drawn s)
      | _ => s
      end
  | EvFinish w d =>
      match pods s !! w with
      | Some (Answered k a) =>
          mkSys (record_outcome d (clock s) k a (tables s)) (clock s) (<[w := Idle]> (pods s)) (posts s) (accepted s)
            (note (match d with RequestLost => Some (k_id k) | _ => None end) (lost s)) (drawn s)
      | _ => s
      end
  | EvCrash w => s
  end.

Definition enabled (s : sys) (e : event) : Prop :=
  match e with
  | EvTime t => clock s <= t
  | EvOp o => new_ids o (drawn s)
  | EvClaim w _ _ => pods s !! w = Some Idle
  | EvSend w _ => exists k, pods s !! w = Some (Sending k)
  | EvFinish w _ => exists k a, pods s !! w = Some (Answered k a)
  | EvCrash _ => False
  end.

Lemma next_step s e : enabled s e -> wstep K ids0 s e (next s e).
Proof.
  destruct e; cbn [enabled next]; intros H.
  - by constructor.
  - by constructor.
  - destruct (claim_next d (clock s) locked (tables s)) as [r T'] eqn:E. by apply step_claim.
  - destruct H as [k H]. rewrite H. destruct (send _ _ _ _ _ _ _) as [rq a] eqn:E. by eapply step_send.
  - destruct H as (k & a & H). rewrite H. by apply step_finish.
  - done.
Qed.

Fixpoint plays (s : sys) (es : list event) : Prop :=
  match es with [] => True | e :: es => enabled s e /\ plays (next s e) es end.

Lemma plays_steps es : forall s, plays s es -> steps (wstep K ids0) s es (foldl next s es).
Proof. induction es as [|e es IH]; intros s; cbn; [constructor|]. intros [H1 H2]. econstructor; [by apply next_step|by apply IH]. Qed.

(** A tenant registers an endpoint and an event is queued. *)
Definition setup : list event :=
  [EvOp (OpRegister Delivered (Some [5]) "e" "t" "https://x" [] "" []);
   EvOp (OpDeliver Delivered (fun n => "d" +:+ pretty n) "t" EventEmailReceived (Some "{}"%string))].
Definition attempt (w : nat) (N : net) : list event := [EvClaim w Delivered ∅; EvSend w N; EvFinish w Delivered].
(** Both pods claim before either finishes. *)
Definition race : list event :=
  setup ++ [EvClaim 0 Delivered ∅; EvClaim 1 Delivered ∅; EvSend 0 accepts; EvSend 1 accepts].
(** The third attempt succeeds while another pod makes a fourth that fails. *)
Definition overwrite : list event :=
  setup ++ attempt 0 refuses ++ [EvTime Minute] ++ attempt 0 refuses ++ [EvTime Hour; EvClaim 0 Delivered ∅; EvClaim 1 Delivered ∅;
    EvSend 0 accepts; EvSend 1 refuses; EvFinish 0 Delivered; EvFinish 1 Delivered].
End WebhookExamples.
Import WebhookExamples.

Ltac play :=
  repeat (split; [first [by vm_compute | by eexists; vm_compute | by eexists _, _; vm_compute
                        | intros ?; set_solver | (intros H; vm_compute in H; discriminate H)]|]); exact I.

Lemma race_plays : plays (boot 2 0) race.
Proof. play. Qed.
Lemma overwrite_plays : plays (boot 2 0) overwrite.
Proof. play. Qed.

(** Claiming commits without a lease: two pods post one delivery at the same
    instant, each successfully. *)
Theorem claim_takes_no_lease :
  exists es s, steps (wstep K ids0) (boot 2 0) es s /\ clock s = 0 /\ posted s "d0" = 2 /\ accepted s = ["d0"; "d0"]%string /\ lost s = [].
Proof.
  exists race, (foldl next (boot 2 0) race). split; [apply plays_steps, race_plays|]. vm_compute. auto.
Qed.

(** The update after an answer ignores the status: a late failure marks a
    delivered row failed. *)
Theorem late_failure_overwrites_delivered :
  exists es s, steps (wstep K ids0) (boot 2 0) es s /\ "d0"%string ∈ accepted s /\ lost s = [] /\
    (fun d => (dID d, Status d)) <$> deliveries (tables s) = [("d0"%string, StFailed)].
Proof.
  exists overwrite, (foldl next (boot 2 0) overwrite). split; [apply plays_steps, overwrite_plays|].
  split; [|vm_compute; auto]. apply (proj1 (bool_decide_eq_true _)). vm_compute. reflexivity.
Qed.

(** An iteration whose final update is lost. *)
Definition lossy : env := mkEnv Delivered (10 * Second) ∅ accepts RequestLost (11 * Second).
Definition tried (n : Z) : DB := mkDB [hook] [mkDelivery "d" "t" "e" EventEmailReceived "{}" StPending n "" 0 0 0 None].

Lemma lossy_round n : n + 1 < 2 ^ 31 -> exists p, deliverNext K lossy true (tried n) = (Ok true, Some p, tried (n + 1)).
Proof.
  intros Hn. unfold deliverNext, claim_next. cbn [negb lossy e_claim e_db e_locked BeginFunc].
  change (next_due (10 * Second) ∅ (tried n)) with (Some (mkDelivery "d" "t" "e" EventEmailReceived "{}" StPending n "" 0 0 0 None)).
  cbn [endpoint_of]. change (endpoint_of (tried n) _) with (Some hook). cbn [Attempts].
  destruct (Z.leb_spec (2 ^ 31) (n + 1)); [lia|]. eexists. reflexivity.
Qed.

(** While final updates are lost a tick posts one delivery over and over,
    past [MaxAttempts], and does not end. *)
Theorem lost_updates_repost n : Z.of_nat n < 2 ^ 31 - 1 -> tick K (replicate n lossy) (tried 0) = None.
Proof.
  intros Hn. assert (forall m, 0 <= m -> m + Z.of_nat n < 2 ^ 31 - 1 -> tick K (replicate n lossy) (tried m) = None) as H; [|by apply H].
  clear Hn. induction n as [|n IH]; intros m Hm Hmn; [done|]. cbn [replicate tick].
  destruct (lossy_round m) as [p Hp]; [lia|]. rewrite Hp, IH by lia. done.
Qed.

(** The handlers take the tenant from the path: a caller of another tenant
    registers an endpoint and the tenant's events are queued for it. *)
Theorem foreign_caller_receives_events :
  let r := mkHRequest "other" "t" "" (Some ("https://evil"%string, [], ""%string)) 0 in
  let s := (register K ids0 Delivered (Some [1]) "e" 0 r (mkDB [] [])).2 in
  let '(n, _, s') := DeliverEvent Delivered true ids0 0 (fun n => "d" +:+ pretty n) "t" EventEmailReceived (Some "{}"%string) s in
  n = Ok 1 /\ (fun e => (URL (ep e), TenantID (ep e))) <$> endpoints s' = [("https://evil", "t")]%string /\
  EndpointID <$> deliveries s' = ["e"%string].
Proof. vm_compute. auto. Qed.

Lemma sent_request_verifies_witness :
  exists rq a, send K accepts "https://x" "h" SigningV1 EventEmailReceived "{}" = (Some rq, a) /\
    VerifySignature K "h" (rq_signature rq) (rq_body rq) = true.
Proof.
  destruct (send K accepts "https://x" "h" SigningV1 EventEmailReceived "{}") as [[rq|] a] eqn:E; [|by vm_compute in E].
  exists rq, a. split; [reflexivity|].
  apply (sent_request_verifies K K_bytes accepts "https://x" "h" SigningV1 EventEmailReceived "{}" rq a); [by vm_compute|by vm_compute|exact E].
Defined.

Lemma signature_binds_witness :
  let h := SignPayload K "h" (5 * Second) "{}" in
  VerifySignature K "h" h "{}" = true /\ ("{}" = "{}" \/ exists m m', m <> m' /\ hmac K "h" m = hmac K "h" m')%string.
Proof.
  assert (VerifySignature K "h" (SignPayload K "h" (5 * Second) "{}") "{}" = true) as H by (vm_compute; reflexivity).
  split; [exact H|]. exact (signature_binds K K_bytes "h" (SignPayload K "h" (5 * Second) "{}") "{}" "{}" H H).
Defined.

Lemma posts_bounded_witness : posted (foldl next (boot 2 0) race) "d0" = 2 /\ posted (foldl next (boot 2 0) race) "d0" <= 4.
Proof.
  split; [vm_compute; reflexivity|].
  exact (posts_bounded K ids0 2 0 race (foldl next (boot 2 0) race) (plays_steps race (boot 2 0) race_plays) "d0").
Defined.

Lemma claims_stay_in_tenant_witness :
  let s := foldl next (boot 2 0) setup in
  exists k T', claim_next Delivered 0 ∅ (tables s) = (Ok k, T') /\ exists r, r ∈ endpoints (tables s) /\ k_url k = URL (ep r).
Proof.
  cbn zeta. set (s := foldl next (boot 2 0) setup).
  assert (steps (wstep K ids0) (boot 2 0) setup s) as Hs by (apply plays_steps; play).
  destruct (claim_next Delivered 0 ∅ (tables s)) as [[k|e] T'] eqn:E; [|by vm_compute in E]. exists k, T'. split; [reflexivity|].
  destruct (claims_stay_in_tenant K ids0 2 0 setup s Hs) as (_ & _ & H). destruct (H Delivered 0 ∅ k T' E) as (r & x & H1 & _ & _ & _ & _ & _ & _ & H2 & _).
  exists r. split; [exact H1|exact H2].
Defined.

Lemma fan_out_witness :
  exists r s', DeliverEvent Delivered true ids0 0 (fun n => "x" +:+ pretty n) "t" EventEmailReceived (Some "{}"%string) T = (r, is_ok r, s') /\
    targets "t" EventEmailReceived T = ["e"%string] /\ is_ok r = true.
Proof.
  destruct (fan_out Delivered ids0 0 (fun n => "x" +:+ pretty n) "t" EventEmailReceived "{}" T) as (r & s' & E & _ & _ & Hok); [by vm_compute|by vm_compute|].
  exists r, s'. split; [exact E|]. split; [reflexivity|]. apply Hok; [reflexivity|by vm_compute| |].
  - intros i j H. apply string_prefix_inj in H. exact (inj pretty _ _ H).
  - intros i H. cbn in H. apply list_elem_of_singleton in H. discriminate H.
Defined.

Lemma tick_settles_witness :
  exists l s', tick K [quiet accepts; quiet accepts] T = Some (l, s') /\ l.*1 = ["d"%string] /\ forall d, d ∈ deliveries s' -> due (5 * Second) d = true -> dID d ∈ (∅ : gset string).
Proof.
  destruct (tick_settles K (5 * Second) (20 * Second) ∅ ltac:(by vm_compute) [quiet accepts; quiet accepts] T) as (l & s' & E & _ & _ & H & _).
  - repeat constructor; by vm_compute.
  - split; [by vm_compute; repeat constructor; set_solver|]. intros d ->%list_elem_of_singleton. split; [by vm_compute|]. split; [by vm_compute|by vm_compute].
  - vm_compute. repeat constructor.
  - exists l, s'. split; [exact E|]. split; [|exact H]. replace l with (l, s').1 by reflexivity.
    assert (Some (l, s').1 = fst <$> tick K [quiet accepts; quiet accepts] T) as Hl by (rewrite E; reflexivity).
    vm_compute in Hl. injection Hl as Hl. cbn [fst]. rewrite Hl. reflexivity.
Defined.
