(* ===== verification/Integrations.v ===== *)
(** * Integration framework ([internal/integrations])

    Webhooks third-party clients register with an OAuth2 access token: what a
    token may subscribe to ([scope.go]), ownership of endpoints, and the
    dispatcher, which asks the token tables again and charges a quota per
    client ([service.go]); the HTTP handlers ([handlers.go]).  The state is
    that of [OAuth] and [Webhooks] and the quota column of [oauth_clients];
    quotas are counted in Valkey. *)

From S2P Require Import Prelude Text Table Valkey RateLimit OAuth Webhooks.

Local Open Scope Z_scope.
Local Open Scope go_scope.

Definition DefaultClientDispatchPerHour : Z := 3600.

(** ** Scopes ([scope.go]) *)
Definition EventRequiredScope : gmap string string :=
  {[ EventEmailReceived := OAuth.ScopeReadMail; EventEmailBounced := OAuth.ScopeReadMail;
     EventEmailComplaint := OAuth.ScopeReadMail; EventCalendarCreated := OAuth.ScopeReadCalendar;
     EventCalendarUpdated := OAuth.ScopeReadCalendar; EventMigrationDone := OAuth.ScopeReadMail ]}.

Definition EventAllowedForClient (grantedScopes : list string) (eventType : string) : bool :=
  match EventRequiredScope !! eventType with
  | None => false
  | Some required => if String.eqb required "" then false else OAuth.ScopesInclude grantedScopes required
  end.

Fixpoint FilterEventsForClient (grantedScopes requested : list string) : list string * list string :=
  match requested with
  | [] => ([], [])
  | ev :: l =>
      let '(allowed, denied) := FilterEventsForClient grantedScopes l in
      if EventAllowedForClient grantedScopes ev then (ev :: allowed, denied) else (allowed, ev :: denied)
  end.

(** ** State *)

(** [quotas] is [oauth_clients.dispatch_quota_per_hour], by client row. *)
Record store := mkStore { oauth : OAuth.DB; hooks : Webhooks.DB; quotas : gmap string Z }.
Definition with_hooks (x : Webhooks.DB) (s : store) : store := mkStore (oauth s) x (quotas s).

Definition refs_of (o : OAuth.DB) : refs :=
  mkRefs (OAuth.tenants o) (list_to_set ((fun c => OAuth.ID (c_client c)) <$> OAuth.clients o)) (OAuth.users o).

Inductive ierror :=
| Required (what : string) | ErrInsufficientScope (denied : list string) | ErrWebhookNotFound
| Register (e : werror) | Store (e : werror) | FireFailed (e : werror) | MarshalPayload | AdminDispatch (e : werror)
| LoadFailed (e : werror) | EnqueueFailed (n total : Z) (last : werror).

Record SubscribeResult := mkSubscribe { sr_Endpoint : Endpoint; sr_Secret : string; sr_Denied : list string }.

(** Configuration after the defaults of [NewService]. *)
Record ServiceConfig := mkServiceConfig { LimiterStore : bool; PerHour : Z }.

Definition NewService (pool webhooks oauth limiter : bool) (perHour : Z) : result ierror ServiceConfig :=
  if negb pool then Err (Required "Pool")
  else if negb webhooks then Err (Required "Webhooks")
  else if negb oauth then Err (Required "OAuth")
  else Ok (mkServiceConfig limiter (if perHour <=? 0 then DefaultClientDispatchPerHour else perHour)).

(** ** Subscriptions *)
Section service.
Context (C : crypto).

Definition RegisterWebhookForClient (d : delivery) (rand : option (list Z)) (id : string) (dbnow : Z)
    (tenantID oauthClientID userID : string) (grantedScopes : list string) (url : string) (requestedEvents : list string)
    (signingVersion : string) (s : store) : result ierror SubscribeResult * store :=
  if blank tenantID then (Err (Required "tenantID"), s)
  else if blank oauthClientID then (Err (Required "oauthClientID"), s)
  else if blank userID then (Err (Required "userID"), s)
  else if blank url then (Err (Required "url"), s)
  else match requestedEvents with
  | [] => (Err (Required "requestedEvents"), s)
  | _ =>
      let '(allowed, denied) := FilterEventsForClient grantedScopes requestedEvents in
      match allowed with
      | [] => (Err (ErrInsufficientScope denied), s)
      | _ =>
          let '(r, h) := RegisterWebhook C d rand (refs_of (oauth s)) id dbnow tenantID url allowed signingVersion
                           [mkOwner oauthClientID userID] (hooks s) in
          (match r with
           | Err e => Err (Register e)
           | Ok (e, secret) => Ok (mkSubscribe e secret denied)
           end, with_hooks h s)
      end
  end.

Definition is_owner (tenantID oauthClientID : string) (r : endpoint_row) : bool :=
  String.eqb (Webhooks.TenantID (ep r)) tenantID && OAuth.is_id (oauth_client_id r) oauthClientID.

Definition lift {A} (r : result werror A) : result ierror A := match r with Ok a => Ok a | Err e => Err (Store e) end.

Definition ListWebhooksForClient (newest_first : list Endpoint -> list Endpoint) (d : delivery) (tenantID oauthClientID : string)
    (s : store) : result ierror (list Endpoint) :=
  if blank tenantID || blank oauthClientID then Err (Required "tenantID + oauthClientID")
  else lift (Webhooks.query d (fun h =>
    let? _ := Webhooks.SetTenantGUC tenantID in
    Ok (newest_first (ep <$> List.filter (is_owner tenantID oauthClientID) (endpoints h)))) (hooks s)).

Definition owned_row (tenantID oauthClientID webhookID : string) (r : endpoint_row) : bool :=
  String.eqb (Webhooks.ID (ep r)) webhookID && is_owner tenantID oauthClientID r.

Definition DeleteWebhookForClient (d : delivery) (tenantID oauthClientID webhookID : string) (s : store)
    : result ierror unit * store :=
  if blank tenantID || blank oauthClientID || blank webhookID then (Err (Required "tenantID + oauthClientID + webhookID"), s)
  else
    let '(r, h) := BeginFunc (Store Webhooks.ErrStore) d (fun h =>
      let? _ := lift (Webhooks.SetTenantGUC tenantID) in
      if existsb (owned_row tenantID oauthClientID webhookID) (endpoints h)
      then Ok (tt, delete_endpoints (owned_row tenantID oauthClientID webhookID) h)
      else Err ErrWebhookNotFound) (hooks s) in
    (r, with_hooks h s).

(** [d] and [d'] are the outcomes of the check and of [TestFire]. *)
Definition TestFireForClient (d d' : delivery) (dbnow : Z) (id ping tenantID oauthClientID webhookID : string) (s : store)
    : result ierror Z * store :=
  if blank tenantID || blank oauthClientID || blank webhookID then (Err (Required "tenantID + oauthClientID + webhookID"), s)
  else
    match lift (Webhooks.query d (fun h =>
      let? _ := Webhooks.SetTenantGUC tenantID in
      Ok (existsb (fun r => owned_row tenantID oauthClientID webhookID r && Webhooks.Active (ep r)) (endpoints h))) (hooks s)) with
    | Err e => (Err e, s)
    | Ok false => (Err ErrWebhookNotFound, s)
    | Ok true =>
        let '(r, h) := TestFire d' true (refs_of (oauth s)) dbnow id ping tenantID webhookID (hooks s) in
        (match r with Ok n => Ok n | Err e => Err (FireFailed e) end, with_hooks h s)
    end.

(** ** Dispatch *)
Record integrationSubscriber := mkSub {
  sub_EndpointID : string; sub_OAuthClientID : string; sub_UserID : string; QuotaPerHour : option Z; GrantedScopes : list string;
}.

(** The tokens the correlated subquery ranges over. *)
Definition granting (now : Z) (r : endpoint_row) (a : access_row) : bool :=
  String.eqb (t_TenantID a) (Webhooks.TenantID (ep r)) && OAuth.is_id (oauth_client_id r) (t_ClientID a)
  && OAuth.is_id (user_id r) (t_UserID a) && unset (t_RevokedAt a) && (now <? t_ExpiresAt a).

(** [array_agg(DISTINCT s)]; its order is not observed. *)
Definition granted_scopes (now : Z) (o : OAuth.DB) (r : endpoint_row) : list string :=
  remove_dups (List.filter (granting now r) (access o) ≫= t_Scopes).

Definition integration_target (tenantID eventType : string) (r : endpoint_row) : bool :=
  String.eqb (Webhooks.TenantID (ep r)) tenantID && Webhooks.Active (ep r) && negb (unset (oauth_client_id r)) && subscribed eventType r.

Definition subscribers (dbnow : Z) (tenantID eventType : string) (s : store) : list integrationSubscriber :=
  List.filter (integration_target tenantID eventType) (endpoints (hooks s)) ≫= fun r =>
    (fun c => mkSub (Webhooks.ID (ep r)) (default ""%string (oauth_client_id r)) (default ""%string (user_id r))
                (quotas s !! OAuth.ID (c_client c)) (granted_scopes dbnow (oauth s) r))
    <$> List.filter (fun c => OAuth.is_id (oauth_client_id r) (OAuth.ID (c_client c)) && OAuth.Active (c_client c)) (OAuth.clients (oauth s)).

Definition loadIntegrationSubscribers (d : delivery) (dbnow : Z) (tenantID eventType : string) (s : store)
    : result werror (list integrationSubscriber) :=
  match d with
  | Delivered => let? _ := Webhooks.SetTenantGUC tenantID in Ok (subscribers dbnow tenantID eventType s)
  | _ => Err Webhooks.ErrStore
  end.

Context {V : Type} `{VC : ValkeyCounter V}.

(** [now.Truncate(time.Hour)]: the zero time is a whole number of hours from
    the epoch. *)
Definition hour_of (now : Z) : Z := now / Hour * Hour.
Definition quota_key (clientID : string) (now : Z) : string :=
  "kmail:integ:dispatch:" +:+ clientID +:+ ":" +:+ pretty (Unix (hour_of now)).
Definition quota_ttl : Z := Hour + 5 * Minute.

(** [None] when the delivery may go now, or the boundary it is deferred to. *)
Definition checkQuota (cfg : ServiceConfig) (d : delivery) (now sv : Z) (clientID : string) (quotaPerHour : Z) (v : V) : option Z * V :=
  if negb (LimiterStore cfg) || (quotaPerHour <=? 0) then (None, v)
  else
    let '(r, v) := IncrWithTTL d sv (quota_key clientID now) quota_ttl v in
    (match r with
     | Err _ => None
     | Ok count => if quotaPerHour <? count then Some (hour_of now + Hour) else None
     end, v).

Definition insertIntegrationDelivery (d : delivery) (R : refs) (dbnow : Z) (id tenantID endpointID eventType body : string)
    (deferred : option Z) (h : Webhooks.DB) : result werror unit * Webhooks.DB :=
  BeginFunc Webhooks.ErrStore d (fun h =>
    let? _ := Webhooks.SetTenantGUC tenantID in
    let? h := insert_delivery R dbnow id tenantID endpointID eventType body (default dbnow deferred) h in
    Ok (tt, h)) h.

(** The surroundings of one subscriber: the counter's call, Go's clock and the
    server's, the insert with its clock and id. *)
Record senv := mkSenv { q_d : delivery; q_now : Z; q_sv : Z; i_d : delivery; i_db : Z; i_id : string }.

(** The loop: deliveries queued, failures and the last error. *)
Fixpoint dispatch_each (cfg : ServiceConfig) (R : refs) (tenantID eventType body : string) (Es : nat -> senv)
    (subs : list integrationSubscriber) (n failed : Z) (last : option werror) (h : Webhooks.DB) (v : V)
    : Z * Z * option werror * Webhooks.DB * V :=
  match subs with
  | [] => (n, failed, last, h, v)
  | sub :: subs =>
      let E := Es O in
      let Es := fun i => Es (S i) in
      if negb (EventAllowedForClient (GrantedScopes sub) eventType)
      then dispatch_each cfg R tenantID eventType body Es subs n failed last h v
      else
        let quota := default (PerHour cfg) (QuotaPerHour sub) in
        let '(deferred, v) := checkQuota cfg (q_d E) (q_now E) (q_sv E) (sub_OAuthClientID sub) quota v in
        let '(r, h) := insertIntegrationDelivery (i_d E) R (i_db E) (i_id E) tenantID (sub_EndpointID sub) eventType body deferred h in
        match r with
        | Err e => dispatch_each cfg R tenantID eventType body Es subs n (failed + 1) (Some e) h v
        | Ok _ => dispatch_each cfg R tenantID eventType body Es subs (n + 1) failed last h v
        end
  end.

(** A count together with an error, as Go returns them. *)
Definition dispatchIntegrationOwned (cfg : ServiceConfig) (d : delivery) (dbnow : Z) (Es : nat -> senv) (tenantID eventType body : string)
    (s : store) (v : V) : (Z * option ierror) * store * V :=
  match loadIntegrationSubscribers d dbnow tenantID eventType s with
  | Err e => ((0, Some (LoadFailed e)), s, v)
  | Ok subs =>
      let '(n, failed, last, h, v) := dispatch_each cfg (refs_of (oauth s)) tenantID eventType body Es subs 0 0 None (hooks s) v in
      ((n, if 0 <? failed then EnqueueFailed failed (Z.of_nat (length subs)) <$> last else None), with_hooks h s, v)
  end.

(** The admin fan-out first ([da], [ids], [dbnow]), then the integrations. *)
Definition DispatchEvent (cfg : ServiceConfig) (da d : delivery) (dbnow dbnow' : Z) (ids : nat -> string) (Es : nat -> senv)
    (tenantID eventType : string) (payload : option string) (s : store) (v : V) : (Z * option ierror) * store * V :=
  if blank tenantID || blank eventType then ((0, Some (Required "tenantID + eventType")), s, v)
  else match payload with
  | None => ((0, Some MarshalPayload), s, v)
  | Some body =>
      let '(admin, _, h) := DeliverEvent da true (refs_of (oauth s)) dbnow ids tenantID eventType (Some body) (hooks s) in
      let s := with_hooks h s in
      match admin with
      | Err e => ((0, Some (AdminDispatch e)), s, v)
      | Ok n =>
          let '((integ, err), s, v) := dispatchIntegrationOwned cfg d dbnow' Es tenantID eventType body s v in
          ((match err with Some _ => n | None => n + integ end, err), s, v)
      end
  end.
End service.

(** ** Handlers ([handlers.go]) *)

Definition integrationEligibleScopes : list string :=
  sort_strings (remove_dups (List.filter (fun sc => negb (String.eqb sc "")) (map_to_list EventRequiredScope).*2)).

Definition hasAnyIntegrationScope (a : AccessTokenContext) : bool := existsb (HasScope a) integrationEligibleScopes.

Inductive iresponse :=
| JSONError (status : Z) (code : string) | Denied (l : list string) | Created (r : SubscribeResult)
| Listed (l : list Endpoint) | NoContent | Accepted (enqueued : Z).

(** [tokenCtx] is what the bearer middleware left in the context. *)
Definition requireAnyIntegrationScope {A} (tokenCtx : option AccessTokenContext) (refuse : iresponse -> A) (next : AccessTokenContext -> A) : A :=
  match tokenCtx with
  | None => refuse (JSONError 401 "invalid_token")
  | Some a => if negb (hasAnyIntegrationScope a) then refuse (JSONError 403 "insufficient_scope") else next a
  end.

(** [body] is the decoded JSON. *)
Definition register (C : crypto) (d : delivery) (rand : option (list Z)) (id : string) (dbnow : Z) (tokenCtx : option AccessTokenContext)
    (body : option (string * list string * string)) (s : store) : iresponse * store :=
  requireAnyIntegrationScope tokenCtx (fun x => (x, s)) (fun a =>
    match body with
    | None => (JSONError 400 "invalid_request", s)
    | Some (url, events, signingVersion) =>
        if blank url then (JSONError 400 "invalid_request", s)
        else match events with
        | [] => (JSONError 400 "invalid_request", s)
        | _ =>
            let '(r, s) := RegisterWebhookForClient C d rand id dbnow (tc_TenantID a) (tc_ClientID a) (tc_UserID a) (tc_Scopes a) url
                             events signingVersion s in
            (match r with
             | Err (ErrInsufficientScope denied) => Denied denied
             | Err _ => JSONError 500 "server_error"
             | Ok x => Created x
             end, s)
        end
    end).

Definition list_handler (newest_first : list Endpoint -> list Endpoint) (d : delivery) (tokenCtx : option AccessTokenContext) (s : store)
    : iresponse :=
  requireAnyIntegrationScope tokenCtx id (fun a =>
    match ListWebhooksForClient newest_first d (tc_TenantID a) (tc_ClientID a) s with
    | Err _ => JSONError 500 "server_error"
    | Ok l => Listed l
    end).

Definition del (d : delivery) (tokenCtx : option AccessTokenContext) (webhookID : string) (s : store) : iresponse * store :=
  requireAnyIntegrationScope tokenCtx (fun x => (x, s)) (fun a =>
    let '(r, s) := DeleteWebhookForClient d (tc_TenantID a) (tc_ClientID a) webhookID s in
    (match r with
     | Err ErrWebhookNotFound => JSONError 404 "not_found"
     | Err _ => JSONError 500 "server_error"
     | Ok _ => NoContent
     end, s)).

Definition testFire (d d' : delivery) (dbnow : Z) (id ping : string) (tokenCtx : option AccessTokenContext) (webhookID : string) (s : store)
    : iresponse * store :=
  requireAnyIntegrationScope tokenCtx (fun x => (x, s)) (fun a =>
    let '(r, s) := TestFireForClient d d' dbnow id ping (tc_TenantID a) (tc_ClientID a) webhookID s in
    (match r with
     | Err ErrWebhookNotFound => JSONError 404 "not_found"
     | Err _ => JSONError 500 "server_error"
     | Ok n => Accepted n
     end, s)).

Example eligible_scopes : integrationEligibleScopes = [OAuth.ScopeReadCalendar; OAuth.ScopeReadMail].
Proof. vm_compute. reflexivity. Qed.

(** ** Scopes *)

(** [sc] grants what [required] asks for. *)
Definition covers (sc required : string) : Prop := sc = required \/ isWriteScopeImplyingRead sc required = true.

Lemma ScopesInclude_iff granted want : OAuth.ScopesInclude granted want = true <-> exists sc, sc ∈ granted /\ covers sc want.
Proof.
  unfold covers. induction granted as [|sc l IH]; cbn [OAuth.ScopesInclude].
  - split; [done|]. by intros (? & ?%not_elem_of_nil & _).
  - destruct (String.eqb_spec sc want) as [->|Hne]; [split; [|done]; intros _; exists want; split; [apply elem_of_cons|]; auto|].
    destruct (isWriteScopeImplyingRead sc want) eqn:E; [split; [|done]; intros _; exists sc; split; [apply elem_of_cons|]; auto|].
    rewrite IH. split; intros (x & Hx & Hc); exists x; (split; [|done]); [by right|].
    apply elem_of_cons in Hx as [->|?]; [|done]. destruct Hc; congruence.
Qed.

Lemma allowed_iff granted ev :
  EventAllowedForClient granted ev = true <->
  exists required sc, EventRequiredScope !! ev = Some required /\ sc ∈ granted /\ covers sc required.
Proof.
  unfold EventAllowedForClient. destruct (EventRequiredScope !! ev) as [rq|] eqn:E; [|naive_solver].
  assert (String.eqb rq "" = false) as ->.
  { unfold EventRequiredScope in E. rewrite !lookup_insert_Some, lookup_singleton_Some in E.
    repeat (destruct E as [[_ <-]|[_ E]]; [done|]). destruct E as [_ <-]. done. }
  rewrite ScopesInclude_iff. naive_solver.
Qed.

Lemma filter_events granted l :
  FilterEventsForClient granted l =
  (List.filter (EventAllowedForClient granted) l, List.filter (fun ev => negb (EventAllowedForClient granted ev)) l).
Proof. induction l as [|ev l IH]; [done|]. cbn. rewrite IH. by destruct (EventAllowedForClient granted ev). Qed.

(** ** Dispatch *)
Section dispatch.
Context {V : Type} `{VC : ValkeyCounter V}.
Implicit Types (h : Webhooks.DB) (v : V) (s : store).

Lemma insert_integration_spec d R now id t e ev body next h :
  let '(r, h') := insertIntegrationDelivery d R now id t e ev body next h in
  let row := mkDelivery id t e ev body StPending 0 "" 0 (default now next) now None in
  h' = h /\ is_ok r = false \/ h' = with_deliveries (deliveries h ++ [row]) h /\ (is_ok r = true \/ d = ReplyLost).
Proof.
  unfold insertIntegrationDelivery, insert_delivery, BeginFunc, Webhooks.SetTenantGUC.
  destruct d, (String.eqb t ""); cbn; auto; destruct (_ && _); cbn; auto.
Qed.

Definition allowed_subs (ev : string) (subs : list integrationSubscriber) : list integrationSubscriber :=
  List.filter (fun sub => EventAllowedForClient (GrantedScopes sub) ev) subs.

(** What the loop appends: rows for a subsequence of the allowed subscribers. *)
Lemma dispatch_each_spec cfg R t ev body subs : forall Es n failed last h v n' failed' last' h' v',
  dispatch_each cfg R t ev body Es subs n failed last h v = (n', failed', last', h', v') ->
  exists l, h' = with_deliveries (deliveries h ++ l) h /\ sublist (EndpointID <$> l) (sub_EndpointID <$> allowed_subs ev subs) /\
    (forall x, x ∈ l -> dTenantID x = t /\ EventType x = ev /\ Payload x = body /\ Status x = StPending /\ Attempts x = 0) /\
    n' + failed' = n + failed + Z.of_nat (length (allowed_subs ev subs)) /\ n' - n <= Z.of_nat (length l) <= n' - n + (failed' - failed) /\
    failed <= failed' /\ (failed' = failed -> last' = last) /\ (failed < failed' -> last' <> None).
Proof.
  induction subs as [|sub subs IH]; intros Es n failed last h v n' failed' last' h' v' H; cbn [dispatch_each] in H.
  - injection H as <- <- <- <- <-. exists []. rewrite app_nil_r. split; [by destruct h|].
    split_and!; [constructor|set_solver|cbn;lia|cbn; lia|cbn; lia|lia|done|lia].
  - unfold allowed_subs. cbn [List.filter]. fold (allowed_subs ev subs). destruct (EventAllowedForClient (GrantedScopes sub) ev); cbn [negb] in H.
    2: { exact (IH _ _ _ _ _ _ _ _ _ _ _ H). }
    destruct (checkQuota _ _ _ _ _ _ v) as [deferred v1].
    pose proof (insert_integration_spec (i_d (Es O)) R (i_db (Es O)) (i_id (Es O)) t (sub_EndpointID sub) ev body deferred h) as Hi.
    destruct (insertIntegrationDelivery _ _ _ _ _ _ _ _ _ h) as [r h1]. cbn zeta in Hi.
    set (row := mkDelivery _ _ _ _ _ _ _ _ _ _ _ _) in Hi.
    assert (exists l0, h1 = with_deliveries (deliveries h ++ l0) h /\ (l0 = [] /\ is_ok r = false \/ l0 = [row])) as (l0 & -> & Hl0).
    { destruct Hi as [[-> Hr]|[-> _]]; [exists []; rewrite app_nil_r; split; [by destruct h|by left]|exists [row]; auto]. }
    assert (l0 = [] -> is_ok r = false) as Hr by (intros ->; destruct Hl0 as [[_ ?]|?]; done).
    assert (exists n1 f1 la1, dispatch_each cfg R t ev body (fun i => Es (S i)) subs n1 f1 la1 (with_deliveries (deliveries h ++ l0) h) v1 = (n', failed', last', h', v') /\
      (is_ok r = true /\ n1 = n + 1 /\ f1 = failed /\ la1 = last \/ is_ok r = false /\ n1 = n /\ f1 = failed + 1 /\ la1 <> None)) as (n1 & f1 & la1 & H1 & Hc).
    { destruct r; do 3 eexists; (split; [exact H|]); [left|right]; split_and!; done. }
    destruct (IH _ _ _ _ _ _ _ _ _ _ _ H1) as (l & -> & Hsub & Hrows & Hn & Hlen & Hf & Heq & Hlt). exists (l0 ++ l). split.
    { cbn. by rewrite app_assoc. }
    assert (length l0 = 0%nat /\ is_ok r = false \/ length l0 = 1%nat) as Hll by (destruct Hl0 as [[-> ?]| ->]; auto). split_and!.
    + rewrite fmap_app, fmap_cons. destruct Hl0 as [[-> _]| ->]; cbn; by constructor.
    + intros x [Hx|Hx]%elem_of_app; [|by apply Hrows]. destruct Hl0 as [[-> _]| ->]; [by apply not_elem_of_nil in Hx|].
      apply list_elem_of_singleton in Hx. by subst.
    + cbn. destruct Hc as [(_ & -> & -> & _)|(_ & -> & -> & _)]; lia.
    + rewrite length_app. destruct Hc as [(Ho & -> & -> & _)|(_ & -> & -> & _)], Hll as [[? ?]|?]; try lia. congruence.
    + rewrite length_app. destruct Hc as [(Ho & -> & -> & _)|(_ & -> & -> & _)], Hll as [[? ?]|?]; lia.
    + destruct Hc as [(_ & -> & -> & _)|(_ & -> & -> & _)]; lia.
    + intros E. destruct Hc as [(_ & -> & -> & ->)|(_ & -> & -> & _)]; [by apply Heq|lia].
    + intros E. destruct Hc as [(_ & -> & -> & ->)|(_ & -> & -> & Hla)]; [by apply Hlt|].
      destruct (decide (failed' = failed + 1)) as [E1|]; [by rewrite (Heq E1)|apply Hlt; lia].
Qed.

(** The subscribers come from active endpoints of active clients. *)
Lemma subscriber_row now t ev s sub : sub ∈ subscribers now t ev s ->
  exists r c, r ∈ endpoints (hooks s) /\ c ∈ OAuth.clients (oauth s) /\ integration_target t ev r = true /\
    oauth_client_id r = Some (OAuth.ID (c_client c)) /\ OAuth.Active (c_client c) = true /\
    sub_EndpointID sub = Webhooks.ID (ep r) /\ sub_OAuthClientID sub = OAuth.ID (c_client c) /\
    QuotaPerHour sub = quotas s !! OAuth.ID (c_client c) /\ GrantedScopes sub = granted_scopes now (oauth s) r.
Proof.
  unfold subscribers. intros (r & Hs & Hr)%list_elem_of_bind. apply list_elem_of_fmap in Hs as (c & -> & Hc).
  rewrite elem_of_filterb in Hr. rewrite elem_of_filterb in Hc. destruct Hr as [Hr Ht], Hc as [Hc Hp]. breflect.
  unfold OAuth.is_id in *. destruct (oauth_client_id r) as [x|] eqn:E; [|done]. breflect. subst. exists r, c. cbn. by rewrite E.
Qed.

Lemma granted_live now o r sc : sc ∈ granted_scopes now o r -> exists a, a ∈ access o /\ granting now r a = true /\ sc ∈ t_Scopes a.
Proof.
  unfold granted_scopes. rewrite elem_of_remove_dups. intros (a & Hsc & Ha)%list_elem_of_bind.
  rewrite elem_of_filterb in Ha. exists a. tauto.
Qed.

(** What [DispatchEvent] appends to the queue: the admin fan-out's rows, then
    those of allowed subscribers. *)
Lemma DispatchEvent_rows cfg da d now now' ids Es t ev p s v r s' v' :
  DispatchEvent cfg da d now now' ids Es t ev p s v = (r, s', v') ->
  oauth s' = oauth s /\ endpoints (hooks s') = endpoints (hooks s) /\
  exists l1 l2, deliveries (hooks s') = deliveries (hooks s) ++ l1 ++ l2 /\
    (forall x, x ∈ l1 -> EndpointID x ∈ targets t ev (hooks s)) /\
    (forall x, x ∈ l2 -> dTenantID x = t /\ EventType x = ev /\
       exists sub, sub ∈ subscribers now' t ev s /\ EventAllowedForClient (GrantedScopes sub) ev = true /\ EndpointID x = sub_EndpointID sub).
Proof.
  unfold DispatchEvent. destruct (blank t || blank ev) eqn:Eb.
  { intros [= _ <- _]. split_and!; [done|done|]. exists [], []. rewrite !app_nil_r. set_solver. }
  apply orb_false_elim in Eb as [Ht Hev]. destruct p as [body|].
  2: { intros [= _ <- _]. split_and!; [done|done|]. exists [], []. rewrite !app_nil_r. set_solver. }
  assert (t <> "" /\ ev <> "")%string as [Ht' Hev'] by (split; intros ->; done).
  destruct (deliver_rows da (refs_of (oauth s)) now ids t ev body (hooks s) Ht' Hev') as (ra & h1 & -> & Hh1 & _).
  assert (exists l1, h1 = with_deliveries (deliveries (hooks s) ++ l1) (hooks s) /\ forall x, x ∈ l1 -> EndpointID x ∈ targets t ev (hooks s)) as (l1 & -> & Hl1).
  { assert (h1 = hooks s \/ h1 = with_deliveries (deliveries (hooks s) ++ imap (queued now t ev body ids) (targets t ev (hooks s))) (hooks s)) as [->| ->]
      by (destruct Hh1 as [[_ ->]|[_ [->|[_ ->]]]]; auto).
    - exists []. rewrite app_nil_r. split; [by destruct (hooks s)|set_solver].
    - eexists. split; [done|]. intros x (i & e & -> & Hi)%elem_of_lookup_imap. cbn. by eapply list_elem_of_lookup_2. }
  clear Hh1. destruct ra as [n|e]; [|intros [= _ <- _]; cbn; split_and!; [done|done|]; exists l1, []; rewrite app_nil_r; set_solver].
  unfold dispatchIntegrationOwned. unfold loadIntegrationSubscribers, Webhooks.SetTenantGUC. rewrite (proj2 (String.eqb_neq _ _) Ht').
  assert (forall x, x ∈ ([] : list Delivery) -> dTenantID x = t /\ EventType x = ev /\ exists sub, sub ∈ subscribers now' t ev s /\
    EventAllowedForClient (GrantedScopes sub) ev = true /\ EndpointID x = sub_EndpointID sub) as Hnil by (intros x ?%not_elem_of_nil; done).
  destruct d; cbn [rbind]; try (intros [= _ <- _]; cbn; split_and!; [done|done|]; exists l1, []; rewrite app_nil_r; by split_and!).
  set (s1 := with_hooks _ s). change (subscribers now' t ev s1) with (subscribers now' t ev s).
  destruct (dispatch_each _ _ _ _ _ _ _ _ _ _ _ _) as [[[[n2 f2] la2] h2] v2] eqn:Ed.
  destruct (dispatch_each_spec _ _ _ _ _ _ _ _ _ _ _ _ _ _ _ _ _ Ed) as (l2 & -> & Hsub & Hrows & _). intros [= _ <- _]. cbn.
  split_and!; [done|done|]. exists l1, l2. split_and!; [by rewrite app_assoc|done|]. intros x Hx. destruct (Hrows x Hx) as (E1 & E2 & _). split_and!; [done|done|].
  assert (EndpointID x ∈ sub_EndpointID <$> allowed_subs ev (subscribers now' t ev s)) as Hin.
  { eapply elem_of_submseteq; [|by apply sublist_submseteq]. by apply list_elem_of_fmap_2. }
  apply list_elem_of_fmap in Hin as (sub & E & Hin). unfold allowed_subs in Hin. rewrite elem_of_filterb in Hin. naive_solver.
Qed.

(** C13: nothing reaches an integration without a live grant.  A delivery that
    [DispatchEvent] queues for an endpoint an OAuth2 client owns has that
    endpoint's tenant, the endpoint is active and subscribed, its client is
    active, and the endpoint's user holds an unrevoked, unexpired access token
    of that client one of whose scopes covers the scope the event requires. *)
Theorem dispatch_needs_live_grant cfg da d now now' ids Es t ev p s v r s' v' x e c :
  NoDup ((fun r => Webhooks.ID (ep r)) <$> endpoints (hooks s)) ->
  DispatchEvent cfg da d now now' ids Es t ev p s v = (r, s', v') ->
  x ∈ deliveries (hooks s') -> x ∉ deliveries (hooks s) ->
  e ∈ endpoints (hooks s) -> Webhooks.ID (ep e) = EndpointID x -> oauth_client_id e = Some c ->
  dTenantID x = t /\ EventType x = ev /\ Webhooks.TenantID (ep e) = t /\ Webhooks.Active (ep e) = true /\ subscribed ev e = true /\
  (exists k, k ∈ OAuth.clients (oauth s) /\ OAuth.ID (c_client k) = c /\ OAuth.Active (c_client k) = true) /\
  exists a sc required, a ∈ access (oauth s) /\ t_ClientID a = c /\ user_id e = Some (t_UserID a) /\ t_TenantID a = t /\
    t_RevokedAt a = None /\ now' < t_ExpiresAt a /\ EventRequiredScope !! ev = Some required /\ sc ∈ t_Scopes a /\ covers sc required.
Proof.
  intros Hnd Hd Hx Hnew He Hid Hc. destruct (DispatchEvent_rows _ _ _ _ _ _ _ _ _ _ _ _ _ _ _ Hd) as (_ & _ & l1 & l2 & Hrows & H1 & H2).
  rewrite Hrows in Hx. apply elem_of_app in Hx as [Hx|[Hx|Hx]%elem_of_app]; [done| |].
  - exfalso. apply H1 in Hx. unfold targets in Hx. apply list_elem_of_fmap in Hx as (e' & E & He'). rewrite elem_of_filterb in He'.
    destruct He' as [He' Hp]. assert (e = e') as <- by (eapply (NoDup_proj_eq (fun r => Webhooks.ID (ep r))); [exact Hnd|done|done|cbn; congruence]).
    unfold admin_target in Hp. rewrite Hc in Hp. by rewrite andb_false_r in Hp.
  - destruct (H2 x Hx) as (E1 & E2 & sub & Hs & Hal & E3). destruct (subscriber_row _ _ _ _ _ Hs) as (e' & k & He' & Hk & Htg & Ho & Hact & E4 & _ & _ & E5).
    assert (e = e') as <- by (eapply (NoDup_proj_eq (fun r => Webhooks.ID (ep r))); [exact Hnd|done|done|cbn; congruence]).
    unfold integration_target in Htg. breflect. rewrite Hc in Ho. injection Ho as Ho. split_and!; try done; [by exists k|].
    rewrite E5 in Hal. apply allowed_iff in Hal as (rq & sc & Hrq & Hsc & Hcov). apply granted_live in Hsc as (a & Ha & Hg & Hsc).
    exists a, sc, rq. unfold granting in Hg. rewrite Hc in Hg. cbn in Hg. breflect. unfold OAuth.is_id in *. destruct (user_id e) as [u|]; [|done].
    breflect. subst. destruct (t_RevokedAt a); [done|]. split_and!; congruence.
Qed.

(** One subscriber's failure does not hold up the others: whatever the
    outcome of the single inserts, each subscriber whose scope allows the event
    is either counted as queued or as failed, at most one row is written for
    each of them and at least one for each counted as queued, and the call
    reports an error exactly when one failed. *)
Theorem dispatch_isolates_failures cfg dbnow Es t ev body s v n err s' v' :
  t <> ""%string -> dispatchIntegrationOwned cfg Delivered dbnow Es t ev body s v = ((n, err), s', v') ->
  let want := allowed_subs ev (subscribers dbnow t ev s) in
  exists l, deliveries (hooks s') = deliveries (hooks s) ++ l /\ sublist (EndpointID <$> l) (sub_EndpointID <$> want) /\
    n <= Z.of_nat (length l) /\
    match err with
    | None => n = Z.of_nat (length want) /\ length l = length want
    | Some (EnqueueFailed failed total _) =>
        0 < failed /\ total = Z.of_nat (length (subscribers dbnow t ev s)) /\ n + failed = Z.of_nat (length want)
    | Some _ => False
    end.
Proof.
  intros Ht. unfold dispatchIntegrationOwned, loadIntegrationSubscribers, Webhooks.SetTenantGUC. rewrite (proj2 (String.eqb_neq _ _) Ht). cbn [rbind].
  destruct (dispatch_each _ _ _ _ _ _ _ _ _ _ _ _) as [[[[n2 f2] la2] h2] v2] eqn:Ed.
  destruct (dispatch_each_spec _ _ _ _ _ _ _ _ _ _ _ _ _ _ _ _ _ Ed) as (l & -> & Hsub & _ & Hn & Hlen & Hf & Heq & Hlt). intros [= <- <- <- _]. cbn zeta.
  exists l. split_and!; [done|done|cbn in *; lia|]. destruct (Z.ltb_spec 0 f2) as [Hp|Hz].
  - destruct la2 as [e|]; [|by specialize (Hlt Hp)]. cbn. split_and!; lia.
  - split; lia.
Qed.
End dispatch.

(** ** Subscriptions *)

(** A subscription stays within the grant.  When registration succeeds the
    new endpoint belongs to the token's client and user, lists exactly the
    requested events its scopes allow, in order and at least one, and the rest
    is reported as denied; the stored hash is that of the returned secret; no
    admin fan-out ever targets the endpoint. *)
Theorem subscription_within_grant C d rand id now t c u granted url req ver s res s' :
  RegisterWebhookForClient C d rand id now t c u granted url req ver s = (Ok res, s') ->
  exists row, endpoints (hooks s') = endpoints (hooks s) ++ [row] /\ deliveries (hooks s') = deliveries (hooks s) /\ oauth s' = oauth s /\
    ep row = sr_Endpoint res /\ Webhooks.TenantID (ep row) = t /\ oauth_client_id row = Some c /\ user_id row = Some u /\
    Events (ep row) = List.filter (EventAllowedForClient granted) req /\ Events (ep row) <> [] /\
    sr_Denied res = List.filter (fun ev => negb (EventAllowedForClient granted ev)) req /\ secret_hash row = hashSecret C (sr_Secret res) /\
    forall t' ev, admin_target t' ev row = false.
Proof.
  unfold RegisterWebhookForClient. destruct (blank t); [done|]. destruct (blank c) eqn:Ec; [done|]. destruct (blank u) eqn:Eu; [done|].
  destruct (blank url); [done|]. rewrite filter_events. destruct req as [|ev req]; [done|]. set (l := ev :: req).
  destruct (List.filter (EventAllowedForClient granted) l) as [|a al] eqn:Ea; [done|].
  assert (forall x, blank x = false -> NULLIF (coerceStr (ptr x)) = Some x) as Hp.
  { intros x Hx. unfold NULLIF, ptr. destruct (String.eqb_spec x "") as [->|Hne]; [done|]. cbn. by destruct (String.eqb_spec x ""). }
  unfold RegisterWebhook. destruct (String.eqb t "" || String.eqb url ""); [done|]. cbn [length Nat.ltb Nat.leb].
  set (sv := if String.eqb ver "" then SigningV1 else ver). destruct (_ && _); [done|]. destruct (randSecret rand) as [secret|]; [|done].
  cbn [OAuthClientID UserID]. rewrite (Hp c Ec), (Hp u Eu). unfold BeginFunc, Webhooks.SetTenantGUC.
  destruct d; [|done|]; (destruct (String.eqb t ""); cbn [rbind]; [done|]); (destruct (_ && _); [|done]); [|done].
  intros [= <- <-]. eexists. cbn. split_and!; try done. intros t' ev'. unfold admin_target. cbn. by rewrite andb_false_r.
Qed.

(** To a client, the webhooks of others do not exist.  Where no endpoint of
    that id belongs to the client and tenant, deleting and test-firing change
    nothing and answer that it is not found, and what a client lists is its
    own. *)
Theorem foreign_webhook_is_absent d now id ping t c w s :
  blank t = false -> blank c = false -> blank w = false ->
  (forall r, r ∈ endpoints (hooks s) -> owned_row t c w r = false) ->
  (DeleteWebhookForClient Delivered t c w s = (Err ErrWebhookNotFound, s) /\ (DeleteWebhookForClient d t c w s).2 = s /\
   TestFireForClient Delivered d now id ping t c w s = (Err ErrWebhookNotFound, s) /\ forall d', (TestFireForClient d' d now id ping t c w s).2 = s) /\
  forall nf l, (forall k, nf k ≡ₚ k) -> ListWebhooksForClient nf d t c s = Ok l ->
    forall e, e ∈ l <-> exists r, r ∈ endpoints (hooks s) /\ ep r = e /\ Webhooks.TenantID e = t /\ oauth_client_id r = Some c.
Proof.
  intros Ht Hc Hw Hno. assert (t <> ""%string) as Ht' by (by intros ->). assert (with_hooks (hooks s) s = s) as Hs by (by destruct s).
  assert (existsb (owned_row t c w) (endpoints (hooks s)) = false) as E1 by (by apply existsb_false).
  assert (existsb (fun r => owned_row t c w r && Webhooks.Active (ep r)) (endpoints (hooks s)) = false) as E2
    by (apply existsb_false; intros r Hr; by rewrite Hno).
  split.
  - unfold DeleteWebhookForClient, TestFireForClient, Webhooks.query, Webhooks.SetTenantGUC, BeginFunc, lift. rewrite Ht, Hc, Hw.
    rewrite (proj2 (String.eqb_neq _ _) Ht'). cbn [orb rbind]. rewrite E1, E2. split_and!.
    + by rewrite Hs.
    + destruct d; cbn; by rewrite Hs.
    + done.
    + by intros [].
  - intros nf l Hnf. unfold ListWebhooksForClient, Webhooks.query, Webhooks.SetTenantGUC, lift. rewrite Ht, Hc, (proj2 (String.eqb_neq _ _) Ht'). cbn [orb rbind].
    destruct d; [|done|done]. intros [= <-] e. rewrite (Hnf _), list_elem_of_fmap. unfold is_owner, OAuth.is_id. split.
    + intros (r & -> & [Hr Hp]%elem_of_filterb). breflect. exists r. destruct (oauth_client_id r); [|done]. breflect. by subst.
    + intros (r & Hr & <- & Ht1 & Hc1). exists r. split; [done|]. apply elem_of_filterb. rewrite Ht1, Hc1, !String.eqb_refl. done.
Qed.

(** ** Quotas *)
Section quota.
Context {V : Type} `{VL : ValkeyLaws Z V} `{VC : !ValkeyCounter V} `{CL : !ValkeyCounterLaws V}.
Implicit Types (v : V).

Definition ttl_ms : Z := Milliseconds quota_ttl.

(** A charge: client, the two clocks, the outcome of the call, the quota. *)
Record charge := mkCharge { g_client : string; g_now : Z; g_sv : Z; g_d : delivery; g_quota : Z }.

Definition charge_step (cfg : ServiceConfig) (x : charge) (v : V) : option Z * V :=
  checkQuota cfg (g_d x) (g_now x) (g_sv x) (g_client x) (g_quota x) v.

Definition in_hour (c : string) (hour : Z) (x : charge) : Prop := g_client x = c /\ hour_of (g_now x) = hour.
#[local] Instance in_hour_dec c hour x : Decision (in_hour c hour x) := ltac:(unfold in_hour; apply _).

(** Charges of the client in the hour that the counter answered and let go. *)
Fixpoint immediate (cfg : ServiceConfig) (c : string) (hour : Z) (l : list charge) (v : V) : Z :=
  match l with
  | [] => 0
  | x :: l =>
      (if decide (in_hour c hour x /\ g_d x = Delivered /\ (charge_step cfg x v).1 = None) then 1 else 0)
      + immediate cfg c hour l (charge_step cfg x v).2
  end.

Fixpoint in_order (sv : Z) (l : list charge) : Prop :=
  match l with [] => True | x :: l => sv <= g_sv x /\ in_order (g_sv x) l end.

Lemma charge_counted cfg c hour B L n x v :
  LimiterStore cfg = true -> B <= g_sv x -> counted ttl_ms B (quota_key c hour) n (g_sv x) v -> n <= L ->
  (in_hour c hour x -> g_sv x < B + ttl_ms /\ 0 < g_quota x <= L) -> hour_of hour = hour ->
  exists n', counted ttl_ms B (quota_key c hour) n' (g_sv x) (charge_step cfg x v).2 /\ n' <= L /\
    n + (if decide (in_hour c hour x /\ g_d x = Delivered /\ (charge_step cfg x v).1 = None) then 1 else 0) = n'.
Proof.
  intros Hcfg Hb Hn HL Hx Hh. pose proof (counted_incrWithTTL ttl_ms B _ n (g_sv x) (quota_key (g_client x) (g_now x)) v eq_refl Hb Hn) as [Hkeep Hone].
  unfold charge_step, checkQuota, IncrWithTTL. rewrite Hcfg. cbn [negb orb]. fold ttl_ms. change (ttl_ms <=? 0) with false.
  case_decide as Hd.
  - destruct Hd as ([Hc Ho] & Hdel & Hres). destruct (Hx (conj Hc Ho)) as [Hlt Hq]. destruct (Z.leb_spec (g_quota x) 0); [lia|].
    assert (quota_key (g_client x) (g_now x) = quota_key c hour) as Ek by (unfold quota_key; by rewrite Hc, Ho, Hh).
    destruct (Hone Ek Hlt) as [Hr Hcnt]. rewrite Hdel in *. unfold remote in *. destruct (incrWithTTLScript _ _ _ v) as [m v'].
    cbn [fst snd] in *. exists (n + 1). split_and!; [done| |done]. destruct (Z.ltb_spec (g_quota x) m); [done|lia].
  - exists n. split_and!; [|done|lia]. destruct (g_quota x <=? 0); [done|]. unfold remote.
    destruct (g_d x), (incrWithTTLScript _ _ _ v) as [m v']; cbn; [exact Hkeep|exact Hn|exact Hkeep].
Qed.

Lemma immediate_bound cfg c hour B L l :
  LimiterStore cfg = true -> hour_of hour = hour ->
  Forall (fun x => in_hour c hour x -> g_sv x < B + ttl_ms /\ 0 < g_quota x <= L) l ->
  forall sv n v, B <= sv -> in_order sv l -> counted ttl_ms B (quota_key c hour) n sv v -> n <= L -> n + immediate cfg c hour l v <= L.
Proof.
  intros Hcfg Hh. induction 1 as [|x l Hx Hl IH]; intros sv n v Hb Ho Hc HL; cbn [immediate]; [lia|]. destruct Ho as [Hs Ho].
  destruct (charge_counted cfg c hour B L n x v) as (n' & Hc' & HL' & E); [done|lia|by eapply counted_later|done|done|done|].
  specialize (IH (g_sv x) n' (charge_step cfg x v).2 ltac:(lia) Ho Hc' HL'). lia.
Qed.

(** A client's hourly quota holds.  Of the deliveries of one client in one
    hour, over any sequence of dispatches of all clients and pods with a
    monotone server clock, at most the quota are queued for immediate sending
    on the counter's word; the others are deferred.  The counter must outlive
    the hour: the calls of the hour reach the server within [ttl_ms] of [B]. *)
Theorem hourly_quota cfg c hour B L l v :
  LimiterStore cfg = true -> hour_of hour = hour -> 0 <= L -> all_ints B v -> vk_view v B (quota_key c hour) = None ->
  in_order B l -> Forall (fun x => in_hour c hour x -> g_sv x < B + ttl_ms /\ 0 < g_quota x <= L) l ->
  immediate cfg c hour l v <= L.
Proof.
  intros Hcfg Hh HL Hi Hv Ho Hl. apply (immediate_bound cfg c hour B L l Hcfg Hh Hl B 0 v); [lia|done| |done].
  split_and!; [done|lia|]. by left.
Qed.
End quota.

(** ** Examples *)
Module IntegrationExamples.
Definition H : crypto := mkCrypto (fun _ => repeat 7 32) (fun _ _ => repeat 9 32).
Definition L : libs := mkLibs (fun s => (fun c => Z.of_N (Ascii.N_of_ascii c)) <$> String.list_ascii_of_string s) (fun _ _ => false) (fun _ => None).
Definition app : Client := mkClient "c" "t" "app" ClientTypePublic "App" "" "" ["https://app/cb"%string] [OAuth.ScopeReadMail; OAuth.ScopeReadCalendar] true 0 0.
Definition token (id plain : string) (scopes : list string) (until : Z) : access_row :=
  mkAccess id "t" "c" "u" (hashToken L plain) scopes until None (Some "r"%string).
Definition fresh_refresh : refresh_row := mkRefresh "r" "t" "c" "u" "h" [OAuth.ScopeReadMail] None (30 * 24 * Hour) None.
Definition tables_with (l : list access_row) : OAuth.DB :=
  OAuth.mkDB {["t"%string]} {["u"%string]} [mkClientRow app None] [] [fresh_refresh] l.
Definition hook (id url : string) : endpoint_row :=
  mkEndpointRow (mkEndpoint id "t" url [EventEmailReceived] true SigningV1 0 0) "s" (Some "c"%string) (Some "u"%string).
Definition world (l : list access_row) : store := mkStore (tables_with l) (Webhooks.mkDB [hook "e" "https://app/hook"] []) ∅.
Definition cfg : ServiceConfig := mkServiceConfig true 3600.
Definition env0 (i : nat) : senv := mkSenv Delivered Minute 60000 Delivered Minute ("d" +:+ pretty i).
Definition fire (l : list access_row) (now : Z) :=
  DispatchEvent cfg Delivered Delivered now now (fun i => "a" +:+ pretty i) env0 "t" EventEmailReceived (Some "{}"%string) (world l)
    (∅ : gmap string (ventry Z)).
Definition queue (x : (Z * option ierror) * store * gmap string (ventry Z)) : (Z * option ierror) * list string :=
  (x.1.1, EndpointID <$> deliveries (hooks x.1.2)).
Definition wide : access_row := token "a1" "tok1" [OAuth.ScopeReadMail] Hour.
Definition narrow : access_row := token "a2" "tok2" [OAuth.ScopeReadCalendar] Hour.
End IntegrationExamples.
Import IntegrationExamples.

(** Consent given again with fewer scopes does not narrow what is dispatched
    while a wider token lives. *)
Theorem reconsent_does_not_narrow :
  queue (fire [wide; narrow] Minute) = ((1, None), ["e"%string]) /\ queue (fire [narrow] Minute) = ((0, None), []).
Proof. vm_compute. auto. Qed.

(** Revoking one token leaves the others of the user, and dispatch goes on. *)
Theorem revoking_one_token_keeps_dispatch :
  let other := token "a3" "tok3" [OAuth.ScopeReadMail] Hour in
  let '(r, o) := RevokeToken L Delivered Second app "tok1" (tables_with [wide; other]) in
  r = Ok tt /\ (t_RevokedAt <$> access o) = [Some Second; None] /\ queue (fire (access o) Minute) = ((1, None), ["e"%string]).
Proof. vm_compute. auto. Qed.

(** An integration whose access token ran out an hour after its last refresh
    loses events, though its refresh token still stands for the grant. *)
Theorem idle_grant_loses_events :
  queue (fire [wide] (2 * Hour)) = ((0, None), []) /\ (forall r, r ∈ refresh (tables_with [wide]) -> r_RevokedAt r = None /\ 2 * Hour < r_ExpiresAt r).
Proof. split; [vm_compute; reflexivity|]. intros r ->%list_elem_of_singleton. by vm_compute. Qed.

Lemma dispatch_needs_live_grant_witness :
  exists x a, x ∈ deliveries (hooks (fire [wide] Minute).1.2) /\ a ∈ access (tables_with [wide]) /\ Minute < t_ExpiresAt a.
Proof.
  destruct (fire [wide] Minute) as [[r s'] v'] eqn:E.
  assert (exists x, x ∈ deliveries (hooks s') /\ EndpointID x = "e"%string) as (x & Hx & Hid).
  { assert (deliveries (hooks (fire [wide] Minute).1.2) = [mkDelivery "d0" "t" "e" EventEmailReceived "{}" StPending 0 "" 0 Minute Minute None]) as Hq by (vm_compute; reflexivity).
    rewrite E in Hq. cbn [fst snd] in Hq. rewrite Hq. eexists. split; [apply list_elem_of_singleton; reflexivity|reflexivity]. }
  destruct (dispatch_needs_live_grant cfg Delivered Delivered Minute Minute (fun i => "a" +:+ pretty i) env0 "t" EventEmailReceived
    (Some "{}"%string) (world [wide]) ∅ r s' v' x (hook "e" "https://app/hook") "c") as (_ & _ & _ & _ & _ & _ & a & sc & rq & Ha & _ & _ & _ & _ & Hexp & _).
  - exact (NoDup_singleton "e"%string).
  - exact E.
  - exact Hx.
  - cbn. apply not_elem_of_nil.
  - apply list_elem_of_singleton. reflexivity.
  - symmetry. exact Hid.
  - reflexivity.
  - exists x, a. split; [exact Hx|]. split; [exact Ha|exact Hexp].
Defined.

Lemma dispatch_isolates_failures_witness :
  let s := mkStore (tables_with [wide]) (Webhooks.mkDB [hook "e" "x"; hook "f" "y"] []) ∅ in
  let Es i := mkSenv Delivered Minute 60000 (match i with O => RequestLost | _ => Delivered end) Minute ("d" +:+ pretty i) in
  let '((n, err), s', _) := dispatchIntegrationOwned cfg Delivered Minute Es "t" EventEmailReceived "{}" s (∅ : gmap string (ventry Z)) in
  (n, err) = (1, Some (EnqueueFailed 1 2 Webhooks.ErrStore)) /\ EndpointID <$> deliveries (hooks s') = ["f"%string] /\
  sublist (EndpointID <$> deliveries (hooks s')) ["e"; "f"]%string.
Proof.
  cbn zeta. set (s := mkStore _ _ _). set (Es := fun i => _).
  destruct (dispatchIntegrationOwned cfg Delivered Minute Es "t" EventEmailReceived "{}" s ∅) as [[[n err] s'] v'] eqn:E.
  destruct (dispatch_isolates_failures cfg Minute Es "t" EventEmailReceived "{}" s ∅ n err s' v' ltac:(by vm_compute) E) as (l & Hl & Hs & _).
  assert ((dispatchIntegrationOwned cfg Delivered Minute Es "t" EventEmailReceived "{}" s ∅).1.1 = (1, Some (EnqueueFailed 1 2 Webhooks.ErrStore)) /\
    EndpointID <$> deliveries (hooks (dispatchIntegrationOwned cfg Delivered Minute Es "t" EventEmailReceived "{}" s ∅).1.2) = ["f"%string]) as [H1 H2]
    by (vm_compute; auto).
  rewrite E in H1, H2. split; [exact H1|]. split; [exact H2|]. rewrite Hl. exact Hs.
Defined.

Lemma subscription_within_grant_witness :
  exists res s', RegisterWebhookForClient H Delivered (Some [1]) "n" 0 "t" "c" "u" [OAuth.ScopeReadMail] "https://app/2"
    [EventCalendarCreated; EventEmailBounced] "" (world []) = (Ok res, s') /\
    exists row, endpoints (hooks s') = endpoints (hooks (world [])) ++ [row] /\ Events (ep row) = [EventEmailBounced] /\ oauth_client_id row = Some "c"%string.
Proof.
  destruct (RegisterWebhookForClient H Delivered (Some [1]) "n" 0 "t" "c" "u" [OAuth.ScopeReadMail] "https://app/2"
    [EventCalendarCreated; EventEmailBounced] "" (world [])) as [[res|e] s'] eqn:E; [|vm_compute in E; discriminate E].
  exists res, s'. split; [reflexivity|].
  destruct (subscription_within_grant _ _ _ _ _ _ _ _ _ _ _ _ _ _ _ E) as (row & H1 & _ & _ & _ & _ & H2 & _ & H3 & _).
  exists row. split; [exact H1|]. split; [exact H3|exact H2].
Defined.

Lemma foreign_webhook_is_absent_witness :
  DeleteWebhookForClient Delivered "t" "other" "e" (world []) = (Err ErrWebhookNotFound, world []).
Proof.
  apply (foreign_webhook_is_absent Delivered 0 "d" "{}" "t" "other" "e" (world [])); [reflexivity|reflexivity|reflexivity|].
  intros r ->%list_elem_of_singleton. reflexivity.
Defined.

Definition three_charges : list charge :=
  [mkCharge "c" Minute 1000 Delivered 2; mkCharge "c" Minute 2000 Delivered 2; mkCharge "c" Minute 3000 Delivered 2].

Lemma hourly_quota_witness :
  immediate cfg "c" 0 three_charges (∅ : gmap string (ventry Z)) = 2 /\ immediate cfg "c" 0 three_charges (∅ : gmap string (ventry Z)) <= 2.
Proof.
  split; [vm_compute; reflexivity|]. apply (hourly_quota cfg "c" 0 0 2 three_charges ∅).
  - reflexivity.
  - reflexivity.
  - lia.
  - intros k. eexists. reflexivity.
  - reflexivity.
  - repeat split; cbn; lia.
  - repeat (apply Forall_cons; split; [intros _; cbn; split; [by vm_compute|lia]|]). constructor.
Defined.
