(* ===== verification/AdminAccess.v ===== *)
(** * Approvals and operator access ([internal/approval], [internal/adminproxy])

    Requests that a tenant approves or rejects, the gate in front of sensitive
    actions, and the reverse proxy through which operators reach a tenant's
    mailboxes for four hours after an approval.  Tables are lists in order of
    insertion; every service method is one transaction, except that a reason
    for a rejection is written by a second one.  [run] plays a history of
    calls and records the requests the proxy let through, the actions executed
    and the audit entries written. *)

From S2P Require Import Prelude Text Table.

Local Open Scope Z_scope.
Local Open Scope go_scope.

Inductive status := StatusPending | StatusApproved | StatusRejected | StatusExpired.
#[export] Instance status_eq_dec : EqDecision status.
Proof. solve_decision. Defined.

(** A row of [approval_requests]; a NULL approver reads as the empty text. *)
Record Request := mkRequest {
  ID : string; TenantID : string; RequesterID : string; Action : string; TargetResource : string; Status : status;
  ApproverID : string; Reason : string; CreatedAt : Z; ResolvedAt : option Z; ExpiresAt : Z;
}.

(** A row of [admin_access_sessions]. *)
Record AccessSession := mkSession {
  sID : string; sTenantID : string; ApprovalRequestID : string; AdminUserID : string; Scope : string; StartedAt : Z;
  sExpiresAt : Z; RevokedAt : option Z; ExpiredAt : option Z;
}.

(** [config] is [approval_config], by tenant and action. *)
Record DB := mkDB {
  tenants : gset string; requests : list Request; config : gmap (string * string) bool; sessions : list AccessSession;
}.
Definition with_requests x s := mkDB (tenants s) x (config s) (sessions s).
Definition with_config x s := mkDB (tenants s) (requests s) x (sessions s).
Definition with_sessions x s := mkDB (tenants s) (requests s) (config s) x.

Inductive aerror :=
| FieldsRequired | PoolNotConfigured | TenantRequired | EmptyTenantGUC | ErrNoRows | ErrStore
| NotApproved (st : status) | ErrNoExecutor | ExecutorFailed
| ErrNotApproved | ErrSessionExpired | ErrSessionRevoked.

Definition SetTenantGUC (tenantID : string) : result aerror unit :=
  if String.eqb tenantID "" then Err EmptyTenantGUC else Ok tt.

Definition query {A} (d : delivery) (f : DB -> result aerror A) (s : DB) : result aerror A :=
  match d with Delivered => f s | _ => Err ErrStore end.

Definition Days : Z := 24 * Hour.

(** ** Approvals ([approval/service.go]) *)
Section service.
Context (pool : bool).

Definition RequiresApproval (d : delivery) (tenantID action : string) (s : DB) : bool :=
  if negb pool || String.eqb tenantID "" then false
  else match query d (fun s =>
    let? _ := SetTenantGUC tenantID in
    match config s !! (tenantID, action) with Some b => Ok b | None => Err ErrNoRows end) s with
  | Err _ => false
  | Ok requires => requires
  end.

Definition CreateRequest (d : delivery) (id : string) (dbnow : Z) (tenantID requesterID action target : string) (s : DB)
    : result aerror Request * DB :=
  if String.eqb tenantID "" || String.eqb requesterID "" || String.eqb action "" then (Err FieldsRequired, s)
  else if negb pool then (Err PoolNotConfigured, s)
  else BeginFunc ErrStore d (fun s =>
    let? _ := SetTenantGUC tenantID in
    if bool_decide (tenantID ∈ tenants s) && negb (existsb (fun r => String.eqb (ID r) id) (requests s)) then
      let r := mkRequest id tenantID requesterID action target StatusPending "" "" dbnow None (dbnow + 7 * Days) in
      Ok (r, with_requests (requests s ++ [r]) s)
    else Err ErrStore) s.

Definition decided (st : status) (approverID : string) (now : Z) (r : Request) : Request :=
  mkRequest (ID r) (TenantID r) (RequesterID r) (Action r) (TargetResource r) st approverID (Reason r) (CreatedAt r) (Some now) (ExpiresAt r).
Definition with_reason (reason : string) (r : Request) : Request :=
  mkRequest (ID r) (TenantID r) (RequesterID r) (Action r) (TargetResource r) (Status r) (ApproverID r) reason (CreatedAt r) (ResolvedAt r) (ExpiresAt r).

Definition of_tenant (tenantID id : string) (r : Request) : bool := String.eqb (ID r) id && String.eqb (TenantID r) tenantID.
Definition open (tenantID id : string) (r : Request) : bool := of_tenant tenantID id r && bool_decide (Status r = StatusPending).

Definition resolve (d : delivery) (dbnow : Z) (tenantID approvalID approverID : string) (st : status) (s : DB)
    : result aerror Request * DB :=
  if String.eqb tenantID "" then (Err TenantRequired, s)
  else if negb pool then (Err PoolNotConfigured, s)
  else BeginFunc ErrStore d (fun s =>
    let? _ := SetTenantGUC tenantID in
    match List.find (open tenantID approvalID) (requests s) with
    | None => Err ErrNoRows
    | Some r => Ok (decided st approverID dbnow r, with_requests (update (open tenantID approvalID) (decided st approverID dbnow) (requests s)) s)
    end) s.

Definition ApproveRequest (d : delivery) (dbnow : Z) (tenantID approvalID approverID : string) (s : DB) : result aerror Request * DB :=
  resolve d dbnow tenantID approvalID approverID StatusApproved s.

(** [d'] is the outcome of the transaction that writes the reason. *)
Definition RejectRequest (d d' : delivery) (dbnow : Z) (tenantID approvalID approverID reason : string) (s : DB)
    : result aerror Request * DB :=
  let '(r, s) := resolve d dbnow tenantID approvalID approverID StatusRejected s in
  match r with
  | Err e => (Err e, s)
  | Ok r =>
      if String.eqb reason "" then (Ok r, s)
      else
        let '(x, s) := BeginFunc ErrStore d' (fun s =>
          let? _ := SetTenantGUC tenantID in
          Ok (tt, with_requests (update (of_tenant tenantID approvalID) (with_reason reason) (requests s)) s)) s in
        (Ok (match x with Ok _ => with_reason reason r | Err _ => r end), s)
  end.

(** [newest_first] is [ORDER BY created_at DESC]. *)
Definition ListPendingRequests (newest_first : list Request -> list Request) (d : delivery) (dbnow : Z) (tenantID : string) (s : DB)
    : result aerror (list Request) :=
  if negb pool || String.eqb tenantID "" then Ok []
  else query d (fun s =>
    Ok (newest_first (List.filter (fun r => String.eqb (TenantID r) tenantID && bool_decide (Status r = StatusPending) && (dbnow <? ExpiresAt r))
                        (requests s)))) s.

Definition ListAll (newest_first : list Request -> list Request) (d : delivery) (tenantID : string) (limit : Z) (s : DB)
    : result aerror (list Request) :=
  if negb pool || String.eqb tenantID "" then Ok []
  else
    let limit := if (limit <=? 0) || (200 <? limit) then 50 else limit in
    query d (fun s => Ok (take (Z.to_nat limit) (newest_first (List.filter (fun r => String.eqb (TenantID r) tenantID) (requests s))))) s.

(** [executors] is the registry: what an action's executor answers.  The
    request handed to an executor, if any, and the error. *)
Definition ExecuteApproved (executors : string -> option (Request -> bool)) (d : delivery) (tenantID approvalID : string) (s : DB)
    : option Request * result aerror unit :=
  if String.eqb tenantID "" then (None, Err TenantRequired)
  else if negb pool then (None, Err PoolNotConfigured)
  else match query d (fun s =>
    let? _ := SetTenantGUC tenantID in
    match List.find (of_tenant tenantID approvalID) (requests s) with Some r => Ok r | None => Err ErrNoRows end) s with
  | Err e => (None, Err e)
  | Ok r =>
      if negb (bool_decide (Status r = StatusApproved)) then (None, Err (NotApproved (Status r)))
      else match executors (Action r) with
      | None => (None, Err ErrNoExecutor)
      | Some exec => (Some r, if exec r then Ok tt else Err ExecutorFailed)
      end
  end.

Definition SetActionConfig (d : delivery) (tenantID action : string) (requires : bool) (s : DB) : result aerror unit * DB :=
  if String.eqb tenantID "" then (Err TenantRequired, s)
  else if negb pool then (Err PoolNotConfigured, s)
  else BeginFunc ErrStore d (fun s =>
    let? _ := SetTenantGUC tenantID in
    if bool_decide (tenantID ∈ tenants s) then Ok (tt, with_config (<[(tenantID, action) := requires]> (config s)) s) else Err ErrStore) s.

Definition ListActionConfig (d : delivery) (tenantID : string) (s : DB) : result aerror (gmap string bool) :=
  if negb pool || String.eqb tenantID "" then Ok ∅
  else query d (fun s =>
    Ok (list_to_map ((fun kv => (kv.1.2, kv.2)) <$> List.filter (fun kv => String.eqb kv.1.1 tenantID) (map_to_list (config s))))) s.

(** ** Operator sessions ([adminproxy/service.go]) *)
Definition ApprovalAction : string := "admin_proxy_access".
Definition SessionDuration : Z := 4 * Hour.

(** What the audit service is asked to record. *)
Record entry := mkEntry { en_tenant : string; en_actor : string; en_action : string; en_resource : string }.

(** [logged]: whether the audit service took the entry; its error is dropped. *)
Definition RequestAccess (d : delivery) (logged : bool) (id : string) (dbnow : Z) (tenantID adminUserID reason scope : string) (s : DB)
    : result aerror Request * list entry * DB :=
  if String.eqb tenantID "" || String.eqb adminUserID "" then (Err FieldsRequired, [], s)
  else
    let scope := if String.eqb scope "" then "mailbox"%string else scope in
    let target := scope +:+ ":" +:+ reason in
    let '(r, s) := CreateRequest d id dbnow tenantID adminUserID ApprovalAction target s in
    match r with
    | Err e => (Err e, [], s)
    | Ok req => (Ok req, if logged then [mkEntry tenantID adminUserID "admin_proxy_request" (ID req)] else [], s)
    end.

Definition session_of (tenantID approvalID : string) (x : AccessSession) : bool :=
  String.eqb (ApprovalRequestID x) approvalID && String.eqb (sTenantID x) tenantID.

(** The transaction; [id] and [dbnow] are the database's, [now] is Go's clock. *)
Definition ensure (id : string) (now dbnow : Z) (tenantID approvalID adminUserID : string) (s : DB) : result aerror (AccessSession * DB) :=
  let? _ := SetTenantGUC tenantID in
  match List.find (fun r => of_tenant tenantID approvalID r && String.eqb (Action r) ApprovalAction) (requests s) with
  | None => Err ErrNotApproved
  | Some r =>
      if negb (bool_decide (Status r = StatusApproved)) then Err ErrNotApproved
      else match List.find (session_of tenantID approvalID) (sessions s) with
      | Some x => Ok (x, s)
      | None =>
          let scopeShort := if String.eqb (TargetResource r) "" then "mailbox"%string else TargetResource r in
          if existsb (fun x => String.eqb (sID x) id || String.eqb (ApprovalRequestID x) approvalID) (sessions s) then Err ErrStore
          else
            let x := mkSession id tenantID approvalID adminUserID scopeShort dbnow (micro (now + SessionDuration)) None None in
            Ok (x, with_sessions (sessions s ++ [x]) s)
      end
  end.

(** [now'] is Go's clock after the transaction. *)
Definition EnsureSession (d : delivery) (id : string) (now dbnow now' : Z) (tenantID approvalID adminUserID : string) (s : DB)
    : result aerror AccessSession * DB :=
  if negb pool then (Err PoolNotConfigured, s)
  else if String.eqb tenantID "" || String.eqb approvalID "" then (Err FieldsRequired, s)
  else
    let '(r, s) := BeginFunc ErrStore d (ensure id now dbnow tenantID approvalID adminUserID) s in
    match r with
    | Err e => (Err e, s)
    | Ok x =>
        if negb (unset (RevokedAt x)) then (Err ErrSessionRevoked, s)
        else if sExpiresAt x <? now' then (Err ErrSessionExpired, s)
        else (Ok x, s)
    end.

Definition revoke (now : Z) (x : AccessSession) : AccessSession :=
  mkSession (sID x) (sTenantID x) (ApprovalRequestID x) (AdminUserID x) (Scope x) (StartedAt x) (sExpiresAt x) (Some now) (ExpiredAt x).
Definition expire (now : Z) (x : AccessSession) : AccessSession :=
  mkSession (sID x) (sTenantID x) (ApprovalRequestID x) (AdminUserID x) (Scope x) (StartedAt x) (sExpiresAt x) (RevokedAt x) (Some now).

Definition revocable (tenantID sessionID : string) (x : AccessSession) : bool :=
  String.eqb (sID x) sessionID && String.eqb (sTenantID x) tenantID && unset (RevokedAt x).

Definition RevokeSession (d : delivery) (dbnow : Z) (tenantID sessionID : string) (s : DB) : result aerror unit * DB :=
  if negb pool then (Err PoolNotConfigured, s)
  else BeginFunc ErrStore d (fun s =>
    let? _ := SetTenantGUC tenantID in
    Ok (tt, with_sessions (update (revocable tenantID sessionID) (revoke dbnow) (sessions s)) s)) s.

Definition ListSessions (newest_first : list AccessSession -> list AccessSession) (d : delivery) (tenantID : string) (s : DB)
    : result aerror (list AccessSession) :=
  if negb pool || String.eqb tenantID "" then Ok []
  else query d (fun s => Ok (take 100 (newest_first (List.filter (fun x => String.eqb (sTenantID x) tenantID) (sessions s))))) s.

(** [shard] is what [GetTenantShard] answers, [None] for an error or a missing
    service. *)
Definition ResolveShard (shard : option string) (fallback : string) : string :=
  match shard with None => fallback | Some url => if String.eqb url "" then fallback else url end.

(** ** The proxy ([adminproxy/handlers.go]) *)
Definition prefix : string := "/api/v1/admin/proxy/".
Definition slash : Ascii.ascii := Ascii.ascii_of_nat 47.

(** [strings.TrimPrefix] where the prefix is there. *)
Fixpoint strip (p s : string) : option string :=
  match p, s with
  | String.EmptyString, _ => Some s
  | String.String a p', String.String b s' => if Ascii.eqb a b then strip p' s' else None
  | _, _ => None
  end.

(** [strings.SplitN(rest, "/", 3)]: tenant, approval and the path behind. *)
Definition proxy_path (path : string) : option (string * string * string) :=
  match strip prefix path with
  | None => None
  | Some rest =>
      match split_first slash rest with
      | None => None
      | Some (tenantID, rest) =>
          match split_first slash rest with
          | None => Some (tenantID, rest, ""%string)
          | Some (approvalID, tail) => Some (tenantID, approvalID, "/" +:+ tail)
          end
      end
  end.

Inductive presponse := PNotFound | PError (status : Z) | Forwarded (target tail : string) (x : AccessSession).

(** The surroundings of a proxied request: the transaction, the clocks, the id
    of a new session, the shard and the default server, what [url.Parse] says
    of an address. *)
Record penv := mkPenv {
  p_d : delivery; p_id : string; p_now : Z; p_db : Z; p_now' : Z; p_shard : option string; p_default : string; p_parses : string -> bool;
}.

Definition proxy (E : penv) (path adminUserID : string) (s : DB) : presponse * DB :=
  match proxy_path path with
  | None => (PNotFound, s)
  | Some (tenantID, approvalID, tail) =>
      if String.eqb adminUserID "" then (PError 401, s)
      else
        let '(r, s) := EnsureSession (p_d E) (p_id E) (p_now E) (p_db E) (p_now' E) tenantID approvalID adminUserID s in
        match r with
        | Err ErrNotApproved | Err ErrSessionExpired | Err ErrSessionRevoked => (PError 403, s)
        | Err _ => (PError 500, s)
        | Ok x =>
            let target := ResolveShard (p_shard E) (p_default E) in
            if String.eqb target "" then (PError 502, s)
            else if negb (p_parses E target) then (PError 502, s)
            else (Forwarded target tail x, s)
        end
  end.

(** The entry [LogProxyAccess] writes after the request was forwarded. *)
Definition LogProxyAccess (tenantID adminUserID sessionID : string) : entry := mkEntry tenantID adminUserID "admin_proxy_forward" sessionID.

(** ** Expiry ([adminproxy/expiry_worker.go]) *)
Definition overdue (dbnow : Z) (x : AccessSession) : bool := unset (RevokedAt x) && unset (ExpiredAt x) && (sExpiresAt x <? dbnow).
Definition markable (id : string) (x : AccessSession) : bool := String.eqb (sID x) id && unset (ExpiredAt x) && unset (RevokedAt x).

(** One row: the mark and the entry; the audit service writes on a connection
    of its own, so the entry stays when the transaction does not commit.  [d]
    is the commit's outcome; a failure before it is [logged = false], which
    writes nothing. *)
Definition processOne (d : delivery) (logged : bool) (dbnow : Z) (x : AccessSession) (s : DB) : result aerror unit * list entry * DB :=
  if negb (existsb (markable (sID x)) (sessions s)) then ((BeginFunc ErrStore d (fun s => Ok (tt, s)) s).1, [], s)
  else
    let wrote := if logged then [mkEntry (sTenantID x) (AdminUserID x) "session_expired" (sID x)] else [] in
    let '(r, s) := BeginFunc ErrStore d (fun s =>
      if logged then Ok (tt, with_sessions (update (markable (sID x)) (expire dbnow) (sessions s)) s) else Err ErrStore) s in
    (r, wrote, s).

Fixpoint process_all (ds : nat -> delivery * bool * Z) (batch : list AccessSession) (n : Z) (s : DB) : Z * list entry * DB :=
  match batch with
  | [] => (n, [], s)
  | x :: batch =>
      let '(d, logged, dbnow) := ds O in
      let '(r, wrote, s) := processOne d logged dbnow x s in
      let '(n, l, s) := process_all (fun i => ds (S i)) batch (if is_ok r then n + 1 else n) s in
      (n, wrote ++ l, s)
  end.

(** [by_expiry] is [ORDER BY expires_at]. *)
Definition tick (by_expiry : list AccessSession -> list AccessSession) (d : delivery) (dbnow : Z) (ds : nat -> delivery * bool * Z) (s : DB)
    : result aerror Z * list entry * DB :=
  match d with
  | Delivered =>
      let '(n, l, s) := process_all ds (take 100 (by_expiry (List.filter (overdue dbnow) (sessions s)))) 0 s in
      (Ok n, l, s)
  | _ => (Err ErrStore, [], s)
  end.

(** ** Handlers ([approval/handlers.go])

    The path's tenant and approval, and the decoded body. *)
Inductive hresponse :=
| HError (status : Z) | HRequest (status : Z) (r : Request) | HRequests (l : list Request) | HExecuted | HConfig (m : list (string * bool)).

Definition list_handler (newest_first : list Request -> list Request) (d : delivery) (dbnow : Z) (tenantID st : string) (s : DB) : hresponse :=
  match (if String.eqb st "pending" then ListPendingRequests newest_first d dbnow tenantID s else ListAll newest_first d tenantID 50 s) with
  | Err _ => HError 500
  | Ok l => HRequests l
  end.

(** [body]: requester, action, target. *)
Definition create (d : delivery) (id : string) (dbnow : Z) (tenantID : string) (body : option (string * string * string)) (s : DB) : hresponse * DB :=
  match body with
  | None => (HError 400, s)
  | Some (requesterID, action, target) =>
      let '(r, s) := CreateRequest d id dbnow tenantID requesterID action target s in
      (match r with Err _ => HError 400 | Ok r => HRequest 201 r end, s)
  end.

(** A body that does not decode leaves the fields empty. *)
Definition approve (d : delivery) (dbnow : Z) (tenantID id : string) (body : option string) (s : DB) : hresponse * DB :=
  let '(r, s) := ApproveRequest d dbnow tenantID id (default ""%string body) s in
  (match r with Err _ => HError 400 | Ok r => HRequest 200 r end, s).

Definition reject (d d' : delivery) (dbnow : Z) (tenantID id : string) (body : option (string * string)) (s : DB) : hresponse * DB :=
  let '(approverID, reason) := default (""%string, ""%string) body in
  let '(r, s) := RejectRequest d d' dbnow tenantID id approverID reason s in
  (match r with Err _ => HError 400 | Ok r => HRequest 200 r end, s).

Definition execute (executors : string -> option (Request -> bool)) (d : delivery) (tenantID id : string) (s : DB) : hresponse :=
  match (ExecuteApproved executors d tenantID id s).2 with
  | Ok _ => HExecuted
  | Err ErrNoExecutor => HError 501
  | Err _ => HError 400
  end.

Fixpoint set_each (ds : nat -> delivery) (tenantID : string) (l : list (string * bool)) (s : DB) : bool * DB :=
  match l with
  | [] => (true, s)
  | (action, requires) :: l =>
      let '(r, s) := SetActionConfig (ds O) tenantID action requires s in
      match r with Err _ => (false, s) | Ok _ => set_each (fun i => ds (S i)) tenantID l s end
  end.

(** [body] in the order the map is ranged over. *)
Definition setConfig (ds : nat -> delivery) (tenantID : string) (body : option (list (string * bool))) (s : DB) : hresponse * DB :=
  match body with
  | None => (HError 400, s)
  | Some l => let '(ok, s) := set_each ds tenantID l s in (if ok then HConfig l else HError 500, s)
  end.
End service.

(** ** Histories *)
Inductive event :=
| EvCreate (d : delivery) (id : string) (dbnow : Z) (t requester action target : string)
| EvAccess (d : delivery) (logged : bool) (id : string) (dbnow : Z) (t admin reason scope : string)
| EvApprove (d : delivery) (dbnow : Z) (t id approver : string)
| EvReject (d d' : delivery) (dbnow : Z) (t id approver reason : string)
| EvExecute (executors : string -> option (Request -> bool)) (d : delivery) (t id : string)
| EvConfig (d : delivery) (t action : string) (b : bool)
| EvProxy (E : penv) (logged : bool) (path admin : string)
| EvRevoke (d : delivery) (dbnow : Z) (t id : string)
| EvExpiry (by_expiry : list AccessSession -> list AccessSession) (d : delivery) (dbnow : Z) (ds : nat -> delivery * bool * Z).

(** A request the proxy let through: when, for whom, in which session. *)
Record admission := mkAdmission { ad_at : Z; ad_admin : string; ad_session : AccessSession }.

(** [opened]: the approvals sessions were opened for, with Go's clock. *)
Record sys := mkSys {
  db : DB; admitted : list admission; opened : list (string * Z); executed : list Request; trail : list entry;
}.
Definition with_db x y := mkSys x (admitted y) (opened y) (executed y) (trail y).

Definition step (y : sys) (e : event) : sys :=
  let s := db y in
  match e with
  | EvCreate d id dbnow t requester action target => with_db (CreateRequest true d id dbnow t requester action target s).2 y
  | EvAccess d logged id dbnow t admin reason scope =>
      let '(_, l, s') := RequestAccess true d logged id dbnow t admin reason scope s in
      mkSys s' (admitted y) (opened y) (executed y) (trail y ++ l)
  | EvApprove d dbnow t id approver => with_db (ApproveRequest true d dbnow t id approver s).2 y
  | EvReject d d' dbnow t id approver reason => with_db (RejectRequest true d d' dbnow t id approver reason s).2 y
  | EvExecute executors d t id =>
      mkSys s (admitted y) (opened y) (executed y ++ option_list (ExecuteApproved true executors d t id s).1) (trail y)
  | EvConfig d t action b => with_db (SetActionConfig true d t action b s).2 y
  | EvProxy E logged path admin =>
      let '(r, s') := proxy true E path admin s in
      let new := drop (length (sessions s)) (sessions s') in
      mkSys s'
        (admitted y ++ match r with Forwarded _ _ x => [mkAdmission (p_now' E) admin x] | _ => [] end)
        (opened y ++ ((fun x => (ApprovalRequestID x, p_now E)) <$> new)) (executed y)
        (trail y ++ match r with
                    | Forwarded _ _ x => if logged then [LogProxyAccess (sTenantID x) admin (sID x)] else []
                    | _ => []
                    end)
  | EvRevoke d dbnow t id => with_db (RevokeSession true d dbnow t id s).2 y
  | EvExpiry by_expiry d dbnow ds =>
      let '(_, l, s') := tick by_expiry d dbnow ds s in
      mkSys s' (admitted y) (opened y) (executed y) (trail y ++ l)
  end.

Definition start (ts : gset string) : sys := mkSys (mkDB ts [] ∅ []) [] [] [] [].
Definition run (y : sys) (es : list event) : sys := foldl step y es.

(** ** How the tables evolve *)
Implicit Types (y : sys) (s : DB).

Definition req_evolves (l l' : list Request) : Prop :=
  (NoDup (ID <$> l) -> NoDup (ID <$> l')) /\
  forall r, r ∈ l -> exists r', r' ∈ l' /\ ID r' = ID r /\ TenantID r' = TenantID r /\ Action r' = Action r /\
    (Status r <> StatusPending -> Status r' = Status r).

(** What no statement changes of a session. *)
Definition identity (x : AccessSession) := (sID x, sTenantID x, ApprovalRequestID x, sExpiresAt x).

Definition ses_evolves (l l' : list AccessSession) : Prop :=
  identity <$> l' = identity <$> l /\
  forall i x, l !! i = Some x -> exists x', l' !! i = Some x' /\ (RevokedAt x <> None -> RevokedAt x' <> None).

Lemma req_evolves_refl l : req_evolves l l.
Proof. split; [done|]. eauto 10. Qed.

Lemma req_evolves_trans l1 l2 l3 : req_evolves l1 l2 -> req_evolves l2 l3 -> req_evolves l1 l3.
Proof.
  intros [N1 H1] [N2 H2]. split; [tauto|]. intros r Hr. destruct (H1 r Hr) as (r1 & Hr1 & E1 & E2 & E3 & Hs1).
  destruct (H2 r1 Hr1) as (r2 & Hr2 & F1 & F2 & F3 & Hs2). exists r2. split_and!; try congruence. intros Hp. specialize (Hs1 Hp).
  rewrite Hs2; [done|congruence].
Qed.

Lemma req_evolves_update p f l :
  (forall r, ID (f r) = ID r /\ TenantID (f r) = TenantID r /\ Action (f r) = Action r) ->
  (forall r, p r = true -> Status r <> StatusPending -> Status (f r) = Status r) -> req_evolves l (update p f l).
Proof.
  intros Hf Hs. split.
  - rewrite update_proj; [done|]. intros r. apply Hf.
  - intros r Hr. exists (if p r then f r else r). split; [apply elem_of_update; eauto|]. destruct (Hf r) as (E1 & E2 & E3).
    destruct (p r) eqn:Ep; split_and!; auto.
Qed.

Lemma req_evolves_app l r : existsb (fun x => String.eqb (ID x) (ID r)) l = false -> req_evolves l (l ++ [r]).
Proof.
  rewrite existsb_false. intros Hx. split.
  - intros Hnd. rewrite fmap_app. apply NoDup_app. split_and!; [done| |apply NoDup_singleton].
    intros i (x & -> & Hin)%list_elem_of_fmap E%list_elem_of_singleton. apply Hx in Hin. cbn in E. rewrite E in Hin. by rewrite String.eqb_refl in Hin.
  - intros x Hin. exists x. set_solver.
Qed.

Lemma ses_evolves_refl l : ses_evolves l l.
Proof. split; [done|]. eauto 10. Qed.

Lemma ses_evolves_trans l1 l2 l3 : ses_evolves l1 l2 -> ses_evolves l2 l3 -> ses_evolves l1 l3.
Proof.
  intros [N1 H1] [N2 H2]. split; [congruence|]. intros i x Hx. destruct (H1 i x Hx) as (x1 & Hx1 & A1).
  destruct (H2 i x1 Hx1) as (x2 & Hx2 & A2). exists x2. split; [done|tauto].
Qed.

Lemma ses_evolves_update p f l :
  (forall x, identity (f x) = identity x) -> (forall x, RevokedAt x <> None -> RevokedAt (f x) <> None) -> ses_evolves l (update p f l).
Proof.
  intros Hf Hr. split; [by rewrite update_proj|]. intros i x Hx. exists (if p x then f x else x).
  split; [apply lookup_update; eauto|]. destruct (p x); auto.
Qed.

(** Calls that neither open a session nor let a request through. *)
Definition quiet (s s' : DB) : Prop := req_evolves (requests s) (requests s') /\ ses_evolves (sessions s) (sessions s').

Lemma quiet_refl s : quiet s s.
Proof. split; [apply req_evolves_refl|apply ses_evolves_refl]. Qed.

Lemma quiet_trans s1 s2 s3 : quiet s1 s2 -> quiet s2 s3 -> quiet s1 s3.
Proof. intros [A1 B1] [A2 B2]. split; [by eapply req_evolves_trans|by eapply ses_evolves_trans]. Qed.

Lemma quiet_requests x s : req_evolves (requests s) x -> quiet s (with_requests x s).
Proof. intros H. split; [done|apply ses_evolves_refl]. Qed.

Lemma quiet_sessions x s : ses_evolves (sessions s) x -> quiet s (with_sessions x s).
Proof. intros H. split; [apply req_evolves_refl|done]. Qed.

Lemma BeginFunc_quiet {A} d (body : DB -> result aerror (A * DB)) s :
  (forall a s', body s = Ok (a, s') -> quiet s s') -> quiet s (BeginFunc ErrStore d body s).2.
Proof. intros H. apply (BeginFunc_ind (quiet s)); [apply quiet_refl|done]. Qed.

Lemma Create_quiet d id now t q a g s : quiet s (CreateRequest true d id now t q a g s).2.
Proof.
  unfold CreateRequest. case_match; [apply quiet_refl|]. cbn [negb]. apply BeginFunc_quiet. intros ? s' Hb.
  apply rbind_ok in Hb as (? & _ & Hb). case_match eqn:Eg; [|done]. injection Hb as _ <-. breflect. apply quiet_requests, req_evolves_app. done.
Qed.

Lemma resolve_quiet d now t id a st s : quiet s (resolve true d now t id a st s).2.
Proof.
  unfold resolve. case_match; [apply quiet_refl|]. cbn [negb]. apply BeginFunc_quiet. intros ? s' Hb.
  apply rbind_ok in Hb as (? & _ & Hb). case_match; [|done]. injection Hb as _ <-. apply quiet_requests, req_evolves_update; [done|].
  intros r1 Hp Hs. unfold open in Hp. breflect. done.
Qed.

Lemma Reject_quiet d d' now t id a reason s : quiet s (RejectRequest true d d' now t id a reason s).2.
Proof.
  unfold RejectRequest. pose proof (resolve_quiet d now t id a StatusRejected s) as Hq. destruct (resolve _ _ _ _ _ _ _ s) as [[r|e] s1]; [|done].
  destruct (String.eqb reason ""); [done|]. cbn [snd] in Hq.
  match goal with |- context [BeginFunc ErrStore d' ?b s1] => pose proof (BeginFunc_quiet d' b s1) as Hq2; destruct (BeginFunc ErrStore d' b s1) as [x s2] end.
  eapply quiet_trans; [exact Hq|]. apply Hq2. intros ? s' Hb. apply rbind_ok in Hb as (? & _ & [= _ <-]). by apply quiet_requests, req_evolves_update.
Qed.

Lemma Config_quiet d t a b s : quiet s (SetActionConfig true d t a b s).2.
Proof.
  unfold SetActionConfig. case_match; [apply quiet_refl|]. cbn [negb]. apply BeginFunc_quiet. intros ? s' Hb.
  apply rbind_ok in Hb as (? & _ & Hb). case_match; [|done]. injection Hb as _ <-. split; [apply req_evolves_refl|apply ses_evolves_refl].
Qed.

Lemma Revoke_quiet d now t id s : quiet s (RevokeSession true d now t id s).2.
Proof.
  unfold RevokeSession. cbn [negb]. apply BeginFunc_quiet. intros ? s' Hb. apply rbind_ok in Hb as (? & _ & [= _ <-]).
  by apply quiet_sessions, ses_evolves_update.
Qed.

Lemma processOne_quiet d logged now x s : quiet s (processOne d logged now x s).2.
Proof.
  unfold processOne. case_match; [apply quiet_refl|].
  match goal with |- context [BeginFunc ErrStore d ?b s] => pose proof (BeginFunc_quiet d b s) as Hq; destruct (BeginFunc ErrStore d b s) as [r s2] end.
  apply Hq. intros ? s' Hb. destruct logged; [|done]. injection Hb as _ <-. by apply quiet_sessions, ses_evolves_update.
Qed.

Lemma process_all_quiet batch : forall ds n s, quiet s (process_all ds batch n s).2.
Proof.
  induction batch as [|x batch IH]; intros ds n s; cbn [process_all]; [apply quiet_refl|]. destruct (ds O) as [[d logged] now].
  pose proof (processOne_quiet d logged now x s) as H1. destruct (processOne _ _ _ _ s) as [[r w] s1]. cbn [snd] in H1.
  specialize (IH (fun i => ds (S i)) (if is_ok r then n + 1 else n) s1). destruct (process_all _ _ _ s1) as [[n' l] s2].
  by eapply quiet_trans.
Qed.

Lemma tick_quiet o d now ds s : quiet s (tick o d now ds s).2.
Proof.
  unfold tick. destruct d; try apply quiet_refl.
  pose proof (process_all_quiet (take 100 (o (List.filter (overdue now) (sessions s)))) ds 0 s) as H.
  by destruct (process_all _ _ _ s) as [[n l] s1].
Qed.

(** A proxied request leaves the requests alone; a session is found, or opened
    for an approved request that had none. *)
Definition approved_for (t id : string) (r : Request) : Prop :=
  ID r = id /\ TenantID r = t /\ Action r = ApprovalAction /\ Status r = StatusApproved.

Lemma ensure_spec id now dbnow t a admin s x s' :
  ensure id now dbnow t a admin s = Ok (x, s') ->
  (exists r, r ∈ requests s /\ approved_for t a r) /\ ApprovalRequestID x = a /\ sTenantID x = t /\
  (s' = s /\ x ∈ sessions s \/
   s' = with_sessions (sessions s ++ [x]) s /\ sExpiresAt x = micro (now + SessionDuration) /\ RevokedAt x = None /\ ExpiredAt x = None /\
   forall z, z ∈ sessions s -> sID z <> sID x /\ ApprovalRequestID z <> a).
Proof.
  unfold ensure. intros H. apply rbind_ok in H as (u0 & _ & H). destruct (List.find _ (requests s)) as [r|] eqn:Er; [|done].
  apply find_elem in Er as [Hr Hp]. unfold of_tenant in Hp. breflect. destruct (bool_decide (Status r = StatusApproved)) eqn:Es; [|done]. breflect. cbn [negb] in H.
  split; [exists r; by split_and!|]. destruct (List.find _ (sessions s)) as [x0|] eqn:Ex.
  - injection H as <- <-. apply find_elem in Ex as [Hx Hp]. unfold session_of in Hp. breflect. auto 6.
  - destruct (existsb _ (sessions s)) eqn:Eu; [done|]. injection H as <- <-. rewrite existsb_false in Eu. split_and!; [done|done|]. right. cbn.
    split_and!; try done; intros z Hz; specialize (Eu z Hz); cbn in Eu; breflect; done.
Qed.

(** What a call of the proxy does to the tables. *)
Lemma proxy_spec E path admin s r s' :
  proxy true E path admin s = (r, s') ->
  (s' = s \/ exists x t a, s' = with_sessions (sessions s ++ [x]) s /\ ensure (p_id E) (p_now E) (p_db E) t a admin s = Ok (x, s')) /\
  (forall target tail x, r = Forwarded target tail x -> RevokedAt x = None /\ p_now' E <= sExpiresAt x /\ x ∈ sessions s').
Proof.
  unfold proxy. destruct (proxy_path path) as [[[t a] tail0]|]; [|intros [= <- <-]; split; [by left|done]].
  destruct (String.eqb admin ""); [intros [= <- <-]; split; [by left|done]|]. unfold EnsureSession. cbn [negb].
  destruct (String.eqb t "" || String.eqb a ""); [intros [= <- <-]; split; [by left|done]|]. unfold BeginFunc.
  destruct (ensure (p_id E) (p_now E) (p_db E) t a admin s) as [[x s1]|e] eqn:En.
  - destruct (ensure_spec _ _ _ _ _ _ _ _ _ En) as (_ & _ & _ & Hs).
    assert (s1 = s \/ exists x t a, s1 = with_sessions (sessions s ++ [x]) s /\ ensure (p_id E) (p_now E) (p_db E) t a admin s = Ok (x, s1)) as Hs1.
    { destruct Hs as [[-> _]|[-> _]]; [by left|right]. eauto. }
    assert (x ∈ sessions s1) as Hx by (destruct Hs as [[-> ?]|[-> _]]; cbn; set_solver).
    destruct (p_d E); [|intros [= <- <-]; split; [by left|done]|intros [= <- <-]; split; [exact Hs1|done]].
    destruct (RevokedAt x) eqn:Ex; cbn [unset negb]; [intros [= <- <-]; split; [done|done]|].
    destruct (Z.ltb_spec (sExpiresAt x) (p_now' E)); [intros [= <- <-]; split; [done|done]|].
    destruct (String.eqb (ResolveShard _ _) ""); [intros [= <- <-]; split; [done|done]|]. destruct (p_parses E _); cbn [negb]; intros [= <- <-]; [|split; done].
    split; [done|]. intros ? ? ? [= _ _ <-]. done.
  - destruct (p_d E), e; intros [= <- <-]; (split; [by left|done]).
Qed.

(** ** Invariant of histories *)
Record inv y : Prop := mkInv {
  iv_ids : NoDup (ID <$> requests (db y));
  iv_sids : NoDup (sID <$> sessions (db y));
  iv_opened : (opened y).*1 = ApprovalRequestID <$> sessions (db y);
  iv_once : NoDup (opened y).*1;
  iv_sessions : forall x, x ∈ sessions (db y) ->
    (exists r, r ∈ requests (db y) /\ approved_for (sTenantID x) (ApprovalRequestID x) r) /\
    exists o, (ApprovalRequestID x, o) ∈ opened y /\ sExpiresAt x = micro (o + SessionDuration);
  iv_admitted : forall a, a ∈ admitted y ->
    exists x, x ∈ sessions (db y) /\ identity x = identity (ad_session a) /\ ad_at a <= sExpiresAt x;
  iv_executed : forall r, r ∈ executed y -> exists r', r' ∈ requests (db y) /\ ID r' = ID r /\ TenantID r' = TenantID r /\ Status r' = StatusApproved;
}.

Lemma approved_evolves l l' t id r : req_evolves l l' -> r ∈ l -> approved_for t id r -> exists r', r' ∈ l' /\ approved_for t id r'.
Proof.
  intros [_ H] Hr (E1 & E2 & E3 & E4). destruct (H r Hr) as (r' & Hr' & F1 & F2 & F3 & F4). exists r'. split; [done|].
  unfold approved_for. rewrite F1, F2, F3, F4 by (rewrite E4; done). done.
Qed.

Lemma evolves_back l l' x' : ses_evolves l l' -> x' ∈ l' -> exists x, x ∈ l /\ identity x = identity x'.
Proof.
  intros [E _] Hx%(list_elem_of_fmap_2 identity). rewrite E in Hx. apply list_elem_of_fmap in Hx as (x & Hi & Hx). eauto.
Qed.

Lemma evolves_forth l l' x : ses_evolves l l' -> x ∈ l -> exists x', x' ∈ l' /\ identity x' = identity x.
Proof.
  intros [E _] Hx%(list_elem_of_fmap_2 identity). rewrite <- E in Hx. apply list_elem_of_fmap in Hx as (x' & Hi & Hx'). eauto.
Qed.

Lemma evolves_proj {A} (f : AccessSession -> A) (g : string * string * string * Z -> A) l l' :
  (forall x, f x = g (identity x)) -> ses_evolves l l' -> f <$> l' = f <$> l.
Proof.
  intros Hf [E _]. assert (forall k : list AccessSession, f <$> k = g <$> (identity <$> k)) as Hk.
  { intros k. rewrite <- list_fmap_compose. apply list_fmap_ext. intros i x _. apply Hf. }
  by rewrite !Hk, E.
Qed.

Lemma inv_quiet y s' l : inv y -> quiet (db y) s' -> inv (mkSys s' (admitted y) (opened y) (executed y) l).
Proof.
  intros [H1 H2 H3 H4 H5 H6 H7] [Hr Hs]. split; cbn; [by apply Hr| | |done| | |].
  - by rewrite (evolves_proj sID (fun k => k.1.1.1) _ _ ltac:(done) Hs).
  - by rewrite (evolves_proj ApprovalRequestID (fun k => k.1.2) _ _ ltac:(done) Hs).
  - intros x' Hx'. destruct (evolves_back _ _ _ Hs Hx') as (x & Hx & E). injection E as E1 E2 E3 E4. destruct (H5 x Hx) as [(r & Hin & Ha) Ho].
    rewrite <- E2, <- E3, <- E4. split; [by eapply approved_evolves|done].
  - intros a (x & Hx & E & Hle)%H6. destruct (evolves_forth _ _ _ Hs Hx) as (x' & Hx' & E'). exists x'. split_and!; [done|congruence|].
    injection E' as _ _ _ E'. by rewrite E'.
  - intros r (r1 & Hin & E1 & E2 & E3)%H7. destruct Hr as [_ Hr]. destruct (Hr r1 Hin) as (r2 & Hr2 & F1 & F2 & _ & F3). exists r2.
    split_and!; [done|congruence|congruence|]. rewrite F3; [done|by rewrite E3].
Qed.

Lemma inv_opens y x id now dbnow t a admin : inv y ->
  ensure id now dbnow t a admin (db y) = Ok (x, with_sessions (sessions (db y) ++ [x]) (db y)) ->
  inv (mkSys (with_sessions (sessions (db y) ++ [x]) (db y)) (admitted y) (opened y ++ [(ApprovalRequestID x, now)]) (executed y) (trail y)).
Proof.
  intros [H1 H2 H3 H4 H5 H6 H7] He. destruct (ensure_spec _ _ _ _ _ _ _ _ _ He) as ((r & Hr & Ha) & Ea & Et & [[Hsame _]|(_ & Hexp & _ & _ & Hnew)]).
  { apply (f_equal (fun s => length (sessions s))) in Hsame. cbn in Hsame. rewrite length_app in Hsame. cbn in Hsame. lia. }
  assert (ApprovalRequestID x ∉ ApprovalRequestID <$> sessions (db y)) as Hn1.
  { intros (z & E & Hz)%list_elem_of_fmap. destruct (Hnew z Hz). congruence. }
  assert (sID x ∉ sID <$> sessions (db y)) as Hn2.
  { intros (z & E & Hz)%list_elem_of_fmap. destruct (Hnew z Hz). congruence. }
  split; cbn; [done| | | | | |done].
  - rewrite fmap_app. apply NoDup_append; [set_solver|done].
  - by rewrite !fmap_app, H3.
  - rewrite fmap_app. rewrite H3 in *. apply NoDup_append; [set_solver|done].
  - intros z [Hz|Hz%list_elem_of_singleton]%elem_of_app.
    + destruct (H5 z Hz) as [Hq (o & Ho & Eo)]. split; [done|]. exists o. split; [set_solver|done].
    + subst z. rewrite Ea, Et. split; [eauto|]. exists now. rewrite Hexp. split; [set_solver|done].
  - intros b (z & Hz & E)%H6. exists z. split; [set_solver|done].
Qed.

(** All calls but the proxy's and an execution only change the tables, quietly. *)
Definition passive (e : event) : bool := match e with EvProxy _ _ _ _ | EvExecute _ _ _ _ => false | _ => true end.

Lemma passive_step y e : passive e = true ->
  quiet (db y) (db (step y e)) /\ exists l, step y e = mkSys (db (step y e)) (admitted y) (opened y) (executed y) l.
Proof.
  intros Hp. destruct e; try discriminate Hp; cbn [step].
  - split; [apply Create_quiet|by eexists].
  - unfold RequestAccess. destruct (String.eqb t "" || String.eqb admin ""); [split; [apply quiet_refl|by eexists]|].
    match goal with |- context [CreateRequest true ?d ?id ?n ?t ?a ?x ?g ?s] => pose proof (Create_quiet d id n t a x g s) as Hq end.
    destruct (CreateRequest _ _ _ _ _ _ _ _ (db y)) as [[r|er] s']; (split; [exact Hq|by eexists]).
  - split; [apply resolve_quiet|by eexists].
  - split; [apply Reject_quiet|by eexists].
  - split; [apply Config_quiet|by eexists].
  - split; [apply Revoke_quiet|by eexists].
  - pose proof (tick_quiet by_expiry d dbnow ds (db y)) as Hq. destruct (tick _ _ _ _ _) as [[n l] s']. split; [exact Hq|by eexists].
Qed.

Lemma step_inv y e : inv y -> inv (step y e).
Proof.
  intros Hy. destruct (passive e) eqn:Hp.
  { destruct (passive_step y e Hp) as [Hq [l ->]]. by apply inv_quiet. }
  destruct e; try discriminate Hp; cbn [step]; clear Hp.
  - destruct Hy as [H1 H2 H3 H4 H5 H6 H7]. split; cbn; try done. intros r [Hr|Hr]%elem_of_app; [by apply H7|].
    unfold ExecuteApproved in Hr. destruct (String.eqb t ""); [by apply not_elem_of_nil in Hr|]. cbn [negb] in Hr.
    destruct (query _ _ _) as [r0|] eqn:Eq; [|by apply not_elem_of_nil in Hr].
    destruct (bool_decide (Status r0 = StatusApproved)) eqn:Es; cbn [negb] in Hr; [|by apply not_elem_of_nil in Hr].
    destruct (executors (Action r0)); [|by apply not_elem_of_nil in Hr]. cbn in Hr. apply list_elem_of_singleton in Hr as ->. breflect.
    destruct d; [|done|done]. cbn in Eq. apply rbind_ok in Eq as (? & _ & Eq). destruct (List.find _ _) as [r1|] eqn:Ef; [|done]. injection Eq as ->.
    apply find_elem in Ef as [Hin _]. eauto.
  - destruct (proxy true E path admin (db y)) as [r s'] eqn:Ep. destruct (proxy_spec _ _ _ _ _ _ Ep) as [Hs Hf].
    assert (inv (mkSys s' (admitted y) (opened y ++ ((fun x => (ApprovalRequestID x, p_now E)) <$> drop (length (sessions (db y))) (sessions s'))) (executed y) (trail y))) as Hi.
    { destruct Hs as [->|(x & t & a & -> & He)].
      - rewrite drop_all. cbn. rewrite app_nil_r. by destruct y.
      - cbn [sessions with_sessions]. rewrite drop_app_length. by eapply inv_opens. }
    destruct Hi as [H1 H2 H3 H4 H5 H6 H7]. split; cbn in *; try done. intros b [Hb|Hb]%elem_of_app; [by apply H6|].
    destruct r as [| |target tail x]; try by apply not_elem_of_nil in Hb. apply list_elem_of_singleton in Hb as ->.
    destruct (Hf _ _ _ eq_refl) as (_ & Hle & Hx). exists x. done.
Qed.

Lemma step_requests y e : req_evolves (requests (db y)) (requests (db (step y e))).
Proof.
  destruct (passive e) eqn:Hp; [apply (passive_step y e Hp)|]. destruct e; try discriminate Hp; cbn [step]; [apply req_evolves_refl|].
  destruct (proxy true E path admin (db y)) as [r s'] eqn:Ep. destruct (proxy_spec _ _ _ _ _ _ Ep) as [[->|(x & t & a & -> & _)] _]; apply req_evolves_refl.
Qed.

Lemma run_requests es : forall y, req_evolves (requests (db y)) (requests (db (run y es))).
Proof. induction es as [|e es IH]; intros y; [apply req_evolves_refl|]. eapply req_evolves_trans; [apply (step_requests y e)|apply IH]. Qed.

Lemma run_inv es : forall y, inv y -> inv (run y es).
Proof. induction es as [|e es IH]; intros y Hy; [done|]. by apply IH, step_inv. Qed.

Lemma start_inv ts : inv (start ts).
Proof. split; cbn; [constructor|constructor|done|constructor| | |]; by intros ? ?%not_elem_of_nil. Qed.

(** C16: operators reach a tenant only under its approval, for four hours.
    Over any history of calls, with any of their transactions lost, each
    request the proxy lets through belongs to a session whose approval request
    is of the same tenant, is for operator access and is approved; the session
    was opened once, and the request came at most [SessionDuration] after. *)
Theorem operator_window ts es a :
  a ∈ admitted (run (start ts) es) ->
  let y := run (start ts) es in
  exists r o, r ∈ requests (db y) /\ approved_for (sTenantID (ad_session a)) (ApprovalRequestID (ad_session a)) r /\
    (ID r, o) ∈ opened y /\ (forall o', (ID r, o') ∈ opened y -> o' = o) /\ ad_at a <= o + SessionDuration.
Proof.
  intros Ha. pose proof (run_inv es _ (start_inv ts)) as Hi. destruct (iv_admitted _ Hi a Ha) as (x & Hx & E & Hle). injection E as E1 E2 E3 E4.
  destruct (iv_sessions _ Hi x Hx) as [(r & Hr & Hap) (o & Ho & Eo)]. rewrite E2, E3 in *. cbn zeta. exists r, o. destruct Hap as (F1 & F2). rewrite F1.
  split_and!; [done|done|apply F2..|done| |].
  - intros o' Ho'. pose proof (NoDup_proj_eq fst _ _ _ (iv_once _ Hi) Ho' Ho eq_refl) as Eq. by injection Eq.
  - rewrite Eo in Hle. unfold micro in Hle. pose proof (Z.div_mod (o + SessionDuration) 1000 ltac:(lia)). pose proof (Z.mod_pos_bound (o + SessionDuration) 1000 ltac:(lia)). lia.
Qed.

(** ** Revocation *)

(** Every session of the approval is revoked. *)
Definition shut (id : string) s : Prop := (exists x, x ∈ sessions s /\ ApprovalRequestID x = id) /\ forall x, x ∈ sessions s -> ApprovalRequestID x = id -> RevokedAt x <> None.

Lemma shut_quiet id s s' : quiet s s' -> shut id s -> shut id s'.
Proof.
  intros [_ Hs] [(x & Hx & E) Hall]. split.
  - destruct (evolves_forth _ _ _ Hs Hx) as (x' & Hx' & E'). injection E' as _ _ E' _. exists x'. split; [done|congruence].
  - intros x' [i Hi]%list_elem_of_lookup E'. destruct Hs as [Hid Hs]. assert (exists z, sessions s !! i = Some z) as [z Hz].
    { apply lookup_lt_is_Some. rewrite <- (length_fmap identity (sessions s)), <- Hid, length_fmap. by eapply lookup_lt_Some. }
    destruct (Hs i z Hz) as (z' & Hz' & Hr). simplify_eq. apply Hr, Hall; [by eapply list_elem_of_lookup_2|].
    apply (f_equal (fun l => l !! i)) in Hid. rewrite !list_lookup_fmap, Hz, Hi in Hid. injection Hid as _ _ E1 _. congruence.
Qed.

Lemma step_shut y e id : shut id (db y) ->
  shut id (db (step y e)) /\ exists l, admitted (step y e) = admitted y ++ l /\ forall a, a ∈ l -> ApprovalRequestID (ad_session a) <> id.
Proof.
  intros Hs. assert (exists l, admitted y = admitted y ++ l /\ forall a, a ∈ l -> ApprovalRequestID (ad_session a) <> id) as Hnone
    by (exists []; rewrite app_nil_r; set_solver).
  destruct (passive e) eqn:Hp.
  { destruct (passive_step y e Hp) as [Hq [l E]]. split; [by eapply shut_quiet|]. by rewrite E. }
  destruct e; try discriminate Hp; cbn [step]; clear Hp.
  - done.
  - destruct (proxy true E path admin (db y)) as [r s'] eqn:Ep. destruct (proxy_spec _ _ _ _ _ _ Ep) as [Hsp Hf].
    assert (shut id s') as Hs'.
    { destruct Hsp as [->|(x & t & a & -> & He)]; [done|]. destruct (ensure_spec _ _ _ _ _ _ _ _ _ He) as (_ & Ea & _ & [[Hsame _]|(_ & _ & _ & _ & Hnew)]).
      - apply (f_equal (fun s => length (sessions s))) in Hsame. cbn in Hsame. rewrite length_app in Hsame. cbn in Hsame. lia.
      - destruct Hs as [(z & Hz & Ez) Hall]. split; [exists z; cbn; set_solver|]. cbn. intros w [Hw|Hw%list_elem_of_singleton]%elem_of_app Ew; [by apply Hall|].
        subst w. destruct (Hnew z Hz) as [_ Hne]. congruence. }
    split; [done|]. eexists. split; [done|]. intros b Hb. destruct r as [| |target tail x]; try by apply not_elem_of_nil in Hb.
    apply list_elem_of_singleton in Hb as ->. cbn. destruct (Hf _ _ _ eq_refl) as (Hrev & _ & Hx). intros E1. by apply (proj2 Hs' x Hx).
Qed.

Lemma run_shut es id : forall y, shut id (db y) ->
  exists l, admitted (run y es) = admitted y ++ l /\ forall a, a ∈ l -> ApprovalRequestID (ad_session a) <> id.
Proof.
  induction es as [|e es IH]; intros y Hs; [exists []; rewrite app_nil_r; set_solver|].
  destruct (step_shut y e id Hs) as [Hs' (l1 & E1 & H1)]. destruct (IH _ Hs') as (l2 & E2 & H2).
  exists (l1 ++ l2). split; [|set_solver]. change (admitted (run (step y e) es) = admitted y ++ l1 ++ l2). by rewrite E2, E1, app_assoc.
Qed.

(** Revoking a session is final.  Once a tenant's revocation of a session
    has committed, no request is let through under its approval again,
    whatever is called afterwards. *)
Theorem operator_revocation_final ts es x now t es' :
  let y := run (start ts) es in
  t <> ""%string -> x ∈ sessions (db y) -> sTenantID x = t ->
  exists l, admitted (run y (EvRevoke Delivered now t (sID x) :: es')) = admitted y ++ l /\
    forall a, a ∈ l -> ApprovalRequestID (ad_session a) <> ApprovalRequestID x.
Proof.
  intros y Ht Hx Ex. pose proof (run_inv es _ (start_inv ts)) as Hi. fold y in Hi. cbn [run foldl]. apply (run_shut es' _ (step y (EvRevoke Delivered now t (sID x)))).
  cbn. unfold SetTenantGUC. rewrite (proj2 (String.eqb_neq _ _) Ht). cbn.
  assert (forall z, z ∈ sessions (db y) -> ApprovalRequestID z = ApprovalRequestID x -> z = x) as Hu.
  { intros z Hz E. pose proof (iv_once _ Hi) as Hn. rewrite (iv_opened _ Hi) in Hn. by eapply (NoDup_proj_eq ApprovalRequestID). }
  split; cbn.
  - exists (if revocable t (sID x) x then revoke now x else x). split; [apply elem_of_update; eauto|]. by destruct (revocable t (sID x) x).
  - intros z (w & Hw & ->)%elem_of_update Ez. assert (w = x) as -> by (apply Hu; [done|]; by destruct (revocable t (sID x) w)).
    unfold revocable. rewrite Ex, !String.eqb_refl. cbn. destruct (RevokedAt x) eqn:Er; cbn; [by rewrite Er|done].
Qed.

(** A decision is final.  A request once approved or rejected keeps that
    status through any later history, and the executor of its action is called
    only if it is approved: never, if it was rejected. *)
Theorem decision_final ts es es' r :
  let y := run (start ts) es in
  r ∈ requests (db y) -> Status r <> StatusPending ->
  (exists r', r' ∈ requests (db (run y es')) /\ ID r' = ID r /\ Status r' = Status r) /\
  (Status r = StatusRejected -> forall x, x ∈ executed (run y es') -> ID x <> ID r).
Proof.
  intros y Hr Hp.
  assert (exists r', r' ∈ requests (db (run y es')) /\ ID r' = ID r /\ Status r' = Status r) as (r' & Hr' & E1 & E2).
  { destruct (proj2 (run_requests es' y) r Hr) as (r' & ? & ? & _ & _ & Hs). exists r'. split_and!; [done|done|by apply Hs]. }
  split; [eauto|]. intros Hrej x Hx Ex. pose proof (run_inv es' _ (run_inv es _ (start_inv ts))) as Hi. fold y in Hi.
  destruct (iv_executed _ Hi x Hx) as (r2 & Hr2 & F1 & _ & F2).
  assert (r2 = r') as -> by (eapply (NoDup_proj_eq ID); [apply Hi|done|done|congruence]). congruence.
Qed.

(** ** The audit trail of expiry *)

(** Sessions marked expired in [s'] were so in [s], or [l] has their entry. *)
Definition marks (l : list entry) (s s' : DB) : Prop :=
  forall x', x' ∈ sessions s' -> ExpiredAt x' <> None ->
    (exists x, x ∈ sessions s /\ sID x = sID x' /\ ExpiredAt x <> None) \/
    exists e, e ∈ l /\ en_action e = "session_expired"%string /\ en_resource e = sID x'.

Lemma marks_same l s s' : sessions s' = sessions s -> marks l s s'.
Proof. intros E x Hx He. rewrite E in Hx. eauto. Qed.

Lemma Create_sessions d id now t q a g s : sessions (CreateRequest true d id now t q a g s).2 = sessions s.
Proof.
  unfold CreateRequest. case_match; [done|]. cbn [negb]. apply (BeginFunc_ind (fun s' => sessions s' = sessions s)); [done|]. intros ? s' Hb.
  apply rbind_ok in Hb as (? & _ & Hb). case_match; [|done]. by injection Hb as _ <-.
Qed.

Lemma resolve_sessions d now t id a st s : sessions (resolve true d now t id a st s).2 = sessions s.
Proof.
  unfold resolve. case_match; [done|]. cbn [negb]. apply (BeginFunc_ind (fun s' => sessions s' = sessions s)); [done|]. intros ? s' Hb.
  apply rbind_ok in Hb as (? & _ & Hb). case_match; [|done]. by injection Hb as _ <-.
Qed.

Lemma Reject_sessions d d' now t id a reason s : sessions (RejectRequest true d d' now t id a reason s).2 = sessions s.
Proof.
  unfold RejectRequest. pose proof (resolve_sessions d now t id a StatusRejected s) as Hq. destruct (resolve _ _ _ _ _ _ _ s) as [[r|e] s1]; [|done].
  destruct (String.eqb reason ""); [done|]. cbn [snd] in Hq.
  match goal with |- context [BeginFunc ErrStore d' ?b s1] => pose proof (BeginFunc_ind (fun s' => sessions s' = sessions s) ErrStore d' b s1 Hq) as Hq2; destruct (BeginFunc ErrStore d' b s1) as [x s2] end.
  apply Hq2. intros ? s' Hb. by apply rbind_ok in Hb as (? & _ & [= _ <-]).
Qed.

Lemma marks_trans l1 l2 s1 s2 s3 : marks l1 s1 s2 -> marks l2 s2 s3 -> marks (l1 ++ l2) s1 s3.
Proof.
  intros H1 H2 x3 Hx3 He3. destruct (H2 x3 Hx3 He3) as [(x2 & Hx2 & E & He2)|(e & He & E)]; [|right; exists e; split; [set_solver|done]].
  destruct (H1 x2 Hx2 He2) as [(x1 & Hx1 & E1 & He1)|(e & He & Ea & Er)]; [left; exists x1; split_and!; [done|congruence|done]|].
  right. exists e. split_and!; [set_solver|done|congruence].
Qed.

Lemma processOne_marks d logged now x s : let '(_, l, s') := processOne d logged now x s in marks l s s'.
Proof.
  unfold processOne. destruct (existsb _ _); cbn [negb]; [|by apply marks_same].
  match goal with |- context [BeginFunc ErrStore d ?b s] => pose proof (BeginFunc_ind
    (fun s' => s' = s \/ logged = true /\ s' = with_sessions (update (markable (sID x)) (expire now) (sessions s)) s) ErrStore d b s) as Hq;
    destruct (BeginFunc ErrStore d b s) as [r s2] end.
  assert (s2 = s \/ logged = true /\ s2 = with_sessions (update (markable (sID x)) (expire now) (sessions s)) s) as [->|[-> ->]].
  { apply Hq; [by left|]. intros a s' Hb. destruct logged; [|done]. injection Hb as _ <-. by right. }
  - by apply marks_same.
  - intros z' (z & Hz & ->)%elem_of_update He. destruct (markable (sID x) z) eqn:Em; [|eauto]. right. eexists. split; [apply list_elem_of_singleton; done|].
    unfold markable in Em. breflect. cbn. split; [done|congruence].
Qed.

Lemma process_all_marks batch : forall ds n s, let '(_, l, s') := process_all ds batch n s in marks l s s'.
Proof.
  induction batch as [|x batch IH]; intros ds n s; cbn [process_all]; [by apply marks_same|]. destruct (ds O) as [[d logged] now].
  pose proof (processOne_marks d logged now x s) as H1. destruct (processOne _ _ _ _ s) as [[r w] s1].
  specialize (IH (fun i => ds (S i)) (if is_ok r then n + 1 else n) s1). destruct (process_all _ _ _ s1) as [[n' l] s2].
  by eapply marks_trans.
Qed.

Lemma step_marks y e : exists l, trail (step y e) = trail y ++ l /\ marks l (db y) (db (step y e)).
Proof.
  assert (forall s', sessions s' = sessions (db y) -> exists l, trail y = trail y ++ l /\ marks l (db y) s') as Hq.
  { intros s' E. exists []. rewrite app_nil_r. split; [done|by apply marks_same]. }
  destruct e; cbn [step].
  - apply Hq, Create_sessions.
  - unfold RequestAccess. destruct (String.eqb t "" || String.eqb admin ""); [eexists; split; [done|by apply marks_same]|].
    match goal with |- context [CreateRequest true ?d ?id ?n ?t ?a ?x ?g ?s] => pose proof (Create_sessions d id n t a x g s) as Hc end.
    destruct (CreateRequest _ _ _ _ _ _ _ _ (db y)) as [[r|er] s']; (eexists; split; [done|by apply marks_same]).
  - apply Hq, resolve_sessions.
  - apply Hq, Reject_sessions.
  - by apply Hq.
  - apply Hq. unfold SetActionConfig. case_match; [done|]. cbn [negb]. apply (BeginFunc_ind (fun s' => sessions s' = sessions (db y))); [done|]. intros ? s' Hb.
    apply rbind_ok in Hb as (? & _ & Hb). case_match; [|done]. by injection Hb as _ <-.
  - destruct (proxy true E path admin (db y)) as [r s'] eqn:Ep. destruct (proxy_spec _ _ _ _ _ _ Ep) as [Hs _]. eexists. split; [done|]. cbn [db].
    destruct Hs as [->|(x & t & a & -> & He)]; [by apply marks_same|].
    intros z Hz Hexp. cbn in Hz. apply elem_of_app in Hz as [Hz|Hz%list_elem_of_singleton]; [left; eauto|]. subst z.
    destruct (ensure_spec _ _ _ _ _ _ _ _ _ He) as (_ & _ & _ & [[_ Hx]|(_ & _ & _ & Hno & _)]); [left; eauto|done].
  - exists []. rewrite app_nil_r. split; [done|]. cbn [db with_db]. unfold RevokeSession. cbn [negb]. apply (BeginFunc_ind (fun s' => marks [] (db y) s')); [by apply marks_same|].
    intros ? s' Hb. apply rbind_ok in Hb as (? & _ & [= _ <-]). intros z' (z & Hz & ->)%elem_of_update He. left. exists z. by destruct (revocable _ _ z).
  - unfold tick. destruct d; [|eexists; split; [done|by apply marks_same]..].
    pose proof (process_all_marks (take 100 (by_expiry (List.filter (overdue dbnow) (sessions (db y))))) ds 0 (db y)) as H.
    destruct (process_all _ _ _ _) as [[n l] s']. by exists l.
Qed.

(** An expiry leaves a trace.  In every reachable state each session the
    worker has marked expired has a [session_expired] entry in the audit
    trail, whatever commits and audit writes failed on the way. *)
Theorem expiry_is_audited ts es x :
  x ∈ sessions (db (run (start ts) es)) -> ExpiredAt x <> None ->
  exists e, e ∈ trail (run (start ts) es) /\ en_action e = "session_expired"%string /\ en_resource e = sID x.
Proof.
  assert (forall es y, marks (trail y) (mkDB ∅ [] ∅ []) (db y) -> marks (trail (run y es)) (mkDB ∅ [] ∅ []) (db (run y es))) as Hrun.
  { clear. induction es as [|e es IH]; intros y Hy; [done|]. apply IH. destruct (step_marks y e) as (l & -> & Hm). by eapply marks_trans. }
  intros Hx He. destruct (Hrun es (start ts)) with (x' := x) as [(z & Hz & _)|H]; [by intros ? ?%not_elem_of_nil|done|done| |done]. by apply not_elem_of_nil in Hz.
Qed.

(** The gate a tenant configures is the gate that is asked: after a
    setting has committed, its action requires approval exactly as set, also
    in the listed configuration, and no other tenant's or action's gate
    changes. *)
Theorem gate_round_trip t action b s s' :
  SetActionConfig true Delivered t action b s = (Ok tt, s') ->
  RequiresApproval true Delivered t action s' = b /\ (exists m, ListActionConfig true Delivered t s' = Ok m /\ m !! action = Some b) /\
  forall t' a', (t', a') <> (t, action) -> RequiresApproval true Delivered t' a' s' = RequiresApproval true Delivered t' a' s.
Proof.
  unfold SetActionConfig. destruct (String.eqb_spec t "") as [|Ht]; [done|]. cbn [negb]. unfold BeginFunc, SetTenantGUC. rewrite (proj2 (String.eqb_neq _ _) Ht). cbn [rbind].
  destruct (bool_decide _); [|done]. intros [= <-]. unfold RequiresApproval, ListActionConfig, query, SetTenantGUC. rewrite (proj2 (String.eqb_neq _ _) Ht). cbn [negb orb rbind config with_config].
  split_and!.
  - by rewrite lookup_insert_eq.
  - eexists. split; [done|]. apply elem_of_list_to_map.
    + rewrite <- list_fmap_compose. apply NoDup_fmap_2_strong.
      * intros [[t1 a1] b1] [[t2 a2] b2] [H1%elem_of_map_to_list E1]%elem_of_filterb [H2%elem_of_map_to_list E2]%elem_of_filterb E. cbn in *. breflect. congruence.
      * assert (forall l : list (string * string * bool), NoDup l -> NoDup (List.filter (fun kv => String.eqb kv.1.1 t) l)) as Hf; [|apply Hf, NoDup_map_to_list].
        induction 1 as [|x l Hx Hl IH]; cbn; [constructor|]. destruct (String.eqb x.1.1 t); [|done]. constructor; [|done]. by intros [? _]%elem_of_filterb.
    + apply list_elem_of_fmap. exists ((t, action), b). split; [done|]. apply elem_of_filterb. split; [|apply String.eqb_refl]. apply elem_of_map_to_list, lookup_insert_eq.
  - intros t' a' Hne. destruct (String.eqb t' ""); [done|]. cbn [orb]. by rewrite lookup_insert_ne.
Qed.

(** ** Examples *)
Module AccessExamples.
Definition env_at (t : Z) : penv := mkPenv Delivered "s1" t t t None "https://mail" (fun _ => true).
Definition path : string := "/api/v1/admin/proxy/t/r1/jmap/session".
Definition asked : event := EvAccess Delivered true "r1" 0 "t" "alice" "ticket" "".
Definition granted : event := EvApprove Delivered Second "t" "r1" "owner".
Definition visit (t : Z) (who : string) : event := EvProxy (env_at t) true path who.
Definition history : list event := [asked; granted; visit Minute "alice"; visit Hour "alice"].
Definition at_end : sys := run (start {["t"%string]}) history.
Definition expiry (t : Z) (d : delivery) : event := EvExpiry id Delivered t (fun _ => (d, true, t)).
Definition summary (y : sys) := (fun a => (ad_at a, ad_admin a, AdminUserID (ad_session a))) <$> admitted y.
End AccessExamples.
Import AccessExamples.

Example history_runs : summary at_end = [(Minute, "alice", "alice"); (Hour, "alice", "alice")]%string.
Proof. vm_compute. reflexivity. Qed.

(** Whoever knows the approval's id is let through, in the session of the
    operator who asked. *)
Theorem anyone_uses_the_session :
  summary (run at_end [visit (2 * Hour) "mallory"]) = [(Minute, "alice", "alice"); (Hour, "alice", "alice"); (2 * Hour, "mallory", "alice")]%string.
Proof. vm_compute. reflexivity. Qed.

(** The requester's own id is taken as the approver, months after the request
    expired. *)
Theorem requester_approves_own_expired_request :
  let late := 90 * Days in
  let y := run (start {["t"%string]}) [asked; EvApprove Delivered late "t" "r1" "alice"; visit late "alice"] in
  summary y = [(late, "alice", "alice")]%string /\ (fun r => (RequesterID r, ApproverID r, ExpiresAt r)) <$> requests (db y) = [("alice", "alice", 7 * Days)]%string.
Proof. vm_compute. auto. Qed.

(** The recorded scope is the scope and the reason run together. *)
Theorem scope_holds_the_reason : Scope <$> sessions (db at_end) = ["mailbox:ticket"%string].
Proof. vm_compute. reflexivity. Qed.

(** A store that does not answer opens the gate. *)
Theorem gate_fails_open t action s d : d <> Delivered -> RequiresApproval true d t action s = false.
Proof. unfold RequiresApproval, query. destruct (negb true || String.eqb t ""); [done|]. by destruct d. Qed.

(** An approved action can be executed again and again. *)
Theorem execution_repeats n :
  let ex := EvExecute (fun _ => Some (fun _ => true)) Delivered "t" "r1" in
  length (executed (run at_end (replicate n ex))) = n.
Proof.
  cbn zeta. set (ex := EvExecute _ _ _ _).
  assert (forall y, db y = db at_end -> length (executed (run y (replicate n ex))) = (length (executed y) + n)%nat) as H; [|by rewrite H].
  induction n as [|n IH]; intros y Hy; [cbn; lia|]. change (run y (replicate (S n) ex)) with (run (step y ex) (replicate n ex)).
  rewrite IH; cbn [step ex executed db]; [|done]. rewrite Hy, length_app.
  change (length (option_list (ExecuteApproved true (fun _ => Some (fun _ => true)) Delivered "t" "r1" (db at_end)).1)) with 1%nat. lia.
Qed.

(** A commit that is lost after the audit write makes the worker write the
    entry again. *)
Theorem expiry_entry_repeats :
  en_action <$> trail (run at_end [expiry (6 * Hour) RequestLost; expiry (7 * Hour) Delivered]) =
  ["admin_proxy_request"; "admin_proxy_forward"; "admin_proxy_forward"; "session_expired"; "session_expired"]%string.
Proof. vm_compute. reflexivity. Qed.

(** A request is let through though its audit entry was not written. *)
Theorem forward_without_trace :
  let y := run (start {["t"%string]}) [asked; granted; EvProxy (env_at Minute) false path "alice"] in
  length (admitted y) = 1%nat /\ en_action <$> trail y = ["admin_proxy_request"%string].
Proof. vm_compute. auto. Qed.

Lemma operator_window_witness :
  exists a, a ∈ admitted at_end /\ exists r o, r ∈ requests (db at_end) /\ (ID r, o) ∈ opened at_end /\ ad_at a <= o + SessionDuration.
Proof.
  destruct (admitted at_end) as [|a l] eqn:E; [apply (f_equal length) in E; vm_compute in E; discriminate E|]. exists a.
  assert (a ∈ admitted at_end) as Ha by (rewrite E; left). split; [rewrite <- E; exact Ha|].
  destruct (operator_window {["t"%string]} history a Ha) as (r & o & H1 & _ & H2 & _ & H3). exists r, o. split; [exact H1|]. split; [exact H2|exact H3].
Defined.

Lemma operator_revocation_final_witness :
  exists x l, x ∈ sessions (db at_end) /\
    admitted (run at_end [EvRevoke Delivered (2 * Hour) "t" (sID x); visit (2 * Hour) "alice"]) = admitted at_end ++ l /\
    forall a, a ∈ l -> ApprovalRequestID (ad_session a) <> ApprovalRequestID x.
Proof.
  destruct (sessions (db at_end)) as [|x k] eqn:E; [apply (f_equal length) in E; vm_compute in E; discriminate E|].
  assert (x ∈ sessions (db at_end)) as Hx by (rewrite E; left).
  assert (sTenantID x = "t"%string) as Et.
  { assert (sTenantID <$> sessions (db at_end) = ["t"%string]) as H by (vm_compute; reflexivity). rewrite E in H. cbn in H. injection H as H _. exact H. }
  destruct (operator_revocation_final {["t"%string]} history x (2 * Hour) "t" [visit (2 * Hour) "alice"] ltac:(discriminate) Hx Et) as (l & H1 & H2).
  exists x, l. split; [rewrite <- E; exact Hx|]. split; [exact H1|exact H2].
Defined.

Definition refused : list event := [asked; EvReject Delivered Delivered Second "t" "r1" "owner" "no"].

Lemma decision_final_witness :
  exists r, r ∈ requests (db (run (start {["t"%string]}) refused)) /\ Status r = StatusRejected /\
    exists r', r' ∈ requests (db (run (run (start {["t"%string]}) refused) [granted])) /\ Status r' = StatusRejected.
Proof.
  destruct (requests (db (run (start {["t"%string]}) refused))) as [|r k] eqn:E; [apply (f_equal length) in E; vm_compute in E; discriminate E|].
  assert (r ∈ requests (db (run (start {["t"%string]}) refused))) as Hr by (rewrite E; left).
  assert (Status r = StatusRejected) as Es.
  { assert (Status <$> requests (db (run (start {["t"%string]}) refused)) = [StatusRejected]) as H by (vm_compute; reflexivity). rewrite E in H. cbn in H. injection H as H _. exact H. }
  destruct (decision_final {["t"%string]} refused [granted] r Hr ltac:(rewrite Es; discriminate)) as [(r' & H1 & _ & H2) _].
  exists r. split; [rewrite <- E; exact Hr|]. split; [exact Es|]. exists r'. split; [exact H1|]. rewrite H2. exact Es.
Defined.

Lemma expiry_is_audited_witness :
  exists x, x ∈ sessions (db (run (start {["t"%string]}) (history ++ [expiry (6 * Hour) Delivered]))) /\
    exists e, e ∈ trail (run (start {["t"%string]}) (history ++ [expiry (6 * Hour) Delivered])) /\ en_resource e = sID x.
Proof.
  set (es := history ++ [expiry (6 * Hour) Delivered]).
  destruct (sessions (db (run (start {["t"%string]}) es))) as [|x k] eqn:E; [apply (f_equal length) in E; vm_compute in E; discriminate E|].
  assert (x ∈ sessions (db (run (start {["t"%string]}) es))) as Hx by (rewrite E; left).
  assert (ExpiredAt x = Some (6 * Hour)) as Ee.
  { assert (ExpiredAt <$> sessions (db (run (start {["t"%string]}) es)) = [Some (6 * Hour)]) as H by (vm_compute; reflexivity). rewrite E in H. cbn in H. injection H as H _. exact H. }
  destruct (expiry_is_audited {["t"%string]} es x Hx ltac:(rewrite Ee; discriminate)) as (e & H1 & _ & H2).
  exists x. split; [rewrite <- E; exact Hx|]. exists e. split; [exact H1|exact H2].
Defined.

Lemma gate_round_trip_witness :
  let s := mkDB {["t"%string]} [] ∅ [] in
  RequiresApproval true Delivered "t" "user_delete" (SetActionConfig true Delivered "t" "user_delete" true s).2 = true.
Proof.
  cbn zeta. set (s := mkDB _ _ _ _). destruct (SetActionConfig true Delivered "t" "user_delete" true s) as [r s'] eqn:E.
  assert (r = Ok tt) as -> by (replace r with (r, s').1 by reflexivity; rewrite <- E; vm_compute; reflexivity).
  exact (proj1 (gate_round_trip "t" "user_delete" true s s' E)).
Defined.
