(* ===== verification/Envelope.v ===== *)
(** * Secrets envelope and key ring ([internal/cmk/envelope.go], [internal/secrets])

    Secrets at rest are sealed by [SecretsEnvelope]s: AES-GCM under one master
    key, the identity for development, and a ring of one primary and several
    retired keys.  Master keys come from a provider, the process environment
    or HashiCorp Vault.  AES-GCM is a class with its documented behaviour as
    laws; [Opens] is what the users of an envelope rely on. *)

From S2P Require Import Prelude Text Codec.

Local Open Scope Z_scope.
Local Open Scope go_scope.

Inductive eerror :=
| ErrEnvelopeCorrupted | ErrNonce | ErrNewCipher | ErrKeyMaterial | ErrKeyNotSet
| PrimaryKey (e : eerror) | RetiredKey (i : nat) (e : eerror).

(** [rand] is what the random source yields for the nonce. *)
Record SecretsEnvelope := mkEnvelope {
  Wrap : option (list Z) -> list Z -> result eerror (list Z);
  Unwrap : list Z -> result eerror (list Z * bool);
}.

(** [cipher.NewGCM]: the sizes of the nonce and of the tag are those of the
    standard library. *)
Definition NonceSize : nat := 12.
Definition Overhead : nat := 16.

Class GCM := {
  gcm_seal : list Z -> list Z -> list Z -> list Z;           (* key, nonce, plaintext *)
  gcm_open : list Z -> list Z -> list Z -> option (list Z);  (* key, nonce, ciphertext *)
}.

Class GCMLaws `{GCM} : Prop := {
  gcm_open_seal : forall k n p, length n = NonceSize -> gcm_open k n (gcm_seal k n p) = Some p;
  gcm_seal_length : forall k n p, length (gcm_seal k n p) = (length p + Overhead)%nat;
  (* a key does not authenticate what another one sealed *)
  gcm_foreign : forall k k' n p, k <> k' -> gcm_open k' n (gcm_seal k n p) = None;
}.

(** What a caller that stores [Wrap]'s output relies on. *)
Class Opens (E : SecretsEnvelope) : Prop :=
  opens : forall nonce p b, length nonce = NonceSize -> Wrap E (Some nonce) p = Ok b -> exists enc, Unwrap E b = Ok (p, enc).

Definition envelopeMagic : list Z := [107; 109; 97; 105; 108; 45; 99; 109; 107; 45; 118; 49; 0; 0; 0; 0].

Definition HasMagic (blob : list Z) : bool :=
  (length envelopeMagic <=? length blob)%nat && bool_decide (take (length envelopeMagic) blob = envelopeMagic).

(** ** Key material *)
Definition decodeKeyMaterial (s : string) : result eerror (list Z) :=
  let good k := match k with Some k => if (length k =? 32)%nat then Some k else None | None => None end in
  let first := if (String.length s =? 64)%nat then good (hex_decode s) else None in
  match first, good (decode64 std_alphabet true s), good (decode64 std_alphabet false s),
        good (decode64 url_alphabet true s), good (decode64 url_alphabet false s) with
  | Some k, _, _, _, _ | None, Some k, _, _, _ | None, None, Some k, _, _
  | None, None, None, Some k, _ | None, None, None, None, Some k => Ok k
  | None, None, None, None, None => Err ErrKeyMaterial
  end.

Section envelope.
Context `{GCM}.

(** ** One key *)
Definition wrap_key (key : list Z) (rand : option (list Z)) (plaintext : list Z) : result eerror (list Z) :=
  match rand with
  | None => Err ErrNonce
  | Some nonce => Ok (envelopeMagic ++ nonce ++ gcm_seal key nonce plaintext)
  end.

Definition unwrap_key (key : list Z) (blob : list Z) : result eerror (list Z * bool) :=
  if HasMagic blob then
    let body := drop (length envelopeMagic) blob in
    if (length body <? NonceSize + Overhead)%nat then Err ErrEnvelopeCorrupted
    else match gcm_open key (take NonceSize body) (drop NonceSize body) with
         | Some pt => Ok (pt, true)
         | None => Err ErrEnvelopeCorrupted
         end
  else
    match (if (NonceSize + Overhead <=? length blob)%nat then gcm_open key (take NonceSize blob) (drop NonceSize blob) else None) with
    | Some pt => Ok (pt, true)
    | None => Ok (blob, false)
    end.

Definition AESGCMEnvelope (key : list Z) : SecretsEnvelope := mkEnvelope (wrap_key key) (unwrap_key key).

(** [aes.NewCipher] takes keys of 16, 24 or 32 bytes. *)
Definition NewAESGCMEnvelopeFromKeyMaterial (material : string) : result eerror SecretsEnvelope :=
  let? key := decodeKeyMaterial material in
  if negb (bool_decide (length key ∈ [16; 24; 32]%nat)) then Err ErrNewCipher else Ok (AESGCMEnvelope key).

(** The environment variable [KMAIL_SECRETS_KEY]. *)
Definition cmk_LoadEnvelope (getenv : string -> string) : result eerror SecretsEnvelope :=
  let raw := TrimSpace (getenv "KMAIL_SECRETS_KEY") in
  if String.eqb raw "" then Err ErrKeyNotSet else NewAESGCMEnvelopeFromKeyMaterial raw.

Definition NoopEnvelope : SecretsEnvelope := mkEnvelope (fun _ p => Ok p) (fun b => Ok (b, false)).

(** ** Key ring ([rotation.go]) *)
Record RotatingEnvelope := mkRotating { primary : SecretsEnvelope; retired : list SecretsEnvelope }.

Fixpoint try_retired (l : list SecretsEnvelope) (blob : list Z) (err : eerror) : result eerror (list Z * bool) :=
  match l with
  | [] => Err err
  | env :: l => match Unwrap env blob with Ok r => Ok r | Err _ => try_retired l blob err end
  end.

Definition rotating_unwrap (r : RotatingEnvelope) (blob : list Z) : result eerror (list Z * bool) :=
  match Unwrap (primary r) blob with
  | Ok p => Ok p
  | Err ErrEnvelopeCorrupted => try_retired (retired r) blob ErrEnvelopeCorrupted
  | Err e => Err e
  end.

Definition ring (r : RotatingEnvelope) : SecretsEnvelope := mkEnvelope (Wrap (primary r)) (rotating_unwrap r).

Fixpoint retired_keys (i : nat) (keys : list string) : result eerror (list SecretsEnvelope) :=
  match keys with
  | [] => Ok []
  | rk :: keys =>
      let rk := TrimSpace rk in
      if String.eqb rk "" then retired_keys (S i) keys
      else match NewAESGCMEnvelopeFromKeyMaterial rk with
           | Err e => Err (RetiredKey i e)
           | Ok env => let? l := retired_keys (S i) keys in Ok (env :: l)
           end
  end.

Definition NewRotatingEnvelope (primaryKey : string) (retiredKeys : list string) : result eerror RotatingEnvelope :=
  match NewAESGCMEnvelopeFromKeyMaterial primaryKey with
  | Err e => Err (PrimaryKey e)
  | Ok p => let? l := retired_keys 0 retiredKeys in Ok (mkRotating p l)
  end.

Definition RetiredKeyCount (r : RotatingEnvelope) : Z := Z.of_nat (length (retired r)).
End envelope.

(** ** Providers ([provider.go], [vault.go]) *)
Inductive perror :=
| ErrSecretNotFound | EmptyReference | BadReference | Transport | BadStatus (code : Z) | Decode | NotAString
| UnknownBackend (registered : list string) | NoVaultAddress | NoVaultToken.

(** [os.LookupEnv] of the process. *)
Definition environ := gmap string string.

Definition env_Resolve (env : environ) (ref : string) : result perror string :=
  if String.eqb ref "" then Err EmptyReference
  else match env !! ("KMAIL_" +:+ ref) with
  | Some (String.String _ _ as v) => Ok v
  | _ => match env !! ref with
         | Some (String.String _ _ as v) => Ok v
         | _ => Err ErrSecretNotFound
         end
  end.

(** Backends by name; registering a name twice panics. *)
Section registry.
Context {F : Type}.
Definition RegisterBackend (name : string) (factory : option F) (registry : gmap string F) : option (gmap string F) :=
  match factory with
  | Some f => if String.eqb name "" || bool_decide (is_Some (registry !! name)) then None else Some (<[name := f]> registry)
  | None => None
  end.
Definition RegisteredBackends (registry : gmap string F) : list string := sort_strings (map_to_list registry).*1.
Definition NewProvider (backend : string) (registry : gmap string F) : result perror F :=
  let backend := TrimSpace backend in
  let backend := if String.eqb backend "" then "env"%string else backend in
  match registry !! backend with
  | Some f => Ok f
  | None => Err (UnknownBackend (RegisteredBackends registry))
  end.
End registry.

Record VaultProvider := mkVault { Addr : string; Token : string; CacheTTL : Z; cache : gmap string (string * Z) }.

Definition trim_slashes (s : string) : string := TrimRight (Ascii.ascii_of_nat 47) s.

Definition newVaultFromConfig (env : environ) (config : string) : result perror VaultProvider :=
  let addr := trim_slashes (TrimSpace config) in
  if String.eqb addr "" then Err NoVaultAddress
  else match env_Resolve env "VAULT_TOKEN" with
  | Err _ => Err NoVaultToken
  | Ok token => Ok (mkVault addr token (5 * Minute) ∅)
  end.

Definition slash : Ascii.ascii := Ascii.ascii_of_nat 47.
Definition hash_sign : Ascii.ascii := Ascii.ascii_of_nat 35.

Definition splitRef (ref : string) : string * string :=
  match split_first hash_sign ref with
  | Some (path, field) => (path, if String.eqb field "" then "value"%string else field)
  | None => (ref, "value"%string)
  end.

(** Vault's answer: the fields of the secret, [None] for one that is no
    string. *)
Inductive vreply := VNoAnswer | VStatus (code : Z) | VBody (data : option (gmap string (option string))).

Definition fromCache (v : VaultProvider) (now : Z) (ref : string) : option string :=
  match cache v !! ref with
  | Some (value, expiresAt) => if expiresAt <? now then None else Some value
  | None => None
  end.

Definition store (v : VaultProvider) (now : Z) (ref val : string) : VaultProvider :=
  if CacheTTL v <=? 0 then v else mkVault (Addr v) (Token v) (CacheTTL v) (<[ref := (val, now + CacheTTL v)]> (cache v)).

(** [get] takes the URL and the token. *)
Definition vault_Resolve (now now' : Z) (get : string -> string -> vreply) (v : VaultProvider) (ref : string)
    : result perror string * VaultProvider :=
  match fromCache v now ref with
  | Some val => (Ok val, v)
  | None =>
      let '(path, field) := splitRef ref in
      if String.eqb path "" then (Err EmptyReference, v)
      else match split_first slash path with
      | None | Some (_, String.EmptyString) => (Err BadReference, v)
      | Some (mount, rest) =>
          match get (Addr v +:+ "/v1/" +:+ mount +:+ "/data/" +:+ rest) (Token v) with
          | VNoAnswer => (Err Transport, v)
          | VStatus code => (Err (if code =? 404 then ErrSecretNotFound else BadStatus code), v)
          | VBody None => (Err Decode, v)
          | VBody (Some data) =>
              match data !! field with
              | None => (Err ErrSecretNotFound, v)
              | Some None => (Err NotAString, v)
              | Some (Some val) => (Ok val, store v now' ref val)
              end
          end
      end
  end.

(** ** Loading the ring *)
Inductive loaderror := NotSet (e : perror) | RetiredUnresolved (e : perror) | BadRing (e : eerror).

Definition comma : Ascii.ascii := Ascii.ascii_of_nat 44.

Section load.
Context `{GCM} {P : Type} (Resolve : P -> string -> result perror string * P).

Definition LoadEnvelope (p : P) : result loaderror SecretsEnvelope * P :=
  let '(r, p) := Resolve p "SECRETS_KEY" in
  match r with
  | Err e => (Err (NotSet e), p)
  | Ok primaryKey =>
      let '(r, p) := Resolve p "SECRETS_KEY_RETIRED" in
      let build keys :=
        match NewRotatingEnvelope primaryKey keys with Err e => Err (BadRing e) | Ok re => Ok (ring re) end in
      (match r with
       | Ok raw => build (List.filter (fun k => negb (String.eqb k "")) (TrimSpace <$> Split comma raw))
       | Err ErrSecretNotFound => build []
       | Err e => Err (RetiredUnresolved e)
       end, p)
  end.
End load.

(** [LoadEnvelope] with a nil provider. *)
Definition load_env `{GCM} (env : environ) : result loaderror SecretsEnvelope :=
  (LoadEnvelope (fun e ref => (env_Resolve e ref, e)) env).1.

(** ** Master keys *)
Lemma decodeKeyMaterial_std k : Forall byte k -> length k = 32%nat -> decodeKeyMaterial (encode64 std_alphabet true k) = Ok k.
Proof.
  intros Hk Hl. unfold decodeKeyMaterial. pose proof (encode64_length std_alphabet k) as Hlen. rewrite Hl in Hlen. change ((Z.of_nat 32 + 2) / 3 * 4) with 44 in Hlen.
  replace (String.length (encode64 std_alphabet true k) =? 64)%nat with false by (symmetry; apply Nat.eqb_neq; lia).
  rewrite std_round_trip by done. by rewrite Hl.
Qed.

Lemma hex_length k : String.length (hex_encode k) = (2 * length k)%nat.
Proof.
  assert (forall l, String.length (String.string_of_list_ascii l) = length l) as Hl by (induction l; cbn; congruence).
  unfold hex_encode. rewrite Hl. induction k as [|b k IH]; [done|]. cbn in *. rewrite IH. lia.
Qed.

(** The two spellings of a key in the deployment guide. *)
Lemma decodeKeyMaterial_hex k : Forall byte k -> length k = 32%nat -> decodeKeyMaterial (hex_encode k) = Ok k.
Proof.
  intros Hk Hl. unfold decodeKeyMaterial. rewrite hex_length, Hl. cbn [Nat.mul Nat.add Nat.eqb].
  rewrite hex_round_trip by done. by rewrite Hl.
Qed.

Section laws.
Context `{GL : GCMLaws}.

(** ** One key *)
Lemma HasMagic_app x : HasMagic (envelopeMagic ++ x) = true.
Proof.
  unfold HasMagic. rewrite length_app, take_app_length. rewrite bool_decide_true by done.
  rewrite andb_true_r. apply Nat.leb_le. lia.
Qed.

Lemma unwrap_wrapped k k' nonce p b : length nonce = NonceSize -> wrap_key k (Some nonce) p = Ok b ->
  unwrap_key k' b = if decide (k = k') then Ok (p, true) else Err ErrEnvelopeCorrupted.
Proof.
  intros Hn Hw. assert (b = envelopeMagic ++ nonce ++ gcm_seal k nonce p) as -> by (unfold wrap_key in Hw; congruence).
  unfold unwrap_key. rewrite HasMagic_app, drop_app_length, length_app, gcm_seal_length, Hn.
  replace (NonceSize + (length p + Overhead) <? NonceSize + Overhead)%nat with false by (symmetry; apply Nat.ltb_ge; lia).
  rewrite <- Hn, take_app_length, drop_app_length. case_decide as Hk.
  - subst k'. by rewrite gcm_open_seal.
  - by rewrite gcm_foreign.
Qed.

#[export] Instance aesgcm_opens k : Opens (AESGCMEnvelope k).
Proof. intros nonce p b Hn Hw. exists true. cbn in *. rewrite (unwrap_wrapped k k nonce p b Hn Hw). by rewrite decide_True. Qed.

#[export] Instance noop_opens : Opens NoopEnvelope.
Proof. intros nonce p b _ [= <-]. by exists false. Qed.

(** ** The ring *)
Lemma try_retired_spec k ks nonce p b : length nonce = NonceSize -> wrap_key k (Some nonce) p = Ok b ->
  try_retired (AESGCMEnvelope <$> ks) b ErrEnvelopeCorrupted = if decide (k ∈ ks) then Ok (p, true) else Err ErrEnvelopeCorrupted.
Proof.
  intros Hn Hw. induction ks as [|k' ks IH]; [by rewrite decide_False by apply not_elem_of_nil|].
  cbn [fmap list_fmap try_retired Unwrap AESGCMEnvelope]. rewrite (unwrap_wrapped k k' nonce p b Hn Hw).
  destruct (decide (k = k')) as [Hk|Hk].
  - rewrite decide_True; [done|]. subst. apply elem_of_cons. by left.
  - rewrite IH. apply decide_ext. rewrite elem_of_cons. naive_solver.
Qed.

Definition ring_of (pk : list Z) (rks : list (list Z)) : SecretsEnvelope :=
  ring (mkRotating (AESGCMEnvelope pk) (AESGCMEnvelope <$> rks)).

(** A ring opens exactly what was sealed under one of its keys; anything else
    is refused, never returned as if it were plaintext. *)
Lemma ring_unwrap pk rks k nonce p b : length nonce = NonceSize -> Wrap (AESGCMEnvelope k) (Some nonce) p = Ok b ->
  Unwrap (ring_of pk rks) b = if decide (k ∈ pk :: rks) then Ok (p, true) else Err ErrEnvelopeCorrupted.
Proof.
  intros Hn Hw. cbn in *. unfold rotating_unwrap. cbn. rewrite (unwrap_wrapped k pk nonce p b Hn Hw).
  destruct (decide (k = pk)) as [Hk|Hk].
  - rewrite decide_True; [done|]. subst. apply elem_of_cons. by left.
  - rewrite (try_retired_spec k rks nonce p b Hn Hw). apply decide_ext. rewrite elem_of_cons. naive_solver.
Qed.

#[export] Instance ring_opens pk rks : Opens (ring_of pk rks).
Proof.
  intros nonce p b Hn Hw. exists true. rewrite (ring_unwrap pk rks pk nonce p b Hn Hw). rewrite decide_True; [done|].
  apply elem_of_cons. by left.
Qed.

(** ** From the environment *)
Definition material (k : list Z) : string := encode64 std_alphabet true k.
Definition master_key (k : list Z) : Prop := Forall byte k /\ length k = 32%nat.

Lemma material_chars Q k : master_key k -> (forall n, 0 <= n < 64 -> Q (pick std_alphabet n) = true) -> Q padding = true ->
  Forall (fun c => Q c = true) (String.list_ascii_of_string (material k)).
Proof. intros [Hk _] HQ Hp. by apply encode64_chars. Qed.

Lemma material_trim k : master_key k -> TrimSpace (material k) = material k.
Proof.
  intros Hk. apply TrimSpace_none, (material_chars (fun c => negb (ascii_space c))); [done| |done].
  apply forall_sextet. vm_compute. reflexivity.
Qed.

Lemma material_nonempty k : master_key k -> exists c s, material k = String.String c s.
Proof.
  intros [_ Hl]. pose proof (encode64_length std_alphabet k) as H0. rewrite Hl in H0. unfold material.
  destruct (encode64 std_alphabet true k) as [|c s]; [done|eauto].
Qed.

Lemma material_key k : master_key k -> NewAESGCMEnvelopeFromKeyMaterial (material k) = Ok (AESGCMEnvelope k).
Proof.
  intros [Hk Hl]. unfold NewAESGCMEnvelopeFromKeyMaterial, material. rewrite decodeKeyMaterial_std by done. cbn [rbind].
  rewrite Hl, bool_decide_true by (by vm_compute; eauto || set_solver). done.
Qed.

Lemma material_free k : master_key k -> free_of comma (material k).
Proof.
  intros Hk. apply (material_chars (fun c => negb (Ascii.eqb c comma))); [done| |done]. apply forall_sextet. vm_compute. reflexivity.
Qed.

Lemma retired_keys_material i ks : Forall master_key ks -> retired_keys i (material <$> ks) = Ok (AESGCMEnvelope <$> ks).
Proof.
  intros H0. revert i. induction H0 as [|k ks Hk _ IH]; intros i; [done|]. cbn [fmap list_fmap retired_keys].
  rewrite (material_trim k Hk), (material_key k Hk). destruct (material_nonempty k Hk) as (c & s & ->). cbn [String.eqb]. by rewrite IH.
Qed.

Lemma retired_trimmed ks : Forall master_key ks ->
  List.filter (fun k => negb (String.eqb k "")) (TrimSpace <$> (material <$> ks)) = material <$> ks.
Proof.
  induction 1 as [|x l Hx Hl IH]; [done|]. rewrite !fmap_cons, (material_trim x Hx). cbn [List.filter]. rewrite IH.
  by destruct (material_nonempty x Hx) as (c & s & ->).
Qed.

(** The values the two variables resolve to, for a ring. *)
Definition configured (env : environ) (pk : list Z) (rks : list (list Z)) : Prop :=
  env_Resolve env "SECRETS_KEY" = Ok (material pk) /\
  env_Resolve env "SECRETS_KEY_RETIRED" = match rks with [] => Err ErrSecretNotFound | _ => Ok (Join comma (material <$> rks)) end.

Lemma load_env_ring env pk rks : master_key pk -> Forall master_key rks -> configured env pk rks -> load_env env = Ok (ring_of pk rks).
Proof.
  intros Hp Hr [E1 E2]. unfold load_env, LoadEnvelope, NewRotatingEnvelope. rewrite E1, E2, (material_key pk Hp).
  destruct rks as [|k rks]; [done|]. rewrite Split_Join; [|done|].
  2: { apply Forall_fmap. eapply Forall_impl; [exact Hr|]. intros x Hx. by apply material_free. }
  by rewrite retired_trimmed, retired_keys_material.
Qed.
End laws.

(** C21: the master key can be rotated without a failed read, following the
    runbook.  A process configured with one key, then with the new key as
    primary and the old one retired, then with the new key alone, loads an
    envelope at every stage; what the first sealed the second opens, what the
    second seals it and the third open, and the third refuses, rather than
    returns, what only the old key sealed. *)
Theorem rotation_runbook `{GCMLaws} env1 env2 env3 old new :
  master_key old -> master_key new -> configured env1 old [] -> configured env2 new [old] -> configured env3 new [] ->
  exists E1 E2 E3, load_env env1 = Ok E1 /\ load_env env2 = Ok E2 /\ load_env env3 = Ok E3 /\
  (forall nonce p b, length nonce = NonceSize -> Wrap E1 (Some nonce) p = Ok b ->
     Unwrap E2 b = Ok (p, true) /\ (old <> new -> Unwrap E3 b = Err ErrEnvelopeCorrupted)) /\
  (forall nonce p b, length nonce = NonceSize -> Wrap E2 (Some nonce) p = Ok b ->
     Unwrap E2 b = Ok (p, true) /\ Unwrap E3 b = Ok (p, true)).
Proof.
  intros Ho Hn C1 C2 C3. exists (ring_of old []), (ring_of new [old]), (ring_of new []).
  split_and!; try (by apply load_env_ring); [by apply load_env_ring; [|constructor|]| |];
    intros nonce p b Hl Hw; change (Wrap (AESGCMEnvelope ?k)) with (wrap_key k) in Hw; cbn in Hw.
  - split; [|intros Hne]; rewrite (ring_unwrap _ _ old nonce p b Hl Hw); [by rewrite decide_True by set_solver|].
    rewrite decide_False; [done|]. rewrite list_elem_of_singleton. done.
  - split; rewrite (ring_unwrap _ _ new nonce p b Hl Hw); by rewrite decide_True by set_solver.
Qed.

(** ** Where code and comment part ways *)

(** A row of the first layout (nonce and ciphertext, no prefix) sealed under a
    retired key is taken by the primary for plaintext: the caller gets the
    ciphertext, and the retired keys are not tried. *)
Theorem old_layout_read_as_plaintext `{GCMLaws} pk k rks nonce p :
  k <> pk -> length nonce = NonceSize -> HasMagic (nonce ++ gcm_seal k nonce p) = false ->
  Unwrap (ring_of pk (k :: rks)) (nonce ++ gcm_seal k nonce p) = Ok (nonce ++ gcm_seal k nonce p, false).
Proof.
  intros Hk Hn Hm. cbn. unfold rotating_unwrap. cbn. unfold unwrap_key. rewrite Hm.
  rewrite (take_app_length' _ _ NonceSize), (drop_app_length' _ _ NonceSize), gcm_foreign by done. by destruct (_ <=? _)%nat.
Qed.

(** The reference [LoadEnvelope] asks for is no Vault path: with the Vault
    provider the key never loads. *)
Theorem vault_cannot_load_the_ring `{GCM} now now' get v :
  cache v !! "SECRETS_KEY"%string = None ->
  LoadEnvelope (vault_Resolve now now' get) v = (Err (NotSet BadReference), v).
Proof. intros Hc. unfold LoadEnvelope, vault_Resolve, fromCache. by rewrite Hc. Qed.

(** ** A concrete cipher: the tag names the key *)
Module EnvelopeExamples.
Definition tag (k : list Z) : list Z := Z.pos (encode k) :: replicate 15 0.

Lemma tag_inj k k' : tag k = tag k' -> k = k'.
Proof. intros [= E]. by apply (inj encode). Qed.

#[export] Instance tagged : GCM := {
  gcm_seal k _ p := tag k ++ p;
  gcm_open k _ c := if bool_decide (take 16 c = tag k) then Some (drop 16 c) else None;
}.
#[export] Instance tagged_laws : GCMLaws.
Proof.
  split; cbn -[tag].
  - intros k n p _. rewrite (take_app_length' _ _ 16), (drop_app_length' _ _ 16) by done. by rewrite bool_decide_true.
  - intros k n p. cbn. unfold Overhead. lia.
  - intros k k' n p Hk. rewrite (take_app_length' _ _ 16) by done. rewrite bool_decide_false; [done|]. by intros E%tag_inj.
Qed.

Definition key1 : list Z := replicate 32 1.
Definition key2 : list Z := replicate 32 2.
Definition nonce0 : list Z := replicate 12 7.
Definition before : environ := {[ "KMAIL_SECRETS_KEY" := material key1 ]}%string.
Definition during : environ := {[ "KMAIL_SECRETS_KEY" := material key2; "KMAIL_SECRETS_KEY_RETIRED" := material key1 ]}%string.
Definition after : environ := {[ "SECRETS_KEY" := material key2 ]}%string.

Lemma master1 : master_key key1.
Proof. split; [|done]. apply Forall_replicate. unfold byte. lia. Qed.
Lemma master2 : master_key key2.
Proof. split; [|done]. apply Forall_replicate. unfold byte. lia. Qed.
End EnvelopeExamples.
Import EnvelopeExamples.

Lemma rotation_runbook_witness :
  exists E1 E2 b, load_env before = Ok E1 /\ load_env during = Ok E2 /\ Wrap E1 (Some nonce0) [3; 4] = Ok b /\ Unwrap E2 b = Ok ([3; 4], true).
Proof.
  destruct (rotation_runbook before during after key1 key2 master1 master2) as (E1 & E2 & E3 & H1 & H2 & _ & H3 & _);
    [split; vm_compute; reflexivity..|].
  assert (E1 = ring_of key1 []) as -> by (pose proof (load_env_ring before key1 [] master1 ltac:(constructor) ltac:(split; vm_compute; reflexivity)); congruence).
  eexists _, E2, _. split; [exact H1|]. split; [exact H2|]. split; [reflexivity|].
  apply (H3 nonce0); reflexivity.
Defined.

(** [cmk.LoadEnvelope] trims the variable, its replacement does not: a key in
    hexadecimal with a line break at its end is refused. *)
Theorem untrimmed_key_is_refused :
  let line := hex_encode key1 +:+ String.String (Ascii.ascii_of_nat 10) "" in
  is_ok (cmk_LoadEnvelope (fun _ => line)) = true /\
  is_ok (load_env {[ "KMAIL_SECRETS_KEY"%string := line ]}) = false.
Proof. vm_compute. auto. Qed.
