(* ===== verification/Totp.v ===== *)
(** * Second factor by one-time codes ([internal/middleware/totp.go],
      [totp_store.go])

    RFC 6238 codes with recovery codes as a way back, and a lockout against
    guessing.  One row per tenant and user; every store method is one
    transaction on it.  A handler runs one or two of them; [play] runs a
    sequence of handler calls, [roam] overlaps them.  HMAC-SHA1 and SHA-256 are parameters, the
    envelope of [Envelope] seals the secrets. *)

From S2P Require Import Prelude Text Table Codec Calendar Envelope.

Local Open Scope Z_scope.
Local Open Scope go_scope.

Class OneWay := {
  hmac_sha1 : list Z -> list Z -> list Z;
  sha256 : string -> list Z;
}.

Class OneWayLaws `{OneWay} : Prop := {
  hmac_sha1_bytes : forall k m, Forall byte (hmac_sha1 k m) /\ length (hmac_sha1 k m) = 20%nat;
  sha256_bytes : forall m, Forall byte (sha256 m) /\ length (sha256 m) = 32%nat;
}.

(** ** Store ([totp_store.go]) *)
Record TOTPCredential := mkCred {
  TenantID : string; UserID : string; EncryptedSecret : list Z; RecoveryCodesHash : string; Enabled : bool;
  CreatedAt : Z; LastUsedAt : option Z; FailedAttempts : Z; LockedUntil : option Z;
}.

Record DB := mkDB { tenants : gset string; creds : gmap (string * string) TOTPCredential }.
Definition with_creds (x : gmap (string * string) TOTPCredential) (s : DB) : DB := mkDB (tenants s) x.

Inductive terror := ErrTOTPNotFound | ErrTOTPAlreadyEnabled | ErrStore | ErrEnvelope (e : eerror) | ErrRand | ErrNoIdentity.

Definition SetTenantGUC (tenantID : string) : result terror unit := if String.eqb tenantID "" then Err ErrStore else Ok tt.

(** The verdict of a closure on the locked row. *)
Record TOTPVerification := mkVerification {
  OK : bool; Method : string; SetRecoveryHash : option string; SetEnabled : option bool; SetEncryptedSecret : option (list Z);
  VErr : option terror;
}.
Definition rejected : TOTPVerification := mkVerification false "" None None None None.
Definition aborted (e : terror) : TOTPVerification := mkVerification false "" None None None (Some e).

Record TOTPAttemptResult := mkAttempt { NotEnabled : bool; Locked : bool; RetryAfter : Z; Verified : bool; aMethod : string }.
Definition noAttempt : TOTPAttemptResult := mkAttempt false false 0 false "".

(** [CASE WHEN failed_attempts + 1 >= $3 ...]. *)
Definition count_failure (maxAttempts until : Z) (c : TOTPCredential) : TOTPCredential :=
  let full := maxAttempts <=? FailedAttempts c + 1 in
  mkCred (TenantID c) (UserID c) (EncryptedSecret c) (RecoveryCodesHash c) (Enabled c) (CreatedAt c) (LastUsedAt c)
    (if full then 0 else FailedAttempts c + 1) (if full then Some until else LockedUntil c).

(** [COALESCE] keeps a column the verdict does not set. *)
Definition record_success (now : Z) (v : TOTPVerification) (c : TOTPCredential) : TOTPCredential :=
  mkCred (TenantID c) (UserID c) (default (EncryptedSecret c) (SetEncryptedSecret v)) (default (RecoveryCodesHash c) (SetRecoveryHash v))
    (default (Enabled c) (SetEnabled v)) (CreatedAt c) (Some (micro now)) 0 None.

Section store.
Context (pool : bool).

Definition Get (d : delivery) (tenantID userID : string) (s : DB) : result terror TOTPCredential :=
  if negb pool then Err ErrTOTPNotFound
  else match d, creds s !! (tenantID, userID) with
  | Delivered, Some c => if String.eqb tenantID "" then Err ErrTOTPNotFound else Ok c
  | _, _ => Err ErrTOTPNotFound
  end.

Definition Upsert (d : delivery) (tenantID userID : string) (encryptedSecret : list Z) (recoveryHash : string) (enabled : bool) (now : Z) (s : DB)
    : result terror unit * DB :=
  if negb pool then (Ok tt, s)
  else BeginFunc ErrStore d (fun s =>
    let? _ := SetTenantGUC tenantID in
    if negb (bool_decide (tenantID ∈ tenants s)) then Err ErrStore
    else
      let c := match creds s !! (tenantID, userID) with
               | Some c => mkCred tenantID userID encryptedSecret recoveryHash enabled (CreatedAt c) (LastUsedAt c) 0 None
               | None => mkCred tenantID userID encryptedSecret recoveryHash enabled (micro now) None 0 None
               end in
      Ok (tt, with_creds (<[(tenantID, userID) := c]> (creds s)) s)) s.

(** The body of the transaction, on the row locked [FOR UPDATE]. *)
Definition evaluate (tenantID userID : string) (now maxAttempts lockFor : Z) (requireEnabled : bool)
    (verify : TOTPCredential -> TOTPVerification) (s : DB) : result terror (TOTPAttemptResult * DB) :=
  let? _ := SetTenantGUC tenantID in
  match creds s !! (tenantID, userID) with
  | None => Err ErrTOTPNotFound
  | Some c =>
      if requireEnabled && negb (Enabled c) then Ok (mkAttempt true false 0 false "", s)
      else
        let remaining := match LockedUntil c with Some u => u - now | None => 0 end in
        if 0 <? remaining then Ok (mkAttempt false true remaining false "", s)
        else
          let v := verify c in
          match VErr v with
          | Some e => Err e
          | None =>
              if negb (OK v) then
                if (2 ^ 31 <=? FailedAttempts c + 1) || (2 ^ 31 <=? maxAttempts) then Err ErrStore
                else Ok (noAttempt, with_creds (<[(tenantID, userID) := count_failure maxAttempts (micro (now + lockFor)) c]> (creds s)) s)
              else Ok (mkAttempt false false 0 true (Method v), with_creds (<[(tenantID, userID) := record_success now v c]> (creds s)) s)
          end
  end.

Definition EvaluateAttempt (d : delivery) (tenantID userID : string) (now maxAttempts lockFor : Z) (requireEnabled : bool)
    (verify : TOTPCredential -> TOTPVerification) (s : DB) : result terror TOTPAttemptResult * DB :=
  if negb pool then (Err ErrTOTPNotFound, s)
  else
    let maxAttempts := if maxAttempts <? 1 then 1 else maxAttempts in
    BeginFunc ErrStore d (evaluate tenantID userID now maxAttempts lockFor requireEnabled verify) s.

Definition Delete (d : delivery) (tenantID userID : string) (s : DB) : result terror unit * DB :=
  if negb pool then (Ok tt, s)
  else BeginFunc ErrStore d (fun s =>
    let? _ := SetTenantGUC tenantID in Ok (tt, with_creds (delete (tenantID, userID) (creds s)) s)) s.
End store.

(** ** Codes *)
Section codes.
Context `{OneWay}.

(** [fmt.Sprintf] of a number below a million with six digits. *)
Definition pad6 (v : Z) : string := pad2 (v / 10000) +:+ pad2 (v / 100 mod 100) +:+ pad2 (v mod 100).

Definition generateHOTP (secret : list Z) (counter : Z) : string :=
  let sum := hmac_sha1 secret (be64 counter) in
  let at_ i := nth i sum 0 in
  let off := Z.to_nat (Z.land (at_ (length sum - 1)%nat) 15) in
  let value := Z.lor (Z.shiftl (Z.land (at_ off) 127) 24)
                 (Z.lor (Z.shiftl (at_ (off + 1)%nat) 16) (Z.lor (Z.shiftl (at_ (off + 2)%nat) 8) (at_ (off + 3)%nat))) in
  pad6 (value mod 1000000).

Definition step_of (now : Z) : Z := Z.quot (Unix now) 30.

Definition verifyCode (secret : list Z) (code : string) (now : Z) : bool :=
  if negb (String.length code =? 6)%nat then false
  else existsb (fun delta => String.eqb (generateHOTP secret (step_of now + delta)) code) [-1; 0; 1].

Definition bar : Ascii.ascii := Ascii.ascii_of_nat 124.

(** [rands] are the reads of the random source, one per code. *)
Fixpoint newRecoveryCodes (rands : list (option (list Z))) : result terror (list string * list string) :=
  match rands with
  | [] => Ok ([], [])
  | None :: _ => Err ErrRand
  | Some raw :: rands =>
      let c := ToUpper (base32 raw) in
      let code := String.substring 0 5 c +:+ "-" +:+ String.substring 5 (String.length c - 5) c in
      let? r := newRecoveryCodes rands in
      Ok (code :: r.1, hex_encode (sha256 code) :: r.2)
  end.

Fixpoint drop_first (x : string) (l : list string) : option (list string) :=
  match l with
  | [] => None
  | p :: l => if String.eqb p x then Some l else cons p <$> drop_first x l
  end.

Definition recovery_hash (code : string) : string := hex_encode (sha256 (ToUpper (TrimSpace code))).

Definition consumeRecoveryCode (bundle code : string) : string * bool :=
  if String.eqb bundle "" || String.eqb code "" then (bundle, false)
  else match drop_first (recovery_hash code) (Split bar bundle) with
       | None => (bundle, false)
       | Some out => (Join bar out, true)
       end.
End codes.

(** ** Handlers ([totp.go]) *)
Definition defaultMaxFailedAttempts : Z := 5.
Definition defaultLockoutDuration : Z := 15 * Minute.

Record TOTPConfig := mkConfig {
  Pool : bool; Issuer : string; Env : option SecretsEnvelope; MaxFailedAttempts : Z; LockoutDuration : Z;
}.

Definition NewTOTPHandlers (cfg : TOTPConfig) : TOTPConfig :=
  mkConfig (Pool cfg) (if String.eqb (Issuer cfg) "" then "KMail" else Issuer cfg) (Env cfg)
    (if MaxFailedAttempts cfg <=? 0 then defaultMaxFailedAttempts else MaxFailedAttempts cfg)
    (if LockoutDuration cfg <=? 0 then defaultLockoutDuration else LockoutDuration cfg).

Inductive tresponse :=
| HTTPError (status : Z) (msg : string)
| TooMany (retryAfter : Z)
| Enrolled (uri secret : string)
| RecoveryCodes (codes : list string)
| Passed (method : string)
| Status (enrolled enabled : bool)
| NoContent.

(** Context and development headers of a request. *)
Record caller := mkCaller { ctxTenant : string; ctxUser : string; devTenant : string; devUser : string }.

Definition identity (r : caller) : result terror (string * string) :=
  if negb (String.eqb (ctxTenant r) "") && negb (String.eqb (ctxUser r) "") then Ok (ctxTenant r, ctxUser r)
  else if negb (String.eqb (devTenant r) "") && negb (String.eqb (devUser r) "") then Ok (devTenant r, devUser r)
  else Err ErrNoIdentity.

Definition wrapSecret (cfg : TOTPConfig) (nonce : option (list Z)) (secret : list Z) : result eerror (list Z) :=
  match Env cfg with None => Ok secret | Some E => Wrap E nonce secret end.
Definition unwrapSecret (cfg : TOTPConfig) (blob : list Z) : result eerror (list Z) :=
  match Env cfg with None => Ok blob | Some E => match Unwrap E blob with Ok (plain, _) => Ok plain | Err e => Err e end end.

(** [url.QueryEscape] and [url.PathEscape]. *)
Definition unreserved (n : N) : bool :=
  ((48 <=? n) && (n <=? 57) || (65 <=? n) && (n <=? 90) || (97 <=? n) && (n <=? 122)
   || (n =? 45) || (n =? 95) || (n =? 46) || (n =? 126))%N.
Definition percent (n : N) : list Ascii.ascii :=
  [Ascii.ascii_of_nat 37; pick "0123456789ABCDEF" (Z.of_N n / 16); pick "0123456789ABCDEF" (Z.of_N n mod 16)].
Definition query_byte (c : Ascii.ascii) : list Ascii.ascii :=
  let n := Ascii.N_of_ascii c in
  if unreserved n then [c] else if (n =? 32)%N then [Ascii.ascii_of_nat 43] else percent n.
Definition path_byte (c : Ascii.ascii) : list Ascii.ascii :=
  let n := Ascii.N_of_ascii c in
  if unreserved n || existsb (N.eqb n) [36; 38; 43; 58; 61; 64]%N then [c] else percent n.
Definition QueryEscape (s : string) : string := on_ascii (fun l => l ≫= query_byte) s.
Definition PathEscape (s : string) : string := on_ascii (fun l => l ≫= path_byte) s.

(** [url.Values.Encode] orders the keys. *)
Definition otpauthURI (cfg : TOTPConfig) (tenantID userID : string) (secret : list Z) : string :=
  "otpauth://totp/" +:+ PathEscape (Issuer cfg +:+ ":" +:+ userID) +:+ "?algorithm=SHA1&digits=6&issuer=" +:+ QueryEscape (Issuer cfg)
  +:+ "&period=30&secret=" +:+ QueryEscape (base32 secret)
  +:+ (if String.eqb tenantID "" then ""%string else "&tenant=" +:+ QueryEscape tenantID).

Definition writeLocked (remaining : Z) : tresponse :=
  let secs := Z.quot remaining Second in TooMany (if secs <? 1 then 1 else secs).

Section handlers.
Context `{OneWay} (cfg : TOTPConfig).

(** The closures.  [now'] is the clock they read. *)
Definition judge (now' : Z) (code : string) (byTotp : TOTPVerification) (byRecovery : string -> TOTPVerification) (c : TOTPCredential)
    : TOTPVerification :=
  match unwrapSecret cfg (EncryptedSecret c) with
  | Err e => aborted (ErrEnvelope e)
  | Ok sec =>
      if verifyCode sec code now' then byTotp
      else match consumeRecoveryCode (RecoveryCodesHash c) code with
           | (updated, true) => byRecovery updated
           | (_, false) => rejected
           end
  end.

Definition enroll_verdict (now' : Z) (code : string) (wrapped : list Z) (c : TOTPCredential) : TOTPVerification :=
  let v m := mkVerification true m (Some ""%string) (Some false) (Some wrapped) None in
  judge now' code (v "totp"%string) (fun _ => v "recovery"%string) c.

Definition verify_verdict (now' : Z) (code hashed : string) (c : TOTPCredential) : TOTPVerification :=
  if Enabled c then aborted ErrTOTPAlreadyEnabled
  else match unwrapSecret cfg (EncryptedSecret c) with
  | Err e => aborted (ErrEnvelope e)
  | Ok secret =>
      if verifyCode secret code now' then mkVerification true "totp" (Some hashed) (Some true) None None else rejected
  end.

Definition check_verdict (now' : Z) (code : string) (c : TOTPCredential) : TOTPVerification :=
  judge now' code (mkVerification true "totp" None None None None)
    (fun updated => mkVerification true "recovery" (Some updated) None None None) c.

Definition disable_verdict (now' : Z) (code : string) (c : TOTPCredential) : TOTPVerification :=
  let v m := mkVerification true m None None None None in
  judge now' code (v "totp"%string) (fun _ => v "recovery"%string) c.

Definition attempt (d : delivery) (t u : string) (now : Z) (requireEnabled : bool) (verdict : TOTPCredential -> TOTPVerification) (s : DB)
    : result terror TOTPAttemptResult * DB :=
  EvaluateAttempt (Pool cfg) d t u now (MaxFailedAttempts cfg) (LockoutDuration cfg) requireEnabled verdict s.

(** What a handler meets: the two transactions, the clocks at the first, in the
    closure and at the second, and the random source. *)
Record env := mkEnv { e_d : delivery; e_d' : delivery; e_now : Z; e_now' : Z; e_now2 : Z;
  e_secret : option (list Z); e_nonce : option (list Z); e_codes : nat -> option (list Z) }.

(** [body] is the code of the request, [None] for a body that does not decode;
    [enroll] and [disable] take an absent body for an empty code. *)
Definition with_identity {A : Type} (answered : tresponse -> A) (r : caller) (k : string -> string -> DB -> A * DB) (s : DB) : A * DB :=
  match identity r with
  | Err _ => (answered (HTTPError 401 "totp: caller has no identity"), s)
  | Ok (t, u) => k t u s
  end.

(** [enroll] and [disable] run a second transaction after the attempt was
    evaluated: a call is answered, or has that write ahead of it, and other
    calls may run in between. *)
Inductive progress := Answered (r : tresponse) | Writing (k : DB -> tresponse * DB).

Definition finish (x : progress * DB) : tresponse * DB :=
  match x.1 with Answered r => (r, x.2) | Writing k => k x.2 end.

Definition enroll_begin (E : env) (r : caller) (body : option string) (s : DB) : progress * DB :=
  with_identity Answered r (fun t u s =>
    match body with
    | None => (Answered (HTTPError 400 "invalid body"), s)
    | Some raw =>
        match e_secret E with
        | None => (Answered (HTTPError 500 "rand"), s)
        | Some secret =>
            match wrapSecret cfg (e_nonce E) secret with
            | Err _ => (Answered (HTTPError 500 "envelope"), s)
            | Ok wrapped =>
                let handed := Enrolled (otpauthURI cfg t u secret) (base32 secret) in
                let restart := Writing (fun s =>
                  let '(w, s) := Upsert (Pool cfg) (e_d' E) t u wrapped "" false (e_now2 E) s in
                  (match w with Err _ => HTTPError 500 "store" | Ok _ => handed end, s)) in
                let '(res, s) := attempt (e_d E) t u (e_now E) true (enroll_verdict (e_now' E) (TrimSpace raw) wrapped) s in
                (match res with
                 | Err ErrTOTPNotFound => restart
                 | Err _ => Answered (HTTPError 500 "store error")
                 | Ok res =>
                     if NotEnabled res then restart
                     else if Locked res then Answered (writeLocked (RetryAfter res))
                     else if negb (Verified res) then Answered (HTTPError 401 "current TOTP or recovery code required to re-enroll")
                     else Answered handed
                 end, s)
            end
        end
    end) s.

Definition enroll (E : env) (r : caller) (body : option string) (s : DB) : tresponse * DB :=
  finish (enroll_begin E r body s).

Definition verify (E : env) (r : caller) (body : option string) (s : DB) : tresponse * DB :=
  with_identity id r (fun t u s =>
    match body with
    | None => (HTTPError 400 "invalid body", s)
    | Some raw =>
        match newRecoveryCodes (e_codes E <$> seq 0 10) with
        | Err _ => (HTTPError 500 "rand", s)
        | Ok (codes, hashes) =>
            let '(res, s) := attempt (e_d E) t u (e_now E) false (verify_verdict (e_now' E) (TrimSpace raw) (Join bar hashes)) s in
            (match res with
             | Err ErrTOTPNotFound => HTTPError 400 "not enrolled"
             | Err ErrTOTPAlreadyEnabled => HTTPError 409 "already enrolled"
             | Err _ => HTTPError 500 "store error"
             | Ok res =>
                 if Locked res then writeLocked (RetryAfter res)
                 else if negb (Verified res) then HTTPError 401 "invalid code"
                 else RecoveryCodes codes
             end, s)
        end
    end) s.

Definition check (E : env) (r : caller) (body : option string) (s : DB) : tresponse * DB :=
  with_identity id r (fun t u s =>
    match body with
    | None => (HTTPError 400 "invalid body", s)
    | Some raw =>
        let '(res, s) := attempt (e_d E) t u (e_now E) true (check_verdict (e_now' E) (TrimSpace raw)) s in
        (match res with
         | Err ErrTOTPNotFound => HTTPError 401 "not enabled"
         | Err _ => HTTPError 500 "store error"
         | Ok res =>
             if NotEnabled res then HTTPError 401 "not enabled"
             else if Locked res then writeLocked (RetryAfter res)
             else if negb (Verified res) then HTTPError 401 "invalid code"
             else Passed (aMethod res)
         end, s)
    end) s.

Definition status (E : env) (r : caller) (s : DB) : tresponse * DB :=
  with_identity id r (fun t u s =>
    (match Get (Pool cfg) (e_d E) t u s with Err _ => Status false false | Ok c => Status true (Enabled c) end, s)) s.

Definition disable_begin (E : env) (r : caller) (body : option string) (s : DB) : progress * DB :=
  with_identity Answered r (fun t u s =>
    match body with
    | None => (Answered (HTTPError 400 "invalid body"), s)
    | Some raw =>
        let remove := Writing (fun s =>
          let '(w, s) := Delete (Pool cfg) (e_d' E) t u s in
          (match w with Err _ => HTTPError 500 "store" | Ok _ => NoContent end, s)) in
        let '(res, s) := attempt (e_d E) t u (e_now E) true (disable_verdict (e_now' E) (TrimSpace raw)) s in
        (match res with
         | Err ErrTOTPNotFound => Answered NoContent
         | Err _ => Answered (HTTPError 500 "store error")
         | Ok res =>
             if NotEnabled res then remove
             else if Locked res then Answered (writeLocked (RetryAfter res))
             else if negb (Verified res) then Answered (HTTPError 401 "current TOTP or recovery code required to disable")
             else remove
         end, s)
    end) s.

Definition disable (E : env) (r : caller) (body : option string) (s : DB) : tresponse * DB :=
  finish (disable_begin E r body s).
End handlers.

(** ** Histories *)
Inductive endpoint := OpEnroll | OpVerify | OpCheck | OpStatus | OpDisable.
Record call := mkCall { c_op : endpoint; c_env : env; c_caller : caller; c_body : option string }.

Section histories.
Context `{OneWay} (cfg : TOTPConfig).

(** The call up to its first transaction. *)
Definition begin (c : call) (s : DB) : progress * DB :=
  let done_ (x : tresponse * DB) := (Answered x.1, x.2) in
  match c_op c with
  | OpEnroll => enroll_begin cfg (c_env c) (c_caller c) (c_body c) s
  | OpVerify => done_ (verify cfg (c_env c) (c_caller c) (c_body c) s)
  | OpCheck => done_ (check cfg (c_env c) (c_caller c) (c_body c) s)
  | OpStatus => done_ (status cfg (c_env c) (c_caller c) s)
  | OpDisable => disable_begin cfg (c_env c) (c_caller c) (c_body c) s
  end.

Definition serve (c : call) (s : DB) : tresponse * DB := finish (begin c s).

Fixpoint play (cs : list call) (s : DB) : list tresponse * DB :=
  match cs with
  | [] => ([], s)
  | c :: cs => let '(r, s) := serve c s in let '(rs, s) := play cs s in (r :: rs, s)
  end.

Definition by_ (t u : string) (c : call) : bool :=
  match identity (c_caller c) with Ok (t', u') => String.eqb t' t && String.eqb u' u | Err _ => false end.

(** The submitted code is the current one, or an unused recovery code. *)
Definition proves (c : call) (cred : TOTPCredential) : bool :=
  match c_body c, unwrapSecret cfg (EncryptedSecret cred) with
  | Some raw, Ok sec =>
      verifyCode sec (TrimSpace raw) (e_now' (c_env c)) || (consumeRecoveryCode (RecoveryCodesHash cred) (TrimSpace raw)).2
  | _, _ => false
  end.

(** No call of the account submits a right code. *)
Fixpoint only_guesses (t u : string) (cs : list call) (s : DB) : Prop :=
  match cs with
  | [] => True
  | c :: cs =>
      (by_ t u c = true -> forall cred, creds s !! (t, u) = Some cred -> proves c cred = false) /\ only_guesses t u cs (serve c s).2
  end.

(** The answers that tell a caller its code was wrong, and when the account got
    them. *)
Definition refusal (r : tresponse) : bool :=
  match r with
  | HTTPError 401 m =>
      bool_decide (m ∈ ["invalid code"; "current TOTP or recovery code required to re-enroll"; "current TOTP or recovery code required to disable"])%string
  | _ => false
  end.

Definition guesses (t u : string) (cs : list call) (rs : list tresponse) : list Z :=
  (fun p => e_now (c_env p.1)) <$> List.filter (fun p => by_ t u p.1 && refusal p.2) (zip cs rs).

Definition maxAttempts : Z := if MaxFailedAttempts cfg <? 1 then 1 else MaxFailedAttempts cfg.
Definition unlocked (now : Z) (c : TOTPCredential) : Prop := match LockedUntil c with Some u => u <= now | None => True end.
Definition failed_at (now : Z) (c : TOTPCredential) : TOTPCredential := count_failure maxAttempts (micro (now + LockoutDuration cfg)) c.

(** ** What a wrong code does *)
Lemma identity_tenant r t u : identity r = Ok (t, u) -> t <> ""%string.
Proof.
  unfold identity. repeat case_match; intros [= <- <-]; breflect; done.
Qed.

Lemma attempt_wrong d t u now req v s c :
  Pool cfg = true -> t <> ""%string -> creds s !! (t, u) = Some c -> Enabled c = true -> OK (v c) = false -> VErr (v c) <> Some ErrTOTPNotFound ->
  let '(res, s') := attempt cfg d t u now req v s in
  (s' = s /\ match res with Ok a => Locked a = true /\ NotEnabled a = false | Err e => e <> ErrTOTPNotFound end) \/
  (s' = with_creds (<[(t, u) := failed_at now c]> (creds s)) s /\ unlocked now c /\ VErr (v c) = None /\ (res = Ok noAttempt \/ res = Err ErrStore)).
Proof.
  intros Hp Ht Hc He Hv Hn. unfold attempt, EvaluateAttempt. rewrite Hp. cbn [negb]. fold maxAttempts. unfold BeginFunc, evaluate, SetTenantGUC.
  rewrite (proj2 (String.eqb_neq t "") Ht), Hc, He, andb_false_r. cbn [rbind].
  set (rem := match LockedUntil c with Some u0 => u0 - now | None => 0 end).
  destruct (Z.ltb_spec 0 rem) as [Hr|Hr]; [destruct d; left; split; done|].
  assert (unlocked now c) as Hu by (unfold unlocked, rem in *; destruct (LockedUntil c); [lia|done]).
  destruct (VErr (v c)) as [e|] eqn:Ee; [destruct d; left; split; done || congruence|]. rewrite Hv. cbn [negb].
  destruct (_ || _); destruct d; try (left; split; done); right; split_and!; auto.
Qed.

Lemma proves_false c cred v :
  proves c cred = false -> match c_body c with None => True | Some raw =>
    (exists e, judge cfg (e_now' (c_env c)) (TrimSpace raw) v.1 v.2 cred = aborted (ErrEnvelope e)) \/
    judge cfg (e_now' (c_env c)) (TrimSpace raw) v.1 v.2 cred = rejected end.
Proof.
  unfold proves, judge. destruct (c_body c) as [raw|]; [|done]. destruct (unwrapSecret cfg _) as [sec|e]; [|left; by exists e].
  intros [-> Hc]%orb_false_elim. destruct (consumeRecoveryCode _ _) as [b ok]. cbn in Hc. subst ok. by right.
Qed.

Lemma judged_wrong x : (exists e, x = aborted (ErrEnvelope e)) \/ x = rejected -> OK x = false /\ VErr x <> Some ErrTOTPNotFound.
Proof. intros [[e ->]| ->]; done. Qed.

(** One call of an account whose factor is enabled, with a wrong code: it is
    answered after the first transaction. *)
Lemma begin_wrong c t u s cred :
  Pool cfg = true -> identity (c_caller c) = Ok (t, u) -> creds s !! (t, u) = Some cred -> Enabled cred = true -> proves c cred = false ->
  exists r s', begin c s = (Answered r, s') /\
  ((s' = s /\ refusal r = false) \/
  (s' = with_creds (<[(t, u) := failed_at (e_now (c_env c)) cred]> (creds s)) s /\ unlocked (e_now (c_env c)) cred)).
Proof.
  intros Hp Hid Hc He Hw. pose proof (identity_tenant _ _ _ Hid) as Ht.
  assert (forall req v, OK (v cred) = false -> VErr (v cred) <> Some ErrTOTPNotFound -> _) as Ha
    by exact (fun req v => attempt_wrong (e_d (c_env c)) t u (e_now (c_env c)) req v s cred Hp Ht Hc He).
  assert (forall v, match c_body c with None => True | Some raw =>
    OK (judge cfg (e_now' (c_env c)) (TrimSpace raw) v.1 v.2 cred) = false /\
    VErr (judge cfg (e_now' (c_env c)) (TrimSpace raw) v.1 v.2 cred) <> Some ErrTOTPNotFound end) as Hj.
  { intros v. pose proof (proves_false c cred v Hw) as H0. destruct (c_body c); [|done]. by apply judged_wrong. }
  unfold begin, enroll_begin, verify, check, status, disable_begin, with_identity. rewrite Hid.
  destruct (c_op c), (c_body c) as [raw|]; try (eexists _, _; split; [reflexivity|]; by left);
    try (eexists _, _; split; [reflexivity|]; left; split; [done|]; by destruct (Get _ _ _ _ _)).
  - destruct (e_secret _) as [sec|]; [|eexists _, _; split; [reflexivity|]; by left].
    destruct (wrapSecret _ _ _) as [w|]; [|eexists _, _; split; [reflexivity|]; by left].
    destruct (Hj (mkVerification true "totp" (Some ""%string) (Some false) (Some w) None, fun _ => mkVerification true "recovery" (Some ""%string) (Some false) (Some w) None)) as [J1 J2].
    specialize (Ha true (enroll_verdict cfg (e_now' (c_env c)) (TrimSpace raw) w) J1 J2).
    destruct (attempt _ _ _ _ _ _ _ _) as [res s']. destruct Ha as [[-> Hr]|(-> & Hu & _ & [-> | ->])]; [|eexists _, _; split; [reflexivity|]; by right..].
    destruct res as [a|[]]; try (eexists _, _; split; [reflexivity|]; by left); [|done].
    destruct Hr as [Hl Hn]. rewrite Hl, Hn. eexists _, _. split; [reflexivity|]. by left.
  - destruct (newRecoveryCodes _) as [[codes hashes]|]; [|eexists _, _; split; [reflexivity|]; by left].
    specialize (Ha false (verify_verdict cfg (e_now' (c_env c)) (TrimSpace raw) (Join bar hashes))).
    unfold verify_verdict in *. rewrite He in Ha. specialize (Ha eq_refl ltac:(done)).
    destruct (attempt _ _ _ _ _ _ _ _) as [res s']. destruct Ha as [[-> Hr]|(_ & _ & Hx & _)]; [|done].
    eexists _, _. split; [reflexivity|]. left. split; [done|]. destruct res as [a|[]]; try done. destruct Hr as [Hl Hn]. simpl. by rewrite Hl.
  - destruct (Hj (mkVerification true "totp" None None None None, fun b => mkVerification true "recovery" (Some b) None None None)) as [J1 J2].
    specialize (Ha true (check_verdict cfg (e_now' (c_env c)) (TrimSpace raw)) J1 J2).
    destruct (attempt _ _ _ _ _ _ _ _) as [res s']. eexists _, _. split; [reflexivity|]. destruct Ha as [[-> Hr]|(-> & Hu & _ & [-> | ->])]; [|by right..].
    left. split; [done|]. destruct res as [a|[]]; try done. destruct Hr as [Hl Hn]. simpl. by rewrite Hl, Hn.
  - destruct (Hj (mkVerification true "totp" None None None None, fun _ => mkVerification true "recovery" None None None None)) as [J1 J2].
    specialize (Ha true (disable_verdict cfg (e_now' (c_env c)) (TrimSpace raw)) J1 J2).
    destruct (attempt _ _ _ _ _ _ _ _) as [res s']. destruct Ha as [[-> Hr]|(-> & Hu & _ & [-> | ->])]; [|eexists _, _; split; [reflexivity|]; by right..].
    destruct res as [a|[]]; try (eexists _, _; split; [reflexivity|]; by left). destruct Hr as [Hl Hn]. rewrite Hl, Hn.
    eexists _, _. split; [reflexivity|]. by left.
Qed.

Lemma serve_wrong c t u s cred :
  Pool cfg = true -> identity (c_caller c) = Ok (t, u) -> creds s !! (t, u) = Some cred -> Enabled cred = true -> proves c cred = false ->
  let '(r, s') := serve c s in
  (s' = s /\ refusal r = false) \/
  (s' = with_creds (<[(t, u) := failed_at (e_now (c_env c)) cred]> (creds s)) s /\ unlocked (e_now (c_env c)) cred).
Proof.
  intros Hp Hid Hc He Hw. unfold serve. by destruct (begin_wrong c t u s cred Hp Hid Hc He Hw) as (r & s' & -> & H0).
Qed.

(** ** Other accounts *)
Lemma evaluate_other t' u' now m l req v s a s' k :
  k <> (t', u') -> evaluate t' u' now m l req v s = Ok (a, s') -> creds s' !! k = creds s !! k.
Proof.
  intros Hk. unfold evaluate. destruct (SetTenantGUC t'); [|done]. cbn [rbind]. destruct (creds s !! (t', u')); [|done].
  repeat (case_match; try done); intros [= _ <-]; cbn; try done; by rewrite lookup_insert_ne.
Qed.

Lemma attempt_other d t' u' now req v s k : k <> (t', u') -> creds (attempt cfg d t' u' now req v s).2 !! k = creds s !! k.
Proof.
  intros Hk. unfold attempt, EvaluateAttempt. destruct (Pool cfg); [|done]. cbn [negb].
  apply (BeginFunc_ind (fun x => creds x !! k = creds s !! k)); [done|]. intros a s' E. by eapply evaluate_other.
Qed.

Lemma upsert_other d t' u' es rh en now s k : k <> (t', u') -> creds (Upsert (Pool cfg) d t' u' es rh en now s).2 !! k = creds s !! k.
Proof.
  intros Hk. unfold Upsert. destruct (Pool cfg); [|done]. cbn [negb].
  apply (BeginFunc_ind (fun x => creds x !! k = creds s !! k)); [done|]. intros a s'. unfold SetTenantGUC.
  destruct (String.eqb t' ""); [done|]. cbn [rbind]. case_match; [done|]. intros [= _ <-]. cbn. by rewrite lookup_insert_ne.
Qed.

Lemma delete_other d t' u' s k : k <> (t', u') -> creds (Delete (Pool cfg) d t' u' s).2 !! k = creds s !! k.
Proof.
  intros Hk. unfold Delete. destruct (Pool cfg); [|done]. cbn [negb].
  apply (BeginFunc_ind (fun x => creds x !! k = creds s !! k)); [done|]. intros a s'. unfold SetTenantGUC.
  destruct (String.eqb t' ""); [done|]. cbn [rbind]. intros [= _ <-]. cbn. by rewrite lookup_delete_ne.
Qed.

(** A call of another account leaves the credential alone, before its write and
    by it, whenever it comes. *)
Lemma begin_other c t u s : by_ t u c = false ->
  creds (begin c s).2 !! (t, u) = creds s !! (t, u) /\
  forall k, (begin c s).1 = Writing k -> forall s', creds (k s').2 !! (t, u) = creds s' !! (t, u).
Proof.
  unfold by_, begin, enroll_begin, verify, check, status, disable_begin, with_identity. intros Hb.
  destruct (identity (c_caller c)) as [[t' u']|e]; [|by destruct (c_op c)].
  assert ((t, u) <> (t', u')) as Hne by (intros [= -> ->]; by rewrite !String.eqb_refl in Hb).
  set (E := c_env c). destruct (c_op c), (c_body c) as [raw|]; try done.
  - destruct (e_secret E); [|done]. destruct (wrapSecret _ _ _) as [w|]; [|done].
    pose proof (attempt_other (e_d E) t' u' (e_now E) true (enroll_verdict cfg (e_now' E) (TrimSpace raw) w) s (t, u) Hne) as Ha.
    destruct (attempt _ _ _ _ _ _ _ _) as [res s1]. cbn in Ha. split; [exact Ha|].
    intros k Hk s'. pose proof (upsert_other (e_d' E) t' u' w "" false (e_now2 E) s' (t, u) Hne) as Hu. revert Hk.
    cbn [fst]. repeat case_match; intros [= <-]; by destruct (Upsert _ _ _ _ _ _ _ _ _).
  - destruct (newRecoveryCodes _) as [[codes hashes]|]; [|done].
    pose proof (attempt_other (e_d E) t' u' (e_now E) false (verify_verdict cfg (e_now' E) (TrimSpace raw) (Join bar hashes)) s (t, u) Hne) as Ha.
    by destruct (attempt _ _ _ _ _ _ _ _).
  - pose proof (attempt_other (e_d E) t' u' (e_now E) true (check_verdict cfg (e_now' E) (TrimSpace raw)) s (t, u) Hne) as Ha.
    by destruct (attempt _ _ _ _ _ _ _ _).
  - pose proof (attempt_other (e_d E) t' u' (e_now E) true (disable_verdict cfg (e_now' E) (TrimSpace raw)) s (t, u) Hne) as Ha.
    destruct (attempt _ _ _ _ _ _ _ _) as [res s1]. cbn in Ha. split; [exact Ha|].
    intros k Hk s'. pose proof (delete_other (e_d' E) t' u' s' (t, u) Hne) as Hu. revert Hk.
    cbn [fst]. repeat case_match; intros [= <-]; by destruct (Delete _ _ _ _ _).
Qed.

Lemma serve_other c t u s : by_ t u c = false -> creds (serve c s).2 !! (t, u) = creds s !! (t, u).
Proof.
  intros Hb. destruct (begin_other c t u s Hb) as [H1 H2]. unfold serve, finish.
  destruct (begin c s) as [[r|k] s1]; [done|]. cbn in *. by rewrite H2.
Qed.

(** ** The lockout over a history *)
Definition same_factor (c c' : TOTPCredential) : Prop :=
  EncryptedSecret c' = EncryptedSecret c /\ RecoveryCodesHash c' = RecoveryCodesHash c /\ Enabled c' = Enabled c.

(** Guesses so far, oldest first: those before the last lock, and fewer than
    [maxAttempts] since. *)
Definition spaced (g : list Z) : Prop :=
  forall i a b, g !! i = Some a -> g !! (i + Z.to_nat maxAttempts)%nat = Some b -> micro (a + LockoutDuration cfg) <= b.

Record watched (g : list Z) (c : TOTPCredential) : Prop := mkWatched {
  w_spaced : spaced g;
  w_split : exists old recent, g = old ++ recent /\ Z.of_nat (length recent) < maxAttempts /\ Z.of_nat (length recent) <= FailedAttempts c /\
    forall a, a ∈ old -> exists u, LockedUntil c = Some u /\ micro (a + LockoutDuration cfg) <= u;
}.

Lemma maxAttempts_pos : 1 <= maxAttempts.
Proof. unfold maxAttempts. destruct (Z.ltb_spec (MaxFailedAttempts cfg) 1); lia. Qed.

Lemma micro_mono a b : a <= b -> micro a <= micro b.
Proof. intros. unfold micro. apply Z.mul_le_mono_nonneg_r; [lia|]. by apply Z.div_le_mono. Qed.

Lemma watched_guess g c now : watched g c -> unlocked now c -> (forall a, a ∈ g -> a <= now) -> watched (g ++ [now]) (failed_at now c).
Proof.
  intros [Hs (old & recent & -> & Hm & Hf & Ho)] Hu Hle. pose proof maxAttempts_pos as Hpos.
  assert (spaced ((old ++ recent) ++ [now])) as Hsp.
  { intros i a b Ha Hb. pose proof (lookup_lt_Some _ _ _ Hb) as Hlt. rewrite length_app in Hlt. cbn in Hlt.
    destruct (decide (i + Z.to_nat maxAttempts < length (old ++ recent)))%nat as [Hin|Hin].
    - rewrite lookup_app_l in Hb by done. rewrite lookup_app_l in Ha by lia. by eapply Hs.
    - assert (i + Z.to_nat maxAttempts = length (old ++ recent))%nat as E by lia. rewrite E in Hb.
      rewrite lookup_app_r in Hb by lia. rewrite Nat.sub_diag in Hb. injection Hb as <-. rewrite length_app in E.
      rewrite <- app_assoc, lookup_app_l in Ha by lia. apply list_elem_of_lookup_2 in Ha.
      destruct (Ho a Ha) as (u & Eu & Hmu). unfold unlocked in Hu. rewrite Eu in Hu. lia. }
  split; [done|]. unfold failed_at, count_failure. cbn. destruct (Z.leb_spec maxAttempts (FailedAttempts c + 1)) as [Hfull|Hroom].
  - exists ((old ++ recent) ++ [now]), []. rewrite app_nil_r. cbn. split_and!; [done|lia|lia|]. intros a Ha.
    eexists. split; [reflexivity|]. apply micro_mono. apply elem_of_app in Ha as [Ha|Ha%list_elem_of_singleton]; [specialize (Hle a Ha)|]; lia.
  - exists old, (recent ++ [now]). rewrite app_assoc, length_app, Nat2Z.inj_add. cbn. split_and!; [done|lia|lia|done].
Qed.

(** A failure whose answer was lost is counted, though no guess was answered. *)
Lemma watched_silent g c now : watched g c -> (forall a, a ∈ g -> a <= now) -> watched g (failed_at now c).
Proof.
  intros [Hs (old & recent & -> & Hm & Hf & Ho)] Hle. pose proof maxAttempts_pos. split; [done|].
  unfold failed_at, count_failure. cbn. destruct (Z.leb_spec maxAttempts (FailedAttempts c + 1)) as [Hfull|Hroom].
  - exists (old ++ recent), []. rewrite app_nil_r. cbn. split_and!; [done|lia|lia|]. intros a Ha.
    eexists. split; [reflexivity|]. apply micro_mono. specialize (Hle a Ha). lia.
  - exists old, recent. split_and!; [done|lia|lia|done].
Qed.

Definition clocks (t u : string) (cs : list call) : list Z := (fun c => e_now (c_env c)) <$> List.filter (by_ t u) cs.

Lemma play_guesses t u cs : Pool cfg = true -> forall g s c,
  creds s !! (t, u) = Some c -> Enabled c = true -> watched g c -> only_guesses t u cs s ->
  StronglySorted Z.le (clocks t u cs) -> (forall a b, a ∈ g -> b ∈ clocks t u cs -> a <= b) ->
  let '(rs, s') := play cs s in
  spaced (g ++ guesses t u cs rs) /\ exists c', creds s' !! (t, u) = Some c' /\ same_factor c c'.
Proof.
  intros Hp. induction cs as [|x cs IH]; intros g s c Hc He Hw Hg Hsort Hle; cbn [play].
  { unfold guesses. cbn. rewrite app_nil_r. split; [apply Hw|]. exists c. by split; [|split_and!]. }
  destruct Hg as [Hx Hg]. unfold clocks in Hsort, Hle. cbn [List.filter] in Hsort, Hle. fold (clocks t u cs) in *.
  destruct (by_ t u x) eqn:Eb.
  - assert (identity (c_caller x) = Ok (t, u)) as Hid.
    { unfold by_ in Eb. destruct (identity _) as [[t' u']|]; [|done]. breflect. by subst. }
    pose proof (serve_wrong x t u s c Hp Hid Hc He (Hx eq_refl c Hc)) as Hs. destruct (serve x s) as [r s1] eqn:Er.
    rewrite fmap_cons in Hsort, Hle. fold (clocks t u cs) in *. inversion_clear Hsort as [|? ? Hsort' Hall]. rewrite Forall_forall in Hall.
    assert (forall a, a ∈ g -> a <= e_now (c_env x)) as Hpast by (intros a Ha; apply Hle; set_solver).
    set (g' := if refusal r then g ++ [e_now (c_env x)] else g).
    assert (exists c1, creds s1 !! (t, u) = Some c1 /\ watched g' c1 /\ same_factor c c1) as (c1 & Hc1 & Hw1 & F1 & F2 & F3).
    { destruct Hs as [[-> Hr]|[-> Hu]].
      - unfold g'. rewrite Hr. exists c. by split_and!.
      - exists (failed_at (e_now (c_env x)) c). split; [cbn; by rewrite lookup_insert_eq|]. split; [|by split_and!].
        unfold g'. destruct (refusal r); [by apply watched_guess|by apply watched_silent]. }
    specialize (IH g' s1 c1 Hc1 ltac:(congruence) Hw1 Hg Hsort').
    assert (forall a b, a ∈ g' -> b ∈ clocks t u cs -> a <= b) as Hle'.
    { intros a b Ha Hb. unfold g' in Ha. destruct (refusal r); [apply elem_of_app in Ha as [Ha|Ha%list_elem_of_singleton]; [|subst; by apply Hall]|]; apply Hle; set_solver. }
    specialize (IH Hle'). destruct (play cs s1) as [rs s2]. unfold guesses. cbn [zip zip_with List.filter fst snd]. rewrite Eb. cbn [andb].
    destruct IH as [IH1 (c' & Hc' & G1 & G2 & G3)]. split; [|exists c'; split; [done|]; split_and!; congruence].
    unfold g' in IH1. destruct (refusal r); [|done]. rewrite fmap_cons. by rewrite <- app_assoc in IH1.
  - pose proof (serve_other x t u s Eb) as Hs. destruct (serve x s) as [r s1]. cbn in Hs, Hg.
    specialize (IH g s1 c ltac:(congruence) He Hw Hg Hsort Hle). destruct (play cs s1) as [rs s2].
    unfold guesses. cbn [zip zip_with List.filter fst snd]. rewrite Eb. cbn [andb]. by fold (guesses t u cs rs).
Qed.

(** ** Calls that overlap

    A call begins with its first transaction; the write it has ahead of it,
    if any, comes at any later time, or never, when the process dies. *)
Inductive move := Begin (c : call) | Finish (i : nat).

Definition flight : Type := call * (DB -> tresponse * DB).

Definition in_flight (x : flight) : Prop := exists s s', begin x.1 s = (Writing x.2, s').

Definition move_ (m : move) (x : DB * list flight) : DB * list flight :=
  match m with
  | Begin c =>
      match begin c x.1 with (Answered _, s) => (s, x.2) | (Writing k, s) => (s, x.2 ++ [(c, k)]) end
  | Finish i => match x.2 !! i with Some f => ((f.2 x.1).2, delete i x.2) | None => x end
  end.

Fixpoint roam (ms : list move) (x : DB * list flight) : DB * list flight :=
  match ms with [] => x | m :: ms => roam ms (move_ m x) end.

(** No call the account begins submits a right code. *)
Fixpoint roaming_guesses (t u : string) (ms : list move) (x : DB * list flight) : Prop :=
  match ms with
  | [] => True
  | m :: ms =>
      match m with
      | Begin c => by_ t u c = true -> forall cred, creds x.1 !! (t, u) = Some cred -> proves c cred = false
      | Finish _ => True
      end /\ roaming_guesses t u ms (move_ m x)
  end.
End histories.

Section theorems.
Context `{OWL : OneWayLaws} (cfg : TOTPConfig).

Lemma factor_kept_begin x t u s c : Pool cfg = true ->
  creds s !! (t, u) = Some c -> Enabled c = true ->
  (by_ t u x = true -> forall cred, creds s !! (t, u) = Some cred -> proves cfg x cred = false) ->
  (exists c1, creds (begin cfg x s).2 !! (t, u) = Some c1 /\ same_factor c c1) /\
  (by_ t u x = true -> forall k, (begin cfg x s).1 <> Writing k).
Proof.
  intros Hp Hc He Hx. destruct (by_ t u x) eqn:Eb.
  - assert (identity (c_caller x) = Ok (t, u)) as Hid.
    { unfold by_ in Eb. destruct (identity _) as [[t' u']|]; [|done]. breflect. by subst. }
    destruct (begin_wrong cfg x t u s c Hp Hid Hc He (Hx eq_refl c Hc)) as (r & s' & -> & Hs). split; [|done].
    destruct Hs as [[-> _]|[-> _]]; [exists c; by split_and!|]. eexists. cbn. rewrite lookup_insert_eq. split; [done|]. by split_and!.
  - split; [|done]. exists c. rewrite (proj1 (begin_other cfg x t u s Eb)). by split_and!.
Qed.

Lemma roam_factor t u ms : Pool cfg = true -> forall s p c,
  creds s !! (t, u) = Some c -> Enabled c = true ->
  Forall (fun x => in_flight cfg x /\ by_ t u x.1 = false) p -> roaming_guesses cfg t u ms (s, p) ->
  exists c', creds (roam cfg ms (s, p)).1 !! (t, u) = Some c' /\ same_factor c c'.
Proof.
  intros Hp. induction ms as [|[x|i] ms IH]; intros s p c Hc He Hfl Hg; cbn [roam]; [exists c; by split_and!|..].
  - destruct Hg as [Hx Hg]. cbn [move_ fst snd] in *.
    destruct (factor_kept_begin x t u s c Hp Hc He Hx) as [(c1 & Hc1 & F1 & F2 & F3) Hk].
    destruct (begin cfg x s) as [[r|k] s1] eqn:Eb; cbn in *.
    + destruct (IH s1 p c1 Hc1 ltac:(congruence) Hfl Hg) as (c' & Hc' & G1 & G2 & G3). exists c'. split; [done|]. split_and!; congruence.
    + destruct (IH s1 (p ++ [(x, k)]) c1 Hc1 ltac:(congruence)) as (c' & Hc' & G1 & G2 & G3); [|done|exists c'; split; [done|]; split_and!; congruence].
      apply Forall_app. split; [done|]. apply Forall_singleton. split; [by exists s, s1|].
      cbn. destruct (by_ t u x); [|done]. by destruct (Hk eq_refl k).
  - destruct Hg as [_ Hg]. cbn [move_ fst snd] in *. destruct (p !! i) as [[x k]|] eqn:Ei; [|by apply IH].
    destruct (proj1 (Forall_lookup _ _) Hfl i (x, k) Ei) as [(s0 & s1 & Hb) Hby]. cbn in Hb, Hby.
    apply IH; [|done|by apply Forall_delete|done]. cbn.
    destruct (begin_other cfg x t u s0 Hby) as [_ Hk]. rewrite Hb in Hk. by rewrite (Hk k).
Qed.

(** ** Codes are six digits *)
Lemma pad6_length v : String.length (pad6 v) = 6%nat.
Proof. unfold pad6, pad2, digit. reflexivity. Qed.

Lemma verifyCode_spec secret code now :
  verifyCode secret code now = true <-> exists delta, -1 <= delta <= 1 /\ code = generateHOTP secret (step_of now + delta).
Proof.
  unfold verifyCode. split.
  - destruct (_ =? _)%nat; [|done]. cbn [negb]. intros (x & Hx & E)%existsb_elem. exists x. breflect. set_unfold in Hx. split; [lia|done].
  - intros (x & Hx & ->). unfold generateHOTP at 1. rewrite pad6_length. cbn [Nat.eqb negb]. apply existsb_elem. exists x.
    split; [set_unfold; lia|]. apply String.eqb_refl.
Qed.

(** A device whose clock is within half a minute shows an accepted code. *)
Lemma step_drift now dev : 0 <= now -> 0 <= dev -> Z.abs (dev - now) <= 30 * Second -> Z.abs (step_of dev - step_of now) <= 1.
Proof.
  intros Hn Hd Ha. unfold step_of, Unix. assert (0 <= now / Second /\ 0 <= dev / Second) as [H1 H2] by (split; apply Z.div_pos; unfold Second, Millisecond; lia).
  rewrite !Z.quot_div_nonneg by lia. rewrite !Z.div_div by (unfold Second, Millisecond; lia). revert Ha. change (30 * Second) with 30000000000.
  change (Second * 30) with 30000000000. intros Ha. Z.div_mod_to_equations. lia.
Qed.

Lemma device_code secret now dev : 0 <= now -> 0 <= dev -> Z.abs (dev - now) <= 30 * Second ->
  verifyCode secret (generateHOTP secret (step_of dev)) now = true.
Proof.
  intros Hn Hd Ha. apply verifyCode_spec. exists (step_of dev - step_of now). pose proof (step_drift now dev Hn Hd Ha). split; [lia|]. f_equal. lia.
Qed.

(** ** Recovery codes *)
Lemma drop_first_spec x l out : drop_first x l = Some out -> exists l1 l2, l = l1 ++ x :: l2 /\ out = l1 ++ l2 /\ x ∉ l1.
Proof.
  revert out. induction l as [|p l IH]; intros out; cbn; [done|]. destruct (String.eqb_spec p x) as [->|Hne].
  - intros [= <-]. exists [], l. split_and!; [done|done|apply not_elem_of_nil].
  - destruct (drop_first x l) as [o|]; [|done]. intros [= <-]. destruct (IH o eq_refl) as (l1 & l2 & -> & -> & Hx).
    exists (p :: l1), l2. split_and!; [done|done|]. rewrite not_elem_of_cons. by split.
Qed.

Lemma drop_first_none x l : drop_first x l = None <-> x ∉ l.
Proof.
  induction l as [|p l IH]; cbn; [split; [intros _; apply not_elem_of_nil|done]|]. rewrite not_elem_of_cons.
  destruct (String.eqb_spec p x) as [->|Hne]; [naive_solver|]. destruct (drop_first x l); naive_solver.
Qed.

Lemma recovery_hash_nonempty code : recovery_hash code <> ""%string.
Proof.
  intros E. apply (f_equal String.length) in E. unfold recovery_hash in E. rewrite hex_length in E.
  destruct (sha256_bytes (ToUpper (TrimSpace code))) as [_ Hl]. rewrite Hl in E. done.
Qed.

Lemma consume_iff bundle code : bundle <> ""%string -> code <> ""%string ->
  (consumeRecoveryCode bundle code).2 = true <-> recovery_hash code ∈ Split bar bundle.
Proof.
  intros Hb Hc. unfold consumeRecoveryCode. rewrite (proj2 (String.eqb_neq _ _) Hb), (proj2 (String.eqb_neq _ _) Hc). cbn [orb].
  destruct (drop_first _ _) as [out|] eqn:E; cbn.
  - apply drop_first_spec in E as (l1 & l2 & -> & _). split; [set_solver|done].
  - apply drop_first_none in E. split; [done|]. contradiction.
Qed.

(** Using a code strikes it, and only it, from the bundle. *)
Lemma consume_strikes bundle code updated : NoDup (Split bar bundle) -> consumeRecoveryCode bundle code = (updated, true) ->
  forall other, other <> ""%string ->
    (consumeRecoveryCode updated other).2 = (consumeRecoveryCode bundle other).2 && negb (String.eqb (recovery_hash other) (recovery_hash code)).
Proof.
  intros Hnd Hc other Ho. unfold consumeRecoveryCode in Hc. destruct (String.eqb bundle "" || String.eqb code "") eqn:Eb; [done|]. breflect.
  destruct (drop_first _ _) as [out|] eqn:E; [|done]. injection Hc as <-. apply drop_first_spec in E as (l1 & l2 & El & -> & Hx).
  pose proof (Split_parts bar bundle) as [Hp _]. rewrite El in Hnd, Hp. apply NoDup_app in Hnd as (_ & Hd & Hnd). apply NoDup_cons in Hnd as [Hx2 _].
  assert (bundle <> ""%string) as Hb0 by done.
  destruct (decide (l1 ++ l2 = [])) as [E0|Hne].
  - rewrite E0. cbn. destruct (consumeRecoveryCode bundle other).2 eqn:Ec; [|done]. apply consume_iff in Ec; [|done..]. rewrite El in Ec.
    apply app_nil in E0 as [-> ->]. apply list_elem_of_singleton in Ec as ->. by rewrite String.eqb_refl.
  - assert (Split bar (Join bar (l1 ++ l2)) = l1 ++ l2) as Es.
    { apply Split_Join; [done|]. rewrite Forall_app in Hp. destruct Hp as [Hp1 Hp2]. inversion_clear Hp2. apply Forall_app. by split. }
    assert (forall h, h <> recovery_hash code -> h ∈ l1 ++ recovery_hash code :: l2 <-> h ∈ l1 ++ l2) as Hin by set_solver.
    apply eq_true_iff_eq. rewrite andb_true_iff, negb_true_iff, String.eqb_neq, (consume_iff bundle), El by done.
    destruct (decide (Join bar (l1 ++ l2) = ""%string)) as [Ej|Ej].
    + rewrite Ej in *. cbn in Es |- *. split; [done|]. intros [Hi Hn]. apply Hin in Hi; [|done]. rewrite <- Es in Hi.
      apply list_elem_of_singleton in Hi. by apply recovery_hash_nonempty in Hi.
    + rewrite consume_iff, Es by done. split.
      * intros Hi. split; [set_solver|]. intros E. rewrite E in Hi. set_solver.
      * intros [Hi Hn]. by apply Hin.
Qed.

(** ** A check that passes *)
Lemma check_passed E r raw s m s1 : check cfg E r (Some raw) s = (Passed m, s1) ->
  exists t u c v, identity r = Ok (t, u) /\ creds s !! (t, u) = Some c /\ Enabled c = true /\ v = check_verdict cfg (e_now' E) (TrimSpace raw) c /\
    OK v = true /\ Method v = m /\ creds s1 !! (t, u) = Some (record_success (e_now E) v c).
Proof.
  unfold check, with_identity. destruct (identity r) as [[t u]|] eqn:Hid; [|done].
  unfold attempt, EvaluateAttempt. destruct (Pool cfg); [|done]. cbn [negb].
  unfold BeginFunc, evaluate, SetTenantGUC. destruct (String.eqb t ""); [by destruct (e_d E)|]. cbn [rbind].
  destruct (creds s !! (t, u)) as [c|] eqn:Hc; [|by destruct (e_d E)]. set (v := check_verdict cfg (e_now' E) (TrimSpace raw) c).
  destruct (Enabled c) eqn:He; cbn [negb andb]; [|by destruct (e_d E)].
  destruct (0 <? _); [destruct (e_d E); cbn; unfold writeLocked; by intros|].
  destruct (VErr v) as [err|]; [by destruct (e_d E), err|].
  destruct (OK v) eqn:Hok; cbn [negb]; [|destruct (_ || _); by destruct (e_d E)].
  destruct (e_d E); [|done..]. cbn. intros [= <- <-]. exists t, u, c, v. split_and!; try done. cbn. by rewrite lookup_insert_eq.
Qed.

(** A verdict by a recovery code. *)
Lemma check_by_recovery now' code c : OK (check_verdict cfg now' code c) = true -> Method (check_verdict cfg now' code c) = "recovery"%string ->
  exists updated, consumeRecoveryCode (RecoveryCodesHash c) code = (updated, true) /\ SetRecoveryHash (check_verdict cfg now' code c) = Some updated.
Proof.
  unfold check_verdict, judge. destruct (unwrapSecret _ _); [|done]. destruct (verifyCode _ _ _); [done|].
  destruct (consumeRecoveryCode _ _) as [b []]; [|done]. intros _ _. by exists b.
Qed.

(** ** An accepted attempt *)
Lemma attempt_accepted d t u now req v s c :
  Pool cfg = true -> d = Delivered -> t <> ""%string -> creds s !! (t, u) = Some c -> (req = true -> Enabled c = true) -> unlocked now c ->
  OK (v c) = true -> VErr (v c) = None ->
  attempt cfg d t u now req v s =
    (Ok (mkAttempt false false 0 true (Method (v c))), with_creds (<[(t, u) := record_success now (v c) c]> (creds s)) s).
Proof.
  intros Hp -> Ht Hc He Hu Hok Hv. unfold attempt, EvaluateAttempt, BeginFunc, evaluate, SetTenantGUC. rewrite Hp.
  rewrite (proj2 (String.eqb_neq t "") Ht). cbn [negb rbind]. rewrite Hc.
  replace (req && negb (Enabled c)) with false by (destruct req; [by rewrite He|done]).
  assert ((0 <? match LockedUntil c with Some u0 => u0 - now | None => 0 end) = false) as ->.
  { apply Z.ltb_ge. unfold unlocked in Hu. destruct (LockedUntil c); lia. }
  by rewrite Hv, Hok.
Qed.

(** ** Minted recovery codes *)
Lemma on_ascii_chars s : String.list_ascii_of_string (ToUpper s) = ascii_upper <$> String.list_ascii_of_string s.
Proof. unfold ToUpper, on_ascii. apply String.list_ascii_of_string_of_list_ascii. Qed.

Lemma substring_chars (Q : Ascii.ascii -> Prop) n m s :
  Forall Q (String.list_ascii_of_string s) -> Forall Q (String.list_ascii_of_string (String.substring n m s)).
Proof.
  revert n m. induction s as [|c s IH]; intros [|n] [|m] Hs; cbn; try constructor; inversion_clear Hs; try done; by apply IH.
Qed.

Definition tidy (c : Ascii.ascii) : bool := negb (ascii_space c) && Ascii.eqb (ascii_upper c) c.

Lemma tidy_fixed s : Forall (fun c => tidy c = true) (String.list_ascii_of_string s) -> ToUpper (TrimSpace s) = s.
Proof.
  intros H0. rewrite TrimSpace_none by (eapply Forall_impl; [exact H0|]; by intros c [? _]%andb_prop).
  apply list_ascii_inj. rewrite on_ascii_chars. etransitivity; [|apply list_fmap_id].
  induction H0 as [|c l Hc _ IH]; [done|]. rewrite !fmap_cons, IH. f_equal. unfold tidy in Hc. breflect. by apply Ascii.eqb_eq.
Qed.

Definition minted (code : string) (hash : string) : Prop :=
  Forall (fun c => tidy c = true) (String.list_ascii_of_string code) /\ (exists c s, code = String.String c s) /\ String.length code <> 6%nat /\
  hash = recovery_hash code /\ free_of bar hash.

Lemma minted_code raw : length raw = 6%nat -> let c := ToUpper (base32 raw) in
  let code := String.substring 0 5 c +:+ "-" +:+ String.substring 5 (String.length c - 5) c in
  minted code (hex_encode (sha256 code)).
Proof.
  intros Hl c code.
  assert (Forall (fun c => tidy c = true) (String.list_ascii_of_string c)) as Hc.
  { unfold c. rewrite on_ascii_chars. apply Forall_fmap. apply (base32_chars (fun x => tidy (ascii_upper x))); reflexivity. }
  assert (Forall (fun c => tidy c = true) (String.list_ascii_of_string code)) as Hcode.
  { unfold code. rewrite !string_app_list. apply Forall_app. split; [by apply substring_chars|]. constructor; [done|]. by apply substring_chars. }
  do 7 (destruct raw as [|? raw]; try discriminate Hl). clear Hl.
  split_and!; [done|by do 2 eexists|done| |].
  - unfold recovery_hash. by rewrite tidy_fixed.
  - apply (hex_chars (fun x => negb (Ascii.eqb x bar))); reflexivity.
Qed.

Lemma newRecoveryCodes_minted rands codes hashes : Forall (fun r => forall raw, r = Some raw -> length raw = 6%nat) rands ->
  newRecoveryCodes rands = Ok (codes, hashes) -> Forall2 minted codes hashes /\ length codes = length rands.
Proof.
  intros Hr. revert codes hashes. induction Hr as [|[raw|] rands Hraw Hr IH]; intros codes hashes; cbn [newRecoveryCodes]; [by intros [= <- <-]| |done].
  destruct (newRecoveryCodes rands) as [[cs hs]|]; [|done]. cbn [rbind fst snd]. intros [= <- <-].
  destruct (IH cs hs eq_refl) as [IH1 IH2]. split; [|cbn; congruence]. constructor; [|done]. apply minted_code. by apply Hraw.
Qed.

Lemma minted_accepted codes hashes code secret now : Forall2 minted codes hashes -> code ∈ codes ->
  TrimSpace code = code /\ verifyCode secret code now = false /\ (consumeRecoveryCode (Join bar hashes) code).2 = true.
Proof.
  intros Hm [i Hi]%list_elem_of_lookup. destruct (Forall2_lookup_l _ _ _ _ _ Hm Hi) as (h & Hh & Htidy & (ch & rest & Ene) & Hl6 & -> & Hbar).
  split_and!; [|unfold verifyCode; by rewrite (proj2 (Nat.eqb_neq _ _) Hl6)|].
  { apply TrimSpace_none. eapply Forall_impl; [exact Htidy|]. by intros x [? _]%andb_prop. }
  assert (Split bar (Join bar hashes) = hashes) as Esp.
  { apply Split_Join; [by intros ->|]. apply Forall_lookup_2. intros k y Hy.
    destruct (Forall2_lookup_r _ _ _ _ _ Hm Hy) as (x & _ & _ & _ & _ & _ & Hf). exact Hf. }
  apply consume_iff; [|by rewrite Ene|rewrite Esp; by eapply list_elem_of_lookup_2].
  intros E0. rewrite E0 in Esp. cbn in Esp. rewrite <- Esp in Hh. destruct i; [|done]. injection Hh as Hh.
  by apply (recovery_hash_nonempty code).
Qed.

Lemma digit_space n : 0 <= n < 10 -> Forall (fun c => negb (ascii_space c) = true) (String.list_ascii_of_string (digit n)).
Proof.
  intros Hn. unfold digit. cbn. repeat constructor. unfold ascii_space. rewrite Ascii.N_ascii_embedding by lia.
  apply negb_true_iff. repeat match goal with |- context [(?a <=? ?b)%N] => destruct (N.leb_spec a b) | |- context [(?a =? ?b)%N] => destruct (N.eqb_spec a b) end; try done; lia.
Qed.

Lemma pad2_space n : 0 <= n < 100 -> Forall (fun c => negb (ascii_space c) = true) (String.list_ascii_of_string (pad2 n)).
Proof. intros Hn. unfold pad2. rewrite string_app_list. apply Forall_app. split; apply digit_space; div_lia. Qed.

Lemma hotp_trim secret n : TrimSpace (generateHOTP secret n) = generateHOTP secret n.
Proof.
  apply TrimSpace_none. unfold generateHOTP. set (v := Z.lor _ _). pose proof (Z.mod_pos_bound v 1000000) as Hv.
  unfold pad6. rewrite !string_app_list. apply Forall_app. split; [|apply Forall_app; split]; apply pad2_space; div_lia.
Qed.

(** ** The life of a credential *)
Definition sealed : Prop := match Env cfg with Some Ev => Opens Ev | None => True end.

Lemma unwrap_wrap n secret w : sealed -> length n = NonceSize -> wrapSecret cfg (Some n) secret = Ok w -> unwrapSecret cfg w = Ok secret.
Proof.
  unfold sealed, wrapSecret, unwrapSecret. destruct (Env cfg) as [Ev|]; [|congruence].
  intros Ho Hn Hw. by destruct (opens n secret w Hn Hw) as [enc ->].
Qed.

(** The clock of a device is within half a minute of the server's. *)
Definition in_step (E : env) (dev : Z) : Prop := 0 <= e_now' E /\ 0 <= dev /\ Z.abs (dev - e_now' E) <= 30 * Second.

Lemma enroll_fresh E r t u s secret w : Pool cfg = true -> identity r = Ok (t, u) -> t ∈ tenants s -> creds s !! (t, u) = None ->
  e_d E = Delivered -> e_d' E = Delivered -> e_secret E = Some secret -> wrapSecret cfg (e_nonce E) secret = Ok w ->
  enroll cfg E r (Some ""%string) s =
    (Enrolled (otpauthURI cfg t u secret) (base32 secret), with_creds (<[(t, u) := mkCred t u w "" false (micro (e_now2 E)) None 0 None]> (creds s)) s).
Proof.
  intros Hp Hid Ht Hc Hd Hd' Hs Hw. pose proof (identity_tenant _ _ _ Hid) as Hne.
  unfold enroll, enroll_begin, finish, with_identity. rewrite Hid, Hs, Hw. unfold attempt, EvaluateAttempt, Upsert, BeginFunc, evaluate, SetTenantGUC.
  rewrite Hp, Hd, Hd', (proj2 (String.eqb_neq t "") Hne). cbn [negb rbind]. rewrite Hc. cbn [fst snd]. rewrite bool_decide_true by done. by rewrite Hc.
Qed.

Lemma verify_confirms E r t u s c secret dev : Pool cfg = true -> identity r = Ok (t, u) -> creds s !! (t, u) = Some c -> Enabled c = false ->
  LockedUntil c = None -> unwrapSecret cfg (EncryptedSecret c) = Ok secret -> e_d E = Delivered -> in_step E dev ->
  forall codes hashes, newRecoveryCodes (e_codes E <$> seq 0 10) = Ok (codes, hashes) ->
  verify cfg E r (Some (generateHOTP secret (step_of dev))) s = (RecoveryCodes codes,
    with_creds (<[(t, u) := mkCred (TenantID c) (UserID c) (EncryptedSecret c) (Join bar hashes) true (CreatedAt c) (Some (micro (e_now E))) 0 None]> (creds s)) s).
Proof.
  intros Hp Hid Hc He Hl Hs Hd (H1 & H2 & H3) codes hashes Hr. unfold verify, with_identity. rewrite Hid, Hr, hotp_trim.
  set (v := verify_verdict _ _ _ _). assert (v c = mkVerification true "totp" (Some (Join bar hashes)) (Some true) None None) as Hv.
  { unfold v, verify_verdict. rewrite He, Hs. by rewrite device_code. }
  rewrite (attempt_accepted _ t u _ false v s c); try done; [|by eapply identity_tenant|unfold unlocked; by rewrite Hl|by rewrite Hv..].
  by rewrite Hv.
Qed.

Lemma check_accepts E r t u s c secret raw : Pool cfg = true -> identity r = Ok (t, u) -> creds s !! (t, u) = Some c -> Enabled c = true ->
  LockedUntil c = None -> unwrapSecret cfg (EncryptedSecret c) = Ok secret -> e_d E = Delivered ->
  (check cfg E r (Some raw) s).1 =
    if verifyCode secret (TrimSpace raw) (e_now' E) then Passed "totp"
    else if (consumeRecoveryCode (RecoveryCodesHash c) (TrimSpace raw)).2 then Passed "recovery"
    else (check cfg E r (Some raw) s).1.
Proof.
  intros Hp Hid Hc He Hl Hs Hd.
  assert (OK (check_verdict cfg (e_now' E) (TrimSpace raw) c) = true -> VErr (check_verdict cfg (e_now' E) (TrimSpace raw) c) = None ->
    (check cfg E r (Some raw) s).1 = Passed (Method (check_verdict cfg (e_now' E) (TrimSpace raw) c))) as Ha.
  { intros Hok Hv. unfold check, with_identity. rewrite Hid.
    rewrite (attempt_accepted _ t u _ true _ s c); try done; [by eapply identity_tenant|unfold unlocked; by rewrite Hl]. }
  unfold check_verdict, judge in Ha. rewrite Hs in Ha. destruct (verifyCode _ _ _); [by apply Ha|].
  destruct (consumeRecoveryCode _ _) as [b []]; [by apply Ha|done].
Qed.
End theorems.

(** C37: enrolment leads to a factor that works.  A user who enrols, and
    confirms with the code a device within half a minute of the server shows,
    is given ten recovery codes; after that a check passes with the code of
    the device, and with each of the recovery codes. *)
Theorem enrolment_round_trip `{OneWayLaws} cfg E1 E2 E3 r t u s secret n w dev2 dev3 :
  Pool cfg = true -> sealed cfg -> identity r = Ok (t, u) -> t ∈ tenants s -> creds s !! (t, u) = None ->
  e_d E1 = Delivered -> e_d' E1 = Delivered -> e_secret E1 = Some secret -> e_nonce E1 = Some n -> length n = NonceSize ->
  wrapSecret cfg (Some n) secret = Ok w ->
  e_d E2 = Delivered -> (forall i, exists raw, e_codes E2 i = Some raw /\ length raw = 6%nat) -> in_step E2 dev2 ->
  e_d E3 = Delivered -> in_step E3 dev3 ->
  exists s1 codes s2, enroll cfg E1 r (Some ""%string) s = (Enrolled (otpauthURI cfg t u secret) (base32 secret), s1) /\
    verify cfg E2 r (Some (generateHOTP secret (step_of dev2))) s1 = (RecoveryCodes codes, s2) /\ length codes = 10%nat /\
    (check cfg E3 r (Some (generateHOTP secret (step_of dev3))) s2).1 = Passed "totp" /\
    forall code, code ∈ codes -> (check cfg E3 r (Some code) s2).1 = Passed "recovery".
Proof.
  intros Hp Hse Hid Ht Hc Hd1 Hd1' Hs1 Hn1 Hn Hw Hd2 Hc2 Hi2 Hd3 Hi3.
  assert (exists codes hashes, newRecoveryCodes (e_codes E2 <$> seq 0 10) = Ok (codes, hashes)) as (codes & hashes & Hr).
  { clear -Hc2. induction (seq 0 10) as [|i l [codes [hashes IH]]]; [by exists [], []|]. destruct (Hc2 i) as (raw & Ei & _).
    rewrite fmap_cons, Ei. cbn [newRecoveryCodes]. rewrite IH. cbn. by do 2 eexists. }
  destruct (newRecoveryCodes_minted (e_codes E2 <$> seq 0 10) codes hashes) as [Hm Hlen]; [|done|].
  { apply Forall_fmap, Forall_true. intros i raw E. destruct (Hc2 i) as (raw' & Ei & Hl). cbn in E. congruence. }
  assert (unwrapSecret cfg w = Ok secret) as Hun by (by eapply unwrap_wrap).
  set (s1 := with_creds (<[(t, u) := mkCred t u w "" false (micro (e_now2 E1)) None 0 None]> (creds s)) s).
  assert (creds s1 !! (t, u) = Some (mkCred t u w "" false (micro (e_now2 E1)) None 0 None)) as Hc1 by (cbn; by rewrite lookup_insert_eq).
  pose proof (verify_confirms cfg E2 r t u s1 _ secret dev2 Hp Hid Hc1 eq_refl eq_refl Hun Hd2 Hi2 codes hashes Hr) as Hv.
  set (s2 := with_creds _ s1) in Hv. assert (creds s2 !! (t, u) = Some (mkCred t u w (Join bar hashes) true (micro (e_now2 E1)) (Some (micro (e_now E2))) 0 None)) as Hcr
    by (cbn; by rewrite lookup_insert_eq).
  pose proof (fun raw => check_accepts cfg E3 r t u s2 _ secret raw Hp Hid Hcr eq_refl eq_refl Hun Hd3) as Hck.
  exists s1, codes, s2. split_and!; [apply enroll_fresh; try done; by rewrite Hn1|exact Hv|rewrite Hlen; by rewrite length_fmap, length_seq| |].
  - rewrite Hck, hotp_trim. destruct Hi3 as (? & ? & ?). by rewrite device_code.
  - intros code Hcode. rewrite Hck. destruct (minted_accepted codes hashes code secret (e_now' E3) Hm Hcode) as (-> & -> & Hok).
    cbn [RecoveryCodesHash]. by rewrite Hok.
Qed.

(** C19: the second factor cannot be guessed faster than the lockout allows.
    In any history of calls in which an enabled account never submits a right
    code, whatever endpoints it uses and whatever transactions fail, the wrong
    answers it receives come at most [maxAttempts] at a time: the one that
    many places later is at least a lockout later. *)
Theorem guess_rate `{OneWay} cfg t u cs s c rs s' i a b :
  Pool cfg = true -> creds s !! (t, u) = Some c -> Enabled c = true -> 0 <= FailedAttempts c ->
  only_guesses cfg t u cs s -> StronglySorted Z.le (clocks t u cs) -> play cfg cs s = (rs, s') ->
  guesses t u cs rs !! i = Some a -> guesses t u cs rs !! (i + Z.to_nat (maxAttempts cfg))%nat = Some b ->
  micro (a + LockoutDuration cfg) <= b.
Proof.
  intros Hp Hc He Hf Hg Hs Hr Ha Hb.
  pose proof (play_guesses cfg t u cs Hp [] s c Hc He) as Hw. rewrite Hr in Hw.
  destruct Hw as [Hw _]; [|done|done|by intros ? ? ?%not_elem_of_nil|by eapply Hw].
  split; [done|]. exists [], []. cbn. pose proof (maxAttempts_pos cfg). split_and!; [done|lia|lia|by intros ? ?%not_elem_of_nil].
Qed.

(** C6: an enabled second factor stands until somebody proves it.  Take an
    enabled credential at a moment when no enrolment or removal of the account
    has its write still ahead of it (calls of other accounts may).  However
    the calls that follow overlap, by the account or by others, a process
    dying between the two transactions of an enrolment or a removal included,
    as long as the account never submits a right code the credential stays
    enabled, with its secret and its recovery codes: it can be neither
    replaced by enrolling again nor removed. *)
Theorem second_factor_stands `{OneWayLaws} cfg t u ms s p c :
  Pool cfg = true -> creds s !! (t, u) = Some c -> Enabled c = true ->
  Forall (fun x => in_flight cfg x /\ by_ t u x.1 = false) p -> roaming_guesses cfg t u ms (s, p) ->
  exists c', creds (roam cfg ms (s, p)).1 !! (t, u) = Some c' /\ Enabled c' = true /\
    EncryptedSecret c' = EncryptedSecret c /\ RecoveryCodesHash c' = RecoveryCodesHash c.
Proof.
  intros Hp Hc He Hfl Hg. destruct (roam_factor cfg t u ms Hp s p c Hc He Hfl Hg) as (c' & Hc' & F1 & F2 & F3).
  exists c'. split_and!; congruence.
Qed.

(** A recovery code works once.  After a check passed by a recovery code,
    no check passes by the same code again, and every other code of the bundle
    works as before. *)
Theorem recovery_code_spent `{OneWayLaws} cfg E r raw s s1 :
  (forall t u c, identity r = Ok (t, u) -> creds s !! (t, u) = Some c -> NoDup (Split bar (RecoveryCodesHash c))) ->
  check cfg E r (Some raw) s = (Passed "recovery", s1) ->
  (forall E' raw', recovery_hash (TrimSpace raw') = recovery_hash (TrimSpace raw) -> (check cfg E' r (Some raw') s1).1 <> Passed "recovery") /\
  exists t u c c1, identity r = Ok (t, u) /\ creds s !! (t, u) = Some c /\ creds s1 !! (t, u) = Some c1 /\
    forall other, other <> ""%string -> recovery_hash other <> recovery_hash (TrimSpace raw) ->
      (consumeRecoveryCode (RecoveryCodesHash c1) other).2 = (consumeRecoveryCode (RecoveryCodesHash c) other).2.
Proof.
  intros Hnd Hp. destruct (check_passed cfg _ _ _ _ _ _ Hp) as (t & u & c & v & Hid & Hc & He & -> & Hok & Hm & Hc1).
  destruct (check_by_recovery cfg _ _ _ Hok Hm) as (updated & Hu & Hset).
  assert (RecoveryCodesHash (record_success (e_now E) (check_verdict cfg (e_now' E) (TrimSpace raw) c) c) = updated) as Eb by (cbn; by rewrite Hset).
  pose proof (consume_strikes _ _ _ (Hnd t u c Hid Hc) Hu) as Hs. split.
  - intros E' raw' Hh Hp'. destruct (check cfg E' r (Some raw') s1) as [x s2] eqn:Ex. cbn in Hp'. subst x.
    destruct (check_passed cfg _ _ _ _ _ _ Ex) as (t' & u' & c' & v' & Hid' & Hc' & _ & -> & Hok' & Hm' & _).
    assert (c' = record_success (e_now E) (check_verdict cfg (e_now' E) (TrimSpace raw) c) c) as -> by congruence.
    destruct (check_by_recovery cfg _ _ _ Hok' Hm') as (up' & Hu' & _). rewrite Eb in Hu'.
    assert (TrimSpace raw' <> ""%string) as Hne by (intros E0; rewrite E0 in Hu'; unfold consumeRecoveryCode in Hu'; by rewrite orb_true_r in Hu').
    specialize (Hs _ Hne). rewrite Hu' in Hs. cbn in Hs. rewrite Hh, String.eqb_refl in Hs. by rewrite andb_false_r in Hs.
  - eexists t, u, c, _. split_and!; try done. intros other Ho Hn. rewrite Eb, (Hs other Ho).
    rewrite (proj2 (String.eqb_neq _ _) Hn). apply andb_true_r.
Qed.

(** ** Where code and comment part ways *)

(** RFC 6238 asks that a code be accepted once; here an accepted code is
    accepted again while its window lasts. *)
Theorem accepted_code_replays `{OneWayLaws} cfg E r raw s s1 :
  e_d E = Delivered -> check cfg E r (Some raw) s = (Passed "totp", s1) -> (check cfg E r (Some raw) s1).1 = Passed "totp".
Proof.
  intros Hd Hp. destruct (check_passed cfg _ _ _ _ _ _ Hp) as (t & u & c & v & Hid & Hc & He & Ev & Hok & Hm & Hc1).
  assert (Pool cfg = true) as Hpool.
  { unfold check, with_identity, attempt, EvaluateAttempt in Hp. rewrite Hid in Hp. by destruct (Pool cfg). }
  unfold check_verdict, judge in Ev. destruct (unwrapSecret cfg (EncryptedSecret c)) as [sec|] eqn:Hs; [|by subst v].
  destruct (verifyCode sec (TrimSpace raw) (e_now' E)) eqn:Hvc.
  - subst v. erewrite (check_accepts cfg E r t u s1 _ sec raw Hpool Hid Hc1); [by rewrite Hvc|cbn; done..].
  - destruct (consumeRecoveryCode _ _) as [b []]; subst v; done.
Qed.

Module TotpExamples.
Definition sum_bytes (l : list Z) : Z := foldl (fun a b => (a * 31 + b) mod 65521) 1 l.
Definition text_bytes (s : string) : list Z := (fun c => Z.of_N (Ascii.N_of_ascii c)) <$> String.list_ascii_of_string s.
Definition spread (n : nat) (x : Z) : list Z := (fun i => (x * (Z.of_nat i + 3) + Z.of_nat i) mod 251) <$> seq 0 n.

#[export] Instance toy : OneWay := {
  hmac_sha1 k m := spread 20 (sum_bytes k + 7 * sum_bytes m);
  sha256 m := spread 32 (sum_bytes (text_bytes m));
}.
Lemma spread_bytes n x : Forall byte (spread n x) /\ length (spread n x) = n.
Proof.
  unfold spread. rewrite length_fmap, length_seq. split; [|done]. apply Forall_fmap, Forall_true. intros i. unfold byte. cbn.
  pose proof (Z.mod_pos_bound (x * (Z.of_nat i + 3) + Z.of_nat i) 251). lia.
Qed.
#[export] Instance toy_laws : OneWayLaws.
Proof. split; intros; apply spread_bytes. Qed.

Definition cfg : TOTPConfig := NewTOTPHandlers (mkConfig true "" (Some NoopEnvelope) 2 0).
Definition me : caller := mkCaller "t" "u" "" "".
Definition at_ (sec : Z) : env :=
  mkEnv Delivered Delivered (sec * Second) (sec * Second) (sec * Second) (Some (spread 20 sec)) (Some (replicate 12 0))
    (fun i => Some (spread 6 (sec + Z.of_nat i))).
Definition empty : DB := mkDB {["t"%string]} ∅.
Definition secret0 : list Z := spread 20 1000.
Definition code_at (sec : Z) : string := generateHOTP secret0 (step_of (sec * Second)).
Definition enrolled_db : DB := (enroll cfg (at_ 1000) me (Some ""%string) empty).2.
Definition enabled_db : DB := (verify cfg (at_ 1010) me (Some (code_at 1020)) enrolled_db).2.
Definition recovery0 : string :=
  match (verify cfg (at_ 1010) me (Some (code_at 1020)) enrolled_db).1 with RecoveryCodes (c :: _) => c | _ => ""%string end.
Definition guess (sec : Z) : call := mkCall OpCheck (at_ sec) me (Some "000000"%string).
Definition cred0 : TOTPCredential := default (mkCred "" "" [] "" false 0 None 0 None) (creds enabled_db !! ("t", "u")%string).
End TotpExamples.
Import TotpExamples.

(** Enrolling runs two transactions: when an enrolment is in flight, the
    confirmation of an earlier one is undone by its write, and the account is
    left without the factor its user just confirmed. *)
Theorem enrolling_twice_strips_the_factor :
  let again := mkCall OpEnroll (at_ 1012) me (Some ""%string) in
  let confirm := mkCall OpVerify (at_ 1013) me (Some (code_at 1013)) in
  match creds (roam cfg [Begin again; Begin confirm] (enrolled_db, [])).1 !! ("t", "u")%string,
        creds (roam cfg [Begin again; Begin confirm; Finish 0] (enrolled_db, [])).1 !! ("t", "u")%string with
  | Some c1, Some c2 => Enabled c1 = true /\ Enabled c2 = false /\ EncryptedSecret c2 = spread 20 1012
  | _, _ => False
  end.
Proof. vm_compute. auto. Qed.

Lemma enrolment_round_trip_witness :
  exists s1 codes s2, enroll cfg (at_ 1000) me (Some ""%string) empty = (Enrolled (otpauthURI cfg "t" "u" secret0) (base32 secret0), s1) /\
    verify cfg (at_ 1010) me (Some (code_at 1020)) s1 = (RecoveryCodes codes, s2) /\
    (check cfg (at_ 2000) me (Some (code_at 1985)) s2).1 = Passed "totp".
Proof.
  destruct (enrolment_round_trip cfg (at_ 1000) (at_ 1010) (at_ 2000) me "t" "u" empty secret0 (replicate 12 0) secret0 (1020 * Second) (1985 * Second))
    as (s1 & codes & s2 & H1 & H2 & _ & H3 & _).
  - reflexivity.
  - exact noop_opens.
  - reflexivity.
  - vm_compute. reflexivity.
  - reflexivity.
  - reflexivity.
  - reflexivity.
  - reflexivity.
  - reflexivity.
  - reflexivity.
  - reflexivity.
  - reflexivity.
  - intros i. exists (spread 6 (1010 + Z.of_nat i)). split; [reflexivity|apply spread_bytes].
  - unfold in_step. vm_compute. split_and!; discriminate.
  - reflexivity.
  - unfold in_step. vm_compute. split_and!; discriminate.
  - exists s1, codes, s2. split; [exact H1|]. split; [exact H2|exact H3].
Defined.

Definition five_guesses : list call := [guess 2000; guess 2001; guess 2002; guess 2003; guess 4000].

Lemma guess_rate_witness :
  guesses "t" "u" five_guesses (play cfg five_guesses enabled_db).1 = [2000 * Second; 2001 * Second; 4000 * Second] /\
  micro (2000 * Second + LockoutDuration cfg) <= 4000 * Second.
Proof.
  set (cs := five_guesses).
  assert (guesses "t" "u" cs (play cfg cs enabled_db).1 = [2000 * Second; 2001 * Second; 4000 * Second]) as Hg by (vm_compute; reflexivity).
  split; [exact Hg|]. destruct (play cfg cs enabled_db) as [rs s'] eqn:E. cbn [fst] in Hg.
  apply (guess_rate cfg "t" "u" cs enabled_db cred0 rs s' 0 (2000 * Second) (4000 * Second)).
  - reflexivity.
  - vm_compute. reflexivity.
  - vm_compute. reflexivity.
  - vm_compute. discriminate.
  - unfold cs, five_guesses. cbn [only_guesses]. split_and!; try exact I; intros _ cred Hc; vm_compute in Hc; injection Hc as <-; vm_compute; reflexivity.
  - vm_compute. repeat constructor; discriminate.
  - exact E.
  - rewrite Hg. reflexivity.
  - rewrite Hg. reflexivity.
Defined.

(** Another user's enrolment overlaps a wrong check and an enrolment with a
    wrong code. *)
Definition other_user : caller := mkCaller "t" "v" "" "".
Definition overlap : list move :=
  [Begin (mkCall OpEnroll (at_ 1500) other_user (Some ""%string)); Begin (guess 2000);
   Begin (mkCall OpEnroll (at_ 2001) me (Some "000000"%string)); Finish 0].

Lemma second_factor_stands_witness :
  exists c', creds (roam cfg overlap (enabled_db, [])).1 !! ("t", "u")%string = Some c' /\ Enabled c' = true.
Proof.
  destruct (second_factor_stands cfg "t" "u" overlap enabled_db [] cred0) as (c' & H1 & H2 & _).
  - reflexivity.
  - vm_compute. reflexivity.
  - vm_compute. reflexivity.
  - constructor.
  - unfold overlap. cbn [roaming_guesses]. split_and!; try exact I; intros Hb cred Hc; try (vm_compute in Hb; discriminate Hb);
      vm_compute in Hc; injection Hc as <-; vm_compute; reflexivity.
  - exists c'. split; [exact H1|exact H2].
Defined.

Lemma recovery_code_spent_witness :
  (check cfg (at_ 2000) me (Some recovery0) enabled_db).1 = Passed "recovery" /\
  (check cfg (at_ 2100) me (Some recovery0) (check cfg (at_ 2000) me (Some recovery0) enabled_db).2).1 <> Passed "recovery".
Proof.
  destruct (check cfg (at_ 2000) me (Some recovery0) enabled_db) as [r s1] eqn:E. cbn [fst snd].
  assert (r = Passed "recovery") as -> by (transitivity (check cfg (at_ 2000) me (Some recovery0) enabled_db).1; [by rewrite E|vm_compute; reflexivity]).
  split; [reflexivity|]. eapply (recovery_code_spent cfg (at_ 2000) me recovery0 enabled_db s1).
  - intros t u c Hid Hc. assert (t = "t"%string /\ u = "u"%string) as [-> ->] by (vm_compute in Hid; injection Hid as <- <-; split; reflexivity).
    assert (c = cred0) as -> by (vm_compute in Hc; injection Hc as <-; vm_compute; reflexivity).
    apply (bool_decide_unpack (NoDup (Split bar (RecoveryCodesHash cred0)))). vm_compute. exact I.
  - exact E.
  - reflexivity.
Defined.
