(* ===== verification/Sessions.v ===== *)
(** * Session ledger ([internal/middleware/session.go], [session_redis.go],
      [session_handlers.go])

    A ledger of the bearer tokens in use, on top of stateless tokens: how many
    sessions a user may have, which ones are revoked.  [SessionStore] is the
    interface of the two ledgers, one in process memory and one in Valkey; the
    middleware and the handlers are written against it.  [Tombstones] is what
    they need of a ledger to keep revoked tokens out. *)

From S2P Require Import Prelude Text Table Codec Valkey.

Local Open Scope Z_scope.
Local Open Scope go_scope.

Record SessionInfo := mkSession {
  ID : string; UserKey : string; TenantID : string; UserID : string; UserAgent : string; IP : string; CreatedAt : Z; LastSeen : Z;
}.

Inductive serror := ErrSessionNotFound | ErrLedger.

(** Surroundings of one operation: Go's clock is an argument of the operation;
    the [i]-th command to the server meets a fate and the server's clock in
    milliseconds. *)
Definition cmds := nat -> delivery * Z.
Definition later (n : nat) (E : cmds) : cmds := fun i => E (n + i)%nat.

(** ** The interface *)
Record SessionStore (St : Type) := mkStore {
  Touch : cmds -> SessionInfo -> Z -> Z -> Z -> St -> result serror (list string) * St;   (* idleTTL, maxConcurrent, now *)
  ListSessions : cmds -> string -> Z -> Z -> St -> result serror (list SessionInfo) * St; (* idleTTL, now *)
  Revoke : cmds -> string -> string -> Z -> Z -> St -> result serror unit * St;           (* ttl, now *)
  IsRevoked : cmds -> string -> Z -> St -> result serror bool * St;
}.
Arguments Touch {St}. Arguments ListSessions {St}. Arguments Revoke {St}. Arguments IsRevoked {St}.

(** ** Requests *)
Definition dash : Ascii.ascii := Ascii.ascii_of_nat 45.
Definition space : Ascii.ascii := Ascii.ascii_of_nat 32.
Definition colon : Ascii.ascii := Ascii.ascii_of_nat 58.
Definition comma : Ascii.ascii := Ascii.ascii_of_nat 44.

Record request := mkRequest {
  Authorization : string; ctxTenant : string; ctxUser : string; agent : string; forwardedFor : string; RemoteAddr : string;
}.

(** The part of a host and port before the last colon, [None] where
    [net.SplitHostPort] fails. *)
Definition last_colon (s : string) : option (string * string) :=
  match split_first colon (on_ascii reverse s) with
  | Some (b, a) => Some (on_ascii reverse a, on_ascii reverse b)
  | None => None
  end.
Definition SplitHostPort (s : string) : option string :=
  let lb := Ascii.ascii_of_nat 91 in
  let rb := Ascii.ascii_of_nat 93 in
  match last_colon s with
  | None => None
  | Some (host, port) =>
      match s with
      | String.String c rest =>
          if Ascii.eqb c lb then
            match split_first rb rest with
            | Some (inner, after) =>
                if String.eqb after (String.String colon port) && negb (contains_char lb inner) && negb (contains_char lb port) && negb (contains_char rb port)
                then Some inner else None
            | None => None
            end
          else if contains_char colon host || contains_char lb s || contains_char rb s then None else Some host
      | String.EmptyString => None
      end
  end.

Definition clientIP (r : request) : string :=
  if negb (String.eqb (forwardedFor r) "") then
    match split_first comma (forwardedFor r) with
    | Some (first, _) => TrimSpace first
    | None => TrimSpace (forwardedFor r)
    end
  else match SplitHostPort (RemoteAddr r) with Some host => host | None => RemoteAddr r end.

Definition userKey (tenantID userID : string) : string := tenantID +:+ ":" +:+ userID.

(** ** Manager *)
Definition DefaultSessionIdleTimeout : Z := 8 * Hour.
Definition DefaultSessionMaxConcurrent : Z := 5.
Definition sessionRevokeTTL : Z := 24 * Hour.

(** [Store] tells whether a ledger is wired. *)
Record SessionConfig := mkSessionConfig { Store : bool; IdleTimeout : Z; MaxConcurrent : Z; Enabled : bool; RevokeTTL : Z }.

Definition NewSessionManager (cfg : SessionConfig) : SessionConfig :=
  mkSessionConfig (Store cfg) (if IdleTimeout cfg <=? 0 then DefaultSessionIdleTimeout else IdleTimeout cfg)
    (if MaxConcurrent cfg =? 0 then DefaultSessionMaxConcurrent else MaxConcurrent cfg) (Enabled cfg)
    (if RevokeTTL cfg <=? 0 then sessionRevokeTTL else RevokeTTL cfg).

Inductive sresponse :=
| Next                                   (* the wrapped handler runs *)
| Unauthorized (reason : string)
| HTTPError (status : Z) (msg : string)
| SessionList (items : list (SessionInfo * bool)) (maxConcurrent idleSeconds : Z)
| Revoked (ids : list string).

Section manager.
Context (sha256 : string -> list Z) {St : Type} (L : SessionStore St) (cfg : SessionConfig).

Definition SessionIDFromRequest (r : request) : string :=
  match split_first space (Authorization r) with
  | Some (scheme, rest) =>
      if EqualFold scheme "Bearer" then
        let tok := TrimSpace rest in
        if String.eqb tok "" then ""%string else String.substring 0 32 (hex_encode (sha256 tok))
      else ""%string
  | None => ""%string
  end.

(** [E] and [E'] are the surroundings of the two ledger calls. *)
Definition Wrap (E E' : cmds) (now : Z) (r : request) (s : St) : sresponse * St :=
  if negb (Enabled cfg) || negb (Store cfg) then (Next, s)
  else
    let sid := SessionIDFromRequest r in
    if String.eqb sid "" || String.eqb (ctxTenant r) "" || String.eqb (ctxUser r) "" then (Next, s)
    else
      let '(revoked, s) := IsRevoked L E sid now s in
      match revoked with
      | Err _ => (Next, s)
      | Ok true => (Unauthorized "session revoked", s)
      | Ok false =>
          let info := mkSession sid (userKey (ctxTenant r) (ctxUser r)) (ctxTenant r) (ctxUser r) (agent r) (clientIP r) now now in
          let '(evicted, s) := Touch L E' info (IdleTimeout cfg) (MaxConcurrent cfg) now s in
          match evicted with
          | Err _ => (Next, s)
          | Ok ids => (if existsb (String.eqb sid) ids then Unauthorized "concurrent session limit" else Next, s)
          end
      end.

(** ** Handlers *)
Definition ready (r : request) (k : string -> St -> sresponse * St) (s : St) : sresponse * St :=
  if negb (Store cfg) then (HTTPError 503 "session management not configured", s)
  else if String.eqb (ctxTenant r) "" || String.eqb (ctxUser r) "" then (HTTPError 401 "unauthenticated", s)
  else k (userKey (ctxTenant r) (ctxUser r)) s.

Definition list_handler (E : cmds) (now : Z) (r : request) (s : St) : sresponse * St :=
  ready r (fun uk s =>
    let '(l, s) := ListSessions L E uk (IdleTimeout cfg) now s in
    match l with
    | Err _ => (HTTPError 502 "failed to list sessions", s)
    | Ok sessions =>
        let current := SessionIDFromRequest r in
        (SessionList ((fun x => (x, String.eqb (ID x) current)) <$> sessions) (MaxConcurrent cfg) (Z.quot (IdleTimeout cfg) Second), s)
    end) s.

(** The loop over the sessions to revoke. *)
Fixpoint revoke_each (Es : nat -> cmds) (uk : string) (now : Z) (ids : list string) (done_ : list string) (s : St)
    : result serror (list string) * St :=
  match ids with
  | [] => (Ok done_, s)
  | sid :: ids =>
      let '(r, s) := Revoke L (Es O) uk sid (RevokeTTL cfg) now s in
      match r with
      | Ok _ => revoke_each (fun i => Es (S i)) uk now ids (done_ ++ [sid]) s
      | Err ErrSessionNotFound => revoke_each (fun i => Es (S i)) uk now ids done_ s
      | Err e => (Err e, s)
      end
  end.

(** The body: a session and whether to revoke all others; a body that does not
    decode leaves both empty. *)
Definition revoke_handler (E : cmds) (Es : nat -> cmds) (now : Z) (r : request) (sessionID : string) (allOthers : bool) (s : St) : sresponse * St :=
  ready r (fun uk s =>
    if String.eqb sessionID "" && negb allOthers then (HTTPError 400 "session_id or all_others required", s)
    else
      let finish ids s :=
        let '(done_, s) := revoke_each Es uk now ids [] s in
        (match done_ with
         | Err _ => HTTPError 502 "failed to revoke session"
         | Ok l => if negb allOthers && match l with [] => true | _ => false end then HTTPError 404 "session not found" else Revoked l
         end, s) in
      if allOthers then
        let '(l, s) := ListSessions L E uk (IdleTimeout cfg) now s in
        match l with
        | Err _ => (HTTPError 502 "failed to enumerate sessions", s)
        | Ok sessions => finish (List.filter (fun x => negb (String.eqb x (SessionIDFromRequest r))) (ID <$> sessions)) s
        end
      else finish [sessionID] s) s.
End manager.

(** ** The ledger in memory *)
Record MemorySessionStore := mkMemory { sessions : gmap string (gmap string SessionInfo); revoked : gmap string Z }.

Definition of_user (uk : string) (m : MemorySessionStore) : gmap string SessionInfo := default ∅ (sessions m !! uk).
Definition with_user (uk : string) (x : gmap string SessionInfo) (m : MemorySessionStore) : MemorySessionStore :=
  mkMemory (<[uk := x]> (sessions m)) (revoked m).

Definition fresh_sessions (idleTTL now : Z) (x : gmap string SessionInfo) : gmap string SessionInfo :=
  filter (fun kv => now - LastSeen kv.2 <= idleTTL) x.

(** [order] is the order in which a map is iterated, [newest] that of
    [sort.Slice]. *)
Section memory.
Context (order : list SessionInfo -> list SessionInfo) (newest : list SessionInfo -> list SessionInfo).

(** Deleting from, or pruning, an absent map does nothing. *)
Definition pruneLocked (uk : string) (idleTTL now : Z) (m : MemorySessionStore) : MemorySessionStore :=
  match sessions m !! uk with
  | Some x => with_user uk (fresh_sessions idleTTL now x) m
  | None => m
  end.

Definition oldest_other (sid : string) (x : gmap string SessionInfo) : option SessionInfo :=
  least CreatedAt (order (List.filter (fun i => negb (String.eqb (ID i) sid)) (map_to_list x).*2)).

(** [for len(...) > maxConcurrent]: at most one turn per session. *)
Fixpoint evict (fuel : nat) (sid : string) (maxConcurrent : Z) (x : gmap string SessionInfo) : list string * gmap string SessionInfo :=
  match fuel with
  | O => ([], x)
  | S fuel =>
      if Z.of_nat (size x) <=? maxConcurrent then ([], x)
      else match oldest_other sid x with
           | None => ([], x)
           | Some i =>
               if String.eqb (ID i) "" then ([], x)
               else let '(l, x) := evict fuel sid maxConcurrent (delete (ID i) x) in (ID i :: l, x)
           end
  end.

Definition refreshed (now : Z) (i e : SessionInfo) : SessionInfo :=
  mkSession (ID e) (UserKey e) (TenantID e) (UserID e) (UserAgent i) (IP i) (CreatedAt e) now.
Definition stamped (now : Z) (i : SessionInfo) : SessionInfo :=
  mkSession (ID i) (UserKey i) (TenantID i) (UserID i) (UserAgent i) (IP i) (if CreatedAt i =? zeroTime then now else CreatedAt i) now.

Definition mem_Touch (i : SessionInfo) (idleTTL maxConcurrent now : Z) (m : MemorySessionStore) : result serror (list string) * MemorySessionStore :=
  let x := fresh_sessions idleTTL now (of_user (UserKey i) m) in
  match x !! ID i with
  | Some e => (Ok [], with_user (UserKey i) (<[ID i := refreshed now i e]> x) m)
  | None =>
      let x := <[ID i := stamped now i]> x in
      let '(l, x) := if 0 <? maxConcurrent then evict (size x) (ID i) maxConcurrent x else ([], x) in
      (Ok l, with_user (UserKey i) x m)
  end.

Definition mem_List (uk : string) (idleTTL now : Z) (m : MemorySessionStore) : result serror (list SessionInfo) * MemorySessionStore :=
  let m := pruneLocked uk idleTTL now m in (Ok (newest (map_to_list (of_user uk m)).*2), m).

Definition mem_Revoke (uk sid : string) (ttl now : Z) (m : MemorySessionStore) : result serror unit * MemorySessionStore :=
  match of_user uk m !! sid with
  | None => (Err ErrSessionNotFound, m)
  | Some _ => (Ok tt, mkMemory (<[uk := delete sid (of_user uk m)]> (sessions m)) (<[sid := now + ttl]> (revoked m)))
  end.

Definition mem_IsRevoked (sid : string) (now : Z) (m : MemorySessionStore) : result serror bool * MemorySessionStore :=
  match revoked m !! sid with
  | None => (Ok false, m)
  | Some exp => if exp <? now then (Ok false, mkMemory (sessions m) (delete sid (revoked m))) else (Ok true, m)
  end.

Definition memory : SessionStore MemorySessionStore := mkStore _
  (fun _ => mem_Touch) (fun _ => mem_List) (fun _ => mem_Revoke) (fun _ => mem_IsRevoked).
End memory.
Definition NewMemorySessionStore : MemorySessionStore := mkMemory ∅ ∅.

(** ** The ledger in Valkey *)
Inductive payload := Doc (i : SessionInfo) | Text (s : string).

(** What a record reads back as: [UserKey] is not part of the document. *)
Definition stored (i : SessionInfo) : SessionInfo :=
  mkSession (ID i) "" (TenantID i) (UserID i) (UserAgent i) (IP i) (CreatedAt i) (LastSeen i).

Definition sessKey (sid : string) : string := "sess:" +:+ sid.
Definition userSessKey (uk : string) : string := "usess:" +:+ uk.
Definition revokedKey (sid : string) : string := "srevoked:" +:+ sid.

(** The client sends a positive expiry in milliseconds with SET and in whole
    seconds with EXPIRE, at least one of them. *)
Definition set_ms (d : Z) : Z := Z.max 1 (d / Millisecond).
Definition expire_ms (d : Z) : Z := 1000 * Z.max 1 (d / Second).

Module Redis.
Section redis.
Context {V : Type} `{VK : Valkey payload V} `{VS : !ValkeySets payload V} (newest : list SessionInfo -> list SessionInfo).

(** [n]-th command of an operation. *)
Definition command {R} (E : cmds) (n : nat) (f : Z -> V -> R * V) (v : V) : option R * V := remote (E n).1 (f (E n).2) v.

(** The loop over the members: the records found, then the members without a
    readable one. *)
Fixpoint read_each (E : cmds) (ids : list string) (out : list SessionInfo) (stale : list string) (v : V)
    : option (list SessionInfo * list string) * V :=
  match ids with
  | [] => (Some (out, stale), v)
  | id :: ids =>
      let '(raw, v) := command E 0 (fun t v => (vk_get t v (sessKey id), v)) v in
      match raw with
      | None => (None, v)
      | Some (Some (Doc info)) => read_each (later 1 E) ids (out ++ [info]) stale v
      | Some _ => read_each (later 1 E) ids out (stale ++ [id]) v
      end
  end.

(** With the number of commands issued. *)
Definition listLive (E : cmds) (uk : string) (v : V) : result serror (list SessionInfo) * V * nat :=
  let '(ids, v) := command E 0 (fun t v => (vk_smembers t v (userSessKey uk), v)) v in
  match ids with
  | None => (Err ErrLedger, v, 1%nat)
  | Some ids =>
      let '(r, v) := read_each (later 1 E) ids [] [] v in
      match r with
      | None => (Err ErrLedger, v, S (length ids))
      | Some (out, stale) =>
          let v := match stale with [] => v | _ => (command E (S (length ids)) (fun t v => (tt, vk_srem t (userSessKey uk) stale v)) v).2 end in
          (Ok (newest out), v, S (S (length ids)))
      end
  end.

Definition List_ (E : cmds) (uk : string) (v : V) : result serror (list SessionInfo) * V :=
  (listLive E uk v).1.

(** From the tail of the listing. *)
Fixpoint evict_each (E : cmds) (uk keepID : string) (excess : nat) (victims : list SessionInfo) (evicted : list string) (v : V)
    : result serror (list string) * V :=
  match excess, victims with
  | O, _ | _, [] => (Ok evicted, v)
  | S n, x :: victims =>
      if String.eqb (ID x) keepID then evict_each E uk keepID excess victims evicted v
      else
        let '(ok, v) := command E 0 (fun t v => (tt, vk_srem t (userSessKey uk) [ID x] (vk_del t (sessKey (ID x)) v))) v in
        match ok with
        | None => (Err ErrLedger, v)
        | Some _ => evict_each (later 1 E) uk keepID n victims (evicted ++ [ID x]) v
        end
  end.

Definition enforceCap (E : cmds) (uk keepID : string) (maxConcurrent : Z) (v : V) : result serror (list string) * V :=
  let '(l, v, n) := listLive E uk v in
  match l with
  | Err e => (Err e, v)
  | Ok live => evict_each (later n E) uk keepID (length live - Z.to_nat maxConcurrent) (reverse live) [] v
  end.

Definition touch_tx (i : SessionInfo) (idleTTL t : Z) (v : V) : V :=
  vk_pexpire t (userSessKey (UserKey i)) (expire_ms idleTTL)
    (vk_sadd t (userSessKey (UserKey i)) (ID i)
       (vk_set t (sessKey (ID i)) (Doc (stored i)) (set_ms idleTTL) v)).

Definition touched (now created : Z) (i : SessionInfo) : SessionInfo :=
  mkSession (ID i) (UserKey i) (TenantID i) (UserID i) (UserAgent i) (IP i) created now.

Definition Touch (E : cmds) (i : SessionInfo) (idleTTL maxConcurrent now : Z) (v : V) : result serror (list string) * V :=
  let '(got, v) := command E 0 (fun t v => (vk_get t v (sessKey (ID i)), v)) v in
  match got with
  | None => (Err ErrLedger, v)
  | Some existing =>
      let i := touched now match existing with
                           | Some (Doc prev) => CreatedAt prev
                           | Some (Text _) => CreatedAt i
                           | None => now
                           end i in
      let '(ok, v) := command E 1 (fun t v => (tt, touch_tx i idleTTL t v)) v in
      match ok with
      | None => (Err ErrLedger, v)
      | Some _ => if maxConcurrent <=? 0 then (Ok [], v) else enforceCap (later 2 E) (UserKey i) (ID i) maxConcurrent v
      end
  end.

Definition Revoke (E : cmds) (uk sid : string) (ttl : Z) (v : V) : result serror unit * V :=
  let '(owned, v) := command E 0 (fun t v => (vk_sismember t v (userSessKey uk) sid, v)) v in
  match owned with
  | None => (Err ErrLedger, v)
  | Some false => (Err ErrSessionNotFound, v)
  | Some true =>
      let '(ok, v) := command E 1 (fun t v =>
        (tt, vk_set t (revokedKey sid) (Text "1") (set_ms ttl) (vk_srem t (userSessKey uk) [sid] (vk_del t (sessKey sid) v)))) v in
      (match ok with None => Err ErrLedger | Some _ => Ok tt end, v)
  end.

Definition IsRevoked (E : cmds) (sid : string) (v : V) : result serror bool * V :=
  let '(n, v) := command E 0 (fun t v => (vk_exists t v (revokedKey sid), v)) v in
  (match n with None => Err ErrLedger | Some b => Ok b end, v).

Definition ledger : SessionStore V := mkStore _
  Touch (fun E uk _ _ => List_ E uk) (fun E uk sid ttl _ => Revoke E uk sid ttl) (fun E sid _ => IsRevoked E sid).
End redis.
End Redis.

(** ** What the middleware needs of a ledger

    One call to the ledger; [perform] is the ledger after it. *)
Inductive call := CTouch (i : SessionInfo) | CList (uk : string) | CRevoke (uk sid : string) | CCheck (sid : string).

Definition perform {St} (L : SessionStore St) (cfg : SessionConfig) (E : cmds) (now : Z) (a : call) (s : St) : St :=
  match a with
  | CTouch i => (Touch L E i (IdleTimeout cfg) (MaxConcurrent cfg) now s).2
  | CList uk => (ListSessions L E uk (IdleTimeout cfg) now s).2
  | CRevoke uk sid => (Revoke L E uk sid (RevokeTTL cfg) now s).2
  | CCheck sid => (IsRevoked L E sid now s).2
  end.

(** The middleware touches sessions that have an id. *)
Definition valid_call (a : call) : Prop := match a with CTouch i => ID i <> ""%string | _ => True end.

(** Instants are milliseconds.  [during c c' E now]: a call takes place after
    [c] and before [c'].  [sound c s]: a ledger at [c] that calls produced.
    [tomb c u sid s]: from [c] and up to [u] the ledger refuses [sid]. *)
Class Ledger {St : Type} (L : SessionStore St) (cfg : SessionConfig) := {
  during : Z -> Z -> cmds -> Z -> Prop;
  sound : Z -> St -> Prop;
  tomb : Z -> Z -> string -> St -> Prop;
  during_le c c' E now : during c c' E now -> c <= c';
  sound_ages c c' s : c <= c' -> sound c s -> sound c' s;
  tomb_ages c c' u sid s : c <= c' -> tomb c u sid s -> tomb c' u sid s;
  touch_answers i c c' E now s : sound c s -> during c c' E now -> (forall n, (E n).1 = Delivered) ->
    exists ev s', Touch L E i (IdleTimeout cfg) (MaxConcurrent cfg) now s = (Ok ev, s');
  list_answers uk c c' E now s : sound c s -> during c c' E now -> (forall n, (E n).1 = Delivered) ->
    exists l s', ListSessions L E uk (IdleTimeout cfg) now s = (Ok l, s');
  sound_perform a c c' E now s : valid_call a -> sound c s -> during c c' E now -> sound c' (perform L cfg E now a s);
  tomb_perform a u sid c c' E now s : sound c s -> during c c' E now -> u < c + RevokeTTL cfg / Millisecond ->
    tomb c u sid s -> tomb c' u sid (perform L cfg E now a s);
  tomb_revoke u uk sid c c' E now s s' : sound c s -> during c c' E now -> u < c + RevokeTTL cfg / Millisecond ->
    Revoke L E uk sid (RevokeTTL cfg) now s = (Ok tt, s') -> tomb c' u sid s';
  tomb_refuses u sid c c' E now s : tomb c u sid s -> during c c' E now -> c' <= u -> (E O).1 = Delivered ->
    (IsRevoked L E sid now s).1 = Ok true;
  touch_caps i ev l c c' c'' E E' now now' s s' s'' : ID i <> ""%string -> 0 < MaxConcurrent cfg -> sound c s ->
    during c c' E now -> Touch L E i (IdleTimeout cfg) (MaxConcurrent cfg) now s = (Ok ev, s') ->
    during c' c'' E' now' -> ListSessions L E' (UserKey i) (IdleTimeout cfg) now' s' = (Ok l, s'') ->
    Z.of_nat (length l) <= MaxConcurrent cfg /\ (ID i ∉ ev) /\
    (c'' + 1000 < c + IdleTimeout cfg / Millisecond -> ID i ∈ (ID <$> l));
}.

Ltac instants := unfold Millisecond in *; Z.to_euclidean_division_equations; lia.

(** ** The ledger in memory is one *)
Section memory_ledger.
Context (order newest : list SessionInfo -> list SessionInfo).
Context (Horder : forall l, order l ≡ₚ l) (Hnewest : forall l, newest l ≡ₚ l).
Implicit Types (x : gmap string SessionInfo) (m : MemorySessionStore).

Definition keyed x : Prop := forall k i, x !! k = Some i -> ID i = k /\ k <> ""%string.

Lemma keyed_sub x y : x ⊆ y -> keyed y -> keyed x.
Proof. intros Hs Hy k i Hk. apply Hy. by eapply lookup_weaken. Qed.

Lemma keyed_insert x k i : ID i = k -> k <> ""%string -> keyed x -> keyed (<[k := i]> x).
Proof. intros Hi Hk Hx k' i' [[<- <-]|[_ Hl]]%lookup_insert_Some; [done | by apply Hx]. Qed.

Lemma fresh_sub ttl now x : fresh_sessions ttl now x ⊆ x.
Proof. apply map_filter_subseteq. Qed.

Lemma oldest_other_spec sid x : keyed x ->
  match oldest_other order sid x with
  | Some i => x !! ID i = Some i /\ ID i <> sid /\ ID i <> ""%string
  | None => (size x <= 1)%nat
  end.
Proof.
  intros Hx. unfold oldest_other. pose proof (least_spec CreatedAt (order (List.filter (fun i => negb (String.eqb (ID i) sid)) (map_to_list x).*2))) as Hl.
  destruct (least CreatedAt _) as [i|].
  - destruct Hl as [Hin _]. rewrite Horder in Hin. apply elem_of_filterb in Hin as [Hin Hne].
    apply list_elem_of_fmap in Hin as [[k i'] [-> Hin]]. apply elem_of_map_to_list in Hin. cbn in *.
    destruct (Hx _ _ Hin) as [Hk ?]. breflect. subst k. done.
  - assert (dom x ⊆ {[sid]}) as Hsub.
    { intros k [i Hk]%elem_of_dom. destruct (decide (k = sid)) as [->|Hne]; [set_solver|]. exfalso.
      destruct (Hx _ _ Hk) as [<- _].
      assert (i ∈ order (List.filter (fun i => negb (String.eqb (ID i) sid)) (map_to_list x).*2)) as Hi; [|rewrite Hl in Hi; set_solver].
      rewrite Horder. apply elem_of_filterb. split; [|by rewrite (proj2 (String.eqb_neq _ _) Hne)].
      apply list_elem_of_fmap. exists (ID i, i). split; [done | by apply elem_of_map_to_list]. }
    apply subseteq_size in Hsub. by rewrite size_dom, size_singleton in Hsub.
Qed.

Lemma evict_spec n sid mx x l y : keyed x -> 0 < mx -> Z.of_nat (size x) <= Z.of_nat n + mx ->
  evict order n sid mx x = (l, y) -> Z.of_nat (size y) <= mx /\ y ⊆ x /\ (sid ∉ l) /\ y !! sid = x !! sid.
Proof.
  revert x l y. induction n as [|n IH]; intros x l y Hx Hm Hn; cbn.
  - intros [= <- <-]. split_and!; [lia | done | set_solver | done].
  - destruct (Z.leb_spec (Z.of_nat (size x)) mx) as [Hle|Hgt].
    { intros [= <- <-]. split_and!; [lia | done | set_solver | done]. }
    pose proof (oldest_other_spec sid x Hx) as Ho. destruct (oldest_other order sid x) as [i|]; [|lia].
    destruct Ho as (Hi & Hs & He). rewrite (proj2 (String.eqb_neq _ _) He).
    destruct (evict order n sid mx (delete (ID i) x)) as [l' y'] eqn:Ev. intros [= <- <-].
    destruct (IH _ _ _ (keyed_sub _ _ (delete_subseteq _ _) Hx) Hm ltac:(rewrite map_size_delete_Some by eauto; lia) Ev) as (Hz & Hy & Hl & Hk).
    split_and!; [done | etrans; [done | apply delete_subseteq] | set_solver | by rewrite Hk, lookup_delete_ne].
Qed.

Lemma of_user_with uk uk' x m : of_user uk (with_user uk' x m) = if decide (uk = uk') then x else of_user uk m.
Proof. unfold of_user, with_user. cbn. case_decide; subst; [by rewrite lookup_insert_eq | by rewrite lookup_insert_ne]. Qed.

Context (cfg : SessionConfig).

Definition mem_sound (_ : Z) m : Prop :=
  forall uk, keyed (of_user uk m) /\ (0 < MaxConcurrent cfg -> Z.of_nat (size (of_user uk m)) <= MaxConcurrent cfg).
Definition mem_tomb (c u : Z) (sid : string) m : Prop := c <= u -> exists exp, revoked m !! sid = Some exp /\ u * Millisecond <= exp.
Definition mem_during (c c' : Z) (_ : cmds) (now : Z) : Prop := c * Millisecond <= now <= c' * Millisecond.

Lemma mem_sound_with c uk x m :
  mem_sound c m -> keyed x -> (0 < MaxConcurrent cfg -> Z.of_nat (size x) <= MaxConcurrent cfg) -> mem_sound c (with_user uk x m).
Proof. intros Hm Hx Hs uk'. rewrite of_user_with. case_decide; [done | apply Hm]. Qed.

Lemma mem_sound_sub c uk x m : mem_sound c m -> x ⊆ of_user uk m -> mem_sound c (with_user uk x m).
Proof.
  intros Hm Hx. destruct (Hm uk) as [Hk Hs]. apply mem_sound_with; [done | by eapply keyed_sub |].
  intros H0. specialize (Hs H0). apply map_subseteq_size in Hx. lia.
Qed.

Lemma mem_sound_prune c uk ttl now m : mem_sound c m -> mem_sound c (pruneLocked uk ttl now m).
Proof.
  intros Hm. unfold pruneLocked. destruct (sessions m !! uk) as [x|] eqn:E; [|done]. apply mem_sound_sub; [done|].
  unfold of_user. rewrite E. apply fresh_sub.
Qed.

(** The sessions of the user after a touch. *)
Lemma mem_Touch_spec c i idle now m ev m' : ID i <> ""%string -> mem_sound c m ->
  mem_Touch order i idle (MaxConcurrent cfg) now m = (Ok ev, m') ->
  exists x, m' = with_user (UserKey i) x m /\ keyed x /\ (0 < MaxConcurrent cfg -> Z.of_nat (size x) <= MaxConcurrent cfg) /\
    (ID i ∉ ev) /\ exists e, x !! ID i = Some e /\ LastSeen e = now.
Proof.
  intros Hne Hm. destruct (Hm (UserKey i)) as [Hk Hs]. unfold mem_Touch. set (f := fresh_sessions idle now (of_user (UserKey i) m)).
  assert (f ⊆ of_user (UserKey i) m) as Hf by apply fresh_sub. pose proof (map_subseteq_size _ _ Hf) as Hsz.
  pose proof (keyed_sub _ _ Hf Hk) as Hkf. destruct (f !! ID i) as [e|] eqn:E.
  - intros [= <- <-]. eexists. split_and!; [done | | | set_solver | eexists; split; [apply lookup_insert_eq | done]].
    + apply keyed_insert; [|done|done]. cbn. by destruct (Hkf _ _ E).
    + rewrite map_size_insert_Some by eauto. intros H0. specialize (Hs H0). lia.
  - set (y := <[ID i := stamped now i]> f). assert (keyed y) as Hy by by apply keyed_insert.
    destruct (Z.ltb_spec 0 (MaxConcurrent cfg)) as [H0|H0].
    + destruct (evict order (size y) (ID i) (MaxConcurrent cfg) y) as [l x] eqn:Ev. intros [= <- <-].
      apply evict_spec in Ev as (Hz & Hxy & Hl & Hi); [|done|done|lia]. exists x.
      split_and!; [done | by eapply keyed_sub | done | done |]. eexists. rewrite Hi. unfold y. split; [apply lookup_insert_eq | done].
    + intros [= <- <-]. exists y. split_and!; [done | done | lia | set_solver | eexists; split; [apply lookup_insert_eq | done]].
Qed.

Lemma mem_Touch_ok i idle mx now m : exists ev m', mem_Touch order i idle mx now m = (Ok ev, m') /\ revoked m' = revoked m.
Proof. unfold mem_Touch. repeat case_match; eauto. Qed.

Lemma pruneLocked_revoked uk ttl now m : revoked (pruneLocked uk ttl now m) = revoked m.
Proof. unfold pruneLocked. by case_match. Qed.

Lemma mem_sound_perform a c c' E now m : valid_call a -> mem_sound c m -> mem_during c c' E now -> mem_sound c' (perform (memory order newest) cfg E now a m).
Proof.
  intros Hv Hm _. destruct a as [i|uk|uk sid|sid]; cbn.
  - destruct (mem_Touch order i _ _ now m) as [r m'] eqn:Et. cbn.
    destruct (mem_Touch_ok i (IdleTimeout cfg) (MaxConcurrent cfg) now m) as (ev & m2 & E2 & _). rewrite Et in E2. simplify_eq.
    destruct (mem_Touch_spec c _ _ _ _ _ _ Hv Hm Et) as (x & -> & Hk & Hs & _). by apply (mem_sound_with c).
  - by apply (mem_sound_prune c).
  - unfold mem_Revoke. case_match; [|done]. intros uk'.
    pose proof (mem_sound_sub c uk (delete sid (of_user uk m)) m Hm (delete_subseteq _ _) uk') as Hgo. done.
  - unfold mem_IsRevoked. repeat case_match; done.
Qed.

Lemma mem_tomb_perform a u sid c c' E now m : mem_sound c m -> mem_during c c' E now -> u < c + RevokeTTL cfg / Millisecond ->
  mem_tomb c u sid m -> mem_tomb c' u sid (perform (memory order newest) cfg E now a m).
Proof.
  intros _ [H1 H2] Hu Ht Hle. destruct (Ht ltac:(instants)) as (exp & He & Hx). destruct a as [i|uk|uk sid'|sid']; cbn.
  - destruct (mem_Touch_ok i (IdleTimeout cfg) (MaxConcurrent cfg) now m) as (ev & m' & -> & Hr). exists exp. cbn. by rewrite Hr.
  - exists exp. by rewrite pruneLocked_revoked.
  - unfold mem_Revoke. case_match; cbn; [|by exists exp]. destruct (decide (sid = sid')) as [->|Hne].
    + exists (now + RevokeTTL cfg). rewrite lookup_insert_eq. split; [done|]. instants.
    + exists exp. by rewrite lookup_insert_ne.
  - unfold mem_IsRevoked. destruct (revoked m !! sid') as [e|] eqn:Er; cbn; [|by exists exp].
    destruct (Z.ltb_spec e now); cbn; [|by exists exp]. destruct (decide (sid = sid')) as [->|Hne].
    + simplify_eq. instants.
    + exists exp. by rewrite lookup_delete_ne.
Qed.

Lemma mem_tomb_revoke u uk sid c c' E now m m' : mem_sound c m -> mem_during c c' E now -> u < c + RevokeTTL cfg / Millisecond ->
  Revoke (memory order newest) E uk sid (RevokeTTL cfg) now m = (Ok tt, m') -> mem_tomb c' u sid m'.
Proof.
  intros _ [H1 H2] Hu. cbn. unfold mem_Revoke. case_match; [|done]. intros [= <-] Hle.
  exists (now + RevokeTTL cfg). cbn. rewrite lookup_insert_eq. split; [done|]. instants.
Qed.

Lemma mem_tomb_refuses u sid c c' E now m : mem_tomb c u sid m -> mem_during c c' E now -> c' <= u -> (E O).1 = Delivered ->
  (IsRevoked (memory order newest) E sid now m).1 = Ok true.
Proof.
  intros Ht [H1 H2] Hle _. destruct (Ht ltac:(instants)) as (exp & He & Hx). cbn. unfold mem_IsRevoked. rewrite He.
  destruct (Z.ltb_spec exp now); [instants | done].
Qed.

Lemma mem_touch_caps i ev l c c' c'' E E' now now' m m' m'' : ID i <> ""%string -> 0 < MaxConcurrent cfg -> mem_sound c m ->
  mem_during c c' E now -> Touch (memory order newest) E i (IdleTimeout cfg) (MaxConcurrent cfg) now m = (Ok ev, m') ->
  mem_during c' c'' E' now' -> ListSessions (memory order newest) E' (UserKey i) (IdleTimeout cfg) now' m' = (Ok l, m'') ->
  Z.of_nat (length l) <= MaxConcurrent cfg /\ (ID i ∉ ev) /\ (c'' + 1000 < c + IdleTimeout cfg / Millisecond -> ID i ∈ (ID <$> l)).
Proof.
  intros Hne H0 Hm [H1 H2] Et [H3 H4]. cbn in *.
  destruct (mem_Touch_spec c _ _ _ _ _ _ Hne Hm Et) as (x & -> & Hk & Hs & He & e & Hl & Hls).
  unfold mem_List. intros [= <- <-]. unfold pruneLocked, with_user. cbn. rewrite lookup_insert_eq. cbn. unfold of_user. cbn. rewrite lookup_insert_eq. cbn.
  rewrite Hnewest. rewrite length_fmap. rewrite length_map_to_list.
  pose proof (map_subseteq_size _ _ (fresh_sub (IdleTimeout cfg) now' x)). split_and!; [specialize (Hs H0); lia | done |].
  intros Hfr. apply list_elem_of_fmap. exists e. split; [by destruct (Hk _ _ Hl)|].
  apply list_elem_of_fmap. exists (ID i, e). split; [done|]. apply elem_of_map_to_list, map_lookup_filter_Some. split; [done|]. cbn.
  instants.
Qed.

Lemma mem_during_le c c' E now : mem_during c c' E now -> c <= c'.
Proof. intros [H1 H2]. instants. Qed.

Lemma mem_tomb_ages c c' u sid m : c <= c' -> mem_tomb c u sid m -> mem_tomb c' u sid m.
Proof. intros Hle Ht Hu. apply Ht. lia. Qed.

Lemma mem_touch_answers i c c' E now m : mem_sound c m -> mem_during c c' E now -> (forall n, (E n).1 = Delivered) ->
  exists ev m', Touch (memory order newest) E i (IdleTimeout cfg) (MaxConcurrent cfg) now m = (Ok ev, m').
Proof. intros _ _ _. cbn. destruct (mem_Touch_ok i (IdleTimeout cfg) (MaxConcurrent cfg) now m) as (ev & m' & -> & _). eauto. Qed.

#[export] Instance memory_ledger : Ledger (memory order newest) cfg := {|
  during := mem_during; sound := mem_sound; tomb := mem_tomb; during_le := mem_during_le; tomb_ages := mem_tomb_ages;
  sound_ages := fun _ _ _ _ Hm => Hm; touch_answers := mem_touch_answers; list_answers := fun _ _ _ _ _ _ _ _ _ => ex_intro _ _ (ex_intro _ _ eq_refl);
  sound_perform := mem_sound_perform; tomb_perform := mem_tomb_perform; tomb_revoke := mem_tomb_revoke;
  tomb_refuses := mem_tomb_refuses; touch_caps := mem_touch_caps;
|}.
End memory_ledger.

(** ** The ledger in Valkey is one *)
Section redis_ledger.
Context {V : Type} `{VL : ValkeyLaws payload V} `{VS : !ValkeySets payload V} `{VSL : !ValkeySetsLaws payload V}.
Context (newest : list SessionInfo -> list SessionInfo) (Hnewest : forall l, newest l ≡ₚ l).
Implicit Types (v : V) (t : Z) (E : cmds) (P : Z -> V -> Prop).

(** The commands of a call run in order between [c] and [c']. *)
Definition span (c c' : Z) (E : cmds) : Prop :=
  (forall i, c <= (E i).2 <= c') /\ forall i j, (i <= j)%nat -> (E i).2 <= (E j).2.

Lemma span_later n c c' E : span c c' E -> span c c' (later n E).
Proof. intros [Hb Hm]. split; [intros i; apply Hb | intros i j Hij; apply Hm; lia]. Qed.

Lemma span_from n c c' E : span c c' E -> span (E n).2 c' (later n E).
Proof. intros [Hb Hm]. split; [intros i; split; [apply Hm; lia | apply Hb] | intros i j Hij; apply Hm; lia]. Qed.

Lemma span_next n c c' E : span c c' E -> span (E n).2 c' (later (S n) E).
Proof. intros [Hb Hm]. split; [intros i; split; [apply Hm; lia | apply Hb] | intros i j Hij; apply Hm; lia]. Qed.

Lemma keys_apart a b : sessKey a <> userSessKey b /\ sessKey a <> revokedKey b /\ userSessKey a <> revokedKey b.
Proof. by split_and!. Qed.

Lemma sessKey_inj a b : sessKey a = sessKey b -> a = b.
Proof. unfold sessKey, userSessKey, revokedKey. cbn. intros H. by simplify_eq. Qed.
Lemma userSessKey_inj a b : userSessKey a = userSessKey b -> a = b.
Proof. unfold sessKey, userSessKey, revokedKey. cbn. intros H. by simplify_eq. Qed.
Lemma revokedKey_inj a b : revokedKey a = revokedKey b -> a = b.
Proof. unfold sessKey, userSessKey, revokedKey. cbn. intros H. by simplify_eq. Qed.

(** The records and the index sets at [t]. *)
Definition doc_at t v (sid : string) : Prop :=
  match vk_view v t (sessKey sid) with None => True | Some (OStr (Doc i), _) => ID i = sid | _ => False end.
Definition index t v (uk : string) : option (gset string) := as_set (vk_view v t (userSessKey uk)).
Definition well t v : Prop := (forall sid, doc_at t v sid) /\ forall uk, is_Some (index t v uk).

(** Predicates that time and the commands on one namespace keep. *)
Definition ages P : Prop := forall t t' v, t <= t' -> P t v -> P t' v.

Lemma index_later t t' v uk x : t <= t' -> index t v uk = Some x -> exists y, index t' v uk = Some y /\ y ⊆ x.
Proof.
  intros Ht. unfold index. rewrite (law_expire v t t' _ Ht). destruct (vk_view v t (userSessKey uk)) as [[o d]|]; cbn; [|eauto].
  destruct (live t' d); cbn; [eauto|]. intros _. exists ∅. split; [done|set_solver].
Qed.

Lemma well_ages : ages well.
Proof.
  intros t t' v Ht [Hd Hi]. split.
  - intros sid. specialize (Hd sid). unfold doc_at in *. rewrite (law_expire v t t' _ Ht).
    destruct (vk_view v t (sessKey sid)) as [[o d]|]; cbn; [|done]. by destruct (live t' d).
  - intros uk. destruct (Hi uk) as [x Hx]. destruct (index_later t t' v uk x Ht Hx) as (y & Hy & _). eauto.
Qed.

(** Effects of the commands, as views. *)
Lemma view_srem t v uk ms : well t v -> exists x, index t v uk = Some x /\
  forall k, vk_view (vk_srem t (userSessKey uk) ms v) t k =
    on_key (userSessKey uk) k (sentry (x ∖ list_to_set ms) (expiry (vk_view v t (userSessKey uk)))) (vk_view v t k).
Proof. intros [_ Hi]. destruct (Hi uk) as [x Hx]. exists x. split; [done|]. intros k. by apply law_srem. Qed.

Lemma as_set_sentry (x : gset string) d : as_set (V:=payload) (sentry x d) = Some x.
Proof. unfold sentry. case_decide; by subst. Qed.

(** Only the key of one user's index changes, to a set; or of one record, to
    a record of its id or nothing; or a tombstone. *)
Lemma well_user t v v' uk e : (forall k, vk_view v' t k = on_key (userSessKey uk) k e (vk_view v t k)) -> is_Some (as_set e) -> well t v -> well t v'.
Proof.
  intros Hv He [Hd Hi]. split.
  - intros sid. unfold doc_at. rewrite Hv, on_key_ne; [apply Hd | apply keys_apart].
  - intros uk'. unfold index. rewrite Hv. unfold on_key. case_decide; [done | apply Hi].
Qed.

Lemma well_doc t v v' sid e : (forall k, vk_view v' t k = on_key (sessKey sid) k e (vk_view v t k)) ->
  match e with None => True | Some (OStr (Doc i), _) => ID i = sid | _ => False end -> well t v -> well t v'.
Proof.
  intros Hv He [Hd Hi]. split.
  - intros sid'. unfold doc_at. rewrite Hv. unfold on_key. destruct (decide (sessKey sid' = sessKey sid)) as [->%sessKey_inj|Hne]; [done | apply Hd].
  - intros uk'. unfold index. rewrite Hv, on_key_ne; [apply Hi|]. apply not_eq_sym, keys_apart.
Qed.

Lemma well_revoked t v v' sid e : (forall k, vk_view v' t k = on_key (revokedKey sid) k e (vk_view v t k)) -> well t v -> well t v'.
Proof.
  intros Hv [Hd Hi]. split.
  - intros sid'. unfold doc_at. rewrite Hv, on_key_ne; [apply Hd | apply keys_apart].
  - intros uk'. unfold index. rewrite Hv, on_key_ne; [apply Hi | apply keys_apart].
Qed.

Lemma well_srem t v uk ms : well t v -> well t (vk_srem t (userSessKey uk) ms v).
Proof.
  intros Hw. destruct (view_srem t v uk ms Hw) as (x & _ & Hv). eapply well_user; [exact Hv | | done]. rewrite as_set_sentry. eauto.
Qed.

Lemma well_del t v sid : well t v -> well t (vk_del t (sessKey sid) v).
Proof. intros Hw. eapply (well_doc _ _ _ sid None); [intros k; apply law_del | done | done]. Qed.

(** The transaction of a touch. *)
Definition touched_view t v (i : SessionInfo) (idle : Z) (x : gset string) (k : string) : option (ventry payload) :=
  on_key (userSessKey (UserKey i)) k (Some (OSet ({[ID i]} ∪ x), Some (t + expire_ms idle)))
    (on_key (sessKey (ID i)) k (Some (OStr (Doc (stored i)), Some (t + set_ms idle))) (vk_view v t k)).

Lemma set_ms_pos d : 0 < set_ms d.
Proof. unfold set_ms. lia. Qed.
Lemma expire_ms_pos d : 0 < expire_ms d.
Proof. unfold expire_ms. lia. Qed.
#[local] Hint Resolve set_ms_pos expire_ms_pos : core.

Lemma view_touch t v i idle : well t v -> exists x, index t v (UserKey i) = Some x /\
  forall k, vk_view (Redis.touch_tx i idle t v) t k = touched_view t v i idle x k.
Proof.
  intros Hw. destruct (proj2 Hw (UserKey i)) as [x Hx]. exists x. split; [done|]. intros k. unfold Redis.touch_tx, touched_view.
  set (v1 := vk_set t (sessKey (ID i)) (Doc (stored i)) (set_ms idle) v).
  assert (forall k, vk_view v1 t k = on_key (sessKey (ID i)) k (Some (OStr (Doc (stored i)), Some (t + set_ms idle))) (vk_view v t k)) as H1
    by (intros; by apply law_set).
  assert (vk_view v1 t (userSessKey (UserKey i)) = vk_view v t (userSessKey (UserKey i))) as H2
    by (rewrite H1; apply on_key_ne, not_eq_sym, keys_apart).
  assert (as_set (vk_view v1 t (userSessKey (UserKey i))) = Some x) as H3 by by rewrite H2.
  rewrite law_pexpire by done. rewrite !(law_sadd _ _ _ _ x _ H3), on_key_eq, on_key_on_key. cbn. by rewrite H1.
Qed.

(** *** Predicates the commands keep

    [free] are the sessions that may be evicted. *)
Record keeps (free : string -> Prop) P : Prop := {
  k_ages : ages P;
  k_well t v : P t v -> well t v;
  k_stale t uk ms v : (forall m, m ∈ ms -> vk_view v t (sessKey m) = None) -> P t v -> P t (vk_srem t (userSessKey uk) ms v);
  k_evict t uk m v : free m -> P t v -> P t (vk_srem t (userSessKey uk) [m] (vk_del t (sessKey m) v));
}.

Lemma command_keeps {R} P E n (f : Z -> V -> R * V) c v : ages P -> c <= (E n).2 -> P c v ->
  (forall v, P (E n).2 v -> P (E n).2 (f (E n).2 v).2) -> P (E n).2 (Redis.command E n f v).2.
Proof.
  intros Ha Hc Hp Hf. assert (P (E n).2 v) as Hn by by eapply Ha. unfold Redis.command, remote.
  destruct (E n).1; cbn; [|done|by apply Hf]. specialize (Hf v Hn). by destruct (f (E n).2 v).
Qed.

Lemma command_read {R} E n (f : Z -> V -> R) v : (Redis.command E n (fun t v => (f t v, v)) v).2 = v.
Proof. unfold Redis.command, remote. by destruct (E n).1. Qed.

Lemma command_answer {R} E n (f : Z -> V -> R * V) v r v' : Redis.command E n f v = (Some r, v') -> f (E n).2 v = (r, v').
Proof. unfold Redis.command, remote. destruct (E n).1; [|done..]. destruct (f (E n).2 v). by intros [= -> ->]. Qed.

Lemma gone_later t t' v k : t <= t' -> vk_view v t k = None -> vk_view v t' k = None.
Proof. intros Ht Hk. by rewrite (law_expire v t t' k Ht), Hk. Qed.

(** The records the loop reads. *)
Lemma read_each_spec T ids : forall E out stale v c r v', well c v -> (forall i, (i < length ids)%nat -> c <= (E i).2 <= T) ->
  Redis.read_each E ids out stale v = (r, v') -> v' = v /\ forall out' stale', r = Some (out', stale') ->
  exists o s, out' = out ++ o /\ stale' = stale ++ s /\ (ID <$> o) `sublist_of` ids /\
    (forall m, m ∈ s -> vk_view v T (sessKey m) = None) /\ (forall m, m ∈ ids -> m ∈ (ID <$> o) \/ m ∈ s) /\
    (forall m, m ∈ (ID <$> o) -> vk_view v c (sessKey m) <> None).
Proof.
  induction ids as [|id ids IH]; intros E out stale v c r v' Hw Ht; cbn [Redis.read_each].
  { intros [= <- <-]. split; [done|]. intros ? ? [= <- <-]. exists [], []. rewrite !app_nil_r. split_and!; [done|done|done|set_solver..]. }
  pose proof (command_read E 0 (fun t v => vk_get t v (sessKey id)) v) as Hr.
  destruct (Redis.command E 0 _ v) as [raw v1] eqn:Ec. cbn in Hr. subst v1. destruct raw as [raw|]; [|by intros [= <- <-]].
  apply command_answer in Ec as [= Eg].
  assert (c <= (E O).2 <= T) as H0 by (apply Ht; cbn; lia).
  assert (forall i, (i < length ids)%nat -> c <= ((later 1 E) i).2 <= T) as Ht' by (intros i Hi; apply Ht; cbn; lia).
  pose proof (proj1 (well_ages _ _ _ (proj1 H0) Hw) id) as Hd. unfold doc_at in Hd.
  destruct (vk_view v (E O).2 (sessKey id)) as [[[[i|]| | |] d]|] eqn:Ev; try done.
  - rewrite (law_get _ _ _ _ _ Ev) in Eg. subst raw. intros Hrun.
    destruct (IH _ _ _ _ _ _ _ Hw Ht' Hrun) as [-> Hs]. split; [done|]. intros out' stale' Eq.
    destruct (Hs _ _ Eq) as (o & s & -> & -> & H1 & H2 & H3 & H4). exists (i :: o), s. rewrite <-app_assoc, fmap_cons, Hd.
    split_and!; [done | done | by apply sublist_skip | done | set_solver |].
    intros m [->|Hm]%elem_of_cons; [|by apply H4]. intros Hn. apply (gone_later _ _ _ _ (proj1 H0)) in Hn. congruence.
  - rewrite (law_get_none _ _ _ Ev) in Eg. subst raw. intros Hrun.
    destruct (IH _ _ _ _ _ _ _ Hw Ht' Hrun) as [-> Hs]. split; [done|]. intros out' stale' Eq.
    destruct (Hs _ _ Eq) as (o & s & -> & -> & H1 & H2 & H3 & H4). exists o, (id :: s). rewrite <-app_assoc.
    split_and!; [done | done | by apply sublist_cons | | set_solver | done].
    intros m [->|Hm]%elem_of_cons; [|by apply H2]. apply (gone_later (E O).2); [lia|done].
Qed.

Lemma index_srem t t' v uk ms uk' y : well t v -> t <= t' -> index t' (vk_srem t (userSessKey uk) ms v) uk' = Some y ->
  exists x, index t v uk' = Some x /\ y ⊆ x.
Proof.
  intros Hw Ht Hy. destruct (view_srem t v uk ms Hw) as (x & Hx & Hv).
  destruct (proj2 (well_srem t v uk ms Hw) uk') as [z Hz]. destruct (index_later _ _ _ _ _ Ht Hz) as (y' & Hy' & Hsub). simplify_eq.
  unfold index in Hz. rewrite Hv in Hz. unfold on_key in Hz. destruct (decide (userSessKey uk' = userSessKey uk)) as [->%userSessKey_inj|Hne].
  - rewrite as_set_sentry in Hz. simplify_eq. exists x. split; [done|set_solver].
  - exists z. done.
Qed.

Lemma doc_srem t t' v uk ms sid : well t v -> t <= t' -> vk_view (vk_srem t (userSessKey uk) ms v) t' (sessKey sid) = vk_view v t' (sessKey sid).
Proof.
  intros Hw Ht. destruct (view_srem t v uk ms Hw) as (x & _ & Hv). rewrite !(law_expire _ t t' _ Ht). f_equal.
  rewrite Hv. apply on_key_ne, keys_apart.
Qed.

(** The sessions of [uk] with a record are among [ids]. *)
Definition covers (uk : string) (ids : list string) t v : Prop :=
  forall x m, index t v uk = Some x -> m ∈ x -> vk_view v t (sessKey m) <> None -> m ∈ ids.

Lemma listLive_spec free P c c' E uk v r v' n : keeps free P -> P c v -> span c c' E -> Redis.listLive newest E uk v = (r, v', n) ->
  P (E n).2 v' /\ forall l, r = Ok l -> NoDup (ID <$> l) /\ covers uk (ID <$> l) (E n).2 v' /\
    (forall ids m, covers uk ids (E O).2 v -> m ∈ (ID <$> l) -> m ∈ ids) /\
    (forall x m, index (E O).2 v uk = Some x -> m ∈ x -> vk_view v (E n).2 (sessKey m) <> None -> m ∈ (ID <$> l)).
Proof using Hnewest VL VSL.
  intros Hk Hp [Hb Hm]. unfold Redis.listLive.
  pose proof (command_read E 0 (fun t v => vk_smembers t v (userSessKey uk)) v) as Hr.
  destruct (Redis.command E 0 _ v) as [ids v1] eqn:Ec. cbn in Hr. subst v1.
  assert (forall i, P (E i).2 v) as Hi by (intros i; eapply (k_ages _ _ Hk); [apply (Hb i) | done]).
  destruct ids as [ids|]; [|intros [= <- <- <-]; split; [apply Hi | done]]. apply command_answer in Ec as [= Eids].
  destruct (proj2 (k_well _ _ Hk _ _ (Hi O)) uk) as [x Hx].
  destruct (law_smembers _ _ _ _ Hx) as [Hnd Hmem]. rewrite Eids in Hnd, Hmem.
  destruct (Redis.read_each (later 1 E) ids [] [] v) as [rr v1] eqn:Er.
  apply (read_each_spec (E (S (length ids))).2 _ _ _ _ _ (E O).2) in Er as [-> Hs];
    [|by apply (k_well _ _ Hk) | intros i Hl; cbn; split; apply Hm; lia].
  destruct rr as [[out stale]|]; [|intros [= <- <- <-]; split; [apply Hi | done]].
  destruct (Hs _ _ eq_refl) as (o & s & -> & -> & H1 & H2 & H3 & H4). cbn [app]. set (w := match s with [] => v | _ => _ end).
  assert (P (E (S (S (length ids)))).2 w /\ (w = v \/ w = vk_srem (E (S (length ids))).2 (userSessKey uk) s v)) as [Hw Hcase].
  { unfold w. destruct s as [|a s']; [split; [apply Hi | by left]|]. split.
    - eapply (k_ages _ _ Hk); [apply (Hm (S (length ids))); lia|].
      unfold Redis.command, remote. destruct (E (S (length ids))).1; cbn; try apply Hi; apply (k_stale _ _ Hk); auto.
    - unfold Redis.command, remote. destruct (E (S (length ids))).1; cbn; auto. }
  clearbody w. intros [= <- <- <-]. split; [done|]. intros l [= <-].
  assert (forall m, vk_view w (E (S (S (length ids)))).2 (sessKey m) = vk_view v (E (S (S (length ids)))).2 (sessKey m)) as Hdoc.
  { intros m. destruct Hcase as [->| ->]; [done|]. apply doc_srem; [by apply (k_well _ _ Hk) | apply Hm; lia]. }
  assert (forall m, m ∈ x -> vk_view v (E (S (S (length ids)))).2 (sessKey m) <> None -> m ∈ (ID <$> newest o)) as Hall.
  { intros m Hmx Hv. rewrite Hnewest. apply Hmem in Hmx. destruct (H3 m Hmx) as [|Hst]; [done|]. destruct Hv.
    eapply gone_later; [|by apply H2]. apply Hm. lia. }
  split_and!.
  - rewrite Hnewest. by eapply sublist_NoDup.
  - intros y m Hy Hmy Hv. rewrite Hdoc in Hv. apply Hall; [|done]. destruct Hcase as [->| ->].
    + destruct (index_later _ (E (S (S (length ids)))).2 _ _ _ ltac:(apply (Hm O); lia) Hx) as (y' & Hy' & Hsub). simplify_eq. set_solver.
    + apply index_srem in Hy as (z & Hz & Hsub); [|by apply (k_well _ _ Hk) | apply Hm; lia].
      destruct (index_later _ (E (S (length ids))).2 _ _ _ ltac:(apply (Hm O); lia) Hx) as (y' & Hy' & Hsub'). simplify_eq. set_solver.
  - intros S m Hc Hml. rewrite Hnewest in Hml. eapply Hc; [done | | by apply H4]. apply Hmem. by eapply elem_of_submseteq; [|by apply sublist_submseteq].
  - intros x' m Hx'. simplify_eq. apply Hall.
Qed.

(** *** Evicting *)
Lemma covers_ages uk ids t t' v : well t v -> t <= t' -> covers uk ids t v -> covers uk ids t' v.
Proof.
  intros Hw Ht Hc x m Hx Hm Hd. destruct (proj2 Hw uk) as [y Hy]. destruct (index_later _ _ _ _ _ Ht Hy) as (x' & Hx' & Hsub). simplify_eq.
  eapply Hc; [done | set_solver |]. intros Hn. by apply Hd, (gone_later t).
Qed.

(** Removing one session of [uk]. *)
Lemma evict_views t v uk m : well t v -> let w := vk_srem t (userSessKey uk) [m] (vk_del t (sessKey m) v) in
  exists x, index t v uk = Some x /\ forall k, vk_view w t k =
    on_key (userSessKey uk) k (sentry (x ∖ {[m]}) (expiry (vk_view v t (userSessKey uk)))) (on_key (sessKey m) k None (vk_view v t k)).
Proof.
  intros Hw w. destruct (view_srem t (vk_del t (sessKey m) v) uk [m] (well_del _ _ _ Hw)) as (x & Hx & Hv). exists x.
  assert (vk_view (vk_del t (sessKey m) v) t (userSessKey uk) = vk_view v t (userSessKey uk)) as Hu
    by (rewrite law_del; apply on_key_ne, not_eq_sym, keys_apart).
  unfold index in *. rewrite Hu in Hx, Hv. split; [done|]. intros k. unfold w. rewrite Hv, law_del. do 2 f_equal. set_solver.
Qed.

Lemma covers_evict uk ids t v m : well t v -> covers uk ids t v ->
  covers uk (List.filter (fun x => negb (String.eqb x m)) ids) t (vk_srem t (userSessKey uk) [m] (vk_del t (sessKey m) v)).
Proof.
  intros Hw Hc y m' Hy Hm Hd. destruct (evict_views t v uk m Hw) as (x & Hx & Hv). unfold index in Hy. rewrite Hv, on_key_eq, as_set_sentry in Hy. simplify_eq.
  rewrite Hv, on_key_ne in Hd by apply keys_apart. unfold on_key in Hd. case_decide as Hk; [done|].
  apply elem_of_filterb. assert (m' <> m) as Hne by congruence. rewrite (proj2 (String.eqb_neq _ _) Hne). split; [|done].
  eapply Hc; [done | set_solver | done].
Qed.

Lemma evict_each_spec keep P uk c' victims : forall n E ids ev c v r v', keeps (fun m => m <> keep) P -> P c v -> covers uk ids c v -> c <= c' -> span c c' E ->
  Redis.evict_each E uk keep n victims ev v = (r, v') -> P c' v' /\ forall ev', r = Ok ev' ->
  exists d, ev' = ev ++ d /\ (keep ∉ d) /\ d `sublist_of` (ID <$> victims) /\
    covers uk (List.filter (fun x => negb (bool_decide (x ∈ d))) ids) c' v' /\
    (length d = n \/ forall m, m ∈ (ID <$> victims) -> m = keep \/ m ∈ d).
Proof using Hnewest VL VSL.
  induction victims as [|x victims IH]; intros n E ids ev c v r v' Hk Hp Hc Hle Hs.
  all: assert (forall d, d = [] -> covers uk (List.filter (fun x => negb (bool_decide (x ∈ d))) ids) c' v) as Hnil
    by (intros d ->; intros y m H1 H2 H3; apply elem_of_filterb; split; [|by rewrite bool_decide_false by set_solver];
        by eapply (covers_ages _ _ c); [by apply (k_well _ _ Hk) | done | done | ..]).
  { destruct n; intros [= <- <-]; (split; [by eapply (k_ages _ _ Hk)|]); intros ? [= <-]; exists []; rewrite app_nil_r; split_and!; auto; set_solver. }
  destruct n as [|n]; cbn [Redis.evict_each].
  { intros [= <- <-]. split; [by eapply (k_ages _ _ Hk)|]. intros ? [= <-]. exists []. rewrite app_nil_r. split_and!; auto; try set_solver. apply sublist_nil_l. }
  destruct (String.eqb_spec (ID x) keep) as [Hx|Hx].
  - intros Hrun. destruct (IH _ _ _ _ _ _ _ _ Hk Hp Hc Hle Hs Hrun) as [H1 H2]. split; [done|]. intros ev' Eq.
    destruct (H2 _ Eq) as (d & -> & H3 & H4 & H5 & H6). exists d. split_and!; [done | done | by apply sublist_cons | done | set_solver].
  - pose proof (command_keeps P E 0 (fun t v => (tt, vk_srem t (userSessKey uk) [ID x] (vk_del t (sessKey (ID x)) v))) c v (k_ages _ _ Hk) (proj1 (proj1 Hs O)) Hp
      ltac:(intros; cbn; by apply (k_evict _ _ Hk))) as Hkeep.
    destruct (Redis.command E 0 _ v) as [ok v1] eqn:Ec. cbn in Hkeep. destruct ok as [u|].
    2: { intros [= <- <-]. split; [|done]. eapply (k_ages _ _ Hk); [apply (proj1 Hs O) | done]. }
    apply command_answer in Ec as [= _ <-].
    assert (covers uk ids (E O).2 v) as Hc0 by (eapply covers_ages; [by apply (k_well _ _ Hk) | apply (proj1 Hs O) | done]).
    assert (P (E O).2 v) as Hp0 by (eapply (k_ages _ _ Hk); [apply (proj1 Hs O) | done]).
    intros Hrun. destruct (IH _ _ _ _ _ _ _ _ Hk Hkeep (covers_evict _ _ _ _ (ID x) (k_well _ _ Hk _ _ Hp0) Hc0) (proj2 (proj1 Hs O)) (span_next 0 _ _ _ Hs) Hrun) as [H1 H2].
    split; [done|]. intros ev' Eq. destruct (H2 _ Eq) as (d & -> & H3 & H4 & H5 & H6). exists (ID x :: d).
    rewrite <-app_assoc. split_and!; [done | set_solver | by apply sublist_skip | | cbn; destruct H6; [left; lia | right; set_solver]].
    intros y m Hy Hm Hd. specialize (H5 y m Hy Hm Hd). apply elem_of_filterb in H5 as [H5 Hb]. apply elem_of_filterb in H5 as [H5 Hb'].
    apply elem_of_filterb. split; [done|]. breflect. rewrite bool_decide_false; [done|]. set_solver.
Qed.

(** *** Touching *)
Lemma Touch_run E i idle mx now v r v' : Redis.Touch newest E i idle mx now v = (r, v') ->
  (exists e, r = Err e) /\ v' = v \/ exists i1, ID i1 = ID i /\ UserKey i1 = UserKey i /\
  let v1 := Redis.touch_tx i1 idle (E 1%nat).2 v in
  (exists e, r = Err e) /\ (v' = v1 \/ v' = v) \/ mx <= 0 /\ r = Ok [] /\ v' = v1 \/
  0 < mx /\ Redis.enforceCap newest (later 2 E) (UserKey i) (ID i) mx v1 = (r, v').
Proof.
  unfold Redis.Touch. pose proof (command_read E 0 (fun t v => vk_get t v (sessKey (ID i))) v) as Hr.
  destruct (Redis.command E 0 _ v) as [got v0] eqn:Ec. cbn in Hr. subst v0. destruct got as [ex|]; [|intros [= <- <-]; left; eauto].
  set (i1 := Redis.touched _ _ i). destruct (Redis.command E 1 _ v) as [ok v1] eqn:E1. intros Hrun. right. exists i1. split_and!; [done..|].
  destruct ok as [u|].
  - apply command_answer in E1 as [= _ <-]. destruct (Z.leb_spec mx 0); [simplify_eq; right; left; done | by right; right].
  - left. simplify_eq. split; [by eexists|]. unfold Redis.command, remote in E1. destruct (E 1%nat).1; simplify_eq; cbn; auto.
Qed.

Lemma enforceCap_keeps P c c' E uk keep mx v r v' : keeps (fun m => m <> keep) P -> P c v -> span c c' E ->
  Redis.enforceCap newest E uk keep mx v = (r, v') -> P c' v'.
Proof using Hnewest VL VSL.
  intros Hk Hp Hs. unfold Redis.enforceCap. destruct (Redis.listLive newest E uk v) as [[l v1] n] eqn:El.
  destruct (listLive_spec _ _ _ _ _ _ _ _ _ _ Hk Hp Hs El) as [Hp1 Hl]. destruct l as [l|e].
  - destruct (Hl _ eq_refl) as (Hnd & Hc & _). intros Hrun.
    by apply (evict_each_spec _ P _ c' _ _ _ _ _ _ _ _ _ Hk Hp1 Hc (proj2 (proj1 Hs n)) (span_from _ _ _ _ Hs)) in Hrun as [? _].
  - intros [= <- <-]. eapply (k_ages _ _ Hk); [apply (proj1 Hs n) | done].
Qed.

Lemma Touch_keeps P c c' E i idle mx now v : keeps (fun m => m <> ID i) P -> P c v -> span c c' E ->
  (forall t v i1, ID i1 = ID i -> UserKey i1 = UserKey i -> c <= t -> P t v -> P t (Redis.touch_tx i1 idle t v)) ->
  P c' (Redis.Touch newest E i idle mx now v).2.
Proof using Hnewest VL VSL.
  intros Hk Hp Hs Ht. destruct (Redis.Touch newest E i idle mx now v) as [r v'] eqn:Er. cbn.
  assert (P c' v) as Hv by (eapply (k_ages _ _ Hk); [|done]; destruct Hs as [Hb _]; specialize (Hb O); lia).
  apply Touch_run in Er as [[_ ->]|(i1 & H1 & H2 & Hc)]; [done|].
  assert (P (E 1%nat).2 (Redis.touch_tx i1 idle (E 1%nat).2 v)) as Hv1.
  { apply Ht; [done | done | apply (proj1 Hs) | eapply (k_ages _ _ Hk); [apply (proj1 Hs) | done]]. }
  assert (P c' (Redis.touch_tx i1 idle (E 1%nat).2 v)) as Hv2 by (eapply (k_ages _ _ Hk); [apply (proj1 Hs) | done]).
  destruct Hc as [[_ [->| ->]]|[(_ & _ & ->)|[_ Hc]]]; [done..|].
  by eapply enforceCap_keeps; [exact Hk | exact Hv1 | exact (span_next 1 _ _ _ Hs) | exact Hc].
Qed.

(** After an answered touch with a cap, the sessions with records are few. *)
Lemma enforceCap_caps P c c' E uk keep mx v ev v' : keeps (fun m => m <> keep) P -> P c v -> span c c' E -> 0 < mx ->
  Redis.enforceCap newest E uk keep mx v = (Ok ev, v') ->
  (keep ∉ ev) /\ exists ids, Z.of_nat (length ids) <= mx /\ covers uk ids c' v'.
Proof using Hnewest VL VSL.
  intros Hk Hp Hs Hmx. unfold Redis.enforceCap. destruct (Redis.listLive newest E uk v) as [[l v1] n] eqn:El.
  destruct (listLive_spec _ _ _ _ _ _ _ _ _ _ Hk Hp Hs El) as [Hp1 Hl]. destruct l as [l|e]; [|done].
  destruct (Hl _ eq_refl) as (Hnd & Hc & _). intros Hrun.
  apply (evict_each_spec _ P _ c' _ _ _ _ _ _ _ _ _ Hk Hp1 Hc (proj2 (proj1 Hs n)) (span_from _ _ _ _ Hs)) in Hrun as [_ Hd].
  destruct (Hd _ eq_refl) as (d & -> & H1 & H2 & H3 & H4). split; [done|]. eexists. split; [|exact H3].
  rewrite fmap_reverse in *. assert (NoDup d) as Hdd by (eapply sublist_NoDup; [|exact H2]; by rewrite reverse_Permutation).
  assert (d ⊆ ID <$> l) as Hsub by (intros m Hm; apply elem_of_reverse; by eapply elem_of_submseteq; [|by apply sublist_submseteq]).
  set (rest := List.filter _ (ID <$> l)). assert (NoDup rest) as Hnr by (by apply NoDup_ListNoDup, List.NoDup_filter, NoDup_ListNoDup).
  destruct H4 as [H4|H4].
  - assert (length d + length rest <= length (ID <$> l))%nat as Hlen.
    { rewrite <-length_app. apply submseteq_length, NoDup_submseteq.
      - apply NoDup_app. split_and!; [done | | done]. intros m Hm Hr. apply elem_of_filterb in Hr as [_ Hr]. by breflect.
      - intros m [Hm|Hm]%elem_of_app; [by apply Hsub | by apply elem_of_filterb in Hm as [? _]]. }
    rewrite length_fmap in Hlen. lia.
  - assert (length rest <= length [keep])%nat as Hlen; [|cbn in Hlen; lia]. apply submseteq_length, NoDup_submseteq; [done|].
    intros m Hm. apply elem_of_filterb in Hm as [Hm Hb]. breflect. destruct (H4 m) as [->|]; [by apply elem_of_reverse | set_solver | done].
Qed.

(** *** Tombstones *)
Definition tombstone (u : Z) (sid : string) t v : Prop :=
  t <= u -> exists o d, vk_view v t (revokedKey sid) = Some (o, Some d) /\ u < d.

Lemma tombstone_ages u sid : ages (tombstone u sid).
Proof.
  intros t t' v Ht Hp Hu. destruct (Hp ltac:(lia)) as (o & d & Hv & Hd). exists o, d. split; [|done].
  rewrite (law_expire v t t' _ Ht), Hv. cbn. by rewrite (proj2 (Z.ltb_lt t' d)) by lia.
Qed.

Lemma tombstone_frame u sid t v v' : vk_view v' t (revokedKey sid) = vk_view v t (revokedKey sid) -> tombstone u sid t v -> tombstone u sid t v'.
Proof. intros Hv Hp Hu. rewrite Hv. by apply Hp. Qed.

Lemma srem_frame t v uk ms k : well t v -> k <> userSessKey uk -> vk_view (vk_srem t (userSessKey uk) ms v) t k = vk_view v t k.
Proof. intros Hw Hne. destruct (view_srem t v uk ms Hw) as (x & _ & Hv). by rewrite Hv, on_key_ne. Qed.

Lemma well_touch t v i idle : well t v -> well t (Redis.touch_tx i idle t v).
Proof.
  intros Hw. destruct (view_touch t v i idle Hw) as (x & Hx & Hv). split.
  - intros sid. unfold doc_at. rewrite Hv. unfold touched_view. rewrite on_key_ne by apply keys_apart. unfold on_key.
    destruct (decide (sessKey sid = sessKey (ID i))) as [->%sessKey_inj|Hne]; [done | apply Hw].
  - intros uk. unfold index. rewrite Hv. unfold touched_view, on_key. case_decide; [by eexists|].
    rewrite decide_False by apply not_eq_sym, keys_apart. apply Hw.
Qed.

Lemma keeps_well free : keeps free well.
Proof. split; [apply well_ages | done | intros; by apply well_srem | intros; by apply well_srem, well_del]. Qed.

Lemma keeps_tomb u sid : keeps (fun _ => True) (fun t v => well t v /\ tombstone u sid t v).
Proof.
  split.
  - intros t t' v Ht [Hw Hp]. split; [by eapply well_ages | by eapply tombstone_ages].
  - by intros t v [? _].
  - intros t uk ms v _ [Hw Hp]. split; [by apply well_srem|]. eapply tombstone_frame; [|done]. apply srem_frame; [done|]. apply not_eq_sym, keys_apart.
  - intros t uk m v _ [Hw Hp]. split; [by apply well_srem, well_del|]. eapply tombstone_frame; [|done].
    rewrite srem_frame; [|by apply well_del | apply not_eq_sym, keys_apart]. rewrite law_del. apply on_key_ne, not_eq_sym, keys_apart.
Qed.

Lemma keeps_weaken (f g : string -> Prop) P : (forall m, g m -> f m) -> keeps f P -> keeps g P.
Proof. intros Hfg [H1 H2 H3 H4]. split; auto. Qed.

Lemma touch_tomb u sid t v i idle : well t v /\ tombstone u sid t v -> well t (Redis.touch_tx i idle t v) /\ tombstone u sid t (Redis.touch_tx i idle t v).
Proof.
  intros [Hw Hp]. split; [by apply well_touch|]. eapply tombstone_frame; [|done]. destruct (view_touch t v i idle Hw) as (x & _ & Hv).
  rewrite Hv. unfold touched_view. rewrite !on_key_ne; [done | apply not_eq_sym, keys_apart..].
Qed.

(** The transaction of a revocation. *)
Definition revoke_tx (uk sid : string) (ttl t : Z) v : V :=
  vk_set t (revokedKey sid) (Text "1") (set_ms ttl) (vk_srem t (userSessKey uk) [sid] (vk_del t (sessKey sid) v)).

Lemma well_revoke uk sid ttl t v : well t v -> well t (revoke_tx uk sid ttl t v).
Proof. intros Hw. eapply well_revoked; [intros k; by apply law_set | by apply well_srem, well_del]. Qed.

Lemma revoke_tx_tomb uk sid ttl u t v : u < t + ttl / Millisecond -> tombstone u sid t (revoke_tx uk sid ttl t v).
Proof.
  intros Hu _. eexists _, _. unfold revoke_tx. rewrite law_set, on_key_eq by done. split; [done|]. unfold set_ms. lia.
Qed.

Lemma revoke_tx_keeps uk sid' ttl u sid t v : u < t + ttl / Millisecond -> well t v -> tombstone u sid t v -> tombstone u sid t (revoke_tx uk sid' ttl t v).
Proof.
  intros Hu Hw Hp. destruct (decide (sid = sid')) as [->|Hne]; [by apply revoke_tx_tomb|]. eapply tombstone_frame; [|done].
  unfold revoke_tx. rewrite law_set by done. rewrite on_key_ne by (intros ?%revokedKey_inj; done).
  rewrite srem_frame; [|by apply well_del | apply not_eq_sym, keys_apart]. rewrite law_del. apply on_key_ne, not_eq_sym, keys_apart.
Qed.

Lemma Revoke_run E uk sid ttl v r v' : Redis.Revoke E uk sid ttl v = (r, v') ->
  (r <> Ok tt /\ v' = v) \/ v' = revoke_tx uk sid ttl (E 1%nat).2 v.
Proof.
  unfold Redis.Revoke. pose proof (command_read E 0 (fun t v => vk_sismember t v (userSessKey uk) sid) v) as Hr.
  destruct (Redis.command E 0 _ v) as [[[]|] v0] eqn:Ec; cbn in Hr; subst v0; [|intros [= <- <-]; by left..].
  unfold Redis.command, remote. destruct (E 1%nat).1; cbn; intros [= <- <-]; auto.
Qed.

(** *** The caller's own session *)
Definition present (uk sid : string) (d : Z) t v : Prop := t < d ->
  (exists x e, vk_view v t (userSessKey uk) = Some (OSet x, Some e) /\ sid ∈ x /\ d <= e) /\
  (exists o e, vk_view v t (sessKey sid) = Some (o, Some e) /\ d <= e).

Lemma keeps_present uk sid d : keeps (fun m => m <> sid) (fun t v => well t v /\ present uk sid d t v).
Proof.
  split; [|by intros t v [? _]|..].
  - intros t t' v Ht [Hw Hp]. split; [by eapply well_ages|]. intros Hd. destruct (Hp ltac:(lia)) as [(x & e & H1 & H2 & H3) (o & e' & H4 & H5)].
    split; [exists x, e | exists o, e']; rewrite (law_expire v t t' _ Ht), ?H1, ?H4; cbn; rewrite (proj2 (Z.ltb_lt _ _)) by lia; done.
  - intros t uk' ms v Hms [Hw Hp]. split; [by apply well_srem|]. intros Hd. destruct (Hp Hd) as [(x & e & H1 & H2 & H3) (o & e' & H4 & H5)].
    split; [|exists o, e'; rewrite srem_frame; [done | done | apply keys_apart]].
    destruct (view_srem t v uk' ms Hw) as (y & Hy & Hv). rewrite Hv. unfold on_key.
    destruct (decide (userSessKey uk = userSessKey uk')) as [<-%userSessKey_inj|Hne]; [|by exists x, e].
    unfold index in Hy. rewrite H1 in *. cbn in Hy. simplify_eq. assert (sid ∉ ms) as Hn by (intros Hin; specialize (Hms _ Hin); congruence).
    exists (y ∖ list_to_set ms), e. cbn. unfold sentry. rewrite decide_False by set_solver. split_and!; [done | set_solver | done].
  - intros t uk' m v Hm [Hw Hp]. split; [by apply well_srem, well_del|]. intros Hd. destruct (Hp Hd) as [(x & e & H1 & H2 & H3) (o & e' & H4 & H5)].
    destruct (evict_views t v uk' m Hw) as (y & Hy & Hv). rewrite !Hv. split.
    + unfold on_key at 1. destruct (decide (userSessKey uk = userSessKey uk')) as [<-%userSessKey_inj|Hne].
      * unfold index in Hy. rewrite H1 in *. cbn in Hy. simplify_eq. exists (y ∖ {[m]}), e. cbn. unfold sentry.
        rewrite decide_False by set_solver. split_and!; [done | set_solver | done].
      * rewrite on_key_ne by apply not_eq_sym, keys_apart. by exists x, e.
    + rewrite on_key_ne by apply keys_apart. rewrite on_key_ne by (intros ?%sessKey_inj; done). by exists o, e'.
Qed.

Lemma touch_present t v i idle c : well t v -> c <= t -> present (UserKey i) (ID i) (c + idle / Millisecond - 1000) t (Redis.touch_tx i idle t v).
Proof.
  intros Hw Hc _. destruct (view_touch t v i idle Hw) as (x & _ & Hv). rewrite !Hv. unfold touched_view. rewrite on_key_eq. split.
  - eexists _, _. split_and!; [done | set_solver |]. unfold expire_ms, Second. instants.
  - rewrite on_key_ne by apply keys_apart. rewrite on_key_eq. eexists _, _. split; [done|]. unfold set_ms. lia.
Qed.

Context (cfg : SessionConfig).
Abbreviation L := (Redis.ledger newest).
Definition redis_during (c c' : Z) (E : cmds) (_ : Z) : Prop := span c c' E.
Definition redis_tomb (c u : Z) (sid : string) v : Prop := well c v /\ tombstone u sid c v.

Lemma perform_keeps P a c c' E now v : keeps (fun _ => True) P -> P c v -> span c c' E ->
  (forall t v i, c <= t -> P t v -> P t (Redis.touch_tx i (IdleTimeout cfg) t v)) ->
  (forall t v uk sid, c <= t -> P t v -> P t (revoke_tx uk sid (RevokeTTL cfg) t v)) ->
  P c' (perform L cfg E now a v).
Proof using Hnewest VL VSL.
  intros Hk Hp Hs Ht Hr. assert (P c' v) as Hv by (eapply (k_ages _ _ Hk); [|done]; destruct Hs as [Hb _]; specialize (Hb O); lia).
  destruct a as [i|uk|uk sid|sid]; cbn.
  - apply (Touch_keeps P c); [by eapply keeps_weaken; [|exact Hk] | done | done |]. intros. by apply Ht.
  - unfold Redis.List_. destruct (Redis.listLive newest E uk v) as [[r v'] n] eqn:El.
    destruct (listLive_spec _ _ _ _ _ _ _ _ _ _ Hk Hp Hs El) as [Hp1 _]. eapply (k_ages _ _ Hk); [apply (proj1 Hs n) | done].
  - destruct (Redis.Revoke E uk sid _ v) as [r v'] eqn:Er. apply Revoke_run in Er as [[_ ->]| ->]; [done|]. cbn.
    eapply (k_ages _ _ Hk); [apply (proj1 Hs 1%nat)|]. apply Hr; [apply (proj1 Hs)|]. eapply (k_ages _ _ Hk); [apply (proj1 Hs) | done].
  - unfold Redis.IsRevoked. pose proof (command_read E 0 (fun t v => vk_exists t v (revokedKey sid)) v) as Hc.
    destruct (Redis.command E 0 _ v). cbn in *. by subst.
Qed.

Lemma redis_sound_perform a c c' E now v : valid_call a -> well c v -> redis_during c c' E now -> well c' (perform L cfg E now a v).
Proof using Hnewest VL VSL.
  intros _ Hw Hs. apply (perform_keeps well a c); [apply keeps_well | done | done | intros; by apply well_touch | intros; by apply well_revoke].
Qed.

Lemma redis_tomb_perform a u sid c c' E now v : well c v -> redis_during c c' E now -> u < c + RevokeTTL cfg / Millisecond ->
  redis_tomb c u sid v -> redis_tomb c' u sid (perform L cfg E now a v).
Proof using Hnewest VL VSL.
  intros _ Hs Hu Ht. apply (perform_keeps (fun t v => well t v /\ tombstone u sid t v) a c); [apply keeps_tomb | done | done | |].
  - intros. by apply touch_tomb.
  - intros t w uk sid' Hc [Hw Hp]. split; [by apply well_revoke | apply revoke_tx_keeps; [lia | done | done]].
Qed.

Lemma redis_tomb_revoke u uk sid c c' E now v v' : well c v -> redis_during c c' E now -> u < c + RevokeTTL cfg / Millisecond ->
  Revoke L E uk sid (RevokeTTL cfg) now v = (Ok tt, v') -> redis_tomb c' u sid v'.
Proof.
  intros Hw Hs Hu Hr. pose proof (keeps_tomb u sid) as Hk. apply Revoke_run in Hr as [[? _]| ->]; [done|].
  apply (k_ages _ _ Hk (E 1%nat).2); [apply (proj1 Hs)|]. pose proof (proj1 Hs 1%nat). split; [apply well_revoke | apply revoke_tx_tomb; lia].
  eapply well_ages; [|done]. lia.
Qed.

Lemma redis_tomb_refuses u sid c c' E now v : redis_tomb c u sid v -> redis_during c c' E now -> c' <= u -> (E O).1 = Delivered ->
  (IsRevoked L E sid now v).1 = Ok true.
Proof.
  intros [Hw Ht] Hs Hu Hd. cbn. unfold Redis.IsRevoked, Redis.command, remote. rewrite Hd. cbn. f_equal. apply law_exists.
  pose proof (proj1 Hs O). destruct (tombstone_ages u sid c (E O).2 v ltac:(lia) Ht ltac:(lia)) as (o & d & -> & _). eauto.
Qed.

Lemma redis_touch_caps i ev l c c' c'' E E' now now' v v' v'' : ID i <> ""%string -> 0 < MaxConcurrent cfg -> well c v ->
  redis_during c c' E now -> Touch L E i (IdleTimeout cfg) (MaxConcurrent cfg) now v = (Ok ev, v') ->
  redis_during c' c'' E' now' -> ListSessions L E' (UserKey i) (IdleTimeout cfg) now' v' = (Ok l, v'') ->
  Z.of_nat (length l) <= MaxConcurrent cfg /\ (ID i ∉ ev) /\ (c'' + 1000 < c + IdleTimeout cfg / Millisecond -> ID i ∈ (ID <$> l)).
Proof using Hnewest VL VSL.
  intros _ H0 Hw Hs Ht Hs' Hl. cbn in Ht, Hl. apply Touch_run in Ht as [[[? ?] _]|(i1 & Hi & Hu & Hc)]; [done|].
  destruct Hc as [[[? ?] _]|[[? _]|[_ Hc]]]; [done | lia |]. rewrite <-Hi, <-Hu in *.
  pose proof (keeps_present (UserKey i1) (ID i1) (c + IdleTimeout cfg / Millisecond - 1000)) as Hk. pose proof (proj1 Hs 1%nat) as [H1 _].
  assert (well (E 1%nat).2 v) as Hw1 by (by eapply well_ages).
  pose proof (conj (well_touch _ _ i1 (IdleTimeout cfg) Hw1) (touch_present _ _ i1 (IdleTimeout cfg) c Hw1 H1)) as Hp.
  pose proof (enforceCap_keeps _ _ _ _ _ _ _ _ _ _ Hk Hp (span_next 1 _ _ _ Hs) Hc) as Hp'.
  destruct (enforceCap_caps _ _ _ _ _ _ _ _ _ _ Hk Hp (span_next 1 _ _ _ Hs) H0 Hc) as (Hev & ids & Hids & Hcov).
  unfold Redis.List_ in Hl. destruct (Redis.listLive newest E' (UserKey i1) v') as [[r w] n] eqn:El. cbn in Hl. simplify_eq.
  destruct (listLive_spec _ _ _ _ _ _ _ _ _ _ Hk Hp' Hs' El) as [_ Hll]. destruct (Hll _ eq_refl) as (Hnd & _ & Hsub & Hall).
  pose proof (proj1 Hs' O) as [Hb0 Hb0']. pose proof (proj1 Hs' n) as [Hbn Hbn']. split_and!; [|done|].
  - assert (length (ID <$> l) <= length ids)%nat as Hlen; [|rewrite length_fmap in Hlen; lia].
    apply submseteq_length, NoDup_submseteq; [done|]. intros m Hm. eapply Hsub; [|exact Hm]. eapply covers_ages; [exact (proj1 Hp') | done | done].
  - intros Hlt. pose proof (k_ages _ _ Hk _ _ _ Hb0 Hp') as [_ Hq]. destruct (Hq ltac:(lia)) as [(x & e & Hx & Hin & _) _].
    pose proof (k_ages _ _ Hk _ _ _ Hbn Hp') as [_ Hqn]. destruct (Hqn ltac:(lia)) as [_ (o & e' & Hd & _)].
    eapply (Hall x); [unfold index; by rewrite Hx | done | by rewrite Hd].
Qed.

(** A server that answers every command. *)
Lemma command_delivered {R} E n (f : Z -> V -> R * V) v : (E n).1 = Delivered -> Redis.command E n f v = (Some (f (E n).2 v).1, (f (E n).2 v).2).
Proof. unfold Redis.command, remote. intros ->. by destruct (f (E n).2 v). Qed.

Lemma read_each_answers ids : forall E out stale v, (forall n, (E n).1 = Delivered) -> exists r, (Redis.read_each E ids out stale v).1 = Some r.
Proof.
  induction ids as [|id ids IH]; intros E out stale v Hd; cbn [Redis.read_each]; [eauto|]. rewrite command_delivered by done. cbn.
  destruct (vk_get (E O).2 v (sessKey id)) as [[i|]|]; apply IH; intros n; apply Hd.
Qed.

Lemma listLive_answers E uk v : (forall n, (E n).1 = Delivered) -> exists l v' n, Redis.listLive newest E uk v = (Ok l, v', n).
Proof.
  intros Hd. unfold Redis.listLive. rewrite command_delivered by done. cbn [fst snd].
  destruct (read_each_answers (vk_smembers (E O).2 v (userSessKey uk)) (later 1 E) [] [] v) as [[out stale] Hr]; [intros n; apply Hd|].
  destruct (Redis.read_each _ _ _ _ v) as [r v']. cbn in Hr. subst r. eauto.
Qed.

Lemma evict_each_answers uk keep victims : forall n E ev v, (forall n, (E n).1 = Delivered) ->
  exists l v', Redis.evict_each E uk keep n victims ev v = (Ok l, v').
Proof.
  induction victims as [|x victims IH]; intros [|n] E ev v Hd; cbn [Redis.evict_each]; eauto. case_match; [by apply IH|].
  rewrite command_delivered by done. apply IH. intros m. apply Hd.
Qed.

Lemma redis_touch_answers i c c' E now v : well c v -> redis_during c c' E now -> (forall n, (E n).1 = Delivered) ->
  exists ev v', Touch L E i (IdleTimeout cfg) (MaxConcurrent cfg) now v = (Ok ev, v').
Proof.
  intros _ _ Hd. cbn. unfold Redis.Touch. rewrite !command_delivered by done. cbn [fst snd].
  case_match; [eauto|]. unfold Redis.enforceCap.
  set (v1 := Redis.touch_tx _ _ _ _). destruct (listLive_answers (later 2 E) (UserKey i) v1) as (l & v2 & n & Hl); [intros n; apply Hd|].
  cbn. rewrite Hl. apply evict_each_answers. intros m. apply Hd.
Qed.

Lemma redis_list_answers uk c c' E now v : well c v -> redis_during c c' E now -> (forall n, (E n).1 = Delivered) ->
  exists l v', ListSessions L E uk (IdleTimeout cfg) now v = (Ok l, v').
Proof. intros _ _ Hd. cbn. unfold Redis.List_. destruct (listLive_answers E uk v Hd) as (l & v' & n & ->). cbn. eauto. Qed.

Lemma redis_during_le c c' E now : redis_during c c' E now -> c <= c'.
Proof. intros [Hb _]. specialize (Hb O). lia. Qed.

Lemma redis_tomb_ages c c' u sid v : c <= c' -> redis_tomb c u sid v -> redis_tomb c' u sid v.
Proof. intros Hle. by apply (k_ages _ _ (keeps_tomb u sid)). Qed.

#[export] Instance redis_ledger : Ledger L cfg := {|
  during := redis_during; sound := well; tomb := redis_tomb; during_le := redis_during_le; tomb_ages := redis_tomb_ages;
  sound_ages := well_ages; touch_answers := redis_touch_answers; list_answers := redis_list_answers;
  sound_perform := redis_sound_perform; tomb_perform := redis_tomb_perform; tomb_revoke := redis_tomb_revoke;
  tomb_refuses := redis_tomb_refuses; touch_caps := redis_touch_caps;
|}.
End redis_ledger.

(** ** The middleware over any ledger *)
Section clients.
Context (sha256 : string -> list Z) {St : Type} (L : SessionStore St) (cfg : SessionConfig) `{LL : !Ledger L cfg}.
Implicit Types (s : St).

(** Calls by anyone, from [c] to [c']. *)
Inductive calls : Z -> St -> Z -> St -> Prop :=
| calls_nil c s : calls c s c s
| calls_cons c c1 c2 E now a s s' :
    valid_call a -> during c c1 E now -> calls c1 (perform L cfg E now a s) c2 s' -> calls c s c2 s'.

Lemma calls_tomb u sid c c' s s' : calls c s c' s' -> sound c s -> u < c + RevokeTTL cfg / Millisecond -> tomb c u sid s ->
  c <= c' /\ tomb c' u sid s'.
Proof.
  induction 1 as [c s|c c1 c2 E now a s s' Hv Hd _ IH]; [done|]. intros Hs Hu Ht.
  pose proof (during_le _ _ _ _ Hd). destruct IH as [IH1 IH2]; [by eapply sound_perform | lia | by eapply tomb_perform | split; [lia | done]].
Qed.

(** The loop of the handler, its calls one after the other. *)
Lemma revoke_each_tomb u uk now sid : forall ids T Es acc s s' l, sound (T O) s -> u < T O + RevokeTTL cfg / Millisecond ->
  (forall n, during (T n) (T (S n)) (Es n) now) -> (sid ∈ acc -> tomb (T O) u sid s) ->
  revoke_each L cfg Es uk now ids acc s = (Ok l, s') -> sid ∈ l -> exists n, tomb (T n) u sid s'.
Proof.
  induction ids as [|x ids IH]; intros T Es acc s s' l Hs Hu Hd Ha; cbn; [intros [= <- <-] Hl; exists O; auto|].
  destruct (Revoke L (Es O) uk x (RevokeTTL cfg) now s) as [r s1] eqn:Er.
  pose proof (Hd O) as Hd0. pose proof (during_le _ _ _ _ Hd0) as Hle.
  assert (sound (T 1%nat) s1) as Hs1 by (pose proof (sound_perform (CRevoke uk x) _ _ _ _ s I Hs Hd0) as Hp; cbn in Hp; by rewrite Er in Hp).
  assert (sid ∈ acc -> tomb (T 1%nat) u sid s1) as Ha1
    by (intros Hin; pose proof (tomb_perform (CRevoke uk x) u sid _ _ _ _ s Hs Hd0 Hu (Ha Hin)) as Hp; cbn in Hp; by rewrite Er in Hp).
  destruct r as [[]|[]]; [| |done].
  - intros Hrun Hl. destruct (IH (fun n => T (S n)) (fun n => Es (S n)) (acc ++ [x]) s1 s' l) as [n Hn]; [done | lia | intros n; apply Hd | | done | done | by exists (S n)].
    intros [Hin|Hin%list_elem_of_singleton]%elem_of_app; [by apply Ha1|]. subst x. exact (tomb_revoke u uk sid _ _ _ _ _ _ Hs Hd0 Hu Er).
  - intros Hrun Hl. destruct (IH (fun n => T (S n)) (fun n => Es (S n)) acc s1 s' l) as [n Hn]; [done | lia | intros n; apply Hd | done | done | done | by exists (S n)].
Qed.

Lemma revoke_each_sound uk now : forall ids T Es acc s r s', sound (T O) s -> (forall n, during (T n) (T (S n)) (Es n) now) ->
  revoke_each L cfg Es uk now ids acc s = (r, s') -> exists n, sound (T n) s'.
Proof.
  induction ids as [|x ids IH]; intros T Es acc s r s' Hs Hd; cbn; [intros [= _ <-]; by exists O|].
  destruct (Revoke L (Es O) uk x (RevokeTTL cfg) now s) as [o s1] eqn:Er.
  assert (sound (T 1%nat) s1) as Hs1 by (pose proof (sound_perform (CRevoke uk x) _ _ _ _ s I Hs (Hd O)) as Hp; cbn in Hp; by rewrite Er in Hp).
  destruct o as [[]|[]]; intros Hrun; [..|simplify_eq; by exists 1%nat];
    destruct (IH (fun n => T (S n)) _ _ _ _ _ Hs1 (fun n => Hd (S n)) Hrun) as [n Hn]; by exists (S n).
Qed.

(** [r] carries session [sid] of an authenticated user. *)
Definition carries (r : request) (sid : string) : Prop :=
  SessionIDFromRequest sha256 r = sid /\ sid <> ""%string /\ ctxTenant r <> ""%string /\ ctxUser r <> ""%string.

Lemma Wrap_enforced E E' now r sid s : Enabled cfg = true -> Store cfg = true -> carries r sid ->
  Wrap sha256 L cfg E E' now r s =
    let '(revoked, s) := IsRevoked L E sid now s in
    match revoked with
    | Err _ => (Next, s)
    | Ok true => (Unauthorized "session revoked", s)
    | Ok false =>
        let info := mkSession sid (userKey (ctxTenant r) (ctxUser r)) (ctxTenant r) (ctxUser r) (agent r) (clientIP r) now now in
        let '(evicted, s) := Touch L E' info (IdleTimeout cfg) (MaxConcurrent cfg) now s in
        match evicted with
        | Err _ => (Next, s)
        | Ok ids => (if existsb (String.eqb sid) ids then Unauthorized "concurrent session limit" else Next, s)
        end
    end.
Proof.
  intros He Hst (Hid & H1 & H2 & H3). unfold Wrap. rewrite He, Hst, Hid. cbn [negb orb].
  by rewrite !(proj2 (String.eqb_neq _ _)) by done.
Qed.

(** What the answer of the handler promises. *)
Lemma revoke_handler_tomb u E Es T now r sessionID allOthers s s1 ids sid c0 : Store cfg = true ->
  sound c0 s -> during c0 (T O) E now -> (forall n, during (T n) (T (S n)) (Es n) now) -> u < c0 + RevokeTTL cfg / Millisecond ->
  revoke_handler sha256 L cfg E Es now r sessionID allOthers s = (Revoked ids, s1) -> sid ∈ ids ->
  exists n, sound (T n) s1 /\ tomb (T n) u sid s1.
Proof using LL.
  intros Hst Hs Hd HT Hu Hr Hin. pose proof (during_le _ _ _ _ Hd) as Hle. set (uk := userKey (ctxTenant r) (ctxUser r)).
  assert (forall l s0 x, sound (T O) s0 -> revoke_each L cfg Es uk now l [] s0 = (Ok x, s1) -> sid ∈ x ->
    exists n, sound (T n) s1 /\ tomb (T n) u sid s1) as Hloop.
  { intros l s0 x Hs0 Hrun Hx. destruct (revoke_each_sound _ _ _ _ _ _ _ _ _ Hs0 HT Hrun) as [n Hn].
    destruct (revoke_each_tomb u uk now sid l T Es [] s0 s1 x) as [m Hm]; [done | lia | done | set_solver | done | done |].
    destruct (Z.le_ge_cases (T n) (T m)); [exists m | exists n]; split; eauto using sound_ages, tomb_ages. }
  unfold revoke_handler, ready in Hr. rewrite Hst in Hr. cbn [negb] in Hr. fold uk in Hr. case_match; [done|]. case_match; [done|].
  destruct allOthers.
  - destruct (ListSessions L E uk _ now s) as [[l|e] s0] eqn:El; [|done].
    pose proof (sound_perform (CList uk) _ _ _ _ s I Hs Hd) as Hp. cbn in Hp. rewrite El in Hp.
    destruct (revoke_each L cfg Es uk now _ [] s0) as [[x|e] s'] eqn:Ex; [|done]. cbn in Hr. simplify_eq. by eapply Hloop.
  - destruct (revoke_each L cfg Es uk now [sessionID] [] s) as [[x|e] s'] eqn:Ex; [|done]. cbn [negb andb] in Hr. case_match; [done|]. simplify_eq.
    eapply Hloop; [by eapply sound_ages | done | done].
Qed.

(** C14: A revoked session stays out: once the revoke handler has answered
    that it revoked [sid], and whatever calls anyone makes to the ledger after
    that, in any order and with any losses, every request that carries [sid]
    is refused as revoked for as long as the tombstone lasts ([RevokeTTL] from
    the start of the revocation), whenever the ledger answers the revocation
    check. *)
Theorem revoked_stays_refused E Es T now r sessionID allOthers s s1 ids sid c0 c1 c2 c3 s2 E' E'' now' r' :
  sound c0 s -> during c0 (T O) E now -> (forall n, during (T n) (T (S n)) (Es n) now) -> (forall n, T n <= c1) ->
  revoke_handler sha256 L cfg E Es now r sessionID allOthers s = (Revoked ids, s1) -> sid ∈ ids ->
  calls c1 s1 c2 s2 -> during c2 c3 E' now' -> c3 < c0 + RevokeTTL cfg / Millisecond ->
  Enabled cfg = true -> Store cfg = true -> carries r' sid -> (E' O).1 = Delivered ->
  (Wrap sha256 L cfg E' E'' now' r' s2).1 = Unauthorized "session revoked".
Proof using LL.
  intros Hs Hd HT Hc1 Hr Hin Hcalls Hd' Hu He Hst Hc Hdel. pose proof (during_le _ _ _ _ Hd) as Hle.
  destruct (revoke_handler_tomb c3 _ _ _ _ _ _ _ _ _ _ sid _ Hst Hs Hd HT Hu Hr Hin) as (n & Hs1 & Ht1).
  pose proof (Hc1 n). assert (c1 + 0 >= c0) by (pose proof (Hc1 O); lia).
  destruct (calls_tomb c3 sid _ _ _ _ Hcalls) as [_ Ht2]; [by eapply sound_ages | lia | by eapply tomb_ages |].
  rewrite (Wrap_enforced _ _ _ _ sid) by done. pose proof (tomb_refuses _ _ _ _ _ _ _ Ht2 Hd' ltac:(lia) Hdel) as Hrv.
  destruct (IsRevoked L E' sid now' s2) as [rv s3]. cbn in Hrv. by subst rv.
Qed.

(** The cap: with a ledger that answers, a request whose session is not
    revoked is admitted (its own session is never the one evicted), and the
    listing that follows shows at most [MaxConcurrent] sessions of the user,
    the request's own among them and marked as current until the idle window
    (less a second) has passed. *)
Theorem session_cap E E' E2 now now2 r r2 sid s c c1 c2 c3 : sound c s -> 0 < MaxConcurrent cfg -> Enabled cfg = true -> Store cfg = true ->
  carries r sid -> carries r2 sid -> ctxTenant r2 = ctxTenant r -> ctxUser r2 = ctxUser r ->
  during c c1 E now -> during c1 c2 E' now -> during c2 c3 E2 now2 ->
  (forall n, (E' n).1 = Delivered) -> (forall n, (E2 n).1 = Delivered) -> (IsRevoked L E sid now s).1 = Ok false ->
  exists s' items, Wrap sha256 L cfg E E' now r s = (Next, s') /\
    (list_handler sha256 L cfg E2 now2 r2 s').1 = SessionList items (MaxConcurrent cfg) (Z.quot (IdleTimeout cfg) Second) /\
    Z.of_nat (length items) <= MaxConcurrent cfg /\
    (c3 + 1000 < c1 + IdleTimeout cfg / Millisecond -> exists i, ID i = sid /\ (i, true) ∈ items).
Proof using LL.
  intros Hs H0 He Hst Hc Hc2 Ht Hu Hd Hd1 Hd2 Ha Ha2 Hrv. rewrite (Wrap_enforced _ _ _ _ sid) by done.
  pose proof (sound_perform (CCheck sid) _ _ _ _ s I Hs Hd) as Hs1. cbn in Hs1.
  destruct (IsRevoked L E sid now s) as [rv s1]. cbn in Hrv, Hs1. subst rv. cbn zeta.
  set (i := mkSession sid _ _ _ _ _ _ _). destruct (touch_answers i _ _ _ _ _ Hs1 Hd1 Ha) as (ev & s2 & Et). rewrite Et.
  assert (ID i <> ""%string) as Hi by apply Hc.
  pose proof (sound_perform (CTouch i) _ _ _ _ s1 Hi Hs1 Hd1) as Hs2. cbn [perform] in Hs2. rewrite Et in Hs2. cbn [snd] in Hs2.
  destruct (list_answers (UserKey i) _ _ _ _ _ Hs2 Hd2 Ha2) as (l & s3 & El).
  destruct (touch_caps _ _ _ _ _ _ _ _ _ _ _ _ _ Hi H0 Hs1 Hd1 Et Hd2 El) as (Hlen & Hev & Hown).
  exists s2, ((fun x => (x, String.eqb (ID x) sid)) <$> l). split_and!.
  - destruct (existsb (String.eqb sid) ev) eqn:Ex; [|done]. apply existsb_exists in Ex as (x & Hx & Hxs). apply String.eqb_eq in Hxs. subst x.
    by apply list_elem_of_In in Hx.
  - unfold list_handler, ready. destruct Hc2 as (Hid & H1 & H2 & H3). rewrite Hst, Hid, !(proj2 (String.eqb_neq _ _)) by done. cbn [negb orb].
    rewrite Ht, Hu. change (userKey (ctxTenant r) (ctxUser r)) with (UserKey i). by rewrite El.
  - by rewrite length_fmap.
  - intros Hlt. specialize (Hown Hlt). apply list_elem_of_fmap in Hown as (x & Hx & Hin). exists x. split; [done|].
    apply list_elem_of_fmap. exists x. split; [|done]. by rewrite <-Hx, String.eqb_refl.
Qed.
End clients.

(** ** Runs *)
Section runs.
Definition bytes_of (s : string) : list Z := map (fun c => Z.of_nat (Ascii.nat_of_ascii c)) (String.list_ascii_of_string s).
Definition quick (t : Z) : cmds := fun _ => (Delivered, t).
Definition bearer (tok : string) : request := mkRequest ("Bearer " +:+ tok) "t" "u" "ua" "" "10.0.0.1:5000".
Definition defaults : SessionConfig := NewSessionManager (mkSessionConfig true 0 0 true 0).
Definition session_of (tok : string) (now : Z) : SessionInfo :=
  mkSession (SessionIDFromRequest bytes_of (bearer tok)) "t:u" "t" "u" "ua" "10.0.0.1" now now.
Abbreviation same := (fun l : list SessionInfo => l).
Abbreviation server := (gmap string (ventry payload)).
Abbreviation shared := (@Redis.ledger server _ _ same).

Lemma same_perm (l : list SessionInfo) : same l ≡ₚ l.
Proof. done. Qed.

Lemma quick_span t t' t'' : t <= t' <= t'' -> span t t'' (quick t').
Proof. intros Ht. by split. Qed.

Lemma well_empty t : well (V := server) t ∅.
Proof. split; [done|]. intros uk. by eexists. Qed.

(** One session, then a revocation of it by its own holder, while a request
    of the same session is in flight. *)
Definition one_session : server := perform shared defaults (quick 0) 0 (CTouch (session_of "k" 0)) ∅.
Definition revoked_one : server := (revoke_handler bytes_of shared defaults (quick 1) (fun _ => quick 1) Millisecond (bearer "k") "6b" false one_session).2.
Definition touched_again : server := perform shared defaults (quick 2) (2 * Millisecond) (CTouch (session_of "k" (2 * Millisecond))) revoked_one.

Lemma revoked_stays_refused_witness :
  (revoke_handler bytes_of shared defaults (quick 1) (fun _ => quick 1) Millisecond (bearer "k") "6b" false one_session).1 = Revoked ["6b"%string] /\
  (Wrap bytes_of shared defaults (quick 3) (quick 3) (3 * Millisecond) (bearer "k") touched_again).1 = Unauthorized "session revoked".
Proof.
  assert (revoke_handler bytes_of shared defaults (quick 1) (fun _ => quick 1) Millisecond (bearer "k") "6b" false one_session
    = (Revoked ["6b"%string], revoked_one)) as Hr by (apply injective_projections; [vm_compute; reflexivity | reflexivity]).
  split; [by rewrite Hr|]. pose (LL := redis_ledger same same_perm defaults).
  apply (revoked_stays_refused bytes_of shared defaults (quick 1) (fun _ => quick 1) (fun _ => 1) Millisecond (bearer "k") "6b" false one_session revoked_one
    ["6b"%string] "6b" 0 1 2 3 touched_again).
  5: exact Hr.
  all: clear Hr.
  - apply (sound_perform (CTouch (session_of "k" 0)) 0 0 (quick 0) 0 (∅ : server)); [done | apply (well_empty 0) | by apply quick_span].
  - by apply quick_span.
  - intros n. by apply quick_span.
  - done.
  - by left.
  - eapply (calls_cons _ _ 1 2 2 (quick 2) (2 * Millisecond) (CTouch (session_of "k" (2 * Millisecond)))); [done | by apply quick_span | apply calls_nil].
  - by apply quick_span.
  - done.
  - done.
  - done.
  - by vm_compute.
  - done.
Defined.

(** A cap of one, and a second device. *)
Definition capped : SessionConfig := mkSessionConfig true (8 * Hour) 1 true (24 * Hour).
Definition first_device : server := perform shared capped (quick 0) 0 (CTouch (session_of "a" 0)) ∅.

Lemma session_cap_witness : exists s' items,
  Wrap bytes_of shared capped (quick 1) (quick 1) Millisecond (bearer "b") first_device = (Next, s') /\
  (list_handler bytes_of shared capped (quick 2) (2 * Millisecond) (bearer "b") s').1 = SessionList items 1 28800 /\
  Z.of_nat (length items) <= 1 /\ (2 + 1000 < 1 + 28800000 -> exists i, ID i = "62"%string /\ (i, true) ∈ items).
Proof.
  pose (LL := redis_ledger same same_perm capped).
  apply (session_cap bytes_of shared capped (quick 1) (quick 1) (quick 2) Millisecond (2 * Millisecond) (bearer "b") (bearer "b") "62" first_device 0 1 1 2).
  1: apply (sound_perform (CTouch (session_of "a" 0)) 0 0 (quick 0) 0 (∅ : server)); [done | apply (well_empty 0) | by apply quick_span].
  all: try (by apply quick_span); try done; by vm_compute.
Defined.

(** With enforcement off nothing is recorded: every listing is empty and every
    revocation of a session is answered with 404. *)
Theorem disabled_ledger_is_empty reqs E Es now r sid : sid <> ""%string -> ctxTenant r <> ""%string -> ctxUser r <> ""%string ->
  let cfg := mkSessionConfig true (8 * Hour) 5 false (24 * Hour) in
  let s := fold_left (fun s x => (Wrap bytes_of (memory same same) cfg E E now x s).2) reqs NewMemorySessionStore in
  (list_handler bytes_of (memory same same) cfg E now r s).1 = SessionList [] 5 28800 /\
  (revoke_handler bytes_of (memory same same) cfg E Es now r sid false s).1 = HTTPError 404 "session not found".
Proof.
  intros H0 H1 H2 cfg s. assert (s = NewMemorySessionStore) as -> by (unfold s; clear; induction reqs; done).
  unfold list_handler, revoke_handler, ready. cbn. by rewrite !(proj2 (String.eqb_neq _ _)) by done.
Qed.

(** A session that was evicted by the cap is admitted again by its next
    request, which evicts the other one: two devices stay signed in under a
    cap of one. *)
Theorem evicted_session_returns :
  let go tok t s := Wrap bytes_of shared capped (quick t) (quick t) (t * Millisecond) (bearer tok) s in
  let s1 := (go "a" 1 ∅) in let s2 := go "b" 2 s1.2 in let s3 := go "a" 3 s2.2 in let s4 := go "b" 4 s3.2 in
  (s1.1, s2.1, s3.1, s4.1) = (Next, Next, Next, Next).
Proof. by vm_compute. Qed.

(** Signing out everywhere else does not reach a token that has been idle for
    longer than the window: it is admitted afterwards. *)
Theorem idle_token_survives_sign_out :
  let go tok t s := Wrap bytes_of shared defaults (quick t) (quick t) (t * Millisecond) (bearer tok) s in
  let day := 9 * 3600 * 1000 in
  let s := (go "b" day (go "a" 0 ∅).2).2 in
  let out := revoke_handler bytes_of shared defaults (quick day) (fun _ => quick day) (day * Millisecond) (bearer "b") "" true s in
  out.1 = Revoked [] /\ (go "a" (day + 1) out.2).1 = Next.
Proof. by vm_compute. Qed.
End runs.
