(* ===== verification/JmapProxy.v ===== *)
(** * The JMAP proxy ([internal/jmap/proxy.go])

    Every mail request of a client goes through [Proxy]: it resolves the
    account of the authenticated user (through an LRU cache), resolves the
    shards of the tenant, shows writes to the malware hook and to the send
    interceptors, replaces the identity headers and forwards the request to
    the first shard that answers, guarded by the circuit breaker.

    URLs are given by what [url.Parse] makes of them ([None]: it fails).
    Stalwart and the network are [exchange]; [sent] keeps the requests that
    went out with their answers, in order. *)

From S2P Require Import Prelude Text Table Breaker.

Local Open Scope Z_scope.
Local Open Scope go_scope.

Record URL := mkURL { Scheme : string; Host : string; Path : string }.

(** A header by its keys in the form [textproto.CanonicalMIMEHeaderKey] gives
    them, each with its value, which is printable ASCII. *)
Abbreviation header := (gmap string string).
Definition hyphen : Ascii.ascii := Ascii.ascii_of_nat 45.
Definition token_char (c : Ascii.ascii) : bool :=
  let n := Ascii.N_of_ascii c in
  ((48 <=? n) && (n <=? 57) || (65 <=? n) && (n <=? 90) || (94 <=? n) && (n <=? 122) || (35 <=? n) && (n <=? 39)
   || existsb (N.eqb n) [33; 42; 43; 45; 46; 124; 126])%N.
Fixpoint canonical_from (first : bool) (l : list Ascii.ascii) : list Ascii.ascii :=
  match l with [] => [] | c :: l => (if first then ascii_upper c else ascii_lower c) :: canonical_from (Ascii.eqb c hyphen) l end.
Definition CanonicalHeaderKey (s : string) : string := on_ascii (fun l => if forallb token_char l then canonical_from true l else l) s.
(** [Header.Get], [Header.Set] and [Header.Del]. *)
Definition get_header (k : string) (h : header) : string := default ""%string (h !! CanonicalHeaderKey k).
Definition set_header (k v : string) (h : header) : header := <[CanonicalHeaderKey k := v]> h.
Definition del_header (k : string) (h : header) : header := delete (CanonicalHeaderKey k) h.
(** Literal keys in canonical form. *)
Ltac canon_keys := unfold set_header, del_header, get_header in *;
  repeat match goal with |- context [CanonicalHeaderKey ?k] => let v := eval vm_compute in (CanonicalHeaderKey k) in change (CanonicalHeaderKey k) with v end.

Lemma lower_token c : token_char (ascii_lower c) = token_char c.
Proof. by destruct c as [[] [] [] [] [] [] [] []]. Qed.
Lemma canonical_lower b l : canonical_from b (ascii_lower <$> l) = canonical_from b l.
Proof.
  revert b. induction l as [|c l IH]; intros b; [done|]. cbn. rewrite IH.
  assert (Ascii.eqb (ascii_lower c) hyphen = Ascii.eqb c hyphen /\ ascii_upper (ascii_lower c) = ascii_upper c /\ ascii_lower (ascii_lower c) = ascii_lower c) as (-> & -> & ->)
    by (by destruct c as [[] [] [] [] [] [] [] []]). done.
Qed.
Definition canonical_keys (h : header) : Prop := forall k, is_Some (h !! k) -> CanonicalHeaderKey k = k.
Lemma CanonicalHeaderKey_idemp k : CanonicalHeaderKey (CanonicalHeaderKey k) = CanonicalHeaderKey k.
Proof.
  assert (forall l b, forallb token_char (canonical_from b l) = forallb token_char l /\ canonical_from b (canonical_from b l) = canonical_from b l) as H.
  { induction l as [|c l IH]; intros b; [done|]. cbn. set (d := if b then ascii_upper c else ascii_lower c).
    assert (token_char d = token_char c /\ Ascii.eqb d hyphen = Ascii.eqb c hyphen /\ (if b then ascii_upper d else ascii_lower d) = d) as (-> & -> & ->)
      by (subst d; by destruct b, c as [[] [] [] [] [] [] [] []]). by destruct (IH (Ascii.eqb c hyphen)) as [-> ->]. }
  unfold CanonicalHeaderKey, on_ascii. rewrite String.list_ascii_of_string_of_list_ascii. f_equal.
  destruct (forallb token_char (String.list_ascii_of_string k)) eqn:E; [|by rewrite E]. by destruct (H (String.list_ascii_of_string k) true) as [-> ->]; rewrite E.
Qed.
Lemma set_canonical k v h : canonical_keys h -> canonical_keys (set_header k v h).
Proof. intros Hh k' Hk. unfold set_header in Hk. destruct (decide (CanonicalHeaderKey k = k')) as [<-|Hn]; [apply CanonicalHeaderKey_idemp|]. rewrite lookup_insert_ne in Hk by done. by apply Hh. Qed.
Lemma del_canonical k h : canonical_keys h -> canonical_keys (del_header k h).
Proof. intros Hh k' [v Hv]. unfold del_header in Hv. apply lookup_delete_Some in Hv as [_ Hv]. apply Hh. by eexists. Qed.
(** Keys that differ in case only are one key. *)
Lemma EqualFold_canonical a b : forallb token_char (String.list_ascii_of_string b) = true -> EqualFold a b = true -> CanonicalHeaderKey a = CanonicalHeaderKey b.
Proof.
  intros Hb E%String.eqb_eq. unfold ToLower, on_ascii in E. apply (f_equal String.list_ascii_of_string) in E. rewrite !String.list_ascii_of_string_of_list_ascii in E.
  assert (forall l, forallb token_char (ascii_lower <$> l) = forallb token_char l) as Ht by (induction l as [|c l IH]; cbn; by rewrite ?lower_token, ?IH).
  unfold CanonicalHeaderKey, on_ascii. rewrite <- (Ht (String.list_ascii_of_string a)), E, Ht, Hb. by rewrite <- canonical_lower, E, canonical_lower.
Qed.

(** A request to a shard. *)
Record upstream (B : Type) := mkUpstream {
  u_method : string; u_scheme : string; u_host : string; u_path : string; u_header : header; u_body : option B;
}.
Arguments mkUpstream {B}. Arguments u_method {B}. Arguments u_scheme {B}. Arguments u_host {B}. Arguments u_path {B}.
Arguments u_header {B}. Arguments u_body {B}.

Inductive answer := Broken (err : string) | Response (code : Z) (body : string).

(** ** Interceptors

    A hook answers whether it served the request, and an error. *)
Definition hook (R S : Type) := R -> S -> (bool * option string) * S.

Fixpoint intercept_each {R S} (hooks : list (hook R S)) (r : R) (s : S) : (bool * option string) * S :=
  match hooks with
  | [] => ((false, None), s)
  | h :: hooks =>
      let '((intercepted, err), s) := h r s in
      match err with
      | Some _ => ((intercepted, err), s)
      | None => if intercepted then ((true, None), s) else intercept_each hooks r s
      end
  end.

Definition ChainSendInterceptors {R S} (hooks : list (option (hook R S))) : option (hook R S) :=
  match omap id hooks with
  | [] => None
  | [h] => Some h
  | filtered => Some (intercept_each filtered)
  end.

(** ** Account cache: an expiring LRU *)
Definition accountCacheDefaultTTL : Z := 5 * Minute.
Definition cacheTTL (ttl : Z) : Z := if ttl <=? 0 then accountCacheDefaultTTL else ttl.

Class LRU (C : Type) := {
  lru_Get : Z -> string -> C -> option string * C;
  lru_Add : Z -> string -> string -> C -> C;
}.

(** What a hit means: the value was added for that key less than [ttl] ago. *)
Class LRULaws (C : Type) (ttl : Z) `{!LRU C} : Prop := {
  lru_get_add t0 k v c t k' x : (lru_Get t k' (lru_Add t0 k v c)).1 = Some x ->
    k' = k /\ x = v /\ t < t0 + ttl \/ k' <> k /\ (lru_Get t k' c).1 = Some x;
  lru_get_get t0 k c t k' x : (lru_Get t k' (lru_Get t0 k c).2).1 = Some x -> (lru_Get t k' c).1 = Some x;
}.

Definition bar : Ascii.ascii := Ascii.ascii_of_nat 124.
Definition cache_key (tenantID kchatUserID : string) : string := tenantID +:+ String.String bar kchatUserID.
Definition cache_get {C} `{LRU C} (now : Z) (t u : string) (c : C) : option string * C := lru_Get now (cache_key t u) c.
Definition cache_set {C} `{LRU C} (now : Z) (t u a : string) (c : C) : C := lru_Add now (cache_key t u) a c.

Inductive perror := ErrNoRows | ErrStore.

(** The users of the database: (tenant, user) to account. *)
Abbreviation users := (gmap (string * string) string).

Section proxy.
Context {C : Type} `{!LRU C}.

Definition PrimeAccountCache (now : Z) (t u a : string) (c : C) : C :=
  if String.eqb t "" || String.eqb u "" || String.eqb a "" then c else cache_set now t u a c.

Definition resolveAccount (d : delivery) (now : Z) (tbl : users) (t u : string) (c : C) : result perror string * C :=
  match cache_get now t u c with
  | (Some a, c) => (Ok a, c)
  | (None, c) =>
      match d with
      | Delivered =>
          match tbl !! (t, u) with
          | Some a => (Ok a, cache_set now t u a c)
          | None => (Err ErrNoRows, c)
          end
      | _ => (Err ErrStore, c)
      end
  end.

(** ** Shards

    What the shard service answers: the primary, the secondaries. *)
Record shards := mkShards { s_primary : option string; s_secondary : option (list string) }.
Context (parse : string -> option URL).

Definition resolveShardURLsUncached (q : shards) : list string :=
  match s_primary q with
  | None => []
  | Some primary =>
      if String.eqb primary "" then []
      else primary :: match s_secondary q with Some l => l | None => [] end
  end.

(** The memo of a request, when one is installed. *)
Record shardResolveMemo := mkMemo { m_tenant : string; m_urls : list string; m_done : bool }.
Definition WithShardResolveMemo : option shardResolveMemo := Some (mkMemo "" [] false).

Definition resolveShardURLs (wired : bool) (q : shards) (tenantID : string) (memo : option shardResolveMemo)
    : list string * option shardResolveMemo :=
  if negb wired || String.eqb tenantID "" then ([], memo)
  else match memo with
  | None => (resolveShardURLsUncached q, None)
  | Some m =>
      if m_done m && String.eqb (m_tenant m) tenantID then (m_urls m, memo)
      else let urls := resolveShardURLsUncached q in (urls, Some (mkMemo tenantID urls true))
  end.

(** ** Forwarding *)
Section transport.
Context {B W K : Type} `{!CircuitBreaker K} (exchange : upstream B -> W -> answer * W).
Context (clk : nat -> Z) (rnd : nat -> option string).

Inductive reply := RResp (code : Z) (body : string) | RErr (err : string).

Record net := mkNet { breaker : K; world : W; sent : list (upstream B * answer) }.
Definition with_breaker (b : K) (n : net) : net := mkNet b (world n) (sent n).
Definition transmit (r : upstream B) (n : net) : answer * net :=
  let '(a, w) := exchange r (world n) in (a, mkNet (breaker n) w (sent n ++ [(r, a)])).

Definition toward (u : URL) (r : upstream B) : upstream B :=
  mkUpstream (u_method r) (Scheme u) (Host u) (u_path r) (u_header r) (u_body r).

Fixpoint failover (i : nat) (urls : list string) (lastErr : string) (r : upstream B) (n : net) : reply * net :=
  match urls with
  | [] => (RErr lastErr, n)
  | candidate :: rest =>
      match parse candidate with
      | None => failover (S i) rest "parse" r n
      | Some u =>
          let '(open, b) := cb_open (clk i) (Host u) (breaker n) in
          let n := with_breaker b n in
          if open && match rest with [] => false | _ => true end then failover (S i) rest lastErr r n
          else
            let '(a, n) := transmit (toward u r) n in
            match a with
            | Broken e => failover (S i) rest e r (with_breaker (cb_failure (clk i) (Host u) (rnd i) (breaker n)) n)
            | Response code body =>
                if 500 <=? code then
                  let n := with_breaker (cb_failure (clk i) (Host u) (rnd i) (breaker n)) n in
                  match rest with
                  | [] => (RResp code body, n)
                  | _ => failover (S i) rest "upstream" r n
                  end
                else (RResp code body, with_breaker (cb_success (clk i) (Host u) (breaker n)) n)
            end
      end
  end.

(** [drains]: the body, where the request has no [GetBody], can be read. *)
Definition RoundTrip (target : URL) (urls : list string) (drains : bool) (r : upstream B) (n : net) : reply * net :=
  match urls with
  | [] =>
      let '(a, n) := transmit r n in
      match a with
      | Broken e => (RErr e, with_breaker (cb_failure (clk O) (Host target) (rnd O) (breaker n)) n)
      | Response code body =>
          (RResp code body,
           with_breaker (if 500 <=? code then cb_failure (clk O) (Host target) (rnd O) (breaker n)
                         else cb_success (clk O) (Host target) (breaker n)) n)
      end
  | _ => if drains then failover O urls "jmap proxy: no candidate shards available" r n else (RErr "jmap proxy: buffer body", n)
  end.

Fixpoint any_closed (i : nat) (urls : list string) (b : K) : bool * K :=
  match urls with
  | [] => (false, b)
  | raw :: rest =>
      match parse raw with
      | None => any_closed (S i) rest b
      | Some u =>
          if String.eqb (Host u) "" then any_closed (S i) rest b
          else let '(open, b) := cb_open (clk i) (Host u) b in
               if open then any_closed (S i) rest b else (true, b)
      end
  end.
Definition ShardsAvailable (target : string) (urls : list string) (b : K) : bool * K :=
  any_closed O (match urls with [] => [target] | _ => urls end) b.
End transport.
End proxy.
Arguments RResp code body : clear implicits. Arguments RErr err : clear implicits.
Arguments mkNet {B W K}. Arguments breaker {B W K}. Arguments world {B W K}. Arguments sent {B W K}.

(** ** Requests of clients *)
Record request := mkRequest {
  method : string; path : string; hdr : header; body : string; readable : bool; ctxTenant : string; ctxUser : string;
}.

(** [httputil.ReverseProxy] drops the headers of the connection and those the
    [Connection] header names, keeps a [Te] of trailers and an upgrade, and
    drops the forwarding headers. *)
Definition hopHeaders : list string :=
  ["Connection"; "Proxy-Connection"; "Keep-Alive"; "Proxy-Authenticate"; "Proxy-Authorization"; "Te"; "Trailer"; "Transfer-Encoding"; "Upgrade"]%string.
Definition forwardHeaders : list string := ["Forwarded"; "X-Forwarded-For"; "X-Forwarded-Host"; "X-Forwarded-Proto"]%string.
Definition comma : Ascii.ascii := Ascii.ascii_of_nat 44.
Definition items (k : string) (h : header) : list string := match h !! k with Some v => TrimSpace <$> Split comma v | None => [] end.
Definition without (ks : list string) (h : header) : header := filter (fun kv => existsb (String.eqb kv.1) ks = false) h.
Definition upgradeType (h : header) : string := if existsb (EqualFold "Upgrade") (items "Connection" h) then get_header "Upgrade" h else "".
Definition outgoing (h : header) : header :=
  let o := without (hopHeaders ++ (CanonicalHeaderKey <$> items "Connection" h)) h in
  let o := if existsb (EqualFold "trailers") (items "Te" h) then set_header "Te" "trailers" o else o in
  let o := if String.eqb (upgradeType h) "" then o else set_header "Upgrade" (upgradeType h) (set_header "Connection" "Upgrade" o) in
  without forwardHeaders o.

Record ProxyConfig := mkProxyConfig {
  Target : URL; PreDeliverHook : option (string -> bool); DevStalwartAuthHeader : string; Minter : option (string -> option string);
  Shards : bool;
}.

Definition NewProxy (stalwartURL : string) (pool : bool) (parsed : option URL) (cfg : ProxyConfig) : option ProxyConfig :=
  if String.eqb stalwartURL "" || negb pool then None
  else match parsed with
  | None => None
  | Some target =>
      if String.eqb (on_ascii (fun l => reverse (drop_while (Ascii.eqb (Ascii.ascii_of_nat 47)) (reverse l))) (Path target)) ""
      then Some (mkProxyConfig target (PreDeliverHook cfg) (DevStalwartAuthHeader cfg) (Minter cfg) (Shards cfg))
      else None
  end.

Definition authorization (cfg : ProxyConfig) (accountID : string) (h : header) : header :=
  if negb (String.eqb (DevStalwartAuthHeader cfg) "") then set_header "Authorization" (DevStalwartAuthHeader cfg) h
  else match Minter cfg with
  | Some mint =>
      if String.eqb accountID "" then del_header "Authorization" h
      else match mint accountID with
           | None => del_header "Authorization" h
           | Some token => set_header "Authorization" ("Bearer " +:+ token) h
           end
  | None => del_header "Authorization" h
  end.

Definition rewrite (cfg : ProxyConfig) (accountID : string) (r : request) : upstream string :=
  let h := outgoing (hdr r) in
  let h := set_header "X-KMail-Tenant-Id" (ctxTenant r) h in
  let h := set_header "X-KMail-Kchat-User-Id" (ctxUser r) h in
  let h := if negb (String.eqb accountID "") then set_header "X-KMail-Stalwart-Account-Id" accountID h else h in
  mkUpstream (method r) (Scheme (Target cfg)) (Host (Target cfg)) (path r) (authorization cfg accountID h) (Some (body r)).

Definition upload_path (p : string) : bool := Contains p "/jmap/upload" || HasSuffix p "/upload".

Definition requestCarriesMessageContent (r : request) : bool :=
  let p := path r in
  if upload_path p then true
  else if HasSuffix p "/jmap" || HasSuffix p "/jmap/" then negb (Contains p "/.well-known/")
  else false.

Definition quote : string := String.String (Ascii.ascii_of_nat 34) "".
Definition jmapSubmitMethods : list string :=
  [quote +:+ "Email/set" +:+ quote; quote +:+ "EmailSubmission/set" +:+ quote; quote +:+ "EmailSubmission/create" +:+ quote].

Definition shouldScanBody (r : request) : bool := upload_path (path r) || existsb (Contains (body r)) jmapSubmitMethods.

Definition maxScanBytes : Z := 32 * 1024 * 1024.

Inductive presponse :=
| PError (status : Z) (title : string)
| PIntercepted                            (* a hook has written the response *)
| PReply (code : Z) (body : string).      (* the shard's *)

Definition errorHandler : presponse := PError 502 "upstream unavailable".

Section serve.
Context {C H W K : Type} `{!LRU C} `{!CircuitBreaker K} (parse : string -> option URL) (exchange : upstream string -> W -> answer * W).
Context (clk : nat -> Z) (rnd : nat -> option string) (cfg : ProxyConfig) (sendInterceptor : option (hook request H)).

Record pstate := mkPState { cache : C; hooks : H; netst : net (B := string) (W := W) (K := K) }.

(** [p.rp.ServeHTTP]. *)
Definition forward (urls : list string) (accountID : string) (r : request) (s : pstate) : presponse * pstate :=
  let '(a, n) := RoundTrip parse exchange clk rnd (Target cfg) urls (readable r) (rewrite cfg accountID r) (netst s) in
  (match a with RResp code b => PReply code b | RErr _ => errorHandler end, mkPState (cache s) (hooks s) n).

Definition hooked (r : request) : bool :=
  (match PreDeliverHook cfg with Some _ => true | None => false end || match sendInterceptor with Some _ => true | None => false end)
  && (String.eqb (method r) "POST" || String.eqb (method r) "PUT") && requestCarriesMessageContent r.

Definition ServeHTTP (d : delivery) (now : Z) (tbl : users) (q : shards) (memo : option shardResolveMemo) (r : request) (s : pstate)
    : presponse * pstate :=
  if String.eqb (ctxTenant r) "" || String.eqb (ctxUser r) "" then (PError 500 "missing tenant or user context", s)
  else
    let '(acct, c) := resolveAccount d now tbl (ctxTenant r) (ctxUser r) (cache s) in
    let s := mkPState c (hooks s) (netst s) in
    match acct with
    | Err ErrNoRows => (PError 404 "stalwart account not provisioned", s)
    | Err ErrStore => (PError 502 "account lookup failed", s)
    | Ok accountID =>
        let urls := (resolveShardURLs (Shards cfg) q (ctxTenant r) memo).1 in
        if hooked r then
          if negb (readable r) then (PError 502 "read body", s)
          else if maxScanBytes <? Z.of_nat (String.length (body r)) then (PError 413 "message exceeds malware-scan size limit", s)
          else if shouldScanBody r then
            if match PreDeliverHook cfg with Some accepts => negb (accepts (body r)) | None => false end
            then (PError 422 "message rejected by malware scanner", s)
            else match sendInterceptor with
            | None => forward urls accountID r s
            | Some h =>
                let '((intercepted, _), hs) := h r (hooks s) in
                let s := mkPState (cache s) hs (netst s) in
                if intercepted then (PIntercepted, s) else forward urls accountID r s
            end
          else forward urls accountID r s
        else forward urls accountID r s
    end.
End serve.
Arguments mkPState {C H W K}. Arguments cache {C H W K}. Arguments hooks {C H W K}. Arguments netst {C H W K}.

(** ** Failing over *)
Definition failed (a : answer) : Prop := match a with Broken _ => True | Response code _ => 500 <= code end.

Section failover_laws.
Context {B W K : Type} `{!CircuitBreaker K} (parse : string -> option URL) (exchange : upstream B -> W -> answer * W).
Context (clk : nat -> Z) (rnd : nat -> option string).
Implicit Types (r : upstream B) (n : net (B := B) (W := W) (K := K)).

(** What a run over [urls] adds to the log: requests to some of them, in
    order, each the same request but for the shard; all failed but the last;
    the reply is the last answer, and it is a failure only when the last
    candidate was tried. *)
Definition run_of (urls : list string) r (a : reply) (l : list (upstream B * answer)) : Prop :=
  (exists us, us `sublist_of` urls /\ Forall2 (fun c x => exists u, parse c = Some u /\ x.1 = toward u r) us l /\
     ((exists c b, a = RResp c b /\ c < 500) \/ last us = last urls)) /\
  match a with
  | RErr _ => Forall (fun x => failed x.2) l
  | RResp code body => exists l0 x, l = l0 ++ [(x, Response code body)] /\ Forall (fun x => failed x.2) l0
  end.

Lemma run_of_skip c urls r a l : urls <> [] -> run_of urls r a l -> run_of (c :: urls) r a l.
Proof.
  intros Hne [(us & Hs & Hf & Hl) Ha]. split; [|done]. exists us. split_and!; [by apply sublist_cons | done |].
  destruct Hl as [Hl|Hl]; [by left | right]. rewrite Hl. by destruct urls.
Qed.

Lemma run_of_next c u urls r a l x : parse c = Some u -> failed x -> urls <> [] -> run_of urls r a l ->
  run_of (c :: urls) r a ((toward u r, x) :: l).
Proof.
  intros Hp Hx Hne [(us & Hs & Hf & Hl) Ha]. split.
  - exists (c :: us). split_and!; [by apply sublist_skip | constructor; [by exists u | done] |]. destruct Hl as [Hl|Hl]; [by left | right].
    destruct urls as [|d urls]; [done|]. destruct us as [|e us]; [|done]. rewrite last_cons in Hl. by destruct (last urls).
  - destruct a as [code body|e]; [|by constructor]. destruct Ha as (l0 & y & -> & Hl0). exists ((toward u r, x) :: l0), y. split; [done | by constructor].
Qed.

Lemma transmit_log r n a n' : transmit exchange r n = (a, n') -> sent n' = sent n ++ [(r, a)].
Proof. unfold transmit. destruct (exchange r (world n)) as [x w]. by intros [= <- <-]. Qed.

Lemma failover_run urls : forall i e r n a n', urls <> [] -> Forall (fun c => is_Some (parse c)) urls ->
  failover parse exchange clk rnd i urls e r n = (a, n') -> exists l, sent n' = sent n ++ l /\ run_of urls r a l.
Proof.
  induction urls as [|c urls IH]; intros i e r n a n' Hne0 Hp; cbn; [done|]. inversion Hp as [|? ? [u Hu] Hps]; subst. rewrite Hu.
  destruct (cb_open (clk i) (Host u) (breaker n)) as [open b]. destruct (open && _) eqn:Eo.
  { assert (urls <> []) as Hne by (destruct urls; [by destruct open | done]). intros Hrun.
    destruct (IH _ _ _ _ _ _ Hne Hps Hrun) as (l & Hs & Hr). exists l. split; [done | by apply run_of_skip]. }
  destruct (transmit exchange (toward u r) (with_breaker b n)) as [x n1] eqn:Et. apply transmit_log in Et. cbn in Et.
  assert (forall x' n2 (Hx : failed x'), sent n2 = sent n ++ [(toward u r, x')] -> forall e', failover parse exchange clk rnd (S i) urls e' r n2 = (a, n') ->
    (forall code body, x' = Response code body -> urls <> []) -> exists l, sent n' = sent n ++ l /\ run_of (c :: urls) r a l) as Hnext.
  { intros x' n2 Hx Hn2 e' Hrun Hresp. destruct urls as [|d urls].
    - cbn in Hrun. simplify_eq. exists [(toward u r, x')]. split; [done|]. split; [|by constructor].
      exists [c]. split_and!; [done | constructor; [by exists u | done] | by right].
    - destruct (IH _ _ _ _ _ _ ltac:(done) Hps Hrun) as (l & Hs & Hr). exists ((toward u r, x') :: l). rewrite Hs, Hn2, <-app_assoc.
      split; [done | by apply run_of_next]. }
  destruct x as [err|code body].
  - intros Hrun. eapply (Hnext (Broken err)); [done | | exact Hrun | done]. done.
  - destruct (Z.leb_spec 500 code) as [Hc|Hc].
    + destruct urls as [|d urls].
      * intros [= <- <-]. cbn. exists [(toward u r, Response code body)]. split; [done|]. split.
        -- exists [c]. split_and!; [done | constructor; [by exists u | done] | by right].
        -- exists [], (toward u r). done.
      * intros Hrun. eapply (Hnext (Response code body)); [exact Hc | | exact Hrun | done]. done.
    + intros [= <- <-]. cbn. exists [(toward u r, Response code body)]. split; [done|]. split.
      * exists [c]. split_and!; [apply sublist_skip, sublist_nil_l | constructor; [by exists u | done] | left; eauto].
      * exists [], (toward u r). done.
Qed.
End failover_laws.

(** ** Who the request is for *)
Section identity.
Context {C H W K : Type} `{!LRU C} `{!CircuitBreaker K} (parse : string -> option URL) (exchange : upstream string -> W -> answer * W).
Context (clk : nat -> Z) (rnd : nat -> option string) (cfg : ProxyConfig) (sendInterceptor : option (hook request H)).
Abbreviation serve := (ServeHTTP parse exchange clk rnd cfg sendInterceptor).
Abbreviation state := (pstate (C := C) (H := H) (W := W) (K := K)).

Lemma failover_same urls : forall i e (r : upstream string) n a n', failover parse exchange clk rnd i urls e r n = (a, n') ->
  exists l, sent n' = sent n ++ l /\ Forall (fun x => exists u, x.1 = toward u r) l.
Proof.
  induction urls as [|c urls IH]; intros i e r n a n'; cbn; [intros [= <- <-]; exists []; by rewrite app_nil_r|].
  destruct (parse c) as [u|]; [|by apply IH]. destruct (cb_open (clk i) (Host u) (breaker n)) as [open b]. case_match; [by apply (IH _ _ _ (with_breaker b n))|].
  destruct (transmit exchange (toward u r) (with_breaker b n)) as [x n1] eqn:Et. apply transmit_log in Et. cbn in Et.
  assert (forall n2 e', sent n2 = sent n1 -> failover parse exchange clk rnd (S i) urls e' r n2 = (a, n') ->
    exists l, sent n' = sent n ++ l /\ Forall (fun x => exists u, x.1 = toward u r) l) as Hnext.
  { intros n2 e' Hn2 Hrun. destruct (IH _ _ _ _ _ _ Hrun) as (l & Hs & Hl). exists ((toward u r, x) :: l). rewrite Hs, Hn2, Et, <-app_assoc.
    split; [done|]. constructor; [by exists u | done]. }
  assert (forall k, sent (with_breaker k n1) = sent n ++ [(toward u r, x)]) as Hone by done.
  destruct x as [err|code body]; [by apply Hnext|]. destruct (500 <=? code).
  - destruct urls; [|by apply Hnext]. intros [= <- <-]. eexists. split; [apply Hone|]. constructor; [by exists u | done].
  - intros [= <- <-]. eexists. split; [apply Hone|]. constructor; [by exists u | done].
Qed.

(** A request that goes out is the rewritten one, to some shard. *)
Definition same_request (x y : upstream string) : Prop :=
  u_method x = u_method y /\ u_path x = u_path y /\ u_header x = u_header y /\ u_body x = u_body y.

Lemma forward_same urls a r (s : state) p s' : forward parse exchange clk rnd cfg urls a r s = (p, s') ->
  exists l, sent (netst s') = sent (netst s) ++ l /\ Forall (fun x => same_request x.1 (rewrite cfg a r)) l.
Proof.
  unfold forward. destruct (RoundTrip parse exchange clk rnd (Target cfg) urls (readable r) (rewrite cfg a r) (netst s)) as [x n] eqn:E.
  intros [= _ <-]. cbn. unfold RoundTrip in E. destruct urls as [|c urls].
  - destruct (transmit exchange _ (netst s)) as [y n1] eqn:Et. apply transmit_log in Et. exists [(rewrite cfg a r, y)].
    split; [by destruct y; simplify_eq | by repeat constructor].
  - destruct (readable r); [|simplify_eq; exists []; by rewrite app_nil_r].
    apply failover_same in E as (l & Hs & Hl). exists l. split; [done|]. eapply Forall_impl; [exact Hl|]. by intros [y z] [u ->].
Qed.

(** How a request can reach the shards: the account was resolved and, for a
    write with message content, the hook accepted the body. *)
Lemma serve_forwards d now tbl q memo r (s : state) p s' : serve d now tbl q memo r s = (p, s') ->
  sent (netst s') = sent (netst s) \/
  exists a, (resolveAccount d now tbl (ctxTenant r) (ctxUser r) (cache s)).1 = Ok a /\
    (hooked cfg sendInterceptor r = true -> shouldScanBody r = true -> forall accepts, PreDeliverHook cfg = Some accepts ->
       accepts (body r) = true /\ Z.of_nat (String.length (body r)) <= maxScanBytes) /\
    exists l, sent (netst s') = sent (netst s) ++ l /\ Forall (fun x => same_request x.1 (rewrite cfg a r)) l.
Proof.
  unfold ServeHTTP. case_match; [intros [= _ <-]; by left|].
  destruct (resolveAccount d now tbl _ _ (cache s)) as [[a|[]] c] eqn:Ea; [|intros [= _ <-]; by left..]. cbn [fst].
  set (s0 := mkPState c (hooks s) (netst s)). set (urls := (resolveShardURLs _ _ _ _).1). clearbody urls.
  destruct (hooked cfg sendInterceptor r) eqn:Eh.
  2:{ intros Hf. right. exists a. split_and!; [done | done |]. by apply forward_same in Hf. }
  case_match; [intros [= _ <-]; by left|]. destruct (Z.ltb_spec maxScanBytes (Z.of_nat (String.length (body r)))); [intros [= _ <-]; by left|].
  destruct (shouldScanBody r) eqn:Es.
  2:{ intros Hf. right. exists a. split_and!; [done | done |]. by apply forward_same in Hf. }
  destruct (match PreDeliverHook cfg with Some _ => _ | None => _ end) eqn:Ep; [intros [= _ <-]; by left|].
  assert (forall accepts, PreDeliverHook cfg = Some accepts -> accepts (body r) = true /\ Z.of_nat (String.length (body r)) <= maxScanBytes) as Hacc.
  { intros accepts Hc. rewrite Hc in Ep. split; [by destruct (accepts (body r)) | lia]. }
  destruct sendInterceptor as [h|].
  - destruct (h r (hooks s0)) as [[i e] hs]. destruct i; [intros [= _ <-]; by left|].
    intros Hf. right. exists a. split_and!; [done | auto |]. by apply forward_same in Hf.
  - intros Hf. right. exists a. split_and!; [done | auto |]. by apply forward_same in Hf.
Qed.

(** The Authorization the proxy gives the shard. *)
Definition upstream_auth (a : string) : option string :=
  if negb (String.eqb (DevStalwartAuthHeader cfg) "") then Some (DevStalwartAuthHeader cfg)
  else match Minter cfg with
  | Some mint => if String.eqb a "" then None else (fun token => "Bearer " +:+ token) <$> mint a
  | None => None
  end.

Lemma rewrite_headers a r : let h := u_header (rewrite cfg a r) in
  h !! "X-Kmail-Tenant-Id"%string = Some (ctxTenant r) /\ h !! "X-Kmail-Kchat-User-Id"%string = Some (ctxUser r) /\
  (a <> ""%string -> h !! "X-Kmail-Stalwart-Account-Id"%string = Some a) /\ h !! "Authorization"%string = upstream_auth a.
Proof.
  unfold rewrite, upstream_auth. cbn [u_header]. unfold authorization. destruct (String.eqb_spec a "") as [->|Ha]; cbn [negb];
    (destruct (String.eqb (DevStalwartAuthHeader cfg) ""); cbn [negb]; [destruct (Minter cfg) as [mint|]; [try destruct (mint a) as [tok|]|]|]);
    canon_keys; split_and!; try done; intros; by simplify_map_eq.
Qed.

Lemma rewrite_canonical a r : canonical_keys (hdr r) -> canonical_keys (u_header (rewrite cfg a r)).
Proof.
  intros Hr. assert (forall ks h, canonical_keys h -> canonical_keys (without ks h)) as Hw.
  { intros ks h Hh k [v Hv]. unfold without in Hv. apply map_lookup_filter_Some in Hv as [Hv _]. apply Hh. by eexists. }
  unfold rewrite, outgoing, authorization. cbn [u_header]. repeat case_match; eauto 12 using set_canonical, del_canonical.
Qed.

(** Whatever the case a key is written in, the identity of a forwarded request
    is the one of the context. *)
Definition identified (r : request) (a : string) (x : upstream string) : Prop :=
  u_header x !! "X-Kmail-Tenant-Id"%string = Some (ctxTenant r) /\ u_header x !! "X-Kmail-Kchat-User-Id"%string = Some (ctxUser r) /\
  (a <> ""%string -> u_header x !! "X-Kmail-Stalwart-Account-Id"%string = Some a) /\
  forall k v, u_header x !! k = Some v ->
    (EqualFold k "X-KMail-Tenant-Id" = true -> v = ctxTenant r) /\ (EqualFold k "X-KMail-Kchat-User-Id" = true -> v = ctxUser r) /\
    (a <> ""%string -> EqualFold k "X-KMail-Stalwart-Account-Id" = true -> v = a) /\ (EqualFold k "Authorization" = true -> upstream_auth a = Some v).

Lemma rewrite_identified a r : canonical_keys (hdr r) -> identified r a (rewrite cfg a r).
Proof.
  intros Hc. destruct (rewrite_headers a r) as (H1 & H2 & H3 & H4). split_and!; [done..|]. intros k v Hk.
  assert (forall name c, forallb token_char (String.list_ascii_of_string name) = true -> CanonicalHeaderKey name = c -> EqualFold k name = true ->
    u_header (rewrite cfg a r) !! c = Some v) as Hfold.
  { intros name c Hn <- Hf. rewrite <- (EqualFold_canonical k name Hn Hf), (rewrite_canonical a r Hc k); [done|by eexists]. }
  split_and!.
  - intros Hf%(Hfold _ "X-Kmail-Tenant-Id"%string); [congruence|by vm_compute..].
  - intros Hf%(Hfold _ "X-Kmail-Kchat-User-Id"%string); [congruence|by vm_compute..].
  - intros Ha Hf%(Hfold _ "X-Kmail-Stalwart-Account-Id"%string); [specialize (H3 Ha); congruence|by vm_compute..].
  - intros Hf%(Hfold _ "Authorization"%string); [congruence|by vm_compute..].
Qed.

(** What a client's request has the proxy send. *)
Lemma serve_identified d now tbl q memo r (s : state) p s' : canonical_keys (hdr r) -> serve d now tbl q memo r s = (p, s') ->
  exists l, sent (netst s') = sent (netst s) ++ l /\ forall x, x ∈ l.*1 ->
    exists a, (resolveAccount d now tbl (ctxTenant r) (ctxUser r) (cache s)).1 = Ok a /\ identified r a x /\
      u_method x = method r /\ u_path x = path r /\ u_body x = Some (body r).
Proof.
  intros Hc Hs. apply serve_forwards in Hs as [Hs|(a & Ha & _ & l & Hs & Hl)].
  - exists []. rewrite app_nil_r. split; [done | by intros x ?%elem_of_nil].
  - exists l. split; [done|]. intros x ([y z] & -> & Hy)%list_elem_of_fmap. rewrite Forall_forall in Hl. destruct (Hl _ Hy) as (H1 & H2 & H3 & H4). cbn in *.
    exists a. split_and!; [done| |done..]. pose proof (rewrite_identified a r Hc) as Hi. unfold identified in *. by rewrite H3.
Qed.

(** C8: Uploads and plainly written submissions are scanned.  When the
    malware hook is wired, a POST or PUT is forwarded only if the hook
    accepted that very body, whole and of at most 32 MiB, if its path has
    /jmap/upload in it or ends in /upload, or if its path ends in /jmap or
    /jmap/ (and is not under /.well-known/) and its body has one of the JSON
    strings Email/set, EmailSubmission/set or EmailSubmission/create in it.
    Other paths, and names written with escapes, are not claimed. *)
Theorem scanned_before_forwarding accepts d now tbl q memo r (s : state) p s' x :
  PreDeliverHook cfg = Some accepts -> method r = "POST"%string \/ method r = "PUT"%string ->
  (Contains (path r) "/jmap/upload" = true \/ HasSuffix (path r) "/upload" = true) \/
  (HasSuffix (path r) "/jmap" = true \/ HasSuffix (path r) "/jmap/" = true) /\ Contains (path r) "/.well-known/" = false /\
    (exists name, name ∈ ["Email/set"; "EmailSubmission/set"; "EmailSubmission/create"]%string /\ Contains (body r) (quote +:+ name +:+ quote) = true) ->
  serve d now tbl q memo r s = (p, s') -> x ∈ sent (netst s') -> x ∉ sent (netst s) ->
  accepts (body r) = true /\ Z.of_nat (String.length (body r)) <= 32 * 1024 * 1024 /\ u_body x.1 = Some (body r).
Proof.
  intros Hc Hm Hshape Hs Hin Hout. apply serve_forwards in Hs as [Hs|(a & _ & Hacc & l & Hs & Hl)]; [by rewrite Hs in Hin|].
  assert (requestCarriesMessageContent r = true /\ shouldScanBody r = true) as [Hr Hsc].
  { unfold requestCarriesMessageContent, shouldScanBody, upload_path. destruct Hshape as [[-> | ->]|(Hp & Hw & name & Hn & Hb)]; [done|by rewrite orb_true_r|].
    split; [destruct (_ || HasSuffix _ "/upload"); [done|]; rewrite Hw; by destruct Hp as [-> | ->]; rewrite ?orb_true_r|].
    apply orb_true_intro. right. apply existsb_elem. exists (quote +:+ name +:+ quote). split; [|done]. unfold jmapSubmitMethods.
    repeat (apply elem_of_cons in Hn as [->|Hn]; [set_solver|]). by apply not_elem_of_nil in Hn. }
  assert (hooked cfg sendInterceptor r = true) as Hh by (unfold hooked; rewrite Hc, Hr; by destruct Hm as [-> | ->]).
  destruct (Hacc Hh Hsc accepts Hc) as [H1 H2]. rewrite Hs in Hin. apply elem_of_app in Hin as [?|Hin]; [done|].
  rewrite Forall_forall in Hl. destruct (Hl _ Hin) as (_ & _ & _ & H4). done.
Qed.
End identity.

(** ** The account behind a user *)
Section accounts.
Context {C : Type} `{!LRU C} (ttl : Z) `{!LRULaws C ttl} (c0 : C).
Hypothesis Hempty : forall t k, (lru_Get t k c0).1 = None.

Inductive aevent :=
| ATable (tbl : users)                               (* the database changes *)
| AResolve (d : delivery) (now : Z) (t u : string)
| APrime (now : Z) (t u a : string).

Definition astep (s : users * C) (e : aevent) : users * C :=
  match e with
  | ATable tbl => (tbl, s.2)
  | AResolve d now t u => (s.1, (resolveAccount d now s.1 t u s.2).2)
  | APrime now t u a => (s.1, PrimeAccountCache now t u a s.2)
  end.
Definition arun (tbl : users) (es : list aevent) : users * C := fold_left astep es (tbl, c0).

(** At [t0] the database had [a] for the user, or the cache was told so. *)
Definition known_at (tbl : users) (es : list aevent) (t0 : Z) (t u a : string) : Prop :=
  exists pre e post, es = pre ++ e :: post /\
    ((exists d, e = AResolve d t0 t u /\ (arun tbl pre).1 !! (t, u) = Some a) \/ e = APrime t0 t u a).

Definition tenant_of (e : aevent) : string := match e with ATable _ => "" | AResolve _ _ t _ | APrime _ t _ _ => t end.

Lemma known_at_snoc tbl es e t0 t u a : known_at tbl es t0 t u a -> known_at tbl (es ++ [e]) t0 t u a.
Proof. intros (pre & e0 & post & -> & Hk). exists pre, e0, (post ++ [e]). split; [by rewrite <-app_assoc | done]. Qed.

Lemma cache_key_inj t u t' u' : free_of bar t -> free_of bar t' -> cache_key t u = cache_key t' u' -> t = t' /\ u = u'.
Proof.
  revert t'. induction t as [|c t IH]; intros [|c' t'] H1 H2 E; unfold cache_key in *; cbn in *; simplify_eq; [done|..].
  - unfold free_of in H2. cbn in H2. inversion H2 as [|? ? Hb _]. by rewrite Ascii.eqb_refl in Hb.
  - unfold free_of in H1. cbn in H1. inversion H1 as [|? ? Hb _]. by rewrite Ascii.eqb_refl in Hb.
  - destruct (IH t') as [-> ->]; [by inversion H1 | by inversion H2 | done | done].
Qed.

(** Every hit is of something known less than [ttl] before. *)
Definition hits_known (tbl : users) (es : list aevent) (c : C) : Prop :=
  forall now t u a, free_of bar t -> (lru_Get now (cache_key t u) c).1 = Some a -> exists t0, known_at tbl es t0 t u a /\ now < t0 + ttl.

Lemma hits_add tbl es c t0 t u a : free_of bar t -> hits_known tbl es c -> known_at tbl es t0 t u a -> hits_known tbl es (cache_set t0 t u a c).
Proof.
  intros Hf Hh Hk now t' u' a' Hf' Hg. apply (lru_get_add (ttl := ttl)) in Hg as [(Hkey & -> & Ht)|[_ Hg]]; [|by apply Hh].
  apply cache_key_inj in Hkey as [-> ->]; [|done|done]. by exists t0.
Qed.

Lemma hits_get tbl es c t0 k : hits_known tbl es c -> hits_known tbl es (lru_Get t0 k c).2.
Proof. intros Hh now t u a Hf Hg. apply Hh; [done|]. by apply (lru_get_get (ttl := ttl)) in Hg. Qed.

Lemma hits_more tbl es e c : hits_known tbl es c -> hits_known tbl (es ++ [e]) c.
Proof. intros Hh now t u a Hf Hg. destruct (Hh _ _ _ _ Hf Hg) as (t0 & Hk & Ht). exists t0. split; [by apply known_at_snoc | done]. Qed.

Lemma run_hits tbl es : Forall (fun e => free_of bar (tenant_of e)) es -> hits_known tbl es (arun tbl es).2.
Proof using Hempty LRULaws0.
  induction es as [|e es IH] using rev_ind; [intros _ now t u a _ Hg; by rewrite Hempty in Hg|].
  rewrite Forall_app, Forall_singleton. intros [Hes Hte]. specialize (IH Hes). unfold arun in *. rewrite fold_left_app. cbn.
  destruct e as [x|d now t u|now t u a]; cbn; [by apply hits_more|..].
  - unfold resolveAccount, cache_get. pose proof (hits_get tbl es (fold_left astep es (tbl, c0)).2 now (cache_key t u) IH) as Hg.
    destruct (lru_Get now (cache_key t u) _) as [[a|] c]; cbn in *; [by apply hits_more|].
    destruct d; cbn; try by apply hits_more. destruct (_ !! (t, u)) as [a|] eqn:Ea; cbn; [|by apply hits_more].
    apply hits_add; [done | by apply hits_more |]. exists es, (AResolve Delivered now t u), []. split; [done|]. left. exists Delivered. done.
  - unfold PrimeAccountCache. case_match; [by apply hits_more|]. apply hits_add; [done | by apply hits_more |].
    exists es, (APrime now t u a), []. split; [done | by right].
Qed.

(** The account a user's request runs as is never stale by more than the
    cache's lifetime, and never another user's: over any history of lookups,
    cache seedings and changes of the database, an account resolved for
    (tenant, user) is the one the database has now, or one it had (or the
    cache was seeded with) for that same tenant and user less than [ttl]
    ago. *)
Theorem account_fresh tbl es d now t u a :
  Forall (fun e => free_of bar (tenant_of e)) es -> free_of bar t ->
  let s := arun tbl es in (resolveAccount d now s.1 t u s.2).1 = Ok a ->
  s.1 !! (t, u) = Some a \/ exists t0, known_at tbl es t0 t u a /\ now < t0 + ttl.
Proof using Hempty LRULaws0.
  intros Hes Hf s. pose proof (run_hits tbl es Hes) as Hh. fold s in Hh. unfold resolveAccount, cache_get.
  destruct (lru_Get now (cache_key t u) s.2) as [[x|] c] eqn:Eg; cbn.
  - intros [= ->]. right. apply (Hh now); [done|]. by rewrite Eg.
  - destruct d; [|done..]. destruct (s.1 !! (t, u)) as [x|]; [|done]. intros [= ->]. by left.
Qed.
End accounts.

(** ** Who a request runs as *)
Section proxy_runs.
Context {C H W K : Type} `{!LRU C} (ttl : Z) `{!LRULaws C ttl} `{!CircuitBreaker K}.
Context (parse : string -> option URL) (exchange : upstream string -> W -> answer * W).
Context (clk : nat -> Z) (rnd : nat -> option string) (cfg : ProxyConfig) (sendInterceptor : option (hook request H)).
Abbreviation serve := (ServeHTTP parse exchange clk rnd cfg sendInterceptor).
Abbreviation state := (pstate (C := C) (H := H) (W := W) (K := K)).
Context (tbl0 : users) (s0 : state).
Hypothesis Hempty : forall t k, (lru_Get t k (cache s0)).1 = None.

(** The users change, the cache is told an account, a request is served. *)
Inductive pevent :=
| PTable (tbl : users)
| PPrime (now : Z) (t u a : string)
| PServe (d : delivery) (now : Z) (q : shards) (memo : option shardResolveMemo) (r : request).

Definition pstep (x : users * state) (e : pevent) : users * state :=
  match e with
  | PTable tbl => (tbl, x.2)
  | PPrime now t u a => (x.1, mkPState (PrimeAccountCache now t u a (cache x.2)) (hooks x.2) (netst x.2))
  | PServe d now q memo r => (x.1, (serve d now x.1 q memo r x.2).2)
  end.
Definition prun (es : list pevent) : users * state := fold_left pstep es (tbl0, s0).

(** At [t0] a request of the user was served and the database had [a] for it,
    or the cache was told [a]. *)
Definition told (es : list pevent) (t0 : Z) (t u a : string) : Prop :=
  exists pre e post, es = pre ++ e :: post /\
    ((exists d q memo r, e = PServe d t0 q memo r /\ ctxTenant r = t /\ ctxUser r = u /\ (prun pre).1 !! (t, u) = Some a) \/ e = PPrime t0 t u a).

Definition tenant_in (e : pevent) : string := match e with PTable _ => "" | PPrime _ t _ _ => t | PServe _ _ _ _ r => ctxTenant r end.
(** The events as the cache sees them. *)
Definition seen (e : pevent) : list aevent :=
  match e with
  | PTable tbl => [ATable tbl]
  | PPrime now t u a => [APrime now t u a]
  | PServe d now _ _ r => if String.eqb (ctxTenant r) "" || String.eqb (ctxUser r) "" then [] else [AResolve d now (ctxTenant r) (ctxUser r)]
  end.

Lemma serve_cache d now tbl q memo r (s : state) : cache (serve d now tbl q memo r s).2 =
  if String.eqb (ctxTenant r) "" || String.eqb (ctxUser r) "" then cache s else (resolveAccount d now tbl (ctxTenant r) (ctxUser r) (cache s)).2.
Proof.
  unfold ServeHTTP. destruct (_ || _); [done|]. destruct (resolveAccount _ _ _ _ _ _) as [[a|[]] c]; [|done..]. cbn [snd].
  assert (forall urls (s1 : state), cache (forward parse exchange clk rnd cfg urls a r s1).2 = cache s1) as Hf
    by (intros urls s1; unfold forward; by destruct (RoundTrip parse exchange clk rnd _ _ _ _ (netst s1))).
  repeat (case_match; try done; rewrite ?Hf); simplify_eq; try done.
Qed.

Lemma prun_seen es : ((prun es).1, cache (prun es).2) = arun (cache s0) tbl0 (es ≫= seen).
Proof.
  unfold prun, arun. induction es as [|e es IH] using rev_ind; [done|]. rewrite fold_left_app, bind_app, fold_left_app, <- IH. cbn [fold_left mbind list_bind app].
  rewrite app_nil_r. destruct e as [tbl|now t u a|d now q memo r]; [done|done|]. cbn [pstep seen fst snd]. rewrite serve_cache. by destruct (_ || _).
Qed.
Lemma bind_split es pre a post : es ≫= seen = pre ++ a :: post -> exists es1 e es2, es = es1 ++ e :: es2 /\ es1 ≫= seen = pre /\ seen e = [a].
Proof.
  revert pre. induction es as [|e es IH]; intros pre E; [by destruct pre|]. cbn in E.
  assert (seen e = [] \/ exists b, seen e = [b]) as [He|[b He]] by (destruct e as [| |? ? ? ? r]; cbn; [eauto|eauto|]; destruct (_ || _); eauto); rewrite He in E; cbn in E.
  - destruct (IH _ E) as (es1 & e' & es2 & -> & <- & H2). exists (e :: es1), e', es2. cbn. by rewrite He.
  - destruct pre as [|b' pre]; cbn in E; injection E as -> E; [by exists [], e, es|].
    destruct (IH _ E) as (es1 & e' & es2 & -> & <- & H2). exists (e :: es1), e', es2. cbn. by rewrite He.
Qed.
Lemma known_told es t0 t u a : known_at (cache s0) tbl0 (es ≫= seen) t0 t u a -> told es t0 t u a.
Proof.
  intros (pre & e & post & E & Hk). destruct (bind_split _ _ _ _ E) as (es1 & e' & es2 & -> & <- & He). exists es1, e', es2. split; [done|].
  destruct Hk as [(d & -> & Ha)| ->].
  - left. rewrite <- prun_seen in Ha. destruct e' as [| |d' now q memo r]; [done|done|]. cbn in He. destruct (_ || _); [done|]. simplify_eq. naive_solver.
  - right. destruct e' as [| |d' now q memo r]; [done| |]; cbn in He; [congruence|]. by destruct (_ || _).
Qed.

(** C7: Whatever headers a client sends, every request the proxy forwards for
    it carries the tenant and the user of its authenticated context, however
    the keys are capitalised, and an Authorization the proxy chose (the
    client's own never reaches a shard); it runs as an account the database
    holds for exactly that tenant and user, or held when a request of theirs
    was served less than the cache's lifetime ago, or that the cache was told
    for them in that time, and carries that account if it is not the empty
    text; method, path and body are the client's.  This is after any sequence
    of requests, changes of the users and calls that fill the cache, one after
    the other; keys of headers are in canonical form, as net/http reads them,
    and ids of tenants have no vertical bar. *)
Theorem proxied_identity es d now q memo r p s' :
  Forall (fun e => free_of bar (tenant_in e)) es -> free_of bar (ctxTenant r) -> canonical_keys (hdr r) ->
  serve d now (prun es).1 q memo r (prun es).2 = (p, s') ->
  exists l, sent (netst s') = sent (netst (prun es).2) ++ l /\ forall x, x ∈ l.*1 ->
    exists a, ((prun es).1 !! (ctxTenant r, ctxUser r) = Some a \/ exists t0, told es t0 (ctxTenant r) (ctxUser r) a /\ now < t0 + ttl) /\
      identified cfg r a x /\ u_method x = method r /\ u_path x = path r /\ u_body x = Some (body r).
Proof using Hempty LRULaws0.
  intros Hes Hr Hc Hs. destruct (serve_identified _ _ _ _ _ _ _ _ _ _ _ _ _ _ _ Hc Hs) as (l & Hl & Hx). exists l. split; [done|]. intros x Hin.
  destruct (Hx x Hin) as (a & Ha & Hi). exists a. split; [|done]. pose proof (prun_seen es) as Hseen.
  pose proof (f_equal fst Hseen) as E1. pose proof (f_equal snd Hseen) as E2. cbn [fst snd] in E1, E2. rewrite E1, E2 in Ha.
  destruct (account_fresh ttl (cache s0) Hempty tbl0 (es ≫= seen) d now (ctxTenant r) (ctxUser r) a) as [Hk|(t0 & Hk & Ht)]; [|done|done|..].
  - apply Forall_forall. intros e (e' & He & He')%list_elem_of_bind. rewrite Forall_forall in Hes. specialize (Hes e' He').
    destruct e' as [| |? ? ? ? r']; cbn in *; [by apply list_elem_of_singleton in He as ->..|]. destruct (_ || _); [by apply not_elem_of_nil in He|]. by apply list_elem_of_singleton in He as ->.
  - left. by rewrite E1.
  - right. exists t0. split; [by apply known_told|done].
Qed.
End proxy_runs.

(** ** Failover, as a client sees it *)
Section availability.
Context {B W K : Type} `{!CircuitBreaker K} (parse : string -> option URL) (exchange : upstream B -> W -> answer * W).
Context (clk : nat -> Z) (rnd : nat -> option string).

(** A request with shards is sent to at least one of them, to each at
    most once and in their order, the same request every time; it goes on to
    the next one only after a failure (no answer, or a 5xx); the client gets
    the last answer, and it gets a failure only when the last shard of the
    list was tried too, whatever the circuit breaker says. *)
Theorem failover_exhausts_shards target urls (r : upstream B) (n : net (K := K)) a n' :
  urls <> [] -> Forall (fun c => is_Some (parse c)) urls -> RoundTrip parse exchange clk rnd target urls true r n = (a, n') ->
  exists l, l <> [] /\ sent n' = sent n ++ l /\ run_of parse urls r a l.
Proof.
  intros Hne Hp Hr. destruct urls as [|c urls]; [done|]. unfold RoundTrip in Hr.
  destruct (failover_run parse exchange clk rnd (c :: urls) _ _ _ _ _ _ Hne Hp Hr) as (l & Hs & Hrun). exists l. split_and!; [|done|done].
  destruct Hrun as [(us & _ & Hf & Hl) Ha]. intros ->. apply Forall2_nil_inv_r in Hf as ->. destruct a as [code body|e].
  - destruct Ha as ([|? ?] & x & Hl0 & _); done.
  - destruct Hl as [(? & ? & ? & _)|Hl]; [done|]. cbn in Hl. rewrite last_cons in Hl. by destruct (last urls).
Qed.
End availability.

(** ** Client certificates *)
Section tls.
Context {Cert : Type}.

Definition tls_valid (certFile keyFile : string) : bool := negb (blank certFile) && negb (blank keyFile).

(** The files: when each was modified ([None]: it cannot be read), and the
    key pair they hold ([None]: it does not load). *)
Record disk := mkDisk { cert_mtime : option Z; key_mtime : option Z; pair : option Cert }.

Record keypairLoader := mkLoader { l_cert : option Cert; certMTime : Z; keyMTime : Z }.

Definition keypair_load (d : disk) (l : keypairLoader) : option Cert * keypairLoader :=
  match cert_mtime d, key_mtime d with
  | Some cm, Some km =>
      match l_cert l with
      | Some c => if (cm =? certMTime l) && (km =? keyMTime l) then (Some c, l)
                  else match pair d with Some c' => (Some c', mkLoader (Some c') cm km) | None => (None, l) end
      | None => match pair d with Some c' => (Some c', mkLoader (Some c') cm km) | None => (None, l) end
      end
  | _, _ => (None, l)
  end.

(** The trust roots: one file. *)
Record caPoolLoader := mkCA { ca_pool : option Cert; ca_mtime : Z }.
Definition ca_load (mtime : option Z) (pool : option Cert) (l : caPoolLoader) : option Cert * caPoolLoader :=
  match mtime with
  | None => (None, l)
  | Some m =>
      match ca_pool l with
      | Some p => if m =? ca_mtime l then (Some p, l) else match pool with Some q => (Some q, mkCA (Some q) m) | None => (None, l) end
      | None => match pool with Some q => (Some q, mkCA (Some q) m) | None => (None, l) end
      end
  end.

(** The name a shard's certificate must carry; [None] refuses it. *)
Definition verifyName (pinned sni dialHost : string) : option string :=
  let n := if String.eqb pinned "" then sni else pinned in
  let n := if String.eqb n "" then dialHost else n in
  if String.eqb n "" then None else Some n.

Definition perConnServerName (serverName dialHost : string) : string := if String.eqb serverName "" then dialHost else serverName.

Definition isBareSvcHostname (host : string) : bool := HasSuffix host ".svc" && negb (Contains host ".svc.").

(** Over any sequence of files, each new content with a new modification
    time, what a handshake gets is what is on disk. *)
Theorem rotation_is_served (ds : list disk) (d : disk) c :
  (forall d1 d2, d1 ∈ d :: ds -> d2 ∈ d :: ds -> cert_mtime d1 = cert_mtime d2 -> key_mtime d1 = key_mtime d2 -> pair d1 = pair d2) ->
  (keypair_load d (fold_left (fun l x => (keypair_load x l).2) ds (mkLoader None 0 0))).1 = Some c -> pair d = Some c.
Proof.
  intros Hf.
  assert (forall ds', (forall x, x ∈ ds' -> x ∈ d :: ds) -> let l := fold_left (fun l x => (keypair_load x l).2) ds' (mkLoader None 0 0) in
    forall c, l_cert l = Some c -> exists x, x ∈ d :: ds /\ cert_mtime x = Some (certMTime l) /\ key_mtime x = Some (keyMTime l) /\ pair x = Some c) as Hinv.
  { intros ds'. induction ds' as [|x ds' IH] using rev_ind; intros Hsub; [done|]. rewrite fold_left_app. cbn.
    set (l := fold_left _ ds' _) in *. intros c'. unfold keypair_load.
    destruct (cert_mtime x) as [cm|] eqn:E1; [|apply IH; set_solver]. destruct (key_mtime x) as [km|] eqn:E2; [|apply IH; set_solver].
    assert (x ∈ d :: ds) as Hx by (apply Hsub; set_solver).
    destruct (l_cert l) as [c0|]; [case_match; [cbn; apply IH; set_solver|]|]; destruct (pair x) as [p|] eqn:E3; cbn;
      try (apply IH; set_solver); intros [= <-]; by exists x. }
  specialize (Hinv ds ltac:(set_solver)). cbn zeta in Hinv. set (l := fold_left _ ds _) in *. clearbody l. unfold keypair_load.
  destruct (cert_mtime d) as [cm|] eqn:E1; [|done]. destruct (key_mtime d) as [km|] eqn:E2; [|done].
  destruct (l_cert l) as [c0|]; [|by destruct (pair d)]. case_match eqn:E3; [|by destruct (pair d)]. intros [= ->].
  apply andb_prop in E3 as [E3 E4]. breflect. destruct (Hinv c eq_refl) as (x & Hx & H1 & H2 & H3). rewrite <-H3. symmetry. apply Hf; [done | left | congruence..].
Qed.
End tls.

(** ** Runs *)
Section runs.
(** An LRU without a bound: entries and when they were added. *)
#[export] Instance unbounded (ttl : Z) : LRU (gmap string (string * Z)) := {
  lru_Get now k c := (match c !! k with Some (v, t) => if now <? t + ttl then Some v else None | None => None end, c);
  lru_Add now k v c := <[k := (v, now)]> c;
}.

#[export] Instance unbounded_laws ttl : @LRULaws _ ttl (unbounded ttl).
Proof.
  split; cbn; [|done]. intros t0 k v c t k' x. destruct (decide (k' = k)) as [->|Hne].
  - rewrite lookup_insert_eq. destruct (Z.ltb_spec t (t0 + ttl)); [|done]. intros [= ->]. left. done.
  - rewrite lookup_insert_ne by done. by right.
Qed.

Lemma unbounded_empty ttl t k : (@lru_Get _ (unbounded ttl) t k ∅).1 = None.
Proof. cbn. by rewrite lookup_empty. Qed.

(** Shards named by their host; each executes what it receives, and the ones
    in [lossy] answer nothing. *)
Definition by_name (s : string) : option URL := Some (mkURL "https" s "").
Definition executing (lossy : list string) (x : upstream string) (w : list string) : answer * list string :=
  (if existsb (String.eqb (u_host x)) lossy then Broken "connection reset" else Response 200 "ok", u_host x :: w).
Definition plain : ProxyConfig := mkProxyConfig (mkURL "https" "stalwart" "") None "" (Some (fun a => Some ("jwt-" +:+ a))) true.
Definition scanning : ProxyConfig := mkProxyConfig (mkURL "https" "stalwart" "") (Some (fun b => negb (Contains b "EICAR"))) "" None true.
Definition post (p b : string) (h : header) : request := mkRequest "POST" p h b true "t1" "u1".
Definition fresh : pstate (C := gmap string (string * Z)) (H := unit) (W := list string) (K := InProcess.inProcessCircuitBreaker) :=
  mkPState ∅ tt (mkNet (InProcess.newInProcessCircuitBreaker 3 30 60) [] []).
Definition one_user : users := {[ ("t1", "u1")%string := "acc-1"%string ]}.
Definition two_shards : shards := mkShards (Some "a"%string) (Some ["b"%string]).
Abbreviation serve_with cfg lossy := (ServeHTTP (K := InProcess.inProcessCircuitBreaker) (H := unit) (LRU0 := unbounded accountCacheDefaultTTL)
  by_name (executing lossy) (fun _ => 0) (fun _ => None) cfg None).
Definition forged : header :=
  set_header "authorization" "Bearer stolen" (set_header "x-kmail-tenant-id" "t2" (set_header "X-KMAIL-Stalwart-Account-ID" "acc-2" ∅)).

(** The client claims another tenant and user, under several spellings, and an
    account; the cache knows the user from a request one second before. *)
Definition before_it : list pevent := [PServe Delivered 0 two_shards None (post "/jmap" "{}" ∅); PTable ∅].
Definition with_cache := prun (LRU0 := unbounded accountCacheDefaultTTL) by_name (executing []) (fun _ => 0) (fun _ => None) plain (@None (hook request unit)) one_user fresh before_it.
Definition impostor : request := post "/jmap" "{}" forged.
Definition impostor_served := serve_with plain [] Delivered Second with_cache.1 two_shards None impostor with_cache.2.

Lemma proxied_identity_witness : exists l, sent (netst impostor_served.2) = sent (netst with_cache.2) ++ l /\ (0 < length l)%nat /\
  forall x, x ∈ l.*1 -> exists a, u_header x !! "X-Kmail-Tenant-Id"%string = Some "t1"%string /\
    (a <> ""%string -> u_header x !! "X-Kmail-Stalwart-Account-Id"%string = Some a) /\ u_header x !! "Authorization"%string <> Some "Bearer stolen"%string.
Proof.
  destruct (proxied_identity (LRU0 := unbounded accountCacheDefaultTTL) accountCacheDefaultTTL by_name (executing []) (fun _ => 0) (fun _ => None) plain None
    one_user fresh (unbounded_empty accountCacheDefaultTTL) before_it Delivered Second two_shards None impostor impostor_served.1 impostor_served.2) as (l & Hl & Hx).
  - by repeat constructor.
  - by repeat constructor.
  - intros k [v Hv]. unfold impostor, post, forged, hdr in Hv. canon_keys.
    repeat (apply lookup_insert_Some in Hv as [[<- _]|[_ Hv]]; [by vm_compute|]). by rewrite lookup_empty in Hv.
  - apply surjective_pairing.
  - exists l. split; [exact Hl|]. split.
    + destruct l; [|cbn; lia]. rewrite app_nil_r in Hl. apply (f_equal length) in Hl. vm_compute in Hl. discriminate Hl.
    + intros x Hin. destruct (Hx x Hin) as (a & _ & (H1 & _ & H3 & H4) & _). exists a. split_and!; [exact H1|exact H3|]. intros Ha.
      destruct (H4 _ _ Ha) as (_ & _ & _ & H). specialize (H eq_refl). unfold upstream_auth in H. cbn in H.
      destruct (String.eqb a ""); [discriminate H|]. injection H as H. vm_compute in H. discriminate H.
Defined.

Definition submission : string := "[[" +:+ quote +:+ "Email/set" +:+ quote +:+ "]]".

Definition submitted := serve_with scanning [] Delivered 0 one_user two_shards None (post "/jmap" submission ∅) fresh.

Lemma scanned_before_forwarding_witness : exists x, x ∈ sent (netst submitted.2) /\
  negb (Contains submission "EICAR") = true /\ Z.of_nat (String.length submission) <= 32 * 1024 * 1024 /\ u_body x.1 = Some submission.
Proof.
  destruct (sent (netst submitted.2)) as [|x l] eqn:E; [vm_compute in E; discriminate E|]. exists x. split; [left|].
  apply (scanned_before_forwarding (LRU0 := unbounded accountCacheDefaultTTL) by_name (executing []) (fun _ => 0) (fun _ => None) scanning None
    (fun b => negb (Contains b "EICAR")) Delivered 0 one_user two_shards None (post "/jmap" submission ∅) fresh submitted.1 submitted.2 x).
  - reflexivity.
  - by left.
  - right. split; [by left|]. split; [by vm_compute|]. exists "Email/set"%string. split; [left|by vm_compute].
  - apply surjective_pairing.
  - rewrite E. left.
  - cbn. set_solver.
Defined.

Definition moved_on : list aevent := [AResolve Delivered 0 "t1" "u1"; ATable ∅].

Lemma account_fresh_witness :
  (arun (LRU0 := unbounded accountCacheDefaultTTL) ∅ one_user moved_on).1 !! ("t1", "u1")%string = Some "acc-1"%string \/
  exists t0, known_at (LRU0 := unbounded accountCacheDefaultTTL) ∅ one_user moved_on t0 "t1" "u1" "acc-1" /\ Minute < t0 + accountCacheDefaultTTL.
Proof.
  apply (account_fresh (LRU0 := unbounded accountCacheDefaultTTL) accountCacheDefaultTTL ∅ (unbounded_empty accountCacheDefaultTTL) one_user
    moved_on Delivered Minute "t1" "u1" "acc-1").
  - repeat constructor.
  - repeat constructor.
  - vm_compute. reflexivity.
Defined.

Definition idle_net : net (B := string) (W := list string) (K := InProcess.inProcessCircuitBreaker) :=
  mkNet (InProcess.newInProcessCircuitBreaker 3 30 60) [] [].
Definition a_request : upstream string := mkUpstream "POST" "https" "stalwart" "/jmap" ∅ (Some "{}"%string).

Lemma failover_exhausts_shards_witness : exists l, l <> [] /\
  sent (RoundTrip by_name (executing ["a"%string]) (fun _ => 0) (fun _ => None) (Target plain) ["a"; "b"]%string true a_request idle_net).2 = [] ++ l /\
  run_of by_name ["a"; "b"]%string a_request
    (RoundTrip by_name (executing ["a"%string]) (fun _ => 0) (fun _ => None) (Target plain) ["a"; "b"]%string true a_request idle_net).1 l.
Proof.
  apply (failover_exhausts_shards by_name (executing ["a"%string]) (fun _ => 0) (fun _ => None) (Target plain) ["a"; "b"]%string a_request idle_net).
  - done.
  - repeat constructor; by eexists.
  - apply surjective_pairing.
Defined.

(** A body the hook refuses is forwarded when it is posted to [/jmap/api]: the
    filter only knows [/jmap] and the upload paths. *)
Theorem api_path_is_not_scanned :
  let evil := post "/jmap/api" (submission +:+ "EICAR") ∅ in
  (serve_with scanning [] Delivered 0 one_user two_shards None evil fresh).1 = PReply 200 "ok" /\
  (serve_with scanning [] Delivered 0 one_user two_shards None (post "/jmap" (body evil) ∅) fresh).1 = PError 422 "message rejected by malware scanner".
Proof. by vm_compute. Qed.

(** So is one whose JSON spells the method name with an escaped slash. *)
Theorem escaped_method_is_not_scanned :
  let evil := post "/jmap" ("[[" +:+ quote +:+ "Email" +:+ String.String (Ascii.ascii_of_nat 92) "/set" +:+ quote +:+ "]]EICAR") ∅ in
  (serve_with scanning [] Delivered 0 one_user two_shards None evil fresh).1 = PReply 200 "ok".
Proof. by vm_compute. Qed.

(** An account that is the empty text leaves the account header of the client in
    place. *)
Theorem empty_account_keeps_header :
  (fun x => u_header x.1 !! "X-Kmail-Stalwart-Account-Id"%string) <$>
    sent (netst (serve_with scanning [] Delivered 0 {[ ("t1", "u1")%string := ""%string ]} two_shards None (post "/jmap" "{}" forged) fresh).2) = [Some "acc-2"%string].
Proof. by vm_compute. Qed.

(** A submission whose answer was lost is run again by the next shard. *)
Theorem lost_answer_runs_twice :
  world (netst (serve_with plain ["a"%string] Delivered 0 one_user two_shards None (post "/jmap" submission ∅) fresh).2) = ["b"; "a"]%string.
Proof. by vm_compute. Qed.
End runs.
