(* ===== verification/JmapClient.v ===== *)
(** * The internal JMAP client ([internal/jmap/internal_client.go],
      [email_ops.go])

    The requests the control plane itself makes to Stalwart on behalf of a
    user: sync, undo send, scheduled send, snooze, retention, export.
    [Dispatch] posts a batch of method calls to the shards of the tenant in
    turn; [DownloadBlob] fetches bytes the same way.  The email operator
    builds retention's queries and destructions on [Dispatch].  The body of a
    response is given by its length and by what [json.Unmarshal] makes of
    it. *)

From S2P Require Import Prelude Text Table Calendar Breaker JmapProxy.

Local Open Scope Z_scope.
Local Open Scope go_scope.

(** ** JSON *)
Inductive json :=
| JNull | JBool (b : bool) | JNumber (n : Z) | JString (s : string) | JArray (l : list json) | JObject (m : list (string * json)).

(** [x.(string)], [x.(map[string]any)], [x.([]any)], with the zero value where
    the type is another. *)
Definition as_string (j : json) : string := match j with JString s => s | _ => "" end.
Definition as_object (j : json) : list (string * json) := match j with JObject m => m | _ => [] end.
Definition as_array (j : json) : list json := match j with JArray l => l | _ => [] end.
Definition field (k : string) (m : list (string * json)) : json :=
  match List.find (fun kv => String.eqb kv.1 k) m with Some kv => kv.2 | None => JNull end.

Record JmapRequest := mkJmapRequest { Using : list string; MethodCalls : list (string * json * string) }.

(** The entries of a response, arrays of any length. *)
Record JmapResponse := mkJmapResponse { MethodResponses : list (list json) }.

Fixpoint call_by_id (id : string) (entries : list (list json)) : option (string * list (string * json)) :=
  match entries with
  | [] => None
  | [name; args; got] :: rest => if String.eqb (as_string got) id then Some (as_string name, as_object args) else call_by_id id rest
  | _ :: rest => call_by_id id rest
  end.
Definition CallByID (id : string) (r : JmapResponse) : option (string * list (string * json)) := call_by_id id (MethodResponses r).

Record MethodError := mkMethodError { me_Type : string; me_Description : string }.

Fixpoint first_call_error (entries : list (list json)) : option MethodError :=
  match entries with
  | [] => None
  | [name; args; _] :: rest =>
      if String.eqb (as_string name) "error"
      then Some (mkMethodError (as_string (field "type" (as_object args))) (as_string (field "description" (as_object args))))
      else first_call_error rest
  | _ :: rest => first_call_error rest
  end.
Definition FirstCallError (r : JmapResponse) : option MethodError := first_call_error (MethodResponses r).

(** ** The client *)
Definition internalClientMaxBlobBytes : Z := 64 * 1024 * 1024.
Definition internalClientMaxResponseBytes : Z := 16 * 1024 * 1024.

Inductive cerror :=
| MissingArg (name : string) | ResolveFailed | MintFailed | ShardFailed (err : string) | Refused (code : Z) (text : string)
| TooLarge | BadJSON | Method (e : MethodError).

Definition truncate (b : string) (n : Z) : string :=
  if Z.of_nat (String.length b) <=? n then b else String.substring 0 (Z.to_nat n) b +:+ "...(truncated)".

Definition slash : Ascii.ascii := Ascii.ascii_of_nat 47.
Definition trim_slash (s : string) : string := (* strings.TrimSuffix(s, "/") *)
  on_ascii (fun l => match reverse l with c :: r => if Ascii.eqb c slash then reverse r else l | [] => l end) s.

Definition joinPath (base : option URL) (relPath : string) : option URL :=
  match base with
  | None => None
  | Some u =>
      let rel := if HasPrefix relPath "/" then relPath else "/" +:+ relPath in
      Some (mkURL (Scheme u) (Host u) (trim_slash (Path u) +:+ rel))
  end.

(** [url.PathEscape]. *)
Definition path_safe (c : Ascii.ascii) : bool :=
  let n := Ascii.nat_of_ascii c in
  ((48 <=? n) && (n <=? 57) || (65 <=? n) && (n <=? 90) || (97 <=? n) && (n <=? 122))%nat
  || existsb (Ascii.eqb c) (String.list_ascii_of_string "-_.~$&+=:@").
Definition upper_hex : string := "0123456789ABCDEF".
Definition PathEscape (s : string) : string :=
  String.concat "" ((fun c => if path_safe c then String.String c "" else
    let n := Z.of_nat (Ascii.nat_of_ascii c) in
    String.String (Ascii.ascii_of_nat 37) (String.String (pick upper_hex (n / 16)) (String.String (pick upper_hex (n mod 16)) "")))
    <$> String.list_ascii_of_string s).

(** How the control plane authenticates to Stalwart. *)
Record authority := mkAuthority { devHeader : string; minter : option (string -> option string) }.

Definition setAuth (au : authority) (accountID : string) (h : header) : option header :=
  if negb (String.eqb (devHeader au) "") then Some (set_header "Authorization" (devHeader au) h)
  else match minter au with
  | None => Some h
  | Some mint =>
      if blank accountID then None
      else match mint accountID with
           | None => None
           | Some token => Some (set_header "Authorization" ("Bearer " +:+ token) h)
           end
  end.

Definition identity_headers (accept tenantID kchatUserID accountID : string) : header :=
  set_header "X-KMail-Stalwart-Account-Id" accountID (set_header "X-KMail-Kchat-User-Id" kchatUserID
    (set_header "X-KMail-Tenant-Id" tenantID (set_header "Accept" accept ∅))).

Section client.
Context {B W : Type} (parse : string -> option URL) (exchange : upstream B -> W -> answer * W) (au : authority).
Abbreviation wire := (net (B := B) (W := W) (K := unit)).

(** The loop over the shards; [accept] reads an answer below 400. *)
Fixpoint each_shard {R} (accept : string -> result cerror R) (verb relPath : string) (h : header) (accountID : string) (payload : option B)
    (urls : list string) (lastErr : string) (n : wire) : result cerror R * wire :=
  match urls with
  | [] => (Err (ShardFailed lastErr), n)
  | base :: rest =>
      match joinPath (parse base) relPath with
      | None => each_shard accept verb relPath h accountID payload rest "parse shard url" n
      | Some u =>
          match setAuth au accountID h with
          | None => (Err MintFailed, n)
          | Some h' =>
              let '(a, n) := transmit exchange (mkUpstream verb (Scheme u) (Host u) (Path u) h' payload) n in
              match a with
              | Broken e => each_shard accept verb relPath h accountID payload rest e n
              | Response code b =>
                  if 500 <=? code then each_shard accept verb relPath h accountID payload rest "upstream" n
                  else if 400 <=? code then (Err (Refused code (truncate b 512)), n)
                  else (accept b, n)
              end
          end
      end
  end.

Definition candidates (urls : list string) (target : string) : list string := match urls with [] => [target] | _ => urls end.

(** [account]: what [ResolveAccountID] answers. *)
Definition Dispatch (decode : string -> option JmapResponse) (tenantID kchatUserID : string) (account : option string)
    (urls : list string) (target : string) (req : B) (n : wire) : result cerror JmapResponse * wire :=
  if blank tenantID then (Err (MissingArg "tenantID"), n)
  else if blank kchatUserID then (Err (MissingArg "kchatUserID"), n)
  else match account with
  | None => (Err ResolveFailed, n)
  | Some accountID =>
      each_shard (fun b =>
        if internalClientMaxResponseBytes <? Z.of_nat (String.length b) then Err TooLarge
        else match decode b with
             | None => Err BadJSON
             | Some out => match FirstCallError out with Some e => Err (Method e) | None => Ok out end
             end)
        "POST" "/jmap/api" (<["Content-Type"%string := "application/json"%string]> (identity_headers "application/json" tenantID kchatUserID accountID))
        accountID (Some req) (candidates urls target) "jmap dispatch: no shard URL configured" n
  end.

Definition DownloadBlob (tenantID kchatUserID accountID blobID name : string) (urls : list string) (target : string) (n : wire)
    : result cerror string * wire :=
  if blank tenantID then (Err (MissingArg "tenantID"), n)
  else if blank kchatUserID then (Err (MissingArg "kchatUserID"), n)
  else if blank accountID then (Err (MissingArg "accountID"), n)
  else if blank blobID then (Err (MissingArg "blobID"), n)
  else
    let name := if String.eqb name "" then "blob"%string else name in
    each_shard (fun b => if internalClientMaxBlobBytes <? Z.of_nat (String.length b) then Err TooLarge else Ok b)
      "GET" ("/jmap/download/" +:+ PathEscape accountID +:+ "/" +:+ PathEscape blobID +:+ "/" +:+ PathEscape name)
      (identity_headers "application/octet-stream" tenantID kchatUserID accountID) accountID None (candidates urls target)
      "jmap download: no shard URL configured" n.
End client.

(** ** Email operations *)
Definition qualifiedIDSeparator : Ascii.ascii := Ascii.ascii_of_nat 58.
Definition QualifyEmailID (accountID emailID : string) : string := accountID +:+ String.String qualifiedIDSeparator emailID.
Definition SplitQualifiedEmailID (q : string) : option (string * string) :=
  match split_first qualifiedIDSeparator q with
  | Some (a, e) => if String.eqb a "" || String.eqb e "" then None else Some (a, e)
  | None => None
  end.

Definition destroyBatchSize : nat := 100.
Definition defaultQueryLimit : Z := 500.

(** [t.UTC().Format("2006-01-02T15:04:05Z")]. *)
Definition utcDate (t : Z) : string :=
  let '(y, m, d) := civil_from_days (t / Day) in
  pad4 y +:+ "-" +:+ pad2 m +:+ "-" +:+ pad2 d +:+ "T" +:+ pad2 (t mod Day / Hour) +:+ ":" +:+ pad2 (t mod Hour / Minute) +:+ ":"
    +:+ pad2 (t mod Minute / Second) +:+ "Z".

Record tenantAccount := mkTenantAccount { kchatUserID : string; accountID : string }.

(** The users table, as far as accounts are enumerated from it. *)
Record userRow := mkUserRow { ur_tenant : string; ur_user : string; ur_account : string; ur_status : string; ur_type : string }.
Definition queryTenantAccounts (rows : list userRow) (tenantID : string) : list tenantAccount :=
  (fun r => mkTenantAccount (ur_user r) (ur_account r)) <$>
    List.filter (fun r => String.eqb (ur_tenant r) tenantID && String.eqb (ur_status r) "active"
                          && (String.eqb (ur_type r) "user" || String.eqb (ur_type r) "shared_inbox")) rows.

Inductive operror := OpMissing | OpAccounts | OpMalformed (q : string) | OpNotActive (acct : string) | OpDispatch (e : cerror) | OpResponse (why : string).

Definition capabilities : list string := ["urn:ietf:params:jmap:core"; "urn:ietf:params:jmap:mail"]%string.

Definition query_request (acct mailboxID : string) (olderThan remaining : Z) : JmapRequest :=
  mkJmapRequest capabilities
    [("Email/query"%string,
      JObject [("accountId", JString acct);
               ("filter", JObject (("before", JString (utcDate olderThan)) :: (if String.eqb mailboxID "" then [] else [("inMailbox", JString mailboxID)])));
               ("sort", JArray [JObject [("property", JString "receivedAt"); ("isAscending", JBool true)]]);
               ("position", JNumber 0); ("limit", JNumber remaining); ("calculateTotal", JBool false)]%string, "q0"%string)].

Definition destroy_request (acct : string) (batch : list string) : JmapRequest :=
  mkJmapRequest capabilities [("Email/set"%string, JObject [("accountId", JString acct); ("destroy", JArray (JString <$> batch))]%string, "d0"%string)].

Definition parseEmailQueryIDs (r : JmapResponse) (callID : string) : result operror (list string) :=
  match CallByID callID r with
  | None => Err (OpResponse "missing Email/query response")
  | Some (name, args) =>
      if negb (String.eqb name "Email/query") then Err (OpResponse "unexpected response method")
      else Ok (omap (fun v => match v with JString s => if String.eqb s "" then None else Some s | _ => None end) (as_array (field "ids" args)))
  end.

(** The entries of [notDestroyed] in order of id. *)
Definition checkEmailSetDestroy (r : JmapResponse) (callID : string) : result operror unit :=
  match CallByID callID r with
  | None => Err (OpResponse "missing Email/set response")
  | Some (name, args) =>
      if negb (String.eqb name "Email/set") then Err (OpResponse "unexpected response method")
      else
        let notDestroyed := as_object (field "notDestroyed" args) in
        let typ id := as_string (field "type" (as_object (field id notDestroyed))) in
        match List.find (fun id => negb (String.eqb (typ id) "notFound")) (sort_strings notDestroyed.*1) with
        | Some id => Err (OpResponse ("destroy " +:+ id +:+ " failed: " +:+ typ id))
        | None => Ok tt
        end
  end.

Section operator.
Context {W : Type} (dispatch : string -> string -> JmapRequest -> W -> result cerror JmapResponse * W).
Context (accountsFn : string -> W -> option (list tenantAccount)).

Fixpoint query_each (tenantID mailboxID : string) (olderThan limit : Z) (accts : list tenantAccount) (out : list string) (w : W)
    : result operror (list string) * W :=
  match accts with
  | [] => (Ok out, w)
  | a :: accts =>
      if limit <=? Z.of_nat (length out) then (Ok out, w)
      else
        let remaining := limit - Z.of_nat (length out) in
        let '(r, w) := dispatch tenantID (kchatUserID a) (query_request (accountID a) mailboxID olderThan remaining) w in
        match r with
        | Err (Method me) =>
            if negb (String.eqb mailboxID "") && String.eqb (me_Type me) "invalidArguments"
            then query_each tenantID mailboxID olderThan limit accts out w
            else (Err (OpDispatch (Method me)), w)
        | Err e => (Err (OpDispatch e), w)
        | Ok resp =>
            match parseEmailQueryIDs resp "q0" with
            | Err e => (Err e, w)
            | Ok ids => query_each tenantID mailboxID olderThan limit accts (out ++ take (Z.to_nat remaining) (QualifyEmailID (accountID a) <$> ids)) w
            end
        end
  end.

Definition QueryEmailsByDate (tenantID mailboxID : string) (olderThan limit : Z) (w : W) : result operror (list string) * W :=
  if blank tenantID then (Err OpMissing, w)
  else
    let limit := if limit <=? 0 then defaultQueryLimit else limit in
    match accountsFn tenantID w with
    | None => (Err OpAccounts, w)
    | Some accts => query_each tenantID mailboxID olderThan limit accts [] w
    end.

(** The ids of each account, accounts in order of first appearance. *)
Fixpoint add_id (acct id : string) (g : list (string * list string)) : list (string * list string) :=
  match g with
  | [] => [(acct, [id])]
  | (a, ids) :: g => if String.eqb a acct then (a, ids ++ [id]) :: g else (a, ids) :: add_id acct id g
  end.
Fixpoint group (qs : list string) (g : list (string * list string)) : result operror (list (string * list string)) :=
  match qs with
  | [] => Ok g
  | q :: qs => match SplitQualifiedEmailID q with None => Err (OpMalformed q) | Some (acct, id) => group qs (add_id acct id g) end
  end.

(** [for start := 0; start < len(ids); start += n]. *)
Fixpoint chunks {A} (fuel : nat) (n : nat) (l : list A) : list (list A) :=
  match fuel, l with
  | S fuel, _ :: _ => take n l :: chunks fuel n (drop n l)
  | _, _ => []
  end.
Definition batches {A} (n : nat) (l : list A) : list (list A) := chunks (length l) n l.

Fixpoint destroy_batches (tenantID user acct : string) (bs : list (list string)) (w : W) : result operror unit * W :=
  match bs with
  | [] => (Ok tt, w)
  | b :: bs =>
      let '(r, w) := dispatch tenantID user (destroy_request acct b) w in
      match r with
      | Err e => (Err (OpDispatch e), w)
      | Ok resp => match checkEmailSetDestroy resp "d0" with Err e => (Err e, w) | Ok _ => destroy_batches tenantID user acct bs w end
      end
  end.

(** [userByAccount]: the last of the accounts wins. *)
Definition user_of (accts : list tenantAccount) (acct : string) : option string :=
  kchatUserID <$> List.find (fun a => String.eqb (accountID a) acct) (reverse accts).

Fixpoint destroy_accounts (tenantID : string) (accts : list tenantAccount) (g : list (string * list string)) (w : W) : result operror unit * W :=
  match g with
  | [] => (Ok tt, w)
  | (acct, ids) :: g =>
      match user_of accts acct with
      | None => (Err (OpNotActive acct), w)
      | Some user =>
          let '(r, w) := destroy_batches tenantID user acct (batches destroyBatchSize ids) w in
          match r with Err e => (Err e, w) | Ok _ => destroy_accounts tenantID accts g w end
      end
  end.

Definition DestroyEmails (tenantID : string) (messageIDs : list string) (w : W) : result operror unit * W :=
  if blank tenantID then (Err OpMissing, w)
  else match messageIDs with
  | [] => (Ok tt, w)
  | _ =>
      match group messageIDs [] with
      | Err e => (Err e, w)
      | Ok g => match accountsFn tenantID w with None => (Err OpAccounts, w) | Some accts => destroy_accounts tenantID accts g w end
      end
  end.
End operator.

(** ** What goes out *)
Section outgoing.
Context {B W : Type} (parse : string -> option URL) (exchange : upstream B -> W -> answer * W) (au : authority).
Abbreviation wire := (net (B := B) (W := W) (K := unit)).

Lemma each_shard_sent {R} (accept : string -> result cerror R) verb rel h acct payload urls : forall e (n : wire) r n',
  each_shard parse exchange au accept verb rel h acct payload urls e n = (r, n') ->
  exists l, sent n' = sent n ++ l /\ (length l <= length urls)%nat /\
    (forall x, x ∈ l.*1 -> exists h', setAuth au acct h = Some h' /\ u_header x = h' /\ u_method x = verb /\ u_body x = payload) /\
    (forall a, r = Ok a -> exists l0 x code b, l = l0 ++ [(x, Response code b)] /\ code < 400 /\ accept b = Ok a /\ Forall (fun y => failed y.2) l0).
Proof.
  induction urls as [|base urls IH]; intros e n r n'; cbn.
  { intros [= <- <-]. exists []. rewrite app_nil_r. split_and!; [done | cbn; lia | by intros x ?%elem_of_nil | done]. }
  destruct (joinPath (parse base) rel) as [u|].
  2:{ intros Hrun. destruct (IH _ _ _ _ Hrun) as (l & H1 & H2 & H3 & H4). exists l. split_and!; [done | lia | done | done]. }
  destruct (setAuth au acct h) as [h'|] eqn:Ea.
  2:{ intros [= <- <-]. exists []. rewrite app_nil_r. split_and!; [done | cbn; lia | by intros x ?%elem_of_nil | done]. }
  set (q := mkUpstream verb (Scheme u) (Host u) (Path u) h' payload). destruct (transmit exchange q n) as [a n1] eqn:Et. apply transmit_log in Et.
  assert (forall e', failed a -> each_shard parse exchange au accept verb rel h acct payload urls e' n1 = (r, n') ->
    exists l, sent n' = sent n ++ l /\ (length l <= S (length urls))%nat /\
    (forall x, x ∈ l.*1 -> exists h0, Some h' = Some h0 /\ u_header x = h0 /\ u_method x = verb /\ u_body x = payload) /\
    (forall y, r = Ok y -> exists l0 x code b, l = l0 ++ [(x, Response code b)] /\ code < 400 /\ accept b = Ok y /\ Forall (fun y => failed y.2) l0)) as Hnext.
  { intros e' Hf Hrun. destruct (IH _ _ _ _ Hrun) as (l & H1 & H2 & H3 & H4). exists ((q, a) :: l). rewrite H1, Et, <-app_assoc.
    split_and!; [done | cbn; lia | |].
    - intros x [->|Hx]%elem_of_cons; [by exists h' | by apply H3].
    - intros y Hy. destruct (H4 _ Hy) as (l0 & x & code & b & -> & Hc & Hac & Hl0). exists ((q, a) :: l0), x, code, b.
      split_and!; [done | done | done | by constructor]. }
  assert (forall x, x ∈ [(q, a)].*1 -> exists h0, Some h' = Some h0 /\ u_header x = h0 /\ u_method x = verb /\ u_body x = payload) as Hq
    by (intros x ->%list_elem_of_singleton; by exists h').
  destruct a as [err|code b]; [by apply Hnext|]. destruct (Z.leb_spec 500 code); [by apply Hnext|].
  destruct (Z.leb_spec 400 code); intros [= <- <-]; exists [(q, Response code b)]; (split_and!; [done | cbn; lia | exact Hq |]); [done|].
  intros y Hy. exists [], q, code, b. split_and!; [done | lia | done | constructor].
Qed.

(** The Authorization of a request for [acct]. *)
Definition client_auth (acct : string) : option string :=
  if negb (String.eqb (devHeader au) "") then Some (devHeader au)
  else match minter au with Some mint => (fun token => "Bearer " +:+ token) <$> mint acct | None => None end.

Lemma setAuth_spec acct h h' : h !! "Authorization"%string = None -> setAuth au acct h = Some h' ->
  h' !! "Authorization"%string = client_auth acct /\ (forall k, k <> "Authorization"%string -> h' !! k = h !! k) /\
  (String.eqb (devHeader au) "" = true -> forall mint, minter au = Some mint -> exists token, mint acct = Some token /\ blank acct = false).
Proof.
  intros Hh. unfold setAuth, client_auth. canon_keys. destruct (String.eqb (devHeader au) ""); cbn [negb].
  - destruct (minter au) as [mint|].
    + destruct (blank acct) eqn:Eb; [done|]. destruct (mint acct) as [token|] eqn:Em; [|done]. intros [= <-]. split_and!.
      * by rewrite lookup_insert_eq.
      * intros k Hk. by rewrite lookup_insert_ne.
      * intros _ m [= <-]. by exists token.
    + intros [= <-]. split_and!; done.
  - intros [= <-]. split_and!; [by rewrite lookup_insert_eq | intros k Hk; by rewrite lookup_insert_ne | done].
Qed.

(** A request the control plane makes for a user carries that user's
    tenant, id and account and, where tokens are minted, the token of exactly
    that account (nothing is sent when it cannot be minted); each shard gets
    the same request once at most, and an answer is returned only if it is a
    response below 400 without method errors, after failures only. *)
Theorem dispatched_identity decode tenantID user account urls target (req : B) (n : wire) r n' :
  Dispatch parse exchange au decode tenantID user account urls target req n = (r, n') ->
  exists l, sent n' = sent n ++ l /\ (length l <= length (candidates urls target))%nat /\
    (forall x, x ∈ l.*1 -> exists a, account = Some a /\ u_body x = Some req /\
       u_header x !! "X-Kmail-Tenant-Id"%string = Some tenantID /\ u_header x !! "X-Kmail-Kchat-User-Id"%string = Some user /\
       u_header x !! "X-Kmail-Stalwart-Account-Id"%string = Some a /\ u_header x !! "Authorization"%string = client_auth a /\
       (String.eqb (devHeader au) "" = true -> forall mint, minter au = Some mint -> exists token, mint a = Some token)) /\
    (forall resp, r = Ok resp -> exists l0 x code b, l = l0 ++ [(x, Response code b)] /\ code < 400 /\ decode b = Some resp /\
       FirstCallError resp = None /\ Forall (fun y => failed y.2) l0).
Proof.
  set (goal := exists l, _). assert (forall e, (Err e, n) = (r, n') -> goal) as Hstop.
  { intros e [= <- <-]. exists []. rewrite app_nil_r. split_and!; [done | cbn; lia | by intros x ?%elem_of_nil | done]. }
  unfold Dispatch. destruct (blank tenantID); [by apply Hstop|]. destruct (blank user); [by apply Hstop|]. destruct account as [a|]; [|by apply Hstop].
  intros Hrun. apply each_shard_sent in Hrun as (l & H1 & H2 & H3 & H4). exists l. split_and!; [done | done | |].
  - intros x Hx. destruct (H3 x Hx) as (h' & Ha & Hh & _ & Hb). exists a. apply setAuth_spec in Ha as (A1 & A2 & A3); [|by vm_compute].
    rewrite Hh, A1, !A2 by done. unfold identity_headers. canon_keys. split_and!; [done | done | by simplify_map_eq.. | done |]. intros Hd mint Hm. destruct (A3 Hd mint Hm) as (tok & ? & _). eauto.
  - intros resp Hr. destruct (H4 _ Hr) as (l0 & x & code & b & -> & Hc & Hacc & Hl0). exists l0, x, code, b.
    case_match; [done|]. destruct (decode b) as [out|]; [|done]. destruct (FirstCallError out) eqn:Ef; [done|]. simplify_eq. split_and!; done.
Qed.
End outgoing.

(** A shard that resets the connection, and one that answers. *)
Module ClientExamples.
Definition minting : authority := mkAuthority "" (Some (fun a => Some ("jwt-" +:+ a))).
Definition done_ : JmapResponse := mkJmapResponse [[JString "Email/set"; JObject []; JString "d0"]].
Definition flaky (x : upstream JmapRequest) (w : nat) : answer * nat := (if String.eqb (u_host x) "a" then Broken "reset" else Response 200 "body", S w).
Definition destroyed := Dispatch by_name flaky minting (fun _ => Some done_) "t1" "u1" (Some "acc-1"%string) ["a"; "b"]%string "a"
  (destroy_request "acc-1" ["e1"%string]) (mkNet tt O []).
End ClientExamples.

Lemma dispatched_identity_witness : ClientExamples.destroyed.1 = Ok ClientExamples.done_ /\ length (sent ClientExamples.destroyed.2) = 2%nat /\
  forall x, x ∈ (sent ClientExamples.destroyed.2).*1 -> u_header x !! "Authorization"%string = client_auth ClientExamples.minting "acc-1".
Proof.
  split; [by vm_compute|]. split; [by vm_compute|].
  destruct (dispatched_identity by_name ClientExamples.flaky ClientExamples.minting (fun _ => Some ClientExamples.done_) "t1" "u1" (Some "acc-1"%string)
    ["a"; "b"]%string "a" (destroy_request "acc-1" ["e1"%string]) (mkNet tt O []) ClientExamples.destroyed.1 ClientExamples.destroyed.2)
    as (l & Hs & _ & Hl & _); [apply surjective_pairing|].
  intros x Hx. rewrite Hs in Hx. destruct (Hl x Hx) as (a & Ha & _ & _ & _ & _ & Hauth & _). injection Ha as <-. exact Hauth.
Defined.

(** Qualified ids name one message of one account. *)
Lemma split_first_app c a b : free_of c a -> split_first c (a +:+ String.String c b) = Some (a, b).
Proof.
  unfold free_of. induction a as [|x a IH]; intros Hf.
  - change (split_first c (String.String c b) = Some (""%string, b)). cbn [split_first]. by rewrite Ascii.eqb_refl.
  - change (split_first c (String.String x (a +:+ String.String c b)) = Some (String.String x a, b)). cbn [split_first].
    inversion Hf as [|? ? Hx Ha]; subst. destruct (Ascii.eqb x c); [done|]. by rewrite IH.
Qed.

Theorem qualified_round_trip a e : free_of qualifiedIDSeparator a -> a <> ""%string -> e <> ""%string ->
  SplitQualifiedEmailID (QualifyEmailID a e) = Some (a, e).
Proof.
  intros Hf Ha He. unfold SplitQualifiedEmailID, QualifyEmailID. rewrite split_first_app by done.
  by rewrite !(proj2 (String.eqb_neq _ _)) by done.
Qed.

(** ** Batches *)
Lemma chunks_concat {A} n (l : list A) : forall fuel, (0 < n)%nat -> (length l <= fuel)%nat -> concat (chunks fuel n l) = l.
Proof.
  intros fuel Hn. revert l. induction fuel as [|fuel IH]; intros l Hl; [by destruct l; cbn in Hl; [|lia]|].
  destruct l as [|x l]; [done|]. cbn [chunks concat]. rewrite IH; [apply take_drop|]. rewrite length_drop. cbn in *. lia.
Qed.

Lemma batches_concat {A} n (l : list A) : (0 < n)%nat -> concat (batches n l) = l.
Proof. intros Hn. by apply chunks_concat. Qed.

Lemma batches_size {A} n (l : list A) : forall fuel, Forall (fun b => length b <= n)%nat (chunks fuel n l).
Proof.
  intros fuel. revert l. induction fuel as [|fuel IH]; intros [|x l]; cbn [chunks]; constructor; [rewrite length_take; lia | apply IH].
Qed.

Lemma batches_elem {A} n (l b : list A) x : (0 < n)%nat -> b ∈ batches n l -> x ∈ b -> x ∈ l.
Proof. intros Hn Hb Hx. rewrite <-(batches_concat n l) by done. apply list_elem_of_In, in_concat. exists b. by rewrite <-!list_elem_of_In. Qed.
