(* ===== verification/Retention.v ===== *)
(** * Retention ([internal/retention/service.go], [enforcement.go], [worker.go],
      [handlers.go])

    Policies that destroy or archive mail older than so many days.  The
    enforcer pages through the mail before the cutoff with an
    [EmailOperator] and destroys it in batches, moving it to the cold tier
    first for archive policies; [OperatorLaws] is what it needs of the
    operator, and [Ref] an operator that has them.  [JMAPEnforcer] is the one
    the worker is wired with.  The world [W] is the mail server and the
    network: an operation may fail in any way.  The database role is the one that sees all tenants. *)

From S2P Require Import Prelude Text Table Calendar Breaker JmapProxy JmapClient.

Local Open Scope Z_scope.
Local Open Scope go_scope.

Record Policy := mkPolicy {
  ID : string; TenantID : string; PolicyType : string; RetentionDays : Z; AppliesTo : string; TargetRef : string; Enabled : bool;
  CreatedAt : Z; UpdatedAt : Z;
}.

Record EnforcementRun := mkRun {
  run_ID : string; PolicyID : string; EmailsProcessed : Z; EmailsDeleted : Z; EmailsArchived : Z; StartedAt : Z; CompletedAt : option Z;
  run_Error : string; Notes : string;
}.

(** ** Policies *)
Inductive rerror := Invalid (why : string) | ErrNoPool | ErrStore.

Definition validatePolicy (p : Policy) : result rerror unit :=
  if String.eqb (TenantID p) "" then Err (Invalid "tenant_id required")
  else if negb (String.eqb (PolicyType p) "archive") && negb (String.eqb (PolicyType p) "delete") then Err (Invalid "policy_type must be archive|delete")
  else if RetentionDays p <=? 0 then Err (Invalid "retention_days must be > 0")
  else if String.eqb (AppliesTo p) "all" || String.eqb (AppliesTo p) "mailbox" || String.eqb (AppliesTo p) "label" then Ok tt
  else Err (Invalid "applies_to must be all|mailbox|label").

(** Rows of [retention_policies]; [retention_days] is a 32-bit column. *)
Record DB := mkDB { tenants : list (string * string); policies : list Policy; runs : list (string * EnforcementRun) }.
Definition with_policies (x : list Policy) (s : DB) : DB := mkDB (tenants s) x (runs s).
Definition with_runs (x : list (string * EnforcementRun)) (s : DB) : DB := mkDB (tenants s) (policies s) x.

Definition set_stamp (id : string) (created updated : Z) (p : Policy) : Policy :=
  mkPolicy id (TenantID p) (PolicyType p) (RetentionDays p) (AppliesTo p) (TargetRef p) (Enabled p) created updated.

Definition CreatePolicy (d : delivery) (dbnow : Z) (id : string) (pool : bool) (p : Policy) (s : DB) : result rerror Policy * DB :=
  match validatePolicy p with
  | Err e => (Err e, s)
  | Ok _ =>
      if negb pool then (Err ErrNoPool, s)
      else BeginFunc ErrStore d (fun s =>
        if negb (bool_decide (TenantID p ∈ (tenants s).*1)) || (2 ^ 31 <=? RetentionDays p) || bool_decide (id ∈ ID <$> policies s) then Err ErrStore
        else let p := set_stamp id dbnow dbnow p in Ok (p, with_policies (policies s ++ [p]) s)) s
  end.

Definition UpdatePolicy (d : delivery) (dbnow : Z) (pool : bool) (p : Policy) (s : DB) : result rerror Policy * DB :=
  match validatePolicy p with
  | Err e => (Err e, s)
  | Ok _ =>
      if negb pool then (Err ErrNoPool, s)
      else BeginFunc ErrStore d (fun s =>
        if 2 ^ 31 <=? RetentionDays p then Err ErrStore
        else Ok (p, with_policies (update (fun q => String.eqb (ID q) (ID p) && String.eqb (TenantID q) (TenantID p))
               (fun q => mkPolicy (ID q) (TenantID q) (PolicyType p) (RetentionDays p) (AppliesTo p) (TargetRef p) (Enabled p) (CreatedAt q) dbnow)
               (policies s)) s)) s
  end.

Definition DeletePolicy (d : delivery) (pool : bool) (tenantID id : string) (s : DB) : result rerror unit * DB :=
  if negb pool then (Err ErrNoPool, s)
  else BeginFunc ErrStore d (fun s =>
    Ok (tt, mkDB (tenants s) (List.filter (fun q => negb (String.eqb (ID q) id && String.eqb (TenantID q) tenantID)) (policies s))
              (List.filter (fun r => negb (existsb (fun q => String.eqb (ID q) id && String.eqb (TenantID q) tenantID) (policies s) && String.eqb (PolicyID r.2) id)) (runs s)))) s.

(** Rows are kept in order of creation. *)
Definition ListPolicies (d : delivery) (pool : bool) (tenantID : string) (s : DB) : result rerror (list Policy) :=
  if negb pool then Ok []
  else match d with
  | Delivered => Ok (List.filter (fun q => String.eqb (TenantID q) tenantID) (policies s))
  | _ => Err ErrStore
  end.

Definition ListActiveTenants (d : delivery) (pool : bool) (s : DB) : result rerror (list string) :=
  if negb pool then Ok []
  else match d with Delivered => Ok (List.filter (fun t => String.eqb t.2 "active") (tenants s)).*1 | _ => Err ErrStore end.

(** [newest] is [ORDER BY started_at DESC]. *)
Definition RecentEnforcementRuns (newest : list EnforcementRun -> list EnforcementRun) (d : delivery) (pool : bool) (tenantID : string) (limit : Z) (s : DB)
    : result rerror (list EnforcementRun) :=
  if negb pool || String.eqb tenantID "" then Ok []
  else
    let limit := if (limit <=? 0) || (200 <? limit) then 20 else limit in
    match d with
    | Delivered => Ok (take (Z.to_nat limit) (newest (List.filter (fun r => String.eqb r.1 tenantID) (runs s)).*2))
    | _ => Err ErrStore
    end.

(** ** Handlers: the tenant is the path's. *)
Inductive hresponse := Created (p : Policy) | Updated (p : Policy) | NoContent | Fail (status : Z).

Definition on_path (tenantID id : string) (p : Policy) : Policy :=
  mkPolicy id tenantID (PolicyType p) (RetentionDays p) (AppliesTo p) (TargetRef p) (Enabled p) (CreatedAt p) (UpdatedAt p).
Definition create_handler (ctxTenant pathTenant : string) (d : delivery) (dbnow : Z) (id : string) (body : option Policy) (s : DB) : hresponse * DB :=
  match body with
  | None => (Fail 400, s)
  | Some p =>
      let '(r, s) := CreatePolicy d dbnow id true (on_path pathTenant (ID p) p) s in
      (match r with Ok q => Created q | Err _ => Fail 400 end, s)
  end.
Definition update_handler (ctxTenant pathTenant policyId : string) (d : delivery) (dbnow : Z) (body : option Policy) (s : DB) : hresponse * DB :=
  match body with
  | None => (Fail 400, s)
  | Some p =>
      let '(r, s) := UpdatePolicy d dbnow true (on_path pathTenant policyId p) s in
      (match r with Ok q => Updated q | Err _ => Fail 400 end, s)
  end.
Definition delete_handler (ctxTenant pathTenant policyId : string) (d : delivery) (s : DB) : hresponse * DB :=
  let '(r, s) := DeletePolicy d true pathTenant policyId s in
  (match r with Ok _ => NoContent | Err _ => Fail 500 end, s).

(** ** Enforcement *)
Definition queryPageSize : Z := 500.
Definition destroyChunk : nat := 100.
Definition maxPages : nat := 5000.

Inductive eerror :=
| EMissing (what : string) | ENoTarget | ELabel | EUnknownScope | ENonPositive (days : Z) | EPages | EQuery | ENoProgress | EDestroy | ENoCold | EMove | EArchiveDestroy
| EUnsupported (typ : string).

(** The operator and the cold tier, over a world [W]. *)
Class EmailOperator (W : Type) := {
  op_Query : string -> string -> Z -> Z -> W -> result operror (list string) * W;
  op_Destroy : string -> list string -> W -> result operror unit * W;
}.
Definition mover (W : Type) := string -> list string -> W -> result operror Z * W.

Definition scopeMailbox (p : Policy) : result eerror string :=
  if String.eqb (AppliesTo p) "all" then Ok ""%string
  else if String.eqb (AppliesTo p) "mailbox" then (if blank (TargetRef p) then Err ENoTarget else Ok (TargetRef p))
  else if String.eqb (AppliesTo p) "label" then Err ELabel
  else Err EUnknownScope.

Definition sameIDSet (a b : list string) : bool := bool_decide ((list_to_set a : gset string) = list_to_set b).

(** [e.now().Add(-time.Duration(days) * 24 * time.Hour)]: durations wrap. *)
Definition cutoff (now days : Z) : Z := now + wrap64 (- days * 24 * Hour).

Section enforcer.
Context {W : Type} `{!EmailOperator W} (cold : option (mover W)) (dryRun : bool).

Fixpoint applyBatches (tenantID policyType : string) (bs : list (list string)) (deleted archived : Z) (w : W) : (Z * Z * option eerror) * W :=
  match bs with
  | [] => ((deleted, archived, None), w)
  | b :: bs =>
      if String.eqb policyType "delete" then
        let '(r, w) := op_Destroy tenantID b w in
        match r with
        | Err _ => ((deleted, archived, Some EDestroy), w)
        | Ok _ => applyBatches tenantID policyType bs (deleted + Z.of_nat (length b)) archived w
        end
      else if String.eqb policyType "archive" then
        match cold with
        | None => ((deleted, archived, Some ENoCold), w)
        | Some move =>
            let '(m, w) := move tenantID b w in
            match m with
            | Err _ => ((deleted, archived, Some EMove), w)
            | Ok _ =>
                let '(r, w) := op_Destroy tenantID b w in
                match r with
                | Err _ => ((deleted, archived, Some EArchiveDestroy), w)
                | Ok _ => applyBatches tenantID policyType bs deleted (archived + Z.of_nat (length b)) w
                end
            end
        end
      else ((deleted, archived, Some (EUnsupported policyType)), w)
  end.

(** The counts of a run: processed, deleted, archived. *)
Definition counts := (Z * Z * Z)%type.

(** [pages]: how many more pages the loop may read. *)
Fixpoint sweep (tenantID policyType mailbox : string) (cut : Z) (pages : nat) (prev : list string) (c : counts) (w : W) : (counts * option eerror) * W :=
  match pages with
  | O => ((c, Some EPages), w)
  | S pages =>
      let '(q, w) := op_Query tenantID mailbox cut queryPageSize w in
      match q with
      | Err _ => ((c, Some EQuery), w)
      | Ok [] => ((c, None), w)
      | Ok ids =>
          if negb dryRun && sameIDSet ids prev then ((c, Some ENoProgress), w)
          else
            let '(processed, deleted, archived) := c in
            let processed := processed + Z.of_nat (length ids) in
            if dryRun then ((processed, deleted, archived, None), w)
            else
              let '((del, arc, err), w) := applyBatches tenantID policyType (batches destroyChunk ids) 0 0 w in
              let c := (processed, deleted + del, archived + arc) in
              match err with
              | Some e => ((c, Some e), w)
              | None => sweep tenantID policyType mailbox cut pages ids c w
              end
      end
  end.

(** What a run does to the mail. *)
Definition enforce (now : Z) (tenantID : string) (p : Policy) (w : W) : (counts * option eerror) * W :=
  match scopeMailbox p with
  | Err e => ((0, 0, 0, Some e), w)
  | Ok mailbox =>
      if RetentionDays p <=? 0 then ((0, 0, 0, Some (ENonPositive (RetentionDays p))), w)
      else sweep tenantID (PolicyType p) mailbox (cutoff now (RetentionDays p)) maxPages [] (0, 0, 0) w
  end.

(** The books: the database, the two volume counters, the audit trail. *)
Record books := mkBooks { db : DB; m_deleted : Z; m_archived : Z; audit : list (string * string * counts * bool * option eerror) }.

(** Surroundings of a run: the clock at the start, the cutoff and the end, the
    id and time of the log row, the fates of its two statements and of the
    audit entry. *)
Record renv := mkREnv {
  e_start : Z; e_cut : Z; e_done : Z; e_id : string; e_db : Z; e_open : delivery; e_close : delivery; e_dbdone : Z; e_audit : bool; e_text : eerror -> string;
}.

Definition startLog (E : renv) (pool : bool) (tenantID policyID notes : string) (s : DB) : result rerror (string * Z) * DB :=
  if negb pool then (Ok (""%string, e_start E), s)
  else BeginFunc ErrStore (e_open E) (fun s =>
    if negb (bool_decide (policyID ∈ ID <$> policies s)) || negb (bool_decide (tenantID ∈ (tenants s).*1)) then Err ErrStore
    else Ok ((e_id E, e_db E), with_runs (runs s ++ [(tenantID, mkRun (e_id E) policyID 0 0 0 (e_db E) None "" notes)]) s)) s.

Definition updateLog (E : renv) (pool : bool) (tenantID : string) (r : EnforcementRun) (s : DB) : result rerror unit * DB :=
  if negb pool || String.eqb (run_ID r) "" then (Ok tt, s)
  else BeginFunc ErrStore (e_close E) (fun s =>
    if existsb (fun x => String.eqb (run_ID x.2) (run_ID r) && String.eqb x.1 tenantID) (runs s) then
      Ok (tt, with_runs (update (fun x => String.eqb (run_ID x.2) (run_ID r) && String.eqb x.1 tenantID)
        (fun x => (x.1, mkRun (run_ID x.2) (PolicyID x.2) (EmailsProcessed r) (EmailsDeleted r) (EmailsArchived r) (StartedAt x.2)
                          (Some (e_dbdone E)) (run_Error r) (if String.eqb (Notes r) "" then Notes x.2 else Notes r))) (runs s)) s)
    else Err ErrStore) s.

Definition complete (E : renv) (pool : bool) (tenantID : string) (p : Policy) (r : EnforcementRun) (c : counts) (err : option eerror) (b : books)
    : EnforcementRun * books :=
  let '(processed, deleted, archived) := c in
  let r := mkRun (run_ID r) (PolicyID r) processed deleted archived (StartedAt r) (Some (e_done E))
             (match err with Some e => e_text E e | None => ""%string end) (Notes r) in
  let '(_, s) := updateLog E pool tenantID r (db b) in
  let add := fun n => if dryRun then 0 else Z.max 0 n in
  (r, mkBooks s (m_deleted b + add deleted) (m_archived b + add archived)
        (if e_audit E then audit b ++ [(tenantID, ID p, c, dryRun, err)] else audit b)).

(** [wired]: an operator is set. *)
Definition EnforcePolicy (E : renv) (wired pool : bool) (tenantID : string) (p : Policy) (b : books) (w : W)
    : (option EnforcementRun * option eerror) * books * W :=
  if blank tenantID then ((None, Some (EMissing "tenantID")), b, w)
  else if negb wired then ((None, Some (EMissing "operator")), b, w)
  else
    let notes := if dryRun then "dry_run=true"%string else ""%string in
    let '(l, s) := startLog E pool tenantID (ID p) notes (db b) in
    let '(id, started) := match l with Ok x => x | Err _ => (""%string, e_start E) end in
    let b := mkBooks s (m_deleted b) (m_archived b) (audit b) in
    let '((c, err), w) := enforce (e_cut E) tenantID p w in
    let '(r, b) := complete E pool tenantID p (mkRun id (ID p) 0 0 0 started None "" notes) c err b in
    ((Some r, err), b, w).
End enforcer.

(** ** Evaluation and worker *)
Section worker.
Context {W : Type} `{!EmailOperator W} (cold : option (mover W)) (dryRun : bool).

(** Each enabled policy in turn; the result of each run is handed to [f]. *)
Fixpoint enforce_each {A} (f : option EnforcementRun -> option eerror -> A -> A) (Es : nat -> renv) (tenantID : string) (ps : list Policy)
    (a : A) (b : books) (w : W) : A * books * W :=
  match ps with
  | [] => (a, b, w)
  | p :: ps =>
      if negb (Enabled p) then enforce_each f Es tenantID ps a b w
      else
        let '((r, err), b, w) := EnforcePolicy cold dryRun (Es O) true true tenantID p b w in
        enforce_each f (fun i => Es (S i)) tenantID ps (f r err a) b w
  end.

(** [registered]: the worker has built its engine. *)
Definition EvaluateRetention (d : delivery) (Es : nat -> renv) (registered : bool) (tenantID : string) (b : books) (w : W)
    : result rerror (Z * list eerror) * books * W :=
  match ListPolicies d true tenantID (db b) with
  | Err e => (Err e, b, w)
  | Ok ps =>
      if negb registered then (Ok (Z.of_nat (length (List.filter Enabled ps)), []), b, w)
      else
        let '(out, b, w) := enforce_each (fun _ err acc => match err with Some e => (acc.1, acc.2 ++ [e]) | None => (acc.1 + 1, acc.2) end)
                              Es tenantID ps (0, []) b w in
        (Ok out, b, w)
  end.

Record snapshot := mkSnapshot { lastEvaluatedAt : Z; lastDeletedTotal : Z; lastArchivedTotal : Z; lastErrorsTotal : Z; evaluations : Z }.
Definition count_error (s : snapshot) : snapshot :=
  mkSnapshot (lastEvaluatedAt s) (lastDeletedTotal s) (lastArchivedTotal s) (lastErrorsTotal s + 1) (evaluations s).
Definition account_run (r : option EnforcementRun) (err : option eerror) (s : snapshot) : snapshot :=
  let s := mkSnapshot (lastEvaluatedAt s)
             (lastDeletedTotal s + match r with Some r => Z.max 0 (EmailsDeleted r) | None => 0 end)
             (lastArchivedTotal s + match r with Some r => Z.max 0 (EmailsArchived r) | None => 0 end)
             (lastErrorsTotal s) (evaluations s + 1) in
  match err with Some _ => count_error s | None => s end.

Definition evaluateTenant (d : delivery) (now : Z) (Es : nat -> renv) (tenantID : string) (s : snapshot) (b : books) (w : W) : snapshot * books * W :=
  match ListPolicies d true tenantID (db b) with
  | Err _ => (count_error s, b, w)
  | Ok ps =>
      let s := mkSnapshot (now / Second) (lastDeletedTotal s) (lastArchivedTotal s) (lastErrorsTotal s) (evaluations s) in
      enforce_each account_run Es tenantID ps s b w
  end.

Fixpoint each_tenant (Ds : nat -> delivery) (now : nat -> Z) (Es : nat -> nat -> renv) (ts : list string) (s : snapshot) (b : books) (w : W) : snapshot * books * W :=
  match ts with
  | [] => (s, b, w)
  | t :: ts =>
      let '(s, b, w) := evaluateTenant (Ds O) (now O) (Es O) t s b w in
      each_tenant (fun i => Ds (S i)) (fun i => now (S i)) (fun i => Es (S i)) ts s b w
  end.

(** [wired]: an operator has been set ([engineFor]). *)
Definition tick (d : delivery) (wired : bool) (Ds : nat -> delivery) (now : nat -> Z) (Es : nat -> nat -> renv) (s : snapshot) (b : books) (w : W)
    : snapshot * books * W :=
  if negb wired then (s, b, w)
  else match ListActiveTenants d true (db b) with
  | Err _ => (s, b, w)
  | Ok ts => each_tenant Ds now Es ts s b w
  end.
End worker.

(** ** What enforcement needs of the operator *)
Record message := mkMessage { received : Z; mailboxes : gset string }.

(** In scope of a query: received before [cut], in the mailbox if one is
    named. *)
Definition in_scope (mailbox : string) (cut : Z) (m : message) : Prop :=
  received m < cut /\ (mailbox <> ""%string -> mailbox ∈ mailboxes m).

(** [mail w t id]: the message [id] of tenant [t].  Other mail may change
    under the operations as long as nothing is lost. *)
Class OperatorLaws (W : Type) `{!EmailOperator W} := {
  mail : W -> string -> string -> option message;
  query_keeps t mb cut lim w t' id m : mail w t' id = Some m -> mail (op_Query t mb cut lim w).2 t' id = Some m;
  query_sound t mb cut lim w ids w' id : op_Query t mb cut lim w = (Ok ids, w') -> id ∈ ids -> exists m, mail w t id = Some m /\ in_scope mb cut m;
  query_done t mb cut lim w w' id m : 0 < lim -> op_Query t mb cut lim w = (Ok [], w') -> mail w' t id = Some m ->
    ~ in_scope mb (cut / Second * Second) m;
  destroy_keeps t ids w t' id m : mail w t' id = Some m -> t' <> t \/ id ∉ ids -> mail (op_Destroy t ids w).2 t' id = Some m;
}.

Definition moves_law {W} (mail : W -> string -> string -> option message) (cold_at : W -> string -> string -> Prop) (move : mover W) : Prop :=
  (forall t ids w t' id m, mail w t' id = Some m -> mail (move t ids w).2 t' id = Some m) /\
  (forall t ids w t' id, cold_at w t' id -> cold_at (move t ids w).2 t' id) /\
  (forall t ids w n w' id, move t ids w = (Ok n, w') -> id ∈ ids -> cold_at w' t id).

Section safety.
Context {W : Type} `{OL : OperatorLaws W} (cold : option (mover W)) (dryRun : bool).
Implicit Types (w : W) (P : W -> Prop).

(** Whatever the operations on [t]'s messages in [bs] keep, a batch run
    keeps. *)
Lemma applyBatches_keeps P t typ bs : forall del arc w,
  (forall b w, b ∈ bs -> P w -> P (op_Destroy t b w).2) -> (forall move b w, cold = Some move -> P w -> P (move t b w).2) ->
  P w -> P (applyBatches cold t typ bs del arc w).2.
Proof.
  induction bs as [|b bs IH]; intros del arc w Hd Hm Hp; cbn; [done|].
  assert (forall w, P w -> P (op_Destroy t b w).2) as Hb by (intros; apply Hd; [left | done]).
  assert (forall b w, b ∈ bs -> P w -> P (op_Destroy t b w).2) as Hbs by (intros; apply Hd; [by right | done]).
  destruct (String.eqb typ "delete").
  { specialize (Hb w Hp). destruct (op_Destroy t b w) as [[[]|e] w1]; cbn in *; [by apply IH | done]. }
  destruct (String.eqb typ "archive"); [|done]. destruct cold as [move|] eqn:Ec; [|done].
  pose proof (Hm move b w eq_refl Hp) as H1. destruct (move t b w) as [[k|e] w1]; cbn in *; [|done].
  specialize (Hb w1 H1). destruct (op_Destroy t b w1) as [[[]|e] w2]; cbn in *; [by apply IH | done].
Qed.

(** The ids a sweep destroys are those some query of it answered. *)
Lemma sweep_keeps P t typ mb cut pages : forall prev c w,
  (forall w, P w -> P (op_Query t mb cut queryPageSize w).2) ->
  (forall w0 ids w1, P w0 -> op_Query t mb cut queryPageSize w0 = (Ok ids, w1) -> dryRun = false ->
     (forall b w, (forall id, id ∈ b -> id ∈ ids) -> P w -> P (op_Destroy t b w).2)) ->
  (forall move b w, cold = Some move -> P w -> P (move t b w).2) ->
  P w -> P (sweep cold dryRun t typ mb cut pages prev c w).2.
Proof.
  induction pages as [|pages IH]; intros prev c w Hq Hd Hm Hp; cbn [sweep]; [done|]. specialize (Hq w Hp) as Hq1. specialize (Hd w) as Hd1.
  destruct (op_Query t mb cut queryPageSize w) as [[[|i ids]|e] w1] eqn:Eq; [done | | done]. cbn [snd] in Hq1.
  destruct (negb dryRun && _); [done|]. destruct c as [[processed deleted] archived]. destruct dryRun eqn:Edry; [done|].
  pose proof (applyBatches_keeps P t typ (batches destroyChunk (i :: ids)) 0 0 w1) as Hb.
  destruct (applyBatches cold t typ _ 0 0 w1) as [[[del arc] err] w2]. cbn [snd] in Hb.
  assert (P w2) as Hw2.
  { apply Hb; [|done|done]. intros b w' Hin. apply (Hd1 _ _ Hp eq_refl eq_refl). intros id Hid.
    eapply batches_elem; [|done..]. vm_compute. lia. }
  destruct err; [exact Hw2|]. apply IH; [exact Hq | exact Hd | exact Hm | exact Hw2].
Qed.

(** Up to 106751 days a cutoff is in the past where it belongs. *)
Lemma cutoff_exact now days : 0 < days <= 106751 -> cutoff now days = now - days * (24 * Hour).
Proof. intros Hd. unfold cutoff. rewrite wrap64_id; unfold int64_min, int64_max, Hour, Minute, Second, Millisecond in *; lia. Qed.

(** [m] is in the mailboxes [p] is about and was received before [cut]. *)
Definition covers (cut : Z) (p : Policy) (m : message) : Prop :=
  (AppliesTo p = "all"%string \/ (AppliesTo p = "mailbox"%string /\ TargetRef p ∈ mailboxes m)) /\ received m < cut.

(** [p] covers [m] at [now]. *)
Definition covered (now : Z) (p : Policy) (m : message) : Prop := 0 < RetentionDays p /\ covers (now - RetentionDays p * (24 * Hour)) p m.

Lemma scope_covers p mb cut m : scopeMailbox p = Ok mb -> in_scope mb cut m <-> covers cut p m.
Proof.
  unfold scopeMailbox, covers, in_scope. destruct (String.eqb_spec (AppliesTo p) "all") as [Ha|Ha]; [intros [= <-]; intuition|].
  destruct (String.eqb_spec (AppliesTo p) "mailbox") as [Hm|Hm]; [|by destruct (String.eqb _ _)]. destruct (blank (TargetRef p)) eqn:Eb; [done|].
  intros [= <-]. split; [intros [Hr Hin]; split; [right; split; [done|]; apply Hin; intros Heq; by rewrite Heq in Eb | done]|].
  intros [[?|[_ Hin]] Hr]; [done | by split].
Qed.

Lemma enforce_spares now t p w t' id m : RetentionDays p <= 106751 -> (forall move, cold = Some move -> forall ids w, mail w t' id = Some m -> mail (move t ids w).2 t' id = Some m) ->
  mail w t' id = Some m -> t' <> t \/ dryRun = true \/ ~ covered now p m -> mail (enforce cold dryRun now t p w).2 t' id = Some m.
Proof.
  intros Hdays Hmove Hw Hor. unfold enforce. destruct (scopeMailbox p) as [mb|e] eqn:Es; [|done]. destruct (Z.leb_spec (RetentionDays p) 0); [done|].
  rewrite cutoff_exact by lia. apply (sweep_keeps (fun w => mail w t' id = Some m)).
  - intros w0 H0. by apply query_keeps.
  - intros w0 ids w1 H0 Hq Hdry b w2 Hb H2. destruct Hor as [Hne|[Hd|Hn]]; [apply destroy_keeps; [done | by left] | congruence |].
    destruct (decide (t' = t)) as [->|Hne]; [|apply destroy_keeps; [done | by left]]. apply destroy_keeps; [done|]. right. intros Hin.
    destruct (query_sound _ _ _ _ _ _ _ _ Hq (Hb _ Hin)) as (m0 & Hm0 & Hsc). simplify_eq. apply Hn. split; [lia | by eapply scope_covers].
  - intros move b w0 Hc H0. by eapply Hmove.
  - done.
Qed.

Lemma updateLog_policies E pool t r s : policies (updateLog E pool t r s).2 = policies s /\ tenants (updateLog E pool t r s).2 = tenants s.
Proof.
  unfold updateLog. case_match; [done|]. apply (BeginFunc_ind (fun s' => policies s' = policies s /\ tenants s' = tenants s)); [done|].
  intros a s'. case_match; [|done]. by intros [= <- <-].
Qed.

Lemma startLog_policies E pool t pid notes s : policies (startLog E pool t pid notes s).2 = policies s /\ tenants (startLog E pool t pid notes s).2 = tenants s.
Proof.
  unfold startLog. case_match; [done|]. apply (BeginFunc_ind (fun s' => policies s' = policies s /\ tenants s' = tenants s)); [done|].
  intros a s'. case_match; [done|]. by intros [= <- <-].
Qed.

(** A run leaves the policies alone, and does to the mail what [enforce]
    does, or nothing. *)
Lemma EnforcePolicy_run E t p b w x b' w' : EnforcePolicy cold dryRun E true true t p b w = (x, b', w') ->
  policies (db b') = policies (db b) /\ (w' = w \/ w' = (enforce cold dryRun (e_cut E) t p w).2).
Proof.
  unfold EnforcePolicy. case_match; [by intros [= <- <- <-]; auto|]. cbn [negb].
  pose proof (startLog_policies E true t (ID p) (if dryRun then "dry_run=true"%string else ""%string) (db b)) as Hs.
  destruct (startLog _ _ _ _ _ _) as [l s]. cbn in Hs. destruct (match l with Ok _ => _ | Err _ => _ end) as [id started].
  destruct (enforce cold dryRun (e_cut E) t p w) as [[c err] w1]. unfold complete. destruct c as [[processed deleted] archived].
  set (r := mkRun _ _ _ _ _ _ _ _ _). pose proof (updateLog_policies E true t r s) as Hu.
  cbn [db]. destruct (updateLog E true t r s) as [o s1]. cbn in Hu. intros [= <- <- <-]. cbn. split; [|by right]. destruct Hs, Hu. congruence.
Qed.

Section tick_spares.
Context (t' id : string) (m : message).
Context (Hmove : forall move, cold = Some move -> forall t ids w, mail w t' id = Some m -> mail (move t ids w).2 t' id = Some m).

(** Policies under which [m] is safe at the instants of [Es]. *)
Definition spared_by (Es : nat -> renv) (p : Policy) : Prop :=
  Enabled p = true -> RetentionDays p <= 106751 /\ (TenantID p = t' -> forall i, dryRun = true \/ ~ covered (e_cut (Es i)) p m).

Lemma enforce_each_spares {A} (f : option EnforcementRun -> option eerror -> A -> A) t : forall ps Es a b w a' b' w',
  Forall (fun p => TenantID p = t /\ spared_by Es p) ps -> mail w t' id = Some m ->
  enforce_each cold dryRun f Es t ps a b w = (a', b', w') -> policies (db b') = policies (db b) /\ mail w' t' id = Some m.
Proof using Hmove.
  induction ps as [|p ps IH]; intros Es a b w a' b' w' Hps Hw; cbn; [by intros [= <- <- <-]|].
  inversion Hps as [|? ? [Ht Hsp] Hrest]; subst. destruct (Enabled p) eqn:Een; cbn [negb]; [|by apply IH].
  destruct (EnforcePolicy cold dryRun (Es O) true true (TenantID p) p b w) as [[[r err] b1] w1] eqn:Er.
  apply EnforcePolicy_run in Er as [Hp Hw1]. destruct (Hsp Een) as [Hdays Hcov].
  assert (mail w1 t' id = Some m) as Hm1.
  { destruct Hw1 as [->| ->]; [done|]. apply enforce_spares; [done | intros; by eapply Hmove | done |].
    destruct (decide (t' = TenantID p)) as [Heq|Hne]; [right; by apply (Hcov (eq_sym Heq)) | by left]. }
  intros Hrun. apply IH in Hrun as [Hp' Hm']; [split; [congruence | done] | | done].
  eapply Forall_impl; [exact Hrest|]. intros q [Hq Hsq]. split; [done|]. intros Hen. destruct (Hsq Hen) as [Hd Hc]. split; [done|].
  intros Htq i. by apply (Hc Htq (S i)).
Qed.

Lemma each_tenant_spares : forall ts Ds now Es s b w s' b' w',
  (forall i, Forall (spared_by (Es i)) (policies (db b))) -> mail w t' id = Some m ->
  each_tenant cold dryRun Ds now Es ts s b w = (s', b', w') -> mail w' t' id = Some m.
Proof using Hmove.
  induction ts as [|t ts IH]; intros Ds now Es s b w s' b' w' Hps Hw; cbn; [by intros [= <- <- <-]|].
  destruct (evaluateTenant cold dryRun (Ds O) (now O) (Es O) t s b w) as [[s1 b1] w1] eqn:Et.
  assert (policies (db b1) = policies (db b) /\ mail w1 t' id = Some m) as [Hp1 Hm1].
  { unfold evaluateTenant, ListPolicies in Et. cbn [negb] in Et. destruct (Ds O); simplify_eq; [|done..].
    eapply enforce_each_spares in Et; [done | | done]. apply Forall_forall. intros p [Hin Hteq]%elem_of_filterb. breflect.
    split; [done|]. pose proof (Hps O) as H0. rewrite Forall_forall in H0. by apply H0. }
  apply IH; [|done]. intros i. rewrite Hp1. apply (Hps (S i)).
Qed.
End tick_spares.

(** C9: A sweep of the worker over all tenants destroys nothing that no
    policy covers: a message survives every tick, whatever fails in it, unless
    the worker is live and an enabled policy of its own tenant has it in scope
    and it is older than the policy's days at the moment of the run (policies
    of at most 106,751 days). *)
Theorem retention_spares_recent d wired Ds now Es s b w s' b' w' t id m :
  (forall move, cold = Some move -> forall t0 ids w0, mail w0 t id = Some m -> mail (move t0 ids w0).2 t id = Some m) ->
  mail w t id = Some m ->
  (forall p, p ∈ policies (db b) -> Enabled p = true ->
     RetentionDays p <= 106751 /\ (TenantID p = t -> forall i j, dryRun = true \/ ~ covered (e_cut (Es i j)) p m)) ->
  tick cold dryRun d wired Ds now Es s b w = (s', b', w') -> mail w' t id = Some m.
Proof.
  intros Hmove Hw Hps. unfold tick. case_match; [by intros [= <- <- <-]|].
  destruct (ListActiveTenants d true (db b)) as [ts|e]; [|by intros [= <- <- <-]].
  apply (each_tenant_spares t id m Hmove); [|done]. intros i. apply Forall_forall. intros p Hp Hen. destruct (Hps p Hp Hen) as [Hd Hc].
  split; [done|]. intros Ht j. by apply Hc.
Qed.
End safety.

(** ** The operator the worker is wired with ([worker.go]) *)
Module JMAPEnforcer.

(** [strings.TrimRight(s, "/")]. *)
Fixpoint drop_slashes (l : list Ascii.ascii) : list Ascii.ascii :=
  match l with c :: r => if Ascii.eqb c slash then drop_slashes r else l | [] => [] end.
Definition TrimRight_slash (s : string) : string := on_ascii (fun l => reverse (drop_slashes (reverse l))) s.

(** [json.Unmarshal] into a string. *)
Definition raw_string (j : json) : option string := match j with JNull => Some ""%string | JString s => Some s | _ => None end.

Fixpoint jmapMethodArgs (responses : list (list json)) (expected callID : string) : result operror json :=
  match responses with
  | [] => Err (OpResponse "missing response")
  | (name :: args :: id :: _) :: rest =>
      if negb (bool_decide (raw_string id = Some callID)) then jmapMethodArgs rest expected callID
      else match raw_string name with
      | None => Err (OpResponse "decode response method")
      | Some name =>
          if String.eqb name "error" then Err (OpResponse (expected +:+ " failed: " +:+ as_string (field "type" (as_object args))))
          else if negb (String.eqb name expected) then Err (OpResponse "unexpected response method")
          else Ok args
      end
  | _ :: rest => jmapMethodArgs rest expected callID
  end.

(** The [ids] of [Email/query], the [notDestroyed] of [Email/set]. *)
Definition query_ids (args : json) : option (list string) :=
  match args with
  | JNull => Some []
  | JObject m => match field "ids" m with JNull => Some [] | JArray l => mapM raw_string l | _ => None end
  | _ => None
  end.
Definition set_error (j : json) : option string :=
  match j with
  | JNull => Some ""%string
  | JObject m => t ← raw_string (field "type" m); _ ← raw_string (field "description" m); Some t
  | _ => None
  end.
Definition not_destroyed (args : json) : option (list (string * string)) :=
  match args with
  | JNull => Some []
  | JObject m =>
      match field "notDestroyed" m with
      | JNull => Some []
      | JObject es => mapM (fun e => (e.1,.) <$> set_error e.2) es
      | _ => None
      end
  | _ => None
  end.

(** Of several hard failures the one with the least id is reported. *)
Definition checkJMAPDestroy (responses : list (list json)) (callID : string) : result operror unit :=
  match jmapMethodArgs responses "Email/set" callID with
  | Err e => Err e
  | Ok args =>
      match not_destroyed args with
      | None => Err (OpResponse "decode Email/set args")
      | Some es =>
          match sort_strings (List.filter (fun e => negb (String.eqb e.2 "notFound")) es).*1 with
          | [] => Ok tt
          | id :: _ => Err (OpResponse ("destroy " +:+ id +:+ " failed"))
          end
      end
  end.

Definition query_body (tenantID mailboxID : string) (olderThan limit : Z) : JmapRequest :=
  mkJmapRequest capabilities
    [("Email/query"%string,
      JObject [("accountId", JString tenantID);
               ("filter", JObject (("before", JString (utcDate olderThan)) :: (if String.eqb mailboxID "" then [] else [("inMailbox", JString mailboxID)])));
               ("sort", JArray [JObject [("property", JString "receivedAt"); ("isAscending", JBool true)]]);
               ("limit", JNumber limit)]%string, "c1"%string)].
Definition destroy_body (tenantID : string) (batch : list string) : JmapRequest :=
  mkJmapRequest capabilities [("Email/set"%string, JObject [("accountId", JString tenantID); ("destroy", JArray (JString <$> batch))]%string, "c1"%string)].

Record config := mkConfig { Auth : string; FabricURL : string; FabricAuth : string }.

Section ops.
Context {W : Type}.
(** The shard of a tenant ([GetTenantShard]; [None] when it fails), one HTTP
    POST, and what [json.Unmarshal] makes of a body. *)
Context (shards : string -> W -> option string) (decode : string -> option JmapResponse).
Context (post : string -> header -> JmapRequest -> W -> answer * W) (place : string -> header -> string -> list string -> W -> answer * W).
Context (cfg : config).

Definition headers (auth : string) : header :=
  let h : header := {["Content-Type"%string := "application/json"%string]} in
  if String.eqb auth "" then h else <["Authorization"%string := auth]> h.

Definition shardURL (tenantID : string) (w : W) : option string := (fun url => TrimRight_slash url +:+ "/jmap/api") <$> shards tenantID w.

Definition maxBody : nat := Z.to_nat (4 * 1024 * 1024).
Definition jmap (url : string) (payload : JmapRequest) (w : W) : result operror JmapResponse * W :=
  let '(a, w) := post url (headers (Auth cfg)) payload w in
  (match a with
   | Broken e => Err (OpDispatch (ShardFailed e))
   | Response code b =>
       if 300 <=? code then Err (OpDispatch (Refused code ""))
       else match decode (String.substring 0 maxBody b) with Some r => Ok r | None => Err (OpDispatch BadJSON) end
   end, w).

Definition QueryEmailsByDate (tenantID mailboxID : string) (olderThan limit : Z) (w : W) : result operror (list string) * W :=
  if blank tenantID then (Err OpMissing, w)
  else
    let limit := if limit <=? 0 then queryPageSize else limit in
    match shardURL tenantID w with
    | None => (Err OpAccounts, w)
    | Some url =>
        let '(r, w) := jmap url (query_body tenantID mailboxID olderThan limit) w in
        (match r with
         | Err e => Err e
         | Ok resp =>
             match jmapMethodArgs (MethodResponses resp) "Email/query" "c1" with
             | Err e => Err e
             | Ok args => match query_ids args with Some ids => Ok ids | None => Err (OpResponse "decode Email/query args") end
             end
         end, w)
    end.

Fixpoint destroy_each (url tenantID : string) (bs : list (list string)) (w : W) : result operror unit * W :=
  match bs with
  | [] => (Ok tt, w)
  | b :: bs =>
      let '(r, w) := jmap url (destroy_body tenantID b) w in
      match r with
      | Err e => (Err e, w)
      | Ok resp => match checkJMAPDestroy (MethodResponses resp) "c1" with Err e => (Err e, w) | Ok _ => destroy_each url tenantID bs w end
      end
  end.
Definition DestroyEmails (tenantID : string) (ids : list string) (w : W) : result operror unit * W :=
  if blank tenantID then (Err OpMissing, w)
  else match ids with
  | [] => (Ok tt, w)
  | _ => match shardURL tenantID w with None => (Err OpAccounts, w) | Some url => destroy_each url tenantID (batches destroyChunk ids) w end
  end.

Fixpoint move_each (tenantID : string) (bs : list (list string)) (count : Z) (w : W) : result operror Z * W :=
  match bs with
  | [] => (Ok count, w)
  | b :: bs =>
      let '(a, w) := place (TrimRight_slash (FabricURL cfg) +:+ "/placements/move") (headers (FabricAuth cfg)) tenantID b w in
      match a with
      | Broken e => (Err (OpDispatch (ShardFailed e)), w)
      | Response code _ => if 300 <=? code then (Err (OpDispatch (Refused code "")), w) else move_each tenantID bs (count + Z.of_nat (length b)) w
      end
  end.
Definition MoveToCold : mover W := fun tenantID ids w =>
  if String.eqb (FabricURL cfg) "" then (Err (OpResponse "fabric url not configured"), w) else move_each tenantID (batches destroyChunk ids) 0 w.

Definition operator : EmailOperator W := {| op_Query := QueryEmailsByDate; op_Destroy := DestroyEmails |}.

(** *** On a mail server that keeps to JMAP *)
Context (mail : W -> string -> string -> option message).

(** A response's ids; [None] where the client sees a failure. *)
Definition reads_ids (a : answer) (ids : list string) : Prop :=
  exists code b resp args, a = Response code b /\ code < 300 /\ decode (String.substring 0 maxBody b) = Some resp /\
    jmapMethodArgs (MethodResponses resp) "Email/query" "c1" = Ok args /\ query_ids args = Some ids.

(** [Email/query] answers ids of the account that pass the filter, and none
    only when none does; [Email/set] destroys at most the ids it is given
    (RFC 8620, 5.3, 5.5; RFC 8621, 4.4).  Dates carry whole seconds. *)
Record server_laws : Prop := {
  server_query_keeps url h t mb cut lim w t' id m :
    mail w t' id = Some m -> mail (post url h (query_body t mb cut lim) w).2 t' id = Some m;
  server_query_sound url h t mb cut lim w a w' ids id : shardURL t w = Some url ->
    post url h (query_body t mb cut lim) w = (a, w') -> reads_ids a ids -> id ∈ ids ->
    exists m, mail w t id = Some m /\ in_scope mb (cut / Second * Second) m;
  server_query_done url h t mb cut lim w a w' id m : shardURL t w = Some url -> 0 < lim ->
    post url h (query_body t mb cut lim) w = (a, w') -> reads_ids a [] -> mail w' t id = Some m -> ~ in_scope mb (cut / Second * Second) m;
  server_destroy_keeps url h t ids w t' id m :
    mail w t' id = Some m -> t' <> t \/ id ∉ ids -> mail (post url h (destroy_body t ids) w).2 t' id = Some m;
}.

Lemma jmap_world url payload w : (jmap url payload w).2 = (post url (headers (Auth cfg)) payload w).2.
Proof. unfold jmap. by destruct (post _ _ _ _). Qed.

(** A query that succeeds has posted once and read its ids. *)
Lemma query_inv t mb cut lim w ids w' : QueryEmailsByDate t mb cut lim w = (Ok ids, w') ->
  exists url a, shardURL t w = Some url /\ reads_ids a ids /\
    post url (headers (Auth cfg)) (query_body t mb cut (if lim <=? 0 then queryPageSize else lim)) w = (a, w').
Proof.
  unfold QueryEmailsByDate, jmap. destruct (blank t); [done|]. destruct (shardURL t w) as [url|]; [|done].
  destruct (post _ _ _ w) as [a w1] eqn:Ep. destruct a as [e|code b]; [done|].
  destruct (Z.leb_spec 300 code); [done|]. destruct (decode _) as [resp|] eqn:Ed; [|done].
  destruct (jmapMethodArgs _ _ _) as [args|e] eqn:Ea; [|done]. destruct (query_ids args) as [l|] eqn:El; [|done].
  intros [= -> <-]. exists url, (Response code b). split_and!; [done | | done]. exists code, b, resp, args. done.
Qed.

Lemma destroy_each_keeps (SL : server_laws) url t t' id m bs : forall w,
  mail w t' id = Some m -> t' <> t \/ Forall (fun b => id ∉ b) bs -> mail (destroy_each url t bs w).2 t' id = Some m.
Proof.
  induction bs as [|b bs IH]; intros w Hm Hor; [done|]. cbn [destroy_each].
  assert (mail (jmap url (destroy_body t b) w).2 t' id = Some m) as H1.
  { rewrite jmap_world. apply server_destroy_keeps; [done | done |]. destruct Hor as [|Hf]; [by left | right; by inversion Hf]. }
  destruct (jmap _ _ w) as [[resp|e] w1]; [|done]. case_match; [|done]. apply IH; [done|].
  destruct Hor as [|Hf]; [by left | right; by inversion Hf].
Qed.

Lemma jmap_query_keeps (SL : server_laws) t mb cut lim w t' id m : mail w t' id = Some m -> mail (QueryEmailsByDate t mb cut lim w).2 t' id = Some m.
Proof.
  intros Hm. unfold QueryEmailsByDate. case_match; [done|]. destruct (shardURL t w) as [url|]; [|done].
  pose proof (jmap_world url (query_body t mb cut (if lim <=? 0 then queryPageSize else lim)) w) as Hw. destruct (jmap _ _ w) as [r w1]. cbn in *.
  rewrite Hw. by apply server_query_keeps.
Qed.

Lemma jmap_query_sound (SL : server_laws) t mb cut lim w ids w' id : QueryEmailsByDate t mb cut lim w = (Ok ids, w') -> id ∈ ids ->
  exists m, mail w t id = Some m /\ in_scope mb cut m.
Proof.
  intros (url & a & Hu & Hr & Hp)%query_inv Hin. destruct (server_query_sound SL _ _ _ _ _ _ _ _ _ _ _ Hu Hp Hr Hin) as (m & Hm & Hb & Hs).
  exists m. split; [done|]. split; [|done]. pose proof (Z.mul_div_le cut Second ltac:(done)). lia.
Qed.

Lemma jmap_query_done (SL : server_laws) t mb cut lim w w' id m : 0 < lim -> QueryEmailsByDate t mb cut lim w = (Ok [], w') -> mail w' t id = Some m ->
  ~ in_scope mb (cut / Second * Second) m.
Proof.
  intros Hl (url & a & Hu & Hr & Hp)%query_inv Hm. rewrite (proj2 (Z.leb_gt lim 0)) in Hp by lia. by eapply server_query_done.
Qed.

Lemma jmap_destroy_keeps (SL : server_laws) t ids w t' id m : mail w t' id = Some m -> t' <> t \/ id ∉ ids -> mail (DestroyEmails t ids w).2 t' id = Some m.
Proof.
  intros Hm Hor. unfold DestroyEmails. case_match; [done|]. destruct ids as [|i ids]; [done|]. destruct (shardURL t w) as [url|]; [|done].
  apply destroy_each_keeps; [done | done |]. destruct Hor as [|Hn]; [by left | right]. apply Forall_forall. intros b Hb Hin. apply Hn.
  eapply batches_elem; [|done..]. vm_compute. lia.
Qed.

(** The operator is what enforcement needs. *)
Definition laws (SL : server_laws) : @OperatorLaws W operator :=
  @Build_OperatorLaws W operator mail (jmap_query_keeps SL) (jmap_query_sound SL) (jmap_query_done SL) (jmap_destroy_keeps SL).
End ops.

(** As [main.go] builds it, no request to Stalwart carries an
    [Authorization]. *)
Theorem retention_is_unauthenticated {W} decode post fabric fabricAuth url payload (w : W) :
  jmap decode post (mkConfig "" fabric fabricAuth) url payload w
  = jmap decode (fun url h payload => post url (delete "Authorization"%string h) payload) (mkConfig "" fabric fabricAuth) url payload w.
Proof. unfold jmap. by rewrite delete_id by done. Qed.
End JMAPEnforcer.

(** ** What a finished run has done *)
Section finished.
Context {W : Type} `{OL : OperatorLaws W} (cold : option (mover W)).
Implicit Types w : W.

Lemma sweep_clears t typ mb cut pages : forall prev c w c' w' id m, sweep cold false t typ mb cut pages prev c w = ((c', None), w') ->
  mail w' t id = Some m -> ~ in_scope mb (cut / Second * Second) m.
Proof.
  induction pages as [|pages IH]; intros prev c w c' w' id m; cbn [sweep]; [done|].
  destruct (op_Query t mb cut queryPageSize w) as [[[|i ids]|e] w1] eqn:Eq; [|destruct (negb false && _); [done|] | done].
  { intros [= <- <-] Hm. eapply query_done; [|exact Eq | exact Hm]. done. }
  destruct c as [[processed deleted] archived]. destruct (applyBatches cold t typ _ 0 0 w1) as [[[del arc] [e|]] w2]; [done|]. apply IH.
Qed.

(** A live run that reports no error has left nothing behind: no message
    of the tenant that the policy covers, to the second, is still in the
    mailbox. *)
Theorem enforcement_is_complete now t p w c w' id m :
  RetentionDays p <= 106751 -> enforce cold false now t p w = ((c, None), w') -> mail w' t id = Some m ->
  ~ covers ((now - RetentionDays p * (24 * Hour)) / Second * Second) p m.
Proof.
  intros Hd. unfold enforce. destruct (scopeMailbox p) as [mb|e] eqn:Es; [|done]. destruct (Z.leb_spec (RetentionDays p) 0); [done|].
  rewrite cutoff_exact by lia. intros Hrun Hm Hc. eapply sweep_clears; [exact Hrun | exact Hm | by eapply scope_covers].
Qed.

Section archive.
Context (cold_at : W -> string -> string -> Prop).

(** Still in the mailbox, or in the cold tier. *)
Definition preserved (t id : string) (m : message) (w : W) : Prop := mail w t id = Some m \/ cold_at w t id.

Context (Hq : forall t mb cut lim w t' id, cold_at w t' id -> cold_at (op_Query t mb cut lim w).2 t' id).
Context (Hd : forall t ids w t' id, cold_at w t' id -> cold_at (op_Destroy t ids w).2 t' id).
Context (Hm : forall move, cold = Some move -> moves_law mail cold_at move).

Lemma archive_batches_preserve t' id m t bs : forall del arc w, preserved t' id m w -> preserved t' id m (applyBatches cold t "archive" bs del arc w).2.
Proof using Hd Hm.
  induction bs as [|b bs IH]; intros del arc w Hp; cbn; [done|]. destruct cold as [move|] eqn:Ec; [|done].
  destruct (Hm move eq_refl) as (Hkeep & Hstay & Hcold). specialize (Hkeep t b w t' id m). specialize (Hstay t b w t' id). specialize (Hcold t b w).
  destruct (move t b w) as [[k|e] w1] eqn:Em; cbn in *; [|destruct Hp; [left; auto | right; auto]].
  assert (preserved t' id m (op_Destroy t b w1).2) as H2.
  { destruct Hp as [Hp|Hp]; [|right; auto]. destruct (decide (t' = t /\ id ∈ b)) as [[-> Hin]|Hn].
    - right. apply Hd. by eapply Hcold.
    - left. apply destroy_keeps; [auto|]. destruct (decide (t' = t)); [right; tauto | by left]. }
  destruct (op_Destroy t b w1) as [[[]|e] w2]; cbn in *; [by apply IH | done].
Qed.

(** An archive policy never loses a message: whatever fails in a run, a
    message that was in the mailbox is afterwards there still or in the cold
    tier, because a batch is destroyed only after its move succeeded. *)
Theorem archive_loses_nothing dryRun now t p w t' id m :
  PolicyType p = "archive"%string -> preserved t' id m w -> preserved t' id m (enforce cold dryRun now t p w).2.
Proof using Hq Hd Hm.
  intros Ht Hp. unfold enforce. destruct (scopeMailbox p) as [mb|e]; [|done]. case_match; [done|]. rewrite Ht.
  generalize (cutoff now (RetentionDays p)) maxPages (@nil string) (0, 0, 0). intros cut pages. revert w Hp.
  induction pages as [|pages IH]; intros w Hp prev [[processed deleted] archived]; cbn [sweep]; [done|].
  assert (preserved t' id m (op_Query t mb cut queryPageSize w).2) as Hp1 by (destruct Hp; [left; by apply query_keeps | right; by apply Hq]).
  destruct (op_Query t mb cut queryPageSize w) as [[[|i ids]|e] w1]; [done | | done]. case_match; [done|]. destruct dryRun; [done|].
  pose proof (archive_batches_preserve t' id m t (batches destroyChunk (i :: ids)) 0 0 w1 Hp1) as Hp2.
  destruct (applyBatches cold t "archive" _ 0 0 w1) as [[[del arc] [e|]] w2]; [done|]. by apply IH.
Qed.
End archive.
End finished.

(** ** A reference operator: the messages of all tenants, and the cold tier *)
Module Ref.
Record world := mkWorld { live : gmap (string * string) message; stored : gset (string * string) }.

Definition matches (t mb : string) (cut : Z) (x : string * string * message) : bool :=
  String.eqb x.1.1 t && (received x.2 <? cut / Second * Second) && (String.eqb mb "" || bool_decide (mb ∈ mailboxes x.2)).
Definition query (t mb : string) (cut lim : Z) (w : world) : result operror (list string) * world :=
  (Ok (take (Z.to_nat lim) ((fun x => x.1.2) <$> List.filter (matches t mb cut) (map_to_list (live w)))), w).
Definition destroy (t : string) (ids : list string) (w : world) : result operror unit * world :=
  (Ok tt, mkWorld (foldr (fun id => delete (t, id)) (live w) ids) (stored w)).
Definition move : mover world := fun t ids w => (Ok (Z.of_nat (length ids)), mkWorld (live w) (list_to_set ((t,.) <$> ids) ∪ stored w)).

#[export] Instance operator : EmailOperator world := {| op_Query := query; op_Destroy := destroy |}.

Definition at_ (w : world) (t id : string) : option message := live w !! (t, id).

Lemma matches_scope t mb cut x : matches t mb cut x = true <-> x.1.1 = t /\ in_scope mb (cut / Second * Second) x.2.
Proof.
  unfold matches, in_scope. rewrite !andb_true_iff, orb_true_iff, bool_decide_eq_true. split.
  - intros [[Ht Hr] Hb]. breflect. split_and!; [done | lia | intros Hne; destruct Hb as [Hb|Hb]; [by breflect | done]].
  - intros [Ht [Hr Hb]]. split_and!; [by apply String.eqb_eq | lia |]. destruct (String.eqb_spec mb ""); [by left | right; auto].
Qed.

Lemma ref_query_sound t mb cut lim w ids w' id : query t mb cut lim w = (Ok ids, w') -> id ∈ ids -> exists m, at_ w t id = Some m /\ in_scope mb cut m.
Proof.
  intros [= <- <-] Hin. apply elem_of_take in Hin as (i & Hi & _). apply list_elem_of_lookup_2, list_elem_of_fmap in Hi as ([[t' id'] m] & -> & Hx).
  apply elem_of_filterb in Hx as [Hx Hs]. apply matches_scope in Hs as [<- [Hr Hb]]. apply elem_of_map_to_list in Hx. exists m. split; [done|].
  split; [|done]. pose proof (Z.mul_div_le cut Second ltac:(done)). cbn in Hr. lia.
Qed.

Lemma ref_query_done t mb cut lim w w' id m : 0 < lim -> query t mb cut lim w = (Ok [], w') -> at_ w' t id = Some m -> ~ in_scope mb (cut / Second * Second) m.
Proof.
  unfold query. intros Hl [= Hq <-] Hm Hs. assert ((t, id, m) ∈ List.filter (matches t mb cut) (map_to_list (live w))) as Hin.
  { apply elem_of_filterb. split; [by apply elem_of_map_to_list | by apply matches_scope]. }
  destruct (List.filter _ _) as [|x l]; [by apply not_elem_of_nil in Hin|]. destruct (Z.to_nat lim) eqn:E; [lia | done].
Qed.

Lemma ref_destroy_keeps t ids w t' id m : at_ w t' id = Some m -> t' <> t \/ id ∉ ids -> at_ (destroy t ids w).2 t' id = Some m.
Proof.
  unfold at_, destroy. cbn. intros Hm Hor. induction ids as [|i ids IH]; cbn; [done|]. rewrite lookup_delete_ne; [apply IH; set_solver|].
  intros [= -> ->]. destruct Hor as [|Hn]; [done | apply Hn; left].
Qed.

#[export] Instance laws : OperatorLaws world :=
  {| mail := at_; query_keeps := fun t mb cut lim w t' id m Hm => Hm; query_sound := ref_query_sound; query_done := ref_query_done; destroy_keeps := ref_destroy_keeps |}.

Definition cold_at (w : world) (t id : string) : Prop := (t, id) ∈ stored w.

Lemma move_laws : moves_law mail cold_at move.
Proof. split_and!; [done | unfold cold_at, move; cbn; set_solver |]. unfold cold_at, move. intros t ids w n w' id [= <- <-] Hin. cbn. set_solver. Qed.

(** Two messages of [acme], a year apart, and one of [corp]. *)
Definition day : Z := 24 * Hour.
Definition now0 : Z := 20000 * day.
Definition old : message := mkMessage (now0 - 400 * day) {["inbox"%string]}.
Definition recent : message := mkMessage (now0 - 2 * day) {["inbox"%string]}.
Definition w0 : world := mkWorld {[("acme", "a/1") := old; ("acme", "a/2") := recent; ("corp", "c/1") := old]}%string ∅.
Definition policy (typ : string) (days : Z) : Policy := mkPolicy "p1" "acme" typ days "all" "" true 0 0.
Definition b0 (p : Policy) : books := mkBooks (mkDB [("acme", "active"); ("corp", "active")]%string [p] []) 0 0 [].
Definition env0 (i j : nat) : renv := mkREnv now0 now0 now0 "r1" now0 Delivered Delivered now0 true (fun _ => "error"%string).
Definition tick0 (p : Policy) : snapshot * books * world :=
  tick (Some move) false Delivered true (fun _ => Delivered) (fun _ => now0) env0 (mkSnapshot 0 0 0 0 0) (b0 p) w0.
Definition archived0 : world := (enforce (Some move) false now0 "acme" (policy "archive" 365) w0).2.
Definition mail_after (p : Policy) : list (option message) := [at_ (tick0 p).2 "acme" "a/1"; at_ (tick0 p).2 "acme" "a/2"; at_ (tick0 p).2 "corp" "c/1"].
End Ref.
Import (hints) Ref.

(** The tick does destroy the old message, and only it. *)
Example tick_deletes_old : Ref.mail_after (Ref.policy "delete" 365) = [None; Some Ref.recent; Some Ref.old].
Proof. vm_compute. reflexivity. Qed.

Lemma retention_spares_recent_witness : mail (Ref.tick0 (Ref.policy "delete" 365)).2 "acme" "a/2" = Some Ref.recent.
Proof.
  set (x := Ref.tick0 _).
  apply (retention_spares_recent (Some Ref.move) false Delivered true (fun _ => Delivered) (fun _ => Ref.now0) Ref.env0 (mkSnapshot 0 0 0 0 0)
            (Ref.b0 (Ref.policy "delete" 365)) Ref.w0 x.1.1 x.1.2 x.2).
  - intros move [= <-] t0 ids w0 Hm. exact Hm.
  - vm_compute. reflexivity.
  - intros p Hp _. apply list_elem_of_singleton in Hp as ->. split; [vm_compute; done|]. intros _ i j. right. intros (_ & _ & Hr). vm_compute in Hr. discriminate Hr.
  - unfold x, Ref.tick0. destruct (tick _ _ _ _ _ _ _ _ _ _) as [[s b] w]. reflexivity.
Defined.

Lemma enforcement_is_complete_witness : ~ covers ((Ref.now0 - 365 * (24 * Hour)) / Second * Second) (Ref.policy "delete" 365) Ref.recent.
Proof.
  refine (enforcement_is_complete (Some Ref.move) Ref.now0 "acme" (Ref.policy "delete" 365) Ref.w0 (1, 1, 0) _ "a/2" Ref.recent _ _ _);
    [vm_compute; done | vm_compute; reflexivity | vm_compute; reflexivity].
Defined.

Lemma archive_loses_nothing_witness :
  mail Ref.archived0 "acme" "a/1" = None /\ preserved Ref.cold_at "acme" "a/1" Ref.old Ref.archived0.
Proof.
  split; [vm_compute; reflexivity|].
  apply (archive_loses_nothing (Some Ref.move) Ref.cold_at).
  - intros t mb cut lim w t' id Hc. exact Hc.
  - intros t ids w t' id Hc. exact Hc.
  - intros move [= <-]. exact Ref.move_laws.
  - reflexivity.
  - left. vm_compute. reflexivity.
Defined.

(** ** Findings *)

(** A retention of 300 years passes the checks, and its cutoff lies 284 years
    ahead: the product of days and nanoseconds wraps around. *)
Theorem long_retention_looks_ahead now : now + 104003 * (24 * Hour) < cutoff now 109500.
Proof. unfold cutoff. apply Z.add_lt_mono_l. vm_compute. done. Qed.

Theorem long_retention_destroys_everything :
  validatePolicy (Ref.policy "delete" 109500) = Ok tt /\ Ref.mail_after (Ref.policy "delete" 109500) = [None; None; Some Ref.old].
Proof. split; vm_compute; reflexivity. Qed.

(** The handlers act on the tenant named in the path, whichever tenant the
    caller belongs to: any member can have another tenant's mail destroyed. *)
Theorem policies_of_any_tenant ctx ctx' path pid d dbnow id body s :
  create_handler ctx path d dbnow id body s = create_handler ctx' path d dbnow id body s /\
  update_handler ctx path pid d dbnow body s = update_handler ctx' path pid d dbnow body s /\
  delete_handler ctx path pid d s = delete_handler ctx' path pid d s.
Proof. done. Qed.
