(* ===== verification/Snooze.v ===== *)
(** * Snooze ([internal/snooze/service.go], [worker.go], [handlers.go])

    An email is hidden in a mailbox of its user until a time, then put back
    where it was.  The rows live in PostgreSQL; the moves are [Email/set]
    updates sent through the internal JMAP client.  A dispatcher over a world
    [W] stands for that client and the mail server; [MailServer] is what JMAP
    promises of an update.  [sstep] interleaves users and workers between
    their database statements and their moves.  Identifiers are UUIDs in
    PostgreSQL's own text, columns hold whole microseconds. *)

From S2P Require Import Prelude Text Table Calendar Breaker JmapProxy JmapClient.

Local Open Scope Z_scope.
Local Open Scope go_scope.

Inductive status := StatusSnoozed | StatusUnsnoozed | StatusCancelled | StatusFailed.

#[export] Instance status_eq_dec : EqDecision status.
Proof. solve_decision. Defined.

Definition DefaultMaxAttempts : Z := 5.
Definition MinSnoozeHorizon : Z := Minute.
Definition MaxSnoozeHorizon : Z := 365 * 24 * Hour.
Definition DispatchLeaseInterval : Z := 5 * Minute.

Inductive zerror :=
| ErrNotFound | ErrAlreadyAwake | ErrAlreadyCancelled | ErrInvalidSnooze | ErrTenantMismatch | ErrAlreadySnoozed | ErrSnoozeFailed
| MissingField (name : string) | ErrStore | ErrUnexpectedStatus.

(** The bytes of [original_mailbox_ids], by what [json.Unmarshal] into a map
    from strings to booleans makes of them. *)
Inductive mailbox_ids := MEmpty | MBad | MObject (m : gmap string bool).

Record Snooze := mkSnooze {
  ID : string; TenantID : string; KChatUserID : string; StalwartAccountID : string; EmailID : string; OriginalMailboxIDs : mailbox_ids;
  SnoozedMailboxID : string; SnoozeUntil : Z; MarkUnreadOnWake : bool; Status : status; Attempts : Z; LastError : string; NextRetryAt : Z;
  WokenAt : option Z; CreatedAt : Z; UpdatedAt : Z;
}.

(** [SET status, attempts, last_error, next_retry_at, woken_at]; the trigger
    sets [updated_at]. *)
Definition set_row (st : status) (attempts : Z) (err : string) (next : Z) (woken : option Z) (dbnow : Z) (r : Snooze) : Snooze :=
  mkSnooze (ID r) (TenantID r) (KChatUserID r) (StalwartAccountID r) (EmailID r) (OriginalMailboxIDs r) (SnoozedMailboxID r) (SnoozeUntil r)
    (MarkUnreadOnWake r) st attempts err next woken (CreatedAt r) dbnow.

Record DB := mkDB { tenants : gset string; rows : gmap string Snooze }.
Definition with_rows (x : gmap string Snooze) (s : DB) : DB := mkDB (tenants s) x.

(** [UPDATE ... SET f WHERE id = $1 AND p]. *)
Definition update_row (id : string) (p : Snooze -> bool) (f : Snooze -> Snooze) (s : DB) : bool * DB :=
  match rows s !! id with
  | Some r => if p r then (true, with_rows (<[id := f r]> (rows s)) s) else (false, s)
  | None => (false, s)
  end.

Definition query {A} (d : delivery) (f : DB -> result zerror A) (s : DB) : result zerror A :=
  match d with Delivered => f s | _ => Err ErrStore end.
Definition exec (d : delivery) (f : DB -> bool * DB) (s : DB) : result zerror unit * DB :=
  BeginFunc ErrStore d (fun s => Ok (tt, (f s).2)) s.

(** ** Service *)
Record SnoozeInput := mkInput {
  iTenantID : string; iKChatUserID : string; iStalwartAccountID : string; iEmailID : string; iOriginalMailboxIDs : mailbox_ids;
  iSnoozedMailboxID : string; iSnoozeUntil : Z; iMarkUnreadOnWake : bool;
}.

Definition validateSnooze (now : Z) (i : SnoozeInput) : result zerror unit :=
  if blank (iTenantID i) then Err (MissingField "TenantID")
  else if blank (iKChatUserID i) then Err (MissingField "KChatUserID")
  else if blank (iStalwartAccountID i) then Err (MissingField "StalwartAccountID")
  else if blank (iEmailID i) then Err (MissingField "EmailID")
  else match iOriginalMailboxIDs i with
  | MEmpty | MBad => Err (MissingField "OriginalMailboxIDs")
  | MObject m =>
      if bool_decide (m = ∅) then Err (MissingField "OriginalMailboxIDs")
      else if blank (iSnoozedMailboxID i) then Err (MissingField "SnoozedMailboxID")
      else if iSnoozeUntil i =? zeroTime then Err ErrInvalidSnooze
      else
        let horizon := Sub (iSnoozeUntil i) now in
        if (horizon <? MinSnoozeHorizon) || (MaxSnoozeHorizon <? horizon) then Err ErrInvalidSnooze else Ok tt
  end.

Definition snoozed (r : Snooze) : bool := bool_decide (Status r = StatusSnoozed).
Definition owned (tenantID kchatUserID : string) (r : Snooze) : bool := String.eqb (TenantID r) tenantID && String.eqb (KChatUserID r) kchatUserID.

(** The unique index [snoozed_emails_active_unique]. *)
Definition active (i : SnoozeInput) (r : Snooze) : bool :=
  owned (iTenantID i) (iKChatUserID i) r && String.eqb (EmailID r) (iEmailID i) && snoozed r.

Definition row_of (dbnow : Z) (id : string) (i : SnoozeInput) : Snooze :=
  mkSnooze id (iTenantID i) (iKChatUserID i) (iStalwartAccountID i) (iEmailID i) (iOriginalMailboxIDs i) (iSnoozedMailboxID i)
    (micro (iSnoozeUntil i)) (iMarkUnreadOnWake i) StatusSnoozed 0 "" (micro (iSnoozeUntil i)) None dbnow dbnow.

(** Either unique violation, of the index or of the key, reads as
    [ErrAlreadySnoozed]. *)
Definition Snooze_ (d : delivery) (now dbnow : Z) (id : string) (i : SnoozeInput) (s : DB) : result zerror Snooze * DB :=
  match validateSnooze now i with
  | Err e => (Err e, s)
  | Ok _ =>
      BeginFunc ErrStore d (fun s =>
        if existsb (active i) (map_to_list (rows s)).*2 || bool_decide (is_Some (rows s !! id)) then Err ErrAlreadySnoozed
        else if negb (bool_decide (iTenantID i ∈ tenants s)) then Err ErrStore
        else Ok (row_of dbnow id i, with_rows (<[id := row_of dbnow id i]> (rows s)) s)) s
  end.

Definition Get (d : delivery) (tenantID kchatUserID id : string) (s : DB) : result zerror Snooze :=
  if blank tenantID then Err (MissingField "tenantID")
  else if blank kchatUserID then Err (MissingField "kchatUserID")
  else if blank id then Err ErrNotFound
  else
    let? r := query d (fun s =>
      match rows s !! id with
      | Some r => if owned tenantID kchatUserID r then Ok r else Err ErrNotFound
      | None => Err ErrNotFound
      end) s in
    if negb (String.eqb (TenantID r) tenantID) then Err ErrTenantMismatch else Ok r.

(** [newest_first] is [ORDER BY created_at DESC]. *)
Definition ListByUser (newest_first : list Snooze -> list Snooze) (d : delivery) (tenantID kchatUserID : string) (s : DB) : result zerror (list Snooze) :=
  if blank tenantID then Err (MissingField "tenantID")
  else if blank kchatUserID then Err (MissingField "kchatUserID")
  else query d (fun s => Ok (take 500 (newest_first (List.filter (owned tenantID kchatUserID) (map_to_list (rows s)).*2)))) s.

Definition cancel_row (dbnow : Z) (r : Snooze) : Snooze := set_row StatusCancelled (Attempts r) (LastError r) (NextRetryAt r) (WokenAt r) dbnow r.

Definition Cancel (d : delivery) (dbnow : Z) (tenantID kchatUserID id : string) (s : DB) : result zerror unit * DB :=
  if blank tenantID then (Err (MissingField "tenantID"), s)
  else if blank kchatUserID then (Err (MissingField "kchatUserID"), s)
  else if blank id then (Err ErrNotFound, s)
  else BeginFunc ErrStore d (fun s =>
    let '(hit, s') := update_row id (fun r => owned tenantID kchatUserID r && (snoozed r || bool_decide (Status r = StatusFailed))) (cancel_row dbnow) s in
    if hit : bool then Ok (tt, s')
    else match rows s' !! id with
    | None => Err ErrNotFound
    | Some r =>
        if negb (String.eqb (TenantID r) tenantID) then Err ErrTenantMismatch
        else if negb (String.eqb (KChatUserID r) kchatUserID) then Err ErrNotFound
        else match Status r with
        | StatusUnsnoozed => Err ErrAlreadyAwake
        | StatusCancelled => Err ErrAlreadyCancelled
        | StatusFailed => Err ErrSnoozeFailed
        | StatusSnoozed => Err ErrUnexpectedStatus
        end
    end) s.

Definition due (dbnow : Z) (r : Snooze) : bool := snoozed r && (SnoozeUntil r <=? dbnow) && (NextRetryAt r <=? dbnow).

(** [locked] are the rows concurrent transactions hold, which the claim skips. *)
Definition claimDue (d : delivery) (now dbnow : Z) (locked : gset string) (s : DB) : result zerror Snooze * DB :=
  let leaseUntil := now + DispatchLeaseInterval in
  BeginFunc ErrStore d (fun s =>
    match least SnoozeUntil (filter (fun r => due dbnow r = true /\ ID r ∉ locked) (map_to_list (rows s)).*2) with
    | None => Err ErrNotFound
    | Some r =>
        if 2 ^ 31 <=? Attempts r + 1 then Err ErrStore
        else
          let lease next r := set_row (Status r) (Attempts r + 1) (LastError r) next (WokenAt r) dbnow r in
          Ok (set_row (Status r) (Attempts r + 1) (LastError r) leaseUntil (WokenAt r) (UpdatedAt r) r,
              (update_row (ID r) (fun _ => true) (lease (micro leaseUntil)) s).2)
    end) s.

Definition markUnsnoozed (d : delivery) (dbnow : Z) (id : string) (wokenAt : Z) (s : DB) : result zerror unit * DB :=
  exec d (update_row id snoozed (fun r => set_row StatusUnsnoozed (Attempts r) "" (NextRetryAt r) (Some (micro wokenAt)) dbnow r)) s.
Definition markFailed (d : delivery) (dbnow : Z) (id lastErr : string) (s : DB) : result zerror unit * DB :=
  exec d (update_row id snoozed (fun r => set_row StatusFailed (Attempts r) lastErr (NextRetryAt r) (WokenAt r) dbnow r)) s.
Definition scheduleRetry (d : delivery) (dbnow : Z) (id : string) (nextRetryAt : Z) (lastErr : string) (s : DB) : result zerror unit * DB :=
  exec d (update_row id snoozed (fun r => set_row (Status r) (Attempts r) lastErr (micro nextRetryAt) (WokenAt r) dbnow r)) s.

(** ** Moves *)
Abbreviation patch := (gmap string json).
Definition mailbox_key (mb : string) : string := "mailboxIds/" +:+ mb.
Definition seen_key : string := "keywords/$seen".

(** [patch["mailboxIds/"+mb] = v] for each of the named mailboxes. *)
Definition put_all (v : json) (m : gmap string bool) (p : patch) : patch :=
  foldr (fun mb p => if String.eqb mb "" then p else <[mailbox_key mb := v]> p) p (map_to_list m).*1.

(** The worker's: the snoozed mailbox first, then the originals. *)
Definition buildWakePatch (ss : Snooze) : result string patch :=
  match OriginalMailboxIDs ss with
  | MEmpty | MBad => Err "snooze: parse original mailbox ids"%string
  | MObject orig =>
      if bool_decide (orig = ∅) then Err "snooze: empty original mailbox ids"%string
      else
        let p := put_all (JBool true) orig {[mailbox_key (SnoozedMailboxID ss) := JNull]} in
        Ok (if MarkUnreadOnWake ss then <[seen_key := JNull]> p else p)
  end.

(** The handlers': the other way round. *)
Definition move_patch (originals : gmap string bool) (snoozedMailboxID : string) (restoreOriginals markUnreadOnWake : bool) : patch :=
  if restoreOriginals then
    let p := put_all (JBool true) originals ∅ in
    let p := if negb (String.eqb snoozedMailboxID "") then <[mailbox_key snoozedMailboxID := JNull]> p else p in
    if markUnreadOnWake then <[seen_key := JNull]> p else p
  else <[mailbox_key snoozedMailboxID := JBool true]> (put_all JNull originals ∅).

Definition set_request (accountID emailID : string) (p : patch) (callID : string) : JmapRequest :=
  mkJmapRequest capabilities
    [("Email/set"%string, JObject [("accountId", JString accountID); ("update", JObject [(emailID, JObject (map_to_list p))])]%string, callID)].

(** What both read of the response. *)
Definition read_reply (emailID callID : string) (r : JmapResponse) : result string unit :=
  match CallByID callID r with
  | None => Err "snooze: response missing client id"%string
  | Some (name, args) =>
      if negb (String.eqb name "Email/set") then Err ("snooze: unexpected response method " +:+ name)
      else if existsb (fun e => String.eqb e.1 emailID) (as_object (field "notUpdated" args)) then Err "snooze: refused by stalwart"%string
      else Ok tt
  end.

(** ** Worker *)
Record DispatchWorker := mkWorker { maxBatch : Z; maxAttempts : Z }.
Definition NewDispatchWorker (mb ma : Z) : DispatchWorker := mkWorker (if mb <=? 0 then 25 else mb) (if ma <=? 0 then DefaultMaxAttempts else ma).

Definition snoozeBackoff (attempts : Z) : Z := if attempts <=? 1 then 1 * Minute else if attempts =? 2 then 5 * Minute else 30 * Minute.

Definition handleErr (d : delivery) (w : DispatchWorker) (now dbnow : Z) (ss : Snooze) (err : string) (s : DB) : result zerror unit * DB :=
  if maxAttempts w <=? Attempts ss then markFailed d dbnow (ID ss) err s
  else scheduleRetry d dbnow (ID ss) (now + snoozeBackoff (Attempts ss)) err s.

(** After the answer to the move. *)
Definition conclude (d : delivery) (w : DispatchWorker) (now dbnow : Z) (ss : Snooze) (r : result string unit) (s : DB) : result zerror unit * DB :=
  match r with
  | Err e => handleErr d w now dbnow ss e s
  | Ok _ => markUnsnoozed d dbnow (ID ss) now s
  end.

Section moves.
Context {W : Type} (dispatch : string -> string -> JmapRequest -> W -> result string JmapResponse * W).

Definition wake (ss : Snooze) (w : W) : result string unit * W :=
  match buildWakePatch ss with
  | Err e => (Err e, w)
  | Ok p =>
      let '(r, w) := dispatch (TenantID ss) (KChatUserID ss) (set_request (StalwartAccountID ss) (EmailID ss) p "wake") w in
      (match r with
       | Err e => Err e
       | Ok resp => match MethodResponses resp with [] => Err "snooze: empty wake response"%string | _ => read_reply (EmailID ss) "wake" resp end
       end, w)
  end.

Definition applyMove (tenantID kchatUserID accountID emailID : string) (originals : gmap string bool) (snoozedMailboxID : string)
    (restoreOriginals markUnreadOnWake : bool) (w : W) : result string unit * W :=
  let p := move_patch originals snoozedMailboxID restoreOriginals markUnreadOnWake in
  let '(r, w) := dispatch tenantID kchatUserID (set_request accountID emailID p "snz") w in
  (match r with Err e => Err e | Ok resp => read_reply emailID "snz" resp end, w).

(** The surroundings of one iteration: the claim, then the outcome. *)
Record env := mkEnv { e_claim : delivery; e_now : Z; e_db : Z; e_locked : gset string; e_final : delivery; e_now' : Z; e_db' : Z }.

Definition dispatchOne (wk : DispatchWorker) (E : env) (s : DB) (w : W) : result zerror unit * DB * W :=
  let '(c, s) := claimDue (e_claim E) (e_now E) (e_db E) (e_locked E) s in
  match c with
  | Err e => (Err e, s, w)
  | Ok ss =>
      let '(r, w) := wake ss w in
      let '(o, s) := conclude (e_final E) wk (e_now' E) (e_db' E) ss r s in
      (o, s, w)
  end.

Fixpoint drain (wk : DispatchWorker) (Es : list env) (s : DB) (w : W) : DB * W :=
  match Es with
  | [] => (s, w)
  | E :: Es => let '(o, s, w) := dispatchOne wk E s w in match o with Ok _ => drain wk Es s w | Err _ => (s, w) end
  end.
Definition Tick (wk : DispatchWorker) (Es : nat -> env) (s : DB) (w : W) : DB * W := drain wk (Es <$> seq 0 (Z.to_nat (maxBatch wk))) s w.

(** ** Handlers *)
Record createRequest := mkCreate { c_EmailID : string; c_Originals : gmap string bool; c_SnoozedMailboxID : string; c_SnoozeUntil : Z; c_MarkUnread : option bool }.

Inductive hresponse := Created (r : Snooze) | OkCancelled | OkRow (r : Snooze) | OkRows (l : list Snooze) | Fail (status : Z).

Definition create_checks (now : Z) (b : createRequest) : option Z :=
  if blank (c_EmailID b) || bool_decide (c_Originals b = ∅) || blank (c_SnoozedMailboxID b) || (c_SnoozeUntil b =? zeroTime) then Some 400
  else
    let horizon := Sub (c_SnoozeUntil b) now in
    if (horizon <? MinSnoozeHorizon) || (MaxSnoozeHorizon <? horizon) then Some 400
    else if default false (c_Originals b !! c_SnoozedMailboxID b) then Some 400
    else None.

Definition input_of (tenantID kchatUserID accountID : string) (b : createRequest) : SnoozeInput :=
  mkInput tenantID kchatUserID accountID (c_EmailID b) (MObject (c_Originals b)) (c_SnoozedMailboxID b) (c_SnoozeUntil b) (default true (c_MarkUnread b)).

(** [account] is what [ResolveAccountID] answers; [now] and [now'] the clock at
    the checks and at the insertion. *)
Definition create (tenantID kchatUserID : string) (body : option createRequest) (account : option string) (d : delivery) (now now' dbnow : Z) (id : string)
    (s : DB) (w : W) : hresponse * DB * W :=
  if String.eqb tenantID "" || String.eqb kchatUserID "" then (Fail 500, s, w)
  else match body with
  | None => (Fail 400, s, w)
  | Some b =>
      match create_checks now b, account with
      | Some code, _ => (Fail code, s, w)
      | None, None => (Fail 500, s, w)
      | None, Some acct =>
          let move := applyMove tenantID kchatUserID acct (c_EmailID b) (c_Originals b) (c_SnoozedMailboxID b) in
          let '(r, w) := move false false w in
          match r with
          | Err _ => (Fail 502, s, w)
          | Ok _ =>
              let '(row, s) := Snooze_ d now' dbnow id (input_of tenantID kchatUserID acct b) s in
              match row with
              | Ok row => (Created row, s, w)
              | Err ErrAlreadySnoozed => (Fail 409, s, w)
              | Err e => (Fail (match e with ErrInvalidSnooze => 400 | _ => 500 end), s, (move true false w).2)
              end
          end
      end
  end.

Definition list_handler (newest_first : list Snooze -> list Snooze) (tenantID kchatUserID : string) (d : delivery) (s : DB) : hresponse :=
  if String.eqb tenantID "" || String.eqb kchatUserID "" then Fail 500
  else match ListByUser newest_first d tenantID kchatUserID s with Ok l => OkRows l | Err _ => Fail 500 end.

Definition get_row (tenantID kchatUserID id : string) (d : delivery) (s : DB) : result Z Snooze :=
  if String.eqb tenantID "" || String.eqb kchatUserID "" then Err 500
  else if blank id then Err 400
  else match Get d tenantID kchatUserID (TrimSpace id) s with
  | Ok r => Ok r
  | Err (ErrNotFound | ErrTenantMismatch) => Err 404
  | Err _ => Err 500
  end.
Definition get (tenantID kchatUserID id : string) (d : delivery) (s : DB) : hresponse :=
  match get_row tenantID kchatUserID id d s with Ok r => OkRow r | Err code => Fail code end.

(** A row whose mail is back is answered at once; the others are moved. *)
Definition wakeable (r : Snooze) : result hresponse (gmap string bool) :=
  match Status r with
  | StatusUnsnoozed | StatusCancelled => Err OkCancelled
  | StatusSnoozed | StatusFailed => match OriginalMailboxIDs r with MObject m => Ok m | _ => Err (Fail 500) end
  end.
Definition move_back (r : Snooze) (orig : gmap string bool) (w : W) : result string unit * W :=
  applyMove (TenantID r) (KChatUserID r) (StalwartAccountID r) (EmailID r) orig (SnoozedMailboxID r) true (MarkUnreadOnWake r) w.
Definition lost_race (tenantID kchatUserID id : string) (d : delivery) (s : DB) : hresponse :=
  match Get d tenantID kchatUserID (TrimSpace id) s with
  | Ok r => if bool_decide (Status r = StatusUnsnoozed) || bool_decide (Status r = StatusCancelled) then OkCancelled else Fail 502
  | Err _ => Fail 502
  end.
Definition close (tenantID kchatUserID id : string) (d : delivery) (dbnow : Z) (s : DB) : hresponse * DB :=
  let '(r, s) := Cancel d dbnow tenantID kchatUserID (TrimSpace id) s in
  (match r with Ok _ | Err (ErrAlreadyAwake | ErrAlreadyCancelled) => OkCancelled | Err _ => Fail 500 end, s).

(** [d], [d2] and [d'] are the fates of the reading, the second reading and
    the cancellation. *)
Definition wakeNow (tenantID kchatUserID id : string) (d d2 d' : delivery) (dbnow : Z) (s : DB) (w : W) : hresponse * DB * W :=
  match get_row tenantID kchatUserID id d s with
  | Err code => (Fail code, s, w)
  | Ok r =>
      match wakeable r with
      | Err x => (x, s, w)
      | Ok orig =>
          let '(m, w) := move_back r orig w in
          match m with
          | Err _ => (lost_race tenantID kchatUserID id d2 s, s, w)
          | Ok _ => let '(x, s) := close tenantID kchatUserID id d' dbnow s in (x, s, w)
          end
      end
  end.
End moves.

(** ** What JMAP promises of an update *)
Record message := mkMessage { mailboxes : gset string; seen : bool }.

(** A patch adds, removes or leaves each mailbox (RFC 8620, 5.3). *)
Definition patched (p : patch) (m m' : message) : Prop :=
  (forall mb, mb ∈ mailboxes m' <-> match p !! mailbox_key mb with Some JNull => False | Some (JBool true) => True | _ => mb ∈ mailboxes m end) /\
  seen m' = match p !! seen_key with Some JNull => false | _ => seen m end.

Section server.
Context {W : Type} (dispatch : string -> string -> JmapRequest -> W -> result string JmapResponse * W).

(** An update is applied to the one email as a whole or not at all, whatever
    the answer says; an answer without complaint says it was. *)
Class MailServer := {
  email : W -> string -> string -> option message;
  set_elsewhere t u acct eid p call w a e : (a, e) <> (acct, eid) -> email (dispatch t u (set_request acct eid p call) w).2 a e = email w a e;
  set_atomic t u acct eid p call w m : email w acct eid = Some m ->
    exists m', email (dispatch t u (set_request acct eid p call) w).2 acct eid = Some m' /\ (m' = m \/ patched p m m');
  set_applied t u acct eid p call w resp w' : dispatch t u (set_request acct eid p call) w = (Ok resp, w') -> read_reply eid call resp = Ok tt ->
    exists m m', email w acct eid = Some m /\ email w' acct eid = Some m' /\ patched p m m';
}.
End server.
Arguments email {W} dispatch {_}.

(** ** Patches *)
Lemma mailbox_key_inj a b : mailbox_key a = mailbox_key b -> a = b.
Proof. apply string_prefix_inj. Qed.

Lemma mailbox_seen mb : mailbox_key mb <> seen_key.
Proof. done. Qed.

Lemma put_all_lookup v m p mb : mb <> ""%string ->
  put_all v m p !! mailbox_key mb = if bool_decide (mb ∈ dom m) then Some v else p !! mailbox_key mb.
Proof.
  intros Hne. unfold put_all. assert (mb ∈ dom m <-> mb ∈ (map_to_list m).*1) as Hdom.
  { rewrite elem_of_dom, list_elem_of_fmap. split; [intros [x Hx]; exists (mb, x); by rewrite elem_of_map_to_list | intros ([k x] & -> & Hx)].
    exists x. by apply elem_of_map_to_list. }
  rewrite (bool_decide_ext _ _ Hdom). clear Hdom. induction (map_to_list m).*1 as [|k l IH]; cbn; [done|].
  destruct (String.eqb_spec k "").
  - rewrite IH. apply (f_equal (fun b : bool => if b then _ else _)), bool_decide_ext. set_solver.
  - destruct (decide (k = mb)) as [->|Hk].
    + rewrite lookup_insert_eq, bool_decide_true by set_solver. done.
    + rewrite lookup_insert_ne by (by intros ->%mailbox_key_inj). rewrite IH. apply (f_equal (fun b : bool => if b then _ else _)), bool_decide_ext. set_solver.
Qed.

Lemma put_all_other v m p k : (forall mb, mb <> ""%string -> k <> mailbox_key mb) -> put_all v m p !! k = p !! k.
Proof.
  intros Hk. unfold put_all. induction (map_to_list m).*1 as [|mb l IH]; cbn; [done|]. destruct (String.eqb_spec mb ""); [done|].
  rewrite lookup_insert_ne by (intros Heq; by apply (Hk mb)). done.
Qed.

Lemma put_all_seen v m p : put_all v m p !! seen_key = p !! seen_key.
Proof. by apply put_all_other. Qed.

Lemma put_all_empty v m p : put_all v m p !! mailbox_key "" = p !! mailbox_key "".
Proof. apply put_all_other. intros mb Hne Heq%mailbox_key_inj. congruence. Qed.

(** The wake patch, key by key; [v] is what it says of the snoozed mailbox. *)
Definition wakes (p : patch) (orig : gmap string bool) (snz : string) (unread : bool) : Prop :=
  (forall mb, mb <> snz -> mb <> ""%string -> p !! mailbox_key mb = if bool_decide (mb ∈ dom orig) then Some (JBool true) else None) /\
  (snz ∉ dom orig -> p !! mailbox_key snz = Some JNull) /\ (snz <> ""%string -> p !! mailbox_key "" = None) /\
  p !! seen_key = (if unread then Some JNull else None).

Lemma wakes_unread p orig snz unread : wakes p orig snz false -> wakes (if unread : bool then <[seen_key := JNull]> p else p) orig snz unread.
Proof.
  intros (H1 & H2 & H3 & H4). destruct unread; [|done]. split_and!.
  - intros mb. rewrite lookup_insert_ne by done. apply H1.
  - rewrite lookup_insert_ne by done. apply H2.
  - rewrite lookup_insert_ne by done. apply H3.
  - by rewrite lookup_insert_eq.
Qed.

Lemma worker_wakes ss p orig : buildWakePatch ss = Ok p -> OriginalMailboxIDs ss = MObject orig -> wakes p orig (SnoozedMailboxID ss) (MarkUnreadOnWake ss).
Proof.
  unfold buildWakePatch. intros Hb Ho. rewrite Ho in Hb. case_bool_decide; [done|]. injection Hb as <-. apply wakes_unread. split_and!.
  - intros mb Hs Hne. rewrite put_all_lookup by done. by rewrite lookup_singleton_ne by (by intros ?%mailbox_key_inj).
  - intros Hs. destruct (decide (SnoozedMailboxID ss = ""%string)) as [->|Hne]; [by rewrite put_all_empty, lookup_singleton_eq|].
    rewrite put_all_lookup, bool_decide_false by done. by rewrite lookup_singleton_eq.
  - intros Hne. by rewrite put_all_empty, lookup_singleton_ne by (by intros ?%mailbox_key_inj).
  - by rewrite put_all_seen, lookup_singleton_ne by done.
Qed.

Lemma handler_wakes orig snz unread : snz <> ""%string -> wakes (move_patch orig snz true unread) orig snz unread.
Proof.
  intros Hne. unfold move_patch. apply wakes_unread. destruct (String.eqb_spec snz ""); [done|]. cbn [negb]. split_and!.
  - intros mb Hs Hmb. by rewrite lookup_insert_ne, put_all_lookup by (done || by intros ?%mailbox_key_inj).
  - intros _. by rewrite lookup_insert_eq.
  - intros _. by rewrite lookup_insert_ne, put_all_empty by (by intros ?%mailbox_key_inj).
  - by rewrite lookup_insert_ne, put_all_seen by done.
Qed.

(** The worker and the handler put an email back in the same way, as long as
    the snoozed mailbox is not among the originals. *)
Theorem wake_patches_agree ss p orig : buildWakePatch ss = Ok p -> OriginalMailboxIDs ss = MObject orig -> SnoozedMailboxID ss <> ""%string ->
  SnoozedMailboxID ss ∉ dom orig -> forall m m' m'', patched p m m' -> patched (move_patch orig (SnoozedMailboxID ss) true (MarkUnreadOnWake ss)) m m'' -> m' = m''.
Proof.
  intros Hb Ho Hne Hn m m' m'' [Hm1 Hs1] [Hm2 Hs2]. pose proof (worker_wakes _ _ _ Hb Ho) as (A1 & A2 & A3 & A4).
  destruct (handler_wakes orig (SnoozedMailboxID ss) (MarkUnreadOnWake ss) Hne) as (B1 & B2 & B3 & B4).
  destruct m' as [x1 y1], m'' as [x2 y2]. cbn in *. f_equal; [|by rewrite Hs1, Hs2, A4, B4].
  apply set_eq. intros mb. rewrite Hm1, Hm2. destruct (decide (mb = SnoozedMailboxID ss)) as [->|Hs]; [by rewrite A2, B2|].
  destruct (decide (mb = ""%string)) as [->|He]; [by rewrite A3, B3|]. by rewrite A1, B1.
Qed.

(** Where an email is after a wake patch. *)
Lemma wakes_places p orig snz unread m m' : wakes p orig snz unread -> patched p m m' ->
  (forall mb, mb ∈ dom orig -> mb <> ""%string -> mb <> snz -> mb ∈ mailboxes m') /\ (snz ∉ dom orig -> snz ∉ mailboxes m').
Proof.
  intros (H1 & H2 & _) [Hm _]. split.
  - intros mb Hin Hne Hs. apply Hm. by rewrite H1, bool_decide_true.
  - intros Hn Hin%Hm. by rewrite H2 in Hin.
Qed.

(** An insertion adds the one row, or nothing. *)
Lemma Snooze_spec d now dbnow id i s x s' : Snooze_ d now dbnow id i s = (x, s') ->
  (forall row, x = Ok row -> row = row_of dbnow id i) /\
  (s' = s \/ (rows s !! id = None /\ blank (iSnoozedMailboxID i) = false /\ s' = with_rows (<[id := row_of dbnow id i]> (rows s)) s)).
Proof.
  unfold Snooze_, BeginFunc. cbv beta. destruct (validateSnooze now i) eqn:Ev; [|intros [= <- <-]; split; [done | by left]].
  assert (blank (iSnoozedMailboxID i) = false) as Hb by (unfold validateSnooze in Ev; repeat (case_match; try done)).
  destruct (existsb (active i) (map_to_list (rows s)).*2); cbn [orb]; [destruct d; intros [= <- <-]; split; try done; by left|].
  case_bool_decide as Hid; [destruct d; intros [= <- <-]; split; try done; by left|].
  destruct (negb _), d; intros [= <- <-]; (split; [intros row Hrow; by simplify_eq|]); try (by left); right; (split_and!; [by apply eq_None_not_Some | done | done]).
Qed.

(** ** There and back *)
(** The fields no statement changes. *)
Definition same (r r' : Snooze) : Prop :=
  ID r' = ID r /\ TenantID r' = TenantID r /\ KChatUserID r' = KChatUserID r /\ StalwartAccountID r' = StalwartAccountID r /\ EmailID r' = EmailID r /\
  OriginalMailboxIDs r' = OriginalMailboxIDs r /\ SnoozedMailboxID r' = SnoozedMailboxID r /\ MarkUnreadOnWake r' = MarkUnreadOnWake r.

#[export] Instance same_refl : Reflexive same.
Proof. intros r. by split_and!. Qed.
#[export] Instance same_trans : Transitive same.
Proof. intros a b c (? & ? & ? & ? & ? & ? & ? & ?) (? & ? & ? & ? & ? & ? & ? & ?). split_and!; congruence. Qed.

Lemma same_set st a e n wk t r : same r (set_row st a e n wk t r).
Proof. by split_and!. Qed.
#[local] Hint Resolve same_set : kmail.

Section trip.
Context {W : Type} (dispatch : string -> string -> JmapRequest -> W -> result string JmapResponse * W) `{MS : !MailServer dispatch}.
Implicit Types w : W.

Lemma wake_applied ss w w' : wake dispatch ss w = (Ok tt, w') -> exists p m m', buildWakePatch ss = Ok p /\
  email dispatch w (StalwartAccountID ss) (EmailID ss) = Some m /\ email dispatch w' (StalwartAccountID ss) (EmailID ss) = Some m' /\ patched p m m'.
Proof.
  unfold wake. destruct (buildWakePatch ss) as [p|e]; [|done]. destruct (dispatch _ _ _ w) as [[resp|e] w1] eqn:Ed; [|done].
  intros [= Hr <-]. destruct (MethodResponses resp); [done|]. destruct (set_applied _ _ _ _ _ _ _ _ _ _ Ed Hr) as (m & m' & H1 & H2 & H3). by exists p, m, m'.
Qed.

Lemma move_applied t u acct eid orig snz back unread w w' : applyMove dispatch t u acct eid orig snz back unread w = (Ok tt, w') ->
  exists m m', email dispatch w acct eid = Some m /\ email dispatch w' acct eid = Some m' /\ patched (move_patch orig snz back unread) m m'.
Proof.
  unfold applyMove. destruct (dispatch _ _ _ w) as [[resp|e] w1] eqn:Ed; [|done]. intros [= Hr <-]. by apply (set_applied _ _ _ _ _ _ _ _ _ _ Ed Hr).
Qed.

(** A wake, by the worker or by the user. *)
Definition woken (ss : Snooze) (w w' : W) : Prop :=
  wake dispatch ss w = (Ok tt, w') \/
  (SnoozedMailboxID ss <> ""%string /\ exists orig, OriginalMailboxIDs ss = MObject orig /\ move_back dispatch ss orig w = (Ok tt, w')).

Lemma woken_patched ss w w' : woken ss w w' -> exists orig p m m', OriginalMailboxIDs ss = MObject orig /\
  wakes p orig (SnoozedMailboxID ss) (MarkUnreadOnWake ss) /\
  email dispatch w (StalwartAccountID ss) (EmailID ss) = Some m /\ email dispatch w' (StalwartAccountID ss) (EmailID ss) = Some m' /\ patched p m m'.
Proof.
  intros [Hw|(Hne & orig & Ho & Hm)].
  - destruct (wake_applied _ _ _ Hw) as (p & m & m' & Hb & H1 & H2 & H3). destruct (OriginalMailboxIDs ss) as [| |orig] eqn:Ho; [by unfold buildWakePatch in Hb; rewrite Ho in Hb..|].
    exists orig, p, m, m'. split_and!; [done | by apply worker_wakes | done..].
  - destruct (move_applied _ _ _ _ _ _ _ _ _ _ Hm) as (m & m' & H1 & H2 & H3).
    exists orig, (move_patch orig (SnoozedMailboxID ss) true (MarkUnreadOnWake ss)), m, m'. split_and!; [done | by apply handler_wakes | done..].
Qed.

(** Snoozing and waking gives an email back where it was.  When a request
    names the mailboxes the email is in and a snoozed mailbox it is not in,
    and is answered with success, the email is in the snoozed mailbox alone;
    and whenever the worker or the user later wakes that row and the mail
    server acknowledges, the email is in exactly its old mailboxes, unread if
    that was asked for and otherwise read or unread as before. *)
Theorem snooze_round_trip t u b acct d now now' dbnow id s w r s1 w1 m :
  create dispatch t u (Some b) (Some acct) d now now' dbnow id s w = (Created r, s1, w1) ->
  email dispatch w acct (c_EmailID b) = Some m -> mailboxes m = dom (c_Originals b) -> c_SnoozedMailboxID b ∉ mailboxes m -> ""%string ∉ mailboxes m ->
  (exists m1, email dispatch w1 acct (c_EmailID b) = Some m1 /\ mailboxes m1 = {[c_SnoozedMailboxID b]} /\ seen m1 = seen m) /\
  forall ss w2 w3, same r ss -> email dispatch w2 acct (c_EmailID b) = email dispatch w1 acct (c_EmailID b) -> woken ss w2 w3 ->
    exists m3, email dispatch w3 acct (c_EmailID b) = Some m3 /\ mailboxes m3 = mailboxes m /\ seen m3 = (if MarkUnreadOnWake r then false else seen m).
Proof.
  intros Hc Hm Hdom Hsnz Hnil. unfold create in Hc. destruct (_ || _); [done|]. destruct (create_checks now b) eqn:Echk; [done|].
  destruct (applyMove _ _ _ _ _ _ _ _ _ w) as [[[]|e] w'] eqn:Em; [|done]. destruct (Snooze_ _ _ _ _ _ s) as [[row|e] s'] eqn:Es; [|by destruct e].
  injection Hc as <- <- <-. assert (c_SnoozedMailboxID b <> ""%string) as Hne.
  { intros Heq. unfold create_checks in Echk. rewrite Heq in Echk. by rewrite orb_true_r in Echk. }
  apply move_applied in Em as (m0 & m1 & H0 & H1 & [Hmb Hseen]). rewrite Hm in H0. injection H0 as <-.
  assert (mailboxes m1 = {[c_SnoozedMailboxID b]} /\ seen m1 = seen m) as [Hm1 Hs1].
  { split; [|rewrite Hseen; unfold move_patch; by rewrite lookup_insert_ne, put_all_seen]. apply set_eq. intros mb. rewrite Hmb, elem_of_singleton.
    unfold move_patch. destruct (decide (mb = c_SnoozedMailboxID b)) as [->|Hmne]; [by rewrite lookup_insert_eq|].
    rewrite lookup_insert_ne by (by intros ?%mailbox_key_inj). destruct (decide (mb = ""%string)) as [->|He].
    { rewrite put_all_empty, lookup_empty. split; [by intros ?%Hnil | intros Heq; congruence]. }
    rewrite put_all_lookup by done. rewrite <-Hdom. case_bool_decide; [done|]. rewrite lookup_empty. done. }
  split; [by exists m1|]. intros ss w2 w3 Hsame Hw2 Hwk. assert (same row ss /\ row = row_of dbnow id (input_of t u acct b)) as [Hs Hrow].
  { split; [done|]. by apply (Snooze_spec _ _ _ _ _ _ _ _ Es). }
  destruct Hs as (_ & _ & _ & Ha & He & Ho & Hz & Hu). rewrite Hrow in Ha, He, Ho, Hz. cbn in Ha, He, Ho, Hz.
  destruct (woken_patched _ _ _ Hwk) as (orig & p & n1 & n3 & Ho' & (P1 & P2 & P3 & P4) & N1 & N3 & [Q1 Q2]). rewrite Ha, He in N1, N3. rewrite Hz in P1, P2, P3.
  rewrite Ho in Ho'. injection Ho' as <-. rewrite Hw2, H1 in N1. injection N1 as <-. exists n3. split; [done|]. rewrite Hu in P4.
  split; [|rewrite Q2, P4; by destruct (MarkUnreadOnWake row)]. apply set_eq. intros mb. rewrite Q1, Hm1, Hdom.
  destruct (decide (mb = c_SnoozedMailboxID b)) as [->|Hmne]; [rewrite P2 by (by rewrite <-Hdom); rewrite <-Hdom; done|].
  destruct (decide (mb = ""%string)) as [->|Hme]; [rewrite P3 by done; rewrite <-Hdom; set_solver|].
  rewrite P1 by done. case_bool_decide; set_solver.
Qed.
End trip.

(** ** Interleavings *)
Inductive wpc := WIdle | WClaimed (ss : Snooze) | WAnswered (ss : Snooze) (r : result string unit).
Inductive upc := UIdle | URead (t u id : string) (r : Snooze) (orig : gmap string bool) | UMoved (t u id : string) (r : Snooze).

Section system.
Context {W : Type} (dispatch : string -> string -> JmapRequest -> W -> result string JmapResponse * W) (wk : DispatchWorker).

(** [restored]: each move back that was acknowledged, with the world it left. *)
Record sys := mkSys { db : DB; clock : Z; world : W; workers : nat -> wpc; users : nat -> upc; restored : list (string * W) }.

Definition acknowledged (id : string) (r : result string unit) (w : W) (l : list (string * W)) : list (string * W) := match r with Ok _ => (id, w) :: l | Err _ => l end.
Definition worker_at (k : nat) (p : wpc) (s : sys) : nat -> wpc := fun k' => if decide (k' = k) then p else workers s k'.
Definition user_at (k : nat) (p : upc) (s : sys) : nat -> upc := fun k' => if decide (k' = k) then p else users s k'.

(** Mail changes under everybody's feet: by other clients, and by the first
    half of a snooze. *)
Inductive sstep : sys -> sys -> Prop :=
| step_time s t : clock s <= t -> sstep s (mkSys (db s) t (world s) (workers s) (users s) (restored s))
| step_mail s w : sstep s (mkSys (db s) (clock s) w (workers s) (users s) (restored s))
| step_insert s d now id i : sstep s (mkSys (Snooze_ d now (clock s) id i (db s)).2 (clock s) (world s) (workers s) (users s) (restored s))
| step_claim s k d now locked c x : workers s k = WIdle -> claimDue d now (clock s) locked (db s) = (c, x) ->
    sstep s (mkSys x (clock s) (world s) (match c with Ok ss => worker_at k (WClaimed ss) s | Err _ => workers s end) (users s) (restored s))
| step_wake s k ss r w : workers s k = WClaimed ss -> wake dispatch ss (world s) = (r, w) ->
    sstep s (mkSys (db s) (clock s) w (worker_at k (WAnswered ss r) s) (users s) (acknowledged (ID ss) r w (restored s)))
| step_finish s k d now ss r : workers s k = WAnswered ss r ->
    sstep s (mkSys (conclude d wk now (clock s) ss r (db s)).2 (clock s) (world s) (worker_at k WIdle s) (users s) (restored s))
| step_crash s k : sstep s (mkSys (db s) (clock s) (world s) (worker_at k WIdle s) (users s) (restored s))
| step_read s k t u id d r orig : users s k = UIdle -> get_row t u id d (db s) = Ok r -> wakeable r = Ok orig ->
    sstep s (mkSys (db s) (clock s) (world s) (workers s) (user_at k (URead t u id r orig) s) (restored s))
| step_move s k t u id r orig m w : users s k = URead t u id r orig -> move_back dispatch r orig (world s) = (m, w) ->
    sstep s (mkSys (db s) (clock s) w (workers s) (user_at k (match m with Ok _ => UMoved t u id r | Err _ => UIdle end) s) (acknowledged (ID r) m w (restored s)))
| step_close s k t u id r d : users s k = UMoved t u id r ->
    sstep s (mkSys (close t u id d (clock s) (db s)).2 (clock s) (world s) (workers s) (user_at k UIdle s) (restored s))
| step_leave s k : sstep s (mkSys (db s) (clock s) (world s) (workers s) (user_at k UIdle s) (restored s)).

(** *** Rows *)
Definition closed (r : Snooze) : Prop := Status r = StatusUnsnoozed \/ Status r = StatusCancelled.
Definition db_ok (s : DB) : Prop := forall id r, rows s !! id = Some r -> ID r = id /\ SnoozedMailboxID r <> ""%string.

(** Rows keep their identity, new ones are open; only rows of [may] close. *)
Definition evolves (may : string -> Prop) (s s' : DB) : Prop :=
  (forall id r, rows s !! id = Some r -> exists r', rows s' !! id = Some r' /\ same r r' /\ (closed r' -> closed r \/ may id)) /\
  (forall id r', rows s' !! id = Some r' -> rows s !! id = None -> ~ closed r' /\ ID r' = id /\ SnoozedMailboxID r' <> ""%string).

Lemma evolves_refl may s : evolves may s s.
Proof. split; [intros id r Hr; exists r; split_and!; [done | done | by left] | intros; congruence]. Qed.

Lemma evolves_ok may s s' : evolves may s s' -> db_ok s -> db_ok s'.
Proof.
  intros [H1 H2] Hok id r' Hr'. destruct (rows s !! id) as [r|] eqn:Er; [|by destruct (H2 _ _ Hr' Er) as (_ & ? & ?)].
  destruct (H1 _ _ Er) as (r2 & Hr2 & (Hid & _ & _ & _ & _ & _ & Hz & _) & _). simplify_eq. rewrite Hid, Hz. by apply Hok.
Qed.

Lemma update_evolves (may : string -> Prop) id p f s : (forall r, same r (f r)) ->
  (forall r, rows s !! id = Some r -> p r = true -> closed (f r) -> closed r \/ may id) -> evolves may s (update_row id p f s).2.
Proof.
  intros Hf Hm. unfold update_row. destruct (rows s !! id) as [r|] eqn:Er; [|apply evolves_refl]. destruct (p r) eqn:Ep; [|apply evolves_refl]. split; cbn.
  - intros id' r' Hr'. destruct (decide (id' = id)) as [->|Hne]; [|rewrite lookup_insert_ne by done; exists r'; split_and!; [done | done | by left]].
    rewrite lookup_insert_eq. rewrite Er in Hr'. injection Hr' as <-. exists (f r). split_and!; [done | done |]. intros Hc. by apply Hm.
  - intros id' r' Hr' Hn. destruct (decide (id' = id)) as [->|Hne]; [congruence|]. rewrite lookup_insert_ne in Hr' by done. congruence.
Qed.

Lemma exec_evolves may d id p f s : (forall r, same r (f r)) ->
  (forall r, rows s !! id = Some r -> p r = true -> closed (f r) -> closed r \/ may id) -> evolves may s (exec d (update_row id p f) s).2.
Proof. intros Hf Hm. unfold exec. apply (BeginFunc_ind (evolves may s)); [apply evolves_refl|]. intros a s' [= <- <-]. by apply update_evolves. Qed.

Lemma insert_evolves may d now dbnow id i s : evolves may s (Snooze_ d now dbnow id i s).2.
Proof.
  destruct (Snooze_ d now dbnow id i s) as [x s'] eqn:Es. apply Snooze_spec in Es as [_ [->|(Hn & Hb & ->)]]; [apply evolves_refl|]. cbn. split.
  - intros id' r Hr. cbn. destruct (decide (id' = id)) as [->|Hne]; [congruence|]. rewrite lookup_insert_ne by done. exists r. split_and!; [done | done | by left].
  - intros id' r' Hr' Hn'. cbn in Hr'. destruct (decide (id' = id)) as [->|Hne]; [|rewrite lookup_insert_ne in Hr' by done; congruence].
    rewrite lookup_insert_eq in Hr'. injection Hr' as <-. split_and!; [by intros [?|?] | done |]. cbn. intros Heq. by rewrite Heq in Hb.
Qed.

Lemma claim_evolves may d now dbnow locked s : evolves may s (claimDue d now dbnow locked s).2.
Proof.
  unfold claimDue. apply (BeginFunc_ind (evolves may s)); [apply evolves_refl|]. intros a s'. destruct (least _ _) as [r|]; [|done].
  case_match; [done|]. intros [= <- <-]. apply update_evolves; [intros; apply same_set|]. intros r0 _ _ Hc. by left.
Qed.

(** The claimed row is a row of the table. *)
Lemma claim_row d now dbnow locked s ss s' : db_ok s -> claimDue d now dbnow locked s = (Ok ss, s') -> exists r, rows s !! ID ss = Some r /\ same r ss.
Proof.
  intros Hok. unfold claimDue, BeginFunc. cbv beta. set (l := filter _ _). pose proof (least_spec SnoozeUntil l) as Hl.
  destruct (least SnoozeUntil l) as [r|]; [|by destruct d]. destruct (_ <=? _); [by destruct d|]. destruct d; [|done..]. intros [= <- _].
  destruct Hl as [(_ & ([id x] & -> & Hx%elem_of_map_to_list)%list_elem_of_fmap)%list_elem_of_filter _]. cbn.
  destruct (Hok _ _ Hx) as [-> _]. exists x. split; [done | apply same_set].
Qed.

Lemma get_row_row t u id d s r : get_row t u id d s = Ok r -> rows s !! TrimSpace id = Some r.
Proof.
  unfold get_row, Get, query. destruct (_ || _); [done|]. destruct (blank id); [done|]. destruct (blank t); [done|]. destruct (blank u); [done|].
  destruct (blank (TrimSpace id)); [done|]. destruct d; [|done..]. destruct (rows s !! TrimSpace id) as [r0|]; [|done].
  destruct (owned t u r0); cbn; [|done]. destruct (negb _); [done|]. by intros [= ->].
Qed.

Lemma close_evolves (may : string -> Prop) t u id d dbnow s : may (TrimSpace id) -> evolves may s (close t u id d dbnow s).2.
Proof.
  intros Hm. unfold close. assert (evolves may s (Cancel d dbnow t u (TrimSpace id) s).2) as Hc; [|by destruct (Cancel _ _ _ _ _ _)].
  unfold Cancel. destruct (blank t); [apply evolves_refl|]. destruct (blank u); [apply evolves_refl|]. destruct (blank (TrimSpace id)); [apply evolves_refl|].
  apply (BeginFunc_ind (evolves may s)); [apply evolves_refl|]. intros a s1.
  pose proof (update_evolves may (TrimSpace id) (fun r => owned t u r && (snoozed r || bool_decide (Status r = StatusFailed)))
                (cancel_row dbnow) s (fun _ => same_set _ _ _ _ _ _ _) (fun _ _ _ _ => or_intror Hm)) as Hu.
  destruct (update_row _ _ _ s) as [[] s2]; [by intros [= <- <-] | repeat (case_match; try done)].
Qed.

Lemma conclude_evolves (may : string -> Prop) d now dbnow ss r s : (r = Ok tt -> may (ID ss)) -> evolves may s (conclude d wk now dbnow ss r s).2.
Proof.
  intros Hm. unfold conclude, handleErr, markUnsnoozed, markFailed, scheduleRetry. destruct r as [[]|e]; [|case_match]; apply exec_evolves; try (intros; apply same_set).
  - intros; right. by apply Hm.
  - by intros r0 _ _ [?|?].
  - intros r0 _ _ Hc. by left.
Qed.

(** *** The invariant *)
Context `{MS : !MailServer dispatch}.

(** The email of [r] is back: in the original mailboxes, out of the snoozed
    one. *)
Definition placed (r : Snooze) (w : W) : Prop := exists orig m, OriginalMailboxIDs r = MObject orig /\
  email dispatch w (StalwartAccountID r) (EmailID r) = Some m /\
  (forall mb, mb ∈ dom orig -> mb <> ""%string -> mb <> SnoozedMailboxID r -> mb ∈ mailboxes m) /\
  (SnoozedMailboxID r ∉ dom orig -> SnoozedMailboxID r ∉ mailboxes m).

Lemma placed_same r r' w : same r r' -> placed r' w -> placed r w.
Proof. intros (_ & _ & _ & Ha & He & Ho & Hz & _) (orig & m & P). rewrite Ha, He, Ho, Hz in P. by exists orig, m. Qed.

Lemma woken_placed ss w w' : woken dispatch ss w w' -> placed ss w'.
Proof.
  intros Hw. destruct (woken_patched dispatch ss w w' Hw) as (orig & p & m & m' & Ho & Hp & _ & Hm' & Hpt). exists orig, m'. destruct (wakes_places _ _ _ _ _ _ Hp Hpt). by split_and!.
Qed.

Definition known (s : DB) (ss : Snooze) : Prop := exists r, rows s !! ID ss = Some r /\ same r ss.

Definition worker_ok (s : DB) (l : list (string * W)) (p : wpc) : Prop :=
  match p with WIdle => True | WClaimed ss => known s ss | WAnswered ss r => known s ss /\ (r = Ok tt -> ID ss ∈ l.*1) end.
Definition user_ok (s : DB) (l : list (string * W)) (p : upc) : Prop :=
  match p with
  | UIdle => True
  | URead t u id r orig => known s r /\ ID r = TrimSpace id /\ OriginalMailboxIDs r = MObject orig /\ SnoozedMailboxID r <> ""%string
  | UMoved t u id r => TrimSpace id ∈ l.*1
  end.

Record inv (s : sys) : Prop := mkInv {
  inv_rows : db_ok (db s);
  inv_workers k : worker_ok (db s) (restored s) (workers s k);
  inv_users k : user_ok (db s) (restored s) (users s k);
  inv_closed id r : rows (db s) !! id = Some r -> closed r -> id ∈ (restored s).*1;
  inv_placed id w : (id, w) ∈ restored s -> exists r, rows (db s) !! id = Some r /\ placed r w;
}.

Lemma known_evolves may s s' ss : evolves may s s' -> known s ss -> known s' ss.
Proof.
  intros [He _] (r & Hr & Hs). destruct (He _ _ Hr) as (r' & Hr' & Hs' & _). exists r'. split; [done|].
  destruct Hs as (? & ? & ? & ? & ? & ? & ? & ?), Hs' as (? & ? & ? & ? & ? & ? & ? & ?). split_and!; congruence.
Qed.

(** A transaction that closes only rows whose mail is back. *)
Lemma inv_db s x t w : inv s -> evolves (fun id => id ∈ (restored s).*1) (db s) x -> inv (mkSys x t w (workers s) (users s) (restored s)).
Proof.
  intros [H1 H2 H3 H4 H5] He. split; cbn.
  - by eapply evolves_ok.
  - intros k. specialize (H2 k). destruct (workers s k); cbn in *; [done | by eapply known_evolves | destruct H2; split; [by eapply known_evolves | done]].
  - intros k. specialize (H3 k). destruct (users s k); cbn in *; [done | destruct H3 as (? & ? & ? & ?); split_and!; [by eapply known_evolves | done..] | done].
  - intros id r' Hr' Hc. destruct (rows (db s) !! id) as [r|] eqn:Er; [|by destruct (proj2 He _ _ Hr' Er)].
    destruct (proj1 He _ _ Er) as (r2 & Hr2 & _ & Hcl). simplify_eq. destruct (Hcl Hc); [by eapply H4 | done].
  - intros id w' Hin. destruct (H5 _ _ Hin) as (r & Hr & Hp). destruct (proj1 He _ _ Hr) as (r' & Hr' & Hs & _). exists r'. split; [done|].
    eapply placed_same; [|exact Hp]. destruct Hs as (? & ? & ? & ? & ? & ? & ? & ?). by split_and!.
Qed.

Lemma inv_worker_at s k p : inv s -> worker_ok (db s) (restored s) p -> inv (mkSys (db s) (clock s) (world s) (worker_at k p s) (users s) (restored s)).
Proof. intros [H1 H2 H3 H4 H5] Hp. split; cbn; try done. intros k'. unfold worker_at. by case_decide. Qed.

Lemma inv_user_at s k p : inv s -> user_ok (db s) (restored s) p -> inv (mkSys (db s) (clock s) (world s) (workers s) (user_at k p s) (restored s)).
Proof. intros [H1 H2 H3 H4 H5] Hp. split; cbn; try done. intros k'. unfold user_at. by case_decide. Qed.

Lemma inv_acknowledged s ss r w : inv s -> known (db s) ss -> (r = Ok tt -> placed ss w) ->
  inv (mkSys (db s) (clock s) w (workers s) (users s) (acknowledged (ID ss) r w (restored s))).
Proof.
  intros [H1 H2 H3 H4 H5] (r0 & Hr0 & Hs) Hp. destruct r as [[]|e]; [|done]. split; cbn; [done | | | |].
  - intros k. specialize (H2 k). destruct (workers s k) as [| |ss' r']; cbn in *; [done.. |]. destruct H2 as [? Hin]. split; [done|]. intros Hr. right. by apply Hin.
  - intros k. specialize (H3 k). destruct (users s k); cbn in *; [done.. | by right].
  - intros id r Hr Hc. right. by eapply H4.
  - intros id w' [[= -> ->]|Hin]%elem_of_cons; [|by apply H5]. exists r0. split; [done|]. eapply placed_same; [exact Hs | by apply Hp].
Qed.

Lemma sstep_inv s s' : inv s -> sstep s s' -> inv s'.
Proof.
  intros Hi Hst. pose proof (fun t w => inv_db s (db s) t w Hi (evolves_refl _ _)) as Hsame. destruct Hst as
    [s t Ht | s w | s d now id i | s k d now locked c x Hk Hc | s k ss r w Hk Hw | s k d now ss r Hk | s k | s k t u id d r orig Hk Hg Hwk
    | s k t u id r orig m w Hk Hm | s k t u id r d Hk | s k].
  - apply Hsame.
  - apply Hsame.
  - apply inv_db; [done | apply insert_evolves].
  - pose proof (claim_evolves (fun id => id ∈ (restored s).*1) d now (clock s) locked (db s)) as He. rewrite Hc in He. cbn in He.
    pose proof (inv_db s x (clock s) (world s) Hi He) as Hx. destruct c as [ss|e]; [|done].
    apply (inv_worker_at _ k (WClaimed ss)) in Hx; [done|]. cbn. eapply known_evolves; [exact He|]. by eapply claim_row; [apply Hi|].
  - pose proof (inv_workers _ Hi k) as Hp. rewrite Hk in Hp. cbn in Hp.
    assert (r = Ok tt -> placed ss w) as Hpl by (intros ->; apply (woken_placed _ (world s)); by left).
    pose proof (inv_acknowledged s ss r w Hi Hp Hpl) as Ha. apply (inv_worker_at _ k (WAnswered ss r)) in Ha; [done|]. cbn. split; [done|]. intros ->. left.
  - pose proof (inv_workers _ Hi k) as Hp. rewrite Hk in Hp. destruct Hp as [_ Hp].
    pose proof (conclude_evolves (fun id => id ∈ (restored s).*1) d now (clock s) ss r (db s) Hp) as He.
    pose proof (inv_db s _ (clock s) (world s) Hi He) as Hx. by apply (inv_worker_at _ k WIdle) in Hx.
  - by apply inv_worker_at.
  - apply inv_user_at; [done|]. cbn. apply get_row_row in Hg. destruct (inv_rows _ Hi _ _ Hg) as [Hid Hz]. split_and!; [by exists r; rewrite Hid | done | | done].
    unfold wakeable in Hwk. destruct (Status r), (OriginalMailboxIDs r); by simplify_eq.
  - pose proof (inv_users _ Hi k) as Hp. rewrite Hk in Hp. destruct Hp as (Hkn & Hid & Ho & Hz).
    assert (m = Ok tt -> placed r w) as Hpl by (intros ->; apply (woken_placed _ (world s)); right; split; [done|]; by exists orig).
    pose proof (inv_acknowledged s r m w Hi Hkn Hpl) as Ha.
    apply (inv_user_at _ k (match m with Ok _ => UMoved t u id r | Err _ => UIdle end)) in Ha; [done|]. destruct m as [[]|e]; cbn; [rewrite Hid; left | done].
  - pose proof (inv_users _ Hi k) as Hp. rewrite Hk in Hp. cbn in Hp.
    pose proof (close_evolves (fun id => id ∈ (restored s).*1) t u id d (clock s) (db s) Hp) as He.
    pose proof (inv_db s _ (clock s) (world s) Hi He) as Hx. by apply (inv_user_at _ k UIdle) in Hx.
  - by apply inv_user_at.
Qed.

(** Nothing is going on, and no row is closed. *)
Definition quiet (s : sys) : Prop :=
  db_ok (db s) /\ (forall k, workers s k = WIdle) /\ (forall k, users s k = UIdle) /\ restored s = [] /\ forall id r, rows (db s) !! id = Some r -> ~ closed r.

(** C24: a snooze is closed only after its email was put back.  Whatever users,
    workers and other clients do, and whatever fails or is lost, a row that
    says unsnoozed or cancelled has had its email moved back at some moment:
    the mail server acknowledged an update after which the email was in the
    mailboxes the row names and, unless it names it too, not in the snoozed
    one. *)
Theorem closed_after_restored s0 s id r : quiet s0 -> rtc sstep s0 s -> rows (db s) !! id = Some r -> closed r ->
  exists w, (id, w) ∈ restored s /\ placed r w.
Proof.
  intros (Hok & Hw & Hu & Hr & Hc) Hrun Hrow Hcl. assert (inv s0) as Hi.
  { split; [done | intros k; by rewrite Hw | intros k; by rewrite Hu | intros id' r' H1 H2; by destruct (Hc _ _ H1) | intros id' w; rewrite Hr; by intros ?%not_elem_of_nil]. }
  assert (inv s) as Hs by (clear -Hi Hrun MS; induction Hrun; [done | eauto using sstep_inv]).
  destruct (list_elem_of_fmap_1 _ _ _ (inv_closed _ Hs _ _ Hrow Hcl)) as ([id' w] & -> & Hin). exists w. split; [done|].
  destruct (inv_placed _ Hs _ _ Hin) as (r' & Hr' & Hp). cbn in *. by simplify_eq.
Qed.
End system.

(** ** A reference mail server

    The mailboxes it knows, the emails, and what becomes of the coming calls
    (delivered when the list has run out).  A patch that names another
    mailbox or an absent email is refused. *)
Module Ref.
Record world := mkWorld { boxes : gset string; mails : gmap (string * string) message; fates : list delivery }.

Definition in_box (p : patch) (m : message) (mb : string) : bool :=
  match p !! mailbox_key mb with Some JNull => false | Some (JBool true) => true | _ => bool_decide (mb ∈ mailboxes m) end.
Definition apply (bs : gset string) (p : patch) (m : message) : message :=
  mkMessage (filter (fun mb => in_box p m mb = true) (bs ∪ mailboxes m)) (match p !! seen_key with Some JNull => false | _ => seen m end).
Definition known_key (bs : gset string) (k : string) : bool := String.eqb k seen_key || existsb (fun b => String.eqb k (mailbox_key b)) (elements bs).
Definition answer (call : string) (args : list (string * json)) : JmapResponse := mkJmapResponse [[JString "Email/set"; JObject args; JString call]].
Definition refusal (eid call : string) : JmapResponse := answer call [("notUpdated", JObject [(eid, JObject [("type", JString "invalidProperties")])])]%string.

Definition update (acct eid : string) (fields : list (string * json)) (call : string) (w : world) : JmapResponse * gmap (string * string) message :=
  match mails w !! (acct, eid) with
  | Some m =>
      if forallb (fun kv => known_key (boxes w) kv.1) fields
      then (answer call [], <[(acct, eid) := apply (boxes w) (list_to_map fields) m]> (mails w))
      else (refusal eid call, mails w)
  | None => (refusal eid call, mails w)
  end.

Definition dispatch (t u : string) (req : JmapRequest) (w : world) : result string JmapResponse * world :=
  match MethodCalls req with
  | [(_, JObject [(_, JString acct); (_, JObject [(eid, JObject fields)])], call)] =>
      let '(resp, x) := update acct eid fields call w in
      match head (fates w) with
      | None | Some Delivered => (Ok resp, mkWorld (boxes w) x (tail (fates w)))
      | Some RequestLost => (Err "unreachable"%string, mkWorld (boxes w) (mails w) (tail (fates w)))
      | Some ReplyLost => (Err "no answer"%string, mkWorld (boxes w) x (tail (fates w)))
      end
  | _ => (Err "unsupported"%string, w)
  end.

Lemma in_box_patched p m mb : in_box p m mb = true <-> match p !! mailbox_key mb with Some JNull => False | Some (JBool true) => True | _ => mb ∈ mailboxes m end.
Proof. unfold in_box. destruct (p !! mailbox_key mb) as [[|[]| | | |]|]; rewrite ?bool_decide_eq_true; done. Qed.

Lemma apply_patched bs (p : patch) m : forallb (fun kv => known_key bs kv.1) (map_to_list p) = true -> patched p m (apply bs p m).
Proof.
  intros Hk. split; [|done]. intros mb. cbn. rewrite elem_of_filter, in_box_patched. split; [by intros [? _]|]. intros Hb. split; [done|].
  destruct (p !! mailbox_key mb) as [v|] eqn:Ev; [|set_solver]. apply elem_of_map_to_list in Ev. rewrite forallb_forall in Hk.
  specialize (Hk _ (proj1 (list_elem_of_In _ _) Ev)). apply orb_true_iff in Hk as [Hk|Hk]; breflect; [done|].
  apply existsb_elem in Hk as (b & Hb' & ->%String.eqb_eq%mailbox_key_inj). apply elem_of_elements in Hb'. set_solver.
Qed.

Lemma update_cases acct eid p call w : 
  (update acct eid (map_to_list p) call w = (refusal eid call, mails w)) \/
  exists m m', mails w !! (acct, eid) = Some m /\ patched p m m' /\ update acct eid (map_to_list p) call w = (answer call [], <[(acct, eid) := m']> (mails w)).
Proof.
  unfold update. destruct (mails w !! (acct, eid)) as [m|]; [|by left]. destruct (forallb _ _) eqn:Ef; [|by left].
  right. exists m, (apply (boxes w) p m). rewrite list_to_map_to_list. split_and!; [done | by apply apply_patched | done].
Qed.

Definition mail_at (w : world) (a e : string) : option message := mails w !! (a, e).

Lemma dispatch_mails t u acct eid p call w : let x := dispatch t u (set_request acct eid p call) w in
  mails x.2 = mails w \/ exists m m', mails w !! (acct, eid) = Some m /\ patched p m m' /\ mails x.2 = <[(acct, eid) := m']> (mails w).
Proof.
  unfold dispatch. cbn. destruct (update_cases acct eid p call w) as [->|(m & m' & Hm & Hp & ->)]; [left; by repeat case_match|].
  repeat case_match; cbn; [right; by exists m, m' | by left | right; by exists m, m' | right; by exists m, m'].
Qed.

Lemma ref_elsewhere t u acct eid p call w a e : (a, e) <> (acct, eid) -> mail_at (dispatch t u (set_request acct eid p call) w).2 a e = mail_at w a e.
Proof.
  intros Hne. unfold mail_at. destruct (dispatch_mails t u acct eid p call w) as [->|(m & m' & _ & _ & ->)]; [done|]. by rewrite lookup_insert_ne.
Qed.

Lemma ref_atomic t u acct eid p call w m : mail_at w acct eid = Some m ->
  exists m', mail_at (dispatch t u (set_request acct eid p call) w).2 acct eid = Some m' /\ (m' = m \/ patched p m m').
Proof.
  unfold mail_at. intros Hm. destruct (dispatch_mails t u acct eid p call w) as [->|(m0 & m' & Hm0 & Hp & ->)]; [exists m; by auto|].
  simplify_eq. exists m'. rewrite lookup_insert_eq. by auto.
Qed.

Lemma refused eid call : read_reply eid call (refusal eid call) <> Ok tt.
Proof. unfold read_reply, refusal, CallByID. cbn. rewrite String.eqb_refl. cbn. by rewrite String.eqb_refl. Qed.

Lemma ref_applied t u acct eid p call w resp w' : dispatch t u (set_request acct eid p call) w = (Ok resp, w') -> read_reply eid call resp = Ok tt ->
  exists m m', mail_at w acct eid = Some m /\ mail_at w' acct eid = Some m' /\ patched p m m'.
Proof.
  unfold dispatch, mail_at. cbn. intros Hd Hr. destruct (update_cases acct eid p call w) as [Hu|(m & m' & Hm & Hp & Hu)]; rewrite Hu in Hd.
  - exfalso. apply (refused eid call). repeat case_match; by simplify_eq.
  - exists m, m'. split; [done|]. repeat case_match; simplify_eq; cbn; by rewrite lookup_insert_eq.
Qed.

#[export] Instance server : MailServer dispatch :=
  {| email := mail_at; set_elsewhere := ref_elsewhere; set_atomic := ref_atomic; set_applied := ref_applied |}.
End Ref.
Import (hints) Ref.

(** ** Runs *)
Module SnoozeExamples.
Definition now0 : Z := 1700000000 * Second.
Definition until0 : Z := now0 + 2 * Hour.
Definition old : message := mkMessage {["inbox"; "work"]}%string true.
Definition w0 : Ref.world := Ref.mkWorld {["inbox"; "work"; "snz"]}%string {[("acc", "e1")%string := old]} [].
Definition db0 : DB := mkDB {["t"%string]} ∅.
Definition ask (originals : gmap string bool) : createRequest := mkCreate "e1" originals "snz" until0 None.
Definition request0 : createRequest := ask {["inbox" := true; "work" := true]}%string.
Definition snooze (b : createRequest) (id : string) (s : DB) (w : Ref.world) : hresponse * DB * Ref.world :=
  create Ref.dispatch "t" "u" (Some b) (Some "acc"%string) Delivered now0 now0 now0 id s w.
Definition worker0 : DispatchWorker := NewDispatchWorker 0 0.
Definition env0 : env := mkEnv Delivered until0 until0 ∅ Delivered until0 until0.
Definition claim0 (s : DB) : result zerror Snooze * DB := claimDue Delivered until0 until0 ∅ s.

Definition snoozed0 := snooze request0 "id1" db0 w0.
Definition row0 : Snooze := row_of now0 "id1" (input_of "t" "u" "acc" request0).
Definition woken0 : Ref.world := (wake Ref.dispatch row0 snoozed0.2).2.

(** The steps of that run. *)
Definition idle (s : DB) (t : Z) (w : Ref.world) : sys := mkSys s t w (fun _ => WIdle) (fun _ => UIdle) [].
Definition s1 : sys := idle db0 now0 w0.
Definition s2 : sys := mkSys db0 now0 snoozed0.2 (workers s1) (users s1) [].
Definition s3 : sys := mkSys (Snooze_ Delivered now0 now0 "id1" (input_of "t" "u" "acc" request0) db0).2 now0 (world s2) (workers s2) (users s2) [].
Definition s4 : sys := mkSys (db s3) until0 (world s3) (workers s3) (users s3) [].
Definition claimed0 : Snooze := set_row StatusSnoozed 1 "" (until0 + DispatchLeaseInterval) None now0 row0.
Definition s5 : sys := mkSys (claim0 (db s4)).2 until0 (world s4) (worker_at O (WClaimed claimed0) s4) (users s4) [].
Definition woken5 : result string unit * Ref.world := wake Ref.dispatch claimed0 (world s5).
Definition s6 : sys := mkSys (db s5) until0 woken5.2 (worker_at O (WAnswered claimed0 woken5.1) s5) (users s5) (acknowledged "id1" woken5.1 woken5.2 []).
Definition s7 : sys := mkSys (conclude Delivered worker0 until0 until0 claimed0 woken5.1 (db s6)).2 until0 (world s6) (worker_at O WIdle s6) (users s6) (restored s6).
Definition row7 : Snooze := set_row StatusUnsnoozed 1 "" (until0 + DispatchLeaseInterval) (Some until0) until0 row0.

Lemma run0 : rtc (sstep Ref.dispatch worker0) s1 s7.
Proof.
  eapply rtc_l; [apply (step_mail Ref.dispatch worker0 s1 snoozed0.2)|].
  eapply rtc_l; [apply (step_insert Ref.dispatch worker0 s2 Delivered now0 "id1" (input_of "t" "u" "acc" request0))|].
  eapply rtc_l; [by apply (step_time Ref.dispatch worker0 s3 until0)|].
  eapply rtc_l; [eapply (step_claim Ref.dispatch worker0 s4 O Delivered until0 ∅ (Ok claimed0) (claim0 (db s4)).2); [done | by vm_compute]|].
  eapply rtc_l; [apply (step_wake Ref.dispatch worker0 s5 O claimed0 woken5.1 woken5.2); [done | apply surjective_pairing]|].
  eapply rtc_l; [apply (step_finish Ref.dispatch worker0 s6 O Delivered until0 claimed0 woken5.1); done|].
  apply rtc_refl.
Qed.
End SnoozeExamples.
Import SnoozeExamples.

Lemma snooze_round_trip_witness : exists m3, email Ref.dispatch woken0 "acc" "e1" = Some m3 /\ mailboxes m3 = {["inbox"; "work"]}%string /\ seen m3 = false.
Proof.
  apply (snooze_round_trip Ref.dispatch "t" "u" request0 "acc" Delivered now0 now0 now0 "id1" db0 w0 row0 snoozed0.1.2 snoozed0.2 old)
    with (ss := row0) (w2 := snoozed0.2).
  - vm_compute. reflexivity.
  - vm_compute. reflexivity.
  - vm_compute. reflexivity.
  - apply (bool_decide_unpack _). vm_compute. exact I.
  - apply (bool_decide_unpack _). vm_compute. exact I.
  - reflexivity.
  - reflexivity.
  - left. apply injective_projections; [vm_compute; reflexivity | reflexivity].
Defined.

Lemma closed_after_restored_witness : Status row7 = StatusUnsnoozed /\ exists w, ("id1"%string, w) ∈ restored s7 /\ placed Ref.dispatch row7 w.
Proof.
  split; [reflexivity|]. apply (closed_after_restored Ref.dispatch worker0 s1 s7 "id1" row7).
  - split_and!; [intros id r Hr; discriminate Hr | reflexivity | reflexivity | reflexivity | intros id r Hr; discriminate Hr].
  - exact run0.
  - vm_compute. reflexivity.
  - left. reflexivity.
Defined.

(** ** Findings *)
Definition mailboxes_of (w : Ref.world) : option (gset string) := mailboxes <$> Ref.mail_at w "acc" "e1".
Definition statuses (s : DB) : list status := Status <$> (map_to_list (rows s)).*2.

(** A request may list the snoozed mailbox among the originals with the value
    false; the worker adds it back after removing it, so the row is unsnoozed
    and the email stays where it was hidden. *)
Theorem false_original_stays_snoozed :
  let '(r, s, w) := snooze (ask {["inbox" := true; "work" := true; "snz" := false]}%string) "id1" db0 w0 in
  let '(_, s', w') := dispatchOne Ref.dispatch worker0 env0 s w in
  statuses s' = [StatusUnsnoozed] /\ mailboxes_of w' = Some {["inbox"; "work"; "snz"]}%string.
Proof. by vm_compute. Qed.

(** When the answer to the first move is lost the request fails and leaves the
    email in the snoozed mailbox without a row that would wake it. *)
Theorem lost_answer_orphans_email :
  let '(r, s, w) := snooze request0 "id1" db0 (Ref.mkWorld (Ref.boxes w0) (Ref.mails w0) [ReplyLost]) in
  r = Fail 502 /\ statuses s = [] /\ mailboxes_of w = Some {["snz"%string]}.
Proof. by vm_compute. Qed.

(** Snoozing again between the worker's move and its update is answered with
    409 and not undone: the row closes, the email stays hidden. *)
Theorem snooze_during_wake_orphans_email :
  let '(c, s) := claim0 (db s4) in
  let '(m, w) := wake Ref.dispatch claimed0 (world s4) in
  let '(r, s', w') := snooze request0 "id2" s w in
  c = Ok claimed0 /\ m = Ok tt /\ r = Fail 409 /\
  statuses (conclude Delivered worker0 until0 until0 claimed0 m s').2 = [StatusUnsnoozed] /\ mailboxes_of w' = Some {["snz"%string]}.
Proof. by vm_compute. Qed.
