(* ===== verification/ConfidentialSend.v ===== *)
(** * Confidential send ([internal/confidentialsend])

    Links to encrypted blobs that a recipient opens without an account: the
    public portal checks a token, an optional password, an expiry and a cap on
    views, and counts attempts in Valkey.  A link may be wrapped under a key
    of the MLS service, which [HTTPKeyDeriver] asks for.  Every service method
    is one transaction on the table of links; [play] runs a sequence of
    handler calls.  bcrypt, the MLS service and the server's parsing of UUIDs
    are parameters; JSON bodies are what they decode to. *)

From S2P Require Import Prelude Text Table Valkey.

Local Open Scope Z_scope.
Local Open Scope go_scope.

(** ** Data *)

(** A row of [confidential_send_links]. *)
Record link := mkLink {
  l_id : string; l_tenant : string; l_sender : string; l_token : string; l_blob : string; l_hash : string; l_expires : Z;
  l_max : Z; l_views : Z; l_revoked : bool; l_created : Z; l_key : string; l_leaf : string; l_participants : list string; l_epoch : Z;
}.

Record DB := mkDB { tenants : gset string; links : list link }.
Definition with_links (x : list link) (s : DB) : DB := mkDB (tenants s) x.

Record SecureMessage := mkMessage {
  ID : string; TenantID : string; SenderID : string; LinkToken : string; EncryptedBlobRef : string; HasPassword : bool; ExpiresAt : Z;
  MaxViews : Z; ViewCount : Z; Revoked : bool; CreatedAt : Z; MLSWrapped : bool; MLSWrappingKey : string; MLSEpoch : Z;
}.

Record CreateRequest := mkRequest {
  rTenantID : string; rSenderID : string; rEncryptedBlobRef : string; Password : string; ExpiresIn : Z; rMaxViews : Z;
  SenderLeafKey : string; Recipients : list string;
}.

(** [DeriveFailed], [RekeyFailed] and [CreateFailed] wrap an error. *)
Inductive cerror :=
| TenantRequired | SenderRequired | BlobRequired | ExpiryTooLong | NegativeViews | PoolNotConfigured | IDsRequired
| ErrRand | ErrHash | ErrStore
| ErrMLSPartialRequest | ErrMLSDisabled | ErrMLSDeriveFailed | ErrInvalidRekeyRequest
| ErrLinkExpired | ErrLinkRevoked | ErrViewsExceeded | ErrInvalidPassword | ErrLinkNotFound
| MLSInput | MLSTransport | MLSStatus (code : Z) | MLSDecode | MLSEmptyKey
| DeriveFailed (e : cerror) | RekeyFailed (e : cerror) | CreateFailed (e : cerror).
#[export] Instance cerror_eq_dec : EqDecision cerror.
Proof. solve_decision. Defined.

(** [errors.Is]. *)
Fixpoint Is (e target : cerror) : bool :=
  bool_decide (e = target) ||
  match e with
  | DeriveFailed e' => bool_decide (target = ErrMLSDeriveFailed) || Is e' target
  | RekeyFailed e' | CreateFailed e' => Is e' target
  | _ => false
  end.

(** ** The MLS service ([mls.go]) *)
Record MLSKeyDeriver (W : Type) := mkDeriver {
  DeriveWrappingKey : string -> string -> W -> result cerror string * W;
  RekeyMessage : string -> list string -> W -> result cerror string * W;
}.
Arguments mkDeriver {W} _ _.
Arguments DeriveWrappingKey {W} _ _ _ _.
Arguments RekeyMessage {W} _ _ _ _.

Record HTTPKeyDeriver := mkHTTP { Endpoint : string; Token : string }.

(** [strings.TrimRight(endpoint, "/")]. *)
Definition trim_slashes (s : string) : string := TrimRight (Ascii.ascii_of_nat 47) s.
Definition NewHTTPKeyDeriver (endpoint token : string) : HTTPKeyDeriver := mkHTTP (trim_slashes endpoint) token.

Definition Enabled (d : option HTTPKeyDeriver) : bool :=
  match d with None => false | Some d => negb (blank (Endpoint d)) end.

Inductive mls_body := WrapBody (senderLeafKey recipientCredential : string) | RekeyBody (messageID : string) (newParticipants : list string).
Record mls_request := mkMLSRequest { url : string; authorization : option string; body : mls_body }.

(** The key in a reply is absent when it does not decode, and empty when the
    document has none. *)
Record mls_response := mkMLSResponse { StatusCode : Z; wrapping_key : option string }.

Section http.
(** [None] when the request could not be made or was not answered. *)
Context {W : Type} (Do : mls_request -> W -> option mls_response * W).

Definition post (d : HTTPKeyDeriver) (path : string) (b : mls_body) (w : W) : result cerror string * W :=
  let '(resp, w) := Do (mkMLSRequest (Endpoint d +:+ path) (if String.eqb (Token d) "" then None else Some ("Bearer " +:+ Token d)) b) w in
  (match resp with
   | None => Err MLSTransport
   | Some resp =>
       if negb (StatusCode resp =? 200) then Err (MLSStatus (StatusCode resp))
       else match wrapping_key resp with
       | None => Err MLSDecode
       | Some k => if String.eqb k "" then Err MLSEmptyKey else Ok k
       end
   end, w).

Definition http_derive (d : option HTTPKeyDeriver) (senderLeafKey recipientCredential : string) (w : W) : result cerror string * W :=
  match d with
  | None => (Err ErrMLSDisabled, w)
  | Some d' =>
      if negb (Enabled d) then (Err ErrMLSDisabled, w)
      else if String.eqb senderLeafKey "" || String.eqb recipientCredential "" then (Err MLSInput, w)
      else post d' "/mls/wrap" (WrapBody senderLeafKey recipientCredential) w
  end.

Definition http_rekey (d : option HTTPKeyDeriver) (messageID : string) (newParticipants : list string) (w : W) : result cerror string * W :=
  match d with
  | None => (Err ErrMLSDisabled, w)
  | Some d' =>
      if negb (Enabled d) then (Err ErrMLSDisabled, w)
      else if String.eqb messageID "" then (Err MLSInput, w)
      else post d' "/mls/rekey" (RekeyBody messageID newParticipants) w
  end.

Definition http_deriver (d : option HTTPKeyDeriver) : MLSKeyDeriver W := mkDeriver (http_derive d) (http_rekey d).
End http.

(** ** The service ([service.go]) *)

(** The field [mls]: nil, an [HTTPKeyDeriver] or another implementation. *)
Inductive mls_field (W : Type) :=
| MLSNil
| MLSHTTP (d : option HTTPKeyDeriver) (Do : mls_request -> W -> option mls_response * W)
| MLSOther (d : MLSKeyDeriver W).
Arguments MLSNil {W}.
Arguments MLSHTTP {W} d Do.
Arguments MLSOther {W} d.

Record Service (W : Type) := mkService { pool : bool; mls : mls_field W }.
Arguments mkService {W} _ _.
Arguments pool {W} _.
Arguments mls {W} _.

Definition NewService {W} (pool : bool) : Service W := mkService pool MLSNil.
Definition WithMLS {W} (d : mls_field W) (s : Service W) : Service W := mkService (pool s) d.

Definition SetTenantGUC (tenantID : string) : result cerror unit := if String.eqb tenantID "" then Err ErrStore else Ok tt.

(** [INT] columns. *)
Definition int4 (z : Z) : bool := (- 2 ^ 31 <=? z) && (z <? 2 ^ 31).

(** What one call finds around it: the fates of its transaction, the clocks
    of the process and of the server, the id the server generates, random
    bytes, and bcrypt's hash with the salt of the call. *)
Record env := mkEnv {
  e_d : delivery; e_now : Z; e_dbnow : Z; e_id : string; e_rand : option (list Z); e_bcrypt : string -> option string;
}.

Record wrapResult := mkWrap { wrapped : bool; wrappingKey : string; senderLeaf : string; participants : list string }.
Definition noWrap : wrapResult := mkWrap false "" "" [].

(** The [SET] clauses of the three updates. *)
Definition viewed (r : link) : link :=
  mkLink (l_id r) (l_tenant r) (l_sender r) (l_token r) (l_blob r) (l_hash r) (l_expires r) (l_max r) (l_views r + 1) (l_revoked r)
    (l_created r) (l_key r) (l_leaf r) (l_participants r) (l_epoch r).
Definition revoke_row (r : link) : link :=
  mkLink (l_id r) (l_tenant r) (l_sender r) (l_token r) (l_blob r) (l_hash r) (l_expires r) (l_max r) (l_views r) true
    (l_created r) (l_key r) (l_leaf r) (l_participants r) (l_epoch r).
Definition rekeyed (key : string) (parts : list string) (r : link) : link :=
  mkLink (l_id r) (l_tenant r) (l_sender r) (l_token r) (l_blob r) (l_hash r) (l_expires r) (l_max r) (l_views r) (l_revoked r)
    (l_created r) key (l_leaf r) parts (l_epoch r + 1).

Definition newToken (rand : option (list Z)) : result cerror string :=
  match rand with None => Err ErrRand | Some bytes => Ok (base64url bytes) end.

Section service.
(** [uuid] is the server's reading of a UUID, in canonical form; [compare] is
    bcrypt's comparison of a hash and a password. *)
Context {W : Type} (uuid : string -> option string) (compare : string -> string -> bool) (s : Service W).

Definition MLSEnabled : bool :=
  match mls s with
  | MLSNil => false
  | MLSHTTP d _ => Enabled d
  | MLSOther _ => true
  end.
Definition deriver : MLSKeyDeriver W :=
  match mls s with
  | MLSNil => mkDeriver (fun _ _ w => (Err ErrMLSDisabled, w)) (fun _ _ w => (Err ErrMLSDisabled, w))
  | MLSHTTP d Do => http_deriver Do d
  | MLSOther d => d
  end.

Definition DeriveMLSWrappingKey (senderLeafKey recipientCredential : string) (w : W) : result cerror string * W :=
  if negb MLSEnabled then (Err ErrMLSDisabled, w) else DeriveWrappingKey deriver senderLeafKey recipientCredential w.

(** The row a statement of a tenant addresses. *)
Definition addressed (tenantID linkID : string) (r : link) : bool :=
  String.eqb (l_tenant r) tenantID && String.eqb (l_id r) linkID.
Definition parsed {A} (tenantID linkID : string) (k : string -> string -> result cerror A) : result cerror A :=
  match uuid tenantID, uuid linkID with Some t, Some l => k t l | _, _ => Err ErrStore end.

Definition RekeyConfidentialMessage (d : delivery) (tenantID linkID : string) (newParticipants : list string) (db : DB) (w : W)
    : result cerror string * DB * W :=
  if negb MLSEnabled then (Err ErrMLSDisabled, db, w)
  else if blank tenantID || blank linkID then (Err ErrInvalidRekeyRequest, db, w)
  else match newParticipants with
  | [] => (Err ErrInvalidRekeyRequest, db, w)
  | _ =>
      if negb (pool s) then (Err PoolNotConfigured, db, w)
      else
        let '(k, w) := RekeyMessage deriver linkID newParticipants w in
        match k with
        | Err e => (Err (RekeyFailed e), db, w)
        | Ok newKey =>
            let '(r, db) := BeginFunc ErrStore d (fun db =>
              let? _ := SetTenantGUC tenantID in
              parsed tenantID linkID (fun t l =>
                let p r := addressed t l r && negb (String.eqb (l_leaf r) "") in
                let hit := List.filter p (links db) in
                if negb (forallb (fun r => int4 (l_epoch r + 1)) hit) then Err ErrStore
                else match hit with
                | [] => Err ErrLinkNotFound
                | _ => Ok (tt, with_links (update p (rekeyed newKey newParticipants) (links db)) db)
                end)) db in
            (match r with Ok _ => Ok newKey | Err e => Err e end, db, w)
        end
  end.

Definition resolveCreateWrapping (req : CreateRequest) (w : W) : result cerror wrapResult * W :=
  let hasLeaf := negb (blank (SenderLeafKey req)) in
  match Recipients req with
  | [] => if hasLeaf then (Err ErrMLSPartialRequest, w) else (Ok noWrap, w)
  | recipient :: _ =>
      if negb hasLeaf then (Err ErrMLSPartialRequest, w)
      else if negb MLSEnabled then (Err ErrMLSDisabled, w)
      else
        let '(k, w) := DeriveWrappingKey deriver (SenderLeafKey req) recipient w in
        (match k with
         | Err e => Err (DeriveFailed e)
         | Ok key => Ok (mkWrap true key (SenderLeafKey req) (Recipients req))
         end, w)
  end.

Definition validateCreate (req : CreateRequest) : result cerror Z :=
  if blank (rTenantID req) then Err TenantRequired
  else if blank (rSenderID req) then Err SenderRequired
  else if blank (rEncryptedBlobRef req) then Err BlobRequired
  else
    let expiresIn := if ExpiresIn req <=? 0 then 24 * Hour else ExpiresIn req in
    if 30 * 24 * Hour <? expiresIn then Err ExpiryTooLong
    else if rMaxViews req <? 0 then Err NegativeViews
    else Ok expiresIn.

Definition password_hash (E : env) (req : CreateRequest) : result cerror string :=
  if String.eqb (Password req) "" then Ok ""%string
  else match e_bcrypt E (Password req) with None => Err ErrHash | Some h => Ok h end.

(** The columns the statement leaves out have their defaults. *)
Definition insert_link (E : env) (req : CreateRequest) (token hash : string) (expiresAt : Z) (wrap : wrapResult) (db : DB)
    : result cerror (link * DB) :=
  let? _ := SetTenantGUC (rTenantID req) in
  match uuid (rTenantID req) with
  | None => Err ErrStore
  | Some t =>
      if bool_decide (t ∈ tenants db) && int4 (rMaxViews req)
         && negb (existsb (fun r => String.eqb (l_id r) (e_id E) || String.eqb (l_token r) token) (links db))
      then
        let r := mkLink (e_id E) t (rSenderID req) token (rEncryptedBlobRef req) hash (micro expiresAt) (rMaxViews req) 0 false (e_dbnow E)
                   (wrappingKey wrap) (senderLeaf wrap) (participants wrap) 0 in
        Ok (r, with_links (links db ++ [r]) db)
      else Err ErrStore
  end.

Definition CreateSecureMessage (E : env) (req : CreateRequest) (db : DB) (w : W) : result cerror SecureMessage * DB * W :=
  match validateCreate req with
  | Err e => (Err e, db, w)
  | Ok expiresIn =>
      let '(wrap, w) := resolveCreateWrapping req w in
      match wrap with
      | Err e => (Err e, db, w)
      | Ok wrap =>
          if negb (pool s) then (Err PoolNotConfigured, db, w)
          else match newToken (e_rand E), password_hash E req with
          | Err e, _ => (Err e, db, w)
          | _, Err e => (Err e, db, w)
          | Ok token, Ok hash =>
              let '(r, db) := BeginFunc ErrStore (e_d E) (insert_link E req token hash (e_now E + expiresIn) wrap) db in
              (match r with
               | Err e => Err (CreateFailed e)
               | Ok r => Ok (mkMessage (l_id r) (l_tenant r) (l_sender r) (l_token r) (l_blob r) (negb (String.eqb hash "")) (l_expires r)
                               (l_max r) (l_views r) (l_revoked r) (l_created r) (wrapped wrap) (wrappingKey wrap) (l_epoch r))
               end, db, w)
          end
      end
  end.

(** What the portal shows of a link: never the wrapping key. *)
Definition portal_message (r : link) : SecureMessage :=
  mkMessage (l_id r) (l_tenant r) (l_sender r) (l_token r) (l_blob r) (negb (String.eqb (l_hash r) "")) (l_expires r)
    (l_max r) (l_views r) (l_revoked r) (l_created r) (negb (String.eqb (l_key r) "")) "" (l_epoch r).

Definition check_link (now : Z) (password : string) (r : link) : result cerror unit :=
  if l_revoked r then Err ErrLinkRevoked
  else if l_expires r <? now then Err ErrLinkExpired
  else if (0 <? l_max r) && (l_max r <=? l_views r) then Err ErrViewsExceeded
  else if negb (String.eqb (l_hash r) "") && negb (compare (l_hash r) password) then Err ErrInvalidPassword
  else Ok tt.

Definition GetSecureMessage (d : delivery) (now : Z) (token password : string) (db : DB) : result cerror SecureMessage * DB :=
  if blank token then (Err ErrLinkNotFound, db)
  else if negb (pool s) then (Err PoolNotConfigured, db)
  else BeginFunc ErrStore d (fun db =>
    match List.find (fun r => String.eqb (l_token r) token) (links db) with
    | None => Err ErrLinkNotFound
    | Some r =>
        let? _ := check_link now password r in
        if int4 (l_views r + 1)
        then Ok (portal_message (viewed r), with_links (update (fun x => String.eqb (l_id x) (l_id r)) viewed (links db)) db)
        else Err ErrStore
    end) db.

Definition RevokeLink (d : delivery) (tenantID linkID : string) (db : DB) : result cerror unit * DB :=
  if String.eqb tenantID "" || String.eqb linkID "" then (Err IDsRequired, db)
  else if negb (pool s) then (Err PoolNotConfigured, db)
  else BeginFunc ErrStore d (fun db =>
    let? _ := SetTenantGUC tenantID in
    parsed tenantID linkID (fun t l => Ok (tt, with_links (update (addressed t l) revoke_row (links db)) db))) db.

Definition listed (r : link) : SecureMessage :=
  mkMessage (l_id r) (l_tenant r) (l_sender r) (l_token r) "" (negb (String.eqb (l_hash r) "")) (l_expires r)
    (l_max r) (l_views r) (l_revoked r) (l_created r) (negb (String.eqb (l_leaf r) "")) "" (l_epoch r).

(** [newest_first] is [ORDER BY created_at DESC]. *)
Definition ListSentSecureMessages (newest_first : list link -> list link) (d : delivery) (tenantID senderID : string) (db : DB)
    : result cerror (list SecureMessage) :=
  if String.eqb tenantID "" then Err TenantRequired
  else if negb (pool s) then Ok []
  else match d with
  | Delivered =>
      match uuid tenantID with
      | None => Err ErrStore
      | Some t =>
          let p r := String.eqb (l_tenant r) t && (String.eqb senderID "" || String.eqb (l_sender r) senderID) in
          Ok (listed <$> take 200 (newest_first (List.filter p (links db))))
      end
  | _ => Err ErrStore
  end.
End service.

(** ** Handlers ([handlers.go]) *)
Record Handlers (W : Type) := mkHandlers { svc : Service W; valkey : bool; maxAttempts : Z; attemptWindow : Z }.
Arguments mkHandlers {W} _ _ _ _.
Arguments svc {W} _.
Arguments valkey {W} _.
Arguments maxAttempts {W} _.
Arguments attemptWindow {W} _.
Definition NewHandlers {W} (s : Service W) (valkey : bool) : Handlers W := mkHandlers s valkey 5 (15 * Minute).

Record createBody := mkCreateBody {
  bSenderID : string; bEncryptedBlobRef : string; bPassword : string; ExpiresInSec : Z; bMaxViews : Z; bSenderLeafKey : string;
  bRecipients : list string;
}.

Inductive response :=
| Fail (code : Z)
| Created (m : SecureMessage)
| OkMessage (m : SecureMessage)
| OkMessages (l : list SecureMessage)
| OkKey (key : string)
| OkEnabled (b : bool)
| NoContent.

Definition bucket_key (window : Z) (token : string) (now : Z) : string :=
  "kmail:cs:portal:" +:+ token +:+ ":" +:+ pretty (Unix (Truncate now window)).

(** [EXPIRE] takes whole seconds. *)
Definition bucket_ttl (window : Z) : Z := 1000 * Z.max 1 ((window + 5 * Second) / Second).

Section attempts.
Context {V : Type} `{VC : ValkeyCounter V}.

(** The two commands of an attempt; between them other pods run theirs. *)
Definition incr_attempt (d : delivery) (sv window now : Z) (token : string) (v : V) : option Z * V :=
  remote d (fun v => vk_incr sv (bucket_key window token now) v) v.
Definition expire_attempt (d : delivery) (sv window now : Z) (token : string) (v : V) : option unit * V :=
  remote d (fun v => (tt, vk_pexpire sv (bucket_key window token now) (bucket_ttl window) v)) v.

Definition allowAttempt {W} (h : Handlers W) (d d' : delivery) (sv sv' now : Z) (token : string) (v : V) : bool * V :=
  if negb (valkey h) then (true, v)
  else
    let '(count, v) := incr_attempt d sv (attemptWindow h) now token v in
    match count with
    | None => (true, v)
    | Some count =>
        let v := if count =? 1 then (expire_attempt d' sv' (attemptWindow h) now token v).2 else v in
        (count <=? maxAttempts h, v)
    end.
End attempts.

Section handlers.
Context {W V : Type} `{VC : ValkeyCounter V} (uuid : string -> option string) (compare : string -> string -> bool) (h : Handlers W).

Record world := mkWorld { db : DB; vk : V; ms : W }.

Definition mlsStatus : response := OkEnabled (MLSEnabled (svc h)).

Definition mlsWrap (in_ : option (string * string)) (w : world) : response * world :=
  match in_ with
  | None => (Fail 400, w)
  | Some (leaf, cred) =>
      let '(k, m) := DeriveMLSWrappingKey (svc h) leaf cred (ms w) in
      (match k with
       | Ok key => OkKey key
       | Err e => if Is e ErrMLSDisabled then Fail 503 else Fail 502
       end, mkWorld (db w) (vk w) m)
  end.

Definition mlsRekey (d : delivery) (tenantID linkID : string) (in_ : option (list string)) (w : world) : response * world :=
  match in_ with
  | None => (Fail 400, w)
  | Some parts =>
      let '(k, s, m) := RekeyConfidentialMessage uuid (svc h) d tenantID linkID parts (db w) (ms w) in
      (match k with
       | Ok key => OkKey key
       | Err e =>
           if Is e ErrMLSDisabled then Fail 503
           else if Is e ErrInvalidRekeyRequest then Fail 400
           else if Is e ErrLinkNotFound then Fail 404
           else Fail 502
       end, mkWorld s (vk w) m)
  end.

(** [time.Duration(n) * time.Second] wraps. *)
Definition request_of (tenantID : string) (b : createBody) : CreateRequest :=
  mkRequest tenantID (bSenderID b) (bEncryptedBlobRef b) (bPassword b) (wrap64 (ExpiresInSec b * Second)) (bMaxViews b)
    (bSenderLeafKey b) (bRecipients b).

Definition create (E : env) (tenantID : string) (in_ : option createBody) (w : world) : response * world :=
  match in_ with
  | None => (Fail 400, w)
  | Some b =>
      let '(r, s, m) := CreateSecureMessage uuid (svc h) E (request_of tenantID b) (db w) (ms w) in
      (match r with
       | Ok out => Created out
       | Err e =>
           if Is e ErrMLSDisabled then Fail 503
           else if Is e ErrMLSDeriveFailed then Fail 502
           else Fail 400
       end, mkWorld s (vk w) m)
  end.

Definition list_handler (newest_first : list link -> list link) (d : delivery) (tenantID senderID : string) (w : world) : response :=
  match ListSentSecureMessages uuid (svc h) newest_first d tenantID senderID (db w) with
  | Ok out => OkMessages out
  | Err _ => Fail 500
  end.

Definition revoke (d : delivery) (tenantID linkID : string) (w : world) : response * world :=
  let '(r, s) := RevokeLink uuid (svc h) d tenantID linkID (db w) in
  (match r with Ok _ => NoContent | Err _ => Fail 500 end, mkWorld s (vk w) (ms w)).

Definition portal_status (e : cerror) : Z :=
  if Is e ErrLinkNotFound then 404
  else if Is e ErrLinkRevoked || Is e ErrLinkExpired || Is e ErrViewsExceeded then 410
  else if Is e ErrInvalidPassword then 401
  else 500.

(** A visit: the fates and server instants of the two commands, the instants
    of the limiter and of the service, the fate of the transaction.  [in_] is
    the password of a POST whose body decodes. *)
Record visit := mkVisit {
  v_d : delivery; v_d' : delivery; v_sv : Z; v_sv' : Z; v_now : Z; v_tx : delivery; v_now' : Z; v_in : option string;
}.
Definition password_of (x : visit) : string := default ""%string (v_in x).

Definition portal (x : visit) (token : string) (w : world) : response * world :=
  if String.eqb token "" then (Fail 400, w)
  else
    let '(ok, v) := allowAttempt h (v_d x) (v_d' x) (v_sv x) (v_sv' x) (v_now x) token (vk w) in
    if negb ok then (Fail 429, mkWorld (db w) v (ms w))
    else
      let '(r, s) := GetSecureMessage compare (svc h) (v_tx x) (v_now' x) token (password_of x) (db w) in
      (match r with Ok m => OkMessage m | Err e => Fail (portal_status e) end, mkWorld s v (ms w)).

(** ** Histories *)
Inductive call :=
| Create (E : env) (tenantID : string) (in_ : option createBody)
| ListSent (newest_first : list link -> list link) (d : delivery) (tenantID senderID : string)
| Revoke (d : delivery) (tenantID linkID : string)
| Visit (x : visit) (token : string)
| Status
| Wrap (in_ : option (string * string))
| Rekey (d : delivery) (tenantID linkID : string) (in_ : option (list string)).

Definition serve (c : call) (w : world) : response * world :=
  match c with
  | Create E t b => create E t b w
  | ListSent o d t u => (list_handler o d t u w, w)
  | Revoke d t l => revoke d t l w
  | Visit x token => portal x token w
  | Status => (mlsStatus, w)
  | Wrap b => mlsWrap b w
  | Rekey d t l b => mlsRekey d t l b w
  end.

Fixpoint play (cs : list call) (w : world) : list (call * response) * world :=
  match cs with
  | [] => ([], w)
  | c :: cs => let '(x, w) := serve c w in let '(tr, w) := play cs w in ((c, x) :: tr, w)
  end.
End handlers.
Arguments world : clear implicits.
Arguments mkWorld {W V} _ _ _.

(** ** One link through a history *)

(** [r] is the only row with its id and the only one with its token. *)
Definition holds (r : link) (l : list link) : Prop :=
  r ∈ l /\ forall x, x ∈ l -> l_id x = l_id r \/ l_token x = l_token r -> x = r.

(** What no call undoes. *)
Definition evolves (r r' : link) : Prop :=
  l_id r' = l_id r /\ l_tenant r' = l_tenant r /\ l_token r' = l_token r /\ l_blob r' = l_blob r /\ l_hash r' = l_hash r /\
  l_expires r' = l_expires r /\ l_max r' = l_max r /\ (l_revoked r = true -> l_revoked r' = true) /\ l_views r <= l_views r'.

#[export] Instance evolves_preorder : PreOrder evolves.
Proof.
  split.
  - intros r. unfold evolves. split_and!; (done || lia).
  - intros r1 r2 r3. unfold evolves. intros H1 H2. destruct_and!. split_and!; (congruence || lia || auto).
Qed.

Lemma evolves_viewed r : evolves r (viewed r).
Proof. unfold evolves. cbn. split_and!; (done || lia). Qed.
Lemma evolves_revoke r : evolves r (revoke_row r).
Proof. unfold evolves. cbn. split_and!; (done || lia). Qed.
Lemma evolves_rekeyed k ps r : evolves r (rekeyed k ps r).
Proof. unfold evolves. cbn. split_and!; (done || lia). Qed.
#[export] Hint Resolve evolves_viewed evolves_revoke evolves_rekeyed : kmail.

Lemma holds_update (p : link -> bool) f r l : (forall x, evolves x (f x)) -> holds r l -> holds (if p r then f r else r) (update p f l).
Proof.
  intros Hf [Hr Hu]. assert (forall x, l_id (if p x then f x else x) = l_id x /\ l_token (if p x then f x else x) = l_token x) as Hk.
  { intros x. destruct (p x); [|done]. destruct (Hf x) as (? & _ & ? & _). done. }
  split.
  - apply elem_of_update. eauto.
  - intros x (y & Hy & ->)%elem_of_update. destruct (Hk y) as [-> ->], (Hk r) as [-> ->]. intros Hyr. by rewrite (Hu y Hy Hyr).
Qed.

Lemma evolves_if (p : link -> bool) f r : (forall x, evolves x (f x)) -> evolves r (if p r then f r else r).
Proof. intros Hf. destruct (p r); [apply Hf|done]. Qed.

Lemma holds_app r x l : l_id x <> l_id r -> l_token x <> l_token r -> holds r l -> holds r (l ++ [x]).
Proof.
  intros Hi Ht [Hr Hu]. split; [set_solver|]. intros y [Hy|Hy]%elem_of_app; [by apply Hu|].
  apply list_elem_of_singleton in Hy as ->. naive_solver.
Qed.

Lemma holds_inserted x l : existsb (fun r => String.eqb (l_id r) (l_id x) || String.eqb (l_token r) (l_token x)) l = false -> holds x (l ++ [x]).
Proof.
  intros H. rewrite existsb_false in H. split; [set_solver|]. intros y [Hy|Hy]%elem_of_app Hk; [|by apply list_elem_of_singleton in Hy].
  specialize (H y Hy). cbn in H. breflect. naive_solver.
Qed.

(** The state after the transaction the goal is stuck on satisfies [P] if the
    state before it and every outcome of its body do. *)
Ltac tx_case P :=
  match goal with
  | |- context [BeginFunc ?l ?d ?f ?s] =>
      let H := fresh in
      pose proof (BeginFunc_ind P l d f s) as H; destruct (BeginFunc l d f s) as [? ?]; cbn in H |- *; apply H; clear H
  end.

Section link_history.
Context {W V : Type} `{VC : ValkeyCounter V} (uuid : string -> option string) (compare : string -> string -> bool) (h : Handlers W).
Implicit Types (w : world W V) (r : link) (c : call).

(** [c] was answered with the link of [token]. *)
Definition is_view (token : string) (e : call * response) : bool :=
  match e with (Visit _ _, OkMessage m) => String.eqb (LinkToken m) token | _ => false end.
(** [c] asks to revoke the link [r]. *)
Definition revokes r c : bool :=
  match c with
  | Revoke _ t l => bool_decide (uuid t = Some (l_tenant r)) && bool_decide (uuid l = Some (l_id r))
  | _ => false
  end.

(** What a served visit says of the link it found. *)
Definition served_of r (e : call * response) : Prop :=
  match e with
  | (Visit x _, OkMessage m) => m = portal_message (viewed r) /\ check_link compare (v_now' x) (password_of x) r = Ok tt
  | _ => False
  end.

Lemma insert_link_ok E req token hash t wrap s r s' : insert_link uuid E req token hash t wrap s = Ok (r, s') ->
  uuid (rTenantID req) = Some (l_tenant r) /\
  r = mkLink (e_id E) (l_tenant r) (rSenderID req) token (rEncryptedBlobRef req) hash (micro t) (rMaxViews req) 0 false (e_dbnow E)
        (wrappingKey wrap) (senderLeaf wrap) (participants wrap) 0 /\
  s' = with_links (links s ++ [r]) s /\
  existsb (fun x => String.eqb (l_id x) (e_id E) || String.eqb (l_token x) token) (links s) = false.
Proof.
  unfold insert_link. intros (_ & _ & H)%rbind_ok. destruct (uuid (rTenantID req)) as [tn|]; [|done].
  destruct (bool_decide _ && _ && _) eqn:G; [|done]. injection H as <- <-. breflect. done.
Qed.

Lemma create_keeps E t b w r : holds r (links (db w)) -> holds r (links (db (create uuid h E t b w).2)).
Proof.
  intros Hr. unfold create. destruct b as [b|]; [|done]. unfold CreateSecureMessage.
  destruct (validateCreate _) as [x|]; [|done]. destruct (resolveCreateWrapping _ _ _) as [[wr|] m]; [|done].
  destruct (negb _); [done|]. destruct (newToken _) as [tok|]; [|done]. destruct (password_hash _ _) as [ph|]; [|done].
  tx_case (fun s => holds r (links s)); [done|]. intros y s' (_ & Hy & -> & Hn)%insert_link_ok.
  rewrite existsb_false in Hn. destruct Hr as [Hin Hu]. specialize (Hn r Hin). cbn in Hn. breflect.
  apply holds_app; [rewrite Hy; cbn; congruence..|done].
Qed.

(** The row after a call, as a statement that addresses it leaves it. *)
Definition kept r w' : Prop := exists r', holds r' (links (db w')) /\ evolves r r'.

Lemma rekey_keeps d t l b w r : holds r (links (db w)) -> kept r (mlsRekey uuid h d t l b w).2.
Proof.
  intros Hr. unfold mlsRekey. assert (kept r w) as Hw by (by exists r). destruct b as [b|]; [|done]. unfold RekeyConfidentialMessage.
  destruct (negb _); [done|]. destruct (blank t || blank l); [done|]. destruct b as [|p ps]; [done|]. destruct (negb _); [done|].
  destruct (RekeyMessage _ _ _ _) as [[k|] m]; [|done].
  unfold kept. tx_case (fun s => exists r', holds r' (links s) /\ evolves r r'); [done|]. intros [] s1 (_ & _ & H)%rbind_ok.
  unfold parsed in H. destruct (uuid t) as [t'|], (uuid l) as [l'|]; try done. destruct (negb _) in H; [done|]. destruct (List.filter _ _) in H; [done|].
  injection H as <-. set (q := fun x => addressed t' l' x && negb (String.eqb (l_leaf x) "")). exists (if q r then rekeyed k (p :: ps) r else r).
  split; [apply holds_update|apply evolves_if]; auto with kmail.
Qed.

Lemma revoke_keeps d t l w r : holds r (links (db w)) ->
  exists r', holds r' (links (db (revoke uuid h d t l w).2)) /\ evolves r r' /\
    ((revoke uuid h d t l w).1 = NoContent -> revokes r (Revoke d t l) = true -> l_revoked r' = true).
Proof.
  intros Hr. unfold revoke, RevokeLink. destruct (String.eqb t "" || _); [by exists r|]. destruct (negb _); [by exists r|].
  unfold BeginFunc, SetTenantGUC, parsed. destruct (String.eqb t "") eqn:Et; [by destruct d; exists r|]. cbn [rbind].
  unfold revokes. destruct (uuid t) as [t'|], (uuid l) as [l'|]; try (by destruct d; exists r).
  pose proof (holds_update (addressed t' l') revoke_row r (links (db w)) evolves_revoke Hr) as Hu.
  pose proof (evolves_if (addressed t' l') revoke_row r evolves_revoke) as He.
  destruct d; cbn; [|by exists r|by eexists]. eexists. split_and!; [exact Hu|exact He|]. intros _ Hx. breflect. simplify_eq.
  unfold addressed. by rewrite !String.eqb_refl.
Qed.

Lemma find_token r l token : holds r l -> l_token r = token -> List.find (fun x => String.eqb (l_token x) token) l = Some r.
Proof.
  intros [Hin Hu] Ht. destruct (List.find _ l) as [x|] eqn:Ef.
  - apply find_elem in Ef as [Hx Ex]. breflect. f_equal. apply Hu; [done|right; congruence].
  - pose proof (find_none_elem _ _ Ef r Hin) as Hn. cbn in Hn. apply String.eqb_neq in Hn. congruence.
Qed.

Lemma visit_keeps x token w r : holds r (links (db w)) ->
  exists r', holds r' (links (db (portal compare h x token w).2)) /\ evolves r r' /\
    (is_view (l_token r) (Visit x token, (portal compare h x token w).1) = true ->
     served_of r (Visit x token, (portal compare h x token w).1) /\ r' = viewed r).
Proof.
  intros Hr. unfold portal. destruct (String.eqb token ""); [by exists r|].
  destruct (allowAttempt _ _ _ _ _ _ _ _) as [[] v]; [|by exists r]. cbn [negb]. unfold GetSecureMessage.
  destruct (blank token); [by exists r|]. destruct (negb _); [by exists r|]. unfold BeginFunc. cbn zeta.
  destruct (List.find _ _) as [y|] eqn:Ef; [|by destruct (v_tx x); exists r].
  destruct (check_link compare (v_now' x) (password_of x) y) as [[]|] eqn:Ec; [|by destruct (v_tx x); exists r]. cbn [rbind].
  destruct (int4 _); [|by destruct (v_tx x); exists r].
  pose proof (holds_update (fun z => String.eqb (l_id z) (l_id y)) viewed r (links (db w)) evolves_viewed Hr) as Hu.
  pose proof (evolves_if (fun z => String.eqb (l_id z) (l_id y)) viewed r evolves_viewed) as He. cbv beta in Hu, He.
  destruct (v_tx x); cbn; [|by exists r|by eexists]. eexists. split_and!; [exact Hu|exact He|]. intros Hv. breflect.
  assert (y = r) as ->. { destruct Hr as [_ Hq]. apply find_elem in Ef as [Hy _]. apply Hq; [done|by right]. }
  by rewrite String.eqb_refl.
Qed.

(** One call: the link evolves, a view is counted, a revocation marks it. *)
Lemma serve_keeps c w r : holds r (links (db w)) ->
  exists r', holds r' (links (db (serve uuid compare h c w).2)) /\ evolves r r' /\
    (is_view (l_token r) (c, (serve uuid compare h c w).1) = true -> served_of r (c, (serve uuid compare h c w).1) /\ r' = viewed r) /\
    ((serve uuid compare h c w).1 = NoContent -> revokes r c = true -> l_revoked r' = true).
Proof.
  intros Hr. destruct c as [E t b|o d t u|d t l|x token| |b|d t l b]; cbn [serve].
  - exists r. split_and!; [by apply create_keeps|done|done|done].
  - by exists r.
  - destruct (revoke_keeps d t l w r Hr) as (r' & ? & ? & ?). by exists r'.
  - destruct (visit_keeps x token w r Hr) as (r' & ? & ? & ?). by exists r'.
  - by exists r.
  - exists r. unfold mlsWrap. destruct b as [[leaf cred]|]; [|done]. by destruct (DeriveMLSWrappingKey _ _ _ _).
  - destruct (rekey_keeps d t l b w r Hr) as (r' & ? & ?). exists r'. by split_and!.
Qed.

Lemma check_link_ok now password r : check_link compare now password r = Ok tt ->
  l_revoked r = false /\ now <= l_expires r /\ (0 < l_max r -> l_views r < l_max r) /\
  (l_hash r <> ""%string -> compare (l_hash r) password = true).
Proof.
  unfold check_link. destruct (l_revoked r); [done|]. destruct (l_expires r <? now) eqn:E1; [done|].
  destruct ((0 <? l_max r) && _) eqn:E2; [done|]. destruct (negb _ && _) eqn:E3; [done|]. intros _.
  apply andb_false_iff in E2, E3. breflect. split_and!; [done|lia| |].
  - intros Hm. destruct E2; breflect; lia.
  - intros Hh. destruct E3; breflect; done.
Qed.

Lemma served_ok r e : served_of r e -> l_revoked r = false /\ (0 < l_max r -> l_views r < l_max r).
Proof. destruct e as [[] []]; cbn; try done. intros [_ H]. apply check_link_ok in H. tauto. Qed.

Lemma revokes_evolves r r' c : evolves r r' -> revokes r c = revokes r' c.
Proof. intros (Hi & Ht & _). destruct c; cbn; [done..| |done|done|done|done]. by rewrite Hi, Ht. Qed.

(** The views a history serves of one link. *)
Definition views r (tr : list (call * response)) : list (call * response) := List.filter (is_view (l_token r)) tr.

Lemma views_evolves r r' tr : evolves r r' -> views r' tr = views r tr.
Proof. intros (_ & _ & Ht & _). unfold views. by rewrite Ht. Qed.

Lemma play_bounds cs : forall w r tr w', holds r (links (db w)) -> play uuid compare h cs w = (tr, w') ->
  (0 < l_max r -> Z.of_nat (length (views r tr)) <= Z.max 0 (l_max r - l_views r)) /\
  Forall (fun e => exists r', evolves r r' /\ served_of r' e) (views r tr) /\
  (l_revoked r = true -> views r tr = []).
Proof.
  induction cs as [|c cs IH]; cbn [play]; intros w r tr w' Hr Hp.
  { injection Hp as <- <-. cbn. split_and!; [lia|constructor|done]. }
  destruct (serve_keeps c w r Hr) as (r1 & Hr1 & He & Hv & _). destruct (serve uuid compare h c w) as [x w1]. cbn [fst snd] in *.
  destruct (play uuid compare h cs w1) as [tr1 w2] eqn:Ep. injection Hp as <- <-.
  destruct (IH w1 r1 tr1 w2 Hr1 Ep) as (Hn & Hf & Hd). rewrite (views_evolves _ _ _ He) in *.
  assert (Forall (fun e => exists r', evolves r r' /\ served_of r' e) (views r tr1)) as Hf'.
  { eapply Forall_impl; [exact Hf|]. intros e (r2 & H2 & Hs). exists r2. split; [by etrans|done]. }
  pose proof He as (_ & _ & _ & _ & _ & _ & Hm & Hrev & Hvc). rewrite Hm in Hn.
  replace (views r ((c, x) :: tr1)) with (if is_view (l_token r) (c, x) then (c, x) :: views r tr1 else views r tr1) by done.
  destruct (is_view (l_token r) (c, x)); [|split_and!; [intros Hx; specialize (Hn Hx); lia|done|auto]].
  destruct (Hv eq_refl) as [Hs ->]. destruct (served_ok _ _ Hs) as [Hlive Hroom]. split_and!.
  - intros Hx. specialize (Hn Hx). specialize (Hroom Hx). cbn in Hn |- *. lia.
  - constructor; [by exists r|done].
  - congruence.
Qed.

Lemma play_revoked cs : forall w r tr w' tr1 c tr2, holds r (links (db w)) -> play uuid compare h cs w = (tr, w') ->
  tr = tr1 ++ (c, NoContent) :: tr2 -> revokes r c = true -> views r tr2 = [].
Proof.
  induction cs as [|c0 cs IH]; cbn [play]; intros w r tr w' tr1 c tr2 Hr Hp Ht Hc.
  { injection Hp as <- <-. by destruct tr1. }
  destruct (serve_keeps c0 w r Hr) as (r1 & Hr1 & He & _ & Hv). destruct (serve uuid compare h c0 w) as [x w1]. cbn [fst snd] in *.
  destruct (play uuid compare h cs w1) as [tr' w2] eqn:Ep. injection Hp as <- <-. rewrite <- (views_evolves _ _ _ He).
  destruct tr1 as [|e tr1]; cbn in Ht; injection Ht; intros.
  - subst. destruct (play_bounds cs w1 r1 tr2 w2 Hr1 Ep) as (_ & _ & Hd). apply Hd. by apply Hv.
  - eapply IH; [exact Hr1|exact Ep|eassumption|]. by rewrite <- (revokes_evolves _ _ _ He).
Qed.

Lemma validateCreate_ok req x : validateCreate req = Ok x -> 0 < x <= 30 * 24 * Hour /\ 0 <= rMaxViews req.
Proof.
  unfold validateCreate. assert (24 * Hour < 30 * 24 * Hour /\ 0 < 24 * Hour) by done.
  destruct (blank _); [done|]. destruct (blank _); [done|]. destruct (blank _); [done|]. cbn zeta.
  destruct (30 * 24 * Hour <? _) eqn:E1; [done|]. destruct (rMaxViews req <? 0) eqn:E2; [done|]. intros [= <-]. breflect.
  destruct (ExpiresIn req <=? 0) eqn:E3; breflect; lia.
Qed.

Lemma micro_bounds t : t - 1000 < micro t <= t.
Proof. unfold micro. Z.to_euclidean_division_equations. lia. Qed.

(** A creation that succeeds leaves the row it answers with. *)
Lemma create_row E t b w m w1 : create uuid h E t (Some b) w = (Created m, w1) ->
  exists r hash k, holds r (links (db w1)) /\ password_hash E (request_of t b) = Ok hash /\
    r = mkLink (ID m) (TenantID m) (bSenderID b) (LinkToken m) (bEncryptedBlobRef b) hash (ExpiresAt m) (bMaxViews b) 0 false (e_dbnow E)
          (wrappingKey k) (senderLeaf k) (participants k) 0 /\
    MaxViews m = bMaxViews b /\ e_now E - 1000 < ExpiresAt m <= e_now E + 30 * 24 * Hour.
Proof.
  unfold create, CreateSecureMessage. destruct (validateCreate _) as [x|e] eqn:Ev; [|by destruct (Is e ErrMLSDisabled), (Is e ErrMLSDeriveFailed)].
  destruct (resolveCreateWrapping _ _ _) as [[wr|e] mw] eqn:Ew; [|by destruct (Is e ErrMLSDisabled), (Is e ErrMLSDeriveFailed)].
  destruct (negb _); [done|]. destruct (newToken _) as [tok|e]; [|by destruct (Is e ErrMLSDisabled), (Is e ErrMLSDeriveFailed)].
  destruct (password_hash _ _) as [ph|e] eqn:Eh; [|by destruct (Is e ErrMLSDisabled), (Is e ErrMLSDeriveFailed)].
  destruct (BeginFunc _ _ _ _) as [[r|e] s'] eqn:Eb; [|by destruct (Is (CreateFailed e) ErrMLSDisabled), (Is (CreateFailed e) ErrMLSDeriveFailed)]. intros [= <- <-].
  unfold BeginFunc in Eb. destruct (insert_link uuid E _ tok ph _ wr (db w)) as [[r0 s0]|] eqn:Ei; destruct (e_d E); simplify_eq.
  apply insert_link_ok in Ei as (_ & Hr & -> & Hn). exists r, ph, wr. cbn. pose proof (micro_bounds (e_now E + x)).
  apply validateCreate_ok in Ev as [Hx _]. rewrite Hr. cbn. split_and!; [|done|done|done|lia|lia].
  apply holds_inserted. by cbn.
Qed.

(** C15: The portal keeps what the sender asked for.  Once a link is created
    (and so lives at most 30 days), whatever calls anyone makes afterwards, in
    any order and with any losses: its message is shown at most MaxViews times
    when that is set, never after it expired, only to a visitor whose password
    bcrypt matches with the hash made at creation when one was set, always
    with the sender's blob and never with the MLS wrapping key; and once a
    revocation of it was acknowledged it is not shown again. *)
Theorem portal_keeps_terms E t b w m w1 cs tr w2 :
  create uuid h E t (Some b) w = (Created m, w1) -> (forall p k, e_bcrypt E p = Some k -> k <> ""%string) ->
  play uuid compare h cs w1 = (tr, w2) ->
  ExpiresAt m <= e_now E + 30 * 24 * Hour /\
  (0 < bMaxViews b -> Z.of_nat (length (List.filter (is_view (LinkToken m)) tr)) <= bMaxViews b) /\
  (forall c x, (c, x) ∈ List.filter (is_view (LinkToken m)) tr ->
     exists y token m', c = Visit y token /\ x = OkMessage m' /\ v_now' y <= ExpiresAt m /\
       (bPassword b <> ""%string -> exists hash, e_bcrypt E (bPassword b) = Some hash /\ compare hash (password_of y) = true) /\
       EncryptedBlobRef m' = bEncryptedBlobRef b /\ MLSWrappingKey m' = ""%string) /\
  (forall tr1 d tn l tr2, tr = tr1 ++ (Revoke d tn l, NoContent) :: tr2 -> uuid tn = Some (TenantID m) -> uuid l = Some (ID m) ->
     List.filter (is_view (LinkToken m)) tr2 = []).
Proof.
  intros Hc Hb Hp. destruct (create_row E t b w m w1 Hc) as (r & hash & k & Hr & Hh & Er & Hm & He).
  destruct (play_bounds cs w1 r tr w2 Hr Hp) as (Hn & Hf & _). unfold views in *.
  assert (l_token r = LinkToken m) as Et by (by rewrite Er). rewrite Et in *. split_and!; [lia| | |].
  - rewrite Er in Hn. cbn in Hn. intros Hx. specialize (Hn Hx). lia.
  - intros c x Hx. rewrite Forall_forall in Hf. destruct (Hf _ Hx) as (r' & Hev & Hs). destruct c as [| | |y token| | |], x as [| |m'| | | |]; try done.
    destruct Hs as [-> Hok]. apply check_link_ok in Hok as (_ & Hexp & _ & Hpw). destruct Hev as (_ & _ & _ & E4 & E5 & E6 & _).
    rewrite Er in E4, E5, E6. cbn in E4, E5, E6. exists y, token, (portal_message (viewed r')). cbn. split_and!; [done|done|lia| |done|done].
    intros Hpass. unfold password_hash in Hh. cbn in Hh. apply String.eqb_neq in Hpass. rewrite Hpass in Hh.
    destruct (e_bcrypt E (bPassword b)) as [k'|] eqn:Ek; [|done]. injection Hh as ->. exists hash. split; [done|].
    rewrite <- E5. apply Hpw. rewrite E5. by eapply Hb.
  - intros tr1 d tn l tr2 Ht Htn Hl. rewrite <- Et. eapply (play_revoked cs w1 r); [done..|]. cbn. rewrite Er. cbn.
    by rewrite !bool_decide_eq_true_2.
Qed.
End link_history.

(** ** Attempts on the portal *)
Section portal_attempts.
Context {V : Type} `{VL : ValkeyLaws Z V} `{VC : !ValkeyCounter V} `{CL : !ValkeyCounterLaws V} {W : Type} (h : Handlers W).
Implicit Types (v : V).

(** The commands of all pods, in the order the server runs them.  Each
    carries its fate, the server's clock and the pod's. *)
Inductive command :=
| CIncr (d : delivery) (sv now : Z) (token : string)
| CExpire (d : delivery) (sv now : Z) (token : string).
Definition at_ (c : command) : Z := match c with CIncr _ sv _ _ | CExpire _ sv _ _ => sv end.

Definition run_command (c : command) v : option Z * V :=
  match c with
  | CIncr d sv now token => incr_attempt d sv (attemptWindow h) now token v
  | CExpire d sv now token => (None, (expire_attempt d sv (attemptWindow h) now token v).2)
  end.

(** An attempt on [token] in the bucket of [b] that its count let through. *)
Definition passes (token : string) (b : Z) (c : command) (count : option Z) : bool :=
  match c, count with
  | CIncr Delivered _ now tok, Some n =>
      String.eqb tok token && (Truncate now (attemptWindow h) =? Truncate b (attemptWindow h)) && (n <=? maxAttempts h)
  | _, _ => false
  end.
Fixpoint passed (token : string) (b : Z) (cs : list command) v : Z :=
  match cs with
  | [] => 0
  | c :: cs => let '(n, v) := run_command c v in (if passes token b c n then 1 else 0) + passed token b cs v
  end.

Fixpoint in_order (sv : Z) (cs : list command) : Prop :=
  match cs with [] => True | c :: cs => sv <= at_ c /\ in_order (at_ c) cs end.

(** A visit issues these commands and no others. *)
Lemma allowAttempt_commands d d' sv sv' now token v : valkey h = true ->
  let '(n, v1) := run_command (CIncr d sv now token) v in
  allowAttempt h d d' sv sv' now token v =
    (match n with None => true | Some n => n <=? maxAttempts h end,
     if bool_decide (n = Some 1) then (run_command (CExpire d' sv' now token) v1).2 else v1).
Proof.
  intros Hv. unfold allowAttempt, run_command. rewrite Hv. cbn [negb]. destruct (incr_attempt _ _ _ _ _ _) as [[n|] v1]; [|done].
  destruct (Z.eqb_spec n 1) as [->|Hn]; [done|]. rewrite bool_decide_eq_false_2 by congruence. done.
Qed.

Lemma bucket_ttl_pos : 0 < bucket_ttl (attemptWindow h).
Proof. unfold bucket_ttl. lia. Qed.

Lemma command_counted token b B n c v (k := bucket_key (attemptWindow h) token b) (ttl := bucket_ttl (attemptWindow h)) :
  B <= at_ c -> at_ c < B + ttl -> counted ttl B k n (at_ c) v ->
  let r := run_command c v in
  counted ttl B k (n + (if passes token b c r.1 then 1 else 0)) (at_ c) r.2 /\
  (passes token b c r.1 = true -> n + 1 <= maxAttempts h).
Proof.
  intros Hb Hlt Hc. destruct c as [d sv now tok|d sv now tok]; cbn [run_command at_] in *; cbn zeta.
  - unfold incr_attempt, remote. destruct (counted_vk_incr ttl B k n sv (bucket_key (attemptWindow h) tok now) v Hc) as [Hkeep Hone].
    destruct d; [|split; [by rewrite Z.add_0_r|done]|split; [by rewrite Z.add_0_r|done]].
    destruct (vk_incr sv _ v) as [m v1]. cbn [fst snd passes] in *.
    destruct (String.eqb tok token && _ && _) eqn:E; [|split; [by rewrite Z.add_0_r|done]]. breflect. subst tok.
    destruct Hone as [Hm Hn]; [|done|split; [done|lia]]. unfold k, bucket_key. by rewrite H1.
  - cbn [fst snd passes]. rewrite Z.add_0_r. split; [|done]. pose proof bucket_ttl_pos.
    unfold expire_attempt, remote. destruct d; cbn [snd]; [by apply counted_vk_pexpire|done|by apply counted_vk_pexpire].
Qed.

Lemma passed_bound token b B cs (k := bucket_key (attemptWindow h) token b) (ttl := bucket_ttl (attemptWindow h)) :
  Forall (fun c => at_ c < B + ttl) cs -> forall sv n v, B <= sv -> n <= maxAttempts h -> counted ttl B k n sv v -> in_order sv cs ->
  n + passed token b cs v <= maxAttempts h.
Proof.
  induction 1 as [|c cs Hf1 Hf IH]; intros sv n v Hb Hn Hc Ho; [cbn; lia|]. destruct Ho as [Hle Ho].
  apply (counted_later _ _ _ _ _ (at_ c)) in Hc; [|done]. destruct (command_counted token b B n c v) as [Hc' Hp]; [lia|done|done|].
  cbn [passed]. destruct (run_command c v) as [m v1]. cbn [fst snd] in *.
  destruct (passes token b c m); (eapply IH in Hc'; [|by etrans|try specialize (Hp eq_refl); lia|done]); lia.
Qed.

(** The password of a link cannot be tried more often than the limiter
    says.  Over the commands of all pods in whatever order the server runs
    them, with any of them lost, at most maxAttempts attempts on one token are
    let through on the counter's word in one window of the pods' clocks, if
    the counter was new and the commands reach the server within the
    counter's lifetime (the window and five seconds). *)
Theorem portal_attempts_bounded token b B cs v :
  0 <= maxAttempts h -> all_ints B v -> vk_view v B (bucket_key (attemptWindow h) token b) = None -> in_order B cs ->
  Forall (fun c => at_ c < B + bucket_ttl (attemptWindow h)) cs -> passed token b cs v <= maxAttempts h.
Proof.
  intros Hmax Hi Hv Ho Hf. apply (passed_bound token b B cs Hf B 0 v); [done|done| |done]. split_and!; [done|done|]. by left.
Qed.
End portal_attempts.

(** ** The marks of MLS *)

(** A creation that is refused leaves no row. *)
Theorem refused_create_leaves_no_row {W V} uuid (h : Handlers W) E t b (w w' : world W V) code :
  create uuid h E t b w = (Fail code, w') -> e_d E = Delivered -> db w' = db w.
Proof.
  unfold create. destruct b as [b|]; [|by intros [= <- <-]]. unfold CreateSecureMessage.
  destruct (validateCreate _); [|by intros [= _ <-]]. destruct (resolveCreateWrapping _ _ _) as [[wr|] m]; [|by intros [= _ <-]].
  destruct (negb _); [by intros [= _ <-]|]. destruct (newToken (e_rand E)), (password_hash E (request_of t b)); try by intros [= _ <-].
  unfold BeginFunc. intros H Hd. rewrite Hd in H. destruct (insert_link uuid E _ _ _ _ _ _) as [[r s]|]; [done|]. by injection H as _ <-.
Qed.

(** A link has a leaf key exactly when it has a wrapping key. *)
Definition wrapped_whole (r : link) : Prop := l_leaf r = ""%string <-> l_key r = ""%string.

Section marks.
Context {W V : Type} `{VC : ValkeyCounter V} (uuid : string -> option string) (compare : string -> string -> bool) (h : Handlers W).
Implicit Types (w : world W V).

(** A deriver does not answer with an empty key. *)
Definition gives_keys (d : MLSKeyDeriver W) : Prop :=
  (forall a b u k u', DeriveWrappingKey d a b u = (Ok k, u') -> k <> ""%string) /\
  (forall a b u k u', RekeyMessage d a b u = (Ok k, u') -> k <> ""%string).

Lemma post_key Do d path b (w : W) k u' : post Do d path b w = (Ok k, u') -> k <> ""%string.
Proof.
  unfold post. destruct (Do _ w) as [[resp|] w1]; [|done]. destruct (negb _); [done|]. destruct (wrapping_key resp) as [x|]; [|done].
  destruct (String.eqb x "") eqn:E; [done|]. intros [= -> _]. by apply String.eqb_neq.
Qed.

Lemma http_gives_keys (Do : mls_request -> W -> option mls_response * W) d : gives_keys (http_deriver Do d).
Proof.
  split; intros a b u k u'; cbn; unfold http_derive, http_rekey; (destruct d as [d|]; [|done]); (destruct (negb _); [done|]).
  - destruct (String.eqb a "" || _); [done|]. apply post_key.
  - destruct (String.eqb a ""); [done|]. apply post_key.
Qed.

Context (HG : gives_keys (deriver (svc h))).
Definition marked w : Prop := Forall wrapped_whole (links (db w)).

Lemma marked_update (p : link -> bool) f l : (forall x, p x = true -> wrapped_whole x -> wrapped_whole (f x)) ->
  Forall wrapped_whole l -> Forall wrapped_whole (update p f l).
Proof.
  intros Hf Hl. apply Forall_forall. intros x (y & Hy & ->)%elem_of_update. rewrite Forall_forall in Hl.
  destruct (p y) eqn:E; eauto.
Qed.

Lemma resolve_whole req (w : W) k u' : resolveCreateWrapping (svc h) req w = (Ok k, u') -> senderLeaf k = ""%string <-> wrappingKey k = ""%string.
Proof.
  unfold resolveCreateWrapping. destruct (Recipients req) as [|x l].
  { destruct (negb _); [done|]. by intros [= <- _]. }
  destruct (negb (negb _)) eqn:E; [done|]. destruct (negb (MLSEnabled _)); [done|].
  destruct (DeriveWrappingKey _ _ _ _) as [[key|] m] eqn:Ek; [|done]. intros [= <- _]. cbn. apply HG in Ek. split; [|done].
  intros El. rewrite El in E. done.
Qed.

Lemma create_marked E t b w : marked w -> marked (create uuid h E t b w).2.
Proof.
  intros Hm. unfold create. destruct b as [b|]; [|done]. unfold CreateSecureMessage.
  destruct (validateCreate _) as [x|]; [|done]. destruct (resolveCreateWrapping _ _ _) as [[wr|] m] eqn:Er; [|done].
  destruct (negb _); [done|]. destruct (newToken _) as [tok|]; [|done]. destruct (password_hash _ _) as [ph|]; [|done].
  unfold marked. tx_case (fun s => Forall wrapped_whole (links s)); [done|]. intros y s1 (_ & Hy & -> & _)%insert_link_ok. cbn.
  apply Forall_app. split; [done|]. constructor; [|done]. rewrite Hy. unfold wrapped_whole. cbn. by eapply resolve_whole.
Qed.

Lemma rekey_marked d t l b w : marked w -> marked (mlsRekey uuid h d t l b w).2.
Proof.
  intros Hm. unfold mlsRekey. destruct b as [b|]; [|done]. unfold RekeyConfidentialMessage.
  destruct (negb _); [done|]. destruct (blank t || blank l); [done|]. destruct b as [|p ps]; [done|]. destruct (negb _); [done|].
  destruct (RekeyMessage _ _ _ _) as [[k|] m] eqn:Ek; [|done]. apply HG in Ek.
  unfold marked. tx_case (fun s => Forall wrapped_whole (links s)); [done|]. intros [] s1 (_ & _ & H)%rbind_ok.
  unfold parsed in H. destruct (uuid t), (uuid l); try done. destruct (negb _) in H; [done|]. destruct (List.filter _ _) in H; [done|].
  injection H as <-. cbn. apply marked_update; [|done]. intros x Hx _. unfold wrapped_whole. cbn. breflect. tauto.
Qed.

Lemma serve_marked c w : marked w -> marked (serve uuid compare h c w).2.
Proof.
  intros Hm. destruct c as [E t b|o d t u|d t l|x token| |b|d t l b]; cbn [serve]; [by apply create_marked|done| | |done| |by apply rekey_marked].
  - unfold revoke, RevokeLink. destruct (String.eqb t "" || _); [done|]. destruct (negb _); [done|].
    unfold marked. tx_case (fun s => Forall wrapped_whole (links s)); [done|]. intros [] s1 (_ & _ & H)%rbind_ok.
    unfold parsed in H. destruct (uuid t), (uuid l); try done. injection H as <-. by apply marked_update.
  - unfold portal. destruct (String.eqb token ""); [done|]. destruct (allowAttempt _ _ _ _ _ _ _ _) as [[] v]; [|done]. cbn [negb].
    unfold GetSecureMessage. destruct (blank token); [done|]. destruct (negb _); [done|].
    unfold marked. tx_case (fun s => Forall wrapped_whole (links s)); [done|]. intros m s1 H. destruct (List.find _ _) as [y|]; [|done].
    apply rbind_ok in H as (_ & _ & H). destruct (int4 _); [|done]. injection H as _ <-. by apply marked_update.
  - unfold mlsWrap. destruct b as [[leaf cred]|]; [|done]. by destruct (DeriveMLSWrappingKey _ _ _ _).
Qed.

(** The portal and the sender's listing, which read it off different columns,
    agree on whether a link is wrapped, after any history. *)
Theorem marks_agree cs w : marked w -> forall r, r ∈ links (db (play uuid compare h cs w).2) ->
  MLSWrapped (portal_message r) = MLSWrapped (listed r).
Proof.
  revert w. induction cs as [|c cs IH]; intros w Hm; cbn [play].
  - intros r Hr. unfold marked in Hm. rewrite Forall_forall in Hm. destruct (Hm r Hr) as [H1 H2]. cbn.
    destruct (String.eqb (l_key r) "") eqn:Ek, (String.eqb (l_leaf r) "") eqn:El; try done; breflect; tauto.
  - pose proof (serve_marked c w Hm) as Hs. destruct (serve uuid compare h c w) as [x w1]. cbn in Hs. specialize (IH w1 Hs).
    by destruct (play uuid compare h cs w1) as [tr w2].
Qed.
End marks.

(** ** Examples *)
Module LinkExamples.
Definition uuid (s : string) : option string := if blank s then None else Some s.
Definition compare (hash password : string) : bool := String.eqb hash ("$" +:+ password).
Definition E (i : nat) (now : Z) : env := mkEnv Delivered now now ("l" +:+ pretty i) (Some (repeat (Z.of_nat i) 32)) (fun p => Some ("$" +:+ p)%string).

(** An MLS service that numbers its keys. *)
Definition Do (r : mls_request) (n : nat) : option mls_response * nat := (Some (mkMLSResponse 200 (Some ("k" +:+ pretty n)%string)), S n).
Definition h : Handlers nat := NewHandlers (WithMLS (MLSHTTP (Some (NewHTTPKeyDeriver "https://mls/" "x")) Do) (NewService true)) true.
Definition plain : Handlers nat := NewHandlers (WithMLS (MLSHTTP (Some (NewHTTPKeyDeriver "" "")) Do) (NewService true)) true.
Definition w0 : world nat (gmap string (ventry Z)) := mkWorld (mkDB {["t"%string]} []) ∅ O.

Definition letter : createBody := mkCreateBody "ann" "blob" "pw" 3600 2 "" [].
Definition sealed : createBody := mkCreateBody "ann" "blob" "" 3600 0 "leaf" ["bob"%string].
Definition token0 : string := base64url (repeat 0 32).
Definition visit_at (now : Z) (pw : string) : visit := mkVisit Delivered Delivered (UnixMilli now) (UnixMilli now) now Delivered now (Some pw).
Definition see (now : Z) (pw : string) : call := Visit (visit_at now pw) token0.

Definition made := create uuid h (E 0 0) "t" (Some letter) w0.
Definition calls : list call := [see Second "no"; see (2 * Second) "pw"; see (3 * Second) "pw"; see (4 * Second) "pw"].

(** A wrong password, two views, and no third one. *)
Example two_views : (play uuid compare h calls made.2).1.*2 =
  [Fail 401; OkMessage (mkMessage "l0" "t" "ann" token0 "blob" true (3600 * Second) 2 1 false 0 false "" 0);
   OkMessage (mkMessage "l0" "t" "ann" token0 "blob" true (3600 * Second) 2 2 false 0 false "" 0); Fail 410].
Proof. vm_compute. reflexivity. Qed.

Definition revoked_history : list call := [see Second "pw"; Revoke Delivered "t" "l0"; see (2 * Second) "pw"].
Example revoked_is_gone : ((fun x => match x with OkMessage _ => 200 | Fail c => c | _ => 204 end) <$> (play uuid compare h revoked_history made.2).1.*2) = [200; 204; 410].
Proof. vm_compute. reflexivity. Qed.

Lemma portal_keeps_terms_witness :
  exists m, made.1 = Created m /\
    Z.of_nat (length (List.filter (is_view (LinkToken m)) (play uuid compare h calls made.2).1)) <= 2.
Proof.
  destruct made as [[| m | | | | |] w1] eqn:Em; try (vm_compute in Em; discriminate Em). exists m. split; [reflexivity|]. cbn [snd].
  destruct (play uuid compare h calls w1) as [tr w2] eqn:Ep.
  destruct (portal_keeps_terms uuid compare h (E 0 0) "t" letter w0 m w1 calls tr w2 Em) as (_ & H & _); [by intros p k [= <-]|exact Ep|].
  apply H. reflexivity.
Defined.

(** Six attempts in one window: five pass. *)
Definition six : list command := CIncr Delivered 0 0 token0 :: CExpire Delivered 1 0 token0 :: repeat (CIncr Delivered 2 Second token0) 5.
Example five_of_six : passed h token0 0 six (∅ : gmap string (ventry Z)) = 5.
Proof. vm_compute. reflexivity. Qed.

Lemma portal_attempts_bounded_witness : passed h token0 0 six (∅ : gmap string (ventry Z)) <= 5.
Proof.
  apply (portal_attempts_bounded h token0 0 0 six (∅ : gmap string (ventry Z))); [done|by intros k; exists 0|reflexivity|cbn; lia|].
  repeat constructor; by vm_compute.
Defined.

(** ** Where comments and code part ways *)

(** Windows are fixed, not sliding: ten attempts in two seconds. *)
Theorem ten_attempts_across_boundary :
  let run now := play uuid compare h (repeat (see now "no") 5) in
  let '(a, w1) := run (15 * Minute - Second) made.2 in let '(b, _) := run (15 * Minute) w1 in
  a.*2 ++ b.*2 = repeat (Fail 401) 10.
Proof. vm_compute. reflexivity. Qed.

(** An expiry too large for [time.Duration] wraps and is taken for absent. *)
Theorem huge_expiry_wraps : exists m,
  (create uuid h (E 0 0) "t" (Some (mkCreateBody "ann" "blob" "" (2 ^ 55) 1 "" [])) w0).1 = Created m /\ ExpiresAt m = 24 * Hour.
Proof. eexists. split; vm_compute; reflexivity. Qed.

(** Revoking a link that does not exist, or of another tenant, is
    acknowledged. *)
Theorem revoke_of_nothing_acknowledged : exists w, revoke uuid h Delivered "u" "l0" made.2 = (NoContent, w) /\ db w = db made.2.
Proof. eexists. split; vm_compute; reflexivity. Qed.

(** A request for MLS where none is configured does not degrade to a plain
    link. *)
Theorem mls_request_not_degraded : (create uuid plain (E 0 0) "t" (Some sealed) w0).1 = Fail 503.
Proof. vm_compute. reflexivity. Qed.

(** The MLS service rekeys a link before anyone checks whose it is. *)
Definition made' := create uuid h (E 0 0) "t" (Some sealed) w0.
Theorem rekey_before_ownership :
  let '(x, w) := mlsRekey uuid h Delivered "u" "l0" (Some ["eve"%string]) made'.2 in
  x = Fail 404 /\ ms w = S (ms made'.2) /\ db w = db made'.2.
Proof. by vm_compute. Qed.

(** When the transaction is lost the service has a new key and the row the
    old one. *)
Theorem rekey_lost_leaves_old_key :
  let '(x, w) := mlsRekey uuid h RequestLost "t" "l0" (Some ["bob"%string]) made'.2 in
  x = Fail 502 /\ ms w = S (ms made'.2) /\ l_key <$> links (db w) = l_key <$> links (db made'.2).
Proof. by vm_compute. Qed.

(** A failure of the store is answered as the client's error. *)
Theorem lost_create_is_bad_request :
  (create uuid h (mkEnv RequestLost 0 0 "l0" (Some (repeat 0 32)) (fun _ => None)) "t" (Some (mkCreateBody "ann" "blob" "" 0 1 "" [])) w0).1 = Fail 400.
Proof. vm_compute. reflexivity. Qed.
End LinkExamples.
