(* ===== verification/SendHooks.v ===== *)
(** * Send hooks ([internal/undosend/proxy_hook.go], [handlers.go],
      [internal/scheduledsend/proxy_hook.go], [handlers.go])

    The interceptors that connect the JMAP proxy of [JmapProxy] with the
    queues of [UndoSend] and [ScheduledSend].  A hook takes one
    [EmailSubmission/set] out of a batch, forwards the rest (which mints the
    draft) with the client of [JmapClient], puts the submission into its queue
    and answers with a response made up for the part held back.  The steps the
    two packages share word for word are [hold_back] and its helpers.  Objects
    are lists of distinct keys; [pick] says which entry the iteration over a
    map meets first. *)

From S2P Require Import Prelude Text Valkey Submission Breaker UndoSend ScheduledSend JmapProxy JmapClient.

Local Open Scope Z_scope.
Local Open Scope go_scope.

(** ** JMAP batches *)
Record batch := mkBatch { b_using : list string; b_calls : list (list json); b_createdIds : list (string * string) }.
Record reply := mkReply { r_calls : list (list json); r_session : string; r_createdIds : list (string * string) }.

(** What the hook learns of a batch. *)
Record intent := mkIntent {
  stripped : batch; submissionMethodID : string; submissionCreateKey : string; emailCreateKey : string; identityID : string;
  submissionCreate : list (string * json);
}.

Definition hash : string := "#".
Definition TrimPrefix (s p : string) : string :=
  if HasPrefix s p then String.substring (String.length p) (String.length s - String.length p) s else s.

(** A call the hook takes: its id, the key and the object of one entry. *)
Definition submission_of (n : nat) (call : list json) : option (string * string * list (string * json)) :=
  match call with
  | [name; args; id] =>
      if String.eqb (as_string name) "EmailSubmission/set" then
        let create := as_object (field "create" (as_object args)) in
        match create !! (n mod length create)%nat with
        | Some (key, JObject v) => Some (as_string id, key, v)
        | _ => None
        end
      else None
  | _ => None
  end.

(** The calls left, and the first one taken. *)
Fixpoint scan (pick : nat -> nat) (i : nat) (calls : list (list json)) : list (list json) * option (string * string * list (string * json)) :=
  match calls with
  | [] => ([], None)
  | call :: rest =>
      match submission_of (pick i) call with
      | Some x => (rest, Some x)
      | None => let '(kept, x) := scan pick (S i) rest in (call :: kept, x)
      end
  end.

Definition extractUndoIntent (pick : nat -> nat) (req : batch) : option intent :=
  let '(kept, x) := scan pick 0 (b_calls req) in
  match x with
  | None => None
  | Some (id, key, v) =>
      let ref := as_string (field "emailId" v) in
      Some (mkIntent (mkBatch (b_using req) kept (b_createdIds req)) id key
              (if HasPrefix ref hash then TrimPrefix ref hash else "") (as_string (field "identityId" v)) v)
  end.
Definition extractScheduleIntent := extractUndoIntent.

Fixpoint created_email (key : string) (entries : list (list json)) : option string :=
  match entries with
  | [] => None
  | [name; args; _] :: rest =>
      let id := as_string (field "id" (as_object (field key (as_object (field "created" (as_object args)))))) in
      if String.eqb (as_string name) "Email/set" && negb (String.eqb id "") then Some id else created_email key rest
  | _ :: rest => created_email key rest
  end.
Definition resolveCreatedEmailID (resp : reply) (emailCreateKey : string) : option string :=
  if blank emailCreateKey then None else created_email emailCreateKey (r_calls resp).

Fixpoint set_field (k : string) (v : json) (m : list (string * json)) : list (string * json) :=
  match m with
  | [] => [(k, v)]
  | (k', v') :: m => if String.eqb k' k then (k', v) :: m else (k', v') :: set_field k v m
  end.

(** The object that is encoded. *)
Definition normaliseSubmissionPayload (create : list (string * json)) (emailCreateKey emailID : string) : list (string * json) :=
  match field "emailId" create with
  | JString ref => if HasPrefix ref hash && String.eqb (TrimPrefix ref hash) emailCreateKey then set_field "emailId" (JString emailID) create else create
  | _ => set_field "emailId" (JString emailID) create
  end.

(** The account of the first [Email/set] response. *)
Fixpoint email_account (entries : list (list json)) : list (string * json) :=
  match entries with
  | [] => []
  | [name; args; _] :: rest =>
      if String.eqb (as_string name) "Email/set"
      then match field "accountId" (as_object args) with JString a => [("accountId"%string, JString a)] | _ => [] end
      else email_account rest
  | _ :: rest => email_account rest
  end.
Definition mergeWithSyntheticSubmission (resp : reply) (it : intent) (pendingID : string) (sendAt : json) : reply :=
  let args := email_account (r_calls resp) ++
    [("created", JObject [(submissionCreateKey it, JObject [("id", JString pendingID); ("sendAt", sendAt); ("undoStatus", JString "pending")])])]%string in
  let id := if String.eqb (submissionMethodID it) "" then "1"%string else submissionMethodID it in
  mkReply (r_calls resp ++ [[JString "EmailSubmission/set"; JObject args; JString id]]) (r_session resp) (r_createdIds resp).

(** ** Holding a submission back *)
Inductive written :=
| WText (status : Z)                                      (* [http.Error] *)
| WJMAP (headers : list (string * string)) (body : reply).

Record hstate (W Q : Type) := mkHState { fw : W; q : Q; out : option written }.
Arguments mkHState {W Q}. Arguments fw {W Q}. Arguments q {W Q}. Arguments out {W Q}.

(** What became of the submission: kept under an id, refused with a status,
    or lost to an error. *)
Inductive kept := KKept (id : string) (sendAt : json) (headers : list (string * string)) | KRefused (status : Z) | KFailed.

Section hold_back.
Context {W Q : Type}.
(** The proxy's account look-up and the internal client. *)
Context (resolver : string -> string -> option string) (Dispatch : string -> string -> batch -> W -> result string reply * W).

(** [werr] is the error of encoding or writing the response: the request
    counts as intercepted in either case. *)
Definition writeJMAPResponse (werr : option string) (headers : list (string * string)) (resp : reply) (s : hstate W Q)
    : (bool * option string) * hstate W Q :=
  ((true, werr), mkHState (fw s) (q s) (Some (match werr with None => WJMAP headers resp | Some _ => WText 500 end))).

Definition hold_back (keep : string -> string -> string -> intent -> string -> Q -> kept * Q) (werr : option string)
    (tenantID kchatUserID : string) (it : intent) (s : hstate W Q) : (bool * option string) * hstate W Q :=
  if String.eqb tenantID "" || String.eqb kchatUserID "" then ((false, None), s)
  else match resolver tenantID kchatUserID with
  | None => ((false, Some "resolve account"%string), s)
  | Some accountID =>
      let '(r, w) := Dispatch tenantID kchatUserID (stripped it) (fw s) in
      let s := mkHState w (q s) (out s) in
      match r with
      | Err _ => ((false, Some "forward stripped"%string), s)
      | Ok resp =>
          match FirstCallError (mkJmapResponse (r_calls resp)), resolveCreatedEmailID resp (emailCreateKey it) with
          | Some _, _ | None, None => writeJMAPResponse werr [] resp s
          | None, Some emailID =>
              let '(k, qs) := keep tenantID kchatUserID accountID it emailID (q s) in
              let s := mkHState (fw s) qs (out s) in
              match k with
              | KFailed => writeJMAPResponse werr [] resp s
              | KRefused status => ((true, None), mkHState (fw s) (q s) (Some (WText status)))
              | KKept id sendAt headers => writeJMAPResponse werr headers (mergeWithSyntheticSubmission resp it id sendAt) s
              end
          end
      end
  end.
End hold_back.

(** ** Undo send *)
Definition HeaderOptIn : string := "X-KMail-Undo-Send".
Definition HeaderPendingID : string := "X-KMail-Pending-Send-Id".
Definition HeaderDeadline : string := "X-KMail-Undo-Deadline".

Section undo.
Context {W V : Type} `{VK : Valkey doc V} (resolver : string -> string -> option string).
Context (Dispatch : string -> string -> batch -> W -> result string reply * W) (svc : UndoSend.Service).
(** [json.Unmarshal] of a body and [json.Marshal] of a submission. *)
Context (parseJMAPRequest : string -> option batch) (marshal : list (string * json) -> option UndoSend.payload).

(** What one interception meets: the choices of the iterations, the fate and
    the server clock of the write, the UUID drawn, the clock, the writer. *)
Record undo_env := mkUndoEnv {
  ue_pick : nat -> nat; ue_d : delivery; ue_sv : Z; ue_id : option string; ue_now : Z; ue_wall : Z; ue_werr : option string;
}.

Definition undo_keep (E : undo_env) (tenantID kchatUserID accountID : string) (it : intent) (emailID : string) (v : V) : kept * V :=
  match marshal (normaliseSubmissionPayload (submissionCreate it) (emailCreateKey it) emailID) with
  | None => (KFailed, v)
  | Some payload =>
      let '(r, v) := UndoSend.Hold (ue_d E) (ue_sv E) svc (ue_id E) (ue_now E) (ue_wall E)
                       (mkHold tenantID kchatUserID accountID (submissionCreateKey it) emailID (identityID it) payload) v in
      (match r with
       | Err _ => KFailed
       | Ok ps => KKept (UndoSend.ID ps) JNull [(HeaderPendingID, UndoSend.ID ps); (HeaderDeadline, pretty (Unix (UndoSend.DeadlineAt ps)))]
       end, v)
  end.

Definition undo_Intercept (E : undo_env) : hook request (hstate W V) := fun r s =>
  if negb (String.eqb (get_header HeaderOptIn (hdr r)) "true") then ((false, None), s)
  else match parseJMAPRequest (body r) with
  | None => ((false, None), s)
  | Some jr =>
      match extractUndoIntent (ue_pick E) jr with
      | None => ((false, None), s)
      | Some it => hold_back resolver Dispatch (undo_keep E) (ue_werr E) (ctxTenant r) (ctxUser r) it s
      end
  end.
End undo.

(** ** Scheduled send *)
Definition HeaderScheduleAt : string := "X-KMail-Schedule-At".
Definition HeaderScheduledID : string := "X-KMail-Scheduled-Send-Id".
Definition HeaderScheduledSendAt : string := "X-KMail-Scheduled-Send-At".

Section scheduled.
Context {W : Type} (resolver : string -> string -> option string).
Context (Dispatch : string -> string -> batch -> W -> result string reply * W).
Context (parseJMAPRequest : string -> option batch) (marshal : list (string * json) -> option ScheduledSend.payload).
(** [time.Parse(time.RFC3339, s)] and [t.Format(time.RFC3339)]. *)
Context (parse_rfc3339 : string -> option Z) (format_rfc3339 : Z -> string).

Definition parseScheduleAt (raw : string) : option Z :=
  match ParseInt raw with
  | Some n => if n <=? 0 then None else Some (time_Unix n)
  | None => parse_rfc3339 raw
  end.

(** The choices of the iterations, the clock of the hook and of the service,
    the fate, clock and UUID of the insertion, the writer. *)
Record sched_env := mkSchedEnv {
  se_pick : nat -> nat; se_wall : Z; se_now : Z; se_d : delivery; se_dbnow : Z; se_id : string; se_werr : option string;
}.

Definition sched_keep (E : sched_env) (sendAt : Z) (tenantID kchatUserID accountID : string) (it : intent) (emailID : string)
    (s : ScheduledSend.DB) : kept * ScheduledSend.DB :=
  match marshal (normaliseSubmissionPayload (submissionCreate it) (emailCreateKey it) emailID) with
  | None => (KFailed, s)
  | Some payload =>
      let '(r, s) := ScheduledSend.Schedule (se_d E) (se_now E) (se_dbnow E) (se_id E)
                       (mkInput tenantID kchatUserID accountID emailID (identityID it) payload sendAt) s in
      (match r with
       | Err ErrInvalidSchedule => KRefused 400
       | Err _ => KFailed
       | Ok ss => KKept (ScheduledSend.ID ss) (JString (format_rfc3339 (ScheduledSend.SendAt ss)))
                    [(HeaderScheduledID, ScheduledSend.ID ss); (HeaderScheduledSendAt, pretty (Unix (ScheduledSend.SendAt ss)))]
       end, s)
  end.

Definition sched_Intercept (E : sched_env) : hook request (hstate W ScheduledSend.DB) := fun r s =>
  let refuse := ((true, None), mkHState (fw s) (q s) (Some (WText 400))) in
  let raw := TrimSpace (get_header HeaderScheduleAt (hdr r)) in
  if String.eqb raw "" then ((false, None), s)
  else match parseScheduleAt raw with
  | None => refuse
  | Some sendAt =>
      let horizon := Sub sendAt (se_wall E) in
      if horizon <? MinScheduleHorizon then refuse
      else if MaxScheduleHorizon <? horizon then refuse
      else match parseJMAPRequest (body r) with
      | None => ((false, None), s)
      | Some jr =>
          match extractScheduleIntent (se_pick E) jr with
          | None => ((false, None), s)
          | Some it => hold_back resolver Dispatch (sched_keep E sendAt) (se_werr E) (ctxTenant r) (ctxUser r) it s
          end
      end
  end.
End scheduled.

(** ** Both hooks in front of the proxy

    [main] chains undo send before scheduled send; the state of each is a part
    of the state of the chain. *)
Record both (W V : Type) := mkBoth { bw : W; bv : V; bdb : ScheduledSend.DB; bout : option written }.
Arguments mkBoth {W V}. Arguments bw {W V}. Arguments bv {W V}. Arguments bdb {W V}. Arguments bout {W V}.

Definition on_undo {W V} (h : hook request (hstate W V)) : hook request (both W V) := fun r s =>
  let '(x, t) := h r (mkHState (bw s) (bv s) (bout s)) in (x, mkBoth (fw t) (q t) (bdb s) (out t)).
Definition on_sched {W V} (h : hook request (hstate W ScheduledSend.DB)) : hook request (both W V) := fun r s =>
  let '(x, t) := h r (mkHState (bw s) (bdb s) (bout s)) in (x, mkBoth (fw t) (bv s) (q t) (out t)).

(** ** Handlers *)
Inductive sresponse :=
| SFail (code : Z)
| SCancelled (code : Z) (cancelled : bool)
| SUndo (ps : PendingSend)                  (* without the payload *)
| SUndoGone (id : string)                   (* "sent" for want of a key *)
| SSched (ss : ScheduledSend) | SScheds (l : list ScheduledSend).  (* without the payload *)

Module UndoHandlers.
Section handlers.
Context {V : Type} `{VK : Valkey doc V}.

Definition statusResponse (ps : PendingSend) : sresponse :=
  SUndo (mkPending (UndoSend.ID ps) "" "" "" "" (UndoSend.EmailID ps) "" UndoSend.PEmpty (UndoSend.Status ps) (UndoSend.CreatedAt ps)
           (UndoSend.DeadlineAt ps) (UndoSend.Attempts ps) "").

Definition cancel (d : delivery) (sv : Z) (tenantID id : string) (v : V) : sresponse * V :=
  if String.eqb tenantID "" then (SFail 500, v)
  else if blank id then (SFail 400, v)
  else
    let '(r, v) := UndoSend.Cancel d sv (TrimSpace id) tenantID v in
    (match r with
     | Ok _ => SCancelled 200 true
     | Err ErrAlreadySent => SCancelled 410 false
     | Err (UndoSend.ErrTenantMismatch | UndoSend.ErrNotFound) => SFail 404
     | Err _ => SFail 500
     end, v).

Definition get (d : delivery) (sv : Z) (tenantID id : string) (v : V) : sresponse :=
  if String.eqb tenantID "" then SFail 500
  else if blank id then SFail 400
  else match UndoSend.Get d sv (TrimSpace id) v with
  | Err UndoSend.ErrNotFound => SUndoGone (TrimSpace id)
  | Err _ => SFail 500
  | Ok ps => if negb (String.eqb (UndoSend.TenantID ps) tenantID) then SFail 404 else statusResponse ps
  end.
End handlers.
End UndoHandlers.

Module SchedHandlers.
(** [toResponse] leaves out the payload and what identifies the user. *)
Definition toResponse (r : ScheduledSend) : ScheduledSend :=
  mkScheduled (ScheduledSend.ID r) "" "" (ScheduledSend.StalwartAccountID r) (ScheduledSend.EmailID r) (ScheduledSend.IdentityID r)
    ScheduledSend.PEmpty (SendAt r) (ScheduledSend.Status r) (ScheduledSend.Attempts r) (ScheduledSend.LastError r) 0 (SentAt r)
    (ScheduledSend.CreatedAt r) 0.
Definition toResponses (l : list ScheduledSend) : list ScheduledSend := toResponse <$> l.

Definition list_handler (newest_first : list ScheduledSend -> list ScheduledSend) (d : delivery) (tenantID kchatUserID : string)
    (s : ScheduledSend.DB) : sresponse :=
  if String.eqb tenantID "" || String.eqb kchatUserID "" then SFail 500
  else match ListByUser newest_first d tenantID kchatUserID s with
  | Err _ => SFail 500
  | Ok rows => SScheds (toResponses rows)
  end.

Definition get (d : delivery) (tenantID kchatUserID id : string) (s : ScheduledSend.DB) : sresponse :=
  if String.eqb tenantID "" || String.eqb kchatUserID "" then SFail 500
  else if blank id then SFail 400
  else match ScheduledSend.Get d tenantID kchatUserID (TrimSpace id) s with
  | Ok ss => SSched (toResponse ss)
  | Err (ScheduledSend.ErrNotFound | ScheduledSend.ErrTenantMismatch) => SFail 404
  | Err _ => SFail 500
  end.

Definition cancel (d : delivery) (dbnow : Z) (tenantID kchatUserID id : string) (s : ScheduledSend.DB) : sresponse * ScheduledSend.DB :=
  if String.eqb tenantID "" || String.eqb kchatUserID "" then (SFail 500, s)
  else if blank id then (SFail 400, s)
  else
    let '(r, s) := ScheduledSend.Cancel d dbnow tenantID kchatUserID (TrimSpace id) s in
    (match r with
     | Ok _ | Err ErrAlreadyCancelled => SCancelled 200 true
     | Err ErrAlreadyDispatched => SCancelled 410 false
     | Err (ScheduledSend.ErrTenantMismatch | ScheduledSend.ErrNotFound) => SFail 404
     | Err _ => SFail 500
     end, s).
End SchedHandlers.

(** ** What is taken out of a batch *)
Lemma scan_taken pick calls : forall i kept x, scan pick i calls = (kept, Some x) ->
  exists j call n, calls !! j = Some call /\ submission_of n call = Some x /\ kept = take j calls ++ drop (S j) calls.
Proof.
  induction calls as [|call calls IH]; intros i kept x H; cbn in H; [done|].
  destruct (submission_of (pick i) call) as [y|] eqn:Es.
  - injection H as <- <-. by exists 0%nat, call, (pick i).
  - destruct (scan pick (S i) calls) as [k y] eqn:Ek. injection H as <- ->. destruct (IH _ _ _ Ek) as (j & c & n & Hj & Hs & ->).
    by exists (S j), c, n.
Qed.

Lemma field_set k v m : field k (set_field k v m) = v.
Proof.
  unfold field. induction m as [|[k' v'] m IH]; cbn; [by rewrite String.eqb_refl|].
  destruct (String.eqb k' k) eqn:E; cbn; rewrite E; [done|exact IH].
Qed.

(** One call is taken, the others are forwarded in their order. *)
Lemma extract_spec pick jr it : extractUndoIntent pick jr = Some it ->
  exists j call n, b_calls jr !! j = Some call /\
    submission_of n call = Some (submissionMethodID it, submissionCreateKey it, submissionCreate it) /\
    b_calls (stripped it) = take j (b_calls jr) ++ drop (S j) (b_calls jr) /\
    identityID it = as_string (field "identityId" (submissionCreate it)) /\
    emailCreateKey it = (let ref := as_string (field "emailId" (submissionCreate it)) in if HasPrefix ref hash then TrimPrefix ref hash else "").
Proof.
  unfold extractUndoIntent. destruct (scan pick 0 (b_calls jr)) as [kept [[[id key] v]|]] eqn:Es; [|done]. intros [= <-].
  destruct (scan_taken _ _ _ _ _ Es) as (j & call & n & Hj & Hs & ->). by exists j, call, n.
Qed.

(** The back-reference of what is kept is replaced by the minted id. *)
Lemma normalised_email pick jr it emailID : extractUndoIntent pick jr = Some it -> blank (emailCreateKey it) = false ->
  field "emailId" (normaliseSubmissionPayload (submissionCreate it) (emailCreateKey it) emailID) = JString emailID.
Proof.
  intros (_ & _ & _ & _ & _ & _ & _ & Hk)%extract_spec Hb. unfold normaliseSubmissionPayload. cbn zeta in Hk.
  destruct (field "emailId" (submissionCreate it)) as [| | |ref| |]; try apply field_set. cbn [as_string] in Hk.
  destruct (HasPrefix ref hash) eqn:Hp; [|by rewrite Hk in Hb]. rewrite Hk, String.eqb_refl. apply field_set.
Qed.

(** ** Holding back *)
Section held.
Context {W Q : Type} (resolver : string -> string -> option string) (Dispatch : string -> string -> batch -> W -> result string reply * W).
Implicit Types (s : hstate W Q).

(** The answer [b] with headers [hs] says that a submission was kept, and the
    queue [qs] keeps it. *)
Definition told_kept (keep : string -> string -> string -> intent -> string -> Q -> kept * Q) (t u acct : string) (it : intent) (resp : reply)
    (q0 : Q) (hs : list (string * string)) (b : reply) (qs : Q) : Prop :=
  exists emailID id sendAt, blank (emailCreateKey it) = false /\ created_email (emailCreateKey it) (r_calls resp) = Some emailID /\
    keep t u acct it emailID q0 = (KKept id sendAt hs, qs) /\ b = mergeWithSyntheticSubmission resp it id sendAt.

(** Once the draft may be minted nothing is left for the proxy to forward, and
    what the answer says is kept is kept. *)
Lemma hold_back_answered keep werr t u it s acct resp w' :
  t <> ""%string -> u <> ""%string -> resolver t u = Some acct -> Dispatch t u (stripped it) (fw s) = (Ok resp, w') ->
  exists e s', hold_back resolver Dispatch keep werr t u it s = ((true, e), s') /\ fw s' = w' /\
    forall hs b, out s' = Some (WJMAP hs b) -> hs <> [] -> told_kept keep t u acct it resp (q s) hs b (q s').
Proof.
  intros Ht Hu Hr Hd. unfold hold_back. rewrite (proj2 (String.eqb_neq _ _) Ht), (proj2 (String.eqb_neq _ _) Hu), Hr, Hd. cbn [orb].
  assert (forall s1, fw s1 = w' ->
    exists e s', writeJMAPResponse werr [] resp s1 = ((true, e), s') /\ fw s' = w' /\
      forall hs b, out s' = Some (WJMAP hs b) -> hs <> [] -> told_kept keep t u acct it resp (q s) hs b (q s')) as Hbare.
  { intros s1 H1. eexists _, _. split; [reflexivity|]. split; [done|]. intros hs b. cbn. by destruct werr as [x|]; [done|intros [= <- <-]]. }
  destruct (FirstCallError _); [by apply Hbare|].
  unfold resolveCreatedEmailID. destruct (blank (emailCreateKey it)) eqn:Eb; [by apply Hbare|].
  destruct (created_email _ _) as [emailID|] eqn:Ec; [|by apply Hbare].
  cbn [q fw out]. destruct (keep t u acct it emailID (q s)) as [[id sendAt headers|st|] qs] eqn:Ek; [| |by apply Hbare].
  - eexists _, _. split; [reflexivity|]. split; [done|]. intros hs b. cbn. destruct werr as [x|]; [done|]. intros [= <- <-] _. by exists emailID, id, sendAt.
  - eexists _, _. split; [reflexivity|]. by split.
Qed.
End held.

Section keeping.
Context {V : Type} `{VK : Valkey doc V} (svc : UndoSend.Service) (marshalU : list (string * json) -> option UndoSend.payload).
Context (marshalS : list (string * json) -> option ScheduledSend.payload) (format_rfc3339 : Z -> string).

Lemma undo_keep_kept E t u acct it emailID (v : V) id sendAt hs v' :
  undo_keep svc marshalU E t u acct it emailID v = (KKept id sendAt hs, v') ->
  exists payload, marshalU (normaliseSubmissionPayload (submissionCreate it) (emailCreateKey it) emailID) = Some payload /\
    let ps := mkPending id t u acct (submissionCreateKey it) emailID (identityID it) payload UndoSend.StatusPending (ue_now E)
                (ue_now E + delay svc) 0 "" in
    v' = put_pending (ue_sv E) svc (ue_wall E) ps v /\ hs = [(HeaderPendingID, id); (HeaderDeadline, pretty (Unix (UndoSend.DeadlineAt ps)))].
Proof.
  unfold undo_keep. destruct (marshalU _) as [payload|]; [|done]. unfold UndoSend.Hold, write, remote.
  destruct (validateHold _); [|done]. destruct (ue_id E) as [i|]; [|done]. destruct (ue_d E); [|done|done].
  intros [= <- <- <- <-]. by exists payload.
Qed.

Lemma sched_keep_kept E at_ t u acct it emailID s id sendAt hs s' :
  sched_keep marshalS format_rfc3339 E at_ t u acct it emailID s = (KKept id sendAt hs, s') ->
  exists payload, marshalS (normaliseSubmissionPayload (submissionCreate it) (emailCreateKey it) emailID) = Some payload /\
    rows s !! id = None /\
    let r := mkScheduled id t u acct emailID (identityID it) payload (micro at_) ScheduledSend.StatusPending 0 "" (micro at_) None
               (se_dbnow E) (se_dbnow E) in
    s' = with_rows (<[id := r]> (rows s)) s /\ hs = [(HeaderScheduledID, id); (HeaderScheduledSendAt, pretty (Unix (micro at_)))].
Proof.
  unfold sched_keep. destruct (marshalS _) as [payload|]; [|done]. unfold ScheduledSend.Schedule.
  destruct (validateSchedule _ _) as [[]|[]]; try done. unfold BeginFunc. cbn [iTenantID iSubmissionPayload].
  destruct (negb _); [by destruct (se_d E)|].
  destruct payload as [|err|err| |m]; try (by destruct (se_d E));
    (case_bool_decide as Hn; [by destruct (se_d E)|]); (destruct (se_d E); [|done|done]); intros [= <- <- <- <-];
    eexists; (split_and!; [done|by apply eq_None_not_Some|done|done]).
Qed.
End keeping.

(** A hook that intercepts leaves nothing to forward. *)
Lemma serve_intercepted {C H W K} `{!LRU C} `{!CircuitBreaker K} parse exchange clk rnd cfg (h : hook request H) d now tbl sh memo r
    (s : pstate (C := C) (W := W) (K := K)) p s' e hs' :
  hooked cfg (Some h) r = true -> shouldScanBody r = true -> h r (hooks s) = ((true, e), hs') ->
  ServeHTTP parse exchange clk rnd cfg (Some h) d now tbl sh memo r s = (p, s') ->
  sent (netst s') = sent (netst s) /\ (hooks s' = hooks s \/ hooks s' = hs').
Proof.
  intros Hh Hb Hi. unfold ServeHTTP. destruct (String.eqb (ctxTenant r) "" || _); [intros [= _ <-]; auto|].
  destruct (resolveAccount _ _ _ _ _ _) as [[a|[]] c]; [|intros [= _ <-]; auto..]. rewrite Hh. destruct (negb _); [intros [= _ <-]; auto|].
  destruct (maxScanBytes <? _); [intros [= _ <-]; auto|]. rewrite Hb. cbn [hooks]. rewrite Hi.
  destruct (match PreDeliverHook cfg with Some _ => _ | None => _ end); intros [= _ <-]; auto.
Qed.

Lemma serve_has_context {C H W K} `{!LRU C} `{!CircuitBreaker K} parse exchange clk rnd cfg (h : option (hook request H)) d now tbl sh memo r
    (s : pstate (C := C) (W := W) (K := K)) :
  ctxTenant r = ""%string \/ ctxUser r = ""%string -> (ServeHTTP parse exchange clk rnd cfg h d now tbl sh memo r s).2 = s.
Proof. unfold ServeHTTP. intros [->| ->]; [done|]. by rewrite orb_true_r. Qed.

(** ** The hooks behind the proxy *)
Section system.
Context {C W V N K : Type} `{!LRU C} `{!CircuitBreaker K} `{VK : Valkey doc V}.
(** The proxy: parsing of URLs, the network, its clocks, its configuration. *)
Context (parse : string -> option URL) (exchange : upstream string -> N -> answer * N) (clk : nat -> Z) (rnd : nat -> option string).
Context (cfg : ProxyConfig).
(** The hooks: account look-up, internal client, JSON, the undo service. *)
Context (resolver : string -> string -> option string) (Dispatch : string -> string -> batch -> W -> result string reply * W).
Context (parseJMAP : string -> option batch) (svc : UndoSend.Service).
Context (marshalU : list (string * json) -> option UndoSend.payload) (marshalS : list (string * json) -> option ScheduledSend.payload).
Context (parse_rfc3339 : string -> option Z) (format_rfc3339 : Z -> string).

(** [main]: undo send, then scheduled send. *)
Definition interceptors (E : undo_env) (F : sched_env) : option (hook request (both W V)) :=
  ChainSendInterceptors
    [Some (on_undo (undo_Intercept resolver Dispatch svc parseJMAP marshalU E));
     Some (on_sched (sched_Intercept resolver Dispatch parseJMAP marshalS parse_rfc3339 format_rfc3339 F))].

Definition serve_mail (E : undo_env) (F : sched_env) := ServeHTTP (C := C) parse exchange clk rnd cfg (interceptors E F).
Definition mail_state : Type := pstate (C := C) (H := both W V) (W := N) (K := K).
Implicit Types (s : mail_state).

(** Everything but one submission of [jr] is in [it]. *)
Definition takes_one (jr : batch) (it : intent) : Prop :=
  exists j call n, b_calls jr !! j = Some call /\
    submission_of n call = Some (submissionMethodID it, submissionCreateKey it, submissionCreate it) /\
    b_calls (stripped it) = take j (b_calls jr) ++ drop (S j) (b_calls jr).

Lemma extract_takes_one pick jr it : extractUndoIntent pick jr = Some it -> takes_one jr it.
Proof. intros (j & call & n & H1 & H2 & H3 & _)%extract_spec. by exists j, call, n. Qed.

(** What the hooks answer once the internal client has answered. *)
Lemma undo_answers E r (t : hstate W V) jr it acct resp w' :
  get_header HeaderOptIn (hdr r) = "true"%string -> parseJMAP (body r) = Some jr -> extractUndoIntent (ue_pick E) jr = Some it ->
  ctxTenant r <> ""%string -> ctxUser r <> ""%string ->
  resolver (ctxTenant r) (ctxUser r) = Some acct -> Dispatch (ctxTenant r) (ctxUser r) (stripped it) (fw t) = (Ok resp, w') ->
  exists e t', undo_Intercept resolver Dispatch svc parseJMAP marshalU E r t = ((true, e), t') /\
    forall hs b, out t' = Some (WJMAP hs b) -> hs <> [] ->
      told_kept (undo_keep svc marshalU E) (ctxTenant r) (ctxUser r) acct it resp (q t) hs b (q t').
Proof.
  intros Hopt Hp Hx Ht Hu Hr Hd.
  destruct (hold_back_answered resolver Dispatch (undo_keep svc marshalU E) (ue_werr E) (ctxTenant r) (ctxUser r) it t acct resp w' Ht Hu Hr Hd)
    as (e & t' & Et & _ & Hk).
  exists e, t'. split; [|done]. unfold undo_Intercept. by rewrite Hopt, Hp, Hx.
Qed.

Definition sched_hook (F : sched_env) := sched_Intercept resolver Dispatch parseJMAP marshalS parse_rfc3339 format_rfc3339 F.
Definition asked_for (r : request) : option Z := parseScheduleAt parse_rfc3339 (TrimSpace (get_header HeaderScheduleAt (hdr r))).

Lemma sched_refuses F r t : TrimSpace (get_header HeaderScheduleAt (hdr r)) <> ""%string ->
  (forall at_, asked_for r = Some at_ -> ~ MinScheduleHorizon <= Sub at_ (se_wall F) <= MaxScheduleHorizon) ->
  sched_hook F r t = ((true, None), mkHState (fw t) (q t) (Some (WText 400))).
Proof.
  intros Hraw%String.eqb_neq Hbad. unfold sched_hook, sched_Intercept. unfold asked_for in Hbad. rewrite Hraw. destruct (parseScheduleAt _ _) as [at_|]; [|done].
  specialize (Hbad at_ eq_refl). destruct (Z.ltb_spec (Sub at_ (se_wall F)) MinScheduleHorizon); [done|].
  destruct (Z.ltb_spec MaxScheduleHorizon (Sub at_ (se_wall F))); [done|lia].
Qed.

Lemma sched_answers F r t at_ jr it acct resp w' :
  TrimSpace (get_header HeaderScheduleAt (hdr r)) <> ""%string -> asked_for r = Some at_ ->
  MinScheduleHorizon <= Sub at_ (se_wall F) <= MaxScheduleHorizon ->
  parseJMAP (body r) = Some jr -> extractScheduleIntent (se_pick F) jr = Some it -> ctxTenant r <> ""%string -> ctxUser r <> ""%string ->
  resolver (ctxTenant r) (ctxUser r) = Some acct -> Dispatch (ctxTenant r) (ctxUser r) (stripped it) (fw t) = (Ok resp, w') ->
  exists e t', sched_hook F r t = ((true, e), t') /\
    forall hs b, out t' = Some (WJMAP hs b) -> hs <> [] ->
      told_kept (sched_keep marshalS format_rfc3339 F at_) (ctxTenant r) (ctxUser r) acct it resp (q t) hs b (q t').
Proof.
  intros Hraw%String.eqb_neq Hat Hor Hp Hx Ht Hu Hr Hd. unfold asked_for in Hat.
  destruct (hold_back_answered resolver Dispatch (sched_keep marshalS format_rfc3339 F at_) (se_werr F) (ctxTenant r) (ctxUser r) it t acct resp w' Ht Hu Hr Hd)
    as (e & t' & Et & _ & Hk).
  exists e, t'. split; [|done]. unfold sched_hook, sched_Intercept. rewrite Hraw, Hat, Hp, Hx.
  destruct (Z.ltb_spec (Sub at_ (se_wall F)) MinScheduleHorizon); [lia|]. by destruct (Z.ltb_spec MaxScheduleHorizon (Sub at_ (se_wall F))); [lia|].
Qed.

(** Without a context nothing happens. *)
Lemma serve_mail_context E F d now tbl sh memo r s p s' : serve_mail E F d now tbl sh memo r s = (p, s') ->
  s' = s \/ ctxTenant r <> ""%string /\ ctxUser r <> ""%string.
Proof.
  intros Hs. destruct (decide (ctxTenant r = "" \/ ctxUser r = "")%string) as [Hc|Hc]; [left|right; tauto].
  pose proof (serve_has_context parse exchange clk rnd cfg (interceptors E F) d now tbl sh memo r s Hc) as Hn.
  unfold serve_mail in Hs. by rewrite Hs in Hn.
Qed.

(** C4: An undo-send submission is held back, not sent.  When the client
    asked for undo send, the batch carries a submission and the internal
    client answered for the rest of it, the proxy forwards nothing to a shard,
    whatever fails afterwards; the rest is the batch without that one call;
    and if the client is told of a pending send, the queue holds it under that
    id, pending, for the client's own tenant, user and account, with the
    email the mail server minted and the configured delay. *)
Theorem undo_send_held_back E F d now tbl sh memo r s p s' jr it acct resp w' :
  get_header HeaderOptIn (hdr r) = "true"%string -> parseJMAP (body r) = Some jr -> extractUndoIntent (ue_pick E) jr = Some it ->
  resolver (ctxTenant r) (ctxUser r) = Some acct -> Dispatch (ctxTenant r) (ctxUser r) (stripped it) (bw (hooks s)) = (Ok resp, w') ->
  hooked cfg (interceptors E F) r = true -> shouldScanBody r = true -> serve_mail E F d now tbl sh memo r s = (p, s') ->
  sent (netst s') = sent (netst s) /\ takes_one jr it /\ bdb (hooks s') = bdb (hooks s) /\
  (hooks s' = hooks s \/
   forall hs b, bout (hooks s') = Some (WJMAP hs b) -> hs <> [] ->
     exists emailID payload id obj, created_email (emailCreateKey it) (r_calls resp) = Some emailID /\
       field "emailId" obj = JString emailID /\ marshalU obj = Some payload /\
       let ps := mkPending id (ctxTenant r) (ctxUser r) acct (submissionCreateKey it) emailID (identityID it) payload
                   UndoSend.StatusPending (ue_now E) (ue_now E + delay svc) 0 "" in
       bv (hooks s') = put_pending (ue_sv E) svc (ue_wall E) ps (bv (hooks s)) /\
       hs = [(HeaderPendingID, id); (HeaderDeadline, pretty (Unix (ue_now E + delay svc)))]).
Proof.
  intros Hopt Hp Hx Hr Hd Hh Hb Hs. destruct (serve_mail_context _ _ _ _ _ _ _ _ _ _ _ Hs) as [-> |[Ht Hu]].
  { split_and!; [done|by eapply extract_takes_one|done|by left]. }
  destruct (undo_answers E r (mkHState (bw (hooks s)) (bv (hooks s)) (bout (hooks s))) jr it acct resp w' Hopt Hp Hx Ht Hu Hr Hd) as (e & t & Et & Hk).
  assert (intercept_each [on_undo (undo_Intercept resolver Dispatch svc parseJMAP marshalU E); on_sched (sched_hook F)] r (hooks s)
    = ((true, e), mkBoth (fw t) (q t) (bdb (hooks s)) (out t))) as Hi.
  { cbn [intercept_each]. unfold on_undo at 1. rewrite Et. by destruct e. }
  eapply serve_intercepted in Hs as [Hsent Hhooks]; [|exact Hh|exact Hb|exact Hi].
  split_and!; [exact Hsent|by eapply extract_takes_one|by destruct Hhooks as [-> | ->]|]. destruct Hhooks as [Hhooks|Hhooks]; [by left|right].
  rewrite Hhooks. cbn. intros hs b Ho Hne. destruct (Hk hs b Ho Hne) as (emailID & id & sendAt & Hkey & Hc & Hkeep & ->).
  apply undo_keep_kept in Hkeep as (payload & Hm & Hv & Hhs). eexists emailID, payload, id, _. split_and!; [done| |exact Hm|done|done].
  by eapply normalised_email.
Qed.

(** The hook of scheduled send, when undo send was not asked for. *)
Lemma chain_to_sched E F r s x t : get_header HeaderOptIn (hdr r) <> "true"%string ->
  sched_hook F r (mkHState (bw (hooks s)) (bdb (hooks s)) (bout (hooks s))) = ((true, x), t) ->
  exists h, interceptors E F = Some h /\ h r (hooks s) = ((true, x), mkBoth (fw t) (bv (hooks s)) (q t) (out t)).
Proof.
  intros Hopt Hs. unfold sched_hook in Hs. eexists. split; [reflexivity|]. cbn [intercept_each]. unfold on_undo at 1, undo_Intercept.
  apply String.eqb_neq in Hopt. rewrite Hopt. cbn [negb fw q out]. unfold on_sched. destruct s as [c [w v b o] n]. cbn in *. rewrite Hs. by destruct x.
Qed.

(** The proxy answers a hooked request itself or lets the hook answer. *)
Lemma serve_intercepted_answer h d now tbl sh memo r s p s' e hs' :
  hooked cfg (Some h) r = true -> shouldScanBody r = true -> h r (hooks s) = ((true, e), hs') ->
  ServeHTTP parse exchange clk rnd cfg (Some h) d now tbl sh memo r s = (p, s') ->
  (exists code title, p = PError code title /\ 400 <= code /\ hooks s' = hooks s) \/ p = PIntercepted /\ hooks s' = hs'.
Proof.
  intros Hh Hb Hi. unfold ServeHTTP. destruct (String.eqb (ctxTenant r) "" || _); [intros [= <- <-]; left; by eexists _, _|].
  destruct (resolveAccount _ _ _ _ _ _) as [[a|[]] c]; [|intros [= <- <-]; left; by eexists _, _..]. rewrite Hh. destruct (negb _); [intros [= <- <-]; left; by eexists _, _|].
  destruct (maxScanBytes <? _); [intros [= <- <-]; left; by eexists _, _|]. rewrite Hb. cbn [hooks]. rewrite Hi.
  destruct (match PreDeliverHook cfg with Some _ => _ | None => _ end); intros [= <- <-]; [left; by eexists _, _|by right].
Qed.

(** C10: A send asked for later is not sent at once.  Take a POST or PUT to
    the JMAP endpoint (a path that ends in /jmap or /jmap/, not under
    /.well-known/) whose body has the JSON string
    EmailSubmission/set in it, with a schedule header and without undo send.
    A time the code does not read, or that lies outside one minute to a year,
    is answered 400 by the hook unless the proxy has refused the request
    before with an error of its own, and nothing reaches the mail server, the
    internal client or the table.  Otherwise, when the batch parses and
    carries a submission, the account is known and the internal client
    answered for the rest of the batch, nothing is forwarded whatever fails
    afterwards; and if the client is told of a scheduled send, the table holds
    a pending row under that id for the client's own tenant, user and account,
    with the minted email, due at the time asked for. *)
Theorem scheduled_send_held_back E F d now tbl sh memo r s p s' :
  get_header HeaderOptIn (hdr r) <> "true"%string -> TrimSpace (get_header HeaderScheduleAt (hdr r)) <> ""%string ->
  method r = "POST"%string \/ method r = "PUT"%string -> HasSuffix (path r) "/jmap" = true \/ HasSuffix (path r) "/jmap/" = true ->
  Contains (path r) "/.well-known/" = false -> Contains (body r) (quote +:+ "EmailSubmission/set" +:+ quote) = true ->
  serve_mail E F d now tbl sh memo r s = (p, s') ->
  ((forall t, asked_for r = Some t -> ~ Minute <= Sub t (se_wall F) <= 365 * 24 * Hour) ->
     sent (netst s') = sent (netst s) /\ bw (hooks s') = bw (hooks s) /\ bdb (hooks s') = bdb (hooks s) /\
     (p = PIntercepted /\ bout (hooks s') = Some (WText 400) \/ exists code title, p = PError code title /\ 400 <= code)) /\
  (forall at_ jr it acct resp w', asked_for r = Some at_ -> Minute <= Sub at_ (se_wall F) <= 365 * 24 * Hour ->
     parseJMAP (body r) = Some jr -> extractScheduleIntent (se_pick F) jr = Some it -> resolver (ctxTenant r) (ctxUser r) = Some acct ->
     Dispatch (ctxTenant r) (ctxUser r) (stripped it) (bw (hooks s)) = (Ok resp, w') ->
     sent (netst s') = sent (netst s) /\ takes_one jr it /\ bv (hooks s') = bv (hooks s) /\
     (hooks s' = hooks s \/
      forall hs b, bout (hooks s') = Some (WJMAP hs b) -> hs <> [] ->
        exists emailID payload id obj, created_email (emailCreateKey it) (r_calls resp) = Some emailID /\
          field "emailId" obj = JString emailID /\ marshalS obj = Some payload /\
          let ss := mkScheduled id (ctxTenant r) (ctxUser r) acct emailID (identityID it) payload (micro at_) ScheduledSend.StatusPending 0 ""
                      (micro at_) None (se_dbnow F) (se_dbnow F) in
          rows (bdb (hooks s)) !! id = None /\ rows (bdb (hooks s')) = <[id := ss]> (rows (bdb (hooks s))) /\
          hs = [(HeaderScheduledID, id); (HeaderScheduledSendAt, pretty (Unix (micro at_)))])).
Proof.
  intros Hopt Hraw Hm Hpath Hwk Hbody Hs.
  assert (hooked cfg (interceptors E F) r = true /\ shouldScanBody r = true) as [Hh Hb].
  { unfold hooked, shouldScanBody, requestCarriesMessageContent. split.
    - rewrite Hwk. unfold interceptors. cbn [ChainSendInterceptors omap list_omap id]. rewrite orb_true_r. destruct Hm as [-> | ->], Hpath as [-> | ->];
        rewrite ?orb_true_r; by destruct (upload_path (path r)).
    - apply orb_true_intro. right. unfold jmapSubmitMethods. cbn [existsb]. by rewrite Hbody, orb_true_r. }
  split.
  - intros Hbad. destruct (chain_to_sched E F r s _ _ Hopt (sched_refuses F r _ Hraw Hbad)) as (h & Eh & Hrun). unfold serve_mail in Hs. rewrite Eh in Hh, Hs.
    destruct (serve_intercepted _ _ _ _ _ _ _ _ _ _ _ _ _ _ _ _ _ Hh Hb Hrun Hs) as [H1 _].
    destruct (serve_intercepted_answer _ _ _ _ _ _ _ _ _ _ _ _ Hh Hb Hrun Hs) as [(code & title & Hp & Hc & Hk)|[Hp Hk]]; rewrite Hk; split_and!; eauto.
  - intros at_ jr it acct resp w' Hat Hor Hp Hx Hr Hd. destruct (serve_mail_context _ _ _ _ _ _ _ _ _ _ _ Hs) as [-> |[Ht Hu]].
    { split_and!; [done|by eapply extract_takes_one|done|by left]. }
    destruct (sched_answers F r (mkHState (bw (hooks s)) (bdb (hooks s)) (bout (hooks s))) at_ jr it acct resp w' Hraw Hat Hor Hp Hx Ht Hu Hr Hd) as (e & t & Et & Hk).
    destruct (chain_to_sched E F r s _ _ Hopt Et) as (h & Eh & Hrun). unfold serve_mail in Hs. rewrite Eh in Hh, Hs.
    destruct (serve_intercepted _ _ _ _ _ _ _ _ _ _ _ _ _ _ _ _ _ Hh Hb Hrun Hs) as [Hsent Hhooks].
    split_and!; [exact Hsent|by eapply extract_takes_one|by destruct Hhooks as [-> | ->]|]. destruct Hhooks as [Hhooks|Hhooks]; [by left|right].
    rewrite Hhooks. cbn. intros hs b Ho Hne. destruct (Hk hs b Ho Hne) as (emailID & id & sendAt & Hkey & Hc & Hkeep & ->).
    apply sched_keep_kept in Hkeep as (payload & Hms & Hn & Hv & Hhs). eexists emailID, payload, id, _. split_and!; [done| |exact Hms|exact Hn|by rewrite Hv|done].
    by eapply normalised_email.
Qed.
End system.

(** ** Examples *)
Module HookExamples.
(** A mail server that mints a draft [m<n>] per batch with an [Email/set]. *)
Definition mints (b : batch) : bool := existsb (fun c => match c with name :: _ => String.eqb (as_string name) "Email/set" | [] => false end) (b_calls b).
Definition minted (n : nat) : reply :=
  mkReply [[JString "Email/set"; JObject [("accountId", JString "acc-1"); ("created", JObject [("draft", JObject [("id", JString ("m" +:+ pretty n))])])];
            JString "0"]]%string "s" [].
Definition answers (t u : string) (b : batch) (n : nat) : result string reply * nat := (Ok (minted n), if mints b then S n else n).
(** The same server behind a connection that loses the answer. *)
Definition silent (t u : string) (b : batch) (n : nat) : result string reply * nat := (Err "timeout"%string, if mints b then S n else n).

Definition draft : list json := [JString "Email/set"; JObject [("create", JObject [("draft", JObject [])])]; JString "0"]%string.
Definition send_as (entries : list (string * json)) : list json := [JString "EmailSubmission/set"; JObject [("create", JObject entries)]; JString "1"]%string.
Definition to_draft : json := JObject [("emailId", JString "#draft"); ("identityId", JString "i")]%string.
Definition one : batch := mkBatch [] [draft; send_as [("s"%string, to_draft)]] [].

Definition text : string := "[[" +:+ quote +:+ "EmailSubmission/set" +:+ quote +:+ "]]".
Definition flat (m : list (string * json)) : gmap string jval := list_to_map ((fun kv => (kv.1, match kv.2 with JString x => JText x | _ => JRaw "" end)) <$> m).
Definition svc : UndoSend.Service := UndoSend.mkService (10 * Second) (300 * Second) (5 * Minute).
Definition E : undo_env := mkUndoEnv (fun _ => 0%nat) Delivered 0 (Some "p1"%string) 0 0 None.
Definition lostE : undo_env := mkUndoEnv (fun _ => 0%nat) ReplyLost 0 (Some "p1"%string) 0 0 None.
Definition F : sched_env := mkSchedEnv (fun _ => 0%nat) 0 0 Delivered 0 "r1" None.
Definition undo_post : request := mkRequest "POST" "/jmap" (set_header HeaderOptIn "true"%string ∅) text true "t1" "u1".
Definition later_post (at_ : string) : request := mkRequest "POST" "/jmap" (set_header HeaderScheduleAt at_ ∅) text true "t1" "u1".

Abbreviation store := (gmap string (ventry doc)).
Definition idle : pstate (C := gmap string (string * Z)) (H := both nat store) (W := list string) (K := InProcess.inProcessCircuitBreaker) :=
  mkPState ∅ (mkBoth 0%nat (∅ : store) (ScheduledSend.mkDB {["t1"%string]} ∅) None) (mkNet (InProcess.newInProcessCircuitBreaker 3 30 60) [] []).
Definition known (t u : string) : option string := Some "acc-1"%string.
Abbreviation mail dispatch jr e r := (serve_mail (LRU0 := unbounded accountCacheDefaultTTL) by_name (executing []) (fun _ => 0) (fun _ => None) plain known dispatch
  (fun _ => Some jr) svc (fun m => Some (UndoSend.PObject (flat m))) (fun m => Some (ScheduledSend.PObject (flat m))) (fun _ => None) (fun _ => "")%string
  e F Delivered 0 one_user two_shards None r idle).

(** The client is told of the pending send, which the queue holds. *)
Example held : sent (netst (mail answers one E undo_post).2) = [] /\
  (match bout (hooks (mail answers one E undo_post).2) with Some (WJMAP hs _) => hs | _ => [] end) = [(HeaderPendingID, "p1"); (HeaderDeadline, "10")]%string.
Proof. vm_compute. done. Qed.

Lemma undo_send_held_back_witness : sent (netst (mail answers one E undo_post).2) = [] /\
  takes_one one (mkIntent (mkBatch [] [draft] []) "1" "s" "draft" "i" [("emailId", JString "#draft"); ("identityId", JString "i")])%string.
Proof.
  destruct (undo_send_held_back (LRU0 := unbounded accountCacheDefaultTTL) by_name (executing []) (fun _ => 0) (fun _ => None) plain known answers
    (fun _ => Some one) svc (fun m => Some (UndoSend.PObject (flat m))) (fun m => Some (ScheduledSend.PObject (flat m))) (fun _ => None) (fun _ => "")%string
    E F Delivered 0 one_user two_shards None undo_post idle (mail answers one E undo_post).1 (mail answers one E undo_post).2 one
    (mkIntent (mkBatch [] [draft] []) "1" "s" "draft" "i" [("emailId", JString "#draft"); ("identityId", JString "i")])%string "acc-1" (minted 0) 1%nat)
    as (H1 & H2 & _); [by vm_compute..|apply surjective_pairing|]. split; [exact H1|exact H2].
Defined.

(** Two minutes from now is kept, half a minute is refused, nothing is sent. *)
Example scheduled : sent (netst (mail answers one E (later_post "120")).2) = [] /\
  (fun r => (EmailID r, SendAt r)) <$> rows (bdb (hooks (mail answers one E (later_post "120")).2)) !! "r1"%string = Some ("m0"%string, 120 * Second) /\
  bout (hooks (mail answers one E (later_post "30")).2) = Some (WText 400).
Proof. vm_compute. done. Qed.

Lemma scheduled_send_held_back_witness : sent (netst (mail answers one E (later_post "120")).2) = [] /\
  sent (netst (mail answers one E (later_post "30")).2) = [] /\ bout (hooks (mail answers one E (later_post "30")).2) = Some (WText 400).
Proof.
  split.
  - destruct (scheduled_send_held_back (LRU0 := unbounded accountCacheDefaultTTL) by_name (executing []) (fun _ => 0) (fun _ => None) plain known answers
      (fun _ => Some one) svc (fun m => Some (UndoSend.PObject (flat m))) (fun m => Some (ScheduledSend.PObject (flat m))) (fun _ => None) (fun _ => "")%string
      E F Delivered 0 one_user two_shards None (later_post "120") idle (mail answers one E (later_post "120")).1 (mail answers one E (later_post "120")).2)
      as [_ H]; [by vm_compute|by vm_compute|by left|by left; vm_compute|by vm_compute|by vm_compute|apply surjective_pairing|].
    apply (H (120 * Second) one (mkIntent (mkBatch [] [draft] []) "1" "s" "draft" "i" [("emailId", JString "#draft"); ("identityId", JString "i")])%string
      "acc-1"%string (minted 0) 1%nat); by vm_compute.
  - destruct (scheduled_send_held_back (LRU0 := unbounded accountCacheDefaultTTL) by_name (executing []) (fun _ => 0) (fun _ => None) plain known answers
      (fun _ => Some one) svc (fun m => Some (UndoSend.PObject (flat m))) (fun m => Some (ScheduledSend.PObject (flat m))) (fun _ => None) (fun _ => "")%string
      E F Delivered 0 one_user two_shards None (later_post "30") idle (mail answers one E (later_post "30")).1 (mail answers one E (later_post "30")).2)
      as [H _]; [by vm_compute|by vm_compute|by left|by left; vm_compute|by vm_compute|by vm_compute|apply surjective_pairing|].
    destruct H as (H1 & _ & _ & H2); [intros t Ht; vm_compute in Ht; injection Ht as <-; vm_compute; intros [Hx _]; by apply Hx|]. split; [exact H1|].
    destruct H2 as [[_ H2]|(code & title & H2 & _)]; [exact H2|]. vm_compute in H2. discriminate H2.
Defined.

(** ** Where comments and code part ways *)

(** When the answer to the forwarded rest is lost, the draft is minted and the
    proxy forwards the whole batch on top: a second draft, sent at once. *)
Theorem lost_answer_sends_at_once :
  let s := (mail silent one E undo_post).2 in bw (hooks s) = 1%nat /\ u_body <$> (sent (netst s)).*1 = [Some text].
Proof. vm_compute. done. Qed.

(** The internal client answers a method error anywhere in the response with
    an error, so a batch whose [Email/set] succeeded and whose later call
    failed is sent at once too. *)
Definition half_done : JmapResponse :=
  mkJmapResponse (r_calls (minted 0) ++ [[JString "error"; JObject [("type"%string, JString "invalidArguments")]; JString "2"]]).
Definition through_client (t u : string) (b : batch) (w : nat) : result string reply * nat :=
  let '(r, n) := JmapClient.Dispatch (B := batch) by_name (fun x w => (Response 200 "", match u_body x with Some b => if mints b then S w else w | None => w end))
    (mkAuthority "Basic dev" None) (fun _ => Some half_done) t u (Some "acc-1"%string) [] "stalwart" b (mkNet tt w []) in
  (match r with Ok resp => Ok (mkReply (MethodResponses resp) "" []) | Err _ => Err "dispatch"%string end, JmapProxy.world n).
Theorem method_error_sends_at_once :
  let s := (mail through_client one E undo_post).2 in bw (hooks s) = 1%nat /\ u_body <$> (sent (netst s)).*1 = [Some text].
Proof. vm_compute. done. Qed.

(** A submission of an email that exists already is neither held nor sent. *)
Definition existing : batch := mkBatch [] [send_as [("s"%string, JObject [("emailId", JString "m7")]%string)]] [].
Theorem existing_email_is_dropped :
  let s := (mail answers existing E undo_post).2 in
  sent (netst s) = [] /\ bv (hooks s) = ∅ /\ bout (hooks s) = Some (WJMAP [] (minted 0)).
Proof. vm_compute. done. Qed.

(** The other entries of the call are neither forwarded nor kept. *)
Definition two_entries : batch := mkBatch [] [draft; send_as [("s", to_draft); ("s2", JObject [("emailId", JString "#draft"); ("identityId", JString "j")])]%string] [].
Theorem other_entries_are_dropped : exists it, extractUndoIntent (fun _ => 0%nat) two_entries = Some it /\
  b_calls (stripped it) = [draft] /\ submissionCreateKey it = "s"%string /\ identityID it = "i"%string.
Proof. by eexists. Qed.

(** When the answer of the queue is lost the client is told of a draft only,
    and the submission goes out after the delay. *)
Theorem lost_hold_is_sent_later :
  let s := (mail answers one lostE undo_post).2 in
  bout (hooks s) = Some (WJMAP [] (minted 0)) /\ vk_zrange 0 (bv (hooks s)) sortedSetKey 10 50 = ["p1"%string].
Proof. vm_compute. done. Qed.
End HookExamples.
