(* ===== verification/Auth.v ===== *)
(** * Authentication ([internal/middleware/auth.go], [jwks.go],
      [lazy_provision.go])

    Bearer tokens of the OIDC issuer: the key set and its cache, the checks on
    a token, the identity taken from its claims, the shortcuts of development
    environments, and the provisioning of tenants met for the first time.  The
    JWT library is [JWTLib]; bodies of HTTP responses are what they decode to.
    [serve_all] runs a sequence of requests against one fetcher; the last
    section puts the middleware in front of the proxy of [JmapProxy]. *)

From S2P Require Import Prelude Text Codec Valkey Breaker JmapProxy.

Local Open Scope Z_scope.
Local Open Scope go_scope.

(** ** Environments *)
Definition EnvDevelopment : string := "development".
Definition EnvStaging : string := "staging".
Definition EnvProduction : string := "production".
Definition knownEnvs : list string := [EnvDevelopment; EnvStaging; EnvProduction].
Definition envAliases : list (string * string) := [("dev", EnvDevelopment); ("prod", EnvProduction); ("stg", EnvStaging)]%string.

Definition normalizeEnvString (env : string) : string :=
  let raw := ToLower (TrimSpace env) in
  match List.find (fun a => String.eqb a.1 raw) envAliases with Some a => a.2 | None => raw end.
Definition IsDevEnv (env : string) : bool := String.eqb (normalizeEnvString env) EnvDevelopment.

(** ** Keys ([jwks.go]) *)
Record jwk := mkJwk { Kty : string; Kid : string; Use : string; kN : string; kE : string; Crv : string; kX : string; kY : string }.

Inductive curve := P256 | P384 | P521.
Inductive key := RSAKey (N E : Z) | ECKey (c : curve) (X Y : Z).
#[export] Instance curve_eq_dec : EqDecision curve.
Proof. solve_decision. Defined.
#[export] Instance key_eq_dec : EqDecision key.
Proof. solve_decision. Defined.

(** [new(big.Int).SetBytes]. *)
Definition SetBytes (bytes : list Z) : Z := foldl (fun n b => 256 * n + b) 0 bytes.
(** [e = e<<8 | int(b)]. *)
Definition exponent (bytes : list Z) : Z := foldl (fun e b => Z.lor (wrap64 (Z.shiftl e 8)) b) 0 bytes.
Definition raw_url (s : string) : option (list Z) := decode64 url_alphabet false s.

Definition parseRSA (k : jwk) : option key :=
  if String.eqb (kN k) "" || String.eqb (kE k) "" then None
  else match raw_url (kN k), raw_url (kE k) with
  | Some n, Some e => Some (RSAKey (SetBytes n) (exponent e))
  | _, _ => None
  end.
Definition parseEC (k : jwk) : option key :=
  let curve :=
    if String.eqb (Crv k) "P-256" then Some P256
    else if String.eqb (Crv k) "P-384" then Some P384
    else if String.eqb (Crv k) "P-521" then Some P521
    else None in
  match curve, raw_url (kX k), raw_url (kY k) with
  | Some c, Some x, Some y => Some (ECKey c (SetBytes x) (SetBytes y))
  | _, _, _ => None
  end.
Definition parseJWK (k : jwk) : option key :=
  if String.eqb (Kty k) "RSA" then parseRSA k else if String.eqb (Kty k) "EC" then parseEC k else None.

(** A response by its status and what its body decodes to: a key set, and a
    discovery document with its [jwks_uri]. *)
Record http_response := mkHTTP { StatusCode : Z; as_keyset : option (list jwk); as_discovery : option string }.

(** Of two keys with one [kid] the last stays. *)
Definition add_key (k : jwk) (m : gmap string key) : gmap string key :=
  if negb (String.eqb (Use k) "") && negb (String.eqb (Use k) "sig") then m
  else match parseJWK k with None => m | Some x => <[Kid k := x]> m end.
Definition parse_keyset (ks : list jwk) : gmap string key := foldl (fun m k => add_key k m) ∅ ks.

Inductive aerror :=
| ErrNoIssuer | ErrTransport | ErrHTTP (code : Z) | ErrBody | ErrNoJWKSURI | ErrRefresh (e : aerror) | UnknownKid (kid : string)
| MissingAuthorization | BadScheme | EmptyToken | DevBypassDisabled | NoJWKS | BadJWT | MissingClaims | WrongIssuer | WrongAudience
| DevBypassForbidden.

Record JWKSConfig := mkJWKSConfig { cIssuer : string; JWKSURL : string; Refresh : Z }.
Record JWKSFetcher := mkFetcher { issuer : string; jwks_url : string; refresh : Z; fetchedAt : Z; keys : gmap string key }.

Definition NewJWKSFetcher (cfg : JWKSConfig) : result aerror JWKSFetcher :=
  if String.eqb (cIssuer cfg) "" && String.eqb (JWKSURL cfg) "" then Err ErrNoIssuer
  else Ok (mkFetcher (cIssuer cfg) (JWKSURL cfg) (if Refresh cfg <=? 0 then Hour else Refresh cfg) zeroTime ∅).

Definition discovery_url (f : JWKSFetcher) : string := TrimRight (Ascii.ascii_of_nat 47) (issuer f) +:+ "/.well-known/openid-configuration".
Definition lookup_key (kid : string) (f : JWKSFetcher) : option key := keys f !! kid.
Definition isStale (now : Z) (f : JWKSFetcher) : bool := (fetchedAt f =? zeroTime) || (refresh f <? Sub now (fetchedAt f)).

(** The network and the responses it gave, newest last. *)
Record wire (W : Type) := mkWire { world : W; fetched : list (string * http_response) }.
Arguments mkWire {W}. Arguments world {W}. Arguments fetched {W}.

Section fetching.
Context {W : Type} (GET : string -> W -> option http_response * W).

Definition do_get (url : string) (n : wire W) : option http_response * wire W :=
  let '(r, w) := GET url (world n) in
  (r, mkWire w (match r with Some r => fetched n ++ [(url, r)] | None => fetched n end)).

Definition discoverJWKSURL (f : JWKSFetcher) (n : wire W) : result aerror string * wire W :=
  let '(r, n) := do_get (discovery_url f) n in
  (match r with
   | None => Err ErrTransport
   | Some r =>
       if negb (StatusCode r =? 200) then Err (ErrHTTP (StatusCode r))
       else match as_discovery r with
       | None => Err ErrBody
       | Some u => if String.eqb u "" then Err ErrNoJWKSURI else Ok u
       end
   end, n).

Definition fetchURL (f : JWKSFetcher) (n : wire W) : result aerror string * wire W :=
  if String.eqb (jwks_url f) "" then discoverJWKSURL f n else (Ok (jwks_url f), n).

(** [now] is the clock once the body is read. *)
Definition refreshLocked (now : Z) (f : JWKSFetcher) (n : wire W) : result aerror unit * JWKSFetcher * wire W :=
  let '(u, n) := fetchURL f n in
  match u with
  | Err e => (Err e, f, n)
  | Ok url =>
      let '(r, n) := do_get url n in
      match r with
      | None => (Err ErrTransport, f, n)
      | Some r =>
          if negb (StatusCode r =? 200) then (Err (ErrHTTP (StatusCode r)), f, n)
          else match as_keyset r with
          | None => (Err ErrBody, f, n)
          | Some ks => (Ok tt, mkFetcher (issuer f) (jwks_url f) (refresh f) now (parse_keyset ks), n)
          end
      end
  end.

Definition KeyFunc (now now' : Z) (kid : string) (f : JWKSFetcher) (n : wire W) : result aerror key * JWKSFetcher * wire W :=
  match lookup_key kid f, isStale now f with
  | Some k, false => (Ok k, f, n)
  | _, _ =>
      let '(r, f, n) := refreshLocked now' f n in
      (match r, lookup_key kid f with
       | _, Some k => Ok k
       | Err e, None => Err (ErrRefresh e)
       | Ok _, None => Err (UnknownKid kid)
       end, f, n)
  end.
End fetching.

(** ** Tokens ([auth.go]) *)
Record oidcTokenClaims := mkTokenClaims {
  tTenantID : string; tKChatUserID : string; tStalwartAccountID : string; NamespacedTenantID : string; Issuer : string;
  Audience : list string; Subject : string; ExpiresAt : option Z; NotBefore : option Z; IssuedAt : option Z;
}.
Record Claims := mkClaims { TenantID : string; KChatUserID : string; StalwartAccountID : string }.

Definition valid_methods : list string :=
  ["RS256"; "RS384"; "RS512"; "PS256"; "PS384"; "PS512"; "ES256"; "ES384"; "ES512"]%string.

(** [ParseWithClaims] with [WithValidMethods] and [WithIssuedAt]: the [kid] it
    asks the key function for ([None]: malformed token or another method, and
    the function is not called), and the claims it returns given the key. *)
Class JWTLib := {
  jwt_asks : list string -> string -> option string;
  jwt_finish : Z -> list string -> string -> key -> option oidcTokenClaims;
}.

(** [signed k token c]: [token] carries the claims [c] and a signature that
    verifies under [k] with one of the methods. *)
Class JWTLaws `{JWTLib} := {
  signed : list string -> key -> string -> oidcTokenClaims -> Prop;
  law_signed : forall now ms token k c, jwt_finish now ms token k = Some c -> signed ms k token c;
  law_expiry : forall now ms token k c t, jwt_finish now ms token k = Some c -> ExpiresAt c = Some t -> now < t;
  law_not_before : forall now ms token k c t, jwt_finish now ms token k = Some c -> NotBefore c = Some t -> t <= now;
  law_issued : forall now ms token k c t, jwt_finish now ms token k = Some c -> IssuedAt c = Some t -> t <= now;
}.

Record OIDCConfig := mkOIDCConfig { oIssuer : string; oAudience : string; DevBypassToken : string; Env : string; JWKS : option JWKSFetcher }.
Definition isDevEnv (c : OIDCConfig) : bool := IsDevEnv (Env c).
Definition normalizedEnv (c : OIDCConfig) : string := normalizeEnvString (Env c).
(** An unknown name is logged and treated as production. *)
Definition isKnownEnv (c : OIDCConfig) : bool :=
  String.eqb (normalizedEnv c) "" || existsb (String.eqb (normalizedEnv c)) knownEnvs.

Definition NewOIDC (cfg : OIDCConfig) : result aerror OIDCConfig :=
  let? cfg :=
    match JWKS cfg with
    | None =>
        if negb (String.eqb (oIssuer cfg) "") then
          let? f := NewJWKSFetcher (mkJWKSConfig (oIssuer cfg) "" 0) in
          Ok (mkOIDCConfig (oIssuer cfg) (oAudience cfg) (DevBypassToken cfg) (Env cfg) (Some f))
        else Ok cfg
    | Some _ => Ok cfg
    end in
  if negb (isDevEnv cfg) then
    match JWKS cfg with
    | None => Err NoJWKS
    | Some _ => if negb (String.eqb (DevBypassToken cfg) "") then Err DevBypassForbidden else Ok cfg
    end
  else Ok cfg.

Definition resolveIdentity (tenantID kchatUserID namespacedTenantID sub : string) : string * string :=
  (if String.eqb tenantID "" && negb (String.eqb namespacedTenantID "") then namespacedTenantID else tenantID,
   if String.eqb kchatUserID "" && negb (String.eqb sub "") then sub else kchatUserID).
Definition audienceContains (aud : list string) (want : string) : bool := existsb (fun v => String.eqb v want) aud.

Definition identity_of (c : oidcTokenClaims) : Claims :=
  let '(t, u) := resolveIdentity (tTenantID c) (tKChatUserID c) (NamespacedTenantID c) (Subject c) in mkClaims t u (tStalwartAccountID c).
Definition complete (c : Claims) : bool := negb (String.eqb (TenantID c) "" || String.eqb (KChatUserID c) "").

Definition header_of (k : string) (h : header) : string := get_header k h.

Definition devClaimsFromHeaders (h : header) : Claims :=
  let t := header_of "X-KMail-Dev-Tenant-Id" h in
  let u := header_of "X-KMail-Dev-Kchat-User-Id" h in
  mkClaims (if String.eqb t "" then "00000000-0000-0000-0000-000000000000" else t) (if String.eqb u "" then "dev-user" else u)
    (header_of "X-KMail-Dev-Stalwart-Account-Id" h).

Definition space : Ascii.ascii := Ascii.ascii_of_nat 32.
Definition dot : Ascii.ascii := Ascii.ascii_of_nat 46.

(** [strings.SplitN(authz, " ", 2)]. *)
Definition bearer (authz : string) : result aerror string :=
  if String.eqb authz "" then Err MissingAuthorization
  else match split_first space authz with
  | None => Err BadScheme
  | Some (scheme, rest) =>
      if negb (EqualFold scheme "Bearer") then Err BadScheme
      else if String.eqb (TrimSpace rest) "" then Err EmptyToken
      else Ok (TrimSpace rest)
  end.

Section oidc.
Context {W : Type} `{JL : JWTLib} (GET : string -> W -> option http_response * W) (cfg : OIDCConfig).
(** [json.Unmarshal] of a payload. *)
Context (decode_claims : list Z -> option oidcTokenClaims).

(** The instants of one request: before and after a refresh, and when the
    library checks the times. *)
Record instants := mkInstants { i_now : Z; i_fetched : Z; i_check : Z }.

Definition verifyAndExtract (i : instants) (f : JWKSFetcher) (token : string) (n : wire W) : result aerror Claims * JWKSFetcher * wire W :=
  match jwt_asks valid_methods token with
  | None => (Err BadJWT, f, n)
  | Some kid =>
      let '(k, f, n) := KeyFunc GET (i_now i) (i_fetched i) kid f n in
      (match k with
       | Err e => Err e
       | Ok k =>
           match jwt_finish (i_check i) valid_methods token k with
           | None => Err BadJWT
           | Some c =>
               if negb (String.eqb (oIssuer cfg) "") && negb (String.eqb (Issuer c) (oIssuer cfg)) then Err WrongIssuer
               else if negb (String.eqb (oAudience cfg) "") && negb (audienceContains (Audience c) (oAudience cfg)) then Err WrongAudience
               else if complete (identity_of c) then Ok (identity_of c) else Err MissingClaims
           end
       end, f, n)
  end.

Definition decodeUnverifiedClaims (token : string) : result aerror Claims :=
  match Split dot token with
  | [_; payload; _] =>
      match raw_url payload with
      | None => Err BadJWT
      | Some bytes => match decode_claims bytes with None => Err BadJWT | Some c => Ok (identity_of c) end
      end
  | _ => Err BadJWT
  end.

(** The fetcher of [cfg] as it is now is [f]. *)
Definition authenticate (i : instants) (h : header) (f : option JWKSFetcher) (n : wire W) : result aerror Claims * option JWKSFetcher * wire W :=
  match bearer (header_of "Authorization" h) with
  | Err e => (Err e, f, n)
  | Ok token =>
      if negb (String.eqb (DevBypassToken cfg) "") && String.eqb token (DevBypassToken cfg) then
        (if negb (isDevEnv cfg) then Err DevBypassDisabled else Ok (devClaimsFromHeaders h), f, n)
      else match f with
      | Some f => let '(r, f, n) := verifyAndExtract i f token n in (r, Some f, n)
      | None =>
          (if negb (isDevEnv cfg) then Err NoJWKS
           else let? c := decodeUnverifiedClaims token in if complete c then Ok c else Err MissingClaims, f, n)
      end
  end.
End oidc.

(** ** Provisioning on first sight ([lazy_provision.go]) *)
Definition provisionCacheKeyPrefix : string := "kmail:iamcore:tenant-provisioned:".
Definition defaultProvisionCacheTTL : Z := 5 * Minute.
Record LazyProvision := mkLazy { lazy_cache : bool; lazy_ttl : Z }.
(** Panics without a provisioner. *)
Definition NewLazyProvision (provisioner cache : bool) (cacheTTL : Z) : option LazyProvision :=
  if negb provisioner then None else Some (mkLazy cache (if cacheTTL <=? 0 then defaultProvisionCacheTTL else cacheTTL)).

Definition cacheKey (tenantID : string) : string := provisionCacheKeyPrefix +:+ tenantID.
(** The client sends a TTL in milliseconds, at least one. *)
Definition px (d : Z) : Z := Z.max 1 (Milliseconds d).

Section provisioning.
Context {V T : Type} `{VS : ValkeySets string V} (EnsureTenant : string -> T -> bool * T).

(** The fates and server clocks of the two commands. *)
Record lazy_env := mkLazyEnv { le_d : delivery; le_sv : Z; le_d' : delivery; le_sv' : Z }.

Definition isCachedProvisioned (l : LazyProvision) (E : lazy_env) (tenantID : string) (v : V) : bool :=
  if negb (lazy_cache l) then false
  else match remote (le_d E) (fun v => (vk_exists (le_sv E) v (cacheKey tenantID), v)) v with
  | (Some b, _) => b
  | (None, _) => false
  end.
Definition markCachedProvisioned (l : LazyProvision) (E : lazy_env) (tenantID : string) (v : V) : V :=
  if negb (lazy_cache l) then v
  else (remote (le_d' E) (fun v => (tt, vk_set (le_sv' E) (cacheKey tenantID) "1"%string (px (lazy_ttl l)) v)) v).2.

(** Before the handler, which runs in any case. *)
Definition provision (l : LazyProvision) (E : lazy_env) (tenantID : string) (v : V) (t : T) : V * T :=
  if String.eqb tenantID "" then (v, t)
  else if isCachedProvisioned l E tenantID v then (v, t)
  else
    let '(ok, t) := EnsureTenant tenantID t in
    (if ok then markCachedProvisioned l E tenantID v else v, t).

Definition Handle {R S} (l : LazyProvision) (E : lazy_env) (tenantID : string) (next : S -> R * S) (v : V) (t : T) (s : S) : R * (V * T * S) :=
  let '(v, t) := provision l E tenantID v t in let '(r, s) := next s in (r, (v, t, s)).
End provisioning.

(** ** The middleware *)
Inductive oresponse (R : Type) := Unauthorized (e : aerror) | Served (r : R).
Arguments Unauthorized {R} e. Arguments Served {R} r.

(** The context of a request is what its claims say. *)
Definition with_claims (c : Claims) (r : request) : request :=
  mkRequest (method r) (path r) (hdr r) (body r) (readable r) (TenantID c) (KChatUserID c).

Section wrap.
Context {W R S : Type} `{JL : JWTLib} (GET : string -> W -> option http_response * W) (cfg : OIDCConfig).
Context (decode_claims : list Z -> option oidcTokenClaims).
(** [next] is the rest of the chain, [PostAuthMiddleware] included. *)
Context (next : request -> S -> R * S).

Record ostate := mkOState { fetcher : option JWKSFetcher; net_ : wire W; rest : S }.

Definition Wrap (i : instants) (r : request) (s : ostate) : oresponse R * ostate :=
  let '(c, f, n) := authenticate GET cfg decode_claims i (hdr r) (fetcher s) (net_ s) in
  match c with
  | Err e => (Unauthorized e, mkOState f n (rest s))
  | Ok c => let '(x, t) := next (with_claims c r) (rest s) in (Served x, mkOState f n t)
  end.

(** A sequence of requests: what each was answered, and the state after it. *)
Fixpoint serve_all (rs : list (instants * request)) (s : ostate) : list (instants * request * oresponse R * ostate) * ostate :=
  match rs with
  | [] => ([], s)
  | (i, r) :: rs => let '(x, s1) := Wrap i r s in let '(tr, s2) := serve_all rs s1 in ((i, r, x, s1) :: tr, s2)
  end.
End wrap.
Arguments mkOState {W S}. Arguments fetcher {W S}. Arguments net_ {W S}. Arguments rest {W S}.

(** ** Which keys are trusted *)
Definition usable (k : jwk) : Prop := Use k = ""%string \/ Use k = "sig"%string.

Lemma parse_keyset_elem ks kid k : parse_keyset ks !! kid = Some k -> exists j, j ∈ ks /\ Kid j = kid /\ usable j /\ parseJWK j = Some k.
Proof.
  unfold parse_keyset. intros H.
  assert ((∅ : gmap string key) !! kid = Some k \/ exists j, j ∈ ks /\ Kid j = kid /\ usable j /\ parseJWK j = Some k) as [Hx|Hx]; [|done|done].
  revert H. generalize (∅ : gmap string key). induction ks as [|j ks IH]; intros m; cbn; [by left|]. intros H.
  destruct (IH _ H) as [Hm|(j' & Hj & Hrest)]; [|right; exists j'; split; [by right|done]]. unfold add_key in Hm.
  destruct (negb _ && _) eqn:Eu; [by left|]. destruct (parseJWK j) as [x|] eqn:Ep; [|by left].
  destruct (decide (Kid j = kid)) as [Hk|Hk]; [|left; by rewrite lookup_insert_ne in Hm]. rewrite Hk, lookup_insert_eq in Hm. injection Hm as ->.
  right. exists j. split_and!; [by left|done| |done]. apply andb_false_iff in Eu as [Eu|Eu]; breflect; [by left|by right].
Qed.

(** A key the issuer has published under [kid], at the address its discovery
    document gave (or the configuration, when it names one). *)
Definition advertised (f : JWKSFetcher) (url : string) (l : list (string * http_response)) : Prop :=
  if String.eqb (jwks_url f) "" then exists d, (discovery_url f, d) ∈ l /\ StatusCode d = 200 /\ as_discovery d = Some url else url = jwks_url f.
Definition published (f : JWKSFetcher) (l : list (string * http_response)) (kid : string) (k : key) : Prop :=
  exists url r ks j, (url, r) ∈ l /\ advertised f url l /\ StatusCode r = 200 /\ as_keyset r = Some ks /\
    j ∈ ks /\ Kid j = kid /\ usable j /\ parseJWK j = Some k.
Definition trusted (f : JWKSFetcher) (l : list (string * http_response)) : Prop := forall kid k, keys f !! kid = Some k -> published f l kid k.
(** The same issuer. *)
Definition same_source (f f' : JWKSFetcher) : Prop := issuer f' = issuer f /\ jwks_url f' = jwks_url f /\ refresh f' = refresh f.

Lemma advertised_more f f' url l l' : same_source f f' -> l ⊆ l' -> advertised f url l -> advertised f' url l'.
Proof.
  intros (Hi & Hu & _) Hl. unfold advertised, discovery_url. rewrite Hi, Hu. destruct (String.eqb _ _); [|done].
  intros (d & Hd & Hrest). exists d. split; [by apply Hl|done].
Qed.
Lemma published_more f f' l l' kid k : same_source f f' -> l ⊆ l' -> published f l kid k -> published f' l' kid k.
Proof.
  intros Hs Hl (url & r & ks & j & Hr & Ha & Hrest). exists url, r, ks, j. split_and!; [by apply Hl|by eapply advertised_more|tauto..].
Qed.
Lemma trusted_more f l l' : l ⊆ l' -> trusted f l -> trusted f l'.
Proof. intros Hl Ht kid k Hk. eapply published_more; [by split_and!|done|by apply Ht]. Qed.

Section fetching_facts.
Context {W : Type} (GET : string -> W -> option http_response * W).
Implicit Types (n : wire W).

Lemma do_get_log url n r n' : do_get GET url n = (r, n') -> fetched n ⊆ fetched n' /\ forall x, r = Some x -> (url, x) ∈ fetched n'.
Proof.
  unfold do_get. destruct (GET url (world n)) as [[x|] w]; intros [= <- <-]; cbn; [|done]. split; [set_solver|]. intros y [= ->]. set_solver.
Qed.

Lemma fetchURL_log f n u n' : fetchURL GET f n = (u, n') -> fetched n ⊆ fetched n' /\ forall url, u = Ok url -> advertised f url (fetched n').
Proof.
  unfold fetchURL, advertised. destruct (String.eqb (jwks_url f) ""); [|by intros [= <- <-]; split; [done|intros url [= ->]]].
  unfold discoverJWKSURL. destruct (do_get GET (discovery_url f) n) as [r n1] eqn:Eg. apply do_get_log in Eg as [Hsub Hin]. intros [= <- <-].
  split; [done|]. intros url. destruct r as [d|]; [|done]. destruct (negb _) eqn:Es; [done|]. destruct (as_discovery d) as [x|] eqn:Ed; [|done].
  destruct (String.eqb x ""); [done|]. intros [= ->]. exists d. breflect. split_and!; [by apply Hin|done|done].
Qed.

(** A refresh replaces the keys by what the issuer publishes now, or leaves
    them. *)
Lemma refresh_trusted now f n r f' n' : trusted f (fetched n) -> refreshLocked GET now f n = (r, f', n') ->
  same_source f f' /\ fetched n ⊆ fetched n' /\ trusted f' (fetched n') /\
  match r with Ok _ => fetchedAt f' = now | Err _ => f' = f end.
Proof.
  intros Ht. unfold refreshLocked. destruct (fetchURL GET f n) as [[url|e] n1] eqn:Eu; apply fetchURL_log in Eu as [H1 Ha].
  2:{ intros [= <- <- <-]. split_and!; [by split_and!|done|by eapply trusted_more|done]. }
  destruct (do_get GET url n1) as [x n2] eqn:Eg. apply do_get_log in Eg as [H2 Hin].
  assert (fetched n ⊆ fetched n2) as H3 by (by etrans).
  assert (trusted f (fetched n2)) as Ht2 by (by eapply trusted_more).
  destruct x as [x|]; [|intros [= <- <- <-]; by split_and!]. destruct (negb _) eqn:Es; [intros [= <- <- <-]; by split_and!|].
  destruct (as_keyset x) as [ks|] eqn:Ek; [|intros [= <- <- <-]; by split_and!]. intros [= <- <- <-]. split_and!; [by split_and!|done| |done].
  intros kid k (j & Hj & Hkid & Hu & Hp)%parse_keyset_elem. breflect. exists url, x, ks, j.
  split_and!; [by apply Hin|eapply advertised_more; [|exact H2|by apply Ha]; by split_and!|done..].
Qed.

Lemma KeyFunc_trusted now now' kid f n r f' n' : trusted f (fetched n) -> KeyFunc GET now now' kid f n = (r, f', n') ->
  same_source f f' /\ fetched n ⊆ fetched n' /\ trusted f' (fetched n') /\
  forall k, r = Ok k -> keys f' !! kid = Some k.
Proof.
  intros Ht. unfold KeyFunc, lookup_key. assert (forall r f' n',
    (let '(r, f, n) := refreshLocked GET now' f n in
     (match r, keys f !! kid with _, Some k => Ok k | Err e, None => Err (ErrRefresh e) | Ok _, None => Err (UnknownKid kid) end, f, n)) = (r, f', n') ->
    same_source f f' /\ fetched n ⊆ fetched n' /\ trusted f' (fetched n') /\ forall k, r = Ok k -> keys f' !! kid = Some k) as Hgo.
  { intros r1 f1 n1. destruct (refreshLocked GET now' f n) as [[x f2] n2] eqn:Er. apply refresh_trusted in Er as (H1 & H2 & H3 & _); [|done].
    intros [= <- <- <-]. split_and!; [done..|]. intros k. destruct x, (keys f2 !! kid); naive_solver. }
  destruct (keys f !! kid) as [k|] eqn:Ek; [destruct (isStale now f); [apply Hgo|]|apply Hgo].
  intros [= <- <- <-]. split_and!; [by split_and!|done|done|]. intros k' [= <-]. done.
Qed.
End fetching_facts.

(** ** Which requests are served *)
Section verification.
Context {W : Type} `{JW : JWTLaws} (GET : string -> W -> option http_response * W) (cfg : OIDCConfig).
Context (decode_claims : list Z -> option oidcTokenClaims) (f0 : JWKSFetcher).

(** [token] proves the identity [c] at [i], by the responses [l] of the
    issuer. *)
Definition verified (i : instants) (l : list (string * http_response)) (token : string) (c : Claims) : Prop :=
  exists tc kid k, jwt_asks valid_methods token = Some kid /\ published f0 l kid k /\ signed valid_methods k token tc /\
    (oIssuer cfg <> ""%string -> Issuer tc = oIssuer cfg) /\ (oAudience cfg <> ""%string -> oAudience cfg ∈ Audience tc) /\
    (forall t, ExpiresAt tc = Some t -> i_check i < t) /\ (forall t, NotBefore tc = Some t -> t <= i_check i) /\
    c = identity_of tc /\ TenantID c <> ""%string /\ KChatUserID c <> ""%string.

(** The fetcher of a state stems from [f0] and holds published keys only. *)
Definition sound (f : option JWKSFetcher) (n : wire W) : Prop := exists f', f = Some f' /\ same_source f0 f' /\ trusted f' (fetched n).

Lemma same_source_trans f1 f2 f3 : same_source f1 f2 -> same_source f2 f3 -> same_source f1 f3.
Proof. unfold same_source. intuition congruence. Qed.
Lemma same_source_sym f1 f2 : same_source f1 f2 -> same_source f2 f1.
Proof. unfold same_source. intuition congruence. Qed.

Lemma verifyAndExtract_sound i f token (n : wire W) r f' n' : same_source f0 f -> trusted f (fetched n) ->
  verifyAndExtract GET cfg i f token n = (r, f', n') ->
  same_source f0 f' /\ trusted f' (fetched n') /\ forall c, r = Ok c -> verified i (fetched n') token c.
Proof.
  intros Hs Ht. unfold verifyAndExtract. destruct (jwt_asks valid_methods token) as [kid|] eqn:Ea; [|by intros [= <- <- <-]].
  destruct (KeyFunc GET (i_now i) (i_fetched i) kid f n) as [[k f1] n1] eqn:Ek. apply KeyFunc_trusted in Ek as (H1 & _ & H3 & Hkey); [|done].
  intros [= <- <- <-]. assert (same_source f0 f1) as Hs1 by (by eapply same_source_trans). split_and!; [done|done|]. intros c.
  destruct k as [k|]; [|done]. destruct (jwt_finish (i_check i) valid_methods token k) as [tc|] eqn:Ef; [|done].
  destruct (negb (String.eqb (oIssuer cfg) "") && _) eqn:Ei; [done|]. destruct (negb (String.eqb (oAudience cfg) "") && _) eqn:Eu; [done|].
  destruct (complete (identity_of tc)) eqn:Ec; [|done]. intros [= <-]. apply andb_false_iff in Ei, Eu. unfold complete in Ec. breflect.
  exists tc, kid, k. split_and!; [done| |by eapply law_signed| | |intros t; by eapply law_expiry|intros t; by eapply law_not_before|done|done|done].
  - eapply published_more; [by apply same_source_sym|done|]. by apply H3, Hkey.
  - intros Hne. destruct Ei as [Ei|Ei]; breflect; done.
  - intros Hne. destruct Eu as [Eu|Eu]; breflect; [done|]. apply existsb_exists in Eu as (v & Hv & Ev). breflect. subst v. by apply list_elem_of_In.
Qed.

Lemma authenticate_sound i h f (n : wire W) r f' n' : isDevEnv cfg = false -> sound f n ->
  authenticate GET cfg decode_claims i h f n = (r, f', n') ->
  sound f' n' /\ forall c, r = Ok c -> exists token, bearer (header_of "Authorization" h) = Ok token /\ verified i (fetched n') token c.
Proof.
  intros Hdev (f1 & -> & Hs & Ht). assert (sound (Some f1) n) as H0 by (by exists f1). unfold authenticate.
  destruct (bearer _) as [token|e]; [|by intros [= <- <- <-]]. rewrite Hdev. cbn [negb].
  destruct (negb _ && _); [by intros [= <- <- <-]|]. destruct (verifyAndExtract GET cfg i f1 token n) as [[x f2] n2] eqn:Ev. intros [= <- <- <-].
  apply verifyAndExtract_sound in Ev as (H1 & H2 & H3); [|done|done]. split; [by exists f2|]. intros c Hc. exists token. auto.
Qed.

Context {R S : Type} (next : request -> S -> R * S).

Lemma Wrap_sound i r (s : ostate (W := W) (S := S)) x s' : isDevEnv cfg = false -> sound (fetcher s) (net_ s) ->
  Wrap GET cfg decode_claims next i r s = (x, s') ->
  sound (fetcher s') (net_ s') /\
  match x with
  | Unauthorized _ => rest s' = rest s
  | Served y => exists token c, bearer (header_of "Authorization" (hdr r)) = Ok token /\ verified i (fetched (net_ s')) token c /\
      next (with_claims c r) (rest s) = (y, rest s')
  end.
Proof.
  intros Hdev Hs. unfold Wrap. destruct (authenticate GET cfg decode_claims i (hdr r) (fetcher s) (net_ s)) as [[c f] n] eqn:Ea.
  apply authenticate_sound in Ea as [H1 H2]; [|done|done]. destruct c as [c|e]; [|by intros [= <- <-]].
  destruct (next (with_claims c r) (rest s)) as [y t] eqn:En. intros [= <- <-]. cbn. split; [done|].
  destruct (H2 c eq_refl) as (token & Hb & Hv). by exists token, c.
Qed.

Lemma serve_all_sound rs : forall (s : ostate (W := W) (S := S)) tr s' i r y st,
  isDevEnv cfg = false -> sound (fetcher s) (net_ s) ->
  serve_all GET cfg decode_claims next rs s = (tr, s') -> (i, r, Served y, st) ∈ tr ->
  exists token c t0, bearer (header_of "Authorization" (hdr r)) = Ok token /\ verified i (fetched (net_ st)) token c /\
    next (with_claims c r) t0 = (y, rest st).
Proof.
  induction rs as [|[i0 r0] rs IH]; intros s tr s' i r y st Hdev Hs; cbn [serve_all]; [intros [= <- <-]; set_solver|].
  destruct (Wrap GET cfg decode_claims next i0 r0 s) as [x s1] eqn:Ew. destruct (serve_all GET cfg decode_claims next rs s1) as [tr1 s2] eqn:Es.
  intros [= <- <-] Hin. apply Wrap_sound in Ew as [Hs1 Hx]; [|done|done]. apply elem_of_cons in Hin as [Hin|Hin]; [|by eapply IH].
  injection Hin as -> -> <- ->. destruct Hx as (token & c & H1 & H2 & H3). by exists token, c, (rest s).
Qed.

Lemma sound_empty w0 : keys f0 = ∅ -> sound (Some f0) (mkWire w0 []).
Proof. intros Hk. exists f0. split_and!; [done|by split_and!|]. intros kid k. by rewrite Hk, lookup_empty. Qed.

(** Outside development every served request was authenticated by the
    issuer.  Over any sequence of requests, with whatever headers, at whatever
    times and with whatever the issuer's endpoints answer, a request reaches a
    handler only with a bearer token whose signature verifies, with one of the
    asymmetric methods, under a key the issuer published at the address its
    own discovery document names, whose issuer and audience are the configured
    ones and which is in time; the handler sees the tenant and the user of
    that token, neither of them empty. *)
Theorem verified_identity rs w0 (s0 : S) tr s' i r y st :
  isDevEnv cfg = false -> keys f0 = ∅ ->
  serve_all GET cfg decode_claims next rs (mkOState (Some f0) (mkWire w0 []) s0) = (tr, s') -> (i, r, Served y, st) ∈ tr ->
  exists token c t0, bearer (header_of "Authorization" (hdr r)) = Ok token /\ verified i (fetched (net_ st)) token c /\
    next (with_claims c r) t0 = (y, rest st).
Proof. intros Hdev Hk. apply serve_all_sound; [done|]. by apply sound_empty. Qed.
End verification.

(** ** The proxy behind it *)
Section mail.
Context {W : Type} `{JW : JWTLaws} (GET : string -> W -> option http_response * W) (cfg : OIDCConfig).
Context (decode_claims : list Z -> option oidcTokenClaims) (f0 : JWKSFetcher).
Context {C Hk N K : Type} `{!LRU C} `{!CircuitBreaker K} (parse : string -> option URL) (exchange : upstream string -> N -> answer * N).
Context (clk : nat -> Z) (rnd : nat -> option string) (pcfg : ProxyConfig) (sendInterceptor : option (hook request Hk)).

(** What the [n]-th request meets: fate of the account query, clock, tables,
    memo of the shard lookup. *)
Record proxy_env := mkProxyEnv { pe_d : delivery; pe_now : Z; pe_users : users; pe_shards : shards; pe_memo : option shardResolveMemo }.
Context (env : nat -> proxy_env).

Definition to_mail (r : request) (s : nat * pstate (C := C) (H := Hk) (W := N) (K := K)) : presponse * (nat * pstate) :=
  let E := env s.1 in
  let '(p, t) := ServeHTTP parse exchange clk rnd pcfg sendInterceptor (pe_d E) (pe_now E) (pe_users E) (pe_shards E) (pe_memo E) r s.2 in
  (p, (S s.1, t)).

(** [x] went out for the identity [c]. *)
Definition sent_for (c : Claims) (x : upstream string * answer) : Prop :=
  u_header x.1 !! "X-Kmail-Tenant-Id"%string = Some (TenantID c) /\ u_header x.1 !! "X-Kmail-Kchat-User-Id"%string = Some (KChatUserID c).

Lemma rewrite_context a r : let h := u_header (rewrite pcfg a r) in
  h !! "X-Kmail-Tenant-Id"%string = Some (ctxTenant r) /\ h !! "X-Kmail-Kchat-User-Id"%string = Some (ctxUser r).
Proof.
  unfold rewrite, authorization. cbn. destruct (String.eqb a ""), (String.eqb (DevStalwartAuthHeader pcfg) ""); cbn [negb];
    try (destruct (Minter pcfg) as [mint|]; [try destruct (mint a)|]); canon_keys; split; by simplify_map_eq.
Qed.

Lemma to_mail_sends c r s y s' x : to_mail (with_claims c r) s = (y, s') -> x ∈ sent (netst s'.2) -> x ∈ sent (netst s.2) \/ sent_for c x.
Proof.
  unfold to_mail. destruct (ServeHTTP _ _ _ _ _ _ _ _ _ _ _ _ _) as [p t] eqn:Es. intros [= <- <-]. cbn.
  apply serve_forwards in Es as [-> |(a & _ & _ & l & -> & Hl)]; [by left|]. intros [Hx|Hx]%elem_of_app; [by left|right].
  rewrite Forall_forall in Hl. destruct (Hl _ Hx) as (_ & _ & Hh & _). unfold sent_for. rewrite Hh. apply (rewrite_context a (with_claims c r)).
Qed.

Lemma mail_verified rs : forall s tr s' x, isDevEnv cfg = false -> sound f0 (fetcher s) (net_ s) ->
  serve_all GET cfg decode_claims to_mail rs s = (tr, s') -> x ∈ sent (netst (rest s').2) ->
  x ∈ sent (netst (rest s).2) \/
  exists i r y st token c, (i, r, Served y, st) ∈ tr /\ bearer (header_of "Authorization" (hdr r)) = Ok token /\
    verified cfg f0 i (fetched (net_ st)) token c /\ sent_for c x.
Proof.
  induction rs as [|[i r] rs IH]; intros s tr s' x Hdev Hs; cbn [serve_all]; [intros [= <- <-]; by left|].
  destruct (Wrap GET cfg decode_claims to_mail i r s) as [y s1] eqn:Ew. destruct (serve_all GET cfg decode_claims to_mail rs s1) as [tr1 s2] eqn:Es.
  intros [= <- <-] Hx. apply (Wrap_sound GET cfg decode_claims f0) in Ew as [Hs1 Hy]; [|done|done].
  destruct (IH _ _ _ _ Hdev Hs1 Es Hx) as [Hin|(i' & r' & y' & st & token & c & Hin & Hrest)].
  - destruct y as [e|y]; [rewrite Hy in Hin; by left|]. destruct Hy as (token & c & H1 & H2 & H3).
    destruct (to_mail_sends _ _ _ _ _ _ H3 Hin) as [?|Hc]; [by left|right]. exists i, r, y, s1, token, c. split_and!; [by left|done..].
  - right. exists i', r', y', st, token, c. split; [by right|done].
Qed.

(** C3: Nothing reaches a mail shard without a verified token.  With the
    middleware in front of the proxy, over any sequence of requests, outside
    development, every request that ever goes out to a shard names the tenant
    and the user of a bearer token that one of the served requests carried and
    that was verified then against the issuer's keys; headers of the client,
    the answers of the issuer's endpoints, of the database and of the shards
    are arbitrary. *)
Theorem mail_needs_verified_token rs w0 p0 tr s' x :
  isDevEnv cfg = false -> keys f0 = ∅ -> sent (netst p0) = [] ->
  serve_all GET cfg decode_claims to_mail rs (mkOState (Some f0) (mkWire w0 []) (0%nat, p0)) = (tr, s') -> x ∈ sent (netst (rest s').2) ->
  exists i r y st token c, (i, r, Served y, st) ∈ tr /\ bearer (header_of "Authorization" (hdr r)) = Ok token /\
    verified cfg f0 i (fetched (net_ st)) token c /\ sent_for c x.
Proof.
  intros Hdev Hkeys H0 Hrun Hx. eapply mail_verified in Hrun as [Hin|Hv]; [|exact Hv|done|by apply sound_empty|exact Hx].
  cbn in Hin. rewrite H0 in Hin. set_solver.
Qed.
End mail.

(** ** Who skips provisioning *)
Section provisioned.
Context {V T : Type} `{VS : ValkeySets string V} `{!ValkeyLaws string V} `{!ValkeySetsLaws string V}.
Context (EnsureTenant : string -> T -> bool * T) (l : LazyProvision).

(** The requests that passed, in order, each with the tenant of its context. *)
Definition provision_all (cs : list (lazy_env * string)) (st : V * T) : V * T :=
  foldl (fun st c => provision EnsureTenant l c.1 c.2 st.1 st.2) st cs.

(** The server's clock over the commands of [cs], from [sv] on. *)
Fixpoint ticking (sv : Z) (cs : list (lazy_env * string)) : Prop :=
  match cs with
  | [] => True
  | (E, _) :: cs => sv <= le_sv E /\ le_sv E <= le_sv' E /\ ticking (le_sv' E) cs
  end.
Definition clock_after (sv : Z) (cs : list (lazy_env * string)) : Z := foldl (fun sv c => le_sv' c.1) sv cs.

(** In [cs], from [st], the provisioner reported [tenantID] present at a time
    that keeps it marked at [sv]. *)
Definition ensured (cs : list (lazy_env * string)) (st : V * T) (tenantID : string) (sv : Z) : Prop :=
  exists pre E post, cs = pre ++ (E, tenantID) :: post /\ (EnsureTenant tenantID (provision_all pre st).2).1 = true /\ sv < le_sv' E + px (lazy_ttl l).

Lemma cacheKey_inj t u : cacheKey t = cacheKey u -> t = u.
Proof. unfold cacheKey. apply (inj (String.append _)). Qed.

Lemma px_positive d : 0 < px d.
Proof. unfold px. lia. Qed.

(** What a live mark says. *)
Definition marks (cs : list (lazy_env * string)) (st : V * T) (sv : Z) (v : V) : Prop :=
  forall t, is_Some (vk_view v sv (cacheKey t)) ->
    exists o e, vk_view v sv (cacheKey t) = Some (o, Some e) /\ forall sv', sv' < e -> ensured cs st t sv'.

Lemma ensured_app cs cs' st t sv : ensured cs st t sv -> ensured (cs ++ cs') st t sv.
Proof. intros (pre & E & post & -> & H). exists pre, E, (post ++ cs'). by rewrite <-app_assoc. Qed.

Lemma marks_later cs st sv sv' v : sv <= sv' -> marks cs st sv v -> marks cs st sv' v.
Proof.
  intros Hle Hm t. rewrite (law_expire v sv sv' _ Hle). intros Hs. destruct (vk_view v sv (cacheKey t)) as [[o d]|] eqn:Ev; [|by destruct Hs].
  destruct (Hm t) as (o' & e & Hv & He); [by rewrite Ev|]. rewrite Ev in Hv. injection Hv as <- ->. exists o, e. split; [|done].
  revert Hs. cbn. destruct (sv' <? e); [done|]. by intros [? ?].
Qed.

Lemma marks_more cs cs' st sv v : marks cs st sv v -> marks (cs ++ cs') st sv v.
Proof. intros Hm t Ht. destruct (Hm t Ht) as (o & e & Hv & He). exists o, e. split; [done|]. intros sv' Hs. by apply ensured_app, He. Qed.

Lemma marks_set cs st sv v E t : le_sv' E = sv -> (EnsureTenant t (provision_all cs st).2).1 = true -> marks cs st sv v ->
  marks (cs ++ [(E, t)]) st sv (vk_set sv (cacheKey t) "1"%string (px (lazy_ttl l)) v).
Proof.
  intros <- Ht Hm u. rewrite law_set by apply px_positive. destruct (decide (u = t)) as [-> |Hu].
  - rewrite on_key_eq. intros _. eexists _, _. split; [reflexivity|]. intros sv' Hs. by exists cs, E, [].
  - rewrite on_key_ne by (by intros ?%cacheKey_inj). apply (marks_more _ [(E, t)]) in Hm. apply Hm.
Qed.

Lemma marks_step cs st sv E t : sv <= le_sv E -> le_sv E <= le_sv' E ->
  marks cs st sv (provision_all cs st).1 -> marks (cs ++ [(E, t)]) st (le_sv' E) (provision_all (cs ++ [(E, t)]) st).1.
Proof.
  intros H1 H2 Hm. unfold provision_all at 1. rewrite foldl_app. cbn. fold (provision_all cs st). unfold provision.
  assert (marks cs st (le_sv' E) (provision_all cs st).1) as Hl by (eapply marks_later; [|exact Hm]; lia).
  destruct (String.eqb t ""); [by apply marks_more|]. destruct (isCachedProvisioned _ _ _ _); [by apply marks_more|].
  destruct (EnsureTenant t (provision_all cs st).2) as [ok t'] eqn:Ee. cbn. destruct ok; [|by apply marks_more].
  unfold markCachedProvisioned. destruct (negb _); [by apply marks_more|].
  destruct (le_d' E); cbn; [apply marks_set; [done|by rewrite Ee|done]|by apply marks_more|apply marks_set; [done|by rewrite Ee|done]].
Qed.

Lemma ticking_app sv cs E t : ticking sv (cs ++ [(E, t)]) -> ticking sv cs /\ clock_after sv cs <= le_sv E /\ le_sv E <= le_sv' E.
Proof. revert sv. induction cs as [|[E' u] cs IH]; intros sv; cbn; [tauto|]. intros (H1 & H2 & H3). apply IH in H3. tauto. Qed.

Lemma marks_history sv0 st cs : (forall t, vk_view st.1 sv0 (cacheKey t) = None) -> ticking sv0 cs ->
  marks cs st (clock_after sv0 cs) (provision_all cs st).1.
Proof.
  intros H0. induction cs as [|[E t] cs IH] using rev_ind; intros Ht; [intros u; cbn; rewrite H0; by intros [? ?]|].
  apply ticking_app in Ht as (H1 & H2 & H3). unfold clock_after. rewrite foldl_app. cbn. eapply marks_step; [exact H2|done|by apply IH].
Qed.

(** Provisioning is skipped only for a tenant that was provisioned.  Over
    any sequence of requests by any pods, whatever commands to Valkey are lost
    or fail, a request with a tenant goes on without calling the provisioner
    only if the provisioner reported that very tenant present for an earlier
    request whose mark is not older than the TTL by the server's clock. *)
Theorem provisioning_skipped_soundly sv0 st cs E t st' :
  (forall u, vk_view st.1 sv0 (cacheKey u) = None) -> ticking sv0 (cs ++ [(E, t)]) -> t <> ""%string ->
  st' = provision_all cs st -> isCachedProvisioned l E t st'.1 = true -> ensured cs st t (le_sv E).
Proof.
  intros H0 Ht Hne -> Hc. apply ticking_app in Ht as (H1 & H2 & _). unfold isCachedProvisioned in Hc. destruct (negb _); [done|].
  assert (is_Some (vk_view (provision_all cs st).1 (le_sv E) (cacheKey t))) as Hs by (apply law_exists; by destruct (le_d E)).
  destruct (marks_later _ _ _ _ _ H2 (marks_history _ _ _ H0 H1) t Hs) as (o & e & Hv & He). apply He.
  apply law_view_live in Hv. cbn in Hv. by apply Z.ltb_lt.
Qed.
End provisioned.

(** ** Examples *)
Module AuthExamples.
(** A library that knows the tokens that were issued: the key id in the
    header, the key that signed and the claims. *)
Record issued := mkIssued { i_token : string; i_kid : string; i_key : key; i_claims : oidcTokenClaims }.
Definition in_time (now : Z) (c : oidcTokenClaims) : bool :=
  match ExpiresAt c with Some t => now <? t | None => true end && match NotBefore c with Some t => t <=? now | None => true end &&
  match IssuedAt c with Some t => t <=? now | None => true end.
Definition find_token (l : list issued) (token : string) : option issued := List.find (fun x => String.eqb (i_token x) token) l.

#[export] Instance table_lib (l : list issued) : JWTLib := {|
  jwt_asks ms token := i_kid <$> find_token l token;
  jwt_finish now ms token k :=
    match find_token l token with
    | Some x => if bool_decide (i_key x = k) && in_time now (i_claims x) then Some (i_claims x) else None
    | None => None
    end;
|}.

Lemma table_finish l now ms token k c : @jwt_finish (table_lib l) now ms token k = Some c ->
  exists x, find_token l token = Some x /\ i_key x = k /\ i_claims x = c /\ in_time now c = true.
Proof.
  cbn. destruct (find_token l token) as [x|]; [|done]. destruct (bool_decide _) eqn:Ek; [|done]. destruct (in_time now (i_claims x)) eqn:Et; [|done].
  intros [= <-]. exists x. apply bool_decide_eq_true in Ek. done.
Qed.

#[export] Instance table_laws (l : list issued) : @JWTLaws (table_lib l).
Proof.
  refine {| signed ms k token c := exists x, find_token l token = Some x /\ i_key x = k /\ i_claims x = c |};
    intros now ms token k c; [|intros t..]; intros (x & H1 & H2 & H3 & H4)%table_finish; [by exists x|..]; intros Ht;
    unfold in_time in H4; rewrite Ht in H4; apply andb_prop in H4 as [[? ?]%andb_prop ?]; lia.
Defined.

Definition key1 : jwk := mkJwk "RSA" "k1" "sig" "AQAB" "AQAB" "" "" "".
Definition claims1 (iss tenant user : string) (exp : option Z) : oidcTokenClaims := mkTokenClaims tenant user "" "" iss ["kmail"%string] "" exp None None.
Definition k1 : key := RSAKey 65537 65537.
Definition tokens : list issued :=
  [mkIssued "good" "k1" k1 (claims1 "https://idp" "t1" "u1" (Some (2 * Hour)));
   mkIssued "alien" "k1" k1 (claims1 "https://other" "t1" "u1" (Some (2 * Hour)));
   mkIssued "forever" "k1" k1 (claims1 "https://idp" "t1" "u1" None);
   mkIssued "self" "k2" (RSAKey 3 3) (claims1 "https://idp" "t1" "u1" (Some (2 * Hour)))]%string.

(** The issuer, while it is up. *)
Definition idp (url : string) (up : bool) : option http_response * bool :=
  (if negb up then None
   else if String.eqb url "https://idp/.well-known/openid-configuration" then Some (mkHTTP 200 None (Some "https://idp/keys"%string))
   else if String.eqb url "https://idp/keys" then Some (mkHTTP 200 (Some [key1]) None)
   else Some (mkHTTP 404 None None), up).
Definition f0 : JWKSFetcher := mkFetcher "https://idp/" "" Hour zeroTime ∅.
Definition production : OIDCConfig := mkOIDCConfig "https://idp" "kmail" "" "production" (Some f0).
Definition none (b : list Z) : option oidcTokenClaims := None.
Definition with_token (authz : string) : request := post "/jmap" "{}" (<["Authorization"%string := authz]> forged).
Definition at_ (t : Z) : instants := mkInstants t t t.

Abbreviation checked authz t f up := (authenticate (JL := table_lib tokens) idp production none (at_ t) (hdr (with_token authz)) (Some f) (mkWire up [])).
Definition warm : JWKSFetcher := default f0 (checked "Bearer good" Hour f0 true).1.2.

Example accepts_good : (checked "bearer  good" Hour f0 true).1.1 = Ok (mkClaims "t1" "u1" "").
Proof. vm_compute. reflexivity. Qed.
Example refuses_others : (checked "Bearer alien" Hour f0 true).1.1 = Err WrongIssuer /\ (checked "Bearer good" (2 * Hour) f0 true).1.1 = Err BadJWT /\
  (checked "Bearer self" Hour f0 true).1.1 = Err (UnknownKid "k2") /\ (checked "Bearer good" Hour f0 false).1.1 = Err (ErrRefresh ErrTransport) /\
  (checked "Basic good" Hour f0 true).1.1 = Err BadScheme.
Proof. vm_compute. repeat split. Qed.

Abbreviation behind := (to_mail (LRU0 := unbounded accountCacheDefaultTTL) (Hk := unit) by_name (executing []) (fun _ => 0) (fun _ => None) plain None
  (fun _ => mkProxyEnv Delivered 0 one_user two_shards None)).
Definition three : list (instants * request) :=
  [(at_ Hour, with_token "Bearer self"); (at_ Hour, with_token "Bearer good"); (at_ (3 * Hour), with_token "Bearer good")].
Definition ran := serve_all (JL := table_lib tokens) idp production none behind three (mkOState (Some f0) (mkWire true []) (0%nat, fresh)).

Example one_served : (fun x => match x with (_, _, Unauthorized e, _) => Some e | _ => None end) <$> ran.1 = [Some (UnknownKid "k2"); None; Some BadJWT].
Proof. vm_compute. reflexivity. Qed.

Lemma verified_identity_witness : exists i r y st, (i, r, Served y, st) ∈ ran.1 /\
  exists token c t0, bearer (header_of "Authorization" (hdr r)) = Ok token /\
    verified (JW := table_laws tokens) production f0 i (fetched (net_ st)) token c /\ behind (with_claims c r) t0 = (y, rest st).
Proof.
  destruct (ran.1 !! 1%nat) as [[[[i r] [e|y]] st]|] eqn:Er; [vm_compute in Er; discriminate Er| |vm_compute in Er; discriminate Er].
  exists i, r, y, st. assert ((i, r, Served y, st) ∈ ran.1) as Hin by (by eapply list_elem_of_lookup_2). split; [exact Hin|].
  exact (verified_identity (JW := table_laws tokens) idp production none f0 behind three true (0%nat, fresh) ran.1 ran.2 i r y st
    eq_refl eq_refl (surjective_pairing _) Hin).
Defined.

Lemma mail_needs_verified_token_witness : exists x, x ∈ sent (netst (rest ran.2).2) /\
  exists i r y st token c, (i, r, Served y, st) ∈ ran.1 /\ bearer (header_of "Authorization" (hdr r)) = Ok token /\
    verified (JW := table_laws tokens) production f0 i (fetched (net_ st)) token c /\ sent_for c x.
Proof.
  destruct (sent (netst (rest ran.2).2)) as [|x xs] eqn:Ex; [vm_compute in Ex; discriminate Ex|].
  assert (x ∈ sent (netst (rest ran.2).2)) as Hin by (rewrite Ex; left). exists x. split; [left|].
  exact (mail_needs_verified_token (JW := table_laws tokens) idp production none f0 by_name (executing []) (fun _ => 0) (fun _ => None) plain None
    (fun _ => mkProxyEnv Delivered 0 one_user two_shards None) three true fresh ran.1 ran.2 x eq_refl eq_refl eq_refl (surjective_pairing _) Hin).
Defined.

(** The alias [dev] opens the development paths too. *)
Theorem dev_alias_bypasses : let c := mkOIDCConfig "" "" "secret" " DEV " None in NewOIDC c = Ok c /\
  (authenticate (W := bool) (JL := table_lib []) idp c none (at_ 0) (<["Authorization"%string := "Bearer secret"%string]> ∅) None (mkWire true [])).1.1 =
    Ok (mkClaims "00000000-0000-0000-0000-000000000000" "dev-user" "").
Proof. vm_compute. done. Qed.

(** A token without [exp] is accepted, at any time. *)
Theorem no_expiry_is_forever : (checked "Bearer forever" (1000000 * Hour) f0 true).1.1 = Ok (mkClaims "t1" "u1" "").
Proof. vm_compute. reflexivity. Qed.

(** Keys outlive the refresh interval as long as the issuer does not answer. *)
Theorem stale_keys_are_served : refresh warm = Hour /\ fetchedAt warm = Hour /\
  (checked "Bearer forever" (1000000 * Hour) warm false).1.1 = Ok (mkClaims "t1" "u1" "").
Proof. vm_compute. repeat split. Qed.

(** Each token with an unknown key id costs two requests to the issuer. *)
Theorem unknown_kid_always_fetches :
  map fst (fetched (checked "Bearer self" (Hour + 1) warm true).2) = ["https://idp/.well-known/openid-configuration"; "https://idp/keys"]%string.
Proof. vm_compute. reflexivity. Qed.

(** *** Provisioning *)
Definition lazy5 : LazyProvision := mkLazy true defaultProvisionCacheTTL.
Definition ensure (t : string) (known : gset string) : bool * gset string := (true, {[t]} ∪ known).
Definition le (sv : Z) : lazy_env := mkLazyEnv Delivered sv Delivered sv.
Definition empty_store : gmap string (ventry string) * gset string := (∅, ∅).
Definition visits : list (lazy_env * string) := [(le 0, "t1"); (le 5, "t2")]%string.

Example skipped_then_checked :
  isCachedProvisioned lazy5 (le 299999) "t1" (provision_all ensure lazy5 visits empty_store).1 = true /\
  isCachedProvisioned lazy5 (le 300000) "t1" (provision_all ensure lazy5 visits empty_store).1 = false.
Proof. vm_compute. done. Qed.

Lemma provisioning_skipped_soundly_witness : ensured ensure lazy5 visits empty_store "t1" 299999.
Proof.
  apply (provisioning_skipped_soundly ensure lazy5 0 empty_store visits (le 299999) "t1" (provision_all ensure lazy5 visits empty_store)).
  - intros u. reflexivity.
  - cbn. lia.
  - discriminate.
  - reflexivity.
  - vm_compute. reflexivity.
Defined.
End AuthExamples.
