(* ===== verification/Aliases.v ===== *)
(** * Aliases ([internal/tenant/aliases.go], [stalwart_alias.go],
      [stalwart_alias_sync_queue.go], [stalwart_alias_sync_worker.go])

    Secondary addresses of a user.  Each change of the table commits together
    with an intent in the queue; the intent is pushed into the mail server at
    once and, if that fails, by a worker.  [AliasSync] is the interface the
    service and the worker see; [http_sync_laws] shows that
    [StalwartAliasHTTPSync] keeps its laws when the server keeps the documented
    behaviour of its get and set methods ([StalwartLaws]).  [astep] interleaves
    the transactions, pushes and settlements of any number of pods.
    Identifiers are canonical texts of UUIDs; [net/mail] is a parameter. *)

From S2P Require Import Prelude Text Table.

Local Open Scope Z_scope.
Local Open Scope go_scope.

(** ** The interface of the synchronisation *)
Definition aliasSyncOpAdd : string := "add".
Definition aliasSyncOpRemove : string := "remove".

(** [AddAlias] and [RemoveAlias] of a tenant, an account and an address: did
    it succeed, and the mail server after it. *)
Class AliasSync (W : Type) := {
  AddAlias : string -> string -> string -> W -> option string * W;
  RemoveAlias : string -> string -> string -> W -> option string * W;
}.

(** The address of an account, and what is pushed for it. *)
Definition slot : Type := string * string.

(** [holds t k w]: the server delivers mail for the address [k.2] to the
    account [k.1].  A call that fails may have taken effect; no call changes
    another address.  The laws are about slots in normal form ([normal]): texts
    that differ in case or spaces may name one address of the server, and
    several identifiers one account. *)
Class AliasSyncLaws (W : Type) `{AliasSync W} := {
  normal : string -> slot -> Prop;
  holds : string -> slot -> W -> Prop;
  law_add : forall t a e w r w', normal t (a, e) -> AddAlias t a e w = (r, w') ->
    match r with None => holds t (a, e) w' | Some _ => holds t (a, e) w' \/ (holds t (a, e) w' <-> holds t (a, e) w) end;
  law_remove : forall t a e w r w', normal t (a, e) -> RemoveAlias t a e w = (r, w') ->
    match r with None => ~ holds t (a, e) w' | Some _ => ~ holds t (a, e) w' \/ (holds t (a, e) w' <-> holds t (a, e) w) end;
  law_add_frame : forall t a e w t' k, normal t (a, e) -> normal t' k -> (t', k) <> (t, (a, e)) -> holds t' k (AddAlias t a e w).2 <-> holds t' k w;
  law_remove_frame : forall t a e w t' k, normal t (a, e) -> normal t' k -> (t', k) <> (t, (a, e)) -> holds t' k (RemoveAlias t a e w).2 <-> holds t' k w;
}.

(** ** Stalwart's management methods ([stalwart_alias.go]) *)
Record stalwartEmailAlias := mkEmailAlias { Enabled : bool; Name : string; DomainID : string; Description : option string }.
Record stalwartAccount := mkAccount { accID : string; accName : string; EmailAddress : string; Aliases : gmap string stalwartEmailAlias }.

Inductive serror :=
| SMissing (what : string) | SInvalidAlias | SShard | STransport | SStatus (code : Z) | SBody | SEmpty | SMethod | SNotFound (what : string)
| SNotUpdated | SLock.

Inductive filter_ := ByName (s : string) | ByText (s : string).
Inductive patch := SetAlias (idx : string) (a : stalwartEmailAlias) | DropAlias (idx : string).
Inductive call := AccountGet (ids : list string) | AccountQuery (f : filter_) | DomainQuery (name : string) | AccountSet (id : string) (p : patch).

(** The arguments of a response by what they decode to; [r_set]: the keys of
    [updated] and of [notUpdated]. *)
Record rargs := mkArgs { r_list : option (list stalwartAccount); r_ids : option (list string); r_set : option (list string * list string) }.
(** An HTTP response: status, was the body read, its method responses (name and
    arguments; [None]: not an envelope; the inner [None]: fewer than two
    parts). *)
Record sresponse := mkSResponse { s_status : Z; s_read : bool; s_body : option (list (option (string * rargs))) }.

Definition at_sign : Ascii.ascii := Ascii.ascii_of_nat 64.
Definition slash : Ascii.ascii := Ascii.ascii_of_nat 47.

(** [strings.LastIndex(s, "@")] as a split. *)
Fixpoint split_last (c : Ascii.ascii) (s : string) : option (string * string) :=
  match s with
  | String.EmptyString => None
  | String.String x s' =>
      match split_last c s' with
      | Some (a, b) => Some (String.String x a, b)
      | None => if Ascii.eqb x c then Some (String.EmptyString, s') else None
      end
  end.

Definition splitAliasEmail (aliasEmail : string) : result serror (string * string) :=
  let s := TrimSpace aliasEmail in
  if String.eqb s "" then Err (SMissing "alias email")
  else match split_last at_sign s with
  | Some (l, d) => if String.eqb l "" || String.eqb d "" then Err SInvalidAlias else Ok (l, d)
  | None => Err SInvalidAlias
  end.

(** The loop over [used] with fuel; one more than the number of keys is
    enough ([nextAliasIndex_free]). *)
Definition used (aliases : gmap string stalwartEmailAlias) (n : N) : bool :=
  existsb (fun k => bool_decide (ParseUint32 k = Some (Z.of_N n))) (map_to_list aliases).*1.
Fixpoint next_free (fuel : nat) (aliases : gmap string stalwartEmailAlias) (n : N) : N :=
  match fuel with
  | O => n
  | S fuel => if used aliases n then next_free fuel aliases (n + 1)%N else n
  end.
Definition nextAliasIndex (aliases : gmap string stalwartEmailAlias) : string := pretty (next_free (S (size aliases)) aliases 0%N).

Section http_sync.
Context {W : Type} (exchange : string -> call -> W -> option sresponse * W).
(** [GetTenantShard], and the order in which the iteration over a map meets
    its entries. *)
Context (GetTenantShard : string -> W -> option string).
Context (pick : gmap string stalwartEmailAlias -> list (string * stalwartEmailAlias)).

Definition jmapCall (shardURL : string) (c : call) (w : W) : result serror rargs * W :=
  let endpoint := TrimRight slash shardURL +:+ "/jmap" in
  let '(resp, w) := exchange endpoint c w in
  (match resp with
   | None => Err STransport
   | Some resp =>
       if (s_status resp <? 200) || (300 <=? s_status resp) then Err (SStatus (s_status resp))
       else if negb (s_read resp) then Err SBody
       else match s_body resp with
       | None => Err SBody
       | Some [] | Some (None :: _) => Err SEmpty
       | Some (Some (name, args) :: _) => if String.eqb name "error" then Err SMethod else Ok args
       end
   end, w).

Definition getAccounts (shardURL : string) (ids : list string) (w : W) : result serror (list stalwartAccount) * W :=
  let '(r, w) := jmapCall shardURL (AccountGet ids) w in
  (let? a := r in match r_list a with Some l => Ok l | None => Err SBody end, w).

Definition queryAccountIDs (shardURL : string) (f : filter_) (w : W) : result serror (list string) * W :=
  let '(r, w) := jmapCall shardURL (AccountQuery f) w in
  (let? a := r in match r_ids a with Some l => Ok l | None => Err SBody end, w).

Definition getAccount (shardURL jmapID : string) (w : W) : result serror stalwartAccount * W :=
  let '(r, w) := getAccounts shardURL [jmapID] w in
  (let? l := r in
   match List.find (fun a => String.eqb (accID a) jmapID) l with Some a => Ok a | None => Err (SNotFound jmapID) end, w).

Definition setAccount (shardURL jmapID : string) (p : patch) (w : W) : result serror unit * W :=
  let '(r, w) := jmapCall shardURL (AccountSet jmapID p) w in
  (let? a := r in
   match r_set a with
   | None => Err SBody
   | Some (updated, notUpdated) => if existsb (String.eqb jmapID) updated then Ok tt else Err SNotUpdated
   end, w).

Definition resolveDomainID (shardURL domain : string) (w : W) : result serror string * W :=
  let '(r, w) := jmapCall shardURL (DomainQuery domain) w in
  (let? a := r in
   match r_ids a with
   | None => Err SBody
   | Some [] => Err (SNotFound domain)
   | Some (id :: _) => Ok id
   end, w).

(** By address: the third strategy. *)
Definition principal_by_email (shardURL identifier : string) (w : W) : result serror stalwartAccount * W :=
  if Contains identifier "@" then
    let '(ids, w) := queryAccountIDs shardURL (ByText identifier) w in
    match ids with
    | Err e => (Err e, w)
    | Ok [] => (Err (SNotFound identifier), w)
    | Ok ids =>
        let '(l, w) := getAccounts shardURL ids w in
        (let? l := l in
         match List.find (fun a => EqualFold (EmailAddress a) identifier) l with Some a => Ok a | None => Err (SNotFound identifier) end, w)
    end
  else (Err (SNotFound identifier), w).

(** By name: the second one, falling through to the third. *)
Definition principal_by_name (shardURL identifier : string) (w : W) : result serror stalwartAccount * W :=
  let '(ids, w) := queryAccountIDs shardURL (ByName identifier) w in
  match ids with
  | Err e => (Err e, w)
  | Ok [] => principal_by_email shardURL identifier w
  | Ok (id :: _) =>
      let '(l, w) := getAccounts shardURL [id] w in
      match l with
      | Err e => (Err e, w)
      | Ok l =>
          match List.find (fun a => String.eqb (accID a) id && EqualFold (accName a) identifier) l with
          | Some a => (Ok a, w)
          | None => principal_by_email shardURL identifier w
          end
      end
  end.

Definition resolvePrincipal (shardURL identifier : string) (w : W) : result serror stalwartAccount * W :=
  let '(l, w) := getAccounts shardURL [identifier] w in
  match l with
  | Err e => (Err e, w)
  | Ok l =>
      match List.find (fun a => String.eqb (accID a) identifier) l with
      | Some a => (Ok a, w)
      | None => principal_by_name shardURL identifier w
      end
  end.

Definition is_alias (localPart domainID : string) (a : stalwartEmailAlias) : bool :=
  EqualFold (Name a) localPart && String.eqb (DomainID a) domainID.

(** What runs under the lock. *)
Definition edit (shardURL jmapID localPart domainID : string) (add : bool) (w : W) : result serror unit * W :=
  let '(r, w) := getAccount shardURL jmapID w in
  match r with
  | Err e => (Err e, w)
  | Ok current =>
      match List.find (fun x => is_alias localPart domainID x.2) (pick (Aliases current)), add with
      | Some _, true => (Ok tt, w)
      | None, true =>
          setAccount shardURL jmapID (SetAlias (nextAliasIndex (Aliases current)) (mkEmailAlias true localPart domainID None)) w
      | None, false => (Ok tt, w)
      | Some (idx, _), false => setAccount shardURL jmapID (DropAlias idx) w
      end
  end.

(** Where the alias lives: shard, principal, local part and domain. *)
Definition locate (tenantID stalwartAccountID aliasEmail : string) (w : W) : result serror (string * string * string * string) * W :=
  if blank stalwartAccountID then (Err (SMissing "account id"), w)
  else match splitAliasEmail aliasEmail with
  | Err e => (Err e, w)
  | Ok (localPart, domain) =>
      match GetTenantShard tenantID w with
      | None => (Err SShard, w)
      | Some shardURL =>
          let '(account, w) := resolvePrincipal shardURL stalwartAccountID w in
          match account with
          | Err e => (Err e, w)
          | Ok account =>
              let '(domainID, w) := resolveDomainID shardURL domain w in
              (let? domainID := domainID in Ok (shardURL, accID account, localPart, domainID), w)
          end
      end
  end.

(** [locked]: the lock was taken. *)
Definition syncAlias (locked : bool) (tenantID stalwartAccountID aliasEmail : string) (add : bool) (w : W) : result serror unit * W :=
  let '(r, w) := locate tenantID stalwartAccountID aliasEmail w in
  match r with
  | Err e => (Err e, w)
  | Ok (shardURL, jmapID, localPart, domainID) =>
      if negb locked then (Err SLock, w) else edit shardURL jmapID localPart domainID add w
  end.
End http_sync.

(** ** What the server does *)
Definition apply_patch (p : patch) (m : gmap string stalwartEmailAlias) : gmap string stalwartEmailAlias :=
  match p with SetAlias i a => <[i := a]> m | DropAlias i => delete i m end.
Definition patched (p : patch) (a : stalwartAccount) : stalwartAccount := mkAccount (accID a) (accName a) (EmailAddress a) (apply_patch p (Aliases a)).

(** A response that carries arguments. *)
Definition answered (r : option sresponse) : option rargs :=
  match r with Some (mkSResponse _ _ (Some (Some (_, a) :: _))) => Some a | _ => None end.

(** JMAP get returns objects as they are, set patches the object it names or
    leaves it (and reports [updated] only when it patched), other methods
    change nothing. *)
Class StalwartLaws {W : Type} (exchange : string -> call -> W -> option sresponse * W) := {
  accounts : string -> W -> gmap string stalwartAccount;
  law_read_only : forall ep c w, (forall id p, c <> AccountSet id p) -> forall ep', accounts ep' (exchange ep c w).2 = accounts ep' w;
  law_get : forall ep ids w a l x, answered (exchange ep (AccountGet ids) w).1 = Some a -> r_list a = Some l -> x ∈ l ->
    accounts ep w !! accID x = Some x;
  law_set : forall ep id p w, let w' := (exchange ep (AccountSet id p) w).2 in
    (accounts ep w' = accounts ep w \/ exists x, accounts ep w !! id = Some x /\ accounts ep w' = <[id := patched p x]> (accounts ep w)) /\
    forall a u n, answered (exchange ep (AccountSet id p) w).1 = Some a -> r_set a = Some (u, n) -> id ∈ u ->
      exists x, accounts ep w !! id = Some x /\ accounts ep w' = <[id := patched p x]> (accounts ep w);
  law_set_elsewhere : forall ep id p w ep', ep' <> ep -> accounts ep' (exchange ep (AccountSet id p) w).2 = accounts ep' w;
}.

(** ** The free index *)
Lemma used_key m n : Z.of_N n < 2 ^ 32 -> is_Some (m !! pretty n) -> used m n = true.
Proof.
  intros Hn [a Ha]. apply existsb_elem. exists (pretty n). split; [|by rewrite ParseUint32_pretty, bool_decide_true].
  apply list_elem_of_fmap. exists (pretty n, a). split; [done|]. by apply elem_of_map_to_list.
Qed.

Lemma next_free_used fuel m : forall n k, (n <= k)%N -> (k < next_free fuel m n)%N -> used m k = true.
Proof.
  induction fuel as [|fuel IH]; intros n k Hn Hk; cbn in Hk; [lia|]. destruct (used m n) eqn:E; [|lia].
  destruct (decide (k = n)) as [->|Hne]; [done|]. apply (IH (n + 1)%N); [lia|done].
Qed.
Lemma next_free_stops fuel m : forall n, (next_free fuel m n < n + N.of_nat fuel)%N -> used m (next_free fuel m n) = false.
Proof.
  induction fuel as [|fuel IH]; intros n Hlt; cbn in *; [lia|]. destruct (used m n) eqn:E; [|done]. apply IH. lia.
Qed.
Lemma next_free_le fuel m : forall n, (next_free fuel m n <= n + N.of_nat fuel)%N.
Proof. induction fuel as [|fuel IH]; intros n; cbn; [lia|]. destruct (used m n); [|lia]. specialize (IH (n + 1)%N). lia. Qed.

(** Each index below one that is used takes a key. *)
Lemma used_bound m k : (forall i, (i < k)%N -> used m i = true) -> (N.to_nat k <= size m)%nat.
Proof.
  intros H. set (f := fun x => default 0%nat (Z.to_nat <$> ParseUint32 x)).
  assert (seq 0 (N.to_nat k) ⊆ f <$> (map_to_list m).*1) as Hsub.
  { intros i Hi%elem_of_seq. assert (used m (N.of_nat i) = true) as (x & Hx & Hp)%existsb_elem by (apply H; lia).
    apply list_elem_of_fmap. exists x. split; [|done]. breflect. unfold f. rewrite Hp. cbn. lia. }
  apply NoDup_submseteq, submseteq_length in Hsub; [|apply NoDup_seq]. by rewrite length_seq, !length_fmap, length_map_to_list in Hsub.
Qed.

(** The loop ends on an index no entry has. *)
Lemma nextAliasIndex_free m : (Z.of_nat (size m) < 2 ^ 32 - 1) -> m !! nextAliasIndex m = None.
Proof.
  intros Hs. unfold nextAliasIndex. set (n := next_free (S (size m)) m 0%N).
  assert (N.to_nat n <= size m)%nat as Hn by (apply used_bound; intros i Hi; eapply next_free_used; [|exact Hi]; lia).
  assert (used m n = false) as Hu by (apply next_free_stops; fold n; lia).
  destruct (m !! pretty n) as [a|] eqn:E; [|done]. rewrite used_key in Hu; [done|lia|by eexists].
Qed.

(** ** What a push does *)
Definition endpoint (shardURL : string) : string := TrimRight slash shardURL +:+ "/jmap".
Definition carries (localPart domainID : string) (m : gmap string stalwartEmailAlias) : Prop := exists i a, m !! i = Some a /\ is_alias localPart domainID a = true.

Section push.
Context {W : Type} (exchange : string -> call -> W -> option sresponse * W) `{!StalwartLaws exchange}.
Context (GetTenantShard : string -> W -> option string).
Context (pick : gmap string stalwartEmailAlias -> list (string * stalwartEmailAlias)).
Hypothesis Hpick : forall m, pick m ≡ₚ map_to_list m.

Lemma jmapCall_spec url c w r w' : jmapCall exchange url c w = (r, w') ->
  w' = (exchange (endpoint url) c w).2 /\ forall a, r = Ok a -> answered (exchange (endpoint url) c w).1 = Some a.
Proof.
  unfold jmapCall. fold (endpoint url). destruct (exchange (endpoint url) c w) as [resp v]. intros [= <- <-]. split; [done|].
  intros a. destruct resp as [[st rd b]|]; [|done]. cbn. destruct (_ || _); [done|]. destruct rd; [cbn|done].
  destruct b as [[|[[name x]|] l]|]; try done. destruct (String.eqb name "error"); [done|]. by intros [= ->].
Qed.

Definition read_only (c : call) : Prop := forall id p, c <> AccountSet id p.
Lemma jmapCall_reads url c w r w' ep : read_only c -> jmapCall exchange url c w = (r, w') -> accounts ep w' = accounts ep w.
Proof. intros Hc [-> _]%jmapCall_spec. by apply law_read_only. Qed.

Lemma getAccounts_spec url ids w r w' : getAccounts exchange url ids w = (r, w') ->
  (forall ep, accounts ep w' = accounts ep w) /\ forall l x, r = Ok l -> x ∈ l -> accounts (endpoint url) w !! accID x = Some x.
Proof.
  unfold getAccounts. destruct (jmapCall exchange url (AccountGet ids) w) as [a v] eqn:E. intros [= <- <-].
  split; [intros ep; eapply jmapCall_reads; [|exact E]; by intros ? ?|]. intros l x. apply jmapCall_spec in E as [_ E]. destruct a as [a|]; cbn; [|done].
  destruct (r_list a) as [l'|] eqn:El; [|done]. intros [= ->] Hx. eapply law_get; [by apply E|exact El|exact Hx].
Qed.

Lemma getAccount_spec url id w r w' : getAccount exchange url id w = (r, w') ->
  (forall ep, accounts ep w' = accounts ep w) /\ forall x, r = Ok x -> accounts (endpoint url) w !! id = Some x.
Proof.
  unfold getAccount. destruct (getAccounts exchange url [id] w) as [l v] eqn:E. apply getAccounts_spec in E as [E1 E2]. intros [= <- <-].
  split; [done|]. intros x. destruct l as [l|]; cbn; [|done]. destruct (List.find _ l) as [y|] eqn:Ef; [|done]. intros [= ->].
  apply find_elem in Ef as [Hin Hid]. breflect. rewrite <- Hid. by eapply E2.
Qed.

Lemma setAccount_spec url id p w r w' : setAccount exchange url id p w = (r, w') ->
  (forall ep, ep <> endpoint url -> accounts ep w' = accounts ep w) /\
  (r <> Ok tt /\ accounts (endpoint url) w' = accounts (endpoint url) w \/
   exists x, accounts (endpoint url) w !! id = Some x /\ accounts (endpoint url) w' = <[id := patched p x]> (accounts (endpoint url) w)).
Proof.
  unfold setAccount. destruct (jmapCall exchange url (AccountSet id p) w) as [a v] eqn:E. intros [= <- <-].
  apply jmapCall_spec in E as [-> E]. split; [intros ep Hep; by apply law_set_elsewhere|].
  destruct (law_set (endpoint url) id p w) as [[Hs|Hs] Hup]; [|by right]. destruct a as [a|]; cbn; [|by left].
  destruct (r_set a) as [[u n]|] eqn:Er; [|by left]. destruct (existsb (String.eqb id) u) eqn:Eu; [|by left]. right.
  apply existsb_elem in Eu as (y & Hy & Ey). breflect. subst y. eapply Hup; [by apply E|done|done].
Qed.

Lemma find_alias l d m : match List.find (fun x => is_alias l d x.2) (pick m) with
  | Some x => m !! x.1 = Some x.2 /\ is_alias l d x.2 = true
  | None => ~ carries l d m
  end.
Proof.
  destruct (List.find _ (pick m)) as [[i a]|] eqn:E.
  - apply find_elem in E as [Hin Ha]. rewrite (Hpick m), elem_of_map_to_list in Hin. done.
  - intros (i & a & Hi & Ha). assert (is_alias l d (i, a).2 = false) as Hn; [|cbn in Hn; congruence].
    apply (find_none_elem _ _ E (i, a)). by rewrite (Hpick m), elem_of_map_to_list.
Qed.

(** The alias is gone or there afterwards, whatever the state before, and
    nothing else has changed. *)
Definition edited (add : bool) (l d : string) (x y : stalwartAccount) : Prop :=
  accID y = accID x /\ accName y = accName x /\ EmailAddress y = EmailAddress x /\
  if add then ~ carries l d (Aliases x) /\ exists i, Aliases x !! i = None /\ Aliases y = <[i := mkEmailAlias true l d None]> (Aliases x)
  else exists i a, Aliases x !! i = Some a /\ is_alias l d a = true /\ Aliases y = delete i (Aliases x).

Definition pushed (url id l d : string) (add : bool) (w : W) (r : result serror unit) (w' : W) : Prop :=
  (forall ep, ep <> endpoint url -> accounts ep w' = accounts ep w) /\
  ((accounts (endpoint url) w' = accounts (endpoint url) w /\
    (r = Ok tt -> exists x, accounts (endpoint url) w !! id = Some x /\ (carries l d (Aliases x) <-> add = true))) \/
   exists x y, accounts (endpoint url) w !! id = Some x /\ accounts (endpoint url) w' = <[id := y]> (accounts (endpoint url) w) /\ edited add l d x y).

Lemma set_pushed url id l d add w w1 p r w' x : (forall ep, accounts ep w1 = accounts ep w) -> accounts (endpoint url) w !! id = Some x ->
  setAccount exchange url id p w1 = (r, w') -> edited add l d x (patched p x) -> pushed url id l d add w r w'.
Proof.
  intros H1 Hx [H2 H3]%setAccount_spec Hp. rewrite H1 in H3. split; [intros ep Hep; by rewrite H2, H1|].
  destruct H3 as [[Hr ->]|(y & Hy & ->)]; [left; by split|]. right. exists x, (patched p x). by simplify_eq.
Qed.

Lemma edit_pushed url id l d add w r w' :
  (forall x, accounts (endpoint url) w !! id = Some x -> Z.of_nat (size (Aliases x)) < 2 ^ 32 - 1) ->
  edit exchange pick url id l d add w = (r, w') -> pushed url id l d add w r w'.
Proof.
  intros Hsize. unfold edit. destruct (getAccount exchange url id w) as [[x|e] w1] eqn:Eg; apply getAccount_spec in Eg as [H1 Hx].
  2:{ intros [= <- <-]. split; [done|]. by left. }
  specialize (Hx x eq_refl). pose proof (find_alias l d (Aliases x)) as Hf. destruct (List.find _ _) as [[i a]|], add; cbn in Hf.
  - intros [= <- <-]. split; [done|]. left. split; [done|]. intros _. exists x. split; [done|]. split; [done|]. intros _. by exists i, a.
  - intros Hs. eapply set_pushed; [exact H1|exact Hx|exact Hs|]. destruct Hf as [Hi Ha]. split_and!; [done..|]. by exists i, a.
  - intros Hs. eapply set_pushed; [exact H1|exact Hx|exact Hs|]. split_and!; [done..|]. eexists. split; [|reflexivity].
    by apply nextAliasIndex_free, (Hsize x).
  - intros [= <- <-]. split; [done|]. left. split; [done|]. intros _. by exists x.
Qed.

(** Everything before the lock only reads. *)
Definition reads {A} (f : W -> result serror A * W) : Prop := forall w r w', f w = (r, w') -> forall ep, accounts ep w' = accounts ep w.

Lemma getAccounts_reads url ids : reads (getAccounts exchange url ids).
Proof. intros w r w' H ep. apply getAccounts_spec in H as [H _]. apply H. Qed.
Lemma queryAccountIDs_reads url f : reads (queryAccountIDs exchange url f).
Proof.
  intros w r w'. unfold queryAccountIDs. destruct (jmapCall exchange url (AccountQuery f) w) as [a v] eqn:E. intros [= <- <-] ep.
  eapply jmapCall_reads; [|exact E]. by intros ? ?.
Qed.
Lemma resolveDomainID_reads url d : reads (resolveDomainID exchange url d).
Proof.
  intros w r w'. unfold resolveDomainID. destruct (jmapCall exchange url (DomainQuery d) w) as [a v] eqn:E. intros [= <- <-] ep.
  eapply jmapCall_reads; [|exact E]. by intros ? ?.
Qed.

Lemma principal_by_email_reads url i : reads (principal_by_email exchange url i).
Proof.
  intros w r w'. unfold principal_by_email. destruct (Contains i "@"); [|by intros [= <- <-]].
  destruct (queryAccountIDs exchange url (ByText i) w) as [ids w1] eqn:E1. pose proof (queryAccountIDs_reads _ _ _ _ _ E1) as H1.
  destruct ids as [[|id ids]|e]; [by intros [= <- <-]| |by intros [= <- <-]].
  destruct (getAccounts exchange url (id :: ids) w1) as [l w2] eqn:E2. intros [= <- <-] ep. by rewrite (getAccounts_reads _ _ _ _ _ E2).
Qed.

Lemma principal_by_name_reads url i : reads (principal_by_name exchange url i).
Proof.
  intros w r w'. unfold principal_by_name. destruct (queryAccountIDs exchange url (ByName i) w) as [ids w1] eqn:E1.
  pose proof (queryAccountIDs_reads _ _ _ _ _ E1) as H1. destruct ids as [[|id ids]|e]; [| |by intros [= <- <-]].
  - intros E2 ep. by rewrite (principal_by_email_reads _ _ _ _ _ E2).
  - destruct (getAccounts exchange url [id] w1) as [l w2] eqn:E2. pose proof (getAccounts_reads _ _ _ _ _ E2) as H2.
    destruct l as [l|]; [|intros [= <- <-] ep; by rewrite H2]. destruct (List.find _ l); [intros [= <- <-] ep; by rewrite H2|].
    intros E3 ep. by rewrite (principal_by_email_reads _ _ _ _ _ E3), H2.
Qed.

Lemma resolvePrincipal_reads url i : reads (resolvePrincipal exchange url i).
Proof.
  intros w r w'. unfold resolvePrincipal. destruct (getAccounts exchange url [i] w) as [l w2] eqn:E2. pose proof (getAccounts_reads _ _ _ _ _ E2) as H2.
  destruct l as [l|]; [|intros [= <- <-] ep; by rewrite H2]. destruct (List.find _ l); [intros [= <- <-] ep; by rewrite H2|].
  intros E3 ep. by rewrite (principal_by_name_reads _ _ _ _ _ E3), H2.
Qed.

Lemma locate_reads t a e : reads (locate exchange GetTenantShard t a e).
Proof.
  intros w r w'. unfold locate. destruct (blank a); [by intros [= <- <-]|]. destruct (splitAliasEmail e) as [[l d]|]; [|by intros [= <- <-]].
  destruct (GetTenantShard t w) as [url|]; [|by intros [= <- <-]].
  destruct (resolvePrincipal exchange url a w) as [x w1] eqn:E1. pose proof (resolvePrincipal_reads _ _ _ _ _ E1) as H1.
  destruct x as [x|]; [|by intros [= <- <-]]. destruct (resolveDomainID exchange url d w1) as [y w2] eqn:E2. intros [= <- <-] ep.
  by rewrite (resolveDomainID_reads _ _ _ _ _ E2), H1.
Qed.

Definition small (w : W) : Prop := forall ep id x, accounts ep w !! id = Some x -> Z.of_nat (size (Aliases x)) < 2 ^ 32 - 1.

Lemma syncAlias_pushed locked t a e add w r w' : small w -> syncAlias exchange GetTenantShard pick locked t a e add w = (r, w') ->
  (r <> Ok tt /\ forall ep, accounts ep w' = accounts ep w) \/
  exists url id l d, (locate exchange GetTenantShard t a e w).1 = Ok (url, id, l, d) /\ pushed url id l d add w r w'.
Proof.
  intros Hsmall. unfold syncAlias. destruct (locate exchange GetTenantShard t a e w) as [x w1] eqn:El. pose proof (locate_reads _ _ _ _ _ _ El) as H1.
  destruct x as [[[[url id] l] d]|]; [|intros [= <- <-]; by left]. destruct locked; cbn [negb]; [|intros [= <- <-]; by left].
  intros He. right. exists url, id, l, d. split; [done|].
  destruct (edit_pushed url id l d add w1 r w' ltac:(intros x; rewrite H1; apply Hsmall) He) as [H2 H3]. rewrite H1 in H3. split; [|done].
  intros ep Hep. by rewrite H2, H1.
Qed.

(** C11: Pushing an alias into the mail server changes that alias and nothing
    else.  Whatever fails on the way, a push leaves the accounts of all shards
    as they were, or changes the one account it resolved: an add has put the
    alias at an index that was free (so it overwrites no other alias), and
    only if the account did not carry it in any case; a remove has taken out
    an entry of that alias.  A push that reports success without a change
    found the alias as it should be. *)
Theorem alias_push_exact locked t a e add w r w' : small w -> syncAlias exchange GetTenantShard pick locked t a e add w = (r, w') ->
  (forall ep, accounts ep w' = accounts ep w) /\
  (r = Ok tt -> exists url id l d x, (locate exchange GetTenantShard t a e w).1 = Ok (url, id, l, d) /\
     accounts (endpoint url) w !! id = Some x /\ (carries l d (Aliases x) <-> add = true))
  \/
  exists url id l d x y, (locate exchange GetTenantShard t a e w).1 = Ok (url, id, l, d) /\ edited add l d x y /\
    accounts (endpoint url) w !! id = Some x /\ accounts (endpoint url) w' = <[id := y]> (accounts (endpoint url) w) /\
    forall ep, ep <> endpoint url -> accounts ep w' = accounts ep w.
Proof.
  intros Hsmall Hs. destruct (syncAlias_pushed _ _ _ _ _ _ _ _ Hsmall Hs) as [[Hr H]|(url & id & l & d & Hl & He & [[Hu Hok]|(x & y & H1 & H2 & H3)])].
  - left. by split.
  - left. split; [|intros Hr; destruct (Hok Hr) as (x & H1 & H2); by exists url, id, l, d, x].
    intros ep. destruct (decide (ep = endpoint url)) as [->|Hne]; [done|by apply He].
  - right. by exists url, id, l, d, x, y.
Qed.

(** *** The laws of the interface *)
(** [ok]: the slots in use; [dir]: where they live; [lock]: does the advisory
    lock come. *)
Context (ok : string -> slot -> Prop) (dir : string -> slot -> option (string * string * string * string)) (lock : string -> W -> bool) (render : serror -> string).
Hypothesis Hsmall : forall w, small w.
Hypothesis Hdir : forall t a e w r w', ok t (a, e) -> locate exchange GetTenantShard t a e w = (Ok r, w') -> dir t (a, e) = Some r.
(** Two slots share no entry of the server. *)
Hypothesis Hapart : forall t k t' k' url id l d url' l', ok t k -> ok t' k' -> dir t k = Some (url, id, l, d) -> dir t' k' = Some (url', id, l', d) ->
  endpoint url = endpoint url' -> EqualFold l l' = true -> (t', k') = (t, k).
(** An account carries an address once. *)
Hypothesis Honce : forall ep w id x i j a b, accounts ep w !! id = Some x -> Aliases x !! i = Some a -> Aliases x !! j = Some b ->
  EqualFold (Name a) (Name b) = true -> DomainID a = DomainID b -> i = j.

Definition report (r : result serror unit) : option string := match r with Ok _ => None | Err e => Some (render e) end.
Definition http_push (add : bool) (t a e : string) (w : W) : option string * W :=
  let '(r, w) := syncAlias exchange GetTenantShard pick (lock a w) t a e add w in (report r, w).
#[local] Instance http_sync : AliasSync W := {| AddAlias := http_push true; RemoveAlias := http_push false |}.

Definition delivers (t : string) (k : slot) (w : W) : Prop :=
  match dir t k with Some (url, id, l, d) => exists x, accounts (endpoint url) w !! id = Some x /\ carries l d (Aliases x) | None => False end.

Lemma delivers_same t k w w' : (forall ep, accounts ep w' = accounts ep w) -> delivers t k w' <-> delivers t k w.
Proof. intros H. unfold delivers. destruct (dir t k) as [[[[url id] l] d]|]; [|done]. by rewrite H. Qed.

Lemma located t a e w x : ok t (a, e) -> (locate exchange GetTenantShard t a e w).1 = Ok x -> dir t (a, e) = Some x.
Proof. intros Hok H. eapply Hdir; [exact Hok|]. rewrite (surjective_pairing (locate _ _ _ _ _ _)), H. done. Qed.

Lemma is_alias_shared l d l' d' a : is_alias l d a = true -> is_alias l' d' a = true -> EqualFold l l' = true /\ d = d'.
Proof. unfold is_alias, EqualFold. intros H1 H2. breflect. split; [|congruence]. apply String.eqb_eq. congruence. Qed.
Lemma is_alias_own l d : is_alias l d (mkEmailAlias true l d None) = true.
Proof. unfold is_alias, EqualFold. cbn. by rewrite !String.eqb_refl. Qed.

(** An edit decides its own slot and no other. *)
Lemma edited_carries add l d ep w id x y : accounts ep w !! id = Some x -> edited add l d x y -> carries l d (Aliases y) <-> add = true.
Proof.
  intros Hx (_ & _ & _ & He). destruct add.
  - destruct He as (_ & i & _ & ->). split; [done|]. intros _. exists i, (mkEmailAlias true l d None). split; [apply lookup_insert_eq|apply is_alias_own].
  - destruct He as (i & a & Hi & Ha & ->). split; [|done]. intros (j & b & [Hne Hj]%lookup_delete_Some & Hb). exfalso. apply Hne.
    unfold is_alias, EqualFold in Ha, Hb. breflect. eapply Honce; [exact Hx|exact Hi|exact Hj| |congruence]. unfold EqualFold. apply String.eqb_eq. congruence.
Qed.
Lemma edited_others add l d l' d' x y : ~ (EqualFold l l' = true /\ d = d') -> edited add l d x y ->
  carries l' d' (Aliases y) <-> carries l' d' (Aliases x).
Proof.
  intros Hn (_ & _ & _ & He).
  assert (exists i, (forall j, j <> i -> Aliases y !! j = Aliases x !! j) /\ forall a, Aliases x !! i = Some a \/ Aliases y !! i = Some a -> is_alias l' d' a = false)
    as (i & Hsame & Hi).
  { destruct add.
    - destruct He as (_ & i & Hi & ->). exists i. split; [intros j Hj; by rewrite lookup_insert_ne|]. intros a [Ha|Ha]; [congruence|].
      rewrite lookup_insert_eq in Ha. injection Ha as <-. destruct (is_alias l' d' _) eqn:E; [|done]. destruct Hn. eapply is_alias_shared; [apply is_alias_own|exact E].
    - destruct He as (i & b & Hi & Hb & ->). exists i. split; [intros j Hj; by rewrite lookup_delete_ne|]. intros a [Ha|Ha]; [|by rewrite lookup_delete_eq in Ha].
      destruct (is_alias l' d' a) eqn:E; [|done]. destruct Hn. simplify_eq. by eapply is_alias_shared. }
  split; intros (j & a & Hj & Ha); (destruct (decide (j = i)) as [->|Hne]; [rewrite Hi in Ha; [done|tauto]|]); exists j, a; [rewrite <- Hsame|rewrite Hsame]; done.
Qed.

Lemma http_push_own add t a e w r w' : ok t (a, e) -> http_push add t a e w = (r, w') ->
  (r = None -> delivers t (a, e) w' <-> add = true) /\
  ((delivers t (a, e) w' <-> add = true) \/ (delivers t (a, e) w' <-> delivers t (a, e) w)).
Proof.
  intros Ht. unfold http_push. destruct (syncAlias _ _ _ _ _ _ _ _ _) as [x v] eqn:Es. intros [= <- <-].
  assert (report x = None -> x = Ok tt) as Hrep by (by destruct x as [[]|]).
  destruct (syncAlias_pushed _ _ _ _ _ _ _ _ (Hsmall w) Es) as [[Hr H]|(url & id & l & d & Hl & He & [[Hu Hok]|(y & z & H1 & H2 & H3)])].
  - split; [by intros ?%Hrep|]. right. by apply delivers_same.
  - assert (forall ep, accounts ep v = accounts ep w) as Hall by (intros ep; destruct (decide (ep = endpoint url)) as [->|Hne]; [done|by apply He]).
    split; [|right; by apply delivers_same]. intros Hx%Hrep. destruct (Hok Hx) as (y & Hy & Hc). rewrite (delivers_same _ _ _ _ Hall).
    unfold delivers. rewrite (located _ _ _ _ _ Ht Hl). split; [intros (y' & ? & ?); simplify_eq; tauto|]. intros Ha. exists y. tauto.
  - assert (delivers t (a, e) v <-> add = true) as Hd; [|by split; [|left]]. unfold delivers. rewrite (located _ _ _ _ _ Ht Hl), H2, lookup_insert_eq.
    rewrite <- (edited_carries _ _ _ _ _ _ _ _ H1 H3). naive_solver.
Qed.

Lemma http_push_frame add t a e w t' k : ok t (a, e) -> ok t' k -> (t', k) <> (t, (a, e)) -> delivers t' k (http_push add t a e w).2 <-> delivers t' k w.
Proof.
  intros Ht Ht' Hne. unfold http_push. destruct (syncAlias _ _ _ _ _ _ _ _ _) as [x v] eqn:Es. cbn [snd].
  destruct (syncAlias_pushed _ _ _ _ _ _ _ _ (Hsmall w) Es) as [[Hr H]|(url & id & l & d & Hl & He & [[Hu Hok]|(y & z & H1 & H2 & H3)])];
    [by apply delivers_same|apply delivers_same; intros ep; destruct (decide (ep = endpoint url)) as [->|]; [done|by apply He]|].
  apply (located _ _ _ _ _ Ht) in Hl. unfold delivers. destruct (dir t' k) as [[[[url' id'] l'] d']|] eqn:Ed; [|done].
  destruct (decide (endpoint url' = endpoint url)) as [Eu|Hu]; [rewrite Eu|by rewrite He]. rewrite H2.
  destruct (decide (id' = id)) as [->|Hid]; [|by rewrite lookup_insert_ne by done]. rewrite lookup_insert_eq, H1.
  assert (carries l' d' (Aliases z) <-> carries l' d' (Aliases y)) as Hc; [|naive_solver].
  eapply edited_others; [|exact H3]. intros [Hf ->]. apply Hne. eapply Hapart; [exact Ht|exact Ht'|exact Hl|exact Ed|done|done].
Qed.

#[local] Instance http_sync_laws : AliasSyncLaws W.
Proof.
  refine {| normal := ok; holds := delivers |}; cbn.
  - intros t a e w r w' Ht H. apply http_push_own in H as [H1 H2]; [|done]. destruct r; [naive_solver|]. by apply H1.
  - intros t a e w r w' Ht H. apply http_push_own in H as [H1 H2]; [|done]. destruct r; [|by rewrite H1].
    destruct H2 as [H2|H2]; [left; by rewrite H2|by right].
  - intros. by apply http_push_frame.
  - intros. by apply http_push_frame.
Defined.
End push.

(** ** The service ([aliases.go]) and the queue
      ([stalwart_alias_sync_queue.go]) *)
Record Alias := mkAlias { al_ID : string; al_TenantID : string; al_UserID : string; AliasEmail : string; CreatedAt : Z; UpdatedAt : Z }.

Definition aliasSyncStatusPending : string := "pending".
Definition aliasSyncStatusSynced : string := "synced".
Definition aliasSyncStatusFailed : string := "failed".

Record qrow := mkQRow {
  q_id : string; q_tenant : string; q_op : string; q_account : string; q_email : string; q_status : string; q_attempts : Z;
  q_lastError : string; q_nextRetryAt : Z; q_syncedAt : option Z;
}.

(** The rows of [users] by id (tenant and mail account), the aliases, the
    queue in order of insertion. *)
Record adb := mkADB { a_users : gmap string (string * string); a_aliases : list Alias; a_queue : list qrow }.

Inductive terror := ErrInvalidInput | ErrNotFound | ErrAliasInUse | ErrUnique | ErrStore.

Definition AliasSyncMaxAttempts : Z := 5.
Definition nextAliasSyncBackoff (attempt : Z) : Z :=
  if attempt =? 1 then 30 * Second
  else if attempt =? 2 then 2 * Minute
  else if attempt =? 3 then 10 * Minute
  else if attempt =? 4 then 30 * Minute
  else Hour.

Definition set_row (status lastError : string) (attempts nextRetryAt : Z) (syncedAt : option Z) (r : qrow) : qrow :=
  mkQRow (q_id r) (q_tenant r) (q_op r) (q_account r) (q_email r) status attempts lastError nextRetryAt syncedAt.
Definition with_queue (q : list qrow) (s : adb) : adb := mkADB (a_users s) (a_aliases s) q.
Definition is_pending (id : string) (r : qrow) : bool := String.eqb (q_id r) id && String.eqb (q_status r) aliasSyncStatusPending.

(** [id] is the id the database mints. *)
Definition enqueueAliasSyncTx (id : string) (now : Z) (tenantID op account email : string) (s : adb) : result terror (string * adb) :=
  if String.eqb tenantID "" || String.eqb account "" || String.eqb email "" then Err ErrInvalidInput
  else if negb (String.eqb op aliasSyncOpAdd) && negb (String.eqb op aliasSyncOpRemove) then Err ErrInvalidInput
  else Ok (id, with_queue (a_queue s ++ [mkQRow id tenantID op account email aliasSyncStatusPending 0 "" now None]) s).

(** One statement outside a transaction. *)
Definition exec (d : delivery) (f : adb -> adb) (s : adb) : option terror * adb :=
  match remote d (fun s => (tt, f s)) s with (Some _, s) => (None, s) | (None, s) => (Some ErrStore, s) end.

Definition markAliasSyncSynced (d : delivery) (now : Z) (id : string) : adb -> option terror * adb :=
  exec d (fun s => with_queue (update (is_pending id)
    (fun r => set_row aliasSyncStatusSynced "" (q_attempts r) (q_nextRetryAt r) (Some now) r) (a_queue s)) s).
(** The backoff in whole seconds. *)
Definition recordAliasSyncFailure (d : delivery) (now : Z) (id errMsg : string) (backoff : Z) : adb -> option terror * adb :=
  exec d (fun s => with_queue (update (is_pending id)
    (fun r => set_row (q_status r) errMsg (q_attempts r + 1) (now + backoff / Second * Second) (q_syncedAt r) r) (a_queue s)) s).
Definition markAliasSyncFailed (d : delivery) (id errMsg : string) : adb -> option terror * adb :=
  exec d (fun s => with_queue (update (is_pending id)
    (fun r => set_row aliasSyncStatusFailed errMsg (q_attempts r) (q_nextRetryAt r) (q_syncedAt r) r) (a_queue s)) s).

Section service.
Context {W : Type} `{AS : AliasSync W}.
(** [mail.ParseAddress], by the address it returns; is a sync wired. *)
Context (ParseAddress : string -> option string) (aliasSync : bool).

Definition normalizeAliasEmail (input : string) : result terror string :=
  let trimmed := TrimSpace input in
  if String.eqb trimmed "" then Err ErrInvalidInput
  else match ParseAddress trimmed with
  | None => Err ErrInvalidInput
  | Some addr => if Contains (ToLower addr) "@" then Ok (ToLower addr) else Err ErrInvalidInput
  end.

Definition user_account (tenantID userID : string) (s : adb) : option string :=
  match a_users s !! userID with Some (t, acct) => if String.eqb t tenantID then Some acct else None | None => None end.

(** The transaction of [CreateAlias]: the alias, the account and the id of the
    intent. *)
Definition create_tx (now : Z) (aliasID queueID tenantID userID alias : string) (s : adb) : result terror (Alias * string * string * adb) :=
  match user_account tenantID userID s with
  | None => Err ErrNotFound
  | Some account =>
      if existsb (fun a => String.eqb (AliasEmail a) alias) (a_aliases s) then Err ErrUnique
      else
        let a := mkAlias aliasID tenantID userID alias now now in
        let s := mkADB (a_users s) (a_aliases s ++ [a]) (a_queue s) in
        if aliasSync then
          let? x := enqueueAliasSyncTx queueID now tenantID aliasSyncOpAdd account alias s in Ok (a, account, x.1, x.2)
        else Ok (a, account, "", s)
  end%string.

(** The transaction of [DeleteAlias]: address, account, id of the intent and
    whether there was a row. *)
Definition delete_tx (now : Z) (queueID tenantID aliasID : string) (s : adb) : result terror (string * string * string * bool * adb) :=
  match List.find (fun a => String.eqb (al_ID a) aliasID && String.eqb (al_TenantID a) tenantID) (a_aliases s) with
  | None => Ok ("", "", "", false, s)
  | Some a =>
      let s := mkADB (a_users s) (List.filter (fun b => negb (String.eqb (al_ID b) aliasID && String.eqb (al_TenantID b) tenantID)) (a_aliases s)) (a_queue s) in
      if aliasSync then
        let account := default "" (user_account tenantID (al_UserID a) s) in
        if String.eqb account "" then Ok (AliasEmail a, account, "", true, s)
        else let? x := enqueueAliasSyncTx queueID now tenantID aliasSyncOpRemove account (AliasEmail a) s in Ok (AliasEmail a, account, x.1, true, x.2)
      else Ok (AliasEmail a, "", "", true, s)
  end%string.

(** The fates and clocks of a call: transaction, settlement. *)
Record call_env := mkCallEnv { c_d : delivery; c_now : Z; c_aliasID : string; c_queueID : string; c_d' : delivery; c_now' : Z }.

Definition push (op tenantID account email : string) (w : W) : option (option string) * W :=
  if String.eqb op aliasSyncOpAdd then let '(e, w) := AddAlias tenantID account email w in (Some e, w)
  else if String.eqb op aliasSyncOpRemove then let '(e, w) := RemoveAlias tenantID account email w in (Some e, w)
  else (None, w).

Definition attemptAliasSyncInline (E : call_env) (tenantID syncQueueID op account email : string) (s : adb) (w : W) : adb * W :=
  if negb aliasSync || String.eqb syncQueueID "" then (s, w)
  else
    let '(r, w) := push op tenantID account email w in
    match r with
    | None => (s, w)
    | Some None => ((markAliasSyncSynced (c_d' E) (c_now' E) syncQueueID s).2, w)
    | Some (Some msg) => ((recordAliasSyncFailure (c_d' E) (c_now' E) syncQueueID msg (nextAliasSyncBackoff 1) s).2, w)
    end.

Definition CreateAlias (E : call_env) (pool : bool) (tenantID userID aliasEmail : string) (s : adb) (w : W) : result terror Alias * adb * W :=
  if String.eqb tenantID "" || String.eqb userID "" then (Err ErrInvalidInput, s, w)
  else match normalizeAliasEmail aliasEmail with
  | Err e => (Err e, s, w)
  | Ok alias =>
      if negb pool then (Err ErrInvalidInput, s, w)
      else
        let '(r, s) := BeginFunc ErrStore (c_d E) (fun s => create_tx (c_now E) (c_aliasID E) (c_queueID E) tenantID userID alias s) s in
        match r with
        | Err ErrUnique => (Err ErrAliasInUse, s, w)
        | Err e => (Err e, s, w)
        | Ok (a, account, id) =>
            let '(s, w) := attemptAliasSyncInline E tenantID id aliasSyncOpAdd account (AliasEmail a) s w in (Ok a, s, w)
        end
  end.

Definition DeleteAlias (E : call_env) (pool : bool) (tenantID aliasID : string) (s : adb) (w : W) : result terror unit * adb * W :=
  if String.eqb tenantID "" || String.eqb aliasID "" || negb pool then (Err ErrInvalidInput, s, w)
  else
    let '(r, s) := BeginFunc ErrStore (c_d E) (fun s => delete_tx (c_now E) (c_queueID E) tenantID aliasID s) s in
    match r with
    | Err e => (Err e, s, w)
    | Ok (email, account, id, affected) =>
        if negb affected then (Err ErrNotFound, s, w)
        else let '(s, w) := attemptAliasSyncInline E tenantID id aliasSyncOpRemove account email s w in (Ok tt, s, w)
    end.

(** [byEmail]: the order of the addresses. *)
Definition queryAliasesTx (byEmail : list Alias -> list Alias) (tenantID userID : string) (s : adb) : list Alias :=
  byEmail (List.filter (fun a => String.eqb (al_TenantID a) tenantID && (String.eqb userID "" || String.eqb (al_UserID a) userID)) (a_aliases s)).
Definition listAliases (byEmail : list Alias -> list Alias) (d : delivery) (pool : bool) (tenantID userID : string) (s : adb) : result terror (list Alias) :=
  if negb pool then Err ErrInvalidInput
  else (BeginFunc ErrStore d (fun s => Ok (queryAliasesTx byEmail tenantID userID s, s)) s).1.
Definition ListAliases (byEmail : list Alias -> list Alias) (d : delivery) (pool : bool) (tenantID : string) (s : adb) : result terror (list Alias) :=
  if String.eqb tenantID "" then Err ErrInvalidInput else listAliases byEmail d pool tenantID "" s.
Definition ListUserAliases (byEmail : list Alias -> list Alias) (d : delivery) (pool : bool) (tenantID userID : string) (s : adb) : result terror (list Alias) :=
  if String.eqb tenantID "" || String.eqb userID "" then Err ErrInvalidInput else listAliases byEmail d pool tenantID userID s.

(** ** The worker ([stalwart_alias_sync_worker.go]) *)
Definition DefaultAliasSyncBatchCap : Z := 50.
Record worker_env := mkWorkerEnv { w_d : delivery; w_now : Z; w_d' : delivery; w_now' : Z }.

Definition due (now : Z) (r : qrow) : bool := String.eqb (q_status r) aliasSyncStatusPending && (q_nextRetryAt r <=? now).
(** The claim: the row as it was read, leased for an hour. *)
Definition claim_tx (now : Z) (s : adb) : result terror (option qrow * adb) :=
  match least q_nextRetryAt (List.filter (due now) (a_queue s)) with
  | None => Ok (None, s)
  | Some r =>
      Ok (Some r, with_queue (update (fun x => String.eqb (q_id x) (q_id r))
        (fun x => set_row (q_status x) (q_lastError x) (q_attempts x) (now + nextAliasSyncBackoff AliasSyncMaxAttempts / Second * Second) (q_syncedAt x) x)
        (a_queue s)) s)
  end.

(** What the worker writes after the push of a claimed row. *)
Definition settle_worker (d : delivery) (now : Z) (r : qrow) (outcome : option (option string)) (s : adb) : option terror * adb :=
  match outcome with
  | None => markAliasSyncFailed d (q_id r) "unknown operation" s
  | Some None => markAliasSyncSynced d now (q_id r) s
  | Some (Some msg) =>
      let nextAttempt := q_attempts r + 1 in
      if AliasSyncMaxAttempts <=? nextAttempt then markAliasSyncFailed d (q_id r) msg s
      else recordAliasSyncFailure d now (q_id r) msg (nextAliasSyncBackoff nextAttempt) s
  end.

Definition processNext (E : worker_env) (s : adb) (w : W) : result terror bool * adb * W :=
  let '(r, s) := BeginFunc ErrStore (w_d E) (fun s => claim_tx (w_now E) s) s in
  match r with
  | Err e => (Err e, s, w)
  | Ok None => (Ok false, s, w)
  | Ok (Some row) =>
      let '(o, w) := push (q_op row) (q_tenant row) (q_account row) (q_email row) w in
      let '(e, s) := settle_worker (w_d' E) (w_now' E) row o s in
      (match e with None => Ok true | Some e => Err e end, s, w)
  end.

(** The iterations of one tick; without a cap ([cap <= 0]) they go on as long
    as there are environments ([tick_drains] says how many are enough). *)
Fixpoint tickLoop (Es : list worker_env) (s : adb) (w : W) : adb * W :=
  match Es with
  | [] => (s, w)
  | E :: Es =>
      let '(r, s, w) := processNext E s w in
      match r with Ok true => tickLoop Es s w | _ => (s, w) end
  end.
Definition capped (batchCap : Z) (Es : list worker_env) : list worker_env := if batchCap <=? 0 then Es else take (Z.to_nat batchCap) Es.
Definition tick (batchCap : Z) (Es : list worker_env) : adb -> W -> adb * W := tickLoop (capped batchCap Es).
End service.

(** ** Interleavings *)
Section system.
Context {W : Type} `{AS : AliasSync W}.

(** A push under way: the row as it was enqueued or claimed, who pushes, and
    the outcome once there is one. *)
Record task := mkTask { t_row : qrow; t_inline : bool; t_outcome : option (option (option string)) }.
Record asys := mkASys { s_db : adb; s_world : W; s_tasks : list task }.

Definition settle (d : delivery) (now : Z) (tk : task) (s : adb) : adb :=
  match t_outcome tk with
  | None => s
  | Some o =>
      if t_inline tk then
        match o with
        | None => s
        | Some None => (markAliasSyncSynced d now (q_id (t_row tk)) s).2
        | Some (Some msg) => (recordAliasSyncFailure d now (q_id (t_row tk)) msg (nextAliasSyncBackoff 1) s).2
        end
      else (settle_worker d now (t_row tk) o s).2
  end.

(** The row of an intent just committed. *)
Definition fresh_row (now : Z) (id tenantID op account email : string) : qrow :=
  mkQRow id tenantID op account email aliasSyncStatusPending 0 "" now None.

Inductive astep : asys -> asys -> Prop :=
| A_create s d now aliasID queueID t u alias r db ts :
    queueID ∉ q_id <$> a_queue (s_db s) -> aliasID ∉ al_ID <$> a_aliases (s_db s) ->
    BeginFunc ErrStore d (fun s => create_tx true now aliasID queueID t u alias s) (s_db s) = (r, db) ->
    ts = match r with Ok (a, account, id) => [mkTask (fresh_row now id t aliasSyncOpAdd account alias) true None] | Err _ => [] end ->
    astep s (mkASys db (s_world s) (s_tasks s ++ ts))
| A_delete s d now queueID t aliasID r db ts :
    queueID ∉ q_id <$> a_queue (s_db s) ->
    BeginFunc ErrStore d (fun s => delete_tx true now queueID t aliasID s) (s_db s) = (r, db) ->
    ts = match r with
      | Ok (email, account, id, true) => if String.eqb id "" then [] else [mkTask (fresh_row now id t aliasSyncOpRemove account email) true None]
      | _ => []
      end ->
    astep s (mkASys db (s_world s) (s_tasks s ++ ts))
| A_claim s d now r db ts :
    BeginFunc ErrStore d (fun s => claim_tx now s) (s_db s) = (r, db) ->
    ts = match r with Ok (Some row) => [mkTask row false None] | _ => [] end ->
    astep s (mkASys db (s_world s) (s_tasks s ++ ts))
| A_push s i tk o w :
    s_tasks s !! i = Some tk -> t_outcome tk = None ->
    push (q_op (t_row tk)) (q_tenant (t_row tk)) (q_account (t_row tk)) (q_email (t_row tk)) (s_world s) = (o, w) ->
    astep s (mkASys (s_db s) w (<[i := mkTask (t_row tk) (t_inline tk) (Some o)]> (s_tasks s)))
| A_settle s i tk d now :
    s_tasks s !! i = Some tk -> t_outcome tk <> None ->
    astep s (mkASys (settle d now tk (s_db s)) (s_world s) (delete i (s_tasks s)))
| A_crash s i : astep s (mkASys (s_db s) (s_world s) (delete i (s_tasks s)))
| A_user s u t acct :
    a_users (s_db s) !! u = None -> acct <> ""%string ->
    astep s (mkASys (mkADB (<[u := (t, acct)]> (a_users (s_db s))) (a_aliases (s_db s)) (a_queue (s_db s))) (s_world s) (s_tasks s)).

(** A whole call of [CreateAlias], of [DeleteAlias] and of [processNext] is a
    run of these steps. *)
Definition areach : asys -> asys -> Prop := rtc astep.
End system.

(** ** The queue as a log *)
Definition key (r : qrow) : string * slot := (q_tenant r, (q_account r, q_email r)).
Definition last_for (k : string * slot) (q : list qrow) : option qrow := last (List.filter (fun r => bool_decide (key r = k)) q).

Lemma last_for_snoc k q r : last_for k (q ++ [r]) = if bool_decide (key r = k) then Some r else last_for k q.
Proof.
  unfold last_for. rewrite List.filter_app. cbn. destruct (bool_decide _); [apply last_snoc|by rewrite app_nil_r].
Qed.

Lemma last_for_elem k q r : last_for k q = Some r -> r ∈ q /\ key r = k.
Proof. intros [Hin Hk]%last_Some_elem_of%elem_of_filterb. by breflect. Qed.

Lemma last_for_None k q : last_for k q = None <-> forall r, r ∈ q -> key r <> k.
Proof.
  unfold last_for. rewrite last_None. split.
  - intros H r Hr Hk. assert (r ∈ List.filter (fun r => bool_decide (key r = k)) q) as Hin; [|rewrite H in Hin; set_solver].
    apply elem_of_filterb. split; [done|by apply bool_decide_eq_true].
  - intros H. destruct (List.filter _ q) as [|r l] eqn:E; [done|]. assert (r ∈ List.filter (fun r => bool_decide (key r = k)) q) as Hin by (rewrite E; left).
    apply elem_of_filterb in Hin as [Hin Hk]. breflect. by destruct (H r Hin).
Qed.

(** Writes that settle or lease a row leave what it asks for. *)
Definition same_intent (f : qrow -> qrow) : Prop := forall r, q_id (f r) = q_id r /\ q_op (f r) = q_op r /\ key (f r) = key r.
Lemma last_for_update k p f q : same_intent f -> last_for k (update p f q) = (fun r => if p r then f r else r) <$> last_for k q.
Proof.
  intros Hf. unfold last_for. rewrite update_filter; [apply fmap_last|]. intros r. destruct (Hf r) as (_ & _ & ->). done.
Qed.
Lemma same_intent_set_row st msg n t at_ : same_intent (fun r => set_row (st r) (msg r) (n r) (t r) (at_ r) r).
Proof. by intros []. Qed.

Definition listed (db : adb) (k : string * slot) : Prop :=
  exists al, al ∈ a_aliases db /\ al_TenantID al = k.1 /\ AliasEmail al = k.2.2 /\ a_users db !! al_UserID al = Some (k.1, k.2.1).
Definition wanted (q : list qrow) (k : string * slot) : Prop := exists r, last_for k q = Some r /\ q_op r = aliasSyncOpAdd.

Record wf (db : adb) : Prop := {
  wf_ids : NoDup (q_id <$> a_queue db);
  wf_alias_ids : NoDup (al_ID <$> a_aliases db);
  wf_emails : NoDup (AliasEmail <$> a_aliases db);
  wf_owner : forall al, al ∈ a_aliases db -> exists acct, a_users db !! al_UserID al = Some (al_TenantID al, acct) /\ acct <> ""%string;
  wf_op : forall r, r ∈ a_queue db -> q_op r = aliasSyncOpAdd \/ q_op r = aliasSyncOpRemove;
}.

(** Aliases and intents. *)
Definition logged (db : adb) : Prop := wf db /\ forall k, listed db k <-> wanted (a_queue db) k.

(** The transactions by their effect. *)
Lemma create_tx_ok now aliasID queueID t u alias s a account id s' :
  create_tx true now aliasID queueID t u alias s = Ok (a, account, id, s') ->
  a = mkAlias aliasID t u alias now now /\ id = queueID /\ a_users s !! u = Some (t, account) /\ account <> ""%string /\
  (alias ∉ AliasEmail <$> a_aliases s) /\
  s' = mkADB (a_users s) (a_aliases s ++ [a]) (a_queue s ++ [fresh_row now queueID t aliasSyncOpAdd account alias]).
Proof.
  unfold create_tx, user_account. destruct (a_users s !! u) as [[t' acct]|]; [|done]. destruct (String.eqb t' t) eqn:Et; [|done].
  destruct (existsb _ _) eqn:Ee; [done|]. unfold enqueueAliasSyncTx. destruct (_ || _) eqn:Ev; [done|]. cbn. intros [= <- <- <- <-]. breflect. subst t'.
  split_and!; try done. intros (al & Hal & Hin)%list_elem_of_fmap. rewrite existsb_false in Ee. specialize (Ee al Hin). by rewrite <- Hal, String.eqb_refl in Ee.
Qed.

Lemma delete_tx_ok now queueID t aliasID s email account id found s' : wf s ->
  delete_tx true now queueID t aliasID s = Ok (email, account, id, found, s') ->
  (found = false /\ s' = s) \/
  exists al, al ∈ a_aliases s /\ al_ID al = aliasID /\ al_TenantID al = t /\ email = AliasEmail al /\ found = true /\ id = queueID /\
    a_users s !! al_UserID al = Some (t, account) /\
    s' = mkADB (a_users s) (List.filter (fun b => negb (String.eqb (al_ID b) aliasID && String.eqb (al_TenantID b) t)) (a_aliases s))
           (a_queue s ++ [fresh_row now queueID t aliasSyncOpRemove account email]).
Proof.
  intros Hwf. unfold delete_tx. destruct (List.find _ _) as [al|] eqn:Ef; [|intros [= <- <- <- <- <-]; by left].
  apply find_elem in Ef as [Hin Hal]. breflect. destruct (wf_owner _ Hwf al Hin) as (acct & Hu & Hne). unfold user_account. cbn [a_users].
  rewrite Hu. replace (String.eqb (al_TenantID al) t) with true by (symmetry; by apply String.eqb_eq). unfold from_option, Datatypes.id.
  apply String.eqb_neq in Hne as ->. unfold enqueueAliasSyncTx. destruct (_ || _) eqn:Ev; [done|]. cbn. intros [= <- <- <- <- <-].
  right. exists al. split_and!; try done. congruence.
Qed.

Lemma key_snoc q r k : wanted (q ++ [r]) k <-> if bool_decide (key r = k) then q_op r = aliasSyncOpAdd else wanted q k.
Proof. unfold wanted. rewrite last_for_snoc. destruct (bool_decide _); naive_solver. Qed.

Lemma logged_create now aliasID queueID t u alias s a account id s' :
  queueID ∉ (q_id <$> a_queue s) -> aliasID ∉ (al_ID <$> a_aliases s) -> logged s ->
  create_tx true now aliasID queueID t u alias s = Ok (a, account, id, s') -> logged s'.
Proof.
  intros Hq Hal [Hwf Hlog] (-> & -> & Hu & Hne & Halias & ->)%create_tx_ok. split.
  - destruct Hwf as [H1 H2 H3 H4 H5]. split; cbn; rewrite ?fmap_app; try (by apply NoDup_append).
    + intros al [Hin| ->%list_elem_of_singleton]%elem_of_app; [by apply H4|]. by exists account.
    + intros r [Hin| ->%list_elem_of_singleton]%elem_of_app; [by apply H5|]. by left.
  - intros [t' [a' e']]. cbn [a_queue]. rewrite key_snoc. unfold key at 1. cbn. case_bool_decide as Hk; unfold listed; cbn.
    + injection Hk as <- <- <-. split; [done|]. intros _. eexists. split; [apply elem_of_app; right; left|done].
    + rewrite <- (Hlog (t', (a', e'))). unfold listed. cbn. split.
      * intros (al & [Hin| ->%list_elem_of_singleton]%elem_of_app & H1 & H2 & H3); [by exists al|]. cbn in *. simplify_eq.
      * intros (al & Hin & Hrest). exists al. split; [apply elem_of_app; by left|done].
Qed.

Lemma logged_delete now queueID t aliasID s email account id found s' :
  queueID ∉ (q_id <$> a_queue s) -> logged s -> delete_tx true now queueID t aliasID s = Ok (email, account, id, found, s') -> logged s'.
Proof.
  intros Hq [Hwf Hlog] H. apply delete_tx_ok in H as [[_ ->]|(al & Hin & Hid & Ht & -> & _ & -> & Hu & ->)]; [done| |done].
  assert (forall b, b ∈ List.filter (fun b => negb (String.eqb (al_ID b) aliasID && String.eqb (al_TenantID b) t)) (a_aliases s) <-> b ∈ a_aliases s /\ b <> al) as Hf.
  { intros b. rewrite elem_of_filterb. split; intros [Hb Hb2]; (split; [done|]).
    - intros ->. by rewrite Hid, Ht, !String.eqb_refl in Hb2.
    - apply negb_true_iff, not_true_iff_false. intros Hx. breflect. apply Hb2. eapply (NoDup_proj_eq al_ID); [by apply wf_alias_ids|done|done|congruence]. }
  set (rest := List.filter _ _) in *. split.
  - destruct Hwf as [H1 H2 H3 H4 H5]. 
    split; cbn; rewrite ?fmap_app; [by apply NoDup_append|by apply NoDup_fmap_filterb|by apply NoDup_fmap_filterb| |].
    + intros b [Hb _]%Hf. by apply H4.
    + intros r [Hr| ->%list_elem_of_singleton]%elem_of_app; [by apply H5|]. by right.
  - intros [t' [a' e']]. cbn [a_queue]. rewrite key_snoc. unfold key at 1. cbn. case_bool_decide as Hk; unfold listed; cbn.
    + injection Hk as <- <- <-. split; [|done]. intros (b & [Hb Hne]%Hf & _ & H2 & _). destruct Hne.
      eapply (NoDup_proj_eq AliasEmail); [by apply wf_emails|done..].
    + rewrite <- (Hlog (t', (a', e'))). unfold listed. cbn. split.
      * intros (b & [Hb _]%Hf & Hrest). by exists b.
      * intros (b & Hb & H1 & H2 & H3). exists b. split; [|done]. apply Hf. split; [done|]. intros Hx. subst b. apply Hk. rewrite Hu in H3. injection H3 as -> ->. by rewrite H2.
Qed.

Lemma logged_update p f s : same_intent f -> logged s -> logged (with_queue (update p f (a_queue s)) s).
Proof.
  intros Hf [[H1 H2 H3 H4 H5] Hlog]. assert (forall r, q_op (if p r then f r else r) = q_op r) as Hop by (intros r; destruct (p r); [apply Hf|done]).
  split.
  - split; cbn; try done; [rewrite (update_proj q_id p f); [done|apply Hf]|].
    intros r (y & Hy & ->)%elem_of_update. rewrite Hop. by apply H5.
  - intros k. change (listed s k <-> wanted (update p f (a_queue s)) k). rewrite Hlog. unfold wanted. rewrite last_for_update by done.
    destruct (last_for k (a_queue s)) as [r|]; cbn; [|by split; intros (x & Hx & _)].
    split; intros (x & [= <-] & Hx); (eexists; split; [reflexivity|]); [by rewrite Hop|by rewrite Hop in Hx].
Qed.

(** A settlement leaves the tables, or writes to the pending row of the task;
    only a successful push makes it [synced]. *)
Definition settles (tk : task) (s s' : adb) : Prop :=
  s' = s \/ exists f, same_intent f /\ (forall r, q_status (f r) = aliasSyncStatusSynced -> q_status r = aliasSyncStatusSynced \/ t_outcome tk = Some (Some None)) /\
    s' = with_queue (update (is_pending (q_id (t_row tk))) f (a_queue s)) s.

Lemma exec_cases d f s : (exec d f s).2 = s \/ (exec d f s).2 = f s.
Proof. unfold exec. destruct d; cbn; auto. Qed.

Lemma settle_settles d now tk s : settles tk s (settle d now tk s).
Proof.
  unfold settle. destruct (t_outcome tk) as [o|] eqn:Eo; [|by left].
  destruct (t_inline tk), o as [[msg|]|]; unfold settle_worker; try by left.
  all: try destruct (AliasSyncMaxAttempts <=? _).
  all: unfold markAliasSyncSynced, recordAliasSyncFailure, markAliasSyncFailed.
  all: lazymatch goal with |- settles _ _ (exec ?d ?f ?s).2 => destruct (exec_cases d f s) as [-> | ->] end; [by left|right].
  all: eexists; split; [apply same_intent_set_row|split; [|reflexivity]]; intros r; cbn; auto; discriminate.
Qed.

Lemma claim_settles now s r s' : claim_tx now s = Ok (r, s') ->
  match r with
  | None => s' = s
  | Some row => row ∈ a_queue s /\ q_status row = aliasSyncStatusPending /\ exists f, same_intent f /\ (forall r, q_status (f r) = q_status r) /\
      s' = with_queue (update (fun x => String.eqb (q_id x) (q_id row)) f (a_queue s)) s
  end.
Proof.
  unfold claim_tx. pose proof (least_spec q_nextRetryAt (List.filter (due now) (a_queue s))) as Hl.
  destruct (least _ _) as [row|]; intros [= <- <-]; [|done]. destruct Hl as [[Hin Hd]%elem_of_filterb _]. unfold due in Hd. breflect.
  split; [done|]. split; [done|]. eexists. split; [apply same_intent_set_row|]. by split.
Qed.

Section runs.
Context {W : Type} `{AS : AliasSync W}.
Implicit Types s : asys (W := W).

(** Preserved by a transaction that commits, whatever is lost of its answer. *)
Lemma BeginFunc_db {A} (P : adb -> Prop) d (body : adb -> result terror (A * adb)) db r db' :
  P db -> (forall a x, body db = Ok (a, x) -> P x) -> BeginFunc ErrStore d body db = (r, db') -> P db'.
Proof. intros H0 Hb E. pose proof (BeginFunc_ind P ErrStore d body db H0 Hb) as H. by rewrite E in H. Qed.

Lemma logged_step s s' : logged (s_db s) -> astep s s' -> logged (s_db s').
Proof.
  intros Hl. destruct 1; cbn.
  - eapply BeginFunc_db; [exact Hl| |exact H1]. intros [[a account] id] x Hx. by eapply logged_create.
  - eapply BeginFunc_db; [exact Hl| |exact H0]. intros [[[email account] id] found] x Hx. by eapply logged_delete.
  - eapply BeginFunc_db; [exact Hl| |exact H]. intros row x Hx%claim_settles. destruct row as [row|]; [|by subst x].
    destruct Hx as (_ & _ & f & Hf & _ & ->). by apply logged_update.
  - done.
  - destruct (settle_settles d now tk (s_db s)) as [-> |(f & Hf & _ & ->)]; [done|by apply logged_update].
  - done.
  - destruct Hl as [[H1 H2 H3 H4 H5] Hlog]. split.
    + split; cbn; try done. intros al Hal. destruct (H4 al Hal) as (a & Ha & Hne). exists a. split; [|done]. rewrite lookup_insert_ne; [done|congruence].
    + intros k. rewrite <- Hlog. unfold listed. cbn. split; intros (al & Hal & Hr1 & Hr2 & Hr3); exists al; split_and!; try done.
      * destruct (H4 al Hal) as (a & Ha & _). rewrite lookup_insert_ne in Hr3; [done|congruence].
      * rewrite lookup_insert_ne; [done|congruence].
Qed.

Lemma logged_run s0 s : logged (s_db s0) -> areach s0 s -> logged (s_db s).
Proof. intros Hl Hr. induction Hr as [|s0 s1 s2 Hs _ IH]; [done|]. apply IH. by eapply logged_step. Qed.
Lemma logged_empty db : a_aliases db = [] -> a_queue db = [] -> logged db.
Proof.
  intros Ha Hq. split.
  - split; rewrite ?Ha, ?Hq; cbn; try apply NoDup_nil_2; set_solver.
  - intros k. unfold listed, wanted. rewrite Ha, Hq. split; [intros (al & Hal & _); set_solver|by intros (r & Hr & _)].
Qed.

(** The alias table and the queue of intents never part.  For every
    interleaving of alias changes, inline pushes and workers of any number of
    pods, with lost answers and crashes anywhere, an address is listed for an
    account in the table if and only if the last intent queued for it is an
    add: no change commits without its intent and no intent without its
    change. *)
Theorem intents_replay_to_table s0 s k :
  a_aliases (s_db s0) = [] -> a_queue (s_db s0) = [] -> areach s0 s -> listed (s_db s) k <-> wanted (a_queue (s_db s)) k.
Proof. intros Ha Hq Hr. destruct (logged_run s0 s (logged_empty _ Ha Hq) Hr) as [_ Hlog]. apply Hlog. Qed.
End runs.

(** ** Agreement with the mail server *)
Section agreement.
Context {W : Type} `{AL : AliasSyncLaws W}.
Implicit Types s : asys (W := W).

(** Every intent for [k] is carried out and no push for it is under way. *)
Definition quiet s (k : string * slot) : Prop :=
  (forall r, r ∈ a_queue (s_db s) -> key r = k -> q_status r = aliasSyncStatusSynced) /\ forall tk, tk ∈ s_tasks s -> key (t_row tk) <> k.
(** A step that changes an address, in normal form, only while it is quiet. *)
Definition ostep s s' : Prop :=
  astep s s' /\ forall r, a_queue (s_db s') = a_queue (s_db s) ++ [r] -> normal (q_tenant r) (q_account r, q_email r) /\ quiet s (key r).

Definition agrees (k : string * slot) (r : qrow) (w : W) : Prop := holds k.1 k.2 w <-> q_op r = aliasSyncOpAdd.
Definition succeeded (k : string * slot) (ts : list task) : Prop := exists tk, tk ∈ ts /\ key (t_row tk) = k /\ t_outcome tk = Some (Some None).

Definition normal_key (k : string * slot) : Prop := normal k.1 k.2.
Record aligned (q : list qrow) (w : W) (ts : list task) : Prop := {
  al_normal : forall r, r ∈ q -> normal_key (key r);
  al_tasks : forall tk, tk ∈ ts -> exists r, last_for (key (t_row tk)) q = Some r /\ q_id r = q_id (t_row tk) /\ q_op r = q_op (t_row tk);
  al_open : forall r, r ∈ q -> q_status r <> aliasSyncStatusSynced -> last_for (key r) q = Some r;
  al_done : forall k r, normal_key k -> last_for k q = Some r -> q_status r = aliasSyncStatusSynced \/ succeeded k ts -> agrees k r w;
  al_none : forall k, normal_key k -> last_for k q = None -> ~ holds k.1 k.2 w;
}.

Lemma aligned_fewer q w ts ts' : ts' ⊆ ts -> aligned q w ts -> aligned q w ts'.
Proof.
  intros Hsub [H0 H1 H2 H3 H4]. split; [done|auto|done| |done]. intros k r Hk Hr Hd. apply H3; [done|done|]. destruct Hd as [?|(tk & Htk & Hrest)]; [by left|right].
  exists tk. auto.
Qed.

(** A new intent. *)
Lemma aligned_append q w ts r0 ts' :
  (forall r, r ∈ q -> key r = key r0 -> q_status r = aliasSyncStatusSynced) -> (forall tk, tk ∈ ts -> key (t_row tk) <> key r0) ->
  normal_key (key r0) -> q_status r0 = aliasSyncStatusPending -> ts' = [] \/ (exists b, ts' = [mkTask r0 b None]) ->
  aligned q w ts -> aligned (q ++ [r0]) w (ts ++ ts').
Proof.
  intros Hq Ht Hn Hp Hts [H0 H1 H2 H3 H4].
  assert (forall k, k <> key r0 -> last_for k (q ++ [r0]) = last_for k q) as Hother by (intros k Hk; rewrite last_for_snoc, bool_decide_false; congruence).
  assert (last_for (key r0) (q ++ [r0]) = Some r0) as Hown by (by rewrite last_for_snoc, bool_decide_true).
  assert (forall tk, tk ∈ ts' -> t_row tk = r0 /\ t_outcome tk = None) as Hnew by (destruct Hts as [-> |[b ->]]; set_solver).
  split.
  - intros r [Hr| ->%list_elem_of_singleton]%elem_of_app; [auto|done].
  - intros tk [Htk|Htk]%elem_of_app; [rewrite Hother by auto; auto|]. destruct (Hnew tk Htk) as [-> _]. by exists r0.
  - intros r [Hr| ->%list_elem_of_singleton]%elem_of_app Hs; [|done]. rewrite Hother; [auto|]. intros Hk. by apply Hs, Hq.
  - intros k r Hnk Hr Hd. destruct (decide (k = key r0)) as [-> |Hk].
    + rewrite Hown in Hr. injection Hr as <-. destruct Hd as [Hd|(tk & [Htk|Htk]%elem_of_app & Hkey & Ho)]; [by rewrite Hp in Hd|by destruct (Ht tk Htk)|].
      destruct (Hnew tk Htk) as [_ Ho']. congruence.
    + rewrite Hother in Hr by done. apply H3; [done|done|]. destruct Hd as [Hd|(tk & [Htk|Htk]%elem_of_app & Hkey & Ho)]; [by left|right; by exists tk|].
      destruct (Hnew tk Htk) as [_ Ho']. congruence.
  - intros k Hnk Hk. destruct (decide (k = key r0)) as [-> |Hne]; [congruence|]. apply H4; [done|]. by rewrite <- Hother.
Qed.

(** A write to a row. *)
Lemma aligned_update q w ts p f : same_intent f -> aligned q w ts ->
  (forall r, r ∈ q -> p r = true -> q_status (f r) <> aliasSyncStatusSynced -> q_status r <> aliasSyncStatusSynced) ->
  (forall r, r ∈ q -> p r = true -> q_status (f r) = aliasSyncStatusSynced -> q_status r = aliasSyncStatusSynced \/ succeeded (key r) ts) ->
  aligned (update p f q) w ts.
Proof.
  intros Hf [H0 H1 H2 H3 H4] Hback Hsync.
  assert (forall r, key (if p r then f r else r) = key r /\ q_op (if p r then f r else r) = q_op r /\ q_id (if p r then f r else r) = q_id r) as Hg.
  { intros r. destruct (p r); [|done]. by destruct (Hf r) as (-> & -> & ->). }
  split.
  - intros r (y & Hy & ->)%elem_of_update. destruct (Hg y) as (-> & _). auto.
  - intros tk Htk. destruct (H1 tk Htk) as (r & Hr & Hid & Hop). rewrite last_for_update, Hr by done. eexists. split; [reflexivity|].
    destruct (Hg r) as (_ & -> & ->). done.
  - intros r (y & Hy & ->)%elem_of_update Hs. destruct (Hg y) as (-> & _ & _). rewrite last_for_update by done. rewrite (H2 y Hy); [done|].
    destruct (p y) eqn:Ep; [by apply Hback|done].
  - intros k r Hnk. rewrite last_for_update by done. destruct (last_for k q) as [y|] eqn:Ey; cbn; [|done]. intros [= <-] Hd.
    pose proof (last_for_elem _ _ _ Ey) as [Hin Hk]. unfold agrees. destruct (Hg y) as (_ & -> & _). apply H3; [done|done|].
    destruct Hd as [Hd|Hd]; [|by right]. destruct (p y) eqn:Ep; [|by left]. rewrite <- Hk. by apply Hsync.
  - intros k Hnk. rewrite last_for_update by done. destruct (last_for k q) eqn:Ey; [done|]. auto.
Qed.

(** The push of a valid operation decides its slot, or may leave it as it was
    if it fails, and no other slot. *)
Lemma push_effect r w o w' : normal_key (key r) -> q_op r = aliasSyncOpAdd \/ q_op r = aliasSyncOpRemove ->
  push (q_op r) (q_tenant r) (q_account r) (q_email r) w = (o, w') ->
  (o = Some None -> agrees (key r) r w') /\
  (agrees (key r) r w' \/ (holds (key r).1 (key r).2 w' <-> holds (key r).1 (key r).2 w)) /\
  forall k, normal_key k -> k <> key r -> holds k.1 k.2 w' <-> holds k.1 k.2 w.
Proof.
  unfold push, agrees. intros Hn [Hop|Hop]; rewrite Hop; cbn [String.eqb].
  - change (String.eqb aliasSyncOpAdd aliasSyncOpAdd) with true. cbn iota.
    destruct (AddAlias _ _ _ w) as [e v] eqn:E. intros [= <- <-]. pose proof (law_add _ _ _ _ _ _ Hn E) as H1.
    split_and!; [intros [= ->]; split; done|destruct e; [|by left; split]; destruct H1; [left; by split|by right]|].
    intros [t k] Hnk Hk. pose proof (law_add_frame (q_tenant r) (q_account r) (q_email r) w t k Hn Hnk Hk) as H2. by rewrite E in H2.
  - change (String.eqb aliasSyncOpRemove aliasSyncOpAdd) with false. change (String.eqb aliasSyncOpRemove aliasSyncOpRemove) with true. cbn iota.
    destruct (RemoveAlias _ _ _ w) as [e v] eqn:E. intros [= <- <-]. pose proof (law_remove _ _ _ _ _ _ Hn E) as H1.
    split_and!; [intros [= ->]; split; done|destruct e; [|by left; split]; destruct H1; [left; by split|by right]|].
    intros [t k] Hnk Hk. pose proof (law_remove_frame (q_tenant r) (q_account r) (q_email r) w t k Hn Hnk Hk) as H2. by rewrite E in H2.
Qed.

Lemma aligned_push q w ts i tk o w' : (forall r, r ∈ q -> q_op r = aliasSyncOpAdd \/ q_op r = aliasSyncOpRemove) ->
  ts !! i = Some tk -> push (q_op (t_row tk)) (q_tenant (t_row tk)) (q_account (t_row tk)) (q_email (t_row tk)) w = (o, w') ->
  aligned q w ts -> aligned q w' (<[i := mkTask (t_row tk) (t_inline tk) (Some o)]> ts).
Proof.
  intros Hops Hi Hp [H0 H1 H2 H3 H4]. assert (tk ∈ ts) as Htk by (by eapply list_elem_of_lookup_2). destruct (H1 tk Htk) as (r & Hr & Hid & Hop).
  pose proof (last_for_elem _ _ _ Hr) as [Hin Hkr].
  destruct (push_effect (t_row tk) w o w' ltac:(rewrite <- Hkr; auto) ltac:(rewrite <- Hop; by apply Hops) Hp) as (Hok & Herr & Hframe). unfold agrees in Hok, Herr. rewrite <- Hop in Hok, Herr.
  assert (forall x, x ∈ <[i := mkTask (t_row tk) (t_inline tk) (Some o)]> ts -> x = mkTask (t_row tk) (t_inline tk) (Some o) \/ x ∈ ts) as Hel.
  { intros x (j & Hj)%list_elem_of_lookup. destruct (decide (i = j)) as [<-|Hij].
    - rewrite list_lookup_insert_eq in Hj by (by eapply lookup_lt_Some). left. congruence.
    - rewrite list_lookup_insert_ne in Hj by done. right. by eapply list_elem_of_lookup_2. }
  split; [done| |done| |].
  - intros x [-> |Hx]%Hel; [by exists r|auto].
  - intros k y Hnk Hy Hd. destruct (decide (k = key (t_row tk))) as [-> |Hk].
    + rewrite Hr in Hy. injection Hy as <-. unfold agrees. assert (o = Some None \/ agrees (key (t_row tk)) r w) as [->|Hw].
      { destruct Hd as [Hd|(x & [-> |Hx]%Hel & Hkey & Ho)]; [right; apply H3; [done|done|by left]|left; cbn in Ho; congruence|].
        right. apply H3; [done|done|right; by exists x]. }
      * by apply Hok.
      * destruct Herr as [Herr|Herr]; [done|]. by rewrite Herr.
    + unfold agrees. rewrite Hframe by done. apply H3; [done|done|]. destruct Hd as [Hd|(x & [-> |Hx]%Hel & Hkey & Ho)]; [by left|by cbn in Hkey|right; by exists x].
  - intros k Hnk Hk. rewrite Hframe; [auto|done|]. intros ->. congruence.
Qed.

Definition aligned_sys s : Prop := logged (s_db s) /\ aligned (a_queue (s_db s)) (s_world s) (s_tasks s).

Lemma BeginFunc_cases {A} d (body : adb -> result terror (A * adb)) db r db' : BeginFunc ErrStore d body db = (r, db') ->
  (db' = db /\ exists e, r = Err e) \/ exists a, body db = Ok (a, db') /\ (r = Ok a \/ exists e, r = Err e).
Proof. unfold BeginFunc. destruct d, (body db) as [[a x]|e] eqn:E; intros [= <- <-]; eauto 10. Qed.

(** The row a settlement writes is the last of its slot. *)
Lemma settle_row q w ts tk r : NoDup (q_id <$> q) -> aligned q w ts -> tk ∈ ts -> r ∈ q -> is_pending (q_id (t_row tk)) r = true -> key (t_row tk) = key r.
Proof.
  intros Hnd Ha Htk Hr Hp. unfold is_pending in Hp. breflect. destruct (al_tasks _ _ _ Ha tk Htk) as (y & Hy & Hid & _).
  apply last_for_elem in Hy as [Hin <-]. f_equal. eapply (NoDup_proj_eq q_id); [done|done|done|congruence].
Qed.

Lemma aligned_settle s i tk d now : aligned_sys s -> s_tasks s !! i = Some tk ->
  aligned (a_queue (settle d now tk (s_db s))) (s_world s) (delete i (s_tasks s)).
Proof.
  intros [[Hwf Hl] Ha] Hi. assert (tk ∈ s_tasks s) as Htk by (by eapply list_elem_of_lookup_2).
  eapply aligned_fewer; [intros x; apply list_elem_of_delete_inv|]. destruct (settle_settles d now tk (s_db s)) as [-> |(f & Hf & Hs & ->)]; [done|]. cbn.
  apply aligned_update; [done|done| |].
  - intros r _ Hp _. apply andb_prop in Hp as [_ Hp]. apply String.eqb_eq in Hp. rewrite Hp. discriminate.
  - intros r Hr Hp Hst. destruct (Hs r Hst) as [?|Ho]; [by left|right]. exists tk. split_and!; [done| |done].
    by eapply settle_row; [apply wf_ids|..].
Qed.

Lemma aligned_claim s d now r db ts : aligned_sys s -> BeginFunc ErrStore d (claim_tx now) (s_db s) = (r, db) ->
  ts = match r with Ok (Some row) => [mkTask row false None] | _ => [] end -> aligned (a_queue db) (s_world s) (s_tasks s ++ ts).
Proof.
  intros [[Hwf Hl] Ha] Hb Hts. apply BeginFunc_cases in Hb as [[-> [e ->]]|(row & Hc%claim_settles & Hr)]; [subst ts; by rewrite app_nil_r|].
  destruct row as [row|]; [|subst db; destruct Hr as [-> |[e ->]]; subst ts; by rewrite app_nil_r].
  destruct Hc as (Hin & Hp & f & Hf & Hst & ->). cbn. apply aligned_update; [done| |intros x _ _; by rewrite Hst|intros x _ _; rewrite Hst; by left].
  assert (ts = [] \/ ts = [mkTask row false None]) as [-> | ->] by (destruct Hr as [-> |[e ->]]; subst ts; auto); [by rewrite app_nil_r|].
  destruct Ha as [H0 H1 H2 H3 H4]. assert (last_for (key row) (a_queue (s_db s)) = Some row) as Hlast by (apply H2; [done|by rewrite Hp]).
  split; [done| |done| |done].
  - intros tk [Htk| ->%list_elem_of_singleton]%elem_of_app; [auto|by exists row].
  - intros k x Hnk Hx Hd. apply H3; [done|done|]. destruct Hd as [?|(tk & [Htk| ->%list_elem_of_singleton]%elem_of_app & Hk & Ho)]; [by left|right; by exists tk|done].
Qed.

Lemma aligned_change s (r0 : qrow) db ts : aligned_sys s -> normal_key (key r0) /\ quiet s (key r0) -> a_queue db = a_queue (s_db s) ++ [r0] ->
  q_status r0 = aliasSyncStatusPending -> ts = [] \/ (exists b, ts = [mkTask r0 b None]) -> aligned (a_queue db) (s_world s) (s_tasks s ++ ts).
Proof. intros [_ Ha] [Hn [Hq1 Hq2]] -> Hp Hts. by apply aligned_append. Qed.

Lemma ostep_aligned s s' : aligned_sys s -> ostep s s' -> aligned_sys s'.
Proof.
  intros Hs [Hstep Hq]. split; [eapply logged_step; [apply Hs|done]|]. destruct Hs as [Hl Ha]. assert (aligned_sys s) as Hs by done.
  destruct Hstep as [s d now aliasID queueID t u alias r db ts _ _ Hb Hts|s d now queueID t aliasID r db ts _ Hb Hts| | | | |]; cbn in *.
  - apply BeginFunc_cases in Hb as [[-> [e ->]]|([[a account] id] & Hc & Hr)]; [subst ts; by rewrite app_nil_r|].
    apply create_tx_ok in Hc as (-> & -> & _ & _ & _ & ->). eapply aligned_change; [done|by apply Hq|done|done|].
    destruct Hr as [-> |[e ->]]; subst ts; eauto.
  - apply BeginFunc_cases in Hb as [[-> [e ->]]|([[[email account] id] found] & Hc & Hr)]; [subst ts; by rewrite app_nil_r|].
    apply delete_tx_ok in Hc as [[-> ->]|(al & _ & _ & _ & -> & -> & -> & _ & ->)]; [|eapply aligned_change; [done|by apply Hq|done|done|]|apply Hl].
    + destruct Hr as [-> |[e ->]]; subst ts; by rewrite app_nil_r.
    + destruct Hr as [-> |[e ->]]; subst ts; [|by left]. destruct (String.eqb _ ""); eauto.
  - by eapply aligned_claim.
  - eapply aligned_push; [|done|done|done]. apply Hl.
  - by apply aligned_settle.
  - eapply aligned_fewer; [intros x; apply list_elem_of_delete_inv|done].
  - done.
Qed.

(** C5: Where changes wait for each other, the mail server agrees with the
    table.  For every interleaving in which an address is changed only while
    nothing is pending or under way for that address, with any failures,
    lost answers, crashes and retries: whenever all intents for an address
    are carried out and no push for it is under way, the server delivers mail
    for the address to the account if and only if the table lists it. *)
Theorem server_agrees_when_quiet s0 s k :
  a_aliases (s_db s0) = [] -> a_queue (s_db s0) = [] -> s_tasks s0 = [] -> (forall t x, ~ holds t x (s_world s0)) ->
  rtc ostep s0 s -> normal k.1 k.2 -> quiet s k -> holds k.1 k.2 (s_world s) <-> listed (s_db s) k.
Proof.
  intros Ha Hq Ht Hw Hr Hnk Hquiet. assert (aligned_sys s0) as H0.
  { split; [by apply logged_empty|]. rewrite Hq, Ht. split; [set_solver|set_solver|set_solver|done|auto]. }
  assert (aligned_sys s) as [[_ Hlog] Hal].
  { clear -H0 Hr. induction Hr as [|s0 s1 s2 Hs _ IH]; [done|]. apply IH. by eapply ostep_aligned. }
  rewrite Hlog. unfold wanted. destruct (last_for k (a_queue (s_db s))) as [r|] eqn:Er.
  - destruct (last_for_elem _ _ _ Er) as [Hin Hk]. pose proof (al_done _ _ _ Hal k r Hnk Er (or_introl (proj1 Hquiet r Hin Hk))) as Hag.
    unfold agrees in Hag. rewrite Hag. split; [intros Hop; by exists r|]. by intros (r' & [= ->] & Hop).
  - pose proof (al_none _ _ _ Hal k Hnk Er). split; [done|]. by intros (r & ? & _).
Qed.
End agreement.

(** ** Calls are runs *)
Section calls.
Context {W : Type} `{AS : AliasSync W} (ParseAddress : string -> option string).

Lemma delete_last {A} (l : list A) x : delete (length l) (l ++ [x]) = l.
Proof. rewrite delete_take_drop, take_app_length, (drop_ge (l ++ [x])) by (rewrite length_app; cbn; lia). apply app_nil_r. Qed.
Lemma insert_last {A} (l : list A) x y : <[length l := y]> (l ++ [x]) = l ++ [y].
Proof. rewrite insert_app_r_alt by done. by rewrite Nat.sub_diag. Qed.

(** From a push to be made to its settlement. *)
Lemma push_settle_run db (w : W) ts row inline o w' d now : push (q_op row) (q_tenant row) (q_account row) (q_email row) w = (o, w') ->
  areach (mkASys db w (ts ++ [mkTask row inline None])) (mkASys (settle d now (mkTask row inline (Some o)) db) w' ts).
Proof.
  intros Hp. eapply rtc_l.
  { eapply (A_push (mkASys db w (ts ++ [mkTask row inline None])) (length ts)); [cbn; by rewrite lookup_app_r, Nat.sub_diag|done|exact Hp]. }
  cbn. rewrite insert_last. apply rtc_once.
  pose proof (A_settle (mkASys db w' (ts ++ [mkTask row inline (Some o)])) (length ts) (mkTask row inline (Some o)) d now) as H. cbn in H.
  rewrite delete_last in H. apply H; [by rewrite lookup_app_r, Nat.sub_diag|done].
Qed.

Lemma inline_run E db (w : W) ts now t id op account email db' w' : id <> ""%string -> op = aliasSyncOpAdd \/ op = aliasSyncOpRemove ->
  attemptAliasSyncInline true E t id op account email db w = (db', w') ->
  areach (mkASys db w (ts ++ [mkTask (fresh_row now id t op account email) true None])) (mkASys db' w' ts).
Proof.
  intros Hid Hop. unfold attemptAliasSyncInline. apply String.eqb_neq in Hid as ->. cbn [negb orb].
  destruct (push op t account email w) as [o v] eqn:Ep.
  pose proof (push_settle_run db w ts (fresh_row now id t op account email) true o v (c_d' E) (c_now' E) Ep) as H. unfold settle in H. cbn in H.
  destruct o as [[msg|]|]; by intros [= <- <-].
Qed.

(** Creating an alias. *)
Lemma create_run E t u email db (w : W) ts r db' w' : c_queueID E <> ""%string -> c_queueID E ∉ (q_id <$> a_queue db) -> c_aliasID E ∉ (al_ID <$> a_aliases db) ->
  CreateAlias ParseAddress true E true t u email db w = (r, db', w') -> areach (mkASys db w ts) (mkASys db' w' ts).
Proof.
  intros Hid Hq Ha. unfold CreateAlias. destruct (_ || _); [intros [= _ <- <-]; apply rtc_refl|].
  destruct (normalizeAliasEmail _ email) as [alias|]; [|intros [= _ <- <-]; apply rtc_refl]. cbn [negb].
  destruct (BeginFunc _ _ _ db) as [x db1] eqn:Eb.
  pose proof (A_create (mkASys db w ts) (c_d E) (c_now E) (c_aliasID E) (c_queueID E) t u alias x db1 _ Hq Ha Eb eq_refl) as Hstep. cbn in Hstep.
  destruct x as [[[a account] id]|e]; [|rewrite app_nil_r in Hstep; destruct e; intros [= _ <- <-]; by apply rtc_once].
  destruct (attemptAliasSyncInline _ _ _ _ _ _ _ db1 w) as [db2 w2] eqn:Ei. intros [= _ <- <-].
  assert (exists s, create_tx true (c_now E) (c_aliasID E) (c_queueID E) t u alias db = Ok (a, account, id, s)) as [s Hc].
  { revert Eb. unfold BeginFunc. destruct (c_d E), (create_tx _ _ _ _ _ _ _ db) as [[x s]|]; naive_solver. }
  apply create_tx_ok in Hc as (-> & -> & _). eapply rtc_l; [exact Hstep|]. eapply inline_run; [exact Hid|by left|exact Ei].
Qed.

(** One iteration of the worker. *)
Lemma process_run E db (w : W) ts r db' w' : processNext E db w = (r, db', w') -> areach (mkASys db w ts) (mkASys db' w' ts).
Proof.
  unfold processNext. destruct (BeginFunc _ _ _ db) as [x db1] eqn:Eb.
  pose proof (A_claim (mkASys db w ts) (w_d E) (w_now E) x db1 _ Eb eq_refl) as Hstep. cbn in Hstep.
  destruct x as [[row|]|e]; [|rewrite app_nil_r in Hstep; intros [= _ <- <-]; by apply rtc_once..].
  destruct (push _ _ _ _ w) as [o v] eqn:Ep. destruct (settle_worker _ _ row o db1) as [e db2] eqn:Es. intros [= _ <- <-].
  eapply rtc_l; [exact Hstep|]. pose proof (push_settle_run db1 w ts row false o v (w_d' E) (w_now' E) Ep) as H. unfold settle in H. cbn in H.
  by rewrite Es in H.
Qed.

(** Deleting one. *)
Lemma delete_run E t aliasID db (w : W) ts r db' w' : wf db -> c_queueID E <> ""%string -> c_queueID E ∉ (q_id <$> a_queue db) ->
  DeleteAlias true E true t aliasID db w = (r, db', w') -> areach (mkASys db w ts) (mkASys db' w' ts).
Proof.
  intros Hwf Hid Hq. unfold DeleteAlias. destruct (_ || _); [intros [= _ <- <-]; apply rtc_refl|].
  destruct (BeginFunc _ _ _ db) as [x db1] eqn:Eb.
  pose proof (A_delete (mkASys db w ts) (c_d E) (c_now E) (c_queueID E) t aliasID x db1 _ Hq Eb eq_refl) as Hstep. cbn in Hstep.
  destruct x as [[[[email account] id] found]|e]; [|rewrite app_nil_r in Hstep; intros [= _ <- <-]; by apply rtc_once].
  destruct found; cbn [negb]; [|rewrite app_nil_r in Hstep; intros [= _ <- <-]; by apply rtc_once].
  destruct (attemptAliasSyncInline _ _ _ _ _ _ _ db1 w) as [db2 w2] eqn:Ei. intros [= _ <- <-].
  assert (exists s, delete_tx true (c_now E) (c_queueID E) t aliasID db = Ok (email, account, id, true, s)) as [s Hc].
  { revert Eb. unfold BeginFunc. destruct (c_d E), (delete_tx _ _ _ _ _ db) as [[x s]|]; naive_solver. }
  apply delete_tx_ok in Hc as [[? _]|(al & _ & _ & _ & -> & _ & -> & _)]; [done| |done]. apply String.eqb_neq in Hid as Hid'. rewrite Hid' in Hstep.
  eapply rtc_l; [exact Hstep|]. eapply inline_run; [exact Hid|by right|exact Ei].
Qed.
End calls.

(** ** A tick *)
Section drain.
Context {W : Type} `{AS : AliasSync W}.
(** The mail server is back. *)
Hypothesis Hadd : forall t a e (w : W), (AddAlias t a e w).1 = None.
Hypothesis Hremove : forall t a e (w : W), (RemoveAlias t a e w).1 = None.

Definition row_synced (id : string) (q : list qrow) : Prop := exists r, r ∈ q /\ q_id r = id /\ q_status r = aliasSyncStatusSynced.

Lemma due_later now now' r : now <= now' -> due now r = true -> due now' r = true.
Proof. unfold due. intros Hle Hd. breflect. apply andb_true_intro. split; [by apply String.eqb_eq|lia]. Qed.

(** An iteration finds nothing due, or carries out one row and leaves the
    others. *)
Lemma process_drains E db (w : W) r db' w' : w_d E = Delivered -> w_d' E = Delivered ->
  NoDup (q_id <$> a_queue db) -> (forall x, x ∈ a_queue db -> q_op x = aliasSyncOpAdd \/ q_op x = aliasSyncOpRemove) ->
  processNext E db w = (r, db', w') ->
  (r = Ok false /\ db' = db /\ forall x, x ∈ a_queue db -> due (w_now E) x = false) \/
  (r = Ok true /\ exists row f, row ∈ a_queue db /\ due (w_now E) row = true /\ same_intent f /\
     q_status (f row) = aliasSyncStatusSynced /\ db' = with_queue (update (fun x => String.eqb (q_id x) (q_id row)) f (a_queue db)) db).
Proof.
  intros Hd Hd' Hnd Hops. unfold processNext, claim_tx, BeginFunc. rewrite Hd.
  pose proof (least_spec q_nextRetryAt (List.filter (due (w_now E)) (a_queue db))) as Hl.
  destruct (least _ _) as [row|].
  2:{ intros [= <- <- <-]. left. split_and!; [done|done|]. intros x Hx. apply not_true_iff_false. intros Hdue.
      assert (x ∈ List.filter (due (w_now E)) (a_queue db)) as Hin by (by apply elem_of_filterb). rewrite Hl in Hin. set_solver. }
  destruct Hl as [[Hin Hdue]%elem_of_filterb _].
  assert (exists v, push (q_op row) (q_tenant row) (q_account row) (q_email row) w = (Some None, v)) as [v ->].
  { unfold push. pose proof (Hadd (q_tenant row) (q_account row) (q_email row) w). pose proof (Hremove (q_tenant row) (q_account row) (q_email row) w).
    destruct (AddAlias _ _ _ w) as [e1 v1], (RemoveAlias _ _ _ w) as [e2 v2]. cbn in *. subst e1 e2.
    destruct (Hops row Hin) as [-> | ->]; cbn; eauto. }
  unfold settle_worker, markAliasSyncSynced, exec. rewrite Hd'. cbn. intros [= <- <- <-]. right. split; [done|].
  eexists row, (fun x => set_row aliasSyncStatusSynced "" (q_attempts x) (w_now E + nextAliasSyncBackoff AliasSyncMaxAttempts / Second * Second) (Some (w_now' E)) x).
  split_and!; [done|done|apply same_intent_set_row|done|]. unfold with_queue. cbn. f_equal. unfold update. rewrite <- list_fmap_compose.
  apply list_fmap_ext. intros i x Hx%list_elem_of_lookup_2. cbn. destruct (String.eqb (q_id x) (q_id row)) eqn:Eid.
  - assert (x = row) as -> by (breflect; by eapply (NoDup_proj_eq q_id)). unfold is_pending, due in *. cbn. rewrite String.eqb_refl.
    apply andb_prop in Hdue as [-> _]. done.
  - unfold is_pending. rewrite Eid. done.
Qed.

Definition healthy (now now' : Z) (E : worker_env) : Prop := w_d E = Delivered /\ w_d' E = Delivered /\ now <= w_now E <= now'.

Lemma loop_drains ls now now' id : Forall (healthy now now') ls -> forall db (w : W) db' w',
  (tally (due now') (a_queue db) < length ls)%nat -> NoDup (q_id <$> a_queue db) ->
  (forall x, x ∈ a_queue db -> q_op x = aliasSyncOpAdd \/ q_op x = aliasSyncOpRemove) ->
  (exists x, x ∈ a_queue db /\ q_id x = id /\ due now x = true) \/ row_synced id (a_queue db) ->
  tickLoop ls db w = (db', w') -> row_synced id (a_queue db').
Proof.
  induction 1 as [|E ls (Hd & Hd' & Hlo & Hhi) _ IH]; intros db w db' w' Hn Hnd Hops Hst Ht; [cbn in Hn; lia|].
  cbn in Ht. destruct (processNext E db w) as [[x db1] w1] eqn:Ep.
  destruct (process_drains _ _ _ _ _ _ Hd Hd' Hnd Hops Ep) as [(-> & -> & Hnone)|(-> & row & f & Hin & Hdue & Hf & Hs & ->)].
  - injection Ht as <- <-. destruct Hst as [(y & Hy & _ & Hyd)|?]; [|done]. specialize (Hnone y Hy).
    rewrite (due_later now (w_now E) y) in Hnone; [done|lia|done].
  - assert (forall y, y ∈ a_queue db -> String.eqb (q_id y) (q_id row) = true -> y = row) as Hone.
    { intros y Hy Hyr. breflect. by eapply (NoDup_proj_eq q_id). }
    eapply IH; [| | | |exact Ht]; cbn [a_queue with_queue].
    + eapply Nat.lt_le_trans; [|apply Nat.lt_succ_r, Hn].
      rewrite (update_ext_elem _ _ (fun _ => f row)) by (intros y Hy Hyr; by rewrite (Hone y Hy Hyr)).
      eapply tally_update_lt; [|exact Hin|by rewrite String.eqb_refl|by eapply due_later].
      intros y Hy. unfold due. by rewrite Hs.
    + rewrite (update_proj q_id); [done|]. intros y. apply Hf.
    + intros y (z & Hz & ->)%elem_of_update. destruct (String.eqb _ _); [|by apply Hops]. destruct (Hf z) as (_ & -> & _). by apply Hops.
    + destruct (decide (q_id row = id)) as [<-|Hne].
      * right. exists (f row). split; [apply elem_of_update; exists row; split; [done|by rewrite String.eqb_refl]|]. split; [apply Hf|done].
      * destruct Hst as [(y & Hy & Hid & Hyd)|(y & Hy & Hid & Hys)]; [left|right]; exists y; (split; [apply elem_of_update; exists y; split; [done|]|done]);
          destruct (String.eqb _ _) eqn:Eq; breflect; congruence.
Qed.

(** When the mail server answers again and the database does, a tick with
    more iterations than rows become due by its end carries out every row due
    at its start. *)
Theorem tick_drains cap Es now now' db (w : W) db' w' r :
  Forall (healthy now now') Es -> NoDup (q_id <$> a_queue db) ->
  (forall x, x ∈ a_queue db -> q_op x = aliasSyncOpAdd \/ q_op x = aliasSyncOpRemove) ->
  (tally (due now') (a_queue db) < length (capped cap Es))%nat ->
  tick cap Es db w = (db', w') -> r ∈ a_queue db -> due now r = true -> row_synced (q_id r) (a_queue db').
Proof.
  intros Hes Hnd Hops Hn Ht Hr Hdue. eapply loop_drains; [|exact Hn|done|done|left; by exists r|exact Ht].
  unfold capped. destruct (_ <=? _); [done|by apply Forall_take].
Qed.
End drain.

(** ** Examples *)
Module AliasExamples.
(** *** A server with one account and room for one more alias *)
Definition sales : stalwartEmailAlias := mkEmailAlias true "sales" "d1" None.
Definition info : stalwartEmailAlias := mkEmailAlias true "info" "d1" None.
Definition ann (w : bool) : stalwartAccount :=
  mkAccount "p1" "ann" "ann@acme.example" (if w then <["1"%string := info]> {["0"%string := sales]} else {["0"%string := sales]}).
#[local] Instance alias_eq_dec : EqDecision stalwartEmailAlias.
Proof. solve_decision. Defined.
#[local] Instance patch_eq_dec : EqDecision patch.
Proof. solve_decision. Defined.

Definition reply (a : rargs) : option sresponse := Some (mkSResponse 200 true (Some [Some ("ok"%string, a)])).
Definition here : string := "https://s1/jmap".
Definition server (ep : string) (c : call) (w : bool) : option sresponse * bool :=
  if negb (String.eqb ep here) then (None, w)
  else match c with
  | AccountGet ids => (reply (mkArgs (Some (if existsb (String.eqb "p1") ids then [ann w] else [])) None None), w)
  | AccountQuery _ => (reply (mkArgs None (Some []) None), w)
  | DomainQuery d => (reply (mkArgs None (Some (if String.eqb d "acme.example" then ["d1"%string] else [])) None), w)
  | AccountSet id p =>
      if String.eqb id "p1" && bool_decide (p = SetAlias "1" info) then (reply (mkArgs None None (Some ([id], []))), true)
      else if String.eqb id "p1" && bool_decide (p = DropAlias "1") then (reply (mkArgs None None (Some ([id], []))), false)
      else (reply (mkArgs None None (Some ([], [id]))), w)
  end.

#[local] Instance server_laws : StalwartLaws server.
Proof.
  refine {| accounts ep w := if String.eqb ep here then {["p1"%string := ann w]} else ∅ |}.
  - intros ep c w Hc ep'. unfold server. destruct (String.eqb ep here); [|done]. destruct c; try done. by destruct (Hc id p).
  - intros ep ids w a l x. unfold server. destruct (String.eqb ep here); cbn; [|done]. intros [= <-] [= <-].
    destruct (existsb _ ids); [intros ->%list_elem_of_singleton; by destruct w|set_solver].
  - intros ep id p w. unfold server. destruct (String.eqb ep here) eqn:Eep; cbn; [|by split; [left|]].
    destruct (String.eqb id "p1") eqn:Eid; cbn; [|split; [by left|]; intros a u n [= <-] [= <- <-]; set_solver].
    apply String.eqb_eq in Eid as ->. 
    case_bool_decide as Hp; [subst p; cbn; rewrite ?Eep; split; [right|intros _ _ _ _ _ _]; exists (ann w); by destruct w|].
    case_bool_decide as Hp'; [subst p; cbn; rewrite ?Eep; split; [right|intros _ _ _ _ _ _]; exists (ann w); by destruct w|].
    cbn. rewrite ?Eep. split; [by left|]. intros a u n [= <-] [= <- <-]. set_solver.
  - intros ep id p w ep' Hne. unfold server. destruct (String.eqb ep here) eqn:Eep; cbn; [|done]. apply String.eqb_eq in Eep as ->.
    apply String.eqb_neq in Hne. by rewrite Hne.
Defined.

Definition shard (t : string) (w : bool) : option string := if String.eqb t "t1" then Some "https://s1/"%string else None.
Definition order (m : gmap string stalwartEmailAlias) : list (string * stalwartEmailAlias) := map_to_list m.
Abbreviation sync := (syncAlias server shard order true "t1" "p1").

Example pushes : sync "info@acme.example" true false = (Ok tt, true) /\ sync "INFO@acme.example" true true = (Ok tt, true) /\
  sync "info@acme.example" false true = (Ok tt, false) /\ (sync "x@other.example" true false).1 = Err (SNotFound "other.example").
Proof. vm_compute. done. Qed.

Lemma server_small w : small server w.
Proof. intros ep id x. cbn. destruct (String.eqb ep here); [|done]. intros [_ <-]%lookup_singleton_Some. destruct w; vm_compute; reflexivity. Qed.

Lemma alias_push_exact_witness :
  (forall ep, accounts (exchange := server) ep true = accounts ep false) /\
  (Ok tt = Ok tt :> result serror unit -> exists url id l d x, (locate server shard "t1" "p1" "info@acme.example" false).1 = Ok (url, id, l, d) /\
     accounts (endpoint url) false !! id = Some x /\ (carries l d (Aliases x) <-> true = true))
  \/
  exists url id l d x y, (locate server shard "t1" "p1" "info@acme.example" false).1 = Ok (url, id, l, d) /\ edited true l d x y /\
    accounts (endpoint url) false !! id = Some x /\ accounts (endpoint url) true = <[id := y]> (accounts (endpoint url) false) /\
    forall ep, ep <> endpoint url -> accounts ep true = accounts ep false.
Proof.
  apply (alias_push_exact server shard order (fun m => reflexivity (map_to_list m)) true "t1" "p1" "info@acme.example" true false (Ok tt) true
    (server_small false)). vm_compute. reflexivity.
Defined.

(** The laws of the interface hold for this server. *)
Definition one_slot (t : string) (k : slot) : Prop := t = "t1"%string /\ k = ("p1", "info@acme.example")%string.
Definition place (t : string) (k : slot) : option (string * string * string * string) := Some ("https://s1/", "p1", "info", "d1")%string.
Abbreviation as_sync := (http_sync server shard order (fun _ _ => true) (fun _ => "refused"%string)).

Lemma server_sync : @AliasSyncLaws bool as_sync.
Proof.
  apply (http_sync_laws server shard order (fun m => reflexivity (map_to_list m)) one_slot place (fun _ _ => true) (fun _ => "refused"%string) server_small).
  - intros t a e w r w' [-> [= -> ->]]. destruct w; vm_compute; by intros [= <- <-].
  - intros t k t' k' url id l d url' l' [-> ->] [-> ->] _ _ _ _. done.
  - intros ep w id x i j a b. cbn. destruct (String.eqb ep here); [|done]. intros [_ <-]%lookup_singleton_Some. destruct w; cbn.
    + rewrite !lookup_insert_Some, !lookup_singleton_Some. intros [[<- <-]|[_ [<- <-]]] [[<- <-]|[_ [<- <-]]]; vm_compute; done.
    + rewrite !lookup_singleton_Some. by intros [<- <-] [<- <-].
Defined.

(** *** A server of slots, and the fates of the calls to come *)
Definition plan : Type := list delivery * gset (string * slot).
Definition next_call (f : gset (string * slot) -> gset (string * slot)) (w : plan) : option string * plan :=
  match w.1 with
  | RequestLost :: ds => (Some "down"%string, (ds, w.2))
  | ReplyLost :: ds => (Some "timeout"%string, (ds, f w.2))
  | Delivered :: ds => (None, (ds, f w.2))
  | [] => (None, ([], f w.2))
  end.
#[local] Instance slots_sync : AliasSync plan := {|
  AddAlias t a e := next_call (fun h => {[(t, (a, e))]} ∪ h);
  RemoveAlias t a e := next_call (fun h => h ∖ {[(t, (a, e))]});
|}.
#[local] Instance slots_laws : AliasSyncLaws plan.
Proof.
  refine {| normal _ _ := True; holds t k w := (t, k) ∈ w.2 |}; unfold AddAlias, RemoveAlias, slots_sync, next_call.
  - intros t a e [[|[] ds] h] r w' _; cbn; intros [= <- <-]; cbn; set_solver.
  - intros t a e [[|[] ds] h] r w' _; cbn; intros [= <- <-]; cbn; set_solver.
  - intros t a e [[|[] ds] h] t' k _ _ Hne; cbn; set_solver.
  - intros t a e [[|[] ds] h] t' k _ _ Hne; cbn; set_solver.
Defined.

Definition env (q : string) : call_env := mkCallEnv Delivered 0 "al1" q Delivered 0.
Definition parse (s : string) : option string := Some s.
Definition users0 : adb := mkADB {["u1"%string := ("t1", "p1")%string]} [] [].
Definition k1 : string * slot := ("t1", ("p1", "info@acme.example"))%string.

(** The server is down while an alias is created, up again when it is deleted:
    the worker then carries out the old add. *)
Definition story : adb * plan :=
  let '(_, db, w) := CreateAlias parse true (env "q1") true "t1" "u1" "info@acme.example" users0 ([RequestLost], ∅) in
  let '(_, db, w) := DeleteAlias true (env "q2") true "t1" "al1" db w in
  tick DefaultAliasSyncBatchCap (replicate 3 (mkWorkerEnv Delivered (31 * Second) Delivered (31 * Second))) db w.

Theorem retried_add_outlives_delete : a_aliases story.1 = [] /\ q_status <$> a_queue story.1 = ["synced"; "synced"]%string /\ k1 ∈ story.2.2.
Proof. split_and!; [vm_compute; reflexivity..|]. apply (bool_decide_eq_true_1 (k1 ∈ story.2.2)). vm_compute. reflexivity. Qed.

(** *** Runs *)
Definition w0 : plan := ([], ∅).
Definition call1 : result terror Alias * adb * plan := CreateAlias parse true (env "q1") true "t1" "u1" "info@acme.example" users0 w0.
Definition created : adb := call1.1.2.
Definition pushed_to : plan := call1.2.
Lemma call1_parts : call1 = (call1.1.1, created, pushed_to).
Proof. unfold created, pushed_to. by destruct call1 as [[? ?] ?]. Qed.

Lemma intents_replay_to_table_witness : listed created k1 <-> wanted (a_queue created) k1.
Proof.
  apply (intents_replay_to_table (mkASys users0 w0 []) (mkASys created pushed_to []) k1); [reflexivity|reflexivity|].
  refine (create_run parse (env "q1") "t1" "u1" "info@acme.example" users0 w0 [] call1.1.1 created pushed_to _ _ _ call1_parts);
    [discriminate|set_solver|set_solver].
Defined.

Definition row1 : qrow := fresh_row 0 "q1" "t1" aliasSyncOpAdd "p1" "info@acme.example".
Definition after_tx : adb := mkADB (a_users users0) [mkAlias "al1" "t1" "u1" "info@acme.example" 0 0] [row1].
Definition orderly_1 : asys := mkASys after_tx w0 [mkTask row1 true None].
Definition orderly_2 : asys := mkASys after_tx pushed_to [mkTask row1 true (Some (Some None))].
Definition orderly_3 : asys := mkASys created pushed_to [].

Lemma orderly_run : rtc ostep (mkASys users0 w0 []) orderly_3.
Proof.
  eapply rtc_l; [|eapply rtc_l; [|apply rtc_once]].
  - instantiate (1 := orderly_1). split.
    + apply (A_create (mkASys users0 w0 []) Delivered 0 "al1" "q1" "t1" "u1" "info@acme.example"
        (Ok (mkAlias "al1" "t1" "u1" "info@acme.example" 0 0, "p1", "q1")%string) after_tx [mkTask row1 true None]); [set_solver|set_solver|reflexivity|reflexivity].
    + intros r _. split; [exact I|]. split; [set_solver|set_solver].
  - instantiate (1 := orderly_2). split; [|intros r Hr; by apply (f_equal length) in Hr].
    apply (A_push orderly_1 0 (mkTask row1 true None)); reflexivity.
  - split; [|intros r Hr; by apply (f_equal length) in Hr].
    apply (A_settle orderly_2 0 (mkTask row1 true (Some (Some None))) Delivered 0); [reflexivity|discriminate].
Qed.

Lemma server_agrees_when_quiet_witness : holds k1.1 k1.2 pushed_to <-> listed created k1.
Proof.
  apply (server_agrees_when_quiet (mkASys users0 w0 []) orderly_3 k1); [reflexivity|reflexivity|reflexivity|set_solver|exact orderly_run|exact I|].
  split; [|set_solver]. intros r Hr _. vm_compute in Hr. apply list_elem_of_singleton in Hr as ->. reflexivity.
Defined.
End AliasExamples.
