(* ===== verification/Shards.v ===== *)
(** * Shards ([internal/tenant/shard.go], [autoprovision.go],
      [exec_provisioner.go], [shard_handlers.go])

    Which mail server a tenant lives on: the table of shards with their
    counters, the assignments, the caches in front of them, health probes and
    the provisioning of new shards.  The statements of [AssignTenantToShard]
    run at the isolation level READ COMMITTED: its two reads see what is
    committed then, its writes take effect together ([assign_commit]), and
    [sstep] interleaves them with those of other calls.  Rows are in order of
    insertion; identifiers are canonical texts of UUIDs, whose order is that
    of their bytes.  The quotients of float64 are a parameter. *)

From S2P Require Import Prelude Text Table Breaker JmapProxy.

Local Open Scope Z_scope.
Local Open Scope go_scope.

Definition ShardStatusActive : string := "active".
Definition ShardStatusDraining : string := "draining".
Definition ShardStatusOffline : string := "offline".
Definition shardCacheTTL : Z := 5 * Minute.

Record Shard := mkShard {
  ID : string; Name : string; StalwartURL : string; PostgresDSN : string; MaxMailboxes : Z; CurrentMailboxes : Z; Status : string;
  HealthCheckedAt : Z; CreatedAt : Z; UpdatedAt : Z;
}.
Record TenantShardAssignment := mkAssignment { TenantID : string; ShardID : string; AssignedAt : Z }.
(** A row of [shard_failover_config]. *)
Record failover_row := mkFailover { f_shard : string; f_backup : string; f_priority : Z }.

Record sdb := mkSDB { shards_ : list Shard; assigned : list TenantShardAssignment; backups : list failover_row; tenants : gset string }.
Definition with_shards (l : list Shard) (s : sdb) : sdb := mkSDB l (assigned s) (backups s) (tenants s).
Definition with_assigned (l : list TenantShardAssignment) (s : sdb) : sdb := mkSDB (shards_ s) l (backups s) (tenants s).

Inductive serr := ErrRequired | ErrNoCapacity | ErrStore | ErrNoProvisioner | ErrProvision.

(** The constraints of [stalwart_shards]. *)
Definition fits_int (z : Z) : bool := (0 <=? z) && (z <? 2 ^ 31).
Definition known_status (st : string) : bool := existsb (String.eqb st) [ShardStatusActive; ShardStatusDraining; ShardStatusOffline].
Definition has_id (id : string) (sh : Shard) : bool := String.eqb (ID sh) id.
Definition of_tenant (t : string) (a : TenantShardAssignment) : bool := String.eqb (TenantID a) t.

(** One statement outside a transaction. *)
Definition exec {A} (d : delivery) (f : sdb -> result serr (A * sdb)) : sdb -> result serr A * sdb := BeginFunc ErrStore d f.
Definition query {A} (d : delivery) (f : sdb -> result serr A) (s : sdb) : result serr A := (exec d (fun s => let? a := f s in Ok (a, s)) s).1.

Definition RegisterShard (d : delivery) (pool : bool) (now : Z) (id : string) (shard : Shard) (s : sdb) : result serr Shard * sdb :=
  if String.eqb (Name shard) "" || String.eqb (StalwartURL shard) "" then (Err ErrRequired, s)
  else
    let max := if MaxMailboxes shard <=? 0 then 10000 else MaxMailboxes shard in
    let status := if String.eqb (Status shard) "" then ShardStatusActive else Status shard in
    let out := mkShard (ID shard) (Name shard) (StalwartURL shard) (PostgresDSN shard) max (CurrentMailboxes shard) status
                 (HealthCheckedAt shard) (CreatedAt shard) (UpdatedAt shard) in
    let named i := mkShard i (Name out) (StalwartURL out) (PostgresDSN out) max (CurrentMailboxes out) status (HealthCheckedAt out) now now in
    if negb pool then (Ok (named "stub"), s)
    else exec d (fun s =>
      if existsb (fun sh => String.eqb (Name sh) (Name out)) (shards_ s) || negb (fits_int max) || negb (known_status status) then Err ErrStore
      else Ok (named id, with_shards (shards_ s ++ [mkShard id (Name out) (StalwartURL out) (PostgresDSN out) max 0 status 0 now now]) s)) s%string.

Definition GetShard (d : delivery) (pool : bool) (shardID : string) (s : sdb) : result serr Shard :=
  if negb pool then Err ErrNoCapacity
  else query d (fun s => match List.find (has_id shardID) (shards_ s) with Some sh => Ok sh | None => Err ErrStore end) s.

(** [byName], [byID]: the orders of the rows. *)
Definition ListShards (byName : list Shard -> list Shard) (d : delivery) (pool : bool) (s : sdb) : result serr (list Shard) :=
  if negb pool then Ok [] else query d (fun s => Ok (byName (shards_ s))) s.
Definition ListShardIDs (d : delivery) (pool : bool) (s : sdb) : result serr (list string) :=
  if negb pool then Ok [] else query d (fun s => Ok (sort_strings (ID <$> shards_ s))) s.
Definition ListTenantsOnShard (d : delivery) (pool : bool) (shardID : string) (s : sdb) : result serr (list string) :=
  if negb pool then Ok []
  else query d (fun s => Ok (TenantID <$> List.filter (fun a => String.eqb (ShardID a) shardID) (assigned s))) s.

Definition set_shard (name url : string) (max cur : Z) (status : string) (checked : Z) (updated : Z) (sh : Shard) : Shard :=
  mkShard (ID sh) name url (PostgresDSN sh) max cur status checked (CreatedAt sh) updated.
Definition nonempty (new old : string) : string := if String.eqb new "" then old else new.

(** ** Caches *)
Class LRURemove (C : Type) := { lru_Remove : string -> C -> C }.
Class LRURemoveLaws (C : Type) `{!LRU C} `{!LRURemove C} : Prop := {
  lru_get_remove k c t k' x : (lru_Get t k' (lru_Remove k c)).1 = Some x -> k' <> k /\ (lru_Get t k' c).1 = Some x;
}.

Section service.
Context {C : Type} `{!LRU C} `{!LRURemove C}.
(** [cache] and [idCache] of one pod. *)
Record caches := mkCaches { urls : C; ids : C }.

Definition invalidate (tenantID : string) (c : caches) : caches := mkCaches (lru_Remove tenantID (urls c)) (lru_Remove tenantID (ids c)).

(** The fates of the update, of the listing and of the last read. *)
Definition UpdateShard (d1 d2 d3 : delivery) (pool : bool) (now : Z) (shardID : string) (input : Shard) (s : sdb) (c : caches) : result serr Shard * sdb * caches :=
  if negb pool then (Ok input, s, c)
  else
    let '(r, s) := exec d1 (fun s =>
      let f sh := set_shard (nonempty (Name input) (Name sh)) (nonempty (StalwartURL input) (StalwartURL sh))
                    (if 0 <? MaxMailboxes input then MaxMailboxes input else MaxMailboxes sh) (CurrentMailboxes sh) (nonempty (Status input) (Status sh))
                    (HealthCheckedAt sh) now sh in
      if existsb (fun sh => has_id shardID sh && (negb (fits_int (MaxMailboxes (f sh))) || negb (known_status (Status (f sh)))
           || existsb (fun o => negb (has_id shardID o) && String.eqb (Name o) (Name (f sh))) (shards_ s))) (shards_ s)
      then Err ErrStore else Ok (tt, with_shards (update (has_id shardID) f (shards_ s)) s)) s in
    match r with
    | Err e => (Err e, s, c)
    | Ok _ =>
        match ListTenantsOnShard d2 pool shardID s with
        | Err e => (Err e, s, c)
        | Ok l => (GetShard d3 pool shardID s, s, foldl (fun c t => invalidate t c) c l)
        end
    end.

Definition UpdateShardHealth (d : delivery) (pool : bool) (now : Z) (shardID : string) (healthy : bool) (s : sdb) : result serr unit * sdb :=
  if negb pool then (Ok tt, s)
  else
    let status := if healthy then ShardStatusActive else ShardStatusOffline in
    exec d (fun s => Ok (tt, with_shards (update (has_id shardID)
      (fun sh => set_shard (Name sh) (StalwartURL sh) (MaxMailboxes sh) (CurrentMailboxes sh)
         (if String.eqb (Status sh) ShardStatusDraining then ShardStatusDraining else status) now now sh) (shards_ s)) s)) s.

(** ** Assigning *)
(** [current_mailboxes::float / max_mailboxes], as a number of the same
    order. *)
Context (load : Z -> Z -> Z).

Definition has_room (sh : Shard) : bool := String.eqb (Status sh) ShardStatusActive && (CurrentMailboxes sh <? MaxMailboxes sh).
Definition rows_by_id (l : list Shard) : list Shard := omap (fun id => List.find (has_id id) l) (sort_strings (ID <$> l)).
Definition pick_shard (s : sdb) : option Shard :=
  least (fun sh => load (CurrentMailboxes sh) (MaxMailboxes sh)) (rows_by_id (List.filter has_room (shards_ s))).
Definition assigned_to (t : string) (s : sdb) : option string := ShardID <$> List.find (of_tenant t) (assigned s).

Definition upsert_assignment (now : Z) (t sid : string) (s : sdb) : result serr sdb :=
  if negb (bool_decide (t ∈ tenants s)) || negb (existsb (has_id sid) (shards_ s)) then Err ErrStore
  else Ok (with_assigned (if existsb (of_tenant t) (assigned s) then update (of_tenant t) (fun a => mkAssignment (TenantID a) sid now) (assigned s)
                          else assigned s ++ [mkAssignment t sid now]) s).
Definition bump (now delta : Z) (sh : Shard) : Shard :=
  set_shard (Name sh) (StalwartURL sh) (MaxMailboxes sh) (Z.max (CurrentMailboxes sh + delta) 0) (Status sh) (HealthCheckedAt sh) now sh.
Definition bump_shard (now delta : Z) (id : string) (s : sdb) : sdb := with_shards (update (has_id id) (bump now delta) (shards_ s)) s.

(** The writes, after the reads gave [old] ([""]: none) and [sid]. *)
Definition assign_commit (now : Z) (t old sid : string) (s : sdb) : result serr (TenantShardAssignment * sdb) :=
  let? s := upsert_assignment now t sid s in
  let s := if negb (String.eqb old "") && negb (String.eqb old sid) then bump_shard now (-1) old s else s in
  let s := if String.eqb old sid then s else bump_shard now 1 sid s in
  Ok (mkAssignment t sid now, s).

(** Without another call in between. *)
Definition AssignTenantToShard (d : delivery) (pool : bool) (now : Z) (tenantID : string) (s : sdb) (c : caches)
    : result serr TenantShardAssignment * sdb * caches :=
  if String.eqb tenantID "" then (Err ErrRequired, s, c)
  else if negb pool then (Ok (mkAssignment tenantID "stub" 0), s, c)
  else
    let '(r, s) := BeginFunc ErrStore d (fun s =>
      let old := default ""%string (assigned_to tenantID s) in
      match pick_shard s with None => Err ErrNoCapacity | Some sh => assign_commit now tenantID old (ID sh) s end) s in
    match r with Err e => (Err e, s, c) | Ok a => (Ok a, s, invalidate tenantID c) end.

Definition RebalanceShard (d : delivery) (pool : bool) (now : Z) (fromShardID toShardID tenantID : string) (s : sdb) (c : caches)
    : result serr TenantShardAssignment * sdb * caches :=
  if String.eqb tenantID "" || String.eqb toShardID "" then (Err ErrRequired, s, c)
  else if negb pool then (Ok (mkAssignment tenantID toShardID 0), s, c)
  else
    let '(r, s) := BeginFunc ErrStore d (fun s =>
      let? s := upsert_assignment now tenantID toShardID s in
      let s := if negb (String.eqb fromShardID "") then bump_shard now (-1) fromShardID s else s in
      Ok (mkAssignment tenantID toShardID now, bump_shard now 1 toShardID s)) s in
    match r with Err e => (Err e, s, c) | Ok a => (Ok a, s, invalidate tenantID c) end.

(** ** Lookups *)
(** [t1] is the clock of the lookup in the cache, [t2] that of the write. *)
Definition GetTenantShardID (d : delivery) (pool : bool) (t1 t2 : Z) (tenantID : string) (s : sdb) (c : caches) : result serr string * caches :=
  if String.eqb tenantID "" then (Err ErrRequired, c)
  else match lru_Get t1 tenantID (ids c) with
  | (Some id, i) => (Ok id, mkCaches (urls c) i)
  | (None, i) =>
      let c := mkCaches (urls c) i in
      if negb pool then (Err ErrNoCapacity, c)
      else match query d (fun s => match assigned_to tenantID s with Some id => Ok id | None => Err ErrNoCapacity end) s with
      | Err e => (Err e, c)
      | Ok id => (Ok id, mkCaches (urls c) (lru_Add t2 tenantID id (ids c)))
      end
  end.

Definition shard_url (t : string) (s : sdb) : option string :=
  match assigned_to t s with None => None | Some id => StalwartURL <$> List.find (has_id id) (shards_ s) end.
Definition GetTenantShard (d : delivery) (pool : bool) (t1 t2 : Z) (tenantID : string) (s : sdb) (c : caches) : result serr string * caches :=
  if String.eqb tenantID "" then (Err ErrRequired, c)
  else match lru_Get t1 tenantID (urls c) with
  | (Some url, u) => (Ok url, mkCaches u (ids c))
  | (None, u) =>
      let c := mkCaches u (ids c) in
      if negb pool then (Err ErrNoCapacity, c)
      else match query d (fun s => match shard_url tenantID s with Some u => Ok u | None => Err ErrNoCapacity end) s with
      | Err e => (Err e, c)
      | Ok url => (Ok url, mkCaches (lru_Add t2 tenantID url (urls c)) (ids c))
      end
  end.

(** [byPriority]: the order of priority and age. *)
Definition GetSecondaryShards (byPriority : list (failover_row * Shard) -> list (failover_row * Shard)) (d : delivery) (pool : bool) (tenantID : string) (s : sdb)
    : result serr (list string) :=
  if String.eqb tenantID "" then Err ErrRequired
  else if negb pool then Ok []
  else query d (fun s =>
    match assigned_to tenantID s with
    | None => Ok []
    | Some id =>
        Ok ((fun x => StalwartURL x.2) <$> byPriority (omap (fun f =>
          match List.find (has_id (f_backup f)) (shards_ s) with
          | Some b => if String.eqb (f_shard f) id && String.eqb (Status b) ShardStatusActive then Some (f, b) else None
          | None => None
          end) (backups s)))
    end) s.

(** ** Health *)
(** The status of an answer; [None]: no answer. *)
Definition probe (http_get : string -> option Z) (stalwartURL : string) : bool :=
  match http_get (stalwartURL +:+ "/healthz") with Some code => (200 <=? code) && (code <? 300) | None => false end.

Definition HealthCheck (byName : list Shard -> list Shard) (http_get : string -> option Z) (d : delivery) (fate : string -> delivery) (pool : bool) (now : Z) (s : sdb)
    : result serr unit * sdb :=
  match ListShards byName d pool s with
  | Err e => (Err e, s)
  | Ok l =>
      (Ok tt, foldl (fun s sh =>
         if String.eqb (Status sh) ShardStatusDraining then s
         else (UpdateShardHealth (fate (ID sh)) pool now (ID sh) (probe http_get (StalwartURL sh)) s).2) s l)
  end.
End service.
Arguments mkCaches {C}. Arguments urls {C}. Arguments ids {C}.

(** ** New shards ([autoprovision.go]) *)
Section autoprovision.
Context {F : Type} (fdiv : Z -> Z -> F) (fge : F -> F -> bool) (not_positive : F -> bool) (DefaultProvisionThreshold zero : F).

Definition counts (sh : Shard) : bool := String.eqb (Status sh) ShardStatusActive && (0 <? MaxMailboxes sh).
Definition sum (f : Shard -> Z) (l : list Shard) : Z := foldl (fun n sh => if counts sh then n + f sh else n) 0 l.

(** [None]: no active capacity. *)
Definition clusterUtilisation (l : list Shard) : option F :=
  if sum MaxMailboxes l =? 0 then None else Some (fdiv (sum CurrentMailboxes l) (sum MaxMailboxes l)).

Definition needsProvision (l : list Shard) (threshold : F) : bool :=
  match clusterUtilisation l with
  | None => true
  | Some frac => if negb (existsb has_room l) then true else fge frac threshold
  end.

Definition threshold_of (threshold : F) : F := if not_positive threshold then DefaultProvisionThreshold else threshold.

(** The name from the clock and four random bytes ([None]: no randomness). *)
Definition autoShardName (now : Z) (rand : option (list Z)) : string :=
  match rand with
  | None => "shard-auto-" +:+ pretty now
  | Some b => "shard-auto-" +:+ pretty (Unix now) +:+ "-" +:+ hex_encode b
  end.

(** What a call meets: fates of the two listings and of the insert, the lock
    ([None]: no connection or an error; [Some false]: another replica has it),
    clock, randomness, the id of the row. *)
Record prov_env := mkProvEnv { p_d1 : delivery; p_lock : option bool; p_d2 : delivery; p_d3 : delivery; p_now : Z; p_rand : option (list Z); p_id : string }.

(** [fn]'s result when the lock is there, else [skip]. *)
Definition withProvisionLock {A} (E : prov_env) (pool : bool) (skip : A) (fn : sdb -> result serr A * sdb) (s : sdb) : result serr A * sdb :=
  if negb pool then fn s
  else match p_lock E with None => (Err ErrStore, s) | Some false => (Ok skip, s) | Some true => fn s end.

Definition with_name (name : string) (sh : Shard) : Shard :=
  if String.eqb (Name sh) "" then
    mkShard (ID sh) name (StalwartURL sh) (PostgresDSN sh) (MaxMailboxes sh) (CurrentMailboxes sh) (Status sh) (HealthCheckedAt sh) (CreatedAt sh) (UpdatedAt sh)
  else sh.

(** [provisioner]: the infrastructure it stands up for a name; [None] inside:
    it fails. *)
Definition AutoProvisionShard (byName : list Shard -> list Shard) (provisioner : option (string -> option Shard)) (E : prov_env) (pool : bool) (threshold : F) (s : sdb)
    : result serr (option Shard) * sdb :=
  let threshold := threshold_of threshold in
  match ListShards byName (p_d1 E) pool s with
  | Err e => (Err e, s)
  | Ok l =>
      if negb (needsProvision l threshold) then (Ok None, s)
      else match provisioner with
      | None => (Err ErrNoProvisioner, s)
      | Some Provision =>
          withProvisionLock E pool None (fun s =>
            match ListShards byName (p_d2 E) pool s with
            | Err e => (Err e, s)
            | Ok l =>
                if negb (needsProvision l threshold) then (Ok None, s)
                else
                  let name := autoShardName (p_now E) (p_rand E) in
                  match Provision name with
                  | None => (Err ErrProvision, s)
                  | Some sh => let '(r, s) := RegisterShard (p_d3 E) pool (p_now E) (p_id E) (with_name name sh) s in (let? x := r in Ok (Some x), s)
                  end
            end) s
      end
  end.

(** What the command prints, decoded; [None]: no output or not an object. *)
Definition parseProvisionOutput (out : option (string * string * string * Z)) (name : string) : option Shard :=
  match out with
  | None => None
  | Some (n, url, dsn, max) => if String.eqb url "" then None else Some (mkShard "" (nonempty n name) url dsn max 0 "" 0 0 0)
  end.

Record ShardCapacity := mkCapacity { cap_ID : string; cap_Name : string; cap_Status : string; Mailboxes : Z; cap_Max : Z; Utilised : F }.
Record CapacityReport := mkReport {
  rep_Shards : list ShardCapacity; ActiveShards : Z; TotalMailboxes : Z; TotalCapacity : Z; ClusterUtilised : F; Threshold : F; NeedsProvisioning : bool;
}.
Definition CapacityReportWithThreshold (byName : list Shard -> list Shard) (d : delivery) (pool : bool) (threshold : F) (s : sdb) : result serr CapacityReport :=
  let threshold := threshold_of threshold in
  let? l := ListShards byName d pool s in
  let used := sum CurrentMailboxes l in
  let cap := sum MaxMailboxes l in
  Ok (mkReport
    ((fun sh => mkCapacity (ID sh) (Name sh) (Status sh) (CurrentMailboxes sh) (MaxMailboxes sh)
        (if 0 <? MaxMailboxes sh then fdiv (CurrentMailboxes sh) (MaxMailboxes sh) else zero)) <$> l)
    (sum (fun _ => 1) l) used cap (if 0 <? cap then fdiv used cap else zero) threshold (needsProvision l threshold)).
End autoprovision.

(** ** Handlers ([shard_handlers.go]) *)
Module ShardHandlers.
Inductive hresponse (F : Type) :=
| HError (status : Z)
| HShards (l : list Shard) | HReport (r : CapacityReport (F := F)) | HCreated (sh : Shard) | HShard (sh : Shard) (tenants : list string) | HUpdated (sh : Shard)
| HAssignment (a : TenantShardAssignment).
Arguments HError {F}. Arguments HShards {F}. Arguments HReport {F}. Arguments HCreated {F}. Arguments HShard {F}. Arguments HUpdated {F}. Arguments HAssignment {F}.

Section handlers.
Context {C : Type} `{!LRU C} `{!LRURemove C}.
Context {F : Type} (fdiv : Z -> Z -> F) (fge : F -> F -> bool) (not_positive : F -> bool) (dflt zero : F) (byName : list Shard -> list Shard).

Definition list_ (d : delivery) (pool : bool) (s : sdb) : hresponse F :=
  match ListShards byName d pool s with Err _ => HError 500 | Ok l => HShards l end.
Definition health (d : delivery) (pool : bool) (s : sdb) : hresponse F :=
  match CapacityReportWithThreshold fdiv fge not_positive dflt zero byName d pool zero s with Err _ => HError 500 | Ok r => HReport r end.
(** A body by what it decodes to. *)
Definition register (d : delivery) (pool : bool) (now : Z) (id : string) (body : option Shard) (s : sdb) : hresponse F * sdb :=
  match body with
  | None => (HError 400, s)
  | Some input => let '(r, s) := RegisterShard d pool now id input s in (match r with Err _ => HError 500 | Ok sh => HCreated sh end, s)
  end.
Definition get (d1 d2 : delivery) (pool : bool) (id : string) (s : sdb) : hresponse F :=
  match GetShard d1 pool id s with
  | Err _ => HError 404
  | Ok sh => match ListTenantsOnShard d2 pool (ID sh) s with Err _ => HError 500 | Ok l => HShard sh l end
  end.
Definition update_ (d1 d2 d3 : delivery) (pool : bool) (now : Z) (id : string) (body : option Shard) (s : sdb) (c : caches (C := C)) : hresponse F * sdb * caches :=
  match body with
  | None => (HError 400, s, c)
  | Some input =>
      let '(r, s, c) := UpdateShard d1 d2 d3 pool now id input s c in (match r with Err _ => HError 500 | Ok sh => HUpdated sh end, s, c)
  end.
Definition rebalance (d : delivery) (pool : bool) (now : Z) (id : string) (body : option (string * string)) (s : sdb) (c : caches (C := C)) : hresponse F * sdb * caches :=
  match body with
  | None => (HError 400, s, c)
  | Some (tenantID, fromShardID) =>
      if String.eqb tenantID "" then (HError 400, s, c)
      else let '(r, s, c) := RebalanceShard d pool now fromShardID id tenantID s c in (match r with Err _ => HError 500 | Ok a => HAssignment a end, s, c)
  end.
End handlers.
End ShardHandlers.

(** ** Interleavings *)
(** A call of [AssignTenantToShard] after none, one or both of its reads. *)
Inductive phase := PStart | PRead (old : string) | PPicked (old sid : string).
Record ssys := mkSSys { sys_db : sdb; calls : list (string * phase) }.

Section system.
Context (load : Z -> Z -> Z).

Definition read_old (t : string) (s : sdb) : string := default ""%string (assigned_to t s).

Inductive sevent :=
| EvAssign (t old sid : string)            (* a call commits *)
| EvRebalance (t from to : string)
| EvShard (id : string) (input : Shard)    (* [UpdateShard] *)
| EvOther.

Inductive sstep : ssys -> sevent -> ssys -> Prop :=
| S_begin s t : sstep s EvOther (mkSSys (sys_db s) (calls s ++ [(t, PStart)]))
| S_read s i t : calls s !! i = Some (t, PStart) ->
    sstep s EvOther (mkSSys (sys_db s) (<[i := (t, PRead (read_old t (sys_db s)))]> (calls s)))
| S_pick s i t old sh : calls s !! i = Some (t, PRead old) -> pick_shard load (sys_db s) = Some sh ->
    sstep s EvOther (mkSSys (sys_db s) (<[i := (t, PPicked old (ID sh))]> (calls s)))
| S_commit s i t old sid now a db : calls s !! i = Some (t, PPicked old sid) -> assign_commit now t old sid (sys_db s) = Ok (a, db) ->
    sstep s (EvAssign t old sid) (mkSSys db (delete i (calls s)))
| S_abort s i : sstep s EvOther (mkSSys (sys_db s) (delete i (calls s)))
| S_rebalance {C} `{!LRU C} `{!LRURemove C} s d now from to t c r db c' :
    RebalanceShard (C := C) d true now from to t (sys_db s) c = (r, db, c') -> sstep s (EvRebalance t from to) (mkSSys db (calls s))
| S_register s d now id sh r db : id ∉ ID <$> shards_ (sys_db s) -> id <> ""%string ->
    RegisterShard d true now id sh (sys_db s) = (r, db) -> sstep s EvOther (mkSSys db (calls s))
| S_update {C} `{!LRU C} `{!LRURemove C} s d1 d2 d3 now id input c r db c' :
    UpdateShard (C := C) d1 d2 d3 true now id input (sys_db s) c = (r, db, c') -> sstep s (EvShard id input) (mkSSys db (calls s))
| S_health s d now id healthy r db : UpdateShardHealth d true now id healthy (sys_db s) = (r, db) -> sstep s EvOther (mkSSys db (calls s))
| S_tenant s t : sstep s EvOther (mkSSys (mkSDB (shards_ (sys_db s)) (assigned (sys_db s)) (backups (sys_db s)) ({[t]} ∪ tenants (sys_db s))) (calls s)).
End system.

(** ** Counters *)
Definition on_shard (id : string) (s : sdb) : Z := Z.of_nat (tally (fun a => String.eqb (ShardID a) id) (assigned s)).

Record swf (s : sdb) : Prop := {
  swf_ids : NoDup (ID <$> shards_ s);
  swf_named : forall sh, sh ∈ shards_ s -> ID sh <> ""%string;
  swf_tenants : NoDup (TenantID <$> assigned s);
  swf_fk : forall a, a ∈ assigned s -> exists sh, sh ∈ shards_ s /\ ID sh = ShardID a;
}.
(** Each counter is the number of tenants of its shard. *)
Definition exact (s : sdb) : Prop := swf s /\ forall sh, sh ∈ shards_ s -> CurrentMailboxes sh = on_shard (ID sh) s.
Definition within (s : sdb) : Prop := forall sh, sh ∈ shards_ s -> CurrentMailboxes sh <= MaxMailboxes sh.

Definition ind (b : bool) : Z := if b then 1 else 0.

Lemma upsert_counts now t sid s s' id : swf s -> id <> ""%string -> upsert_assignment now t sid s = Ok s' ->
  on_shard id s' + ind (String.eqb (read_old t s) id) = on_shard id s + ind (String.eqb sid id).
Proof.
  intros Hwf Hid. unfold upsert_assignment. destruct (_ || _); [done|]. intros [= <-]. unfold on_shard, read_old, assigned_to, with_assigned. cbn [assigned].
  destruct (List.find (of_tenant t) (assigned s)) as [a|] eqn:Ef.
  - apply find_elem in Ef as [Hin Ht]. assert (existsb (of_tenant t) (assigned s) = true) as -> by (apply existsb_elem; eauto).
    apply list_elem_of_lookup in Hin as [i Hi]. rewrite (update_as_insert _ _ _ i a Hi Ht).
    + pose proof (tally_insert (fun a => String.eqb (ShardID a) id) (assigned s) i a (mkAssignment (TenantID a) sid now) Hi) as H. cbn in H.
      cbn. unfold ind, tally in *. destruct (String.eqb (ShardID a) id), (String.eqb sid id); lia.
    + intros j b Hj Hb. unfold of_tenant in *. breflect. eapply (NoDup_lookup (TenantID <$> assigned s)); [apply Hwf| |].
      * rewrite list_lookup_fmap, Hj. reflexivity.
      * rewrite list_lookup_fmap, Hi. cbn. congruence.
  - assert (existsb (of_tenant t) (assigned s) = false) as -> by (apply existsb_false, (find_none_elem _ _ Ef)).
    rewrite tally_app. change (default ""%string (ShardID <$> None)) with ""%string.
    apply not_eq_sym, String.eqb_neq in Hid. rewrite Hid. unfold tally at 2. cbn. destruct (String.eqb sid id); cbn; lia.
Qed.

Lemma upsert_swf now t sid s s' : swf s -> upsert_assignment now t sid s = Ok s' ->
  swf s' /\ shards_ s' = shards_ s /\ exists sh, sh ∈ shards_ s /\ ID sh = sid.
Proof.
  intros [H1 H2 H3 H4]. unfold upsert_assignment. destruct (_ || _) eqn:Ev; [done|]. intros [= <-]. breflect.
  apply existsb_elem in H0 as (sh & Hsh & Hid). unfold has_id in Hid. breflect. split_and!; [|done|by exists sh].
  split; cbn; [done|done| |].
  - destruct (existsb (of_tenant t) (assigned s)) eqn:Ee; [by rewrite update_proj|]. rewrite fmap_app. cbn. apply NoDup_app.
    split_and!; [done| |apply NoDup_singleton]. intros x Hx ->%list_elem_of_singleton. apply list_elem_of_fmap in Hx as (a & -> & Ha).
    rewrite existsb_false in Ee. specialize (Ee a Ha). unfold of_tenant in Ee. by rewrite String.eqb_refl in Ee.
  - intros a. destruct (existsb _ _).
    + intros (b & Hb & ->)%elem_of_update. destruct (of_tenant t b); [by exists sh|by apply H4].
    + intros [Ha| ->%list_elem_of_singleton]%elem_of_app; [by apply H4|by exists sh].
Qed.

Lemma bump_current now delta id s sh' : sh' ∈ shards_ (bump_shard now delta id s) -> exists sh, sh ∈ shards_ s /\ ID sh' = ID sh /\ MaxMailboxes sh' = MaxMailboxes sh /\
  CurrentMailboxes sh' = if String.eqb (ID sh) id then Z.max (CurrentMailboxes sh + delta) 0 else CurrentMailboxes sh.
Proof.
  intros (sh & Hsh & ->)%elem_of_update. exists sh. unfold has_id. by destruct (String.eqb (ID sh) id).
Qed.

Lemma bump_swf now delta id s : swf s -> swf (bump_shard now delta id s).
Proof.
  intros [H1 H2 H3 H4]. assert (ID <$> shards_ (bump_shard now delta id s) = ID <$> shards_ s) as Hid by (by apply update_proj).
  split; [by rewrite Hid| |done|].
  - intros sh' (sh & Hsh & -> & _)%bump_current. auto.
  - intros a Ha. destruct (H4 a Ha) as (sh & Hsh & <-). exists (if has_id id sh then bump now delta sh else sh).
    split; [apply elem_of_update; by exists sh|by destruct (has_id id sh)].
Qed.

(** The two counters a move touches. *)
Lemma move_exact now t old sid s s1 s2 s3 : exact s -> old = read_old t s -> upsert_assignment now t sid s = Ok s1 ->
  s2 = (if String.eqb old "" then s1 else bump_shard now (-1) old s1) -> s3 = bump_shard now 1 sid s2 -> old <> sid -> exact s3.
Proof.
  intros [Hwf Hex] -> Hu -> -> Hne. destruct (upsert_swf _ _ _ _ _ Hwf Hu) as (Hwf1 & Hsh1 & _).
  split; [apply bump_swf; destruct (String.eqb _ ""); [done|by apply bump_swf]|].
  intros sh3 (sh2 & Hsh2 & Hid2 & _ & Hcur2)%bump_current.
  assert (exists sh, sh ∈ shards_ s /\ ID sh2 = ID sh /\ CurrentMailboxes sh2 = CurrentMailboxes sh - ind (String.eqb (read_old t s) (ID sh))) as (sh & Hsh & Hid & Hcur).
  { destruct (String.eqb (read_old t s) "") eqn:E0.
    - exists sh2. rewrite <- Hsh1. split_and!; [done|done|]. breflect. rewrite E0.
      assert (String.eqb "" (ID sh2) = false) as ->; [|cbn; lia]. apply String.eqb_neq. intros H. symmetry in H. revert H. apply (swf_named _ Hwf1), Hsh2.
    - apply bump_current in Hsh2 as (sh & Hsh & Hid & _ & Hcur). exists sh. rewrite <- Hsh1. split_and!; [done|done|]. rewrite Hcur, (String.eqb_sym (ID sh)).
      destruct (String.eqb (read_old t s) (ID sh)) eqn:E; [|cbn; lia]. cbn. rewrite Hsh1 in Hsh. pose proof (Hex sh Hsh) as Hc.
      pose proof (upsert_counts now t sid s s1 (ID sh) Hwf (swf_named _ Hwf _ Hsh) Hu) as Hn. rewrite E in Hn.
      assert (String.eqb sid (ID sh) = false) as Hs by (breflect; apply String.eqb_neq; congruence). rewrite Hs in Hn.
      unfold on_shard in Hn, Hc. cbn in Hn. lia. }
  pose proof (upsert_counts now t sid s s1 (ID sh) Hwf (swf_named _ Hwf _ Hsh) Hu) as Hn. pose proof (Hex sh Hsh) as Hc.
  assert (on_shard (ID sh3) (bump_shard now 1 sid (if String.eqb (read_old t s) "" then s1 else bump_shard now (-1) (read_old t s) s1)) = on_shard (ID sh) s1) as ->.
  { rewrite Hid2, Hid. by destruct (String.eqb (read_old t s) ""). }
  rewrite Hcur2, Hid, Hcur, (String.eqb_sym (ID sh)). unfold ind in *. unfold on_shard in *.
  destruct (String.eqb sid (ID sh)), (String.eqb (read_old t s) (ID sh)); lia.
Qed.

Lemma commit_exact now t old sid s a s' : exact s -> old = read_old t s -> assign_commit now t old sid s = Ok (a, s') -> exact s'.
Proof.
  intros Hex Hold. unfold assign_commit. destruct (upsert_assignment now t sid s) as [s1|] eqn:Eu; [|done]. cbn. intros [= _ <-].
  destruct (String.eqb old sid) eqn:Es.
  - rewrite andb_false_r. destruct Hex as [Hwf Hex]. destruct (upsert_swf _ _ _ _ _ Hwf Eu) as (Hwf1 & Hsh1 & _). split; [done|].
    intros sh Hsh. rewrite Hsh1 in Hsh. rewrite (Hex sh Hsh).
    pose proof (upsert_counts now t sid s s1 (ID sh) Hwf (swf_named _ Hwf _ Hsh) Eu) as Hn. breflect. rewrite <- Hold, Es in Hn. lia.
  - eapply (move_exact now t old sid s s1); [done|done|done| |reflexivity|by apply String.eqb_neq].
    rewrite andb_true_r. by destruct (String.eqb old "").
Qed.

Lemma rewrite_exact p f s : (forall sh, ID (f sh) = ID sh /\ CurrentMailboxes (f sh) = CurrentMailboxes sh) -> exact s -> exact (with_shards (update p f (shards_ s)) s).
Proof.
  intros Hf [[H1 H2 H3 H4] Hex].
  assert (forall sh, ID (if p sh then f sh else sh) = ID sh /\ CurrentMailboxes (if p sh then f sh else sh) = CurrentMailboxes sh) as Hg.
  { intros sh. destruct (p sh); [apply Hf|done]. }
  split; [split; cbn|].
  - rewrite update_proj; [done|]. intros sh. apply Hf.
  - intros sh (y & Hy & ->)%elem_of_update. destruct (Hg y) as [-> _]. auto.
  - done.
  - intros a Ha. destruct (H4 a Ha) as (sh & Hsh & <-). exists (if p sh then f sh else sh). split; [apply elem_of_update; by exists sh|apply Hg].
  - intros sh (y & Hy & ->)%elem_of_update. destruct (Hg y) as [-> ->]. rewrite Hex by done. done.
Qed.

Lemma register_exact now id name url dsn max st s : id ∉ (ID <$> shards_ s) -> id <> ""%string -> exact s ->
  exact (with_shards (shards_ s ++ [mkShard id name url dsn max 0 st 0 now now]) s).
Proof.
  intros Hid Hne [[H1 H2 H3 H4] Hex]. split; [split; cbn|].
  - rewrite fmap_app. apply NoDup_append; [set_solver|done].
  - intros sh [Hsh| ->%list_elem_of_singleton]%elem_of_app; [auto|done].
  - done.
  - intros a Ha. destruct (H4 a Ha) as (sh & Hsh & Hs). exists sh. split; [apply elem_of_app; by left|done].
  - intros sh [Hsh| ->%list_elem_of_singleton]%elem_of_app; [by apply Hex|]. unfold on_shard. cbn [assigned with_shards ID CurrentMailboxes].
    rewrite tally_0; [done|]. intros a Ha. destruct (H4 a Ha) as (sh & Hsh & Hs). apply String.eqb_neq. intros Hx. apply Hid. rewrite <- Hx, <- Hs.
    by apply list_elem_of_fmap_2.
Qed.

(** The events of a run that keep to what they read: an assignment commits
    while the tenant is where it was read, a rebalance names the tenant's own
    shard. *)
Definition consistent (s : ssys) (e : sevent) : Prop :=
  match e with
  | EvAssign t old sid => old = read_old t (sys_db s)
  | EvRebalance t from to => from = read_old t (sys_db s) /\ from <> to
  | _ => True
  end.

Lemma exec_exact {A} d (f : sdb -> result serr (A * sdb)) s : exact s -> (forall a s', f s = Ok (a, s') -> exact s') -> exact (exec d f s).2.
Proof. apply BeginFunc_ind. Qed.

Section counters.
Context (load : Z -> Z -> Z).

Lemma update_exact {C} `{!LRU C} `{!LRURemove C} d1 d2 d3 now id input s (c : caches) r s' c' : exact s ->
  UpdateShard (C := C) d1 d2 d3 true now id input s c = (r, s', c') -> exact s'.
Proof.
  intros Hex. unfold UpdateShard. cbn [negb]. destruct (exec d1 _ s) as [x s1] eqn:Ee.
  assert (exact s1) as H1.
  { change s1 with (x, s1).2. rewrite <- Ee. apply exec_exact; [done|]. intros [] s2. destruct (existsb _ _); [done|]. intros [= <-].
    apply rewrite_exact; [by intros|done]. }
  destruct x as [x|e]; [|by intros [= _ <- _]]. destruct (ListTenantsOnShard _ _ _ s1); by intros [= _ <- _].
Qed.

Lemma rebalance_exact {C} `{!LRU C} `{!LRURemove C} d now from to t s (c : caches) r s' c' : exact s -> from = read_old t s -> from <> to ->
  RebalanceShard (C := C) d true now from to t s c = (r, s', c') -> exact s'.
Proof.
  intros Hex Hf Hne. unfold RebalanceShard. destruct (_ || _); [by intros [= _ <- _]|]. cbn [negb].
  destruct (BeginFunc _ _ _ s) as [x s1] eqn:Eb. assert (exact s1) as H1.
  { change s1 with (x, s1).2. rewrite <- Eb. apply BeginFunc_ind; [done|]. intros a s2. destruct (upsert_assignment now t to s) as [s3|] eqn:Eu; [|done]. cbn.
    intros [= _ <-]. eapply (move_exact now t from to s s3); [done|done|done| |reflexivity|done]. by destruct (String.eqb from ""). }
  destruct x; by intros [= _ <- _].
Qed.

Lemma sstep_exact s e s' : exact (sys_db s) -> consistent s e -> sstep load s e s' -> exact (sys_db s').
Proof.
  intros Hex Hc Hs. destruct Hs; cbn [sys_db consistent] in *; try done.
  - by eapply commit_exact.
  - destruct Hc. by eapply rebalance_exact.
  - unfold RegisterShard in *. destruct (_ || _) in H1; [by simplify_eq|]. cbn [negb] in H1. change db with (r, db).2. rewrite <- H1.
    apply exec_exact; [done|]. intros x s2. destruct (_ || _); [done|]. intros [= _ <-]. by apply register_exact.
  - by eapply update_exact.
  - unfold UpdateShardHealth in *. cbn [negb] in H. change db with (r, db).2. rewrite <- H. apply exec_exact; [done|]. intros x s2 [= _ <-].
    apply rewrite_exact; [by intros|done].
  - destruct Hex as [[H1 H2 H3 H4] Hex]. by split; [split|].
Qed.

(** C18: The mailbox counter of every shard is the number of tenants assigned
    to it.  For every interleaving of assignments (with other calls between
    their reads and their writes), rebalances, registrations, edits and health
    probes, lost answers included, as long as an assignment commits while the
    tenant is still where it was read and a rebalance names the shard the
    tenant is on. *)
Theorem shard_counters_exact s0 s es :
  exact (sys_db s0) -> steps (fun s e s' => sstep load s e s' /\ consistent s e) s0 es s -> exact (sys_db s).
Proof.
  intros Hex. apply (steps_invariant _ (fun s => exact (sys_db s))); [|done]. intros s1 e s2 H1 [H2 H3]. by eapply sstep_exact.
Qed.
End counters.

(** ** Choosing a shard *)
Lemma elem_of_insert_sorted x y l : x ∈ insert_sorted y l <-> x = y \/ x ∈ l.
Proof. induction l as [|z l IH]; cbn; [set_solver|]. destruct (String.leb y z); set_solver. Qed.
Lemma elem_of_sort_strings x l : x ∈ sort_strings l <-> x ∈ l.
Proof. induction l as [|y l IH]; cbn; [done|]. rewrite elem_of_insert_sorted, IH. set_solver. Qed.

Lemma elem_of_rows_by_id l sh : NoDup (ID <$> l) -> sh ∈ rows_by_id l <-> sh ∈ l.
Proof.
  intros Hnd. unfold rows_by_id. rewrite list_elem_of_omap. split.
  - intros (id & _ & Hf). by apply find_elem in Hf as [Hf _].
  - intros Hsh. exists (ID sh). split; [apply elem_of_sort_strings; by apply list_elem_of_fmap_2|].
    destruct (List.find (has_id (ID sh)) l) as [y|] eqn:Ef.
    + apply find_elem in Ef as [Hy Hid]. unfold has_id in Hid. breflect. f_equal. by eapply (NoDup_proj_eq ID).
    + apply find_none_elem with (x := sh) in Ef; [|done]. unfold has_id in Ef. by rewrite String.eqb_refl in Ef.
Qed.

Lemma NoDup_ids_filter p (l : list Shard) : NoDup (ID <$> l) -> NoDup (ID <$> List.filter p l).
Proof.
  induction l as [|x l IH]; cbn; [done|]. intros [Hx Hl]%NoDup_cons. destruct (p x); cbn; [|by apply IH].
  constructor; [|by apply IH]. intros (y & Hg & Hy)%list_elem_of_fmap. apply elem_of_filterb in Hy as [Hy _]. apply Hx, list_elem_of_fmap. by exists y.
Qed.

Section choice.
Context (load : Z -> Z -> Z).

Lemma pick_shard_spec s : NoDup (ID <$> shards_ s) ->
  match pick_shard load s with
  | Some sh => sh ∈ shards_ s /\ has_room sh = true /\
      forall o, o ∈ shards_ s -> has_room o = true -> load (CurrentMailboxes sh) (MaxMailboxes sh) <= load (CurrentMailboxes o) (MaxMailboxes o)
  | None => forall sh, sh ∈ shards_ s -> has_room sh = false
  end.
Proof.
  intros Hnd. unfold pick_shard. pose proof (NoDup_ids_filter has_room _ Hnd) as Hf.
  pose proof (least_spec (fun sh => load (CurrentMailboxes sh) (MaxMailboxes sh)) (rows_by_id (List.filter has_room (shards_ s)))) as Hl.
  destruct (least _ _) as [sh|].
  - destruct Hl as [Hin Hmin]. rewrite elem_of_rows_by_id, elem_of_filterb in Hin by done. split_and!; [apply Hin|apply Hin|].
    intros o Ho Hr. apply Hmin. rewrite elem_of_rows_by_id by done. by apply elem_of_filterb.
  - intros sh Hsh. apply not_true_iff_false. intros Hr. assert (sh ∈ rows_by_id (List.filter has_room (shards_ s))) as Hin; [|rewrite Hl in Hin; set_solver].
    rewrite elem_of_rows_by_id by done. by apply elem_of_filterb.
Qed.

Context {C : Type} `{!LRU C} `{!LRURemove C}.
Context {F : Type} (fdiv : Z -> Z -> F) (fge : F -> F -> bool) (not_positive : F -> bool) (dflt : F).
Context (byName : list Shard -> list Shard).
Hypothesis HbyName : forall l, byName l ≡ₚ l.

(** Refused for want of capacity: no shard has room. *)
Lemma refused_full d now t s (c : caches) s' c' : NoDup (ID <$> shards_ s) ->
  AssignTenantToShard (C := C) load d true now t s c = (Err ErrNoCapacity, s', c') -> forall sh, sh ∈ shards_ s -> has_room sh = false.
Proof.
  intros Hnd. unfold AssignTenantToShard. destruct (String.eqb t ""); [done|]. cbn [negb].
  pose proof (pick_shard_spec s Hnd) as Hp. unfold BeginFunc, assign_commit, upsert_assignment.
  destruct d; [|done|]; (destruct (pick_shard load s) as [sh|]; [destruct (_ || _); cbn; done|]); done.
Qed.

Lemma full_needs_provision l thr : (forall sh, sh ∈ l -> has_room sh = false) -> needsProvision fdiv fge (byName l) thr = true.
Proof.
  intros Hfull. unfold needsProvision. destruct (clusterUtilisation fdiv (byName l)); [|done].
  assert (existsb has_room (byName l) = false) as ->; [|done]. apply existsb_false. intros sh. rewrite (HbyName l). apply Hfull.
Qed.

Lemma refused_unchanged d now t s (c : caches) s' c' : AssignTenantToShard (C := C) load d true now t s c = (Err ErrNoCapacity, s', c') ->
  t <> ""%string /\ s' = s /\ c' = c.
Proof.
  unfold AssignTenantToShard. destruct (String.eqb t "") eqn:Et; [done|]. breflect. cbn [negb]. unfold BeginFunc.
  destruct (pick_shard load s) as [sh|]; [destruct (assign_commit now t _ (ID sh) s) as [[a x]|e]|]; destruct d; intros Heq; by simplify_eq.
Qed.

Lemma assign_succeeds now t s (c : caches) sh : t <> ""%string -> t ∈ tenants s -> sh ∈ shards_ s -> pick_shard load s = Some sh ->
  exists s', AssignTenantToShard (C := C) load Delivered true now t s c = (Ok (mkAssignment t (ID sh) now), s', invalidate t c).
Proof.
  intros Ht Hin Hsh Hp. unfold AssignTenantToShard. apply String.eqb_neq in Ht as ->. cbn [negb]. unfold BeginFunc. rewrite Hp.
  unfold assign_commit, upsert_assignment. rewrite bool_decide_true by done.
  assert (existsb (has_id (ID sh)) (shards_ s) = true) as -> by (apply existsb_elem; exists sh; split; [done|apply String.eqb_refl]).
  cbn [negb orb rbind]. by eexists.
Qed.

(** The row the provisioner's shard becomes. *)
Definition provisioned_row (E : prov_env) (url dsn : string) (max : Z) : Shard :=
  mkShard (p_id E) (autoShardName (p_now E) (p_rand E)) url dsn (if max <=? 0 then 10000 else max) 0 ShardStatusActive 0 (p_now E) (p_now E).

Lemma name_nonempty now rand : String.eqb (autoShardName now rand) "" = false.
Proof. by destruct rand. Qed.

Lemma auto_provision_registers E Provision thr s url dsn max :
  (forall sh, sh ∈ shards_ s -> has_room sh = false) -> p_d1 E = Delivered -> p_d2 E = Delivered -> p_d3 E = Delivered -> p_lock E = Some true ->
  autoShardName (p_now E) (p_rand E) ∉ (Name <$> shards_ s) -> url <> ""%string -> max < 2 ^ 31 ->
  Provision (autoShardName (p_now E) (p_rand E)) = parseProvisionOutput (Some (""%string, url, dsn, max)) (autoShardName (p_now E) (p_rand E)) ->
  AutoProvisionShard fdiv fge not_positive dflt byName (Some Provision) E true thr s =
    (Ok (Some (provisioned_row E url dsn max)), with_shards (shards_ s ++ [provisioned_row E url dsn max]) s).
Proof.
  intros Hfull H1 H2 H3 Hl Hname Hurl Hmax Hprov. unfold AutoProvisionShard, withProvisionLock, ListShards, query, exec.
  rewrite H1, H2, Hl. cbn [negb BeginFunc rbind fst]. rewrite full_needs_provision by done. cbn [negb]. rewrite Hprov. unfold parseProvisionOutput.
  apply String.eqb_neq in Hurl as Hurl'. rewrite Hurl'. change (nonempty "" ?n) with n. unfold RegisterShard, with_name, exec. rewrite H3. cbn [Name StalwartURL MaxMailboxes Status].
  rewrite name_nonempty. cbn [Name StalwartURL orb]. rewrite name_nonempty, Hurl'. cbn [Name StalwartURL orb negb MaxMailboxes Status BeginFunc].
  assert (existsb (fun sh => String.eqb (Name sh) (autoShardName (p_now E) (p_rand E))) (shards_ s) = false) as Hn.
  { apply existsb_false. intros sh Hsh. apply String.eqb_neq. intros Hx. apply Hname, list_elem_of_fmap. by exists sh. }
  cbn. rewrite Hn.
  assert (fits_int (if max <=? 0 then 10000 else max) = true) as Hfit by (unfold fits_int; destruct (Z.leb_spec max 0); [done|apply andb_true_intro; lia]).
  by rewrite Hfit.
Qed.

(** Running out of capacity is repaired.  When a tenant was refused
    because no shard has room, the next run of the provisioner, if it gets the
    lock and the command stands up a shard for the name it was given,
    registers it whatever the threshold and the utilisation, and the tenant is
    then assigned to that shard. *)
Theorem capacity_is_restored now t s (c : caches) s1 c1 E Provision thr url dsn max :
  NoDup (ID <$> shards_ s) -> t ∈ tenants s -> AssignTenantToShard (C := C) load Delivered true now t s c = (Err ErrNoCapacity, s1, c1) ->
  p_d1 E = Delivered -> p_d2 E = Delivered -> p_d3 E = Delivered -> p_lock E = Some true ->
  autoShardName (p_now E) (p_rand E) ∉ (Name <$> shards_ s) -> p_id E ∉ (ID <$> shards_ s) -> url <> ""%string -> max < 2 ^ 31 ->
  Provision (autoShardName (p_now E) (p_rand E)) = parseProvisionOutput (Some (""%string, url, dsn, max)) (autoShardName (p_now E) (p_rand E)) ->
  exists sh s2 a s3 c2, AutoProvisionShard fdiv fge not_positive dflt byName (Some Provision) E true thr s1 = (Ok (Some sh), s2) /\
    StalwartURL sh = url /\ AssignTenantToShard load Delivered true now t s2 c1 = (Ok a, s3, c2) /\ TenantID a = t /\ ShardID a = ID sh.
Proof.
  intros Hnd Ht Ha H1 H2 H3 Hlock Hname Hid Hurl Hmax Hprov. pose proof (refused_full _ _ _ _ _ _ _ Hnd Ha) as Hfull.
  destruct (refused_unchanged _ _ _ _ _ _ _ Ha) as (Hne & -> & ->). set (new := provisioned_row E url dsn max).
  set (s2 := with_shards (shards_ s ++ [new]) s). pose proof (auto_provision_registers E Provision thr s url dsn max Hfull H1 H2 H3 Hlock Hname Hurl Hmax Hprov) as Hauto.
  assert (NoDup (ID <$> shards_ s2)) as Hnd2 by (cbn; rewrite fmap_app; apply NoDup_append; [set_solver|done]).
  assert (has_room new = true) as Hroom by (unfold has_room, new, provisioned_row; cbn; destruct (Z.leb_spec max 0); [done|lia]).
  assert (pick_shard load s2 = Some new) as Hp.
  { pose proof (pick_shard_spec s2 Hnd2) as Hp. destruct (pick_shard load s2) as [sh|].
    - destruct Hp as ([Hsh| ->%list_elem_of_singleton]%elem_of_app & Hr & _); [|done]. by rewrite Hfull in Hr.
    - rewrite Hp in Hroom; [done|]. apply elem_of_app. right. left. }
  destruct (assign_succeeds now t s2 c new) as [s3 Hs3]; [done|done|apply elem_of_app; right; left|done|].
  exists new, s2, (mkAssignment t (ID new) now), s3, (invalidate t c). by split_and!.
Qed.
End choice.

(** ** Examples *)
Module ShardExamples.
#[local] Instance unbounded_remove : LRURemove (gmap string (string * Z)) := {| lru_Remove := delete |}.
#[local] Instance unbounded_remove_laws ttl : @LRURemoveLaws _ (unbounded ttl) unbounded_remove.
Proof.
  split. cbn. intros k c t k' x. destruct (decide (k' = k)) as [->|Hne]; [by rewrite lookup_delete_eq|]. by rewrite lookup_delete_ne.
Qed.
#[local] Instance five_minutes : LRU (gmap string (string * Z)) := unbounded shardCacheTTL.

(** The quotient in thousandths. *)
Definition permille (used cap : Z) : Z := if cap =? 0 then 0 else used * 1000 / cap.
Definition shard1 (id : string) (max cur : Z) : Shard := mkShard id id ("https://" +:+ id) "" max cur ShardStatusActive 0 0 0.
Definition empty : caches (C := gmap string (string * Z)) := mkCaches ∅ ∅.
Definition two : sdb := mkSDB [shard1 "a" 1 0; shard1 "b" 10 3] [] [] {["t1"; "t2"]}%string.

Example assign_picks_least_loaded :
  let '(r, s, _) := AssignTenantToShard permille Delivered true 7 "t1" two empty in
  r = Ok (mkAssignment "t1" "a" 7) /\ CurrentMailboxes <$> shards_ s = [1; 3] /\ shard_url "t1" s = Some "https://a"%string.
Proof. vm_compute. done. Qed.

Definition none : sdb := mkSDB [shard1 "a" 1 0] [] [] {["t1"; "t2"]}%string.
Definition read1 : list (string * phase) := [("t1", PPicked "" "a")]%string.
Definition after1 : sdb := mkSDB [bump 7 1 (shard1 "a" 1 0)] [mkAssignment "t1" "a" 7] [] {["t1"; "t2"]}%string.

Lemma none_exact : exact none.
Proof.
  split; [split; cbn|].
  - apply NoDup_singleton.
  - by intros sh ->%list_elem_of_singleton.
  - apply NoDup_nil_2.
  - intros a Ha. by apply elem_of_nil in Ha.
  - by intros sh ->%list_elem_of_singleton.
Qed.

(** Reads and the write of one call. *)
Lemma one_call cs t : assigned_to t none = None ->
  steps (sstep permille) (mkSSys none cs) [EvOther; EvOther; EvOther] (mkSSys none (cs ++ [(t, PPicked "" "a")]))%string.
Proof.
  intros Ht. eapply steps_cons; [apply S_begin|]. cbn [sys_db calls]. eapply steps_cons; [apply (S_read _ _ (length cs) t); cbn [calls]; by rewrite lookup_app_r, Nat.sub_diag|]. cbn [sys_db calls].
  unfold read_old. rewrite Ht. rewrite insert_app_r_alt, Nat.sub_diag by done. cbn [list_insert insert]. eapply steps_cons; [|apply steps_nil].
  pose proof (S_pick permille (mkSSys none (cs ++ [(t, PRead "")]%string)) (length cs) t "" (shard1 "a" 1 0)) as H. cbn [sys_db calls ID shard1] in H.
  rewrite insert_app_r_alt, Nat.sub_diag in H by done. apply H; [by rewrite lookup_app_r, Nat.sub_diag|reflexivity].
Qed.

Lemma shard_counters_exact_witness : exact after1.
Proof.
  apply (shard_counters_exact permille (mkSSys none read1) (mkSSys after1 []) [EvAssign "t1" "" "a"]%string none_exact).
  eapply steps_cons; [split|apply steps_nil]; [|reflexivity].
  apply (S_commit permille (mkSSys none read1) 0 "t1" "" "a" 7 (mkAssignment "t1" "a" 7) after1); reflexivity.
Defined.

(** Two calls that overlap: of one tenant, whom the shard then counts twice;
    of two tenants, who share the last place. *)
Definition twice (t1 t2 : string) : sdb :=
  match assign_commit 7 t1 "" "a" none with
  | Ok (_, s) => match assign_commit 8 t2 "" "a" s with Ok (_, s) => s | Err _ => none end
  | Err _ => none
  end.
Lemma overlap_runs t1 t2 : assigned_to t1 none = None -> assigned_to t2 none = None ->
  is_ok (assign_commit 7 t1 "" "a" none) = true -> (forall a s, assign_commit 7 t1 "" "a" none = Ok (a, s) -> is_ok (assign_commit 8 t2 "" "a" s) = true) ->
  exists es, steps (sstep permille) (mkSSys none []) es (mkSSys (twice t1 t2) []).
Proof.
  intros H1 H2 Hok1 Hok2. unfold twice. destruct (assign_commit 7 t1 "" "a" none) as [[a s]|] eqn:E1; [|done]. specialize (Hok2 a s eq_refl).
  destruct (assign_commit 8 t2 "" "a" s) as [[b s']|] eqn:E2; [|done]. eexists.
  eapply steps_app; [apply (one_call [] t1 H1)|]. eapply steps_app; [apply (one_call _ t2 H2)|]. cbn.
  eapply steps_cons; [by apply (S_commit permille (mkSSys none [(t1, PPicked "" "a"); (t2, PPicked "" "a")]%string) 0 t1 "" "a" 7 a s)|]. cbn.
  eapply steps_cons; [by apply (S_commit permille (mkSSys s [(t2, PPicked "" "a")]%string) 0 t2 "" "a" 8 b s')|]. apply steps_nil.
Qed.

Theorem racing_calls_count_twice : (exists es, steps (sstep permille) (mkSSys none []) es (mkSSys (twice "t1" "t1") [])) /\
  CurrentMailboxes <$> shards_ (twice "t1" "t1") = [2] /\ TenantID <$> assigned (twice "t1" "t1") = ["t1"%string].
Proof. split; [|vm_compute; done]. apply overlap_runs; [done..|]. intros a s [= <- <-]. done. Qed.
Theorem racing_calls_overfill : (exists es, steps (sstep permille) (mkSSys none []) es (mkSSys (twice "t1" "t2") [])) /\
  (fun sh => (CurrentMailboxes sh, MaxMailboxes sh)) <$> shards_ (twice "t1" "t2") = [(2, 1)].
Proof. split; [|vm_compute; done]. apply overlap_runs; [done..|]. intros a s [= <- <-]. done. Qed.

(** A rebalance takes the word of the caller for where the tenant was, and
    does not ask whether there is room. *)
Theorem rebalance_trusts_caller :
  let s := (RebalanceShard Delivered true 9 "b" "a" "t2" (RebalanceShard Delivered true 8 "" "a" "t1" two empty).1.2 empty).1.2 in
  (fun sh => (ID sh, CurrentMailboxes sh, MaxMailboxes sh, on_shard (ID sh) s)) <$> shards_ s = [("a", 2, 1, 2); ("b", 2, 10, 0)]%string.
Proof. vm_compute. reflexivity. Qed.

Definition E : prov_env := mkProvEnv Delivered (Some true) Delivered Delivered 0 (Some [1; 2; 3; 4]) "n1".
Definition stands_up (name : string) : option Shard := parseProvisionOutput (Some ("", "https://new", "", 0)%string) name.
Definition nowhere : sdb := mkSDB [] [] [] {["t1"%string]}.

Lemma capacity_is_restored_witness : exists sh s2 a s3 c2,
  AutoProvisionShard permille Z.geb (fun z => z <=? 0) 800 (fun l => l) (Some stands_up) E true 0 nowhere = (Ok (Some sh), s2) /\
  StalwartURL sh = "https://new"%string /\ AssignTenantToShard permille Delivered true 7 "t1" s2 empty = (Ok a, s3, c2) /\ TenantID a = "t1"%string /\ ShardID a = ID sh.
Proof.
  apply (capacity_is_restored permille permille Z.geb (fun z => z <=? 0) 800 (fun l => l) (fun l => reflexivity l) 7 "t1" nowhere empty nowhere empty E stands_up 0
    "https://new" "" 0); [apply NoDup_nil_2|set_solver|reflexivity|reflexivity|reflexivity|reflexivity|reflexivity|set_solver|set_solver|discriminate|lia|reflexivity].
Defined.
End ShardExamples.
