(* ===== verification/Tenants.v ===== *)
(** * Tenants ([internal/tenant/service.go])

    Tenants, users, domains and shared inboxes.  The hooks after a tenant is
    created (storage, billing) and the seat accounting are interfaces; the
    accounting of [Billing] is an instance of [SeatAccounter]
    ([billing_seats]).  Between two statements of a call that are not in one
    transaction other pods may write: [between] is what they do to the
    tables.  Identifiers are canonical texts of UUIDs, [uuid.Parse] is a
    parameter. *)

From S2P Require Import Prelude Text Table Billing.

Local Open Scope Z_scope.
Local Open Scope go_scope.

(** ** Tables *)
Record Tenant := mkTenant { tID : string; tName : string; Slug : string; Plan : string; tStatus : string; tCreatedAt : Z; tUpdatedAt : Z }.
Record User := mkUser {
  uID : string; uTenantID : string; KChatUserID : string; StalwartAccountID : string; Email : string; DisplayName : string; Role : string;
  uStatus : string; AccountType : string; QuotaBytes : Z; uCreatedAt : Z; uUpdatedAt : Z;
}.
Record Domain := mkDomain {
  dID : string; dTenantID : string; dDomain : string; Verified : bool; MXVerified : bool; SPFVerified : bool; DKIMVerified : bool; DMARCVerified : bool;
  dCreatedAt : Z; dUpdatedAt : Z;
}.
Record SharedInbox := mkInbox { iID : string; iTenantID : string; Address : string; iDisplayName : string; MLSGroupID : string; iCreatedAt : Z; iUpdatedAt : Z }.
Record SharedInboxMember := mkMember { mTenantID : string; SharedInboxID : string; mUserID : string; mRole : string; AddedAt : Z }.

Record tdb := mkTDB { tenants_ : list Tenant; users_ : list User; domains_ : list Domain; inboxes_ : list SharedInbox; members_ : list SharedInboxMember }.
Definition with_tenants_ l (s : tdb) := mkTDB l (users_ s) (domains_ s) (inboxes_ s) (members_ s).
Definition with_users_ l (s : tdb) := mkTDB (tenants_ s) l (domains_ s) (inboxes_ s) (members_ s).
Definition with_domains_ l (s : tdb) := mkTDB (tenants_ s) (users_ s) l (inboxes_ s) (members_ s).
Definition with_inboxes_ l (s : tdb) := mkTDB (tenants_ s) (users_ s) (domains_ s) l (members_ s).
Definition with_members_ l (s : tdb) := mkTDB (tenants_ s) (users_ s) (domains_ s) (inboxes_ s) l.

(** [ErrUnique]: the database refuses a duplicate (23505). *)
Inductive terror := ErrNotFound_ | ErrInvalid | ErrDB | ErrUnique | ErrHook | ErrSeats.

Definition one_of (x : string) (l : list string) : bool := existsb (String.eqb x) l.
Definition plans : list string := ["core"; "pro"; "privacy"]%string.
Definition statuses : list string := ["active"; "suspended"; "deleted"]%string.
Definition roles : list string := ["owner"; "admin"; "member"; "billing"; "deliverability"]%string.
Definition account_types : list string := ["user"; "shared_inbox"; "service"]%string.
Definition member_roles : list string := ["owner"; "member"; "viewer"]%string.

Definition is_tenant (id : string) (t : Tenant) : bool := String.eqb (tID t) id.
Definition is_user (userID tenantID : string) (u : User) : bool := String.eqb (uID u) userID && String.eqb (uTenantID u) tenantID.
Definition has_tenant (id : string) (s : tdb) : bool := existsb (is_tenant id) (tenants_ s).

(** Statements and transactions. *)
Definition run {A} (d : delivery) (f : tdb -> result terror (A * tdb)) : tdb -> result terror A * tdb := BeginFunc ErrDB d f.
Definition read {A} (d : delivery) (f : tdb -> result terror A) (s : tdb) : result terror A := (run d (fun s => let? a := f s in Ok (a, s)) s).1.

(** The constraints of [tenants]: the slug is unique among the other rows. *)
Definition tenant_ok (t : Tenant) (s : tdb) : bool :=
  one_of (Plan t) plans && one_of (tStatus t) statuses && negb (existsb (fun o => negb (is_tenant (tID t) o) && String.eqb (Slug o) (Slug t)) (tenants_ s)).

(** The error of a row that is not: checks come before the unique index. *)
Definition tenant_error (t : Tenant) : terror := if one_of (Plan t) plans && one_of (tStatus t) statuses then ErrUnique else ErrDB.

(** ** Tenants *)
Record CreateTenantInput := mkCreateTenant { ct_Name : string; ct_Slug : string; ct_Plan : string }.
Record EnsureTenantInput := mkEnsure { e_ID : string; e_Name : string; e_Slug : string; e_Plan : string; EnsureProvisioned : bool }.
Record UpdateTenantInput := mkUpdateTenant { ut_Name : option string; ut_Plan : option string; ut_Status : option string }.

Section tenants.
(** The hooks, [None] when not wired: did it succeed, for a tenant and a plan,
    and the world after it. *)
Context {W : Type} (provision : option (string -> string -> W -> bool * W)) (created_hook : option (string -> string -> W -> bool * W)).
Context (deleted_hook : option (string -> W -> bool * W)) (uuid_ok : string -> bool).

Definition call_hook (h : option (string -> string -> W -> bool * W)) (id plan : string) (w : W) : bool * W :=
  match h with None => (true, w) | Some f => f id plan w end.
Definition runProvisioningHooks (tenantID plan : string) (w : W) : result terror unit * W :=
  let '(ok, w) := call_hook provision tenantID plan w in
  if negb ok then (Err ErrHook, w)
  else let '(ok, w) := call_hook created_hook tenantID plan w in ((if negb ok then Err ErrHook else Ok tt), w).

(** The pair of the row and the error: a row may come with an error. *)
Definition CreateTenant (d : delivery) (now : Z) (id : string) (input : CreateTenantInput) (s : tdb) (w : W) : option Tenant * option terror * tdb * W :=
  if String.eqb (ct_Name input) "" || String.eqb (ct_Slug input) "" || String.eqb (ct_Plan input) "" then (None, Some ErrInvalid, s, w)
  else
    let t := mkTenant id (ct_Name input) (ct_Slug input) (ct_Plan input) "active" now now in
    let '(r, s) := run d (fun s => if tenant_ok t s then Ok (t, with_tenants_ (tenants_ s ++ [t]) s) else Err (tenant_error t)) s in
    match r with
    | Err e => (None, Some e, s, w)
    | Ok t => let '(h, w) := runProvisioningHooks (tID t) (Plan t) w in (Some t, match h with Ok _ => None | Err e => Some e end, s, w)
    end.

Definition GetTenant (d : delivery) (id : string) (s : tdb) : result terror Tenant :=
  read d (fun s => match List.find (is_tenant id) (tenants_ s) with Some t => Ok t | None => Err ErrNotFound_ end) s.
(** [byAge]: the order of creation. *)
Definition ListTenants (byAge : list Tenant -> list Tenant) (d : delivery) (s : tdb) : result terror (list Tenant) := read d (fun s => Ok (byAge (tenants_ s))) s.

(** [firstNonEmptyTenantField]. *)
Fixpoint firstNonEmptyTenantField (vals : list string) : string :=
  match vals with
  | [] => ""
  | v :: vals => let x := TrimSpace v in if negb (String.eqb x "") then x else firstNonEmptyTenantField vals
  end.

(** What replaces a column: the trimmed value, if there is one. *)
Definition supplied (v old : string) : string := if String.eqb (TrimSpace v) "" then old else TrimSpace v.

Definition reconcileTenantMetadata (d : delivery) (now : Z) (existing : Tenant) (input : EnsureTenantInput) (s : tdb) : result terror Tenant * tdb :=
  let changed v old := negb (String.eqb (TrimSpace v) "") && negb (String.eqb (TrimSpace v) old) in
  if negb (changed (e_Name input) (tName existing) || changed (e_Slug input) (Slug existing) || changed (e_Plan input) (Plan existing)) then (Ok existing, s)
  else
    let col v old cur := if changed v old then TrimSpace v else cur in
    run d (fun s =>
      match List.find (is_tenant (tID existing)) (tenants_ s) with
      | None => Err ErrDB
      | Some cur =>
          let t := mkTenant (tID cur) (col (e_Name input) (tName existing) (tName cur)) (col (e_Slug input) (Slug existing) (Slug cur))
                     (col (e_Plan input) (Plan existing) (Plan cur)) (tStatus cur) (tCreatedAt cur) now in
          if tenant_ok t s then Ok (t, with_tenants_ (update (is_tenant (tID existing)) (fun _ => t) (tenants_ s)) s) else Err (tenant_error t)
      end) s.

(** The fates of the statements, clocks, and what other pods do before each
    but the first. *)
Record ensure_env := mkEnsureEnv {
  n_d1 : delivery; n_d2 : delivery; n_d3 : delivery; n_d4 : delivery; n_now : Z; between1 : tdb -> tdb; between2 : tdb -> tdb; between3 : tdb -> tdb;
}.

Definition reconcileExisting (E : ensure_env) (existing : Tenant) (input : EnsureTenantInput) (s : tdb) (w : W) : option Tenant * bool * option terror * tdb * W :=
  let '(r, s) := reconcileTenantMetadata (n_d4 E) (n_now E) existing input s in
  match r with
  | Err e => (None, false, Some e, s, w)
  | Ok t =>
      if EnsureProvisioned input then
        let '(h, w) := runProvisioningHooks (tID t) (Plan t) w in (Some t, false, match h with Ok _ => None | Err e => Some e end, s, w)
      else (Some t, false, None, s, w)
  end.

Definition EnsureTenant (E : ensure_env) (input : EnsureTenantInput) (s : tdb) (w : W) : option Tenant * bool * option terror * tdb * W :=
  if negb (uuid_ok (e_ID input)) then (None, false, Some ErrInvalid, s, w)
  else match GetTenant (n_d1 E) (e_ID input) s with
  | Ok existing => reconcileExisting E existing input (between1 E s) w
  | Err ErrNotFound_ =>
      let s := between1 E s in
      let name := firstNonEmptyTenantField [e_Name input; e_Slug input; e_ID input] in
      let slug := firstNonEmptyTenantField [e_Slug input; e_ID input] in
      let plan := if String.eqb (e_Plan input) "" then "core"%string else e_Plan input in
      let t := mkTenant (e_ID input) name slug plan "active" (n_now E) (n_now E) in
      (* [None]: the id was there *)
      let '(r, s) := run (n_d2 E) (fun s =>
        if has_tenant (e_ID input) s then Ok (None, s)
        else if tenant_ok t s then Ok (Some t, with_tenants_ (tenants_ s ++ [t]) s) else Err (tenant_error t)) s in
      match r with
      | Err e => (None, false, Some e, s, w)
      | Ok None =>
          let s := between2 E s in
          match GetTenant (n_d3 E) (e_ID input) s with
          | Err e => (None, false, Some e, s, w)
          | Ok existing => reconcileExisting E existing input (between3 E s) w
          end
      | Ok (Some t) =>
          let '(h, w) := runProvisioningHooks (tID t) (Plan t) w in (Some t, true, match h with Ok _ => None | Err e => Some e end, s, w)
      end
  | Err e => (None, false, Some e, s, w)
  end.

(** [lazyProvisioner]: what the middleware of authentication calls. *)
Definition lazy_EnsureTenant (E : ensure_env) (tenantID : string) (s : tdb) (w : W) : bool * tdb * W :=
  let '(_, _, e, s, w) := EnsureTenant E (mkEnsure tenantID "" "" "" false) s w in (match e with None => true | Some _ => false end, s, w).

Definition UpdateTenant (d : delivery) (now : Z) (id : string) (input : UpdateTenantInput) (s : tdb) : result terror Tenant * tdb :=
  if String.eqb id "" then (Err ErrInvalid, s)
  else match ut_Name input, ut_Plan input, ut_Status input with
  | None, None, None => (Err ErrInvalid, s)
  | n, p, st =>
      if match n with Some v => String.eqb v "" | None => false end || match p with Some v => negb (one_of v plans) | None => false end
         || match st with Some v => negb (one_of v statuses) | None => false end then (Err ErrInvalid, s)
      else run d (fun s =>
        match List.find (is_tenant id) (tenants_ s) with
        | None => Err ErrNotFound_
        | Some cur =>
            let t := mkTenant (tID cur) (default (tName cur) n) (Slug cur) (default (Plan cur) p) (default (tStatus cur) st) (tCreatedAt cur) now in
            Ok (t, with_tenants_ (update (is_tenant id) (fun _ => t) (tenants_ s)) s)
        end) s
  end.

Definition DeleteTenant (d : delivery) (now : Z) (id : string) (s : tdb) (w : W) : result terror unit * tdb * W :=
  if String.eqb id "" then (Err ErrInvalid, s, w)
  else
    let '(r, s) := run d (fun s => Ok (has_tenant id s, with_tenants_ (update (is_tenant id)
      (fun t => mkTenant (tID t) (tName t) (Slug t) (Plan t) "deleted" (tCreatedAt t) now) (tenants_ s)) s)) s in
    match r with
    | Err e => (Err e, s, w)
    | Ok false => (Err ErrNotFound_, s, w)
    | Ok true => match deleted_hook with None => (Ok tt, s, w) | Some h => let '(ok, w) := h id w in ((if ok then Ok tt else Err ErrHook), s, w) end
    end.
End tenants.

(** ** Seats *)
Class SeatAccounter (W : Type) := {
  CheckSeat : string -> W -> option terror;
  IncrementSeats : string -> Z -> W -> bool * W;
}.

(** A check that passes leaves room for one more below a limit that is set; a
    change that is reported done adds to the count of that tenant only.  [seat_inv]
    is what the accounting keeps true of its own tables. *)
Class SeatLaws (W : Type) `{!SeatAccounter W} := {
  seat_inv : W -> Prop;
  seat_count : W -> string -> Z;
  seat_limit : W -> string -> Z;
  law_check : forall t w, seat_inv w -> CheckSeat t w = None -> seat_limit w t = 0 \/ seat_count w t + 1 <= seat_limit w t;
  law_increment : forall t delta w w', seat_inv w -> IncrementSeats t delta w = (true, w') ->
    seat_inv w' /\ seat_count w' t = Z.max 0 (seat_count w t + delta) /\ (forall t', t' <> t -> seat_count w' t' = seat_count w t') /\
    forall t', seat_limit w' t' = seat_limit w t';
}.

(** ** Users *)
Record CreateUserInput := mkCreateUser {
  cu_KChatUserID : string; cu_StalwartAccountID : string; cu_Email : string; cu_DisplayName : string; cu_Role : string; cu_QuotaBytes : Z; cu_AccountType : string;
}.
Record UpdateUserInput := mkUpdateUser { uu_DisplayName : option string; uu_Role : option string; uu_Status : option string; uu_QuotaBytes : option Z }.

Section users.
Context {W : Type} `{SA : !SeatAccounter W} (seats : bool).

(** The constraints of a new row of [users]. *)
Definition user_taken (u : User) (s : tdb) : bool :=
  existsb (fun o => String.eqb (Email o) (Email u) || String.eqb (StalwartAccountID o) (StalwartAccountID u)
                    || String.eqb (uTenantID o) (uTenantID u) && String.eqb (KChatUserID o) (KChatUserID u)) (users_ s).
Definition user_checks (u : User) : bool := one_of (Role u) roles && (0 <=? QuotaBytes u) && (QuotaBytes u <=? int64_max).
Definition user_ok (u : User) (s : tdb) : bool := has_tenant (uTenantID u) s && user_checks u && negb (user_taken u s).
(** Checks, then the unique indexes, then the foreign key. *)
Definition user_error (u : User) (s : tdb) : terror := if user_checks u && user_taken u s then ErrUnique else ErrDB.

(** [between]: what other pods do between the check and the insert. *)
Definition CreateUser (d : delivery) (between : tdb * W -> tdb * W) (now : Z) (id tenantID : string) (input : CreateUserInput) (s : tdb) (w : W) : result terror User * tdb * W :=
  if String.eqb (cu_KChatUserID input) "" || String.eqb (cu_StalwartAccountID input) "" || String.eqb (cu_Email input) "" || String.eqb (cu_DisplayName input) ""
  then (Err ErrInvalid, s, w)
  else
    let role := if String.eqb (cu_Role input) "" then "member"%string else cu_Role input in
    let accountType := if String.eqb (cu_AccountType input) "" then "user"%string else cu_AccountType input in
    if negb (one_of accountType account_types) then (Err ErrInvalid, s, w)
    else match (if String.eqb accountType "user" && seats then CheckSeat tenantID w else None) with
    | Some e => (Err e, s, w)
    | None =>
        let '(s, w) := between (s, w) in
        let u := mkUser id tenantID (cu_KChatUserID input) (cu_StalwartAccountID input) (cu_Email input) (cu_DisplayName input) role "active" accountType
                   (cu_QuotaBytes input) now now in
        let '(r, s) := run d (fun s => if user_ok u s then Ok (u, with_users_ (users_ s ++ [u]) s) else Err (user_error u s)) s in
        match r with
        | Err e => (Err e, s, w)
        | Ok u => (Ok u, s, if String.eqb (AccountType u) "user" && seats then (IncrementSeats tenantID 1 w).2 else w)
        end
    end.

Definition ListUsers (byAge : list User -> list User) (d : delivery) (tenantID : string) (s : tdb) : result terror (list User) :=
  if String.eqb tenantID "" then Err ErrInvalid
  else read d (fun s => Ok (byAge (List.filter (fun u => String.eqb (uTenantID u) tenantID) (users_ s)))) s.
Definition GetUser (d : delivery) (tenantID userID : string) (s : tdb) : result terror User :=
  if String.eqb tenantID "" || String.eqb userID "" then Err ErrInvalid
  else read d (fun s => match List.find (is_user userID tenantID) (users_ s) with Some u => Ok u | None => Err ErrNotFound_ end) s.
Definition GetUserByKChatID (d : delivery) (tenantID kchatUserID : string) (s : tdb) : result terror User :=
  if String.eqb tenantID "" || String.eqb kchatUserID "" then Err ErrInvalid
  else read d (fun s =>
    match List.find (fun u => String.eqb (uTenantID u) tenantID && String.eqb (KChatUserID u) kchatUserID) (users_ s) with Some u => Ok u | None => Err ErrNotFound_ end) s.

Definition set_user (name role status : string) (quota now : Z) (u : User) : User :=
  mkUser (uID u) (uTenantID u) (KChatUserID u) (StalwartAccountID u) (Email u) name role status (AccountType u) quota (uCreatedAt u) now.

Definition refused {A} (o : option A) (bad : A -> bool) : bool := match o with Some v => bad v | None => false end.

Definition UpdateUser (d : delivery) (now : Z) (tenantID userID : string) (input : UpdateUserInput) (s : tdb) : result terror User * tdb :=
  if String.eqb tenantID "" || String.eqb userID "" then (Err ErrInvalid, s)
  else match uu_DisplayName input, uu_Role input, uu_Status input, uu_QuotaBytes input with
  | None, None, None, None => (Err ErrInvalid, s)
  | n, r, st, q =>
      if refused n (fun v => String.eqb v "") || refused r (fun v => negb (one_of v roles)) || refused st (fun v => negb (one_of v statuses))
         || refused q (fun v => v <? 0) then (Err ErrInvalid, s)
      else run d (fun s =>
        match List.find (is_user userID tenantID) (users_ s) with
        | None => Err ErrNotFound_
        | Some u =>
            let u' := set_user (default (DisplayName u) n) (default (Role u) r) (default (uStatus u) st) (default (QuotaBytes u) q) now u in
            Ok (u', with_users_ (update (is_user userID tenantID) (fun _ => u') (users_ s)) s)
        end) s
  end.

Definition live_user (u : User) : bool := negb (String.eqb (uStatus u) "deleted").
Definition DeleteUser (d : delivery) (now : Z) (tenantID userID : string) (s : tdb) (w : W) : result terror unit * tdb * W :=
  if String.eqb tenantID "" || String.eqb userID "" then (Err ErrInvalid, s, w)
  else
    let '(r, s) := run d (fun s =>
      match List.find (fun u => is_user userID tenantID u && live_user u) (users_ s) with
      | None => Ok (None, s)
      | Some u =>
          Ok (Some (AccountType u), with_users_ (update (fun u => is_user userID tenantID u && live_user u)
            (fun u => set_user (DisplayName u) (Role u) "deleted" (QuotaBytes u) now u) (users_ s)) s)
      end) s in
    match r with
    | Err e => (Err e, s, w)
    | Ok None => (Err ErrNotFound_, s, w)
    | Ok (Some accountType) => (Ok tt, s, if String.eqb accountType "user" && seats then (IncrementSeats tenantID (-1) w).2 else w)
    end.
End users.

(** ** Domains and shared inboxes *)
Definition CreateDomain (d : delivery) (now : Z) (id tenantID domain : string) (s : tdb) : result terror Domain * tdb :=
  if String.eqb domain "" then (Err ErrInvalid, s)
  else run d (fun s =>
    let x := mkDomain id tenantID domain false false false false false now now in
    if has_tenant tenantID s && negb (existsb (fun o => String.eqb (dDomain o) domain) (domains_ s)) then Ok (x, with_domains_ (domains_ s ++ [x]) s) else Err ErrDB) s.
Definition ListDomains (byAge : list Domain -> list Domain) (d : delivery) (tenantID : string) (s : tdb) : result terror (list Domain) :=
  read d (fun s => Ok (byAge (List.filter (fun x => String.eqb (dTenantID x) tenantID) (domains_ s)))) s.
Definition GetDomain (d : delivery) (tenantID domainID : string) (s : tdb) : result terror Domain :=
  if String.eqb tenantID "" || String.eqb domainID "" then Err ErrInvalid
  else read d (fun s =>
    match List.find (fun x => String.eqb (dID x) domainID && String.eqb (dTenantID x) tenantID) (domains_ s) with Some x => Ok x | None => Err ErrNotFound_ end) s.

Definition CreateSharedInbox (d : delivery) (now : Z) (id tenantID address name group : string) (s : tdb) : result terror SharedInbox * tdb :=
  if String.eqb address "" || String.eqb name "" || String.eqb group "" then (Err ErrInvalid, s)
  else run d (fun s =>
    let x := mkInbox id tenantID address name group now now in
    if has_tenant tenantID s && negb (existsb (fun o => String.eqb (iTenantID o) tenantID && String.eqb (Address o) address) (inboxes_ s))
    then Ok (x, with_inboxes_ (inboxes_ s ++ [x]) s) else Err ErrDB) s.
Definition ListSharedInboxes (byAge : list SharedInbox -> list SharedInbox) (d : delivery) (tenantID : string) (s : tdb) : result terror (list SharedInbox) :=
  if String.eqb tenantID "" then Err ErrInvalid
  else read d (fun s => Ok (byAge (List.filter (fun x => String.eqb (iTenantID x) tenantID) (inboxes_ s)))) s.

Definition listSharedInboxMemberIDs (d : delivery) (tenantID inboxID : string) (s : tdb) : result terror (list string) :=
  read d (fun s => Ok (sort_strings (mUserID <$> List.filter (fun m => String.eqb (mTenantID m) tenantID && String.eqb (SharedInboxID m) inboxID) (members_ s)))) s.

Section inboxes.
(** [sharedInboxFn]: tenant, inbox, members, reason. *)
Context {W : Type} (sharedInboxFn : option (string -> string -> list string -> string -> W -> W)).

Definition notify (d : delivery) (tenantID inboxID reason : string) (s : tdb) (w : W) : W :=
  match sharedInboxFn with
  | None => w
  | Some f => f tenantID inboxID (match listSharedInboxMemberIDs d tenantID inboxID s with Ok l => l | Err _ => [] end) reason w
  end.

(** The foreign keys ask for an inbox and a user of these ids, of any
    tenant. *)
Definition AddSharedInboxMember (d d' : delivery) (now : Z) (tenantID inboxID userID role : string) (s : tdb) (w : W) : result terror SharedInboxMember * tdb * W :=
  if String.eqb tenantID "" || String.eqb inboxID "" || String.eqb userID "" then (Err ErrInvalid, s, w)
  else
    let role := if String.eqb role "" then "member"%string else role in
    if negb (one_of role member_roles) then (Err ErrInvalid, s, w)
    else
      let m := mkMember tenantID inboxID userID role now in
      let '(r, s) := run d (fun s =>
        if has_tenant tenantID s && existsb (fun i => String.eqb (iID i) inboxID) (inboxes_ s) && existsb (fun u => String.eqb (uID u) userID) (users_ s)
           && negb (existsb (fun o => String.eqb (SharedInboxID o) inboxID && String.eqb (mUserID o) userID) (members_ s))
        then Ok (m, with_members_ (members_ s ++ [m]) s) else Err ErrDB) s in
      match r with Err e => (Err e, s, w) | Ok m => (Ok m, s, notify d' tenantID inboxID "member_added" s w) end.

Definition RemoveSharedInboxMember (d d' : delivery) (tenantID inboxID userID : string) (s : tdb) (w : W) : result terror unit * tdb * W :=
  if String.eqb tenantID "" || String.eqb inboxID "" || String.eqb userID "" then (Err ErrInvalid, s, w)
  else
    let p m := String.eqb (mTenantID m) tenantID && String.eqb (SharedInboxID m) inboxID && String.eqb (mUserID m) userID in
    let '(r, s) := run d (fun s => Ok (existsb p (members_ s), with_members_ (List.filter (fun m => negb (p m)) (members_ s)) s)) s in
    match r with
    | Err e => (Err e, s, w)
    | Ok false => (Err ErrNotFound_, s, w)
    | Ok true => (Ok tt, s, notify d' tenantID inboxID "member_removed" s w)
    end.
End inboxes.

(** ** Provisioning converges *)
Section convergence.
Context {W : Type} (provision : option (string -> string -> W -> bool * W)) (created_hook : option (string -> string -> W -> bool * W)) (uuid_ok : string -> bool).
Abbreviation ensure := (EnsureTenant provision created_hook uuid_ok).
Abbreviation hooks := (runProvisioningHooks provision created_hook).

Definition row (id : string) (s : tdb) : option Tenant := List.find (is_tenant id) (tenants_ s).
(** Other pods may create the tenant but do not change its row. *)
Definition keeps (id : string) (f : tdb -> tdb) : Prop := forall s t, row id s = Some t -> row id (f s) = Some t.
Definition undisturbed (id : string) (E : ensure_env) : Prop := keeps id (between1 E) /\ keeps id (between2 E) /\ keeps id (between3 E).

(** [t] has the values [input] gives, where it gives any. *)
Definition carries_metadata (input : EnsureTenantInput) (t : Tenant) : Prop :=
  tID t = e_ID input /\ tName t = supplied (e_Name input) (tName t) /\ Slug t = supplied (e_Slug input) (Slug t) /\ Plan t = supplied (e_Plan input) (Plan t).

Lemma row_id id s t : row id s = Some t -> tID t = id.
Proof. intros [_ H]%find_elem. unfold is_tenant in H. by breflect. Qed.

Lemma row_update id f s t : row id s = Some t -> tID (f t) = id -> row id (with_tenants_ (update (is_tenant id) f (tenants_ s)) s) = Some (f t).
Proof.
  intros Hr Hf. unfold row in *. cbn. induction (tenants_ s) as [|x l IH]; [done|]. cbn in *. destruct (is_tenant id x) eqn:E.
  - injection Hr as ->. unfold is_tenant at 1. by rewrite Hf, String.eqb_refl.
  - rewrite E. by apply IH.
Qed.
Lemma row_append id s t : row id s = None -> tID t = id -> row id (with_tenants_ (tenants_ s ++ [t]) s) = Some t.
Proof.
  intros Hr Ht. unfold row in *. cbn. induction (tenants_ s) as [|x l IH]; cbn in *; [unfold is_tenant; by rewrite Ht, String.eqb_refl|].
  destruct (is_tenant id x); [done|]. by apply IH.
Qed.

Lemma supplied_same v old : supplied v old = if negb (String.eqb (TrimSpace v) "") && negb (String.eqb (TrimSpace v) old) then TrimSpace v else old.
Proof. unfold supplied. destruct (String.eqb (TrimSpace v) ""); [done|]. cbn. destruct (String.eqb (TrimSpace v) old) eqn:E; [|done]. by breflect. Qed.
Lemma supplied_idem v old : supplied v (supplied v old) = supplied v old.
Proof. unfold supplied. by destruct (String.eqb (TrimSpace v) ""). Qed.

Lemma run_done {A} d (f : tdb -> result terror (A * tdb)) s a s' : run d f s = (Ok a, s') -> f s = Ok (a, s').
Proof. unfold run, BeginFunc. destruct d, (f s) as [[x y]|]; by intros [= -> ->]. Qed.
Lemma GetTenant_ok d id s t : GetTenant d id s = Ok t -> row id s = Some t.
Proof.
  unfold GetTenant, read. destruct (run d _ s) as [r s'] eqn:Er. cbn. intros ->. apply run_done in Er. unfold row.
  destruct (List.find _ _); [|done]. cbn in Er. by injection Er as ->.
Qed.
Lemma GetTenant_missing d id s : GetTenant d id s = Err ErrNotFound_ -> row id s = None.
Proof.
  unfold GetTenant, read, run, BeginFunc, row. destruct (List.find _ _); [|done]. cbn. by destruct d.
Qed.

Lemma reconcile_ok d now existing input s t s' : row (tID existing) s = Some existing -> tID existing = e_ID input ->
  reconcileTenantMetadata d now existing input s = (Ok t, s') -> row (e_ID input) s' = Some t /\ carries_metadata input t.
Proof.
  intros Hrow Hid. unfold reconcileTenantMetadata. destruct (negb _) eqn:Ech.
  - intros [= -> ->]. rewrite <- Hid. split; [done|]. breflect. unfold carries_metadata. rewrite !supplied_same.
    repeat match goal with H : ?b = false |- context [?b] => rewrite H end. done.
  - intros Hr. apply run_done in Hr. unfold row in Hrow. rewrite Hrow in Hr. destruct (tenant_ok _ s); [|done]. injection Hr as <- <-. rewrite <- Hid.
    split.
    + by eapply (row_update (tID existing) (fun _ => _)).
    + split; [done|]. cbn. rewrite <- !supplied_same, !supplied_idem. done.
Qed.

(** What a call without error has achieved. *)
Definition converged (input : EnsureTenantInput) (t : Tenant) (created : bool) (s' : tdb) (w w' : W) : Prop :=
  row (e_ID input) s' = Some t /\ carries_metadata input t /\ if created || EnsureProvisioned input then hooks (e_ID input) (Plan t) w = (Ok tt, w') else w' = w.

Lemma reconcileExisting_converged E existing input s w ot created s' w' : row (tID existing) s = Some existing -> tID existing = e_ID input ->
  reconcileExisting provision created_hook E existing input s w = (ot, created, None, s', w') ->
  exists t, ot = Some t /\ created = false /\ converged input t created s' w w'.
Proof.
  intros Hrow Hid. unfold reconcileExisting. destruct (reconcileTenantMetadata _ _ _ _ s) as [[t|e] s1] eqn:Er; [|done].
  apply reconcile_ok in Er as [H1 H2]; [|done|done]. unfold converged. destruct (EnsureProvisioned input) eqn:Ep.
  - destruct (hooks (tID t) (Plan t) w) as [[[]|] w1] eqn:Eh; intros [= <- <- <- <-]. exists t. split_and!; try done. destruct H2 as (<- & _). done.
  - intros [= <- <- <- <-]. by exists t.
Qed.

Lemma plan_trimmed p : one_of p plans = true -> TrimSpace p = p.
Proof. unfold one_of. rewrite existsb_elem. intros (x & Hx & Hp). breflect. subst x. unfold plans in Hx. set_unfold in Hx. by destruct Hx as [-> |[-> |[-> |[]]]]. Qed.

Lemma first_supplied v vals : firstNonEmptyTenantField (v :: vals) = supplied v (firstNonEmptyTenantField (v :: vals)).
Proof. unfold supplied. cbn. by destruct (String.eqb (TrimSpace v) ""). Qed.

(** C27: An idempotent provision that reports success has converged.  Whatever
    other pods do between its statements short of rewriting this tenant's row
    (the race with another provision included), when [EnsureTenant] returns
    without error the table holds a row of that id with every non-blank value
    it was given, and, if it created the row or was asked to guarantee
    provisioning, the storage and billing hooks have run for it and
    succeeded. *)
Theorem ensure_tenant_converges E input s w ot created s' w' : undisturbed (e_ID input) E ->
  ensure E input s w = (ot, created, None, s', w') -> exists t, ot = Some t /\ converged input t created s' w w'.
Proof.
  intros (K1 & K2 & K3). unfold EnsureTenant. destruct (uuid_ok (e_ID input)); [|done]. cbn [negb].
  destruct (GetTenant (n_d1 E) (e_ID input) s) as [existing|[]] eqn:Eg; try done.
  - apply GetTenant_ok in Eg. pose proof (row_id _ _ _ Eg) as Hid. intros Hr.
    apply reconcileExisting_converged in Hr as (t & -> & _ & Ht); [by exists t|rewrite Hid; by apply K1|done].
  - clear Eg. set (t := mkTenant _ _ _ _ _ _ _). destruct (run (n_d2 E) _ _) as [r s1] eqn:Er. destruct r as [[t1|]|e]; [| |done].
    + apply run_done in Er. destruct (has_tenant (e_ID input) (between1 E s)) eqn:Eh; [done|]. destruct (tenant_ok t _) eqn:Eo; [|done]. injection Er as <- <-.
      destruct (hooks (tID t) (Plan t) w) as [[[]|] w1] eqn:Ehk; intros [= <- <- <- <-]. exists t. split; [done|]. split_and!; [|split_and!|exact Ehk].
      * apply row_append; [|done]. unfold row. destruct (List.find _ _) eqn:Ef; [|done]. apply find_elem in Ef as [Hin Hit].
        unfold has_tenant in Eh. rewrite existsb_false in Eh. by rewrite (Eh _ Hin) in Hit.
      * done.
      * apply first_supplied.
      * apply first_supplied.
      * unfold tenant_ok in Eo. apply andb_prop in Eo as [[Eo _]%andb_prop _]. apply plan_trimmed in Eo. unfold supplied. cbn in *.
        destruct (String.eqb (e_Plan input) "") eqn:Ee; breflect; [by rewrite Ee|]. by destruct (String.eqb (TrimSpace (e_Plan input)) "").
    + apply run_done in Er. destruct (GetTenant (n_d3 E) (e_ID input) (between2 E s1)) as [existing|e] eqn:Eg; [|done].
      apply GetTenant_ok in Eg. pose proof (row_id _ _ _ Eg) as Hid. intros Hr.
      apply reconcileExisting_converged in Hr as (x & -> & _ & Ht); [by exists x|rewrite Hid; by apply K3|done].
Qed.
End convergence.

(** ** Seats are counted *)
Definition paid (t : string) (u : User) : bool := String.eqb (uTenantID u) t && String.eqb (AccountType u) "user" && live_user u.
Definition paid_users (t : string) (s : tdb) : Z := Z.of_nat (tally (paid t) (users_ s)).

Section seat_runs.
Context {W : Type} `{SA : !SeatAccounter W} `{SL : !SeatLaws W}.

(** Calls one after the other.  The counter's update is reported done and no
    transaction commits without its answer; an update leaves the status. *)
Inductive ustep : tdb * W -> tdb * W -> Prop :=
| U_create s w d now id t input r s' w' :
    d <> ReplyLost -> id ∉ uID <$> users_ s -> CreateUser true d (fun x => x) now id t input s w = (r, s', w') ->
    (IncrementSeats t 1 w).1 = true -> ustep (s, w) (s', w')
| U_update s w d now t id input r s' :
    uu_Status input = None -> UpdateUser d now t id input s = (r, s') -> ustep (s, w) (s', w)
| U_delete s w d now t id r s' w' :
    d <> ReplyLost -> DeleteUser true d now t id s w = (r, s', w') -> (IncrementSeats t (-1) w).1 = true -> ustep (s, w) (s', w').

(** The counter is the number of live accounts of type [user], within the
    limit if one is set. *)
Definition seats_ok (x : tdb * W) : Prop :=
  NoDup (uID <$> users_ x.1) /\ seat_inv x.2 /\ forall t, seat_count x.2 t = paid_users t x.1 /\ (seat_limit x.2 t <> 0 -> paid_users t x.1 <= seat_limit x.2 t).

Lemma run_not_lost {A} d (f : tdb -> result terror (A * tdb)) s r s' : d <> ReplyLost -> run d f s = (r, s') ->
  (s' = s /\ exists e, r = Err e) \/ exists a, f s = Ok (a, s') /\ r = Ok a.
Proof. unfold run, BeginFunc. intros Hd. destruct d, (f s) as [[x y]|]; intros [= <- <-]; eauto; done. Qed.

(** An update that is reported done. *)
Lemma increment_done t delta w : seat_inv w -> (IncrementSeats t delta w).1 = true ->
  let w' := (IncrementSeats t delta w).2 in
  seat_inv w' /\ seat_count w' t = Z.max 0 (seat_count w t + delta) /\ (forall t', t' <> t -> seat_count w' t' = seat_count w t') /\
  forall t', seat_limit w' t' = seat_limit w t'.
Proof. intros Hi. destruct (IncrementSeats t delta w) as [b v] eqn:E. cbn. intros ->. by apply law_increment. Qed.

Lemma create_counts d now id t input s w r s' w' : d <> ReplyLost -> id ∉ (uID <$> users_ s) ->
  CreateUser true d (fun x => x) now id t input s w = (r, s', w') -> (IncrementSeats t 1 w).1 = true -> seats_ok (s, w) -> seats_ok (s', w').
Proof.
  intros Hd Hid Hc Hinc (Hnd & Hinv & Hok). unfold CreateUser in Hc. destruct (_ || _); [by simplify_eq|]. destruct (negb _); [by simplify_eq|].
  set (ty := if String.eqb (cu_AccountType input) "" then _ else _) in *.
  destruct (if String.eqb ty "user" && true then CheckSeat t w else None) as [e|] eqn:Ech; [by simplify_eq|]. set (u := mkUser _ _ _ _ _ _ _ _ _ _ _ _) in *.
  destruct (run d _ s) as [x s1] eqn:Er. apply run_not_lost in Er as [[-> [e ->]]|(v & Hf & ->)]; [by simplify_eq| |done].
  destruct (user_ok u s); [|done]. injection Hf as <- <-. injection Hc as _ <- <-. cbn [AccountType u].
  assert (forall t', paid_users t' (with_users_ (users_ s ++ [u]) s) = paid_users t' s + (if paid t' u then 1 else 0)) as Hp.
  { intros t'. unfold paid_users. cbn [users_ with_users_]. rewrite tally_app. unfold tally at 2. cbn. destruct (paid t' u); cbn; lia. }
  destruct (increment_done t 1 w Hinv Hinc) as (H0 & H1 & H2 & H3). cbn [fst snd] in *.
  split; [cbn; rewrite fmap_app; by apply NoDup_append|].
  split; [cbn; by destruct (_ && _)|]. intros t'. cbn [fst snd] in *. rewrite Hp.
  assert (paid t' u = String.eqb t t' && String.eqb ty "user") as -> by (unfold paid, live_user, u; cbn; by rewrite andb_true_r).
  rewrite andb_true_r in *. destruct (String.eqb ty "user"); [|rewrite andb_false_r; destruct (Hok t'); rewrite Z.add_0_r; done]. rewrite andb_true_r.
  destruct (Hok t') as [Hc Hl]. rewrite H3. destruct (String.eqb t t') eqn:Et; breflect.
  - subst t'. rewrite H1, Hc. pose proof (law_check t w Hinv Ech) as Hck. rewrite Hc in Hck. unfold paid_users in *. split; [lia|]. intros Hn. lia.
  - rewrite H2, Z.add_0_r by congruence. done.
Qed.

Lemma is_user_one s id t u v : NoDup (uID <$> users_ s) -> u ∈ users_ s -> v ∈ users_ s -> is_user id t u = true -> is_user id t v = true -> u = v.
Proof. unfold is_user. intros Hnd Hu Hv H1 H2. breflect. eapply (NoDup_proj_eq uID); [done..|congruence]. Qed.

(** Replacing one row. *)
Lemma paid_replace s p f u t' : NoDup (uID <$> users_ s) -> u ∈ users_ s -> p u = true -> (forall v, v ∈ users_ s -> p v = true -> v = u) ->
  paid_users t' (with_users_ (update p f (users_ s)) s) + (if paid t' u then 1 else 0) = paid_users t' s + (if paid t' (f u) then 1 else 0).
Proof.
  intros Hnd [i Hi]%list_elem_of_lookup Hp Hone. unfold paid_users. cbn [users_ with_users_].
  rewrite (update_as_insert p f (users_ s) i u Hi Hp).
  2:{ intros j v Hj Hv. assert (v = u) as -> by (apply Hone; [by eapply list_elem_of_lookup_2|done]).
      eapply (NoDup_lookup (uID <$> users_ s)); [done| |]; rewrite list_lookup_fmap; [rewrite Hj|rewrite Hi]; done. }
  pose proof (tally_insert (paid t') (users_ s) i u (f u) Hi). destruct (paid t' u), (paid t' (f u)); lia.
Qed.

Lemma paid_set_user t' n ro q now u : paid t' (set_user n ro (uStatus u) q now u) = paid t' u.
Proof. done. Qed.

(** Rewriting a row that stays as paid as it was. *)
Lemma rewrite_user s w id t u u' : NoDup (uID <$> users_ s) -> u ∈ users_ s -> is_user id t u = true -> uID u' = uID u -> (forall t', paid t' u' = paid t' u) ->
  seats_ok (s, w) -> seats_ok (with_users_ (update (is_user id t) (fun _ => u') (users_ s)) s, w).
Proof.
  intros Hnd Hin Hiu Hid Hpaid (_ & Hinv & Hok). assert (forall v, v ∈ users_ s -> is_user id t v = true -> v = u) as Hone by (intros v Hv Hp; by eapply (is_user_one s id t)).
  split; [cbn; rewrite update_proj_elem; [done|]; intros v Hv Hp; by rewrite (Hone v Hv Hp)|]. split; [done|]. intros t'. cbn [fst snd].
  pose proof (paid_replace s (is_user id t) (fun _ => u') u t' Hnd Hin Hiu Hone) as Hp. rewrite Hpaid in Hp. destruct (Hok t') as [H1 H2]. cbn [fst snd] in *.
  replace (paid_users t' (with_users_ _ s)) with (paid_users t' s) by lia. done.
Qed.

Lemma update_counts d now t id input s w r s' : uu_Status input = None -> UpdateUser d now t id input s = (r, s') -> seats_ok (s, w) -> seats_ok (s', w).
Proof.
  intros Hst Hu Hok. unfold UpdateUser in Hu. destruct (_ || _); [by simplify_eq|]. rewrite Hst in Hu.
  assert (forall n ro q, run d (fun s => match List.find (is_user id t) (users_ s) with
      | None => Err ErrNotFound_
      | Some u => Ok (set_user (default (DisplayName u) n) (default (Role u) ro) (uStatus u) (default (QuotaBytes u) q) now u,
          with_users_ (update (is_user id t) (fun _ => set_user (default (DisplayName u) n) (default (Role u) ro) (uStatus u) (default (QuotaBytes u) q) now u) (users_ s)) s)
      end) s = (r, s') -> seats_ok (s', w)) as Hgo.
  { intros n ro q Hr. change s' with (r, s').2. rewrite <- Hr. apply (BeginFunc_ind (fun s => seats_ok (s, w))); [done|]. intros a s2.
    destruct (List.find (is_user id t) (users_ s)) as [u|] eqn:Ef; [|done]. apply find_elem in Ef as [Hin Hiu]. intros [= _ <-].
    apply (rewrite_user s w id t u); [apply Hok|done|done|done|done|done]. }
  destruct (uu_DisplayName input), (uu_Role input), (uu_QuotaBytes input); try (destruct (_ || _) in Hu; [by simplify_eq|]); first [by eapply Hgo | by simplify_eq].
Qed.

Lemma delete_counts d now t id s w r s' w' : d <> ReplyLost -> DeleteUser true d now t id s w = (r, s', w') -> (IncrementSeats t (-1) w).1 = true ->
  seats_ok (s, w) -> seats_ok (s', w').
Proof.
  intros Hd Hdel Hinc (Hnd & Hinv & Hok). unfold DeleteUser in Hdel. destruct (_ || _); [by simplify_eq|].
  destruct (run d _ s) as [x s1] eqn:Er. apply run_not_lost in Er as [[-> [e ->]]|(v & Hf & ->)]; [by simplify_eq| |done].
  destruct (List.find _ (users_ s)) as [u|] eqn:Ef; [|by simplify_eq]. injection Hf as <- <-. injection Hdel as _ <- <-.
  apply find_elem in Ef as [Hin Hu]. set (p := fun u => is_user id t u && live_user u) in *.
  set (f := fun u => set_user (DisplayName u) (Role u) "deleted" (QuotaBytes u) now u).
  assert (forall v, v ∈ users_ s -> p v = true -> v = u) as Hone.
  { intros v Hv Hp. apply andb_prop in Hp as [Hp _], Hu as [Hu _]. by eapply (is_user_one s id t). }
  assert (forall t', paid t' (f u) = false) as Hgone by (intros t'; unfold paid, live_user; cbn; by rewrite andb_false_r).
  assert (forall t', paid t' u = String.eqb t t' && String.eqb (AccountType u) "user") as Hpu.
  { intros t'. apply andb_prop in Hu as [[_ Ht]%andb_prop Hlive]. apply String.eqb_eq in Ht. unfold paid. by rewrite Ht, Hlive, andb_true_r. }
  destruct (increment_done t (-1) w Hinv Hinc) as (H0 & H1 & H2 & H3). cbn [fst snd] in *.
  split; [cbn; rewrite update_proj_elem; [done|]; by intros v _ _|]. split; [cbn [snd]; by destruct (String.eqb (AccountType u) "user" && true)|]. intros t'. cbn [fst snd] in *.
  pose proof (paid_replace s p f u t' Hnd Hin Hu Hone) as Hp. rewrite Hgone, Hpu in Hp. destruct (Hok t') as [Hc Hl]. rewrite andb_true_r.
  destruct (String.eqb (AccountType u) "user"); [|rewrite andb_false_r in Hp; replace (paid_users t' (with_users_ _ s)) with (paid_users t' s) by lia; done].
  rewrite andb_true_r in Hp. rewrite H3. destruct (String.eqb t t') eqn:Et; breflect.
  - subst t'. rewrite H1, Hc. unfold paid_users in *. split; [lia|]. intros Hn. specialize (Hl Hn). lia.
  - rewrite H2 by congruence. replace (paid_users t' (with_users_ _ s)) with (paid_users t' s) by lia. done.
Qed.

(** C17: Seats are counted and the limit is kept.  Over any sequence of calls
    that create, edit and delete users (one after the other, counter updates
    done, no edit of a status), the seat counter of every tenant is the number
    of its live accounts of type user, service and shared-inbox accounts not
    counted, and never more than the limit, if one is set. *)
Theorem seats_within_limit x y : seats_ok x -> rtc ustep x y -> seats_ok y.
Proof.
  intros H0 Hr. induction Hr as [|x y z Hs _ IH]; [done|]. apply IH. destruct Hs; [by eapply create_counts|by eapply update_counts|by eapply delete_counts].
Qed.
End seat_runs.

(** ** The billing service accounts for seats *)
Section billing_seats.
Variable cfg : Config.
(** How the calls fare, which may depend on anything. *)
Variables (check_fate count_fate : string -> DB -> delivery).
Hypothesis wired : Pool cfg = true.

#[local] Instance billing_seats : SeatAccounter DB := {|
  CheckSeat t s := match CheckSeatAvailable cfg (check_fate t s) t s with Ok _ => None | Err _ => Some ErrSeats end;
  IncrementSeats t delta s := let '(r, s') := IncrementSeatCount cfg (count_fate t s) t delta s in (match r with Ok _ => true | Err _ => false end, s');
|}.

Definition quota_seats (s : DB) (t : string) : Z := default 0 (SeatCount <$> quotas s !! t).
Definition quota_limit (s : DB) (t : string) : Z := default 0 (SeatLimit <$> quotas s !! t).

Lemma billing_check t s : db_ok s -> CheckSeat t s = None -> quota_limit s t = 0 \/ quota_seats s t + 1 <= quota_limit s t.
Proof.
  intros Hs. cbn. unfold CheckSeatAvailable, GetQuota, quota_limit, quota_seats. destruct (String.eqb t ""); [done|]. rewrite wired. cbn.
  destruct (check_fate t s); [|done..]. cbn. destruct (quotas s !! t) as [q|] eqn:Eq; cbn; [|by left].
  destruct (quota_ok_bounds q (ok_row _ Hs _ _ Eq)) as (_ & _ & H1 & H2). destruct (Z.eqb_spec (SeatLimit q) 0); [by left|].
  rewrite wrap64_id by (unfold int64_min, int64_max; lia). destruct (Z.ltb_spec (SeatLimit q) (SeatCount q + 1)); [done|by right].
Qed.

(** An upsert of the number of seats. *)
Lemma upsert_seats t n f s s' : db_ok s -> upsert_quota t (set_seats n) (fun q => set_seats (f q) q) s = Ok s' ->
  db_ok s' /\ quota_seats s' t = (match quotas s !! t with Some q => f q | None => n end) /\
  (forall t', t' <> t -> quota_seats s' t' = quota_seats s t') /\ forall t', quota_limit s' t' = quota_limit s t'.
Proof.
  unfold upsert_quota, quota_seats, quota_limit. intros Hs. destruct (quotas s !! t) as [q|] eqn:Eq; intros Hu; apply put_quota_ok in Hu as (Hs' & _ & _ & _ & ->); try done;
    cbn; (split_and!; [done|by rewrite lookup_insert_eq|intros t' Hne; by rewrite lookup_insert_ne|]);
    intros t'; (destruct (decide (t' = t)) as [->|]; [by rewrite lookup_insert_eq, Eq|by rewrite lookup_insert_ne]).
Qed.

Lemma billing_count t delta s s' : db_ok s -> IncrementSeats t delta s = (true, s') ->
  db_ok s' /\ quota_seats s' t = Z.max 0 (quota_seats s t + delta) /\ (forall t', t' <> t -> quota_seats s' t' = quota_seats s t') /\
  forall t', quota_limit s' t' = quota_limit s t'.
Proof.
  intros Hs. cbn. unfold IncrementSeatCount. destruct (String.eqb t ""); [done|]. rewrite wired. cbn.
  destruct (BeginFunc _ _ _ s) as [[[]|] s1] eqn:Eb; [|done]. intros [= ->]. unfold BeginFunc in Eb.
  destruct (negb _); [by destruct (count_fate t s)|]. destruct (upsert_quota t _ _ s) as [s2|] eqn:Eu; cbn in Eb; [|by destruct (count_fate t s)].
  destruct (add_event _ s2) as [s3|] eqn:Ee; cbn in Eb; [|by destruct (count_fate t s)]. apply add_event_ok in Ee as ->.
  assert (s' = with_events (events s2 ++ [mkEvent t (if delta <? 0 then "seat_removed" else "seat_added") (Some delta) None None MetaEmpty (now s2)]) s2) as ->
    by (destruct (count_fate t s); by injection Eb).
  apply upsert_seats in Eu as (H1 & H2 & H3 & H4); [|done]. split; [by apply with_events_ok|]. split_and!; [|done|done].
  change (quota_seats (with_events _ s2) t) with (quota_seats s2 t). rewrite H2. unfold quota_seats. by destruct (quotas s !! t).
Qed.

#[local] Instance billing_seat_laws : SeatLaws DB := {|
  seat_inv := db_ok; seat_count := quota_seats; seat_limit := quota_limit; law_check := billing_check; law_increment := billing_count;
|}.
End billing_seats.

(** ** Concrete runs *)
Module TenantExamples.
Definition t1 : string := "11111111-1111-4111-8111-111111111111".
Definition hook (name : string) : option (string -> string -> list string -> bool * list string) := Some (fun id plan w => (true, w ++ [(name ++ plan)%string])).
Definition broken (id plan : string) (w : list string) : bool * list string := (false, w).
Definition none : tdb := mkTDB [] [] [] [] [].
(** Another pod creates the tenant between the lookup and the insert. *)
Definition rival (s : tdb) : tdb := if has_tenant t1 s then s else with_tenants_ (tenants_ s ++ [mkTenant t1 "Draft" "draft" "core" "active" 1 1]) s.
Definition race : ensure_env := mkEnsureEnv Delivered Delivered Delivered Delivered 5 rival Datatypes.id Datatypes.id.
Definition quiet_env : ensure_env := mkEnsureEnv Delivered Delivered Delivered Delivered 5 Datatypes.id Datatypes.id Datatypes.id.
Definition wanted : EnsureTenantInput := mkEnsure t1 " Acme " "acme" "pro" true.
Definition settled : Tenant := mkTenant t1 "Acme" "acme" "pro" "active" 1 5.

Lemma rival_keeps : undisturbed t1 race.
Proof.
  split_and!; [|intros s t Hr; exact Hr..]. intros s t Hr. cbn. unfold rival. destruct (has_tenant t1 s) eqn:E; [done|].
  apply find_elem in Hr as [Hin Ht]. unfold has_tenant in E. rewrite existsb_false in E. by rewrite (E _ Hin) in Ht.
Qed.

Lemma ensure_tenant_converges_witness :
  EnsureTenant (hook "bucket:") (hook "quota:") (fun _ => true) race wanted none [] = (Some settled, false, None, with_tenants_ [settled] none, ["bucket:pro"; "quota:pro"]%string) /\
  exists t, Some settled = Some t /\
    converged (hook "bucket:") (hook "quota:") wanted t false (with_tenants_ [settled] none) [] ["bucket:pro"; "quota:pro"]%string.
Proof.
  split; [vm_compute; reflexivity|].
  apply (ensure_tenant_converges (hook "bucket:") (hook "quota:") (fun _ => true) race wanted none); [apply rival_keeps|vm_compute; reflexivity].
Defined.

(** A first lazy provision whose hook fails leaves the row; the next one
    reports the tenant provisioned and runs no hook. *)
Lemma failed_hooks_are_forgotten :
  let '(ok1, s1, w1) := lazy_EnsureTenant (Some broken) (hook "quota:") (fun _ => true) quiet_env t1 none [] in
  let '(ok2, s2, w2) := lazy_EnsureTenant (hook "bucket:") (hook "quota:") (fun _ => true) quiet_env t1 s1 w1 in
  ok1 = false /\ ok2 = true /\ w2 = [].
Proof. by vm_compute. Qed.

(** Seats, counted by the billing service: a limit of one. *)
Definition cfg : Config := NewService (mkConfig true 0 0 0 0 0 0).
Definition fine (t : string) (s : DB) : delivery := Delivered.
Definition plan_row : Billing.Tenant := Billing.mkTenant "core" "active".
Definition books : DB := mkDB {[ t1 := mkQuota t1 0 0 0 1 0 0 ]} {[ t1 := plan_row ]} [] [] ∅ [] 0.
Definition home : tdb := with_tenants_ [settled] none.
#[local] Instance acme_seats : SeatAccounter DB := billing_seats cfg fine fine.
#[local] Instance acme_laws : SeatLaws DB := billing_seat_laws cfg fine fine eq_refl.

Abbreviation create := (CreateUser true Delivered (fun x => x)).
Abbreviation remove := (DeleteUser true Delivered).
Definition alice : CreateUserInput := mkCreateUser "k1" "a1" "alice@acme.test" "Alice" "" 0 "".
Definition bob : CreateUserInput := mkCreateUser "k2" "a2" "bob@acme.test" "Bob" "admin" 0 "user".
Definition robot : CreateUserInput := mkCreateUser "k3" "a3" "robot@acme.test" "Robot" "" 0 "service".

Definition after {R} (x : R * tdb * DB) : tdb * DB := (x.1.2, x.2).
Definition y0 : tdb * DB := (home, books).
Definition y1 : tdb * DB := after (create 10 "u1" t1 alice y0.1 y0.2).
Definition y2 : tdb * DB := after (create 11 "u2" t1 robot y1.1 y1.2).
Definition y3 : tdb * DB := after (remove 12 t1 "u1" y2.1 y2.2).
Definition y4 : tdb * DB := after (create 13 "u3" t1 bob y3.1 y3.2).

Lemma books_ok : db_ok books.
Proof. split; cbn [quotas tenants books]; intros t q Hq; apply lookup_singleton_Some in Hq as [<- <-]; [done|done|by exists plan_row]. Qed.

Lemma created_step now id t input x : id ∉ (uID <$> users_ x.1) -> (IncrementSeats t 1 x.2).1 = true -> ustep x (after (create now id t input x.1 x.2)).
Proof. destruct x as [s w]. cbn [fst snd]. intros H1 H2. destruct (create now id t input s w) as [[r s'] w'] eqn:E. eapply (U_create _ _ Delivered); [done|exact H1|exact E|exact H2]. Qed.
Lemma removed_step now t id x : (IncrementSeats t (-1) x.2).1 = true -> ustep x (after (remove now t id x.1 x.2)).
Proof. destruct x as [s w]. cbn [fst snd]. intros H1. destruct (remove now t id s w) as [[r s'] w'] eqn:E. eapply (U_delete _ _ Delivered); [done|exact E|exact H1]. Qed.

Lemma empty_ok : seats_ok y0.
Proof.
  split; [constructor|]. split; [apply books_ok|]. intros t. unfold paid_users. change (tally (paid t) (users_ y0.1)) with 0%nat.
  cbn [seat_count seat_limit acme_laws billing_seat_laws y0 snd]. unfold quota_seats, quota_limit. cbn [quotas books].
  destruct (decide (t = t1)) as [->|]; [rewrite lookup_singleton_eq; by split|]. by rewrite lookup_singleton_ne.
Qed.

Lemma seats_within_limit_witness :
  (quota_seats y4.2 t1, quota_limit y4.2 t1, paid_users t1 y4.1, length (users_ y4.1)) = (1, 1, 1, 3%nat) /\ seats_ok y4.
Proof.
  split; [vm_compute; reflexivity|]. apply (seats_within_limit y0 y4); [apply empty_ok|].
  apply (rtc_l _ _ y1); [exact (created_step 10 "u1" t1 alice y0 (not_elem_of_nil _) ltac:(vm_compute; reflexivity))|].
  apply (rtc_l _ _ y2); [refine (created_step 11 "u2" t1 robot y1 _ _); vm_compute; [set_solver|reflexivity]|].
  apply (rtc_l _ _ y3); [refine (removed_step 12 t1 "u1" y2 _); vm_compute; reflexivity|].
  apply (rtc_l _ _ y4); [refine (created_step 13 "u3" t1 bob y3 _ _); vm_compute; [set_solver|reflexivity]|apply rtc_refl].
Defined.

(** A third account of type user is refused while the limit is one ... *)
Lemma full_pool_is_refused : (create 14 "u4" t1 alice y4.1 y4.2).1.1 = Err ErrSeats.
Proof. by vm_compute. Qed.
(** ... but a deleted account made active again takes a seat that is neither
    checked nor counted. *)
Definition reactivate : UpdateUserInput := mkUpdateUser None None (Some "active"%string) None.
Definition y5 : tdb * DB := ((UpdateUser Delivered 15 t1 "u1" reactivate y4.1).2, y4.2).
Lemma reactivation_bypasses_limit : (paid_users t1 y5.1, quota_seats y5.2 t1, quota_limit y5.2 t1) = (2, 1, 1).
Proof. by vm_compute. Qed.

(** An account deleted through an update keeps its seat: the deletion that
    would release it does not find it. *)
Definition mark_deleted : UpdateUserInput := mkUpdateUser None None (Some "deleted"%string) None.
Lemma update_to_deleted_keeps_seat :
  let s := (UpdateUser Delivered 15 t1 "u3" mark_deleted y4.1).2 in
  (remove 16 t1 "u3" s y4.2).1.1 = Err ErrNotFound_ /\ paid_users t1 s = 0 /\ quota_seats (remove 16 t1 "u3" s y4.2).2 t1 = 1.
Proof. by vm_compute. Qed.

(** An account and an inbox of another tenant are accepted as a member and its
    inbox. *)
Definition t2 : string := "22222222-2222-4222-8222-222222222222".
Definition shared : tdb :=
  with_inboxes_ [mkInbox "i1" t1 "help@acme.test" "Help" "g" 0 0] (with_tenants_ [settled; mkTenant t2 "Other" "other" "core" "active" 0 0] y4.1).
Lemma foreign_member_is_accepted :
  exists m s, AddSharedInboxMember (W := unit) None Delivered Delivered 20 t2 "i1" "u3" "" shared tt = (Ok m, s, tt) /\
    mTenantID m = t2 /\ (iTenantID <$> inboxes_ s) = ([t1] : list string) /\
    (uTenantID <$> List.filter (fun u => String.eqb (uID u) (mUserID m)) (users_ s)) = ([t1] : list string).
Proof. eexists _, _. split; [vm_compute; reflexivity|]. by vm_compute. Qed.
End TenantExamples.
