(* ===== verification/BillingHooks.v ===== *)
(** * Events from outside ([internal/billing]: [storage_events.go],
      [storage_event_worker.go], [quota_worker.go], [webhook.go])

    Storage accounting by events: the webhook of the object store appends to
    [storage_events], a worker folds the totals into the quotas of [Billing],
    another compares them with a scan.  The webhook of Stripe moves the
    subscriptions of [Lifecycle].  HMAC, [url.QueryUnescape] and [::uuid]
    (canonical text, if it is one) are parameters; a body is what the limited
    reader gives, JSON what it decodes to; the audit service is represented by
    the entries it accepts. *)

From S2P Require Import Prelude Text Table Codec Billing Lifecycle.

Local Open Scope Z_scope.
Local Open Scope go_scope.

(** ** Signatures *)
Definition comma : Ascii.ascii := Ascii.ascii_of_nat 44.
Definition equals : Ascii.ascii := Ascii.ascii_of_nat 61.
Definition stripeReplayWindow : Z := 5 * Minute.
Definition storageEventReplayWindow : Z := 5 * Minute.

Inductive sigerror := MissingHeader | MalformedHeader | MalformedValue | Mismatch | MalformedTimestamp | OutsideWindow.

(** The values of [t] and [v1]; the last one counts. *)
Definition signature_part (acc : string * string) (kv : string) : string * string :=
  match split_first equals (TrimSpace kv) with
  | Some (k, v) => if String.eqb k "t" then (v, acc.2) else if String.eqb k "v1" then (acc.1, v) else acc
  | None => acc
  end.
Definition signature_parts (header : string) : string * string := foldl signature_part ("", "")%string (Split comma header).

Definition in_window (window now : Z) (t : string) : result sigerror unit :=
  match ParseInt t with
  | None => Err MalformedTimestamp
  | Some n => let delta := Sub now (time_Unix n) in if (window <? delta) || (delta <? - window) then Err OutsideWindow else Ok tt
  end.

Section signatures.
Context (hmac : string -> string -> list Z).

Definition signed_text (t body : string) : string := t +:+ "." +:+ body.

Definition storage_verify (secret header : string) (now : Z) (body : string) : result sigerror unit :=
  if String.eqb secret "" then Ok tt
  else if String.eqb header "" then Err MissingHeader
  else
    let '(t, v1) := signature_parts header in
    if String.eqb t "" || String.eqb v1 "" then Err MalformedHeader
    else match hex_decode v1 with
    | None => Err MalformedValue
    | Some sig => if negb (bool_decide (hmac secret (signed_text t body) = sig)) then Err Mismatch else in_window storageEventReplayWindow now t
    end.

Definition stripe_verify (secret header : string) (now : Z) (body : string) : result sigerror unit :=
  if String.eqb secret "" then Ok tt
  else if String.eqb header "" then Err MissingHeader
  else
    let '(t, v1) := signature_parts header in
    if String.eqb t "" || String.eqb v1 "" then Err MalformedHeader
    else if negb (String.eqb (hex_encode (hmac secret (signed_text t body))) v1) then Err Mismatch
    else in_window stripeReplayWindow now t.
End signatures.

(** ** The store of events ([storage_events.go]) *)
Definition EventObjectCreated : string := "object_created".
Definition EventObjectDeleted : string := "object_deleted".
Definition validStorageEventType (t : string) : bool := String.eqb t EventObjectCreated || String.eqb t EventObjectDeleted.

Record StorageEvent := mkSEvent { EventType : string; ObjectKey : string; SizeBytes : Z }.
Record srow := mkSRow { sr_tenant : string; sr_event : StorageEvent }.
Record hdb := mkHDB { srows : list srow; bill : DB }.

(** What an event adds. *)
Definition contribution (e : StorageEvent) : Z := if String.eqb (EventType e) EventObjectCreated then SizeBytes e else - SizeBytes e.
Definition event_total (t : string) (l : list srow) : Z :=
  foldl (fun z r => if String.eqb (sr_tenant r) t then z + contribution (sr_event r) else z) 0 l.

Section store.
Context (uuid : string -> option string) (pool : bool).

Definition RecordEvents (d : delivery) (tenantID : string) (events : list StorageEvent) (s : hdb) : result berror unit * hdb :=
  if String.eqb tenantID "" then (Err ErrInvalidInput, s)
  else if existsb (fun e => negb (validStorageEventType (EventType e)) || (SizeBytes e <? 0)) events then (Err ErrInvalidInput, s)
  else if negb pool || match events with [] => true | _ => false end then (Ok tt, s)
  else BeginFunc ErrStore d (fun s =>
    match uuid tenantID with
    | None => Err ErrStore
    | Some t =>
        if bool_decide (is_Some (tenants (bill s) !! t)) then Ok (tt, mkHDB (srows s ++ (mkSRow t <$> events)) (bill s)) else Err ErrStore
    end) s.
Definition RecordEvent (d : delivery) (tenantID eventType objectKey : string) (sizeBytes : Z) : hdb -> result berror unit * hdb :=
  RecordEvents d tenantID [mkSEvent eventType objectKey sizeBytes].

(** [SUM] is exact; a total out of range is not scanned into an [int64]. *)
Definition ReconcileTenant (d : delivery) (tenantID : string) (s : hdb) : result berror Z :=
  if String.eqb tenantID "" then Err ErrInvalidInput
  else if negb pool then Ok 0
  else (BeginFunc ErrStore d (fun s =>
    match uuid tenantID with
    | None => Err ErrStore
    | Some t => let total := event_total t (srows s) in if fits64 total then Ok (total, s) else Err ErrStore
    end) s).1.
End store.

(** [order]: as the rows come. *)
Definition active_ids (s : hdb) : list string :=
  (List.filter (fun kv => negb (String.eqb (t_status kv.2) "deleted")) (map_to_list (tenants (bill s)))).*1.
Definition listActiveTenantIDs (order : list string -> list string) (d : delivery) (s : hdb) : result berror (list string) :=
  match d with Delivered => Ok (order (active_ids s)) | _ => Err ErrStore end.

(** ** The worker that folds totals into quotas ([storage_event_worker.go]) *)
(** [snapshots]: the entries the audit service took. *)
Record wstate := mkWState { lastTotal : gmap string Z; snapshots : list (string * Z) }.
(** The fates of the calls for a tenant; [None]: no audit service. *)
Record fates := mkFates { f_read : delivery; f_write : delivery; f_audit : option delivery }.

Definition taken (audit : option delivery) : bool := match audit with Some Delivered | Some ReplyLost => true | _ => false end.
Definition auditSnapshot (audit : option delivery) (tenantID : string) (total : Z) (w : wstate) : wstate :=
  let prev := lastTotal w !! tenantID in
  mkWState (<[tenantID := total]> (lastTotal w))
    (if negb (bool_decide (prev = Some total)) && taken audit then snapshots w ++ [(tenantID, total)] else snapshots w).

Section workers.
Context (uuid : string -> option string) (cfg : Config) (order : list string -> list string).

Definition reconcile_one (F : string -> fates) (x : hdb * wstate) (id : string) : hdb * wstate :=
  let '(s, w) := x in
  match ReconcileTenant uuid true (f_read (F id)) id s with
  | Err _ => (s, w)
  | Ok total =>
      let total := if total <? 0 then 0 else total in
      match SetStorageUsage cfg (f_write (F id)) id total (bill s) with
      | (Err _, b) => (mkHDB (srows s) b, w)
      | (Ok _, b) => (mkHDB (srows s) b, auditSnapshot (f_audit (F id)) id total w)
      end
  end.
Definition event_tick (d : delivery) (F : string -> fates) (s : hdb) (w : wstate) : result berror unit * (hdb * wstate) :=
  match listActiveTenantIDs order d s with
  | Err e => (Err e, (s, w))
  | Ok ids => (Ok tt, foldl (reconcile_one F) (s, w) ids)
  end.

(** ** The worker that scans ([quota_worker.go]) *)
Inductive ReconciliationMode := ModePoll | ModeEvent.
(** [mode]: the one configured; [env]: the variable is [true]; [events]: there
    is a store of events. *)
Definition resolveMode (mode : option ReconciliationMode) (env events : bool) : ReconciliationMode :=
  match default (if env then ModeEvent else ModePoll) mode with
  | ModeEvent => if events then ModeEvent else ModePoll
  | ModePoll => ModePoll
  end.
Definition resolveInterval (interval driftInterval : Z) (mode : ReconciliationMode) : Z :=
  match mode with
  | ModeEvent => if 0 <? driftInterval then driftInterval else Hour
  | ModePoll => if 0 <? interval then interval else 5 * Minute
  end.

(** The scanner; [None]: an error. *)
Context (ScanTenantBytes : string -> option Z).

Definition poll_one (F : string -> fates) (s : hdb) (id : string) : hdb :=
  match ScanTenantBytes id with
  | None => s
  | Some bytes => if bytes <? 0 then s else mkHDB (srows s) (SetStorageUsage cfg (f_write (F id)) id bytes (bill s)).2
  end.
Definition pollTick (d : delivery) (F : string -> fates) (s : hdb) : result berror unit * hdb :=
  match listActiveTenantIDs order d s with Err e => (Err e, s) | Ok ids => (Ok tt, foldl (poll_one F) s ids) end.

(** The gauge (of wired metrics, before it becomes a float64) and the audit entries: tenant,
    scan, total, drift. *)
Record dstate := mkDState { driftBytes : gmap string Z; drifts : list (string * Z * Z * Z) }.
Definition pruneDriftLabels (active : list string) (w : dstate) : dstate :=
  mkDState (filter (fun kv => kv.1 ∈ active) (driftBytes w)) (drifts w).
Definition drift_one (F : string -> fates) (s : hdb) (w : dstate) (id : string) : dstate :=
  match ScanTenantBytes id with
  | None => w
  | Some actual =>
      if actual <? 0 then w
      else match ReconcileTenant uuid true (f_read (F id)) id s with
      | Err _ => w
      | Ok eventTotal =>
          let drift := wrap64 (actual - eventTotal) in
          mkDState (<[id := drift]> (driftBytes w))
            (if negb (drift =? 0) && taken (f_audit (F id)) then drifts w ++ [(id, actual, eventTotal, drift)] else drifts w)
      end
  end.
Definition driftTick (d : delivery) (F : string -> fates) (s : hdb) (w : dstate) : result berror unit * dstate :=
  match listActiveTenantIDs order d s with
  | Err e => (Err e, w)
  | Ok ids => (Ok tt, foldl (drift_one F s) (pruneDriftLabels ids w) ids)
  end.
Definition quota_tick (mode : ReconciliationMode) (d : delivery) (F : string -> fates) (s : hdb) (w : dstate) : result berror unit * hdb * dstate :=
  match mode with
  | ModeEvent => let '(r, w) := driftTick d F s w in (r, s, w)
  | ModePoll => let '(r, s) := pollTick d F s in (r, s, w)
  end.
End workers.

(** ** The webhook of the object store *)
Definition bucketPrefix : string := "kmail-".
Record s3NotificationRecord := mkRecord { EventName : string; Bucket : string; Key : string; Size : option Z }.

Definition classifyEventName (name : string) : option string :=
  if HasPrefix name "s3:ObjectCreated:" then Some EventObjectCreated
  else if HasPrefix name "s3:ObjectRemoved:" then Some EventObjectDeleted
  else None.
Definition tenantIDFromBucket (bucket : string) : string :=
  let b := TrimSpace bucket in
  let n := String.length bucketPrefix in
  if (n <? String.length b)%nat && EqualFold (String.substring 0 n b) bucketPrefix then String.substring n (String.length b - n) b else "".

(** Batches in the order in which their tenants appear. *)
Fixpoint add_pending (t : string) (e : StorageEvent) (l : list (string * list StorageEvent)) : list (string * list StorageEvent) :=
  match l with
  | [] => [(t, [e])]
  | (t', es) :: l => if String.eqb t' t then (t', es ++ [e]) :: l else (t', es) :: add_pending t e l
  end.

(** An audit entry: created, deleted, net bytes. *)
Record ingested := mkIngested { in_tenant : string; in_created : Z; in_deleted : Z; in_net : Z }.
Definition tallies (t : string) (es : list StorageEvent) : ingested :=
  let created := String.eqb EventObjectCreated ∘ EventType in
  mkIngested t (Z.of_nat (length (List.filter created es))) (Z.of_nat (length (List.filter (fun e => negb (created e)) es)))
    (foldl (fun z e => wrap64 (z + contribution e)) 0 es).

Section storage_webhook.
Context (hmac : string -> string -> list Z) (uuid query_unescape : string -> option string) (pool : bool) (secret : string).
Context (decode : string -> option (list s3NotificationRecord)).

Definition decodeObjectKey (key : string) : string := default key (query_unescape key).
Definition route (r : s3NotificationRecord) : option (string * StorageEvent) :=
  match classifyEventName (EventName r) with
  | None => None
  | Some ty => let t := tenantIDFromBucket (Bucket r) in if String.eqb t "" then None else Some (t, mkSEvent ty (decodeObjectKey (Key r)) (default 0 (Size r)))
  end.
Definition group (recs : list s3NotificationRecord) : list (string * list StorageEvent) :=
  foldl (fun l r => match route r with Some (t, e) => add_pending t e l | None => l end) [] recs.

(** A request: the body, [None] if it is not read, and the header. *)
Record hrequest := mkHRequest { h_body : option string; h_signature : string }.

(** [fate]: of the transaction and the audit entry of a tenant. *)
Definition record_batch (fate : string -> delivery * option delivery) (x : bool * hdb * list ingested) (b : string * list StorageEvent) : bool * hdb * list ingested :=
  let '(failed, s, trail) := x in
  let '(r, s) := RecordEvents uuid pool (fate b.1).1 b.1 b.2 s in
  match r with
  | Err _ => (true, s, trail)
  | Ok _ => (failed, s, if taken (fate b.1).2 then trail ++ [tallies b.1 b.2] else trail)
  end.
(** The status, the tables and the audit entries. *)
Definition storage_serve (fate : string -> delivery * option delivery) (now : Z) (r : hrequest) (s : hdb) (trail : list ingested) : Z * hdb * list ingested :=
  match h_body r with
  | None => (400, s, trail)
  | Some body =>
      match storage_verify hmac secret (h_signature r) now body with
      | Err _ => (401, s, trail)
      | Ok _ =>
          match decode body with
          | None => (400, s, trail)
          | Some recs => let '(failed, s, trail) := foldl (record_batch fate) (false, s, trail) (group recs) in ((if failed then 500 else 204), s, trail)
          end
      end
  end.
End storage_webhook.

(** ** The webhook of Stripe ([webhook.go]) *)
Definition mapStripeStatus (s : string) : string :=
  if existsb (String.eqb s) ["active"; "trialing"] then SubscriptionActive
  else if existsb (String.eqb s) ["past_due"; "unpaid"; "incomplete"; "incomplete_expired"] then SubscriptionPastDue
  else if existsb (String.eqb s) ["canceled"; "cancelled"] then SubscriptionCancelled
  else SubscriptionActive%string.
Definition validSubscriptionStatus (s : string) : bool :=
  existsb (String.eqb s) ["active"; "trialing"; "past_due"; "unpaid"; "canceled"; "cancelled"; "incomplete"; "incomplete_expired"]%string.

(** [so_tenant]: [metadata.tenant_id]. *)
Record subscriptionObject := mkSubObject { so_ID : string; so_Status : string; so_tenant : string; CurrentPeriodStart : Z; CurrentPeriodEnd : Z }.
(** An event by its type and what its object decodes to as a payment (the
    tenant), a checkout session (its id) and a subscription. *)
Record stripeEvent := mkStripeEvent { ev_Type : string; as_payment : option string; as_session : option string; as_subscription : option subscriptionObject }.

Section stripe_webhook.
Context {G : Type} (hmac : string -> string -> list Z) (uuid : string -> option string) (secret : string).
(** The tenant service completes a signup; [None]: not wired. *)
Context (lifecycle : option Lifecycle) (CompleteCheckoutSignup : option (string -> G -> bool * G)) (decode : string -> option stripeEvent).

Definition tenantIDFromObject (ev : stripeEvent) : string := default ""%string (as_payment ev).

(** [UPDATE billing_subscriptions ... WHERE tenant_id = $1::uuid]. *)
Definition update_subscription (l : Lifecycle) (d : delivery) (tenantID : string) (f : Subscription -> Subscription) (s : DB) : bool * DB :=
  if String.eqb tenantID "" || negb (Pool (svc l)) then (true, s)
  else
    let '(r, s) := BeginFunc ErrStore d (fun s =>
      match uuid tenantID with
      | None => Err ErrStore
      | Some t =>
          match subscriptions s !! t with
          | None => Ok (tt, s)
          | Some x => if sub_ok t (f x) s then Ok (tt, with_subscriptions (<[t := f x]> (subscriptions s)) s) else Err ErrStore
          end
      end) s in
    (match r with Ok _ => true | Err _ => false end, s).

Definition set_status (status : string) (x : Subscription) : Subscription := mkSub (s_plan x) status (s_stripe x) (s_customer x) (s_start x) (s_end x).
Definition markActive (l : Lifecycle) (d : delivery) (ev : stripeEvent) : DB -> bool * DB := update_subscription l d (tenantIDFromObject ev) (set_status SubscriptionActive).
Definition markPastDue (l : Lifecycle) (d : delivery) (ev : stripeEvent) : DB -> bool * DB := update_subscription l d (tenantIDFromObject ev) (set_status SubscriptionPastDue).
Definition applySubscriptionUpdate (l : Lifecycle) (d : delivery) (ev : stripeEvent) (s : DB) : bool * DB :=
  match as_subscription ev with
  | None => (false, s)
  | Some sub =>
      if String.eqb (so_tenant sub) "" || negb (Pool (svc l)) then (true, s)
      else
        let status := if String.eqb (so_Status sub) "" then "active"%string else so_Status sub in
        if negb (validSubscriptionStatus status) then (false, s)
        else update_subscription l d (so_tenant sub)
               (fun x => mkSub (s_plan x) (mapStripeStatus status) (Some (so_ID sub)) (s_customer x)
                           (time_Unix (CurrentPeriodStart sub)) (time_Unix (CurrentPeriodEnd sub))) s
  end.
Definition completeSignup (ev : stripeEvent) (g : G) : bool * G :=
  match CompleteCheckoutSignup with
  | None => (true, g)
  | Some complete =>
      match as_session ev with
      | None => (false, g)
      | Some id => if String.eqb id "" then (true, g) else complete id g
      end
  end.

(** Did it succeed. *)
Definition stripe_dispatch (d : delivery) (ev : stripeEvent) (s : DB) (g : G) : bool * DB * G :=
  if String.eqb (ev_Type ev) "checkout.session.completed" then let '(ok, g) := completeSignup ev g in (ok, s, g)
  else match lifecycle with
  | None => (true, s, g)
  | Some l =>
      let '(ok, s) :=
        if existsb (String.eqb (ev_Type ev)) ["payment_intent.succeeded"; "invoice.paid"]%string then markActive l d ev s
        else if String.eqb (ev_Type ev) "invoice.payment_failed" then markPastDue l d ev s
        else if existsb (String.eqb (ev_Type ev)) ["customer.subscription.updated"; "customer.subscription.deleted"]%string then applySubscriptionUpdate l d ev s
        else (true, s) in (ok, s, g)
  end.

Definition stripe_serve (d : delivery) (now : Z) (r : hrequest) (s : DB) (g : G) : Z * DB * G :=
  match h_body r with
  | None => (400, s, g)
  | Some body =>
      match stripe_verify hmac secret (h_signature r) now body with
      | Err _ => (400, s, g)
      | Ok _ =>
          match decode body with
          | None => (400, s, g)
          | Some ev => let '(ok, s, g) := stripe_dispatch d ev s g in ((if ok then 204 else 500), s, g)
          end
      end
  end.
End stripe_webhook.

(** ** Who may write *)
Section authenticity.
Context (hmac : string -> string -> list Z).
Hypothesis hmac_bytes : forall k m, Forall byte (hmac k m).

(** The header carries the MAC of the body under the secret, made within five
    minutes of [now]. *)
Definition signed_now (secret header body : string) (now : Z) : Prop :=
  exists t v1 n, signature_parts header = (t, v1) /\ hex_decode v1 = Some (hmac secret (signed_text t body)) /\
    ParseInt t = Some n /\ Z.abs (Sub now (time_Unix n)) <= 5 * Minute.

Lemma in_window_ok now t : in_window (5 * Minute) now t = Ok tt -> exists n, ParseInt t = Some n /\ Z.abs (Sub now (time_Unix n)) <= 5 * Minute.
Proof. unfold in_window. destruct (ParseInt t) as [n|]; [|done]. destruct (_ || _) eqn:E; [done|]. exists n. split; [done|]. apply orb_false_iff in E as [H1%Z.ltb_ge H2%Z.ltb_ge]. lia. Qed.

Lemma storage_verify_ok secret header now body : secret <> ""%string -> storage_verify hmac secret header now body = Ok tt -> signed_now secret header body now.
Proof.
  intros Hs%String.eqb_neq. unfold storage_verify. rewrite Hs. destruct (String.eqb header ""); [done|]. destruct (signature_parts header) as [t v1] eqn:Ep.
  destruct (_ || _); [done|]. destruct (hex_decode v1) as [sig|] eqn:Eh; [|done]. case_bool_decide as Em; [|done]. cbn. intros (n & Hn & Hw)%in_window_ok.
  exists t, v1, n. by rewrite Em.
Qed.
Lemma stripe_verify_ok secret header now body : secret <> ""%string -> stripe_verify hmac secret header now body = Ok tt -> signed_now secret header body now.
Proof.
  intros Hs%String.eqb_neq. unfold stripe_verify. rewrite Hs. destruct (String.eqb header ""); [done|]. destruct (signature_parts header) as [t v1] eqn:Ep.
  destruct (_ || _); [done|]. destruct (String.eqb (hex_encode _) v1) eqn:Em; [|done]. cbn. intros (n & Hn & Hw)%in_window_ok.
  exists t, v1, n. apply String.eqb_eq in Em as <-. by rewrite hex_round_trip.
Qed.

(** Only the holder of the secret moves money or storage.  With a secret
    configured, a request to the webhook of the object store or of Stripe
    leaves the tables, the audit trail and the signups as they were, unless its
    header carries the HMAC of its timestamp and body under the secret, and
    the timestamp is within five minutes of now. *)
Theorem webhooks_need_signature {G} secret now r : secret <> ""%string ->
  (forall uuid unescape pool decode fate s trail c s' trail',
     storage_serve hmac uuid unescape pool secret decode fate now r s trail = (c, s', trail') ->
     (s' = s /\ trail' = trail) \/ exists body, h_body r = Some body /\ signed_now secret (h_signature r) body now) /\
  (forall uuid lifecycle complete decode d s (g : G) c s' g',
     stripe_serve hmac uuid secret lifecycle complete decode d now r s g = (c, s', g') ->
     (s' = s /\ g' = g) \/ exists body, h_body r = Some body /\ signed_now secret (h_signature r) body now).
Proof.
  intros Hs. split.
  - intros uuid unescape pool decode fate s trail c s' trail'. unfold storage_serve. destruct (h_body r) as [body|]; [|intros [= _ <- <-]; by left].
    destruct (storage_verify _ _ _ _ _) as [[]|] eqn:Ev; [|intros [= _ <- <-]; by left]. intros _. right. exists body. split; [done|]. by apply storage_verify_ok.
  - intros uuid lifecycle complete decode d s g c s' g'. unfold stripe_serve. destruct (h_body r) as [body|]; [|intros [= _ <- <-]; by left].
    destruct (stripe_verify _ _ _ _ _) as [[]|] eqn:Ev; [|intros [= _ <- <-]; by left]. intros _. right. exists body. split; [done|]. by apply stripe_verify_ok.
Qed.
End authenticity.

(** ** What an event of Stripe may touch *)
Section stripe_frame.
Context {G : Type} (uuid : string -> option string) (lifecycle : option Lifecycle) (complete : option (string -> G -> bool * G)).

(** [s'] is [s] but for the subscription of [t]; a new row passes the checks. *)
Definition only_subscription (t : option string) (s s' : DB) : Prop :=
  s' = s \/ exists id x y, t = Some id /\ subscriptions s !! id = Some x /\ s_plan y = s_plan x /\ s_customer y = s_customer x /\ sub_ok id y s = true /\
    s' = with_subscriptions (<[id := y]> (subscriptions s)) s.

Lemma update_subscription_only l d tenantID f s : (forall x, s_plan (f x) = s_plan x /\ s_customer (f x) = s_customer x) ->
  only_subscription (uuid tenantID) s (update_subscription uuid l d tenantID f s).2.
Proof.
  intros Hf. unfold update_subscription. destruct (_ || _); [by left|].
  assert (only_subscription (uuid tenantID) s (BeginFunc ErrStore d (fun s =>
      match uuid tenantID with
      | None => Err ErrStore
      | Some t => match subscriptions s !! t with
          | None => Ok (tt, s)
          | Some x => if sub_ok t (f x) s then Ok (tt, with_subscriptions (<[t := f x]> (subscriptions s)) s) else Err ErrStore
          end
      end) s).2) as H.
  { apply BeginFunc_ind; [by left|]. intros a s'. destruct (uuid tenantID) as [t|]; [|done]. destruct (subscriptions s !! t) as [x|] eqn:Ex; [|intros [= _ <-]; by left].
    destruct (sub_ok t (f x) s) eqn:Eo; [|done]. intros [= _ <-]. right. exists t, x, (f x). by destruct (Hf x). }
  by destruct (BeginFunc _ _ _ _).
Qed.

(** An event of Stripe changes nothing but the subscription of the tenant its
    metadata names, of which it keeps plan and customer; a signup is completed
    for a finished checkout alone, which leaves the tables of billing. *)
Theorem stripe_touches_named_tenant d ev s g ok s' g' :
  stripe_dispatch uuid lifecycle complete d ev s g = (ok, s', g') ->
  (only_subscription (uuid (tenantIDFromObject ev)) s s' \/ exists sub, as_subscription ev = Some sub /\ only_subscription (uuid (so_tenant sub)) s s') /\
  (g' = g \/ ev_Type ev = "checkout.session.completed"%string /\ s' = s).
Proof.
  unfold stripe_dispatch. destruct (String.eqb_spec (ev_Type ev) "checkout.session.completed") as [Ht|_].
  { destruct (completeSignup _ ev g) as [b g1]. intros [= _ <- _]. split; [left; by left|by right]. }
  destruct lifecycle as [l|]; [|intros [= _ <- <-]; split; left; [by left|done]].
  assert (forall st x, s_plan (set_status st x) = s_plan x /\ s_customer (set_status st x) = s_customer x) as Hst by done.
  destruct (existsb _ _). { destruct (markActive uuid l d ev s) as [b s1] eqn:E. intros [= _ <- <-]. split; left; [|done].
    replace s1 with (markActive uuid l d ev s).2 by (by rewrite E). by apply update_subscription_only. }
  destruct (String.eqb _ _). { destruct (markPastDue uuid l d ev s) as [b s1] eqn:E. intros [= _ <- <-]. split; left; [|done].
    replace s1 with (markPastDue uuid l d ev s).2 by (by rewrite E). by apply update_subscription_only. }
  destruct (existsb _ _); [|intros [= _ <- <-]; split; left; [by left|done]].
  unfold applySubscriptionUpdate. destruct (as_subscription ev) as [sub|]; [|intros [= _ <- <-]; split; left; [by left|done]].
  destruct (_ || _); [intros [= _ <- <-]; split; left; [by left|done]|]. destruct (negb _); [intros [= _ <- <-]; split; left; [by left|done]|].
  match goal with |- context [update_subscription uuid l d ?t ?f s] => pose proof (update_subscription_only l d t f s) as H; destruct (update_subscription uuid l d t f s) as [b s1] end.
  intros [= _ <- <-]. split; [|by left]. right. exists sub. split; [done|]. by apply H.
Qed.
End stripe_frame.

(** ** A delivery is counted once *)
Section delivery_once.
Context (hmac : string -> string -> list Z) (uuid query_unescape : string -> option string) (secret : string).
Context (decode : string -> option (list s3NotificationRecord)).
Abbreviation serve := (storage_serve hmac uuid query_unescape true secret decode).

(** The producer sends a request again until it is answered 204. *)
Fixpoint redeliver (attempts : list ((string -> delivery * option delivery) * Z)) (r : hrequest) (s : hdb) (trail : list ingested) : option hdb :=
  match attempts with
  | [] => None
  | (fate, now) :: rest => let '(c, s, trail) := serve fate now r s trail in if c =? 204 then Some s else redeliver rest r s trail
  end.

Lemma RecordEvents_once d t es s r s' : d <> ReplyLost -> es <> [] -> RecordEvents uuid true d t es s = (r, s') ->
  (r <> Ok tt /\ s' = s) \/ exists t', uuid t = Some t' /\ r = Ok tt /\ s' = mkHDB (srows s ++ (mkSRow t' <$> es)) (bill s).
Proof.
  intros Hd Hes. unfold RecordEvents. destruct (String.eqb t ""); [intros [= <- <-]; by left|]. destruct (existsb _ es); [intros [= <- <-]; by left|].
  destruct es as [|e es]; [done|]. cbn [negb orb]. unfold BeginFunc. destruct (uuid t) as [t'|]; [|destruct d; intros [= <- <-]; by left].
  case_bool_decide; [|destruct d; intros [= <- <-]; by left]. destruct d; intros [= <- <-]; [right; by exists t'|by left|done].
Qed.

(** A delivery of the object store is counted exactly once.  A request
    whose records all belong to one tenant, sent again and again until it is
    answered 204, through whatever failures of database and audit (short of a
    commit whose answer is lost), appends its events once. *)
Theorem delivered_once attempts r body recs t es s trail s' :
  (forall a, a ∈ attempts -> forall u, (a.1 u).1 <> ReplyLost) -> h_body r = Some body -> decode body = Some recs -> group query_unescape recs = [(t, es)] -> es <> [] ->
  redeliver attempts r s trail = Some s' -> exists t', uuid t = Some t' /\ srows s' = srows s ++ (mkSRow t' <$> es) /\ bill s' = bill s.
Proof.
  intros Hf Hb Hd Hg Hes. revert s trail. induction attempts as [|[fate now] rest IH]; intros s trail; [done|]. cbn [redeliver].
  assert (forall a, a ∈ rest -> forall u, (a.1 u).1 <> ReplyLost) as Hf' by (intros a Ha; apply Hf; by right).
  unfold storage_serve. rewrite Hb. destruct (storage_verify _ _ _ _ _); [|intros Hr; by apply (IH Hf') in Hr]. rewrite Hd, Hg. cbn [foldl]. unfold record_batch. cbn [fst snd].
  destruct (RecordEvents uuid true (fate t).1 t es s) as [x s1] eqn:Er.
  apply RecordEvents_once in Er as [[Hx ->]|(t' & Hu & -> & ->)]; [| |exact (Hf (fate, now) ltac:(by left) t)|done].
  - destruct x as [[]|e]; [done|]. cbn. intros Hr. by apply (IH Hf') in Hr.
  - cbn. intros [= <-]. by exists t'.
Qed.
End delivery_once.

(** ** Quotas follow the events *)
Section usage.
Context (uuid : string -> option string) (cfg : Config) (order : list string -> list string).
Hypothesis wired : Pool cfg = true.
Hypothesis order_perm : forall l, order l ≡ₚ l.

(** What a snapshot of [t] leaves alone, whatever its fate. *)
Lemma SetStorageUsage_frame d t z s : db_ok s ->
  let s' := (SetStorageUsage cfg d t z s).2 in tenants s' = tenants s /\ forall t', t' <> t -> used_of s' t' = used_of s t'.
Proof.
  intros Hs. unfold SetStorageUsage. destruct (String.eqb t ""); [done|]. destruct (z <? 0); [done|]. rewrite wired. cbn [negb].
  apply (BeginFunc_ind (fun x => tenants x = tenants s /\ forall t', t' <> t -> used_of x t' = used_of s t')); [done|].
  intros a s2 (s1 & Hu & (s3 & ->%add_event_ok & [= _ <-])%rbind_ok)%rbind_ok. pose proof Hu as Hu'.
  apply upsert_quota_ok in Hu as (_ & _ & _ & Ho & _); [|done|done]. split; [|exact Ho]. cbn. unfold upsert_quota in Hu'.
  destruct (quotas s !! t); by apply put_quota_ok in Hu' as (_ & _ & _ & -> & _).
Qed.

Lemma SetStorageUsage_works t z s : db_ok s -> is_Some (tenants s !! t) -> t <> ""%string -> 0 <= z <= int64_max ->
  exists s', SetStorageUsage cfg Delivered t z s = (Ok tt, s') /\ used_of s' t = z.
Proof.
  intros Hs Ht Hne%String.eqb_neq Hz. unfold SetStorageUsage. rewrite Hne, wired. destruct (Z.ltb_spec z 0); [lia|]. cbn [negb BeginFunc].
  assert (exists s1, upsert_quota t (set_used z) (set_used z) s = Ok s1 /\ tenants s1 = tenants s) as (s1 & Hu & Ht1).
  { unfold upsert_quota. assert (forall q, TenantID q = t -> quota_ok q = true -> exists s1, put_quota q s = Ok s1 /\ tenants s1 = tenants s) as Hput.
    { intros q <- Hq. unfold put_quota. rewrite bool_decide_true, Hq by done. by eexists. }
    destruct (quotas s !! t) as [q|] eqn:Eq; apply Hput; try done.
    - destruct (quota_ok_bounds q (ok_row _ Hs _ _ Eq)) as (_ & H2 & H3 & H4). by apply bounds_quota_ok.
    - apply bounds_quota_ok; cbn; unfold int64_max in *; lia. }
  rewrite Hu. cbn [rbind]. unfold add_event. cbn [ev_tenant ev_type ev_seats ev_storage ev_amount opt_fits]. rewrite Ht1, bool_decide_true by done.
  assert (fits64 z = true) as -> by (unfold fits64, int64_min, int64_max in *; apply andb_true_intro; split; apply Z.leb_le; lia). cbn.
  eexists. split; [reflexivity|]. apply upsert_quota_ok in Hu as (_ & _ & _ & _ & Hused); [|done|done].
  change (used_of (with_events _ s1) t) with (used_of s1 t). rewrite Hused. by destruct (quotas s !! t).
Qed.

Lemma active_ids_spec s id : id ∈ active_ids s <-> exists x, tenants (bill s) !! id = Some x /\ t_status x <> "deleted"%string.
Proof.
  unfold active_ids. rewrite list_elem_of_fmap. split.
  - intros ([k x] & -> & Hin). apply elem_of_filterb in Hin as [Hin Hx]. apply elem_of_map_to_list in Hin. exists x. cbn in Hx. split; [done|].
    by destruct (String.eqb_spec (t_status x) "deleted").
  - intros (x & Hx & Hd). exists (id, x). split; [done|]. apply elem_of_filterb. rewrite elem_of_map_to_list. split; [done|]. cbn. by apply String.eqb_neq in Hd as ->.
Qed.
Lemma active_ids_NoDup s : NoDup (active_ids s).
Proof. apply NoDup_fmap_filterb, NoDup_fst_map_to_list. Qed.

(** A sweep visits each tenant once: what a step for another tenant keeps holds
    before and after the step for [t]. *)
Lemma sweep_frame {A} (step : A -> string -> A) (R : A -> A -> Prop) `{!PreOrder R} (I : A -> Prop) t l x :
  (forall y id, I y -> I (step y id) /\ (id <> t -> R y (step y id))) -> I x -> t ∉ l -> I (foldl step x l) /\ R x (foldl step x l).
Proof.
  intros Hstep. revert x. induction l as [|id l IH]; intros x Hx Hn; [done|]. apply not_elem_of_cons in Hn as [Hid Hn]. cbn.
  destruct (Hstep x id Hx) as [H1 H2]. destruct (IH _ H1 Hn) as [H3 H4]. split; [done|]. etrans; [by apply H2|done].
Qed.
Lemma sweep_at {A} (step : A -> string -> A) (R : A -> A -> Prop) `{!PreOrder R} (I : A -> Prop) t l x :
  (forall y id, I y -> I (step y id) /\ (id <> t -> R y (step y id))) -> I x -> NoDup l -> t ∈ l ->
  exists y, I y /\ R x y /\ R (step y t) (foldl step x l) /\ I (foldl step x l).
Proof.
  intros Hstep Hx Hnd (l1 & l2 & ->)%list_elem_of_split. apply NoDup_app in Hnd as (_ & Hd & Hnd). apply NoDup_cons in Hnd as [Hn2 _].
  assert (t ∉ l1) as Hn1 by (intros Hin; apply (Hd t Hin); by left).
  destruct (sweep_frame step R I t l1 x Hstep Hx Hn1) as [H1 H2]. exists (foldl step x l1). rewrite foldl_app. cbn [foldl].
  destruct (sweep_frame step R I t l2 (step (foldl step x l1) t) Hstep (proj1 (Hstep _ t H1)) Hn2) as [H3 H4]. done.
Qed.

Lemma order_active s t x : tenants (bill s) !! t = Some x -> t_status x <> "deleted"%string -> NoDup (order (active_ids s)) /\ t ∈ order (active_ids s).
Proof. intros Ht Hd. rewrite order_perm. split; [apply active_ids_NoDup|]. apply active_ids_spec. by exists x. Qed.

Section ticks.
Context (F : string -> fates) (t : string).

(** What a step for another tenant keeps. *)
Definition kept (s s' : hdb) : Prop := srows s' = srows s /\ tenants (bill s') = tenants (bill s) /\ used_of (bill s') t = used_of (bill s) t.
#[local] Instance kept_preorder : PreOrder kept.
Proof. split; [by intros s|]. intros s1 s2 s3 (H1 & H2 & H3) (K1 & K2 & K3). unfold kept. by rewrite K1, K2, K3. Qed.

Lemma snapshot_kept d id z s : billing_ok (bill s) ->
  let b := (SetStorageUsage cfg d id z (bill s)).2 in
  billing_ok b /\ srows (mkHDB (srows s) b) = srows s /\ tenants b = tenants (bill s) /\ (id <> t -> kept s (mkHDB (srows s) b)).
Proof.
  intros Hs. pose proof (SetStorageUsage_ok cfg d id z (bill s) Hs). pose proof (SetStorageUsage_frame d id z (bill s) (proj1 Hs)) as [Ht Hu].
  cbn. split_and!; [done|done|done|]. intros Hne. split_and!; [done|done|]. by apply Hu, not_eq_sym.
Qed.

Lemma reconcile_one_kept m (y : hdb * wstate) id : billing_ok (bill y.1) /\ tenants (bill y.1) = m ->
  let y' := reconcile_one uuid cfg F y id in
  (billing_ok (bill y'.1) /\ tenants (bill y'.1) = m) /\ (id <> t -> kept y.1 y'.1 /\ lastTotal y'.2 !! t = lastTotal y.2 !! t).
Proof.
  destruct y as [s w]. cbn [fst snd]. intros [Hs Hm]. unfold reconcile_one. destruct (ReconcileTenant _ _ _ _ s) as [total|]; [|by split].
  set (z := if total <? 0 then 0 else total). destruct (snapshot_kept (f_write (F id)) id z s Hs) as (Hok & _ & Ht & Hk).
  destruct (SetStorageUsage cfg (f_write (F id)) id z (bill s)) as [[u|e] b]; cbn [fst snd bill lastTotal auditSnapshot] in *; rewrite Ht; (split; [done|]); intros Hne;
    (split; [by apply Hk|]); [by rewrite lookup_insert_ne|done].
Qed.

(** The bytes of the recorded events of one kind, of one tenant. *)
Definition bytes_of (kind t : string) (l : list srow) : Z :=
  foldr Z.add 0 ((fun r => SizeBytes (sr_event r)) <$> List.filter (fun r => String.eqb (sr_tenant r) t && String.eqb (EventType (sr_event r)) kind) l).
(** The table holds events of two kinds: nothing else is recorded. *)
Definition typed_rows (l : list srow) : Prop := Forall (fun r => EventType (sr_event r) = "object_created"%string \/ EventType (sr_event r) = "object_deleted"%string) l.

Lemma RecordEvents_typed d id es s : typed_rows (srows s) -> typed_rows (srows (RecordEvents uuid true d id es s).2).
Proof.
  intros Hs. unfold RecordEvents. destruct (String.eqb id ""); [done|]. destruct (existsb _ es) eqn:Ee; [done|]. destruct (_ || _); [done|].
  apply (BeginFunc_ind (fun s => typed_rows (srows s))); [done|]. intros a s'. destruct (uuid id) as [u|]; [|done]. case_bool_decide; [|done]. intros [= _ <-].
  apply Forall_app. split; [done|]. apply Forall_fmap, Forall_forall. intros e He. rewrite existsb_false in Ee. specialize (Ee e He). cbn.
  apply orb_false_elim in Ee as [Ee%negb_false_iff _]. unfold validStorageEventType in Ee. apply orb_prop in Ee as [->%String.eqb_eq| ->%String.eqb_eq]; [by left|by right].
Qed.
Lemma event_total_bytes id l : typed_rows l -> event_total id l = bytes_of "object_created" id l - bytes_of "object_deleted" id l.
Proof.
  unfold event_total. intros Hl. enough (forall z, foldl (fun z r => if String.eqb (sr_tenant r) id then z + contribution (sr_event r) else z) z l =
    z + (bytes_of "object_created" id l - bytes_of "object_deleted" id l)) as -> by lia.
  induction Hl as [|r l Hr Hl IH]; intros z; cbn [foldl]; [unfold bytes_of; cbn; lia|]. rewrite IH. unfold bytes_of, contribution. cbn [List.filter].
  destruct (String.eqb (sr_tenant r) id); cbn [andb]; [|done]. destruct Hr as [-> | ->]; cbn; lia.
Qed.

(** C33: Quotas follow the events.  After a tick of the worker the used bytes
    of every active tenant whose own statements went through are the sizes of
    the object_created events recorded for it less those of its
    object_deleted events, at least zero, whatever happened to the statements
    of other tenants; the events are kept, the ledger of billing still
    balances, and the total is remembered for the next audit.  The difference
    fits an int64, the list of tenants was read, the tenant's id is in the
    form the database prints, and nothing else writes the quota of the tenant
    during the tick. *)
Theorem usage_follows_events s w s' w' x :
  billing_ok (bill s) -> event_tick uuid cfg order Delivered F s w = (Ok tt, (s', w')) ->
  tenants (bill s) !! t = Some x -> uuid t = Some t -> t_status x <> "deleted"%string -> t <> ""%string -> f_read (F t) = Delivered -> f_write (F t) = Delivered ->
  typed_rows (srows s) ->
  let net := bytes_of "object_created" t (srows s) - bytes_of "object_deleted" t (srows s) in
  int64_min <= net <= int64_max ->
  used_of (bill s') t = Z.max 0 net /\ lastTotal w' !! t = Some (Z.max 0 net) /\
  srows s' = srows s /\ billing_ok (bill s').
Proof.
  intros Hs He Ht Hcan Hst Hne Hr Hw Hty net Hnet. assert (fits64 (event_total t (srows s)) = true) as Hfit.
  { rewrite (event_total_bytes t _ Hty). unfold fits64. fold net. apply andb_true_intro. by rewrite !Z.leb_le. }
  subst net. rewrite <- (event_total_bytes t _ Hty). clear Hnet. unfold event_tick in He. cbn [listActiveTenantIDs] in He. injection He as Hf.
  destruct (order_active s t x Ht Hst) as [Hnd Hin].
  set (R := fun a b : hdb * wstate => kept a.1 b.1 /\ lastTotal b.2 !! t = lastTotal a.2 !! t).
  assert (PreOrder R) as HR.
  { split; [by intros a|]. intros a b c [H1 H2] [H3 H4]. split; [by trans b.1|]. by rewrite H4. }
  destruct (sweep_at (reconcile_one uuid cfg F) R (fun a => billing_ok (bill a.1) /\ tenants (bill a.1) = tenants (bill s)) t _ (s, w)
    (reconcile_one_kept _) (conj Hs eq_refl) Hnd Hin) as ([s1 w1] & [H1 H1'] & [(H2 & H3 & _) _] & [(K1 & _ & K3) K4] & [J _]).
  rewrite Hf in *. cbn [fst snd] in *. rewrite K1, K3, K4. clear K1 K3 K4 Hf.
  apply String.eqb_neq in Hne as Hne'. unfold reconcile_one, ReconcileTenant. rewrite Hne', Hr, Hw. cbn [negb BeginFunc]. rewrite Hcan, H2, Hfit. cbn [fst].
  set (z := if event_total t (srows s) <? 0 then 0 else event_total t (srows s)).
  assert (z = Z.max 0 (event_total t (srows s))) as Hz by (unfold z; destruct (Z.ltb_spec (event_total t (srows s)) 0); lia).
  destruct (SetStorageUsage_works t z (bill s1) (proj1 H1)) as (b & Hb & Hu); [rewrite H3; by eexists|done| |].
  { unfold fits64 in Hfit. apply andb_prop in Hfit as [_ Hfit%Z.leb_le]. unfold int64_max in *. lia. }
  rewrite Hb. cbn [fst snd bill srows lastTotal auditSnapshot]. by rewrite <- Hz, Hu, lookup_insert_eq.
Qed.

Context (ScanTenantBytes : string -> option Z).

(** In poll mode a tick leaves the used bytes of an active tenant, whose
    statement went through, at what the scan found. *)
Theorem usage_follows_scan s s' x bytes :
  billing_ok (bill s) -> pollTick cfg order ScanTenantBytes Delivered F s = (Ok tt, s') ->
  tenants (bill s) !! t = Some x -> t_status x <> "deleted"%string -> t <> ""%string -> f_write (F t) = Delivered ->
  ScanTenantBytes t = Some bytes -> 0 <= bytes <= int64_max -> used_of (bill s') t = bytes /\ billing_ok (bill s').
Proof.
  intros Hs He Ht Hst Hne Hw Hscan Hb. unfold pollTick in He. cbn [listActiveTenantIDs] in He. injection He as <-.
  destruct (order_active s t x Ht Hst) as [Hnd Hin].
  destruct (sweep_at (poll_one cfg ScanTenantBytes F) kept (fun a => billing_ok (bill a) /\ tenants (bill a) = tenants (bill s)) t (order (active_ids s)) s)
    as (s1 & [H1 H1'] & _ & (_ & _ & K3) & [J _]); [|done..|].
  - intros y id [Hy Hm]. unfold poll_one. destruct (ScanTenantBytes id) as [z|]; [|by split]. destruct (z <? 0); [by split|].
    destruct (snapshot_kept (f_write (F id)) id z y Hy) as (Hok & _ & Hty & Hk). cbn. by rewrite Hty.
  - split; [|done]. rewrite K3. unfold poll_one. rewrite Hscan, Hw. destruct (Z.ltb_spec bytes 0); [lia|].
    destruct (SetStorageUsage_works t bytes (bill s1) (proj1 H1)) as (b & -> & Hu); [rewrite H1'; by eexists|done..].
Qed.

Lemma drift_labels (L : list string) s l w id : (forall i, i ∈ l -> i ∈ L) -> (forall i, is_Some (driftBytes w !! i) -> i ∈ L) ->
  is_Some (driftBytes (foldl (drift_one uuid ScanTenantBytes F s) w l) !! id) -> id ∈ L.
Proof.
  revert w. induction l as [|i l IH]; intros w Hl Hw; [apply Hw|]. cbn. apply IH; [intros j Hj; apply Hl; by right|]. intros j. unfold drift_one.
  destruct (ScanTenantBytes i) as [z|]; [|apply Hw]. destruct (z <? 0); [apply Hw|]. destruct (ReconcileTenant _ _ _ _ _); [|apply Hw]. cbn.
  rewrite lookup_insert_is_Some. intros [<-|[_ Hj]]; [apply Hl; by left|by apply Hw].
Qed.

(** In event mode a sweep leaves on the gauge of an active tenant the scan less
    the total of its events, and no gauge for a tenant that is gone. *)
Theorem drift_is_shown s w w' x actual :
  driftTick uuid order ScanTenantBytes Delivered F s w = (Ok tt, w') ->
  tenants (bill s) !! t = Some x -> uuid t = Some t -> t_status x <> "deleted"%string -> t <> ""%string -> f_read (F t) = Delivered ->
  ScanTenantBytes t = Some actual -> 0 <= actual -> fits64 (event_total t (srows s)) = true ->
  driftBytes w' !! t = Some (wrap64 (actual - event_total t (srows s))) /\ (forall id, is_Some (driftBytes w' !! id) -> id ∈ active_ids s).
Proof.
  intros He Ht Hcan Hst Hne Hr Hscan Ha Hfit. unfold driftTick in He. cbn [listActiveTenantIDs] in He. injection He as <-.
  destruct (order_active s t x Ht Hst) as [Hnd Hin]. split.
  - set (R := fun a b : dstate => driftBytes b !! t = driftBytes a !! t). assert (PreOrder R) as HR by (split; [done|]; intros a b c H1 H2; unfold R in *; congruence).
    destruct (sweep_at (drift_one uuid ScanTenantBytes F s) R (fun _ => True) t (order (active_ids s)) (pruneDriftLabels (order (active_ids s)) w))
      as (w1 & _ & _ & K & _); [|done..|].
    + intros y id _. split; [done|]. intros Hid. unfold R, drift_one. destruct (ScanTenantBytes id) as [z|]; [|done]. destruct (z <? 0); [done|].
      destruct (ReconcileTenant _ _ _ _ _); [|done]. cbn. by rewrite lookup_insert_ne.
    + unfold R in K. rewrite K. unfold drift_one, ReconcileTenant. apply String.eqb_neq in Hne as ->. rewrite Hscan, Hr. destruct (Z.ltb_spec actual 0); [lia|].
      cbn [negb BeginFunc]. rewrite Hcan, Hfit. cbn. by rewrite lookup_insert_eq.
  - intros id Hid. rewrite <- (order_perm (active_ids s)). revert Hid. apply drift_labels; [done|]. intros id' [z Hz]. cbn in Hz.
    by apply map_lookup_filter_Some in Hz as [_ Hz].
Qed.
End ticks.
End usage.

Module BillingHooksExamples.
Definition mac (_ _ : string) : list Z := [171].
Definition known (s : string) : option string := if existsb (String.eqb s) ["acme"; "beta"]%string then Some s else None.
Definition plain (s : string) : option string := Some s.
Definition cfg : Config := BillingExamples.cfg.

(** Two tenants. *)
Definition bill2 : DB := with_tenants {["acme"%string := mkTenant "core" "active"; "beta"%string := mkTenant "core" "active"]} empty_db.
Definition s0 : hdb := mkHDB [] bill2.
Lemma bill2_ok : billing_ok bill2.
Proof. apply with_tenants_ok; [|apply empty_db_ok]. intros t [x Hx]. cbn in Hx. by rewrite lookup_empty in Hx. Qed.

Definition put (bucket : string) (size : option Z) : s3NotificationRecord := mkRecord "s3:ObjectCreated:Put" bucket "a+b" size.
Definition del (bucket : string) : s3NotificationRecord := mkRecord "s3:ObjectRemoved:Delete" bucket "a+b" None.
(** The bodies of the examples. *)
Definition bodies (b : string) : option (list s3NotificationRecord) :=
  if String.eqb b "one" then Some [put "kmail-acme" (Some 10); put "KMAIL-acme" (Some 5)]
  else if String.eqb b "both" then Some [put "kmail-acme" (Some 10); put "kmail-beta" (Some 7)]
  else if String.eqb b "gone" then Some [del "kmail-acme"]
  else if String.eqb b "stray" then Some [put "kmail-www" (Some 1)]
  else if String.eqb b "negative" then Some [put "kmail-acme" (Some (-1))]
  else None.

Definition at160 : Z := time_Unix 160.
Definition request (b : string) : hrequest := mkHRequest (Some b) "t=100, v1=ab".
Abbreviation serve := (storage_serve mac known plain true "k" bodies).
Definition fine (_ : string) : delivery * option delivery := (Delivered, Some Delivered).
Definition down (t : string) : delivery * option delivery := if String.eqb t "beta" then (RequestLost, None) else fine t.
Definition all_down (_ : string) : delivery * option delivery := (RequestLost, None).

Definition forged : hrequest := mkHRequest (Some "one"%string) "t=100,v1=ac".
Definition rows_of (x : Z * hdb * list ingested) : Z * list (string * Z) := (x.1.1, (fun r => (sr_tenant r, contribution (sr_event r))) <$> srows x.1.2).
End BillingHooksExamples.

Import BillingHooksExamples.
Local Open Scope string_scope.

Lemma mac_bytes k m : Forall byte (mac k m).
Proof. by repeat constructor. Qed.
Lemma id_perm (l : list string) : id l ≡ₚ l.
Proof. done. Qed.

Lemma webhooks_need_signature_witness :
  ((serve fine at160 (request "one") s0 []).1.2 = s0 /\ (serve fine at160 (request "one") s0 []).2 = []) \/
  exists body, h_body (request "one") = Some body /\ signed_now mac "k" (h_signature (request "one")) body at160.
Proof.
  refine (proj1 (webhooks_need_signature (G := unit) mac mac_bytes "k" at160 (request "one") _) known plain true bodies fine s0 []
    (serve fine at160 (request "one") s0 []).1.1 _ _ _); [done|].
  by destruct (serve fine at160 (request "one") s0 []) as [[c s] trail].
Defined.

(** Twice without a database, then with one. *)
Definition attempts : list ((string -> delivery * option delivery) * Z) := [(all_down, at160); (all_down, at160 + Second); (fine, at160 + Minute)].
Definition counted : hdb := default s0 (redeliver mac known plain "k" bodies attempts (request "one") s0 []).

Lemma attempts_fine a u : a ∈ attempts -> (a.1 u).1 <> ReplyLost.
Proof. unfold attempts. rewrite !list_elem_of_In. cbn. intros [<-|[<-|[<-|[]]]]; done. Qed.

Lemma delivered_once_witness :
  redeliver mac known plain "k" bodies attempts (request "one") s0 [] = Some counted /\
  exists t', known "acme" = Some t' /\ srows counted = (srows s0 ++ (mkSRow t' <$> [mkSEvent EventObjectCreated "a+b" 10; mkSEvent EventObjectCreated "a+b" 5]))%list /\ bill counted = bill s0.
Proof.
  assert (redeliver mac known plain "k" bodies attempts (request "one") s0 [] = Some counted) as H by (vm_compute; reflexivity). split; [exact H|].
  refine (delivered_once mac known plain "k" bodies attempts (request "one") "one" [put "kmail-acme" (Some 10); put "KMAIL-acme" (Some 5)] "acme" _ s0 [] counted _ _ _ _ _ H).
  - intros a Ha u. by apply attempts_fine.
  - reflexivity.
  - reflexivity.
  - vm_compute. reflexivity.
  - done.
Defined.

Definition ok_fates (_ : string) : fates := mkFates Delivered Delivered (Some Delivered).
Definition w0 : wstate := mkWState ∅ [].
Definition trimmed : hdb := (RecordEvents known true Delivered "acme" [mkSEvent "object_deleted" "a b" 4] counted).2.
Definition ticked : hdb * wstate := (event_tick known cfg id Delivered ok_fates trimmed w0).2.

Lemma usage_follows_events_witness :
  used_of (bill ticked.1) "acme" = 15 - 4 /\ lastTotal ticked.2 !! "acme" = Some (15 - 4) /\ srows ticked.1 = srows trimmed /\ billing_ok (bill ticked.1).
Proof.
  refine (usage_follows_events known cfg id eq_refl id_perm ok_fates "acme" trimmed w0 ticked.1 ticked.2 (mkTenant "core" "active") _ _ _ _ _ _ _ _ _ _).
  - exact bill2_ok.
  - unfold ticked, event_tick. cbn [listActiveTenantIDs snd]. by destruct (foldl _ _ _).
  - vm_compute. reflexivity.
  - reflexivity.
  - done.
  - done.
  - reflexivity.
  - reflexivity.
  - unfold typed_rows. repeat (apply Forall_cons_2; [by (left + right)|]). apply Forall_nil_2.
  - vm_compute. done.
Defined.

(** The bytes of the example, and what the scan says. *)
Example ticked_used : (used_of (bill ticked.1) "acme", used_of (bill ticked.1) "beta", snapshots ticked.2) = (11, 0, [("beta", 0); ("acme", 11)]) \/
  (used_of (bill ticked.1) "acme", used_of (bill ticked.1) "beta", snapshots ticked.2) = (11, 0, [("acme", 11); ("beta", 0)]).
Proof. vm_compute. by auto. Qed.

(** A removal carries no size, so it gives nothing back. *)
Lemma removals_free_nothing : forall bucket key, route plain (mkRecord "s3:ObjectRemoved:Delete" bucket key None) = None \/
  exists t e, route plain (mkRecord "s3:ObjectRemoved:Delete" bucket key None) = Some (t, e) /\ EventType e = EventObjectDeleted /\ contribution e = 0.
Proof. intros bucket key. unfold route. cbn [classifyEventName]. destruct (String.eqb (tenantIDFromBucket bucket) "") eqn:E; [left|right]; cbn; rewrite E; [done|]. by eexists _, _. Qed.

(** A request for two tenants, one of which fails, counts the other again. *)
Lemma retry_counts_other_twice :
  rows_of (serve down at160 (request "both") s0 []) = (500, [("acme", 10)]) /\
  rows_of (serve fine (at160 + Second) (request "both") (serve down at160 (request "both") s0 []).1.2 []) = (204, [("acme", 10); ("acme", 10); ("beta", 7)]).
Proof. split; vm_compute; reflexivity. Qed.

(** A bucket with the prefix but no tenant, or a negative size, is answered
    500 for ever; a request seen is counted again within the window. *)
Lemma refused_batch_retried fate now b recs t es e trail : bodies b = Some recs -> group plain recs = [(t, es)] ->
  (forall d, RecordEvents known true d t es s0 = (Err e, s0)) -> (serve fate now (request b) s0 trail).1.1 <> 204.
Proof.
  intros Hb Hg Hr. unfold storage_serve. cbn [h_body request]. destruct (storage_verify _ _ _ _ _); [|done]. rewrite Hb, Hg. cbn [foldl]. unfold record_batch. cbn [fst snd].
  by rewrite Hr.
Qed.
Lemma hopeless_requests_retried : forall fate now trail, (serve fate now (request "stray") s0 trail).1.1 <> 204 /\ (serve fate now (request "negative") s0 trail).1.1 <> 204.
Proof.
  intros fate now trail. split.
  - apply (refused_batch_retried _ _ _ [put "kmail-www" (Some 1)] "www" [mkSEvent EventObjectCreated "a+b" 1] ErrStore); [done..|by intros []].
  - apply (refused_batch_retried _ _ _ [put "kmail-acme" (Some (-1))] "acme" [mkSEvent EventObjectCreated "a+b" (-1)] ErrInvalidInput); [done..|by intros []].
Qed.
Lemma captured_request_counts_again :
  rows_of (serve fine (at160 + Minute) (request "one") (serve fine at160 (request "one") s0 []).1.2 []) = (204, [("acme", 10); ("acme", 5); ("acme", 10); ("acme", 5)]).
Proof. vm_compute. reflexivity. Qed.

(** A status Stripe has and the list lacks is refused, not mapped to active. *)
Definition paused : stripeEvent := mkStripeEvent "customer.subscription.updated" None None (Some (mkSubObject "sub_1" "paused" "acme" 0 0)).
Lemma paused_is_refused : forall d s (g : unit), mapStripeStatus "paused" = SubscriptionActive /\
  stripe_dispatch known (Some LifecycleExamples.lc) None d paused s g = (false, s, g).
Proof. done. Qed.
