(* ===== verification/Signup.v ===== *)
(** * Self-service signup ([internal/tenant]: [signup.go], [signup_wiring.go],
      [signup_handlers.go])

    The public form leaves a row of [signup_requests] and a Stripe checkout;
    the webhook of Stripe ([BillingHooks]) completes it: tenant, provisioning,
    first owner, status, welcome.  The tenant service is [Tenants]; Stripe,
    checklist, audit, mailer, [net/mail] and SHA-256 are parameters.  Each
    statement has its own fate, and between two statements other pods may do
    anything ([between]).  Ids of rows are canonical texts of UUIDs, names and
    addresses are ASCII. *)

From S2P Require Import Prelude Text Table Valkey RateLimit Billing Lifecycle BillingHooks Tenants.

Local Open Scope Z_scope.
Local Open Scope go_scope.

(** ** Names *)
Definition slug_char (c : Ascii.ascii) : bool := let n := Ascii.nat_of_ascii c in ((97 <=? n) && (n <=? 122) || (48 <=? n) && (n <=? 57))%nat.
Definition hyphen : Ascii.ascii := Ascii.ascii_of_nat 45.
(** A run of other characters becomes one hyphen. *)
Fixpoint nonSlugChars (in_run : bool) (l : list Ascii.ascii) : list Ascii.ascii :=
  match l with
  | [] => []
  | c :: l => if slug_char c then c :: nonSlugChars false l else if in_run then nonSlugChars true l else hyphen :: nonSlugChars true l
  end.
Definition trim_hyphens (l : list Ascii.ascii) : list Ascii.ascii := reverse (drop_while (Ascii.eqb hyphen) (reverse (drop_while (Ascii.eqb hyphen) l))).
Definition slugify (s : string) : string := on_ascii (fun l => trim_hyphens (nonSlugChars false l)) (ToLower (TrimSpace s)).

Definition at_sign : Ascii.ascii := Ascii.ascii_of_nat 64.
Definition separator (c : Ascii.ascii) : bool := existsb (Ascii.eqb c) (Ascii.ascii_of_nat <$> [46; 95; 45; 43]%nat).
Definition spaced (c : Ascii.ascii) : Ascii.ascii := if separator c then Ascii.ascii_of_nat 32 else c.
Definition capital (f : string) : string := match f with String.EmptyString => "" | String.String c f => String.String (ascii_upper c) f end.
Definition displayNameFromEmail (email : string) : string :=
  let local := match split_first at_sign email with Some (String.String c l, _) => String.String c l | _ => email end in
  let name := join_space (capital <$> Fields (on_ascii (fmap spaced) local)) in
  if String.eqb name "" then email else name.

Definition freemailDomains : list string :=
  ["gmail.com"; "googlemail.com"; "outlook.com"; "hotmail.com"; "live.com"; "yahoo.com"; "icloud.com"; "me.com"; "proton.me"; "protonmail.com"; "aol.com"; "gmx.com"]%string.
(** What follows the last [@]. *)
Definition customDomainFromEmail (email : string) : string :=
  if negb (contains_char at_sign email) then ""
  else let domain := ToLower (List.last (Split at_sign email) "") in if existsb (String.eqb domain) freemailDomains then "" else domain.

(** ** Plans *)
Record PlanTier := mkTier { pt_ID : string; pt_Name : string; Description : string; Features : list string }.
Definition PlanCatalog : list PlanTier :=
  [mkTier "core" "Core" "Privacy-first email and calendar for small teams." ["Encrypted mailboxes"; "Custom domain"; "Shared inboxes"];
   mkTier "pro" "Pro" "Advanced controls and higher quotas for growing businesses."
     ["Everything in Core"; "Higher storage quotas"; "Confidential send + portals"; "Priority deliverability"];
   mkTier "privacy" "Privacy" "Zero-access vaults and client-side encryption for the privacy-obsessed."
     ["Everything in Pro"; "Zero-access (StrictZK) vaults"; "Client-side encryption keys"; "Customer-managed key (CMK) support"]]%string.
Definition PlanByID (id : string) : option PlanTier := List.find (fun p => String.eqb (pt_ID p) id) PlanCatalog.

(** ** Requests ([signup_wiring.go]: [pgxSignupRepository]) *)
Record SignupRequest := mkSignup {
  ID : string; sEmail : string; OrgName : string; sPlan : string; StripeCheckoutSessionID : string; Status : string; CreatedAt : Z; CompletedAt : option Z;
}.
(** [self_service]: the tenants whose column is set. *)
Record sdb := mkSDB { signups : list SignupRequest; base : tdb; self_service : gset string }.

Inductive serror := ErrSignupNotFound | ErrCheckoutUnavailable | ErrInput | ErrTenantNotFound | ErrOther.

Definition on_signups (f : list SignupRequest -> list SignupRequest) (s : sdb) : sdb := mkSDB (f (signups s)) (base s) (self_service s).
Definition is_signup (id : string) (r : SignupRequest) : bool := String.eqb (ID r) id.

Definition Create (d : delivery) (now : Z) (id email orgName plan : string) : sdb -> result serror SignupRequest * sdb :=
  BeginFunc ErrOther d (fun s =>
    let r := mkSignup id email orgName plan "" "pending" now None in
    if one_of plan plans && negb (existsb (is_signup id) (signups s)) then Ok (r, on_signups (fun l => l ++ [r]) s) else Err ErrOther).
(** A single row is read. *)
Definition query_row (d : delivery) (p : SignupRequest -> bool) (s : sdb) : result serror SignupRequest :=
  match d with Delivered => match List.find p (signups s) with Some r => Ok r | None => Err ErrSignupNotFound end | _ => Err ErrOther end.
(** [uuid]: the cast. *)
Definition GetByID (uuid : string -> option string) (d : delivery) (id : string) (s : sdb) : result serror SignupRequest :=
  match uuid id with Some id => query_row d (is_signup id) s | None => Err ErrOther end.
Definition GetByCheckoutSession (d : delivery) (sessionID : string) : sdb -> result serror SignupRequest :=
  query_row d (fun r => String.eqb (StripeCheckoutSessionID r) sessionID).

Definition set_session (sessionID : string) (r : SignupRequest) : SignupRequest := mkSignup (ID r) (sEmail r) (OrgName r) (sPlan r) sessionID (Status r) (CreatedAt r) (CompletedAt r).
Definition set_status (status : string) (at_ : option Z) (r : SignupRequest) : SignupRequest :=
  mkSignup (ID r) (sEmail r) (OrgName r) (sPlan r) (StripeCheckoutSessionID r) status (CreatedAt r) at_.

(** The index: a non-empty session belongs to one row. *)
Definition session_free (id sessionID : string) (s : sdb) : bool :=
  String.eqb sessionID "" || negb (existsb (fun r => negb (is_signup id r) && String.eqb (StripeCheckoutSessionID r) sessionID) (signups s)).
Definition SetCheckoutSession (d : delivery) (id sessionID : string) (s : sdb) : result serror unit * sdb :=
  let '(r, s) := BeginFunc ErrOther d (fun s =>
    if negb (existsb (is_signup id) (signups s)) then Ok (false, s)
    else if session_free id sessionID s then Ok (true, on_signups (update (is_signup id) (set_session sessionID)) s) else Err ErrOther) s in
  (match r with Ok true => Ok tt | Ok false => Err ErrSignupNotFound | Err e => Err e end, s).
Definition MarkActive (d : delivery) (id : string) (completedAt : Z) : sdb -> result serror unit * sdb :=
  BeginFunc ErrOther d (fun s =>
    Ok (tt, on_signups (update (fun r => is_signup id r && negb (String.eqb (Status r) "active")) (set_status "active" (Some completedAt))) s)).
Definition MarkFailed (d : delivery) (id : string) : sdb -> result serror unit * sdb :=
  BeginFunc ErrOther d (fun s =>
    Ok (tt, on_signups (update (fun r => is_signup id r && String.eqb (Status r) "pending") (fun r => set_status "failed" (CompletedAt r) r)) s)).

(** ** The provisioner ([signupProvisioner]) *)
Inductive perror := ErrTenantExists | ErrTenantProvisionIncomplete | ErrUserExists | ErrService (e : terror).

Definition isUniqueViolation (e : terror) : bool := match e with ErrUnique => true | _ => false end.
(** The row and the error, as [Service.CreateTenant] returns them. *)
Definition classifyCreateTenantResult (t : option Tenant) (e : option terror) : option Tenant * option perror :=
  match e with
  | None => (t, None)
  | Some e =>
      match t with
      | Some t => (Some t, Some ErrTenantProvisionIncomplete)
      | None => (None, Some (if isUniqueViolation e then ErrTenantExists else ErrService e))
      end
  end.

Definition GetTenantBySlug (d : delivery) (slug : string) (s : sdb) : result serror Tenant :=
  match d with
  | Delivered => match List.find (fun t => String.eqb (Slug t) slug) (tenants_ (base s)) with Some t => Ok t | None => Err ErrTenantNotFound end
  | _ => Err ErrOther
  end.
Definition MarkSelfService (d : delivery) (tenantID : string) : sdb -> result serror unit * sdb :=
  BeginFunc ErrOther d (fun s => Ok (tt, mkSDB (signups s) (base s) (if has_tenant tenantID (base s) then {[tenantID]} ∪ self_service s else self_service s))).

(** ** Stripe checkout *)
Record CheckoutSessionParams := mkParams { cp_Plan : string; cp_PriceID : string; cp_CustomerEmail : string; cp_SuccessURL : string; cp_CancelURL : string; cp_SignupRequestID : string }.
Record CheckoutSession := mkSession { cs_ID : string; cs_URL : string }.

Definition checkout_form (p : CheckoutSessionParams) : list (string * string) :=
  [("mode", "subscription"); ("success_url", cp_SuccessURL p); ("cancel_url", cp_CancelURL p); ("customer_email", cp_CustomerEmail p);
   ("client_reference_id", cp_SignupRequestID p); ("line_items[0][price]", cp_PriceID p); ("line_items[0][quantity]", "1");
   ("metadata[signup_request_id]", cp_SignupRequestID p); ("metadata[plan]", cp_Plan p); ("subscription_data[metadata][signup_request_id]", cp_SignupRequestID p)]%string.

(** [post]: what the request is answered, status and decoded body. *)
Definition CreateCheckoutSession {W} (APIKey BaseURL : string) (post : string -> list (string * string) -> W -> option (Z * option CheckoutSession) * W)
    (p : CheckoutSessionParams) (w : W) : result serror CheckoutSession * W :=
  if String.eqb APIKey "" then (Err ErrCheckoutUnavailable, w)
  else
    let b := if String.eqb BaseURL "" then "https://api.stripe.com"%string else BaseURL in
    let '(reply, w) := post (TrimRight (Ascii.ascii_of_nat 47) b +:+ "/v1/checkout/sessions") (checkout_form p) w in
    (match reply with
     | None => Err ErrOther
     | Some (status, out) =>
         if 400 <=? status then Err ErrOther
         else match out with
         | None => Err ErrOther
         | Some out => if String.eqb (cs_ID out) "" || String.eqb (cs_URL out) "" then Err ErrOther else Ok out
         end
     end, w).

(** ** The service *)
Record WelcomeMessage (R : Type) := mkWelcome { wm_To : string; wm_OrgName : string; wm_Plan : string; wm_TenantID : string; wm_LoginURL : string; wm_DNSRecords : option R }.
Arguments mkWelcome {R}.
(** The audit entry of a signup. *)
Record provisioned_entry := mkEntry { pe_tenant : string; pe_email : string; pe_plan : string; pe_request : string; pe_session : string; pe_replay : bool }.

(** What is wired; a failure of checklist, audit or mailer is only logged. *)
Record SignupService (W R : Type) := mkService {
  provision : option (string -> string -> W -> bool * W);
  created_hook : option (string -> string -> W -> bool * W);
  stripe : option (CheckoutSessionParams -> W -> result serror CheckoutSession * W);
  checklist : option (string -> W -> W);
  audit : option (provisioned_entry -> W -> W);
  mailer : option (WelcomeMessage R -> W -> W);
  dns : option (string -> R);
  planPrices : gmap string string;
  baseURL : string;
  ParseAddress : string -> bool;
  sha256 : string -> list Z;
}.
Arguments mkService {W R}.
Arguments provision {W R}. Arguments created_hook {W R}. Arguments stripe {W R}. Arguments checklist {W R}. Arguments audit {W R}. Arguments mailer {W R}.
Arguments dns {W R}. Arguments planPrices {W R}. Arguments baseURL {W R}. Arguments ParseAddress {W R}. Arguments sha256 {W R}.

Record SignupStatusView := mkView { v_ID : string; v_Plan : string; v_Status : string; v_CreatedAt : Z; v_CompletedAt : option Z }.

Section service.
Context {W R : Type} `{SA : !SeatAccounter W} (seats : bool) (svc : SignupService W R).

(** [NewSignupService] trims the base URL. *)
Definition public_base (PublicBaseURL : string) : string := TrimRight (Ascii.ascii_of_nat 47) PublicBaseURL.
Definition successURL (id : string) : string := baseURL svc +:+ "/signup?status=success&id=" +:+ id +:+ "&session_id={CHECKOUT_SESSION_ID}".
Definition cancelURL (id : string) : string := baseURL svc +:+ "/signup?status=cancelled&id=" +:+ id.
Definition loginURL : string := if String.eqb (baseURL svc) "" then "/admin/dns-wizard" else baseURL svc +:+ "/admin/dns-wizard".

Definition validateSignupInput (email orgName plan : string) : option serror :=
  if String.eqb email "" || negb (ParseAddress svc email) || String.eqb orgName "" || (200 <? String.length orgName)%nat
     || match PlanByID plan with Some _ => false | None => true end
  then Some ErrInput else None.

Definition suffix (requestID : string) : string := String.substring 0 8 (hex_encode (sha256 svc requestID)).
Definition deterministicSlug (orgName requestID : string) : string :=
  (if String.eqb (slugify orgName) "" then "tenant"%string else slugify orgName) +:+ "-" +:+ suffix requestID.

(** The fates of the statements of [InitiateSignup], and the request with the
    URL. *)
Record initiate_env := mkInitEnv { i_create : delivery; i_failed : delivery; i_session : delivery; i_now : Z; i_id : string }.
Definition InitiateSignup (E : initiate_env) (email orgName plan : string) (s : sdb) (w : W) : result serror (SignupRequest * string) * sdb * W :=
  let email := TrimSpace email in
  let orgName := TrimSpace orgName in
  let plan := TrimSpace plan in
  match validateSignupInput email orgName plan with
  | Some e => (Err e, s, w)
  | None =>
      match stripe svc with
      | None => (Err ErrCheckoutUnavailable, s, w)
      | Some checkout =>
          if String.eqb (baseURL svc) "" then (Err ErrCheckoutUnavailable, s, w)
          else
            let priceID := default ""%string (planPrices svc !! plan) in
            if String.eqb priceID "" then (Err ErrCheckoutUnavailable, s, w)
            else match Create (i_create E) (i_now E) (i_id E) email orgName plan s with
            | (Err e, s) => (Err e, s, w)
            | (Ok req, s) =>
                match checkout (mkParams plan priceID email (successURL (ID req)) (cancelURL (ID req)) (ID req)) w with
                | (Err e, w) => (Err e, (MarkFailed (i_failed E) (ID req) s).2, w)
                | (Ok session, w) =>
                    match SetCheckoutSession (i_session E) (ID req) (cs_ID session) s with
                    | (Err e, s) => (Err e, s, w)
                    | (Ok _, s) => (Ok (set_session (cs_ID session) req, cs_URL session), s, w)
                    end
                end
            end
      end
  end.

Definition GetStatus (uuid : string -> option string) (d : delivery) (id : string) (s : sdb) : result serror SignupStatusView :=
  let id := TrimSpace id in
  if String.eqb id "" then Err ErrInput
  else let? r := GetByID uuid d id s in Ok (mkView (ID r) (sPlan r) (Status r) (CreatedAt r) (CompletedAt r)).

(** Fates, clocks and ids of a completion; [between n]: what others do before
    its statement [n]. *)
Record complete_env := mkCompleteEnv {
  c_read : delivery; c_insert : delivery; c_slug : delivery; c_self : delivery; c_user : delivery; c_active : delivery; c_failed : delivery;
  c_now : Z; c_tenant : string; c_owner : string; between : nat -> sdb * W -> sdb * W;
}.

Definition on_base {A} (f : tdb -> A * tdb) (s : sdb) : A * sdb := let '(a, b) := f (base s) in (a, mkSDB (signups s) b (self_service s)).

(** [signupProvisioner.CreateTenant], [EnsureProvisioned], [CreateAdminUser]. *)
Definition prov_CreateTenant (E : complete_env) (input : CreateTenantInput) (x : sdb * W) : option Tenant * option perror * (sdb * W) :=
  let '(t, e, b, w) := CreateTenant (provision svc) (created_hook svc) (c_insert E) (c_now E) (c_tenant E) input (base x.1) x.2 in
  (classifyCreateTenantResult t e, (mkSDB (signups x.1) b (self_service x.1), w)).
Definition prov_EnsureProvisioned (tenantID plan : string) (x : sdb * W) : bool * (sdb * W) :=
  let '(ok, w) := call_hook (provision svc) tenantID plan x.2 in
  if negb ok then (false, (x.1, w)) else let '(ok, w) := call_hook (created_hook svc) tenantID plan w in (ok, (x.1, w)).
Definition CreateAdminUser (E : complete_env) (tenantID email displayName : string) (x : sdb * W) : option perror * (sdb * W) :=
  let input := mkCreateUser ("selfservice:" +:+ email) email email displayName "owner" 0 "user" in
  let '(r, b, w) := CreateUser seats (c_user E) (fun y => y) (c_now E) (c_owner E) tenantID input (base x.1) x.2 in
  (match r with Ok _ => None | Err e => Some (if isUniqueViolation e then ErrUserExists else ErrService e) end, (mkSDB (signups x.1) b (self_service x.1), w)).

Definition on_signup {A} (f : sdb -> A * sdb) (x : sdb * W) : A * (sdb * W) := let '(a, s) := f x.1 in (a, (s, x.2)).
Definition failSignup (E : complete_env) (id : string) (x : sdb * W) : sdb * W := (on_signup (MarkFailed (c_failed E) id) x).2.

Definition auditProvisioned (t : Tenant) (req : SignupRequest) (replay : bool) (w : W) : W :=
  match audit svc with None => w | Some log => log (mkEntry (tID t) (sEmail req) (sPlan req) (ID req) (StripeCheckoutSessionID req) replay) w end.
Definition sendWelcome (t : Tenant) (req : SignupRequest) (w : W) : W :=
  match mailer svc with
  | None => w
  | Some send =>
      let domain := customDomainFromEmail (sEmail req) in
      let records := match dns svc with Some g => if String.eqb domain "" then None else Some (g domain) | None => None end in
      send (mkWelcome (sEmail req) (tName t) (Plan t) (tID t) loginURL records) w
  end.

(** From the tenant on. *)
Definition finish (E : complete_env) (req : SignupRequest) (t : Tenant) (replay heal : bool) (x : sdb * W) : result serror Tenant * (sdb * W) :=
  let x := between E 3 x in
  let '(ok, x) := if heal then prov_EnsureProvisioned (tID t) (Plan t) x else (true, x) in
  if negb ok then (Err ErrOther, failSignup E (ID req) x)
  else
    let '(_, x) := on_signup (MarkSelfService (c_self E) (tID t)) x in
    let '(e, x) := CreateAdminUser E (tID t) (sEmail req) (displayNameFromEmail (sEmail req)) (between E 4 x) in
    if match e with None | Some ErrUserExists => false | Some _ => true end then (Err ErrOther, failSignup E (ID req) x)
    else
      let x := match checklist svc with None => x | Some init => (x.1, init (tID t) x.2) end in
      let '(r, x) := on_signup (MarkActive (c_active E) (ID req) (c_now E)) (between E 5 x) in
      match r with
      | Err _ => (Err ErrOther, failSignup E (ID req) x)
      | Ok _ => (Ok t, (x.1, sendWelcome t req (auditProvisioned t req replay x.2)))
      end.

Definition CompleteSignup (E : complete_env) (stripeCheckoutSessionID : string) (x : sdb * W) : result serror Tenant * (sdb * W) :=
  let session := TrimSpace stripeCheckoutSessionID in
  if String.eqb session "" then (Err ErrInput, x)
  else match GetByCheckoutSession (c_read E) session x.1 with
  | Err e => (Err e, x)
  | Ok req =>
      let slug := deterministicSlug (OrgName req) (ID req) in
      let x := between E 1 x in
      if String.eqb (Status req) "active" then (GetTenantBySlug (c_slug E) slug x.1, x)
      else
        let name := if String.eqb (OrgName req) "" then displayNameFromEmail (sEmail req) else OrgName req in
        let '(t, e, x) := prov_CreateTenant E (mkCreateTenant name slug (sPlan req)) x in
        match t, e with
        | _, Some ErrTenantExists =>
            let x := between E 2 x in
            match GetTenantBySlug (c_slug E) slug x.1 with
            | Ok t => finish E req t true true x
            | Err _ => (Err ErrOther, failSignup E (ID req) x)
            end
        | Some t, Some ErrTenantProvisionIncomplete => finish E req t false true x
        | Some t, None => finish E req t false false x
        | _, _ => (Err ErrOther, failSignup E (ID req) x)
        end
  end.

(** What the webhook calls: a checkout of another flow is no error. *)
Definition CompleteCheckoutSignup (E : complete_env) (stripeCheckoutSessionID : string) (x : sdb * W) : bool * (sdb * W) :=
  let '(r, x) := CompleteSignup E stripeCheckoutSessionID x in
  (match r with Ok _ | Err ErrSignupNotFound => true | Err _ => false end, x).
End service.

(** ** The handlers ([signup_handlers.go]) *)
Definition splitForwardedFor (xff : string) : list string :=
  if String.eqb (TrimSpace xff) "" then [] else List.filter (fun v => negb (String.eqb v "")) (TrimSpace <$> Split comma xff).

(** [SplitHostPort]: the host, if the address has a port.  [forwarded]: the
    values of X-Forwarded-For; [Header.Get] gives the first. *)
Definition clientIP (SplitHostPort : string -> option string) (RemoteAddr : string) (forwarded : list string) (trustedProxyDepth : Z) : string :=
  let remote := default RemoteAddr (SplitHostPort RemoteAddr) in
  if trustedProxyDepth <=? 0 then remote
  else
    let chain := splitForwardedFor (default ""%string (head forwarded)) ++ [remote] in
    let idx := Z.of_nat (length chain) - 1 - trustedProxyDepth in
    default remote (chain !! Z.to_nat (if idx <? 0 then 0 else idx)).

Record SignupHandlers := mkHandlers { limiter : bool; limit : Z; window : Z; depth : Z }.
Definition NewSignupHandlers (limiter : bool) (Limit Window : Z) (TrustedProxyDepth : option Z) : SignupHandlers :=
  mkHandlers limiter (if Limit <=? 0 then 10 else Limit) (if Window <=? 0 then Minute else Window)
    (match TrustedProxyDepth with None => 1 | Some n => if n <? 0 then 0 else n end).

Definition statusForSignupError (e : serror) : Z :=
  match e with ErrSignupNotFound => 404 | ErrCheckoutUnavailable => 503 | ErrInput => 400 | ErrTenantNotFound => 404 | ErrOther => 500 end.

Section handlers.
Context {V : Type} `{VC : ValkeyCounter V} (h : SignupHandlers) (SplitHostPort : string -> option string).

Definition signup_key (ip : string) (now : Z) : string := "kmail:signup:rl:" +:+ ip +:+ ":" +:+ pretty (Unix (Truncate now (window h))).
Record client := mkClient { RemoteAddr : string; forwarded : list string }.
Definition allow (d : delivery) (now sv : Z) (c : client) (v : V) : bool * V :=
  if negb (limiter h) then (true, v)
  else
    let '(r, v) := IncrWithTTL d sv (signup_key (clientIP SplitHostPort (RemoteAddr c) (forwarded c) (depth h)) now) (window h) v in
    (match r with Err _ => true | Ok count => count <=? limit h end, v).

Context {W R : Type} (svc : SignupService W R) (uuid : string -> option string).
(** [body]: the decoded request, email, organisation and plan. *)
Definition initiate (E : initiate_env) (d : delivery) (now sv : Z) (c : client) (body : option (string * string * string)) (v : V) (s : sdb) (w : W) : Z * V * sdb * W :=
  let '(ok, v) := allow d now sv c v in
  if negb ok then (429, v, s, w)
  else match body with
  | None => (400, v, s, w)
  | Some (email, org, plan) =>
      let '(r, s, w) := InitiateSignup svc E email org plan s w in ((match r with Ok _ => 201 | Err e => statusForSignupError e end), v, s, w)
  end.
Definition status (d : delivery) (id : string) (s : sdb) : Z * option SignupStatusView :=
  match GetStatus uuid d id s with Ok v => (200, Some v) | Err e => (statusForSignupError e, None) end.
End handlers.

(** ** What a completion achieves *)
Section completion.
Context {W R : Type} `{SA : !SeatAccounter W} (seats : bool) (svc : SignupService W R).
(** The world of the services only moves on. *)
Context (moves : W -> W -> Prop) `{!PreOrder moves} (provisioned : string -> W -> Prop).

(** What the wired services promise: each call moves the world on, what is
    provisioned stays so, hooks that report success have provisioned, and the
    check of a seat is no unique violation. *)
Record world_laws : Prop := {
  provisioned_stays : forall id w w', moves w w' -> provisioned id w -> provisioned id w';
  hooks_move : forall id plan w, moves w (runProvisioningHooks (provision svc) (created_hook svc) id plan w).2;
  hooks_provision : forall id plan w w', runProvisioningHooks (provision svc) (created_hook svc) id plan w = (Ok tt, w') -> provisioned id w';
  check_error : forall id w, CheckSeat id w <> Some ErrUnique;
  seats_move : forall id n w, moves w (IncrementSeats id n w).2;
  checklist_moves : forall f id w, checklist svc = Some f -> moves w (f id w);
  audit_moves : forall f e w, audit svc = Some f -> moves w (f e w);
  mailer_moves : forall f m w, mailer svc = Some f -> moves w (f m w);
  stripe_moves : forall f p w, stripe svc = Some f -> moves w (f p w).2;
}.
Hypothesis laws : world_laws.

Abbreviation slug_of r := (deterministicSlug svc (OrgName r) (ID r)).

(** [u] stands in the way of a first owner with address [e] in tenant [tid],
    being that owner or another account. *)
Definition holds_address (e tid : string) (u : User) : Prop :=
  Email u = e \/ StalwartAccountID u = e \/ (uTenantID u = tid /\ KChatUserID u = "selfservice:" +:+ e).
(** The tenant of a request is there, provisioned, and its address has an
    account. *)
Definition settled (r : SignupRequest) (x : sdb * W) : Prop :=
  exists t, t ∈ tenants_ (base x.1) /\ Slug t = slug_of r /\ provisioned (tID t) x.2 /\ exists u, u ∈ users_ (base x.1) /\ holds_address (sEmail r) (tID t) u.

Record kept_row (r r' : SignupRequest) : Prop := {
  kept_id : ID r' = ID r; kept_email : sEmail r' = sEmail r; kept_org : OrgName r' = OrgName r; kept_plan : sPlan r' = sPlan r;
  kept_session : StripeCheckoutSessionID r <> ""%string -> StripeCheckoutSessionID r' = StripeCheckoutSessionID r;
  kept_active : Status r = "active"%string -> Status r' = "active"%string;
}.
Definition kept_tenant (t t' : Tenant) : Prop := tID t' = tID t /\ Slug t' = Slug t.
Definition kept_user (u u' : User) : Prop :=
  Email u' = Email u /\ StalwartAccountID u' = StalwartAccountID u /\ uTenantID u' = uTenantID u /\ KChatUserID u' = KChatUserID u.
Definition all_kept {A} (K : A -> A -> Prop) (l l' : list A) : Prop := forall a, a ∈ l -> exists a', a' ∈ l' /\ K a a'.

(** Requests have one id and at most one session, and an active one is
    settled. *)
Record signup_inv (x : sdb * W) : Prop := {
  inv_ids : NoDup (ID <$> signups x.1);
  inv_rows : forall r, r ∈ signups x.1 -> one_of (sPlan r) plans = true /\ sEmail r <> ""%string;
  inv_sessions : forall r r', r ∈ signups x.1 -> r' ∈ signups x.1 -> StripeCheckoutSessionID r = StripeCheckoutSessionID r' -> StripeCheckoutSessionID r <> ""%string -> r = r';
  inv_active : forall r, r ∈ signups x.1 -> Status r = "active"%string -> settled r x;
}.

(** A tenant whose slug is the one of a request keeps it, and an account stays
    at the address of the request; tenants and accounts of no request may be
    renamed and removed. *)
Definition protects (x y : sdb * W) : Prop := forall r t, r ∈ signups x.1 -> t ∈ tenants_ (base x.1) -> Slug t = slug_of r ->
  (exists t', t' ∈ tenants_ (base y.1) /\ kept_tenant t t') /\
  ((exists u, u ∈ users_ (base x.1) /\ holds_address (sEmail r) (tID t) u) -> exists u, u ∈ users_ (base y.1) /\ holds_address (sEmail r) (tID t) u).

(** What every step of a pod, of a signup or not, is taken to do: no request is
    lost, the tenants of requests are protected, what is done stays done. *)
Record guar (x y : sdb * W) : Prop := {
  guar_inv : signup_inv x -> signup_inv y;
  guar_world : moves x.2 y.2;
  guar_protects : protects x y;
  guar_rows : all_kept kept_row (signups x.1) (signups y.1);
}.

Lemma kept_row_refl r : kept_row r r.
Proof. done. Qed.
Lemma kept_row_trans r1 r2 r3 : kept_row r1 r2 -> kept_row r2 r3 -> kept_row r1 r3.
Proof. intros [A1 A2 A3 A4 A5 A6] [B1 B2 B3 B4 B5 B6]. split; try congruence; [|auto]. intros H. rewrite B5; [auto|]. by rewrite A5. Qed.
Lemma all_kept_same {A} (K : A -> A -> Prop) l l' : (forall a, K a a) -> (forall a, a ∈ l -> a ∈ l') -> all_kept K l l'.
Proof. intros HK Hl a Ha. exists a. auto. Qed.
Lemma all_kept_trans {A} (K : A -> A -> Prop) l1 l2 l3 : (forall a b c, K a b -> K b c -> K a c) -> all_kept K l1 l2 -> all_kept K l2 l3 -> all_kept K l1 l3.
Proof. intros HK H1 H2 a Ha. destruct (H1 a Ha) as (b & Hb & Hab). destruct (H2 b Hb) as (c & Hc & Hbc). eauto. Qed.

#[global] Instance guar_preorder : PreOrder guar.
Proof.
  split.
  - intros x. split; [done|done|by intros r t; split; [exists t|]|apply all_kept_same; [apply kept_row_refl|done]].
  - intros x y z [A1 A2 A3 A5] [B1 B2 B3 B5]. split; [auto|by trans y.2| |eapply all_kept_trans; [exact kept_row_trans|done..]].
    intros r t Hr Ht Hs. destruct (A3 r t Hr Ht Hs) as [(t1 & Ht1 & I1 & S1) Hu]. destruct (A5 r Hr) as (r1 & Hr1 & K).
    destruct (B3 r1 t1 Hr1 Ht1) as [(t2 & Ht2 & I2 & S2) Hu']; [by rewrite S1, (kept_id _ _ K), (kept_org _ _ K)|].
    rewrite I1, (kept_email _ _ K) in Hu'. split; [|auto]. exists t2. split; [done|]. unfold kept_tenant. split; congruence.
Qed.

Lemma settled_kept r r' x y : moves x.2 y.2 -> all_kept kept_tenant (tenants_ (base x.1)) (tenants_ (base y.1)) ->
  all_kept kept_user (users_ (base x.1)) (users_ (base y.1)) -> kept_row r r' -> settled r x -> settled r' y.
Proof.
  intros Hw Ht Hu [E1 E2 E3 _ _ _] (t & Hin & Hs & Hp & u & Hui & Ha). destruct (Ht t Hin) as (t' & Hin' & Hid & Hs'). destruct (Hu u Hui) as (u' & Hui' & K1 & K2 & K3 & K4).
  exists t'. split_and!; [done|rewrite E1, E3; congruence|rewrite Hid; by eapply (provisioned_stays laws)|]. exists u'. split; [done|]. unfold holds_address in *.
  rewrite E2, K1, K2, K3, K4, Hid. done.
Qed.

Lemma settled_same r r' x : kept_row r r' -> settled r x -> settled r' x.
Proof. apply settled_kept; [done|by apply all_kept_same..]. Qed.
Lemma kept_protects x y : all_kept kept_tenant (tenants_ (base x.1)) (tenants_ (base y.1)) ->
  all_kept kept_user (users_ (base x.1)) (users_ (base y.1)) -> protects x y.
Proof.
  intros Ht Hu r t Hr Hin Hs. split; [by apply Ht|]. intros (u & Hui & Ha). destruct (Hu u Hui) as (u' & Hui' & K1 & K2 & K3 & K4).
  exists u'. split; [done|]. unfold holds_address in *. by rewrite K1, K2, K3, K4.
Qed.

(** A step that leaves the requests. *)
Lemma guar_base s b ss w w' : moves w w' -> all_kept kept_tenant (tenants_ (base s)) (tenants_ b) -> all_kept kept_user (users_ (base s)) (users_ b) ->
  guar (s, w) (mkSDB (signups s) b ss, w').
Proof.
  intros Hw Ht Hu. split; [|done|by apply kept_protects|apply all_kept_same; [apply kept_row_refl|done]]. intros [I1 I0 I2 I3]. split; [done|done|done|]. intros r Hr Ha.
  eapply settled_kept; [..|apply (I3 r Hr Ha)]; [done|done|done|apply kept_row_refl].
Qed.
Lemma guar_moves s w w' : moves w w' -> guar (s, w) (s, w').
Proof. intros Hw. destruct s as [l b ss]. by apply (guar_base (mkSDB l b ss) b ss); [|apply all_kept_same..]. Qed.

(** A step that rewrites requests in place. *)
Lemma guar_update p f (x : sdb * W) : (forall r, r ∈ signups x.1 -> p r = true -> kept_row r (f r) /\ StripeCheckoutSessionID (f r) = StripeCheckoutSessionID r) ->
  (signup_inv x -> forall r, r ∈ signups x.1 -> p r = true -> Status (f r) = "active"%string -> settled r x) ->
  guar x (on_signups (update p f) x.1, x.2).
Proof.
  intros Hf Hact. destruct x as [s w]. cbn [fst snd] in *. split; cbn [fst snd base on_signups signups]; [|done|by apply kept_protects; apply all_kept_same|].
  - intros I. destruct I as [I1 I0 I2 I3] eqn:EI. split; cbn [fst snd signups on_signups].
    + rewrite update_proj_elem; [done|]. intros r Hr Hp. apply (Hf r Hr Hp).
    + intros r (q & Hq & ->)%elem_of_update. destruct (p q) eqn:Ep; [|by apply I0]. destruct (Hf q Hq Ep) as [Hk _]. rewrite (kept_plan _ _ Hk), (kept_email _ _ Hk). by apply I0.
    + intros r r' (q & Hq & ->)%elem_of_update (q' & Hq' & ->)%elem_of_update.
      assert (forall q, q ∈ signups s -> StripeCheckoutSessionID (if p q then f q else q) = StripeCheckoutSessionID q) as Hs
        by (intros q0 Hq0; destruct (p q0) eqn:Ep; [apply (Hf q0 Hq0 Ep)|done]).
      rewrite !Hs by done. intros E Hn. by rewrite (I2 q q' Hq Hq' E Hn).
    + intros r (q & Hq & ->)%elem_of_update Ha. destruct (p q) eqn:Ep.
      * eapply settled_kept; [..|apply (Hact I q Hq Ep Ha)]; [done|by apply all_kept_same..|apply (Hf q Hq Ep)].
      * eapply settled_kept; [..|apply (I3 q Hq Ha)]; [done|by apply all_kept_same..|apply kept_row_refl].
  - intros r Hr. exists (if p r then f r else r). split; [apply elem_of_update; by exists r|]. destruct (p r) eqn:Ep; [apply (Hf r Hr Ep)|apply kept_row_refl].
Qed.
Lemma guar_begin {A} (e : serror) d (body : sdb -> result serror (A * sdb)) s w :
  (forall a s', body s = Ok (a, s') -> guar (s, w) (s', w)) -> guar (s, w) ((BeginFunc e d body s).2, w).
Proof. intros Hb. by apply (BeginFunc_ind (fun s' => guar (s, w) (s', w))). Qed.
Lemma on_signup_eq {A} (f : sdb -> A * sdb) (x : sdb * W) : on_signup f x = ((f x.1).1, ((f x.1).2, x.2)).
Proof. unfold on_signup. by destruct (f x.1). Qed.

Lemma MarkFailed_guar d id x : guar x ((MarkFailed d id x.1).2, x.2).
Proof.
  destruct x as [s w]. apply guar_begin. intros a s' [= _ <-]. apply (guar_update _ _ (s, w)); cbn [fst snd]; [|done].
  intros r _ Hp%andb_prop. split; [|done]. split; try done. intros Ha. destruct Hp as [_ Hp]. by rewrite Ha in Hp.
Qed.
Lemma failSignup_guar E id x : guar x (failSignup E id x).
Proof. unfold failSignup. rewrite on_signup_eq. apply MarkFailed_guar. Qed.

Lemma MarkActive_guar d id at_ x : (forall r, r ∈ signups x.1 -> ID r = id -> settled r x) -> guar x ((MarkActive d id at_ x.1).2, x.2).
Proof.
  destruct x as [s w]. intros Hset. apply guar_begin. intros a s' [= _ <-]. apply (guar_update _ _ (s, w)); cbn [fst snd].
  - intros r _ _. split; done.
  - intros _ r Hr [Hid%String.eqb_eq _]%andb_prop _. by apply Hset.
Qed.
Lemma MarkActive_done at_ id s s' r : MarkActive Delivered id at_ s = (Ok tt, s') -> r ∈ signups s -> ID r = id ->
  exists r', r' ∈ signups s' /\ kept_row r r' /\ Status r' = "active"%string.
Proof.
  intros [= <-] Hr <-. set (p := fun r0 => is_signup (ID r) r0 && negb (String.eqb (Status r0) "active")).
  exists (if p r then set_status "active" (Some at_) r else r). split; [apply elem_of_update; by exists r|]. unfold p, is_signup. rewrite String.eqb_refl. cbn.
  destruct (String.eqb_spec (Status r) "active") as [Ha|]; cbn; (split; [|done]); [apply kept_row_refl|done].
Qed.

Lemma MarkSelfService_guar d id x : guar x ((MarkSelfService d id x.1).2, x.2).
Proof. destruct x as [s w]. apply guar_begin. intros a s' [= _ <-]. by apply guar_base; [|apply all_kept_same..]. Qed.

Lemma prov_EnsureProvisioned_step id plan x ok y : prov_EnsureProvisioned svc id plan x = (ok, y) -> guar x y /\ y.1 = x.1 /\ (ok = true -> provisioned id y.2).
Proof.
  destruct x as [s w]. unfold prov_EnsureProvisioned. cbn [fst snd]. intros He.
  pose proof (hooks_move laws id plan w) as Hm. pose proof (hooks_provision laws id plan w) as Hp. unfold runProvisioningHooks in Hm, Hp.
  destruct (call_hook (provision svc) id plan w) as [ok1 w1]. destruct ok1; cbn [negb] in *; [|injection He as <- <-; split_and!; [by apply guar_moves|done|done]].
  destruct (call_hook (created_hook svc) id plan w1) as [ok2 w2]. injection He as <- <-. split_and!; [by apply guar_moves|done|]. intros ->. by apply Hp.
Qed.

Lemma prov_CreateTenant_step E input x t e y : prov_CreateTenant svc E input x = (t, e, y) ->
  guar x y /\ signups y.1 = signups x.1 /\ forall t0, t = Some t0 -> t0 ∈ tenants_ (base y.1) /\ Slug t0 = ct_Slug input /\ (e = None -> provisioned (tID t0) y.2).
Proof.
  destruct x as [s w]. unfold prov_CreateTenant, CreateTenant. cbn [fst snd].
  destruct (_ || _). { cbn. intros [= <- <- <-]. split_and!; [|done|done]. destruct s. by apply guar_base; [|apply all_kept_same..]. }
  set (new := mkTenant _ _ _ _ _ _ _).
  set (body := fun s0 : tdb => if tenant_ok new s0 then Ok (new, with_tenants_ (tenants_ s0 ++ [new]) s0) else Err (tenant_error new)).
  assert (forall b, (run (c_insert E) body (base s)).2 = b -> all_kept kept_tenant (tenants_ (base s)) (tenants_ b) /\ all_kept kept_user (users_ (base s)) (users_ b)) as Hkeep.
  { intros b <-. apply (BeginFunc_ind (fun b => all_kept kept_tenant (tenants_ (base s)) (tenants_ b) /\ all_kept kept_user (users_ (base s)) (users_ b))); [split; by apply all_kept_same|].
    intros a s'. unfold body. destruct (tenant_ok new _); [|done]. intros [= _ <-]. split; apply all_kept_same; try done. intros z Hz. cbn. apply elem_of_app. by left. }
  destruct (run (c_insert E) body (base s)) as [[t0|e0] b] eqn:Er; cbn [snd] in Hkeep; destruct (Hkeep b eq_refl) as [Ht Hu].
  - apply run_done in Er. unfold body in Er. destruct (tenant_ok new _); [|done]. injection Er as <- <-.
    pose proof (hooks_move laws (tID new) (Plan new) w) as Hm. pose proof (hooks_provision laws (tID new) (Plan new) w) as Hp.
    destruct (runProvisioningHooks _ _ _ _ w) as [[[]|e1] w1]; cbn; intros [= <- <- <-]; (split_and!; [by apply guar_base|done|]); intros t0 [= <-];
      (split_and!; [cbn; apply elem_of_app; right; by left|done|]); [intros _; by apply Hp|done].
  - cbn. intros [= <- <- <-]. split_and!; [by apply guar_base|done|done].
Qed.
Lemma user_taken_holds u s tid e : uTenantID u = tid -> Email u = e -> StalwartAccountID u = e -> KChatUserID u = "selfservice:" +:+ e ->
  user_taken u s = true -> exists v, v ∈ users_ s /\ holds_address e tid v.
Proof.
  intros <- He Hs Hk (v & Hv & H)%existsb_elem. exists v. split; [done|]. unfold holds_address. apply orb_prop in H as [[H|H]%orb_prop|[H1 H2]%andb_prop]; breflect; [left|right; left|right; right]; [congruence..|split; congruence].
Qed.

Lemma CreateAdminUser_step E id email name x e y : CreateAdminUser seats E id email name x = (e, y) ->
  guar x y /\ signups y.1 = signups x.1 /\ (e = None \/ e = Some ErrUserExists -> exists u, u ∈ users_ (base y.1) /\ holds_address email id u).
Proof.
  destruct x as [s w]. unfold CreateAdminUser, CreateUser. cbn [fst snd cu_KChatUserID cu_StalwartAccountID cu_Email cu_DisplayName cu_AccountType cu_Role cu_QuotaBytes].
  assert (forall b, base s = b -> guar (s, w) (mkSDB (signups s) b (self_service s), w)) as Hsame by (intros b <-; by apply guar_base; [|apply all_kept_same..]).
  destruct (_ || _). { cbn. intros [= <- <-]. split_and!; [by apply Hsame|done|]. by intros [|]. }
  cbn -[run CheckSeat IncrementSeats user_ok user_error int64_max].
  destruct (if seats then CheckSeat id w else None) as [e0|] eqn:Ec.
  { cbn. intros [= <- <-]. split_and!; [by apply Hsame|done|]. destruct seats; [|done]. destruct e0; cbn; try (by intros [|]). by destruct (check_error laws id w). }
  set (u := mkUser _ _ _ _ _ _ _ _ _ _ _ _). set (body := fun s0 : tdb => if user_ok u s0 then Ok (u, with_users_ (users_ s0 ++ [u]) s0) else Err (user_error u s0)).
  assert (forall b, (run (c_user E) body (base s)).2 = b -> all_kept kept_tenant (tenants_ (base s)) (tenants_ b) /\ all_kept kept_user (users_ (base s)) (users_ b)) as Hkeep.
  { intros b <-. apply (BeginFunc_ind (fun b => all_kept kept_tenant (tenants_ (base s)) (tenants_ b) /\ all_kept kept_user (users_ (base s)) (users_ b))); [split; by apply all_kept_same|].
    intros a s'. unfold body. destruct (user_ok u _); [|done]. intros [= _ <-]. split; apply all_kept_same; try done. intros z Hz. cbn. apply elem_of_app. by left. }
  destruct (run (c_user E) body (base s)) as [[u0|e0] b] eqn:Er; cbn [snd] in Hkeep; destruct (Hkeep b eq_refl) as [Ht Hu].
  - apply run_done in Er. unfold body in Er. destruct (user_ok u _); [|done]. injection Er as <- <-. intros [= <- <-]. split_and!; [|done|].
    + apply guar_base; [|done|done]. cbn. destruct seats; [apply (seats_move laws)|done].
    + intros _. exists u. split; [cbn; apply elem_of_app; right; by left|by left].
  - intros [= <- <-]. split_and!; [by apply guar_base|done|]. destruct e0; cbn; try (by intros [|]). intros _. unfold run, BeginFunc, body in Er.
    destruct (user_ok u (base s)); [by destruct (c_user E)|]. destruct (c_user E); [|done|]; injection Er as Er <-; unfold user_error in Er;
      (destruct (user_checks u && user_taken u (base s)) eqn:Eu; [|done]); apply andb_prop in Eu as [_ Eu]; by apply (user_taken_holds u).
Qed.

Lemma GetTenantBySlug_ok d slug s t : GetTenantBySlug d slug s = Ok t -> t ∈ tenants_ (base s) /\ Slug t = slug.
Proof. unfold GetTenantBySlug. destruct d; [|done..]. destruct (List.find _ _) as [t0|] eqn:Ef; [|done]. intros [= ->]. apply find_elem in Ef as [? ?]. by breflect. Qed.
(** The row of a request and its tenant are still there. *)
Definition under_way (req : SignupRequest) (t : Tenant) (x : sdb * W) : Prop :=
  (exists r, r ∈ signups x.1 /\ kept_row req r) /\ (exists t0, t0 ∈ tenants_ (base x.1) /\ kept_tenant t t0) /\ Slug t = slug_of req.
Lemma under_way_guar req t x y : guar x y -> under_way req t x -> under_way req t y.
Proof.
  intros [_ _ Ht Hr] ((r & Hin & Hk) & (t0 & Hin0 & Hk0) & Hs). split_and!; [| |done].
  - destruct (Hr r Hin) as (r' & Hin' & Hk'). exists r'. split; [done|]. by eapply kept_row_trans.
  - assert (Slug t0 = slug_of r) as Hs0 by (rewrite (kept_id _ _ Hk), (kept_org _ _ Hk), <- Hs; apply Hk0).
    destruct (Ht r t0 Hin Hin0 Hs0) as [(t1 & Hin1 & Hk1) _]. exists t1. split; [done|]. unfold kept_tenant in *. intuition congruence.
Qed.

Lemma under_way_settled req t x : under_way req t x -> provisioned (tID t) x.2 -> (exists u, u ∈ users_ (base x.1) /\ holds_address (sEmail req) (tID t) u) -> settled req x.
Proof. intros (_ & (t0 & Hin & Hid & Hs) & Hslug) Hp Hu. exists t0. rewrite Hid. split_and!; [done|congruence|done|done]. Qed.

Lemma settled_guar r r' x y : guar x y -> (exists r0, r0 ∈ signups x.1 /\ kept_row r r0) -> kept_row r r' -> settled r x -> settled r' y.
Proof.
  intros [_ Hw Ht _] (r0 & Hr0 & K0) K (t & Hin & Hs & Hp & Hu). apply (settled_same r); [done|].
  destruct (Ht r0 t Hr0 Hin) as [(t1 & Hin1 & I1 & S1) Hu']; [by rewrite Hs, (kept_id _ _ K0), (kept_org _ _ K0)|].
  rewrite (kept_email _ _ K0) in Hu'. exists t1. rewrite I1. split_and!; [done|congruence|by eapply (provisioned_stays laws)|auto].
Qed.

Lemma activate_step d at_ req t x res y : signup_inv x -> under_way req t x -> settled req x -> on_signup (MarkActive d (ID req) at_) x = (res, y) ->
  guar x y /\ (res = Ok tt -> exists r, r ∈ signups y.1 /\ kept_row req r /\ Status r = "active"%string).
Proof.
  intros Hinv ((r & Hr & Hk) & _ & _) Hset. rewrite on_signup_eq. intros [= Hres <-]. split.
  - apply MarkActive_guar. intros r0 Hr0 Hid. assert (r0 = r) as -> by (eapply (NoDup_proj_eq ID); [apply Hinv|done|done|]; rewrite Hid; symmetry; apply Hk).
    by apply (settled_same req).
  - intros ->. destruct d; [|done..]. destruct (MarkActive_done at_ (ID req) x.1 _ r eq_refl Hr) as (r' & Hr' & Hk' & Ha); [apply Hk|].
    exists r'. split_and!; [done|by eapply kept_row_trans|done].
Qed.

Lemma closing_moves t req replay w : moves w (sendWelcome svc t req (auditProvisioned svc t req replay w)).
Proof.
  trans (auditProvisioned svc t req replay w).
  - unfold auditProvisioned. destruct (audit svc) as [f|] eqn:E; [by apply (audit_moves laws)|done].
  - unfold sendWelcome. destruct (mailer svc) as [f|] eqn:E; [by apply (mailer_moves laws)|done].
Qed.

Lemma finish_step E req t replay heal x res y :
  signup_inv x -> (forall n z, guar z (between E n z)) -> under_way req t x -> (heal = false -> provisioned (tID t) x.2) ->
  finish seats svc E req t replay heal x = (res, y) ->
  guar x y /\ forall t', res = Ok t' -> t' = t /\ exists r, r ∈ signups y.1 /\ kept_row req r /\ Status r = "active"%string /\ settled r y.
Proof.
  intros Hinv Hrely Hway Hprov. unfold finish. set (x1 := between E 3 x). assert (guar x x1) as G1 by apply Hrely.
  destruct (if heal then prov_EnsureProvisioned svc (tID t) (Plan t) x1 else (true, x1)) as [ok x2] eqn:E2.
  assert (guar x x2 /\ (ok = true -> provisioned (tID t) x2.2)) as [G2 Hp2].
  { destruct heal; [|injection E2 as <- <-; split; [done|]; intros _; eapply (provisioned_stays laws); [apply G1|by apply Hprov]].
    apply prov_EnsureProvisioned_step in E2 as (G & _ & Hp). split; [by trans x1|done]. }
  clear E2. destruct ok; cbn [negb]; [|intros [= <- <-]; split; [trans x2; [done|apply failSignup_guar]|done]]. specialize (Hp2 eq_refl).
  rewrite on_signup_eq. set (x3 := (_, x2.2)). assert (guar x2 x3) as G3 by apply MarkSelfService_guar. set (x4 := between E 4 x3). assert (guar x3 x4) as G4 by apply Hrely.
  destruct (CreateAdminUser seats E (tID t) (sEmail req) _ x4) as [e x5] eqn:E5. apply CreateAdminUser_step in E5 as (G5 & _ & Hu5).
  assert (guar x2 x5) as G25 by (trans x3; [done|]; by trans x4). assert (guar x x5) as G05 by (by trans x2).
  destruct (match e with None | Some ErrUserExists => false | Some _ => true end) eqn:Ee; [intros [= <- <-]; split; [trans x5; [done|apply failSignup_guar]|done]|].
  assert (exists u, u ∈ users_ (base x5.1) /\ holds_address (sEmail req) (tID t) u) as Hu by (apply Hu5; destruct e as [[]|]; auto; done).
  assert (exists r0, r0 ∈ signups x5.1 /\ kept_row req r0) as Hrow5 by (apply (under_way_guar req t x x5 G05 Hway)).
  assert (settled req x5) as Hset5.
  { apply (under_way_settled req t); [by eapply under_way_guar|eapply (provisioned_stays laws); [apply G25|done]|done]. }
  set (x6 := match checklist svc with None => x5 | Some init => (x5.1, init (tID t) x5.2) end).
  assert (guar x5 x6) as G6 by (unfold x6; destruct (checklist svc) as [f|] eqn:Ef; [destruct x5; apply guar_moves; by apply (checklist_moves laws)|reflexivity]).
  set (x7 := between E 5 x6). assert (guar x5 x7) as G57 by (trans x6; [done|apply Hrely]). assert (guar x x7) as G07 by (by trans x5).
  destruct (on_signup (MarkActive (c_active E) (ID req) (c_now E)) x7) as [r x8] eqn:E8. apply (activate_step _ _ _ t) in E8 as [G8 H8];
    [|by apply G07|by eapply under_way_guar|apply (settled_guar req req x5 x7 G57 Hrow5 (kept_row_refl req) Hset5)].
  assert (guar x x8) as G08 by (by trans x7).
  destruct r as [[]|]; intros [= <- <-]; [|split; [trans x8; [done|apply failSignup_guar]|done]].
  destruct (H8 eq_refl) as (r & Hr & Hk & Ha). destruct x8 as [s8 w8]. assert (guar (s8, w8) (s8, sendWelcome svc t req (auditProvisioned svc t req replay w8))) as G9 by apply guar_moves, closing_moves.
  split; [by trans (s8, w8)|]. intros t' [= <-]. split; [done|]. exists r. split_and!; [done|done|done|]. eapply (settled_guar req); [|exact Hrow5|done|exact Hset5]. trans x7; [done|]. by trans (s8, w8).
Qed.
(** Whatever fails, a completion loses nothing; when it reports a tenant, the
    request of that session is active and settled, and the tenant has the slug
    of the request. *)
Lemma complete_step E session x res y : signup_inv x -> (forall n z, guar z (between E n z)) -> CompleteSignup seats svc E session x = (res, y) ->
  guar x y /\ forall t, res = Ok t ->
    exists r, r ∈ signups y.1 /\ StripeCheckoutSessionID r = TrimSpace session /\ Status r = "active"%string /\ settled r y /\ Slug t = slug_of r.
Proof.
  intros Hinv Hrely. unfold CompleteSignup. destruct (String.eqb_spec (TrimSpace session) "") as [|Hne]; [intros [= <- <-]; split; [reflexivity|done]|].
  destruct (GetByCheckoutSession (c_read E) (TrimSpace session) x.1) as [req|e] eqn:Eq; [|intros [= <- <-]; split; [reflexivity|done]].
  unfold GetByCheckoutSession, query_row in Eq. destruct (c_read E); [|done..]. destruct (List.find _ _) as [r0|] eqn:Ef; [|done]. injection Eq as ->.
  apply find_elem in Ef as [Hreq Hsess]. apply String.eqb_eq in Hsess. set (x1 := between E 1 x). assert (guar x x1) as G1 by apply Hrely.
  assert (forall r, kept_row req r -> StripeCheckoutSessionID r = TrimSpace session /\ slug_of r = slug_of req) as Hsame.
  { intros r Hk. split; [rewrite <- Hsess; apply Hk; congruence|]. by rewrite (kept_id _ _ Hk), (kept_org _ _ Hk). }
  destruct (String.eqb_spec (Status req) "active") as [Hact|_].
  { intros [= <- <-]. split; [done|]. intros t [Ht Hslug]%GetTenantBySlug_ok. destruct (guar_rows _ _ G1 req Hreq) as (r & Hr & Hk). destruct (Hsame r Hk).
    exists r. split_and!; [done|done|by apply Hk|eapply (settled_guar req); [exact G1|by exists req|done|by apply Hinv]|congruence]. }
  destruct (prov_CreateTenant svc E _ x1) as [[t e] x2] eqn:E2. apply prov_CreateTenant_step in E2 as (G2 & _ & H2). cbn [ct_Slug] in H2.
  assert (guar x x2) as G02 by (by trans x1). assert (guar x (failSignup E (ID req) x2)) as Gf by (trans x2; [done|apply failSignup_guar]).
  assert (exists r, r ∈ signups x2.1 /\ kept_row req r) as Hrow2 by (apply (guar_rows _ _ G02 req Hreq)).
  assert (forall t0 rep heal x3, guar x x3 -> under_way req t0 x3 -> (heal = false -> provisioned (tID t0) x3.2) -> finish seats svc E req t0 rep heal x3 = (res, y) ->
    guar x y /\ forall t, res = Ok t -> exists r, r ∈ signups y.1 /\ StripeCheckoutSessionID r = TrimSpace session /\ Status r = "active"%string /\ settled r y /\ Slug t = slug_of r) as Hfin.
  { intros t0 rep heal x3 G3 Hway Hp Hf. apply finish_step in Hf as [G4 H4]; [|by apply G3|done|done|done]. split; [by trans x3|]. intros t1 ->.
    destruct (H4 t1 eq_refl) as (-> & r & Hr & Hk & Ha & Hs). destruct (Hsame r Hk). exists r. split_and!; [done|done|done|done|]. destruct Hway as (_ & _ & ->). congruence. }
  destruct e as [[]|].
  - set (x3 := between E 2 x2). assert (guar x x3) as G3 by (trans x2; [done|apply Hrely]).
    destruct (GetTenantBySlug (c_slug E) _ x3.1) as [t0|e0] eqn:Eg; [|destruct t; intros [= <- <-]; (split; [trans x3; [done|apply failSignup_guar]|done])].
    apply GetTenantBySlug_ok in Eg as [Ht0 Hs0]. destruct t; apply Hfin; try done; (split_and!; [apply (guar_rows _ _ G3 req Hreq)|by exists t0|done]).
  - destruct t as [t0|]; [|intros [= <- <-]; by split]. destruct (H2 t0 eq_refl) as (Ht0 & Hs0 & _). apply Hfin; [done| |done]. split_and!; [done|by exists t0|done].
  - destruct t; intros [= <- <-]; by split.
  - destruct t; intros [= <- <-]; by split.
  - destruct t as [t0|]; [|intros [= <- <-]; by split]. destruct (H2 t0 eq_refl) as (Ht0 & Hs0 & Hp0). apply Hfin; [done| |by intros _; apply Hp0]. split_and!; [done|by exists t0|done].
Qed.

(** ** A first request *)
Lemma Create_guar d now id email org plan s w : email <> ""%string ->
  guar (s, w) ((Create d now id email org plan s).2, w) /\
  forall r s', Create d now id email org plan s = (Ok r, s') -> ID r = id /\ forall q, q ∈ signups s' -> ID q = id -> StripeCheckoutSessionID q = ""%string /\ Status q = "pending"%string.
Proof.
  intros Hem. split.
  - apply guar_begin. intros a s'. destruct (_ && _) eqn:Ec; [|done]. apply andb_prop in Ec as [Hpl Hfr]. intros [= _ <-].
    rewrite negb_true_iff, existsb_false in Hfr. set (new := mkSignup _ _ _ _ _ _ _ _). split; cbn [fst snd base on_signups]; [|done|by apply kept_protects; apply all_kept_same|].
    2:{ apply all_kept_same; [apply kept_row_refl|]. intros q Hq. cbn. apply elem_of_app. by left. }
    intros [I1 I0 I2 I3]. split; cbn [fst snd signups on_signups].
    + rewrite fmap_app. apply NoDup_append; [|done]. intros (q & Eid & Hq)%list_elem_of_fmap. cbn in Eid. specialize (Hfr q Hq). unfold is_signup in Hfr. by rewrite <- Eid, String.eqb_refl in Hfr.
    + intros q [Hq| ->%list_elem_of_singleton]%elem_of_app; [by apply I0|done].
    + intros q q' [Hq| ->%list_elem_of_singleton]%elem_of_app [Hq'| ->%list_elem_of_singleton]%elem_of_app Hs Hn; [by apply I2|cbn in Hs; congruence|done|done].
    + intros q [Hq| ->%list_elem_of_singleton]%elem_of_app Ha; [|done]. eapply settled_kept; [..|apply (I3 q Hq Ha)]; [done|by apply all_kept_same..|apply kept_row_refl].
  - intros r s'. unfold Create, BeginFunc. destruct (_ && _) eqn:Ec; [|by destruct d]. apply andb_prop in Ec as [_ Hfr]. rewrite negb_true_iff, existsb_false in Hfr.
    destruct d; intros [= <- <-]. split; [done|]. intros q [Hq| ->%list_elem_of_singleton]%elem_of_app Hid; [|done]. specialize (Hfr q Hq). unfold is_signup in Hfr. by rewrite Hid, String.eqb_refl in Hfr.
Qed.
Lemma SetCheckoutSession_guar d id session s w : (forall q, q ∈ signups s -> ID q = id -> StripeCheckoutSessionID q = ""%string /\ Status q = "pending"%string) ->
  guar (s, w) ((SetCheckoutSession d id session s).2, w).
Proof.
  intros Hnew. unfold SetCheckoutSession.
  assert (guar (s, w) ((BeginFunc ErrOther d (fun s =>
    if negb (existsb (is_signup id) (signups s)) then Ok (false, s)
    else if session_free id session s then Ok (true, on_signups (update (is_signup id) (set_session session)) s) else Err ErrOther) s).2, w)) as HG; [|by destruct (BeginFunc _ _ _ _)].
  apply guar_begin. intros a s'. destruct (negb _); [intros [= _ <-]; reflexivity|]. destruct (session_free id session s) eqn:Efree; [|done]. intros [= _ <-].
  set (f := fun r => if is_signup id r then set_session session r else r).
  assert (forall r, ID (f r) = ID r /\ sEmail (f r) = sEmail r /\ sPlan (f r) = sPlan r /\ Status (f r) = Status r /\ OrgName (f r) = OrgName r) as Hf by (intros r; unfold f; by destruct (is_signup id r)).
  split; cbn [fst snd base on_signups signups]; [|done|by apply kept_protects; apply all_kept_same|].
  2:{ intros r Hr. exists (f r). split; [apply elem_of_update; by exists r|]. destruct (Hf r) as (? & ? & ? & ? & ?). split; try congruence. intros Hs. unfold f.
      destruct (is_signup id r) eqn:Eid; [|done]. apply String.eqb_eq in Eid. by destruct (Hnew r Hr Eid). }
  intros [I1 I0 I2 I3]. split; cbn [fst snd signups on_signups].
  - rewrite update_proj; done.
  - intros r (q & Hq & ->)%elem_of_update. fold (f q). destruct (Hf q) as (_ & -> & -> & _). by apply I0.
  - intros r r' (q & Hq & ->)%elem_of_update (q' & Hq' & ->)%elem_of_update. fold (f q) (f q'). intros Hs Hn. unfold session_free in Efree.
    assert (forall q0 q1, q0 ∈ signups s -> q1 ∈ signups s -> is_signup id q0 = true -> is_signup id q1 = false -> StripeCheckoutSessionID (f q0) = StripeCheckoutSessionID (f q1) ->
      StripeCheckoutSessionID (f q0) <> ""%string -> False) as Hno.
    { intros q0 q1 H0 H1 E0 E1. unfold f. rewrite E0, E1. cbn. intros Hs' Hn'. apply orb_prop in Efree as [E|E]; [apply String.eqb_eq in E; congruence|].
      rewrite negb_true_iff, existsb_false in E. specialize (E q1 H1). rewrite E1 in E. cbn in E. apply String.eqb_neq in E. congruence. }
    destruct (is_signup id q) eqn:E0, (is_signup id q') eqn:E1.
    + assert (q = q') as -> by (apply String.eqb_eq in E0, E1; eapply (NoDup_proj_eq ID); [done..|congruence]). done.
    + by destruct (Hno q q').
    + destruct (Hno q' q); congruence.
    + unfold f in *. rewrite E0, E1 in *. by apply I2.
  - intros r (q & Hq & ->)%elem_of_update. fold (f q). destruct (Hf q) as (Hi & He & Hp & Hst & Ho). rewrite Hst. intros Ha.
    eapply settled_kept; [..|apply (I3 q Hq Ha)]; [done|by apply all_kept_same..|]. split; try congruence. unfold f. destruct (is_signup id q) eqn:E0; [|done].
    apply String.eqb_eq in E0. by destruct (Hnew q Hq E0) as [-> _].
Qed.

Lemma initiate_step E email org plan s w res s' w' : InitiateSignup svc E email org plan s w = (res, s', w') -> guar (s, w) (s', w').
Proof.
  unfold InitiateSignup. destruct (validateSignupInput _ _ _ _) eqn:Ev; [intros [= _ <- <-]; reflexivity|].
  assert (TrimSpace email <> ""%string) as Hem by (intros E0; unfold validateSignupInput in Ev; by rewrite E0 in Ev).
  destruct (stripe svc) as [checkout|] eqn:Est; [|intros [= _ <- <-]; reflexivity]. destruct (String.eqb (baseURL svc) ""); [intros [= _ <- <-]; reflexivity|].
  destruct (String.eqb _ ""); [intros [= _ <- <-]; reflexivity|].
  destruct (Create_guar (i_create E) (i_now E) (i_id E) (TrimSpace email) (TrimSpace org) (TrimSpace plan) s w Hem) as [G1 Hfresh].
  destruct (Create _ _ _ _ _ _ s) as [[req|e] s1]; cbn [snd] in G1; [|intros [= _ <- <-]; done]. destruct (Hfresh req s1 eq_refl) as [Hid Hnew]. clear Hfresh.
  pose proof (stripe_moves laws checkout (mkParams (TrimSpace plan) (default "" (planPrices svc !! TrimSpace plan))%string (TrimSpace email) (successURL svc (ID req)) (cancelURL svc (ID req)) (ID req)) w Est) as Hm.
  destruct (checkout _ w) as [[session|e] w1]; cbn [snd] in Hm; assert (guar (s, w) (s1, w1)) as G2 by (trans (s1, w); [done|by apply guar_moves]).
  - pose proof (SetCheckoutSession_guar (i_session E) (ID req) (cs_ID session) s1 w1 ltac:(by rewrite Hid)) as G3.
    destruct (SetCheckoutSession _ _ _ s1) as [[|] s2]; intros [= _ <- <-]; by trans (s1, w1).
  - intros [= _ <- <-]. trans (s1, w1); [done|]. apply (MarkFailed_guar _ _ (s1, w1)).
Qed.

(** ** Runs *)
(** Pods that take requests and complete them, others between their steps and
    between the steps of a completion. *)
Inductive sstep : sdb * W -> sdb * W -> Prop :=
| S_initiate E email org plan s w res s' w' : InitiateSignup svc E email org plan s w = (res, s', w') -> sstep (s, w) (s', w')
| S_complete E session x res y : (forall n z, guar z (between E n z)) -> CompleteSignup seats svc E session x = (res, y) -> sstep x y
| S_other x y : guar x y -> sstep x y.

Lemma runs_keep x y : signup_inv x -> rtc sstep x y -> signup_inv y.
Proof.
  intros Hx. induction 1 as [|x y z Hs _ IH]; [done|]. apply IH. destruct Hs as [E email org plan s w res s' w' Hi|E session x res y Hr Hc|x y G].
  - by apply initiate_step in Hi as [Hi _ _ _]; apply Hi.
  - destruct (complete_step E session x res y Hx Hr Hc) as [G _]. by apply G.
  - by apply G.
Qed.
(** ** A delivery that goes through *)
Definition smooth (E : complete_env (W := W)) : Prop :=
  c_read E = Delivered /\ c_insert E = Delivered /\ c_slug E = Delivered /\ c_user E = Delivered /\ c_active E = Delivered /\ forall n z, between E n z = z.
(** Storage and billing are up in [w], and there is a seat: the hooks go
    through, once and again, and the seat is there after each of them. *)
Definition services_up (w : W) : Prop := exists up : W -> Prop, up w /\
  (forall id plan w, up w -> let '(r, w') := runProvisioningHooks (provision svc) (created_hook svc) id plan w in r = Ok tt /\ up w') /\
  (seats = true -> forall id w, up w -> CheckSeat id w = None).
Lemma services_up_hooks id plan w : services_up w -> let '(r, w') := runProvisioningHooks (provision svc) (created_hook svc) id plan w in r = Ok tt /\ services_up w'.
Proof.
  intros (up & Hw & Hh & Hc). specialize (Hh id plan w Hw) as H1. destruct (runProvisioningHooks _ _ id plan w) as [r w'].
  destruct H1 as [H1 H2]. split; [done|]. by exists up.
Qed.
Lemma services_up_seat id w : services_up w -> seats = true -> CheckSeat id w = None.
Proof. intros (up & Hw & _ & Hc) Hs. by apply Hc. Qed.

Lemma displayName_nonempty email : email <> ""%string -> displayNameFromEmail email <> ""%string.
Proof. unfold displayNameFromEmail. intros He. destruct (String.eqb (join_space _) "") eqn:E; [done|]. by apply String.eqb_neq in E. Qed.
Lemma slug_nonempty org id : deterministicSlug svc org id <> ""%string.
Proof. unfold deterministicSlug. destruct (String.eqb_spec (slugify org) "") as [|Hs]; [done|]. by destruct (slugify org). Qed.

Lemma smooth_user E id email x : smooth E -> services_up x.2 -> email <> ""%string -> has_tenant id (base x.1) = true ->
  let e := (CreateAdminUser seats E id email (displayNameFromEmail email) x).1 in e = None \/ e = Some ErrUserExists.
Proof.
  intros (_ & _ & _ & Hu & _) Hup Hem Ht. pose proof (fun Hs => services_up_seat id x.2 Hup Hs) as Hseat. pose proof (displayName_nonempty email Hem) as Hname. unfold CreateAdminUser, CreateUser.
  cbn [cu_KChatUserID cu_StalwartAccountID cu_Email cu_DisplayName cu_AccountType cu_Role cu_QuotaBytes]. apply String.eqb_neq in Hem as ->. apply String.eqb_neq in Hname as ->.
  cbn -[run CheckSeat IncrementSeats user_ok user_error int64_max].
  assert ((if seats then CheckSeat id x.2 else None) = None) as -> by (destruct seats; [by apply Hseat|done]). rewrite Hu. set (u := mkUser _ _ _ _ _ _ _ _ _ _ _ _).
  unfold run, BeginFunc. destruct (user_ok u (base x.1)) eqn:Eo; [by left|]. right. unfold user_ok in Eo. change (uTenantID u) with id in Eo. rewrite Ht in Eo.
  assert (user_checks u = true) as Hc by done. unfold user_error. rewrite Hc in *. cbn in Eo. destruct (user_taken u (base x.1)); done.
Qed.

Lemma smooth_finish E req t replay heal x : smooth E -> services_up x.2 -> sEmail req <> ""%string -> t ∈ tenants_ (base x.1) ->
  exists y, finish seats svc E req t replay heal x = (Ok t, y).
Proof.
  intros Hsm Hup Hem Ht. pose proof Hsm as (_ & _ & _ & _ & Hact & Hid). unfold finish. rewrite Hid.
  destruct (if heal then prov_EnsureProvisioned svc (tID t) (Plan t) x else (true, x)) as [ok x2] eqn:E2.
  assert (ok = true /\ x2.1 = x.1 /\ services_up x2.2) as (-> & Hx2 & Hup2).
  { destruct heal; [|by injection E2 as <- <-]. pose proof (services_up_hooks (tID t) (Plan t) x.2 Hup) as Hh. unfold prov_EnsureProvisioned in E2. unfold runProvisioningHooks in Hh.
    destruct (call_hook (provision svc) _ _ _) as [[] w1]; [|by destruct Hh]. cbn in *. destruct (call_hook (created_hook svc) _ _ _) as [[] w2]; [|by destruct Hh].
    injection E2 as <- <-. split_and!; [done|done|apply Hh]. }
  cbn [negb]. rewrite on_signup_eq, Hid. set (x3 := (_, x2.2)).
  assert (has_tenant (tID t) (base x3.1) = true) as Hhas.
  { assert (base x3.1 = base x.1) as -> by (cbn; rewrite Hx2; by destruct (c_self E)). unfold has_tenant. apply existsb_elem. exists t. split; [done|]. apply String.eqb_refl. }
  pose proof (smooth_user E (tID t) (sEmail req) x3 Hsm Hup2 Hem Hhas) as Hu. destruct (CreateAdminUser _ _ _ _ _ x3) as [e x5]. cbn [fst] in Hu.
  assert (match e with None | Some ErrUserExists => false | Some _ => true end = false) as -> by (by destruct Hu as [-> | ->]). rewrite Hid, Hact.
  cbn. by eexists.
Qed.

Lemma smooth_complete E session x r : smooth E -> services_up x.2 -> signup_inv x -> session <> ""%string -> TrimSpace session = session ->
  r ∈ signups x.1 -> StripeCheckoutSessionID r = session -> exists t y, CompleteSignup seats svc E session x = (Ok t, y).
Proof.
  intros Hsm Hup Hinv Hne Htrim Hr Hs. pose proof Hsm as (Hread & Hins & Hslug & _ & _ & Hid). unfold CompleteSignup. rewrite Htrim. apply String.eqb_neq in Hne as Hne'. rewrite Hne'.
  assert (GetByCheckoutSession (c_read E) session x.1 = Ok r) as ->.
  { unfold GetByCheckoutSession, query_row. rewrite Hread. destruct (List.find _ _) as [q|] eqn:Ef.
    - apply find_elem in Ef as [Hq Hsq]. apply String.eqb_eq in Hsq. f_equal. apply (inv_sessions _ Hinv); [done|done|congruence|congruence].
    - apply find_none_elem with (x := r) in Ef; [|done]. by rewrite Hs, String.eqb_refl in Ef. }
  rewrite Hid. assert (forall o, o ∈ tenants_ (base x.1) -> Slug o = slug_of r -> exists t, GetTenantBySlug (c_slug E) (slug_of r) x.1 = Ok t) as Hget.
  { intros o Ho Hos. unfold GetTenantBySlug. rewrite Hslug. destruct (List.find _ _) as [t|] eqn:Ef; [by exists t|]. apply find_none_elem with (x := o) in Ef; [|done].
    by rewrite Hos, String.eqb_refl in Ef. }
  destruct (String.eqb_spec (Status r) "active") as [Ha|_].
  { destruct (inv_active _ Hinv r Hr Ha) as (o & Ho & Hos & _). destruct (Hget o Ho Hos) as [t Ht]. exists t, x. by rewrite Ht. }
  destruct (inv_rows _ Hinv r Hr) as [Hplan Hem]. unfold prov_CreateTenant, CreateTenant. cbn [ct_Name ct_Slug ct_Plan].
  set (name := if String.eqb (OrgName r) "" then _ else _).
  assert (String.eqb name "" || String.eqb (slug_of r) "" || String.eqb (sPlan r) "" = false) as ->.
  { apply orb_false_intro; [apply orb_false_intro|]; apply String.eqb_neq; [|apply slug_nonempty|by intros E0; rewrite E0 in Hplan]. unfold name.
    destruct (String.eqb_spec (OrgName r) ""); [by apply displayName_nonempty|done]. }
  set (new := mkTenant _ _ _ _ _ _ _). rewrite Hins. unfold run, BeginFunc. destruct (tenant_ok new (base x.1)) eqn:Eo.
  - pose proof (services_up_hooks (tID new) (Plan new) x.2 Hup) as Hh. destruct (runProvisioningHooks _ _ _ _ x.2) as [[[]|] w1]; [destruct Hh as [_ Hup1]|by destruct Hh]. cbn [classifyCreateTenantResult].
    destruct (smooth_finish E r new false false (mkSDB (signups x.1) (with_tenants_ (tenants_ (base x.1) ++ [new]) (base x.1)) (self_service x.1), w1)) as [y Hy];
      [done|done|done|cbn; apply elem_of_app; right; by left|]. exists new, y. exact Hy.
  - unfold tenant_ok in Eo. unfold tenant_error. change (Plan new) with (sPlan r) in *. rewrite Hplan in *. cbn in Eo. apply negb_false_iff, existsb_elem in Eo as (o & Ho & Hos).
    apply andb_prop in Hos as [_ Hos]. apply String.eqb_eq in Hos. cbn. rewrite Hid. destruct (Hget o Ho Hos) as [t Ht].
    replace (mkSDB (signups x.1) (base x.1) (self_service x.1), x.2) with x by (by destruct x as [[] ?]). rewrite Ht. apply GetTenantBySlug_ok in Ht as [Ht _].
    destruct (smooth_finish E r t true true x) as [y Hy]; [done..|]. by exists t, y.
Qed.

End completion.

(** ** Slugs *)
Definition slug_text (l : list Ascii.ascii) : Prop := Forall (fun c => slug_char c = true \/ c = hyphen) l.

Lemma nonSlugChars_text b l : slug_text (nonSlugChars b l).
Proof. revert b. induction l as [|c l IH]; intros b; cbn; [constructor|]. destruct (slug_char c) eqn:E; [constructor; [by left|apply IH]|]. destruct b; [apply IH|]. constructor; [by right|apply IH]. Qed.
Lemma trim_hyphens_sub l x : x ∈ trim_hyphens l -> x ∈ l.
Proof. unfold trim_hyphens. rewrite elem_of_reverse. intros H%elem_of_drop_while. rewrite elem_of_reverse in H. by apply elem_of_drop_while in H. Qed.

Lemma drop_while_last p (l : list Ascii.ascii) a k : drop_while p l = k ++ [a] -> exists k', l = k' ++ [a].
Proof. intros E. destruct (drop_while_suffix p l) as [k0 [El _]]. exists (k0 ++ k). rewrite El, E. by rewrite <- app_assoc. Qed.

(** Neither end is a hyphen. *)
Lemma trim_hyphens_ends l : (forall a k, trim_hyphens l = a :: k -> a <> hyphen) /\ (forall a k, trim_hyphens l = k ++ [a] -> a <> hyphen).
Proof.
  unfold trim_hyphens. set (m := drop_while (Ascii.eqb hyphen) l). split.
  - intros a k E. assert (drop_while (Ascii.eqb hyphen) (reverse m) = reverse k ++ [a]) as E' by (rewrite <- (reverse_involutive (drop_while _ _)), E; apply reverse_cons).
    apply drop_while_last in E' as [k' E']. assert (m = a :: reverse k') as Em by (rewrite <- (reverse_involutive m), E'; by rewrite reverse_snoc).
    unfold m in Em. apply drop_while_head in Em. intros ->. by rewrite Ascii.eqb_refl in Em.
  - intros a k E. assert (drop_while (Ascii.eqb hyphen) (reverse m) = a :: reverse k) as E' by (rewrite <- (reverse_involutive (drop_while _ _)), E; by rewrite reverse_snoc).
    apply drop_while_head in E'. intros ->. by rewrite Ascii.eqb_refl in E'.
Qed.

(** A slug has lower-case letters, digits and hyphens, none of them at an end. *)
Theorem slugify_shape s : let l := String.list_ascii_of_string (slugify s) in
  slug_text l /\ (forall a k, l = a :: k -> a <> hyphen) /\ (forall a k, l = k ++ [a] -> a <> hyphen).
Proof.
  unfold slugify, on_ascii. rewrite String.list_ascii_of_string_of_list_ascii. cbn zeta. split; [|apply trim_hyphens_ends].
  apply Forall_forall. intros c Hc%trim_hyphens_sub. pose proof (nonSlugChars_text false (String.list_ascii_of_string (ToLower (TrimSpace s)))) as H.
  unfold slug_text in H. rewrite Forall_forall in H. by apply H.
Qed.

Section slugs.
Context {W R : Type} (svc : SignupService W R).
Hypothesis digest : forall s, length (sha256 svc s) = 32%nat.

Lemma substring_length n s : (n <= String.length s)%nat -> String.length (String.substring 0 n s) = n.
Proof. revert s. induction n as [|n IH]; intros [|c s] H; cbn in *; [done|done|lia|]. rewrite IH; [done|lia]. Qed.
Lemma string_of_list_length l : String.length (String.string_of_list_ascii l) = length l.
Proof. induction l as [|c l IH]; [done|]. cbn. by rewrite IH. Qed.
Lemma bind_length {A B} (f : A -> list B) n l : (forall a, length (f a) = n) -> length (l ≫= f) = (length l * n)%nat.
Proof. intros Hf. induction l as [|a l IH]; [done|]. cbn. by rewrite length_app, Hf, IH. Qed.
Lemma suffix_length id : String.length (suffix svc id) = 8%nat.
Proof. apply substring_length. unfold hex_encode. rewrite string_of_list_length, (bind_length _ 2), digest; [lia|done]. Qed.

(** Requests whose suffixes differ have different slugs, whatever the names. *)
Theorem slugs_apart org org' id id' : suffix svc id <> suffix svc id' -> deterministicSlug svc org id <> deterministicSlug svc org' id'.
Proof.
  intros Hne E. apply Hne. unfold deterministicSlug in E.
  set (a := if String.eqb (slugify org) "" then _ else _) in E. set (b := if String.eqb (slugify org') "" then _ else _) in E.
  apply string_suffix_inj in E as [_ E]; [by injection E|]. change (S (String.length (suffix svc id)) = S (String.length (suffix svc id'))). by rewrite !suffix_length.
Qed.
End slugs.

(** ** Who is limited *)
(** The test for a blank header changes nothing. *)
Lemma splitForwardedFor_eq xff : splitForwardedFor xff = List.filter (fun v => negb (String.eqb v "")) (TrimSpace <$> Split comma xff).
Proof.
  unfold splitForwardedFor. destruct (String.eqb_spec (TrimSpace xff) "") as [E|]; [|done]. rewrite Split_free; [cbn; by rewrite E|].
  apply TrimSpace_empty in E. unfold free_of. eapply Forall_impl; [exact E|]. intros c Hc. apply negb_true_iff, Ascii.eqb_neq. by intros ->.
Qed.

Definition hop (v : string) : Prop := TrimSpace v = v /\ v <> ""%string /\ free_of comma v.
Lemma hops_split l : l <> [] -> Forall hop l -> splitForwardedFor (Join comma l) = l.
Proof.
  intros Hne Hl. rewrite splitForwardedFor_eq, Split_Join; [|done|]; [|eapply Forall_impl; [exact Hl|]; by intros v (_ & _ & ?)]. clear Hne.
  induction Hl as [|v l (Ht & Hn & _) _ IH]; [done|]. cbn. rewrite Ht. apply String.eqb_neq in Hn as ->. cbn. by rewrite IH.
Qed.

(** The key of the limiter is what the outermost of the trusted proxies saw:
    where [n] of them each appended the peer it saw to the header, the address
    the limit counts is the first they appended, whatever the client put into
    the header and whatever address the last proxy has. *)
Theorem client_ip_unforgeable SplitHostPort remote client first hops rest :
  Forall hop (first :: hops) ->
  clientIP SplitHostPort remote ((client +:+ String.String comma (Join comma (first :: hops))) :: rest) (Z.of_nat (length (first :: hops))) = first.
Proof.
  intros Hh. unfold clientIP. destruct (Z.leb_spec (Z.of_nat (length (first :: hops))) 0); [cbn in *; lia|]. cbn [default head from_option id].
  assert (splitForwardedFor (client +:+ String.String comma (Join comma (first :: hops))) = splitForwardedFor client ++ first :: hops) as ->.
  { rewrite !splitForwardedFor_eq, Split_concat, fmap_app, List.filter_app, <- !splitForwardedFor_eq. by rewrite hops_split. }
  set (p := splitForwardedFor client). generalize (default remote (SplitHostPort remote)). intros r. rewrite !length_app. cbn [length].
  destruct (Z.ltb_spec (Z.of_nat (length p + S (length hops) + 1) - 1 - Z.of_nat (S (length hops))) 0); [lia|].
  replace (Z.to_nat _) with (length p + 0)%nat by lia. rewrite <- app_assoc, lookup_app_r, Nat.add_0_r, Nat.sub_diag by lia. done.
Qed.

Section limiter.
Context {V : Type} `{VL : ValkeyLaws Z V} `{VC : !ValkeyCounter V} `{CL : !ValkeyCounterLaws V} (h : SignupHandlers) (SplitHostPort : string -> option string).

Record post := mkPost { p_client : client; p_now : Z; p_sv : Z; p_d : delivery }.
Definition post_key (p : post) : string := signup_key h (clientIP SplitHostPort (RemoteAddr (p_client p)) (forwarded (p_client p)) (depth h)) (p_now p).
(** Requests counted under [k] that the counter let pass. *)
Fixpoint admitted (k : string) (l : list post) (v : V) : Z :=
  match l with
  | [] => 0
  | p :: l =>
      let '(ok, v) := allow h SplitHostPort (p_d p) (p_now p) (p_sv p) (p_client p) v in
      (if String.eqb (post_key p) k && match p_d p with Delivered => ok | _ => false end then 1 else 0) + admitted k l v
  end.

Lemma admitted_granted k l v : limiter h = true -> 0 < Milliseconds (window h) ->
  admitted k l v = granted (window h) (limit h) k ((fun p => mkIncr (p_d p) (p_sv p) (post_key p)) <$> l) v.
Proof.
  intros Hl Hw. revert v. induction l as [|p l IH]; intros v; [done|]. cbn [admitted fmap list_fmap granted ic_d ic_sv ic_key]. unfold allow. rewrite Hl. cbn [negb].
  fold (post_key p). unfold IncrWithTTL. destruct (Z.leb_spec (Milliseconds (window h)) 0); [lia|]. unfold remote.
  destruct (incrWithTTLScript (p_sv p) (post_key p) (Milliseconds (window h)) v) as [m v']. destruct (p_d p); by rewrite IH.
Qed.

(** Of the requests of one address in one window the counter lets at most the
    limit pass, over all sequences of requests by all clients and pods with a
    monotone server clock, when the window's requests reach the server within
    a window's length of [B]. *)
Theorem signup_posts_bounded ip bucket B l v :
  limiter h = true -> 0 < Milliseconds (window h) -> 0 <= limit h -> all_ints B v -> vk_view v B (signup_key h ip bucket) = None ->
  clock_order B ((fun p => mkIncr (p_d p) (p_sv p) (post_key p)) <$> l) ->
  Forall (fun p => post_key p = signup_key h ip bucket -> p_sv p < B + Milliseconds (window h)) l ->
  admitted (signup_key h ip bucket) l v <= limit h.
Proof. intros Hl Hw HL Hi Hv Ho Hf. rewrite admitted_granted by done. apply (granted_bound _ _ _ B); [done..|]. apply Forall_fmap. exact Hf. Qed.
End limiter.

(** ** Examples *)
Module SignupExamples.
(** The services of the examples note the tenants they provisioned and the
    addresses they welcomed; the storage may be down. *)
Record wstate := mkW { down : bool; done_ : list string; welcomed : list string }.
#[global] Instance seats_w : SeatAccounter wstate := {| CheckSeat _ _ := None; IncrementSeats _ _ w := (true, w) |}.
Definition storage (id _ : string) (w : wstate) : bool * wstate := if down w then (false, w) else (true, mkW false (id :: done_ w) (welcomed w)).
Definition checkout (p : CheckoutSessionParams) (w : wstate) : result serror CheckoutSession * wstate := (Ok (mkSession ("cs_" +:+ cp_SignupRequestID p) "https://pay"), w).
Definition welcome (m : WelcomeMessage unit) (w : wstate) : wstate := mkW (down w) (done_ w) (wm_To _ m :: welcomed w).
(** A digest of four bytes repeated: the last character of the id, or one for
    all. *)
Definition digest_of (s : string) : list Z := repeat (Z.of_nat (Ascii.nat_of_ascii (List.last (String.list_ascii_of_string s) Ascii.zero)) mod 256) 32.
Definition svc_with (digest : string -> list Z) : SignupService wstate unit :=
  mkService (Some storage) None (Some checkout) None None (Some welcome) None {["core"%string := "price_1"%string]} "https://app" (fun _ => true) digest.
Definition svc : SignupService wstate unit := svc_with digest_of.
Definition clashing : SignupService wstate unit := svc_with (fun _ => repeat 7 32).

Definition env_with (user active : delivery) (t u : string) : complete_env (W := wstate) :=
  mkCompleteEnv Delivered Delivered Delivered Delivered user active Delivered Minute t u (fun _ z => z).
Definition env : string -> string -> complete_env (W := wstate) := env_with Delivered Delivered.
Definition init (id : string) : initiate_env := mkInitEnv Delivered Delivered Delivered 0 id.
Definition empty : sdb * wstate := (mkSDB [] (mkTDB [] [] [] [] []) ∅, mkW false [] []).
Definition outage (b : bool) (x : sdb * wstate) : sdb * wstate := (x.1, mkW b (done_ x.2) (welcomed x.2)).
Definition asked (v : SignupService wstate unit) (id email : string) (x : sdb * wstate) : sdb * wstate :=
  let '(_, s, w) := InitiateSignup v (init id) email "Acme, Inc." "core" x.1 x.2 in (s, w).
Definition start : sdb * wstate := asked svc "r1" "jane.doe@acme.com" empty.
(** The tables: status of the requests, slugs and owners. *)
Definition shown (x : sdb * wstate) : list (string * string) * list (string * string) * list (string * string * string) :=
  ((fun r => (ID r, Status r)) <$> signups x.1, (fun t => (tID t, Slug t)) <$> tenants_ (base x.1), (fun u => (Email u, uTenantID u, Role u)) <$> users_ (base x.1)).
End SignupExamples.

Import SignupExamples.
Local Open Scope string_scope.

Definition goes_on (w w' : wstate) : Prop := forall id, id ∈ done_ w -> id ∈ done_ w'.
Definition has_storage (id : string) (w : wstate) : Prop := id ∈ done_ w.
#[global] Instance goes_on_preorder : PreOrder goes_on.
Proof. split; [by intros w id|]. intros a b c H1 H2 id Hid. by apply H2, H1. Qed.

Lemma svc_laws digest : world_laws (svc_with digest) goes_on has_storage.
Proof.
  split.
  - intros id w w' H. apply H.
  - intros id plan w i Hi. unfold runProvisioningHooks, call_hook. cbn. unfold storage. destruct (down w); [exact Hi|]. by right.
  - intros id plan w w'. unfold runProvisioningHooks, call_hook. cbn. unfold storage. destruct (down w); [done|]. intros [= <-]. by left.
  - done.
  - intros id n w i. done.
  - done.
  - done.
  - intros f m w [= <-] i Hi. done.
  - intros f q w [= <-] i Hi. done.
Qed.

Lemma empty_inv (v : SignupService wstate unit) : signup_inv v has_storage empty.
Proof. split; cbn; [constructor|intros r Hr; by apply not_elem_of_nil in Hr|intros r r' Hr; by apply not_elem_of_nil in Hr|intros r Hr; by apply not_elem_of_nil in Hr]. Qed.

(** A first delivery creates the tenant and loses the owner. *)
Definition halfway : sdb * wstate := (CompleteSignup true svc (env_with RequestLost Delivered "t1" "u1") "cs_r1" start).2.
Definition finished : sdb * wstate := (CompleteSignup true svc (env "t2" "u2") "cs_r1" halfway).2.
Definition row1 (status : string) : SignupRequest := mkSignup "r1" "jane.doe@acme.com" "Acme, Inc." "core" "cs_r1" status 0 None.

Example halfway_shown : shown halfway = ([("r1", "failed")], [("t1", "acme-inc-31313131")], []).
Proof. vm_compute. reflexivity. Qed.
Example finished_shown : shown finished = ([("r1", "active")], [("t1", "acme-inc-31313131")], [("jane.doe@acme.com", "t1", "owner")]).
Proof. vm_compute. reflexivity. Qed.

(** The storage goes down, the first delivery leaves a tenant that is not
    provisioned, the second one finds it and fails as well; then the storage
    is back. *)
Definition in_outage : sdb * wstate := (CompleteSignup true svc (env "t1" "u1") "cs_r1" (outage true start)).2.
Definition recovered : sdb * wstate := outage false (CompleteSignup true svc (env "t2" "u2") "cs_r1" in_outage).2.
Example recovered_shown : shown recovered = ([("r1", "failed")], [("t1", "acme-inc-31313131")], []) /\ done_ recovered.2 = [].
Proof. vm_compute. done. Qed.

Lemma outage_step b x : sstep true svc goes_on has_storage x (outage b x).
Proof. apply S_other. destruct x as [s w]. apply (guar_moves _ _ _ (svc_laws digest_of)). by intros id. Qed.

Lemma recovered_run : rtc (sstep true svc goes_on has_storage) empty recovered.
Proof.
  eapply rtc_l; [|eapply rtc_l; [apply (outage_step true start)|eapply rtc_l; [|eapply rtc_l; [|eapply rtc_l; [apply outage_step|apply rtc_refl]]]]].
  - eapply (S_initiate _ _ _ _ (init "r1") "jane.doe@acme.com" "Acme, Inc." "core"). reflexivity.
  - eapply (S_complete _ _ _ _ (env "t1" "u1") "cs_r1"); [intros n z; reflexivity|]. unfold in_outage. apply surjective_pairing.
  - eapply (S_complete _ _ _ _ (env "t2" "u2") "cs_r1"); [intros n z; reflexivity|]. apply surjective_pairing.
Qed.

Definition paid : stripeEvent := mkStripeEvent "checkout.session.completed" None (Some "cs_r1") None.

(** The same address a second time: the tenant that was paid for is active and
    has nobody in it. *)
Lemma second_tenant_without_owner :
  shown (CompleteSignup true svc (env "t2" "u2") "cs_r2" (asked svc "r2" "jane.doe@acme.com" finished)).2 =
  ([("r1", "active"); ("r2", "active")], [("t1", "acme-inc-31313131"); ("t2", "acme-inc-32323232")], [("jane.doe@acme.com", "t1", "owner")]).
Proof. vm_compute. reflexivity. Qed.

(** Two requests whose 32-bit suffixes agree: the second payer becomes owner of
    the first one's tenant. *)
Lemma clash_gives_away_tenant :
  shown (CompleteSignup true clashing (env "t2" "u2") "cs_r2" (CompleteSignup true clashing (env "t1" "u1") "cs_r1"
           (asked clashing "r2" "mallory@evil.com" (asked clashing "r1" "jane.doe@acme.com" empty))).2).2 =
  ([("r1", "active"); ("r2", "active")], [("t1", "acme-inc-07070707")], [("jane.doe@acme.com", "t1", "owner"); ("mallory@evil.com", "t1", "owner")]).
Proof. vm_compute. reflexivity. Qed.

(** The answer to the status flip is lost: the next delivery sees an active
    request, and nobody is welcomed. *)
Definition flipped : sdb * wstate := (CompleteSignup true svc (env_with Delivered ReplyLost "t1" "u1") "cs_r1" start).2.
Lemma welcome_is_lost : is_ok (CompleteSignup true svc (env_with Delivered ReplyLost "t1" "u1") "cs_r1" start).1 = false /\
  is_ok (CompleteSignup true svc (env "t2" "u2") "cs_r1" flipped).1 = true /\ welcomed (CompleteSignup true svc (env "t2" "u2") "cs_r1" flipped).2.2 = [] /\
  welcomed finished.2 = ["jane.doe@acme.com"].
Proof. vm_compute. done. Qed.

(** A tenant whose slug was changed: each replay is refused. *)
Definition renamed : sdb * wstate :=
  (mkSDB (signups finished.1) (with_tenants_ (update (is_tenant "t1") (fun t => mkTenant (tID t) (tName t) "acme" (Plan t) (tStatus t) (tCreatedAt t) (tUpdatedAt t)) (tenants_ (base finished.1)))
    (base finished.1)) (self_service finished.1), finished.2).
Lemma renamed_replay_refused : (CompleteCheckoutSignup true svc (env "t2" "u2") "cs_r1" renamed).1 = false.
Proof. vm_compute. reflexivity. Qed.

(** A proxy that adds its own header line: the client's line is read. *)
Lemma second_line_is_ignored : clientIP (fun _ => None) "10.0.0.1" ["1.2.3.4"; "203.0.113.9"] 1 = "1.2.3.4" /\ clientIP (fun _ => None) "10.0.0.1" ["1.2.3.4,203.0.113.9"] 1 = "203.0.113.9".
Proof. by vm_compute. Qed.
