(* ===== verification/Dns.v ===== *)
(** * Domains and their DNS records ([internal/dns]: [dns.go],
      [dkim_rotation.go], [handlers.go], [dkim_handlers.go])

    The records a tenant has to publish, the checks of what it published, and
    the DKIM keys of a domain.  The rows of [domains] are those of [Tenants];
    private keys are sealed by the envelope of [Envelope].  The resolver, RSA
    and the push of a key into the mail server are parameters.  Hosts, domains
    and records are ASCII, ids canonical texts of UUIDs. *)

From S2P Require Import Prelude Text Table Calendar Envelope Tenants.

Local Open Scope Z_scope.
Local Open Scope go_scope.

(** ** Records *)
Record DomainRecord := mkRecord { dr_Type : string; dr_Name : string; dr_Value : string; dr_TTL : Z; dr_Priority : Z; dr_Notes : string }.
Record DomainRecords := mkRecords { dr_Domain : string; dr_Records : list DomainRecord }.

Record DnsService := mkDns {
  MailHost : string; SPFInclude : string; DefaultDKIMSelector : string; DKIMPublicKey : string; DMARCPolicy : string; ReportingMailbox : string;
  BIMILogoURL : string; BIMIVMCURL : string;
}.
Definition NewService (c : DnsService) : DnsService :=
  mkDns (MailHost c) (SPFInclude c) (if String.eqb (DefaultDKIMSelector c) "" then "kmail" else DefaultDKIMSelector c) (DKIMPublicKey c)
    (if String.eqb (DMARCPolicy c) "" then "none" else DMARCPolicy c) (ReportingMailbox c) (BIMILogoURL c) (BIMIVMCURL c).

Definition dot : Ascii.ascii := Ascii.ascii_of_nat 46.
Definition semicolon : Ascii.ascii := Ascii.ascii_of_nat 59.
Definition equals : Ascii.ascii := Ascii.ascii_of_nat 61.
(** [strings.TrimSuffix(s, ".")]. *)
Definition trim_dot (s : string) : string := on_ascii (fun l => match reverse l with c :: k => if Ascii.eqb c dot then reverse k else l | [] => [] end) s.
Definition normalizeHost (h : string) : string := trim_dot (ToLower (TrimSpace h)).
Definition ensureTrailingDot (h : string) : string := if HasSuffix h "." then h else h +:+ ".".

Definition txt (name value notes : string) : DomainRecord := mkRecord "TXT" name value 3600 0 notes.
Definition cname (name value notes : string) : DomainRecord := mkRecord "CNAME" name value 3600 0 notes.
Definition when_set (b : string) (l : list DomainRecord) : list DomainRecord := if String.eqb b "" then [] else l.

Section generate.
Context (s : DnsService).

Definition GenerateRecords (domain : string) : DomainRecords :=
  mkRecords domain (if String.eqb domain "" then [] else
    when_set (MailHost s) [mkRecord "MX" domain (ensureTrailingDot (MailHost s)) 3600 10 "Route inbound mail to KMail."]
    ++ when_set (SPFInclude s) [txt domain ("v=spf1 include:" +:+ SPFInclude s +:+ " ~all") "Authorize KMail to send on behalf of this domain."]
    ++ [txt (DefaultDKIMSelector s +:+ "._domainkey." +:+ domain)
          ("v=DKIM1; k=rsa; p=" +:+ (if String.eqb (DKIMPublicKey s) "" then "<PUBLIC_KEY>" else DKIMPublicKey s)) "DKIM signing key. KMail rotates this key periodically.";
        txt ("_dmarc." +:+ domain)
          ("v=DMARC1; p=" +:+ DMARCPolicy s
           +:+ (if String.eqb (ReportingMailbox s) "" then "" else "; rua=mailto:" +:+ ReportingMailbox s +:+ "; ruf=mailto:" +:+ ReportingMailbox s)
           +:+ "; adkim=s; aspf=s; fo=1") "DMARC policy. KMail ingests the rua/ruf aggregate and forensic feeds."]
    ++ when_set (MailHost s)
         [txt ("_mta-sts." +:+ domain) ("v=STSv1; id=" +:+ domain)
            ("MTA-STS policy id. Publish the matching policy at https://mta-sts." +:+ domain +:+ "/.well-known/mta-sts.txt.");
          cname ("mta-sts." +:+ domain) (ensureTrailingDot ("mta-sts." +:+ MailHost s)) "Point the MTA-STS policy host at KMail."]
    ++ when_set (ReportingMailbox s) [txt ("_smtp._tls." +:+ domain) ("v=TLSRPTv1; rua=mailto:" +:+ ReportingMailbox s) "TLS-RPT reporting endpoint."]
    ++ when_set (MailHost s)
         [cname ("autoconfig." +:+ domain) (ensureTrailingDot ("autoconfig." +:+ MailHost s)) "Thunderbird autoconfig.";
          cname ("autodiscover." +:+ domain) (ensureTrailingDot ("autodiscover." +:+ MailHost s)) "Apple Mail / Outlook autodiscover."]
    ++ when_set (BIMILogoURL s)
         [txt ("default._bimi." +:+ domain) ("v=BIMI1; l=" +:+ BIMILogoURL s +:+ (if String.eqb (BIMIVMCURL s) "" then "" else "; a=" +:+ BIMIVMCURL s))
            "BIMI brand indicator. Requires DMARC p=quarantine or p=reject."]).
Definition GetExpectedRecords (domain : string) : DomainRecords := GenerateRecords domain.
End generate.

(** ** Checks *)
Inductive derror := DInvalid | DNotFound | DOther.
(** What the resolver answers: the data, no such record, or a failure. *)
Inductive lookup A := Found (l : list A) | NoData | LookupFailed.
Arguments Found {A}. Arguments NoData {A}. Arguments LookupFailed {A}.

Definition checked {A} (r : lookup A) (p : A -> bool) : result derror bool :=
  match r with Found l => Ok (existsb p l) | NoData => Ok false | LookupFailed => Err DOther end.

Definition hasDKIMPublicKey (txt : string) : bool :=
  Contains (ToLower (TrimSpace txt)) "v=dkim1"
  && existsb (fun part => match split_first equals (TrimSpace part) with
                          | Some (k, v) => EqualFold (TrimSpace k) "p" && negb (String.eqb (TrimSpace v) "")
                          | None => false
                          end) (Split semicolon txt).

Section checks.
Context (s : DnsService) (LookupMX LookupTXT : string -> lookup string).

Definition CheckMX (domain : string) : result derror bool :=
  if String.eqb domain "" then Err DInvalid
  else
    let target := normalizeHost (MailHost s) in
    checked (LookupMX domain) (fun mx => negb (String.eqb (MailHost s) "") &&
      let host := normalizeHost mx in String.eqb host target || HasSuffix host ("." +:+ target)).
Definition CheckSPF (domain : string) : result derror bool :=
  if String.eqb domain "" then Err DInvalid
  else if String.eqb (SPFInclude s) "" then Ok false
  else
    let needle := "include:" +:+ ToLower (SPFInclude s) in
    checked (LookupTXT domain) (fun txt => HasPrefix (ToLower txt) "v=spf1" && Contains (ToLower txt) needle).
Definition CheckDKIM (domain selector : string) : result derror bool :=
  if String.eqb domain "" then Err DInvalid
  else
    let selector := if String.eqb selector "" then DefaultDKIMSelector s else selector in
    if String.eqb selector "" then Ok false else checked (LookupTXT (selector +:+ "._domainkey." +:+ domain)) hasDKIMPublicKey.
Definition CheckDMARC (domain : string) : result derror bool :=
  if String.eqb domain "" then Err DInvalid
  else checked (LookupTXT ("_dmarc." +:+ domain)) (fun txt => HasPrefix (ToLower (TrimSpace txt)) "v=dmarc1").

(** ** The service *)
Context (pool : bool).
Definition is_domain (domainID tenantID : string) (x : Domain) : bool := String.eqb (dID x) domainID && String.eqb (dTenantID x) tenantID.
Record VerificationResult := mkVerification { vr_DomainID : string; vr_Domain : string; vr_MX : bool; vr_SPF : bool; vr_DKIM : bool; vr_DMARC : bool; vr_Verified : bool }.

Definition LookupDomainName (d : delivery) (tenantID domainID : string) (b : tdb) : result derror string :=
  if String.eqb tenantID "" || String.eqb domainID "" then Err DInvalid
  else if negb pool then Err DOther
  else (BeginFunc DOther d (fun b => match List.find (is_domain domainID tenantID) (domains_ b) with Some x => Ok (dDomain x, b) | None => Err DNotFound end) b).1.

Definition set_flags (mx spf dkim dmarc verified : bool) (now : Z) (x : Domain) : Domain :=
  mkDomain (dID x) (dTenantID x) (dDomain x) verified mx spf dkim dmarc (dCreatedAt x) now.
(** [between]: what other pods do during the lookups. *)
Definition VerifyDomain (d d' : delivery) (between : tdb -> tdb) (now : Z) (tenantID domainID : string) (b : tdb) : result derror VerificationResult * tdb :=
  match LookupDomainName d tenantID domainID b with
  | Err e => (Err e, b)
  | Ok domain =>
      let b := between b in
      match (let? mx := CheckMX domain in let? spf := CheckSPF domain in let? dkim := CheckDKIM domain "" in let? dmarc := CheckDMARC domain in Ok (mx, spf, dkim, dmarc)) with
      | Err e => (Err e, b)
      | Ok (mx, spf, dkim, dmarc) =>
          let verified := mx && spf && dkim && dmarc in
          let '(r, b) := BeginFunc DOther d' (fun b => Ok (existsb (is_domain domainID tenantID) (domains_ b),
            with_domains_ (update (is_domain domainID tenantID) (set_flags mx spf dkim dmarc verified now) (domains_ b)) b)) b in
          (match r with
           | Err e => Err e
           | Ok false => Err DNotFound
           | Ok true => Ok (mkVerification domainID domain mx spf dkim dmarc verified)
           end, b)
      end
  end.

(** The handlers: the tenant of the context, then the service, if [wired]. *)
Definition checkTenantScope (ctxTenant pathTenant : string) : bool := negb (String.eqb ctxTenant "") && String.eqb ctxTenant pathTenant.
Definition statusForDNSError (e : derror) : Z := match e with DInvalid => 400 | DNotFound => 404 | DOther => 500 end.
Definition verifyDomain (wired : bool) (d d' : delivery) (between : tdb -> tdb) (now : Z) (ctxTenant tenantID domainID : string) (b : tdb) : Z * option VerificationResult * tdb :=
  if negb (checkTenantScope ctxTenant tenantID) then (403, None, b)
  else if negb wired then (501, None, b)
  else let '(r, b) := VerifyDomain d d' between now tenantID domainID b in (match r with Ok v => (200, Some v) | Err e => (statusForDNSError e, None) end, b).
Definition getDomainRecords (wired : bool) (d : delivery) (ctxTenant tenantID domainID : string) (b : tdb) : Z * option DomainRecords :=
  if negb (checkTenantScope ctxTenant tenantID) then (403, None)
  else if negb wired then (501, None)
  else match LookupDomainName d tenantID domainID b with Ok domain => (200, Some (GetExpectedRecords s domain)) | Err e => (statusForDNSError e, None) end.
End checks.

(** ** DKIM keys ([dkim_rotation.go]) *)
Inductive DKIMKeyStatus := DKIMKeyActive | DKIMKeyDeprecated | DKIMKeyRevoked.
#[global] Instance DKIMKeyStatus_eq_dec : EqDecision DKIMKeyStatus.
Proof. solve_decision. Defined.

Record DKIMKey := mkKey {
  kID : string; kTenantID : string; kDomainID : string; Selector : string; PublicKey : string; kStatus : DKIMKeyStatus; kCreatedAt : Z;
  ActivatedAt : option Z; ExpiresAt : option Z; RevokedAt : option Z; privateKeyEncrypted : list Z;
}.
(** Keys are bytes of PEM. *)
Record DKIMKeyPair := mkPair { pr_Selector : string; pr_PublicKey : string; pr_PrivateKey : list Z }.
Record PendingRotation := mkPending { pd_Selector : string; pd_Record : string; pd_NewKeyID : string; pd_StartedAt : Z }.
Record kdb := mkKDB { tables : tdb; keys : list DKIMKey }.

(** [Format("20060102T150405")], for years 0 to 9999. *)
Definition stampText (t : Z) : string :=
  dateText t +:+ "T" +:+ pad2 (t mod Day / Hour) +:+ pad2 (t mod Hour / Minute) +:+ pad2 (t mod Minute / Second).
(** [rsa]: the public and private key, if one is made. *)
Definition GenerateKeyPair (rsa : option (string * list Z)) (now : Z) : option DKIMKeyPair := (fun k => mkPair (stampText now) k.1 k.2) <$> rsa.

Inductive kerror := KInvalid | KNotFound | KNoRows | KGenerate | KEnvelope (e : eerror) | ErrEnvelopeMissingForWrappedKey | KStore | KNonePending.

Section dkim.
Context {W : Type} (pool : bool) (envelope : option SecretsEnvelope) (Pusher : option (string -> string -> list Z -> W -> bool * W)).

Definition of_domain (tenantID domainID : string) (k : DKIMKey) : bool := String.eqb (kTenantID k) tenantID && String.eqb (kDomainID k) domainID.
Definition active (k : DKIMKey) : bool := bool_decide (kStatus k = DKIMKeyActive).
Definition set_key_status (st : DKIMKeyStatus) (revoked : option Z) (k : DKIMKey) : DKIMKey :=
  mkKey (kID k) (kTenantID k) (kDomainID k) (Selector k) (PublicKey k) st (kCreatedAt k) (ActivatedAt k) (ExpiresAt k) revoked (privateKeyEncrypted k).

(** [byAge]: newest first. *)
Definition ListKeys (byAge : list DKIMKey -> list DKIMKey) (d : delivery) (tenantID domainID : string) (s : kdb) : result kerror (list DKIMKey) :=
  if String.eqb tenantID "" || String.eqb domainID "" then Err KInvalid
  else if negb pool then Ok []
  else match d with Delivered => Ok (byAge (List.filter (of_domain tenantID domainID) (keys s))) | _ => Err KStore end.

Definition wrapPrivateKey (nonce : option (list Z)) (pem : list Z) : result eerror (list Z) :=
  match envelope with None => Ok pem | Some e => Wrap e nonce pem end.
Definition unwrapPrivateKey (blob : list Z) : result kerror (list Z) :=
  match envelope with
  | None => if HasMagic blob then Err ErrEnvelopeMissingForWrappedKey else Ok blob
  | Some e => match Unwrap e blob with Ok (p, _) => Ok p | Err x => Err (KEnvelope x) end
  end.

(** [seen id]: the row was there when the update began; rows a concurrent
    rotation inserts later are not touched by it. *)
Definition rotate_tx (seen : string -> bool) (dbnow : Z) (id tenantID domainID : string) (kp : DKIMKeyPair) (wrapped : list Z) (s : kdb) : result kerror (string * DKIMKey * kdb) :=
  match List.find (is_domain domainID tenantID) (domains_ (tables s)) with
  | None => Err KNoRows
  | Some x =>
      let l := update (fun k => of_domain tenantID domainID k && active k && seen (kID k)) (fun k => set_key_status DKIMKeyDeprecated (RevokedAt k) k) (keys s) in
      if existsb (fun k => String.eqb (kDomainID k) domainID && String.eqb (Selector k) (pr_Selector kp) || String.eqb (kID k) id) l then Err KStore
      else
        let k := mkKey id tenantID domainID (pr_Selector kp) (pr_PublicKey kp) DKIMKeyActive dbnow (Some dbnow) None None wrapped in
        Ok (dDomain x, k, mkKDB (tables s) (l ++ [k]))
  end.

(** The key a caller gets. *)
Definition without_private (k : DKIMKey) : DKIMKey :=
  mkKey (kID k) (kTenantID k) (kDomainID k) (Selector k) (PublicKey k) (kStatus k) (kCreatedAt k) (ActivatedAt k) (ExpiresAt k) (RevokedAt k) [].

Record rotate_env := mkRotateEnv { r_rsa : option (string * list Z); r_now : Z; r_nonce : option (list Z); r_d : delivery; r_seen : string -> bool; r_dbnow : Z; r_id : string }.
Definition RotateKey (E : rotate_env) (tenantID domainID : string) (s : kdb) (w : W) : result kerror DKIMKey * kdb * W :=
  if String.eqb tenantID "" || String.eqb domainID "" then (Err KInvalid, s, w)
  else match GenerateKeyPair (r_rsa E) (r_now E) with
  | None => (Err KGenerate, s, w)
  | Some kp =>
      match wrapPrivateKey (r_nonce E) (pr_PrivateKey kp) with
      | Err e => (Err (KEnvelope e), s, w)
      | Ok wrapped =>
          let '(r, s) :=
            if pool then BeginFunc KStore (r_d E) (fun s => let? x := rotate_tx (r_seen E) (r_dbnow E) (r_id E) tenantID domainID kp wrapped s in Ok (x.1, x.2)) s
            else (Ok (""%string, mkKey "" tenantID domainID (pr_Selector kp) (pr_PublicKey kp) DKIMKeyActive zeroTime None None None []), s) in
          match r with
          | Err e => (Err e, s, w)
          | Ok (domainName, k) =>
              (Ok (without_private k), s, match Pusher with Some push => if String.eqb domainName "" then w else (push domainName (pr_Selector kp) (pr_PrivateKey kp) w).2 | None => w end)
          end
      end
  end.

Definition is_key (tenantID domainID keyID : string) (k : DKIMKey) : bool := of_domain tenantID domainID k && String.eqb (kID k) keyID.
Definition RevokeKey (d : delivery) (dbnow : Z) (tenantID domainID keyID : string) (s : kdb) : result kerror unit * kdb :=
  if String.eqb tenantID "" || String.eqb domainID "" || String.eqb keyID "" then (Err KInvalid, s)
  else if negb pool then (Ok tt, s)
  else BeginFunc KStore d (fun s =>
    if existsb (is_key tenantID domainID keyID) (keys s)
    then Ok (tt, mkKDB (tables s) (update (is_key tenantID domainID keyID) (set_key_status DKIMKeyRevoked (Some dbnow)) (keys s))) else Err KNotFound) s.

Definition PendingRotation_of (byAge : list DKIMKey -> list DKIMKey) (d : delivery) (tenantID domainID defaultRecord : string) (s : kdb) : result kerror PendingRotation :=
  let? l := ListKeys byAge d tenantID domainID s in
  match List.find active l with
  | Some k => Ok (mkPending (Selector k) ("v=DKIM1; k=rsa; p=" +:+ PublicKey k) (kID k) (kCreatedAt k))
  | None => if negb (String.eqb defaultRecord "") then Ok (mkPending "kmail" defaultRecord "" zeroTime) else Err KNonePending
  end.

Definition LoadPrivateKey (d : delivery) (tenantID domainID keyID : string) (s : kdb) : result kerror (list Z) :=
  if String.eqb tenantID "" || String.eqb domainID "" || String.eqb keyID "" then Err KInvalid
  else if negb pool then Err KStore
  else match d with
  | Delivered => match List.find (is_key tenantID domainID keyID) (keys s) with Some k => unwrapPrivateKey (privateKeyEncrypted k) | None => Err KNoRows end
  | _ => Err KStore
  end.

(** The handlers. *)
Definition statusForDKIM (e : kerror) : Z := match e with KInvalid => 400 | KNotFound => 404 | _ => 500 end.
Definition list_keys (byAge : list DKIMKey -> list DKIMKey) (d : delivery) (ctxTenant tenantID domainID : string) (s : kdb) : Z * list DKIMKey :=
  if negb (checkTenantScope ctxTenant tenantID) then (403, [])
  else match ListKeys byAge d tenantID domainID s with Ok l => (200, l) | Err e => (statusForDKIM e, []) end.
Definition rotate_handler (E : rotate_env) (ctxTenant tenantID domainID : string) (s : kdb) (w : W) : Z * kdb * W :=
  if negb (checkTenantScope ctxTenant tenantID) then (403, s, w)
  else let '(r, s, w) := RotateKey E tenantID domainID s w in ((match r with Ok _ => 201 | Err e => statusForDKIM e end), s, w).
Definition revoke_handler (d : delivery) (dbnow : Z) (ctxTenant tenantID domainID keyID : string) (s : kdb) : Z * kdb :=
  if negb (checkTenantScope ctxTenant tenantID) then (403, s)
  else let '(r, s) := RevokeKey d dbnow tenantID domainID keyID s in ((match r with Ok _ => 204 | Err e => statusForDKIM e end), s).
End dkim.

(** ** What is shown to the tenant verifies *)
Definition clean (s : string) : Prop := s <> ""%string /\ Forall (fun c => ascii_space c = false) (String.list_ascii_of_string s).

Lemma clean_last s : clean s -> exists a d, s = a +:+ String.String d "" /\ ascii_space d = false.
Proof.
  intros [Hne Hs]. rewrite <- (String.string_of_list_ascii_of_string s). destruct (String.list_ascii_of_string s) as [|d l _] eqn:E using rev_ind.
  - by rewrite <- (String.string_of_list_ascii_of_string s), E in Hne.
  - exists (String.string_of_list_ascii l), d. apply Forall_app in Hs as [_ Hd]. rewrite Forall_singleton in Hd. split; [|done].
    rewrite <- (String.string_of_list_ascii_of_string (_ +:+ _)). by rewrite string_app_list, String.list_ascii_of_string_of_list_ascii.
Qed.
Lemma clean_trim s : clean s -> TrimSpace s = s.
Proof.
  intros Hs. pose proof Hs as [Hne Hall]. destruct (clean_last s Hs) as (a & d & -> & Hd). destruct a as [|c a].
  - assert (trim_left [d] = [d]) as Ht by (apply trim_left_id; exact Hd). unfold TrimSpace, on_ascii, trim. change (String.list_ascii_of_string ("" +:+ String.String d "")) with [d].
    by rewrite Ht, reverse_singleton, Ht.
  - apply TrimSpace_ends; [|done]. rewrite string_app_list in Hall. apply Forall_app in Hall as [Hall _]. by inversion Hall.
Qed.
(** A text that begins with a visible character and ends in a clean one. *)
Lemma framed_trim c a s : ascii_space c = false -> clean s -> TrimSpace (String.String c a +:+ s) = String.String c a +:+ s.
Proof. intros Hc (b & d & -> & Hd)%clean_last. rewrite <- string_app_assoc. by apply (TrimSpace_ends (a +:+ b) c d). Qed.

Lemma lower_dot c : ascii_lower c = dot <-> c = dot.
Proof. by destruct c as [[] [] [] [] [] [] [] []]. Qed.

Lemma trim_dot_snoc s : trim_dot (s +:+ ".") = s.
Proof. unfold trim_dot, on_ascii. rewrite string_app_list. cbn [String.list_ascii_of_string]. rewrite reverse_snoc. cbn. rewrite reverse_involutive. apply String.string_of_list_ascii_of_string. Qed.

Lemma HasSuffix_dot a : HasSuffix (a +:+ ".") "." = true.
Proof. unfold HasSuffix, on_ascii. rewrite string_app_list. cbn [String.list_ascii_of_string]. rewrite reverse_snoc, reverse_singleton. exact (HasPrefix_app "." (String.string_of_list_ascii (reverse (String.list_ascii_of_string a)))). Qed.

Lemma normalize_trailing_dot h : clean h -> normalizeHost (ensureTrailingDot h) = normalizeHost h.
Proof.
  intros Hh. unfold ensureTrailingDot. destruct (HasSuffix h ".") eqn:E; [done|]. unfold normalizeHost. rewrite (clean_trim h Hh).
  assert (clean (h +:+ ".")) as Hd by (split; [by destruct h|]; rewrite string_app_list; apply Forall_app; split; [apply Hh|by repeat constructor]).
  rewrite (clean_trim _ Hd), ToLower_app. change (ToLower ".") with "."%string. rewrite trim_dot_snoc.
  destruct (clean_last h Hh) as (a & d & -> & _). rewrite ToLower_app. unfold trim_dot, on_ascii. rewrite string_app_list. cbn. rewrite reverse_snoc.
  destruct (Ascii.eqb_spec (ascii_lower d) dot) as [->%lower_dot|]; [by rewrite HasSuffix_dot in E|].
  rewrite <- (String.string_of_list_ascii_of_string (ToLower a +:+ _)). by rewrite string_app_list.
Qed.

Section published.
Context (s : DnsService) (LookupMX LookupTXT : string -> lookup string).

(** The zone answers with every MX and TXT record of [recs], among others. *)
Definition publishes (recs : DomainRecords) : Prop := forall r, r ∈ dr_Records recs ->
  (dr_Type r = "MX"%string -> exists l, LookupMX (dr_Name r) = Found l /\ dr_Value r ∈ l) /\
  (dr_Type r = "TXT"%string -> exists l, LookupTXT (dr_Name r) = Found l /\ dr_Value r ∈ l).

(** A service that can be checked: a mail host, an SPF name, a selector and a
    public key that is one word. *)
Definition checkable : Prop :=
  clean (MailHost s) /\ SPFInclude s <> ""%string /\ DefaultDKIMSelector s <> ""%string /\ clean (DKIMPublicKey s) /\ free_of semicolon (DKIMPublicKey s).

Lemma checked_found {A} (l : list A) p x : x ∈ l -> p x = true -> checked (Found l) p = Ok true.
Proof. intros Hx Hp. cbn. f_equal. apply existsb_elem. by exists x. Qed.

Lemma dkim_value_ok key : clean key -> free_of semicolon key -> hasDKIMPublicKey ("v=DKIM1; k=rsa; p=" +:+ key) = true.
Proof.
  intros Hk Hf. unfold hasDKIMPublicKey. 
  assert (TrimSpace ("v=DKIM1; k=rsa; p=" +:+ key) = "v=DKIM1; k=rsa; p=" +:+ key) as -> by exact (framed_trim (Ascii.ascii_of_nat 118) "=DKIM1; k=rsa; p=" key eq_refl Hk). apply andb_true_intro. split.
  - change ("v=DKIM1; k=rsa; p=" +:+ key) with ("v=DKIM1" +:+ ("; k=rsa; p=" +:+ key)). rewrite ToLower_app. exact (Contains_app "" "v=dkim1" _ ltac:(done)).
  - change ("v=DKIM1; k=rsa; p=" +:+ key) with ("v=DKIM1; k=rsa" +:+ String.String semicolon (" p=" +:+ key)). rewrite Split_concat, existsb_app. apply orb_true_intro. right.
    rewrite Split_free by (unfold free_of; rewrite string_app_list; apply Forall_app; split; [by repeat constructor|done]). cbn [existsb]. rewrite orb_false_r.
    assert (TrimSpace (" p=" +:+ key) = "p=" +:+ key) as ->.
    { transitivity (TrimSpace ("p=" +:+ key)); [|by apply framed_trim]. done. }
    change (split_first equals ("p=" +:+ key)) with (Some ("p"%string, key)). cbv beta iota. rewrite (clean_trim key Hk). destruct Hk as [Hne _]. apply String.eqb_neq in Hne as ->. done.
Qed.

Lemma dmarc_value_ok p rest : HasPrefix (ToLower (TrimSpace ("v=DMARC1; p=" +:+ p +:+ rest +:+ "; adkim=s; aspf=s; fo=1"))) "v=dmarc1" = true.
Proof.
  assert (TrimSpace ("v=DMARC1; p=" +:+ p +:+ rest +:+ "; adkim=s; aspf=s; fo=1") = "v=DMARC1; p=" +:+ p +:+ rest +:+ "; adkim=s; aspf=s; fo=1") as ->.
  { rewrite <- !string_app_assoc. change "; adkim=s; aspf=s; fo=1"%string with ("; adkim=s; aspf=s; " +:+ "fo=1"). rewrite <- string_app_assoc. 
    refine (framed_trim _ _ "fo=1" _ _); [done|]. split; [done|by repeat constructor]. }
  change ("v=DMARC1; p=" +:+ p +:+ rest +:+ "; adkim=s; aspf=s; fo=1") with ("v=DMARC1" +:+ ("; p=" +:+ p +:+ rest +:+ "; adkim=s; aspf=s; fo=1")).
  rewrite ToLower_app. exact (HasPrefix_app "v=dmarc1" _).
Qed.

Lemma published_checks domain : checkable -> domain <> ""%string -> publishes (GenerateRecords s domain) ->
  CheckMX s LookupMX domain = Ok true /\ CheckSPF s LookupTXT domain = Ok true /\ CheckDKIM s LookupTXT domain "" = Ok true /\ CheckDMARC LookupTXT domain = Ok true.
Proof.
  intros (Hmail & Hspf & Hsel & Hkey & Hsemi) Hd%String.eqb_neq Hp. unfold publishes, GenerateRecords in Hp. cbn [dr_Records] in Hp. rewrite Hd in Hp.
  pose proof Hmail as [Hmh%String.eqb_neq _]. apply String.eqb_neq in Hspf, Hsel. unfold when_set in Hp. pose proof Hkey as [Hk0%String.eqb_neq _]. rewrite Hmh, Hspf, Hk0 in Hp.
  unfold CheckMX, CheckSPF, CheckDKIM, CheckDMARC. rewrite Hd, Hmh, Hspf. change (String.eqb "" "") with true. cbv beta iota zeta. rewrite Hsel. cbn [negb andb]. split_and!.
  - destruct (proj1 (Hp _ (list_elem_of_here _ _)) eq_refl) as (l & Hl & Hin). cbn [dr_Name] in Hl. rewrite Hl. eapply checked_found; [exact Hin|]. cbn [dr_Value]. cbv beta zeta.
    rewrite (normalize_trailing_dot _ Hmail), String.eqb_refl. done.
  - destruct (proj2 (Hp (txt domain ("v=spf1 include:" +:+ SPFInclude s +:+ " ~all") "Authorize KMail to send on behalf of this domain.") ltac:(by right; left)) eq_refl) as (l & Hl & Hin).
    cbn [dr_Name txt] in Hl. rewrite Hl. eapply checked_found; [exact Hin|]. cbn [dr_Value txt].
    change ("v=spf1 include:" +:+ SPFInclude s +:+ " ~all") with ("v=spf1" +:+ (" include:" +:+ SPFInclude s +:+ " ~all")). rewrite ToLower_app. apply andb_true_intro. split; [exact (HasPrefix_app "v=spf1" _)|].
    change (" include:" +:+ SPFInclude s +:+ " ~all") with (" " +:+ ("include:" +:+ (SPFInclude s +:+ " ~all"))). rewrite !ToLower_app.
    rewrite <- (string_app_assoc (ToLower "v=spf1")), <- (string_app_assoc (ToLower "include:")). by apply (Contains_app (ToLower "v=spf1" +:+ ToLower " ") ("include:" +:+ ToLower (SPFInclude s))).
  - destruct (proj2 (Hp (txt (DefaultDKIMSelector s +:+ "._domainkey." +:+ domain) ("v=DKIM1; k=rsa; p=" +:+ DKIMPublicKey s) "DKIM signing key. KMail rotates this key periodically.") ltac:(by right; right; left)) eq_refl)
      as (l & Hl & Hin). cbn [dr_Name txt] in Hl. rewrite Hl. eapply checked_found; [exact Hin|]. by apply dkim_value_ok.
  - match type of Hp with context [txt ("_dmarc." +:+ domain) ?v ?n] => destruct (proj2 (Hp (txt ("_dmarc." +:+ domain) v n) ltac:(by right; right; right; left)) eq_refl) as (l & Hl & Hin) end.
    cbn [dr_Name txt] in Hl. rewrite Hl. eapply checked_found; [exact Hin|]. apply dmarc_value_ok.
Qed.
End published.

(** ** Verification *)
Section verification.
Context (s : DnsService) (LookupMX LookupTXT : string -> lookup string).

Lemma LookupDomainName_ok d t id b name : LookupDomainName true d t id b = Ok name -> exists x, x ∈ domains_ b /\ is_domain id t x = true /\ dDomain x = name.
Proof.
  unfold LookupDomainName. destruct (_ || _); [done|]. cbn [negb]. unfold BeginFunc. destruct (List.find _ _) as [x|] eqn:Ef; [|by destruct d].
  apply find_elem in Ef as [? ?]. destruct d; [|done..]. intros [= <-]. by exists x.
Qed.

(** C36: The records shown to a tenant verify.  For a service configured with
    a mail host, an SPF name, a selector and a DKIM key (without white space
    or semicolons) and a domain of the tenant whose zone answers with the MX
    and TXT records [GenerateRecords] lists for it, among any others:
    [VerifyDomain], when its two transactions go through, reports the domain
    verified and leaves every flag of its row set, and no row of another
    domain is touched, whatever other pods do between the transactions short
    of removing the row. *)
Theorem shown_records_verify between now t id x b :
  checkable s -> x ∈ domains_ b -> is_domain id t x = true -> NoDup (dID <$> domains_ b) -> t <> ""%string -> id <> ""%string -> dDomain x <> ""%string ->
  publishes LookupMX LookupTXT (GenerateRecords s (dDomain x)) -> existsb (is_domain id t) (domains_ (between b)) = true ->
  exists b', VerifyDomain s LookupMX LookupTXT true Delivered Delivered between now t id b = (Ok (mkVerification id (dDomain x) true true true true true), b') /\
    (forall y, y ∈ domains_ b' -> is_domain id t y = true -> Verified y && MXVerified y && SPFVerified y && DKIMVerified y && DMARCVerified y = true) /\
    (forall y, is_domain id t y = false -> y ∈ domains_ b' <-> y ∈ domains_ (between b)).
Proof.
  intros Hs Hx Hid Hnd Ht%String.eqb_neq Hi%String.eqb_neq Hdom Hp Hrow. unfold VerifyDomain, LookupDomainName. rewrite Ht, Hi. cbn [orb negb BeginFunc].
  assert (List.find (is_domain id t) (domains_ b) = Some x) as ->.
  { destruct (List.find _ _) as [y|] eqn:Ef.
    - apply find_elem in Ef as [Hy Hyid]. f_equal. eapply (NoDup_proj_eq dID); [done..|]. unfold is_domain in *. breflect. congruence.
    - apply find_none_elem with (x := x) in Ef; [congruence|done]. }
  cbn [fst]. destruct (published_checks s LookupMX LookupTXT (dDomain x) Hs Hdom Hp) as (-> & -> & -> & ->). cbn [rbind andb]. rewrite Hrow. eexists. split; [done|]. cbn [domains_ with_domains_]. split.
  - intros y (y0 & Hy0 & ->)%elem_of_update Hy. destruct (is_domain id t y0) eqn:E; [done|congruence].
  - intros y Hy. rewrite elem_of_update. split.
    + intros (y0 & Hy0 & ->). destruct (is_domain id t y0) eqn:E; [|done]. exfalso. change (is_domain id t y0 = false) in Hy. congruence.
    + intros Hin. exists y. by rewrite Hy.
Qed.

(** The aggregate flag is the conjunction of the four. *)
Definition flags_ok (b : tdb) : Prop := forall x, x ∈ domains_ b -> Verified x = MXVerified x && SPFVerified x && DKIMVerified x && DMARCVerified x.

Lemma verify_flags d d' between now t id b : (forall b, flags_ok b -> flags_ok (between b)) -> flags_ok b -> flags_ok (VerifyDomain s LookupMX LookupTXT true d d' between now t id b).2.
Proof.
  intros Hb Hok. unfold VerifyDomain. destruct (LookupDomainName _ _ _ _ b) as [name|]; [|done].
  destruct (let? mx := CheckMX s LookupMX name in _) as [[[[mx spf] dkim] dmarc]|]; [|by apply Hb].
  match goal with |- context [BeginFunc DOther d' ?f (between b)] => assert (flags_ok (BeginFunc DOther d' f (between b)).2) as H; [|by destruct (BeginFunc DOther d' f (between b))] end.
  apply (BeginFunc_ind flags_ok); [by apply Hb|]. intros a b' [= _ <-] x (y & Hy & ->)%elem_of_update. destruct (is_domain id t y); [done|]. by apply Hb in Hy.
Qed.
Lemma create_flags d now id t domain b : flags_ok b -> flags_ok (CreateDomain d now id t domain b).2.
Proof.
  intros Hok. unfold CreateDomain. destruct (String.eqb domain ""); [done|]. apply (BeginFunc_ind flags_ok); [done|]. intros a b'. destruct (_ && _); [|done]. intros [= _ <-] x.
  cbn. rewrite elem_of_app, list_elem_of_singleton. intros [Hx| ->]; [by apply Hok|done].
Qed.
End verification.

(** ** Keys *)
Section key_runs.
Context {W : Type} (envelope : option SecretsEnvelope) (Pusher : option (string -> string -> list Z -> W -> bool * W)).

(** Ids are unique, every key belongs to a domain of its tenant and a domain
    has at most one active key. *)
Record keys_ok (s : kdb) : Prop := {
  domain_ids : NoDup (dID <$> domains_ (tables s));
  keys_ids : NoDup (kID <$> keys s);
  keys_owner : forall k, k ∈ keys s -> exists x, x ∈ domains_ (tables s) /\ dID x = kDomainID k /\ dTenantID x = kTenantID k;
  keys_active : forall k k', k ∈ keys s -> k' ∈ keys s -> active k = true -> active k' = true -> kDomainID k = kDomainID k' -> k = k';
}.

Lemma domain_tenant s k x : keys_ok s -> k ∈ keys s -> x ∈ domains_ (tables s) -> dID x = kDomainID k -> kTenantID k = dTenantID x.
Proof.
  intros Hok Hk Hx Ed. destruct (keys_owner s Hok k Hk) as (y & Hy & Ey & Et). assert (y = x) as -> by (eapply (NoDup_proj_eq dID); [apply Hok|done|done|congruence]). done.
Qed.

(** Rows that keep their ids and never become active keep the invariant. *)
Lemma update_keys_ok p f s : (forall k, kID (f k) = kID k /\ kTenantID (f k) = kTenantID k /\ kDomainID (f k) = kDomainID k /\ active (f k) = false) ->
  keys_ok s -> keys_ok (mkKDB (tables s) (update p f (keys s))).
Proof.
  intros Hf [I1 I2 I3 I4]. split; cbn [tables keys]; [done| |..].
  - rewrite update_proj; [done|]. intros a. apply Hf.
  - intros k (k0 & Hk0 & ->)%elem_of_update. destruct (I3 k0 Hk0) as (x & Hx & Ex & Et). exists x. destruct (Hf k0) as (_ & E1 & E2 & _). destruct (p k0); split_and!; congruence.
  - intros k k' (k0 & Hk0 & ->)%elem_of_update (k1 & Hk1 & ->)%elem_of_update. destruct (Hf k0) as (_ & _ & _ & F0), (Hf k1) as (_ & _ & _ & F1).
    destruct (p k0); [rewrite F0; done|]. destruct (p k1); [rewrite F1; done|]. by apply I4.
Qed.
Lemma add_key_ok k s : (exists x, x ∈ domains_ (tables s) /\ dID x = kDomainID k /\ dTenantID x = kTenantID k) -> (kID k ∉ kID <$> keys s) ->
  (forall k', k' ∈ keys s -> active k' = true -> kDomainID k' <> kDomainID k) -> keys_ok s -> keys_ok (mkKDB (tables s) (keys s ++ [k])).
Proof.
  intros Hx Hid Hact [I1 I2 I3 I4]. split; cbn [tables keys]; [done| |..].
  - rewrite fmap_app. by apply NoDup_append.
  - intros q [Hq| ->%list_elem_of_singleton]%elem_of_app; [by apply I3|done].
  - intros q q' [Hq| ->%list_elem_of_singleton]%elem_of_app [Hq'| ->%list_elem_of_singleton]%elem_of_app Ha Ha' Ed; [by apply I4|by destruct (Hact q Hq)|by destruct (Hact q' Hq')|done].
Qed.
Lemma add_domain_ok x s : (dID x ∉ dID <$> domains_ (tables s)) -> keys_ok s -> keys_ok (mkKDB (with_domains_ (domains_ (tables s) ++ [x]) (tables s)) (keys s)).
Proof.
  intros Hx [I1 I2 I3 I4]. split; cbn [tables keys domains_ with_domains_]; [|done| |done].
  - rewrite fmap_app. by apply NoDup_append.
  - intros k Hk. destruct (I3 k Hk) as (y & Hy & E). exists y. split; [apply elem_of_app; by left|done].
Qed.
Lemma update_domains_ok p f s : (forall x, dID (f x) = dID x /\ dTenantID (f x) = dTenantID x) -> keys_ok s ->
  keys_ok (mkKDB (with_domains_ (update p f (domains_ (tables s))) (tables s)) (keys s)).
Proof.
  intros Hf [I1 I2 I3 I4]. split; cbn [tables keys domains_ with_domains_]; [|done| |done].
  - rewrite update_proj; [done|]. intros a. apply Hf.
  - intros k Hk. destruct (I3 k Hk) as (y & Hy & E1 & E2). exists (if p y then f y else y). split; [apply elem_of_update; by exists y|]. destruct (Hf y), (p y); split; congruence.
Qed.

Lemma rotate_tx_ok dbnow id t dm kp wrapped s name k s' : keys_ok s -> rotate_tx (fun _ => true) dbnow id t dm kp wrapped s = Ok (name, k, s') ->
  keys_ok s' /\ k ∈ keys s' /\ k = mkKey id t dm (pr_Selector kp) (pr_PublicKey kp) DKIMKeyActive dbnow (Some dbnow) None None wrapped.
Proof.
  intros Hok. unfold rotate_tx. destruct (List.find _ _) as [x|] eqn:Ef; [|done]. apply find_elem in Ef as [Hx Hxid]. unfold is_domain in Hxid. apply andb_prop in Hxid as [Ei%String.eqb_eq Et%String.eqb_eq].
  set (l := update _ _ _). destruct (existsb _ l) eqn:Ee; [done|]. rewrite existsb_false in Ee. intros [= <- <- <-].
  assert (keys_ok (mkKDB (tables s) l)) as Hl by (apply update_keys_ok; [by intros k|done]).
  split; [|split; [cbn [keys]; apply elem_of_app; right; by left|done]]. refine (add_key_ok _ (mkKDB (tables s) l) _ _ _ Hl).
  - exists x. cbn [kDomainID kTenantID]. done.
  - intros (q & Eq & Hq)%list_elem_of_fmap. specialize (Ee q Hq). apply orb_false_elim in Ee as [_ Ee]. apply String.eqb_neq in Ee. by apply Ee.
  - intros q Hq Ha Hd. cbn [kDomainID] in Hd. cbn [keys] in Hq. unfold l in Hq. apply elem_of_update in Hq as (q0 & Hq0 & ->).
    destruct (of_domain t dm q0 && active q0 && true) eqn:Ep; [done|]. rewrite Ha, !andb_true_r in Ep. unfold of_domain in Ep.
    rewrite (domain_tenant s q0 x) in Ep by (done || congruence). rewrite Hd in Ep. by rewrite Et, !String.eqb_refl in Ep.
Qed.

(** A rotation with the domain to itself. *)
Definition alone (E : rotate_env) : Prop := r_seen E = fun _ => true.

Lemma RotateKey_keeps E t dm s w : alone E -> keys_ok s -> keys_ok (RotateKey true envelope Pusher E t dm s w).1.2.
Proof.
  intros Hal Hok. unfold RotateKey. destruct (_ || _); [done|]. destruct (GenerateKeyPair _ _) as [kp|]; [|done]. destruct (wrapPrivateKey _ _ _) as [wrapped|]; [|done].
  match goal with |- context [BeginFunc KStore ?d ?f s] => assert (keys_ok (BeginFunc KStore d f s).2) as H; [|by destruct (BeginFunc KStore d f s) as [[[]|] ?]] end.
  apply (BeginFunc_ind keys_ok); [done|]. rewrite Hal. intros a s' ([[name k] s1] & Hr & [= _ <-])%rbind_ok. by apply rotate_tx_ok in Hr as [? _].
Qed.
(** A key handed back is a row, without its private part. *)
Lemma RotateKey_ok E t dm s w k s' w' : alone E -> keys_ok s -> RotateKey true envelope Pusher E t dm s w = (Ok k, s', w') ->
  exists pub pem row, r_rsa E = Some (pub, pem) /\ wrapPrivateKey envelope (r_nonce E) pem = Ok (privateKeyEncrypted row) /\
    row ∈ keys s' /\ k = without_private row /\ is_key t dm (r_id E) row = true /\ active row = true.
Proof.
  intros Hal Hok. unfold RotateKey. destruct (_ || _); [done|]. unfold GenerateKeyPair. destruct (r_rsa E) as [[pub pem]|]; [|done]. cbn [fmap option_fmap option_map pr_PrivateKey fst snd].
  destruct (wrapPrivateKey _ _ _) as [wrapped|] eqn:Ew; [|done]. rewrite Hal. unfold BeginFunc.
  destruct (rotate_tx _ _ _ _ _ _ _ _) as [[[name row] s1]|] eqn:Er; [|by destruct (r_d E)]. destruct (r_d E); [|done..]. cbn. intros [= <- <- _].
  apply rotate_tx_ok in Er as (_ & Hin & ->); [|done]. exists pub, pem. eexists. split_and!; [done| |exact Hin|done| |done]; [done|].
  unfold is_key, of_domain. cbn. by rewrite !String.eqb_refl.
Qed.

Lemma RevokeKey_keeps d dbnow t dm id s : keys_ok s -> keys_ok (RevokeKey true d dbnow t dm id s).2.
Proof.
  intros Hok. unfold RevokeKey. destruct (_ || _); [done|]. cbn [negb]. apply (BeginFunc_ind keys_ok); [done|]. intros a s'. destruct (existsb _ _); [|done]. intros [= _ <-]. by apply update_keys_ok.
Qed.

(** What the service does to its tables: the requests of tenants, one at a time
    for the keys of a domain. *)
Inductive kstep : kdb -> kdb -> Prop :=
  | step_rotate E t dm s w : alone E -> kstep s (RotateKey true envelope Pusher E t dm s w).1.2
  | step_revoke d dbnow t dm id s : kstep s (RevokeKey true d dbnow t dm id s).2
  | step_create d now id t domain s : (id ∉ dID <$> domains_ (tables s)) -> kstep s (mkKDB (CreateDomain d now id t domain (tables s)).2 (keys s))
  | step_verify srv mx tx d d' now t id s : kstep s (mkKDB (VerifyDomain srv mx tx true d d' (fun b => b) now t id (tables s)).2 (keys s)).

Lemma kstep_ok s s' : keys_ok s -> kstep s s' -> keys_ok s'.
Proof.
  intros Hok Hst. revert Hok. destruct Hst as [E t dm s0 w Hal|d dbnow t dm id s0|d now id t domain s0 Hid|srv mx tx d d' now t id s0]; intros Hok.
  - by apply RotateKey_keeps.
  - by apply RevokeKey_keeps.
  - unfold CreateDomain. destruct (String.eqb domain ""); [by destruct s0|]. apply (BeginFunc_ind (fun b => keys_ok (mkKDB b (keys s0)))); [by destruct s0|].
    intros a b'. destruct (_ && _); [|done]. intros [= _ <-]. by apply add_domain_ok.
  - unfold VerifyDomain. destruct (LookupDomainName _ _ _ _ _) as [name|]; [|by destruct s0]. destruct (let? mx := CheckMX _ _ name in _) as [[[[m sp] dk] dm]|]; [|by destruct s0].
    match goal with |- context [BeginFunc DOther d' ?f ?b] => assert (keys_ok (mkKDB (BeginFunc DOther d' f b).2 (keys s0))) as H; [|by destruct (BeginFunc DOther d' f b)] end.
    apply (BeginFunc_ind (fun b => keys_ok (mkKDB b (keys s0)))); [by destruct s0|]. intros a b' [= _ <-]. by apply update_domains_ok.
Qed.
Lemma kruns_ok s s' : keys_ok s -> rtc kstep s s' -> keys_ok s'.
Proof. intros Hok Hrun. induction Hrun; eauto using kstep_ok. Qed.

Lemma find_key t dm id s k : keys_ok s -> k ∈ keys s -> is_key t dm id k = true -> List.find (is_key t dm id) (keys s) = Some k.
Proof.
  intros Hok Hk Hid. destruct (List.find _ _) as [q|] eqn:Ef.
  - apply find_elem in Ef as [Hq Hqid]. f_equal. eapply (NoDup_proj_eq kID); [apply Hok|done|done|]. unfold is_key in *. breflect. congruence.
  - apply find_none_elem with (x := k) in Ef; [congruence|done].
Qed.
End key_runs.

Section rotation.
Context {W : Type} (E : SecretsEnvelope) `{!Opens E} (Pusher : option (string -> string -> list Z -> W -> bool * W)).

(** A rotation that is answered with a key has taken over the domain.
    Whatever was requested before, one rotation at a time: the new key is the
    only active one of the domain, the answer carries no private part, and
    loading the stored part, which is sealed, gives back the private key that
    was generated. *)
Theorem rotated_key_takes_over s0 s F t dm w k s' w' nonce pub pem :
  keys_ok s0 -> rtc (kstep (Some E) Pusher) s0 s -> alone F -> r_nonce F = Some nonce -> length nonce = NonceSize -> r_rsa F = Some (pub, pem) -> r_id F <> ""%string ->
  RotateKey true (Some E) Pusher F t dm s w = (Ok k, s', w') ->
  (exists row, row ∈ keys s' /\ k = without_private row /\ active row = true /\ Wrap E (Some nonce) pem = Ok (privateKeyEncrypted row) /\
    forall q, q ∈ keys s' -> kDomainID q = dm -> active q = true -> q = row) /\
  LoadPrivateKey true (Some E) Delivered t dm (kID k) s' = Ok pem.
Proof.
  intros Hok0 Hrun Hal Hn Hlen Hrsa Hid Hrot. pose proof (kruns_ok _ _ _ _ Hok0 Hrun) as Hok.
  pose proof (RotateKey_keeps (Some E) Pusher F t dm s w Hal Hok) as Hok'. destruct (RotateKey_ok _ _ _ _ _ _ _ _ _ _ Hal Hok Hrot) as (pub' & pem' & row & Hr & Hw & Hin & -> & Hkey & Hact).
  rewrite Hrot in Hok'. cbn [fst snd] in Hok'. rewrite Hrsa in Hr. injection Hr as <- <-. rewrite Hn in Hw. cbn [wrapPrivateKey] in Hw.
  pose proof Hkey as Hof. unfold is_key, of_domain in Hof. breflect. split.
  - exists row. split_and!; try done. intros q Hq Hd Ha. apply (keys_active _ Hok'); [done..|congruence].
  - unfold LoadPrivateKey. cbn [kID without_private].
    destruct (String.eqb t "" || String.eqb dm "") eqn:Ein; [unfold RotateKey in Hrot; rewrite Ein in Hrot; done|].
    match goal with H : kID row = _ |- _ => rewrite H end. apply String.eqb_neq in Hid. rewrite Hid. cbn [orb negb]. rewrite (find_key t dm (r_id F) s' row) by done.
    destruct (opens nonce pem _ Hlen Hw) as [enc Hu]. cbn [unwrapPrivateKey]. by rewrite Hu.
Qed.
End rotation.

(** ** Examples *)
Module DnsExamples.
Import EnvelopeExamples.
Local Open Scope string_scope.

Definition service : DnsService := NewService (mkDns "mx.kmail.test" "_spf.kmail.test" "" "MIIBIjANBg" "" "dmarc@kmail.test" "" "").
Definition acme : Domain := mkDomain "d1" "t1" "acme.com" false false false false false 0 0.
Definition base : tdb := mkTDB [] [] [acme] [] [].
(** A zone that answers with the records of a list. *)
Definition zone (recs : DomainRecords) (type name : string) : lookup string :=
  match List.filter (fun r => String.eqb (dr_Type r) type && String.eqb (dr_Name r) name) (dr_Records recs) with [] => NoData | l => Found (dr_Value <$> l) end.

Lemma zone_publishes recs : publishes (zone recs "MX") (zone recs "TXT") recs.
Proof.
  assert (forall r, r ∈ dr_Records recs -> exists l, zone recs (dr_Type r) (dr_Name r) = Found l /\ dr_Value r ∈ l) as H.
  { intros r Hr. unfold zone. assert (r ∈ List.filter (fun q => String.eqb (dr_Type q) (dr_Type r) && String.eqb (dr_Name q) (dr_Name r)) (dr_Records recs)) as Hin
      by (apply elem_of_filterb; by rewrite !String.eqb_refl).
    destruct (List.filter _ _) as [|q l]; [by apply not_elem_of_nil in Hin|]. eexists. split; [done|]. by apply list_elem_of_fmap_2. }
  intros r Hr. destruct (H r Hr) as (l & Hz & Hv). split; intros E; rewrite E in Hz; by exists l.
Qed.

Definition shown : DomainRecords := GenerateRecords service "acme.com".
Definition env (second : Z) (id : string) (seen : string -> bool) : rotate_env :=
  mkRotateEnv (Some ("pub", [1; 2; 3])) (second * Second) (Some nonce0) Delivered seen (second * Second) id.
Definition keyless : kdb := mkKDB base [].
Definition first : result kerror DKIMKey * kdb * unit := RotateKey true (Some (AESGCMEnvelope key1)) None (env 5 "k1" (fun _ => true)) "t1" "d1" keyless tt.
(** The second rotation began before the first committed. *)
Definition overlapping : result kerror DKIMKey * kdb * unit := RotateKey true (Some (AESGCMEnvelope key1)) None (env 7 "k2" (fun _ => false)) "t1" "d1" first.1.2 tt.
End DnsExamples.

Import DnsExamples EnvelopeExamples.
Local Open Scope string_scope.

Example records_shown : (fun r => (dr_Type r, dr_Name r)) <$> dr_Records shown =
  [("MX", "acme.com"); ("TXT", "acme.com"); ("TXT", "kmail._domainkey.acme.com"); ("TXT", "_dmarc.acme.com"); ("TXT", "_mta-sts.acme.com"); ("CNAME", "mta-sts.acme.com");
   ("TXT", "_smtp._tls.acme.com"); ("CNAME", "autoconfig.acme.com"); ("CNAME", "autodiscover.acme.com")].
Proof. vm_compute. done. Qed.

Lemma shown_records_verify_witness : exists b',
  VerifyDomain service (zone shown "MX") (zone shown "TXT") true Delivered Delivered (fun b => b) 9 "t1" "d1" base = (Ok (mkVerification "d1" "acme.com" true true true true true), b').
Proof.
  destruct (shown_records_verify service (zone shown "MX") (zone shown "TXT") (fun b => b) 9 "t1" "d1" acme base) as (b' & H & _).
  - split_and!; [split; [done|repeat constructor]|done|done|split; [done|repeat constructor]|repeat constructor; done].
  - by left.
  - done.
  - apply NoDup_singleton.
  - done.
  - done.
  - done.
  - apply zone_publishes.
  - done.
  - by exists b'.
Defined.

Lemma keyless_ok : keys_ok keyless.
Proof. split; [exact (NoDup_singleton _)|exact NoDup_nil_2|intros k Hk|intros k k' Hk]; by apply not_elem_of_nil in Hk. Qed.
Lemma rotated_key_takes_over_witness : LoadPrivateKey true (Some (AESGCMEnvelope key1)) Delivered "t1" "d1" "k1" first.1.2 = Ok [1; 2; 3].
Proof.
  apply (rotated_key_takes_over (AESGCMEnvelope key1) None keyless keyless (env 5 "k1" (fun _ => true)) "t1" "d1" tt
           (mkKey "k1" "t1" "d1" "19700101T000005" "pub" DKIMKeyActive (5 * Second) (Some (5 * Second)) None None []) first.1.2 tt nonce0 "pub" [1; 2; 3]);
    [exact keyless_ok|apply rtc_refl|done..|vm_compute; reflexivity].
Defined.

(** The include of SPF is looked for as a part of the text: a name that only
    begins with it passes. *)
Theorem spf_lookalike_accepted : CheckSPF service (fun _ => Found ["v=spf1 include:_spf.kmail.test.evil.test -all"]) "acme.com" = Ok true.
Proof. vm_compute. done. Qed.

(** Without a key of its own the service shows a placeholder, and a domain that
    publishes the placeholder is verified. *)
Theorem placeholder_verifies : let unkeyed := NewService (mkDns "mx.kmail.test" "_spf.kmail.test" "" "" "" "" "" "") in
  let recs := GenerateRecords unkeyed "acme.com" in
  "v=DKIM1; k=rsa; p=<PUBLIC_KEY>" ∈ dr_Value <$> dr_Records recs /\ CheckDKIM unkeyed (zone recs "TXT") "acme.com" "" = Ok true.
Proof. split; [right; right; by left|]. vm_compute. done. Qed.

(** A verification looks at the default selector: after a rotation the domain
    verifies with nothing published for the key that signs. *)
Theorem active_selector_unchecked : exists k, keys first.1.2 = [k] /\ active k = true /\
  zone shown "TXT" (Selector k +:+ "._domainkey.acme.com") = NoData /\
  exists v b, VerifyDomain service (zone shown "MX") (zone shown "TXT") true Delivered Delivered (fun b => b) 9 "t1" "d1" (tables first.1.2) = (Ok v, b) /\ vr_Verified v = true.
Proof. vm_compute. eexists. split_and!; [done..|]. eexists _, _. done. Qed.

(** Two rotations that overlap leave two active keys. *)
Theorem overlapping_rotations_two_active : is_ok first.1.1 = true /\ is_ok overlapping.1.1 = true /\
  (fun k => (kID k, kDomainID k, active k)) <$> keys overlapping.1.2 = [("k1", "d1", true); ("k2", "d1", true)].
Proof. vm_compute. done. Qed.

(** The selector has the time of day. *)
Theorem selector_has_time : Selector <$> keys first.1.2 = ["19700101T000005"].
Proof. vm_compute. done. Qed.

(** What is shown as pending is the active key, whatever DNS publishes. *)
Theorem pending_is_active_key byAge d t dm rec (s : kdb) p :
  PendingRotation_of true byAge d t dm rec s = Ok p -> pd_NewKeyID p <> "" -> exists l k, ListKeys true byAge d t dm s = Ok l /\ k ∈ l /\ active k = true /\ pd_Selector p = Selector k.
Proof.
  unfold PendingRotation_of. intros (l & Hl & Hp)%rbind_ok Hid. exists l. destruct (List.find active l) as [k|] eqn:Ef.
  - apply find_elem in Ef as [? ?]. injection Hp as <-. by exists k.
  - destruct (negb _); [|done]. by injection Hp as <-.
Qed.
