(* ===== verification/Welcome.v ===== *)
(** * The welcome mail of a signup ([internal/tenant/signup_wiring.go])

    [JMAPWelcomeMailer]: a draft and its submission in one JMAP request, sent
    as the system's notification mailbox through the client of [JmapClient]; it
    is the mailer of [Signup] and lists the records of [Dns].  Texts of errors are left out: they are only
    logged. *)

From S2P Require Import Prelude Text Table JmapClient Signup Dns.

Local Open Scope Z_scope.
Local Open Scope go_scope.

(** ** What is written *)
Definition newline : string := String.String (Ascii.ascii_of_nat 10) "".
Definition tab : string := String.String (Ascii.ascii_of_nat 9) "".
Fixpoint spaces (n : nat) : string := match n with O => "" | S n => String.String (Ascii.ascii_of_nat 32) (spaces n) end.
(** [%-5s]. *)
Definition padded (s : string) : string := s +:+ spaces (5 - String.length s).
Definition record_line (r : DomainRecord) : string := "  " +:+ padded (dr_Type r) +:+ " " +:+ dr_Name r +:+ tab +:+ dr_Value r +:+ newline.
Definition buildWelcomeBody (msg : WelcomeMessage DomainRecords) : string :=
  "Welcome to KMail!" +:+ newline +:+ newline
  +:+ "Your " +:+ wm_OrgName _ msg +:+ " workspace on the " +:+ wm_Plan _ msg +:+ " plan is ready." +:+ newline +:+ newline
  +:+ "Finish setting up your domain and DNS here:" +:+ newline +:+ wm_LoginURL _ msg +:+ newline
  +:+ match wm_DNSRecords _ msg with
      | Some d =>
          match dr_Records d with
          | [] => ""
          | l => newline +:+ "To send mail from " +:+ dr_Domain d +:+ ", publish these DNS records:" +:+ newline +:+ foldr (fun r s => record_line r +:+ s) "" l
          end
      | None => ""
      end.

(** ** Answers *)
(** The first rejected entry of a set response, if any. *)
Definition firstSetError (args : list (string * json)) (key : string) : bool := match as_object (field key args) with [] => false | _ => true end.

(** The id of the first item that [wanted] picks, else the first id there is. *)
Fixpoint choose_from (wanted : list (string * json) -> bool) (fallback : string) (items : list json) : string :=
  match items with
  | [] => fallback
  | item :: items =>
      let o := as_object item in
      let id := as_string (field "id" o) in
      if String.eqb id "" then choose_from wanted fallback items
      else if wanted o then id
      else choose_from wanted (if String.eqb fallback "" then id else fallback) items
  end.
Definition choose (wanted : list (string * json) -> bool) (r : JmapResponse) (callID : string) : option string :=
  match FirstCallError r with
  | Some _ => None
  | None =>
      match CallByID callID r with
      | None => None
      | Some (_, args) => let id := choose_from wanted "" (as_array (field "list" args)) in if String.eqb id "" then None else Some id
      end
  end.

(** ** The mailer *)
Record JMAPWelcomeMailer := mkMailer { senderTenantID : string; senderKChatUserID : string; fromAddress : string; identityID : string }.
(** [None]: the welcome mail is off. *)
Definition NewJMAPWelcomeMailer (submitter : bool) (senderTenantID senderKChatUserID fromAddress identityID : string) : option JMAPWelcomeMailer :=
  if negb submitter || String.eqb senderTenantID "" || String.eqb senderKChatUserID "" || String.eqb fromAddress "" then None
  else Some (mkMailer senderTenantID senderKChatUserID fromAddress identityID).

Definition core : string := "urn:ietf:params:jmap:core".
Definition mail : string := "urn:ietf:params:jmap:mail".
Definition submission : string := "urn:ietf:params:jmap:submission".

Definition get_request (using_ : list string) (method accountID callID : string) (properties : list string) : JmapRequest :=
  mkJmapRequest using_ [(method, JObject [("accountId", JString accountID); ("ids", JNull); ("properties", JArray (JString <$> properties))]%string, callID)].

Section mailer.
Context {W : Type} (ResolveAccountID : string -> string -> W -> option string * W) (Dispatch : string -> string -> JmapRequest -> W -> result cerror JmapResponse * W).
Context (m : JMAPWelcomeMailer).
Abbreviation dispatch := (Dispatch (senderTenantID m) (senderKChatUserID m)).

Definition resolveDraftsMailbox (accountID : string) (w : W) : option string * W :=
  let '(r, w) := dispatch (get_request [core; mail] "Mailbox/get" accountID "m0" ["id"; "role"]%string) w in
  (match r with Err _ => None | Ok resp => choose (fun o => EqualFold (as_string (field "role" o)) "drafts") resp "m0" end, w).
Definition resolveIdentityID (accountID : string) (w : W) : option string * W :=
  let '(r, w) := dispatch (get_request [core; submission] "Identity/get" accountID "i0" ["id"; "email"]%string) w in
  (match r with Err _ => None | Ok resp => choose (fun o => EqualFold (as_string (field "email" o)) (fromAddress m)) resp "i0" end, w).

Definition address (a : string) : json := JObject [("email"%string, JString a)].
Definition email_create (mailboxID : string) (msg : WelcomeMessage DomainRecords) : json :=
  JObject [("mailboxIds", JObject [(mailboxID, JBool true)]); ("keywords", JObject [("$draft", JBool true); ("$seen", JBool true)]);
           ("from", JArray [address (fromAddress m)]); ("to", JArray [address (wm_To _ msg)]); ("subject", JString ("Welcome to KMail, " +:+ wm_OrgName _ msg));
           ("bodyValues", JObject [("body", JObject [("value", JString (buildWelcomeBody msg))])]);
           ("textBody", JArray [JObject [("partId", JString "body"); ("type", JString "text/plain")]])]%string.
Definition submission_create (idn : string) (msg : WelcomeMessage DomainRecords) : json :=
  JObject ([("emailId", JString "#welcome"); ("envelope", JObject [("mailFrom", address (fromAddress m)); ("rcptTo", JArray [address (wm_To _ msg)])])]%string
           ++ if String.eqb idn "" then [] else [("identityId"%string, JString idn)]).
Definition welcome_request (accountID mailboxID idn : string) (msg : WelcomeMessage DomainRecords) : JmapRequest :=
  mkJmapRequest [core; mail; submission]
    [("Email/set", JObject [("accountId", JString accountID); ("create", JObject [("welcome", email_create mailboxID msg)])], "c0");
     ("EmailSubmission/set", JObject [("accountId", JString accountID); ("create", JObject [("sub", submission_create idn msg)]);
        ("onSuccessDestroyEmail", JArray [JString "#welcome"])], "c1")]%string.

(** A create of the call was refused. *)
Definition refused_create (callID : string) (r : JmapResponse) : bool := match CallByID callID r with Some (_, args) => firstSetError args "notCreated" | None => false end.

(** Did it report success. *)
Definition SendWelcome (msg : WelcomeMessage DomainRecords) (w : W) : bool * W :=
  match ResolveAccountID (senderTenantID m) (senderKChatUserID m) w with
  | (None, w) => (false, w)
  | (Some accountID, w) =>
      match resolveDraftsMailbox accountID w with
      | (None, w) => (false, w)
      | (Some mailboxID, w) =>
          let '(idn, w) := if String.eqb (identityID m) "" then let '(r, w) := resolveIdentityID accountID w in (default ""%string r, w) else (identityID m, w) in
          match dispatch (welcome_request accountID mailboxID idn msg) w with
          | (Err _, w) => (false, w)
          | (Ok resp, w) =>
              (match FirstCallError resp with
               | Some _ => false
               | None => negb (refused_create "c0" resp) && negb (refused_create "c1" resp)
               end, w)
          end
      end
  end.

(** ** What a choice is *)
Definition item_id (j : json) : string := as_string (field "id" (as_object j)).

Lemma choose_from_spec wanted fb items : fb <> ""%string \/ (exists j, j ∈ items /\ item_id j <> ""%string) ->
  let id := choose_from wanted fb items in
  id <> ""%string /\ (id = fb \/ exists j, j ∈ items /\ item_id j = id) /\
  ((exists j, j ∈ items /\ item_id j <> ""%string /\ wanted (as_object j) = true) -> exists j, j ∈ items /\ item_id j = id /\ wanted (as_object j) = true).
Proof.
  revert fb. induction items as [|j items IH]; intros fb Hne; cbn [choose_from].
  - destruct Hne as [H|(j & Hj & _)]; [|by apply not_elem_of_nil in Hj]. split_and!; [done|by left|]. intros (j & Hj & _). by apply not_elem_of_nil in Hj.
  - fold (item_id j). destruct (String.eqb_spec (item_id j) "") as [E|E].
    + destruct (IH fb) as (H1 & H2 & H3). { destruct Hne as [|(k & [-> |Hk]%elem_of_cons & Hki)]; [by left|done|right; by exists k]. }
      split_and!; [done|destruct H2 as [|(k & Hk & Hki)]; [by left|right; exists k; split; [by right|done]]|].
      intros (k & [-> |Hk]%elem_of_cons & Hki & Hw); [done|]. destruct H3 as (k' & ? & ?); [by exists k|]. exists k'. split; [by right|done].
    + destruct (wanted (as_object j)) eqn:Ew.
      * split_and!; [done|right; exists j; split; [by left|done]|]. intros _. exists j. split_and!; [by left|done|done].
      * set (fb' := if String.eqb fb "" then item_id j else fb). assert (fb' <> ""%string) as Hfb by (unfold fb'; by destruct (String.eqb_spec fb "")).
        destruct (IH fb') as (H1 & H2 & H3); [by left|]. split_and!; [done| |].
        -- destruct H2 as [H2|(k & Hk & Hki)]; [|right; exists k; split; [by right|done]]. rewrite H2. unfold fb'. destruct (String.eqb fb ""); [right; exists j; split; [by left|done]|by left].
        -- intros (k & [-> |Hk]%elem_of_cons & Hki & Hw); [congruence|]. destruct H3 as (k' & ? & ?); [by exists k|]. exists k'. split; [by right|done].
Qed.

Lemma choose_from_some wanted fb items : choose_from wanted fb items <> ""%string -> fb <> ""%string \/ exists j, j ∈ items /\ item_id j <> ""%string.
Proof.
  revert fb. induction items as [|j items IH]; intros fb; cbn [choose_from]; [by left|]. fold (item_id j). destruct (String.eqb_spec (item_id j) "") as [E|E].
  - intros [|(k & Hk & Hki)]%IH; [by left|right; exists k; split; [by right|done]].
  - intros _. right. exists j. split; [by left|done].
Qed.

(** What is chosen is the id of a listed item, one that is wanted if any is. *)
Theorem choose_prefers wanted r callID id : choose wanted r callID = Some id ->
  exists name args, CallByID callID r = Some (name, args) /\ id <> ""%string /\
    let items := as_array (field "list" args) in
    (exists j, j ∈ items /\ item_id j = id) /\
    ((exists j, j ∈ items /\ item_id j <> ""%string /\ wanted (as_object j) = true) -> exists j, j ∈ items /\ item_id j = id /\ wanted (as_object j) = true).
Proof.
  unfold choose. destruct (FirstCallError r); [done|]. destruct (CallByID callID r) as [[name args]|]; [|done]. set (items := as_array _).
  destruct (String.eqb_spec (choose_from wanted ""%string items) ""%string) as [|Hne]; [done|]. intros [= <-]. exists name, args. split; [done|]. split; [done|].
  destruct (choose_from_spec wanted ""%string items) as (_ & H2 & H3); [by apply choose_from_some in Hne|]. split; [|done]. destruct H2 as [H2|H2]; [done|exact H2].
Qed.

(** A success is a submission the server took: the last thing sent is the one
    request with the draft in a mailbox of the account and the submission to
    the address of the message and nobody else, and the server refused neither
    of the two. *)
Theorem welcome_was_accepted msg w w' : SendWelcome msg w = (true, w') ->
  exists accountID mailboxID idn w1 resp, mailboxID <> ""%string /\
    Dispatch (senderTenantID m) (senderKChatUserID m) (welcome_request accountID mailboxID idn msg) w1 = (Ok resp, w') /\
    FirstCallError resp = None /\ refused_create "c0" resp = false /\ refused_create "c1" resp = false.
Proof.
  unfold SendWelcome. destruct (ResolveAccountID _ _ w) as [[acct|] wa]; [|done]. destruct (resolveDraftsMailbox acct wa) as [[mb|] wb] eqn:Em; [|done].
  assert (mb <> ""%string) as Hmb.
  { unfold resolveDraftsMailbox in Em. destruct (dispatch _ wa) as [[resp|] w0]; [|done]. injection Em as Em _. by apply choose_prefers in Em as (? & ? & _ & ? & _). }
  destruct (if String.eqb (identityID m) "" then _ else _) as [idn wc]. destruct (dispatch (welcome_request acct mb idn msg) wc) as [[resp|] wd] eqn:Ed; [|done].
  intros [= Hok ->]. exists acct, mb, idn, wc, resp. destruct (FirstCallError resp); [done|]. apply andb_prop in Hok as [H1%negb_true_iff H2%negb_true_iff]. done.
Qed.
End mailer.

(** The mailer of [Signup], whose errors are only logged. *)
Definition signup_mailer {W} (ResolveAccountID : string -> string -> W -> option string * W) (Dispatch : string -> string -> JmapRequest -> W -> result cerror JmapResponse * W)
    (m : option JMAPWelcomeMailer) : option (WelcomeMessage DomainRecords -> W -> W) :=
  (fun m msg w => (SendWelcome ResolveAccountID Dispatch m msg w).2) <$> m.

(** ** Examples *)
Module WelcomeExamples.
(** A server that keeps what it is asked and lists two mailboxes and no
    identity. *)
Definition resolve_account (_ _ : string) (w : list JmapRequest) : option string * list JmapRequest := (Some "acc"%string, w).
Definition mailbox (id role : string) : json := JObject [("id"%string, JString id); ("role"%string, JString role)].
Definition answer (r : JmapRequest) : JmapResponse :=
  match MethodCalls r with
  | [(method, _, id)] => mkJmapResponse [[JString method; JObject [("list"%string, if String.eqb id "m0" then JArray [mailbox "in" "inbox"; mailbox "dr" "Drafts"] else JArray [])]; JString id]]
  | _ => mkJmapResponse [[JString "Email/set"; JObject []; JString "c0"]; [JString "EmailSubmission/set"; JObject []; JString "c1"]]
  end%string.
Definition dispatch (_ _ : string) (r : JmapRequest) (w : list JmapRequest) : result cerror JmapResponse * list JmapRequest := (Ok (answer r), w ++ [r]).
Definition system : JMAPWelcomeMailer := mkMailer "sys" "bot" "noreply@kmail" "".
Definition message : WelcomeMessage DomainRecords := mkWelcome "jane@acme.com" "Acme" "core" "t1" "/admin/dns-wizard" None.
Definition sent : bool * list JmapRequest := SendWelcome resolve_account dispatch system message [].
End WelcomeExamples.

Import WelcomeExamples.
Local Open Scope string_scope.

Example sent_shown : sent.1 = true /\ List.last sent.2 (mkJmapRequest [] []) = welcome_request system "acc" "dr" "" message.
Proof. vm_compute. done. Qed.

(** [onSuccessDestroyEmail] lists submissions (RFC 8621, 7.5); the request
    creates one, [sub], and lists the draft. *)
Lemma draft_is_not_destroyed m acct mb idn msg : exists args,
  MethodCalls (welcome_request m acct mb idn msg) !! 1%nat = Some ("EmailSubmission/set", JObject args, "c1") /\
  (as_object (field "create" args)).*1 = ["sub"] /\ as_array (field "onSuccessDestroyEmail" args) = [JString "#welcome"].
Proof. by eexists. Qed.
